(* ===== verification/_CoqProject ===== *)
-Q . S2P
Prelude.v
Decimal.v
IOUAmount.v
STAmount.v
Serializer.v
Keys.v
SField.v
STObject.v
STWire.v
STObjectWire.v
View.v
TER.v
Indexes.v
STAccess.v
Formats.v
STTx.v
HashRouter.v
RawStateTable.v
ApplyStateTable.v
Directory.v
Prog.v
LoadFee.v
Invariants.v
Entries.v
TxMeta.v
MetaCommit.v
OwnerDir.v
LedgerView.v
Transactor.v
Unfunded.v
Engine.v
AccountTx.v
TrustTx.v
Conditions.v
Funds.v
Escrow.v
PayChan.v
Payment.v
ChangeTx.v
PaymentSandbox.v
Checks.v
Classes.v
Consensus.v
Round.v
RoundInv.v
LedgerTrie.v
TriePreferred.v
TrieInvariants.v
Validations.v
ValidationsVotes.v
SHAMapNode.v
SHAMapWire.v
SHAMap.v
SHAMapInv.v
SHAMapOps.v
SHAMapFlush.v
SHAMapSystem.v
