(* ===== verification/Prelude.v ===== *)
(** * Verification of the SupplyFinanceChain server

    SupplyFinanceChain (src/SupplyFinanceChain) is a peer-to-peer ledger server in
    C++. A ledger is a map from 256-bit keys to entries (accounts, trust lines,
    offers, escrows, directories), kept in a hash tree. Transactions are signed
    objects that change it; validators agree by consensus on which transactions the
    next ledger contains and vote for ledgers with signed validations. Paths below
    are relative to src/SupplyFinanceChain/src/SupplyFinanceChain.

    ** The parts and the files that model them

    Amounts.
    - [Prelude] (this file): exceptions and the error monad [res], integers at their
      width ([u32], [u64], [i64], with the wrap-around written out), generic lemmas.
    - [Decimal], [IOUAmount]: protocol/impl/IOUAmount.cpp, decimal floating point with
      a 54-bit mantissa; the scaling loops are structural in the distance left.
    - [STAmount]: protocol/impl/STAmount.cpp, native and issued amounts, arithmetic,
      rounding, offer rates.

    Serialized objects.
    - [Serializer], [STObject], [STWire], [STObjectWire]: Serializer.cpp, SerialIter,
      the ST* classes and STObject.cpp, the wire format in both directions.
    - [SField], [STAccess], [Formats]: the table of fields, typed field access, the
      templates of ledger entries and transactions (LedgerFormats.cpp, TxFormats.cpp).
    - [Keys], [STTx]: signature canonicality and verification (PublicKey.cpp), signed
      transactions and their checks (STTx.cpp, Sign.cpp).
    - [Indexes]: protocol/impl/Indexes.cpp, the keys of ledger entries.
    - [TER]: result codes and flags.

    The ledger and its views.
    - [View]: the interfaces ReadView and RawView as a record and a class of laws.
    - [RawStateTable], [ApplyStateTable]: ledger/detail and ledger/impl, the buffered
      changes of an OpenView and of a transactor's sandbox, entry objects shared by
      pointer included.
    - [Prog]: what code over an ApplyView can do, as a monad with a reading over the
      sandbox and one over a finite map, and their agreement.
    - [Directory], [OwnerDir]: ApplyView::dirAdd and dirRemove, over pages and over the
      ledger entries that hold them.
    - [Entries]: native money in the entries of a ledger, and a proof system for
      programs that leave it alone.
    - [LedgerView]: ledger/impl/View.cpp, balances, reserves, freezes, trust lines and
      transfers.
    - [Invariants]: app/tx/impl/InvariantCheck.cpp and ApplyContext.cpp.
    - [TxMeta], [MetaCommit]: ledger/impl/TxMeta.cpp and ApplyStateTable::apply to an
      OpenView, the metadata of a transaction, threading and the commit.
    - [PaymentSandbox]: ledger/impl/PaymentSandbox.cpp, deferred credits and nested
      sandboxes.

    Transactions.
    - [HashRouter], [LoadFee]: app/misc/HashRouter.cpp with the cached verdicts of
      app/tx/impl/apply.cpp, and app/misc/impl/LoadFeeTrack.cpp.
    - [Transactor], [Engine]: app/tx/impl/Transactor.cpp, applySteps.cpp, ApplyContext.cpp
      and SignerEntries.cpp, the three stages a transaction goes through. A transactor
      is a record [TxClass] of its stages; the engine is proved for any such record.
    - [AccountTx]: SetRegularKey, SetSignerList, DepositPreauth, tickets, CancelOffer and
      SetAccount. [TrustTx]: SetTrust. [Funds], [Escrow], [Conditions]: Escrow.cpp and
      conditions/. [PayChan], [Payment], [ChangeTx], [Checks]: the files of those names
      in app/tx/impl. [Classes]: the switch over the types of transactions.

    Consensus.
    - [Consensus]: consensus/Consensus.cpp, DisputedTx.h, LedgerTiming.h, the decisions
      of a round.
    - [Round], [RoundInv]: consensus/Consensus.h, the rounds themselves; the adaptor's
      answers are arguments and transaction sets a class with laws.
    - [LedgerTrie], [TriePreferred], [TrieInvariants]: consensus/LedgerTrie.h.
    - [Validations], [ValidationsVotes]: consensus/Validations.h.

    The hash tree.
    - [SHAMapNode], [SHAMapWire], [SHAMap], [SHAMapInv], [SHAMapOps], [SHAMapFlush],
      [SHAMapSystem]: shamap/, nodes in a shared store with copy on write, the item
      operations, the wire formats, flushing and snapshots.

    ** What the theorems show

    - Amounts: results are canonical, arithmetic and rounding err by at most the
      stated amount and in the stated direction, comparisons are orders, the two
      amount types agree.
    - Objects: what is written is read back as it was, parsing ends on every input,
      typed access cannot change the type of a field, keys of different kinds or
      parameters differ as far as the hash tells its inputs apart.
    - Signatures: a transaction is accepted exactly when it carries the signatures the
      protocol asks for; a fully canonical signature cannot be altered.
    - Views: the buffered tables show the ledger after the changes made so far and
      commit exactly those; a directory stays a well-formed ring with exactly the
      entries added and not removed.
    - Money: transfers move exactly the amount; the invariant checks, when they pass,
      establish what they are named after.
    - Transactions: what is applied is authorised and in sequence; what is committed
      has passed the invariants; a result that claims a fee changes nothing but the fee
      and the sequence number; a commit shows exactly the changes, with metadata that
      list them. Escrows, channels, checks and payments move exactly the amounts they
      are for and to the accounts they name; no transaction locks an account out; what
      a payment receives it cannot spend; the ledger's amendments refine the set that
      was announced.
    - Consensus: the disputes of a round are exactly the differences between the sets of
      the peers and ours, a ledger is accepted only with agreement on its transactions
      and its close time, agreement thresholds exclude each other, the trie counts votes as the
      list of validations does and prefers the branch the rule defines, validated
      sequence numbers increase.
    - Hash tree: maps that share nodes behave like separate finite maps.

    ** Parameters, bounds and fuel

    Hash functions and curve arithmetic are parameters; a property that needs
    distinct digests has that as a hypothesis, which a witness instantiates. Numbers
    are [Z] with the width of the C++ type written out where it can be exceeded.
    Recursion that is not structural takes fuel from a bound of the data: the length of
    the bytes left for parsing, the number of pages for directory walks, the depth 64 of
    the hash tree, the distance of exponents for scaling; the theorems show that this
    is enough. Assertions are not modelled: a release build does not have them.
    Logging, locks and JSON output are left out.

    ** Not modelled

    Networking, storage back ends, job queues, RPC handlers and configuration are I/O
    or concurrency around the modelled code. Cryptography and vendored libraries are
    parameters. The payment engine (app/paths) is a parameter of the transactions that
    call it, and the crossing of offers (CreateOffer) one of the table of types. The
    transaction queue and ledger acquisition are not modelled. *)

From Stdlib Require Export ZArith Lia.
From stdpp Require Export base option list numbers strings gmap.

#[global] Open Scope Z_scope.

(** ** Exceptions

    [Throw<E> (msg)] of basics/contract.h raises a C++ exception; a function
    that may throw returns a [res]. The exception carries its class and the
    literal part of its message. *)

Inductive exn :=
| overflow_error (what : string)
| runtime_error (what : string)
| logic_error (what : string).

Inductive res (A : Type) :=
| Ok (a : A)
| Throw (e : exn).
Arguments Ok {A} a.
Arguments Throw {A} e.

#[export] Instance res_ret : MRet res := @Ok.
#[export] Instance res_bind : MBind res := fun A B f m =>
  match m with Ok a => f a | Throw e => Throw e end.
#[export] Instance res_fmap : FMap res := fun A B f m =>
  match m with Ok a => Ok (f a) | Throw e => Throw e end.

Definition is_Ok {A} (r : res A) : bool :=
  match r with Ok _ => true | Throw _ => false end.

(** [try { r } catch (std::exception const&) { h }]. *)
Definition catch {A} (r : res A) (h : res A) : res A :=
  match r with Ok a => Ok a | Throw _ => h end.

Lemma bind_Ok {A B} (f : A -> res B) (m : res A) b :
  (m ≫= f) = Ok b <-> exists a, m = Ok a /\ f a = Ok b.
Proof.
  destruct m as [a|e]; cbn; split.
  - intros H. by exists a.
  - intros (? & [= ->] & H). exact H.
  - discriminate.
  - by intros (? & ? & _).
Qed.

Lemma bind_Throw {A B} (f : A -> res B) (m : res A) e :
  (m ≫= f) = Throw e <-> m = Throw e \/ exists a, m = Ok a /\ f a = Throw e.
Proof.
  destruct m as [a|e']; cbn; split.
  - intros H. right. by exists a.
  - by intros [?|(? & [= ->] & H)].
  - intros [= ->]. by left.
  - by intros [[= ->]|(? & ? & _)].
Qed.

(** Inverts every hypothesis saying that a monadic computation returned. *)
Ltac res_inv :=
  repeat match goal with
  | H : Ok _ = Ok _ |- _ => injection H as H; try subst
  | H : Ok _ = Throw _ |- _ => discriminate H
  | H : Throw _ = Ok _ |- _ => discriminate H
  | H : Throw _ = Throw _ |- _ => injection H as H; try subst
  | H : (_ ≫= _) = Ok _ |- _ =>
      let a := fresh "a" in let E := fresh "E" in
      apply bind_Ok in H as (a & E & H)
  | H : mret _ = _ |- _ => unfold mret, res_ret in H
  | H : _ = mret _ |- _ => unfold mret, res_ret in H
  end.

(** ** Machine integers

    Unsigned arithmetic wraps; a cast to a signed type takes the two's
    complement representative. *)

Definition u8 (z : Z) : Z := z mod 2 ^ 8.
Definition u16 (z : Z) : Z := z mod 2 ^ 16.
Definition u32 (z : Z) : Z := z mod 2 ^ 32.
Definition u64 (z : Z) : Z := z mod 2 ^ 64.
Definition i64 (z : Z) : Z := (z + 2 ^ 63) mod 2 ^ 64 - 2 ^ 63.

Lemma u64_small z : 0 <= z < 2 ^ 64 -> u64 z = z.
Proof. intros. by apply Z.mod_small. Qed.

Lemma u32_small z : 0 <= z < 2 ^ 32 -> u32 z = z.
Proof. apply Z.mod_small. Qed.

Lemma i64_small z : - 2 ^ 63 <= z < 2 ^ 63 -> i64 z = z.
Proof. intros. unfold i64. rewrite Z.mod_small; lia. Qed.

Lemma u64_range z : 0 <= u64 z < 2 ^ 64.
Proof. apply Z.mod_pos_bound. lia. Qed.

(** Packing a low field under a shifted high field. *)
Lemma land_shift_low a b n : 0 <= n -> 0 <= b < 2 ^ n -> Z.land (a * 2 ^ n) b = 0.
Proof.
  intros Hn Hb. apply Z.bits_inj'. intros i Hi. rewrite Z.land_spec, Z.bits_0.
  destruct (Z.lt_ge_cases i n).
  - by rewrite Z.mul_pow2_bits_low.
  - rewrite <- (Z.mod_small b (2 ^ n)), Z.mod_pow2_bits_high by lia. apply andb_false_r.
Qed.

Lemma lor_shift_low a b n : 0 <= n -> 0 <= b < 2 ^ n -> Z.lor (a * 2 ^ n) b = a * 2 ^ n + b.
Proof.
  intros Hn Hb. pose proof (land_shift_low a b n Hn Hb) as H.
  by rewrite <- Z.lxor_lor, <- Z.add_nocarry_lxor.
Qed.

Lemma shiftr_high a b n : 0 <= n -> 0 <= b < 2 ^ n -> Z.shiftr (a * 2 ^ n + b) n = a.
Proof.
  intros. rewrite Z.shiftr_div_pow2, Z.div_add_l, Z.div_small by lia. lia.
Qed.

Lemma land_low a b n : 0 <= n -> 0 <= b < 2 ^ n -> Z.land (a * 2 ^ n + b) (2 ^ n - 1) = b.
Proof.
  intros. replace (2 ^ n - 1) with (Z.ones n) by (rewrite Z.ones_equiv; lia).
  rewrite Z.land_ones, Z.add_comm, Z_mod_plus_full by lia. by apply Z.mod_small.
Qed.

(** ** Loops

    A C++ [while (cond) body] whose state is [S]. The fuel is computed from the
    state by a measure; [while_exit] shows, for each measure that the body
    decreases, that the loop leaves by its own condition and never by the fuel. *)

Section Loops.
Context {S : Type}.

Fixpoint while_fuel (fuel : nat) (cond : S -> bool) (body : S -> S) (s : S) : S :=
  match fuel with
  | O => s
  | Datatypes.S n => if cond s then while_fuel n cond body (body s) else s
  end.

Definition while (m : S -> nat) (cond : S -> bool) (body : S -> S) (s : S) : S :=
  while_fuel (m s) cond body s.

Variables (m : S -> nat) (cond : S -> bool).

Lemma while_fuel_inv (I : S -> Prop) (body : S -> S) :
  (forall s, I s -> cond s = true -> I (body s)) ->
  forall n s, I s -> I (while_fuel n cond body s).
Proof.
  intros Hb n. induction n as [|n IH]; intros s Hs; cbn; [done|].
  destruct (cond s) eqn:E; auto.
Qed.

Lemma while_fuel_exit (I : S -> Prop) (body : S -> S) :
  (forall s, I s -> cond s = true -> I (body s) /\ (m (body s) < m s)%nat) ->
  forall n s, I s -> (m s <= n)%nat -> cond (while_fuel n cond body s) = false.
Proof.
  intros Hb n. induction n as [|n IH]; intros s Hs Hm; cbn.
  - destruct (cond s) eqn:E; [|done]. destruct (Hb s Hs E); lia.
  - destruct (cond s) eqn:E; [|done]. destruct (Hb s Hs E). apply IH; [done|lia].
Qed.

(** The loop ends by its condition, and keeps any invariant of its body. *)
Lemma while_spec (I : S -> Prop) (body : S -> S) s :
  (forall s, I s -> cond s = true -> I (body s) /\ (m (body s) < m s)%nat) ->
  I s ->
  I (while m cond body s) /\ cond (while m cond body s) = false.
Proof.
  intros Hb Hs. unfold while. split.
  - apply while_fuel_inv; [|done]. intros ? ? ?. by apply Hb.
  - by eapply while_fuel_exit.
Qed.

(** [while] loops whose body may throw. *)
Fixpoint whileR_fuel (fuel : nat) (cond : S -> bool) (body : S -> res S) (s : S) : res S :=
  match fuel with
  | O => Ok s
  | Datatypes.S n => if cond s then s' ← body s; whileR_fuel n cond body s' else Ok s
  end.

Definition whileR (m : S -> nat) (cond : S -> bool) (body : S -> res S) (s : S) : res S :=
  whileR_fuel (Datatypes.S (m s)) cond body s.

Lemma whileR_fuel_spec (I : S -> Prop) (body : S -> res S) :
  (forall s s', I s -> cond s = true -> body s = Ok s' -> I s' /\ (m s' < m s)%nat) ->
  forall n s s', I s -> (m s < n)%nat -> whileR_fuel n cond body s = Ok s' ->
  I s' /\ cond s' = false.
Proof.
  intros Hb n. induction n as [|n IH]; intros s s' Hs Hm E; [lia|]. cbn in E.
  destruct (cond s) eqn:C; res_inv; [|done].
  destruct (Hb _ _ Hs C E0). eapply IH; eauto; lia.
Qed.

Lemma whileR_spec (I : S -> Prop) (body : S -> res S) s s' :
  (forall s s', I s -> cond s = true -> body s = Ok s' -> I s' /\ (m s' < m s)%nat) ->
  I s -> whileR m cond body s = Ok s' ->
  I s' /\ cond s' = false.
Proof. intros Hb Hs E. eapply whileR_fuel_spec; eauto. Qed.

Lemma while_stop (body : S -> S) s : cond s = false -> while m cond body s = s.
Proof. intros E. unfold while. destruct (m s); cbn; by rewrite ?E. Qed.

Lemma whileR_stop (body : S -> res S) s : cond s = false -> whileR m cond body s = Ok s.
Proof. intros E. unfold whileR. cbn. by rewrite E. Qed.

(** A throwing loop throws from some state its invariant holds of. *)
Lemma whileR_throw (I : S -> Prop) (body : S -> res S) s e :
  (forall s s', I s -> cond s = true -> body s = Ok s' -> I s') ->
  I s -> whileR m cond body s = Throw e ->
  exists s', I s' /\ cond s' = true /\ body s' = Throw e.
Proof.
  intros Hb. unfold whileR. generalize (Datatypes.S (m s)) as n. intros n.
  revert s. induction n as [|n IH]; intros s Hs E; cbn in E; [discriminate|].
  destruct (cond s) eqn:C; [|discriminate].
  apply bind_Throw in E as [E|(s'&E1&E2)]; eauto.
Qed.

End Loops.

(** ** Range-for

    [for (auto& a : l) body], the body updating a state and allowed to throw. *)
Fixpoint for_each {A T} (f : A -> T -> res T) (l : list A) (t : T) : res T :=
  match l with
  | [] => Ok t
  | a :: l => t' ← f a t; for_each f l t'
  end.
