(* ===== verification/Decimal.v ===== *)
(** * Decimal floating point: shared loops and their closed forms

    [IOUAmount] and [STAmount] both represent a number as a mantissa times a
    power of ten and share the shape of their normalization loops. This file
    holds those loops ([grow], [shrink], [align]), the exact order on decimals
    they are judged against ([dle], [dlt]) and the closed form of each loop. *)

From S2P Require Import Prelude.

(** ** The exact order on decimals [m * 10^e] *)

Section Order.
Implicit Types m e K : Z.

Definition dle m1 e1 m2 e2 : Prop :=
  m1 * 10 ^ (e1 - Z.min e1 e2) <= m2 * 10 ^ (e2 - Z.min e1 e2).
Definition dlt m1 e1 m2 e2 : Prop :=
  m1 * 10 ^ (e1 - Z.min e1 e2) < m2 * 10 ^ (e2 - Z.min e1 e2).
Definition deq m1 e1 m2 e2 : Prop :=
  m1 * 10 ^ (e1 - Z.min e1 e2) = m2 * 10 ^ (e2 - Z.min e1 e2).

Lemma pow10_pos e : 0 <= e -> 0 < 10 ^ e.
Proof. intros. apply Z.pow_pos_nonneg; lia. Qed.

Lemma pow10_add a b : 0 <= a -> 0 <= b -> 10 ^ (a + b) = 10 ^ a * 10 ^ b.
Proof. intros. by apply Z.pow_add_r. Qed.

Lemma pow10_ge a b : 0 <= a <= b -> 10 ^ a <= 10 ^ b.
Proof. intros. apply Z.pow_le_mono_r; lia. Qed.

(** Scaling by any common power of ten that makes both exponents natural
    decides the order. *)
Lemma scale_split e1 e2 K : -K <= e1 -> -K <= e2 ->
  10 ^ (e1 + K) = 10 ^ (e1 - Z.min e1 e2) * 10 ^ (Z.min e1 e2 + K).
Proof. intros. rewrite <- pow10_add by lia. f_equal. lia. Qed.

Lemma dle_scaled K m1 e1 m2 e2 : -K <= e1 -> -K <= e2 ->
  dle m1 e1 m2 e2 <-> m1 * 10 ^ (e1 + K) <= m2 * 10 ^ (e2 + K).
Proof.
  intros H1 H2. unfold dle. rewrite (scale_split e1 e2 K), (scale_split e2 e1 K) by done.
  rewrite (Z.min_comm e2 e1), !Z.mul_assoc.
  pose proof (pow10_pos (Z.min e1 e2 + K) ltac:(lia)). nia.
Qed.

Lemma dlt_scaled K m1 e1 m2 e2 : -K <= e1 -> -K <= e2 ->
  dlt m1 e1 m2 e2 <-> m1 * 10 ^ (e1 + K) < m2 * 10 ^ (e2 + K).
Proof.
  intros H1 H2. unfold dlt. rewrite (scale_split e1 e2 K), (scale_split e2 e1 K) by done.
  rewrite (Z.min_comm e2 e1), !Z.mul_assoc.
  pose proof (pow10_pos (Z.min e1 e2 + K) ltac:(lia)). nia.
Qed.

Lemma deq_scaled K m1 e1 m2 e2 : -K <= e1 -> -K <= e2 ->
  deq m1 e1 m2 e2 <-> m1 * 10 ^ (e1 + K) = m2 * 10 ^ (e2 + K).
Proof.
  intros H1 H2. unfold deq. rewrite (scale_split e1 e2 K), (scale_split e2 e1 K) by done.
  rewrite (Z.min_comm e2 e1), !Z.mul_assoc.
  pose proof (pow10_pos (Z.min e1 e2 + K) ltac:(lia)). nia.
Qed.
(** Reduces a goal on decimals to integers at a common scale. *)
Ltac dscale K :=
  rewrite ?(dle_scaled K), ?(dlt_scaled K), ?(deq_scaled K) in * by lia.

Lemma dle_refl m e : dle m e m e.
Proof. unfold dle. lia. Qed.

Lemma dle_trans m1 e1 m2 e2 m3 e3 :
  dle m1 e1 m2 e2 -> dle m2 e2 m3 e3 -> dle m1 e1 m3 e3.
Proof. dscale (Z.abs e1 + Z.abs e2 + Z.abs e3). lia. Qed.

Lemma dle_dlt_trans m1 e1 m2 e2 m3 e3 :
  dle m1 e1 m2 e2 -> dlt m2 e2 m3 e3 -> dlt m1 e1 m3 e3.
Proof. dscale (Z.abs e1 + Z.abs e2 + Z.abs e3). lia. Qed.

Lemma dlt_dle_trans m1 e1 m2 e2 m3 e3 :
  dlt m1 e1 m2 e2 -> dle m2 e2 m3 e3 -> dlt m1 e1 m3 e3.
Proof. dscale (Z.abs e1 + Z.abs e2 + Z.abs e3). lia. Qed.

Lemma dle_not_dlt m1 e1 m2 e2 : dle m1 e1 m2 e2 <-> ~ dlt m2 e2 m1 e1.
Proof. dscale (Z.abs e1 + Z.abs e2). lia. Qed.

Lemma dlt_dle m1 e1 m2 e2 : dlt m1 e1 m2 e2 -> dle m1 e1 m2 e2.
Proof. dscale (Z.abs e1 + Z.abs e2). lia. Qed.

Lemma dle_same m1 m2 e : dle m1 e m2 e <-> m1 <= m2.
Proof. unfold dle. rewrite Z.min_id, Z.sub_diag, Z.pow_0_r. lia. Qed.

Lemma dlt_same m1 m2 e : dlt m1 e m2 e <-> m1 < m2.
Proof. unfold dlt. rewrite Z.min_id, Z.sub_diag, Z.pow_0_r. lia. Qed.

Lemma deq_dle m1 e1 m2 e2 : deq m1 e1 m2 e2 <-> dle m1 e1 m2 e2 /\ dle m2 e2 m1 e1.
Proof. dscale (Z.abs e1 + Z.abs e2). lia. Qed.

Lemma deq_shift m e k : 0 <= k -> deq (m * 10 ^ k) (e - k) m e.
Proof.
  intros. dscale (Z.abs e + k). replace (e + (Z.abs e + k)) with
    (k + (e - k + (Z.abs e + k))) by lia.
  rewrite (pow10_add k) by lia. lia.
Qed.

Lemma shift_dle m e k : 0 <= k -> dle (m * 10 ^ k) (e - k) m e.
Proof. intros. exact (proj1 (proj1 (deq_dle _ _ _ _) (deq_shift m e k H))). Qed.

Lemma dle_shift m e k : 0 <= k -> dle m e (m * 10 ^ k) (e - k).
Proof. intros. exact (proj2 (proj1 (deq_dle _ _ _ _) (deq_shift m e k H))). Qed.

(** Dividing by a power of ten loses less than one unit in the last place. *)
Lemma div_dle m e k : 0 <= k -> dle (m / 10 ^ k) (e + k) m e.
Proof.
  intros. pose proof (pow10_pos k H). dscale (Z.abs e + k).
  replace (e + k + (Z.abs e + k)) with (k + (e + (Z.abs e + k))) by lia.
  rewrite (pow10_add k) by lia. pose proof (pow10_pos (e + (Z.abs e + k)) ltac:(lia)).
  pose proof (Z.mul_div_le m (10 ^ k) ltac:(lia)). nia.
Qed.

Lemma div_dlt m e k : 0 <= k -> dlt m e (m / 10 ^ k + 1) (e + k).
Proof.
  intros. pose proof (pow10_pos k H). dscale (Z.abs e + k).
  replace (e + k + (Z.abs e + k)) with (k + (e + (Z.abs e + k))) by lia.
  rewrite (pow10_add k) by lia. pose proof (pow10_pos (e + (Z.abs e + k)) ltac:(lia)).
  pose proof (Z.mul_succ_div_gt m (10 ^ k) ltac:(lia)). nia.
Qed.

(** A larger exponent only helps a nonnegative mantissa. *)
Lemma dle_exp m e1 e2 : 0 <= m -> e1 <= e2 -> dle m e1 m e2.
Proof.
  intros. dscale (Z.abs e1 + Z.abs e2).
  pose proof (pow10_ge (e1 + (Z.abs e1 + Z.abs e2)) (e2 + (Z.abs e1 + Z.abs e2))). nia.
Qed.

Lemma dle_mul c m1 e1 m2 e2 : 0 <= c -> dle m1 e1 m2 e2 -> dle (c * m1) e1 (c * m2) e2.
Proof. unfold dle. intros. rewrite <- !Z.mul_assoc. by apply Z.mul_le_mono_nonneg_l. Qed.

Lemma dlt_mul c m1 e1 m2 e2 : 0 < c -> dlt m1 e1 m2 e2 -> dlt (c * m1) e1 (c * m2) e2.
Proof. unfold dlt. intros. rewrite <- !Z.mul_assoc. by apply Z.mul_lt_mono_pos_l. Qed.

End Order.

Create HintDb decimal.
#[export] Hint Resolve dle_refl dle_trans dle_dlt_trans dlt_dle_trans dlt_dle : decimal.


(** ** The loops *)

Section DecimalLoops.
Variables (minM maxM minE maxE : Z).

(** [while ((m < minM) && (e > minE)) { m *= 10; --e; }] *)
Definition grow : Z * Z -> Z * Z :=
  while (fun '(m, e) => Z.to_nat (Z.log2 minM + 1 - Z.log2 m))
        (fun '(m, e) => (m <? minM) && (minE <? e))
        (fun '(m, e) => (m * 10, e - 1)).

(** [while (m > maxM) { if (e >= maxE) Throw<E> (...); m /= 10; ++e; }] *)
Definition shrink (ex : exn) : Z * Z -> res (Z * Z) :=
  whileR (fun '(m, e) => Z.to_nat (Z.log2 m))
         (fun '(m, e) => maxM <? m)
         (fun '(m, e) => if maxE <=? e then Throw ex else Ok (m / 10, e + 1)).

Lemma log2_mul10 m : 0 < m -> Z.log2 m + 3 <= Z.log2 (m * 10).
Proof.
  intros. replace (Z.log2 m + 3) with (Z.log2 (2 ^ 3 * m)).
  - apply Z.log2_le_mono. lia.
  - rewrite Z.mul_comm, Z.log2_mul_pow2 by lia. lia.
Qed.

Lemma log2_div10 m : 10 <= m -> Z.log2 (m / 10) < Z.log2 m.
Proof.
  intros. assert (0 < m / 10) by (apply Z.div_str_pos; lia).
  pose proof (log2_mul10 (m / 10) ltac:(lia)).
  assert (Z.log2 (m / 10 * 10) <= Z.log2 m); [|lia].
  apply Z.log2_le_mono. pose proof (Z.mul_div_le m 10). lia.
Qed.

Lemma grow_spec m e : 0 < m ->
  exists k, 0 <= k /\ grow (m, e) = (m * 10 ^ k, e - k) /\
    ~ (m * 10 ^ k < minM /\ minE < e - k) /\
    (k = 0 \/ (m * 10 ^ k < minM * 10 /\ minE <= e - k)).
Proof.
  intros Hm.
  pose proof (while_spec (fun '(m, e) => Z.to_nat (Z.log2 minM + 1 - Z.log2 m))
    (fun '(m, e) => (m <? minM) && (minE <? e))
    (fun '(m', e') => 0 < m' /\ exists k, 0 <= k /\ m' = m * 10 ^ k /\ e' = e - k /\
        (k = 0 \/ (m' < minM * 10 /\ minE <= e')))
    (fun '(m, e) => (m * 10, e - 1)) (m, e)) as H.
  destruct H as [HI HC].
  - intros [m1 e1] (H1 & k & Hk & -> & -> & Hb) [C1%Z.ltb_lt C2%Z.ltb_lt]%andb_prop.
    split.
    + split; [lia|]. exists (k + 1). rewrite pow10_add, Z.pow_1_r, Z.mul_assoc by lia.
      lia.
    + pose proof (log2_mul10 _ H1).
      pose proof (Z.log2_le_mono (m * 10 ^ k) minM ltac:(lia)). lia.
  - split; [done|]. exists 0. rewrite Z.pow_0_r. lia.
  - unfold grow. destruct (while _ _ _ (m, e)) as [m' e'].
    destruct HI as (_ & k & Hk & -> & -> & Hb). exists k.
    apply andb_false_iff in HC. split_and!; [done|done|lia|done].
Qed.

Lemma div10_pow m k : 0 <= k -> m / 10 ^ k / 10 = m / 10 ^ (k + 1).
Proof.
  intros. rewrite Z.div_div by (pose proof (pow10_pos k); lia).
  by rewrite pow10_add.
Qed.

Lemma shrink_spec ex m e m' e' : 9 <= maxM -> shrink ex (m, e) = Ok (m', e') ->
  exists k, 0 <= k /\ m' = m / 10 ^ k /\ e' = e + k /\ m' <= maxM /\
    (k = 0 \/ (1 <= k /\ maxM < m / 10 ^ (k - 1) /\ e' <= maxE)).
Proof.
  intros HM HS.
  pose proof (whileR_spec (fun '(m, e) => Z.to_nat (Z.log2 m)) (fun '(m, e) => maxM <? m)
    (fun '(m', e') => exists k, 0 <= k /\ m' = m / 10 ^ k /\ e' = e + k /\
        (k = 0 \/ (1 <= k /\ maxM < m / 10 ^ (k - 1) /\ e' <= maxE)))
    (fun '(m, e) => if maxE <=? e then Throw ex else Ok (m / 10, e + 1))
    (m, e) (m', e')) as H.
  destruct H as [HI HC].
  - intros [m1 e1] s' (k & Hk & -> & -> & Hb) C%Z.ltb_lt Hs'.
    destruct (maxE <=? e + k) eqn:HE; [discriminate|]. apply Z.leb_gt in HE. res_inv.
    split.
    + exists (k + 1). rewrite div10_pow by lia.
      replace (k + 1 - 1) with k by lia. repeat split; [lia..|]. right. lia.
    + pose proof (log2_div10 (m / 10 ^ k) ltac:(lia)).
      pose proof (Z.log2_nonneg (m / 10 ^ k / 10)). lia.
  - exists 0. rewrite Z.pow_0_r, Z.div_1_r. lia.
  - exact HS.
  - destruct HI as (k & ? & ? & ? & ?). apply Z.ltb_ge in HC. exists k. auto.
Qed.

Lemma shrink_throw ex ex' m e : shrink ex (m, e) = Throw ex' ->
  ex' = ex /\ exists k, 0 <= k /\ maxM < m / 10 ^ k /\ maxE <= e + k.
Proof.
  intros HS. unfold shrink in HS. apply (whileR_throw _ _
    (fun '(m', e') => exists k, 0 <= k /\ m' = m / 10 ^ k /\ e' = e + k))
    in HS as ([m1 e1] & (k & Hk & -> & ->) & C%Z.ltb_lt & HT).
  - destruct (maxE <=? e + k) eqn:HE; [|discriminate]. apply Z.leb_le in HE.
    injection HT as <-. eauto 10.
  - intros [m1 e1] s' (k & Hk & -> & ->) _ Hs'.
    destruct (maxE <=? e + k); [discriminate|]. res_inv.
    exists (k + 1). rewrite div10_pow by lia. lia.
  - exists 0. rewrite Z.pow_0_r, Z.div_1_r. lia.
Qed.

Lemma grow_stop m e : minM <= m -> grow (m, e) = (m, e).
Proof. intros. apply while_stop. apply andb_false_iff. left. by apply Z.ltb_ge. Qed.

Lemma shrink_stop ex m e : m <= maxM -> shrink ex (m, e) = Ok (m, e).
Proof. intros. apply whileR_stop. by apply Z.ltb_ge. Qed.

(** The exception does not influence when the loop throws. *)
Lemma shrink_exn ex ex' s :
  shrink ex' s = match shrink ex s with Ok r => Ok r | Throw _ => Throw ex' end.
Proof.
  unfold shrink, whileR. generalize (S (let '(m, _) := s in Z.to_nat (Z.log2 m))) as n.
  intros n. revert s. induction n as [|n IH]; intros [m e]; cbn; [done|].
  destruct (maxM <? m); [|done]. destruct (maxE <=? e); cbn; [done|]. apply IH.
Qed.
End DecimalLoops.

(** [while (e1 < e2) { v /= 10; ++e1; }], the division truncating toward zero. *)
Definition align (v e1 e2 : Z) : Z * Z :=
  while (fun '(v, e) => Z.to_nat (e2 - e)) (fun '(v, e) => e <? e2)
        (fun '(v, e) => (Z.quot v 10, e + 1)) (v, e1).

Lemma align_spec v e1 e2 :
  align v e1 e2 = (Z.quot v (10 ^ (Z.max e1 e2 - e1)), Z.max e1 e2).
Proof.
  pose proof (while_spec (fun '(v, e) => Z.to_nat (e2 - e)) (fun '(v, e) => e <? e2)
    (fun '(v', e') => exists k, 0 <= k /\ v' = Z.quot v (10 ^ k) /\ e' = e1 + k /\
        (k = 0 \/ e' <= e2))
    (fun '(v, e) => (Z.quot v 10, e + 1)) (v, e1)) as H.
  destruct H as [HI HC].
  - intros [v1 e3] (k & Hk & -> & -> & Hb) C%Z.ltb_lt. split; [|lia].
    exists (k + 1). pose proof (pow10_pos k Hk).
    rewrite Z.quot_quot, pow10_add, Z.pow_1_r by lia. repeat split; lia.
  - exists 0. rewrite Z.pow_0_r, Z.quot_1_r. lia.
  - unfold align. destruct (while _ _ _ (v, e1)) as [v' e'].
    destruct HI as (k & Hk & -> & -> & Hb). apply Z.ltb_ge in HC.
    replace (Z.max e1 e2) with (e1 + k) by lia. do 3 f_equal. lia.
Qed.
