(* ===== verification/IOUAmount.v ===== *)
(** * IOUAmount: issued-currency amounts as normalized decimals

    Models protocol/IOUAmount.h and protocol/impl/IOUAmount.cpp: the
    representation ([IOUAmount]), [normalize], the arithmetic and comparison
    operators and [mulRatio]. Mantissas are [std::int64_t] and exponents [int];
    the model computes in [Z], and the bounds proved here ([canonical], the
    intermediate bounds of [mulRatio]) keep every intermediate value within
    those widths. The one input outside this is the mantissa -2^63, whose
    negation in [normalize] is undefined in C++. *)

From S2P Require Import Prelude Decimal.

Record IOUAmount := mkIOU { mantissa_ : Z; exponent_ : Z }.

#[export] Instance IOUAmount_eq_dec : EqDecision IOUAmount.
Proof. solve_decision. Defined.

Definition minMantissa : Z := 1000000000000000.
Definition maxMantissa : Z := 9999999999999999.
Definition minExponent : Z := -96.
Definition maxExponent : Z := 80.

Definition zero : IOUAmount := mkIOU 0 (-100).

Definition normalize (a : IOUAmount) : res IOUAmount :=
  if mantissa_ a =? 0 then Ok zero else
  let negative := mantissa_ a <? 0 in
  let m := if negative then - mantissa_ a else mantissa_ a in
  let s := grow minMantissa minExponent (m, exponent_ a) in
  '(m, e) ← shrink maxMantissa maxExponent (overflow_error "IOUAmount::normalize") s;
  if (e <? minExponent) || (m <? minMantissa) then Ok zero else
  if maxExponent <? e then Throw (overflow_error "value overflow") else
  Ok (mkIOU (if negative then - m else m) e).

(** The constructor [IOUAmount (std::int64_t mantissa, int exponent)]. *)
Definition make (m e : Z) : res IOUAmount := normalize (mkIOU m e).

Definition op_eq (a b : IOUAmount) : bool :=
  (exponent_ a =? exponent_ b) && (mantissa_ a =? mantissa_ b).

Definition op_add (a other : IOUAmount) : res IOUAmount :=
  if op_eq other zero then Ok a else
  if op_eq a zero then Ok other else
  let m := mantissa_ other in
  let e := exponent_ other in
  let '(mantissa1, exponent1) := align (mantissa_ a) (exponent_ a) e in
  let '(m, e) := align m e exponent1 in
  let mantissa2 := mantissa1 + m in
  if (-10 <=? mantissa2) && (mantissa2 <=? 10) then Ok zero
  else normalize (mkIOU mantissa2 exponent1).

(** Unary minus re-normalizes through the constructor. *)
Definition op_neg (a : IOUAmount) : res IOUAmount := make (- mantissa_ a) (exponent_ a).

Definition op_sub (a other : IOUAmount) : res IOUAmount :=
  n ← op_neg other; op_add a n.

Definition op_bool (a : IOUAmount) : bool := negb (mantissa_ a =? 0).

Definition signum (a : IOUAmount) : Z :=
  if mantissa_ a <? 0 then -1 else if mantissa_ a =? 0 then 0 else 1.

Definition op_lt (a other : IOUAmount) : bool :=
  let lneg := mantissa_ a <? 0 in
  let rneg := mantissa_ other <? 0 in
  if negb (Bool.eqb lneg rneg) then lneg else
  if mantissa_ a =? 0 then 0 <? mantissa_ other else
  if mantissa_ other =? 0 then false else
  if exponent_ other <? exponent_ a then lneg else
  if exponent_ a <? exponent_ other then negb lneg else
  mantissa_ a <? mantissa_ other.

(** ** [mulRatio] *)

(** The table of 10^0 .. 10^29. *)
Definition powerTable : list Z :=
  Eval vm_compute in map (fun i => 10 ^ Z.of_nat i) (seq 0 30).

(** [std::lower_bound]: the index of the first element not less than [v]. *)
Fixpoint lower_bound (l : list Z) (v : Z) : Z :=
  match l with
  | [] => 0
  | x :: l' => if x <? v then 1 + lower_bound l' v else 0
  end.

Definition power (i : Z) : Z := nth (Z.to_nat i) powerTable 0.

Definition log10Floor (v : Z) : Z :=
  let index := lower_bound powerTable v in
  if power index =? v then index else index - 1.

Definition log10Ceil (v : Z) : Z := lower_bound powerTable v.

Definition int64_max : Z := 2 ^ 63 - 1.

Definition fl64 : Z := log10Floor int64_max.

(** The quotient, scaled up so that as much of the remainder as
    fits is folded into it. *)
Definition mulRatio_scale (mul den exponent : Z) : Z * Z * Z :=
  let low := mul / den in
  let rem := mul - low * den in
  if rem =? 0 then (low, rem, exponent) else
  let roomToGrow := fl64 - log10Ceil low in
  let '(low, rem, exponent) :=
    if 0 <? roomToGrow
    then (low * power roomToGrow, rem * power roomToGrow, exponent - roomToGrow)
    else (low, rem, exponent) in
  let addRem := rem / den in
  (low + addRem, rem - addRem * den, exponent).

(** The quotient, scaled down until it fits 64 bits; the boolean
    says whether anything was dropped. *)
Definition mulRatio_shrink (low rem exponent : Z) : Z * bool * Z :=
  let hasRem := negb (rem =? 0) in
  let mustShrink := log10Ceil low - fl64 in
  if 0 <? mustShrink then
    let sav := low in
    let low := low / power mustShrink in
    (low, hasRem || negb (sav - low * power mustShrink =? 0), exponent + mustShrink)
  else (low, hasRem, exponent).

(** The two rounding branches of [mulRatio], after normalization. *)
Definition mulRatio_round (neg hasRem roundUp : bool) (result : IOUAmount) : res IOUAmount :=
  if hasRem && roundUp && negb neg then
    if negb (op_bool result) then make minMantissa minExponent
    else make (mantissa_ result + 1) (exponent_ result)
  else if hasRem && negb roundUp && neg then
    if negb (op_bool result) then make (- minMantissa) minExponent
    else make (mantissa_ result - 1) (exponent_ result)
  else Ok result.

Definition mulRatio (amt : IOUAmount) (num den : Z) (roundUp : bool) : res IOUAmount :=
  if den =? 0 then Throw (runtime_error "division by zero") else
  let neg := mantissa_ amt <? 0 in
  let mul := (if neg then - mantissa_ amt else mantissa_ amt) * num in
  let '(low, rem, exponent) := mulRatio_scale mul den (exponent_ amt) in
  let '(low, hasRem, exponent) := mulRatio_shrink low rem exponent in
  let mantissa := if neg then - low else low in
  result ← make mantissa exponent;
  mulRatio_round neg hasRem roundUp result.

Example mulRatio_third :
  mulRatio (mkIOU 1000000000000000 (-15)) 1 3 true = Ok (mkIOU 3333333333333334 (-16)).
Proof. vm_compute. reflexivity. Qed.

(** ** Normal form *)

Definition canonical (a : IOUAmount) : Prop :=
  a = zero \/
  (minMantissa <= Z.abs (mantissa_ a) <= maxMantissa /\
   minExponent <= exponent_ a <= maxExponent).

#[export] Instance canonical_dec a : Decision (canonical a).
Proof. unfold canonical. apply _. Defined.

(** The result of normalizing a nonnegative mantissa [m] at exponent [e]: a
    truncation of [m * 10^e] to sixteen digits, or zero on underflow. *)
Definition truncates (m e : Z) (b : IOUAmount) : Prop :=
  (b = zero /\ dlt m e minMantissa minExponent) \/
  (minMantissa <= mantissa_ b <= maxMantissa /\ minExponent <= exponent_ b <= maxExponent /\
   dle (mantissa_ b) (exponent_ b) m e /\ dlt m e (mantissa_ b + 1) (exponent_ b)).

Ltac iou_consts := unfold minMantissa, maxMantissa, minExponent, maxExponent in *.

(** The loops of [normalize], on a positive mantissa. *)
Lemma normalize_loops m e : 0 < m ->
  exists m1 e1, grow minMantissa minExponent (m, e) = (m1, e1) /\ deq m1 e1 m e /\
    (m1 < minMantissa -> e1 <= minExponent) /\
    match shrink maxMantissa maxExponent (overflow_error "IOUAmount::normalize") (m1, e1) with
    | Ok (m2, e2) => 0 <= m2 <= maxMantissa /\ dle m2 e2 m e /\ dlt m e (m2 + 1) e2 /\
        (m2 < minMantissa -> e2 <= minExponent)
    | Throw x => x = overflow_error "IOUAmount::normalize" /\
        dle (maxMantissa + 1) maxExponent m e
    end.
Proof.
  intros Hm. destruct (grow_spec minMantissa minExponent m e Hm) as (k & Hk & -> & H1 & H2).
  set (m1 := m * 10 ^ k). set (e1 := e - k).
  assert (0 < m1) by (pose proof (pow10_pos k Hk); subst m1; nia).
  assert (Hd : deq m1 e1 m e) by (by apply deq_shift).
  exists m1, e1. split; [done|]. split; [done|]. split; [lia|].
  apply deq_dle in Hd as [Hd1 Hd2].
  destruct (shrink _ _ _ (m1, e1)) as [[m2 e2]|x] eqn:HS.
  - apply shrink_spec in HS as (j & Hj & -> & -> & HM & HB); [|by iou_consts].
    pose proof (pow10_pos j Hj).
    split; [split; [apply Z.div_pos; lia|done]|].
    split; [eauto using div_dle with decimal|].
    split; [eauto using div_dlt with decimal|].
    intros Hlt. destruct HB as [->|(Hj1 & HB & _)].
    + rewrite Z.pow_0_r, Z.div_1_r in Hlt. lia.
    + exfalso. replace j with (j - 1 + 1) in Hlt by lia. rewrite <- div10_pow in Hlt by lia.
      iou_consts. pose proof (Z.div_le_lower_bound (m1 / 10 ^ (j - 1)) 10 1000000000000000). lia.
  - apply shrink_throw in HS as (-> & j & Hj & HM & HE). split; [done|].
    eapply dle_trans; [|exact Hd1]. eapply dle_trans; [|by apply (div_dle m1 e1 j)].
    eapply dle_trans; [|apply dle_exp; [|exact HE]]; [apply dle_same|]; iou_consts; lia.
Qed.

Definition opp (a : IOUAmount) : IOUAmount :=
  if mantissa_ a =? 0 then a else mkIOU (- mantissa_ a) (exponent_ a).

Definition iabs (a : IOUAmount) : IOUAmount := if mantissa_ a <? 0 then opp a else a.

Lemma normalize_pos m e : 0 < m ->
  match normalize (mkIOU m e) with
  | Ok b => truncates m e b
  | Throw x => (exists w, x = overflow_error w) /\ dle (maxMantissa + 1) maxExponent m e
  end.
Proof.
  intros Hm. unfold normalize; cbn [mantissa_ exponent_].
  rewrite (proj2 (Z.eqb_neq m 0)), (proj2 (Z.ltb_ge m 0)) by lia.
  destruct (normalize_loops m e Hm) as (m1 & e1 & -> & _ & _ & H).
  destruct (shrink _ _ _ _) as [[m2 e2]|x]; cbn;
    [|destruct H as [-> H]; split; [by eexists|done]].
  destruct H as (Hm2 & Hle & Hlt & Hlow).
  destruct ((e2 <? minExponent) || (m2 <? minMantissa)) eqn:C.
  - left. split; [done|]. eapply dlt_dle_trans; [exact Hlt|].
    assert (e2 < minExponent \/ (m2 < minMantissa /\ e2 <= minExponent)) as [HE|[HM HE]] by lia.
    + eapply dle_trans; [apply dle_exp with (e2 := minExponent - 1); lia|].
      eapply dle_trans; [apply dle_same with (m2 := minMantissa * 10 ^ 1); iou_consts; lia|].
      by apply shift_dle.
    + eapply dle_trans; [apply dle_exp with (e2 := minExponent); lia|].
      apply dle_same. lia.
  - apply orb_false_iff in C as [C1%Z.ltb_ge C2%Z.ltb_ge].
    destruct (maxExponent <? e2) eqn:C3.
    + apply Z.ltb_lt in C3. split; [by eexists|].
      eapply dle_trans; [|exact Hle].
      eapply dle_trans; [|apply dle_exp with (e1 := maxExponent + 1); lia].
      eapply dle_trans; [|apply dle_same with (m1 := minMantissa); lia].
      replace (maxMantissa + 1) with (minMantissa * 10 ^ 1) by done.
      replace maxExponent with (maxExponent + 1 - 1) at 1 by lia. by apply shift_dle.
    + apply Z.ltb_ge in C3. right. cbn. split_and!; (lia || done).
Qed.

Lemma normalize_opp a : normalize (opp a) = opp <$> normalize a.
Proof.
  unfold opp, normalize. destruct a as [m e]; cbn [mantissa_ exponent_].
  destruct (Z.eqb_spec m 0) as [->|Hm]; [done|]. cbn [mantissa_ exponent_].
  rewrite (proj2 (Z.eqb_neq (- m) 0)) by lia.
  assert (Hs : (if - m <? 0 then - - m else - m) = if m <? 0 then - m else m).
  { destruct (Z.ltb_spec (- m) 0), (Z.ltb_spec m 0); lia. }
  rewrite Hs. destruct (shrink _ _ _ _) as [[m2 e2]|x]; cbn; [|done].
  destruct ((e2 <? minExponent) || (m2 <? minMantissa)) eqn:C; [done|].
  destruct (maxExponent <? e2); [done|].
  apply orb_false_iff in C as [_ C%Z.ltb_ge]. iou_consts.
  destruct (Z.ltb_spec (- m) 0), (Z.ltb_spec m 0); cbn;
    rewrite (proj2 (Z.eqb_neq _ 0)) by lia; do 2 f_equal; lia.
Qed.

Lemma canonical_opp a : canonical (opp a) <-> canonical a.
Proof.
  unfold canonical, opp, zero. destruct a as [m e]; cbn. 
  destruct (Z.eqb_spec m 0) as [->|]; [done|]. cbn. rewrite Z.abs_opp. 
  split; intros [[= ? ?]|?]; try lia; auto.
Qed.

Lemma truncates_canonical m e b : truncates m e b -> canonical b.
Proof. unfold truncates, canonical. iou_consts. intros [[-> _]|?]; [by left|right; lia]. Qed.

Lemma opp_opp a : opp (opp a) = a.
Proof.
  unfold opp. destruct a as [m e]; cbn. destruct (Z.eqb_spec m 0) as [->|]; cbn; [done|].
  rewrite (proj2 (Z.eqb_neq _ 0)) by lia. f_equal. lia.
Qed.

Lemma opp_neg m e : m < 0 -> mkIOU m e = opp (mkIOU (- m) e).
Proof.
  intros. unfold opp; cbn. rewrite (proj2 (Z.eqb_neq _ 0)) by lia. f_equal. lia.
Qed.

Lemma normalize_canonical_id a : canonical a -> normalize a = Ok a.
Proof.
  assert (Hpos : forall m e, minMantissa <= m <= maxMantissa ->
    minExponent <= e <= maxExponent -> normalize (mkIOU m e) = Ok (mkIOU m e)).
  { intros m e Hm He. unfold normalize; cbn [mantissa_ exponent_].
    assert (0 < m) by (iou_consts; lia).
    rewrite (proj2 (Z.eqb_neq m 0)), (proj2 (Z.ltb_ge m 0)) by lia.
    rewrite grow_stop, shrink_stop by lia. cbn.
    rewrite (proj2 (Z.ltb_ge e _)), (proj2 (Z.ltb_ge m _)), (proj2 (Z.ltb_ge _ e)) by lia.
    done. }
  intros [->|[Hm He]]; [done|]. destruct a as [m e]; cbn in *.
  destruct (Z.ltb_spec m 0).
  - rewrite opp_neg by done. rewrite normalize_opp, Hpos by lia. done.
  - apply Hpos; lia.
Qed.

Lemma dlt_0_pos m e1 e2 : dlt 0 e1 m e2 <-> 0 < m.
Proof. unfold dlt. pose proof (pow10_pos (e2 - Z.min e1 e2) ltac:(lia)). nia. Qed.

Lemma truncates_zero m e b : truncates m e b ->
  b = zero <-> dlt m e minMantissa minExponent.
Proof.
  intros [[-> H]|(Hm & He & Hle & _)]; [done|]. split.
  - intros ->. cbn in Hm. iou_consts. lia.
  - intros H. exfalso. apply (proj1 (dle_not_dlt minMantissa minExponent m e)); [|done].
    eapply dle_trans; [|exact Hle].
    eapply dle_trans; [apply (proj2 (dle_same _ (mantissa_ b) _)); lia|].
    apply dle_exp; iou_consts; lia.
Qed.

Lemma truncates_sign m e b : truncates m e b -> b = zero \/ 0 < mantissa_ b.
Proof. iou_consts. intros [[-> _]|H]; [by left|right; iou_consts; lia]. Qed.

Lemma iabs_nonneg b : 0 <= mantissa_ b -> iabs b = b.
Proof. intros. unfold iabs. by rewrite (proj2 (Z.ltb_ge _ 0)). Qed.

Lemma iabs_opp b : 0 <= mantissa_ b -> iabs (opp b) = b.
Proof.
  intros. unfold iabs, opp. destruct b as [m e]; cbn in *.
  destruct (Z.eqb_spec m 0) as [->|]; cbn; [done|].
  rewrite (proj2 (Z.ltb_lt (- m) 0)), (proj2 (Z.eqb_neq (- m) 0)) by lia. f_equal. lia.
Qed.

Lemma opp_zero b : opp b = zero <-> b = zero.
Proof. split; [intros H|by intros ->]. by rewrite <- (opp_opp b), H. Qed.

Lemma opp_mantissa b : mantissa_ (opp b) = - mantissa_ b.
Proof. unfold opp. destruct (Z.eqb_spec (mantissa_ b) 0); cbn; lia. Qed.

Lemma normalize_spec (m e : Z) :
  match normalize (mkIOU m e) with
  | Ok b => canonical b /\ truncates (Z.abs m) e (iabs b) /\
            (b = zero \/ Z.sgn (mantissa_ b) = Z.sgn m) /\
            (b = zero <-> dlt (Z.abs m) e minMantissa minExponent)
  | Throw x => (exists w, x = overflow_error w) /\
               dle (maxMantissa + 1) maxExponent (Z.abs m) e
  end.
Proof.
  destruct (Z.lt_trichotomy m 0) as [Hm|[->|Hm]].
  - rewrite opp_neg, normalize_opp by done. rewrite Z.abs_neq by lia.
    pose proof (normalize_pos (- m) e ltac:(lia)) as H.
    destruct (normalize _) as [b|x]; cbn; [|done].
    pose proof (truncates_sign _ _ _ H) as Hs.
    assert (0 <= mantissa_ b) by (destruct Hs as [->|]; cbn; lia).
    rewrite iabs_opp, canonical_opp, !opp_zero, opp_mantissa by done.
    split_and!; [by eapply truncates_canonical|done| |by apply truncates_zero].
    destruct Hs; [by left|right; lia].
  - change (normalize (mkIOU 0 e)) with (Ok zero).
    assert (dlt 0 e minMantissa minExponent) by (by apply dlt_0_pos).
    split_and!; [by left|by left|by left|done].
  - rewrite Z.abs_eq by lia. pose proof (normalize_pos m e Hm) as H.
    destruct (normalize _) as [b|x]; [|done].
    pose proof (truncates_sign _ _ _ H) as Hs.
    rewrite iabs_nonneg by (destruct Hs as [->|]; cbn; lia).
    split_and!; [by eapply truncates_canonical|done| |by apply truncates_zero].
    destruct Hs; [by left|right; lia].
Qed.

(** C1. [normalize] is total and exact up to its documented precision: it either
    returns a canonical amount, or throws [overflow_error] exactly when the
    magnitude is at least 10^96. The returned amount has the sign of the input
    and is its truncation toward zero to sixteen significant digits (below the
    input in magnitude by less than one unit of the last place), and it is zero
    exactly when the magnitude is below the least positive amount 10^15 * 10^-96. The canonical amounts
    are exactly the fixed points of [normalize]. *)
Theorem normalize_correct (m e : Z) :
  match normalize (mkIOU m e) with
  | Ok b => canonical b /\ truncates (Z.abs m) e (iabs b) /\
            (b = zero \/ Z.sgn (mantissa_ b) = Z.sgn m) /\
            (b = zero <-> dlt (Z.abs m) e minMantissa minExponent)
  | Throw x => (exists w, x = overflow_error w) /\
               dle (maxMantissa + 1) maxExponent (Z.abs m) e
  end /\
  (normalize (mkIOU m e) = Ok (mkIOU m e) <-> canonical (mkIOU m e)).
Proof.
  pose proof (normalize_spec m e) as H. split; [exact H|].
  split; [|apply normalize_canonical_id]. intros E. rewrite E in H. apply H.
Qed.

(** ** Ordering *)

(** Among positive canonical amounts, the exponent decides first. *)
Lemma exponent_dominates m1 e1 m2 e2 :
  minMantissa <= m1 <= maxMantissa -> minMantissa <= m2 <= maxMantissa ->
  e1 < e2 -> dlt m1 e1 m2 e2.
Proof.
  intros H1 H2 He. eapply dlt_dle_trans; [apply (proj2 (dlt_same m1 (maxMantissa + 1) e1)); lia|].
  eapply dle_trans; [|apply (dle_exp m2 (e1 + 1)); iou_consts; lia].
  eapply dle_trans; [|apply (proj2 (dle_same minMantissa m2 (e1 + 1))); lia].
  replace (maxMantissa + 1) with (minMantissa * 10 ^ 1) by done.
  replace e1 with (e1 + 1 - 1) at 1 by lia. by apply shift_dle.
Qed.

Lemma dlt_opp m1 e1 m2 e2 : dlt (- m1) e1 (- m2) e2 <-> dlt m2 e2 m1 e1.
Proof. unfold dlt. rewrite (Z.min_comm e2 e1). lia. Qed.

Lemma dlt_neg_nonneg m1 e1 m2 e2 : m1 < 0 -> 0 <= m2 -> dlt m1 e1 m2 e2.
Proof.
  intros. unfold dlt. pose proof (pow10_pos (e1 - Z.min e1 e2) ltac:(lia)).
  pose proof (pow10_pos (e2 - Z.min e1 e2) ltac:(lia)). nia.
Qed.

Lemma dlt_asym m1 e1 m2 e2 : dlt m1 e1 m2 e2 -> dlt m2 e2 m1 e1 -> False.
Proof. unfold dlt. rewrite (Z.min_comm e2 e1). lia. Qed.

(** Comparing two positive canonical mantissas: exponents first. *)
Lemma lt_positive m1 e1 m2 e2 :
  minMantissa <= m1 <= maxMantissa -> minMantissa <= m2 <= maxMantissa ->
  dlt m1 e1 m2 e2 <-> e1 < e2 \/ (e1 = e2 /\ m1 < m2).
Proof.
  intros H1 H2. split.
  - intros Hl. destruct (Z.lt_trichotomy e1 e2) as [He|[->|He]]; [by left| |].
    + right. split; [done|]. by apply dlt_same in Hl.
    + exfalso. eapply dlt_asym; [exact Hl|]. by apply exponent_dominates.
  - intros [He|[-> Hm]]; [by apply exponent_dominates|by apply dlt_same].
Qed.

Lemma op_lt_dlt a b : canonical a -> canonical b ->
  op_lt a b = true <-> dlt (mantissa_ a) (exponent_ a) (mantissa_ b) (exponent_ b).
Proof.
  intros Ha Hb. unfold op_lt. destruct a as [m1 e1], b as [m2 e2]; cbn [mantissa_ exponent_].
  assert (H1 : m1 = 0 \/ (minMantissa <= Z.abs m1 <= maxMantissa))
    by (destruct Ha as [[= -> ->]|[? _]]; auto).
  assert (H2 : m2 = 0 \/ (minMantissa <= Z.abs m2 <= maxMantissa))
    by (destruct Hb as [[= -> ->]|[? _]]; auto).
  clear Ha Hb. assert (0 < minMantissa) by done.
  destruct (Z.ltb_spec m1 0), (Z.ltb_spec m2 0); cbn.
  - rewrite (proj2 (Z.eqb_neq m1 0)), (proj2 (Z.eqb_neq m2 0)) by lia.
    rewrite <- (Z.opp_involutive m1), <- (Z.opp_involutive m2), dlt_opp, lt_positive by lia.
    rewrite !Z.opp_involutive.
    destruct (Z.ltb_spec e2 e1), (Z.ltb_spec e1 e2); rewrite ?Z.ltb_lt; lia.
  - split; [intros _|done]. by apply dlt_neg_nonneg.
  - split; [done|]. intros Hl. exfalso. eapply dlt_asym; [exact Hl|]. by apply dlt_neg_nonneg.
  - destruct (Z.eqb_spec m1 0) as [->|]; [by rewrite dlt_0_pos, Z.ltb_lt|].
    destruct (Z.eqb_spec m2 0) as [->|].
    + split; [done|]. intros Hl. exfalso. eapply dlt_asym; [exact Hl|]. apply dlt_0_pos. lia.
    + rewrite lt_positive by lia.
      destruct (Z.ltb_spec e2 e1), (Z.ltb_spec e1 e2); rewrite ?Z.ltb_lt; lia.
Qed.

(** [operator<] is a strict total order that agrees with the represented
    values: for canonical amounts it holds exactly when the left number is below
    the right one, whatever the signs, the exponents and zero's special exponent,
    and two amounts neither of which is less than the other are identical. *)
Theorem op_lt_correct a b : canonical a -> canonical b ->
  (op_lt a b = true <-> dlt (mantissa_ a) (exponent_ a) (mantissa_ b) (exponent_ b)) /\
  (op_lt a b = false -> op_lt b a = false -> a = b).
Proof.
  intros Ha Hb. split; [by apply op_lt_dlt|]. destruct a as [m1 e1], b as [m2 e2].
  unfold op_lt; cbn [mantissa_ exponent_]. intros L1 L2.
  assert (m1 = 0 /\ e1 = -100 \/ m1 <> 0)
    by (destruct Ha as [[= -> ->]|[? _]]; [by left|right; cbn in *; iou_consts; lia]).
  assert (m2 = 0 /\ e2 = -100 \/ m2 <> 0)
    by (destruct Hb as [[= -> ->]|[? _]]; [by left|right; cbn in *; iou_consts; lia]).
  f_equal; revert L1 L2; repeat (case_match; rewrite ?Z.ltb_lt, ?Z.ltb_ge in * ); try done; lia.
Qed.

(** ** Addition *)

(** The represented value, in units of 10^-100. *)
Definition val (a : IOUAmount) : Z := mantissa_ a * 10 ^ (exponent_ a + 100).

Lemma canonical_exponent a : canonical a -> -100 <= exponent_ a <= 80.
Proof. intros [->|[_ H]]; cbn; iou_consts; lia. Qed.

Lemma op_eq_true a b : op_eq a b = true <-> a = b.
Proof.
  unfold op_eq. rewrite andb_true_iff, !Z.eqb_eq. destruct a, b; cbn. split.
  - by intros [-> ->].
  - by intros [= -> ->].
Qed.

(** Sum of the two mantissas brought to the larger exponent. *)
Definition aligned_sum (a b : IOUAmount) : Z :=
  let E := Z.max (exponent_ a) (exponent_ b) in
  Z.quot (mantissa_ a) (10 ^ (E - exponent_ a)) + Z.quot (mantissa_ b) (10 ^ (E - exponent_ b)).

Lemma op_add_unfold a b :
  op_add a b =
    if op_eq b zero then Ok a else if op_eq a zero then Ok b else
    if (-10 <=? aligned_sum a b) && (aligned_sum a b <=? 10) then Ok zero
    else normalize (mkIOU (aligned_sum a b) (Z.max (exponent_ a) (exponent_ b))).
Proof.
  unfold op_add, aligned_sum. rewrite align_spec. cbv beta iota zeta.
  rewrite align_spec. cbv beta iota zeta.
  replace (Z.max (exponent_ b) (Z.max (exponent_ a) (exponent_ b)))
    with (Z.max (exponent_ a) (exponent_ b)) by lia. done.
Qed.

(** Addition of IOU amounts is commutative, result and exception alike. *)
Theorem op_add_comm a b : op_add a b = op_add b a.
Proof.
  rewrite !op_add_unfold. unfold aligned_sum.
  rewrite (Z.max_comm (exponent_ b)), (Z.add_comm (Z.quot (mantissa_ b) _)).
  destruct (op_eq b zero) eqn:Eb, (op_eq a zero) eqn:Ea; try done.
  apply op_eq_true in Ea, Eb. by subst.
Qed.

(** Truncating to a larger exponent moves the value by less than one unit there. *)
Lemma quot_error m k T : 0 <= k -> 0 < T ->
  Z.abs (Z.quot m (10 ^ k) * (10 ^ k * T) - m * T) < 10 ^ k * T.
Proof.
  intros Hk HT. pose proof (pow10_pos k Hk).
  pose proof (Z.quot_rem' m (10 ^ k)) as Hq.
  pose proof (Z.rem_bound_abs m (10 ^ k) ltac:(lia)) as Hr.
  set (q := Z.quot m (10 ^ k)) in *. set (r := Z.rem m (10 ^ k)) in *.
  set (P := 10 ^ k) in *.
  replace (q * (P * T) - m * T) with (- r * T) by nia.
  rewrite Z.abs_mul, Z.abs_opp, (Z.abs_eq T) by lia. nia.
Qed.

Lemma aligned_sum_error a b : canonical a -> canonical b ->
  let E := Z.max (exponent_ a) (exponent_ b) in
  Z.abs (aligned_sum a b * 10 ^ (E + 100) - (val a + val b)) < 10 ^ (E + 100).
Proof.
  intros Ha Hb E. apply canonical_exponent in Ha, Hb. unfold aligned_sum, val. fold E.
  assert (H : forall c, exponent_ c = E \/ (-100 <= exponent_ c <= E) ->
     -100 <= exponent_ c ->
     10 ^ (E + 100) = 10 ^ (E - exponent_ c) * 10 ^ (exponent_ c + 100)).
  { intros c ? ?. rewrite <- pow10_add by lia. f_equal. lia. }
  assert (Hx : forall c, -100 <= exponent_ c <= E ->
    Z.abs (Z.quot (mantissa_ c) (10 ^ (E - exponent_ c)) * 10 ^ (E + 100)
           - mantissa_ c * 10 ^ (exponent_ c + 100)) < 10 ^ (E + 100)).
  { intros c Hc. rewrite (H c) by lia. apply quot_error; [lia|]. apply pow10_pos. lia. }
  assert (Hz : forall c, exponent_ c = E ->
    Z.quot (mantissa_ c) (10 ^ (E - exponent_ c)) * 10 ^ (E + 100)
      = mantissa_ c * 10 ^ (exponent_ c + 100)).
  { intros c ->. by rewrite Z.sub_diag, Z.pow_0_r, Z.quot_1_r. }
  assert (exponent_ a = E \/ exponent_ b = E) as [He|He] by lia.
  - rewrite Z.mul_add_distr_r, (Hz a He). pose proof (Hx b ltac:(lia)). lia.
  - rewrite Z.mul_add_distr_r, (Hz b He). pose proof (Hx a ltac:(lia)). lia.
Qed.

Lemma val_opp a : val (opp a) = - val a.
Proof. unfold val, opp. destruct (Z.eqb_spec (mantissa_ a) 0) as [->|]; cbn; lia. Qed.

Lemma quot_abs_le m p : 0 < p -> Z.abs (Z.quot m p) <= Z.abs m.
Proof.
  intros. rewrite <- Z.quot_abs by lia. rewrite (Z.abs_eq p) by lia.
  rewrite Z.quot_div_nonneg by lia. apply Z.div_le_upper_bound; nia.
Qed.

Lemma aligned_sum_bound a b : canonical a -> canonical b ->
  Z.abs (aligned_sum a b) <= 2 * maxMantissa.
Proof.
  intros Ha Hb. unfold aligned_sum. set (E := Z.max _ _).
  pose proof (quot_abs_le (mantissa_ a) (10 ^ (E - exponent_ a)) ltac:(apply pow10_pos; lia)).
  pose proof (quot_abs_le (mantissa_ b) (10 ^ (E - exponent_ b)) ltac:(apply pow10_pos; lia)).
  assert (forall c, canonical c -> Z.abs (mantissa_ c) <= maxMantissa) as Hc
    by (intros c [->|?]; cbn; iou_consts; lia).
  apply Hc in Ha, Hb. lia.
Qed.

(** Normalizing a mantissa of at most seventeen digits, by value. *)
Lemma normalize_val m e b : -100 <= e -> Z.abs m <= 2 * maxMantissa ->
  normalize (mkIOU m e) = Ok b ->
  Z.abs (val b - m * 10 ^ (e + 100)) < 10 * 10 ^ (e + 100) \/
  (b = zero /\ Z.abs m * 10 ^ (e + 100) < minMantissa * 10 ^ 4).
Proof.
  intros He Hm Hn. pose proof (normalize_spec m e) as H. rewrite Hn in H.
  destruct H as (Hc & Ht & Hs & _).
  destruct Ht as [[Hz Hlt]|(H1 & H2 & H3 & H4)].
  - right. assert (b = zero) as ->.
    { unfold iabs in Hz. destruct (mantissa_ b <? 0); [by apply opp_zero|done]. }
    split; [done|]. apply (dlt_scaled 100) in Hlt; [|iou_consts; lia..]. exact Hlt.
  - left. assert (Hab : val b = Z.sgn m * val (iabs b)).
    { destruct Hs as [->|Hs]; [cbn in H1; iou_consts; lia|].
      revert H1. unfold iabs. destruct (Z.ltb_spec (mantissa_ b) 0); intros H1.
      - rewrite val_opp. replace (Z.sgn m) with (-1) by lia. lia.
      - replace (Z.sgn m) with 1; [lia|]. iou_consts. lia. }
    rewrite Hab. replace (m * 10 ^ (e + 100)) with (Z.sgn m * (Z.abs m * 10 ^ (e + 100))) by nia.
    set (c := iabs b) in *.
    apply (dle_scaled 100) in H3; [|iou_consts; lia..].
    apply (dlt_scaled 100) in H4; [|iou_consts; lia..].
    fold (val c) in H3. rewrite Z.mul_add_distr_r in H4. fold (val c) in H4.
    assert (exponent_ c <= e + 1) as Hce.
    { destruct (Z.le_gt_cases (exponent_ c) (e + 1)); [done|exfalso].
      pose proof (pow10_ge (e + 2 + 100) (exponent_ c + 100) ltac:(lia)) as Hp.
      replace (e + 2 + 100) with (2 + (e + 100)) in Hp by lia. rewrite pow10_add in Hp by lia.
      pose proof (pow10_pos (e + 100) ltac:(lia)). unfold val in H3. iou_consts. nia. }
    pose proof (pow10_ge (exponent_ c + 100) (1 + (e + 100)) ltac:(iou_consts; lia)) as Hp.
    rewrite (pow10_add 1), Z.pow_1_r in Hp by lia.
    assert (Z.sgn m = 1 \/ Z.sgn m = 0 \/ Z.sgn m = -1) as [->|[->| ->]] by lia; lia.
Qed.

(** What is normalized, by value: cut off toward zero to what a mantissa holds, and zero
    exactly below the least positive amount. *)
Lemma normalize_cut m e b : -100 <= e -> normalize (mkIOU m e) = Ok b ->
  (b = zero <-> Z.abs m * 10 ^ (e + 100) < minMantissa * 10 ^ 4) /\
  (b = zero \/ Z.sgn (mantissa_ b) = Z.sgn m /\ Z.abs (val b) <= Z.abs m * 10 ^ (e + 100) < Z.abs (val b) + 10 ^ (exponent_ b + 100)).
Proof.
  intros He Hn. pose proof (normalize_spec m e) as H. rewrite Hn in H. destruct H as (Hc & Ht & Hs & Hz). split.
  - rewrite Hz. split; intros H; [apply (dlt_scaled 100) in H; [exact H|iou_consts; lia..]|]. apply (dlt_scaled 100); [iou_consts; lia..|exact H].
  - destruct Hs as [->|Hs]; [by left|]. destruct Ht as [[Hb Hlt]|(H1 & H2 & H3 & H4)]; [left; by apply Hz|right]. split; [done|].
    assert (Hab : val (iabs b) = Z.abs (val b) /\ exponent_ (iabs b) = exponent_ b).
    { assert (Hmb : mantissa_ b <> 0) by (intros E; unfold iabs in H1; rewrite E in H1; cbn in H1; rewrite E in H1; iou_consts; lia).
      assert (Hpow : 0 < 10 ^ (exponent_ b + 100)) by (apply canonical_exponent in Hc; apply pow10_pos; lia). unfold iabs. destruct (Z.ltb_spec (mantissa_ b) 0).
      - rewrite val_opp. split; [unfold val; nia|]. unfold opp. by rewrite (proj2 (Z.eqb_neq _ 0)).
      - split; [unfold val; nia|done]. }
    destruct Hab as [Hab Hex]. apply (dle_scaled 100) in H3; [|iou_consts; lia..]. apply (dlt_scaled 100) in H4; [|iou_consts; lia..].
    fold (val (iabs b)) in H3. rewrite Z.mul_add_distr_r in H4. fold (val (iabs b)) in H4. rewrite Hab in H3, H4. rewrite Hex in H4. lia.
Qed.

(** C14. Addition of canonical amounts, exactly. Let [s] be the sum of the mantissas, each
    cut off toward zero at the larger exponent, whose unit is [u]; it is within one unit
    of the exact sum. Zero is neutral. Otherwise the result is zero exactly when [s] lies
    within ten units of zero or its value is below the least positive amount; an
    [overflow_error] is thrown exactly when, beyond those ten units, the value of [s] is
    10^96 or more, and nothing else is ever thrown; and in all other cases the result is
    the canonical amount with the sign of [s] and the value of [s] cut off toward zero
    to the digits that a mantissa holds, which is within 11 units of the exact sum. *)
Theorem op_add_spec a b : canonical a -> canonical b ->
  let u := 10 ^ (Z.max (exponent_ a) (exponent_ b) + 100) in let s := aligned_sum a b in
  Z.abs (s * u - (val a + val b)) < u /\ op_add a zero = Ok a /\ op_add zero b = Ok b /\
  (a <> zero -> b <> zero ->
   (op_add a b = Ok zero <-> Z.abs s <= 10 \/ Z.abs s * u < minMantissa * 10 ^ 4) /\
   ((exists x, op_add a b = Throw x) <-> 10 < Z.abs s /\ (maxMantissa + 1) * 10 ^ (maxExponent + 100) <= Z.abs s * u) /\
   (forall x, op_add a b = Throw x -> exists w, x = overflow_error w) /\
   (forall c, op_add a b = Ok c -> c <> zero -> canonical c /\ Z.sgn (mantissa_ c) = Z.sgn s /\
      Z.abs (val c) <= Z.abs s * u < Z.abs (val c) + 10 ^ (exponent_ c + 100) /\ Z.abs (val c - (val a + val b)) < 11 * u)).
Proof.
  intros Ha Hb u s. pose proof (aligned_sum_error a b Ha Hb) as Hs. cbv zeta in Hs. fold u s in Hs.
  assert (Hu : 0 < u) by (apply pow10_pos; apply canonical_exponent in Ha, Hb; lia). split; [done|]. split; [done|].
  split; [unfold op_add; destruct (op_eq b zero) eqn:E; [by apply op_eq_true in E as ->|done]|]. intros Na Nb. rewrite op_add_unfold.
  assert (op_eq b zero = false) as -> by (apply not_true_is_false; by rewrite op_eq_true). assert (op_eq a zero = false) as -> by (apply not_true_is_false; by rewrite op_eq_true).
  fold s. set (E := Z.max (exponent_ a) (exponent_ b)) in *. destruct ((-10 <=? s) && (s <=? 10)) eqn:C.
  { assert (Z.abs s <= 10) by lia. split_and!; [split; [by left|done]|split; [by intros [x [=]]|lia]|by intros x [=]|]. by intros c [= <-]. }
  assert (HE : -100 <= E <= 80) by (apply canonical_exponent in Ha, Hb; lia). assert (Hsm : Z.abs s <= 2 * maxMantissa) by (by apply aligned_sum_bound).
  assert (Hbig : 10 < Z.abs s) by lia. pose proof (normalize_spec s E) as Hn. destruct (normalize (mkIOU s E)) as [c|x] eqn:N.
  - destruct Hn as (Hc & _). destruct (normalize_cut s E c ltac:(lia) N) as [Hz Hcut]. fold u in Hz, Hcut. split_and!.
    + split; [intros [= ->]; right; by apply Hz|intros [?|H]; [lia|f_equal; by apply Hz]].
    + split; [by intros [y [=]]|]. intros [_ Hle]. exfalso. destruct Hcut as [->|[_ [_ Hlt]]]; [assert (Z.abs s * u < minMantissa * 10 ^ 4) by (by apply Hz); iou_consts; lia|].
      destruct Hc as [->|Hc]; [change (Z.abs (val zero)) with 0 in Hlt; cbn in Hlt; iou_consts; lia|].
      pose proof (pow10_ge (exponent_ c + 100) (maxExponent + 100) ltac:(iou_consts; lia)). pose proof (pow10_pos (exponent_ c + 100) ltac:(iou_consts; lia)).
      unfold val in Hlt. rewrite Z.abs_mul, (Z.abs_eq (10 ^ _)) in Hlt by lia. iou_consts. nia.
    + by intros y [=].
    + intros c' [= <-] Hne. destruct Hcut as [|[Hsg Hcut]]; [done|]. split_and!; [done|done|lia|lia|].
      apply normalize_val in N as [N|[-> _]]; [fold u in N; lia|done|lia|done].
  - destruct Hn as (Hx & Hn). apply (dle_scaled 100) in Hn; [|iou_consts; lia..]. fold u in Hn. split_and!; [split; [done|iou_consts; lia]|split; [done|eauto]|by intros y [= <-]|done].
Qed.

(** Negation is exact on canonical amounts, zero is a unit of addition, and
    an amount minus itself is zero. *)
Theorem op_neg_inverse a : canonical a ->
  op_neg a = Ok (opp a) /\ op_add a zero = Ok a /\ op_add zero a = Ok a /\
  op_sub a a = Ok zero.
Proof.
  intros Ha. assert (Hn : op_neg a = Ok (opp a)).
  { unfold op_neg, make. destruct Ha as [->|Ha]; [done|].
    assert (mantissa_ a <> 0) by (iou_consts; lia).
    replace (mkIOU (- mantissa_ a) (exponent_ a)) with (opp a)
      by (unfold opp; by rewrite (proj2 (Z.eqb_neq _ 0))).
    apply normalize_canonical_id, canonical_opp. by right. }
  split_and!; [done|done| |].
  - unfold op_add. destruct (op_eq a zero) eqn:E; [|done].
    by apply op_eq_true in E as ->.
  - unfold op_sub. rewrite Hn. cbn. rewrite op_add_unfold.
    destruct (op_eq (opp a) zero) eqn:E1; [apply op_eq_true in E1; rewrite opp_zero in E1; by subst|].
    destruct (op_eq a zero) eqn:E2; [apply op_eq_true in E2; by subst|].
    assert (aligned_sum a (opp a) = 0) as ->; [|done].
    unfold aligned_sum, opp. destruct (Z.eqb_spec (mantissa_ a) 0) as [Hz|Hz]; cbn.
    + rewrite !Hz. done.
    + rewrite Z.max_id, Z.sub_diag, Z.pow_0_r, !Z.quot_1_r. lia.
Qed.

(** ** [mulRatio] *)

Lemma lower_bound_pow s n v :
  v <= 10 ^ Z.of_nat (s + n) ->
  let k := lower_bound (map (fun i => 10 ^ Z.of_nat i) (seq s (S n))) v in
  0 <= k <= Z.of_nat n /\ v <= 10 ^ (Z.of_nat s + k) /\
  (k = 0 \/ 10 ^ (Z.of_nat s + k - 1) < v).
Proof.
  revert s. induction n as [|n IH]; intros s Hv; cbv zeta;
    rewrite <- cons_seq; cbn [map lower_bound].
  - replace (s + 0)%nat with s in Hv by lia. rewrite (proj2 (Z.ltb_ge _ v)) by lia.
    split_and!; [lia|lia|by rewrite Z.add_0_r|by left].
  - destruct (Z.ltb_spec (10 ^ Z.of_nat s) v) as [Hlt|Hge].
    + replace (s + S n)%nat with (S s + n)%nat in Hv by lia.
      specialize (IH (S s) Hv). cbv zeta in IH.
      set (k := lower_bound _ v) in *. destruct IH as (H1 & H2 & H3).
      replace (Z.of_nat s + (1 + k)) with (Z.of_nat (S s) + k) by lia.
      split_and!; [lia|lia|done|]. right.
      destruct H3 as [->|H3]; [|done]. replace (Z.of_nat (S s) + 0 - 1) with (Z.of_nat s); lia.
    + split_and!; [lia|lia|by rewrite Z.add_0_r|by left].
Qed.

Lemma log10Ceil_spec v : v <= 10 ^ 29 ->
  0 <= log10Ceil v <= 29 /\ v <= 10 ^ log10Ceil v /\
  (log10Ceil v = 0 \/ 10 ^ (log10Ceil v - 1) < v).
Proof.
  intros Hv. unfold log10Ceil.
  change powerTable with (map (fun i => 10 ^ Z.of_nat i) (seq 0 30)).
  exact (lower_bound_pow 0 29 v Hv).
Qed.

Lemma power_spec i : 0 <= i <= 29 -> power i = 10 ^ i.
Proof.
  intros. unfold power. change powerTable with (map (fun i => 10 ^ Z.of_nat i) (seq 0 30)).
  rewrite (nth_indep _ 0 (10 ^ Z.of_nat 0)) by (rewrite length_map, length_seq; lia).
  rewrite (map_nth (fun i => 10 ^ Z.of_nat i)), seq_nth by lia. f_equal. lia.
Qed.

Lemma fl64_eq : fl64 = 18.
Proof. reflexivity. Qed.

(** Scaling up keeps the quotient exact: what is not in [low] is in [rem]. *)
Lemma mulRatio_scale_spec mul den e low rem e' :
  0 <= mul < 10 ^ 28 -> 0 < den -> mulRatio_scale mul den e = (low, rem, e') ->
  exists j, 0 <= j <= 18 /\ e' = e - j /\ mul * 10 ^ j = low * den + rem /\
    0 <= rem < den /\ 0 <= low < 10 ^ 29 /\
    (rem <> 0 -> mul / den = 0 \/ 10 ^ 17 <= low).
Proof.
  intros Hm Hd. unfold mulRatio_scale.
  pose proof (Z.div_mod mul den ltac:(lia)) as Hdm.
  pose proof (Z.mod_pos_bound mul den Hd) as Hr. rewrite Z.mul_comm in Hdm.
  replace (mul - mul / den * den) with (mul mod den) by lia.
  set (q := mul / den) in *. set (r := mul mod den) in *.
  assert (Hq : 0 <= q <= mul) by (split; [apply Z.div_pos; lia|nia]).
  destruct (Z.eqb_spec r 0) as [Hz|Hz].
  { intros [= <- <- <-]. exists 0. rewrite Z.pow_0_r. lia. }
  rewrite fl64_eq. destruct (log10Ceil_spec q ltac:(lia)) as (Hc & Hc1 & Hc2).
  set (c := log10Ceil q) in *.
  destruct (Z.ltb_spec 0 (18 - c)) as [Hgrow|Hgrow]; intros [= <- <- <-].
  - rewrite power_spec by lia. set (P := 10 ^ (18 - c)).
    assert (HP : 0 < P) by (apply pow10_pos; lia).
    assert (HPP : P <= 10 ^ 18) by (apply pow10_ge; lia).
    assert (HcP : 10 ^ c * P = 10 ^ 18) by (subst P; rewrite <- pow10_add by lia; f_equal; lia).
    pose proof (Z.div_mod (r * P) den ltac:(lia)) as Hdm2.
    pose proof (Z.mod_pos_bound (r * P) den Hd) as Hr2.
    set (a := r * P / den) in *.
    assert (Ha : 0 <= a < P) by (split; [apply Z.div_pos; nia|apply Z.div_lt_upper_bound; nia]).
    exists (18 - c). fold P.
    split_and!; [lia|lia|done|nia|lia|lia|nia| |].
    + nia.
    + intros _. destruct Hc2 as [Hc0|Hc2].
      * rewrite Hc0 in Hc1. change (10 ^ 0) with 1 in Hc1.
        assert (q = 0 \/ q = 1) as [|Hq1] by lia; [by left|right].
        subst P. rewrite Hc0, Hq1. change (10 ^ (18 - 0)) with (10 ^ 18). lia.
      * right. replace (10 ^ 18) with (10 * 10 ^ 17) in HcP by done.
        assert (c = 0 \/ 1 <= c) as [Hc0|Hc0] by lia.
        { rewrite Hc0 in Hc2. change (10 ^ (0 - 1)) with 0 in Hc2. 
          rewrite Hc0 in Hc1. change (10 ^ 0) with 1 in Hc1. assert (q = 1) by lia.
          subst P. rewrite Hc0. change (10 ^ (18 - 0)) with (10 ^ 18). lia. }
        assert (10 ^ c = 10 * 10 ^ (c - 1)) as HE
          by (rewrite <- (Z.pow_1_r 10) at 2; rewrite <- pow10_add by lia; f_equal; lia).
        nia.
  - rewrite (Z.div_small r den) by lia. exists 0. rewrite Z.pow_0_r.
    split_and!; try lia. intros _. right.
    destruct Hc2 as [Hc2|Hc2]; [lia|].
    pose proof (pow10_ge 17 (c - 1) ltac:(lia)). lia.
Qed.

Lemma mulRatio_shrink_spec low rem e low' h e' :
  0 <= low < 10 ^ 29 -> mulRatio_shrink low rem e = (low', h, e') ->
  exists s, 0 <= s <= 29 /\ e' = e + s /\ low' = low / 10 ^ s /\ low' <= 10 ^ 18 /\
    (h = false <-> rem = 0 /\ low = low' * 10 ^ s) /\
    (s = 0 \/ 10 ^ 17 <= low').
Proof.
  intros Hl. unfold mulRatio_shrink. rewrite fl64_eq.
  destruct (log10Ceil_spec low ltac:(lia)) as (Hc & Hc1 & Hc2). set (c := log10Ceil low) in *.
  destruct (Z.ltb_spec 0 (c - 18)) as [Hs|Hs]; intros [= <- <- <-].
  - rewrite power_spec by lia. exists (c - 18). set (P := 10 ^ (c - 18)).
    assert (HP : 0 < P) by (apply pow10_pos; lia).
    assert (Hcp : 10 ^ c = P * 10 ^ 18) by (subst P; rewrite <- pow10_add by lia; f_equal; lia).
    split_and!; [lia|lia|done|done| | |].
    + apply Z.div_le_upper_bound; lia.
    + rewrite orb_false_iff, !negb_false_iff, !Z.eqb_eq. lia.
    + right. destruct Hc2 as [|Hc2]; [lia|]. apply Z.div_le_lower_bound; [done|].
      assert (10 ^ (c - 1) = P * 10 ^ 17) by (subst P; rewrite <- pow10_add by lia; f_equal; lia).
      lia.
  - exists 0. rewrite Z.pow_0_r, Z.div_1_r, negb_false_iff, Z.eqb_eq.
    pose proof (pow10_ge c 18 ltac:(lia)). split_and!; lia.
Qed.

(** The scaled quotient brackets [mul / den]: [low] units at exponent [e'] are
    at most the exact ratio, [low + 1] are more, and the remainder flag is clear
    exactly when [low] units are the exact ratio. *)
Definition brackets (mul den e low e' : Z) (h : bool) : Prop :=
  dle (low * den) e' mul e /\ dlt mul e ((low + 1) * den) e' /\
  (h = false <-> deq (low * den) e' mul e).

Lemma brackets_intro mul den e j s low rem low' (h : bool) :
  0 <= j -> 0 <= s -> 0 < den -> 0 <= rem < den ->
  mul * 10 ^ j = low * den + rem -> low' = low / 10 ^ s ->
  (h = false <-> rem = 0 /\ low = low' * 10 ^ s) ->
  brackets mul den e low' (e - j + s) h.
Proof.
  intros Hj Hs Hd Hr Hm Hl Hh. unfold brackets.
  set (K := Z.abs e + j).
  rewrite (dle_scaled K), (dlt_scaled K), (deq_scaled K) by lia.
  replace (e - j + s + K) with (s + (e - j + K)) by lia.
  replace (e + K) with (j + (e - j + K)) by lia.
  rewrite (pow10_add s), (pow10_add j) by lia.
  pose proof (pow10_pos (e - j + K) ltac:(lia)) as HT. set (T := 10 ^ (e - j + K)) in *.
  pose proof (pow10_pos s Hs) as HS. set (S := 10 ^ s) in *. set (J := 10 ^ j) in *.
  pose proof (Z.div_mod low S ltac:(lia)) as Hdm. rewrite <- Hl in Hdm.
  pose proof (Z.mod_pos_bound low S HS) as Hmod. set (r := low mod S) in *.
  replace (mul * (J * T)) with ((low * den + rem) * T) by nia.
  replace (low' * den * (S * T)) with (low' * S * den * T) by lia.
  replace ((low' + 1) * den * (S * T)) with ((low' * S + S) * den * T) by lia.
  rewrite Hh. set (X := low' * S) in *. assert (HX : low = X + r) by lia.
  assert (0 <= r * den) by nia. assert ((r + 1) * den <= S * den) by nia.
  assert (low * den + rem = X * den + (r * den + rem)) as HE by (rewrite HX; lia). rewrite HE.
  split_and!; [apply Z.mul_le_mono_nonneg_r; lia|apply Z.mul_lt_mono_pos_r; lia|].
  split.
  - intros [Hrem Hlow]. f_equal. assert (r = 0) by lia. subst r. nia.
  - intros Heq. apply Z.mul_reg_r in Heq; [|lia]. nia.
Qed.

(** Arguments [mulRatio] is called with: a canonical nonnegative amount and
    32-bit numerator and denominator. *)
Definition ratio_args (amt : IOUAmount) (num den : Z) : Prop :=
  canonical amt /\ 0 <= mantissa_ amt /\ 0 <= num < 2 ^ 32 /\ 0 < den < 2 ^ 32.

Lemma mulRatio_quotient amt num den : ratio_args amt num den ->
  exists low h e', 0 <= low <= 10 ^ 18 /\ (h = true -> 10 ^ 15 <= low) /\
    brackets (mantissa_ amt * num) den (exponent_ amt) low e' h /\
    forall roundUp, mulRatio amt num den roundUp =
      (result ← make low e';
       if h && roundUp then
         if negb (op_bool result) then make minMantissa minExponent
         else make (mantissa_ result + 1) (exponent_ result)
       else Ok result).
Proof.
  intros (Hc & Hm & Hn & Hd). set (mul := mantissa_ amt * num).
  assert (Hm16 : mantissa_ amt = 0 \/ minMantissa <= mantissa_ amt <= maxMantissa)
    by (destruct Hc as [->|[? _]]; [by left|right; lia]).
  assert (Hmul : 0 <= mul < 10 ^ 28) by (subst mul; iou_consts; nia).
  destruct (mulRatio_scale mul den (exponent_ amt)) as [[low0 rem] e0] eqn:E1.
  destruct (mulRatio_shrink low0 rem e0) as [[low h] e'] eqn:E2.
  apply mulRatio_scale_spec in E1 as Hscale; [|done|lia].
  destruct Hscale as (j & Hj & He0 & Hexact & Hrem & Hlow0 & Hbig).
  apply mulRatio_shrink_spec in E2 as Hshrink; [|done].
  destruct Hshrink as (s & Hs & He' & Hlow & H18 & Hh & Hs17).
  assert (0 <= low) by (rewrite Hlow; apply Z.div_pos; [lia|apply pow10_pos; lia]).
  exists low, h, e'. split; [lia|]. split.
  - intros ->. destruct Hs17 as [->|?]; [|lia].
    rewrite Z.pow_0_r, Z.div_1_r in Hlow. subst low0.
    destruct (decide (rem = 0)) as [->|Hrem0]; [rewrite Z.pow_0_r in Hh; exfalso|].
    { assert (true = false) by (apply Hh; lia). discriminate. }
    destruct (Hbig Hrem0) as [Hq|]; [exfalso|lia].
    assert (mul < den) by (apply Z.div_small_iff in Hq; lia).
    assert (mul = 0) as Hz by (subst mul; iou_consts; nia). 
    rewrite Hz in Hexact. nia.
  - split.
    + subst e' e0. eapply brackets_intro; eauto; lia.
    + intros roundUp. unfold mulRatio.
      rewrite (proj2 (Z.eqb_neq den 0)), (proj2 (Z.ltb_ge (mantissa_ amt) 0)) by lia.
      fold mul. rewrite E1, E2. destruct (make low e') as [r|x]; cbn; [|done].
      unfold mulRatio_round. by rewrite !andb_true_r, andb_false_r.
Qed.

Lemma make_nonneg m e b : 0 <= m -> make m e = Ok b -> truncates m e b.
Proof.
  intros Hm. destruct (decide (m = 0)) as [->|].
  - intros [= <-]. left. split; [done|]. by apply dlt_0_pos.
  - intros E. pose proof (normalize_pos m e ltac:(lia)) as H. unfold make in E. by rewrite E in H.
Qed.

Lemma dlt_succ m1 e1 m2 e2 : e1 <= e2 -> dlt m1 e1 m2 e2 -> dle (m1 + 1) e1 m2 e2.
Proof. unfold dlt, dle. intros. rewrite Z.min_l, Z.sub_diag in * by done. lia. Qed.

(** A sixteen-digit upper bound of the scaled quotient is one of the ratio. *)
Lemma brackets_upper mul den e low e' h M E : 0 < den ->
  brackets mul den e low e' h -> (h = true -> 10 ^ 15 <= low) -> M <= 10 ^ 16 ->
  dlt low e' M E -> dlt mul e (M * den) E.
Proof.
  intros Hd (H1 & H2 & H3) Hbig HM Hlt. destruct h.
  - specialize (Hbig eq_refl). eapply dlt_dle_trans; [exact H2|].
    rewrite (Z.mul_comm _ den), (Z.mul_comm M). apply dle_mul; [lia|].
    destruct (Z.le_gt_cases e' E); [by apply dlt_succ|exfalso].
    unfold dlt in Hlt. rewrite Z.min_r, Z.sub_diag, Z.pow_0_r in Hlt by lia.
    pose proof (pow10_ge 1 (e' - E) ltac:(lia)) as Hp. rewrite Z.pow_1_r in Hp. nia.
  - eapply dle_dlt_trans; [apply (proj2 (proj1 (deq_dle _ _ _ _) (proj1 H3 eq_refl)))|].
    rewrite (Z.mul_comm _ den), (Z.mul_comm M). by apply dlt_mul.
Qed.

Lemma truncates_brackets mul den e low e' h d : 0 < den ->
  brackets mul den e low e' h -> (h = true -> 10 ^ 15 <= low) -> 0 <= low ->
  truncates low e' d ->
  dle (mantissa_ d * den) (exponent_ d) mul e /\
  ((d = zero /\ dlt mul e (minMantissa * den) minExponent) \/
   (0 < mantissa_ d /\ dlt mul e ((mantissa_ d + 1) * den) (exponent_ d))).
Proof.
  intros Hd Hb Hbig Hlow Ht. pose proof Hb as (Hle & _).
  destruct Ht as [[-> Hlt]|(Hm & He & Hdle & Hdlt)].
  - split; [|left; split; [done|]; eapply brackets_upper; [exact Hd|exact Hb|exact Hbig|iou_consts; lia|exact Hlt]].
    eapply dle_trans; [|exact Hle]. apply dle_not_dlt. intros Hx.
    change (mantissa_ zero * den) with 0 in Hx. 
    unfold dlt in Hx. pose proof (pow10_pos (e' - Z.min e' (exponent_ zero)) ltac:(lia)). nia.
  - split.
    + eapply dle_trans; [|exact Hle]. rewrite (Z.mul_comm _ den), (Z.mul_comm low).
      apply dle_mul; [lia|done].
    + right. split; [iou_consts; lia|].
      eapply brackets_upper; [exact Hd|exact Hb|exact Hbig|iou_consts; lia|exact Hdlt].
Qed.

(** [mulRatio] rounding down never gives away value: on a nonnegative amount
    the result is canonical, at most [num * amt / den], and within one unit of
    its last place of that ratio (or zero, when the ratio is below the least
    positive amount). *)
Theorem mulRatio_down amt num den d : ratio_args amt num den ->
  mulRatio amt num den false = Ok d ->
  canonical d /\ dle (mantissa_ d * den) (exponent_ d) (mantissa_ amt * num) (exponent_ amt) /\
  ((d = zero /\ dlt (mantissa_ amt * num) (exponent_ amt) (minMantissa * den) minExponent) \/
   dlt (mantissa_ amt * num) (exponent_ amt) ((mantissa_ d + 1) * den) (exponent_ d)).
Proof.
  intros Ha. destruct (mulRatio_quotient _ _ _ Ha) as (low & h & e' & Hlow & Hbig & Hb & ->).
  intros E. res_inv. rewrite andb_false_r in E. res_inv.
  apply make_nonneg in E0; [|lia]. split; [by eapply truncates_canonical|].
  destruct Ha as (_ & _ & _ & Hd).
  destruct (truncates_brackets _ _ _ _ _ _ _ (proj1 Hd) Hb Hbig (proj1 Hlow) E0)
    as [H1 [H2|[_ H2]]]; auto.
Qed.

Lemma make_carry e b : minExponent <= e -> make (maxMantissa + 1) e = Ok b ->
  b = mkIOU minMantissa (e + 1).
Proof.
  intros He. unfold make, normalize. cbn [mantissa_ exponent_].
  change (maxMantissa + 1 =? 0) with false. change (maxMantissa + 1 <? 0) with false.
  cbv iota zeta. rewrite grow_stop by (by vm_compute).
  unfold shrink, whileR. change (Z.to_nat (Z.log2 (maxMantissa + 1))) with 53%nat.
  cbn [whileR_fuel]. change (maxMantissa <? maxMantissa + 1) with true. cbv iota.
  destruct (maxExponent <=? e) eqn:E; [done|]. apply Z.leb_gt in E.
  change ((maxMantissa + 1) / 10) with minMantissa.
  cbn -[minMantissa maxMantissa minExponent maxExponent].
  change (maxMantissa <? minMantissa) with false. cbn -[minMantissa maxMantissa minExponent maxExponent].
  rewrite (proj2 (Z.ltb_ge (e + 1) minExponent)), (proj2 (Z.ltb_ge maxExponent (e + 1))) by lia.
  by intros [= <-].
Qed.

Lemma make_canonical m e : canonical (mkIOU m e) -> make m e = Ok (mkIOU m e).
Proof. apply normalize_canonical_id. Qed.

(** Adding one unit in the last place to a positive canonical amount is exact. *)
Lemma make_succ r b : canonical r -> 0 < mantissa_ r ->
  make (mantissa_ r + 1) (exponent_ r) = Ok b ->
  canonical b /\ dle (mantissa_ r + 1) (exponent_ r) (mantissa_ b) (exponent_ b).
Proof.
  intros [->|[Hm He]] Hpos; [by cbn in Hpos|]. intros E.
  assert (mantissa_ r + 1 <= maxMantissa \/ mantissa_ r = maxMantissa) as [Hle|Heq] by lia.
  - rewrite make_canonical in E; [|right; cbn; lia]. injection E as <-.
    split; [right; cbn; lia|apply dle_refl].
  - pose proof E as E'. rewrite Heq in E. apply make_carry in E as Hb; [|lia].
    pose proof (normalize_spec (mantissa_ r + 1) (exponent_ r)) as Hs.
    unfold make in E'. rewrite E' in Hs. split; [by apply Hs|]. rewrite Hb, Heq. cbn.
    replace (maxMantissa + 1) with (minMantissa * 10 ^ 1) by done.
    replace (exponent_ r) with (exponent_ r + 1 - 1) at 1 by lia. by apply shift_dle.
Qed.

(** [mulRatio] rounding up on a nonnegative amount returns either the amount
    rounded down or an amount that is at least the exact ratio. *)
Theorem mulRatio_up amt num den u : ratio_args amt num den ->
  mulRatio amt num den true = Ok u ->
  canonical u /\
  exists d, mulRatio amt num den false = Ok d /\
    (u = d \/
     dle (mantissa_ amt * num) (exponent_ amt) (mantissa_ u * den) (exponent_ u)).
Proof.
  intros Ha. destruct (mulRatio_quotient _ _ _ Ha) as (low & h & e' & Hlow & Hbig & Hb & HE).
  rewrite !HE. destruct (make low e') as [r|x] eqn:Em; cbn -[make]; [|done].
  apply make_nonneg in Em; [|lia]. pose proof (truncates_canonical _ _ _ Em) as Hcr.
  rewrite andb_false_r, andb_true_r. destruct h; [|intros [= <-]; eauto].
  destruct Ha as (_ & _ & _ & Hd).
  destruct (truncates_brackets _ _ _ _ _ _ _ (proj1 Hd) Hb Hbig (proj1 Hlow) Em)
    as [_ [[-> Hlt]|[Hpos Hlt]]].
  - change (negb (op_bool zero)) with true. cbv iota. rewrite make_canonical by (right; by vm_compute).
    intros [= <-]. split; [right; by vm_compute|]. exists zero. split; [done|right].
    by apply dlt_dle.
  - unfold op_bool. rewrite (proj2 (Z.eqb_neq _ 0)) by lia. cbn [negb]. intros E.
    apply make_succ in E as [Hc Hle]; [|done..]. split; [done|].
    exists r. split; [done|right].
    eapply dle_trans; [by apply dlt_dle|].
    rewrite (Z.mul_comm _ den), (Z.mul_comm (mantissa_ u)). apply dle_mul; [lia|done].
Qed.

Lemma make_opp m e : m <> 0 -> make (- m) e = opp <$> make m e.
Proof.
  intros. unfold make. rewrite <- normalize_opp. unfold opp. cbn [mantissa_ exponent_].
  by rewrite (proj2 (Z.eqb_neq m 0)).
Qed.

Lemma mulRatio_round_opp neg h up r : mantissa_ r <> -1 -> mantissa_ r <> 1 ->
  mulRatio_round (negb neg) h up (opp r) = opp <$> mulRatio_round neg h (negb up) r.
Proof.
  intros H1 H2. unfold mulRatio_round, op_bool. rewrite opp_mantissa.
  assert (exponent_ (opp r) = exponent_ r) as He
    by (unfold opp; by destruct (mantissa_ r =? 0)).
  replace (- mantissa_ r =? 0) with (mantissa_ r =? 0) by lia. rewrite He.
  destruct h, up, neg; cbn -[make minMantissa minExponent]; try done;
    (destruct (Z.eqb_spec (mantissa_ r) 0); cbn -[make minMantissa minExponent];
      rewrite <- make_opp by (try done; lia); f_equal; lia).
Qed.

(** [mulRatio] is odd: on a negative amount it is [mulRatio] on the magnitude
    with the rounding direction reversed, so "up" is toward plus infinity for
    both signs. *)
Theorem mulRatio_opp amt num den roundUp : canonical amt -> mantissa_ amt <> 0 ->
  mulRatio (opp amt) num den roundUp = opp <$> mulRatio amt num den (negb roundUp).
Proof.
  intros Hc Hz. unfold mulRatio. destruct (den =? 0); [done|].
  assert (Hn : (mantissa_ (opp amt) <? 0) = negb (mantissa_ amt <? 0))
    by (rewrite opp_mantissa; lia).
  assert (exponent_ (opp amt) = exponent_ amt) as ->
    by (unfold opp; by destruct (mantissa_ amt =? 0)).
  rewrite Hn, opp_mantissa.
  replace (if negb (mantissa_ amt <? 0) then - - mantissa_ amt else - mantissa_ amt)
    with (if mantissa_ amt <? 0 then - mantissa_ amt else mantissa_ amt)
    by (destruct (mantissa_ amt <? 0); cbn; lia).
  destruct (mulRatio_scale _ _ _) as [[low rem] e].
  destruct (mulRatio_shrink _ _ _) as [[low' h] e'].
  set (neg := mantissa_ amt <? 0).
  assert (Hm : make (if negb neg then - low' else low') e'
               = opp <$> make (if neg then - low' else low') e').
  { destruct (decide (low' = 0)) as [->|]; [by destruct neg|].
    destruct neg; cbn [negb]; [|by apply make_opp].
    rewrite make_opp by done. by destruct (make low' e') as [r|]; cbn; rewrite ?opp_opp. }
  rewrite Hm. destruct (make (if neg then - low' else low') e') as [r|x] eqn:Er; cbn -[mulRatio_round];
    [|done].
  assert (canonical r) as Hr.
  { pose proof (normalize_spec (if neg then - low' else low') e') as Hs.
    unfold make in Er. rewrite Er in Hs. by apply Hs. }
  apply mulRatio_round_opp; destruct Hr as [->|Hr]; try done; iou_consts; lia.
Qed.

(** A lost rounding: multiplying 9999999999999999 by 3/1 has no remainder in
    128-bit arithmetic, so the digit that [normalize] drops afterwards is not
    noticed, and rounding up returns an amount strictly below the exact product
    (29999999999999997). *)
Theorem mulRatio_roundup_loses :
  let amt := mkIOU 9999999999999999 0 in
  exists u, mulRatio amt 3 1 true = Ok u /\ canonical amt /\
    dlt (mantissa_ u * 1) (exponent_ u) (mantissa_ amt * 3) (exponent_ amt).
Proof. exists (mkIOU 2999999999999999 1). split; [by vm_compute|]. split; [right|]; by vm_compute. Qed.

(** Witnesses: 1/3 of one unit, rounded each way. *)
Lemma op_lt_correct_witness :
  op_lt (mkIOU (-5000000000000000) 3) (mkIOU 1000000000000000 (-20)) = true <->
  dlt (-5000000000000000) 3 1000000000000000 (-20).
Proof.
  refine (proj1 (op_lt_correct (mkIOU (-5000000000000000) 3) (mkIOU 1000000000000000 (-20)) _ _));
    right; vm_compute; split; split; discriminate.
Defined.

Lemma op_add_spec_witness :
  (op_add (mkIOU 1000000000000000 (-15)) (mkIOU 9999999999999999 (-15)) = Ok (mkIOU 1099999999999999 (-14)) /\ canonical (mkIOU 1099999999999999 (-14))) /\
  op_add (mkIOU 1000000000000005 (-15)) (mkIOU (-1000000000000000) (-15)) = Ok zero.
Proof.
  split.
  - assert (E : op_add (mkIOU 1000000000000000 (-15)) (mkIOU 9999999999999999 (-15)) = Ok (mkIOU 1099999999999999 (-14))) by (vm_compute; reflexivity). split; [exact E|].
    destruct (op_add_spec (mkIOU 1000000000000000 (-15)) (mkIOU 9999999999999999 (-15))) as (_ & _ & _ & H); [right; vm_compute; split; split; discriminate..|].
    destruct H as (_ & _ & _ & H); [discriminate..|]. destruct (H _ E) as [Hc _]; [discriminate|exact Hc].
  - destruct (op_add_spec (mkIOU 1000000000000005 (-15)) (mkIOU (-1000000000000000) (-15))) as (_ & _ & _ & H); [right; vm_compute; split; split; discriminate..|].
    destruct H as (H & _); [discriminate..|]. apply H. left. vm_compute. discriminate.
Defined.

Lemma op_neg_inverse_witness :
  op_sub (mkIOU 1000000000000000 (-15)) (mkIOU 1000000000000000 (-15)) = Ok zero.
Proof.
  apply (op_neg_inverse (mkIOU 1000000000000000 (-15))).
  right; vm_compute; split; split; discriminate.
Defined.

Definition third_args : ratio_args (mkIOU 1000000000000000 (-15)) 1 3.
Proof. split; [right|]; vm_compute; repeat split; discriminate. Defined.

Lemma mulRatio_down_witness :
  mulRatio (mkIOU 1000000000000000 (-15)) 1 3 false = Ok (mkIOU 3333333333333333 (-16)) /\
  canonical (mkIOU 3333333333333333 (-16)).
Proof.
  assert (E : mulRatio (mkIOU 1000000000000000 (-15)) 1 3 false
    = Ok (mkIOU 3333333333333333 (-16))) by (vm_compute; reflexivity).
  split; [exact E|]. exact (proj1 (mulRatio_down _ _ _ _ third_args E)).
Defined.

Lemma mulRatio_up_witness :
  mulRatio (mkIOU 1000000000000000 (-15)) 1 3 true = Ok (mkIOU 3333333333333334 (-16)) /\
  canonical (mkIOU 3333333333333334 (-16)).
Proof.
  assert (E : mulRatio (mkIOU 1000000000000000 (-15)) 1 3 true
    = Ok (mkIOU 3333333333333334 (-16))) by (vm_compute; reflexivity).
  split; [exact E|]. exact (proj1 (mulRatio_up _ _ _ _ third_args E)).
Defined.

Lemma mulRatio_opp_witness :
  mulRatio (opp (mkIOU 1000000000000000 (-15))) 1 3 true
    = opp <$> mulRatio (mkIOU 1000000000000000 (-15)) 1 3 false.
Proof.
  apply (mulRatio_opp (mkIOU 1000000000000000 (-15)) 1 3 true);
    [right; vm_compute; split; split; discriminate|vm_compute; discriminate].
Defined.
