(* ===== verification/STAmount.v ===== *)
(** * STAmount: the ledger's amounts, native and issued

    Models protocol/STAmount.h and protocol/impl/STAmount.cpp: the record, its
    constructors, [canonicalize], comparison, addition, multiplication and
    division with and without rounding, and offer rates. An amount's [SField]
    name is metadata that no operation here reads and is left out. Mantissas are
    [std::uint64_t]; the places where the C++ arithmetic can wrap are written
    with [u64] and [i64]. *)

From S2P Require Import Prelude Decimal IOUAmount.

Record Issue := mkIssue { currency : Z; account : Z }.

#[export] Instance Issue_eq_dec : EqDecision Issue.
Proof. solve_decision. Defined.

(** The native currency is the zero currency. *)
Definition isSFC (c : Z) : bool := c =? 0.
Definition sfcIssue : Issue := mkIssue 0 0.
Definition noIssue : Issue := mkIssue 1 1.

Record STAmount := mkSTAmount {
  mIssue : Issue;
  mValue : Z;
  mOffset : Z;
  mIsNative : bool;
  mIsNegative : bool
}.

#[export] Instance STAmount_eq_dec : EqDecision STAmount.
Proof. solve_decision. Defined.

Definition cMinOffset : Z := -96.
Definition cMaxOffset : Z := 80.
Definition cMinValue : Z := 1000000000000000.
Definition cMaxValue : Z := 9999999999999999.
Definition cMaxNative : Z := 9000000000000000000.
Definition cMaxNativeN : Z := 100000000000000000.
Definition tenTo14 : Z := 100000000000000.
Definition tenTo14m1 : Z := tenTo14 - 1.
Definition tenTo17 : Z := tenTo14 * 1000.

(** [while (offset > 0) { value *= 10; --offset; }] on 64-bit values. *)
Definition native_scale (value offset : Z) : Z * Z :=
  while (fun '(v, o) => Z.to_nat o) (fun '(v, o) => 0 <? o)
        (fun '(v, o) => (u64 (v * 10), o - 1)) (value, offset).

Definition canonicalize (a : STAmount) : res STAmount :=
  if isSFC (currency (mIssue a)) then
    if mValue a =? 0 then Ok (mkSTAmount (mIssue a) 0 0 true false) else
    let '(v, o) := align (mValue a) (mOffset a) 0 in
    let '(v, o) := native_scale v o in
    if cMaxNativeN <? v then Throw (runtime_error "Native currency amount out of range")
    else Ok (mkSTAmount (mIssue a) v o true (mIsNegative a))
  else
    if mValue a =? 0 then Ok (mkSTAmount (mIssue a) 0 (-100) false false) else
    let s := grow cMinValue cMinOffset (mValue a, mOffset a) in
    '(v, o) ← shrink cMaxValue cMaxOffset (runtime_error "value overflow") s;
    if (o <? cMinOffset) || (v <? cMinValue)
    then Ok (mkSTAmount (mIssue a) 0 (-100) false false) else
    if cMaxOffset <? o then Throw (runtime_error "value overflow")
    else Ok (mkSTAmount (mIssue a) v o false (mIsNegative a)).

(** ** Constructors *)

(** [set (std::int64_t v)]: magnitude and sign. *)
Definition set (a : STAmount) (v : Z) : STAmount :=
  if v <? 0 then mkSTAmount (mIssue a) (- v) (mOffset a) (mIsNative a) true
  else mkSTAmount (mIssue a) v (mOffset a) (mIsNative a) false.

(** [STAmount (issue, mantissa, exponent, negative)] with a canonicalized result. *)
Definition make (issue : Issue) (mantissa exponent : Z) (negative : bool) : res STAmount :=
  canonicalize (mkSTAmount issue mantissa exponent false negative).

(** [STAmount (issue)]: zero of that issue. *)
Definition zeroOf (issue : Issue) : res STAmount := make issue 0 0 false.

(** [STAmount (name, std::int64_t mantissa)]: native, not canonicalized. *)
Definition ofSigned (mantissa : Z) : STAmount :=
  set (mkSTAmount sfcIssue 0 0 true false) mantissa.

(** [STAmount (name, std::uint64_t mantissa)]: native, not canonicalized. *)
Definition ofUnsigned (mantissa : Z) : STAmount := mkSTAmount sfcIssue mantissa 0 true false.

(** [STAmount (std::uint64_t mantissa, bool negative)]. *)
Definition ofDrops (mantissa : Z) (negative : bool) : STAmount :=
  mkSTAmount sfcIssue mantissa 0 true (negb (mantissa =? 0) && negative).

(** [STAmount (issue, std::int64_t mantissa, int exponent)]. *)
Definition makeSigned (issue : Issue) (mantissa exponent : Z) : res STAmount :=
  canonicalize (set (mkSTAmount issue 0 exponent false false) mantissa).

(** [STAmount (IOUAmount const&, Issue const&)]. *)
Definition ofIOU (amount : IOUAmount) (issue : Issue) : res STAmount :=
  let neg := op_lt amount zero in
  canonicalize (mkSTAmount issue (if neg then - mantissa_ amount else mantissa_ amount)
    (exponent_ amount) false neg).

(** [STAmount (SFCAmount const&)], the argument being its drops. *)
Definition ofSFC (drops : Z) : res STAmount :=
  let neg := drops <? 0 in
  canonicalize (mkSTAmount sfcIssue (if neg then - drops else drops) 0 true neg).

(** ** Conversions and observers *)

Definition signum (a : STAmount) : Z :=
  if mValue a =? 0 then 0 else if mIsNegative a then -1 else 1.

(** [a == beast::zero]. *)
Definition is_zero (a : STAmount) : bool := signum a =? 0.

Definition getSNValue (amount : STAmount) : res Z :=
  if negb (mIsNative amount) then Throw (runtime_error "amount is not native!") else
  let ret := i64 (mValue amount) in
  Ok (if mIsNegative amount then - ret else ret).

Definition sfc (a : STAmount) : res Z :=
  if negb (mIsNative a)
  then Throw (logic_error "Cannot return non-native STAmount as SFCAmount") else
  let drops := i64 (mValue a) in
  Ok (if mIsNegative a then - drops else drops).

Definition iou (a : STAmount) : res IOUAmount :=
  if mIsNative a then Throw (logic_error "Cannot return native STAmount as IOUAmount") else
  let mantissa := i64 (mValue a) in
  IOUAmount.make (if mIsNegative a then - mantissa else mantissa) (mOffset a).

Definition areComparable (v1 v2 : STAmount) : bool :=
  Bool.eqb (mIsNative v1) (mIsNative v2) &&
  (currency (mIssue v1) =? currency (mIssue v2)).

Definition setIssue (a : STAmount) (issue : Issue) : STAmount :=
  mkSTAmount issue (mValue a) (mOffset a) (isSFC (currency issue)) (mIsNegative a).

Definition clear (a : STAmount) : STAmount :=
  mkSTAmount (mIssue a) 0 (if mIsNative a then 0 else -100) (mIsNative a) false.

Definition negate (a : STAmount) : STAmount :=
  if is_zero a then a
  else mkSTAmount (mIssue a) (mValue a) (mOffset a) (mIsNative a) (negb (mIsNegative a)).

Definition isLegalNet (a : STAmount) : bool := negb (mIsNative a) || (mValue a <=? cMaxNativeN).

(** ** Operators *)

Definition op_eq (lhs rhs : STAmount) : bool :=
  areComparable lhs rhs && Bool.eqb (mIsNegative lhs) (mIsNegative rhs) &&
  (mOffset lhs =? mOffset rhs) && (mValue lhs =? mValue rhs).

Definition op_lt (lhs rhs : STAmount) : res bool :=
  if negb (areComparable lhs rhs)
  then Throw (runtime_error "Can't compare amounts that are't comparable!") else
  if negb (Bool.eqb (mIsNegative lhs) (mIsNegative rhs)) then Ok (mIsNegative lhs) else
  if mValue lhs =? 0 then
    (if mIsNegative rhs then Ok false else Ok (negb (mValue rhs =? 0)))
  else
  if mValue rhs =? 0 then Ok false else
  if mOffset rhs <? mOffset lhs then Ok (mIsNegative lhs) else
  if mOffset lhs <? mOffset rhs then Ok (negb (mIsNegative lhs)) else
  if mValue rhs <? mValue lhs then Ok (mIsNegative lhs) else
  if mValue lhs <? mValue rhs then Ok (negb (mIsNegative lhs)) else
  Ok false.

(** Unary minus. *)
Definition op_neg (value : STAmount) : STAmount :=
  if mValue value =? 0 then value
  else mkSTAmount (mIssue value) (mValue value) (mOffset value) (mIsNative value)
         (negb (mIsNegative value)).

Definition op_add (v1 v2 : STAmount) : res STAmount :=
  if negb (areComparable v1 v2)
  then Throw (runtime_error "Can't add amounts that are't comparable!") else
  if is_zero v2 then Ok v1 else
  if is_zero v1 then make (mIssue v1) (mValue v2) (mOffset v2) (mIsNegative v2) else
  if mIsNative v1 then
    s1 ← getSNValue v1; s2 ← getSNValue v2; Ok (ofSigned (s1 + s2))
  else
  let vv1 := i64 (mValue v1) in
  let vv2 := i64 (mValue v2) in
  let vv1 := if mIsNegative v1 then - vv1 else vv1 in
  let vv2 := if mIsNegative v2 then - vv2 else vv2 in
  let '(vv1, ov1) := align vv1 (mOffset v1) (mOffset v2) in
  let '(vv2, ov2) := align vv2 (mOffset v2) ov1 in
  let fv := vv1 + vv2 in
  if (-10 <=? fv) && (fv <=? 10) then zeroOf (mIssue v1) else
  if 0 <=? fv then make (mIssue v1) fv ov1 false
  else make (mIssue v1) (- fv) ov1 true.

Definition op_sub (v1 v2 : STAmount) : res STAmount := op_add v1 (op_neg v2).

(** ** Multiplication, division, rates *)

Definition muldiv (multiplier multiplicand divisor : Z) : res Z :=
  let ret := multiplier * multiplicand / divisor in
  if 2 ^ 64 - 1 <? ret then Throw (overflow_error "overflow") else Ok ret.

Definition muldiv_round (multiplier multiplicand divisor rounding : Z) : res Z :=
  let ret := (multiplier * multiplicand + rounding) / divisor in
  if 2 ^ 64 - 1 <? ret then Throw (overflow_error "overflow") else Ok ret.

(** [if (native) while (val < cMinValue) { val *= 10; --offset; }], applied to
    nonzero mantissas only. *)
Definition bring_into_range (native : bool) (val offset : Z) : Z * Z :=
  if native then
    while (fun '(v, o) => Z.to_nat (Z.log2 cMinValue + 1 - Z.log2 v))
          (fun '(v, o) => v <? cMinValue)
          (fun '(v, o) => (u64 (v * 10), o - 1)) (val, offset)
  else (val, offset).

Definition divide (num den : STAmount) (issue : Issue) : res STAmount :=
  if is_zero den then Throw (runtime_error "division by zero") else
  if is_zero num then zeroOf issue else
  let '(numVal, numOffset) := bring_into_range (mIsNative num) (mValue num) (mOffset num) in
  let '(denVal, denOffset) := bring_into_range (mIsNative den) (mValue den) (mOffset den) in
  q ← muldiv numVal tenTo17 denVal;
  make issue (u64 (q + 5)) (numOffset - denOffset - 17)
    (negb (Bool.eqb (mIsNegative num) (mIsNegative den))).

(** The product of two native amounts in native units. *)
Definition native_product (v1 v2 : STAmount) : res STAmount :=
  s1 ← getSNValue v1; s2 ← getSNValue v2;
  let minV := u64 (if s1 <? s2 then s1 else s2) in
  let maxV := u64 (if s1 <? s2 then s2 else s1) in
  if 3000000000 <? minV then Throw (runtime_error "Native value overflow") else
  if 2095475792 <? u64 (Z.shiftr maxV 32 * minV)
  then Throw (runtime_error "Native value overflow")
  else Ok (ofUnsigned (u64 (minV * maxV))).

Definition multiply (v1 v2 : STAmount) (issue : Issue) : res STAmount :=
  if is_zero v1 || is_zero v2 then zeroOf issue else
  if mIsNative v1 && mIsNative v2 && isSFC (currency issue) then native_product v1 v2 else
  let '(value1, offset1) := bring_into_range (mIsNative v1) (mValue v1) (mOffset v1) in
  let '(value2, offset2) := bring_into_range (mIsNative v2) (mValue v2) (mOffset v2) in
  q ← muldiv value1 value2 tenTo14;
  make issue (u64 (q + 7)) (offset1 + offset2 + 14)
    (negb (Bool.eqb (mIsNegative v1) (mIsNegative v2))).

Definition canonicalizeRound (native : bool) (value offset : Z) : Z * Z :=
  if native then
    if offset <? 0 then
      let '(value, offset, loops) :=
        while (fun '(v, o, l) => Z.to_nat (-1 - o)) (fun '(v, o, l) => o <? -1)
              (fun '(v, o, l) => (v / 10, o + 1, l + 1)) (value, offset, 0) in
      (u64 (value + (if 2 <=? loops then 9 else 10)) / 10, offset + 1)
    else (value, offset)
  else if cMaxValue <? value then
    let '(value, offset) :=
      while (fun '(v, o) => Z.to_nat (Z.log2 v)) (fun '(v, o) => 10 * cMaxValue <? v)
            (fun '(v, o) => (v / 10, o + 1)) (value, offset) in
    (u64 (value + 9) / 10, offset + 1)
  else (value, offset).

(** The tail that [mulRound] and [divRound] share: round, build, and, past the
    switchover dates, replace a vanished positive result by the least amount. *)
Definition finishRound (so1 so2 : bool) (issue : Issue) (roundUp resultNegative : bool)
    (amount offset : Z) : res STAmount :=
  let '(amount, offset) :=
    if xorb resultNegative roundUp
    then canonicalizeRound (isSFC (currency issue)) amount offset else (amount, offset) in
  result ← make issue amount offset resultNegative;
  if roundUp && negb resultNegative && is_zero result && so1 then
    if isSFC (currency issue) && so2 then make issue 1 0 resultNegative
    else make issue cMinValue cMinOffset resultNegative
  else Ok result.

Section Rounding.
(** [*stAmountCalcSwitchover] and [*stAmountCalcSwitchover2]. *)
Variables (so1 so2 : bool).

Definition mulRound (v1 v2 : STAmount) (issue : Issue) (roundUp : bool) : res STAmount :=
  if is_zero v1 || is_zero v2 then zeroOf issue else
  if mIsNative v1 && mIsNative v2 && isSFC (currency issue) then native_product v1 v2 else
  let '(value1, offset1) := bring_into_range (mIsNative v1) (mValue v1) (mOffset v1) in
  let '(value2, offset2) := bring_into_range (mIsNative v2) (mValue v2) (mOffset v2) in
  let resultNegative := negb (Bool.eqb (mIsNegative v1) (mIsNegative v2)) in
  amount ← muldiv_round value1 value2 tenTo14
             (if xorb resultNegative roundUp then tenTo14m1 else 0);
  finishRound so1 so2 issue roundUp resultNegative amount (offset1 + offset2 + 14).

Definition divRound (num den : STAmount) (issue : Issue) (roundUp : bool) : res STAmount :=
  if is_zero den then Throw (runtime_error "division by zero") else
  if is_zero num then zeroOf issue else
  let '(numVal, numOffset) := bring_into_range (mIsNative num) (mValue num) (mOffset num) in
  let '(denVal, denOffset) := bring_into_range (mIsNative den) (mValue den) (mOffset den) in
  let resultNegative := negb (Bool.eqb (mIsNegative num) (mIsNegative den)) in
  amount ← muldiv_round numVal tenTo17 denVal
             (if xorb resultNegative roundUp then denVal - 1 else 0);
  finishRound so1 so2 issue roundUp resultNegative amount (numOffset - denOffset - 17).
End Rounding.

(** The 64-bit form of a rate: eight bits of exponent above the mantissa. *)
Definition rate_bits (r : STAmount) : Z :=
  Z.lor (u64 (Z.shiftl (mOffset r + 100) (64 - 8))) (mValue r).

(** Any exception means a very bad offer: rate 0. *)
Definition getRate (offerOut offerIn : STAmount) : Z :=
  if is_zero offerOut then 0 else
  match divide offerIn offerOut noIssue with
  | Ok r =>
      if is_zero r then 0 else rate_bits r
  | Throw _ => 0
  end.

Definition amountFromQuality (rate : Z) : res STAmount :=
  if rate =? 0 then zeroOf noIssue else
  let mantissa := Z.land rate (2 ^ 56 - 1) in
  let exponent := Z.shiftr rate (64 - 8) - 100 in
  make noIssue mantissa exponent false.

Definition uRateOne : Z := getRate (ofDrops 1 false) (ofDrops 1 false).

Example uRateOne_value : uRateOne = Z.lor (Z.shiftl 85 56) 1000000000000000.
Proof. vm_compute. reflexivity. Qed.

(** ** Well-formed amounts *)

Definition smant (a : STAmount) : Z := if mIsNegative a then - mValue a else mValue a.
Definition to_iou (a : STAmount) : IOUAmount := mkIOU (smant a) (mOffset a).

Definition wf_native (a : STAmount) : Prop := mOffset a = 0 /\ 0 <= mValue a <= cMaxNativeN.

Definition wf_issued (a : STAmount) : Prop :=
  (mValue a = 0 /\ mOffset a = -100) \/
  (cMinValue <= mValue a <= cMaxValue /\ cMinOffset <= mOffset a <= cMaxOffset).

Definition wf (a : STAmount) : Prop :=
  mIsNative a = isSFC (currency (mIssue a)) /\
  (if mIsNative a then wf_native a else wf_issued a) /\
  (mValue a = 0 -> mIsNegative a = false).

#[export] Instance wf_dec a : Decision (wf a).
Proof. unfold wf, wf_native, wf_issued. destruct (mIsNative a); apply _. Defined.

Ltac st_consts :=
  unfold cMinValue, cMaxValue, cMinOffset, cMaxOffset, cMaxNativeN, tenTo14, tenTo14m1, tenTo17 in *.

(** On issued currencies [canonicalize] is [IOUAmount::normalize] on the
    magnitude, with its own exception and a sign bit. *)
Lemma canonicalize_issued a : isSFC (currency (mIssue a)) = false -> 0 <= mValue a ->
  canonicalize a =
    match normalize (mkIOU (mValue a) (mOffset a)) with
    | Ok b => Ok (mkSTAmount (mIssue a) (mantissa_ b) (exponent_ b) false
                    (negb (mantissa_ b =? 0) && mIsNegative a))
    | Throw _ => Throw (runtime_error "value overflow")
    end.
Proof.
  intros Hs Hv. unfold canonicalize, normalize. rewrite Hs. cbn [mantissa_ exponent_].
  destruct (mValue a =? 0); [done|]. rewrite (proj2 (Z.ltb_ge (mValue a) 0)) by done.
  change cMinValue with minMantissa. change cMinOffset with minExponent.
  change cMaxValue with maxMantissa. change cMaxOffset with maxExponent.
  rewrite (shrink_exn _ _ (overflow_error "IOUAmount::normalize")).
  destruct (shrink _ _ _ _) as [[v o]|x]; cbn -[minExponent minMantissa maxExponent]; [|done].
  destruct ((o <? minExponent) || (v <? minMantissa)) eqn:C; [done|].
  destruct (maxExponent <? o); [done|]. apply orb_false_iff in C as [_ C%Z.ltb_ge].
  cbn. rewrite (proj2 (Z.eqb_neq v 0)) by (iou_consts; lia). done.
Qed.

Lemma native_scale_spec v o : 0 <= v < 2 ^ 64 -> 0 <= o ->
  native_scale v o = (u64 (v * 10 ^ o), 0).
Proof.
  intros Hv Ho. unfold native_scale.
  pose proof (while_spec (fun '(v, o) => Z.to_nat o) (fun '(v, o) => 0 <? o)
    (fun '(v', o') => 0 <= o' <= o /\ v' = u64 (v * 10 ^ (o - o')))
    (fun '(v, o) => (u64 (v * 10), o - 1)) (v, o)) as H.
  destruct (while _ _ _ (v, o)) as [v' o']. destruct H as [[H1 ->] H2].
  - intros [v1 o1] (H1 & ->) C%Z.ltb_lt. split; [|lia]. split; [lia|].
    replace (o - (o1 - 1)) with (o - o1 + 1) by lia. rewrite pow10_add, Z.pow_1_r by lia.
    unfold u64. rewrite Z.mul_mod_idemp_l by lia. f_equal. lia.
  - split; [lia|]. rewrite Z.sub_diag, Z.pow_0_r, Z.mul_1_r. by rewrite u64_small.
  - apply Z.ltb_ge in H2. by replace (o - o') with o by lia; replace o' with 0 by lia.
Qed.

(** On the native currency, [canonicalize] shifts to drops modulo 2^64. *)
Lemma canonicalize_native a : isSFC (currency (mIssue a)) = true -> 0 <= mValue a < 2 ^ 64 ->
  canonicalize a =
    let v := if mOffset a <? 0 then mValue a / 10 ^ (- mOffset a)
             else u64 (mValue a * 10 ^ mOffset a) in
    if mValue a =? 0 then Ok (mkSTAmount (mIssue a) 0 0 true false) else
    if cMaxNativeN <? v then Throw (runtime_error "Native currency amount out of range")
    else Ok (mkSTAmount (mIssue a) v 0 true (mIsNegative a)).
Proof.
  intros Hs Hv. unfold canonicalize. rewrite Hs. destruct (mValue a =? 0); [done|].
  rewrite align_spec. cbv beta iota zeta. destruct (Z.ltb_spec (mOffset a) 0).
  - rewrite Z.max_r, Z.sub_0_l by lia. pose proof (pow10_pos (- mOffset a) ltac:(lia)).
    rewrite Z.quot_div_nonneg by lia.
    assert (0 <= mValue a / 10 ^ (- mOffset a) < 2 ^ 64)
      by (split; [apply Z.div_pos; lia|apply Z.div_lt_upper_bound; nia]).
    rewrite native_scale_spec, Z.pow_0_r, Z.mul_1_r, u64_small by lia. done.
  - rewrite Z.max_l, Z.sub_diag, Z.pow_0_r, Z.quot_1_r, native_scale_spec by lia. done.
Qed.

Lemma normalize_nonneg m e b : 0 <= m -> normalize (mkIOU m e) = Ok b ->
  0 <= mantissa_ b /\ canonical b.
Proof.
  intros Hm E. pose proof (normalize_spec m e) as H. rewrite E in H.
  destruct H as (Hc & _ & Hs & _). split; [|done].
  destruct Hs as [->|Hs]; [done|]. lia.
Qed.

Lemma canonical_wf_issued i b neg : 0 <= mantissa_ b -> canonical b ->
  wf_issued (mkSTAmount i (mantissa_ b) (exponent_ b) false neg).
Proof.
  intros Hm [->|Hc]; [by left|right]. cbn. iou_consts. st_consts. lia.
Qed.

Lemma canonicalize_shape a w : 0 <= mValue a < 2 ^ 64 -> canonicalize a = Ok w ->
  mIssue w = mIssue a /\ mIsNative w = isSFC (currency (mIssue a)) /\
  (if mIsNative w then wf_native w else wf_issued w) /\
  (mIsNegative w = true -> mIsNegative a = true) /\
  (mIsNative w = false -> mValue w = 0 -> mIsNegative w = false).
Proof.
  intros Hv E. destruct (isSFC (currency (mIssue a))) eqn:Hs.
  - rewrite canonicalize_native in E by done. cbv zeta in E.
    set (v := if mOffset a <? 0 then _ else _) in E.
    assert (0 <= v).
    { subst v. destruct (Z.ltb_spec (mOffset a) 0); [|apply u64_range].
      apply Z.div_pos; [lia|apply pow10_pos; lia]. }
    destruct (mValue a =? 0); [by res_inv|].
    destruct (Z.ltb_spec cMaxNativeN v); [done|]. res_inv. cbn. by repeat split.
  - rewrite canonicalize_issued in E by (done || lia).
    destruct (normalize _) as [b|x] eqn:En; [|done]. res_inv. cbn.
    apply normalize_nonneg in En as [Hm Hc]; [|lia].
    split_and!; [done|done|by apply canonical_wf_issued| |].
    + by destruct (mantissa_ b =? 0), (mIsNegative a).
    + intros _ ->. done.
Qed.

(** [canonicalize] establishes the amount invariant. From any 64-bit mantissa
    it keeps the issue, marks the amount native exactly for the native currency,
    and leaves a value in range; the result is well formed (nothing but
    a nonnegative zero included) unless a negative native amount was shifted down
    to zero drops. On well-formed amounts it changes nothing. *)
Theorem canonicalize_wf a : 0 <= mValue a < 2 ^ 64 ->
  (forall w, canonicalize a = Ok w ->
    mIssue w = mIssue a /\
    (wf w \/ (mIsNative w = true /\ mValue w = 0 /\ mOffset w = 0 /\
              mIsNegative a = true /\ mOffset a <> 0))) /\
  (wf a -> canonicalize a = Ok a).
Proof.
  intros Hv. split.
  - intros w E. destruct (canonicalize_shape a w Hv E) as (Hi & Hn & Hr & Hneg & Hz).
    split; [done|]. destruct (mIsNative w) eqn:Nw.
    + destruct (mIsNegative w) eqn:Sw; [|left; unfold wf; rewrite Nw, Sw, Hi; by split_and!].
      destruct (decide (mValue w = 0)) as [Z0|Z0];
        [right|left; unfold wf; rewrite Nw, Sw, Hi; by split_and!].
      destruct Hr as [Ho _]. split_and!; auto. intros Ho0.
      rewrite canonicalize_native in E by done. rewrite Ho0 in E.
      change (0 <? 0) with false in E. rewrite Z.pow_0_r, Z.mul_1_r, u64_small in E by done.
      cbv zeta in E. destruct (mValue a =? 0) eqn:Ea; [by res_inv|]. apply Z.eqb_neq in Ea.
      destruct (cMaxNativeN <? mValue a); [done|]. by res_inv.
    + left. unfold wf. rewrite Nw, Hi. split_and!; auto.
  - intros (Hn & Hr & Hz). destruct a as [i v o n s]; cbn in *. subst n.
    destruct (isSFC (currency i)) eqn:Hs.
    + destruct Hr as [Ho Hr]. cbn in Ho, Hr. subst o.
      rewrite canonicalize_native by done. cbn -[u64 Z.pow].
      rewrite Z.pow_0_r, Z.mul_1_r, u64_small by done.
      destruct (Z.eqb_spec v 0) as [->|]; [by rewrite Hz|].
      by rewrite (proj2 (Z.ltb_ge _ v)) by lia.
    + rewrite canonicalize_issued by (done || (cbn; lia)). cbn [mValue mOffset mIssue mIsNegative].
      rewrite normalize_canonical_id.
      * cbn. destruct (Z.eqb_spec v 0) as [->|]; cbn; [|done]. by rewrite Hz.
      * destruct Hr as [[Hv0 Ho]|Hr]; cbn in *; [left; by subst|right].
        cbn. iou_consts. st_consts. lia.
Qed.

(** A lost overflow: scaling a native amount up multiplies modulo 2^64, so
    10^64 drops pass the range check as the amount zero. *)
Theorem native_scale_wraps :
  make sfcIssue 1 64 false = Ok (mkSTAmount sfcIssue 0 0 true false).
Proof. vm_compute. reflexivity. Qed.

(** A negative zero: a negative native amount of less than one drop becomes
    zero with the sign bit still set, which is not well formed and which the
    deserializer rejects. *)
Theorem negative_zero_reachable :
  exists w, make sfcIssue 5 (-1) true = Ok w /\ mValue w = 0 /\ mIsNegative w = true /\ ~ wf w.
Proof.
  exists (mkSTAmount sfcIssue 0 0 true true). split; [by vm_compute|]. split; [done|].
  split; [done|]. intros (_ & _ & H). by discriminate (H eq_refl).
Qed.

(** ** Order and addition *)

Lemma wf_value_range a : wf a -> 0 <= mValue a < 2 ^ 63.
Proof.
  intros (_ & H & _). unfold wf_native, wf_issued in H.
  destruct (mIsNative a); st_consts; lia.
Qed.

Lemma wf_canonical a : wf a -> mIsNative a = false -> canonical (to_iou a).
Proof.
  intros (_ & Hr & Hz) Hn. rewrite Hn in Hr. unfold to_iou, smant.
  destruct Hr as [[Hv Ho]|Hr].
  - left. rewrite (Hz Hv), Hv, Ho. done.
  - right. cbn. destruct (mIsNegative a); iou_consts; st_consts; lia.
Qed.

Lemma iou_wf a : wf a -> mIsNative a = false -> iou a = Ok (to_iou a).
Proof.
  intros Hw Hn. pose proof (wf_value_range a Hw). unfold iou. rewrite Hn, i64_small by lia.
  apply normalize_canonical_id. by apply wf_canonical.
Qed.

Lemma smant_neg a : wf a -> (smant a <? 0) = mIsNegative a.
Proof.
  intros Hw. pose proof (wf_value_range _ Hw). destruct Hw as (_ & _ & Hz). unfold smant.
  destruct (mIsNegative a) eqn:N; [|by apply Z.ltb_ge; lia]. apply Z.ltb_lt.
  destruct (decide (mValue a = 0)) as [H0|]; [by discriminate (Hz H0)|lia].
Qed.

Lemma smant_zero a : (smant a =? 0) = (mValue a =? 0).
Proof. unfold smant. destruct (mIsNegative a); lia. Qed.

Lemma op_lt_iou v1 v2 : wf v1 -> wf v2 -> areComparable v1 v2 = true ->
  op_lt v1 v2 = Ok (IOUAmount.op_lt (to_iou v1) (to_iou v2)).
Proof.
  intros H1 H2 Hc. unfold op_lt, IOUAmount.op_lt. rewrite Hc. cbn [negb to_iou mantissa_ exponent_].
  rewrite !smant_neg, !smant_zero by done.
  pose proof (smant_neg v1 H1) as S1. pose proof (smant_neg v2 H2) as S2.
  unfold smant in *.
  destruct (mIsNegative v1), (mIsNegative v2); cbn [Bool.eqb negb]; try done;
    repeat case_match; try done; f_equal; lia.
Qed.

(** [operator<] on well-formed amounts of one currency decides the order of
    the represented values; on amounts of different currencies it throws. *)
Theorem st_op_lt_correct v1 v2 : wf v1 -> wf v2 ->
  match op_lt v1 v2 with
  | Ok b => areComparable v1 v2 = true /\
            (b = true <-> dlt (smant v1) (mOffset v1) (smant v2) (mOffset v2))
  | Throw _ => areComparable v1 v2 = false
  end.
Proof.
  intros H1 H2. destruct (areComparable v1 v2) eqn:Hc.
  2: { unfold op_lt. by rewrite Hc. }
  rewrite op_lt_iou by done. split; [done|].
  destruct (mIsNative v1) eqn:N1.
  - assert (N2 : mIsNative v2 = true).
    { apply andb_prop in Hc as [Hc _]. apply Bool.eqb_prop in Hc. congruence. }
    destruct H1 as (_ & R1 & Z1), H2 as (_ & R2 & Z2).
    rewrite N1 in R1. rewrite N2 in R2. destruct R1 as [O1 R1], R2 as [O2 R2].
    rewrite O1, O2, dlt_same. unfold IOUAmount.op_lt, to_iou. cbn. rewrite O1, O2.
    repeat case_match; rewrite ?Z.ltb_lt, ?Z.ltb_ge in *; lia.
  - assert (N2 : mIsNative v2 = false).
    { apply andb_prop in Hc as [Hc _]. apply Bool.eqb_prop in Hc. congruence. }
    by apply op_lt_dlt; apply wf_canonical.
Qed.

(** Two ways of computing an amount agree: same value, same issue, and they throw
    together. *)
Definition agree (i : Issue) (r : res STAmount) (r' : res IOUAmount) : Prop :=
  match r, r' with
  | Ok w, Ok b => to_iou w = b /\ mIssue w = i /\ wf w
  | Throw _, Throw _ => True
  | _, _ => False
  end.

Lemma make_agree i m e neg : isSFC (currency i) = false -> 0 <= m ->
  agree i (make i m e neg) (normalize (mkIOU (if neg then - m else m) e)).
Proof.
  intros Hs Hm. unfold make. rewrite canonicalize_issued by done.
  cbn [mValue mOffset mIssue mIsNegative].
  assert (Hn : normalize (mkIOU (if neg then - m else m) e)
    = (if neg then opp else fun b => b) <$> normalize (mkIOU m e)).
  { destruct neg; [|by destruct (normalize _)].
    destruct (decide (m = 0)) as [->|]; [done|].
    rewrite <- normalize_opp. unfold opp. cbn. by rewrite (proj2 (Z.eqb_neq m 0)). }
  rewrite Hn. destruct (normalize (mkIOU m e)) as [b|x] eqn:E; cbn; [|done].
  apply normalize_nonneg in E as [Hb Hc]; [|done]. destruct b as [bm be]; cbn in *.
  unfold to_iou, smant, opp; cbn. split_and!.
  - destruct (Z.eqb_spec bm 0) as [->|]; cbn; [by destruct neg|].
    destruct neg; cbn; [|done]. by rewrite (proj2 (Z.eqb_neq bm 0)).
  - done.
  - split; [done|]. split; [|cbn; by intros ->]. cbn. by apply (canonical_wf_issued i (mkIOU bm be)).
Qed.

Lemma is_zero_true a : is_zero a = true <-> mValue a = 0.
Proof. unfold is_zero, signum. destruct (Z.eqb_spec (mValue a) 0), (mIsNegative a); cbn; lia. Qed.

Lemma is_zero_iou a : wf a -> mIsNative a = false ->
  is_zero a = IOUAmount.op_eq (to_iou a) zero.
Proof.
  intros (_ & Hr & Hz) Hn. rewrite Hn in Hr. apply eq_true_iff_eq.
  rewrite is_zero_true, op_eq_true. unfold to_iou, smant, zero. split.
  - intros H0. destruct Hr as [[_ ->]|Hr]; [|st_consts; lia]. by rewrite (Hz H0), H0.
  - intros [= H0 _]. destruct (mIsNegative a); lia.
Qed.

Lemma comparable_native v1 v2 : areComparable v1 v2 = true ->
  mIsNative v2 = mIsNative v1 /\ currency (mIssue v2) = currency (mIssue v1).
Proof.
  intros [H1 H2]%andb_prop. apply Bool.eqb_prop in H1. apply Z.eqb_eq in H2. done.
Qed.

Lemma smant_i64 a : wf a ->
  (if mIsNegative a then - i64 (mValue a) else i64 (mValue a)) = smant a.
Proof. intros Hw. pose proof (wf_value_range a Hw). by rewrite i64_small by lia. Qed.

(** C23. Addition of issued amounts refines [IOUAmount] addition: on well-formed
    amounts of one issued currency [operator+] returns a well-formed amount of the
    left operand's issue whose value is the [IOUAmount] sum of the operands'
    values, and the two throw together. *)
Theorem op_add_refines v1 v2 : wf v1 -> wf v2 ->
  areComparable v1 v2 = true -> mIsNative v1 = false ->
  agree (mIssue v1) (op_add v1 v2) (IOUAmount.op_add (to_iou v1) (to_iou v2)).
Proof.
  intros H1 H2 Hc Hn. destruct (comparable_native _ _ Hc) as [Hn2 Hcur].
  rewrite Hn in Hn2. assert (Hs : isSFC (currency (mIssue v1)) = false)
    by (destruct H1 as (H1 & _); congruence).
  rewrite op_add_unfold. unfold op_add. rewrite Hc. cbn [negb].
  rewrite <- !is_zero_iou, !smant_i64 by done.
  destruct (is_zero v2) eqn:Z2; [by repeat split; apply H1|].
  destruct (is_zero v1) eqn:Z1.
  { pose proof (wf_value_range _ H2). 
    pose proof (make_agree (mIssue v1) (mValue v2) (mOffset v2) (mIsNegative v2) Hs ltac:(lia)) as Ha.
    fold (smant v2) in Ha. fold (to_iou v2) in Ha.
    by rewrite normalize_canonical_id in Ha by (by apply wf_canonical). }
  rewrite Hn. rewrite align_spec. cbv beta iota zeta. rewrite align_spec. cbv beta iota zeta.
  unfold aligned_sum. cbn [to_iou mantissa_ exponent_].
  set (E := Z.max (mOffset v1) (mOffset v2)).
  replace (Z.max (mOffset v2) E) with E by lia. set (fv := _ + _).
  destruct ((-10 <=? fv) && (fv <=? 10)) eqn:C.
  { pose proof (make_agree (mIssue v1) 0 0 false Hs ltac:(lia)) as Ha. exact Ha. }
  destruct (Z.leb_spec 0 fv) as [Hf|Hf].
  - exact (make_agree (mIssue v1) fv E false Hs Hf).
  - pose proof (make_agree (mIssue v1) (- fv) E true Hs ltac:(lia)) as Ha.
    cbv beta iota in Ha. by rewrite Z.opp_involutive in Ha.
Qed.

(** Addition of native amounts is exact integer addition of drops. *)
Lemma op_add_native v1 v2 : wf v1 -> wf v2 -> mIsNative v1 = true -> mIsNative v2 = true ->
  exists w, op_add v1 v2 = Ok w /\ smant w = smant v1 + smant v2 /\ isSFC (currency (mIssue w)) = true /\ 0 <= mValue w /\
    mIsNative w = true /\ mOffset w = 0 /\ (mValue w = 0 -> mIsNegative w = false).
Proof.
  intros H1 H2 N1 N2. pose proof (smant_i64 v1 H1) as S1. pose proof (smant_i64 v2 H2) as S2.
  pose proof H1 as (I1 & R1 & Z1). pose proof H2 as (I2 & R2 & Z2). rewrite N1 in I1, R1. rewrite N2 in I2, R2. destruct R1 as [O1 R1], R2 as [O2 R2].
  assert (Hc : areComparable v1 v2 = true) by (unfold areComparable; rewrite N1, N2; unfold isSFC in *; cbn; lia).
  unfold op_add. rewrite Hc. cbn [negb]. destruct (is_zero v2) eqn:E2.
  { exists v1. apply is_zero_true in E2. split_and!; try done; [|lia].
    unfold smant at 3. rewrite E2. destruct (mIsNegative v2); lia. }
  destruct (is_zero v1) eqn:E1.
  { apply is_zero_true in E1. exists (mkSTAmount (mIssue v1) (mValue v2) 0 true (mIsNegative v2)).
    split_and!; try done; [|unfold smant; cbn; rewrite E1; destruct (mIsNegative v1); lia|cbn; lia].
    unfold make. rewrite canonicalize_native; cbn [mIssue mValue mOffset mIsNegative]; [|done|st_consts; lia].
    rewrite O2. cbn -[u64 Z.pow]. rewrite Z.pow_0_r, Z.mul_1_r, u64_small by (st_consts; lia).
    assert (mValue v2 <> 0) by (rewrite <- is_zero_true; congruence).
    rewrite (proj2 (Z.eqb_neq _ 0)), (proj2 (Z.ltb_ge _ _)) by lia. done. }
  rewrite N1. unfold getSNValue. rewrite N1, N2. cbn [negb mbind res_bind].
  rewrite S1, S2. exists (ofSigned (smant v1 + smant v2)). unfold ofSigned, set, smant at 1.
  split; [done|]. destruct (Z.ltb_spec (smant v1 + smant v2) 0); cbn; split_and!; try done; lia.
Qed.

(** ** Rounding *)

Lemma bring_into_range_spec native v o : 0 < v <= cMaxNativeN -> (native = false -> cMinValue <= v) ->
  exists k, 0 <= k /\ bring_into_range native v o = (v * 10 ^ k, o - k) /\
    cMinValue <= v * 10 ^ k <= Z.max v (10 * cMinValue).
Proof.
  intros Hv Hn. destruct native.
  2: { exists 0. cbn. rewrite Z.pow_0_r, Z.mul_1_r, Z.sub_0_r. specialize (Hn eq_refl).
       split_and!; [lia|done|lia|lia]. }
  unfold bring_into_range. set (meas := fun '((v, o) : Z * Z) => Z.to_nat (Z.log2 cMinValue + 1 - Z.log2 v)).
  pose proof (while_spec meas (fun '(v, o) => v <? cMinValue)
    (fun '(v', o') => exists k, 0 <= k /\ v' = v * 10 ^ k /\ o' = o - k /\ 0 < v' <= Z.max v (10 * cMinValue))
    (fun '(v, o) => (u64 (v * 10), o - 1)) (v, o)) as H.
  destruct (while _ _ _ (v, o)) as [v' o']. destruct H as [(k & Hk & -> & -> & Hr) HC].
  - intros [v1 o1] (k & Hk & -> & -> & Hr) C%Z.ltb_lt.
    rewrite u64_small by (st_consts; lia). split.
    + exists (k + 1). rewrite pow10_add, Z.pow_1_r by lia. st_consts. lia.
    + unfold meas. pose proof (log2_mul10 (v * 10 ^ k) ltac:(lia)).
      pose proof (Z.log2_le_mono (v * 10 ^ k) cMinValue ltac:(lia)). lia.
  - exists 0. rewrite Z.pow_0_r. lia.
  - exists k. apply Z.ltb_ge in HC. split_and!; [lia|done|lia|lia].
Qed.

Lemma wf_nonzero a : wf a -> is_zero a = false ->
  0 < mValue a <= cMaxNativeN /\ (mIsNative a = false -> cMinValue <= mValue a).
Proof.
  intros Hw Hz. pose proof (wf_value_range a Hw) as [Hv _].
  assert (mValue a <> 0) by (rewrite <- is_zero_true; congruence).
  destruct Hw as (_ & Hr & _). destruct (mIsNative a).
  - destruct Hr as [_ Hr]. split; [lia|done].
  - destruct Hr as [[? _]|[? _]]; st_consts; lia.
Qed.

(** A truncated result [w] of the exact value [mul / den * 10^e]. *)
Definition rounds_down (w : STAmount) (mul den e : Z) : Prop :=
  dle (mValue w * den) (mOffset w) mul e /\
  ((mValue w = 0 /\ dlt mul e (cMinValue * den) cMinOffset) \/
   dlt mul e ((mValue w + 1) * den) (mOffset w)).

(** Building an issued amount from the bracketed quotient truncates it. *)
Lemma make_brackets i mul den e low e' h neg w :
  isSFC (currency i) = false -> 0 < den -> 0 <= low ->
  brackets mul den e low e' h -> (h = true -> 10 ^ 15 <= low) ->
  make i low e' neg = Ok w -> rounds_down w mul den e /\ wf w /\ mIssue w = i.
Proof.
  intros Hs Hd Hl Hb Hbig E. pose proof (make_agree i low e' neg Hs Hl) as Ha. rewrite E in Ha.
  unfold make in E. rewrite canonicalize_issued in E by done. cbn [mValue mOffset mIssue mIsNegative] in E.
  destruct (normalize (mkIOU low e')) as [b|] eqn:En; [|done]. injection E as <-.
  apply make_nonneg in En; [|done].
  destruct (truncates_brackets _ _ _ _ _ _ _ Hd Hb Hbig Hl En) as [H1 H2].
  split.
  - split; [exact H1|]. cbn. destruct H2 as [[-> H2]|[_ H2]]; [left|right]; done.
  - destruct (normalize _) as [b'|]; [|done]. destruct Ha as (_ & Hi & Hw). done.
Qed.

Lemma finishRound_trunc so1 so2 i up neg amount offset :
  xorb neg up = false ->
  finishRound so1 so2 i up neg amount offset = make i amount offset neg.
Proof.
  intros Hx. unfold finishRound. rewrite Hx. destruct (make i amount offset neg); cbn; [|done].
  by destruct up, neg.
Qed.

Lemma brackets_zero den e e' : 0 < den -> brackets 0 den e 0 e' false.
Proof.
  intros Hd. unfold brackets. rewrite Z.mul_0_l. split_and!.
  - unfold dle. lia.
  - apply dlt_0_pos. lia.
  - split; [intros _; unfold deq; lia|done].
Qed.

(** Shifting numerator and denominator by powers of ten does not change what
    brackets their ratio. *)
Lemma brackets_shift m1 m2 k1 k2 e low e' h : 0 <= k1 -> 0 <= k2 ->
  brackets (m1 * 10 ^ k1) (m2 * 10 ^ k2) (e - k1 + k2) low e' h -> brackets m1 m2 e low e' h.
Proof.
  intros H1 H2. unfold brackets. set (K := Z.abs e + Z.abs e' + k1 + k2).
  rewrite !(dle_scaled K), !(dlt_scaled K), !(deq_scaled K) by lia.
  replace (e - k1 + k2 + K) with (k2 + (e - k1 + K)) by lia.
  replace (e + K) with (k1 + (e - k1 + K)) by lia.
  rewrite (pow10_add k2), (pow10_add k1) by lia.
  pose proof (pow10_pos k2 H2) as HP. set (P := 10 ^ k2) in *.
  replace (m1 * 10 ^ k1 * (P * 10 ^ (e - k1 + K)))
    with (m1 * (10 ^ k1 * 10 ^ (e - k1 + K)) * P) by lia.
  set (X := m1 * (10 ^ k1 * 10 ^ (e - k1 + K))). set (T := 10 ^ (e' + K)).
  replace (low * (m2 * P) * T) with (low * m2 * T * P) by lia.
  replace ((low + 1) * (m2 * P) * T) with ((low + 1) * m2 * T * P) by lia.
  intros (Ha & Hb & Hc). split_and!; [nia|nia|]. rewrite Hc. nia.
Qed.


(** [divRound], when the rounding direction is toward zero, truncates the
    exact quotient, with the same guarantees as [mulRound]; dividing by zero
    throws. *)
Theorem divRound_toward_zero so1 so2 num den i up : wf num -> wf den ->
  isSFC (currency i) = false ->
  xorb (negb (Bool.eqb (mIsNegative num) (mIsNegative den))) up = false ->
  match divRound so1 so2 num den i up with
  | Ok w => rounds_down w (mValue num) (mValue den) (mOffset num - mOffset den) /\
            wf w /\ mIssue w = i
  | Throw x => mValue den = 0 -> x = runtime_error "division by zero"
  end.
Proof.
  intros H1 H2 Hs Hx. unfold divRound. destruct (is_zero den) eqn:Z2; [done|].
  destruct (wf_nonzero _ H2 Z2) as [R2 N2]. destruct (is_zero num) eqn:Z1.
  { apply is_zero_true in Z1. rewrite Z1. destruct (zeroOf i) as [w|] eqn:E.
    - eapply (make_brackets i _ (mValue den) _ 0 0 false); [done|lia|lia| |done|exact E].
      apply brackets_zero. lia.
    - intros H. lia. }
  destruct (wf_nonzero _ H1 Z1) as [R1 N1].
  destruct (bring_into_range_spec _ _ (mOffset num) R1 N1) as (k1 & K1 & -> & B1).
  destruct (bring_into_range_spec _ _ (mOffset den) R2 N2) as (k2 & K2 & -> & B2).
  rewrite Hx. unfold muldiv_round. rewrite Z.add_0_r.
  remember (mValue num * 10 ^ k1) as n eqn:Dn. remember (mValue den * 10 ^ k2) as d eqn:Dd.
  destruct (_ <? n * tenTo17 / d); [cbn; intros; lia|]. cbn -[finishRound].
  rewrite finishRound_trunc by done.
  assert (HT : tenTo17 = 10 ^ 17) by reflexivity. rewrite HT in *.
  assert (Hn : cMinValue <= n) by lia. assert (Hd : cMinValue <= d <= 10 ^ 17) by (st_consts; lia).
  assert (0 < cMinValue) by (st_consts; lia). clear B1 B2.
  pose proof (Z.div_mod (n * 10 ^ 17) d ltac:(lia)) as Hdm.
  pose proof (Z.mod_pos_bound (n * 10 ^ 17) d ltac:(lia)) as Hr.
  assert (Hq : 10 ^ 15 <= n * 10 ^ 17 / d)
    by (apply Z.div_le_lower_bound; [lia|]; st_consts; lia).
  set (q := n * 10 ^ 17 / d) in *. set (r := n * 10 ^ 17 mod d) in *.
  destruct (make i q _ _) as [w|x] eqn:E; [|intros; lia].
  eapply (make_brackets i _ _ _ q _ (negb (r =? 0))); [exact Hs|lia|lia| |intros _; exact Hq|exact E].
  apply (brackets_shift _ _ k1 k2); [lia|lia|].
  replace (mOffset num - k1 - (mOffset den - k2) - 17)
    with (mOffset num - mOffset den - k1 + k2 - 17 + 0) by lia. rewrite <- Dn, <- Dd.
  apply (brackets_intro n d _ 17 0 q r); [lia|lia|lia|lia|lia| |].
  - by rewrite Z.pow_0_r, Z.div_1_r.
  - rewrite negb_false_iff, Z.eqb_eq, Z.pow_0_r. lia.
Qed.

(** A lost rounding: [mulRound] rounding up drops a digit before it adds the
    rounding increment when the scaled product has eighteen digits, so the result
    can be strictly below the exact product of two positive amounts. *)
Theorem mulRound_up_loses :
  let i := mkIssue 7 7 in
  let v1 := mkSTAmount i 1568416432208836 (-15) false false in
  let v2 := mkSTAmount i 6375857708859105 (-15) false false in
  exists w, mulRound true true v1 v2 i true = Ok w /\ wf v1 /\ wf v2 /\
    dlt (mValue w) (mOffset w) (mValue v1 * mValue v2) (mOffset v1 + mOffset v2).
Proof.
  exists (mkSTAmount (mkIssue 7 7) 1000000000000000 (-14) false false).
  split; [by vm_compute|]. split; [|split; [|by vm_compute]];
    (split; [done|]; split; [right; cbn; st_consts; lia|done]).
Qed.

(** A lost overflow: the native branch of [multiply] checks its operands but
    not their product, and returns more drops than [cMaxNative]. *)
Theorem multiply_native_overflow :
  let a := ofDrops 3000000000 false in
  let b := ofDrops 4294967295 false in
  wf a /\ wf b /\
  exists w, multiply a b sfcIssue = Ok w /\ cMaxNative < mValue w.
Proof.
  cbv zeta. split; [|split]; [split; [done|split; [split; [done|cbn; st_consts; lia]|done]]..|].
  exists (ofUnsigned 12884901885000000000). split; [by vm_compute|]. vm_compute. reflexivity.
Qed.

(** ** Offer rates *)

(** Positive issued amounts: what [divide] returns for two positive amounts. *)
Definition rate_amount (r : STAmount) : Prop :=
  mIsNegative r = false /\ mIssue r = noIssue /\ mIsNative r = false /\
  cMinValue <= mValue r <= cMaxValue /\ cMinOffset <= mOffset r <= cMaxOffset.

Lemma rate_bits_sum r : rate_amount r -> rate_bits r = (mOffset r + 100) * 2 ^ 56 + mValue r.
Proof.
  intros (_ & _ & _ & Hv & Ho). unfold rate_bits. rewrite Z.shiftl_mul_pow2 by lia.
  rewrite u64_small by (st_consts; lia). change (64 - 8) with 56.
  apply lor_shift_low; st_consts; lia.
Qed.

Lemma rate_amount_wf r : rate_amount r -> wf r.
Proof.
  intros (Hs & Hi & Hn & Hv & Ho). split; [by rewrite Hn, Hi|].
  rewrite Hn. split; [by right|done].
Qed.

Lemma rate_roundtrip r : rate_amount r -> amountFromQuality (rate_bits r) = Ok r.
Proof.
  intros Hr. rewrite rate_bits_sum by done. destruct Hr as (Hs & Hi & Hn & Hv & Ho).
  unfold amountFromQuality. change (64 - 8) with 56.
  rewrite shiftr_high, land_low, (proj2 (Z.eqb_neq _ 0)) by (st_consts; lia).
  unfold make. rewrite canonicalize_issued by (done || (cbn; st_consts; lia)).
  cbn [mValue mOffset mIssue mIsNegative].
  replace (mOffset r + 100 - 100) with (mOffset r) by lia.
  rewrite normalize_canonical_id by (right; cbn; iou_consts; st_consts; lia). cbn.
  rewrite andb_false_r. destruct r; cbn in *. by subst.
Qed.

Lemma rate_bits_order r1 r2 : rate_amount r1 -> rate_amount r2 ->
  rate_bits r1 < rate_bits r2 <-> dlt (mValue r1) (mOffset r1) (mValue r2) (mOffset r2).
Proof.
  intros H1 H2. rewrite !rate_bits_sum by done.
  destruct H1 as (_ & _ & _ & V1 & O1), H2 as (_ & _ & _ & V2 & O2).
  rewrite lt_positive by (iou_consts; st_consts; lia). st_consts. lia.
Qed.

Lemma getRate_spec o i : wf o -> wf i -> mIsNegative o = false -> mIsNegative i = false ->
  (getRate o i = 0 /\ forall r, divide i o noIssue = Ok r -> mValue r = 0) \/
  (exists r, divide i o noIssue = Ok r /\ rate_amount r /\ getRate o i = rate_bits r).
Proof.
  intros Ho Hi No Ni. unfold getRate. destruct (is_zero o) eqn:Zo.
  { left. split; [done|]. intros r. unfold divide. by rewrite Zo. }
  destruct (divide i o noIssue) as [r|x] eqn:E; [|by left].
  destruct (is_zero r) eqn:Zr; [left; split; [done|]; intros r' [= <-]; by apply is_zero_true|].
  right. exists r. split; [done|]. split; [|done].
  assert (Hr : wf r /\ mIssue r = noIssue /\ mIsNegative r = false).
  { unfold divide in E. rewrite Zo in E. destruct (is_zero i) eqn:Zi.
    - by injection E as <-.
    - destruct (bring_into_range _ _ _) as [nv no]. destruct (bring_into_range _ _ _) as [dv do_].
      destruct (muldiv nv tenTo17 dv) as [q|]; [|done]. cbn [mbind res_bind] in E.
      rewrite No, Ni in E. cbn [Bool.eqb negb] in E.
      pose proof (make_agree noIssue (u64 (q + 5)) (no - do_ - 17) false eq_refl
        ltac:(apply u64_range)) as Ha.
      rewrite E in Ha. destruct (normalize _) as [b|]; [|done]. destruct Ha as (_ & Hi' & Hw).
      split_and!; [done|done|]. unfold make in E.
      apply canonicalize_shape in E as (_ & _ & _ & Hneg & _); [|cbn; apply u64_range].
      destruct (mIsNegative r); [|done]. discriminate (Hneg eq_refl). }
  destruct Hr as (Hw & His & Hneg).
  assert (Hn : mIsNative r = false) by (destruct Hw as (Hw & _); by rewrite Hw, His).
  split_and!; [done|done|done|..].
  all: destruct Hw as (_ & Hr & _); rewrite Hn in Hr; destruct Hr as [[Hz _]|[H1 H2]]; [|lia].
  all: apply is_zero_true in Hz; congruence.
Qed.

(** Offer rates sort by price. For nonnegative amounts, a nonzero rate encodes
    the quotient in/out exactly ([amountFromQuality] recovers what [divide]
    computed), and comparing two nonzero rates as 64-bit integers compares the
    quotients as numbers. A zero rate is returned only when the quotient is zero
    or cannot be computed. *)
Theorem getRate_orders o1 i1 o2 i2 :
  wf o1 -> wf i1 -> mIsNegative o1 = false -> mIsNegative i1 = false ->
  wf o2 -> wf i2 -> mIsNegative o2 = false -> mIsNegative i2 = false ->
  (getRate o1 i1 = 0 -> forall r, divide i1 o1 noIssue = Ok r -> mValue r = 0) /\
  (getRate o1 i1 <> 0 -> amountFromQuality (getRate o1 i1) = divide i1 o1 noIssue) /\
  (getRate o1 i1 <> 0 -> getRate o2 i2 <> 0 ->
   exists r1 r2, divide i1 o1 noIssue = Ok r1 /\ divide i2 o2 noIssue = Ok r2 /\
     (getRate o1 i1 < getRate o2 i2 <->
      dlt (mValue r1) (mOffset r1) (mValue r2) (mOffset r2))).
Proof.
  intros Wo1 Wi1 No1 Ni1 Wo2 Wi2 No2 Ni2.
  destruct (getRate_spec o1 i1) as [[Z1 R1]|(r1 & D1 & A1 & G1)]; [done..| |].
  { by rewrite Z1. }
  assert (rate_bits r1 <> 0).
  { rewrite rate_bits_sum by done. destruct A1 as (_ & _ & _ & ? & ?). st_consts. lia. }
  rewrite G1, D1. split_and!; [done|intros _; by apply rate_roundtrip|].
  intros _ Hnz. destruct (getRate_spec o2 i2) as [[Z2 _]|(r2 & D2 & A2 & G2)]; [done..|].
  exists r1, r2. rewrite G2. split_and!; [done|done|]. by apply rate_bits_order.
Qed.

(** ** Witnesses *)

Definition usd : Issue := mkIssue 7 9.
Definition usd_one : STAmount := mkSTAmount usd 1000000000000000 (-15) false false.
Definition usd_three : STAmount := mkSTAmount usd 3000000000000000 (-15) false false.

Lemma usd_one_wf : wf usd_one.
Proof. split; [reflexivity|split; [right; split; split; vm_compute; discriminate|reflexivity]]. Defined.

Lemma usd_three_wf : wf usd_three.
Proof. split; [reflexivity|split; [right; split; split; vm_compute; discriminate|reflexivity]]. Defined.

Lemma drops_wf : wf (ofDrops 5000000 false).
Proof. split; [reflexivity|split; [split; [reflexivity|split; vm_compute; discriminate]|reflexivity]]. Defined.

Lemma canonicalize_wf_witness : canonicalize usd_one = Ok usd_one.
Proof.
  apply (canonicalize_wf usd_one); [split; vm_compute; [discriminate|reflexivity]|].
  exact usd_one_wf.
Defined.

Lemma st_op_lt_correct_witness :
  true = true <-> dlt (smant usd_one) (mOffset usd_one) (smant usd_three) (mOffset usd_three).
Proof. exact (proj2 (st_op_lt_correct usd_one usd_three usd_one_wf usd_three_wf)). Defined.

Lemma op_add_refines_witness :
  agree usd (op_add usd_one usd_three) (IOUAmount.op_add (to_iou usd_one) (to_iou usd_three)).
Proof.
  exact (op_add_refines usd_one usd_three usd_one_wf usd_three_wf eq_refl eq_refl).
Defined.


Lemma divRound_toward_zero_witness :
  match divRound true true usd_one usd_three usd false with
  | Ok w => rounds_down w 1000000000000000 3000000000000000 0 /\ wf w /\ mIssue w = usd
  | Throw x => 3000000000000000 = 0 -> x = runtime_error "division by zero"
  end.
Proof.
  exact (divRound_toward_zero true true usd_one usd_three usd false
    usd_one_wf usd_three_wf eq_refl eq_refl).
Defined.

Lemma getRate_orders_witness :
  amountFromQuality (getRate usd_one usd_three) = divide usd_three usd_one noIssue.
Proof.
  apply (getRate_orders usd_one usd_three (ofDrops 5000000 false) usd_one
    usd_one_wf usd_three_wf eq_refl eq_refl drops_wf usd_one_wf eq_refl eq_refl).
  vm_compute. discriminate.
Defined.
