(* ===== verification/Serializer.v ===== *)
(** * Serialization of integers, blobs and field identifiers

    Models protocol/Serializer.h and protocol/impl/Serializer.cpp: [Serializer],
    which appends to a byte vector, and [SerialIter], which reads one from the
    front. The member functions of [Serializer] that append return the old size;
    no caller in the modelled code uses it and it is left out. *)

From S2P Require Import Prelude.

(** ** Big-endian integers *)

(** The [n] low bytes of [z], most significant first. *)
Fixpoint big_endian (n : nat) (z : Z) : list Z :=
  match n with O => [] | S n => Z.land (Z.shiftr z (8 * Z.of_nat n)) 255 :: big_endian n z end.

(** The number a byte string spells, most significant byte first. *)
Definition from_bytes (bs : list Z) : Z := foldl (fun acc b => Z.shiftl acc 8 + b) 0 bs.

Definition is_byte (b : Z) : Prop := 0 <= b < 256.

(** ** Serializer *)

Definition add8 (byte : Z) (s : list Z) : list Z := s ++ [u8 byte].
Definition add16 (i : Z) (s : list Z) : list Z := s ++ [u8 (Z.shiftr i 8); Z.land i 255].

Definition add32 (i : Z) (s : list Z) : list Z :=
  s ++ [u8 (Z.shiftr i 24); Z.land (Z.shiftr i 16) 255; Z.land (Z.shiftr i 8) 255; Z.land i 255].

Definition add64 (i : Z) (s : list Z) : list Z :=
  s ++ [u8 (Z.shiftr i 56); Z.land (Z.shiftr i 48) 255; Z.land (Z.shiftr i 40) 255; Z.land (Z.shiftr i 32) 255;
        Z.land (Z.shiftr i 24) 255; Z.land (Z.shiftr i 16) 255; Z.land (Z.shiftr i 8) 255; Z.land i 255].

(** [addBitString<Bits>]; a [base_uint] is stored big-endian. *)
Definition addBitString (bits : nat) (v : Z) (s : list Z) : list Z := s ++ big_endian (bits / 8) v.
Definition add128 : Z -> list Z -> list Z := addBitString 128.
Definition add160 : Z -> list Z -> list Z := addBitString 160.
Definition add256 : Z -> list Z -> list Z := addBitString 256.

Definition addRaw (v s : list Z) : list Z := s ++ v.
Definition addZeros (uBytes : nat) (s : list Z) : list Z := s ++ replicate uBytes 0.

(** The assertion [0 < type < 256 /\ 0 < name < 256] is a precondition. *)
Definition addFieldID (type name : Z) (s : list Z) : list Z :=
  if type <? 16 then
    if name <? 16 then s ++ [u8 (Z.lor (Z.shiftl type 4) name)]
    else s ++ [u8 (Z.shiftl type 4); u8 name]
  else if name <? 16 then s ++ [u8 name; u8 type]
  else s ++ [0; u8 type; u8 name].

Definition addEncoded (length : Z) (s : list Z) : res (list Z) :=
  if length <=? 192 then Ok (s ++ [u8 length])
  else if length <=? 12480 then
    let length := length - 193 in
    Ok (s ++ [u8 (193 + u8 (Z.shiftr length 8)); u8 (Z.land length 255)])
  else if length <=? 918744 then
    let length := length - 12481 in
    Ok (s ++ [u8 (241 + u8 (Z.shiftr length 16)); u8 (Z.land (Z.shiftr length 8) 255); u8 (Z.land length 255)])
  else Throw (overflow_error "lenlen").

Definition addVL (v s : list Z) : res (list Z) := s ← addEncoded (Z.of_nat (length v)) s; Ok (addRaw v s).

Definition encodeLengthLength (length : Z) : res Z :=
  if length <? 0 then Throw (overflow_error "len<0")
  else if length <=? 192 then Ok 1
  else if length <=? 12480 then Ok 2
  else if length <=? 918744 then Ok 3
  else Throw (overflow_error "len>918744").

Definition decodeLengthLength (b1 : Z) : res Z :=
  if b1 <? 0 then Throw (overflow_error "b1<0")
  else if b1 <=? 192 then Ok 1
  else if b1 <=? 240 then Ok 2
  else if b1 <=? 254 then Ok 3
  else Throw (overflow_error "b1>254").

Definition decodeVLLength1 (b1 : Z) : res Z :=
  if b1 <? 0 then Throw (overflow_error "b1<0")
  else if 254 <? b1 then Throw (overflow_error "b1>254")
  else Ok b1.

Definition decodeVLLength2 (b1 b2 : Z) : res Z :=
  if b1 <? 193 then Throw (overflow_error "b1<193")
  else if 240 <? b1 then Throw (overflow_error "b1>240")
  else Ok (193 + (b1 - 193) * 256 + b2).

Definition decodeVLLength3 (b1 b2 b3 : Z) : res Z :=
  if b1 <? 241 then Throw (overflow_error "b1<241")
  else if 254 <? b1 then Throw (overflow_error "b1>254")
  else Ok (12481 + (b1 - 241) * 65536 + b2 * 256 + b3).

(** *** Reading at an offset *)

Definition get8_at (s : list Z) (offset : nat) : option Z := s !! offset.

Definition getRaw_at (s : list Z) (offset len : nat) : option (list Z) :=
  if decide (length s < offset + len)%nat then None else Some (take len (drop offset s)).

Definition get256_at (s : list Z) (offset : nat) : option Z := option_map from_bytes (getRaw_at s offset 32).

Definition chop (bytes : nat) (s : list Z) : option (list Z) :=
  if decide (length s < bytes)%nat then None else Some (take (length s - bytes) s).

(** [getVLLength]: the length of the blob and the number of bytes it takes. The
    call of [decodeLengthLength] is outside the [try] block. *)
Definition vl_length_at (s : list Z) (offset : nat) : res (option (Z * nat)) :=
  match get8_at s offset with
  | None => Ok None
  | Some b1 =>
      lenLen ← decodeLengthLength b1;
      catch (if lenLen =? 1 then (n ← decodeVLLength1 b1; Ok (Some (n, 1%nat)))
             else if lenLen =? 2 then
               match get8_at s (offset + 1) with
               | None => Ok None
               | Some b2 => n ← decodeVLLength2 b1 b2; Ok (Some (n, 2%nat))
               end
             else if lenLen =? 3 then
               match get8_at s (offset + 1) with
               | None => Ok None
               | Some b2 =>
                   match get8_at s (offset + 2) with
                   | None => Ok None
                   | Some b3 => n ← decodeVLLength3 b1 b2 b3; Ok (Some (n, 3%nat))
                   end
               end
             else Ok None) (Ok None)
  end.

Definition getVLLength (s : list Z) (offset : nat) : res (option Z) :=
  r ← vl_length_at s offset; Ok (option_map fst r).

(** The blob and the bytes consumed. *)
Definition getVL_at (s : list Z) (offset : nat) : res (option (list Z * Z)) :=
  r ← vl_length_at s offset;
  match r with
  | None => Ok None
  | Some (datLen, lenLen) =>
      Ok (option_map (fun b => (b, Z.of_nat lenLen + datLen)) (getRaw_at s (offset + lenLen) (Z.to_nat datLen)))
  end.

(** ** SerialIter *)

(** [si_used]: the bytes before [p_], the last one first; [si_rest]: those from [p_]. *)
Record SerialIter := mkIter { si_used : list Z; si_rest : list Z }.

Definition iter (data : list Z) : SerialIter := mkIter [] data.
Definition iter_empty (sit : SerialIter) : bool := match si_rest sit with [] => true | _ => false end.
Definition getBytesLeft (sit : SerialIter) : nat := length (si_rest sit).
Definition reset (sit : SerialIter) : SerialIter := mkIter [] (rev (si_used sit) ++ si_rest sit).

Definition parser (A : Type) : Type := SerialIter -> res (A * SerialIter).
#[export] Instance parser_ret : MRet parser := fun A a sit => Ok (a, sit).
#[export] Instance parser_bind : MBind parser := fun A B k p sit =>
  match p sit with Ok (a, sit) => k a sit | Throw e => Throw e end.

Definition raise {A} (e : exn) : parser A := fun _ => Throw e.
Definition lift {A} (r : res A) : parser A := fun sit => match r with Ok a => Ok (a, sit) | Throw e => Throw e end.

(** Takes [n] bytes; every member function fails like this when too few are left. *)
Definition take_bytes (what : string) (n : nat) : parser (list Z) := fun sit =>
  if decide (length (si_rest sit) < n)%nat then Throw (runtime_error what)
  else Ok (take n (si_rest sit), mkIter (rev (take n (si_rest sit)) ++ si_used sit) (drop n (si_rest sit))).

Definition skip (n : nat) : parser unit := _ ← take_bytes "invalid SerialIter skip" n; mret tt.

Definition get8 : parser Z := t ← take_bytes "invalid SerialIter get8" 1; mret (t !!! 0%nat).

Definition get16 : parser Z :=
  t ← take_bytes "invalid SerialIter get16" 2; mret (u16 (Z.shiftl (t !!! 0%nat) 8 + t !!! 1%nat)).

Definition get32 : parser Z :=
  t ← take_bytes "invalid SerialIter get32" 4;
  mret (u32 (Z.shiftl (t !!! 0%nat) 24 + Z.shiftl (t !!! 1%nat) 16 + Z.shiftl (t !!! 2%nat) 8 + t !!! 3%nat)).

Definition get64 : parser Z :=
  t ← take_bytes "invalid SerialIter get64" 8;
  mret (u64 (Z.shiftl (t !!! 0%nat) 56 + Z.shiftl (t !!! 1%nat) 48 + Z.shiftl (t !!! 2%nat) 40 + Z.shiftl (t !!! 3%nat) 32 +
             Z.shiftl (t !!! 4%nat) 24 + Z.shiftl (t !!! 5%nat) 16 + Z.shiftl (t !!! 6%nat) 8 + t !!! 7%nat)).

Definition getBitString (bits : nat) : parser Z :=
  t ← take_bytes "invalid SerialIter getBitString" (bits / 8); mret (from_bytes t).

Definition getFieldID : parser (Z * Z) :=
  b ← get8;
  let name := Z.land b 15 in
  let type := Z.shiftr b 4 in
  type ← (if type =? 0 then
            (type ← get8;
             if (type =? 0) || (type <? 16) then raise (runtime_error "gFID: uncommon type out of range") else mret type)
          else mret type);
  name ← (if name =? 0 then
            (name ← get8;
             if (name =? 0) || (name <? 16) then raise (runtime_error "gFID: uncommon name out of range") else mret name)
          else mret name);
  mret (type, name).

(** A size is an [int]; [remain_ < size] compares it as a [std::size_t], so a
    negative one never fits. *)
Definition getRaw (size : Z) : parser (list Z) :=
  if size <? 0 then raise (runtime_error "invalid SerialIter getRaw")
  else take_bytes "invalid SerialIter getRaw" (Z.to_nat size).

Definition getSlice (bytes : nat) : parser (list Z) := take_bytes "invalid SerialIter getSlice" bytes.

Definition getVLDataLength : parser Z :=
  b1 ← get8;
  lenLen ← lift (decodeLengthLength b1);
  if lenLen =? 1 then lift (decodeVLLength1 b1)
  else if lenLen =? 2 then (b2 ← get8; lift (decodeVLLength2 b1 b2))
  else (b2 ← get8; b3 ← get8; lift (decodeVLLength3 b1 b2 b3)).

Definition getVL : parser (list Z) := n ← getVLDataLength; getRaw n.
Definition getVLBuffer : parser (list Z) := n ← getVLDataLength; getRaw n.

(** ** Integers *)

Lemma u8_land z : u8 z = Z.land z 255.
Proof. unfold u8. change 255 with (Z.ones 8). by rewrite Z.land_ones by lia. Qed.

Lemma is_byte_u8 z : is_byte (u8 z).
Proof. unfold is_byte, u8. apply Z.mod_pos_bound. lia. Qed.

Lemma u8_byte b : is_byte b -> u8 b = b.
Proof. intros. by apply Z.mod_small. Qed.

Lemma length_big_endian n z : length (big_endian n z) = n.
Proof. induction n; cbn; congruence. Qed.

Lemma big_endian_bytes n z : Forall is_byte (big_endian n z).
Proof. induction n as [|n IH]; constructor; [|done]. rewrite <-u8_land. apply is_byte_u8. Qed.

Lemma add16_be i s : add16 i s = s ++ big_endian 2 i.
Proof. unfold add16. by rewrite u8_land. Qed.

Lemma add32_be i s : add32 i s = s ++ big_endian 4 i.
Proof. unfold add32. by rewrite u8_land. Qed.

Lemma add64_be i s : add64 i s = s ++ big_endian 8 i.
Proof. unfold add64. by rewrite u8_land. Qed.

Lemma from_bytes_snoc bs b : from_bytes (bs ++ [b]) = from_bytes bs * 256 + b.
Proof. unfold from_bytes. rewrite foldl_app. cbn. by rewrite Z.shiftl_mul_pow2 by lia. Qed.

Lemma from_bytes_cons b bs : from_bytes (b :: bs) = b * 256 ^ Z.of_nat (length bs) + from_bytes bs.
Proof.
  induction bs as [|c bs IH] using rev_ind; [unfold from_bytes; cbn [foldl length]; rewrite Z.shiftl_0_l, Z.pow_0_r; lia|]. rewrite app_comm_cons, !from_bytes_snoc, IH, length_app. cbn [length].
  rewrite Nat2Z.inj_add, Z.pow_add_r by lia. change (256 ^ Z.of_nat 1) with 256. ring.
Qed.

Lemma from_bytes_range bs : Forall is_byte bs -> 0 <= from_bytes bs < 256 ^ Z.of_nat (length bs).
Proof.
  induction 1 as [|b bs Hb Hbs IH]; [done|]. rewrite from_bytes_cons. cbn [length]. rewrite Nat2Z.inj_succ, Z.pow_succ_r by lia.
  unfold is_byte in Hb. nia.
Qed.

Lemma from_bytes_be n z : from_bytes (big_endian n z) = z mod 256 ^ Z.of_nat n.
Proof.
  induction n as [|n IH]; [by rewrite Z.mod_1_r|]. cbn [big_endian]. rewrite from_bytes_cons, length_big_endian, IH, <-u8_land. unfold u8.
  rewrite Z.shiftr_div_pow2, Nat2Z.inj_succ, Z.pow_succ_r by lia. replace (2 ^ (8 * Z.of_nat n)) with (256 ^ Z.of_nat n) by (rewrite Z.pow_mul_r by lia; done).
  rewrite (Z.mul_comm 256), Z.rem_mul_r by (try apply Z.pow_nonzero; lia). change (2 ^ 8) with 256. lia.
Qed.

Lemma big_endian_high n a b : 0 <= b < 256 ^ Z.of_nat n -> big_endian n (a * 256 ^ Z.of_nat n + b) = big_endian n b.
Proof.
  intros Hb. assert (Hk : forall k, (k <= n)%nat -> big_endian k (a * 256 ^ Z.of_nat n + b) = big_endian k b); [|by apply Hk].
  induction k as [|k IH]; intros Hk; [done|]. cbn [big_endian]. rewrite IH by lia. f_equal. rewrite <-!u8_land. unfold u8.
  rewrite !Z.shiftr_div_pow2 by lia. replace (2 ^ (8 * Z.of_nat k)) with (256 ^ Z.of_nat k) by (rewrite Z.pow_mul_r by lia; done).
  replace (Z.of_nat n) with (Z.of_nat (n - S k) + 1 + Z.of_nat k) by lia. rewrite !Z.pow_add_r by lia. rewrite Z.mul_assoc, Z.div_add_l by (apply Z.pow_nonzero; lia).
  change (256 ^ 1) with 256. change (2 ^ 8) with 256. rewrite Z.mul_assoc, Z.add_comm. apply Z_mod_plus_full.
Qed.

Lemma be_from_bytes bs : Forall is_byte bs -> big_endian (length bs) (from_bytes bs) = bs.
Proof.
  induction 1 as [|b bs Hb Hbs IH]; [done|]. pose proof (from_bytes_range bs Hbs) as Hr. rewrite from_bytes_cons. cbn [length big_endian].
  rewrite big_endian_high, IH by done. f_equal. rewrite Z.shiftr_div_pow2 by lia.
  replace (2 ^ (8 * Z.of_nat (length bs))) with (256 ^ Z.of_nat (length bs)) by (rewrite Z.pow_mul_r by lia; done).
  rewrite Z.div_add_l, Z.div_small, Z.add_0_r, <-u8_land by lia. by apply u8_byte.
Qed.

Lemma from_bytes_inj l l' : Forall is_byte l -> Forall is_byte l' -> length l = length l' -> from_bytes l = from_bytes l' -> l = l'.
Proof. intros Hl Hl' Hlen E. rewrite <-(be_from_bytes l Hl), <-(be_from_bytes l' Hl'). by rewrite E, Hlen. Qed.

(** ** Reading what was written *)

(** [p] reads exactly the bytes [bs] and returns [a], whatever is around them. *)
Definition reads {A} (p : parser A) (bs : list Z) (a : A) : Prop :=
  forall u r, p (mkIter u (bs ++ r)) = Ok (a, mkIter (rev bs ++ u) r).

Lemma reads_ret {A} (a : A) : reads (mret a) [] a.
Proof. done. Qed.

Lemma reads_bind {A B} (p : parser A) (k : A -> parser B) bs bs' a b :
  reads p bs a -> reads (k a) bs' b -> reads (p ≫= k) (bs ++ bs') b.
Proof.
  intros Hp Hk u r. unfold mbind, parser_bind. rewrite <-app_assoc, Hp, Hk. by rewrite rev_app_distr, app_assoc.
Qed.

(** The last parser of a chain reads nothing more. *)
Lemma reads_bind_ret {A B} (p : parser A) (k : A -> parser B) bs a b : reads p bs a -> reads (k a) [] b -> reads (p ≫= k) bs b.
Proof. intros Hp Hk. rewrite <-(app_nil_r bs). by eapply reads_bind. Qed.

Lemma reads_lift {A} (r : res A) a : r = Ok a -> reads (lift r) [] a.
Proof. by intros ->. Qed.

Lemma reads_take what bs : reads (take_bytes what (length bs)) bs bs.
Proof.
  intros u r. unfold take_bytes. cbn [si_rest si_used]. rewrite decide_False by (rewrite length_app; lia).
  by rewrite take_app_length, drop_app_length.
Qed.

Lemma reads_take_n what n bs : n = length bs -> reads (take_bytes what n) bs bs.
Proof. intros ->. apply reads_take. Qed.

Lemma reads_get8 b : is_byte b -> reads get8 [b] b.
Proof. intros Hb. unfold get8. eapply reads_bind_ret; [by apply reads_take_n|apply reads_ret]. Qed.

Lemma spelled2 a b : Z.shiftl a 8 + b = from_bytes [a; b].
Proof. unfold from_bytes. cbn [foldl]. rewrite !Z.shiftl_mul_pow2 by lia. lia. Qed.

Lemma spelled4 a b c d : Z.shiftl a 24 + Z.shiftl b 16 + Z.shiftl c 8 + d = from_bytes [a; b; c; d].
Proof. unfold from_bytes. cbn [foldl]. rewrite !Z.shiftl_mul_pow2 by lia. lia. Qed.

Lemma spelled8 a b c d e f g k :
  Z.shiftl a 56 + Z.shiftl b 48 + Z.shiftl c 40 + Z.shiftl d 32 + Z.shiftl e 24 + Z.shiftl f 16 + Z.shiftl g 8 + k =
  from_bytes [a; b; c; d; e; f; g; k].
Proof. unfold from_bytes. cbn [foldl]. rewrite !Z.shiftl_mul_pow2 by lia. lia. Qed.

Lemma reads_get16 i : 0 <= i < 2 ^ 16 -> reads get16 (big_endian 2 i) i.
Proof.
  intros Hi. unfold get16. eapply reads_bind_ret; [by apply reads_take_n|].
  rewrite spelled2. change [_; _] with (big_endian 2 i). rewrite from_bytes_be. change (256 ^ _) with (2 ^ 16). unfold u16. rewrite Z.mod_mod, Z.mod_small by lia. apply reads_ret.
Qed.

Lemma reads_get32 i : 0 <= i < 2 ^ 32 -> reads get32 (big_endian 4 i) i.
Proof.
  intros Hi. unfold get32. eapply reads_bind_ret; [by apply reads_take_n|].
  rewrite spelled4. change [_; _; _; _] with (big_endian 4 i). rewrite from_bytes_be. change (256 ^ _) with (2 ^ 32). unfold u32. rewrite Z.mod_mod, Z.mod_small by lia. apply reads_ret.
Qed.

Lemma reads_get64 i : 0 <= i < 2 ^ 64 -> reads get64 (big_endian 8 i) i.
Proof.
  intros Hi. unfold get64. eapply reads_bind_ret; [by apply reads_take_n|].
  rewrite spelled8. change [_; _; _; _; _; _; _; _] with (big_endian 8 i). rewrite from_bytes_be. change (256 ^ _) with (2 ^ 64). unfold u64. rewrite Z.mod_mod, Z.mod_small by lia. apply reads_ret.
Qed.

Lemma reads_getBitString bits v : 0 <= v < 256 ^ Z.of_nat (bits / 8) -> reads (getBitString bits) (big_endian (bits / 8) v) v.
Proof.
  intros Hv. unfold getBitString. eapply reads_bind_ret; [apply reads_take_n; by rewrite length_big_endian|].
  rewrite from_bytes_be, Z.mod_small by done. apply reads_ret.
Qed.

(** *** Field identifiers *)

Definition field_id (type name : Z) : list Z := addFieldID type name [].

Lemma addFieldID_app type name s : addFieldID type name s = s ++ field_id type name.
Proof. unfold field_id, addFieldID. by repeat case_match. Qed.

Lemma high_nibble t n : 0 <= n < 16 -> Z.shiftr (t * 16 + n) 4 = t.
Proof. intros. rewrite Z.shiftr_div_pow2 by lia. change (2 ^ 4) with 16. rewrite Z.div_add_l, Z.div_small by lia. lia. Qed.

Lemma low_nibble t n : 0 <= n < 16 -> Z.land (t * 16 + n) 15 = n.
Proof. intros. change 15 with (Z.ones 4). rewrite Z.land_ones by lia. change (2 ^ 4) with 16. rewrite Z.add_comm, Z_mod_plus_full. by apply Z.mod_small. Qed.

(** The first byte, with 0 for what is spelled out after it. *)
Definition id_byte (type name : Z) : Z := (if type <? 16 then type else 0) * 16 + (if name <? 16 then name else 0).

Lemma field_id_spec type name : 0 < type < 256 -> 0 < name < 256 ->
  field_id type name = id_byte type name :: (if type <? 16 then [] else [type]) ++ (if name <? 16 then [] else [name]).
Proof.
  intros Ht Hn. assert (Hu : forall b, 0 <= b < 256 -> u8 b = b) by (intros; by apply u8_byte). unfold field_id, addFieldID, id_byte.
  destruct (Z.ltb_spec type 16), (Z.ltb_spec name 16); cbn [app].
  - rewrite Z.shiftl_mul_pow2 by lia. change (2 ^ 4) with (2 ^ 4). rewrite (lor_shift_low type name 4), Hu by lia. done.
  - rewrite Z.shiftl_mul_pow2 by lia. change (2 ^ 4) with 16. rewrite !Hu by lia. by rewrite Z.add_0_r.
  - rewrite !Hu by lia. done.
  - rewrite !Hu by lia. done.
Qed.

Lemma reads_getFieldID type name : 0 < type < 256 -> 0 < name < 256 -> reads getFieldID (field_id type name) (type, name).
Proof.
  intros Ht Hn. rewrite field_id_spec by done. unfold getFieldID, id_byte.
  set (t := if type <? 16 then type else 0). set (n := if name <? 16 then name else 0).
  assert (Htr : 0 <= t < 16) by (unfold t; destruct (Z.ltb_spec type 16); lia). assert (Hnr : 0 <= n < 16) by (unfold n; destruct (Z.ltb_spec name 16); lia).
  change (?x :: ?y) with ([x] ++ y). eapply reads_bind; [apply reads_get8; unfold is_byte; lia|]. rewrite high_nibble, low_nibble by done.
  eapply reads_bind with (a := type).
  - unfold t. destruct (Z.ltb_spec type 16) as [Hl|Hl].
    + rewrite (proj2 (Z.eqb_neq type 0)) by lia. apply reads_ret.
    + cbn [Z.eqb]. eapply reads_bind_ret; [apply reads_get8; unfold is_byte; lia|].
      rewrite (proj2 (Z.eqb_neq type 0)), (proj2 (Z.ltb_ge type 16)) by lia. apply reads_ret.
  - eapply reads_bind_ret with (a := name); [|apply reads_ret]. unfold n. destruct (Z.ltb_spec name 16) as [Hl|Hl].
    + rewrite (proj2 (Z.eqb_neq name 0)) by lia. apply reads_ret.
    + cbn [Z.eqb]. eapply reads_bind_ret; [apply reads_get8; unfold is_byte; lia|].
      rewrite (proj2 (Z.eqb_neq name 0)), (proj2 (Z.ltb_ge name 16)) by lia. apply reads_ret.
Qed.

(** *** Blobs *)

Definition vl_limit : Z := 918744.

(** The prefix of a blob of [n] bytes. *)
Definition vl_prefix (n : Z) : list Z :=
  if n <=? 192 then [n]
  else if n <=? 12480 then [193 + (n - 193) / 256; (n - 193) mod 256]
  else [241 + (n - 12481) / 65536; (n - 12481) / 256 mod 256; (n - 12481) mod 256].

Lemma addEncoded_spec n s : 0 <= n -> addEncoded n s = if n <=? vl_limit then Ok (s ++ vl_prefix n) else Throw (overflow_error "lenlen").
Proof.
  intros Hn. unfold addEncoded, vl_prefix, vl_limit. assert (Hu : forall b, 0 <= b < 256 -> u8 b = b) by (intros; by apply u8_byte).
  destruct (Z.leb_spec n 192); [rewrite (proj2 (Z.leb_le n 918744)), Hu by lia; done|].
  destruct (Z.leb_spec n 12480); [rewrite (proj2 (Z.leb_le n 918744)) by lia|destruct (Z.leb_spec n 918744); [|done]].
  - rewrite Z.shiftr_div_pow2, <-!u8_land by lia. unfold u8 at 2. change (2 ^ 8) with 256.
    assert (0 <= (n - 193) / 256 < 48) by (split; [apply Z.div_pos; lia|apply Z.div_lt_upper_bound; lia]).
    rewrite (Z.mod_small ((n - 193) / 256)), (Hu (193 + _)) by lia. rewrite (u8_byte (u8 _)) by apply is_byte_u8. done.
  - rewrite !Z.shiftr_div_pow2, <-!u8_land by lia. unfold u8 at 2. change (2 ^ 8) with 256. change (2 ^ 16) with 65536.
    assert (0 <= (n - 12481) / 65536 < 14) by (split; [apply Z.div_pos; lia|apply Z.div_lt_upper_bound; lia]).
    rewrite (Z.mod_small ((n - 12481) / 65536)), (Hu (241 + _)) by lia. rewrite !(u8_byte (u8 _)) by apply is_byte_u8. done.
Qed.

Lemma reads_vl_prefix n : 0 <= n <= vl_limit -> reads getVLDataLength (vl_prefix n) n.
Proof.
  unfold vl_limit, getVLDataLength, vl_prefix. intros Hn.
  destruct (Z.leb_spec n 192); [|destruct (Z.leb_spec n 12480)].
  - eapply reads_bind_ret; [apply reads_get8; unfold is_byte; lia|]. unfold decodeLengthLength, decodeVLLength1.
    rewrite (proj2 (Z.ltb_ge n 0)), (proj2 (Z.leb_le n 192)), (proj2 (Z.ltb_ge 254 n)) by lia. done.
  - assert (0 <= (n - 193) / 256 < 48) by (split; [apply Z.div_pos; lia|apply Z.div_lt_upper_bound; lia]).
    pose proof (Z.mod_pos_bound (n - 193) 256 ltac:(lia)). pose proof (Z.div_mod (n - 193) 256 ltac:(lia)). set (q := (n - 193) / 256) in *. set (r := (n - 193) mod 256) in *.
    change [?x; ?y] with ([x] ++ [y]). eapply reads_bind; [apply reads_get8; unfold is_byte; lia|]. unfold decodeLengthLength.
    rewrite (proj2 (Z.ltb_ge (193 + q) 0)), (proj2 (Z.leb_gt (193 + q) 192)), (proj2 (Z.leb_le (193 + q) 240)) by lia.
    change (reads (b2 ← get8; lift (decodeVLLength2 (193 + q) b2)) [r] n). eapply reads_bind_ret; [apply reads_get8; unfold is_byte; lia|]. apply reads_lift.
    unfold decodeVLLength2. rewrite (proj2 (Z.ltb_ge (193 + q) 193)), (proj2 (Z.ltb_ge 240 (193 + q))) by lia. f_equal. lia.
  - set (m := n - 12481) in *. assert (0 <= m / 65536 < 14) by (split; [apply Z.div_pos; lia|apply Z.div_lt_upper_bound; lia]).
    pose proof (Z.div_mod m 256 ltac:(lia)). pose proof (Z.div_mod (m / 256) 256 ltac:(lia)). rewrite Z.div_div in * by lia. change (256 * 256) with 65536 in *.
    pose proof (Z.mod_pos_bound m 256 ltac:(lia)). pose proof (Z.mod_pos_bound (m / 256) 256 ltac:(lia)).
    set (q := m / 65536) in *. set (r := m / 256 mod 256) in *. set (t := m mod 256) in *.
    change [?x; ?y; ?z] with ([x] ++ [y] ++ [z]). eapply reads_bind; [apply reads_get8; unfold is_byte; lia|]. unfold decodeLengthLength.
    rewrite (proj2 (Z.ltb_ge (241 + q) 0)), (proj2 (Z.leb_gt (241 + q) 192)), (proj2 (Z.leb_gt (241 + q) 240)), (proj2 (Z.leb_le (241 + q) 254)) by lia.
    change (reads (b2 ← get8; b3 ← get8; lift (decodeVLLength3 (241 + q) b2 b3)) ([r] ++ [t]) n). eapply reads_bind; [apply reads_get8; unfold is_byte; lia|].
    eapply reads_bind_ret; [apply reads_get8; unfold is_byte; lia|]. apply reads_lift.
    unfold decodeVLLength3. rewrite (proj2 (Z.ltb_ge (241 + q) 241)), (proj2 (Z.ltb_ge 254 (241 + q))) by lia. f_equal. lia.
Qed.

Lemma addVL_spec v s : addVL v s =
  if Z.of_nat (length v) <=? vl_limit then Ok (s ++ vl_prefix (Z.of_nat (length v)) ++ v) else Throw (overflow_error "lenlen").
Proof.
  unfold addVL. rewrite addEncoded_spec by lia. destruct (_ <=? _); [|done]. cbn. unfold addRaw. by rewrite <-app_assoc.
Qed.

Lemma reads_vl v : Z.of_nat (length v) <= vl_limit -> reads getVL (vl_prefix (Z.of_nat (length v)) ++ v) v.
Proof.
  intros Hv. unfold getVL. eapply reads_bind; [apply reads_vl_prefix; lia|]. unfold getRaw. rewrite (proj2 (Z.ltb_ge _ 0)), Nat2Z.id by lia. apply reads_take.
Qed.

(** ** What a successful read says about the input *)

Lemma parser_bind_Ok {A B} (p : parser A) (k : A -> parser B) sit b sit' :
  (p ≫= k) sit = Ok (b, sit') <-> exists a sit1, p sit = Ok (a, sit1) /\ k a sit1 = Ok (b, sit').
Proof.
  unfold mbind, parser_bind. destruct (p sit) as [[a sit1]|e]; split.
  - intros H. by exists a, sit1.
  - intros (a' & s' & [= <- <-] & H). done.
  - done.
  - by intros (a' & s' & ? & _).
Qed.

(** The bytes between two states of the iterator. *)
Definition consumed (sit sit' : SerialIter) (bs : list Z) : Prop := si_rest sit = bs ++ si_rest sit' /\ si_used sit' = rev bs ++ si_used sit.

Lemma consumed_nil sit : consumed sit sit [].
Proof. done. Qed.

Lemma consumed_app a b c bs bs' : consumed a b bs -> consumed b c bs' -> consumed a c (bs ++ bs').
Proof. intros [H1 H2] [H3 H4]. split; [by rewrite H1, H3, app_assoc|]. by rewrite H4, H2, rev_app_distr, app_assoc. Qed.

Lemma take_bytes_Ok what n sit t sit' : take_bytes what n sit = Ok (t, sit') -> consumed sit sit' t /\ length t = n.
Proof.
  unfold take_bytes. destruct (decide _) as [|Hlen]; [done|]. intros [= <- <-]. split; [|rewrite length_take; lia].
  split; cbn; [by rewrite take_drop|done].
Qed.

Lemma get8_Ok sit b sit' : get8 sit = Ok (b, sit') -> consumed sit sit' [b].
Proof.
  unfold get8. rewrite parser_bind_Ok. intros (t & sit1 & [Hc Hl]%take_bytes_Ok & H). injection H as <- <-.
  destruct t as [|x [|]]; [done| |done]. done.
Qed.

Lemma consumed_bytes sit sit' bs : Forall is_byte (si_rest sit) -> consumed sit sit' bs -> Forall is_byte bs /\ Forall is_byte (si_rest sit').
Proof. intros Hb [E _]. rewrite E in Hb. by apply Forall_app in Hb. Qed.

Lemma get64_Ok sit v sit' : Forall is_byte (si_rest sit) -> get64 sit = Ok (v, sit') -> consumed sit sit' (big_endian 8 v) /\ 0 <= v < 2 ^ 64.
Proof.
  intros Hb. unfold get64. rewrite parser_bind_Ok. intros (t & sit1 & [Hc Hl]%take_bytes_Ok & H). injection H as H <-.
  destruct (consumed_bytes _ _ _ Hb Hc) as [Ht _]. pose proof (from_bytes_range t Ht) as Hr. pose proof (be_from_bytes t Ht) as Hbe. rewrite Hl in Hr, Hbe.
  do 8 (destruct t as [|? t]; [done|]). destruct t; [|done]. cbn in H. rewrite spelled8, u64_small in H by done. subst v. by rewrite Hbe.
Qed.

Lemma getBitString_Ok bits sit v sit' : Forall is_byte (si_rest sit) -> getBitString bits sit = Ok (v, sit') ->
  consumed sit sit' (big_endian (bits / 8) v) /\ 0 <= v < 256 ^ Z.of_nat (bits / 8).
Proof.
  intros Hb. unfold getBitString. rewrite parser_bind_Ok. intros (t & sit1 & [Hc Hl]%take_bytes_Ok & H). injection H as <- <-.
  destruct (consumed_bytes _ _ _ Hb Hc) as [Ht _]. rewrite <-Hl, be_from_bytes by done. split; [done|]. by apply from_bytes_range.
Qed.

Lemma lift_Ok {A} (r : res A) sit a sit' : lift r sit = Ok (a, sit') -> r = Ok a /\ sit' = sit.
Proof. unfold lift. destruct r; [|done]. by intros [= <- <-]. Qed.

Lemma getVLDataLength_Ok sit n sit' :
  Forall is_byte (si_rest sit) -> getVLDataLength sit = Ok (n, sit') ->
  exists bs, consumed sit sit' bs /\ 0 <= n <= vl_limit + 11240 /\ (n <= vl_limit -> bs = vl_prefix n).
Proof.
  intros Hb. unfold getVLDataLength, vl_limit. rewrite parser_bind_Ok. intros (b1 & sit1 & H1%get8_Ok & H).
  assert (Hb1 : is_byte b1 /\ Forall is_byte (si_rest sit1)). { destruct H1 as [H1 _]. rewrite H1 in Hb. by apply Forall_cons in Hb. }
  destruct Hb1 as [Hb1 Hb']. unfold is_byte in Hb1. rewrite parser_bind_Ok in H. destruct H as (l & sit2 & [Hl ->]%lift_Ok & H). unfold decodeLengthLength in Hl.
  rewrite (proj2 (Z.ltb_ge b1 0)) in Hl by lia. destruct (Z.leb_spec b1 192) as [L1|L1]; [|destruct (Z.leb_spec b1 240) as [L2|L2]; [|destruct (Z.leb_spec b1 254) as [L3|L3]; [|done]]]; injection Hl as <-; cbn [Z.eqb Pos.eqb] in H.
  - apply lift_Ok in H as [H ->]. unfold decodeVLLength1 in H. rewrite (proj2 (Z.ltb_ge b1 0)), (proj2 (Z.ltb_ge 254 b1)) in H by lia. injection H as <-.
    exists [b1]. split_and!; [done|lia|lia|]. intros _. unfold vl_prefix. by rewrite (proj2 (Z.leb_le b1 192)) by lia.
  - rewrite parser_bind_Ok in H. destruct H as (b2 & sit2 & H2%get8_Ok & [H ->]%lift_Ok). destruct (H2) as [E2 _]. rewrite E2 in Hb'. apply Forall_cons in Hb' as [Hb2 _]. unfold is_byte in Hb2.
    unfold decodeVLLength2 in H. rewrite (proj2 (Z.ltb_ge b1 193)), (proj2 (Z.ltb_ge 240 b1)) in H by lia. injection H as <-. exists [b1; b2].
    split_and!; [exact (consumed_app _ _ _ _ _ H1 H2)|lia|lia|]. intros _. unfold vl_prefix.
    rewrite (proj2 (Z.leb_gt _ 192)), (proj2 (Z.leb_le _ 12480)) by lia. replace (193 + (b1 - 193) * 256 + b2 - 193) with ((b1 - 193) * 256 + b2) by lia.
    rewrite Z.div_add_l, Z.div_small, (Z.add_comm (_ * 256)), Z_mod_plus_full, Z.mod_small by lia. f_equal. lia.
  - rewrite parser_bind_Ok in H. destruct H as (b2 & sit2 & H2%get8_Ok & H). rewrite parser_bind_Ok in H. destruct H as (b3 & sit3 & H3%get8_Ok & [H ->]%lift_Ok).
    destruct (H2) as [E2 _], (H3) as [E3 _]. rewrite E2, E3 in Hb'. apply Forall_cons in Hb' as [Hb2 [Hb3 _]%Forall_cons]. unfold is_byte in Hb2, Hb3.
    unfold decodeVLLength3 in H. rewrite (proj2 (Z.ltb_ge b1 241)), (proj2 (Z.ltb_ge 254 b1)) in H by lia. injection H as <-. exists [b1; b2; b3].
    split_and!; [exact (consumed_app _ _ _ _ _ (consumed_app _ _ _ _ _ H1 H2) H3)|lia|lia|]. intros Hlim. unfold vl_prefix.
    rewrite (proj2 (Z.leb_gt _ 192)), (proj2 (Z.leb_gt _ 12480)) by lia.
    replace (12481 + (b1 - 241) * 65536 + b2 * 256 + b3 - 12481) with (((b1 - 241) * 256 + b2) * 256 + b3) by lia. change 65536 with (256 * 256). rewrite <-Z.div_div by lia.
    rewrite !Z.div_add_l, (Z.div_small b3), Z.add_0_r by lia. rewrite Z.div_add_l, (Z.div_small b2) by lia.
    rewrite !(Z.add_comm (_ * 256)), !Z_mod_plus_full, !Z.mod_small by lia. f_equal. lia.
Qed.

Lemma getVL_Ok sit v sit' : Forall is_byte (si_rest sit) -> getVL sit = Ok (v, sit') ->
  exists bs, consumed sit sit' bs /\ (Z.of_nat (length v) <= vl_limit -> bs = vl_prefix (Z.of_nat (length v)) ++ v).
Proof.
  intros Hb. unfold getVL. rewrite parser_bind_Ok. intros (n & sit1 & Hn & Hraw). apply getVLDataLength_Ok in Hn as (bs & Hc & Hrange & Hbs); [|done].
  unfold getRaw in Hraw. rewrite (proj2 (Z.ltb_ge n 0)) in Hraw by lia. apply take_bytes_Ok in Hraw as [Hc' Hlen].
  exists (bs ++ v). split; [by eapply consumed_app|]. intros Hlim. rewrite Hbs by lia. f_equal. f_equal. lia.
Qed.

(** Blobs with a length prefix: a blob of at most 918744 bytes is written and
    read back as it was, with nothing of what follows it consumed; a longer one is
    refused; and no blob of at most that size has a second encoding that the
    reader accepts. *)
Theorem vl_roundtrip v :
  (Z.of_nat (length v) <= vl_limit ->
     exists bs, addVL v [] = Ok bs /\ forall rest, getVL (iter (bs ++ rest)) = Ok (v, mkIter (rev bs) rest)) /\
  (vl_limit < Z.of_nat (length v) -> forall s, addVL v s = Throw (overflow_error "lenlen")) /\
  (forall data sit', Forall is_byte data -> getVL (iter data) = Ok (v, sit') -> Z.of_nat (length v) <= vl_limit ->
     exists bs, addVL v [] = Ok bs /\ data = bs ++ si_rest sit').
Proof.
  split_and!.
  - intros Hv. rewrite addVL_spec, (proj2 (Z.leb_le _ _)) by done. eexists. split; [done|]. intros rest. unfold iter. rewrite (reads_vl v Hv).
    by rewrite app_nil_r.
  - intros Hv s. by rewrite addVL_spec, (proj2 (Z.leb_gt _ _)) by done.
  - intros data sit' Hb Hget Hlim. destruct (getVL_Ok (iter data) _ _ Hb Hget) as (bs & [Hdata _] & Hbs). rewrite addVL_spec, (proj2 (Z.leb_le _ _)) by done.
    eexists. split; [done|]. cbn [app]. rewrite <-Hbs by done. done.
Qed.

(** The reader accepts lengths the writer refuses. *)
Theorem vl_limit_gap :
  getVLDataLength (iter [254; 255; 255]) = Ok (929984, mkIter [255; 255; 254] []) /\ addEncoded 929984 [] = Throw (overflow_error "lenlen").
Proof. by vm_compute. Qed.

(** [Serializer::getVL] reports a bad prefix by its result, but throws on 255. *)
Theorem getVL_throws : getVL_at [255] 0 = Throw (overflow_error "b1>254") /\ getVL_at [193] 0 = Ok None.
Proof. by vm_compute. Qed.
