(* ===== verification/Keys.v ===== *)
(** * Public keys and the form of signatures

    Models protocol/impl/PublicKey.cpp: the type of a key, the strict parsing of an
    ECDSA signature and its canonicality, that of an Ed25519 signature, and the
    verification that uses them. The curve arithmetic of the two libraries is a
    parameter. *)

From S2P Require Import Prelude Serializer.

Inductive KeyType := kt_secp256k1 | kt_ed25519.

#[export] Instance KeyType_eq_dec : EqDecision KeyType.
Proof. solve_decision. Defined.

Definition publicKeyType (slice : list Z) : option KeyType :=
  if (length slice =? 33)%nat then
    match slice with
    | b :: _ => if b =? 237 then Some kt_ed25519 else if (b =? 2) || (b =? 3) then Some kt_secp256k1 else None
    | [] => None
    end
  else None.

(** ** ECDSA signatures *)

Inductive ECDSACanonicality := canonical | fullyCanonical.

#[export] Instance ECDSACanonicality_eq_dec : EqDecision ECDSACanonicality.
Proof. solve_decision. Defined.

(** A length-prefixed number, and what follows it. *)
Definition sigPart (buf : list Z) : option (list Z * list Z) :=
  match buf with
  | t :: len :: b0 :: rest =>
      if negb (t =? 2) then None else
      let buf := b0 :: rest in
      if (Z.of_nat (length buf) <? len) || (len <? 1) || (33 <? len) then None else
      if negb (Z.land b0 128 =? 0) then None else
      if (b0 =? 0) && ((len =? 1) || match rest with b1 :: _ => Z.land b1 128 =? 0 | [] => true end) then None else
      Some (take (Z.to_nat len) buf, drop (Z.to_nat len) buf)
  | _ => None
  end.

(** The order of the group. *)
Definition secp256k1_G : Z := 115792089237316195423570985008687907852837564279074904382605163141518161494337.

Definition sig_slices (sig : list Z) : option (list Z * list Z) :=
  if (length sig <? 8)%nat || (72 <? length sig)%nat then None else
  match sig with
  | b0 :: b1 :: p =>
      if negb (b0 =? 48) || negb (b1 =? Z.of_nat (length sig) - 2) then None else
      match sigPart p with
      | None => None
      | Some (r, p) =>
          match sigPart p with
          | None => None
          | Some (s, p) => match p with [] => Some (r, s) | _ => None end
          end
      end
  | _ => None
  end.

Definition ecdsaCanonicality (sig : list Z) : option ECDSACanonicality :=
  match sig_slices sig with
  | None => None
  | Some (r, s) =>
      let R := from_bytes r in
      if secp256k1_G <=? R then None else
      let S := from_bytes s in
      if secp256k1_G <=? S then None else
      let Sp := secp256k1_G - S in
      if Sp <? S then Some canonical else Some fullyCanonical
  end.

(** ** Ed25519 signatures *)

Definition ed25519_order : list Z :=
  [16; 0; 0; 0; 0; 0; 0; 0; 0; 0; 0; 0; 0; 0; 0; 0; 20; 222; 249; 222; 162; 247; 156; 214; 88; 18; 99; 26; 92; 245; 211; 237].

Fixpoint lexicographical_compare (a b : list Z) : bool :=
  match a, b with
  | _, [] => false
  | [], _ => true
  | x :: a, y :: b => if x <? y then true else if y <? x then false else lexicographical_compare a b
  end.

Definition ed25519Canonical (sig : list Z) : bool :=
  if negb (length sig =? 64)%nat then false else
  lexicographical_compare (rev (drop 32 sig)) ed25519_order.

(** ** Verification *)

Section Verify.
(** The libraries: [secp256k1_ec_pubkey_parse], [secp256k1_ecdsa_signature_parse_der],
    [secp256k1_ecdsa_signature_normalize], [secp256k1_ecdsa_verify] and
    [ed25519_sign_open]. *)
Context {Pub Sig : Type}.
Context (pubkey_parse : list Z -> option Pub) (parse_der : list Z -> option Sig).
Context (normalize : Sig -> option Sig) (ecdsa_verify : Sig -> Z -> Pub -> bool).
Context (ed25519_sign_open : list Z -> list Z -> list Z -> bool) (sha512Half : list Z -> Z).

Definition verifyDigest (publicKey : list Z) (digest : Z) (sig : list Z) (mustBeFullyCanonical : bool) : res bool :=
  if negb (bool_decide (publicKeyType publicKey = Some kt_secp256k1)) then Throw (logic_error "sign: secp256k1 required for digest signing") else
  match ecdsaCanonicality sig with
  | None => Ok false
  | Some canonicality =>
      if mustBeFullyCanonical && negb (bool_decide (canonicality = fullyCanonical)) then Ok false else
      match pubkey_parse publicKey with
      | None => Ok false
      | Some pubkey_imp =>
          match parse_der sig with
          | None => Ok false
          | Some sig_imp =>
              if negb (bool_decide (canonicality = fullyCanonical)) then
                match normalize sig_imp with
                | None => Ok false
                | Some sig_norm => Ok (ecdsa_verify sig_norm digest pubkey_imp)
                end
              else Ok (ecdsa_verify sig_imp digest pubkey_imp)
          end
      end
  end.

Definition verify (publicKey m sig : list Z) (mustBeFullyCanonical : bool) : res bool :=
  match publicKeyType publicKey with
  | Some kt_secp256k1 => verifyDigest publicKey (sha512Half m) sig mustBeFullyCanonical
  | Some kt_ed25519 =>
      if negb (ed25519Canonical sig) then Ok false else Ok (ed25519_sign_open m (drop 1 publicKey) sig)
  | None => Ok false
  end.
End Verify.

(** ** Numbers have one encoding *)

(** What [sigPart] accepts: at least a byte, not negative, not zero and not padded. *)
Definition minimal (l : list Z) : Prop :=
  Forall is_byte l /\
  match l with
  | [] => False
  | [b] => 0 < b < 128
  | b :: c :: _ => 0 <= b < 128 /\ (b = 0 -> 128 <= c)
  end.

Lemma land_128 b : is_byte b -> Z.land b 128 = 0 <-> b < 128.
Proof.
  intros Hb. unfold is_byte in Hb. change 128 with (2 ^ 7) at 1. assert (Hd : b = 128 * (b / 128) + b mod 128) by (apply Z.div_mod; lia).
  assert (Hq : b / 128 = 0 \/ b / 128 = 1) by (assert (0 <= b / 128 < 2) by (split; [apply Z.div_pos; lia|apply Z.div_lt_upper_bound; lia]); lia).
  pose proof (Z.mod_pos_bound b 128 ltac:(lia)). assert (Ht : Z.testbit b 7 = negb (b <? 128)).
  { rewrite Z.testbit_odd, Z.shiftr_div_pow2 by done. change (2 ^ 7) with 128. destruct Hq as [Hq|Hq]; rewrite Hq in *; cbn; symmetry; [apply negb_false_iff, Z.ltb_lt|apply negb_true_iff, Z.ltb_ge]; lia. }
  split; intros H1.
  - apply Z.ltb_lt. apply negb_false_iff. rewrite <-Ht. apply (f_equal (fun z => Z.testbit z 7)) in H1. rewrite Z.land_spec, Z.pow2_bits_true, andb_true_r, Z.bits_0 in H1 by done. done.
  - apply Z.bits_inj'. intros i Hi. rewrite Z.land_spec, Z.bits_0. destruct (decide (i = 7)) as [->|Hne].
    + rewrite Ht. apply Z.ltb_lt in H1. by rewrite H1.
    + by rewrite Z.pow2_bits_false, andb_false_r by done.
Qed.

Lemma minimal_bounds l : minimal l ->
  from_bytes l < 128 * 256 ^ (Z.of_nat (length l) - 1) /\ (length l = 1%nat \/ 128 * 256 ^ (Z.of_nat (length l) - 2) <= from_bytes l).
Proof.
  intros [Hb Hm]. destruct l as [|b [|c l]]; [done|..].
  - assert (from_bytes [b] = b) as -> by (rewrite from_bytes_cons; change (from_bytes []) with 0; cbn [length]; lia). cbn [length]. split; [cbn; lia|by left].
  - apply Forall_cons in Hb as [Hb [Hc Hl]%Forall_cons]. destruct Hm as [Hm1 Hm2]. unfold is_byte in *.
    assert (Hr := from_bytes_range l Hl). rewrite !from_bytes_cons. cbn [length].
    replace (Z.of_nat (S (S (length l))) - 1) with (Z.of_nat (length l) + 1) by lia. replace (Z.of_nat (S (S (length l))) - 2) with (Z.of_nat (length l)) by lia.
    replace (Z.of_nat (S (length l))) with (Z.of_nat (length l) + 1) by lia. rewrite Z.pow_add_r by lia. change (256 ^ 1) with 256. set (P := 256 ^ Z.of_nat (length l)) in *.
    split; [nia|right]. destruct (decide (b = 0)) as [->|]; [specialize (Hm2 eq_refl)|]; nia.
Qed.

Lemma minimal_inj l k : minimal l -> minimal k -> from_bytes l = from_bytes k -> l = k.
Proof.
  intros Hl Hk He. destruct (minimal_bounds l Hl) as [U1 L1], (minimal_bounds k Hk) as [U2 L2]. apply from_bytes_inj; [apply Hl|apply Hk| |done].
  destruct (Nat.lt_trichotomy (length l) (length k)) as [Hlt|[|Hlt]]; [|done|]; exfalso.
  - destruct L2 as [L2|L2]; [destruct l; [apply Hl|cbn in Hlt; lia]|]. assert (256 ^ (Z.of_nat (length l) - 1) <= 256 ^ (Z.of_nat (length k) - 2)) by (apply Z.pow_le_mono_r; lia). lia.
  - destruct L1 as [L1|L1]; [destruct k; [apply Hk|cbn in Hlt; lia]|]. assert (256 ^ (Z.of_nat (length k) - 1) <= 256 ^ (Z.of_nat (length l) - 2)) by (apply Z.pow_le_mono_r; lia). lia.
Qed.

(** ** A signature is its two numbers *)

Lemma sigPart_spec buf n rest : Forall is_byte buf -> sigPart buf = Some (n, rest) -> minimal n /\ buf = 2 :: Z.of_nat (length n) :: n ++ rest.
Proof.
  intros Hb. destruct buf as [|t [|len [|b0 buf]]]; try done. unfold sigPart. destruct (Z.eqb_spec t 2) as [->|]; [|done]. cbn [negb].
  destruct (Z.ltb_spec (Z.of_nat (length (b0 :: buf))) len) as [|H1]; [done|]. destruct (Z.ltb_spec len 1) as [|H2]; [done|]. destruct (Z.ltb_spec 33 len) as [|H3]; [done|]. cbn [orb].
  apply Forall_cons in Hb as [_ [_ Hb]%Forall_cons]. pose proof Hb as [Hb0 Hbuf]%Forall_cons.
  destruct (Z.eqb_spec (Z.land b0 128) 0) as [Hn%land_128|]; [|done|done]. cbn [negb]. destruct (_ && _) eqn:Hz; [done|]. intros [= <- <-].
  rewrite length_take, Nat.min_l by lia. rewrite Z2Nat.id by lia. split; [|by rewrite take_drop]. split; [by apply Forall_take|].
  destruct (Z.to_nat len) as [|n] eqn:En; [lia|]. cbn [take]. unfold is_byte in *. destruct buf as [|b1 buf]; [|destruct n as [|n]]; cbn [take].
  - rewrite take_nil. destruct (Z.eqb_spec b0 0) as [->|]; [|lia]. cbn in Hz. by rewrite orb_true_r in Hz.
  - destruct (Z.eqb_spec b0 0) as [->|]; [|lia]. replace len with 1 in Hz by lia. done.
  - split; [lia|]. intros ->. cbn in Hz. apply orb_false_iff in Hz as [_ Hz%Z.eqb_neq]. apply Forall_cons in Hbuf as [Hb1 _].
    destruct (decide (b1 < 128)) as [Hlt|]; [|lia]. destruct Hz. by apply land_128.
Qed.

Lemma sig_slices_spec sig r s : Forall is_byte sig -> sig_slices sig = Some (r, s) ->
  minimal r /\ minimal s /\ sig = 48 :: (Z.of_nat (length sig) - 2) :: 2 :: Z.of_nat (length r) :: r ++ 2 :: Z.of_nat (length s) :: s.
Proof.
  intros Hb. unfold sig_slices. destruct (_ || _); [done|]. destruct sig as [|b0 [|b1 p]]; [done..|].
  destruct (Z.eqb_spec b0 48) as [->|]; [|done]. destruct (Z.eqb_spec b1 (Z.of_nat (length (48 :: b1 :: p)) - 2)) as [He|]; [|done]. cbn [negb orb].
  apply Forall_cons in Hb as [_ [_ Hb]%Forall_cons]. destruct (sigPart p) as [[r' p1]|] eqn:E1; [|done]. destruct (sigPart p1) as [[s' p2]|] eqn:E2; [|done].
  destruct p2; [|done]. intros [= <- <-]. apply sigPart_spec in E1 as [M1 Hp]; [|done]. assert (Hb1 : Forall is_byte p1).
  { rewrite Hp in Hb. by apply Forall_cons in Hb as [_ [_ [_ ?]%Forall_app]%Forall_cons]. }
  apply sigPart_spec in E2 as [M2 Hp1]; [|done]. rewrite app_nil_r in Hp1. split; [done|]. split; [done|]. f_equal. by rewrite <-Hp1, <-Hp, <-He.
Qed.

(** The numbers R and S of a signature. *)
Definition sig_numbers (sig : list Z) : option (Z * Z) := '(r, s) ← sig_slices sig; Some (from_bytes r, from_bytes s).

Lemma sig_numbers_inj sig sig' RS : Forall is_byte sig -> Forall is_byte sig' -> sig_numbers sig = Some RS -> sig_numbers sig' = Some RS -> sig = sig'.
Proof.
  intros Hb Hb' ([r s] & H1 & [= <-])%bind_Some ([r' s'] & H2 & [= Hr Hs])%bind_Some.
  apply sig_slices_spec in H1 as (M1 & M2 & E1); [|done]. apply sig_slices_spec in H2 as (M1' & M2' & E2); [|done].
  apply minimal_inj in Hr as ->; [|done..]. apply minimal_inj in Hs as ->; [|done..].
  assert (length sig = length sig') by (rewrite E1, E2; cbn; rewrite !length_app; cbn; lia). rewrite E1, E2. congruence.
Qed.

Lemma fullyCanonical_low sig R S : sig_numbers sig = Some (R, S) -> ecdsaCanonicality sig = Some fullyCanonical -> 2 * S <= secp256k1_G.
Proof.
  unfold sig_numbers, ecdsaCanonicality. destruct (sig_slices sig) as [[r s]|]; [|done]. intros [= <- <-].
  destruct (_ <=? from_bytes r); [done|]. destruct (_ <=? from_bytes s); [done|]. destruct (Z.ltb_spec (secp256k1_G - from_bytes s) (from_bytes s)); [done|]. lia.
Qed.

(** C39. A fully canonical signature cannot be morphed. Whoever verifies it accepts the
    numbers (R, S) and (R, G - S) alike; of all strings of bytes that stand for either
    pair at most one is fully canonical. *)
Theorem fullyCanonical_unique sig sig' R S S' : Forall is_byte sig -> Forall is_byte sig' ->
  ecdsaCanonicality sig = Some fullyCanonical -> ecdsaCanonicality sig' = Some fullyCanonical ->
  sig_numbers sig = Some (R, S) -> sig_numbers sig' = Some (R, S') -> S' = S \/ S' = secp256k1_G - S -> sig = sig'.
Proof.
  intros Hb Hb' C1 C2 N1 N2 [->|HS]; [by eapply sig_numbers_inj|]. pose proof (fullyCanonical_low _ _ _ N1 C1). pose proof (fullyCanonical_low _ _ _ N2 C2).
  exfalso. assert (H1 : 2 * S = secp256k1_G) by lia. assert (Z.odd secp256k1_G = true) by reflexivity. apply (f_equal Z.odd) in H1. rewrite Z.odd_mul in H1. cbn in H1. congruence.
Qed.

Definition wsig : list Z := [48; 6; 2; 1; 7; 2; 1; 9].

Lemma fullyCanonical_unique_witness : wsig = wsig.
Proof.
  apply (fullyCanonical_unique wsig wsig 7 9 9); [repeat constructor; lia|repeat constructor; lia|reflexivity|reflexivity|reflexivity|reflexivity|by left].
Defined.

(** ** Ed25519: the second half is below the order *)

Lemma lexicographical_numeric a b : Forall is_byte a -> Forall is_byte b -> length a = length b -> lexicographical_compare a b = (from_bytes a <? from_bytes b).
Proof.
  revert b. induction a as [|x a IH]; intros [|y b]; try done. intros [Hx Ha]%Forall_cons [Hy Hb]%Forall_cons [= Hl]. cbn [lexicographical_compare]. rewrite !from_bytes_cons, Hl.
  assert (R1 := from_bytes_range a Ha). assert (R2 := from_bytes_range b Hb). rewrite Hl in R1. unfold is_byte in *. set (P := 256 ^ Z.of_nat (length b)) in *.
  destruct (Z.ltb_spec x y); [symmetry; apply Z.ltb_lt; nia|]. destruct (Z.ltb_spec y x); [symmetry; apply Z.ltb_ge; nia|]. rewrite IH by done.
  assert (x = y) as -> by lia. destruct (Z.ltb_spec (from_bytes a) (from_bytes b)); symmetry; [apply Z.ltb_lt|apply Z.ltb_ge]; lia.
Qed.

Lemma ed25519Canonical_spec sig : Forall is_byte sig ->
  ed25519Canonical sig = true <-> length sig = 64%nat /\ from_bytes (rev (drop 32 sig)) < 2 ^ 252 + 27742317777372353535851937790883648493.
Proof.
  intros Hb. unfold ed25519Canonical. destruct (Nat.eqb_spec (length sig) 64) as [Hl|Hl]; cbn [negb]; [|by split; [|intros [? _]]].
  rewrite lexicographical_numeric; [|apply Forall_rev; by apply Forall_drop|repeat constructor; unfold is_byte; lia|rewrite length_rev, length_drop, Hl; done].
  rewrite Z.ltb_lt. change (from_bytes ed25519_order) with (2 ^ 252 + 27742317777372353535851937790883648493). naive_solver.
Qed.
