(* ===== verification/SField.v ===== *)
(** * The field table

    Models protocol/SField.h and protocol/impl/SField.cpp: every field an object can
    have, with its type, its number, when it goes into metadata and whether it is
    signed; [field_code], [getField]; and the templates of the two inner objects with
    a fixed format (protocol/impl/InnerObjectFormats.cpp). *)

From S2P Require Import Prelude.

Inductive SerializedTypeID :=
| STI_NOTPRESENT
| STI_UINT16 | STI_UINT32 | STI_UINT64 | STI_HASH128 | STI_HASH256 | STI_AMOUNT | STI_VL | STI_ACCOUNT
| STI_OBJECT | STI_ARRAY
| STI_UINT8 | STI_HASH160 | STI_PATHSET | STI_VECTOR256
| STI_TRANSACTION | STI_LEDGERENTRY | STI_VALIDATION | STI_METADATA.

#[export] Instance SerializedTypeID_eq_dec : EqDecision SerializedTypeID.
Proof. solve_decision. Defined.

Definition sti_code (t : SerializedTypeID) : Z :=
  match t with
  | STI_NOTPRESENT => 0
  | STI_UINT16 => 1 | STI_UINT32 => 2 | STI_UINT64 => 3 | STI_HASH128 => 4 | STI_HASH256 => 5 | STI_AMOUNT => 6 | STI_VL => 7 | STI_ACCOUNT => 8
  | STI_OBJECT => 14 | STI_ARRAY => 15
  | STI_UINT8 => 16 | STI_HASH160 => 17 | STI_PATHSET => 18 | STI_VECTOR256 => 19
  | STI_TRANSACTION => 10001 | STI_LEDGERENTRY => 10002 | STI_VALIDATION => 10003 | STI_METADATA => 10004
  end.

Definition sMD_Never : Z := 0.
Definition sMD_ChangeOrig : Z := 1.
Definition sMD_ChangeNew : Z := 2.
Definition sMD_DeleteFinal : Z := 4.
Definition sMD_Create : Z := 8.
Definition sMD_Always : Z := 16.
Definition sMD_Default : Z := Z.lor (Z.lor (Z.lor sMD_ChangeOrig sMD_ChangeNew) sMD_DeleteFinal) sMD_Create.

Record SField := mkField {
  fieldType : SerializedTypeID;
  fieldValue : Z;
  fieldName : string;
  fieldMeta : Z;
  signingField : bool
}.

#[export] Instance SField_eq_dec : EqDecision SField.
Proof. solve_decision. Defined.

Definition field_code (id index : Z) : Z := Z.lor (Z.shiftl id 16) index.
Definition getCode (f : SField) : Z := field_code (sti_code (fieldType f)) (fieldValue f).

Definition isBinary (f : SField) : bool := fieldValue f <? 256.
Definition isDiscardable (f : SField) : bool := 256 <? fieldValue f.
Definition shouldMeta (c : Z) (f : SField) : bool := negb (Z.land (fieldMeta f) c =? 0).
Definition shouldInclude (withSigningField : bool) (f : SField) : bool :=
  (fieldValue f <? 256) && (withSigningField || signingField f).

(** Two fields are the same when their codes are. *)
Definition field_eq (f g : SField) : bool := getCode f =? getCode g.

(** [SField::compare]. *)
Definition compare (f1 f2 : SField) : Z :=
  if (getCode f1 <=? 0) || (getCode f2 <=? 0) then 0
  else if getCode f1 <? getCode f2 then -1
  else if getCode f2 <? getCode f1 then 1
  else 0.

(** ** The fields *)

Definition sfLedgerEntry : SField := mkField STI_LEDGERENTRY 257 "LedgerEntry" sMD_Default true.
Definition sfTransaction : SField := mkField STI_TRANSACTION 257 "Transaction" sMD_Default true.
Definition sfValidation : SField := mkField STI_VALIDATION 257 "Validation" sMD_Default true.
Definition sfMetadata : SField := mkField STI_METADATA 257 "Metadata" sMD_Default true.
Definition sfHash : SField := mkField STI_HASH256 257 "hash" sMD_Default true.
Definition sfIndex : SField := mkField STI_HASH256 258 "index" sMD_Default true.
Definition sfCloseResolution : SField := mkField STI_UINT8 1 "CloseResolution" sMD_Default true.
Definition sfMethod : SField := mkField STI_UINT8 2 "Method" sMD_Default true.
Definition sfTransactionResult : SField := mkField STI_UINT8 3 "TransactionResult" sMD_Default true.
Definition sfTickSize : SField := mkField STI_UINT8 16 "TickSize" sMD_Default true.
Definition sfLedgerEntryType : SField := mkField STI_UINT16 1 "LedgerEntryType" sMD_Never true.
Definition sfTransactionType : SField := mkField STI_UINT16 2 "TransactionType" sMD_Default true.
Definition sfSignerWeight : SField := mkField STI_UINT16 3 "SignerWeight" sMD_Default true.
Definition sfVersion : SField := mkField STI_UINT16 16 "Version" sMD_Default true.
Definition sfFlags : SField := mkField STI_UINT32 2 "Flags" sMD_Default true.
Definition sfSourceTag : SField := mkField STI_UINT32 3 "SourceTag" sMD_Default true.
Definition sfSequence : SField := mkField STI_UINT32 4 "Sequence" sMD_Default true.
Definition sfPreviousTxnLgrSeq : SField := mkField STI_UINT32 5 "PreviousTxnLgrSeq" sMD_DeleteFinal true.
Definition sfLedgerSequence : SField := mkField STI_UINT32 6 "LedgerSequence" sMD_Default true.
Definition sfCloseTime : SField := mkField STI_UINT32 7 "CloseTime" sMD_Default true.
Definition sfParentCloseTime : SField := mkField STI_UINT32 8 "ParentCloseTime" sMD_Default true.
Definition sfSigningTime : SField := mkField STI_UINT32 9 "SigningTime" sMD_Default true.
Definition sfExpiration : SField := mkField STI_UINT32 10 "Expiration" sMD_Default true.
Definition sfTransferRate : SField := mkField STI_UINT32 11 "TransferRate" sMD_Default true.
Definition sfWalletSize : SField := mkField STI_UINT32 12 "WalletSize" sMD_Default true.
Definition sfOwnerCount : SField := mkField STI_UINT32 13 "OwnerCount" sMD_Default true.
Definition sfDestinationTag : SField := mkField STI_UINT32 14 "DestinationTag" sMD_Default true.
Definition sfHighQualityIn : SField := mkField STI_UINT32 16 "HighQualityIn" sMD_Default true.
Definition sfHighQualityOut : SField := mkField STI_UINT32 17 "HighQualityOut" sMD_Default true.
Definition sfLowQualityIn : SField := mkField STI_UINT32 18 "LowQualityIn" sMD_Default true.
Definition sfLowQualityOut : SField := mkField STI_UINT32 19 "LowQualityOut" sMD_Default true.
Definition sfQualityIn : SField := mkField STI_UINT32 20 "QualityIn" sMD_Default true.
Definition sfQualityOut : SField := mkField STI_UINT32 21 "QualityOut" sMD_Default true.
Definition sfStampEscrow : SField := mkField STI_UINT32 22 "StampEscrow" sMD_Default true.
Definition sfBondAmount : SField := mkField STI_UINT32 23 "BondAmount" sMD_Default true.
Definition sfLoadFee : SField := mkField STI_UINT32 24 "LoadFee" sMD_Default true.
Definition sfOfferSequence : SField := mkField STI_UINT32 25 "OfferSequence" sMD_Default true.
Definition sfFirstLedgerSequence : SField := mkField STI_UINT32 26 "FirstLedgerSequence" sMD_Default true.
Definition sfLastLedgerSequence : SField := mkField STI_UINT32 27 "LastLedgerSequence" sMD_Default true.
Definition sfTransactionIndex : SField := mkField STI_UINT32 28 "TransactionIndex" sMD_Default true.
Definition sfOperationLimit : SField := mkField STI_UINT32 29 "OperationLimit" sMD_Default true.
Definition sfReferenceFeeUnits : SField := mkField STI_UINT32 30 "ReferenceFeeUnits" sMD_Default true.
Definition sfReserveBase : SField := mkField STI_UINT32 31 "ReserveBase" sMD_Default true.
Definition sfReserveIncrement : SField := mkField STI_UINT32 32 "ReserveIncrement" sMD_Default true.
Definition sfSetFlag : SField := mkField STI_UINT32 33 "SetFlag" sMD_Default true.
Definition sfClearFlag : SField := mkField STI_UINT32 34 "ClearFlag" sMD_Default true.
Definition sfSignerQuorum : SField := mkField STI_UINT32 35 "SignerQuorum" sMD_Default true.
Definition sfCancelAfter : SField := mkField STI_UINT32 36 "CancelAfter" sMD_Default true.
Definition sfFinishAfter : SField := mkField STI_UINT32 37 "FinishAfter" sMD_Default true.
Definition sfSignerListID : SField := mkField STI_UINT32 38 "SignerListID" sMD_Default true.
Definition sfSettleDelay : SField := mkField STI_UINT32 39 "SettleDelay" sMD_Default true.
Definition sfIndexNext : SField := mkField STI_UINT64 1 "IndexNext" sMD_Default true.
Definition sfIndexPrevious : SField := mkField STI_UINT64 2 "IndexPrevious" sMD_Default true.
Definition sfBookNode : SField := mkField STI_UINT64 3 "BookNode" sMD_Default true.
Definition sfOwnerNode : SField := mkField STI_UINT64 4 "OwnerNode" sMD_Default true.
Definition sfBaseFee : SField := mkField STI_UINT64 5 "BaseFee" sMD_Default true.
Definition sfExchangeRate : SField := mkField STI_UINT64 6 "ExchangeRate" sMD_Default true.
Definition sfLowNode : SField := mkField STI_UINT64 7 "LowNode" sMD_Default true.
Definition sfHighNode : SField := mkField STI_UINT64 8 "HighNode" sMD_Default true.
Definition sfDestinationNode : SField := mkField STI_UINT64 9 "DestinationNode" sMD_Default true.
Definition sfCookie : SField := mkField STI_UINT64 10 "Cookie" sMD_Default true.
Definition sfEmailHash : SField := mkField STI_HASH128 1 "EmailHash" sMD_Default true.
Definition sfTakerPaysCurrency : SField := mkField STI_HASH160 1 "TakerPaysCurrency" sMD_Default true.
Definition sfTakerPaysIssuer : SField := mkField STI_HASH160 2 "TakerPaysIssuer" sMD_Default true.
Definition sfTakerGetsCurrency : SField := mkField STI_HASH160 3 "TakerGetsCurrency" sMD_Default true.
Definition sfTakerGetsIssuer : SField := mkField STI_HASH160 4 "TakerGetsIssuer" sMD_Default true.
Definition sfLedgerHash : SField := mkField STI_HASH256 1 "LedgerHash" sMD_Default true.
Definition sfParentHash : SField := mkField STI_HASH256 2 "ParentHash" sMD_Default true.
Definition sfTransactionHash : SField := mkField STI_HASH256 3 "TransactionHash" sMD_Default true.
Definition sfAccountHash : SField := mkField STI_HASH256 4 "AccountHash" sMD_Default true.
Definition sfPreviousTxnID : SField := mkField STI_HASH256 5 "PreviousTxnID" sMD_DeleteFinal true.
Definition sfLedgerIndex : SField := mkField STI_HASH256 6 "LedgerIndex" sMD_Default true.
Definition sfWalletLocator : SField := mkField STI_HASH256 7 "WalletLocator" sMD_Default true.
Definition sfRootIndex : SField := mkField STI_HASH256 8 "RootIndex" sMD_Always true.
Definition sfAccountTxnID : SField := mkField STI_HASH256 9 "AccountTxnID" sMD_Default true.
Definition sfBookDirectory : SField := mkField STI_HASH256 16 "BookDirectory" sMD_Default true.
Definition sfInvoiceID : SField := mkField STI_HASH256 17 "InvoiceID" sMD_Default true.
Definition sfNickname : SField := mkField STI_HASH256 18 "Nickname" sMD_Default true.
Definition sfAmendment : SField := mkField STI_HASH256 19 "Amendment" sMD_Default true.
Definition sfTicketID : SField := mkField STI_HASH256 20 "TicketID" sMD_Default true.
Definition sfDigest : SField := mkField STI_HASH256 21 "Digest" sMD_Default true.
Definition sfPayChannel : SField := mkField STI_HASH256 22 "Channel" sMD_Default true.
Definition sfConsensusHash : SField := mkField STI_HASH256 23 "ConsensusHash" sMD_Default true.
Definition sfCheckID : SField := mkField STI_HASH256 24 "CheckID" sMD_Default true.
Definition sfAmount : SField := mkField STI_AMOUNT 1 "Amount" sMD_Default true.
Definition sfBalance : SField := mkField STI_AMOUNT 2 "Balance" sMD_Default true.
Definition sfLimitAmount : SField := mkField STI_AMOUNT 3 "LimitAmount" sMD_Default true.
Definition sfTakerPays : SField := mkField STI_AMOUNT 4 "TakerPays" sMD_Default true.
Definition sfTakerGets : SField := mkField STI_AMOUNT 5 "TakerGets" sMD_Default true.
Definition sfLowLimit : SField := mkField STI_AMOUNT 6 "LowLimit" sMD_Default true.
Definition sfHighLimit : SField := mkField STI_AMOUNT 7 "HighLimit" sMD_Default true.
Definition sfFee : SField := mkField STI_AMOUNT 8 "Fee" sMD_Default true.
Definition sfSendMax : SField := mkField STI_AMOUNT 9 "SendMax" sMD_Default true.
Definition sfDeliverMin : SField := mkField STI_AMOUNT 10 "DeliverMin" sMD_Default true.
Definition sfMinimumOffer : SField := mkField STI_AMOUNT 16 "MinimumOffer" sMD_Default true.
Definition sfSupplyFinanceChainEscrow : SField := mkField STI_AMOUNT 17 "SupplyFinanceChainEscrow" sMD_Default true.
Definition sfDeliveredAmount : SField := mkField STI_AMOUNT 18 "DeliveredAmount" sMD_Default true.
Definition sfPublicKey : SField := mkField STI_VL 1 "PublicKey" sMD_Default true.
Definition sfMessageKey : SField := mkField STI_VL 2 "MessageKey" sMD_Default true.
Definition sfSigningPubKey : SField := mkField STI_VL 3 "SigningPubKey" sMD_Default true.
Definition sfTxnSignature : SField := mkField STI_VL 4 "TxnSignature" sMD_Default false.
Definition sfSignature : SField := mkField STI_VL 6 "Signature" sMD_Default false.
Definition sfDomain : SField := mkField STI_VL 7 "Domain" sMD_Default true.
Definition sfFundCode : SField := mkField STI_VL 8 "FundCode" sMD_Default true.
Definition sfRemoveCode : SField := mkField STI_VL 9 "RemoveCode" sMD_Default true.
Definition sfExpireCode : SField := mkField STI_VL 10 "ExpireCode" sMD_Default true.
Definition sfCreateCode : SField := mkField STI_VL 11 "CreateCode" sMD_Default true.
Definition sfMemoType : SField := mkField STI_VL 12 "MemoType" sMD_Default true.
Definition sfMemoData : SField := mkField STI_VL 13 "MemoData" sMD_Default true.
Definition sfMemoFormat : SField := mkField STI_VL 14 "MemoFormat" sMD_Default true.
Definition sfFulfillment : SField := mkField STI_VL 16 "Fulfillment" sMD_Default true.
Definition sfCondition : SField := mkField STI_VL 17 "Condition" sMD_Default true.
Definition sfMasterSignature : SField := mkField STI_VL 18 "MasterSignature" sMD_Default false.
Definition sfAccount : SField := mkField STI_ACCOUNT 1 "Account" sMD_Default true.
Definition sfOwner : SField := mkField STI_ACCOUNT 2 "Owner" sMD_Default true.
Definition sfDestination : SField := mkField STI_ACCOUNT 3 "Destination" sMD_Default true.
Definition sfIssuer : SField := mkField STI_ACCOUNT 4 "Issuer" sMD_Default true.
Definition sfAuthorize : SField := mkField STI_ACCOUNT 5 "Authorize" sMD_Default true.
Definition sfUnauthorize : SField := mkField STI_ACCOUNT 6 "Unauthorize" sMD_Default true.
Definition sfTarget : SField := mkField STI_ACCOUNT 7 "Target" sMD_Default true.
Definition sfRegularKey : SField := mkField STI_ACCOUNT 8 "RegularKey" sMD_Default true.
Definition sfPaths : SField := mkField STI_PATHSET 1 "Paths" sMD_Default true.
Definition sfIndexes : SField := mkField STI_VECTOR256 1 "Indexes" sMD_Never true.
Definition sfHashes : SField := mkField STI_VECTOR256 2 "Hashes" sMD_Default true.
Definition sfAmendments : SField := mkField STI_VECTOR256 3 "Amendments" sMD_Default true.
Definition sfTransactionMetaData : SField := mkField STI_OBJECT 2 "TransactionMetaData" sMD_Default true.
Definition sfCreatedNode : SField := mkField STI_OBJECT 3 "CreatedNode" sMD_Default true.
Definition sfDeletedNode : SField := mkField STI_OBJECT 4 "DeletedNode" sMD_Default true.
Definition sfModifiedNode : SField := mkField STI_OBJECT 5 "ModifiedNode" sMD_Default true.
Definition sfPreviousFields : SField := mkField STI_OBJECT 6 "PreviousFields" sMD_Default true.
Definition sfFinalFields : SField := mkField STI_OBJECT 7 "FinalFields" sMD_Default true.
Definition sfNewFields : SField := mkField STI_OBJECT 8 "NewFields" sMD_Default true.
Definition sfTemplateEntry : SField := mkField STI_OBJECT 9 "TemplateEntry" sMD_Default true.
Definition sfMemo : SField := mkField STI_OBJECT 10 "Memo" sMD_Default true.
Definition sfSignerEntry : SField := mkField STI_OBJECT 11 "SignerEntry" sMD_Default true.
Definition sfSigner : SField := mkField STI_OBJECT 16 "Signer" sMD_Default true.
Definition sfMajority : SField := mkField STI_OBJECT 18 "Majority" sMD_Default true.
Definition sfSigners : SField := mkField STI_ARRAY 3 "Signers" sMD_Default false.
Definition sfSignerEntries : SField := mkField STI_ARRAY 4 "SignerEntries" sMD_Default true.
Definition sfTemplate : SField := mkField STI_ARRAY 5 "Template" sMD_Default true.
Definition sfNecessary : SField := mkField STI_ARRAY 6 "Necessary" sMD_Default true.
Definition sfSufficient : SField := mkField STI_ARRAY 7 "Sufficient" sMD_Default true.
Definition sfAffectedNodes : SField := mkField STI_ARRAY 8 "AffectedNodes" sMD_Default true.
Definition sfMemos : SField := mkField STI_ARRAY 9 "Memos" sMD_Default true.
Definition sfMajorities : SField := mkField STI_ARRAY 16 "Majorities" sMD_Default true.

(** [knownCodeToField], in the order of construction. *)
Definition known_fields : list SField :=
  [ sfLedgerEntry; sfTransaction; sfValidation; sfMetadata; sfHash; sfIndex; sfCloseResolution; sfMethod; sfTransactionResult; sfTickSize;
    sfLedgerEntryType; sfTransactionType; sfSignerWeight; sfVersion; sfFlags; sfSourceTag; sfSequence; sfPreviousTxnLgrSeq; sfLedgerSequence;
    sfCloseTime; sfParentCloseTime; sfSigningTime; sfExpiration; sfTransferRate; sfWalletSize; sfOwnerCount; sfDestinationTag; sfHighQualityIn;
    sfHighQualityOut; sfLowQualityIn; sfLowQualityOut; sfQualityIn; sfQualityOut; sfStampEscrow; sfBondAmount; sfLoadFee; sfOfferSequence;
    sfFirstLedgerSequence; sfLastLedgerSequence; sfTransactionIndex; sfOperationLimit; sfReferenceFeeUnits; sfReserveBase; sfReserveIncrement;
    sfSetFlag; sfClearFlag; sfSignerQuorum; sfCancelAfter; sfFinishAfter; sfSignerListID; sfSettleDelay; sfIndexNext; sfIndexPrevious; sfBookNode;
    sfOwnerNode; sfBaseFee; sfExchangeRate; sfLowNode; sfHighNode; sfDestinationNode; sfCookie; sfEmailHash; sfTakerPaysCurrency; sfTakerPaysIssuer;
    sfTakerGetsCurrency; sfTakerGetsIssuer; sfLedgerHash; sfParentHash; sfTransactionHash; sfAccountHash; sfPreviousTxnID; sfLedgerIndex;
    sfWalletLocator; sfRootIndex; sfAccountTxnID; sfBookDirectory; sfInvoiceID; sfNickname; sfAmendment; sfTicketID; sfDigest; sfPayChannel;
    sfConsensusHash; sfCheckID; sfAmount; sfBalance; sfLimitAmount; sfTakerPays; sfTakerGets; sfLowLimit; sfHighLimit; sfFee; sfSendMax;
    sfDeliverMin; sfMinimumOffer; sfSupplyFinanceChainEscrow; sfDeliveredAmount; sfPublicKey; sfMessageKey; sfSigningPubKey; sfTxnSignature;
    sfSignature; sfDomain; sfFundCode; sfRemoveCode; sfExpireCode; sfCreateCode; sfMemoType; sfMemoData; sfMemoFormat; sfFulfillment; sfCondition;
    sfMasterSignature; sfAccount; sfOwner; sfDestination; sfIssuer; sfAuthorize; sfUnauthorize; sfTarget; sfRegularKey; sfPaths; sfIndexes; sfHashes;
    sfAmendments; sfTransactionMetaData; sfCreatedNode; sfDeletedNode; sfModifiedNode; sfPreviousFields; sfFinalFields; sfNewFields; sfTemplateEntry;
    sfMemo; sfSignerEntry; sfSigner; sfMajority; sfSigners; sfSignerEntries; sfTemplate; sfNecessary; sfSufficient; sfAffectedNodes; sfMemos;
    sfMajorities ].

(** [None] stands for [sfInvalid]. *)
Definition getField (type value : Z) : option SField :=
  find (fun f => getCode f =? field_code type value) known_fields.

Definition getFieldByName (name : string) : option SField := find (fun f => String.eqb (fieldName f) name) known_fields.

(** ** Templates *)

Inductive SOEStyle := soeREQUIRED | soeOPTIONAL | soeDEFAULT.

Definition SOTemplate : Type := list (SField * SOEStyle).

Definition signer_entry_template : SOTemplate := [(sfAccount, soeREQUIRED); (sfSignerWeight, soeREQUIRED)].
Definition signer_template : SOTemplate := [(sfAccount, soeREQUIRED); (sfSigningPubKey, soeREQUIRED); (sfTxnSignature, soeREQUIRED)].

Definition findSOTemplateBySField (f : SField) : option SOTemplate :=
  if getCode f =? getCode sfSignerEntry then Some signer_entry_template
  else if getCode f =? getCode sfSigner then Some signer_template
  else None.
