(* ===== verification/STObject.v ===== *)
(** * Serialized objects

    Models the typed values of an [STObject] (protocol/impl/STVar.cpp, STInteger,
    STBitString.h, STBlob, STAccount, STVector256, STPathSet, STArray, and the wire
    form of STAmount), their serialization in the order of the field codes, and the
    recursive deserializer with its nesting limit, its templates for inner objects
    and its check for duplicates. *)

From stdpp Require Import sorting.
From S2P Require Import Prelude IOUAmount STAmount Serializer SField.

(** ** Values *)

Record STPathElement := mkElem { mType : Z; mAccountID : Z; mCurrencyID : Z; mIssuerID : Z }.

#[export] Instance STPathElement_eq_dec : EqDecision STPathElement.
Proof. solve_decision. Defined.

Inductive STValue :=
| V_NotPresent
| V_UInt8 (v : Z)
| V_UInt16 (v : Z)
| V_UInt32 (v : Z)
| V_UInt64 (v : Z)
| V_Hash128 (v : Z)
| V_Hash160 (v : Z)
| V_Hash256 (v : Z)
| V_Amount (a : STAmount)
| V_VL (b : list Z)
| V_Account (isDefault : bool) (v : Z)
| V_PathSet (paths : list (list STPathElement))
| V_Vector256 (vs : list Z)
| V_Object (fields : list (SField * STValue))
| V_Array (objects : list (SField * list (SField * STValue))).

Abbreviation Fields := (list (SField * STValue)).

Definition getSType (v : STValue) : SerializedTypeID :=
  match v with
  | V_NotPresent => STI_NOTPRESENT
  | V_UInt8 _ => STI_UINT8 | V_UInt16 _ => STI_UINT16 | V_UInt32 _ => STI_UINT32 | V_UInt64 _ => STI_UINT64
  | V_Hash128 _ => STI_HASH128 | V_Hash160 _ => STI_HASH160 | V_Hash256 _ => STI_HASH256
  | V_Amount _ => STI_AMOUNT | V_VL _ => STI_VL | V_Account _ _ => STI_ACCOUNT
  | V_PathSet _ => STI_PATHSET | V_Vector256 _ => STI_VECTOR256
  | V_Object _ => STI_OBJECT | V_Array _ => STI_ARRAY
  end.

Definition isPresent (v : STValue) : bool := match v with V_NotPresent => false | _ => true end.

(** ** Amounts *)

Definition cNotNative : Z := 2 ^ 63.
Definition cPosNative : Z := 2 ^ 62.

Definition add_amount (a : STAmount) (s : list Z) : list Z :=
  if mIsNative a then
    if negb (mIsNegative a) then add64 (Z.lor (mValue a) cPosNative) s else add64 (mValue a) s
  else
    let s :=
      if is_zero a then add64 cNotNative s
      else if mIsNegative a then add64 (Z.lor (mValue a) (Z.shiftl (u64 (mOffset a + 512 + 97)) (64 - 10) mod 2 ^ 64)) s
      else add64 (Z.lor (mValue a) (Z.shiftl (u64 (mOffset a + 512 + 256 + 97)) (64 - 10) mod 2 ^ 64)) s in
    add160 (account (mIssue a)) (add160 (currency (mIssue a)) s).

Definition parse_amount : parser STAmount :=
  value ← get64;
  if Z.land value cNotNative =? 0 then
    if negb (Z.land value cPosNative =? 0) then mret (mkSTAmount sfcIssue (Z.land value (Z.lnot cPosNative)) 0 true false)
    else if value =? 0 then raise (runtime_error "negative zero is not canonical")
    else mret (mkSTAmount sfcIssue value 0 true true)
  else
    c ← getBitString 160;
    if isSFC c then raise (runtime_error "invalid native currency") else
    i ← getBitString 160;
    if isSFC i then raise (runtime_error "invalid native account") else
    let offset := Z.shiftr value (64 - 10) in
    let value := Z.land value (Z.lnot (Z.shiftl 1023 (64 - 10))) in
    if negb (value =? 0) then
      let isNegative := Z.land offset 256 =? 0 in
      let offset := Z.land offset 255 - 97 in
      if (value <? cMinValue) || (cMaxValue <? value) || (offset <? cMinOffset) || (cMaxOffset <? offset)
      then raise (runtime_error "invalid currency value")
      else lift (canonicalize (mkSTAmount (mkIssue c i) value offset false isNegative))
    else if negb (offset =? 512) then raise (runtime_error "invalid currency value")
    else lift (canonicalize (mkSTAmount (mkIssue c i) 0 0 false false)).

(** ** Path sets *)

Definition typeNone : Z := 0.
Definition typeAccount : Z := 1.
Definition typeCurrency : Z := 16.
Definition typeIssuer : Z := 32.
Definition typeBoundary : Z := 255.
Definition typeAll : Z := Z.lor (Z.lor typeAccount typeCurrency) typeIssuer.

Definition has (t iType : Z) : bool := negb (Z.land iType t =? 0).

(** [STPathElement (account, currency, issuer, forceCurrency)]. *)
Definition path_element (account currency issuer : Z) (forceCurrency : bool) : STPathElement :=
  let t := if isSFC account then typeNone else typeAccount in
  let t := if forceCurrency || negb (isSFC currency) then Z.lor t typeCurrency else t in
  let t := if isSFC issuer then t else Z.lor t typeIssuer in
  mkElem t account currency issuer.

Definition add_element (e : STPathElement) (s : list Z) : list Z :=
  let s := add8 (mType e) s in
  let s := if has typeAccount (mType e) then add160 (mAccountID e) s else s in
  let s := if has typeCurrency (mType e) then add160 (mCurrencyID e) s else s in
  if has typeIssuer (mType e) then add160 (mIssuerID e) s else s.

Definition add_path (first : bool) (path : list STPathElement) (s : list Z) : list Z :=
  let s := if first then s else add8 typeBoundary s in
  foldl (fun s e => add_element e s) s path.

Definition add_pathset (paths : list (list STPathElement)) (s : list Z) : list Z :=
  let '(s, _) := foldl (fun '(s, first) path => (add_path first path s, false)) (s, true) paths in
  add8 typeNone s.

(** Loops of the deserializer run out of fuel with this; it cannot happen. *)
Definition out_of_fuel : exn := logic_error "out of fuel".

Fixpoint pathset_loop (fuel : nat) (paths : list (list STPathElement)) (path : list STPathElement) : parser (list (list STPathElement)) :=
  match fuel with
  | O => raise out_of_fuel
  | S fuel =>
      iType ← get8;
      if (iType =? typeNone) || (iType =? typeBoundary) then
        match path with
        | [] => raise (runtime_error "empty path")
        | _ =>
            let paths := paths ++ [path] in
            if iType =? typeNone then mret paths else pathset_loop fuel paths []
        end
      else if negb (Z.land iType (Z.lnot typeAll) =? 0) then raise (runtime_error "bad path element")
      else
        account ← (if has typeAccount iType then getBitString 160 else mret 0);
        currency ← (if has typeCurrency iType then getBitString 160 else mret 0);
        issuer ← (if has typeIssuer iType then getBitString 160 else mret 0);
        pathset_loop fuel paths (path ++ [path_element account currency issuer (has typeCurrency iType)])
  end.

Definition parse_pathset : parser (list (list STPathElement)) :=
  fun sit => pathset_loop (S (getBytesLeft sit)) [] [] sit.

(** ** Accounts and vectors *)

Definition add_account (isDefault : bool) (v : Z) (s : list Z) : res (list Z) :=
  addVL (if isDefault then [] else big_endian 20 v) s.

Definition parse_account : parser STValue :=
  v ← getVLBuffer;
  match v with
  | [] => mret (V_Account true 0)
  | _ => if negb (length v =? 20)%nat then raise (runtime_error "Invalid STAccount size") else mret (V_Account false (from_bytes v))
  end.

Definition add_vector256 (vs : list Z) (s : list Z) : res (list Z) :=
  s ← addEncoded (Z.of_nat (length vs * 32)) s; Ok (foldl (fun s v => add256 v s) s vs).

(** [count] full groups of 32 bytes; what is left over is dropped. *)
Fixpoint hashes_of (count : nat) (data : list Z) : list Z :=
  match count with O => [] | S n => from_bytes (take 32 data) :: hashes_of n (drop 32 data) end.

Definition parse_vector256 : parser (list Z) := data ← getVL; mret (hashes_of (length data / 32) data).

(** ** Serialization of objects *)

Section Sort.
Context {A : Type} (key : A -> Z).

Fixpoint insert_by (x : A) (l : list A) : list A :=
  match l with [] => [x] | y :: l' => if key x <=? key y then x :: l else y :: insert_by x l' end.

(** [std::sort] by a key. It need not be stable, which matters for equal keys only. *)
Definition sort_by (l : list A) : list A := foldr insert_by [] l.
End Sort.

Definition mapR {A B} (f : A -> res B) : list A -> res (list B) :=
  fix go l := match l with [] => Ok [] | a :: l => b ← f a; bs ← go l; Ok (b :: bs) end.

(** A field with its serialized value. *)
Definition encoding : Type := SField * SerializedTypeID * list Z.

Definition terminator (t : SerializedTypeID) : list Z :=
  match t with STI_ARRAY | STI_OBJECT => addFieldID (sti_code t) 1 [] | _ => [] end.

Definition emit (e : encoding) : list Z :=
  let '(f, t, bs) := e in addFieldID (sti_code (fieldType f)) (fieldValue f) [] ++ bs ++ terminator t.

Definition emit_sorted (es : list (option encoding)) : list Z :=
  concat (map emit (sort_by (fun e : encoding => getCode e.1.1) (omap id es))).

(** A field of an object that is present and included. *)
Definition encode_with (add : STValue -> res (list Z)) (whichFields : bool) (fv : SField * STValue) : res (option encoding) :=
  let (f, v) := fv in
  if isPresent v && shouldInclude whichFields f then (bs ← add v; Ok (Some (f, getSType v, bs))) else Ok None.

(** [STBase::add] of each kind of value; [STObject::add] sorts the fields that are
    present and included by their codes. *)
Fixpoint add_value (v : STValue) : res (list Z) :=
  match v with
  | V_NotPresent => Ok []
  | V_UInt8 v => Ok (add8 v [])
  | V_UInt16 v => Ok (add16 v [])
  | V_UInt32 v => Ok (add32 v [])
  | V_UInt64 v => Ok (add64 v [])
  | V_Hash128 v => Ok (add128 v [])
  | V_Hash160 v => Ok (add160 v [])
  | V_Hash256 v => Ok (add256 v [])
  | V_Amount a => Ok (add_amount a [])
  | V_VL b => addVL b []
  | V_Account d v => add_account d v []
  | V_PathSet paths => Ok (add_pathset paths [])
  | V_Vector256 vs => add_vector256 vs []
  | V_Object fields => es ← mapR (encode_with add_value true) fields; Ok (emit_sorted es)
  | V_Array objects =>
      bss ← mapR (fun fo : SField * Fields =>
        let (f, fields) := fo in
        es ← mapR (encode_with add_value true) fields;
        Ok (addFieldID (sti_code (fieldType f)) (fieldValue f) [] ++ emit_sorted es ++ addFieldID (sti_code STI_OBJECT) 1 [])) objects;
      Ok (concat bss)
  end.

Definition encode : bool -> SField * STValue -> res (option encoding) := encode_with add_value.

(** [STObject::add (s, whichFields)]. *)
Definition add_object (whichFields : bool) (fields : Fields) : res (list Z) :=
  es ← mapR (encode whichFields) fields; Ok (emit_sorted es).

Definition getHash (sha512Half : list Z -> Z) (prefix : Z) (fields : Fields) : res Z :=
  bs ← add_object true fields; Ok (sha512Half (add32 prefix [] ++ bs)).

Definition getSigningHash (sha512Half : list Z -> Z) (prefix : Z) (fields : Fields) : res Z :=
  bs ← add_object false fields; Ok (sha512Half (add32 prefix [] ++ bs)).

(** ** Templates *)

Definition isDefault (v : STValue) : bool :=
  match v with
  | V_NotPresent => true
  | V_UInt8 v | V_UInt16 v | V_UInt32 v | V_UInt64 v | V_Hash128 v | V_Hash160 v | V_Hash256 v => v =? 0
  | V_Amount a => (mValue a =? 0) && mIsNative a
  | V_VL b => match b with [] => true | _ => false end
  | V_Account d _ => d
  | V_PathSet l => match l with [] => true | _ => false end
  | V_Vector256 l => match l with [] => true | _ => false end
  | V_Object l => match l with [] => true | _ => false end
  | V_Array l => match l with [] => true | _ => false end
  end.

(** The first field with a code, and the rest. *)
Fixpoint take_field (f : SField) (fields : Fields) : option ((SField * STValue) * Fields) :=
  match fields with
  | [] => None
  | (g, v) :: fields =>
      if field_eq g f then Some ((g, v), fields) else '(x, rest) ← take_field f fields; Some (x, (g, v) :: rest)
  end.

Fixpoint template_loop (type : SOTemplate) (fields v : Fields) : res (Fields * Fields) :=
  match type with
  | [] => Ok (fields, v)
  | (f, style) :: type =>
      match take_field f fields with
      | Some (x, rest) =>
          if match style with soeDEFAULT => isDefault x.2 | _ => false end
          then Throw (runtime_error "may not be explicitly set to default.")
          else template_loop type rest (v ++ [x])
      | None =>
          match style with
          | soeREQUIRED => Throw (runtime_error "is required but missing.")
          | _ => template_loop type fields (v ++ [(f, V_NotPresent)])
          end
      end
  end.

Definition applyTemplate (type : SOTemplate) (fields : Fields) : res Fields :=
  '(rest, v) ← template_loop type fields [];
  if forallb (fun fv : SField * STValue => isDiscardable fv.1) rest then Ok v else Throw (runtime_error "found in disallowed location.").

Definition applyTemplateFromSField (f : SField) (fields : Fields) : res Fields :=
  match findSOTemplateBySField f with Some t => applyTemplate t fields | None => Ok fields end.

(** ** Deserialization *)

Definition getSortedFields (whichFields : bool) (fields : Fields) : Fields :=
  sort_by (fun fv : SField * STValue => getCode fv.1)
    (List.filter (fun fv : SField * STValue => isPresent fv.2 && shouldInclude whichFields fv.1) fields).

Fixpoint adjacent_dup (fields : Fields) : bool :=
  match fields with
  | x :: rest => match rest with y :: _ => field_eq x.1 y.1 || adjacent_dup rest | [] => false end
  | [] => false
  end.

Definition check_duplicates (fields : Fields) : res Fields :=
  if adjacent_dup (getSortedFields true fields) then Throw (runtime_error "Duplicate field detected") else Ok fields.

(** [STVar (sit, name, depth)]; [object] and [array] deserialize those. *)
Definition parse_var (object : nat -> parser Fields) (array : nat -> parser (list (SField * Fields))) (name : SField) (depth : nat) : parser STValue :=
  if (10 <? depth)%nat then raise (runtime_error "Maximum nesting depth of STVar exceeded") else
  match fieldType name with
  | STI_NOTPRESENT => mret V_NotPresent
  | STI_UINT8 => v ← get8; mret (V_UInt8 v)
  | STI_UINT16 => v ← get16; mret (V_UInt16 v)
  | STI_UINT32 => v ← get32; mret (V_UInt32 v)
  | STI_UINT64 => v ← get64; mret (V_UInt64 v)
  | STI_AMOUNT => v ← parse_amount; mret (V_Amount v)
  | STI_HASH128 => v ← getBitString 128; mret (V_Hash128 v)
  | STI_HASH160 => v ← getBitString 160; mret (V_Hash160 v)
  | STI_HASH256 => v ← getBitString 256; mret (V_Hash256 v)
  | STI_VECTOR256 => v ← parse_vector256; mret (V_Vector256 v)
  | STI_VL => v ← getVLBuffer; mret (V_VL v)
  | STI_ACCOUNT => parse_account
  | STI_PATHSET => v ← parse_pathset; mret (V_PathSet v)
  | STI_OBJECT => v ← object depth; mret (V_Object v)
  | STI_ARRAY => v ← array depth; mret (V_Array v)
  | _ => raise (runtime_error "Unknown object type")
  end.

(** [STObject (sit, name, depth)], given the loop of [STObject::set]. *)
Definition object_of (set_loop : nat -> Fields -> parser (Fields * bool)) (depth : nat) : parser Fields :=
  if (10 <? depth)%nat then raise (runtime_error "Maximum nesting depth of STObject exceeded") else
  '(fields, _) ← set_loop depth []; lift (check_duplicates fields).

Definition apply_inner (fn : SField) (v : STValue) : res STValue :=
  match v with V_Object fields => fields ← applyTemplateFromSField fn fields; Ok (V_Object fields) | _ => Ok v end.

Definition is_marker (t : SerializedTypeID) (type field : Z) : bool := (type =? sti_code t) && (field =? 1).

Fixpoint set_loop (fuel : nat) (depth : nat) (fields : Fields) : parser (Fields * bool) :=
  match fuel with
  | O => raise out_of_fuel
  | S fuel => fun sit =>
      if iter_empty sit then Ok ((fields, false), sit) else
      ('(type, field) ← getFieldID;
       if is_marker STI_OBJECT type field then mret (fields, true) else
       if is_marker STI_ARRAY type field then raise (runtime_error "Illegal end-of-array marker in object") else
       match getField type field with
       | None => raise (runtime_error "Unknown field")
       | Some fn =>
           v ← parse_var (object_of (set_loop fuel)) (fun depth => array_loop fuel depth []) fn (depth + 1);
           v ← lift (apply_inner fn v);
           set_loop fuel depth (fields ++ [(fn, v)])
       end) sit
  end
with array_loop (fuel : nat) (depth : nat) (objects : list (SField * Fields)) : parser (list (SField * Fields)) :=
  match fuel with
  | O => raise out_of_fuel
  | S fuel => fun sit =>
      if iter_empty sit then Ok (objects, sit) else
      ('(type, field) ← getFieldID;
       if is_marker STI_ARRAY type field then mret objects else
       if is_marker STI_OBJECT type field then raise (runtime_error "Illegal terminator in array") else
       match getField type field with
       | None => raise (runtime_error "Unknown field")
       | Some fn =>
           if negb (bool_decide (fieldType fn = STI_OBJECT)) then raise (runtime_error "Non-object in array") else
           o ← object_of (set_loop fuel) (depth + 1);
           o ← lift (applyTemplateFromSField fn o);
           array_loop fuel depth (objects ++ [(fn, o)])
       end) sit
  end.

(** [STObject (sit, name)] on a whole buffer; every pass of a loop takes a byte. *)
Definition parse_object : parser Fields := fun sit => object_of (set_loop (S (getBytesLeft sit))) 0 sit.
