(* ===== verification/STWire.v ===== *)
(** * The values of an object, read back

    For each kind of value that is not an object (STObject.v): what its [add] writes,
    and that its constructor from bytes reads exactly that. *)

From stdpp Require Import sorting.
From S2P Require Import Prelude IOUAmount STAmount Serializer SField STObject.

(** ** Amounts on the wire *)

Lemma land_bit a b k : 0 <= k -> 0 <= b < 2 ^ k -> (Z.land (a * 2 ^ k + b) (2 ^ k) =? 0) = Z.even a.
Proof.
  intros Hk Hb. assert (Ht : Z.testbit (a * 2 ^ k + b) k = Z.odd a).
  { rewrite Z.testbit_odd, shiftr_high by done. done. }
  rewrite <-Z.negb_odd, <-Ht. destruct (Z.testbit (a * 2 ^ k + b) k) eqn:E.
  - apply Z.eqb_neq. intros H. assert (Z.testbit (Z.land (a * 2 ^ k + b) (2 ^ k)) k = false) as Hf by (by rewrite H, Z.bits_0).
    rewrite Z.land_spec, E, Z.pow2_bits_true in Hf by lia. done.
  - apply Z.eqb_eq. apply Z.bits_inj'. intros i Hi. rewrite Z.land_spec, Z.bits_0. destruct (decide (i = k)) as [->|]; [by rewrite E|].
    rewrite Z.pow2_bits_false by done. apply andb_false_r.
Qed.

Lemma land_clear a b n w : 0 <= n -> 0 <= w -> 0 <= a < 2 ^ w -> 0 <= b < 2 ^ n -> Z.land (a * 2 ^ n + b) (Z.lnot (Z.shiftl (Z.ones w) n)) = b.
Proof.
  intros Hn Hw Ha Hb. apply Z.bits_inj'. intros i Hi. rewrite Z.land_spec, Z.lnot_spec, Z.shiftl_spec by done.
  destruct (Z.lt_ge_cases i n) as [Hin|Hin].
  - rewrite (Z.testbit_neg_r _ (i - n)) by lia. rewrite <-(lor_shift_low a b n), Z.lor_spec, Z.mul_pow2_bits_low by done. apply andb_true_r.
  - assert (Z.testbit b i = false) as ->. { rewrite <-(Z.mod_small b (2 ^ n)) by done. apply Z.mod_pow2_bits_high. lia. }
    destruct (Z.lt_ge_cases (i - n) w) as [Hiw|Hiw]; [by rewrite Z.ones_spec_low, andb_false_r by lia|].
    rewrite Z.ones_spec_high, andb_true_r by lia. rewrite <-(Z.mod_small (a * 2 ^ n + b) (2 ^ (n + w))); [apply Z.mod_pow2_bits_high; lia|].
    rewrite Z.pow_add_r by lia. nia.
Qed.

Lemma land_low_bits a b n : 0 <= n -> 0 <= b < 2 ^ n -> Z.land (a * 2 ^ n + b) (Z.ones n) = b.
Proof. intros. rewrite Z.land_ones, Z.add_comm, Z_mod_plus_full by lia. by apply Z.mod_small. Qed.

(** What can be written and read back. *)
Definition wire_amount (a : STAmount) : Prop :=
  if mIsNative a then mIssue a = sfcIssue /\ mOffset a = 0 /\ 0 <= mValue a < 2 ^ 62 /\ (mIsNegative a = true -> mValue a <> 0)
  else 0 < currency (mIssue a) < 2 ^ 160 /\ 0 < account (mIssue a) < 2 ^ 160 /\ wf_issued a /\ (mValue a = 0 -> mIsNegative a = false).

(** The first eight bytes. *)
Definition amount_bits (a : STAmount) : Z :=
  if mIsNative a then (if mIsNegative a then 0 else 1) * 2 ^ 62 + mValue a
  else if mValue a =? 0 then 2 ^ 63
  else (mOffset a + 97 + (if mIsNegative a then 512 else 768)) * 2 ^ 54 + mValue a.

Definition amount_bytes (a : STAmount) : list Z :=
  big_endian 8 (amount_bits a) ++
  (if mIsNative a then [] else big_endian 20 (currency (mIssue a)) ++ big_endian 20 (account (mIssue a))).

Lemma add_amount_spec a s : wire_amount a -> add_amount a s = s ++ amount_bytes a.
Proof.
  intros Hw. unfold add_amount, amount_bytes, amount_bits, wire_amount in *. destruct (mIsNative a).
  - destruct Hw as (_ & _ & Hv & _). destruct (mIsNegative a); cbn [negb]; rewrite add64_be, app_nil_r; [by rewrite Z.mul_0_l|].
    unfold cPosNative. rewrite Z.lor_comm. change (2 ^ 62) with (1 * 2 ^ 62) at 1. by rewrite (lor_shift_low 1 (mValue a) 62) by lia.
  - destruct Hw as (_ & _ & Hv & Hn). replace (is_zero a) with (mValue a =? 0) by (unfold is_zero, signum; destruct (mValue a =? 0), (mIsNegative a); done).
    unfold add160, addBitString. change (160 / 8)%nat with 20%nat. rewrite <-!app_assoc. destruct (Z.eqb_spec (mValue a) 0) as [Hz|Hz].
    + rewrite add64_be, <-app_assoc. done.
    + destruct Hv as [[? _]|[Hv Ho]]; [done|]. st_consts. destruct (mIsNegative a); rewrite add64_be, <-app_assoc; do 2 f_equal.
      * rewrite u64_small, Z.shiftl_mul_pow2 by lia. change (64 - 10) with 54. rewrite Z.mod_small by lia. rewrite Z.lor_comm, lor_shift_low by lia. f_equal. lia.
      * rewrite u64_small, Z.shiftl_mul_pow2 by lia. change (64 - 10) with 54. rewrite Z.mod_small by lia. rewrite Z.lor_comm, lor_shift_low by lia. f_equal. lia.
Qed.

Lemma canonicalize_in_range i v o neg : isSFC (currency i) = false -> wf_issued (mkSTAmount i v o false neg) -> v <> 0 ->
  canonicalize (mkSTAmount i v o false neg) = Ok (mkSTAmount i v o false neg).
Proof.
  intros Hi [[? _]|[Hv Ho]] Hz; [done|]. cbn in Hv, Ho. rewrite canonicalize_issued by (done || (cbn; st_consts; lia)).
  cbn [mValue mOffset mIssue mIsNegative]. rewrite normalize_canonical_id by (right; cbn; iou_consts; st_consts; lia).
  cbn. by rewrite (proj2 (Z.eqb_neq v 0)).
Qed.

Lemma isSFC_pos c : 0 < c -> isSFC c = false.
Proof. intros. apply Z.eqb_neq. lia. Qed.

Lemma reads_native a : wire_amount a -> mIsNative a = true -> reads parse_amount (amount_bytes a) a.
Proof.
  intros Hw Hn. unfold amount_bytes, parse_amount, wire_amount in *. rewrite Hn, app_nil_r in *. destruct Hw as (Hi & Ho & Hv & Hz).
  destruct a as [i v o nat neg]. cbn [mIssue mOffset mValue mIsNative mIsNegative] in *. subst. unfold amount_bits. cbn [mIsNative mIsNegative mValue].
  set (p := if neg then 0 else 1). assert (Hp : 0 <= p <= 1) by (destruct neg; lia).
  eapply reads_bind_ret; [apply reads_get64; lia|]. assert (E : forall x, 0 <= x < 2 ^ 63 -> (Z.land x cNotNative =? 0) = true).
  { intros x Hx. replace x with (0 * 2 ^ 63 + x) by lia. unfold cNotNative. by rewrite land_bit by lia. }
  rewrite E by lia. unfold cPosNative. rewrite land_bit by lia. subst p. destruct neg; cbn [Z.even negb].
  - rewrite Z.mul_0_l, Z.add_0_l. rewrite (proj2 (Z.eqb_neq v 0)) by (by apply Hz). apply reads_ret.
  - change (Z.lnot (2 ^ 62)) with (Z.lnot (Z.shiftl (Z.ones 1) 62)). rewrite land_clear by lia. apply reads_ret.
Qed.

(** Sign and exponent in the ten high bits. *)
Lemma reads_issued i o v (neg : bool) T :
  0 < currency i < 2 ^ 160 -> 0 < account i < 2 ^ 160 -> T = o + 97 + (if neg then 512 else 768) -> v <> 0 ->
  wf_issued (mkSTAmount i v o false neg) ->
  reads parse_amount (big_endian 8 (T * 2 ^ 54 + v) ++ big_endian 20 (currency i) ++ big_endian 20 (account i)) (mkSTAmount i v o false neg).
Proof.
  intros Hc Hi HT Hz Hwf. pose proof Hwf as [[? _]|[Hv Ho]]; [done|]. cbn [mValue mOffset] in Hv, Ho. unfold parse_amount. st_consts.
  assert (HTr : 512 <= T < 1024) by (destruct neg; lia). eapply reads_bind; [apply reads_get64; lia|].
  assert (E1 : (Z.land (T * 2 ^ 54 + v) cNotNative =? 0) = false).
  { replace (T * 2 ^ 54 + v) with (1 * 2 ^ 63 + ((T - 512) * 2 ^ 54 + v)) by lia. unfold cNotNative. by rewrite land_bit by lia. }
  rewrite E1. eapply reads_bind; [apply (reads_getBitString 160); change (256 ^ _) with (2 ^ 160); lia|]. rewrite (isSFC_pos _ (proj1 Hc)).
  eapply reads_bind_ret; [apply (reads_getBitString 160); change (256 ^ _) with (2 ^ 160); lia|]. rewrite (isSFC_pos _ (proj1 Hi)).
  change (64 - 10) with 54. rewrite shiftr_high by lia. change (Z.shiftl 1023 54) with (Z.shiftl (Z.ones 10) 54). rewrite land_clear by lia.
  rewrite (proj2 (Z.eqb_neq v 0)) by done. cbn [negb].
  set (s := if neg then 0 else 1). assert (E2 : T = (2 + s) * 2 ^ 8 + (o + 97)) by (subst s; destruct neg; lia).
  assert (E3 : (Z.land T 256 =? 0) = neg) by (rewrite E2; change 256 with (2 ^ 8) at 1; rewrite land_bit by lia; by destruct neg).
  assert (E4 : Z.land T 255 = o + 97) by (rewrite E2; change 255 with (Z.ones 8); apply land_low_bits; lia).
  rewrite E3, E4. replace (o + 97 - 97) with o by lia.
  unfold cMinValue, cMaxValue, cMinOffset, cMaxOffset. rewrite (proj2 (Z.ltb_ge v _)), (proj2 (Z.ltb_ge _ v)), (proj2 (Z.ltb_ge o _)), (proj2 (Z.ltb_ge _ o)) by lia.
  cbn [orb]. apply reads_lift. destruct i. apply canonicalize_in_range; [apply isSFC_pos, Hc|done|done].
Qed.

Lemma reads_issued_zero i :
  0 < currency i < 2 ^ 160 -> 0 < account i < 2 ^ 160 ->
  reads parse_amount (big_endian 8 (2 ^ 63) ++ big_endian 20 (currency i) ++ big_endian 20 (account i)) (mkSTAmount i 0 (-100) false false).
Proof.
  intros Hc Hi. unfold parse_amount. eapply reads_bind; [apply reads_get64; lia|]. change (Z.land (2 ^ 63) cNotNative =? 0) with false. cbv iota.
  eapply reads_bind; [apply (reads_getBitString 160); change (256 ^ _) with (2 ^ 160); lia|]. rewrite (isSFC_pos _ (proj1 Hc)).
  eapply reads_bind_ret; [apply (reads_getBitString 160); change (256 ^ _) with (2 ^ 160); lia|]. rewrite (isSFC_pos _ (proj1 Hi)).
  change (Z.land (2 ^ 63) (Z.lnot (Z.shiftl 1023 (64 - 10)))) with 0. change (Z.shiftr (2 ^ 63) (64 - 10)) with 512. cbn [Z.eqb negb Pos.eqb].
  apply reads_lift. destruct i as [c a]. unfold canonicalize. cbn [mIssue currency mValue]. by rewrite isSFC_pos by apply Hc.
Qed.

Lemma reads_amount a : wire_amount a -> reads parse_amount (amount_bytes a) a.
Proof.
  intros Hw. destruct (mIsNative a) eqn:Hn; [by apply reads_native|]. unfold amount_bytes, amount_bits, wire_amount in *. rewrite Hn in *.
  destruct Hw as (Hc & Hi & Hwf & Hz). destruct a as [i v o nat neg]. cbn [mIssue mOffset mValue mIsNative mIsNegative] in *. subst nat.
  destruct (Z.eqb_spec v 0) as [->|Hv]; [|by apply reads_issued].
  rewrite (Hz eq_refl). unfold wf_issued in Hwf. cbn [mValue mOffset] in Hwf. destruct Hwf as [[_ ->]|[Hv _]]; [by apply reads_issued_zero|st_consts; lia].
Qed.

Lemma issued_Ok c i m T sit sit' sit3 a :
  0 < c < 2 ^ 160 -> 0 < i < 2 ^ 160 -> 512 <= T < 1024 -> 0 <= m < 2 ^ 54 -> m <> 0 ->
  consumed sit sit3 (big_endian 8 (T * 2 ^ 54 + m) ++ big_endian 20 c ++ big_endian 20 i) ->
  (if (m <? cMinValue) || (cMaxValue <? m) || (Z.land T 255 - 97 <? cMinOffset) || (cMaxOffset <? Z.land T 255 - 97)
   then raise (runtime_error "invalid currency value")
   else lift (canonicalize (mkSTAmount (mkIssue c i) m (Z.land T 255 - 97) false (Z.land T 256 =? 0)))) sit3 = Ok (a, sit') ->
  consumed sit sit' (amount_bytes a) /\ wire_amount a.
Proof.
  intros Hc Hi HT Hlow Hm Hcons H. set (s := if decide (T < 768) then 0 else 1). set (x := T - (2 + s) * 2 ^ 8).
  assert (Hx : 0 <= x < 2 ^ 8) by (subst x s; destruct (decide (T < 768)); lia). assert (ET : T = (2 + s) * 2 ^ 8 + x) by lia.
  assert (E3 : (Z.land T 256 =? 0) = if decide (T < 768) then true else false).
  { rewrite ET at 1. change 256 with (2 ^ 8) at 1. rewrite land_bit by lia. subst s. by destruct (decide (T < 768)). }
  assert (E4 : Z.land T 255 = x) by (rewrite ET; change 255 with (Z.ones 8); apply land_low_bits; lia).
  rewrite E3, E4 in H. destruct (_ || _) eqn:Er in H; [done|]. repeat (apply orb_false_iff in Er as [Er ?]). rewrite Z.ltb_ge in *.
  assert (Hwf : wf_issued (mkSTAmount (mkIssue c i) m (x - 97) false (if decide (T < 768) then true else false))) by (right; cbn; lia).
  apply lift_Ok in H as [H ->]. rewrite canonicalize_in_range in H by (done || apply isSFC_pos; cbn; lia). injection H as <-.
  unfold amount_bytes, amount_bits, wire_amount. cbn [mIsNative mValue mIssue currency account mOffset mIsNegative]. rewrite (proj2 (Z.eqb_neq m 0)) by done.
  split; [|split_and!; lia || done]. replace (x - 97 + 97 + _) with T; [done|]. subst s. destruct (decide (T < 768)); lia.
Qed.

Lemma split_bits v n : 0 <= n -> 0 <= v -> exists t m, v = t * 2 ^ n + m /\ 0 <= m < 2 ^ n /\ 0 <= t.
Proof.
  intros Hn Hv. exists (v / 2 ^ n), (v mod 2 ^ n). pose proof (Z.div_mod v (2 ^ n)). pose proof (Z.mod_pos_bound v (2 ^ n)).
  pose proof (Z.div_pos v (2 ^ n)). lia.
Qed.

Lemma native_bit v : 0 <= v < 2 ^ 64 -> (Z.land v cNotNative =? 0) = (v <? 2 ^ 63).
Proof.
  intros Hv. destruct (split_bits v 63) as (t & m & -> & Hm & Ht); [lia..|]. unfold cNotNative. rewrite land_bit by lia.
  assert (t = 0 \/ t = 1) as [-> | ->] by lia; symmetry; [apply Z.ltb_lt|apply Z.ltb_ge]; lia.
Qed.

Lemma native_Ok v sit sit1 sit' a :
  0 <= v < 2 ^ 63 -> consumed sit sit1 (big_endian 8 v) ->
  (if negb (Z.land v cPosNative =? 0) then mret (mkSTAmount sfcIssue (Z.land v (Z.lnot cPosNative)) 0 true false)
   else if v =? 0 then raise (runtime_error "negative zero is not canonical") else mret (mkSTAmount sfcIssue v 0 true true)) sit1 = Ok (a, sit') ->
  consumed sit sit' (amount_bytes a) /\ wire_amount a.
Proof.
  intros Hv Hc H. destruct (split_bits v 62) as (t & m & -> & Hm & Ht); [lia..|]. unfold cPosNative in H. rewrite land_bit in H by lia.
  unfold amount_bytes, amount_bits, wire_amount. assert (t = 0 \/ t = 1) as [-> | ->] by lia; cbn [Z.even negb] in H.
  - destruct (Z.eqb_spec (0 * 2 ^ 62 + m) 0) as [|Hz]; [done|]. injection H as <- <-. cbn [mIsNative mIsNegative mValue mIssue mOffset].
    rewrite app_nil_r. split; [done|]. split_and!; [done|done|lia|lia|lia].
  - change (Z.lnot (2 ^ 62)) with (Z.lnot (Z.shiftl (Z.ones 1) 62)) in H. rewrite land_clear in H by lia. injection H as <- <-.
    cbn [mIsNative mIsNegative mValue mIssue mOffset]. rewrite app_nil_r. split; [done|]. split_and!; [done|done|lia|lia|done].
Qed.

Lemma parse_amount_Ok sit a sit' : Forall is_byte (si_rest sit) -> parse_amount sit = Ok (a, sit') -> consumed sit sit' (amount_bytes a) /\ wire_amount a.
Proof.
  intros Hb. unfold parse_amount. rewrite parser_bind_Ok. intros (v & sit1 & [H1 Hv]%get64_Ok & H); [|done].
  destruct (consumed_bytes _ _ _ Hb H1) as [_ Hb1]. rewrite native_bit in H by done. destruct (Z.ltb_spec v (2 ^ 63)) as [Hn|Hn].
  { eapply native_Ok; [|exact H1|exact H]. lia. }
  rewrite parser_bind_Ok in H. destruct H as (c & sit2 & [H2 Hc]%getBitString_Ok & H); [|done]. destruct (consumed_bytes _ _ _ Hb1 H2) as [_ Hb2].
  unfold isSFC at 1 in H. destruct (Z.eqb_spec c 0) as [|Hcz]; [done|]. rewrite parser_bind_Ok in H. destruct H as (i & sit3 & [H3 Hi]%getBitString_Ok & H); [|done].
  unfold isSFC at 1 in H. destruct (Z.eqb_spec i 0) as [|Hiz]; [done|]. change (256 ^ _) with (2 ^ 160) in Hc, Hi.
  pose proof (consumed_app _ _ _ _ _ H1 (consumed_app _ _ _ _ _ H2 H3)) as Hcons. change (160 / 8)%nat with 20%nat in Hcons. clear H1 H2 H3 Hb1 Hb2.
  destruct (split_bits v 54) as (T & m & -> & Hm & HT); [lia..|]. change (64 - 10) with 54 in H.
  change (Z.shiftl 1023 54) with (Z.shiftl (Z.ones 10) 54) in H. rewrite land_clear, shiftr_high in H by lia.
  destruct (Z.eqb_spec m 0) as [->|Hmz]; cbn [negb] in H.
  - destruct (Z.eqb_spec T 512) as [->|]; [|done]. cbn [negb] in H. apply lift_Ok in H as [H ->]. unfold canonicalize in H. cbn [mIssue currency mValue] in H.
    rewrite isSFC_pos in H by lia. injection H as <-. split; [done|]. split_and!; cbn; [lia|lia|lia|lia|by left|done].
  - eapply (issued_Ok c i m T); [lia|lia|lia|done|done|exact Hcons|exact H].
Qed.

(** The wire form of amounts is a bijection: every amount that is in range
    (native below 2^62 drops, or issued and canonical with a nonzero currency and
    issuer) is read back as it was written, and whatever the reader accepts is such
    an amount, spelled by exactly the bytes the writer would produce for it. *)
Theorem amount_wire a :
  (wire_amount a -> forall rest, parse_amount (iter (add_amount a [] ++ rest)) = Ok (a, mkIter (rev (add_amount a [])) rest)) /\
  (forall data sit, Forall is_byte data -> parse_amount (iter data) = Ok (a, sit) -> wire_amount a /\ data = add_amount a [] ++ si_rest sit).
Proof.
  split.
  - intros Hw rest. unfold iter. rewrite add_amount_spec by done. cbn [app]. rewrite (reads_amount a Hw). by rewrite app_nil_r.
  - intros data sit Hb Hp. destruct (parse_amount_Ok (iter data) a sit Hb Hp) as [[Hc _] Hw]. split; [done|]. by rewrite add_amount_spec.
Qed.

(** ** Path sets *)

Definition is160 (v : Z) : Prop := 0 <= v < 2 ^ 160.

(** An element as its constructor makes it, other than the empty one. *)
Definition wire_element (e : STPathElement) : Prop :=
  is160 (mAccountID e) /\ is160 (mCurrencyID e) /\ is160 (mIssuerID e) /\ mType e <> typeNone /\
  e = path_element (mAccountID e) (mCurrencyID e) (mIssuerID e) (has typeCurrency (mType e)).

Definition wire_pathset (paths : list (list STPathElement)) : Prop :=
  paths <> [] /\ Forall (fun path => path <> [] /\ Forall wire_element path) paths.

Definition element_bytes (e : STPathElement) : list Z := add_element e [].
Definition path_bytes (path : list STPathElement) : list Z := concat (map element_bytes path).
Definition pathset_tail (paths : list (list STPathElement)) : list Z := concat (map (fun p => typeBoundary :: path_bytes p) paths).

Lemma add_element_app e s : add_element e s = s ++ element_bytes e.
Proof. unfold element_bytes, add_element, add8, add160, addBitString. repeat case_match; rewrite ?app_nil_l, <-?app_assoc; done. Qed.

Lemma add_elements path s : foldl (fun s e => add_element e s) s path = s ++ path_bytes path.
Proof.
  revert s. induction path as [|e path IH]; intros s; cbn; [by rewrite app_nil_r|]. rewrite IH, add_element_app, <-app_assoc. done.
Qed.

Lemma add_path_spec first path s : add_path first path s = s ++ (if first then [] else [typeBoundary]) ++ path_bytes path.
Proof. unfold add_path. rewrite add_elements. destruct first; [done|]. unfold add8. by rewrite <-app_assoc. Qed.

Lemma add_pathset_spec p ps : add_pathset (p :: ps) [] = path_bytes p ++ pathset_tail ps ++ [typeNone].
Proof.
  unfold add_pathset. cbn [foldl]. rewrite add_path_spec. cbn [app].
  assert (H : forall ps s, foldl (fun '(s, first) path => (add_path first path s, false)) (s, false) ps = (s ++ pathset_tail ps, false)).
  { clear. induction ps as [|p ps IH]; intros s; cbn [foldl]; [unfold pathset_tail; cbn; by rewrite app_nil_r|].
    rewrite add_path_spec, IH. unfold pathset_tail. cbn. by rewrite <-!app_assoc. }
  rewrite H. unfold add8. by rewrite <-app_assoc.
Qed.

(** The kind byte says what follows. *)
Lemma path_element_type a c i force :
  let t := mType (path_element a c i force) in
  is_byte t /\ t <> typeBoundary /\ Z.land t (Z.lnot typeAll) = 0 /\
  has typeAccount t = negb (isSFC a) /\ has typeCurrency t = force || negb (isSFC c) /\ has typeIssuer t = negb (isSFC i).
Proof.
  unfold path_element, is_byte. cbn [mType]. destruct (isSFC a), (isSFC c), (isSFC i), force; cbn; split_and!; done || lia.
Qed.

Lemma reads_opt160 (b : bool) v : is160 v -> (b = false -> v = 0) -> reads (if b then getBitString 160 else mret 0) (if b then big_endian 20 v else []) v.
Proof. intros Hv Hz. destruct b; [by apply (reads_getBitString 160)|]. rewrite Hz by done. apply reads_ret. Qed.

Lemma pathset_step e fuel paths path u r : wire_element e ->
  pathset_loop (S fuel) paths path (mkIter u (element_bytes e ++ r)) = pathset_loop fuel paths (path ++ [e]) (mkIter (rev (element_bytes e) ++ u) r).
Proof.
  intros (Ha & Hc & Hi & Hz & He). set (t := mType e) in *.
  destruct (path_element_type (mAccountID e) (mCurrencyID e) (mIssuerID e) (has typeCurrency t)) as (T1 & T2 & T3 & T4 & T5 & T6). rewrite <-He in *. fold t in T1, T2, T3, T4, T5, T6.
  set (ba := if has typeAccount t then big_endian 20 (mAccountID e) else []). set (bc := if has typeCurrency t then big_endian 20 (mCurrencyID e) else []).
  set (bi := if has typeIssuer t then big_endian 20 (mIssuerID e) else []).
  assert (Eb : element_bytes e = [t] ++ ba ++ bc ++ bi).
  { unfold element_bytes, add_element, add8, add160, addBitString, ba, bc, bi. fold t. rewrite u8_byte by done. repeat case_match; cbn [app]; rewrite ?app_nil_r, <-?app_assoc; done. }
  assert (Hz0 : forall x, negb (isSFC x) = false -> x = 0) by (intros x; unfold isSFC; destruct (Z.eqb_spec x 0); done).
  assert (Hread : reads (account ← (if has typeAccount t then getBitString 160 else mret 0);
    currency ← (if has typeCurrency t then getBitString 160 else mret 0); issuer ← (if has typeIssuer t then getBitString 160 else mret 0);
    mret (path_element account currency issuer (has typeCurrency t))) (ba ++ bc ++ bi) e).
  { eapply reads_bind; [apply reads_opt160; [done|rewrite T4; apply Hz0]|]. eapply reads_bind; [apply reads_opt160; [done|]|].
    - rewrite T5. intros [_ H]%orb_false_iff. by apply Hz0.
    - eapply reads_bind_ret; [apply reads_opt160; [done|rewrite T6; apply Hz0]|]. rewrite <-He. apply reads_ret. }
  rewrite Eb. cbn [pathset_loop]. unfold mbind at 1, parser_bind at 1. rewrite <-app_assoc, (reads_get8 t T1).
  rewrite (proj2 (Z.eqb_neq t typeNone)), (proj2 (Z.eqb_neq t typeBoundary)) by done. cbn [orb]. rewrite T3. cbn [Z.eqb negb].
  specialize (Hread (rev [t] ++ u) r). unfold mbind, parser_bind in Hread |- *. rewrite <-!app_assoc in *.
  destruct ((if has typeAccount t then getBitString 160 else mret 0) _) as [[a1 s1]|]; [|done].
  destruct ((if has typeCurrency t then getBitString 160 else mret 0) _) as [[a2 s2]|]; [|done].
  destruct ((if has typeIssuer t then getBitString 160 else mret 0) _) as [[a3 s3]|]; [|done]. injection Hread as -> ->.
  by rewrite (rev_app_distr [t]), <-app_assoc.
Qed.

Lemma element_bytes_length e : (1 <= length (element_bytes e))%nat.
Proof. unfold element_bytes, add_element, add8, add160, addBitString. repeat case_match; rewrite ?length_app; cbn; lia. Qed.

Lemma pathset_elements es : Forall wire_element es -> forall fuel paths path u r, (length (path_bytes es) + length r < fuel)%nat ->
  exists fuel', (length r < fuel')%nat /\
    pathset_loop fuel paths path (mkIter u (path_bytes es ++ r)) = pathset_loop fuel' paths (path ++ es) (mkIter (rev (path_bytes es) ++ u) r).
Proof.
  induction 1 as [|e es He Hes IH]; intros fuel paths path u r Hf.
  - exists fuel. unfold path_bytes in *. cbn in *. rewrite app_nil_r. split; [lia|done].
  - unfold path_bytes in *. cbn in *. rewrite length_app in Hf. pose proof (element_bytes_length e). destruct fuel as [|fuel]; [lia|].
    destruct (IH fuel paths (path ++ [e]) (rev (element_bytes e) ++ u) r) as (fuel' & Hf' & E); [lia|]. exists fuel'. split; [done|].
    rewrite <-app_assoc, pathset_step, E by done. rewrite rev_app_distr, <-!app_assoc. done.
Qed.

(** The end of a path. *)
Lemma pathset_end fuel paths path t u r : path <> [] -> (t = typeNone \/ t = typeBoundary) ->
  pathset_loop (S fuel) paths path (mkIter u (t :: r)) =
  if t =? typeNone then Ok (paths ++ [path], mkIter (t :: u) r) else pathset_loop fuel (paths ++ [path]) [] (mkIter (t :: u) r).
Proof.
  intros Hp Ht. cbn [pathset_loop]. unfold mbind at 1, parser_bind at 1. assert (Hb : is_byte t) by (unfold is_byte, typeNone, typeBoundary in *; lia).
  pose proof (reads_get8 t Hb u r) as Hr. cbn [app rev] in Hr. rewrite Hr. destruct path as [|e path]; [done|].
  destruct Ht as [-> | ->]; done.
Qed.

Lemma pathset_loop_spec ps : forall p, Forall (fun path => path <> [] /\ Forall wire_element path) (p :: ps) ->
  forall fuel paths u r, (length (path_bytes p ++ pathset_tail ps ++ [typeNone]) + length r < fuel)%nat ->
  pathset_loop fuel paths [] (mkIter u ((path_bytes p ++ pathset_tail ps ++ [typeNone]) ++ r)) =
  Ok (paths ++ p :: ps, mkIter (rev (path_bytes p ++ pathset_tail ps ++ [typeNone]) ++ u) r).
Proof.
  induction ps as [|p' ps IH]; intros p [[Hne Hp] Hps]%Forall_cons fuel paths u r Hf; rewrite <-!app_assoc.
  - cbn [pathset_tail map concat app]. rewrite !length_app in Hf. cbn in Hf.
    destruct (pathset_elements p Hp fuel paths [] u (typeNone :: r)) as (fuel' & Hf' & E); [cbn; lia|]. rewrite E. destruct fuel' as [|fuel']; [cbn in Hf'; lia|].
    rewrite pathset_end by (done || by left). cbn. rewrite rev_app_distr. done.
  - unfold pathset_tail. cbn [map concat app]. fold (pathset_tail ps). unfold pathset_tail in Hf. cbn [map concat app] in Hf. fold (pathset_tail ps) in Hf.
    rewrite !length_app in Hf. cbn [length] in Hf. rewrite !length_app in Hf.
    destruct (pathset_elements p Hp fuel paths [] u (typeBoundary :: path_bytes p' ++ pathset_tail ps ++ [typeNone] ++ r)) as (fuel' & Hf' & E);
      [cbn [length]; rewrite !length_app; lia|]. rewrite <-!app_assoc. cbn [app] in *. rewrite E. clear E. destruct fuel' as [|fuel']; [cbn in Hf'; lia|].
    rewrite pathset_end by (done || by right). cbn [Z.eqb typeBoundary typeNone]. cbn [length] in Hf'. rewrite !length_app in Hf'. cbn [length] in Hf'.
    pose proof (IH p' Hps fuel' (paths ++ [p]) (typeBoundary :: rev (path_bytes p) ++ u) r) as H. rewrite !length_app in H. cbn [length] in H. rewrite <-!app_assoc in H. cbn [app] in H.
    rewrite H by lia. f_equal. f_equal. rewrite !rev_app_distr. cbn [rev]. rewrite !rev_app_distr. cbn [rev app]. rewrite <-!app_assoc. done.
Qed.

Lemma reads_pathset paths : wire_pathset paths -> reads parse_pathset (add_pathset paths []) paths.
Proof.
  intros [Hne Hall] u r. destruct paths as [|p ps]; [done|]. rewrite add_pathset_spec. unfold parse_pathset, getBytesLeft. cbn [si_rest].
  rewrite pathset_loop_spec; [done|done|]. rewrite !length_app. lia.
Qed.

(** ** Accounts and vectors *)

Lemma add_account_spec d v : add_account d v [] = Ok (vl_prefix (if d then 0 else 20) ++ (if d then [] else big_endian 20 v)).
Proof. unfold add_account. rewrite addVL_spec. destruct d; done. Qed.

Lemma reads_account (d : bool) v : is160 v -> (d = true -> v = 0) ->
  reads parse_account (vl_prefix (if d then 0 else 20) ++ (if d then [] else big_endian 20 v)) (V_Account d v).
Proof.
  intros Hv Hd. unfold parse_account. eapply reads_bind_ret with (a := if d then [] else big_endian 20 v).
  - destruct d; [apply (reads_vl []); vm_compute; done|]. pose proof (reads_vl (big_endian 20 v)) as H. rewrite length_big_endian in H. apply H. vm_compute. done.
  - destruct d; [rewrite Hd by done; apply reads_ret|]. assert (E : from_bytes (big_endian 20 v) = v) by (rewrite from_bytes_be; apply Z.mod_small, Hv).
    rewrite length_big_endian. cbn [Nat.eqb negb]. rewrite E. destruct (big_endian 20 v) eqn:Eb; [done|apply reads_ret].
Qed.

Definition vector_bytes (vs : list Z) : list Z := concat (map (big_endian 32) vs).

Lemma vector_bytes_length vs : length (vector_bytes vs) = (length vs * 32)%nat.
Proof. induction vs as [|v vs IH]; [done|]. unfold vector_bytes in *. cbn [map concat length]. rewrite length_app, length_big_endian, IH. lia. Qed.

Lemma add_vector256_spec vs : Z.of_nat (length vs * 32) <= vl_limit -> add_vector256 vs [] = Ok (vl_prefix (Z.of_nat (length vs * 32)) ++ vector_bytes vs).
Proof.
  intros Hl. unfold add_vector256. rewrite addEncoded_spec, (proj2 (Z.leb_le _ _)) by lia. cbn [mbind res_bind app]. f_equal.
  generalize (vl_prefix (Z.of_nat (length vs * 32))) as s. clear Hl. unfold vector_bytes.
  induction vs as [|v vs IH]; intros s; cbn [foldl map concat]; [by rewrite app_nil_r|].
  rewrite IH. unfold add256, addBitString. by rewrite <-app_assoc.
Qed.

Lemma hashes_of_spec vs : Forall (fun v => 0 <= v < 2 ^ 256) vs -> hashes_of (length vs) (vector_bytes vs) = vs.
Proof.
  induction 1 as [|v vs Hv Hvs IH]; [done|]. unfold vector_bytes in *. cbn [map concat length hashes_of].
  rewrite take_app_length', drop_app_length' by (by rewrite length_big_endian). rewrite from_bytes_be, Z.mod_small, IH; [done|].
  by change (256 ^ Z.of_nat 32) with (2 ^ 256).
Qed.

Lemma reads_vector256 vs : Z.of_nat (length vs * 32) <= vl_limit -> Forall (fun v => 0 <= v < 2 ^ 256) vs ->
  reads parse_vector256 (vl_prefix (Z.of_nat (length vs * 32)) ++ vector_bytes vs) vs.
Proof.
  intros Hl Hv. unfold parse_vector256. eapply reads_bind_ret.
  - rewrite <-vector_bytes_length. apply reads_vl. by rewrite vector_bytes_length.
  - rewrite vector_bytes_length, Nat.div_mul, hashes_of_spec by done. apply reads_ret.
Qed.

(** ** Sorting *)

Section SortBy.
Context {A : Type} (key : A -> Z).

Lemma insert_by_perm x l : insert_by key x l ≡ₚ x :: l.
Proof. induction l as [|y l IH]; cbn; [done|]. destruct (_ <=? _); [done|]. rewrite IH. constructor. Qed.

Lemma sort_by_perm l : sort_by key l ≡ₚ l.
Proof. induction l as [|x l IH]; cbn; [done|]. rewrite insert_by_perm. by constructor. Qed.

Lemma insert_by_sorted x l : ~ key x ∈ map key l -> StronglySorted Z.lt (map key l) -> StronglySorted Z.lt (map key (insert_by key x l)).
Proof.
  induction l as [|y l IH]; cbn; intros Hx Hs; [repeat constructor|]. rewrite elem_of_cons in Hx. apply StronglySorted_inv in Hs as [Hs Hall].
  destruct (Z.leb_spec (key x) (key y)) as [Hle|Hlt]; cbn.
  - assert (key x < key y) by (assert (key x <> key y) by tauto; lia). constructor; [by constructor|]. constructor; [done|].
    eapply Forall_impl; [exact Hall|]. cbn. lia.
  - constructor; [apply IH; tauto|]. rewrite List.Forall_forall in *. intros k Hk. apply in_map_iff in Hk as (z & <- & Hz).
    apply list_elem_of_In in Hz. rewrite insert_by_perm in Hz. apply elem_of_cons in Hz as [->|Hz]; [done|]. apply Hall, in_map. by apply list_elem_of_In.
Qed.

Lemma sort_by_sorted l : NoDup (map key l) -> StronglySorted Z.lt (map key (sort_by key l)).
Proof.
  induction l as [|x l IH]; cbn; intros Hn; [constructor|]. apply NoDup_cons in Hn as [Hx Hn]. apply insert_by_sorted; [|by apply IH].
  intros Hk. apply Hx. change (map key (foldr (insert_by key) [] l)) with (key <$> sort_by key l) in Hk. rewrite sort_by_perm in Hk. done.
Qed.

Lemma sort_by_id l : StronglySorted Z.lt (map key l) -> sort_by key l = l.
Proof.
  induction l as [|x l IH]; cbn; intros Hs; [done|]. apply StronglySorted_inv in Hs as [Hs Hall]. change (foldr (insert_by key) [] l) with (sort_by key l).
  rewrite IH by done. destruct l as [|y l]; [done|]. cbn in Hall. apply Forall_cons in Hall as [Hxy _]. cbn. by rewrite (proj2 (Z.leb_le _ _)) by lia.
Qed.

(** A list sorted by its keys is the only one with its elements. *)
Lemma sorted_keys_unique l l' : StronglySorted Z.lt (map key l) -> StronglySorted Z.lt (map key l') -> l ≡ₚ l' -> l = l'.
Proof.
  revert l'. induction l as [|x l IH]; intros l' Hs Hs' Hp; [by apply Permutation_nil_l in Hp|]. destruct l' as [|y l']; [by apply Permutation_nil_r in Hp|].
  cbn in Hs, Hs'. apply StronglySorted_inv in Hs as [Hs Hx], Hs' as [Hs' Hy]. rewrite List.Forall_forall in Hx, Hy. assert (x = y) as <-.
  { assert (H1 : x ∈ y :: l') by (rewrite <-Hp; left). assert (H2 : y ∈ x :: l) by (rewrite Hp; left). apply elem_of_cons in H1 as [|H1], H2 as [|H2]; try done.
    pose proof (Hx _ (in_map key _ _ (proj1 (list_elem_of_In _ _) H2))). pose proof (Hy _ (in_map key _ _ (proj1 (list_elem_of_In _ _) H1))). lia. }
  f_equal. apply IH; [done|done|]. by apply Permutation_cons_inv in Hp.
Qed.
End SortBy.

Lemma sort_by_Forall2 {A B} (key : A -> Z) (key' : B -> Z) (R : A -> B -> Prop) l k :
  (forall x y, R x y -> key x = key' y) -> Forall2 R l k -> Forall2 R (sort_by key l) (sort_by key' k).
Proof.
  intros HR. induction 1 as [|x y l k Hxy Hlk IH]; [constructor|]. cbn. change (foldr (insert_by key) [] l) with (sort_by key l). change (foldr (insert_by key') [] k) with (sort_by key' k).
  clear Hlk. induction IH as [|x' y' l' k' Hxy' Hlk IH']; cbn; [by repeat constructor|]. rewrite (HR _ _ Hxy), (HR _ _ Hxy').
  destruct (_ <=? _); by repeat constructor.
Qed.

Lemma sorted_NoDup_keys (ks : list Z) : StronglySorted Z.lt ks -> NoDup ks.
Proof.
  induction 1 as [|k ks Hs IH Hall]; constructor; [|done]. intros Hin%list_elem_of_In. rewrite List.Forall_forall in Hall. specialize (Hall _ Hin). lia.
Qed.
