(* ===== verification/STObjectWire.v ===== *)
(** * Objects, read back

    Round trip, uniqueness of the reading and termination of the deserializer of
    STObject.v. *)

From stdpp Require Import sorting.
From S2P Require Import Prelude IOUAmount STAmount Serializer SField STObject STWire.

(** ** Well-formed objects *)

(** A field that can be on the wire. *)
Definition wire_field (f : SField) : Prop :=
  getField (sti_code (fieldType f)) (fieldValue f) = Some f /\ 0 < sti_code (fieldType f) < 256 /\ 0 < fieldValue f < 256.

Definition wf_leaf (v : STValue) : Prop :=
  match v with
  | V_UInt8 x => 0 <= x < 2 ^ 8
  | V_UInt16 x => 0 <= x < 2 ^ 16
  | V_UInt32 x => 0 <= x < 2 ^ 32
  | V_UInt64 x => 0 <= x < 2 ^ 64
  | V_Hash128 x => 0 <= x < 2 ^ 128
  | V_Hash160 x => 0 <= x < 2 ^ 160
  | V_Hash256 x => 0 <= x < 2 ^ 256
  | V_Amount a => wire_amount a
  | V_VL b => Z.of_nat (length b) <= vl_limit
  | V_Account d x => is160 x /\ (d = true -> x = 0)
  | V_PathSet paths => wire_pathset paths
  | V_Vector256 vs => Z.of_nat (length vs * 32) <= vl_limit /\ Forall (fun v => 0 <= v < 2 ^ 256) vs
  | _ => False
  end.

Definition codes (fields : Fields) : list Z := map (fun fv : SField * STValue => getCode fv.1) fields.

(** The fields of an inner object are in the order of its template, if it has one,
    and otherwise in the order of their codes. *)
Definition in_order (f : SField) (fields : Fields) : Prop :=
  match findSOTemplateBySField f with
  | Some t => map fst fields = map fst t
  | None => StronglySorted Z.lt (codes fields)
  end.

(** A value of field [f] with room for [n] levels. *)
Fixpoint wf_value (n : nat) (f : SField) (v : STValue) : Prop :=
  match n with
  | O => False
  | S n =>
      wire_field f /\ getSType v = fieldType f /\
      match v with
      | V_Object fields => in_order f fields /\ Forall (fun fv : SField * STValue => wf_value n fv.1 fv.2) fields
      | V_Array objects =>
          match n with
          | O => objects = []
          | S n => Forall (fun fo : SField * Fields => wire_field fo.1 /\ fieldType fo.1 = STI_OBJECT /\ in_order fo.1 fo.2 /\
                     Forall (fun fv : SField * STValue => wf_value n fv.1 fv.2) fo.2) objects
          end
      | v => wf_leaf v
      end
  end.

(** The fields of an object are distinct, in whatever order, and each is absent or has a
    value. *)
Definition wf_object (fields : Fields) : Prop :=
  NoDup (codes fields) /\ Forall (fun fv : SField * STValue => fv.2 = V_NotPresent \/ wf_value 10 fv.1 fv.2) fields.

(** ** Templates and duplicates *)

Lemma codes_fields (l l' : Fields) : map fst l = map fst l' -> codes l = codes l'.
Proof. unfold codes. rewrite <-!(map_map fst getCode). by intros ->. Qed.

Lemma take_field_perm f v l rest : NoDup (codes ((f, v) :: rest)) -> l ≡ₚ (f, v) :: rest ->
  exists l', take_field f l = Some ((f, v), l') /\ l' ≡ₚ rest.
Proof.
  intros Hn. revert rest Hn. induction l as [|[g w] l IH]; intros rest Hn Hl; [by apply Permutation_nil_cons in Hl|]. cbn [take_field]. unfold field_eq.
  destruct (Z.eqb_spec (getCode g) (getCode f)) as [E|E].
  - assert ((g, w) = (f, v)) as Egf.
    { assert (Hin : (g, w) ∈ (f, v) :: rest) by (rewrite <-Hl; left). apply elem_of_cons in Hin as [?|Hin]; [done|]. exfalso.
      cbn in Hn. apply NoDup_cons in Hn as [Hn _]. apply Hn. rewrite <-E. unfold codes. apply list_elem_of_In, in_map_iff. exists (g, w). split; [done|by apply list_elem_of_In]. }
    injection Egf as -> ->. exists l. split; [done|]. by apply Permutation_cons_inv in Hl.
  - assert (Hin : (g, w) ∈ rest).
    { assert (Hin : (g, w) ∈ (f, v) :: rest) by (rewrite <-Hl; left). apply elem_of_cons in Hin as [[= -> ->]|Hin]; done. }
    apply elem_of_Permutation in Hin as [rest' Hrest]. destruct (IH rest') as (l' & E' & Hl').
    + cbn in Hn |- *. apply NoDup_cons in Hn as [Hn1 Hn2]. unfold codes in *. rewrite Hrest in Hn1, Hn2. cbn in Hn1, Hn2. apply NoDup_cons in Hn2 as [_ Hn2]. rewrite elem_of_cons in Hn1. constructor; [tauto|done].
    + apply (Permutation_cons_inv (a := (g, w))). rewrite Hl, Hrest. constructor.
    + rewrite E'. cbn. eexists. split; [done|]. rewrite Hl', Hrest. done.
Qed.

Lemma template_loop_ok (t : SOTemplate) : forall fields l v, map fst fields = map fst t -> Forall (fun e : SField * SOEStyle => e.2 = soeREQUIRED) t ->
  NoDup (codes fields) -> l ≡ₚ fields -> template_loop t l v = Ok ([], v ++ fields).
Proof.
  induction t as [|[f style] t IH]; intros fields l v Hf Hreq Hn Hl.
  - destruct fields; [|done]. apply Permutation_nil_r in Hl as ->. cbn. by rewrite app_nil_r.
  - destruct fields as [|[g w] fields]; [done|]. cbn in Hf. injection Hf as -> Hf. apply Forall_cons in Hreq as [Hs Hreq]. cbn in Hs. subst style.
    destruct (take_field_perm f w l fields Hn Hl) as (l' & E & Hl'). cbn [template_loop]. rewrite E.
    rewrite (IH fields l' (v ++ [(f, w)])); [by rewrite <-app_assoc|done|done| |done]. cbn in Hn. by apply NoDup_cons in Hn as [_ ?].
Qed.

Lemma templates_required f t : findSOTemplateBySField f = Some t -> Forall (fun e : SField * SOEStyle => e.2 = soeREQUIRED) t /\ NoDup (map getCode (map fst t)).
Proof.
  unfold findSOTemplateBySField. destruct (_ =? _); [|destruct (_ =? _); [|done]]; intros [= <-];
    (split; [by repeat constructor|]; apply (bool_decide_eq_true_1 (NoDup _)); vm_compute; reflexivity).
Qed.

Lemma fields_in_order_NoDup f fields : in_order f fields -> NoDup (codes fields).
Proof.
  unfold in_order. destruct (findSOTemplateBySField f) as [t|] eqn:E; [|apply sorted_NoDup_keys]. intros H.
  unfold codes. rewrite <-(map_map fst getCode), H. by destruct (templates_required f t E).
Qed.

Definition sorted_fields (fields : Fields) : Fields := sort_by (fun fv : SField * STValue => getCode fv.1) fields.

Lemma apply_template_sorted f fields : in_order f fields -> applyTemplateFromSField f (sorted_fields fields) = Ok fields.
Proof.
  intros Ho. pose proof (fields_in_order_NoDup f fields Ho) as Hn. unfold in_order, applyTemplateFromSField in *.
  destruct (findSOTemplateBySField f) as [t|] eqn:E.
  - destruct (templates_required f t E) as [Hreq _]. unfold applyTemplate. rewrite (template_loop_ok t fields); [done|done|done|done|apply sort_by_perm].
  - f_equal. by apply sort_by_id.
Qed.

Lemma adjacent_dup_sorted fields : StronglySorted Z.lt (codes fields) -> adjacent_dup fields = false.
Proof.
  induction fields as [|x [|y fields] IH]; intros Hs; [done..|]. cbn in Hs. apply StronglySorted_inv in Hs as [Hs Hall]. apply Forall_cons in Hall as [Hxy _].
  change (field_eq x.1 y.1 || adjacent_dup (y :: fields) = false). rewrite IH by done. unfold field_eq. rewrite (proj2 (Z.eqb_neq _ _)) by lia. done.
Qed.

(** ** Round trip *)

Lemma filter_all {A} (p : A -> bool) l : Forall (fun x => p x = true) l -> List.filter p l = l.
Proof. induction 1 as [|x l Hx Hl IH]; cbn; [done|]. by rewrite Hx, IH. Qed.

Lemma wf_included n f v : wf_value n f v -> isPresent v && shouldInclude true f = true.
Proof.
  destruct n as [|n]; [done|]. intros ((_ & Ht & Hv) & Hty & _). unfold shouldInclude. rewrite (proj2 (Z.ltb_lt _ _)) by lia.
  destruct v; cbn in *; rewrite <-?Hty in Ht; done || (cbn in Ht; lia).
Qed.

Lemma check_sorted n fields : NoDup (codes fields) -> Forall (fun fv : SField * STValue => wf_value n fv.1 fv.2) fields ->
  check_duplicates (sorted_fields fields) = Ok (sorted_fields fields).
Proof.
  intros Hn Hwf. unfold check_duplicates, getSortedFields. pose proof (sort_by_sorted _ fields Hn) as Hs. fold (sorted_fields fields) in Hs.
  rewrite filter_all; [|].
  - rewrite sort_by_id by done. by rewrite adjacent_dup_sorted.
  - unfold sorted_fields. rewrite sort_by_perm. eapply Forall_impl; [exact Hwf|]. intros [f v] H. by eapply wf_included.
Qed.

(** What encodes a field. *)
Definition encodes (fv : SField * STValue) (e : encoding) : Prop := encode true fv = Ok (Some e) /\ e.1.1 = fv.1.

Lemma mapR_encodes fields es : Forall2 encodes fields es -> mapR (encode true) fields = Ok (map Some es).
Proof. induction 1 as [|fv e fields es [H _] _ IH]; [done|]. cbn. rewrite H. cbn. by rewrite IH. Qed.

Lemma omap_Some {A} (l : list A) : omap id (map Some l) = l.
Proof. induction l as [|x l IH]; cbn; [done|]. by rewrite IH. Qed.

Lemma emit_sorted_encodes fields es : Forall2 encodes fields es ->
  exists es', Forall2 encodes (sorted_fields fields) es' /\ emit_sorted (map Some es) = concat (map emit es').
Proof.
  intros H. eexists. split; [|unfold emit_sorted; by rewrite omap_Some]. apply sort_by_Forall2; [|done]. intros x y [_ E]. by rewrite E.
Qed.

(** The value of field [f] at [depth] is written as [bs] and read back from there. *)
Definition value_reads (f : SField) (v : STValue) (depth : nat) (bs : list Z) : Prop :=
  forall fuel u r, (length (bs ++ terminator (getSType v)) + length r < fuel)%nat ->
    exists v', parse_var (object_of (set_loop fuel)) (fun d => array_loop fuel d []) f depth (mkIter u ((bs ++ terminator (getSType v)) ++ r)) =
        Ok (v', mkIter (rev (bs ++ terminator (getSType v)) ++ u) r) /\ apply_inner f v' = Ok v.

Definition value_ok (n : nat) : Prop :=
  forall f v depth, wf_value n f v -> (n + depth = 11)%nat -> exists bs, add_value v = Ok bs /\ value_reads f v depth bs.

Lemma leaf_reads f v depth bs (p : parser STValue) :
  (forall object array, parse_var object array f depth = p) -> terminator (getSType v) = [] -> apply_inner f v = Ok v -> reads p bs v -> value_reads f v depth bs.
Proof. intros Hp Ht Ha Hr fuel u r _. exists v. rewrite Hp, Ht, app_nil_r. split; [apply Hr|done]. Qed.

Lemma leaf_value_ok f v depth : wf_leaf v -> getSType v = fieldType f -> (depth <= 10)%nat -> exists bs, add_value v = Ok bs /\ value_reads f v depth bs.
Proof.
  intros Hwf Hty Hd. assert (Hd' : (10 <? depth)%nat = false) by (apply Nat.ltb_ge; lia).
  assert (Hp : forall object array, parse_var object array f depth = match fieldType f with
    | STI_UINT8 => v ← get8; mret (V_UInt8 v) | STI_UINT16 => v ← get16; mret (V_UInt16 v) | STI_UINT32 => v ← get32; mret (V_UInt32 v)
    | STI_UINT64 => v ← get64; mret (V_UInt64 v) | STI_AMOUNT => v ← parse_amount; mret (V_Amount v) | STI_HASH128 => v ← getBitString 128; mret (V_Hash128 v)
    | STI_HASH160 => v ← getBitString 160; mret (V_Hash160 v) | STI_HASH256 => v ← getBitString 256; mret (V_Hash256 v)
    | STI_VECTOR256 => v ← parse_vector256; mret (V_Vector256 v) | STI_VL => v ← getVLBuffer; mret (V_VL v) | STI_ACCOUNT => parse_account
    | STI_PATHSET => v ← parse_pathset; mret (V_PathSet v) | _ => parse_var object array f depth end).
  { intros object array. unfold parse_var. rewrite Hd'. by destruct (fieldType f). }
  destruct v as [|x|x|x|x|x|x|x|a|b|d x|ps|vs|fs|os]; cbn [wf_leaf getSType] in *; try done; rewrite <-Hty in Hp; cbn [add_value].
  - eexists. split; [done|]. eapply leaf_reads; [exact Hp|done..|]. unfold add8. rewrite u8_byte by done. eapply reads_bind_ret; [by apply reads_get8|apply reads_ret].
  - eexists. split; [done|]. eapply leaf_reads; [exact Hp|done..|]. rewrite add16_be. eapply reads_bind_ret; [by apply reads_get16|apply reads_ret].
  - eexists. split; [done|]. eapply leaf_reads; [exact Hp|done..|]. rewrite add32_be. eapply reads_bind_ret; [by apply reads_get32|apply reads_ret].
  - eexists. split; [done|]. eapply leaf_reads; [exact Hp|done..|]. rewrite add64_be. eapply reads_bind_ret; [by apply reads_get64|apply reads_ret].
  - eexists. split; [done|]. eapply leaf_reads; [exact Hp|done..|]. eapply reads_bind_ret; [by apply (reads_getBitString 128)|apply reads_ret].
  - eexists. split; [done|]. eapply leaf_reads; [exact Hp|done..|]. eapply reads_bind_ret; [by apply (reads_getBitString 160)|apply reads_ret].
  - eexists. split; [done|]. eapply leaf_reads; [exact Hp|done..|]. eapply reads_bind_ret; [by apply (reads_getBitString 256)|apply reads_ret].
  - eexists. split; [done|]. eapply leaf_reads; [exact Hp|done..|]. rewrite add_amount_spec by done. eapply reads_bind_ret; [by apply reads_amount|apply reads_ret].
  - rewrite addVL_spec, (proj2 (Z.leb_le _ _)) by done. eexists. split; [done|]. eapply leaf_reads; [exact Hp|done..|].
    eapply reads_bind_ret; [by apply reads_vl|apply reads_ret].
  - destruct Hwf as [Hx Hdx]. rewrite add_account_spec. eexists. split; [done|]. eapply leaf_reads; [exact Hp|done..|]. by apply reads_account.
  - eexists. split; [done|]. eapply leaf_reads; [exact Hp|done..|]. eapply reads_bind_ret; [by apply reads_pathset|apply reads_ret].
  - destruct Hwf as [Hl Hv]. rewrite add_vector256_spec by done. eexists. split; [done|]. eapply leaf_reads; [exact Hp|done..|].
    eapply reads_bind_ret; [by apply reads_vector256|apply reads_ret].
Qed.

Lemma wire_field_marker f t : wire_field f -> (t = STI_OBJECT \/ t = STI_ARRAY) -> is_marker t (sti_code (fieldType f)) (fieldValue f) = false.
Proof.
  intros (Hg & _) Ht. unfold is_marker. destruct (Z.eqb_spec (sti_code (fieldType f)) (sti_code t)) as [E1|]; [|done].
  destruct (Z.eqb_spec (fieldValue f) 1) as [E2|]; [|done]. exfalso. rewrite E1, E2 in Hg. destruct Ht as [-> | ->]; vm_compute in Hg; done.
Qed.

Lemma field_id_length f : wire_field f -> (1 <= length (addFieldID (sti_code (fieldType f)) (fieldValue f) []))%nat.
Proof. intros (_ & H1 & H2). change (addFieldID ?a ?b []) with (field_id a b). rewrite field_id_spec by done. cbn. lia. Qed.

Lemma reads_field_id f : wire_field f -> reads getFieldID (addFieldID (sti_code (fieldType f)) (fieldValue f) []) (sti_code (fieldType f), fieldValue f).
Proof. intros (_ & H1 & H2). by apply reads_getFieldID. Qed.

Lemma reads_marker t : (t = STI_OBJECT \/ t = STI_ARRAY) -> reads getFieldID (addFieldID (sti_code t) 1 []) (sti_code t, 1).
Proof. intros [-> | ->]; by apply reads_getFieldID. Qed.

Lemma iter_nonempty u bs r : (1 <= length bs)%nat -> iter_empty (mkIter u (bs ++ r)) = false.
Proof. destruct bs; cbn; [lia|done]. Qed.

Lemma encodes_exists n fields depth : value_ok n -> (n + depth = 11)%nat -> Forall (fun fv : SField * STValue => wf_value n fv.1 fv.2) fields ->
  exists es, Forall2 encodes fields es.
Proof.
  intros Hok Hd. induction 1 as [|[f v] fields Hwf Hfs IH]; [by exists []|]. destruct IH as [es Hes]. cbn in Hwf. destruct (Hok f v depth Hwf Hd) as (bs & E & _).
  exists ((f, getSType v, bs) :: es). constructor; [|done]. split; [|done]. unfold encode, encode_with. by rewrite (wf_included n f v Hwf), E.
Qed.

(** One pass of the loop of [STObject::set]. *)
Lemma set_loop_step n fv e depth fuel acc u r :
  value_ok n -> (n + S depth = 11)%nat -> wf_value n fv.1 fv.2 -> encodes fv e -> (length (emit e) + length r < S fuel)%nat ->
  set_loop (S fuel) depth acc (mkIter u (emit e ++ r)) = set_loop fuel depth (acc ++ [fv]) (mkIter (rev (emit e) ++ u) r).
Proof.
  intros Hok Hd Hwf [He _] Hf. destruct fv as [f v]. cbn [fst snd] in *. destruct (Hok f v (S depth) Hwf Hd) as (bs & Ev & Hread).
  unfold encode, encode_with in He. rewrite (wf_included n f v Hwf), Ev in He. injection He as <-. cbn [emit] in *.
  assert (Hw : wire_field f) by (destruct n; [done|]; by destruct Hwf). pose proof (field_id_length f Hw) as Hl.
  set (id := addFieldID (sti_code (fieldType f)) (fieldValue f) []) in *. cbn [set_loop]. rewrite <-app_assoc, iter_nonempty by done.
  unfold mbind at 1, parser_bind at 1. unfold id at 1. rewrite (reads_field_id f Hw). fold id. cbv iota beta.
  rewrite (wire_field_marker f STI_OBJECT Hw (or_introl eq_refl)), (wire_field_marker f STI_ARRAY Hw (or_intror eq_refl)), (proj1 Hw).
  rewrite length_app in Hf. destruct (Hread fuel (rev id ++ u) r) as (v' & E1 & E2); [lia|]. rewrite Nat.add_1_r. unfold mbind at 1, parser_bind at 1. rewrite E1.
  unfold mbind, parser_bind, lift. rewrite E2. f_equal. f_equal. by rewrite (rev_app_distr id), <-app_assoc.
Qed.

Lemma emit_length n fv e : wf_value n fv.1 fv.2 -> encodes fv e -> (1 <= length (emit e))%nat.
Proof.
  intros Hwf [_ Ef]. destruct e as [[f t] bs]. cbn in Ef. subst f. cbn [emit]. rewrite length_app.
  assert (Hw : wire_field fv.1) by (destruct n; [done|]; by destruct Hwf). pose proof (field_id_length _ Hw). lia.
Qed.

Lemma set_loop_fields n depth l es : value_ok n -> (n + S depth = 11)%nat -> Forall2 encodes l es -> Forall (fun fv : SField * STValue => wf_value n fv.1 fv.2) l ->
  forall fuel acc u r, (length (concat (map emit es)) + length r < fuel)%nat -> exists fuel', (length r < fuel')%nat /\
    set_loop fuel depth acc (mkIter u (concat (map emit es) ++ r)) = set_loop fuel' depth (acc ++ l) (mkIter (rev (concat (map emit es)) ++ u) r).
Proof.
  intros Hok Hd. induction 1 as [|fv e l es He Hes IH]; intros Hwf fuel acc u r Hf.
  - exists fuel. cbn in *. rewrite app_nil_r. split; [lia|done].
  - apply Forall_cons in Hwf as [Hfv Hwf]. cbn [map concat] in *. rewrite length_app in Hf. pose proof (emit_length n fv e Hfv He). destruct fuel as [|fuel]; [lia|].
    destruct (IH Hwf fuel (acc ++ [fv]) (rev (emit e) ++ u) r) as (fuel' & Hf' & E); [lia|]. exists fuel'. split; [done|].
    rewrite <-app_assoc, (set_loop_step n fv e), E by (done || rewrite length_app; lia). rewrite rev_app_distr, <-!app_assoc. done.
Qed.

Definition object_marker : list Z := addFieldID (sti_code STI_OBJECT) 1 [].

(** An object ended by its marker. *)
Lemma object_ok n depth fields : value_ok n -> (n + S depth = 11)%nat -> NoDup (codes fields) -> Forall (fun fv : SField * STValue => wf_value n fv.1 fv.2) fields ->
  exists es, mapR (encode true) fields = Ok es /\
    forall fuel u r, (length (emit_sorted es ++ object_marker) + length r < fuel)%nat ->
      object_of (set_loop fuel) depth (mkIter u ((emit_sorted es ++ object_marker) ++ r)) = Ok (sorted_fields fields, mkIter (rev (emit_sorted es ++ object_marker) ++ u) r).
Proof.
  intros Hok Hd Hn Hwf. destruct (encodes_exists n fields (S depth) Hok Hd Hwf) as [es Hes]. exists (map Some es). split; [by apply mapR_encodes|].
  destruct (emit_sorted_encodes fields es Hes) as (es' & Hes' & ->). intros fuel u r Hf.
  unfold object_of. rewrite (proj2 (Nat.ltb_ge 10 depth)) by lia. unfold mbind at 1, parser_bind at 1. rewrite <-app_assoc. rewrite length_app in Hf.
  destruct (set_loop_fields n depth _ es' Hok Hd Hes') with (fuel := fuel) (acc := ([] : Fields)) (u := u) (r := object_marker ++ r) as (fuel' & Hf' & E).
  { unfold sorted_fields. by rewrite sort_by_perm. }
  { rewrite length_app. lia. }
  rewrite E. destruct fuel' as [|fuel']; [lia|]. cbn [set_loop]. rewrite iter_nonempty by (vm_compute; lia). unfold mbind, parser_bind.
  unfold object_marker at 1. rewrite (reads_marker STI_OBJECT (or_introl eq_refl)). cbv iota beta. change (is_marker STI_OBJECT (sti_code STI_OBJECT) 1) with true. cbv iota beta.
  unfold mret, parser_ret, lift. rewrite app_nil_l, (check_sorted n) by done. f_equal. f_equal. f_equal. by rewrite rev_app_distr, <-app_assoc.
Qed.

(** *** Arrays *)

Definition wf_element (n : nat) (fo : SField * Fields) : Prop :=
  wire_field fo.1 /\ fieldType fo.1 = STI_OBJECT /\ in_order fo.1 fo.2 /\ Forall (fun fv : SField * STValue => wf_value n fv.1 fv.2) fo.2.

(** What [STArray::add] writes for one object. *)
Definition add_element_object (fo : SField * Fields) : res (list Z) :=
  let (f, fields) := fo in
  es ← mapR (encode true) fields;
  Ok (addFieldID (sti_code (fieldType f)) (fieldValue f) [] ++ emit_sorted es ++ addFieldID (sti_code STI_OBJECT) 1 []).

Lemma array_element_ok n depth fo : value_ok n -> (n + S (S depth) = 11)%nat -> wf_element n fo ->
  exists bs, add_element_object fo = Ok bs /\ (1 <= length bs)%nat /\
    forall fuel objects u r, (length bs + length r < S fuel)%nat ->
      array_loop (S fuel) depth objects (mkIter u (bs ++ r)) = array_loop fuel depth (objects ++ [fo]) (mkIter (rev bs ++ u) r).
Proof.
  intros Hok Hd (Hw & Hty & Ho & Hwf). destruct fo as [f fields]. cbn [fst snd] in *.
  destruct (object_ok n (S depth) fields Hok Hd (fields_in_order_NoDup f fields Ho) Hwf) as (es & E & Hread). cbn [add_element_object]. rewrite E. cbn [mbind res_bind].
  eexists. split; [done|]. pose proof (field_id_length f Hw) as Hl. set (id := addFieldID (sti_code (fieldType f)) (fieldValue f) []) in *.
  change (addFieldID (sti_code STI_OBJECT) 1 []) with object_marker. split; [rewrite length_app; lia|]. intros fuel objects u r Hf. rewrite length_app in Hf.
  cbn [array_loop]. rewrite <-app_assoc, iter_nonempty by done. unfold mbind at 1, parser_bind at 1. unfold id at 1. rewrite (reads_field_id f Hw). fold id. cbv iota beta.
  rewrite (wire_field_marker f STI_ARRAY Hw (or_intror eq_refl)), (wire_field_marker f STI_OBJECT Hw (or_introl eq_refl)), (proj1 Hw).
  rewrite bool_decide_true by done. cbn [negb]. unfold mbind at 1, parser_bind at 1. rewrite Nat.add_1_r, Hread by lia. unfold mbind, parser_bind, lift.
  rewrite apply_template_sorted by done. f_equal. f_equal. by rewrite (rev_app_distr id), <-app_assoc.
Qed.

Lemma array_objects_ok n depth objects : value_ok n -> (n + S (S depth) = 11)%nat -> Forall (wf_element n) objects ->
  exists bss, mapR add_element_object objects = Ok bss /\
    forall fuel acc u r, (length (concat bss) + length r < fuel)%nat -> exists fuel', (length r < fuel')%nat /\
      array_loop fuel depth acc (mkIter u (concat bss ++ r)) = array_loop fuel' depth (acc ++ objects) (mkIter (rev (concat bss) ++ u) r).
Proof.
  intros Hok Hd. induction 1 as [|fo objects Hfo Hos IH].
  - exists []. split; [done|]. intros fuel acc u r Hf. exists fuel. cbn in *. rewrite app_nil_r. split; [lia|done].
  - destruct IH as (bss & E & IH). destruct (array_element_ok n depth fo Hok Hd Hfo) as (bs & Eb & Hl & Hstep). exists (bs :: bss).
    split; [cbn [mapR]; rewrite Eb; cbn [mbind res_bind]; fold (mapR add_element_object objects); by rewrite E|].
    intros fuel acc u r Hf. cbn [concat] in *. rewrite length_app in Hf. destruct fuel as [|fuel]; [lia|].
    destruct (IH fuel (acc ++ [fo]) (rev bs ++ u) r) as (fuel' & Hf' & E'); [lia|]. exists fuel'. split; [done|].
    rewrite <-app_assoc, Hstep, E' by (rewrite length_app; lia). rewrite rev_app_distr, <-!app_assoc. done.
Qed.

Definition array_marker : list Z := addFieldID (sti_code STI_ARRAY) 1 [].

Lemma array_end fuel depth acc u r : array_loop (S fuel) depth acc (mkIter u (array_marker ++ r)) = Ok (acc, mkIter (rev array_marker ++ u) r).
Proof.
  cbn [array_loop]. rewrite iter_nonempty by (vm_compute; lia). unfold mbind, parser_bind.
  unfold array_marker at 1. rewrite (reads_marker STI_ARRAY (or_intror eq_refl)). done.
Qed.

Lemma array_ok n f objects depth : value_ok (n - 1) -> (S n + depth = 11)%nat -> fieldType f = STI_ARRAY ->
  match n with O => objects = [] | S n => Forall (wf_element n) objects end ->
  exists bs, add_value (V_Array objects) = Ok bs /\ value_reads f (V_Array objects) depth bs.
Proof.
  intros Hok Hd Hty Hwf. assert (H : exists bss, mapR add_element_object objects = Ok bss /\
    forall fuel acc u r, (length (concat bss) + length r < fuel)%nat -> exists fuel', (length r < fuel')%nat /\
      array_loop fuel depth acc (mkIter u (concat bss ++ r)) = array_loop fuel' depth (acc ++ objects) (mkIter (rev (concat bss) ++ u) r)).
  { destruct n as [|n].
    - subst objects. exists []. split; [done|]. intros fuel acc u r Hf. exists fuel. cbn in *. rewrite app_nil_r. split; [lia|done].
    - replace (S n - 1)%nat with n in Hok by lia. apply (array_objects_ok n); [done|lia|done]. }
  destruct H as (bss & E & Hread). cbn [add_value]. change (mapR _ objects) with (mapR add_element_object objects). rewrite E. cbn [mbind res_bind].
  eexists. split; [done|]. intros fuel u r Hf. change (terminator (getSType (V_Array objects))) with array_marker in *. exists (V_Array objects). split; [|done].
  unfold parse_var. rewrite (proj2 (Nat.ltb_ge 10 depth)), Hty by lia. unfold mbind, parser_bind. rewrite <-app_assoc. rewrite length_app in Hf.
  destruct (Hread fuel [] u (array_marker ++ r)) as (fuel' & Hf' & E'); [rewrite length_app; lia|]. rewrite E'. destruct fuel' as [|fuel']; [lia|].
  rewrite array_end. unfold mret, parser_ret. cbn [app]. f_equal. f_equal. f_equal. by rewrite rev_app_distr, <-app_assoc.
Qed.

Lemma object_value_ok n f fields depth : value_ok n -> (S n + depth = 11)%nat -> fieldType f = STI_OBJECT -> in_order f fields ->
  Forall (fun fv : SField * STValue => wf_value n fv.1 fv.2) fields ->
  exists bs, add_value (V_Object fields) = Ok bs /\ value_reads f (V_Object fields) depth bs.
Proof.
  intros Hok Hd Hty Ho Hwf. destruct (object_ok n depth fields Hok ltac:(lia) (fields_in_order_NoDup f fields Ho) Hwf) as (es & E & Hread).
  cbn [add_value]. change (mapR _ fields) with (mapR (encode true) fields). rewrite E. cbn [mbind res_bind]. eexists. split; [done|].
  intros fuel u r Hf. change (terminator (getSType (V_Object fields))) with object_marker in *. exists (V_Object (sorted_fields fields)). split.
  - unfold parse_var. rewrite (proj2 (Nat.ltb_ge 10 depth)), Hty by lia. unfold mbind, parser_bind. by rewrite Hread.
  - cbn [apply_inner]. by rewrite apply_template_sorted.
Qed.

Lemma values_ok n : value_ok n.
Proof.
  induction n as [n IH] using lt_wf_ind. intros f v depth Hwf Hd. destruct n as [|n]; [done|]. destruct Hwf as (Hw & Hty & Hv).
  destruct v as [|x|x|x|x|x|x|x|a|b|d x|ps|vs|fields|objects]; try (apply leaf_value_ok; [exact Hv|done|lia]).
  - destruct Hv as [Ho Hfs]. apply (object_value_ok n); [apply IH; lia|done|by rewrite <-Hty|done|done].
  - apply (array_ok n); [apply IH; lia|done|by rewrite <-Hty|exact Hv].
Qed.

(** ** Whole objects *)

(** The fields that are written: those with a value, but for the signatures when the
    object is written to be signed. *)
Definition written (whichFields : bool) (fields : Fields) : Fields := List.filter (fun fv : SField * STValue => isPresent fv.2 && shouldInclude whichFields fv.1) fields.

Lemma encode_written n w fields depth : (n + depth = 11)%nat -> Forall (fun fv : SField * STValue => fv.2 = V_NotPresent \/ wf_value n fv.1 fv.2) fields ->
  exists es, mapR (encode w) fields = Ok es /\ Forall2 encodes (written w fields) (omap id es).
Proof.
  intros Hd. induction 1 as [|[f v] fields Hwf Hfs IH]; [by exists []|]. cbn [fst snd] in Hwf. destruct IH as (es & E & Hes). cbn [written List.filter fst snd].
  cbn [mapR]. fold (mapR (encode w) fields). rewrite E. destruct Hwf as [->|Hwf]; [exists (None :: es); by split|].
  pose proof (wf_included n f v Hwf) as Hin. destruct (andb_prop _ _ Hin) as [Hpres _]. unfold encode at 1, encode_with. rewrite Hpres. cbn [andb]. destruct (shouldInclude w f) eqn:Ew.
  - destruct (values_ok n f v depth Hwf Hd) as (bs & Ev & _). rewrite Ev. cbn [mbind res_bind]. exists (Some (f, getSType v, bs) :: es). split; [done|].
    cbn. constructor; [|done]. split; [|done]. unfold encode, encode_with. by rewrite Hin, Ev.
  - exists (None :: es). by split.
Qed.

Lemma emit_sorted_omap es : emit_sorted es = emit_sorted (map Some (omap id es)).
Proof. unfold emit_sorted. by rewrite omap_Some. Qed.

Lemma written_NoDup w fields : NoDup (codes fields) -> NoDup (codes (written w fields)).
Proof.
  intros Hn. eapply sublist_NoDup; [exact Hn|]. unfold codes, written. induction fields as [|x fields IH]; cbn; [done|].
  destruct (_ && _); cbn; [apply sublist_skip|apply sublist_cons]; apply IH; cbn in Hn; by apply NoDup_cons in Hn as [_ ?].
Qed.

Lemma written_wf n w fields : Forall (fun fv : SField * STValue => fv.2 = V_NotPresent \/ wf_value n fv.1 fv.2) fields -> Forall (fun fv : SField * STValue => wf_value n fv.1 fv.2) (written w fields).
Proof. rewrite !List.Forall_forall. intros H x [Hx Hp]%filter_In. destruct (H x Hx) as [E|]; [|done]. by rewrite E in Hp. Qed.

Lemma written_perm w fields fields' : fields' ≡ₚ fields -> written w fields' ≡ₚ written w fields.
Proof. unfold written. induction 1 as [|x l l' _ IH|x y l|l1 l2 l3 _ IH1 _ IH2]; cbn; [done| | |by etrans]; repeat case_match; try done; [by constructor|by constructor]. Qed.

(** Fields with distinct codes come to one order. *)
Lemma sorted_fields_perm l l' : NoDup (codes l) -> l' ≡ₚ l -> sorted_fields l' = sorted_fields l.
Proof.
  intros Hn Hp. apply (sorted_keys_unique (fun fv : SField * STValue => getCode fv.1)).
  - apply sort_by_sorted. change (NoDup ((fun fv : SField * STValue => getCode fv.1) <$> l')). rewrite Hp. exact Hn.
  - by apply sort_by_sorted.
  - unfold sorted_fields. by rewrite !sort_by_perm.
Qed.

Lemma encodes_bytes l es es' : Forall2 encodes l es -> Forall2 encodes l es' -> es = es'.
Proof. intros H. revert es'. induction H as [|x e l es [He _] _ IH]; intros es'; inversion 1 as [|? e' ? es'' [He' _] Hes]; subst; [done|]. rewrite He in He'. injection He' as ->. f_equal. by apply IH. Qed.

(** C18. The binary form of objects loses nothing, and does not depend on the order in
    which an object has its fields. An object whose fields are distinct, in whatever
    order, each absent or with a value in range (inner objects in the order of their
    template, or of their codes if they have none, and at most ten levels deep) is
    serialized without an exception; any order of the fields gives the same bytes; and
    deserializing the bytes gives exactly the fields that are present, in the order of
    their codes, or, when the object was written to be signed, those that are not
    signatures. *)
Theorem object_roundtrip whichFields fields : wf_object fields ->
  exists bs l, add_object whichFields fields = Ok bs /\ (forall fields', fields' ≡ₚ fields -> add_object whichFields fields' = Ok bs) /\
    parse_object (iter bs) = Ok (l, mkIter (rev bs) []) /\ l ≡ₚ written whichFields fields /\ StronglySorted Z.lt (codes l).
Proof.
  intros [Hn Hwf]. assert (Hbytes : forall fields', fields' ≡ₚ fields -> exists es', Forall2 encodes (sorted_fields (written whichFields fields)) es' /\ add_object whichFields fields' = Ok (concat (map emit es'))).
  { intros fields' Hp. assert (Hwf' : Forall (fun fv : SField * STValue => fv.2 = V_NotPresent \/ wf_value 10 fv.1 fv.2) fields') by by rewrite Hp. destruct (encode_written 10 whichFields fields' 1 eq_refl Hwf') as (es & E & Hes).
    destruct (emit_sorted_encodes _ _ Hes) as (es' & Hes' & Eb). exists es'. rewrite (sorted_fields_perm (written whichFields fields)) in Hes'; [|by apply written_NoDup|by apply written_perm].
    split; [done|]. unfold add_object. rewrite E. cbn [mbind res_bind]. by rewrite emit_sorted_omap, Eb. }
  destruct (Hbytes fields (Permutation_refl _)) as (es & Hes & E). pose proof (written_NoDup whichFields fields Hn) as Hnl. pose proof (written_wf 10 whichFields fields Hwf) as Hwl.
  set (l := sorted_fields (written whichFields fields)) in *. exists (concat (map emit es)), l. split; [done|]. split; [|split; [|split; [apply sort_by_perm|by apply sort_by_sorted]]].
  - intros fields' Hp. destruct (Hbytes fields' Hp) as (es' & Hes' & ->). by rewrite (encodes_bytes _ _ _ Hes Hes').
  - unfold parse_object, object_of, getBytesLeft, iter. cbn [si_rest Nat.ltb Nat.leb]. unfold mbind, parser_bind.
    destruct (set_loop_fields 10 0 l es (values_ok 10) eq_refl Hes) with (fuel := S (length (concat (map emit es)))) (acc := ([] : Fields)) (u := ([] : list Z)) (r := ([] : list Z)) as (fuel' & Hf' & E'); [unfold l, sorted_fields; by rewrite sort_by_perm|cbn; lia|].
    rewrite app_nil_r in E'. rewrite E'. destruct fuel' as [|fuel']; [lia|]. cbn [set_loop iter_empty si_rest]. unfold lift. rewrite app_nil_l. unfold l. rewrite (check_sorted 10 _ Hnl Hwl). by rewrite app_nil_r.
Qed.

(** ** The deserializer ends *)

Definition moves (sit sit' : SerialIter) : Prop := exists bs, consumed sit sit' bs.

Lemma moves_left sit sit' : moves sit sit' -> (getBytesLeft sit' <= getBytesLeft sit)%nat.
Proof. intros [bs [E _]]. unfold getBytesLeft. rewrite E, length_app. lia. Qed.

Lemma moves_trans a b c : moves a b -> moves b c -> moves a c.
Proof. intros [bs H] [bs' H']. exists (bs ++ bs'). by eapply consumed_app. Qed.

(** On at most [k] bytes [p] does not run out of fuel and only moves forward. *)
Definition safe {A} (k : nat) (p : parser A) : Prop :=
  forall sit, (getBytesLeft sit <= k)%nat -> match p sit with Throw e => e <> out_of_fuel | Ok (_, sit') => moves sit sit' end.

(** Moreover it takes a byte. *)
Definition eats {A} (k : nat) (p : parser A) : Prop :=
  forall sit, (getBytesLeft sit <= k)%nat ->
    match p sit with Throw e => e <> out_of_fuel | Ok (_, sit') => moves sit sit' /\ (getBytesLeft sit' < getBytesLeft sit)%nat end.

Lemma safe_ret {A} k (a : A) : safe k (mret a).
Proof. intros sit _. exists []. apply consumed_nil. Qed.

Lemma safe_raise {A} k e : e <> out_of_fuel -> safe (A := A) k (raise e).
Proof. intros He sit _. done. Qed.

Lemma safe_lift {A} k (r : res A) : (forall e, r = Throw e -> e <> out_of_fuel) -> safe k (lift r).
Proof. intros Hr sit _. unfold lift. destruct r; [exists []; apply consumed_nil|by apply Hr]. Qed.

Lemma safe_bind {A B} k (p : parser A) (f : A -> parser B) : safe k p -> (forall a, safe k (f a)) -> safe k (p ≫= f).
Proof.
  intros Hp Hf sit Hk. unfold mbind, parser_bind. specialize (Hp sit Hk). destruct (p sit) as [[a sit']|e]; [|done]. pose proof (moves_left _ _ Hp).
  specialize (Hf a sit' ltac:(lia)). destruct (f a sit') as [[b sit2]|e]; [by eapply moves_trans|done].
Qed.

Lemma eats_bind {A B} k (p : parser A) (f : A -> parser B) : eats k p -> ((0 < k)%nat -> forall a, safe (k - 1) (f a)) -> eats k (p ≫= f).
Proof.
  intros Hp Hf sit Hk. unfold mbind, parser_bind. specialize (Hp sit Hk). destruct (p sit) as [[a sit']|e]; [|done]. destruct Hp as [Hp Hlt].
  specialize (Hf ltac:(lia) a sit' ltac:(lia)). destruct (f a sit') as [[b sit2]|e]; [|done]. pose proof (moves_left _ _ Hf). split; [by eapply moves_trans|lia].
Qed.

Lemma eats_safe {A} k (p : parser A) : eats k p -> safe k p.
Proof. intros H sit Hk. specialize (H sit Hk). destruct (p sit) as [[a sit']|e]; [apply H|done]. Qed.

Lemma safe_take k what n : safe k (take_bytes what n).
Proof. intros sit _. destruct (take_bytes what n sit) as [[t sit']|e] eqn:E; [by exists t; eapply take_bytes_Ok|]. unfold take_bytes in E. destruct (decide _); [by injection E as <-|done]. Qed.

Lemma eats_take k what n : (0 < n)%nat -> eats k (take_bytes what n).
Proof.
  intros Hn sit Hk. pose proof (safe_take k what n sit Hk) as H. destruct (take_bytes what n sit) as [[t sit']|e] eqn:E; [|done]. split; [done|].
  apply take_bytes_Ok in E as [[E _] Hl]. unfold getBytesLeft. rewrite E, length_app. lia.
Qed.

Create HintDb safe.
#[export] Hint Resolve safe_ret safe_take : safe.
#[export] Hint Extern 4 (safe _ (raise _)) => apply safe_raise; discriminate : safe.

(** Splits a chain of reads. *)
Ltac safe_chain :=
  repeat match goal with
  | |- safe _ (_ ≫= _) => apply safe_bind; [|intros ?]
  | |- safe _ (if ?b then _ else _) => destruct b
  | |- safe _ (match ?x with _ => _ end) => destruct x
  end; eauto with safe.

Lemma eats_get8 k : eats k get8.
Proof. unfold get8. apply eats_bind; [apply eats_take; lia|intros; apply safe_ret]. Qed.

Lemma safe_get8 k : safe k get8.
Proof. apply eats_safe, eats_get8. Qed.
#[export] Hint Resolve safe_get8 : safe.

Lemma safe_getBitString k n : safe k (getBitString n).
Proof. unfold getBitString. safe_chain. Qed.

Lemma safe_get64 k : safe k get64.
Proof. unfold get64. safe_chain. Qed.
#[export] Hint Resolve safe_getBitString safe_get64 : safe.

Lemma eats_getFieldID k : eats k getFieldID.
Proof. unfold getFieldID. apply eats_bind; [apply eats_get8|]. intros _ b. safe_chain. Qed.

Lemma safe_decodes k b1 b2 b3 :
  safe k (lift (decodeLengthLength b1)) /\ safe k (lift (decodeVLLength1 b1)) /\ safe k (lift (decodeVLLength2 b1 b2)) /\ safe k (lift (decodeVLLength3 b1 b2 b3)).
Proof.
  unfold decodeLengthLength, decodeVLLength1, decodeVLLength2, decodeVLLength3. split_and!; apply safe_lift; intros e; repeat case_match; intros [= <-]; done.
Qed.

Lemma safe_getVL k : safe k getVL.
Proof.
  unfold getVL, getVLDataLength, getRaw. pose proof (safe_decodes k) as H. safe_chain; apply H; exact 0.
Qed.
#[export] Hint Resolve safe_getVL : safe.

Lemma safe_amount k : safe k parse_amount.
Proof.
  unfold parse_amount. apply safe_bind; [apply safe_get64|]. intros v. destruct (_ =? 0); [safe_chain|]. apply safe_bind; [apply safe_getBitString|]. intros c.
  destruct (isSFC c) eqn:Hc; [eauto with safe|]. apply safe_bind; [apply safe_getBitString|]. intros i. destruct (isSFC i); [eauto with safe|].
  assert (Hcan : forall x o neg, 0 <= x -> safe k (lift (canonicalize (mkSTAmount (mkIssue c i) x o false neg)))).
  { intros x o neg Hx. apply safe_lift. intros e. rewrite canonicalize_issued by done. destruct (normalize _); [done|]. by intros [= <-]. }
  cbv zeta. set (x := Z.land v _). destruct (Z.eqb_spec x 0) as [|Hx]; cbn [negb]; [destruct (_ =? 512); cbn [negb]; [by apply Hcan|eauto with safe]|].
  destruct (Z.ltb_spec x cMinValue) as [|Hlow]; cbn [orb]; [eauto with safe|]. destruct (_ || _); [eauto with safe|]. apply Hcan. st_consts. lia.
Qed.

Lemma safe_pathset_loop fuel : forall k paths path, (k < fuel)%nat -> safe k (pathset_loop fuel paths path).
Proof.
  induction fuel as [|fuel IH]; intros k paths path Hk; [lia|]. cbn [pathset_loop]. apply eats_safe, eats_bind; [apply eats_get8|].
  intros Hk0 t. safe_chain; apply IH; lia.
Qed.

Lemma safe_pathset k : safe k parse_pathset.
Proof. intros sit Hs. unfold parse_pathset. by apply (safe_pathset_loop _ (getBytesLeft sit)); [lia|]. Qed.
#[export] Hint Resolve safe_amount safe_pathset : safe.

Lemma template_loop_exn t : forall fields v e, template_loop t fields v = Throw e -> e <> out_of_fuel.
Proof.
  induction t as [|[f style] t IH]; intros fields v e; cbn; [done|]. destruct (take_field f fields) as [[x rest]|].
  - destruct style; [apply IH|apply IH|destruct (isDefault x.2); [by intros [= <-]|apply IH]].
  - destruct style; [by intros [= <-]|apply IH|apply IH].
Qed.

Lemma applyTemplate_exn f fields e : applyTemplateFromSField f fields = Throw e -> e <> out_of_fuel.
Proof.
  unfold applyTemplateFromSField, applyTemplate. destruct (findSOTemplateBySField f) as [t|]; [|done].
  destruct (template_loop t fields []) as [[rest v]|e'] eqn:E; cbn; [destruct (forallb _ rest); [done|by intros [= <-]]|]. intros [= <-]. by eapply template_loop_exn.
Qed.

Lemma apply_inner_exn f v e : apply_inner f v = Throw e -> e <> out_of_fuel.
Proof.
  destruct v; cbn; try done. destruct (applyTemplateFromSField f fields) as [|e'] eqn:E; cbn; [done|]. intros [= <-]. by eapply applyTemplate_exn.
Qed.

Lemma check_duplicates_exn fields e : check_duplicates fields = Throw e -> e <> out_of_fuel.
Proof. unfold check_duplicates. destruct (adjacent_dup _); [by intros [= <-]|done]. Qed.

Lemma safe_parse_var k object array f depth : (forall d, safe k (object d)) -> (forall d, safe k (array d)) -> safe k (parse_var object array f depth).
Proof.
  intros Ho Ha. unfold parse_var. destruct (10 <? depth)%nat; [eauto with safe|]. destruct (fieldType f); unfold get16, get32, parse_vector256, parse_account, getVLBuffer;
    change (n ← getVLDataLength; getRaw n) with getVL; safe_chain.
Qed.

Lemma safe_object_of k loop depth : (forall d fields, safe k (loop d fields)) -> safe k (object_of loop depth).
Proof.
  intros Hl. unfold object_of. destruct (10 <? depth)%nat; [eauto with safe|]. apply safe_bind; [apply Hl|]. intros [fields ?]. apply safe_lift, check_duplicates_exn.
Qed.

Lemma safe_unless_empty {A} k (a : A) (p : parser A) : safe k p -> safe k (fun sit => if iter_empty sit then Ok (a, sit) else p sit).
Proof. intros Hp sit Hk. destruct (iter_empty sit); [exists []; apply consumed_nil|by apply Hp]. Qed.

Lemma safe_loops fuel : forall k, (k < fuel)%nat ->
  (forall depth fields, safe k (set_loop fuel depth fields)) /\ (forall depth objects, safe k (array_loop fuel depth objects)).
Proof.
  induction fuel as [|fuel IH]; intros k Hk; [lia|]. split; intros depth acc; cbn [set_loop array_loop]; apply safe_unless_empty, eats_safe, eats_bind;
    try apply eats_getFieldID; intros Hk0 [type field]; destruct (IH (k - 1)%nat ltac:(lia)) as [IH1 IH2].
  - destruct (is_marker STI_OBJECT type field); [eauto with safe|]. destruct (is_marker STI_ARRAY type field); [eauto with safe|].
    destruct (getField type field) as [fn|]; [|eauto with safe]. apply safe_bind; [apply safe_parse_var; [intros d; by apply safe_object_of|done]|].
    intros v. apply safe_bind; [apply safe_lift; intros e; apply apply_inner_exn|done].
  - destruct (is_marker STI_ARRAY type field); [eauto with safe|]. destruct (is_marker STI_OBJECT type field); [eauto with safe|].
    destruct (getField type field) as [fn|]; [|eauto with safe]. destruct (negb _); [eauto with safe|]. apply safe_bind; [by apply safe_object_of|].
    intros o. apply safe_bind; [apply safe_lift; intros e; apply applyTemplate_exn|done].
Qed.

(** C30. Deserialization ends on every input, well formed or not: with one pass
    allowed per byte left, and one more, the loops over fields, array elements and
    path elements never run out of passes, however they are nested; the result is
    an object, with no bytes read past the end, or one of the code's exceptions. *)
Theorem parse_object_terminates data :
  match parse_object (iter data) with
  | Ok (_, sit) => moves (iter data) sit
  | Throw e => e <> out_of_fuel
  end.
Proof.
  unfold parse_object. pose proof (safe_object_of (getBytesLeft (iter data)) (set_loop (S (getBytesLeft (iter data)))) 0) as H.
  destruct (safe_loops (S (getBytesLeft (iter data))) (getBytesLeft (iter data)) ltac:(lia)) as [H1 _]. specialize (H H1 (iter data) (Nat.le_refl _)).
  destruct (object_of _ 0 (iter data)) as [[fields sit]|e]; [|done]. exact H.
Qed.

(** ** What does not survive *)

(** A path element with account zero is accepted, but written again as the end
    marker of the set, so that the result is no path set any more. *)
Theorem pathset_zero_account :
  let bytes := typeAccount :: replicate 20 0 ++ [typeNone] in
  let paths := [[mkElem typeNone 0 0 0]] in
  parse_pathset (iter bytes) = Ok (paths, mkIter (rev bytes) []) /\
  add_pathset paths [] = [typeNone; typeNone] /\
  parse_pathset (iter (add_pathset paths [])) = Throw (runtime_error "empty path").
Proof. by vm_compute. Qed.

(** An empty path set is written, but not read. *)
Theorem pathset_empty : parse_pathset (iter (add_pathset [] [])) = Throw (runtime_error "empty path").
Proof. by vm_compute. Qed.

(** The bytes of a vector after its last full hash are dropped. *)
Theorem vector256_tail :
  exists sit, parse_vector256 (iter (vl_prefix 33 ++ replicate 33 7)) = Ok ([from_bytes (replicate 32 7)], sit) /\ si_rest sit = [].
Proof. eexists. vm_compute. by split. Qed.

(** ** An example *)

Definition demo_signer : SField * Fields :=
  (sfSigner, [(sfAccount, V_Account false 9); (sfSigningPubKey, V_VL [2; 7]); (sfTxnSignature, V_VL [48; 1])]).

Definition demo_tx : Fields :=
  [(sfTransactionType, V_UInt16 0); (sfFlags, V_UInt32 2147483648); (sfAmount, V_Amount usd_three); (sfFee, V_Amount (ofDrops 10 false));
   (sfSigningPubKey, V_VL []); (sfAccount, V_Account false 5); (sfDestination, V_Account false 6); (sfSigners, V_Array [demo_signer]);
   (sfPaths, V_PathSet [[path_element 0 7 9 false]; [path_element 9 0 0 false; path_element 0 0 0 true]])].

Lemma demo_wire_field f : existsb (fun g => bool_decide (g = f)) [sfTransactionType; sfFlags; sfAmount; sfFee; sfSigningPubKey; sfTxnSignature; sfAccount; sfDestination; sfSigners; sfSigner; sfPaths] = true -> wire_field f.
Proof.
  intros H. apply existsb_exists in H as (g & Hg & E%bool_decide_eq_true). subst g. repeat (destruct Hg as [<-|Hg]; [split_and!; [vm_compute; reflexivity|cbn; lia..]|]). done.
Qed.

Lemma demo_leaf n f v : (0 < n)%nat -> wire_field f -> getSType v = fieldType f -> wf_leaf v -> wf_value n f v.
Proof. intros Hn Hf Hty Hl. destruct n; [lia|]. split_and!; [done|done|]. by destruct v. Qed.

Ltac demo_leaf := apply demo_leaf; [lia|by apply demo_wire_field|done|cbn].

Lemma demo_elements : wire_pathset [[path_element 0 7 9 false]; [path_element 9 0 0 false; path_element 0 0 0 true]].
Proof. split; [done|]. repeat constructor; vm_compute; done. Qed.

Lemma demo_signer_ok : wf_element 8 demo_signer.
Proof.
  split_and!; [by apply demo_wire_field|done|done|]. repeat apply Forall_cons_2; [..|apply Forall_nil_2]; cbn [fst snd]; demo_leaf; vm_compute; done.
Qed.

(** The same fields in another order, with one that is absent. *)
Definition demo_unsorted : Fields := (sfTxnSignature, V_NotPresent) :: rev demo_tx.

Lemma demo_tx_ok : wf_object demo_unsorted.
Proof.
  split; [apply (bool_decide_eq_true_1 (NoDup _)); vm_compute; reflexivity|]. constructor; [by left|]. apply Forall_rev.
  repeat apply Forall_cons_2; [..|apply Forall_nil_2]; cbn [fst snd]; right.
  8: { split_and!; [by apply demo_wire_field|done|]. constructor; [exact demo_signer_ok|constructor]. }
  8: { demo_leaf. exact demo_elements. }
  all: demo_leaf.
  3: { split_and!; [vm_compute; done..|right; vm_compute; done|done]. }
  all: vm_compute; done || (split_and!; done).
Qed.

Lemma object_roundtrip_witness :
  exists bs l, add_object false demo_unsorted = Ok bs /\ parse_object (iter bs) = Ok (l, mkIter (rev bs) []) /\
    l ≡ₚ written false demo_unsorted /\ StronglySorted Z.lt (codes l).
Proof.
  destruct (object_roundtrip false demo_unsorted demo_tx_ok) as (bs & l & E1 & _ & E2 & E3 & E4). exists bs, l. split_and!; [exact E1|exact E2|exact E3|exact E4].
Defined.
