(* ===== verification/View.v ===== *)
(** * Ledger views: entries, keylets and the read interface

    Models protocol/Keylet.h, the [ReadView] and [RawView] interfaces of
    ledger/ReadView.h and ledger/RawView.h, and the successor search that
    ledger/impl/RawStateTable.cpp and ledger/impl/ApplyStateTable.cpp share. A
    view promises to behave like a finite map from keys to ledger entries; that
    promise is the class [ReadViewOf]. The content of an entry beyond its type
    and key is a parameter. *)

From stdpp Require Import sorting.
From S2P Require Import Prelude.

(** ** Entries and keylets *)

(** [LedgerEntryType] is its numeric code. *)
Definition ltANY : Z := -3.
Definition ltCHILD : Z := -2.
Definition ltINVALID : Z := -1.
Definition ltDIR_NODE : Z := 100.

Record SLE (D : Type) := mkSLE { sle_type : Z; sle_key : Z; sle_data : D }.
Arguments mkSLE {D}. Arguments sle_type {D}. Arguments sle_key {D}. Arguments sle_data {D}.

Record Keylet := mkKeylet { kl_type : Z; kl_key : Z }.

Definition check {D} (k : Keylet) (sle : SLE D) : bool :=
  if kl_type k =? ltANY then true else
  if kl_type k =? ltINVALID then false else
  if kl_type k =? ltCHILD then negb (sle_type sle =? ltDIR_NODE)
  else sle_type sle =? kl_type k.

(** [keylet::unchecked (key)]. *)
Definition unchecked (key : Z) : Keylet := mkKeylet ltANY key.

(** ** The read interface *)

Record ReadView (D : Type) := mkReadView {
  rv_exists : Keylet -> bool;
  rv_read : Keylet -> option (SLE D);
  rv_succ : Z -> option Z -> option Z
}.
Arguments mkReadView {D}. Arguments rv_exists {D}. Arguments rv_read {D}. Arguments rv_succ {D}.

(** [r] is the first key in [P] after [key], provided it is before [last]. *)
Definition succ_in (P : Z -> Prop) (key : Z) (last : option Z) (r : option Z) : Prop :=
  match r with
  | Some k' => P k' /\ key < k' /\ (forall k'', P k'' -> key < k'' -> k' <= k'') /\
      (forall l, last = Some l -> k' < l)
  | None => forall k', P k' -> key < k' -> exists l, last = Some l /\ l <= k'
  end.

Definition is_succ {A} (m : gmap Z A) : Z -> option Z -> option Z -> Prop :=
  succ_in (fun k => is_Some (m !! k)).

(** A view that presents exactly the entries of [m]. Existence is promised for
    keylets of the stored entry's type: [Ledger::exists] does not look at the type. *)
Class ReadViewOf {D} (v : ReadView D) (m : gmap Z (SLE D)) : Prop := {
  rv_read_spec : forall k, rv_read v k = m !! kl_key k ≫= fun s => if check k s then Some s else None;
  rv_exists_spec : forall k,
    (forall s, m !! kl_key k = Some s -> check k s = true) ->
    rv_exists v k = bool_decide (is_Some (m !! kl_key k));
  rv_succ_spec : forall key last, is_succ m key last (rv_succ v key last)
}.

Lemma succ_in_unique P key last r1 r2 :
  succ_in P key last r1 -> succ_in P key last r2 -> r1 = r2.
Proof.
  destruct r1 as [k1|], r2 as [k2|]; cbn; [| | |done].
  - intros (H1 & L1 & M1 & _) (H2 & L2 & M2 & _). f_equal.
    specialize (M1 _ H2 L2). specialize (M2 _ H1 L1). lia.
  - intros (H1 & L1 & _ & B1) H2. destruct (H2 _ H1 L1) as (l & -> & ?).
    specialize (B1 _ eq_refl). lia.
  - intros H1 (H2 & L2 & _ & B2). destruct (H1 _ H2 L2) as (l & -> & ?).
    specialize (B2 _ eq_refl). lia.
Qed.

Lemma succ_in_iff P Q key last r :
  (forall k, P k <-> Q k) -> succ_in P key last r -> succ_in Q key last r.
Proof.
  intros H. destruct r as [k|]; cbn.
  - intros (HP & L & M & B). repeat split; [by apply H|done| |done].
    intros k'' HQ. apply M. by apply H.
  - intros HN k' HQ. apply HN. by apply H.
Qed.

(** ** A layer of buffered changes over a base view

    [std::map] iterates in key order. *)

Definition key_le {V} (a b : Z * V) : Prop := a.1 <= b.1.

#[export] Instance key_le_dec {V} (a b : Z * V) : Decision (key_le a b).
Proof. unfold key_le. apply _. Defined.

#[export] Instance key_le_total {V} : Total (@key_le V).
Proof. intros [a ?] [b ?]. unfold key_le; cbn. lia. Qed.

#[export] Instance key_le_trans {V} : Transitive (@key_le V).
Proof. intros [a ?] [b ?] [c ?]. unfold key_le; cbn. lia. Qed.

Definition in_order {V} (m : gmap Z V) : list (Z * V) := merge_sort key_le (map_to_list m).

Lemma in_order_sorted {V} (m : gmap Z V) : StronglySorted key_le (in_order m).
Proof. apply Sorted_StronglySorted; [apply _|]. apply Sorted_merge_sort. apply _. Qed.

Lemma elem_of_in_order {V} (m : gmap Z V) k v : (k, v) ∈ in_order m <-> m !! k = Some v.
Proof.
  unfold in_order. rewrite merge_sort_Permutation. apply elem_of_map_to_list.
Qed.

Section Layer.
Context {V D : Type} (erased : V -> bool) (base : ReadView D) (items : gmap Z V).

(** The do-while loop: the base's successor that is not erased in this layer.
    Every iteration but the last consumes one erased key, so the number of items
    bounds the iterations. *)
Fixpoint base_succ (fuel : nat) (next : Z) (last : option Z) : option Z :=
  match fuel with
  | O => None
  | S n =>
      match rv_succ base next last with
      | None => None
      | Some k =>
          match items !! k with
          | Some item => if erased item then base_succ n k last else Some k
          | None => Some k
          end
      end
  end.

(** The first key after [key] that this layer itself provides. *)
Definition own_succ (key : Z) : option Z :=
  fst <$> List.find (fun kv => negb (erased (kv.2)))
            (List.filter (fun kv => key <? kv.1) (in_order items)).

Definition layer_succ (key : Z) (last : option Z) : option Z :=
  let next := base_succ (S (size items)) key last in
  let next :=
    match own_succ key with
    | Some k => match next with
                | None => Some k
                | Some n => if k <? n then Some k else Some n
                end
    | None => next
    end in
  match last, next with
  | Some l, Some n => if l <=? n then None else Some n
  | _, _ => next
  end.

(** What the layer shows: its own entries where it has them, the base's elsewhere. *)
Context (shown : V -> option (SLE D)).

Definition overlay (m : gmap Z (SLE D)) : gmap Z (SLE D) :=
  merge (fun o b => match o with Some item => shown item | None => b end) items m.

Lemma overlay_lookup m k :
  overlay m !! k = match items !! k with Some item => shown item | None => m !! k end.
Proof. unfold overlay. rewrite lookup_merge. by destruct (items !! k), (m !! k). Qed.
End Layer.

(** The successor search of a sorted list. *)
Lemma find_sorted {V} (f : Z * V -> bool) (l : list (Z * V)) key :
  StronglySorted key_le l ->
  succ_in (fun k => exists v, (k, v) ∈ l /\ f (k, v) = true) key None
    (fst <$> List.find f (List.filter (fun kv => key <? kv.1) l)).
Proof.
  induction 1 as [|[k v] l Hs IH Hk]; cbn.
  - intros k' (v & Hv & _). by apply elem_of_nil in Hv.
  - rewrite Forall_forall in Hk. destruct (key <? k) eqn:Elt; cbn.
    + destruct (f (k, v)) eqn:Ef; cbn.
      * split; [exists v; split; [left|done]|]. split; [lia|]. split; [|done].
        intros k'' (v'' & Hin & _) _. apply elem_of_cons in Hin as [[= -> ->]|Hin]; [lia|].
        by apply (Hk _ Hin).
      * eapply succ_in_iff, IH. intros k'. split; intros (v' & Hin & Hf); exists v'; split; try done.
        -- by right.
        -- apply elem_of_cons in Hin as [[= -> ->]|Hin]; [congruence|done].
    + destruct (List.find f _) as [[k0 v0]|] eqn:E0; cbn in *.
      * destruct IH as ((v' & Hin & Hf) & L & M & B). split; [exists v'; split; [by right|done]|].
        split; [done|]. split; [|done]. intros k'' (v'' & Hin'' & Hf'') L''.
        apply elem_of_cons in Hin'' as [[= -> ->]|Hin'']; [lia|]. apply M; [by exists v''|done].
      * intros k'' (v'' & Hin'' & Hf'') L''.
        apply elem_of_cons in Hin'' as [[= -> ->]|Hin'']; [lia|]. apply IH; [by exists v''|done].
Qed.

(** The number of items after a key: what the search has left. *)
Definition after {V} (key : Z) (items : gmap Z V) : nat :=
  size (filter (fun kv : Z * V => key < kv.1) items).

Lemma after_le {V} key (items : gmap Z V) : (after key items <= size items)%nat.
Proof. apply map_subseteq_size, map_filter_subseteq. Qed.

Lemma after_lt {V} key k (items : gmap Z V) v :
  key < k -> items !! k = Some v -> (after k items < after key items)%nat.
Proof.
  intros Hlt Hk. unfold after. apply map_subset_size. split.
  - apply map_subseteq_spec. intros k' v'. rewrite !map_lookup_filter_Some. cbn. intros []; split; [done|lia].
  - intros Hsub. assert (Hin : filter (fun kv : Z * V => k < kv.1) items !! k = Some v).
    { eapply lookup_weaken; [|exact Hsub]. by apply map_lookup_filter_Some. }
    apply map_lookup_filter_Some in Hin as [_ Hin]. cbn in Hin. lia.
Qed.

(** Taking the lower of two successors, then cutting at [last]. *)
Lemma succ_in_or P Q key last b o :
  succ_in P key last b -> succ_in Q key None o ->
  succ_in (fun k => Q k \/ P k) key last
    (let next := match o with
                 | Some k => match b with
                             | None => Some k
                             | Some n => if k <? n then Some k else Some n
                             end
                 | None => b
                 end in
     match last, next with
     | Some l, Some n => if l <=? n then None else Some n
     | _, _ => next
     end).
Proof.
  intros Hb Ho. destruct b as [b|], o as [o|]; cbn in Hb, Ho.
  - destruct Hb as (HP & L & M & B), Ho as (HQ & L' & M' & _).
    assert (Hnext : exists n, (if o <? b then Some o else Some b) = Some n /\ (Q n \/ P n) /\ key < n /\
      n <= b /\ n <= o).
    { destruct (Z.ltb_spec o b); [exists o|exists b]; repeat split; (tauto || lia). }
    destruct Hnext as (n & -> & Hn & Ln & Hnb & Hno).
    assert (HM : forall k, Q k \/ P k -> key < k -> n <= k).
    { intros k [H|H] Lk; [specialize (M' _ H Lk)|specialize (M _ H Lk)]; lia. }
    destruct last as [l|]; cbn; [|by repeat split].
    specialize (B _ eq_refl). rewrite (proj2 (Z.leb_gt l n)) by lia. repeat split; try done.
    intros ? [= <-]. lia.
  - destruct Hb as (HP & L & M & B).
    assert (HM : forall k, Q k \/ P k -> key < k -> b <= k).
    { intros k [H|H] Lk; [by destruct (Ho _ H Lk) as (? & ? & ?)|by apply M]. }
    destruct last as [l|]; cbn; [|by repeat split; try right].
    specialize (B _ eq_refl). rewrite (proj2 (Z.leb_gt l b)) by lia. repeat split; try done; [by right|].
    intros ? [= <-]. lia.
  - destruct Ho as (HQ & L & M & _). destruct last as [l|]; cbn.
    + destruct (Z.leb_spec l o); cbn.
      * intros k [H'|H'] Lk; [exists l; split; [done|]; specialize (M _ H' Lk); lia|by apply Hb].
      * repeat split; [by left|done| |intros ? [= <-]; lia]. intros k [H'|H'] Lk; [by apply M|].
        destruct (Hb _ H' Lk) as (? & [= <-] & ?). lia.
    + repeat split; [by left|done| |done]. intros k [H'|H'] Lk; [by apply M|].
      by destruct (Hb _ H' Lk) as (? & ? & ?).
  - destruct last as [l|]; cbn; (intros k [H'|H'] Lk; [by destruct (Ho _ H' Lk) as (? & ? & ?)|by apply Hb]).
Qed.

Section LayerFacts.
Context {V D : Type} (erased : V -> bool) (base : ReadView D) (items : gmap Z V).
Context (shown : V -> option (SLE D)) (m : gmap Z (SLE D)) `{!ReadViewOf base m}.
Context (Hshown : forall k v, items !! k = Some v -> erased v = true <-> shown v = None).

Lemma base_succ_spec fuel next last :
  (after next items < fuel)%nat ->
  succ_in (fun k => is_Some (m !! k) /\ (forall v, items !! k = Some v -> erased v = false))
    next last (base_succ erased base items fuel next last).
Proof.
  revert next. induction fuel as [|n IH]; intros next Hf; [lia|]. cbn.
  pose proof (rv_succ_spec next last) as Hs. unfold is_succ in Hs.
  destruct (rv_succ base next last) as [k|]; cbn in Hs.
  2: { intros k' [HP _]. by apply Hs. }
  destruct Hs as (Hk & L & M & B).
  destruct (items !! k) as [v|] eqn:Ei.
  2: { split; [split; [done|congruence]|]. split; [done|]. split; [|done].
       intros k'' [Hk'' _]. by apply M. }
  destruct (erased v) eqn:Ee.
  2: { split; [split; [done|congruence]|]. split; [done|]. split; [|done].
       intros k'' [Hk'' _]. by apply M. }
  specialize (IH k). destruct (base_succ erased base items n k last) as [k1|] eqn:E1.
  - destruct IH as (HP & L1 & M1 & B1).
    { pose proof (after_lt _ _ _ _ L Ei). lia. }
    split; [done|]. split; [lia|]. split; [|done].
    intros k'' HP'' L''. apply M1; [done|]. destruct HP'' as [Hm'' He''].
    specialize (M _ Hm'' L''). assert (k'' <> k); [|lia]. intros ->. by rewrite (He'' _ Ei) in Ee.
  - intros k'' HP'' L''. apply IH; [pose proof (after_lt _ _ _ _ L Ei); lia|done|]. destruct HP'' as [Hm'' He''].
    specialize (M _ Hm'' L''). assert (k'' <> k); [|lia]. intros ->. by rewrite (He'' _ Ei) in Ee.
Qed.

Lemma own_succ_spec key :
  succ_in (fun k => exists v, items !! k = Some v /\ erased v = false) key None
    (own_succ erased items key).
Proof.
  eapply succ_in_iff, find_sorted, in_order_sorted. intros k. cbn.
  split; intros (v & H1 & H2); exists v; (split; [by apply elem_of_in_order|]).
  - by apply negb_true_iff in H2.
  - by rewrite H2.
Qed.

(** The key is shown by the layer or by the base. *)
Lemma overlay_dom k :
  is_Some (overlay items shown m !! k) <->
  (exists v, items !! k = Some v /\ erased v = false) \/
  (is_Some (m !! k) /\ forall v, items !! k = Some v -> erased v = false).
Proof.
  rewrite overlay_lookup. destruct (items !! k) as [v|] eqn:E.
  - specialize (Hshown k v E). destruct (shown v) as [s|].
    + assert (erased v = false) by (destruct (erased v); [by destruct Hshown as [H _]; specialize (H eq_refl)|done]).
      split; [|by eauto]. intros _. left. by exists v.
    + assert (Ee : erased v = true) by by apply Hshown. split; [by intros []|].
      intros [(v' & [= <-] & H)|[_ H]]; [|specialize (H _ eq_refl)]; congruence.
  - split; [intros H; right; split; [done|congruence]|]. by intros [(v' & ? & _)|[? _]].
Qed.

Lemma layer_succ_spec key last :
  is_succ (overlay items shown m) key last (layer_succ erased base items key last).
Proof.
  unfold is_succ. eapply succ_in_iff; [intros k; symmetry; apply overlay_dom|].
  unfold layer_succ. apply succ_in_or; [|apply own_succ_spec].
  apply base_succ_spec. pose proof (after_le key items). lia.
Qed.
End LayerFacts.

(** ** The write interface

    What a buffered layer is flushed into: [rawErase], [rawInsert],
    [rawReplace] and [rawDestroySFC], with the map the target denotes. *)

Class RawView (D T : Type) := {
  rawErase : SLE D -> T -> res T;
  rawInsert : SLE D -> T -> res T;
  rawReplace : SLE D -> T -> res T;
  rawDestroySFC : Z -> T -> T
}.

(** The target [t] denotes the entries [m] and has [d] drops destroyed in it. *)
Class RawViewLaws (D T : Type) `{!RawView D T} (denotes : T -> gmap Z (SLE D) -> Z -> Prop) : Prop := {
  rawErase_spec t m d s : denotes t m d -> is_Some (m !! sle_key s) ->
    exists t', rawErase s t = Ok t' /\ denotes t' (delete (sle_key s) m) d;
  rawInsert_spec t m d s : denotes t m d -> m !! sle_key s = None ->
    exists t', rawInsert s t = Ok t' /\ denotes t' (<[sle_key s := s]> m) d;
  rawReplace_spec t m d s : denotes t m d -> is_Some (m !! sle_key s) ->
    exists t', rawReplace s t = Ok t' /\ denotes t' (<[sle_key s := s]> m) d;
  rawDestroySFC_spec t m d x : denotes t m d -> denotes (rawDestroySFC x t) m (d + x)
}.

(** ** Flushing a layer

    A range-for over the items in key order, one write per item. *)
Section Flush.
Context {V D T : Type} `{!RawView D T} (denotes : T -> gmap Z (SLE D) -> Z -> Prop).
Context (items : gmap Z V) (shown : V -> option (SLE D)) (m : gmap Z (SLE D)) (step : Z * V -> T -> res T).

(** Writing one item, at a key the flush has not touched yet. *)
Definition writes : Prop := forall k v t mm d,
  items !! k = Some v -> mm !! k = m !! k -> denotes t mm d ->
  exists t', step (k, v) t = Ok t' /\ denotes t' (partial_alter (fun _ => shown v) k mm) d.

Definition written (l : list (Z * V)) (mm : gmap Z (SLE D)) : gmap Z (SLE D) :=
  foldl (fun mm kv => partial_alter (fun _ => shown kv.2) kv.1 mm) mm l.

Lemma written_lookup l mm k :
  NoDup l.*1 ->
  written l mm !! k = match (list_to_map l : gmap Z V) !! k with
                      | Some v => shown v | None => mm !! k end.
Proof.
  unfold written. revert mm. induction l as [|[k' v'] l IH]; intros mm; cbn; [done|].
  intros [Hk Hl]%NoDup_cons. rewrite IH by done. destruct (decide (k = k')) as [->|Hne].
  - rewrite lookup_insert_eq. rewrite (proj1 (not_elem_of_list_to_map l k')) by done.
    by rewrite lookup_partial_alter_eq.
  - rewrite lookup_insert_ne by done. destruct (_ !! k); [done|]. by rewrite lookup_partial_alter_ne.
Qed.

Lemma for_each_writes l mm t d :
  writes -> NoDup l.*1 -> (forall k v, (k, v) ∈ l -> items !! k = Some v) ->
  (forall k, k ∈ l.*1 -> mm !! k = m !! k) -> denotes t mm d ->
  exists t', for_each step l t = Ok t' /\ denotes t' (written l mm) d.
Proof.
  intros Hw. revert mm t. induction l as [|[k v] l IH]; intros mm t; cbn; [by eauto|].
  intros [Hk Hl]%NoDup_cons Hin Hmm Ht.
  destruct (Hw k v t mm d) as (t1 & -> & Ht1); [apply Hin; left|apply Hmm; left|done|]. cbn.
  apply IH; try done.
  - intros k' v' H. apply Hin. by right.
  - intros k' H. rewrite lookup_partial_alter_ne by (intros ->; done). apply Hmm. by right.
Qed.

Lemma in_order_NoDup : NoDup (in_order items).*1.
Proof. unfold in_order. rewrite merge_sort_Permutation. apply NoDup_fst_map_to_list. Qed.

Lemma flush_spec t d :
  writes -> denotes t m d ->
  exists t', for_each step (in_order items) t = Ok t' /\ denotes t' (overlay items shown m) d.
Proof.
  intros Hw Ht.
  destruct (for_each_writes (in_order items) m t d) as (t' & Hf & Hd); try done.
  - apply in_order_NoDup.
  - intros k v. apply elem_of_in_order.
  - exists t'. split; [done|]. replace (overlay items shown m) with (written (in_order items) m); [done|].
    apply map_eq. intros k. rewrite written_lookup, overlay_lookup by apply in_order_NoDup.
    replace (list_to_map (in_order items)) with items; [done|].
    rewrite <-(list_to_map_to_list items) at 1. symmetry. apply list_to_map_proper;
      [apply in_order_NoDup|apply merge_sort_Permutation].
Qed.
End Flush.
