(* ===== verification/TER.v ===== *)
(** * Transaction result codes

    Models protocol/TER.h: the codes of the engine and their classes, with
    [ApplyFlags] of ledger/ApplyView.h. *)

From S2P Require Import Prelude.

(** The enumerations [TELcodes], [TEMcodes], [TEFcodes], [TERcodes], [TEScodes] and
    [TECcodes], which the class [TER] joins. *)
Inductive TERcode :=
| telLOCAL_ERROR | telBAD_DOMAIN | telBAD_PATH_COUNT | telBAD_PUBLIC_KEY
| telFAILED_PROCESSING | telINSUF_FEE_P | telNO_DST_PARTIAL | telCAN_NOT_QUEUE
| telCAN_NOT_QUEUE_BALANCE | telCAN_NOT_QUEUE_BLOCKS | telCAN_NOT_QUEUE_BLOCKED | telCAN_NOT_QUEUE_FEE
| telCAN_NOT_QUEUE_FULL | temMALFORMED | temBAD_AMOUNT | temBAD_CURRENCY
| temBAD_EXPIRATION | temBAD_FEE | temBAD_ISSUER | temBAD_LIMIT
| temBAD_OFFER | temBAD_PATH | temBAD_PATH_LOOP | temBAD_REGKEY
| temBAD_SEND_SFC_LIMIT | temBAD_SEND_SFC_MAX | temBAD_SEND_SFC_NO_DIRECT | temBAD_SEND_SFC_PARTIAL
| temBAD_SEND_SFC_PATHS | temBAD_SEQUENCE | temBAD_SIGNATURE | temBAD_SRC_ACCOUNT
| temBAD_TRANSFER_RATE | temDST_IS_SRC | temDST_NEEDED | temINVALID
| temINVALID_FLAG | temREDUNDANT | temSUPPLYFINANCECHAIN_EMPTY | temDISABLED
| temBAD_SIGNER | temBAD_QUORUM | temBAD_WEIGHT | temBAD_TICK_SIZE
| temINVALID_ACCOUNT_ID | temCANNOT_PREAUTH_SELF | temUNCERTAIN | temUNKNOWN
| tefFAILURE | tefALREADY | tefBAD_ADD_AUTH | tefBAD_AUTH
| tefBAD_LEDGER | tefCREATED | tefEXCEPTION | tefINTERNAL
| tefNO_AUTH_REQUIRED | tefPAST_SEQ | tefWRONG_PRIOR | tefMASTER_DISABLED
| tefMAX_LEDGER | tefBAD_SIGNATURE | tefBAD_QUORUM | tefNOT_MULTI_SIGNING
| tefBAD_AUTH_MASTER | tefINVARIANT_FAILED | terRETRY | terFUNDS_SPENT
| terINSUF_FEE_B | terNO_ACCOUNT | terNO_AUTH | terNO_LINE
| terOWNERS | terPRE_SEQ | terLAST | terNO_SUPPLYFINANCECHAIN
| terQUEUED | tesSUCCESS | tecCLAIM | tecPATH_PARTIAL
| tecUNFUNDED_ADD | tecUNFUNDED_OFFER | tecUNFUNDED_PAYMENT | tecFAILED_PROCESSING
| tecDIR_FULL | tecINSUF_RESERVE_LINE | tecINSUF_RESERVE_OFFER | tecNO_DST
| tecNO_DST_INSUF_SFC | tecNO_LINE_INSUF_RESERVE | tecNO_LINE_REDUNDANT | tecPATH_DRY
| tecUNFUNDED | tecNO_ALTERNATIVE_KEY | tecNO_REGULAR_KEY | tecOWNERS
| tecNO_ISSUER | tecNO_AUTH | tecNO_LINE | tecINSUFF_FEE
| tecFROZEN | tecNO_TARGET | tecNO_PERMISSION | tecNO_ENTRY
| tecINSUFFICIENT_RESERVE | tecNEED_MASTER_KEY | tecDST_TAG_NEEDED | tecINTERNAL
| tecOVERSIZE | tecCRYPTOCONDITION_ERROR | tecINVARIANT_FAILED | tecEXPIRED
| tecDUPLICATE | tecKILLED.

(** The number of a code. A result is passed on as its number. *)
Definition TERtoInt (c : TERcode) : Z :=
  match c with
  | telLOCAL_ERROR => -399 | telBAD_DOMAIN => -398 | telBAD_PATH_COUNT => -397 | telBAD_PUBLIC_KEY => -396
  | telFAILED_PROCESSING => -395 | telINSUF_FEE_P => -394 | telNO_DST_PARTIAL => -393 | telCAN_NOT_QUEUE => -392
  | telCAN_NOT_QUEUE_BALANCE => -391 | telCAN_NOT_QUEUE_BLOCKS => -390 | telCAN_NOT_QUEUE_BLOCKED => -389 | telCAN_NOT_QUEUE_FEE => -388
  | telCAN_NOT_QUEUE_FULL => -387 | temMALFORMED => -299 | temBAD_AMOUNT => -298 | temBAD_CURRENCY => -297
  | temBAD_EXPIRATION => -296 | temBAD_FEE => -295 | temBAD_ISSUER => -294 | temBAD_LIMIT => -293
  | temBAD_OFFER => -292 | temBAD_PATH => -291 | temBAD_PATH_LOOP => -290 | temBAD_REGKEY => -289
  | temBAD_SEND_SFC_LIMIT => -288 | temBAD_SEND_SFC_MAX => -287 | temBAD_SEND_SFC_NO_DIRECT => -286 | temBAD_SEND_SFC_PARTIAL => -285
  | temBAD_SEND_SFC_PATHS => -284 | temBAD_SEQUENCE => -283 | temBAD_SIGNATURE => -282 | temBAD_SRC_ACCOUNT => -281
  | temBAD_TRANSFER_RATE => -280 | temDST_IS_SRC => -279 | temDST_NEEDED => -278 | temINVALID => -277
  | temINVALID_FLAG => -276 | temREDUNDANT => -275 | temSUPPLYFINANCECHAIN_EMPTY => -274 | temDISABLED => -273
  | temBAD_SIGNER => -272 | temBAD_QUORUM => -271 | temBAD_WEIGHT => -270 | temBAD_TICK_SIZE => -269
  | temINVALID_ACCOUNT_ID => -268 | temCANNOT_PREAUTH_SELF => -267 | temUNCERTAIN => -266 | temUNKNOWN => -265
  | tefFAILURE => -199 | tefALREADY => -198 | tefBAD_ADD_AUTH => -197 | tefBAD_AUTH => -196
  | tefBAD_LEDGER => -195 | tefCREATED => -194 | tefEXCEPTION => -193 | tefINTERNAL => -192
  | tefNO_AUTH_REQUIRED => -191 | tefPAST_SEQ => -190 | tefWRONG_PRIOR => -189 | tefMASTER_DISABLED => -188
  | tefMAX_LEDGER => -187 | tefBAD_SIGNATURE => -186 | tefBAD_QUORUM => -185 | tefNOT_MULTI_SIGNING => -184
  | tefBAD_AUTH_MASTER => -183 | tefINVARIANT_FAILED => -182 | terRETRY => -99 | terFUNDS_SPENT => -98
  | terINSUF_FEE_B => -97 | terNO_ACCOUNT => -96 | terNO_AUTH => -95 | terNO_LINE => -94
  | terOWNERS => -93 | terPRE_SEQ => -92 | terLAST => -91 | terNO_SUPPLYFINANCECHAIN => -90
  | terQUEUED => -89 | tesSUCCESS => 0 | tecCLAIM => 100 | tecPATH_PARTIAL => 101
  | tecUNFUNDED_ADD => 102 | tecUNFUNDED_OFFER => 103 | tecUNFUNDED_PAYMENT => 104 | tecFAILED_PROCESSING => 105
  | tecDIR_FULL => 121 | tecINSUF_RESERVE_LINE => 122 | tecINSUF_RESERVE_OFFER => 123 | tecNO_DST => 124
  | tecNO_DST_INSUF_SFC => 125 | tecNO_LINE_INSUF_RESERVE => 126 | tecNO_LINE_REDUNDANT => 127 | tecPATH_DRY => 128
  | tecUNFUNDED => 129 | tecNO_ALTERNATIVE_KEY => 130 | tecNO_REGULAR_KEY => 131 | tecOWNERS => 132
  | tecNO_ISSUER => 133 | tecNO_AUTH => 134 | tecNO_LINE => 135 | tecINSUFF_FEE => 136
  | tecFROZEN => 137 | tecNO_TARGET => 138 | tecNO_PERMISSION => 139 | tecNO_ENTRY => 140
  | tecINSUFFICIENT_RESERVE => 141 | tecNEED_MASTER_KEY => 142 | tecDST_TAG_NEEDED => 143 | tecINTERNAL => 144
  | tecOVERSIZE => 145 | tecCRYPTOCONDITION_ERROR => 146 | tecINVARIANT_FAILED => 147 | tecEXPIRED => 148
  | tecDUPLICATE => 149 | tecKILLED => 150
  end.

Coercion TERtoInt : TERcode >-> Z.

Definition isTelLocal (x : Z) : bool := (telLOCAL_ERROR <=? x) && (x <? temMALFORMED).
Definition isTemMalformed (x : Z) : bool := (temMALFORMED <=? x) && (x <? tefFAILURE).
Definition isTefFailure (x : Z) : bool := (tefFAILURE <=? x) && (x <? terRETRY).
Definition isTerRetry (x : Z) : bool := (terRETRY <=? x) && (x <? tesSUCCESS).
Definition isTesSuccess (x : Z) : bool := x =? tesSUCCESS.
Definition isTecClaim (x : Z) : bool := tecCLAIM <=? x.

(** The flags of an application. *)
Inductive ApplyFlag := tapNONE | tapRETRY | tapPREFER_QUEUE | tapUNLIMITED.

Definition tap_code (f : ApplyFlag) : Z :=
  match f with tapNONE => 0 | tapRETRY => 32 | tapPREFER_QUEUE => 64 | tapUNLIMITED => 1024 end.

Coercion tap_code : ApplyFlag >-> Z.

Definition isTecClaimHardFail (ter flags : Z) : bool := isTecClaim ter && (Z.land flags tapRETRY =? 0).
