(* ===== verification/Indexes.v ===== *)
(** * Keys of ledger entries

    Models protocol/impl/Indexes.cpp and the enumerations of
    protocol/LedgerFormats.h it uses; its assertions are not modelled. The key of an entry is a digest of a name
    space and what identifies the entry in it. The digest is a parameter. The
    preimages are shown to be distinct, so that keys are as distinct as the digest
    makes them; directories of an order book give up the low 64 bits of the key for
    the quality. *)

From S2P Require Import Prelude STAmount Serializer View.

(** Name spaces: the characters of [LedgerNameSpace]. *)
Definition spaceAccount : Z := 97.
Definition spaceDirNode : Z := 100.
Definition spaceGenerator : Z := 103.
Definition spaceSupplyFinanceChain : Z := 114.
Definition spaceOffer : Z := 111.
Definition spaceOwnerDir : Z := 79.
Definition spaceBookDir : Z := 66.
Definition spaceSkipList : Z := 115.
Definition spaceEscrow : Z := 117.
Definition spaceAmendment : Z := 102.
Definition spaceFee : Z := 101.
Definition spaceTicket : Z := 84.
Definition spaceSignerList : Z := 83.
Definition spaceSFCUChannel : Z := 120.
Definition spaceCheck : Z := 67.
Definition spaceDepositPreauth : Z := 112.

(** Types: the characters of [LedgerEntryType]; directories are in View.v. *)
Definition ltACCOUNT_ROOT : Z := 97.
Definition ltSUPPLYFINANCECHAIN_STATE : Z := 114.
Definition ltTICKET : Z := 84.
Definition ltSIGNER_LIST : Z := 83.
Definition ltOFFER : Z := 111.
Definition ltLEDGER_HASHES : Z := 104.
Definition ltAMENDMENTS : Z := 102.
Definition ltFEE_SETTINGS : Z := 115.
Definition ltESCROW : Z := 117.
Definition ltPAYCHAN : Z := 120.
Definition ltCHECK : Z := 67.
Definition ltDEPOSIT_PREAUTH : Z := 112.

(** ** Preimages *)

(** [hash_append] of integers and of 160-bit and 256-bit values. *)
Definition ns (space : Z) : list Z := big_endian 2 space.
Definition id160 (a : Z) : list Z := big_endian 20 a.
Definition num32 (n : Z) : list Z := big_endian 4 n.

Record Book := mkBook { book_in : Issue; book_out : Issue }.

Section Index.
Context (sha512Half : list Z -> Z).

Definition getLedgerHashIndex0 : Z := sha512Half (ns spaceSkipList).
Definition getLedgerHashIndex (desiredLedgerIndex : Z) : Z := sha512Half (ns spaceSkipList ++ num32 (Z.shiftr desiredLedgerIndex 16)).
Definition getLedgerAmendmentIndex : Z := sha512Half (ns spaceAmendment).
Definition getLedgerFeeIndex : Z := sha512Half (ns spaceFee).
Definition getAccountRootIndex (account : Z) : Z := sha512Half (ns spaceAccount ++ id160 account).
Definition getGeneratorIndex (uGeneratorID : Z) : Z := sha512Half (ns spaceGenerator ++ id160 uGeneratorID).

(** Replaces the 8 low bytes. *)
Definition getQualityIndex (uBase uNodeDir : Z) : Z := Z.lor (Z.shiftl (Z.shiftr uBase 64) 64) (u64 uNodeDir).

Definition book_preimage (b : Book) : list Z :=
  ns spaceBookDir ++ id160 (currency (book_in b)) ++ id160 (currency (book_out b)) ++ id160 (account (book_in b)) ++ id160 (account (book_out b)).

Definition getBookBase (b : Book) : Z := getQualityIndex (sha512Half (book_preimage b)) 0.
Definition getOfferIndex (account uSequence : Z) : Z := sha512Half (ns spaceOffer ++ id160 account ++ num32 uSequence).
Definition getOwnerDirIndex (account : Z) : Z := sha512Half (ns spaceOwnerDir ++ id160 account).

Definition getDirNodeIndex (uDirRoot uNodeIndex : Z) : Z :=
  if uNodeIndex =? 0 then uDirRoot else sha512Half (ns spaceDirNode ++ big_endian 32 uDirRoot ++ big_endian 8 uNodeIndex).

Definition getQualityNext (uBase : Z) : Z := (uBase + 2 ^ 64) mod 2 ^ 256.
Definition getQuality (uBase : Z) : Z := Z.land uBase (Z.ones 64).
Definition getTicketIndex (account uSequence : Z) : Z := sha512Half (ns spaceTicket ++ id160 account ++ num32 uSequence).

Definition line_preimage (a b currency : Z) : list Z :=
  if a <? b then ns spaceSupplyFinanceChain ++ id160 a ++ id160 b ++ id160 currency
  else ns spaceSupplyFinanceChain ++ id160 b ++ id160 a ++ id160 currency.

Definition getSupplyFinanceChainStateIndex (a b currency : Z) : Z := sha512Half (line_preimage a b currency).
Definition getSupplyFinanceChainStateIndex_issue (a : Z) (issue : Issue) : Z := getSupplyFinanceChainStateIndex a (account issue) (currency issue).
Definition getSignerListIndex (account : Z) : Z := sha512Half (ns spaceSignerList ++ id160 account ++ num32 0).
Definition getCheckIndex (account uSequence : Z) : Z := sha512Half (ns spaceCheck ++ id160 account ++ num32 uSequence).
Definition getDepositPreauthIndex (owner preauthorized : Z) : Z := sha512Half (ns spaceDepositPreauth ++ id160 owner ++ id160 preauthorized).

(** ** Keylets *)

Definition keylet_account (id : Z) : Keylet := mkKeylet ltACCOUNT_ROOT (getAccountRootIndex id).
Definition keylet_child (key : Z) : Keylet := mkKeylet ltCHILD key.
Definition keylet_skip : Keylet := mkKeylet ltLEDGER_HASHES getLedgerHashIndex0.
Definition keylet_skip_at (ledger : Z) : Keylet := mkKeylet ltLEDGER_HASHES (getLedgerHashIndex ledger).
Definition keylet_amendments : Keylet := mkKeylet ltAMENDMENTS getLedgerAmendmentIndex.
Definition keylet_fees : Keylet := mkKeylet ltFEE_SETTINGS getLedgerFeeIndex.
Definition keylet_book (b : Book) : Keylet := mkKeylet ltDIR_NODE (getBookBase b).
Definition keylet_line (id0 id1 currency : Z) : Keylet := mkKeylet ltSUPPLYFINANCECHAIN_STATE (getSupplyFinanceChainStateIndex id0 id1 currency).
Definition keylet_line_issue (id : Z) (issue : Issue) : Keylet := mkKeylet ltSUPPLYFINANCECHAIN_STATE (getSupplyFinanceChainStateIndex_issue id issue).
Definition keylet_offer (id seq : Z) : Keylet := mkKeylet ltOFFER (getOfferIndex id seq).
Definition keylet_quality (k : Keylet) (q : Z) : Keylet := mkKeylet ltDIR_NODE (getQualityIndex (kl_key k) q).
Definition keylet_next (k : Keylet) : Keylet := mkKeylet ltDIR_NODE (getQualityNext (kl_key k)).
Definition keylet_ticket (id seq : Z) : Keylet := mkKeylet ltTICKET (getTicketIndex id seq).
Definition keylet_signers (id : Z) : Keylet := mkKeylet ltSIGNER_LIST (getSignerListIndex id).
Definition keylet_check (id seq : Z) : Keylet := mkKeylet ltCHECK (getCheckIndex id seq).
Definition keylet_depositPreauth (owner preauthorized : Z) : Keylet := mkKeylet ltDEPOSIT_PREAUTH (getDepositPreauthIndex owner preauthorized).
Definition keylet_ownerDir (id : Z) : Keylet := mkKeylet ltDIR_NODE (getOwnerDirIndex id).
Definition keylet_page (key index : Z) : Keylet := mkKeylet ltDIR_NODE (getDirNodeIndex key index).
Definition keylet_page_of (root : Keylet) (index : Z) : Keylet := keylet_page (kl_key root) index.
Definition keylet_escrow (source seq : Z) : Keylet := mkKeylet ltESCROW (sha512Half (ns spaceEscrow ++ id160 source ++ num32 seq)).
Definition keylet_payChan (source dst seq : Z) : Keylet := mkKeylet ltPAYCHAN (sha512Half (ns spaceSFCUChannel ++ id160 source ++ id160 dst ++ num32 seq)).
End Index.

(** ** What a key identifies *)

(** The entries a ledger has, by what identifies them. A page other than the first
    of a directory has the key of the directory's root and its own number; a
    directory of an order book has the book and its quality. *)
Inductive Entry :=
| EAccount (id : Z)
| ESkip
| ESkipAt (group : Z)
| EAmendments
| EFees
| EBook (b : Book) (quality : Z)
| ELine (low high currency : Z)
| EOffer (id seq : Z)
| ETicket (id seq : Z)
| ESigners (id : Z)
| ECheck (id seq : Z)
| EDepositPreauth (owner preauthorized : Z)
| EOwnerDir (id : Z)
| EPage (root index : Z)
| EEscrow (source seq : Z)
| EPayChan (source dst seq : Z).

Definition is160 (z : Z) : Prop := 0 <= z < 2 ^ 160.
Definition is32 (z : Z) : Prop := 0 <= z < 2 ^ 32.
Definition is64 (z : Z) : Prop := 0 <= z < 2 ^ 64.

Definition entry_ok (e : Entry) : Prop :=
  match e with
  | EAccount id | ESigners id | EOwnerDir id => is160 id
  | ESkip | EAmendments | EFees => True
  | ESkipAt g => 0 <= g < 2 ^ 16
  | EBook b q => is160 (currency (book_in b)) /\ is160 (currency (book_out b)) /\ is160 (account (book_in b)) /\ is160 (account (book_out b)) /\ is64 q
  | ELine low high c => is160 low /\ is160 high /\ is160 c /\ low <= high
  | EOffer id seq | ETicket id seq | ECheck id seq | EEscrow id seq => is160 id /\ is32 seq
  | EDepositPreauth a b => is160 a /\ is160 b
  | EPage root i => 0 <= root < 2 ^ 256 /\ 0 < i < 2 ^ 64
  | EPayChan a b seq => is160 a /\ is160 b /\ is32 seq
  end.

Definition entry_keylet (sha512Half : list Z -> Z) (e : Entry) : Keylet :=
  match e with
  | EAccount id => keylet_account sha512Half id
  | ESkip => keylet_skip sha512Half
  | ESkipAt g => keylet_skip_at sha512Half (Z.shiftl g 16)
  | EAmendments => keylet_amendments sha512Half
  | EFees => keylet_fees sha512Half
  | EBook b q => keylet_quality (keylet_book sha512Half b) q
  | ELine low high c => keylet_line sha512Half low high c
  | EOffer id seq => keylet_offer sha512Half id seq
  | ETicket id seq => keylet_ticket sha512Half id seq
  | ESigners id => keylet_signers sha512Half id
  | ECheck id seq => keylet_check sha512Half id seq
  | EDepositPreauth a b => keylet_depositPreauth sha512Half a b
  | EOwnerDir id => keylet_ownerDir sha512Half id
  | EPage root i => keylet_page sha512Half root i
  | EEscrow id seq => keylet_escrow sha512Half id seq
  | EPayChan a b seq => keylet_payChan sha512Half a b seq
  end.

(** What is hashed for an entry. *)
Definition preimage (e : Entry) : list Z :=
  match e with
  | EAccount id => ns spaceAccount ++ id160 id
  | ESkip => ns spaceSkipList
  | ESkipAt g => ns spaceSkipList ++ num32 g
  | EAmendments => ns spaceAmendment
  | EFees => ns spaceFee
  | EBook b _ => book_preimage b
  | ELine low high c => ns spaceSupplyFinanceChain ++ id160 low ++ id160 high ++ id160 c
  | EOffer id seq => ns spaceOffer ++ id160 id ++ num32 seq
  | ETicket id seq => ns spaceTicket ++ id160 id ++ num32 seq
  | ESigners id => ns spaceSignerList ++ id160 id ++ num32 0
  | ECheck id seq => ns spaceCheck ++ id160 id ++ num32 seq
  | EDepositPreauth a b => ns spaceDepositPreauth ++ id160 a ++ id160 b
  | EOwnerDir id => ns spaceOwnerDir ++ id160 id
  | EPage root i => ns spaceDirNode ++ big_endian 32 root ++ big_endian 8 i
  | EEscrow id seq => ns spaceEscrow ++ id160 id ++ num32 seq
  | EPayChan a b seq => ns spaceSFCUChannel ++ id160 a ++ id160 b ++ num32 seq
  end.

Definition entry_quality (e : Entry) : Z := match e with EBook _ q => q | _ => 0 end.

(** ** Preimages are distinct *)

Lemma big_endian_inj n a b : 0 <= a < 256 ^ Z.of_nat n -> 0 <= b < 256 ^ Z.of_nat n -> big_endian n a = big_endian n b -> a = b.
Proof. intros Ha Hb H%(f_equal from_bytes). rewrite !from_bytes_be, !Z.mod_small in H; done. Qed.

Lemma be_app_inj n a b l k : 0 <= a < 256 ^ Z.of_nat n -> 0 <= b < 256 ^ Z.of_nat n -> big_endian n a ++ l = big_endian n b ++ k -> a = b /\ l = k.
Proof. intros Ha Hb [H ->]%app_inj_1; [|by rewrite !length_big_endian]. split; [exact (big_endian_inj n a b Ha Hb H)|done]. Qed.

Lemma id160_app_inj a b l k : is160 a -> is160 b -> id160 a ++ l = id160 b ++ k -> a = b /\ l = k.
Proof. apply (be_app_inj 20). Qed.

Lemma id160_inj a b : is160 a -> is160 b -> id160 a = id160 b -> a = b.
Proof. apply (big_endian_inj 20). Qed.

Lemma num32_inj a b : is32 a -> is32 b -> num32 a = num32 b -> a = b.
Proof. apply (big_endian_inj 4). Qed.

Lemma preimage_bytes e : Forall is_byte (preimage e).
Proof. destruct e; cbn [preimage]; unfold book_preimage; repeat apply Forall_app_2; apply big_endian_bytes. Qed.

(** Peels the fields of two equal preimages. *)
Ltac peel :=
  repeat match goal with
  | H : ns ?a ++ _ = ns ?a ++ _ |- _ => apply app_inv_head in H
  | H : id160 _ ++ _ = id160 _ ++ _ |- _ => apply id160_app_inj in H as [-> H]; [|done..]
  | H : id160 _ = id160 _ |- _ => apply id160_inj in H as ->; [|done..]
  | H : num32 _ = num32 _ |- _ => apply num32_inj in H as ->; [|unfold is32 in *; lia..]
  end.

Lemma preimage_inj e e' : entry_ok e -> entry_ok e' -> preimage e = preimage e' -> entry_quality e = entry_quality e' -> e = e'.
Proof.
  intros He He' H Hq. destruct e, e'; try (by apply (f_equal (take 2)) in H); try (by apply (f_equal length) in H);
    cbn [preimage entry_ok entry_quality] in *; unfold book_preimage in *; destruct_and?; try (peel; done).
  - destruct b as [[] []], b0 as [[] []]; cbn [STAmount.currency STAmount.account book_in book_out] in *. peel. by rewrite Hq.
  - apply app_inv_head, (be_app_inj 32) in H as [-> H]; [|done..]. apply (big_endian_inj 8) in H as ->; [done|lia..].
Qed.

(** ** The key of a book's directory *)

Lemma quality_high x q : is64 q -> Z.shiftr (getQualityIndex x q) 64 = Z.shiftr x 64.
Proof.
  intros Hq. unfold getQualityIndex, u64. rewrite (Z.mod_small q) by done. rewrite Z.shiftr_lor, Z.shiftr_shiftl_l, Z.sub_diag, Z.shiftl_0_r by done.
  replace (Z.shiftr q 64) with 0; [by rewrite Z.lor_0_r|]. symmetry. rewrite Z.shiftr_div_pow2 by done. apply Z.div_small, Hq.
Qed.

Lemma quality_low x q : is64 q -> getQuality (getQualityIndex x q) = q.
Proof.
  intros Hq. unfold getQuality, getQualityIndex, u64. rewrite (Z.mod_small q) by done. rewrite Z.land_ones, Z.lor_comm by done.
  rewrite <-Z.land_ones, Z.land_lor_distr_l by done. replace (Z.land (Z.shiftl _ 64) (Z.ones 64)) with 0.
  - rewrite Z.lor_0_r, Z.land_ones by done. apply Z.mod_small, Hq.
  - symmetry. rewrite Z.land_ones, Z.shiftl_mul_pow2 by done. apply Z.mod_mul. done.
Qed.

Lemma quality_again x q q' : is64 q -> getQualityIndex (getQualityIndex x q) q' = getQualityIndex x q'.
Proof. intros Hq. unfold getQualityIndex at 1 3. by rewrite quality_high. Qed.

(** The digest does not take the preimages of the two entries to the same 192 high
    bits unless they are the same. *)
Definition no_collision (sha512Half : list Z -> Z) (e e' : Entry) : Prop :=
  Z.shiftr (sha512Half (preimage e)) 64 = Z.shiftr (sha512Half (preimage e')) 64 -> preimage e = preimage e'.

Lemma entry_key sha512Half e : entry_ok e ->
  kl_key (entry_keylet sha512Half e) =
    match e with EBook _ q => getQualityIndex (sha512Half (preimage e)) q | _ => sha512Half (preimage e) end.
Proof.
  destruct e; cbn; intros He; try done.
  - unfold getLedgerHashIndex. rewrite Z.shiftr_shiftl_l, Z.sub_diag by done. by rewrite Z.shiftl_0_r.
  - unfold getBookBase. by rewrite quality_again.
  - unfold getSupplyFinanceChainStateIndex, line_preimage. destruct (Z.ltb_spec low high) as [Hl|Hl]; [done|].
    replace high with low by lia. done.
  - unfold getDirNodeIndex. by destruct (Z.eqb_spec index 0) as [->|_]; [lia|].
Qed.

Lemma entry_key_high sha512Half e : entry_ok e -> Z.shiftr (kl_key (entry_keylet sha512Half e)) 64 = Z.shiftr (sha512Half (preimage e)) 64.
Proof. intros He. rewrite entry_key by done. destruct e; try done. apply quality_high, He. Qed.

Lemma preimage_book e e' : preimage e = preimage e' -> match e, e' with EBook _ _, EBook _ _ => True | EBook _ _, _ | _, EBook _ _ => False | _, _ => True end.
Proof. intros H. destruct e, e'; try done; by apply (f_equal (take 2)) in H. Qed.

(** C35. Entries have keys of their own: entries that differ in their type, name
    space, account, sequence, currency, book, quality or page have different keys,
    unless the digest collides on their preimages in the 192 bits the key of a
    book's directory keeps. The key of an entry thus has one type. *)
Theorem keys_distinct sha512Half e e' : entry_ok e -> entry_ok e' -> no_collision sha512Half e e' -> e <> e' ->
  kl_key (entry_keylet sha512Half e) <> kl_key (entry_keylet sha512Half e').
Proof.
  intros He He' Hc Hne Hk. apply Hne. assert (Hp : preimage e = preimage e') by (apply Hc; by rewrite <-!entry_key_high, Hk).
  apply preimage_inj; [done..|]. pose proof (preimage_book e e' Hp) as Hb. rewrite !entry_key in Hk by done.
  destruct e, e'; try done. cbn [entry_quality]. apply (f_equal getQuality) in Hk. rewrite !quality_low in Hk; [done| |]; [apply He'|apply He].
Qed.

(** A digest without collisions. *)
Definition id_digest (l : list Z) : Z := Z.shiftl (from_bytes (1 :: l)) 64.

Lemma keys_distinct_witness : kl_key (entry_keylet id_digest (EOffer 7 9)) <> kl_key (entry_keylet id_digest (ECheck 7 9)).
Proof. apply (keys_distinct id_digest); [split; done|split; done| |done]. intros Hs. vm_compute in Hs. discriminate Hs. Defined.

(** A trust line has one key whichever of its accounts asks for it. *)
Lemma line_symmetric sha512Half a b c : getSupplyFinanceChainStateIndex sha512Half a b c = getSupplyFinanceChainStateIndex sha512Half b a c.
Proof.
  unfold getSupplyFinanceChainStateIndex, line_preimage. destruct (Z.ltb_spec a b), (Z.ltb_spec b a); try done; [lia|]. by replace b with a by lia.
Qed.
