(* ===== verification/STAccess.v ===== *)
(** * Reading and writing the fields of an object

    Models the accessors of protocol/STObject.h and protocol/impl/STObject.cpp: an
    object with or without a template, the search for a field, the typed getters and
    setters, the proxies behind [obj[field]] and [obj[~field]], and the flags. What
    the source leaves undefined behind an assertion is an exception here. *)

From S2P Require Import Prelude STAmount SField STObject.

(** ** Objects *)

(** [v_] and [mType]; a free object has no template. *)
Record Object := mkObject { o_fields : Fields; o_type : option SOTemplate }.

Definition isFree (o : Object) : bool := match o_type o with None => true | Some _ => false end.

(** [SOTemplate::getIndex] and the search of a free object; -1 is [None]. *)
Fixpoint index_of (f : SField) (names : list SField) : option nat :=
  match names with [] => None | g :: names => if field_eq g f then Some O else S <$> index_of f names end.

Definition template_index (t : SOTemplate) (f : SField) : option nat := index_of f t.*1.

Definition getFieldIndex (o : Object) (f : SField) : option nat :=
  match o_type o with Some t => template_index t f | None => index_of f (o_fields o).*1 end.

(** [SOTemplate::style], [None] for [soeINVALID] of a free object. *)
Definition style (t : SOTemplate) (f : SField) : option SOEStyle := i ← template_index t f; snd <$> t !! i.

Definition peekAtPField (o : Object) (f : SField) : option STValue := i ← getFieldIndex o f; snd <$> o_fields o !! i.

Definition isFieldPresent (o : Object) (f : SField) : bool :=
  match peekAtPField o f with Some v => isPresent v | None => false end.

(** [STVar (defaultObject, name)]. *)
Definition default_value (t : SerializedTypeID) : res STValue :=
  match t with
  | STI_NOTPRESENT => Ok V_NotPresent
  | STI_UINT8 => Ok (V_UInt8 0) | STI_UINT16 => Ok (V_UInt16 0) | STI_UINT32 => Ok (V_UInt32 0) | STI_UINT64 => Ok (V_UInt64 0)
  | STI_AMOUNT => Ok (V_Amount (mkSTAmount sfcIssue 0 0 true false))
  | STI_HASH128 => Ok (V_Hash128 0) | STI_HASH160 => Ok (V_Hash160 0) | STI_HASH256 => Ok (V_Hash256 0)
  | STI_VECTOR256 => Ok (V_Vector256 []) | STI_VL => Ok (V_VL []) | STI_ACCOUNT => Ok (V_Account true 0)
  | STI_PATHSET => Ok (V_PathSet []) | STI_OBJECT => Ok (V_Object []) | STI_ARRAY => Ok (V_Array [])
  | _ => Throw (runtime_error "Unknown object type")
  end.

(** [STObject::set (SOTemplate)]. *)
Definition template_field (e : SField * SOEStyle) : res (SField * STValue) :=
  match e.2 with
  | soeREQUIRED => v ← default_value (fieldType e.1); Ok (e.1, v)
  | _ => Ok (e.1, V_NotPresent)
  end.

Definition set_template (t : SOTemplate) : res Object := v ← mapR template_field t; Ok (mkObject v (Some t)).

(** [STObject::applyTemplate]. *)
Definition object_applyTemplate (t : SOTemplate) (o : Object) : res Object := v ← applyTemplate t (o_fields o); Ok (mkObject v (Some t)).

(** ** Making fields *)

(** [v_[i] = v], which keeps the name of the field. *)
Definition put (o : Object) (i : nat) (v : STValue) : Object :=
  mkObject (alter (fun fv : SField * STValue => (fv.1, v)) i (o_fields o)) (o_type o).

Definition emplace_back (o : Object) (f : SField) (v : STValue) : nat * Object :=
  (length (o_fields o), mkObject (o_fields o ++ [(f, v)]) (o_type o)).

Definition value_at (o : Object) (i : nat) : STValue := match o_fields o !! i with Some (_, v) => v | None => V_NotPresent end.

(** [STObject::getPField (field, createOkay)], as the index and the object. *)
Definition getPField (o : Object) (f : SField) (createOkay : bool) : res (option (nat * Object)) :=
  match getFieldIndex o f with
  | None => if createOkay && isFree o then (v ← default_value (fieldType f); Ok (Some (emplace_back o f v))) else Ok None
  | Some i => Ok (Some (i, o))
  end.

Definition makeFieldPresent (o : Object) (f : SField) : res (nat * Object) :=
  match getFieldIndex o f with
  | None => if negb (isFree o) then Throw (runtime_error "Field not found") else Ok (emplace_back o f V_NotPresent)
  | Some i =>
      if isPresent (value_at o i) then Ok (i, o)
      else (v ← default_value (fieldType (match o_fields o !! i with Some (g, _) => g | None => f end)); Ok (i, put o i v))
  end.

Definition makeFieldAbsent (o : Object) (f : SField) : res Object :=
  match getFieldIndex o f with
  | None => Throw (runtime_error "Field not found")
  | Some i => if isPresent (value_at o i) then Ok (put o i V_NotPresent) else Ok o
  end.

Definition delField (o : Object) (f : SField) : bool * Object :=
  match getFieldIndex o f with
  | None => (false, o)
  | Some i => (true, mkObject (delete i (o_fields o)) (o_type o))
  end.

(** [STObject::set (unique_ptr)]. *)
Definition set_named (o : Object) (f : SField) (v : STValue) : res Object :=
  match getFieldIndex o f with
  | Some i => Ok (mkObject (<[i := (f, v)]> (o_fields o)) (o_type o))
  | None => if negb (isFree o) then Throw (runtime_error "missing field in templated STObject") else Ok (snd (emplace_back o f v))
  end.

(** ** Setters *)

(** [setFieldUsingSetValue] and [setFieldUsingAssignment]; the kind of [v] is the
    class the field is cast to. *)
Definition setField (o : Object) (f : SField) (v : STValue) : res Object :=
  r ← getPField o f true;
  match r with
  | None => Throw (runtime_error "Field not found")
  | Some (i, o) =>
      '(i, o) ← (if isPresent (value_at o i) then Ok (i, o) else makeFieldPresent o f);
      if bool_decide (getSType (value_at o i) = getSType v) then Ok (put o i v) else Throw (runtime_error "Wrong field type")
  end.

Definition setFieldU8 o f n := setField o f (V_UInt8 n).
Definition setFieldU16 o f n := setField o f (V_UInt16 n).
Definition setFieldU32 o f n := setField o f (V_UInt32 n).
Definition setFieldU64 o f n := setField o f (V_UInt64 n).
Definition setFieldH128 o f n := setField o f (V_Hash128 n).
Definition setFieldH160 o f n := setField o f (V_Hash160 n).
Definition setFieldH256 o f n := setField o f (V_Hash256 n).
Definition setFieldV256 o f l := setField o f (V_Vector256 l).
Definition setAccountID o f a := setField o f (V_Account false a).
Definition setFieldVL o f b := setField o f (V_VL b).
Definition setFieldAmount o f a := setField o f (V_Amount a).
Definition setFieldPathSet o f p := setField o f (V_PathSet p).
Definition setFieldArray o f a := setField o f (V_Array a).

(** ** Getters *)

(** The [dynamic_cast] to a class, and the value of that class. *)
Definition as_u8 (v : STValue) : option Z := match v with V_UInt8 n => Some n | _ => None end.
Definition as_u16 (v : STValue) : option Z := match v with V_UInt16 n => Some n | _ => None end.
Definition as_u32 (v : STValue) : option Z := match v with V_UInt32 n => Some n | _ => None end.
Definition as_u64 (v : STValue) : option Z := match v with V_UInt64 n => Some n | _ => None end.
Definition as_h128 (v : STValue) : option Z := match v with V_Hash128 n => Some n | _ => None end.
Definition as_h160 (v : STValue) : option Z := match v with V_Hash160 n => Some n | _ => None end.
Definition as_h256 (v : STValue) : option Z := match v with V_Hash256 n => Some n | _ => None end.
Definition as_account (v : STValue) : option Z := match v with V_Account _ n => Some n | _ => None end.
Definition as_vl (v : STValue) : option (list Z) := match v with V_VL b => Some b | _ => None end.
Definition as_amount (v : STValue) : option STAmount := match v with V_Amount a => Some a | _ => None end.
Definition as_pathset (v : STValue) : option (list (list STPathElement)) := match v with V_PathSet p => Some p | _ => None end.
Definition as_v256 (v : STValue) : option (list Z) := match v with V_Vector256 l => Some l | _ => None end.
Definition as_array (v : STValue) : option (list (SField * Fields)) := match v with V_Array l => Some l | _ => None end.

Section Get.
Context {V : Type} (cast : STValue -> option V) (empty : V).

(** [getFieldByValue] and [getFieldByConstRef]. *)
Definition getFieldBy (o : Object) (f : SField) : res V :=
  match peekAtPField o f with
  | None => Throw (runtime_error "Field not found")
  | Some v =>
      if isPresent v then match cast v with Some x => Ok x | None => Throw (runtime_error "Wrong field type") end
      else Ok empty
  end.

Definition missing_field : exn := runtime_error "Missing field".
Definition template_error : exn := runtime_error "Template field error".

(** [operator[] (TypedField) const]. *)
Definition at_field (o : Object) (f : SField) : res V :=
  match peekAtPField o f with
  | None => Throw missing_field
  | Some v =>
      match cast v with
      | Some x => Ok x
      | None =>
          match o_type o with
          | None => Throw (logic_error "mType")
          | Some t => match style t f with Some soeOPTIONAL => Throw missing_field | _ => Ok empty end
          end
      end
  end.

(** [operator[] (OptionaledField) const]. *)
Definition at_opt (o : Object) (f : SField) : res (option V) :=
  match peekAtPField o f with
  | None => Ok None
  | Some v =>
      match cast v with
      | Some x => Ok (Some x)
      | None =>
          match o_type o with
          | None => Throw (logic_error "mType")
          | Some t => match style t f with Some soeOPTIONAL => Ok None | _ => Ok (Some empty) end
          end
      end
  end.

(** ** Proxies *)

(** [Proxy (st, f)]: the style, or that the template has no such field. *)
Definition proxy_style (o : Object) (f : SField) : res (option SOEStyle) :=
  match o_type o with
  | None => Ok None
  | Some t => match peekAtPField o f with None => Throw template_error | Some _ => Ok (style t f) end
  end.

Definition is_soeDEFAULT (s : option SOEStyle) : bool := match s with Some soeDEFAULT => true | _ => false end.

(** [Proxy::value]. *)
Definition proxy_value (o : Object) (f : SField) : res V :=
  s ← proxy_style o f;
  match peekAtPField o f ≫= cast with
  | Some x => Ok x
  | None => if is_soeDEFAULT s then Ok empty else Throw missing_field
  end.

(** [OptionalProxy::engaged] and [optional_value]. *)
Definition proxy_engaged (o : Object) (f : SField) : res bool :=
  s ← proxy_style o f;
  Ok (is_soeDEFAULT s || match peekAtPField o f ≫= cast with Some _ => true | None => false end).

Definition optional_value (o : Object) (f : SField) : res (option V) :=
  e ← proxy_engaged o f;
  if negb e then Ok None else (x ← proxy_value o f; Ok (Some x)).
End Get.

(** [Proxy::assign]: [is_empty] is [u == value_type{}]. *)
Definition proxy_assign (o : Object) (f : SField) (v : STValue) (is_empty : bool) : res Object :=
  s ← proxy_style o f;
  if is_soeDEFAULT s && is_empty then makeFieldAbsent o f else
  r ← (match s with
       | None => r ← getPField o f true; match r with Some x => Ok x | None => Throw (logic_error "t") end
       | Some _ => makeFieldPresent o f
       end);
  let '(i, o) := (r : nat * Object) in
  if bool_decide (getSType (value_at o i) = getSType v) then Ok (put o i v) else Throw (logic_error "t").

(** [OptionalProxy::disengage]. *)
Definition proxy_disengage (o : Object) (f : SField) : res Object :=
  s ← proxy_style o f;
  match s with
  | Some soeREQUIRED | Some soeDEFAULT => Throw template_error
  | None => Ok (snd (delField o f))
  | Some soeOPTIONAL => makeFieldAbsent o f
  end.

(** [OptionalProxy::operator= (optional)]. *)
Definition proxy_assign_opt (o : Object) (f : SField) (v : option (STValue * bool)) : res Object :=
  match v with Some (v, is_empty) => proxy_assign o f v is_empty | None => proxy_disengage o f end.

(** ** Getters and flags by type *)

Definition getFieldU8 := getFieldBy as_u8 0.
Definition getFieldU16 := getFieldBy as_u16 0.
Definition getFieldU32 := getFieldBy as_u32 0.
Definition getFieldU64 := getFieldBy as_u64 0.
Definition getFieldH128 := getFieldBy as_h128 0.
Definition getFieldH160 := getFieldBy as_h160 0.
Definition getFieldH256 := getFieldBy as_h256 0.
Definition getAccountID := getFieldBy as_account 0.
Definition getFieldVL := getFieldBy as_vl [].
Definition getFieldAmount := getFieldBy as_amount (mkSTAmount sfcIssue 0 0 true false).
Definition getFieldPathSet := getFieldBy as_pathset [].
Definition getFieldV256 := getFieldBy as_v256 [].
Definition getFieldArray := getFieldBy as_array [].

Definition setFlag (o : Object) (flag : Z) : res (bool * Object) :=
  r ← getPField o sfFlags true;
  match r with
  | Some (i, o) => match as_u32 (value_at o i) with Some n => Ok (true, put o i (V_UInt32 (Z.lor n flag))) | None => Ok (false, o) end
  | None => Ok (false, o)
  end.

Definition clearFlag (o : Object) (flag : Z) : res (bool * Object) :=
  r ← getPField o sfFlags false;
  match r with
  | Some (i, o) => match as_u32 (value_at o i) with Some n => Ok (true, put o i (V_UInt32 (Z.land n (Z.lnot flag)))) | None => Ok (false, o) end
  | None => Ok (false, o)
  end.

Definition getFlags (o : Object) : Z := match peekAtPField o sfFlags ≫= as_u32 with Some n => n | None => 0 end.
Definition isFlag (o : Object) (flag : Z) : bool := Z.land (getFlags o) flag =? flag.

(** ** Well-formed objects *)

(** A field an object can hold: [default_value] makes one of its type. *)
Definition field_ok (f : SField) : Prop :=
  0 <= fieldValue f < 65536 /\ exists v, default_value (fieldType f) = Ok v /\ isPresent v = true /\ getSType v = fieldType f.

Definition value_ok (fv : SField * STValue) : Prop := isPresent fv.2 = true -> getSType fv.2 = fieldType fv.1.

Definition object_ok (o : Object) : Prop :=
  NoDup (getCode <$> (o_fields o).*1) /\ Forall field_ok (o_fields o).*1 /\ Forall value_ok (o_fields o) /\
  match o_type o with Some t => t.*1 = (o_fields o).*1 | None => True end.

(** The object takes the field: it is free, or its template has it. *)
Definition accepts (o : Object) (f : SField) : Prop := isFree o = true \/ is_Some (getFieldIndex o f).

Lemma sti_code_range t : 0 <= sti_code t < 65536.
Proof. destruct t; cbn; lia. Qed.

Lemma sti_code_inj t u : sti_code t = sti_code u -> t = u.
Proof. destruct t, u; cbn; intros; lia || done. Qed.

Lemma getCode_sum f : 0 <= fieldValue f < 65536 -> getCode f = sti_code (fieldType f) * 65536 + fieldValue f.
Proof.
  intros Hf. unfold getCode, field_code. rewrite Z.shiftl_mul_pow2 by done. change (2 ^ 16) with 65536.
  rewrite <-Z.add_lor_land. replace (Z.land _ _) with 0; [lia|]. symmetry. apply Z.bits_inj'. intros i Hi. rewrite Z.land_spec, Z.bits_0.
  change 65536 with (2 ^ 16). rewrite <-Z.shiftl_mul_pow2 by done. destruct (decide (i < 16)) as [Hlt|Hge].
  - by rewrite Z.shiftl_spec_low.
  - replace (fieldValue f) with (fieldValue f mod 2 ^ 16) by (apply Z.mod_small; lia). rewrite Z.mod_pow2_bits_high by lia. apply andb_false_r.
Qed.

Lemma code_type f g : field_ok f -> field_ok g -> getCode f = getCode g -> fieldType f = fieldType g.
Proof. intros [Hf _] [Hg _]. rewrite !getCode_sum by done. intros H. apply sti_code_inj. lia. Qed.

(** ** Searching *)

Lemma index_of_Some f names i : index_of f names = Some i -> exists g, names !! i = Some g /\ getCode g = getCode f.
Proof.
  revert i. induction names as [|g names IH]; intros i H; [done|]. cbn [index_of] in H. unfold field_eq in H.
  destruct (Z.eqb_spec (getCode g) (getCode f)) as [He|He]; [simplify_eq; by exists g|].
  apply fmap_Some in H as (j & Hj & ->). exact (IH j Hj).
Qed.

Lemma index_of_None f names : index_of f names = None <-> Forall (fun g => getCode g <> getCode f) names.
Proof.
  induction names as [|g names IH]; cbn [index_of]; [done|]. rewrite Forall_cons, <-IH. unfold field_eq.
  destruct (Z.eqb_spec (getCode g) (getCode f)) as [He|He]; [naive_solver|]. rewrite fmap_None. naive_solver.
Qed.

Lemma index_of_lookup f names i g : NoDup (getCode <$> names) -> names !! i = Some g -> getCode g = getCode f -> index_of f names = Some i.
Proof.
  intros Hn Hg Hc. destruct (index_of f names) as [j|] eqn:Hj.
  - apply index_of_Some in Hj as (h & Hh & Hch). f_equal. eapply (NoDup_lookup (getCode <$> names)); [done|..]; rewrite list_lookup_fmap.
    + by rewrite Hh. + rewrite Hg. cbn. by rewrite Hch, Hc.
  - apply index_of_None in Hj. rewrite Forall_lookup in Hj. by destruct (Hj i g Hg).
Qed.

Lemma ok_index o f : object_ok o -> getFieldIndex o f = index_of f (o_fields o).*1.
Proof. intros (_ & _ & _ & Ht). unfold getFieldIndex, template_index. destruct (o_type o) as [t|]; [by rewrite Ht|done]. Qed.

Lemma ok_peek o f : object_ok o -> peekAtPField o f = (i ← index_of f (o_fields o).*1; snd <$> o_fields o !! i).
Proof. intros Ho. unfold peekAtPField. by rewrite ok_index. Qed.

Lemma ok_at o f i : object_ok o -> getFieldIndex o f = Some i ->
  exists g v, o_fields o !! i = Some (g, v) /\ getCode g = getCode f /\ field_ok g /\ value_ok (g, v) /\ peekAtPField o f = Some v.
Proof.
  intros Ho Hi. pose proof Hi as Hi'. rewrite ok_index in Hi' by done. apply index_of_Some in Hi' as (g & Hg & Hc).
  apply list_lookup_fmap_Some in Hg as ([g' v] & -> & Hgv). cbn in *. exists g', v. destruct Ho as (_ & Hf & Hv & _).
  split; [exact Hgv|]. split; [exact Hc|]. split; [|split].
  - eapply (Forall_lookup_1 field_ok); [exact Hf|]. by rewrite list_lookup_fmap, Hgv.
  - exact (Forall_lookup_1 _ _ _ _ Hv Hgv).
  - unfold peekAtPField. rewrite Hi. cbn. by rewrite Hgv.
Qed.

(** ** Writing *)

Lemma put_names o i v : (o_fields (put o i v)).*1 = (o_fields o).*1.
Proof.
  apply list_eq. intros j. cbn [put o_fields]. rewrite !list_lookup_fmap. destruct (decide (i = j)) as [->|Hne].
  - rewrite list_lookup_alter_eq. by destruct (o_fields o !! j) as [[g w]|].
  - by rewrite list_lookup_alter_ne.
Qed.

Lemma put_index o i v f : getFieldIndex (put o i v) f = getFieldIndex o f.
Proof. unfold getFieldIndex. cbn [put o_type]. destruct (o_type o); [done|]. by rewrite put_names. Qed.

Lemma put_ok o i v g w : object_ok o -> o_fields o !! i = Some (g, w) -> (isPresent v = true -> getSType v = fieldType g) -> object_ok (put o i v).
Proof.
  intros (Hn & Hf & Hv & Ht) Hg Hty. unfold object_ok. rewrite !put_names. repeat split; [done..| |exact Ht].
  apply Forall_alter; [done|]. intros [g' w'] Hg' _. rewrite Hg in Hg'. simplify_eq. exact Hty.
Qed.

Lemma put_peek o i v f g : object_ok o -> getFieldIndex o f = Some i ->
  peekAtPField (put o i v) g = if decide (getCode g = getCode f) then Some v else peekAtPField o g.
Proof.
  intros Ho Hi. unfold peekAtPField. rewrite put_index. destruct (ok_at o f i Ho Hi) as (h & w & Hw & Hc & _).
  case_decide as Hg.
  - assert (Hig : getFieldIndex o g = Some i).
    { rewrite ok_index by done. destruct Ho as (Hn & _). eapply (index_of_lookup _ _ _ h); [done| |congruence]. by rewrite list_lookup_fmap, Hw. }
    rewrite Hig. cbn. by rewrite list_lookup_alter_eq, Hw.
  - destruct (getFieldIndex o g) as [j|] eqn:Hj; [|done]. cbn. destruct (decide (i = j)) as [->|Hne]; [|by rewrite list_lookup_alter_ne].
    destruct (ok_at o g j Ho Hj) as (h' & w' & Hw' & Hc' & _). rewrite Hw in Hw'. simplify_eq. congruence.
Qed.

Lemma emplace_ok o f v : object_ok o -> field_ok f -> isFree o = true -> getFieldIndex o f = None -> value_ok (f, v) ->
  object_ok (emplace_back o f v).2 /\ getFieldIndex (emplace_back o f v).2 f = Some (emplace_back o f v).1.
Proof.
  intros Ho Hf Hfree Hi Hv. pose proof Ho as (Hn & Hfs & Hvs & _). rewrite ok_index in Hi by done. unfold isFree in Hfree.
  assert (Hok : object_ok (emplace_back o f v).2).
  { unfold object_ok, emplace_back. cbn [snd o_fields o_type]. rewrite !fmap_app. cbn. repeat split.
    - apply NoDup_app. split; [done|]. split; [|apply NoDup_singleton]. intros c Hc ->%list_elem_of_singleton.
      apply list_elem_of_fmap in Hc as (g & He & Hg). apply index_of_None in Hi. rewrite Forall_forall in Hi. by destruct (Hi g Hg).
    - apply Forall_app_2; [done|]. by apply Forall_singleton.
    - apply Forall_app_2; [done|]. by apply Forall_singleton.
    - by destruct (o_type o). }
  split; [done|]. rewrite ok_index by done. destruct Hok as (Hn' & _). eapply index_of_lookup; [exact Hn'| |reflexivity].
  cbn. rewrite fmap_app, lookup_app_r, length_fmap, Nat.sub_diag by (by rewrite length_fmap). done.
Qed.

Lemma emplace_peek o f v g : object_ok o -> field_ok f -> isFree o = true -> getFieldIndex o f = None -> value_ok (f, v) ->
  peekAtPField (emplace_back o f v).2 g = if decide (getCode g = getCode f) then Some v else peekAtPField o g.
Proof.
  intros Ho Hf Hfree Hi Hv. destruct (emplace_ok o f v Ho Hf Hfree Hi Hv) as [Hok Hif]. case_decide as Hc.
  - rewrite ok_peek by done. rewrite ok_index in Hif by done.
    assert (Hig : index_of g (o_fields (emplace_back o f v).2).*1 = Some (length (o_fields o))).
    { destruct Hok as (Hn & _). eapply (index_of_lookup _ _ _ f); [exact Hn| |done]. cbn. rewrite fmap_app, lookup_app_r, length_fmap, Nat.sub_diag by (by rewrite length_fmap). done. }
    rewrite Hig. cbn. by rewrite lookup_app_r, Nat.sub_diag by done.
  - rewrite !ok_peek by done. cbn [emplace_back snd o_fields]. rewrite fmap_app. cbn [fmap list_fmap fst].
    destruct (index_of g (o_fields o).*1) as [j|] eqn:Hj.
    + pose proof Hj as (h & Hh & Hch)%index_of_Some. assert (Hj' : index_of g ((o_fields o).*1 ++ [f]) = Some j).
      { destruct Hok as (Hn & _). cbn in Hn. rewrite fmap_app in Hn. eapply (index_of_lookup _ _ _ h); [exact Hn| |done]. by apply lookup_app_l_Some. }
      rewrite Hj'. cbn. apply list_lookup_fmap_Some in Hh as ([h' w] & -> & Hw). by rewrite (lookup_app_l_Some _ _ _ _ Hw), Hw.
    + apply index_of_None in Hj. replace (index_of g ((o_fields o).*1 ++ [f])) with (@None nat); [done|]. symmetry. apply index_of_None.
      apply Forall_app_2; [done|]. apply Forall_singleton. congruence.
Qed.

(** ** Setters are total and type safe *)

(** What a write of [v] to [f] leaves. *)
Definition written_to (o : Object) (f : SField) (v : STValue) (o' : Object) : Prop :=
  object_ok o' /\ o_type o' = o_type o /\ forall g, peekAtPField o' g = if decide (getCode g = getCode f) then Some v else peekAtPField o g.

Lemma value_at_lookup o i g v : o_fields o !! i = Some (g, v) -> value_at o i = v.
Proof. intros H. unfold value_at. by rewrite H. Qed.

Lemma put_written o f v i : object_ok o -> field_ok f -> getFieldIndex o f = Some i -> (isPresent v = true -> getSType v = fieldType f) ->
  written_to o f v (put o i v).
Proof.
  intros Ho Hf Hi Hv. destruct (ok_at o f i Ho Hi) as (g & w & Hw & Hc & Hg & _). split; [|split; [done|]].
  - eapply put_ok; [done|exact Hw|]. intros Hp. rewrite (Hv Hp). by apply code_type.
  - intros h. by apply put_peek.
Qed.

Lemma written_twice o f v w o1 o2 : written_to o f v o1 -> written_to o1 f w o2 -> written_to o f w o2.
Proof.
  intros (H1 & T1 & P1) (H2 & T2 & P2). split; [done|]. split; [congruence|]. intros g. rewrite P2. case_decide; [done|]. rewrite P1. by case_decide.
Qed.

(** [makeFieldPresent] on a field the object has gives it a value of its type. *)
Lemma makeFieldPresent_spec o f i : object_ok o -> field_ok f -> getFieldIndex o f = Some i ->
  exists o' v, makeFieldPresent o f = Ok (i, o') /\ written_to o f v o' /\ isPresent v = true /\ getSType v = fieldType f /\ value_at o' i = v.
Proof.
  intros Ho Hf Hi. destruct (ok_at o f i Ho Hi) as (g & v & Hv & Hc & Hg & Hty & Hp). unfold makeFieldPresent. rewrite Hi, (value_at_lookup _ _ _ _ Hv), Hv.
  assert (Hgf : fieldType g = fieldType f) by by apply code_type. destruct (isPresent v) eqn:Hpr.
  - exists o, v. split; [done|]. split; [|split; [done|split; [rewrite <-Hgf; exact (Hty Hpr)|by apply (value_at_lookup _ _ g)]]]. split; [done|]. split; [done|].
    intros h. case_decide as Hh; [|done]. unfold peekAtPField. assert (getFieldIndex o h = Some i) as ->; [|by cbn; rewrite Hv].
    rewrite ok_index by done. destruct Ho as (Hn & _). eapply (index_of_lookup _ _ _ g); [done| |congruence]. by rewrite list_lookup_fmap, Hv.
  - destruct Hg as (Hr & d & Hd & Hdp & Hdt). rewrite Hd. cbn. exists (put o i d), d. split; [done|]. rewrite <-Hgf. split.
    + apply put_written; [done..|]. intros _. by rewrite Hdt.
    + split; [done|]. split; [done|]. apply (value_at_lookup _ _ g). cbn. by rewrite list_lookup_alter_eq, Hv.
Qed.

(** [getPField] with [createOkay] finds or makes the field. *)
Lemma getPField_spec o f : object_ok o -> field_ok f -> accepts o f ->
  exists i o' v, getPField o f true = Ok (Some (i, o')) /\ getFieldIndex o' f = Some i /\ written_to o f v o' /\ value_at o' i = v /\ (isPresent v = true -> getSType v = fieldType f).
Proof.
  intros Ho Hf Ha. unfold getPField. destruct (getFieldIndex o f) as [i|] eqn:Hi.
  - destruct (ok_at o f i Ho Hi) as (g & v & Hv & Hc & Hg & Hty & Hp). exists i, o, v. split; [done|]. split; [done|]. split.
    + split; [done|]. split; [done|]. intros h. case_decide as Hh; [|done]. rewrite <-Hp. unfold peekAtPField. rewrite !ok_index by done.
      f_equal. rewrite ok_index in Hi by done. rewrite Hi. destruct Ho as (Hn & _). eapply (index_of_lookup _ _ _ g); [done| |congruence]. by rewrite list_lookup_fmap, Hv.
    + split; [by apply (value_at_lookup _ _ g)|]. intros Hpr. rewrite <-(code_type g f); [|done..]. exact (Hty Hpr).
  - destruct Ha as [Hfree|[? ?]]; [|congruence]. rewrite Hfree. cbn. pose proof Hf as (Hr & d & Hd & Hdp & Hdt). rewrite Hd. cbn [mbind res_bind].
    assert (Hvd : value_ok (f, d)) by (intros _; exact Hdt). destruct (emplace_ok o f d Ho Hf Hfree Hi Hvd) as [Hok Hix].
    exists (emplace_back o f d).1, (emplace_back o f d).2, d. split; [done|]. split; [done|]. split; [|split; [|done]].
    + split; [done|]. split; [done|]. intros h. by apply emplace_peek.
    + apply (value_at_lookup _ _ f). cbn. by rewrite lookup_app_r, Nat.sub_diag by done.
Qed.

Lemma getPField_refused o f b : ~ accepts o f -> getPField o f b = Ok None.
Proof.
  intros Ha. unfold getPField, accepts in *. destruct (getFieldIndex o f) eqn:Hi; [destruct Ha; by right|].
  destruct (isFree o); [destruct Ha; by left|]. by rewrite andb_false_r.
Qed.

(** Writes that succeed. *)
Lemma setField_Ok o f v : object_ok o -> field_ok f -> accepts o f -> getSType v = fieldType f ->
  exists o', setField o f v = Ok o' /\ written_to o f v o'.
Proof.
  intros Ho Hf Ha Hv. destruct (getPField_spec o f Ho Hf Ha) as (i & o1 & w & Hg & Hi & Hw & Hat & Hty). unfold setField. rewrite Hg. cbn [mbind res_bind].
  rewrite Hat. destruct (isPresent w) eqn:Hp; cbn [mbind res_bind].
  - rewrite Hat, bool_decide_eq_true_2 by (rewrite Hv; auto). eexists. split; [done|]. eapply written_twice; [exact Hw|]. apply put_written; [apply Hw|done..].
  - destruct (makeFieldPresent_spec o1 f i (proj1 Hw) Hf Hi) as (o2 & d & Hm & Hw2 & Hdp & Hdt & Hat2). rewrite Hm. cbn [mbind res_bind].
    rewrite Hat2, bool_decide_eq_true_2 by congruence. eexists. split; [done|]. eapply written_twice; [eapply written_twice; [exact Hw|exact Hw2]|].
    apply put_written; [apply Hw2|done| |done]. destruct (ok_at o1 f i (proj1 Hw) Hi) as (g & u & Hu & Hc & _).
    unfold makeFieldPresent in Hm. rewrite Hi in Hm. destruct (isPresent (value_at o1 i)); [by simplify_eq|].
    destruct (default_value _); cbn in Hm; simplify_eq. by rewrite put_index.
Qed.

Lemma setField_mismatch o f v : object_ok o -> field_ok f -> accepts o f -> getSType v <> fieldType f ->
  setField o f v = Throw (runtime_error "Wrong field type").
Proof.
  intros Ho Hf Ha Hv. destruct (getPField_spec o f Ho Hf Ha) as (i & o1 & w & Hg & Hi & Hw & Hat & Hty). unfold setField. rewrite Hg. cbn [mbind res_bind].
  rewrite Hat. destruct (isPresent w) eqn:Hp; cbn [mbind res_bind].
  - rewrite Hat, bool_decide_eq_false_2; [done|]. rewrite (Hty eq_refl). congruence.
  - destruct (makeFieldPresent_spec o1 f i (proj1 Hw) Hf Hi) as (o2 & d & Hm & Hw2 & Hdp & Hdt & Hat2). rewrite Hm. cbn [mbind res_bind].
    rewrite Hat2, bool_decide_eq_false_2; [done|]. congruence.
Qed.

Lemma setField_refused o f v : ~ accepts o f -> setField o f v = Throw (runtime_error "Field not found").
Proof. intros Ha. unfold setField. by rewrite getPField_refused. Qed.

(** The getter of a field's own type. *)
Lemma getFieldBy_spec {V} (cast : STValue -> option V) (empty : V) o f v : peekAtPField o f = Some v ->
  getFieldBy cast empty o f = if isPresent v then match cast v with Some x => Ok x | None => Throw (runtime_error "Wrong field type") end else Ok empty.
Proof. intros H. unfold getFieldBy. by rewrite H. Qed.

#[export] Instance accepts_dec o f : Decision (accepts o f).
Proof. unfold accepts. solve_decision. Defined.

(** C34. Writing a field is total and type safe. On a well-formed object, of a template
    or free, a write succeeds exactly when the object takes the field and the value is
    of the type of the field; then the object is well-formed again under the same
    template, reading the field gives the value written and every other field reads as
    before. Otherwise it throws, and which of the two reasons applies decides the
    message. *)
Theorem setField_type_safe o f v : object_ok o -> field_ok f ->
  match setField o f v with
  | Ok o' => (accepts o f /\ getSType v = fieldType f) /\ written_to o f v o'
  | Throw e => (~ accepts o f /\ e = runtime_error "Field not found") \/
               (accepts o f /\ getSType v <> fieldType f /\ e = runtime_error "Wrong field type")
  end.
Proof.
  intros Ho Hf. destruct (decide (accepts o f)) as [Ha|Ha]; [|rewrite setField_refused by done; by left].
  destruct (decide (getSType v = fieldType f)) as [Hv|Hv]; [|rewrite setField_mismatch by done; by right].
  destruct (setField_Ok o f v Ho Hf Ha Hv) as (o' & -> & Hw). done.
Qed.

Definition wobject : Object := mkObject [(sfFlags, V_UInt32 7); (sfBalance, V_NotPresent)] (Some [(sfFlags, soeREQUIRED); (sfBalance, soeOPTIONAL)]).

Lemma field_ok_dec_true f : (0 <=? fieldValue f) && (fieldValue f <? 65536) &&
  match default_value (fieldType f) with Ok v => isPresent v && bool_decide (getSType v = fieldType f) | Throw _ => false end = true -> field_ok f.
Proof.
  intros [[H1%Z.leb_le H2%Z.ltb_lt]%andb_true_iff H3]%andb_true_iff. split; [done|]. destruct (default_value _) as [v|]; [|done].
  apply andb_true_iff in H3 as [H3 H4%bool_decide_eq_true_1]. by exists v.
Qed.

Lemma wobject_ok : object_ok wobject.
Proof.
  split; [|split; [|split; [|done]]].
  - apply (bool_decide_unpack _). vm_compute. exact I.
  - repeat constructor; cbn; try lia; eexists; done.
  - repeat constructor; done.
Qed.

Lemma setField_type_safe_witness :
  match setField wobject sfBalance (V_UInt32 3) with
  | Ok o' => (accepts wobject sfBalance /\ getSType (V_UInt32 3) = fieldType sfBalance) /\ written_to wobject sfBalance (V_UInt32 3) o'
  | Throw e => (~ accepts wobject sfBalance /\ e = runtime_error "Field not found") \/
               (accepts wobject sfBalance /\ getSType (V_UInt32 3) <> fieldType sfBalance /\ e = runtime_error "Wrong field type")
  end.
Proof. apply (setField_type_safe wobject sfBalance (V_UInt32 3)); [exact wobject_ok|by apply field_ok_dec_true]. Defined.

(** ** Proxies *)

Lemma style_index t f s : style t f = Some s -> exists i, template_index t f = Some i.
Proof. unfold style. destruct (template_index t f) as [i|]; [by exists i|done]. Qed.

Lemma template_accepts o t f s : o_type o = Some t -> style t f = Some s -> exists i, getFieldIndex o f = Some i.
Proof. intros Ht [i Hi]%style_index. exists i. unfold getFieldIndex. by rewrite Ht. Qed.

Lemma proxy_style_Ok o t f s : object_ok o -> o_type o = Some t -> style t f = Some s -> proxy_style o f = Ok (Some s).
Proof.
  intros Ho Ht Hs. destruct (template_accepts o t f s Ht Hs) as [i Hi]. destruct (ok_at o f i Ho Hi) as (g & v & _ & _ & _ & _ & Hp).
  unfold proxy_style. by rewrite Ht, Hp, Hs.
Qed.

(** [obj[field] = v] on a templated object. *)
Lemma proxy_assign_Ok o t f s v e : object_ok o -> field_ok f -> o_type o = Some t -> style t f = Some s ->
  is_soeDEFAULT (Some s) && e = false -> getSType v = fieldType f -> exists o', proxy_assign o f v e = Ok o' /\ written_to o f v o'.
Proof.
  intros Ho Hf Ht Hs He Hv. destruct (template_accepts o t f s Ht Hs) as [i Hi]. unfold proxy_assign. rewrite (proxy_style_Ok o t f s Ho Ht Hs). cbn [mbind res_bind].
  rewrite He. destruct (makeFieldPresent_spec o f i Ho Hf Hi) as (o1 & d & Hm & Hw & Hdp & Hdt & Hat). rewrite Hm. cbn [mbind res_bind].
  rewrite Hat, bool_decide_eq_true_2 by congruence. eexists. split; [done|]. eapply written_twice; [exact Hw|]. apply put_written; [apply Hw|done| |done].
  rewrite ok_index by apply Hw. rewrite ok_index in Hi by done. rewrite <-Hi. f_equal. destruct Hw as (Hok & Hty & _).
  destruct Ho as (_ & _ & _ & H1), Hok as (_ & _ & _ & H2). rewrite Hty in H2. rewrite Ht in H1, H2. congruence.
Qed.

(** [makeFieldAbsent] on a field the object has. *)
Lemma makeFieldAbsent_Ok o f : object_ok o -> field_ok f -> is_Some (getFieldIndex o f) ->
  exists o', makeFieldAbsent o f = Ok o' /\ written_to o f V_NotPresent o'.
Proof.
  intros Ho Hf [i Hi]. destruct (ok_at o f i Ho Hi) as (g & v & Hv & Hc & Hg & Hty & Hp). unfold makeFieldAbsent. rewrite Hi, (value_at_lookup _ _ _ _ Hv).
  destruct (isPresent v) eqn:Hpr; eexists; (split; [done|]); [by apply put_written|]. destruct v; try done.
  split; [done|]. split; [done|]. intros h. case_decide as Hh; [|done]. rewrite <-Hp. unfold peekAtPField. rewrite !ok_index by done. f_equal.
  rewrite ok_index in Hi by done. rewrite Hi. destruct Ho as (Hn & _). eapply (index_of_lookup _ _ _ g); [done| |congruence]. by rewrite list_lookup_fmap, Hv.
Qed.

(** ** Objects of a template *)

(** The requirements on a template: distinct fields that can be held. *)
Definition template_ok (t : SOTemplate) : Prop := NoDup (getCode <$> t.*1) /\ Forall field_ok t.*1.

Definition template_okb (t : SOTemplate) : bool :=
  bool_decide (NoDup (getCode <$> t.*1)) &&
  forallb (fun f => (0 <=? fieldValue f) && (fieldValue f <? 65536) &&
    match default_value (fieldType f) with Ok v => isPresent v && bool_decide (getSType v = fieldType f) | Throw _ => false end) t.*1.

Lemma template_okb_ok t : template_okb t = true -> template_ok t.
Proof.
  intros [H1%bool_decide_eq_true_1 H2]%andb_true_iff. split; [done|]. rewrite Forall_forall. rewrite forallb_forall in H2.
  intros f Hf%list_elem_of_In. apply field_ok_dec_true, H2, Hf.
Qed.

(** [set (template)] gives an object of the template: required fields hold the
    default of their type and the others are absent. *)
Lemma set_template_ok t : template_ok t -> exists o, set_template t = Ok o /\ object_ok o /\ o_type o = Some t.
Proof.
  intros [Hn Hf]. assert (Hm : exists v, mapR template_field t = Ok v /\ v.*1 = t.*1 /\ Forall value_ok v).
  { clear Hn. induction t as [|[f s] t IH]; [by exists []|]. cbn in Hf. apply Forall_cons in Hf as [(Hr & d & Hd & Hdp & Hdt) Hf].
    destruct (IH Hf) as (v & Hv & Hnames & Hval). change (mapR template_field ((f, s) :: t)) with (b ← template_field (f, s); bs ← mapR template_field t; Ok (b :: bs)).
    rewrite Hv. unfold template_field. destruct s; cbn [snd fst]; rewrite ?Hd; cbn [mbind res_bind]; eexists; (split; [done|]); cbn; rewrite Hnames; (split; [done|]);
      (constructor; [|done]); [intros _; exact Hdt|done|done]. }
  destruct Hm as (v & Hv & Hnames & Hval). unfold set_template. rewrite Hv. cbn. eexists. split; [done|]. split; [|done].
  unfold object_ok. cbn [o_fields o_type]. by rewrite Hnames.
Qed.

(** [makeFieldPresent] leaves a field it adds to a free object absent. *)
Lemma makeFieldPresent_absent : exists i o, makeFieldPresent (mkObject [] None) sfBalance = Ok (i, o) /\ isFieldPresent o sfBalance = false.
Proof. eexists _, _. split; reflexivity. Qed.
