(* ===== verification/Formats.v ===== *)
(** * Formats of ledger entries and transactions

    Models protocol/impl/LedgerFormats.cpp and protocol/impl/TxFormats.cpp: the
    template of every type of ledger entry and of transaction, with the flags of
    protocol/LedgerFormats.h and protocol/TxFlags.h, and [STLedgerEntry] of
    protocol/impl/STLedgerEntry.cpp. *)

From S2P Require Import Prelude STAmount Serializer SField STObject STAccess View Indexes.

(** ** Flags and types *)

(** [LedgerSpecificFlags]: bits of [sfFlags] of an entry, by its type. *)
Inductive LedgerSpecificFlags :=
| lsfPasswordSpent | lsfRequireDestTag | lsfRequireAuth | lsfDisallowSFC
| lsfDisableMaster | lsfNoFreeze | lsfGlobalFreeze | lsfDefaultSupplyFinanceChain
| lsfDepositAuth | lsfPassive | lsfSell | lsfLowReserve
| lsfHighReserve | lsfLowAuth | lsfHighAuth | lsfLowNoSupplyFinanceChain
| lsfHighNoSupplyFinanceChain | lsfLowFreeze | lsfHighFreeze | lsfOneOwnerCount.

Definition lsf_code (x : LedgerSpecificFlags) : Z :=
  match x with
  | lsfPasswordSpent => 65536 | lsfRequireDestTag => 131072 | lsfRequireAuth => 262144 | lsfDisallowSFC => 524288
  | lsfDisableMaster => 1048576 | lsfNoFreeze => 2097152 | lsfGlobalFreeze => 4194304 | lsfDefaultSupplyFinanceChain => 8388608
  | lsfDepositAuth => 16777216 | lsfPassive => 65536 | lsfSell => 131072 | lsfLowReserve => 65536
  | lsfHighReserve => 131072 | lsfLowAuth => 262144 | lsfHighAuth => 524288 | lsfLowNoSupplyFinanceChain => 1048576
  | lsfHighNoSupplyFinanceChain => 2097152 | lsfLowFreeze => 4194304 | lsfHighFreeze => 8388608 | lsfOneOwnerCount => 65536
  end.

Coercion lsf_code : LedgerSpecificFlags >-> Z.

(** [TxType]. *)
Inductive TxType :=
| ttINVALID | ttPAYMENT | ttESCROW_CREATE | ttESCROW_FINISH
| ttACCOUNT_SET | ttESCROW_CANCEL | ttREGULAR_KEY_SET | ttNICKNAME_SET
| ttOFFER_CREATE | ttOFFER_CANCEL | no_longer_used | ttTICKET_CREATE
| ttTICKET_CANCEL | ttSIGNER_LIST_SET | ttPAYCHAN_CREATE | ttPAYCHAN_FUND
| ttPAYCHAN_CLAIM | ttCHECK_CREATE | ttCHECK_CASH | ttCHECK_CANCEL
| ttDEPOSIT_PREAUTH | ttTRUST_SET | ttAMENDMENT | ttFEE.

Definition tt_code (x : TxType) : Z :=
  match x with
  | ttINVALID => -1 | ttPAYMENT => 0 | ttESCROW_CREATE => 1 | ttESCROW_FINISH => 2
  | ttACCOUNT_SET => 3 | ttESCROW_CANCEL => 4 | ttREGULAR_KEY_SET => 5 | ttNICKNAME_SET => 6
  | ttOFFER_CREATE => 7 | ttOFFER_CANCEL => 8 | no_longer_used => 9 | ttTICKET_CREATE => 10
  | ttTICKET_CANCEL => 11 | ttSIGNER_LIST_SET => 12 | ttPAYCHAN_CREATE => 13 | ttPAYCHAN_FUND => 14
  | ttPAYCHAN_CLAIM => 15 | ttCHECK_CREATE => 16 | ttCHECK_CASH => 17 | ttCHECK_CANCEL => 18
  | ttDEPOSIT_PREAUTH => 19 | ttTRUST_SET => 20 | ttAMENDMENT => 100 | ttFEE => 101
  end.

Coercion tt_code : TxType >-> Z.

(** The flags of a transaction, by its type. *)
Inductive TxFlags :=
| requireDestTag | tfFullyCanonicalSig | tfOptionalDestTag | tfRequireAuth
| tfOptionalAuth | tfDisallowSFC | tfAllowSFC | tfPassive
| tfImmediateOrCancel | tfFillOrKill | tfSell | tfNoSupplyFinanceChainDirect
| tfPartialPayment | tfLimitQuality | tfSetfAuth | tfSetNoSupplyFinanceChain
| tfClearNoSupplyFinanceChain | tfSetFreeze | tfClearFreeze | tfGotMajority
| tfLostMajority | tfRenew | tfClose.

Definition tf_code (x : TxFlags) : Z :=
  match x with
  | requireDestTag => 65536 | tfFullyCanonicalSig => 2147483648 | tfOptionalDestTag => 131072 | tfRequireAuth => 262144
  | tfOptionalAuth => 524288 | tfDisallowSFC => 1048576 | tfAllowSFC => 2097152 | tfPassive => 65536
  | tfImmediateOrCancel => 131072 | tfFillOrKill => 262144 | tfSell => 524288 | tfNoSupplyFinanceChainDirect => 65536
  | tfPartialPayment => 131072 | tfLimitQuality => 262144 | tfSetfAuth => 65536 | tfSetNoSupplyFinanceChain => 131072
  | tfClearNoSupplyFinanceChain => 262144 | tfSetFreeze => 1048576 | tfClearFreeze => 2097152 | tfGotMajority => 65536
  | tfLostMajority => 131072 | tfRenew => 65536 | tfClose => 131072
  end.

Coercion tf_code : TxFlags >-> Z.

(** Values of [sfSetFlag] and [sfClearFlag]. *)
Inductive AccountFlags :=
| asfRequireDest | asfRequireAuth | asfDisallowSFC | asfDisableMaster
| asfAccountTxnID | asfNoFreeze | asfGlobalFreeze | asfDefaultSupplyFinanceChain
| asfDepositAuth.

Definition asf_code (x : AccountFlags) : Z :=
  match x with
  | asfRequireDest => 1 | asfRequireAuth => 2 | asfDisallowSFC => 3 | asfDisableMaster => 4
  | asfAccountTxnID => 5 | asfNoFreeze => 6 | asfGlobalFreeze => 7 | asfDefaultSupplyFinanceChain => 8
  | asfDepositAuth => 9
  end.

Coercion asf_code : AccountFlags >-> Z.

(** The complement of a set of flags, at 32 bits. *)
Definition flag_mask (allowed : list TxFlags) : Z := Z.land (Z.lnot (foldr (fun f z => Z.lor (tf_code f) z) 0 allowed)) (Z.ones 32).

Definition tfUniversalMask : Z := flag_mask [tfFullyCanonicalSig].
Definition tfAccountSetMask : Z := flag_mask [tfFullyCanonicalSig; requireDestTag; tfOptionalDestTag; tfRequireAuth; tfOptionalAuth; tfDisallowSFC; tfAllowSFC].
Definition tfOfferCreateMask : Z := flag_mask [tfFullyCanonicalSig; tfPassive; tfImmediateOrCancel; tfFillOrKill; tfSell].
Definition tfPaymentMask : Z := flag_mask [tfFullyCanonicalSig; tfPartialPayment; tfLimitQuality; tfNoSupplyFinanceChainDirect].
Definition tfTrustSetMask : Z := flag_mask [tfFullyCanonicalSig; tfSetfAuth; tfSetNoSupplyFinanceChain; tfClearNoSupplyFinanceChain; tfSetFreeze; tfClearFreeze].
Definition tfPayChanClaimMask : Z := flag_mask [tfFullyCanonicalSig; tfRenew; tfClose].

(** ** The tables *)

Definition ledger_formats : list (Z * SOTemplate) :=
  let commonFields : SOTemplate :=
    [(sfLedgerIndex, soeOPTIONAL); (sfLedgerEntryType, soeREQUIRED); (sfFlags, soeREQUIRED)] in
  [(ltACCOUNT_ROOT : Z,
     [(sfAccount, soeREQUIRED); (sfSequence, soeREQUIRED); (sfBalance, soeREQUIRED); (sfOwnerCount, soeREQUIRED);
      (sfPreviousTxnID, soeREQUIRED); (sfPreviousTxnLgrSeq, soeREQUIRED); (sfAccountTxnID, soeOPTIONAL); (sfRegularKey, soeOPTIONAL);
      (sfEmailHash, soeOPTIONAL); (sfWalletLocator, soeOPTIONAL); (sfWalletSize, soeOPTIONAL); (sfMessageKey, soeOPTIONAL);
      (sfTransferRate, soeOPTIONAL); (sfDomain, soeOPTIONAL); (sfTickSize, soeOPTIONAL)] ++ commonFields);
   (ltDIR_NODE : Z,
     [(sfOwner, soeOPTIONAL); (sfTakerPaysCurrency, soeOPTIONAL); (sfTakerPaysIssuer, soeOPTIONAL); (sfTakerGetsCurrency, soeOPTIONAL);
      (sfTakerGetsIssuer, soeOPTIONAL); (sfExchangeRate, soeOPTIONAL); (sfIndexes, soeREQUIRED); (sfRootIndex, soeREQUIRED);
      (sfIndexNext, soeOPTIONAL); (sfIndexPrevious, soeOPTIONAL)] ++ commonFields);
   (ltOFFER : Z,
     [(sfAccount, soeREQUIRED); (sfSequence, soeREQUIRED); (sfTakerPays, soeREQUIRED); (sfTakerGets, soeREQUIRED);
      (sfBookDirectory, soeREQUIRED); (sfBookNode, soeREQUIRED); (sfOwnerNode, soeREQUIRED); (sfPreviousTxnID, soeREQUIRED);
      (sfPreviousTxnLgrSeq, soeREQUIRED); (sfExpiration, soeOPTIONAL)] ++ commonFields);
   (ltSUPPLYFINANCECHAIN_STATE : Z,
     [(sfBalance, soeREQUIRED); (sfLowLimit, soeREQUIRED); (sfHighLimit, soeREQUIRED); (sfPreviousTxnID, soeREQUIRED);
      (sfPreviousTxnLgrSeq, soeREQUIRED); (sfLowNode, soeOPTIONAL); (sfLowQualityIn, soeOPTIONAL); (sfLowQualityOut, soeOPTIONAL);
      (sfHighNode, soeOPTIONAL); (sfHighQualityIn, soeOPTIONAL); (sfHighQualityOut, soeOPTIONAL)] ++ commonFields);
   (ltESCROW : Z,
     [(sfAccount, soeREQUIRED); (sfDestination, soeREQUIRED); (sfAmount, soeREQUIRED); (sfCondition, soeOPTIONAL);
      (sfCancelAfter, soeOPTIONAL); (sfFinishAfter, soeOPTIONAL); (sfSourceTag, soeOPTIONAL); (sfDestinationTag, soeOPTIONAL);
      (sfOwnerNode, soeREQUIRED); (sfPreviousTxnID, soeREQUIRED); (sfPreviousTxnLgrSeq, soeREQUIRED); (sfDestinationNode, soeOPTIONAL)] ++ commonFields);
   (ltLEDGER_HASHES : Z,
     [(sfFirstLedgerSequence, soeOPTIONAL); (sfLastLedgerSequence, soeOPTIONAL); (sfHashes, soeREQUIRED)] ++ commonFields);
   (ltAMENDMENTS : Z,
     [(sfAmendments, soeOPTIONAL); (sfMajorities, soeOPTIONAL)] ++ commonFields);
   (ltFEE_SETTINGS : Z,
     [(sfBaseFee, soeREQUIRED); (sfReferenceFeeUnits, soeREQUIRED); (sfReserveBase, soeREQUIRED); (sfReserveIncrement, soeREQUIRED)] ++ commonFields);
   (ltTICKET : Z,
     [(sfAccount, soeREQUIRED); (sfSequence, soeREQUIRED); (sfOwnerNode, soeREQUIRED); (sfTarget, soeOPTIONAL);
      (sfExpiration, soeOPTIONAL)] ++ commonFields);
   (ltSIGNER_LIST : Z,
     [(sfOwnerNode, soeREQUIRED); (sfSignerQuorum, soeREQUIRED); (sfSignerEntries, soeREQUIRED); (sfSignerListID, soeREQUIRED);
      (sfPreviousTxnID, soeREQUIRED); (sfPreviousTxnLgrSeq, soeREQUIRED)] ++ commonFields);
   (ltPAYCHAN : Z,
     [(sfAccount, soeREQUIRED); (sfDestination, soeREQUIRED); (sfAmount, soeREQUIRED); (sfBalance, soeREQUIRED);
      (sfPublicKey, soeREQUIRED); (sfSettleDelay, soeREQUIRED); (sfExpiration, soeOPTIONAL); (sfCancelAfter, soeOPTIONAL);
      (sfSourceTag, soeOPTIONAL); (sfDestinationTag, soeOPTIONAL); (sfOwnerNode, soeREQUIRED); (sfPreviousTxnID, soeREQUIRED);
      (sfPreviousTxnLgrSeq, soeREQUIRED)] ++ commonFields);
   (ltCHECK : Z,
     [(sfAccount, soeREQUIRED); (sfDestination, soeREQUIRED); (sfSendMax, soeREQUIRED); (sfSequence, soeREQUIRED);
      (sfOwnerNode, soeREQUIRED); (sfDestinationNode, soeREQUIRED); (sfExpiration, soeOPTIONAL); (sfInvoiceID, soeOPTIONAL);
      (sfSourceTag, soeOPTIONAL); (sfDestinationTag, soeOPTIONAL); (sfPreviousTxnID, soeREQUIRED); (sfPreviousTxnLgrSeq, soeREQUIRED)] ++ commonFields);
   (ltDEPOSIT_PREAUTH : Z,
     [(sfAccount, soeREQUIRED); (sfAuthorize, soeREQUIRED); (sfOwnerNode, soeREQUIRED); (sfPreviousTxnID, soeREQUIRED);
      (sfPreviousTxnLgrSeq, soeREQUIRED)] ++ commonFields)].

Definition tx_formats : list (Z * SOTemplate) :=
  let commonFields : SOTemplate :=
    [(sfTransactionType, soeREQUIRED); (sfFlags, soeOPTIONAL); (sfSourceTag, soeOPTIONAL); (sfAccount, soeREQUIRED);
     (sfSequence, soeREQUIRED); (sfPreviousTxnID, soeOPTIONAL); (sfLastLedgerSequence, soeOPTIONAL); (sfAccountTxnID, soeOPTIONAL);
     (sfFee, soeREQUIRED); (sfOperationLimit, soeOPTIONAL); (sfMemos, soeOPTIONAL); (sfSigningPubKey, soeREQUIRED);
     (sfTxnSignature, soeOPTIONAL); (sfSigners, soeOPTIONAL)] in
  [(ttACCOUNT_SET : Z,
     [(sfEmailHash, soeOPTIONAL); (sfWalletLocator, soeOPTIONAL); (sfWalletSize, soeOPTIONAL); (sfMessageKey, soeOPTIONAL);
      (sfDomain, soeOPTIONAL); (sfTransferRate, soeOPTIONAL); (sfSetFlag, soeOPTIONAL); (sfClearFlag, soeOPTIONAL);
      (sfTickSize, soeOPTIONAL)] ++ commonFields);
   (ttTRUST_SET : Z,
     [(sfLimitAmount, soeOPTIONAL); (sfQualityIn, soeOPTIONAL); (sfQualityOut, soeOPTIONAL)] ++ commonFields);
   (ttOFFER_CREATE : Z,
     [(sfTakerPays, soeREQUIRED); (sfTakerGets, soeREQUIRED); (sfExpiration, soeOPTIONAL); (sfOfferSequence, soeOPTIONAL)] ++ commonFields);
   (ttOFFER_CANCEL : Z,
     [(sfOfferSequence, soeREQUIRED)] ++ commonFields);
   (ttREGULAR_KEY_SET : Z,
     [(sfRegularKey, soeOPTIONAL)] ++ commonFields);
   (ttPAYMENT : Z,
     [(sfDestination, soeREQUIRED); (sfAmount, soeREQUIRED); (sfSendMax, soeOPTIONAL); (sfPaths, soeDEFAULT);
      (sfInvoiceID, soeOPTIONAL); (sfDestinationTag, soeOPTIONAL); (sfDeliverMin, soeOPTIONAL)] ++ commonFields);
   (ttESCROW_CREATE : Z,
     [(sfDestination, soeREQUIRED); (sfAmount, soeREQUIRED); (sfCondition, soeOPTIONAL); (sfCancelAfter, soeOPTIONAL);
      (sfFinishAfter, soeOPTIONAL); (sfDestinationTag, soeOPTIONAL)] ++ commonFields);
   (ttESCROW_FINISH : Z,
     [(sfOwner, soeREQUIRED); (sfOfferSequence, soeREQUIRED); (sfFulfillment, soeOPTIONAL); (sfCondition, soeOPTIONAL)] ++ commonFields);
   (ttESCROW_CANCEL : Z,
     [(sfOwner, soeREQUIRED); (sfOfferSequence, soeREQUIRED)] ++ commonFields);
   (ttAMENDMENT : Z,
     [(sfLedgerSequence, soeREQUIRED); (sfAmendment, soeREQUIRED)] ++ commonFields);
   (ttFEE : Z,
     [(sfLedgerSequence, soeOPTIONAL); (sfBaseFee, soeREQUIRED); (sfReferenceFeeUnits, soeREQUIRED); (sfReserveBase, soeREQUIRED);
      (sfReserveIncrement, soeREQUIRED)] ++ commonFields);
   (ttTICKET_CREATE : Z,
     [(sfTarget, soeOPTIONAL); (sfExpiration, soeOPTIONAL)] ++ commonFields);
   (ttTICKET_CANCEL : Z,
     [(sfTicketID, soeREQUIRED)] ++ commonFields);
   (ttSIGNER_LIST_SET : Z,
     [(sfSignerQuorum, soeREQUIRED); (sfSignerEntries, soeOPTIONAL)] ++ commonFields);
   (ttPAYCHAN_CREATE : Z,
     [(sfDestination, soeREQUIRED); (sfAmount, soeREQUIRED); (sfSettleDelay, soeREQUIRED); (sfPublicKey, soeREQUIRED);
      (sfCancelAfter, soeOPTIONAL); (sfDestinationTag, soeOPTIONAL)] ++ commonFields);
   (ttPAYCHAN_FUND : Z,
     [(sfPayChannel, soeREQUIRED); (sfAmount, soeREQUIRED); (sfExpiration, soeOPTIONAL)] ++ commonFields);
   (ttPAYCHAN_CLAIM : Z,
     [(sfPayChannel, soeREQUIRED); (sfAmount, soeOPTIONAL); (sfBalance, soeOPTIONAL); (sfSignature, soeOPTIONAL);
      (sfPublicKey, soeOPTIONAL)] ++ commonFields);
   (ttCHECK_CREATE : Z,
     [(sfDestination, soeREQUIRED); (sfSendMax, soeREQUIRED); (sfExpiration, soeOPTIONAL); (sfDestinationTag, soeOPTIONAL);
      (sfInvoiceID, soeOPTIONAL)] ++ commonFields);
   (ttCHECK_CASH : Z,
     [(sfCheckID, soeREQUIRED); (sfAmount, soeOPTIONAL); (sfDeliverMin, soeOPTIONAL)] ++ commonFields);
   (ttCHECK_CANCEL : Z,
     [(sfCheckID, soeREQUIRED)] ++ commonFields);
   (ttDEPOSIT_PREAUTH : Z,
     [(sfAuthorize, soeOPTIONAL); (sfUnauthorize, soeOPTIONAL)] ++ commonFields)].

(** [KnownFormats::findByType]. *)
Definition findByType (formats : list (Z * SOTemplate)) (type : Z) : option SOTemplate :=
  snd <$> find (fun e : Z * SOTemplate => e.1 =? type) formats.

(** ** Ledger entries *)

(** [STLedgerEntry (Keylet)]: an entry of the keylet's type with the defaults of its
    template. *)
Definition make_SLE (k : Keylet) : res (SLE Object) :=
  if negb ((0 <=? kl_type k) && (kl_type k <=? 65535)) then Throw (runtime_error "invalid ledger entry type: out of range") else
  match findByType ledger_formats (kl_type k) with
  | None => Throw (runtime_error "invalid ledger entry type")
  | Some t =>
      o ← set_template t;
      o ← setFieldU16 o sfLedgerEntryType (u16 (kl_type k));
      Ok (mkSLE (kl_type k) (kl_key k) o)
  end.

(** [STLedgerEntry (STObject, index)], with [setSLEType]. *)
Definition SLE_of_object (o : Object) (index : Z) : res (SLE Object) :=
  type ← getFieldU16 o sfLedgerEntryType;
  match findByType ledger_formats type with
  | None => Throw (runtime_error "invalid ledger entry type")
  | Some t => o ← object_applyTemplate t o; Ok (mkSLE type index o)
  end.

(** [STLedgerEntry (SerialIter, index)]. *)
Definition parse_SLE (data : list Z) (index : Z) : res (SLE Object) :=
  '(fields, _) ← parse_object (iter data); SLE_of_object (mkObject fields None) index.

Definition isThreadedType (s : SLE Object) : bool :=
  match getFieldIndex (sle_data s) sfPreviousTxnID with Some _ => true | None => false end.

(** [STLedgerEntry::thread]: the previous transaction and its ledger when the entry
    was not threaded to this one already. *)
Definition thread (s : SLE Object) (txID ledgerSeq : Z) : res (option (Z * Z) * SLE Object) :=
  oldPrevTxID ← getFieldH256 (sle_data s) sfPreviousTxnID;
  if oldPrevTxID =? txID then Ok (None, s) else
  prevLedgerID ← getFieldU32 (sle_data s) sfPreviousTxnLgrSeq;
  o ← setFieldH256 (sle_data s) sfPreviousTxnID txID;
  o ← setFieldU32 o sfPreviousTxnLgrSeq ledgerSeq;
  Ok (Some (oldPrevTxID, prevLedgerID), mkSLE (sle_type s) (sle_key s) o).

(** ** The tables are sound *)

Lemma ledger_templates_ok : Forall (fun e : Z * SOTemplate => template_ok e.2) ledger_formats.
Proof. rewrite Forall_forall. intros e He. apply template_okb_ok. revert e He. rewrite <-Forall_forall. repeat constructor. Qed.

Lemma tx_templates_ok : Forall (fun e : Z * SOTemplate => template_ok e.2) tx_formats.
Proof. rewrite Forall_forall. intros e He. apply template_okb_ok. revert e He. rewrite <-Forall_forall. repeat constructor. Qed.

Lemma findByType_elem formats type t : findByType formats type = Some t -> (type, t) ∈ formats.
Proof.
  unfold findByType. intros ([k t'] & H & ->)%fmap_Some. apply List.find_some in H as [Hin He%Z.eqb_eq]. cbn in He. subst. by apply list_elem_of_In.
Qed.

(** An entry that is well formed for its type. *)
Definition sle_ok (s : SLE Object) : Prop :=
  exists t, findByType ledger_formats (sle_type s) = Some t /\ o_type (sle_data s) = Some t /\ object_ok (sle_data s).

Lemma findByType_ok type t : findByType ledger_formats type = Some t -> template_ok t.
Proof. intros H%findByType_elem. pose proof ledger_templates_ok as Hok. rewrite Forall_forall in Hok. exact (Hok _ H). Qed.

Lemma entry_type_field t : t ∈ ledger_formats.*2 -> is_Some (template_index t sfLedgerEntryType).
Proof. revert t. apply Forall_forall. repeat constructor; cbn; eauto. Qed.

(** [STLedgerEntry (Keylet)] makes a well-formed entry for every known type and for
    no other. *)
Lemma make_SLE_ok k : is_Some (findByType ledger_formats (kl_type k)) ->
  exists s, make_SLE k = Ok s /\ sle_ok s /\ sle_type s = kl_type k /\ sle_key s = kl_key k.
Proof.
  intros [t Ht]. unfold make_SLE. rewrite Ht. assert (Hr : (0 <=? kl_type k) && (kl_type k <=? 65535) = true).
  { apply findByType_elem in Ht. revert Ht. generalize (kl_type k). intros ty Hin. assert (Hty : ty ∈ ledger_formats.*1) by (apply list_elem_of_fmap; by exists (ty, t)).
    revert ty Hin Hty. clear. intros ty _. revert ty. apply Forall_forall. repeat constructor. }
  rewrite Hr. cbn [negb]. destruct (set_template_ok t (findByType_ok _ _ Ht)) as (o & Ho & Hok & Hty). rewrite Ho. cbn [mbind res_bind].
  assert (Ha : accepts o sfLedgerEntryType).
  { right. unfold getFieldIndex. rewrite Hty. apply entry_type_field. apply findByType_elem in Ht. apply list_elem_of_fmap. by exists (kl_type k, t). }
  destruct (setField_Ok o sfLedgerEntryType (V_UInt16 (u16 (kl_type k))) Hok) as (o' & Hs & Hw); [by apply field_ok_dec_true|done|done|].
  unfold setFieldU16. rewrite Hs. cbn [mbind res_bind]. eexists. split; [done|]. split; [|done]. exists t. destruct Hw as (Hok' & Hty' & _). cbn. split; [done|]. split; [congruence|done].
Qed.
