(* ===== verification/STTx.v ===== *)
(** * Transactions

    Models protocol/STTx.h, protocol/impl/STTx.cpp and protocol/impl/Sign.cpp: the
    construction of a transaction from bytes or from an object, its identifier, the
    data that is signed, the checks of single and multiple signatures, and the local
    checks. The digest and the verification of a signature are parameters. *)

From stdpp Require Import sorting.
From S2P Require Import Prelude STAmount Serializer Keys SField STObject STWire STObjectWire STAccess View Indexes Formats.

(** [HashPrefix (a, b, c)]. *)
Definition hash_prefix (a b c : Z) : Z := Z.shiftl (Z.shiftl (Z.shiftl a 8 + b) 8 + c) 8.
Definition prefix_transactionID : Z := hash_prefix 84 88 78.
Definition prefix_txSign : Z := hash_prefix 83 84 88.
Definition prefix_txMultiSign : Z := hash_prefix 83 77 84.

Definition txMinSizeBytes : Z := 32.
Definition txMaxSizeBytes : Z := 1024 * 1024.
Definition minMultiSigners : nat := 1.
Definition maxMultiSigners : nat := 8.

(** A transaction: its fields, its type and its identifier. *)
Record STTx := mkTx { tx_object : Object; tx_type_ : Z; tid_ : Z }.

(** The signers and memos of a transaction are objects of the template of their name. *)
Definition inner_object (e : SField * Fields) : Object := mkObject e.2 (findSOTemplateBySField e.1).

(** The reason for which a signature is refused; the last one names the account. *)
Inductive SignReason := Reason (what : string) | Reason_account (accountID : Z).

Section STTx.
Context (sha512Half : list Z -> Z) (verify : list Z -> list Z -> list Z -> bool -> res bool).

Definition getTxFormat (type : Z) : res SOTemplate :=
  match findByType tx_formats type with Some t => Ok t | None => Throw (runtime_error "Invalid transaction type") end.

(** [STTx (STObject&&)]. *)
Definition STTx_of_object (o : Object) : res STTx :=
  type ← getFieldU16 o sfTransactionType;
  t ← getTxFormat type;
  o ← object_applyTemplate t o;
  id ← getHash sha512Half prefix_transactionID (o_fields o);
  Ok (mkTx o type id).

(** [STTx (SerialIter&)]. *)
Definition parse_STTx (data : list Z) : res STTx :=
  if (Z.of_nat (length data) <? txMinSizeBytes) || (txMaxSizeBytes <? Z.of_nat (length data)) then Throw (runtime_error "Transaction length invalid") else
  '((fields, terminated), _) ← set_loop (S (length data)) 0 [] (iter data);
  fields ← check_duplicates fields;
  if (terminated : bool) then Throw (runtime_error "Transaction contains an object terminator") else
  STTx_of_object (mkObject fields None).

(** [STTx (type, assembler)]. *)
Definition build_STTx (type : Z) (assembler : Object -> res Object) : res STTx :=
  t ← getTxFormat type;
  o ← set_template t;
  o ← setFieldU16 o sfTransactionType (u16 type);
  o ← assembler o;
  tt ← getFieldU16 o sfTransactionType;
  if negb (tt =? type) then Throw (logic_error "Transaction type was mutated during assembly") else
  id ← getHash sha512Half prefix_transactionID (o_fields o);
  Ok (mkTx o tt id).

(** [sterilize]. *)
Definition sterilize (stx : STTx) : res STTx := data ← add_object true (o_fields (tx_object stx)); parse_STTx data.

Definition getSequence (tx : STTx) : res Z := getFieldU32 (tx_object tx) sfSequence.
Definition getSigningPubKey (tx : STTx) : res (list Z) := getFieldVL (tx_object tx) sfSigningPubKey.

(** A set of accounts in order, as [flat_set] has it. *)
Fixpoint set_insert (x : Z) (l : list Z) : list Z :=
  match l with [] => [x] | y :: l' => if x <? y then x :: l else if x =? y then l else y :: set_insert x l' end.

Definition mentioned (fv : SField * STValue) : option Z :=
  match fv.2 with
  | V_Account isDefault v => if isDefault then None else Some v
  | V_Amount a => if isSFC (account (mIssue a)) then None else Some (account (mIssue a))
  | _ => None
  end.

Definition getMentionedAccounts (tx : STTx) : list Z := foldl (fun l x => set_insert x l) [] (omap mentioned (o_fields (tx_object tx))).

(** ** Signatures *)

Definition signing_data (prefix : Z) (o : Object) : res (list Z) := bs ← add_object false (o_fields o); Ok (add32 prefix [] ++ bs).

Definition getSigningData (tx : STTx) : res (list Z) := signing_data prefix_txSign (tx_object tx).
Definition startMultiSigningData (o : Object) : res (list Z) := signing_data prefix_txMultiSign o.
Definition finishMultiSigningData (signingID : Z) (s : list Z) : list Z := add160 signingID s.

(** [catch (std::exception const&)]: false. *)
Definition caught (r : res bool) : bool := match r with Ok b => b | Throw _ => false end.

Definition fullyCanonicalSig (o : Object) : bool := negb (Z.land (getFlags o) tfFullyCanonicalSig =? 0).

Definition tx_checkSingleSign (tx : STTx) : bool * SignReason :=
  let o := tx_object tx in
  if isFieldPresent o sfSigners then (false, Reason "Cannot both single- and multi-sign."%string) else
  let validSig := caught (
    spk ← getFieldVL o sfSigningPubKey;
    match publicKeyType spk with
    | Some _ => signature ← getFieldVL o sfTxnSignature; data ← getSigningData tx; verify spk data signature (fullyCanonicalSig o)
    | None => Ok false
    end) in
  if negb validSig then (false, Reason "Invalid signature."%string) else (true, Reason EmptyString).

(** The signature of one signer over the data. *)
Definition signer_valid (dataStart : list Z) (fullyCanonical : bool) (accountID : Z) (signer : Object) : bool :=
  caught (
    spk ← getFieldVL signer sfSigningPubKey;
    match publicKeyType spk with
    | Some _ => signature ← getFieldVL signer sfTxnSignature; verify spk (finishMultiSigningData accountID dataStart) signature fullyCanonical
    | None => Ok false
    end).

(** The loop over the signers. *)
Fixpoint signers_loop (dataStart : list Z) (fullyCanonical : bool) (txnAccountID lastAccountID : Z) (signers : list Object) : res (bool * SignReason) :=
  match signers with
  | [] => Ok (true, Reason EmptyString)
  | signer :: signers =>
      accountID ← getAccountID signer sfAccount;
      if accountID =? txnAccountID then Ok (false, Reason "Invalid multisigner."%string) else
      if lastAccountID =? accountID then Ok (false, Reason "Duplicate Signers not allowed."%string) else
      if accountID <? lastAccountID then Ok (false, Reason "Unsorted Signers array."%string) else
      if negb (signer_valid dataStart fullyCanonical accountID signer) then Ok (false, Reason_account accountID) else
      signers_loop dataStart fullyCanonical txnAccountID accountID signers
  end.

Definition tx_checkMultiSign (tx : STTx) : res (bool * SignReason) :=
  let o := tx_object tx in
  if negb (isFieldPresent o sfSigners) then Ok (false, Reason "Empty SigningPubKey."%string) else
  if isFieldPresent o sfTxnSignature then Ok (false, Reason "Cannot both single- and multi-sign."%string) else
  signers ← getFieldArray o sfSigners;
  if (length signers <? minMultiSigners)%nat || (maxMultiSigners <? length signers)%nat then Ok (false, Reason "Invalid Signers array size."%string) else
  dataStart ← startMultiSigningData o;
  txnAccountID ← getAccountID o sfAccount;
  signers_loop dataStart (fullyCanonicalSig o) txnAccountID 0 (inner_object <$> signers).

Definition tx_checkSign (allowMultiSign : bool) (tx : STTx) : bool * SignReason :=
  let r :=
    if allowMultiSign then
      (signingPubKey ← getFieldVL (tx_object tx) sfSigningPubKey;
       match signingPubKey with [] => tx_checkMultiSign tx | _ => Ok (tx_checkSingleSign tx) end)
    else Ok (tx_checkSingleSign tx) in
  match r with Ok ret => ret | Throw _ => (false, Reason "Internal signature check failure."%string) end.
End STTx.

(** ** Local checks *)

(** The characters of URLs (RFC 3986). *)
Definition allowedSymbol (c : Z) : bool :=
  (48 <=? c) && (c <=? 57) || (65 <=? c) && (c <=? 90) || (97 <=? c) && (c <=? 122) ||
  existsb (Z.eqb c) [45; 46; 95; 126; 58; 47; 63; 35; 91; 93; 64; 33; 36; 38; 39; 40; 41; 42; 43; 44; 59; 61; 37].

(** A field of a memo. Its text is the hexadecimal form of its bytes, so decoding it
    gives the bytes back; the text of a field that is not present is empty. *)
Definition memo_element_okay (fv : SField * STValue) : string + unit :=
  let name := fv.1 in
  if negb (field_eq name sfMemoType) && negb (field_eq name sfMemoData) && negb (field_eq name sfMemoFormat)
  then inl "A memo may contain only MemoType, MemoData or MemoFormat fields."%string else
  match fv.2 with
  | V_NotPresent => inr ()
  | V_VL data =>
      if field_eq name sfMemoData then inr () else
      if forallb allowedSymbol data then inr ()
      else inl "The MemoType and MemoFormat fields may only contain characters that are allowed in URLs under RFC 3986."%string
  | _ => inl "The MemoType, MemoData and MemoFormat fields may only contain hex-encoded data."%string
  end.

Fixpoint all_okay {A} (f : A -> string + unit) (l : list A) : string + unit :=
  match l with [] => inr () | x :: l => match f x with inl e => inl e | inr _ => all_okay f l end end.

Definition memo_okay (memo : SField * Fields) : string + unit :=
  if negb (field_eq memo.1 sfMemo) then inl "A memo array may contain only Memo objects."%string else all_okay memo_element_okay memo.2.

Definition isMemoOkay (o : Object) : res (string + unit) :=
  if negb (isFieldPresent o sfMemos) then Ok (inr ()) else
  memos ← getFieldArray o sfMemos;
  bs ← add_value (V_Array memos);
  if (1024 <? length bs)%nat then Ok (inl "The memo exceeds the maximum allowed size."%string) else
  Ok (all_okay memo_okay memos).

Definition isAccountFieldOkay (o : Object) : bool :=
  forallb (fun fv : SField * STValue => match fv.2 with V_Account true _ => false | _ => true end) (o_fields o).

Definition isPseudoTx (o : Object) : res bool :=
  t ← at_opt as_u16 0 o sfTransactionType;
  match t with None => Ok false | Some t => Ok ((t =? ttAMENDMENT) || (t =? ttFEE)) end.

Definition passesLocalChecks (o : Object) : res (string + unit) :=
  m ← isMemoOkay o;
  match m with
  | inl e => Ok (inl e)
  | inr _ =>
      if negb (isAccountFieldOkay o) then Ok (inl "An account field is invalid."%string) else
      p ← isPseudoTx o;
      if p : bool then Ok (inl "Cannot submit pseudo transactions."%string) else Ok (inr ())
  end.

(** ** What a good signature means *)

Section Sound.
Context (verify : list Z -> list Z -> list Z -> bool -> res bool).

Lemma caught_true r : caught r = true <-> r = Ok true.
Proof. destruct r as [[]|]; cbn; split; congruence. Qed.

(** The signature of [o] under its own key verifies for the data. *)
Definition signed_by (o : Object) (data : list Z) (fullyCanonical : bool) : Prop :=
  exists spk signature, getFieldVL o sfSigningPubKey = Ok spk /\ is_Some (publicKeyType spk) /\
    getFieldVL o sfTxnSignature = Ok signature /\ verify spk data signature fullyCanonical = Ok true.

(** The transaction carries one signature, of its signing key. *)
Definition single_signed (tx : STTx) : Prop :=
  isFieldPresent (tx_object tx) sfSigners = false /\
  exists data, getSigningData tx = Ok data /\ signed_by (tx_object tx) data (fullyCanonicalSig (tx_object tx)).

(** The transaction carries the signatures of one to eight accounts, all different
    from its own and in increasing order, each over the transaction and the account. *)
Definition multi_signed (tx : STTx) : Prop :=
  let o := tx_object tx in
  isFieldPresent o sfSigners = true /\ isFieldPresent o sfTxnSignature = false /\
  exists signers dataStart owner ids,
    getFieldArray o sfSigners = Ok signers /\ (1 <= length signers <= 8)%nat /\
    startMultiSigningData o = Ok dataStart /\ getAccountID o sfAccount = Ok owner /\
    mapR (fun s => getAccountID (inner_object s) sfAccount) signers = Ok ids /\
    StronglySorted Z.lt (0 :: ids) /\ owner ∉ ids /\
    Forall2 (fun id s => signed_by (inner_object s) (finishMultiSigningData id dataStart) (fullyCanonicalSig o)) ids signers.

Lemma signed_spec o data fc :
  caught (spk ← getFieldVL o sfSigningPubKey;
    match publicKeyType spk with
    | Some _ => signature ← getFieldVL o sfTxnSignature; verify spk data signature fc
    | None => Ok false
    end) = true <-> signed_by o data fc.
Proof.
  rewrite caught_true. unfold signed_by. destruct (getFieldVL o sfSigningPubKey) as [spk|]; cbn; [|split; [done|by intros (? & ? & ? & _)]].
  destruct (publicKeyType spk) eqn:Hk; [|split; [done|intros (? & ? & [= <-] & Hk' & _); rewrite Hk in Hk'; by destruct Hk']].
  destruct (getFieldVL o sfTxnSignature) as [sig|]; cbn; [|split; [done|by intros (? & ? & _ & _ & ? & _)]].
  split; [intros H; by exists spk, sig; rewrite Hk|by intros (? & ? & [= <-] & _ & [= <-] & ?)].
Qed.

Lemma single_spec tx r : tx_checkSingleSign verify tx = (true, r) <-> single_signed tx /\ r = Reason EmptyString.
Proof.
  unfold tx_checkSingleSign, single_signed. destruct (isFieldPresent (tx_object tx) sfSigners); [split; [done|by intros [[] _]]|].
  destruct (getSigningData tx) as [data|e].
  - set (b := caught _). destruct b eqn:Hb; subst b; cbn.
    + apply signed_spec in Hb. split; [intros [= <-]; eauto|by intros [_ ->]].
    + split; [done|]. intros [(_ & d & [= <-] & Hs) _]. apply signed_spec in Hs. unfold mbind, res_bind in *. congruence.
  - assert (Hf : caught (spk ← getFieldVL (tx_object tx) sfSigningPubKey; match publicKeyType spk with
      | Some _ => signature ← getFieldVL (tx_object tx) sfTxnSignature; data ← Throw e; verify spk data signature (fullyCanonicalSig (tx_object tx))
      | None => Ok false end) = false).
    { destruct (getFieldVL _ sfSigningPubKey); cbn; [|done]. destruct (publicKeyType _); [|done]. by destruct (getFieldVL _ sfTxnSignature). }
    rewrite Hf. cbn. split; [done|by intros [(_ & ? & ? & _) _]].
Qed.

Lemma sorted_cons_lt a b (l : list Z) : StronglySorted Z.lt (a :: b :: l) <-> a < b /\ StronglySorted Z.lt (b :: l).
Proof.
  split.
  - intros [Hs Hf]%StronglySorted_inv. by apply Forall_cons in Hf as [? _].
  - intros [Hlt Hs]. constructor; [done|]. apply StronglySorted_inv in Hs as [_ Hf]. constructor; [done|]. eapply Forall_impl; [exact Hf|]. cbn. lia.
Qed.

(** The loop accepts exactly the signers of [multi_signed]. *)
Lemma signers_loop_spec data fc owner r signers : forall last,
  signers_loop verify data fc owner last (inner_object <$> signers) = Ok (true, r) <->
  r = Reason EmptyString /\ exists ids, mapR (fun s => getAccountID (inner_object s) sfAccount) signers = Ok ids /\
    StronglySorted Z.lt (last :: ids) /\ owner ∉ ids /\
    Forall2 (fun id s => signed_by (inner_object s) (finishMultiSigningData id data) fc) ids signers.
Proof.
  induction signers as [|s signers IH]; intros last.
  { cbn. split; [intros [= <-]; split; [done|]; exists []; repeat split; [repeat constructor|apply not_elem_of_nil|constructor]|by intros [-> _]]. }
  cbn [fmap list_fmap signers_loop mapR]. destruct (getAccountID (inner_object s) sfAccount) as [id|]; cbn [mbind res_bind]; [|split; [done|by intros [_ (? & ? & _)]]].
  fold (mapR (fun s => getAccountID (inner_object s) sfAccount) signers). specialize (IH id).
  assert (Hinv : forall ids, StronglySorted Z.lt (last :: ids) /\ owner ∉ ids /\
      Forall2 (fun id s => signed_by (inner_object s) (finishMultiSigningData id data) fc) ids (s :: signers) /\
      (ids' ← mapR (fun s => getAccountID (inner_object s) sfAccount) signers; Ok (id :: ids')) = Ok ids <->
    exists ids', ids = id :: ids' /\ last < id /\ owner <> id /\ signer_valid verify data fc id (inner_object s) = true /\
      mapR (fun s => getAccountID (inner_object s) sfAccount) signers = Ok ids' /\ StronglySorted Z.lt (id :: ids') /\ owner ∉ ids' /\
      Forall2 (fun id s => signed_by (inner_object s) (finishMultiSigningData id data) fc) ids' signers).
  { intros ids. pose proof (signed_spec (inner_object s) (finishMultiSigningData id data) fc) as Hsv. change (caught _) with (signer_valid verify data fc id (inner_object s)) in Hsv. setoid_rewrite Hsv. clear Hsv. destruct (mapR _ signers) as [ids'|]; cbn; [|split; [by intros (_ & _ & _ & ?)|by intros (? & _ & _ & _ & _ & ? & _)]].
    split.
    - intros (Hs & Ho & Hf & [= <-]). exists ids'. apply sorted_cons_lt in Hs as [Hlt Hs]. apply not_elem_of_cons in Ho as [Ho1 Ho2]. inversion Hf; subst. done.
    - intros (? & -> & Hlt & Ho & Hv & [= <-] & Hs & Ho' & Hf). split; [by apply sorted_cons_lt|]. split; [by apply not_elem_of_cons|]. split; [by constructor|done]. }
  destruct (Z.eqb_spec id owner) as [->|Hne].
  { split; [done|]. intros [_ (ids & Hm & Hs & Ho & Hf)]. by edestruct (proj1 (Hinv ids)) as (? & ? & ? & ? & _). }
  destruct (Z.eqb_spec last id) as [->|Hl].
  { split; [done|]. intros [_ (ids & Hm & Hs & Ho & Hf)]. edestruct (proj1 (Hinv ids)) as (? & ? & ? & _); [done|]. lia. }
  destruct (Z.ltb_spec id last) as [Hlt|Hlt].
  { split; [done|]. intros [_ (ids & Hm & Hs & Ho & Hf)]. edestruct (proj1 (Hinv ids)) as (? & ? & ? & _); [done|]. lia. }
  destruct (signer_valid verify data fc id (inner_object s)) eqn:Hv; cbn [negb].
  2: { split; [done|]. intros [_ (ids & Hm & Hs & Ho & Hf)]. by edestruct (proj1 (Hinv ids)) as (? & ? & ? & ? & ? & _). }
  rewrite IH. split; intros [-> (ids & H)]; (split; [done|]).
  - exists (id :: ids). destruct H as (Hm & Hs & Ho & Hf). destruct (proj2 (Hinv (id :: ids))) as (? & ? & ? & ?); [|done]. exists ids. repeat split; done || lia.
  - destruct H as (Hm & Hs & Ho & Hf). edestruct (proj1 (Hinv ids)) as (ids' & _ & _ & _ & _ & ?); [done|]. by exists ids'.
Qed.

Lemma multi_spec tx r : tx_checkMultiSign verify tx = Ok (true, r) <-> multi_signed tx /\ r = Reason EmptyString.
Proof.
  unfold tx_checkMultiSign, multi_signed. destruct (isFieldPresent _ sfSigners); cbn [negb]; [|split; [done|by intros [[] _]]].
  destruct (isFieldPresent _ sfTxnSignature); [split; [done|by intros [(_ & ? & _) _]]|].
  destruct (getFieldArray _ _) as [signers|]; cbn [mbind res_bind]; [|split; [done|by intros [(_ & _ & ? & ? & ? & ? & ? & _) _]]].
  unfold minMultiSigners, maxMultiSigners.
  destruct (Nat.ltb_spec (length signers) 1); cbn [orb]; [split; [done|intros [(_ & _ & ? & ? & ? & ? & [= <-] & ? & _) _]; lia]|].
  destruct (Nat.ltb_spec 8 (length signers)); [split; [done|intros [(_ & _ & ? & ? & ? & ? & [= <-] & ? & _) _]; lia]|].
  destruct (startMultiSigningData _) as [data|]; cbn [mbind res_bind]; [|split; [done|by intros [(_ & _ & ? & ? & ? & ? & _ & _ & ? & _) _]]].
  destruct (getAccountID _ sfAccount) as [owner|]; cbn [mbind res_bind]; [|split; [done|by intros [(_ & _ & ? & ? & ? & ? & _ & _ & _ & ? & _) _]]].
  rewrite signers_loop_spec. split.
  - intros [-> (ids & ? & ? & ? & ?)]. split; [|done]. split; [done|]. split; [done|]. exists signers, data, owner, ids. repeat split; done || lia.
  - intros [(_ & _ & ? & ? & ? & ids & [= <-] & _ & [= <-] & [= <-] & ?) ->]. split; [done|]. by exists ids.
Qed.
End Sound.

(** C28. A transaction passes the signature check exactly when it is signed in one of
    two exclusive ways: its signing key is not empty, there are no signers, and its
    one signature verifies under that key over the transaction without its
    signatures; or, where multi-signing is allowed, its signing key is empty, it has
    no signature of its own and one to eight signers, in strictly increasing order
    of their non-zero accounts, none of them the account of the transaction, each
    of whose signatures verifies over the transaction followed by that account. *)
Theorem checkSign_spec verify tx allowMultiSign r : tx_checkSign verify allowMultiSign tx = (true, r) <->
  r = Reason EmptyString /\
  (single_signed verify tx /\ (allowMultiSign = true -> exists spk, getSigningPubKey tx = Ok spk /\ spk <> []) \/
   allowMultiSign = true /\ getSigningPubKey tx = Ok [] /\ multi_signed verify tx).
Proof.
  unfold tx_checkSign, getSigningPubKey. pose proof (single_spec verify tx r) as Hs. pose proof (multi_spec verify tx r) as Hm.
  destruct allowMultiSign; [|rewrite Hs; split; [intros [? ->]; split; [done|]; by left|by intros [-> [[? _]|[? _]]]]].
  destruct (getFieldVL (tx_object tx) sfSigningPubKey) as [[|b spk]|]; cbn.
  - transitivity (tx_checkMultiSign verify tx = Ok (true, r)).
    + destruct (tx_checkMultiSign verify tx) as [[[] r']|]; split; congruence.
    + rewrite Hm. split; [tauto|]. intros [-> [[_ H]|[_ [_ ?]]]]; [|done]. by destruct (H eq_refl) as (? & [= <-] & ?).
  - rewrite Hs. split; [|intros [-> [[? _]|[_ [? _]]]]; done]. intros [? ->]. split; [done|]. left. split; [done|]. intros _. by exists (b :: spk).
  - split; [done|]. intros [_ [[_ H]|[_ [? _]]]]; [|done]. by destruct H as (? & ? & _).
Qed.

(** ** A transaction read back *)

(** A field as the template wants it. *)
Definition respects (e : SField * SOEStyle) (fv : SField * STValue) : Prop :=
  fv.1 = e.1 /\ (isPresent fv.2 = true -> wf_value 10 fv.1 fv.2) /\
  match e.2 with
  | soeREQUIRED => isPresent fv.2 = true
  | soeOPTIONAL => True
  | soeDEFAULT => isPresent fv.2 = true -> isDefault fv.2 = false
  end.

(** A well-formed transaction: the fields are those of the template of its type. *)
Definition tx_wf (tx : STTx) : Prop :=
  exists t, findByType tx_formats (tx_type_ tx) = Some t /\ o_type (tx_object tx) = Some t /\
    Forall2 respects t (o_fields (tx_object tx)) /\ (sfTransactionType, V_UInt16 (tx_type_ tx)) ∈ o_fields (tx_object tx).

Definition present_fields (fields : Fields) : Fields := List.filter (fun fv : SField * STValue => isPresent fv.2) fields.

Lemma take_field_None f l : getCode f ∉ codes l -> take_field f l = None.
Proof.
  induction l as [|[g v] l IH]; cbn; [done|]. intros [H1 H2]%not_elem_of_cons. unfold field_eq. rewrite (proj2 (Z.eqb_neq _ _)) by congruence. by rewrite IH.
Qed.

Lemma present_codes fields c : c ∈ codes (present_fields fields) -> c ∈ codes fields.
Proof. unfold codes, present_fields. rewrite !list_elem_of_In, !in_map_iff. intros (x & ? & [? _]%filter_In). by exists x. Qed.

Lemma present_NoDup fields : NoDup (codes fields) -> NoDup (codes (present_fields fields)).
Proof.
  induction fields as [|x fields IH]; cbn; [done|]. intros [H1 H2]%NoDup_cons. destruct (isPresent x.2); cbn; [|by apply IH].
  constructor; [|by apply IH]. intros H. by apply H1, present_codes.
Qed.

Lemma isPresent_false v : isPresent v = false -> v = V_NotPresent.
Proof. by destruct v. Qed.

(** The template puts the fields that are present back in its order. *)
Lemma template_restores t : forall fields l v, Forall2 respects t fields -> NoDup (codes fields) -> l ≡ₚ present_fields fields ->
  template_loop t l v = Ok ([], v ++ fields).
Proof.
  induction t as [|[f s] t IH]; intros fields l v Hr Hn Hl; inversion Hr as [|? [g w] ? fields' (Hg & Hwf & Hst) Hr']; subst.
  { apply Permutation_nil_r in Hl as ->. cbn. by rewrite app_nil_r. }
  cbn in Hg, Hwf, Hst. subst g. apply NoDup_cons in Hn as [Hn1 Hn2]. cbn [template_loop]. unfold present_fields in Hl. cbn [List.filter snd] in Hl. fold (present_fields fields') in Hl.
  destruct (isPresent w) eqn:Hp.
  - destruct (take_field_perm f w l (present_fields fields')) as (l' & E & Hl'); [|done|].
    { constructor; [|by apply present_NoDup]. intros H. by apply Hn1, present_codes. }
    rewrite E. cbn [snd]. destruct s; [| |rewrite (Hst eq_refl)]; rewrite (IH fields' l') by done; by rewrite <-app_assoc.
  - rewrite take_field_None; [|unfold codes in *; rewrite Hl; intros H; by apply Hn1, present_codes].
    apply isPresent_false in Hp as ->. destruct s; [done| |]; rewrite (IH fields' l) by done; by rewrite <-app_assoc.
Qed.

Lemma respects_names t fields : Forall2 respects t fields -> fields.*1 = t.*1.
Proof. induction 1 as [|e fv t fields [H _] _ IH]; cbn; [done|]. by rewrite H, IH. Qed.

Lemma tx_type_ok type t : findByType tx_formats type = Some t -> template_ok t.
Proof. intros H%findByType_elem. pose proof tx_templates_ok as Hok. rewrite Forall_forall in Hok. exact (Hok _ H). Qed.

Lemma mapR_cons {A B} (f : A -> res B) a l : mapR f (a :: l) = (b ← f a; bs ← mapR f l; Ok (b :: bs)).
Proof. done. Qed.

Lemma encode_absent w f v : isPresent v = false -> encode w (f, v) = Ok None.
Proof. intros H. unfold encode, encode_with. by rewrite H. Qed.

(** A field that is not present is not written. *)
Lemma encodes_present w fields :
  (es ← mapR (encode w) fields; Ok (omap id (es : list (option encoding)))) = (es ← mapR (encode w) (present_fields fields); Ok (omap id (es : list (option encoding)))).
Proof.
  induction fields as [|[f v] fields IH]; [done|]. unfold present_fields. cbn [List.filter snd]. fold (present_fields fields). rewrite mapR_cons.
  destruct (isPresent v) eqn:Hp; [rewrite mapR_cons|].
  - destruct (encode w (f, v)) as [e|]; cbn [mbind res_bind]; [|done]. destruct (mapR (encode w) fields) as [es|], (mapR (encode w) (present_fields fields)) as [es'|]; cbn in *; try congruence.
    injection IH as IH. destruct e; cbn; by rewrite IH.
  - rewrite (encode_absent w f v Hp). cbn [mbind res_bind]. rewrite <-IH. by destruct (mapR (encode w) fields).
Qed.

Lemma add_present w fields : add_object w fields = add_object w (present_fields fields).
Proof.
  pose proof (encodes_present w fields) as H. unfold add_object. destruct (mapR (encode w) fields) as [es|], (mapR (encode w) (present_fields fields)) as [es'|]; cbn in *; try congruence.
  injection H as H. unfold emit_sorted. by rewrite H.
Qed.

(** The bytes of an object whose fields are well formed, read by [STObject::set]. *)
Lemma set_reads fields : NoDup (codes fields) -> Forall (fun fv : SField * STValue => wf_value 10 fv.1 fv.2) fields ->
  exists bs, add_object true fields = Ok bs /\ set_loop (S (length bs)) 0 [] (iter bs) = Ok ((sorted_fields fields, false), mkIter (rev bs) []) /\ check_duplicates (sorted_fields fields) = Ok (sorted_fields fields).
Proof.
  intros Hn Hwf. destruct (encodes_exists 10 fields 1 (values_ok 10) eq_refl Hwf) as [es Hes]. unfold add_object. rewrite (mapR_encodes _ _ Hes). cbn [mbind res_bind].
  eexists. split; [done|]. destruct (emit_sorted_encodes fields es Hes) as (es' & Hes' & ->). split; [|by apply (check_sorted 10)].
  destruct (set_loop_fields 10 0 _ es' (values_ok 10) eq_refl Hes') with (fuel := S (length (concat (map emit es')))) (acc := ([] : Fields)) (u := ([] : list Z)) (r := ([] : list Z)) as (fuel' & Hf' & E).
  { unfold sorted_fields. by rewrite sort_by_perm. }
  { cbn. lia. }
  rewrite !app_nil_r in E. unfold iter. rewrite E. destruct fuel' as [|fuel']; [lia|]. done.
Qed.

Lemma value_ok_wf fv : (isPresent fv.2 = true -> wf_value 10 fv.1 fv.2) -> STAccess.value_ok fv.
Proof. intros H Hp. apply H in Hp as (_ & ? & _). done. Qed.

Lemma respects_ok t o : template_ok t -> o_type o = Some t -> Forall2 respects t (o_fields o) -> STAccess.object_ok o.
Proof.
  intros [Hn Hf] Ho Hr. pose proof (respects_names _ _ Hr) as E. unfold STAccess.object_ok. rewrite E, Ho. repeat split; try done.
  clear -Hr. induction Hr as [|e fv t l (_ & Hwf & _) _ IH]; constructor; [by apply value_ok_wf|done].
Qed.

Lemma free_type_field fields type : NoDup (codes fields) -> (sfTransactionType, V_UInt16 type) ∈ fields ->
  getFieldU16 (mkObject fields None) sfTransactionType = Ok type.
Proof.
  intros Hn [i Hi]%list_elem_of_lookup. unfold getFieldU16. rewrite (getFieldBy_spec _ _ _ _ (V_UInt16 type)); [done|].
  unfold peekAtPField, getFieldIndex. cbn [o_type o_fields]. erewrite index_of_lookup; [cbn; by rewrite Hi| |by rewrite list_lookup_fmap, Hi|done].
  unfold codes in Hn. rewrite <-(map_map fst getCode) in Hn. exact Hn.
Qed.

(** Transactions survive the wire. A transaction whose fields are those of the
    template of its type, in range, with every required field present and no field
    written out that has its default value, is serialized without an exception; if
    the bytes are within the limits of the length, [sterilize], which writes it and
    reads it back, gives the same transaction, fields, type and identifier. *)
Theorem sterilize_id sha512Half tx bs : tx_wf tx -> add_object true (o_fields (tx_object tx)) = Ok bs ->
  txMinSizeBytes <= Z.of_nat (length bs) <= txMaxSizeBytes -> getHash sha512Half prefix_transactionID (o_fields (tx_object tx)) = Ok (tid_ tx) ->
  sterilize sha512Half tx = Ok tx.
Proof.
  intros (t & Ht & Ho & Hr & Htt) Hbs Hlen Hid. pose proof (respects_ok t _ (tx_type_ok _ _ Ht) Ho Hr) as (Hn & _). unfold sterilize. rewrite Hbs. cbn [mbind res_bind].
  assert (Hn' : NoDup (codes (o_fields (tx_object tx)))) by (unfold codes; rewrite <-(map_map fst getCode); done).
  destruct (set_reads (present_fields (o_fields (tx_object tx)))) as (bs' & Ebs & Eset & Edup).
  { by apply present_NoDup. }
  { clear -Hr. unfold present_fields. apply List.Forall_forall. intros fv [Hin Hp]%filter_In. apply list_elem_of_In, list_elem_of_lookup in Hin as [i Hi].
    destruct (Forall2_lookup_r _ _ _ _ _ Hr Hi) as (e & _ & (_ & Hwf & _)). by apply Hwf. }
  rewrite <-add_present, Hbs in Ebs. injection Ebs as <-. unfold parse_STTx.
  rewrite (proj2 (Z.ltb_ge _ _)), (proj2 (Z.ltb_ge _ _)) by lia. cbn [orb]. rewrite Eset. cbn [mbind res_bind]. rewrite Edup. cbn [mbind res_bind].
  unfold STTx_of_object. rewrite (free_type_field _ (tx_type_ tx)).
  - cbn [mbind res_bind]. unfold getTxFormat. rewrite Ht. cbn [mbind res_bind]. unfold object_applyTemplate, applyTemplate. cbn [o_fields].
    rewrite (template_restores t (o_fields (tx_object tx))) by (done || apply sort_by_perm). cbn [mbind res_bind forallb app o_fields]. rewrite Hid. cbn [mbind res_bind].
    f_equal. destruct tx as [[fields ty] ? ?]. cbn in *. by rewrite Ho.
  - unfold codes, sorted_fields. rewrite sort_by_perm. by apply present_NoDup.
  - unfold sorted_fields. rewrite sort_by_perm. unfold present_fields. apply list_elem_of_In, filter_In. split; [by apply list_elem_of_In|done].
Qed.

(** ** An example *)

Definition wpayment_values : Fields :=
  [(sfTransactionType, V_UInt16 0); (sfSequence, V_UInt32 7); (sfAmount, V_Amount (ofDrops 1000 false)); (sfFee, V_Amount (ofDrops 10 false));
   (sfSigningPubKey, V_VL []); (sfAccount, V_Account false 5); (sfDestination, V_Account false 6); (sfSigners, V_Array [demo_signer])].

(** A multi-signed payment of 1000 drops. *)
Definition wpayment_fields (t : SOTemplate) : Fields :=
  map (fun e : SField * SOEStyle => match take_field e.1 wpayment_values with Some (fv, _) => fv | None => (e.1, V_NotPresent) end) t.

Definition wsum (l : list Z) : Z := foldr Z.add 0 l.

Definition wpayment : STTx :=
  match findByType tx_formats ttPAYMENT with
  | Some t => mkTx (mkObject (wpayment_fields t) (Some t)) ttPAYMENT
                (match getHash wsum prefix_transactionID (wpayment_fields t) with Ok h => h | Throw _ => 0 end)
  | None => mkTx (mkObject [] None) 0 0
  end.

Lemma wpayment_values_ok : Forall (fun fv : SField * STValue => wf_value 10 fv.1 fv.2) wpayment_values.
Proof.
  repeat apply Forall_cons_2; [..|apply Forall_nil_2]; cbn [fst snd].
  8: { split_and!; [by apply demo_wire_field|done|]. constructor; [exact demo_signer_ok|constructor]. }
  2: { apply demo_leaf; [lia|split_and!; [vm_compute; reflexivity|cbn; lia..]|done|cbn; lia]. }
  all: demo_leaf; vm_compute; done || (split_and!; done).
Qed.

Lemma take_field_In f l fv rest : take_field f l = Some (fv, rest) -> fv ∈ l.
Proof.
  revert rest. induction l as [|[g v] l IH]; cbn; [done|]. intros rest. destruct (field_eq g f); [intros [= <- _]; left|].
  destruct (take_field f l) as [[x r]|]; cbn; [|done]. intros [= <- _]. right. by eapply IH.
Qed.

(** A required field has a value, and the values are of the fields. *)
Definition wpayment_covers (e : SField * SOEStyle) : bool :=
  match take_field e.1 wpayment_values with
  | Some (fv, _) => bool_decide (fv.1 = e.1) && match e.2 with soeDEFAULT => negb (isDefault fv.2) | _ => true end
  | None => match e.2 with soeREQUIRED => false | _ => true end
  end.

Lemma wpayment_respects t : forallb wpayment_covers t = true -> Forall2 respects t (wpayment_fields t).
Proof.
  induction t as [|[f s] t IH]; [constructor|]. cbn [forallb]. intros [H1 H2]%andb_prop. unfold wpayment_fields. cbn [map]. constructor; [|by apply IH]. unfold wpayment_covers in H1. cbn [fst snd] in *.
  destruct (take_field f wpayment_values) as [[fv r]|] eqn:E; [|unfold respects; cbn [fst snd]; split_and!; [done|done|by destruct s]].
  apply andb_prop in H1 as [H1%bool_decide_eq_true H3]. apply take_field_In in E. pose proof wpayment_values_ok as Hok. rewrite Forall_forall in Hok. apply Hok in E.
  unfold respects. cbn [fst snd]. split_and!; [done|done|]. pose proof (wf_included _ _ _ E) as [Hp _]%andb_prop. destruct s; [done|done|]. by apply negb_true_iff in H3.
Qed.

Lemma sterilize_id_witness : sterilize wsum wpayment = Ok wpayment.
Proof.
  apply (sterilize_id wsum wpayment (match add_object true (o_fields (tx_object wpayment)) with Ok bs => bs | Throw _ => [] end)).
  - eexists. split; [vm_compute; reflexivity|]. split; [vm_compute; reflexivity|]. split; [apply wpayment_respects; vm_compute; reflexivity|].
    apply list_elem_of_In. vm_compute. repeat (left; reflexivity) || right.
  - vm_compute. reflexivity.
  - vm_compute. split; discriminate.
  - vm_compute. reflexivity.
Defined.
