(* ===== verification/HashRouter.v ===== *)
(** * The routing table and cached verdicts

    Models app/misc/HashRouter.h and HashRouter.cpp, a table of recently seen hashes
    whose entries expire, and the use [checkValidity] of app/tx/impl/apply.cpp makes of
    its flags to remember the outcome of signature and local checks. The container is
    the list of its items in chronological order, oldest first; every call is given
    the time its clock shows. *)

From S2P Require Import Prelude SField STObject STAccess Formats STTx.

(** ** Entries *)

Record Entry := mkEntry {
  flags_ : Z;
  peers_ : gset Z;
  relayed_ : option Z;
  processed_ : option Z;
  recoveries_ : Z
}.

Definition new_entry : Entry := mkEntry 0 ∅ None None 0.

Definition entry_addPeer (peer : Z) (e : Entry) : Entry :=
  if peer =? 0 then e else mkEntry (flags_ e) ({[ peer ]} ∪ peers_ e) (relayed_ e) (processed_ e) (recoveries_ e).

Definition entry_setFlags (flagsToSet : Z) (e : Entry) : Entry :=
  mkEntry (Z.lor (flags_ e) flagsToSet) (peers_ e) (relayed_ e) (processed_ e) (recoveries_ e).

(** Whether a time stamp is less than an interval ago. *)
Definition recent (stamp : option Z) (interval now : Z) : bool :=
  match stamp with Some t => now <? t + interval | None => false end.

Definition entry_shouldRelay (now holdTime : Z) (e : Entry) : bool * Entry :=
  if recent (relayed_ e) holdTime now then (false, e)
  else (true, mkEntry (flags_ e) (peers_ e) (Some now) (processed_ e) (recoveries_ e)).

Definition entry_releasePeerSet (e : Entry) : gset Z * Entry :=
  (peers_ e, mkEntry (flags_ e) ∅ (relayed_ e) (processed_ e) (recoveries_ e)).

Definition entry_shouldRecover (limit : Z) (e : Entry) : bool * Entry :=
  let recoveries := u32 (recoveries_ e + 1) in
  (negb (recoveries mod limit =? 0), mkEntry (flags_ e) (peers_ e) (relayed_ e) (processed_ e) recoveries).

Definition entry_shouldProcess (now interval : Z) (e : Entry) : bool * Entry :=
  if recent (processed_ e) interval now then (false, e)
  else (true, mkEntry (flags_ e) (peers_ e) (relayed_ e) (Some now) (recoveries_ e)).

(** ** The table *)

(** A hash, when it was touched last, and its entry. *)
Record item := mkItem { it_key : Z; it_when : Z; it_entry : Entry }.

Record HashRouter := mkRouter { suppressionMap_ : list item; holdTime_ : Z; recoverLimit_ : Z }.

Definition new_router (holdTime recoverLimit : Z) : HashRouter := mkRouter [] holdTime (u32 (recoverLimit + 1)).

Definition with_items (r : HashRouter) (l : list item) : HashRouter := mkRouter l (holdTime_ r) (recoverLimit_ r).

(** [beast::expire]: the oldest items, as long as they are old enough. *)
Fixpoint expire (expired : Z) (l : list item) : list item :=
  match l with i :: l' => if it_when i <=? expired then expire expired l' else l | [] => [] end.

Definition find_item (key : Z) (l : list item) : option item := List.find (fun i => it_key i =? key) l.
Definition without (key : Z) (l : list item) : list item := List.filter (fun i => negb (it_key i =? key)) l.

(** [emplace]: the entry, whether it is new, and the other items, all of which are older.
    What is done to the entry is stored with [put_back]. *)
Definition emplace (now key : Z) (r : HashRouter) : Entry * bool * list item :=
  match find_item key (suppressionMap_ r) with
  | Some i => (it_entry i, false, without key (suppressionMap_ r))
  | None => (new_entry, true, expire (now - holdTime_ r) (suppressionMap_ r))
  end.

Definition put_back (now key : Z) (e : Entry) (l : list item) (r : HashRouter) : HashRouter := with_items r (l ++ [mkItem key now e]).

Definition addSuppression (now key : Z) (r : HashRouter) : HashRouter :=
  let '(e, _, l) := emplace now key r in put_back now key e l r.

(** The peer's flags are an output of the second version. *)
Definition addSuppressionPeer (now key peer : Z) (r : HashRouter) : bool * Z * HashRouter :=
  let '(e, created, l) := emplace now key r in
  let e := entry_addPeer peer e in (created, flags_ e, put_back now key e l r).

Definition shouldProcess (now key peer tx_interval : Z) (r : HashRouter) : bool * Z * HashRouter :=
  let '(e, _, l) := emplace now key r in
  let e := entry_addPeer peer e in
  let flags := flags_ e in
  let '(b, e) := entry_shouldProcess now tx_interval e in (b, flags, put_back now key e l r).

Definition router_getFlags (now key : Z) (r : HashRouter) : Z * HashRouter :=
  let '(e, _, l) := emplace now key r in (flags_ e, put_back now key e l r).

Definition router_setFlags (now key flags : Z) (r : HashRouter) : bool * HashRouter :=
  let '(e, _, l) := emplace now key r in
  if Z.land (flags_ e) flags =? flags then (false, put_back now key e l r)
  else (true, put_back now key (entry_setFlags flags e) l r).

Definition shouldRelay (now key : Z) (r : HashRouter) : option (gset Z) * HashRouter :=
  let '(e, _, l) := emplace now key r in
  let '(b, e) := entry_shouldRelay now (holdTime_ r) e in
  if b : bool then let '(peers, e) := entry_releasePeerSet e in (Some peers, put_back now key e l r)
  else (None, put_back now key e l r).

Definition shouldRecover (now key : Z) (r : HashRouter) : bool * HashRouter :=
  let '(e, _, l) := emplace now key r in
  let '(b, e) := entry_shouldRecover (recoverLimit_ r) e in (b, put_back now key e l r).

(** ** Validity *)

Definition SF_SIGBAD : Z := 256.
Definition SF_SIGGOOD : Z := 512.
Definition SF_LOCALBAD : Z := 1024.
Definition SF_LOCALGOOD : Z := 2048.

Inductive Validity := SigBad | SigGoodOnly | Valid.

Definition any_flag (flags f : Z) : bool := negb (Z.land flags f =? 0).

Section Validity.
Context (verify : list Z -> list Z -> list Z -> bool -> res bool).

(** The local checks may throw; what was remembered before stays. *)
Definition checkValidity (now : Z) (tx : STTx) (allowMultiSign : bool) (r : HashRouter) : res (Validity * SignReason) * HashRouter :=
  let id := tid_ tx in
  let '(flags, r) := router_getFlags now id r in
  if any_flag flags SF_SIGBAD then (Ok (SigBad, Reason "Transaction has bad signature."%string), r) else
  let '(good, reason, r) :=
    if any_flag flags SF_SIGGOOD then (true, Reason ""%string, r)
    else match tx_checkSign verify allowMultiSign tx with
         | (false, reason) => (false, reason, snd (router_setFlags now id SF_SIGBAD r))
         | (true, reason) => (true, reason, snd (router_setFlags now id SF_SIGGOOD r))
         end in
  if negb good then (Ok (SigBad, reason), r) else
  if any_flag flags SF_LOCALBAD then (Ok (SigGoodOnly, Reason "Local checks failed."%string), r) else
  if any_flag flags SF_LOCALGOOD then (Ok (Valid, Reason ""%string), r) else
  match passesLocalChecks (tx_object tx) with
  | Throw e => (Throw e, r)
  | Ok (inl reason) => (Ok (SigGoodOnly, Reason reason), snd (router_setFlags now id SF_LOCALBAD r))
  | Ok (inr _) => (Ok (Valid, Reason ""%string), snd (router_setFlags now id SF_LOCALGOOD r))
  end.
End Validity.

Definition forceValidity (now txid : Z) (validity : Validity) (r : HashRouter) : HashRouter :=
  let flags := match validity with Valid => Z.lor SF_LOCALGOOD SF_SIGGOOD | SigGoodOnly => SF_SIGGOOD | SigBad => 0 end in
  if flags =? 0 then r else snd (router_setFlags now txid flags r).

(** ** Items that stay *)

Lemma expire_suffix expired l : exists p, l = p ++ expire expired l /\ Forall (fun i => it_when i <= expired) p.
Proof.
  induction l as [|i l (p & Hp & Hf)]; [by exists []|]. cbn [expire]. destruct (Z.leb_spec (it_when i) expired); [|by exists []].
  exists (i :: p). split; [cbn; by f_equal|by constructor].
Qed.

Lemma find_item_app key l k : find_item key (l ++ k) = match find_item key l with Some i => Some i | None => find_item key k end.
Proof. unfold find_item. induction l as [|i l IH]; [done|]. cbn. by destruct (it_key i =? key). Qed.

Lemma find_item_without key k l : find_item key (without k l) = if key =? k then None else find_item key l.
Proof.
  unfold find_item, without. induction l as [|i l IH]; cbn; [by destruct (key =? k)|].
  destruct (Z.eqb_spec (it_key i) k) as [->|Hn]; cbn; rewrite IH; destruct (Z.eqb_spec key k) as [->|Hk]; [done| |by destruct (Z.eqb_spec (it_key i) k)|done].
  by destruct (Z.eqb_spec k key); [congruence|].
Qed.

Lemma find_item_expire key expired l i : find_item key l = Some i -> expired < it_when i -> find_item key (expire expired l) = Some i.
Proof.
  intros Hf Hw. destruct (expire_suffix expired l) as (p & Hp & Hall). rewrite Hp, find_item_app in Hf. destruct (find_item key p) as [j|] eqn:E; [|done].
  injection Hf as ->. apply List.find_some in E as [Hin _]. rewrite Forall_forall in Hall. specialize (Hall i ltac:(by apply list_elem_of_In)). lia.
Qed.

(** What [emplace] leaves: a found item's entry, and other items that are not older
    than the hold time. *)
Lemma emplace_found now key r i : find_item key (suppressionMap_ r) = Some i -> emplace now key r = (it_entry i, false, without key (suppressionMap_ r)).
Proof. intros H. unfold emplace. by rewrite H. Qed.

Lemma emplace_others now key r e b l k i : emplace now key r = (e, b, l) -> k <> key -> find_item k (suppressionMap_ r) = Some i -> now - holdTime_ r < it_when i ->
  find_item k l = Some i.
Proof.
  unfold emplace. destruct (find_item key (suppressionMap_ r)) as [j|] eqn:E; intros [= <- <- <-] Hk Hf Hw; [|by apply find_item_expire].
  rewrite find_item_without. by destruct (Z.eqb_spec k key).
Qed.

(** ** Operations and histories *)

Inductive RouterOp :=
| op_addSuppression (key : Z)
| op_addSuppressionPeer (key peer : Z)
| op_shouldProcess (key peer interval : Z)
| op_getFlags (key : Z)
| op_setFlags (key flags : Z)
| op_shouldRelay (key : Z)
| op_shouldRecover (key : Z).

Definition router_step (now : Z) (op : RouterOp) (r : HashRouter) : HashRouter :=
  match op with
  | op_addSuppression k => addSuppression now k r
  | op_addSuppressionPeer k p => snd (addSuppressionPeer now k p r)
  | op_shouldProcess k p i => snd (shouldProcess now k p i r)
  | op_getFlags k => snd (router_getFlags now k r)
  | op_setFlags k f => snd (router_setFlags now k f r)
  | op_shouldRelay k => snd (shouldRelay now k r)
  | op_shouldRecover k => snd (shouldRecover now k r)
  end.

Definition router_run (ops : list (Z * RouterOp)) (r : HashRouter) : HashRouter := foldl (fun r '(now, op) => router_step now op r) r ops.

Definition op_key (op : RouterOp) : Z :=
  match op with op_addSuppression k | op_addSuppressionPeer k _ | op_shouldProcess k _ _ | op_getFlags k | op_setFlags k _ | op_shouldRelay k | op_shouldRecover k => k end.

(** An operation changes the entry it is about and no other. *)
Lemma router_step_shape now op r e b l : emplace now (op_key op) r = (e, b, l) ->
  exists e', router_step now op r = put_back now (op_key op) e' l r /\ (relayed_ e' = relayed_ e \/ relayed_ e' = Some now /\ recent (relayed_ e) (holdTime_ r) now = false) /\
    Z.land (flags_ e') (flags_ e) = flags_ e.
Proof.
  intros He. assert (Hd : forall z, Z.land z z = z) by apply Z.land_diag. assert (Ho : forall a b, Z.land (Z.lor a b) a = a) by (intros x y; apply Z.bits_inj'; intros n Hn; rewrite Z.land_spec, Z.lor_spec; by destruct (Z.testbit x n), (Z.testbit y n)).
  assert (Hp : forall p, relayed_ (entry_addPeer p e) = relayed_ e /\ flags_ (entry_addPeer p e) = flags_ e) by (intros p; unfold entry_addPeer; by destruct (p =? 0)).
  destruct op; cbn [op_key] in *; cbn [router_step];
    [unfold addSuppression|unfold addSuppressionPeer|unfold shouldProcess|unfold router_getFlags|unfold router_setFlags|unfold shouldRelay|unfold shouldRecover]; rewrite He.
  - exists e. by repeat split; [left|].
  - exists (entry_addPeer peer e). destruct (Hp peer) as [-> ->]. by repeat split; [left|].
  - unfold entry_shouldProcess. destruct (Hp peer) as [H1 H2]. destruct (recent _ _ _); eexists; (split; [reflexivity|]); cbn; rewrite H1, H2; by split; [left|].
  - exists e. by repeat split; [left|].
  - destruct (Z.land (flags_ e) flags =? flags); eexists; (split; [reflexivity|]); cbn; split; auto.
  - unfold entry_shouldRelay. destruct (recent (relayed_ e) (holdTime_ r) now) eqn:E; eexists; (split; [reflexivity|]); cbn; split; auto.
  - eexists; (split; [reflexivity|]); cbn; split; auto.
Qed.

Lemma put_back_find now key e l r k : find_item key l = None ->
  find_item k (suppressionMap_ (put_back now key e l r)) = if k =? key then Some (mkItem key now e) else find_item k l.
Proof.
  intros Hn. unfold put_back, with_items. cbn [suppressionMap_]. rewrite find_item_app. change (find_item k [mkItem key now e]) with (if key =? k then Some (mkItem key now e) else None). destruct (Z.eqb_spec k key) as [->|Hk].
  - by rewrite Hn, Z.eqb_refl.
  - destruct (Z.eqb_spec key k); [congruence|]. by destruct (find_item k l).
Qed.

Lemma emplace_fresh now key r e b l : emplace now key r = (e, b, l) -> find_item key l = None.
Proof.
  unfold emplace. destruct (find_item key (suppressionMap_ r)) as [j|] eqn:E; intros [= <- <- <-]; [by rewrite find_item_without, Z.eqb_refl|].
  destruct (expire_suffix (now - holdTime_ r) (suppressionMap_ r)) as (p & Hp & _). rewrite Hp, find_item_app in E. by destruct (find_item key p).
Qed.

(** ** Relaying *)

(** The hash was relayed at or after [t0] and its item cannot have expired yet. *)
Definition relayed_since (t0 key : Z) (r : HashRouter) : Prop :=
  exists i t, find_item key (suppressionMap_ r) = Some i /\ t0 <= it_when i /\ relayed_ (it_entry i) = Some t /\ t0 <= t.

Lemma relayed_since_step t0 key now op r : relayed_since t0 key r -> t0 <= now < t0 + holdTime_ r -> relayed_since t0 key (router_step now op r) /\ holdTime_ (router_step now op r) = holdTime_ r.
Proof.
  intros (i & t & Hf & Hw & Hr & Ht) Hnow. destruct (emplace now (op_key op) r) as [[e b] l] eqn:E. destruct (router_step_shape now op r e b l E) as (e' & -> & He & _).
  split; [|done]. pose proof (emplace_fresh _ _ _ _ _ _ E) as Hfresh. unfold relayed_since. rewrite (put_back_find now _ e' l r key Hfresh).
  destruct (Z.eqb_spec key (op_key op)) as [->|Hk].
  - rewrite (emplace_found now _ r i Hf) in E. injection E as <- <- <-. exists (mkItem (op_key op) now e').
    destruct He as [He|[He _]]; [exists t|exists now]; cbn; rewrite He; repeat split; done || lia.
  - exists i, t. repeat split; [|done..]. eapply emplace_others; [exact E|done..|lia].
Qed.

(** C37. A hash is relayed at most once within the hold time: after [shouldRelay] has
    said yes, no sequence of operations on the table, on this hash and on others, at
    times before the hold time is over makes it say yes again. *)
Theorem relayed_once key t0 r ops now : fst (shouldRelay t0 key r) <> None ->
  Forall (fun '(t, _) => t0 <= t < t0 + holdTime_ r) ops -> t0 <= now < t0 + holdTime_ r ->
  fst (shouldRelay now key (router_run ops (snd (shouldRelay t0 key r)))) = None.
Proof.
  intros Hyes Hops Hnow. set (r0 := snd (shouldRelay t0 key r)). assert (H0 : relayed_since t0 key r0 /\ holdTime_ r0 = holdTime_ r).
  { unfold r0. unfold shouldRelay in *. destruct (emplace t0 key r) as [[e b] l] eqn:E. pose proof (emplace_fresh _ _ _ _ _ _ E) as Hfresh. unfold entry_shouldRelay in *.
    destruct (recent (relayed_ e) (holdTime_ r) t0); [done|]. split; [|done]. cbn [entry_releasePeerSet snd]. unfold relayed_since.
    rewrite put_back_find, Z.eqb_refl by done. eexists _, t0. split; [reflexivity|]. cbn. repeat split; lia. }
  assert (Hr : relayed_since t0 key (router_run ops r0) /\ holdTime_ (router_run ops r0) = holdTime_ r).
  { clearbody r0. clear Hyes. revert r0 H0. induction Hops as [|[t op] ops Ht _ IH]; intros r0 [H1 H2]; [done|]. cbn. apply IH.
    rewrite <-H2 in Ht. destruct (relayed_since_step t0 key t op r0 H1 Ht) as [H3 H4]. split; [done|congruence]. }
  destruct Hr as [(i & t & Hf & _ & Hrel & Ht) Hh]. unfold shouldRelay. rewrite (emplace_found now key _ i Hf). unfold entry_shouldRelay. rewrite Hrel, Hh. cbn [recent].
  by destruct (Z.ltb_spec now (t + holdTime_ r)); [|lia].
Qed.

Lemma relayed_once_witness : fst (shouldRelay 10 7 (new_router 300 1)) <> None /\
  fst (shouldRelay 200 7 (router_run [(20, op_addSuppression 8); (150, op_addSuppressionPeer 7 3)] (snd (shouldRelay 10 7 (new_router 300 1))))) = None.
Proof.
  split; [done|]. apply (relayed_once 7 10 (new_router 300 1) [(20, op_addSuppression 8); (150, op_addSuppressionPeer 7 3)] 200); [done| |cbn; lia].
  repeat constructor; cbn; lia.
Defined.

(** ** Remembered verdicts *)

Section Sound.
Context (verify : list Z -> list Z -> list Z -> bool -> res bool) (allowMultiSign : bool).
Context (known : STTx -> Prop) (known_id : forall tx tx', known tx -> known tx' -> tid_ tx = tid_ tx' -> tx = tx').

(** What the checks say, without the table. *)
Definition validity (tx : STTx) : res Validity :=
  if negb (fst (tx_checkSign verify allowMultiSign tx)) then Ok SigBad else
  l ← passesLocalChecks (tx_object tx); Ok (match l with inl _ => SigGoodOnly | inr _ => Valid end).

Definition flags_sound (tx : STTx) (flags : Z) : Prop :=
  (any_flag flags SF_SIGBAD = true -> fst (tx_checkSign verify allowMultiSign tx) = false) /\
  (any_flag flags SF_SIGGOOD = true -> fst (tx_checkSign verify allowMultiSign tx) = true) /\
  (any_flag flags SF_LOCALBAD = true -> exists e, passesLocalChecks (tx_object tx) = Ok (inl e)) /\
  (any_flag flags SF_LOCALGOOD = true -> passesLocalChecks (tx_object tx) = Ok (inr ())).

Definition router_sound (r : HashRouter) : Prop :=
  Forall (fun i => forall tx, known tx -> tid_ tx = it_key i -> flags_sound tx (flags_ (it_entry i))) (suppressionMap_ r).

Lemma any_flag_lor a b f : any_flag (Z.lor a b) f = any_flag a f || any_flag b f.
Proof.
  unfold any_flag. rewrite Z.land_lor_distr_l. destruct (Z.eqb_spec (Z.lor (Z.land a f) (Z.land b f)) 0) as [[-> ->]%Z.lor_eq_0_iff|Hn]; [done|].
  destruct (Z.eqb_spec (Z.land a f) 0) as [Ha|]; [|done]. destruct (Z.eqb_spec (Z.land b f) 0) as [Hb|]; [|done]. by rewrite Ha, Hb in Hn.
Qed.

Lemma flags_sound_0 tx : flags_sound tx 0.
Proof. unfold flags_sound. repeat split; discriminate. Qed.

Lemma flags_sound_lor tx a b : flags_sound tx a -> flags_sound tx b -> flags_sound tx (Z.lor a b).
Proof. unfold flags_sound. rewrite !any_flag_lor, !orb_true_iff. naive_solver. Qed.

Lemma emplace_sound now key r e b l : router_sound r -> emplace now key r = (e, b, l) ->
  (forall tx, known tx -> tid_ tx = key -> flags_sound tx (flags_ e)) /\ router_sound (with_items r l).
Proof.
  unfold router_sound, emplace. intros Hs. destruct (find_item key (suppressionMap_ r)) as [i|] eqn:E; intros [= <- <- <-]; cbn.
  - apply List.find_some in E as [Hin Hk%Z.eqb_eq]. rewrite Forall_forall in Hs. split; [intros tx; rewrite <-Hk; apply Hs; by apply list_elem_of_In|].
    rewrite Forall_forall. intros j Hj. apply Hs. apply list_elem_of_In in Hj. apply list_elem_of_In. by eapply List.filter_In.
  - split; [intros; apply flags_sound_0|]. destruct (expire_suffix (now - holdTime_ r) (suppressionMap_ r)) as (p & Hp & _). rewrite Hp in Hs. by apply Forall_app in Hs as [_ Hs].
Qed.

Lemma put_back_sound now key e l r : router_sound (with_items r l) -> (forall tx, known tx -> tid_ tx = key -> flags_sound tx (flags_ e)) -> router_sound (put_back now key e l r).
Proof. unfold router_sound. cbn. intros Hl He. apply Forall_app. split; [done|]. apply Forall_singleton. exact He. Qed.

Lemma setFlags_sound now tx f r : router_sound r -> known tx -> flags_sound tx f -> router_sound (snd (router_setFlags now (tid_ tx) f r)).
Proof.
  intros Hs Hk Hf. unfold router_setFlags. destruct (emplace now (tid_ tx) r) as [[e b] l] eqn:E. destruct (emplace_sound _ _ _ _ _ _ Hs E) as [He Hl].
  destruct (Z.land (flags_ e) f =? f); apply put_back_sound; try done. intros tx' Hk' Hid. cbn. assert (tx' = tx) as -> by by apply known_id. by apply flags_sound_lor; [apply He|].
Qed.

Lemma getFlags_sound now tx f r r' : router_sound r -> known tx -> router_getFlags now (tid_ tx) r = (f, r') -> flags_sound tx f /\ router_sound r'.
Proof.
  intros Hs Hk. unfold router_getFlags. destruct (emplace now (tid_ tx) r) as [[e b] l] eqn:E. destruct (emplace_sound _ _ _ _ _ _ Hs E) as [He Hl].
  intros [= <- <-]. split; [by apply He|by apply put_back_sound].
Qed.

Lemma validity_good tx : validity tx = Ok Valid \/ validity tx = Ok SigGoodOnly -> fst (tx_checkSign verify allowMultiSign tx) = true.
Proof. unfold validity. destruct (fst _); [done|]. by intros [|]. Qed.

Lemma validity_local tx : validity tx = Ok Valid -> passesLocalChecks (tx_object tx) = Ok (inr ()).
Proof. unfold validity. destruct (fst _); [|done]. cbn. by destruct (passesLocalChecks (tx_object tx)) as [[|[]]|]. Qed.

(** The verdicts that say no more than the checks. *)
Definition justified (tx : STTx) (w : Validity) : Prop :=
  match w with
  | SigBad => True
  | SigGoodOnly => fst (tx_checkSign verify allowMultiSign tx) = true
  | Valid => validity tx = Ok Valid
  end.

Lemma setFlags_holds now tx f r : known tx -> router_sound (snd (router_setFlags now (tid_ tx) f r)) -> exists fl, Z.land fl f = f /\ flags_sound tx fl.
Proof.
  intros Hk. unfold router_setFlags. destruct (emplace now (tid_ tx) r) as [[e b] l].
  assert (Hin : forall e', router_sound (put_back now (tid_ tx) e' l r) -> flags_sound tx (flags_ e')) by (unfold router_sound; cbn; intros e' [_ H%Forall_inv]%Forall_app; by apply H).
  destruct (Z.eqb_spec (Z.land (flags_ e) f) f) as [E|_]; intros Hs%Hin; [by exists (flags_ e)|]. eexists. split; [|exact Hs]. cbn.
  apply Z.bits_inj'. intros n _. rewrite Z.land_spec, Z.lor_spec. by destruct (Z.testbit _ n), (Z.testbit f n).
Qed.

Lemma any_flag_of fl f g : Z.land fl f = f -> any_flag f g = true -> any_flag fl g = true.
Proof.
  unfold any_flag. intros E. rewrite !negb_true_iff, !Z.eqb_neq. intros Hf H. apply Hf. by rewrite <-E, (Z.land_comm fl f), <-Z.land_assoc, H, Z.land_0_r.
Qed.

Lemma forceValidity_sound now tx w r : router_sound r -> known tx -> router_sound (forceValidity now (tid_ tx) w r) <-> justified tx w.
Proof.
  intros Hs Hk. unfold forceValidity. destruct w; cbn [Z.eqb justified]; [done|..]; (split; [intros (fl & Hfl & F1 & F2 & F3 & F4)%setFlags_holds; [|done]|intros Hj; apply setFlags_sound; [done..|]]).
  - apply F2. by apply (any_flag_of _ _ _ Hfl).
  - unfold flags_sound; repeat split; intros Hf; vm_compute in Hf; discriminate Hf || done.
  - unfold validity. rewrite F2, F4; [done|by apply (any_flag_of _ _ _ Hfl)..].
  - unfold flags_sound; repeat split; intros Hf; vm_compute in Hf; try discriminate Hf; [apply validity_good; by left|by apply validity_local].
Qed.

Lemma checkValidity_verdict now tx r : router_sound r -> known tx -> (v ← fst (checkValidity verify now tx allowMultiSign r); Ok (fst v)) = validity tx.
Proof.
  intros Hs Hk. unfold checkValidity, validity. destruct (router_getFlags now (tid_ tx) r) as [f r1] eqn:Ef. destruct (getFlags_sound _ _ _ _ _ Hs Hk Ef) as [(F1 & F2 & F3 & F4) _].
  destruct (any_flag f SF_SIGBAD); [by rewrite F1|].
  destruct (any_flag f SF_SIGGOOD); [rewrite F2 by done|destruct (tx_checkSign verify allowMultiSign tx) as [[] reason]; cbn [fst]]; cbn [negb]; try done;
    (destruct (any_flag f SF_LOCALBAD); [by destruct F3 as [? ->]|]); (destruct (any_flag f SF_LOCALGOOD); [by rewrite F4|]);
    by destruct (passesLocalChecks (tx_object tx)) as [[|[]]|].
Qed.

Lemma checkValidity_sound now tx r : router_sound r -> known tx -> router_sound (snd (checkValidity verify now tx allowMultiSign r)).
Proof.
  intros Hs Hk. unfold checkValidity. destruct (router_getFlags now (tid_ tx) r) as [f r1] eqn:Ef. destruct (getFlags_sound _ _ _ _ _ Hs Hk Ef) as [_ Hs1].
  assert (Hl : forall r, router_sound r -> router_sound (snd (if any_flag f SF_LOCALBAD then (Ok (SigGoodOnly, Reason "Local checks failed."%string), r) else
    if any_flag f SF_LOCALGOOD then (Ok (Valid, Reason ""%string), r) else
    match passesLocalChecks (tx_object tx) with
    | Throw e => (Throw e, r)
    | Ok (inl reason) => (Ok (SigGoodOnly, Reason reason), snd (router_setFlags now (tid_ tx) SF_LOCALBAD r))
    | Ok (inr _) => (Ok (Valid, Reason ""%string), snd (router_setFlags now (tid_ tx) SF_LOCALGOOD r))
    end))).
  { intros r2 Hr2. destruct (any_flag f SF_LOCALBAD); [done|]. destruct (any_flag f SF_LOCALGOOD); [done|].
    destruct (passesLocalChecks (tx_object tx)) as [[e|[]]|] eqn:E; cbn [snd]; [| |done]; (apply setFlags_sound; [done..|]);
      unfold flags_sound; repeat split; intros Hf; vm_compute in Hf; try discriminate Hf; [by exists e|exact E]. }
  destruct (any_flag f SF_SIGBAD); [done|]. destruct (any_flag f SF_SIGGOOD); [by apply Hl|].
  destruct (tx_checkSign verify allowMultiSign tx) as [[] reason] eqn:E; cbn [negb]; [apply Hl|cbn [snd]]; (apply setFlags_sound; [done..|]);
    unfold flags_sound; rewrite E; repeat split; intros Hf; vm_compute in Hf; discriminate Hf || reflexivity.
Qed.

End Sound.

(** Two signed payments, of which a signature check accepts the first only. *)
Definition signed_fields (signature : list Z) (t : SOTemplate) : Fields :=
  map (fun fv : SField * STValue => if field_eq fv.1 sfSigners then (sfSigners, V_NotPresent) else
    if field_eq fv.1 sfSigningPubKey then (sfSigningPubKey, V_VL (2 :: replicate 32 7)) else
    if field_eq fv.1 sfTxnSignature then (sfTxnSignature, V_VL signature) else fv) (wpayment_fields t).

Definition signed_payment (signature : list Z) : STTx :=
  match findByType tx_formats ttPAYMENT with
  | Some t => mkTx (mkObject (signed_fields signature t) (Some t)) ttPAYMENT
                (match getHash wsum prefix_transactionID (signed_fields signature t) with Ok h => h | Throw _ => 0 end)
  | None => wpayment
  end.

Definition accepts_first (spk data signature : list Z) (canonical : bool) : res bool := Ok (bool_decide (signature = [1])).
Definition either_payment (tx : STTx) : Prop := tx = signed_payment [1] \/ tx = signed_payment [2].

(** The table after both have been checked once. *)
Definition seen_both : HashRouter :=
  snd (checkValidity accepts_first 4 (signed_payment [2]) true (snd (checkValidity accepts_first 3 (signed_payment [1]) true (new_router 300 1)))).

Lemma either_payment_id tx tx' : either_payment tx -> either_payment tx' -> tid_ tx = tid_ tx' -> tx = tx'.
Proof. intros [-> | ->] [-> | ->] E; try done; vm_compute in E; discriminate E. Qed.

Lemma seen_both_sound : router_sound accepts_first true either_payment seen_both.
Proof. repeat apply checkValidity_sound; try exact either_payment_id; [constructor|by left|by right]. Qed.

