(* ===== verification/RawStateTable.v ===== *)
(** * Ledgers and buffered raw changes

    Models the state part of app/ledger/Ledger.cpp, the change buffer of
    ledger/impl/RawStateTable.cpp with its merging iterator, and the
    [OpenView] of ledger/impl/OpenView.cpp that forwards to it. The theorems show
    that an open view over a base behaves as a finite map of its own, that
    flushing it into the base gives exactly that map, and that the merging
    iterator lists it in key order. *)

From stdpp Require Import sorting.
From S2P Require Import Prelude View.

(** ** The ledger

    [stateMap_] is the finite map from keys to entries, kept here as the entries
    themselves; [info_.drops] is the total of native currency. *)

Record Ledger (D : Type) := mkLedger { stateMap : gmap Z (SLE D); info_drops : Z }.
Arguments mkLedger {D}. Arguments stateMap {D}. Arguments info_drops {D}.

Section LedgerOps.
Context {D : Type}.

Definition ledger_exists (l : Ledger D) (k : Keylet) : bool :=
  bool_decide (is_Some (stateMap l !! kl_key k)).

Definition ledger_succ (l : Ledger D) (key : Z) (last : option Z) : option Z :=
  match List.filter (fun kv => key <? kv.1) (in_order (stateMap l)) with
  | [] => None
  | item :: _ =>
      match last with
      | Some lst => if lst <=? item.1 then None else Some item.1
      | None => Some item.1
      end
  end.

Definition ledger_read (l : Ledger D) (k : Keylet) : option (SLE D) :=
  if kl_key k =? 0 then None else
  match stateMap l !! kl_key k with
  | None => None
  | Some sle => if check k sle then Some sle else None
  end.

Definition ledger_view (l : Ledger D) : ReadView D :=
  mkReadView (ledger_exists l) (ledger_read l) (ledger_succ l).

Definition ledger_rawErase (sle : SLE D) (l : Ledger D) : res (Ledger D) :=
  match stateMap l !! sle_key sle with
  | None => Throw (logic_error "Ledger::rawErase: key not found")
  | Some _ => Ok (mkLedger (delete (sle_key sle) (stateMap l)) (info_drops l))
  end.

Definition ledger_rawInsert (sle : SLE D) (l : Ledger D) : res (Ledger D) :=
  match stateMap l !! sle_key sle with
  | Some _ => Throw (logic_error "Ledger::rawInsert: key already exists")
  | None => Ok (mkLedger (<[sle_key sle := sle]> (stateMap l)) (info_drops l))
  end.

Definition ledger_rawReplace (sle : SLE D) (l : Ledger D) : res (Ledger D) :=
  match stateMap l !! sle_key sle with
  | None => Throw (logic_error "Ledger::rawReplace: key not found")
  | Some _ => Ok (mkLedger (<[sle_key sle := sle]> (stateMap l)) (info_drops l))
  end.

Definition ledger_rawDestroySFC (fee : Z) (l : Ledger D) : Ledger D :=
  mkLedger (stateMap l) (info_drops l - fee).

#[export] Instance ledger_raw : RawView D (Ledger D) := {
  rawErase := ledger_rawErase;
  rawInsert := ledger_rawInsert;
  rawReplace := ledger_rawReplace;
  rawDestroySFC := ledger_rawDestroySFC
}.
End LedgerOps.

(** ** The change buffer *)

Inductive RawAction := Raw_erase | Raw_insert | Raw_replace.

Record RawStateTable (D : Type) := mkRaw { raw_items : gmap Z (RawAction * SLE D); raw_dropsDestroyed : Z }.
Arguments mkRaw {D}. Arguments raw_items {D}. Arguments raw_dropsDestroyed {D}.

Definition raw_erased {D} (item : RawAction * SLE D) : bool :=
  match item.1 with Raw_erase => true | _ => false end.

Section RawOps.
Context {D : Type}.
Implicit Types (t : RawStateTable D) (base : ReadView D) (sle : SLE D).

Definition raw_empty : RawStateTable D := mkRaw ∅ 0.

Definition raw_set t key item : RawStateTable D :=
  mkRaw (<[key := item]> (raw_items t)) (raw_dropsDestroyed t).

Definition raw_apply_item {T} `{!RawView D T} (elem : Z * (RawAction * SLE D)) (to : T) : res T :=
  match elem.2.1 with
  | Raw_erase => rawErase elem.2.2 to
  | Raw_insert => rawInsert elem.2.2 to
  | Raw_replace => rawReplace elem.2.2 to
  end.

Definition raw_apply {T} `{!RawView D T} t (to : T) : res T :=
  for_each raw_apply_item (in_order (raw_items t)) (rawDestroySFC (raw_dropsDestroyed t) to).

Definition raw_exists t base (k : Keylet) : bool :=
  match raw_items t !! kl_key k with
  | None => rv_exists base k
  | Some item => if raw_erased item then false else check k item.2
  end.

Definition raw_succ t base (key : Z) (last : option Z) : option Z :=
  layer_succ raw_erased base (raw_items t) key last.

Definition raw_erase sle t : res (RawStateTable D) :=
  match raw_items t !! sle_key sle with
  | None => Ok (raw_set t (sle_key sle) (Raw_erase, sle))
  | Some (Raw_erase, _) => Throw (logic_error "RawStateTable::erase: already erased")
  | Some (Raw_insert, _) => Ok (mkRaw (delete (sle_key sle) (raw_items t)) (raw_dropsDestroyed t))
  | Some (Raw_replace, _) => Ok (raw_set t (sle_key sle) (Raw_erase, sle))
  end.

Definition raw_insert sle t : res (RawStateTable D) :=
  match raw_items t !! sle_key sle with
  | None => Ok (raw_set t (sle_key sle) (Raw_insert, sle))
  | Some (Raw_erase, _) => Ok (raw_set t (sle_key sle) (Raw_replace, sle))
  | Some (Raw_insert, _) => Throw (logic_error "RawStateTable::insert: already inserted")
  | Some (Raw_replace, _) => Throw (logic_error "RawStateTable::insert: already exists")
  end.

Definition raw_replace sle t : res (RawStateTable D) :=
  match raw_items t !! sle_key sle with
  | None => Ok (raw_set t (sle_key sle) (Raw_replace, sle))
  | Some (Raw_erase, _) => Throw (logic_error "RawStateTable::replace: was erased")
  | Some (a, _) => Ok (raw_set t (sle_key sle) (a, sle))
  end.

Definition raw_read t base (k : Keylet) : option (SLE D) :=
  match raw_items t !! kl_key k with
  | None => rv_read base k
  | Some item => if raw_erased item then None else if check k item.2 then Some item.2 else None
  end.

Definition raw_destroySFC (fee : Z) t : RawStateTable D :=
  mkRaw (raw_items t) (raw_dropsDestroyed t + fee).

(** ** The open view: the buffer over its base *)

Definition openview (base : ReadView D) t : ReadView D :=
  mkReadView (raw_exists t base) (raw_read t base) (raw_succ t base).

#[export] Instance openview_raw : RawView D (RawStateTable D) := {
  rawErase := raw_erase;
  rawInsert := raw_insert;
  rawReplace := raw_replace;
  rawDestroySFC := raw_destroySFC
}.

(** ** The merging iterator [sles_iter_impl]

    The two remaining ranges, base entries and buffered items, both in key
    order. [sle0_] and [sle1_] are their heads; dereferencing a null [sle0_] in
    [skip] is the [None] result. *)

Definition iter : Type := list (SLE D) * list (Z * (RawAction * SLE D)).

(** The loop of [skip]; each iteration consumes an item. *)
Fixpoint iter_skip (l0 : list (SLE D)) (l1 : list (Z * (RawAction * SLE D))) {struct l1} : option iter :=
  match l1 with
  | [] => Some (l0, [])
  | (k, (a, sle1)) :: l1' =>
      match a with
      | Raw_erase =>
          match l0 with
          | [] => None
          | sle0 :: l0' =>
              if sle_key sle0 =? sle_key sle1 then
                match l0' with
                | [] => Some ([], l1')
                | _ => iter_skip l0' l1'
                end
              else Some (l0, l1)
          end
      | _ => Some (l0, l1)
      end
  end.

Definition iter_make (l0 : list (SLE D)) (l1 : list (Z * (RawAction * SLE D))) : option iter :=
  match l1 with [] => Some (l0, []) | _ => iter_skip l0 l1 end.

Definition iter_dereference (it : iter) : option (SLE D) :=
  match it with
  | (l0, []) => head l0
  | ([], (_, (_, sle1)) :: _) => Some sle1
  | (sle0 :: _, (_, (_, sle1)) :: _) =>
      if sle_key sle1 <=? sle_key sle0 then Some sle1 else Some sle0
  end.

Definition iter_increment (it : iter) : option iter :=
  match it with
  | ([], []) => None
  | ([], _ :: l1) => Some ([], l1)
  | (_ :: l0, []) => Some (l0, [])
  | (sle0 :: l0, (k, (a, sle1)) :: l1) =>
      if sle_key sle1 =? sle_key sle0 then iter_skip l0 l1
      else if sle_key sle1 <? sle_key sle0 then iter_skip (sle0 :: l0) l1
      else iter_skip l0 ((k, (a, sle1)) :: l1)
  end.

(** [for (auto const& sle : view.sles)]: every entry the iterator yields, [None]
    when it dereferences a null pointer or does not come to its end. *)
Fixpoint iter_run (fuel : nat) (it : iter) : option (list (SLE D)) :=
  match fuel with
  | O => None
  | S n =>
      match it with
      | ([], []) => Some []
      | _ =>
          sle ← iter_dereference it;
          it' ← iter_increment it;
          (sle ::.) <$> iter_run n it'
      end
  end.

Definition raw_sles t (sles : list (SLE D)) : option (list (SLE D)) :=
  let l1 := in_order (raw_items t) in
  it ← iter_make sles l1; iter_run (S (length sles + length l1)) it.

Definition raw_sles_upper_bound t (sles : list (SLE D)) (key : Z) : option (list (SLE D)) :=
  let l0 := List.filter (fun s => key <? sle_key s) sles in
  let l1 := List.filter (fun kv => key <? kv.1) (in_order (raw_items t)) in
  it ← iter_make l0 l1; iter_run (S (length l0 + length l1)) it.
End RawOps.

(** ** What a buffer shows, and when it fits its base *)

Definition raw_shown {D} (item : RawAction * SLE D) : option (SLE D) :=
  if raw_erased item then None else Some item.2.

(** The entries visible through a buffer over a base holding [m]. *)
Definition raw_overlay {D} (t : RawStateTable D) (m : gmap Z (SLE D)) : gmap Z (SLE D) :=
  overlay (raw_items t) raw_shown m.

(** Insertions are of keys the base lacks, erasures and replacements of keys it has. *)
Definition raw_item_wf {D} (m : gmap Z (SLE D)) (k : Z) (item : RawAction * SLE D) : Prop :=
  sle_key item.2 = k /\
  match item.1 with Raw_insert => m !! k = None | _ => is_Some (m !! k) end.

Definition raw_wf {D} (t : RawStateTable D) (m : gmap Z (SLE D)) : Prop :=
  map_Forall (raw_item_wf m) (raw_items t).

Section RawFacts.
Context {D : Type}.
Implicit Types (t : RawStateTable D) (m : gmap Z (SLE D)) (s : SLE D).

Lemma raw_shown_None (item : RawAction * SLE D) : raw_erased item = true <-> raw_shown item = None.
Proof. unfold raw_shown. by destruct (raw_erased item). Qed.

Lemma raw_overlay_lookup t m k :
  raw_overlay t m !! k = match raw_items t !! k with Some item => raw_shown item | None => m !! k end.
Proof. apply overlay_lookup. Qed.

Lemma raw_overlay_set t m k item :
  raw_overlay (raw_set t k item) m = partial_alter (fun _ => raw_shown item) k (raw_overlay t m).
Proof.
  apply map_eq. intros k'. rewrite raw_overlay_lookup. cbn. destruct (decide (k = k')) as [->|Hne].
  - by rewrite lookup_insert_eq, lookup_partial_alter_eq.
  - by rewrite lookup_insert_ne, lookup_partial_alter_ne, raw_overlay_lookup.
Qed.

Lemma raw_set_wf t m k item : raw_wf t m -> raw_item_wf m k item -> raw_wf (raw_set t k item) m.
Proof. intros. by apply map_Forall_insert_2. Qed.

Lemma ledger_view_of (l : Ledger D) :
  stateMap l !! 0 = None -> ReadViewOf (ledger_view l) (stateMap l).
Proof.
  intros H0. split.
  - intros k. cbn. unfold ledger_read. destruct (Z.eqb_spec (kl_key k) 0) as [->|]; [by rewrite H0|].
    by destruct (stateMap l !! kl_key k).
  - done.
  - intros key last. cbn. unfold ledger_succ, is_succ.
    pose proof (find_sorted (fun _ => true) _ key (in_order_sorted (stateMap l))) as Hf.
    eapply (succ_in_iff _ (fun k => is_Some (stateMap l !! k))) in Hf.
    2: { intros k. split; [intros (v & Hin & _)|intros [v Hv]; exists v; split; [|done]].
         - apply elem_of_in_order in Hin. by exists v.
         - by apply elem_of_in_order. }
    destruct (List.filter _ _) as [|[k v] rest]; cbn in *.
    + intros k' H1 H2. by destruct (Hf k' H1 H2) as (? & ? & ?).
    + destruct Hf as (H1 & H2 & H3 & _). destruct last as [lst|]; [|done].
      destruct (Z.leb_spec lst k).
      * intros k' Hk' L. exists lst. split; [done|]. specialize (H3 _ Hk' L). lia.
      * repeat split; try done. intros ? [= <-]. lia.
Qed.

#[export] Instance ledger_laws (drops0 : Z) :
  RawViewLaws D (Ledger D) (fun l m d => stateMap l = m /\ info_drops l = drops0 - d).
Proof.
  split; intros t m d s [<- Hd]; cbn.
  - intros [s' Hs]. unfold ledger_rawErase. rewrite Hs. by eauto.
  - intros Hs. unfold ledger_rawInsert. rewrite Hs. by eauto.
  - intros [s' Hs]. unfold ledger_rawReplace. rewrite Hs. by eauto.
  - split; [done|lia].
Qed.

(** The buffer over a base holding [m], as a target of writes. *)
Definition raw_denotes m t mm d : Prop :=
  raw_wf t m /\ raw_overlay t m = mm /\ raw_dropsDestroyed t = d.

#[export] Instance openview_laws m : RawViewLaws D (RawStateTable D) (raw_denotes m).
Proof.
  split; intros t mm d s (Hwf & <- & <-); cbn.
  - rewrite raw_overlay_lookup. intros Hs. unfold raw_erase.
    destruct (raw_items t !! sle_key s) as [[a s0]|] eqn:E.
    + destruct (Hwf _ _ E) as [Hk Ha]. destruct a; cbn in *.
      * by destruct Hs.
      * eexists. split; [done|]. split; [by apply map_Forall_delete|]. split; [|done].
        apply map_eq. intros k'. rewrite raw_overlay_lookup. cbn.
        destruct (decide (sle_key s = k')) as [<-|Hne].
        -- by rewrite !lookup_delete_eq.
        -- by rewrite !lookup_delete_ne, raw_overlay_lookup.
      * eexists. split; [done|]. split; [by apply raw_set_wf|]. split; [|done].
        apply raw_overlay_set.
    + eexists. split; [done|]. split; [by apply raw_set_wf|]. split; [|done].
      apply raw_overlay_set.
  - rewrite raw_overlay_lookup. intros Hs. unfold raw_insert.
    destruct (raw_items t !! sle_key s) as [[a s0]|] eqn:E.
    + destruct (Hwf _ _ E) as [Hk Ha]. destruct a; cbn in *; try done.
      eexists. split; [done|]. split; [by apply raw_set_wf|]. split; [|done]. apply raw_overlay_set.
    + eexists. split; [done|]. split; [by apply raw_set_wf|]. split; [|done]. apply raw_overlay_set.
  - rewrite raw_overlay_lookup. intros Hs. unfold raw_replace.
    destruct (raw_items t !! sle_key s) as [[a s0]|] eqn:E.
    + destruct (Hwf _ _ E) as [Hk Ha]. destruct a; cbn in *; [by destruct Hs| |].
      all: eexists; (split; [done|]); (split; [by apply raw_set_wf|]); (split; [|done]); apply raw_overlay_set.
    + eexists. split; [done|]. split; [by apply raw_set_wf|]. split; [|done]. apply raw_overlay_set.
  - done.
Qed.

(** An open view is a finite map of its own. Over a base that presents the
    entries [m], the three queries of [OpenView] - [read], [exists] and the
    successor search - answer as the map that shows the buffered entries over
    [m] does, whatever is buffered. *)
Theorem openview_reads (base : ReadView D) m t :
  ReadViewOf base m -> ReadViewOf (openview base t) (raw_overlay t m).
Proof.
  intros Hb. split.
  - intros k. cbn. unfold raw_read. rewrite raw_overlay_lookup.
    destruct (raw_items t !! kl_key k) as [item|]; [|apply rv_read_spec].
    unfold raw_shown. by destruct (raw_erased item).
  - intros k. cbn. unfold raw_exists. rewrite raw_overlay_lookup.
    destruct (raw_items t !! kl_key k) as [item|]; [|apply rv_exists_spec].
    unfold raw_shown. destruct (raw_erased item); [done|]. intros H.
    rewrite (H _ eq_refl). by rewrite bool_decide_true.
  - intros key last. apply layer_succ_spec; [done|]. intros _ v _. apply raw_shown_None.
Qed.

Lemma raw_apply_item_writes {T} `{!RawView D T} (denotes : T -> gmap Z (SLE D) -> Z -> Prop)
    `{!RawViewLaws D T denotes} t m :
  raw_wf t m -> writes denotes (raw_items t) raw_shown m raw_apply_item.
Proof.
  intros Hwf k [a s] to mm d Hk Hmm Hd. destruct (Hwf _ _ Hk) as [Hkey Ha]. cbn in *. subst k.
  unfold raw_apply_item. destruct a; cbn in *; rewrite <-Hmm in Ha.
  - by apply rawErase_spec.
  - by apply rawInsert_spec.
  - by apply rawReplace_spec.
Qed.

Lemma raw_apply_spec {T} `{!RawView D T} (denotes : T -> gmap Z (SLE D) -> Z -> Prop)
    `{!RawViewLaws D T denotes} t m (to : T) d :
  raw_wf t m -> denotes to m d ->
  exists to', raw_apply t to = Ok to' /\ denotes to' (raw_overlay t m) (d + raw_dropsDestroyed t).
Proof.
  intros Hwf Hto. unfold raw_apply. apply flush_spec.
  - by apply raw_apply_item_writes.
  - by apply rawDestroySFC_spec.
Qed.
End RawFacts.

(** ** Sequences of writes *)

Inductive RawOp (D : Type) :=
| op_rawErase (s : SLE D) | op_rawInsert (s : SLE D) | op_rawReplace (s : SLE D) | op_rawDestroySFC (fee : Z).
Arguments op_rawErase {D}. Arguments op_rawInsert {D}. Arguments op_rawReplace {D}.
Arguments op_rawDestroySFC {D}.

Definition raw_step {D T} `{!RawView D T} (op : RawOp D) (t : T) : res T :=
  match op with
  | op_rawErase s => rawErase s t
  | op_rawInsert s => rawInsert s t
  | op_rawReplace s => rawReplace s t
  | op_rawDestroySFC fee => Ok (rawDestroySFC fee t)
  end.

Definition raw_run {D T} `{!RawView D T} : list (RawOp D) -> T -> res T := for_each raw_step.

Section Commit.
Context {D : Type}.
Implicit Types (l : Ledger D) (t : RawStateTable D).

(** A write the ledger accepts is accepted by a buffer that shows the ledger's
    state, and the two stay in step. *)
Lemma raw_step_sim drops0 (op : RawOp D) m l l' t d :
  raw_step op l = Ok l' ->
  raw_denotes m t (stateMap l) d -> info_drops l = drops0 - d ->
  exists t' d', raw_step op t = Ok t' /\ raw_denotes m t' (stateMap l') d' /\ info_drops l' = drops0 - d'.
Proof.
  destruct op as [s|s|s|fee]; cbn; intros Hl Ht Hd.
  - unfold ledger_rawErase in Hl. destruct (stateMap l !! sle_key s) eqn:E; [|done].
    injection Hl as <-. destruct (rawErase_spec _ _ _ s Ht) as (t' & ? & ?); [by eexists|]. by eauto.
  - unfold ledger_rawInsert in Hl. destruct (stateMap l !! sle_key s) eqn:E; [done|].
    injection Hl as <-. destruct (rawInsert_spec _ _ _ s Ht E) as (t' & ? & ?). by eauto.
  - unfold ledger_rawReplace in Hl. destruct (stateMap l !! sle_key s) eqn:E; [|done].
    injection Hl as <-. destruct (rawReplace_spec _ _ _ s Ht) as (t' & ? & ?); [by eexists|]. by eauto.
  - injection Hl as <-. exists (raw_destroySFC fee t), (d + fee). split; [done|].
    split; [by destruct Ht as (? & ? & <-)|]. cbn. lia.
Qed.

Lemma raw_run_sim drops0 ops m l l' t d :
  raw_run ops l = Ok l' ->
  raw_denotes m t (stateMap l) d -> info_drops l = drops0 - d ->
  exists t' d', raw_run ops t = Ok t' /\ raw_denotes m t' (stateMap l') d' /\ info_drops l' = drops0 - d'.
Proof.
  revert l t d. induction ops as [|op ops IH]; cbn; intros l t d Hl Ht Hd.
  - injection Hl as <-. by eauto.
  - apply bind_Ok in Hl as (l1 & H1 & H2).
    destruct (raw_step_sim drops0 op m l l1 t d H1 Ht Hd) as (t1 & d1 & -> & Ht1 & Hd1). cbn.
    by eapply IH.
Qed.

Lemma raw_empty_denotes (m : gmap Z (SLE D)) : raw_denotes m raw_empty m 0.
Proof.
  split; [apply map_Forall_empty|]. split; [|done]. apply map_eq. intros k.
  rewrite raw_overlay_lookup. cbn. by rewrite lookup_empty.
Qed.

(** C24. Buffering is transparent. A sequence of erasures, insertions,
    replacements and fee burns that a ledger accepts is accepted by an empty
    open view over it, and applying the view afterwards leaves the ledger exactly
    where the direct writes leave it, entries and native total alike. *)
Theorem openview_commit (ops : list (RawOp D)) l l' :
  raw_run ops l = Ok l' ->
  exists t, raw_run ops raw_empty = Ok t /\ raw_apply t l = Ok l'.
Proof.
  intros Hrun.
  destruct (raw_run_sim (info_drops l) ops (stateMap l) l l' raw_empty 0 Hrun) as (t & d & Hr & Ht & Hd).
  - apply raw_empty_denotes.
  - lia.
  - exists t. split; [done|]. destruct Ht as (Hwf & Ho & Hdd).
    destruct (raw_apply_spec _ t (stateMap l) l 0 (RawViewLaws0 := ledger_laws (info_drops l)) Hwf)
      as (l2 & -> & Hs & Hdr); [split; [done|lia]|].
    f_equal. destruct l', l2; cbn in *. f_equal; [congruence|lia].
Qed.
End Commit.

(** ** The merging iterator lists the overlay *)

Section Iterator.
Context {D : Type}.
#[local] Abbreviation items := (list (Z * (RawAction * SLE D))).

Definition sle_lt (s1 s2 : SLE D) : Prop := sle_key s1 < sle_key s2.
Definition item_lt (i1 i2 : Z * (RawAction * SLE D)) : Prop := i1.1 < i2.1.

(** Both ranges ascend, items sit at their entry's key, and what is erased is in the base. *)
Record iter_ok (l0 : list (SLE D)) (l1 : items) : Prop := {
  ok_l0 : StronglySorted sle_lt l0;
  ok_l1 : StronglySorted item_lt l1;
  ok_key : forall k a s, (k, (a, s)) ∈ l1 -> sle_key s = k;
  ok_erase : forall k s, (k, (Raw_erase, s)) ∈ l1 -> exists s0, s0 ∈ l0 /\ sle_key s0 = k
}.

(** What is still to be listed. *)
Definition to_list (l0 : list (SLE D)) (l1 : items) (s : SLE D) : Prop :=
  (exists k a, (k, (a, s)) ∈ l1 /\ a <> Raw_erase) \/ (s ∈ l0 /\ sle_key s ∉ l1.*1).

(** An erased item at the head is still ahead of the base's head. *)
Definition iter_norm (l0 : list (SLE D)) (l1 : items) : Prop :=
  forall k s l1', l1 = (k, (Raw_erase, s)) :: l1' -> exists s0 l0', l0 = s0 :: l0' /\ sle_key s0 < k.

Lemma ok_no_erase l1 k s : iter_ok [] l1 -> (k, (Raw_erase, s)) ∉ l1.
Proof. intros H Hin. destruct (ok_erase _ _ H _ _ Hin) as (? & H0%elem_of_nil & _). done. Qed.

Lemma head_lt l s : StronglySorted sle_lt (s :: l) -> forall s', s' ∈ l -> sle_key s < sle_key s'.
Proof. intros [_ H]%StronglySorted_inv s' Hin. rewrite Forall_forall in H. by apply H. Qed.

Lemma head_item_lt l i : StronglySorted item_lt (i :: l) -> forall i', i' ∈ l -> i.1 < i'.1.
Proof. intros [_ H]%StronglySorted_inv s' Hin. rewrite Forall_forall in H. by apply H. Qed.

Lemma to_list_cons0 s0 l0 l1 s :
  sle_key s0 ∉ l1.*1 -> to_list (s0 :: l0) l1 s <-> s = s0 \/ to_list l0 l1 s.
Proof. intros H. unfold to_list. rewrite elem_of_cons. split; [|intros [->|]]; naive_solver. Qed.

Lemma to_list_hide s0 l0 l1 s : sle_key s0 ∈ l1.*1 -> to_list (s0 :: l0) l1 s <-> to_list l0 l1 s.
Proof. intros H. unfold to_list. rewrite elem_of_cons. naive_solver. Qed.

Lemma to_list_cons1 l0 k a s1 l1 s :
  a <> Raw_erase -> (forall s0, s0 ∈ l0 -> sle_key s0 <> k) ->
  to_list l0 ((k, (a, s1)) :: l1) s <-> s = s1 \/ to_list l0 l1 s.
Proof.
  intros Ha Hk. unfold to_list. rewrite fmap_cons. cbn. setoid_rewrite elem_of_cons.
  specialize (Hk s). split; [|intros [->|]]; naive_solver.
Qed.

Lemma to_list_drop l0 k s1 l1 s :
  (forall s0, s0 ∈ l0 -> sle_key s0 <> k) ->
  to_list l0 ((k, (Raw_erase, s1)) :: l1) s <-> to_list l0 l1 s.
Proof.
  intros Hk. unfold to_list. rewrite fmap_cons. cbn. setoid_rewrite elem_of_cons.
  specialize (Hk s). naive_solver.
Qed.

Lemma iter_ok_tail0 s0 l0 l1 : iter_ok (s0 :: l0) l1 -> (forall i, i ∈ l1 -> sle_key s0 < i.1) -> iter_ok l0 l1.
Proof.
  intros [H0 H1 Hk He] Hlt. split; [by apply StronglySorted_inv in H0 as []|done|done|].
  intros k s Hin. destruct (He k s Hin) as (s' & Hs' & <-). specialize (Hlt _ Hin). cbn in Hlt.
  apply elem_of_cons in Hs' as [->|Hs']; [lia|by eauto].
Qed.

Lemma iter_ok_tail1 l0 i l1 : iter_ok l0 (i :: l1) -> iter_ok l0 l1.
Proof.
  intros [H0 H1 Hk He]. split; [done|by apply StronglySorted_inv in H1 as []| |].
  - intros k a s Hin. apply (Hk k a). by right.
  - intros k s Hin. apply (He k s). by right.
Qed.

Lemma iter_ok_both s0 l0 i l1 : iter_ok (s0 :: l0) (i :: l1) -> sle_key s0 = i.1 -> iter_ok l0 l1.
Proof.
  intros H Hk. eapply iter_ok_tail0; [by eapply iter_ok_tail1|]. rewrite Hk.
  apply head_item_lt, H.
Qed.

Lemma iter_skip_spec l0 l1 :
  iter_ok l0 l1 ->
  exists l0' l1', iter_skip l0 l1 = Some (l0', l1') /\ iter_ok l0' l1' /\ iter_norm l0' l1' /\
    (length l0' + length l1' <= length l0 + length l1)%nat /\
    (forall s, to_list l0 l1 s <-> to_list l0' l1' s).
Proof.
  revert l0. induction l1 as [|[k [a s1]] l1 IH]; intros l0 Hok.
  { exists l0, []. split; [by destruct l0|]. split; [done|]. split; [by intros ? ? ? [=]|]. by split. }
  assert (Hs1 : sle_key s1 = k) by (apply (ok_key _ _ Hok k a); left). cbn.
  destruct a.
  2,3: exists l0; eexists; (split; [reflexivity|]); (split; [done|]); (split; [by intros ? ? ? [=]|]); by split.
  destruct l0 as [|s0 l0]; [destruct (ok_no_erase _ k s1 Hok); left|].
  destruct (Z.eqb_spec (sle_key s0) (sle_key s1)) as [Heq|Hne].
  - assert (Hok' : iter_ok l0 l1) by (eapply iter_ok_both; [done|cbn; lia]).
    assert (Hsame : forall s, to_list (s0 :: l0) ((k, (Raw_erase, s1)) :: l1) s <-> to_list l0 l1 s).
    { intros s. rewrite to_list_hide by (rewrite fmap_cons, Heq, Hs1; left). apply to_list_drop.
      intros s' Hs'. pose proof (head_lt _ _ (ok_l0 _ _ Hok) _ Hs'). lia. }
    destruct l0 as [|s0' l0].
    + exists [], l1. split; [done|]. split; [done|]. split; [|split; [cbn; lia|done]].
      intros ? ? ? ->. edestruct ok_no_erase; [exact Hok'|left].
    + destruct (IH _ Hok') as (l0' & l1' & -> & ? & ? & ? & Hiff). exists l0', l1'.
      split; [done|]. split; [done|]. split; [done|]. split; [cbn in *; lia|].
      intros s. by rewrite Hsame, Hiff.
  - exists (s0 :: l0). eexists. split; [reflexivity|]. split; [done|]. split; [|by split].
    intros ? ? ? [= <- <- <-]. exists s0, l0. split; [done|].
    destruct (ok_erase _ _ Hok k s1) as (s' & Hs' & Hk'); [left|].
    apply elem_of_cons in Hs' as [->|Hs']; [lia|]. pose proof (head_lt _ _ (ok_l0 _ _ Hok) _ Hs'). lia.
Qed.

Lemma to_list_bound b l0 l1 s :
  iter_ok l0 l1 -> (forall s', s' ∈ l0 -> b < sle_key s') -> (forall i, i ∈ l1 -> b < i.1) ->
  to_list l0 l1 s -> b < sle_key s.
Proof.
  intros Hok H0 H1 [(k & a & Hin & _)|[Hin _]]; [|by apply H0].
  rewrite (ok_key _ _ Hok _ _ _ Hin). by apply (H1 _ Hin).
Qed.

(** Skipping lists the same entries. *)
Lemma iter_skip_lists b la lb :
  iter_ok la lb -> (forall s, s ∈ la -> b < sle_key s) -> (forall i, i ∈ lb -> b < i.1) ->
  exists l0' l1', iter_skip la lb = Some (l0', l1') /\ iter_ok l0' l1' /\ iter_norm l0' l1' /\
    (length l0' + length l1' <= length la + length lb)%nat /\
    (forall s, to_list la lb s <-> to_list l0' l1' s) /\
    (forall s, to_list l0' l1' s -> b < sle_key s).
Proof.
  intros Hok H0 H1. destruct (iter_skip_spec la lb Hok) as (l0' & l1' & ? & ? & ? & ? & Hiff).
  exists l0', l1'. split; [done|]. split; [done|]. split; [done|]. split; [done|]. split; [done|].
  intros s Hs. eapply (to_list_bound _ la lb); try done. by apply Hiff.
Qed.

(** One pass of the loop yields the least entry still to be listed. *)
Definition iter_steps (l0 : list (SLE D)) (l1 : items) : Prop :=
  exists s l0' l1', iter_dereference (l0, l1) = Some s /\ iter_increment (l0, l1) = Some (l0', l1') /\
    iter_ok l0' l1' /\ iter_norm l0' l1' /\
    (length l0' + length l1' < length l0 + length l1)%nat /\
    (forall s', to_list l0 l1 s' <-> s' = s \/ to_list l0' l1' s') /\
    (forall s', to_list l0' l1' s' -> sle_key s < sle_key s').

Lemma iter_step_both s0 l0 k a s1 l1 :
  iter_ok (s0 :: l0) ((k, (a, s1)) :: l1) -> iter_norm (s0 :: l0) ((k, (a, s1)) :: l1) ->
  iter_steps (s0 :: l0) ((k, (a, s1)) :: l1).
Proof.
  intros Hok Hn. unfold iter_steps. cbn [iter_dereference iter_increment].
  assert (Hs1 : sle_key s1 = k) by (apply (ok_key _ _ Hok k a); left).
  pose proof (head_lt _ _ (ok_l0 _ _ Hok)) as Hl0. pose proof (head_item_lt _ _ (ok_l1 _ _ Hok)) as Hl1.
  cbn [fst] in Hl1. rewrite Hs1.
  assert (Ha : k <= sle_key s0 -> a <> Raw_erase).
  { intros Hle ->. destruct (Hn _ _ _ eq_refl) as (? & ? & [= <- <-] & ?). lia. }
  destruct (Z.leb_spec k (sle_key s0)) as [Hle|Hlt]; [specialize (Ha Hle)|clear Ha].
  + destruct (Z.eqb_spec k (sle_key s0)) as [Heq|Hneq].
    * destruct (iter_skip_lists k l0 l1) as (l0' & l1' & Hsk & ? & ? & ? & Hiff & ?).
      { by eapply iter_ok_both. } { rewrite Heq. exact Hl0. } { exact Hl1. }
      exists s1, l0', l1'. rewrite Hs1. repeat (split; [done || (cbn in *; lia)|]). split; [|done].
      intros s'. rewrite to_list_hide by (rewrite fmap_cons, <-Heq; left).
      rewrite to_list_cons1, Hiff; [done|done|]. intros s'' Hs''. specialize (Hl0 _ Hs''). lia.
    * rewrite (proj2 (Z.ltb_lt k (sle_key s0))) by lia.
      destruct (iter_skip_lists k (s0 :: l0) l1) as (l0' & l1' & Hsk & ? & ? & ? & Hiff & ?).
      { by eapply iter_ok_tail1. }
      { intros s'' [->|Hs'']%elem_of_cons; [lia|]. specialize (Hl0 _ Hs''). lia. } { exact Hl1. }
      exists s1, l0', l1'. rewrite Hs1. repeat (split; [done || (cbn in *; lia)|]). split; [|done].
      intros s'. rewrite to_list_cons1, Hiff; [done|done|].
      intros s'' [->|Hs'']%elem_of_cons; [lia|]. specialize (Hl0 _ Hs''). lia.
  + rewrite (proj2 (Z.eqb_neq k (sle_key s0))), (proj2 (Z.ltb_ge k (sle_key s0))) by lia.
    assert (Hall : forall i, i ∈ (k, (a, s1)) :: l1 -> sle_key s0 < i.1).
    { intros i [->|Hi]%elem_of_cons; [done|]. specialize (Hl1 _ Hi). lia. }
    destruct (iter_skip_lists (sle_key s0) l0 ((k, (a, s1)) :: l1))
      as (l0' & l1' & Hsk & ? & ? & ? & Hiff & ?).
    { by eapply iter_ok_tail0. } { exact Hl0. } { exact Hall. }
    exists s0, l0', l1'. repeat (split; [done || (cbn in *; lia)|]). split; [|done].
    intros s'. rewrite to_list_cons0, Hiff; [done|].
    intros ([k' i'] & Hk' & Hin)%list_elem_of_fmap. specialize (Hall _ Hin). cbn in *. lia.
Qed.

Lemma iter_step_spec l0 l1 :
  iter_ok l0 l1 -> iter_norm l0 l1 -> (l0, l1) <> ([], []) -> iter_steps l0 l1.
Proof.
  intros Hok Hn Hne.
  destruct l0 as [|s0 l0], l1 as [|[k [a s1]] l1]; [done| | |by apply iter_step_both].
  - assert (Ha : a <> Raw_erase) by (intros ->; edestruct ok_no_erase; [exact Hok|left]).
    assert (Hok' : iter_ok [] l1) by by eapply iter_ok_tail1.
    assert (Hs1 : sle_key s1 = k) by (apply (ok_key _ _ Hok k a); left).
    exists s1, [], l1. split; [done|]. split; [done|]. split; [done|]. split.
    { intros k' s' l' ->. edestruct ok_no_erase; [exact Hok'|left]. }
    split; [cbn; lia|]. split.
    { intros s'. apply to_list_cons1; [done|]. by intros ? ?%elem_of_nil. }
    intros s'. rewrite Hs1. apply to_list_bound; [done|by intros ? ?%elem_of_nil|].
    apply (head_item_lt _ _ (ok_l1 _ _ Hok)).
  - assert (Hok' : iter_ok l0 []) by (eapply iter_ok_tail0; [done|by intros ? ?%elem_of_nil]).
    exists s0, l0, []. split; [done|]. split; [done|]. split; [done|]. split; [by intros ? ? ? [=]|].
    split; [cbn; lia|]. split.
    { intros s'. apply to_list_cons0. apply not_elem_of_nil. }
    intros s'. apply to_list_bound; [done| |by intros ? ?%elem_of_nil].
    apply (head_lt _ _ (ok_l0 _ _ Hok)).
Qed.

Lemma iter_run_spec fuel l0 l1 :
  iter_ok l0 l1 -> iter_norm l0 l1 -> (length l0 + length l1 < fuel)%nat ->
  exists out, iter_run fuel (l0, l1) = Some out /\ StronglySorted sle_lt out /\
    forall s, s ∈ out <-> to_list l0 l1 s.
Proof.
  revert l0 l1. induction fuel as [|fuel IH]; intros l0 l1 Hok Hn Hf; [lia|].
  destruct (decide (length l0 + length l1 = 0)%nat) as [H0|H0].
  { destruct l0, l1; cbn in H0; [|lia..]. exists []. split; [done|]. split; [constructor|].
    intros s. rewrite elem_of_nil. split; [done|]. by intros [(? & ? & ?%elem_of_nil & _)|[?%elem_of_nil _]]. }
  destruct (iter_step_spec l0 l1) as (s & l0' & l1' & Hd & Hi & Hok' & Hn' & Hlen & Hiff & Hlt); [done..| |].
  { intros [= -> ->]. by apply H0. }
  destruct (IH l0' l1') as (out & Hr & Hs & Hin); [done|done|lia|].
  exists (s :: out). split.
  - assert (Hun : iter_run (S fuel) (l0, l1) =
      (sle ← iter_dereference (l0, l1); it' ← iter_increment (l0, l1); (sle ::.) <$> iter_run fuel it')).
    { destruct l0, l1; try done. }
    rewrite Hun, Hd. cbn [mbind option_bind]. rewrite Hi. cbn [mbind option_bind]. by rewrite Hr.
  - split.
    + constructor; [done|]. apply Forall_forall. intros s' Hs'. apply Hlt. by apply Hin.
    + intros s'. by rewrite elem_of_cons, Hiff, Hin.
Qed.

Lemma sle_sorted_unique (la lb : list (SLE D)) :
  StronglySorted sle_lt la -> StronglySorted sle_lt lb -> (forall s, s ∈ la <-> s ∈ lb) -> la = lb.
Proof.
  intros Ha. revert lb. induction Ha as [|a la Ha IH Hlta]; intros lb Hb Hiff.
  - destruct lb as [|b lb]; [done|]. by assert (b ∈ []) as ?%elem_of_nil by (apply Hiff; left).
  - destruct lb as [|b lb]; [by assert (a ∈ []) as ?%elem_of_nil by (apply Hiff; left)|].
    pose proof (head_lt _ _ Hb) as Hltb. rewrite Forall_forall in Hlta. unfold sle_lt in Hlta.
    assert (a = b) as ->.
    { assert (H1 : a ∈ b :: lb) by (apply Hiff; left). assert (H2 : b ∈ a :: la) by (apply Hiff; left).
      apply elem_of_cons in H1 as [|H1], H2 as [|H2]; try done.
      specialize (Hltb _ H1). specialize (Hlta _ H2). lia. }
    f_equal. apply IH; [by apply StronglySorted_inv in Hb as []|].
    intros s. split; intros Hs.
    + assert (s ∈ b :: lb) as [->|]%elem_of_cons by (apply Hiff; by right); [|done].
      specialize (Hlta _ Hs). lia.
    + assert (s ∈ b :: la) as [->|]%elem_of_cons by (apply Hiff; by right); [|done].
      specialize (Hltb _ Hs). lia.
Qed.
End Iterator.

Section Listing.
Context {D : Type}.
Implicit Types (t : RawStateTable D) (m : gmap Z (SLE D)).

Definition keys_ok m : Prop := forall k s, m !! k = Some s -> sle_key s = k.

(** The [sles] range of a view that presents [m]. *)
Definition sles_of m : list (SLE D) := (in_order m).*2.

Lemma in_order_strict {V} (l : list (Z * V)) :
  StronglySorted key_le l -> NoDup l.*1 -> StronglySorted (fun a b => a.1 < b.1) l.
Proof.
  induction 1 as [|a l Hs IH Hle]; intros Hd; [constructor|].
  rewrite fmap_cons in Hd. apply NoDup_cons in Hd as [Hn Hd].
  constructor; [by apply IH|]. rewrite Forall_forall in Hle |- *. intros b Hb.
  specialize (Hle _ Hb). unfold key_le in Hle.
  assert (a.1 <> b.1); [|lia]. intros He. apply Hn. rewrite He. by apply list_elem_of_fmap_2.
Qed.

Lemma in_order_item_lt {V} (m : gmap Z V) : StronglySorted (fun a b => a.1 < b.1) (in_order m).
Proof. apply in_order_strict; [apply in_order_sorted|apply in_order_NoDup]. Qed.

Lemma elem_of_sles m s : keys_ok m -> s ∈ sles_of m <-> m !! sle_key s = Some s.
Proof.
  intros Hm. unfold sles_of. rewrite list_elem_of_fmap. split.
  - intros ([k s'] & -> & Hin). apply elem_of_in_order in Hin. cbn. by rewrite (Hm _ _ Hin).
  - intros Hs. exists (sle_key s, s). split; [done|]. by apply elem_of_in_order.
Qed.

Lemma sles_sorted m : keys_ok m -> StronglySorted sle_lt (sles_of m).
Proof.
  intros Hm. unfold sles_of. pose proof (in_order_item_lt m) as Hs.
  assert (Hk : forall k s, (k, s) ∈ in_order m -> sle_key s = k) by (intros ? ? ?%elem_of_in_order; by apply Hm).
  induction Hs as [|[k s] l Hs IH Hlt]; [constructor|]. rewrite fmap_cons. constructor.
  - apply IH. intros k' s' Hin. apply Hk. by right.
  - apply Forall_forall. intros s' ([k' s''] & -> & Hin)%list_elem_of_fmap. unfold sle_lt.
    rewrite Forall_forall in Hlt. specialize (Hlt _ Hin). cbn in *.
    rewrite (Hk k s) by left. rewrite (Hk k' s'') by by right. done.
Qed.

Lemma filter_sorted {A} (R : A -> A -> Prop) (p : A -> bool) l :
  StronglySorted R l -> StronglySorted R (List.filter p l).
Proof.
  induction 1 as [|a l Hs IH HF]; cbn; [constructor|]. destruct (p a); [|done]. constructor; [done|].
  rewrite Forall_forall in HF |- *. intros b Hb. apply HF. rewrite list_elem_of_In in Hb |- *.
  by apply List.filter_In in Hb as [].
Qed.

Lemma elem_of_bfilter {A} (p : A -> bool) l a : a ∈ List.filter p l <-> a ∈ l /\ p a = true.
Proof. by rewrite !list_elem_of_In, List.filter_In. Qed.

Lemma raw_overlay_keys t m : keys_ok m -> raw_wf t m -> keys_ok (raw_overlay t m).
Proof.
  intros Hm Hwf k s. rewrite raw_overlay_lookup. destruct (raw_items t !! k) as [[a s']|] eqn:E; [|by apply Hm].
  destruct (Hwf _ _ E) as [Hk _]. unfold raw_shown, raw_erased. cbn in *. destruct a; [done|..]; by intros [= <-].
Qed.

(** The parts of the two ranges with keys in [p] are what the iterator merges. *)
Lemma ranges_ok (p : Z -> bool) t m :
  keys_ok m -> raw_wf t m ->
  iter_ok (List.filter (fun s => p (sle_key s)) (sles_of m))
          (List.filter (fun kv => p kv.1) (in_order (raw_items t))).
Proof.
  intros Hm Hwf. split.
  - by apply filter_sorted, sles_sorted.
  - apply filter_sorted, in_order_item_lt.
  - intros k a s [Hin _]%elem_of_bfilter. apply elem_of_in_order in Hin. by destruct (Hwf _ _ Hin).
  - intros k s [Hin Hp]%elem_of_bfilter. apply elem_of_in_order in Hin. destruct (Hwf _ _ Hin) as [_ [s0 Hs0]].
    cbn in *. pose proof (Hm _ _ Hs0) as Hk. exists s0. split; [|done]. apply elem_of_bfilter.
    rewrite Hk. split; [|done]. apply elem_of_sles; [done|]. by rewrite Hk.
Qed.

Lemma ranges_list (p : Z -> bool) t m s :
  keys_ok m -> raw_wf t m ->
  to_list (List.filter (fun s => p (sle_key s)) (sles_of m))
          (List.filter (fun kv => p kv.1) (in_order (raw_items t))) s <->
  s ∈ List.filter (fun s => p (sle_key s)) (sles_of (raw_overlay t m)).
Proof.
  intros Hm Hwf. rewrite elem_of_bfilter, elem_of_sles by by apply raw_overlay_keys.
  rewrite raw_overlay_lookup. unfold to_list.
  assert (Hkeys : forall k, k ∈ (List.filter (fun kv => p kv.1) (in_order (raw_items t))).*1 <->
                            is_Some (raw_items t !! k) /\ p k = true).
  { intros k. rewrite list_elem_of_fmap. split.
    - intros ([k' i] & -> & [Hin Hp]%elem_of_bfilter). apply elem_of_in_order in Hin. by eauto.
    - intros [[i Hi] Hp]. exists (k, i). split; [done|]. apply elem_of_bfilter. by rewrite elem_of_in_order. }
  rewrite Hkeys, elem_of_bfilter, elem_of_sles by done. split.
  - intros [(k & a & [Hin Hp]%elem_of_bfilter & Ha)|[[Hs Hp] Hn]].
    + apply elem_of_in_order in Hin. destruct (Hwf _ _ Hin) as [Hk _]. cbn in *. subst k. rewrite Hin.
      split; [|done]. unfold raw_shown, raw_erased. by destruct a.
    + split; [|done]. destruct (raw_items t !! sle_key s) eqn:E; [|done]. exfalso. apply Hn. by eauto.
  - intros [Hs Hp]. destruct (raw_items t !! sle_key s) as [[a s']|] eqn:E.
    + left. exists (sle_key s), a. unfold raw_shown, raw_erased in Hs. cbn in Hs.
      destruct a; [done|..]; injection Hs as ->; (split; [|done]); apply elem_of_bfilter;
        by rewrite elem_of_in_order.
    + right. split; [done|]. by intros [[? ?] _].
Qed.

Lemma iter_of_ranges (p : Z -> bool) t m :
  keys_ok m -> raw_wf t m ->
  let l0 := List.filter (fun s => p (sle_key s)) (sles_of m) in
  let l1 := List.filter (fun kv => p kv.1) (in_order (raw_items t)) in
  (it ← iter_make l0 l1; iter_run (S (length l0 + length l1)) it) =
  Some (List.filter (fun s => p (sle_key s)) (sles_of (raw_overlay t m))).
Proof.
  intros Hm Hwf l0 l1. pose proof (ranges_ok p t m Hm Hwf) as Hok. fold l0 l1 in Hok.
  destruct (iter_skip_spec _ _ Hok) as (l0' & l1' & Hsk & Hok' & Hn & Hlen & Hiff).
  assert (Hmk : iter_make l0 l1 = Some (l0', l1')) by (unfold iter_make; destruct l1; [by rewrite <-Hsk; destruct l0|done]).
  rewrite Hmk. cbn [mbind option_bind].
  destruct (iter_run_spec (S (length l0 + length l1)) l0' l1') as (out & -> & Hs & Hout); [done|done|lia|].
  f_equal. apply sle_sorted_unique; [done| |].
  - by apply filter_sorted, sles_sorted, raw_overlay_keys.
  - intros s. rewrite Hout, <-Hiff. by apply ranges_list.
Qed.

(** Iterating an open view. Over a base listing the entries [m] in key
    order, and a buffer that fits it, the merging iterator never dereferences a
    null entry, comes to its end, and lists exactly the entries the view shows,
    each once and in ascending key order; started at an upper bound it lists those
    after it. *)
Theorem sles_lists_view t m key :
  keys_ok m -> raw_wf t m ->
  raw_sles t (sles_of m) = Some (sles_of (raw_overlay t m)) /\
  raw_sles_upper_bound t (sles_of m) key =
    Some (List.filter (fun s => key <? sle_key s) (sles_of (raw_overlay t m))).
Proof.
  intros Hm Hwf. split.
  - pose proof (iter_of_ranges (fun _ => true) t m Hm Hwf) as H. cbn zeta in H.
    rewrite !forallb_filter_id in H by (apply forallb_forall; done). exact H.
  - exact (iter_of_ranges (fun k => key <? k) t m Hm Hwf).
Qed.
End Listing.

(** ** Witnesses *)

Definition wsle (k d : Z) : SLE Z := mkSLE 97 k d.
Definition wledger : Ledger Z := mkLedger {[ 1 := wsle 1 10; 4 := wsle 4 40; 9 := wsle 9 90 ]} 1000.
Definition wtable : RawStateTable Z :=
  mkRaw {[ 1 := (Raw_erase, wsle 1 10); 6 := (Raw_insert, wsle 6 60); 9 := (Raw_replace, wsle 9 91) ]} 12.

Lemma openview_reads_witness :
  rv_succ (openview (ledger_view wledger) wtable) 0 None = Some 4 /\
  ReadViewOf (openview (ledger_view wledger) wtable) (raw_overlay wtable (stateMap wledger)).
Proof.
  split; [by vm_compute|]. apply openview_reads. apply ledger_view_of. by vm_compute.
Defined.

Lemma openview_commit_witness :
  exists t, raw_run [op_rawErase (wsle 1 10); op_rawInsert (wsle 6 60); op_rawReplace (wsle 9 91);
                     op_rawDestroySFC 12; op_rawErase (wsle 6 60)] raw_empty = Ok t /\
    raw_apply t wledger = Ok (mkLedger {[ 4 := wsle 4 40; 9 := wsle 9 91 ]} 988).
Proof. apply openview_commit. by vm_compute. Defined.

Lemma wtable_wf : raw_wf wtable (stateMap wledger).
Proof.
  apply map_Forall_insert_2; [by split; [|eexists]|]. apply map_Forall_insert_2; [done|].
  apply map_Forall_singleton. split; [done|by eexists].
Qed.

Lemma wledger_keys : keys_ok (stateMap wledger).
Proof.
  intros k s Hs. unfold wledger in Hs. cbn in Hs.
  repeat (apply lookup_insert_Some in Hs as [[<- <-]|[_ Hs]]; [done|]).
  by apply lookup_singleton_Some in Hs as [<- <-].
Qed.

Lemma sles_lists_view_witness :
  raw_sles wtable (sles_of (stateMap wledger)) = Some [wsle 4 40; wsle 6 60; wsle 9 91] /\
  raw_sles wtable (sles_of (stateMap wledger)) = Some (sles_of (raw_overlay wtable (stateMap wledger))).
Proof.
  split; [by vm_compute|]. apply (sles_lists_view wtable (stateMap wledger) 4 wledger_keys wtable_wf).
Defined.
