(* ===== verification/ApplyStateTable.v ===== *)
(** * The transaction sandbox

    Models ledger/impl/ApplyStateTable.cpp, the buffer behind every
    [ApplyView]: a transactor peeks at entries, changes the objects it was
    handed in place, and tells the table with [update]. The entries are shared
    objects ([std::shared_ptr<SLE>]), so the table holds pointers into a heap
    and a caller's write through a pointer is visible to the table. The theorems
    show that a transactor's run over the table is a run over the finite map the
    base presents, and that applying the table to a target makes exactly those
    changes. *)

From stdpp Require Import sorting.
From S2P Require Import Prelude View RawStateTable.

Inductive Action := Act_cache | Act_erase | Act_insert | Act_modify.

(** A [std::shared_ptr<SLE>]. *)
Abbreviation ptr := nat.

Record ApplyStateTable (D : Type) := mkApply {
  as_items : gmap Z (Action * ptr);
  as_heap : gmap ptr (SLE D);
  as_dropsDestroyed : Z
}.
Arguments mkApply {D}. Arguments as_items {D}. Arguments as_heap {D}. Arguments as_dropsDestroyed {D}.

Definition as_erased (item : Action * ptr) : bool :=
  match item.1 with Act_erase => true | _ => false end.

Section Ops.
Context {D : Type}.
Implicit Types (t : ApplyStateTable D) (base : ReadView D) (sle : SLE D) (p : ptr).

Definition as_empty : ApplyStateTable D := mkApply ∅ ∅ 0.

Definition as_set t key item : ApplyStateTable D :=
  mkApply (<[key := item]> (as_items t)) (as_heap t) (as_dropsDestroyed t).

Definition as_unset t key : ApplyStateTable D :=
  mkApply (delete key (as_items t)) (as_heap t) (as_dropsDestroyed t).

(** [*p]; a pointer with no object is a null dereference. *)
Definition deref p t : res (SLE D) :=
  match as_heap t !! p with Some sle => Ok sle | None => Throw (logic_error "null pointer") end.

(** [*p = sle]: the caller changes the object it was handed. *)
Definition assign p sle t : ApplyStateTable D :=
  mkApply (as_items t) (<[p := sle]> (as_heap t)) (as_dropsDestroyed t).

(** [std::make_shared<SLE> (sle)]. *)
Definition make_shared sle t : ptr * ApplyStateTable D :=
  let p := fresh (dom (as_heap t)) in (p, assign p sle t).

Definition as_apply_item {T} `{!RawView D T} (heap : gmap ptr (SLE D)) (item : Z * (Action * ptr)) (to : T)
    : res T :=
  match heap !! item.2.2 with
  | None => Throw (logic_error "null pointer")
  | Some sle =>
      match item.2.1 with
      | Act_cache => Ok to
      | Act_erase => rawErase sle to
      | Act_insert => rawInsert sle to
      | Act_modify => rawReplace sle to
      end
  end.

Definition as_apply {T} `{!RawView D T} t (to : T) : res T :=
  for_each (as_apply_item (as_heap t)) (in_order (as_items t)) (rawDestroySFC (as_dropsDestroyed t) to).

Definition as_size t : nat :=
  length (List.filter (fun item => match item.2.1 with Act_cache => false | _ => true end)
            (in_order (as_items t))).

(** The calls [visit] makes: key, whether the entry is deleted, the entry in [to], the entry here. *)
Definition as_visit t (to : ReadView D) : list (Z * bool * option (SLE D) * option (SLE D)) :=
  omap (fun item : Z * (Action * ptr) =>
    match item.2.1 with
    | Act_erase => Some (item.1, true, rv_read to (unchecked item.1), as_heap t !! item.2.2)
    | Act_insert => Some (item.1, false, None, as_heap t !! item.2.2)
    | Act_modify => Some (item.1, false, rv_read to (unchecked item.1), as_heap t !! item.2.2)
    | Act_cache => None
    end) (in_order (as_items t)).

Definition as_exists t base (k : Keylet) : bool :=
  match as_items t !! kl_key k with
  | None => rv_exists base k
  | Some item =>
      if as_erased item then false else
      match as_heap t !! item.2 with Some sle => check k sle | None => false end
  end.

Definition as_succ t base (key : Z) (last : option Z) : option Z :=
  layer_succ as_erased base (as_items t) key last.

Definition as_read t base (k : Keylet) : option (SLE D) :=
  match as_items t !! kl_key k with
  | None => rv_read base k
  | Some item =>
      if as_erased item then None else
      match as_heap t !! item.2 with
      | Some sle => if check k sle then Some sle else None
      | None => None
      end
  end.

Definition as_peek t base (k : Keylet) : option ptr * ApplyStateTable D :=
  match as_items t !! kl_key k with
  | None =>
      match rv_read base k with
      | None => (None, t)
      | Some sle =>
          let (p, t) := make_shared sle t in
          (Some p, as_set t (sle_key sle) (Act_cache, p))
      end
  | Some item =>
      if as_erased item then (None, t) else
      match as_heap t !! item.2 with
      | Some sle => if check k sle then (Some item.2, t) else (None, t)
      | None => (None, t)
      end
  end.

Definition as_erase p t : res (ApplyStateTable D) :=
  sle ← deref p t;
  match as_items t !! sle_key sle with
  | None => Throw (logic_error "ApplyStateTable::erase: missing key")
  | Some (a, q) =>
      if negb (Nat.eqb q p) then Throw (logic_error "ApplyStateTable::erase: unknown SLE") else
      match a with
      | Act_erase => Throw (logic_error "ApplyStateTable::erase: double erase")
      | Act_insert => Ok (as_unset t (sle_key sle))
      | _ => Ok (as_set t (sle_key sle) (Act_erase, q))
      end
  end.

Definition as_rawErase p t : res (ApplyStateTable D) :=
  sle ← deref p t;
  match as_items t !! sle_key sle with
  | None => Ok (as_set t (sle_key sle) (Act_erase, p))
  | Some (Act_erase, _) => Throw (logic_error "ApplyStateTable::rawErase: double erase")
  | Some (Act_insert, _) => Ok (as_unset t (sle_key sle))
  | Some (_, _) => Ok (as_set t (sle_key sle) (Act_erase, p))
  end.

Definition as_insert p t : res (ApplyStateTable D) :=
  sle ← deref p t;
  match as_items t !! sle_key sle with
  | None => Ok (as_set t (sle_key sle) (Act_insert, p))
  | Some (Act_cache, _) => Throw (logic_error "ApplyStateTable::insert: already cached")
  | Some (Act_insert, _) => Throw (logic_error "ApplyStateTable::insert: already inserted")
  | Some (Act_modify, _) => Throw (logic_error "ApplyStateTable::insert: already modified")
  | Some (Act_erase, _) => Ok (as_set t (sle_key sle) (Act_modify, p))
  end.

Definition as_replace p t : res (ApplyStateTable D) :=
  sle ← deref p t;
  match as_items t !! sle_key sle with
  | None => Ok (as_set t (sle_key sle) (Act_modify, p))
  | Some (Act_erase, _) => Throw (logic_error "ApplyStateTable::replace: already erased")
  | Some (Act_cache, _) => Ok (as_set t (sle_key sle) (Act_modify, p))
  | Some (a, _) => Ok (as_set t (sle_key sle) (a, p))
  end.

Definition as_update p t : res (ApplyStateTable D) :=
  sle ← deref p t;
  match as_items t !! sle_key sle with
  | None => Throw (logic_error "ApplyStateTable::update: missing key")
  | Some (a, q) =>
      if negb (Nat.eqb q p) then Throw (logic_error "ApplyStateTable::update: unknown SLE") else
      match a with
      | Act_erase => Throw (logic_error "ApplyStateTable::update: erased")
      | Act_cache => Ok (as_set t (sle_key sle) (Act_modify, q))
      | _ => Ok t
      end
  end.

Definition as_destroySFC (fee : Z) t : ApplyStateTable D :=
  mkApply (as_items t) (as_heap t) (as_dropsDestroyed t + fee).

Definition applyview (base : ReadView D) t : ReadView D :=
  mkReadView (as_exists t base) (as_read t base) (as_succ t base).

(** Another table flushed into this one hands over objects of its own. *)
Definition with_object (f : ptr -> ApplyStateTable D -> res (ApplyStateTable D)) sle t :=
  let (p, t) := make_shared sle t in f p t.

#[export] Instance applyview_raw : RawView D (ApplyStateTable D) := {
  rawErase := with_object as_rawErase;
  rawInsert := with_object as_insert;
  rawReplace := with_object as_replace;
  rawDestroySFC := as_destroySFC
}.

(** ** A transactor's steps

    [view.peek (k)], in-place change and [view.update], [view.insert], and
    [view.erase] of a peeked entry, as the transactors use them. A missing entry
    is left alone. *)

Inductive ViewOp :=
| vo_peek (k : Keylet)
| vo_modify (k : Keylet) (f : D -> D)
| vo_insert (s : SLE D)
| vo_erase (k : Keylet)
| vo_destroySFC (fee : Z).

Definition vo_step base (op : ViewOp) t : res (ApplyStateTable D) :=
  match op with
  | vo_peek k => Ok (snd (as_peek t base k))
  | vo_modify k f =>
      let (p, t) := as_peek t base k in
      match p with
      | None => Ok t
      | Some p =>
          sle ← deref p t;
          as_update p (assign p (mkSLE (sle_type sle) (sle_key sle) (f (sle_data sle))) t)
      end
  | vo_insert s => with_object as_insert s t
  | vo_erase k =>
      let (p, t) := as_peek t base k in
      match p with None => Ok t | Some p => as_erase p t end
  | vo_destroySFC fee => Ok (as_destroySFC fee t)
  end.

Definition vo_run base : list ViewOp -> ApplyStateTable D -> res (ApplyStateTable D) :=
  for_each (vo_step base).

(** The same steps on a finite map and a count of destroyed drops; inserting a
    key that is present is not allowed. *)
Definition vo_spec (op : ViewOp) (md : gmap Z (SLE D) * Z) : option (gmap Z (SLE D) * Z) :=
  let (m, d) := md in
  match op with
  | vo_peek k => Some (m, d)
  | vo_modify k f =>
      match m !! kl_key k with
      | Some s => if check k s
                  then Some (<[kl_key k := mkSLE (sle_type s) (sle_key s) (f (sle_data s))]> m, d)
                  else Some (m, d)
      | None => Some (m, d)
      end
  | vo_insert s => if decide (is_Some (m !! sle_key s)) then None else Some (<[sle_key s := s]> m, d)
  | vo_erase k =>
      match m !! kl_key k with
      | Some s => if check k s then Some (delete (kl_key k) m, d) else Some (m, d)
      | None => Some (m, d)
      end
  | vo_destroySFC fee => Some (m, d + fee)
  end.

Fixpoint vo_spec_run (ops : list ViewOp) (md : gmap Z (SLE D) * Z) : option (gmap Z (SLE D) * Z) :=
  match ops with
  | [] => Some md
  | op :: ops => md' ← vo_spec op md; vo_spec_run ops md'
  end.
End Ops.
Arguments ViewOp : clear implicits.

(** ** What the table shows, and when it fits its base *)

Definition as_shown {D} (heap : gmap ptr (SLE D)) (item : Action * ptr) : option (SLE D) :=
  if as_erased item then None else heap !! item.2.

Definition as_overlay {D} (t : ApplyStateTable D) (m : gmap Z (SLE D)) : gmap Z (SLE D) :=
  overlay (as_items t) (as_shown (as_heap t)) m.

(** An item points to an object of its key; insertions are of keys the base
    lacks, the others of keys it has, and an entry only cached is as in the base. *)
Definition as_item_wf {D} (heap : gmap ptr (SLE D)) (m : gmap Z (SLE D)) (k : Z) (item : Action * ptr) : Prop :=
  exists s, heap !! item.2 = Some s /\ sle_key s = k /\
    match item.1 with
    | Act_insert => m !! k = None
    | Act_cache => m !! k = Some s
    | _ => is_Some (m !! k)
    end.

Definition as_wf {D} (t : ApplyStateTable D) (m : gmap Z (SLE D)) : Prop :=
  map_Forall (as_item_wf (as_heap t) m) (as_items t).

(** The table over a base holding [m] shows [mm] and has destroyed [d] drops. *)
Definition as_denotes {D} (m : gmap Z (SLE D)) (t : ApplyStateTable D) (mm : gmap Z (SLE D)) (d : Z) : Prop :=
  as_wf t m /\ as_overlay t m = mm /\ as_dropsDestroyed t = d.

Section Facts.
Context {D : Type}.
Implicit Types (t : ApplyStateTable D) (m mm : gmap Z (SLE D)) (s : SLE D) (p : ptr).

Lemma as_overlay_lookup t m k :
  as_overlay t m !! k =
  match as_items t !! k with Some item => as_shown (as_heap t) item | None => m !! k end.
Proof. apply overlay_lookup. Qed.

Lemma as_shown_None t m k item :
  as_wf t m -> as_items t !! k = Some item ->
  as_erased item = true <-> as_shown (as_heap t) item = None.
Proof.
  intros Hwf Hi. destruct (Hwf _ _ Hi) as (s & Hs & _). unfold as_shown. rewrite Hs.
  by destruct (as_erased item).
Qed.

Lemma as_overlay_set t m k item :
  as_overlay (as_set t k item) m = partial_alter (fun _ => as_shown (as_heap t) item) k (as_overlay t m).
Proof.
  apply map_eq. intros k'. rewrite as_overlay_lookup. cbn. destruct (decide (k = k')) as [->|Hne].
  - by rewrite lookup_insert_eq, lookup_partial_alter_eq.
  - by rewrite lookup_insert_ne, lookup_partial_alter_ne, as_overlay_lookup.
Qed.

(** Setting an item: the table still fits, and shows the item's object. *)
Lemma as_set_denotes m t mm d k item :
  as_denotes m t mm d -> as_item_wf (as_heap t) m k item ->
  as_denotes m (as_set t k item) (partial_alter (fun _ => as_shown (as_heap t) item) k mm) d.
Proof.
  intros (Hwf & <- & Hd) Hi. split; [by apply map_Forall_insert_2|]. split; [apply as_overlay_set|done].
Qed.

(** Dropping an inserted item uncovers the base, which lacks the key. *)
Lemma as_unset_denotes m t mm d k :
  as_denotes m t mm d -> m !! k = None -> as_denotes m (as_unset t k) (delete k mm) d.
Proof.
  intros (Hwf & <- & Hd) Hk. split; [by apply map_Forall_delete|]. split; [|done].
  apply map_eq. intros k'. rewrite as_overlay_lookup. cbn. destruct (decide (k = k')) as [->|Hne].
  - by rewrite !lookup_delete_eq.
  - by rewrite !lookup_delete_ne, as_overlay_lookup.
Qed.

(** A write to an object no item but [k]'s points to. *)
Lemma assign_overlay t m p s k :
  (forall k' a, as_items t !! k' = Some (a, p) -> k' = k) ->
  forall k', k' <> k -> as_overlay (assign p s t) m !! k' = as_overlay t m !! k'.
Proof.
  intros Hp k' Hne. rewrite !as_overlay_lookup. cbn. destruct (as_items t !! k') as [[a q]|] eqn:E; [|done].
  unfold as_shown. cbn. destruct (decide (p = q)) as [->|Hpq]; [by rewrite (Hp _ _ E) in Hne|].
  by rewrite lookup_insert_ne.
Qed.

Lemma assign_wf_other t m p s k item :
  as_wf t m -> as_items t !! k = Some item -> item.2 <> p -> as_item_wf (as_heap (assign p s t)) m k item.
Proof.
  intros Hwf Hi Hne. destruct (Hwf _ _ Hi) as (s' & Hs & Hrest). exists s'. cbn.
  by rewrite lookup_insert_ne.
Qed.

Lemma make_shared_spec m t mm d s p t' :
  as_denotes m t mm d -> make_shared s t = (p, t') ->
  as_denotes m t' mm d /\ as_heap t' !! p = Some s /\ as_items t' = as_items t.
Proof.
  intros (Hwf & Ho & Hd) [= <- <-]. set (p := fresh (dom (as_heap t))).
  assert (Hp : as_heap t !! p = None) by (apply not_elem_of_dom, is_fresh).
  assert (Hne : forall k item, as_items t !! k = Some item -> item.2 <> p).
  { intros k item Hi Heq. destruct (Hwf _ _ Hi) as (s' & Hs & _). congruence. }
  split; [|by cbn; rewrite lookup_insert_eq]. split; [|split; [|done]].
  - intros k item Hi. apply assign_wf_other; [done..|by eapply Hne].
  - rewrite <-Ho. apply map_eq. intros k. rewrite !as_overlay_lookup. cbn.
    destruct (as_items t !! k) as [item|] eqn:E; [|done]. unfold as_shown.
    by rewrite lookup_insert_ne by (intros Heq; by eapply Hne).
Qed.

(** A pointer held for [k] is held for no other key. *)
Lemma held_once t m k a p :
  as_wf t m -> as_items t !! k = Some (a, p) ->
  forall k' a', as_items t !! k' = Some (a', p) -> k' = k.
Proof.
  intros Hwf Hk k' a' Hk'. destruct (Hwf _ _ Hk) as (s & Hs & <- & _), (Hwf _ _ Hk') as (s' & Hs' & <- & _).
  cbn in *. congruence.
Qed.

Lemma applyview_of (base : ReadView D) m t :
  ReadViewOf base m -> as_wf t m -> ReadViewOf (applyview base t) (as_overlay t m).
Proof.
  intros Hb Hwf. split.
  - intros k. cbn. unfold as_read. rewrite as_overlay_lookup.
    destruct (as_items t !! kl_key k) as [item|]; [|apply rv_read_spec].
    unfold as_shown. destruct (as_erased item); [done|]. by destruct (as_heap t !! item.2).
  - intros k. cbn. unfold as_exists. rewrite as_overlay_lookup.
    destruct (as_items t !! kl_key k) as [item|]; [|apply rv_exists_spec].
    unfold as_shown. destruct (as_erased item); [done|]. destruct (as_heap t !! item.2) as [s|]; [|done].
    intros H. rewrite (H _ eq_refl). by rewrite bool_decide_true.
  - intros key last. apply layer_succ_spec; [done|]. intros k v Hv. by eapply as_shown_None.
Qed.

(** What [peek] hands out: the visible entry if the keylet fits it, and the pointer the table holds for it. *)
Lemma as_peek_spec (base : ReadView D) m t mm d k r t' :
  ReadViewOf base m -> keys_ok m -> as_denotes m t mm d -> as_peek t base k = (r, t') ->
  as_denotes m t' mm d /\
  match mm !! kl_key k with
  | Some s => if check k s
              then exists p a, r = Some p /\ as_heap t' !! p = Some s /\
                     as_items t' !! kl_key k = Some (a, p) /\ a <> Act_erase
              else r = None
  | None => r = None
  end.
Proof.
  intros Hb Hm Hd. pose proof Hd as (Hwf & Ho & _). unfold as_peek. rewrite <-Ho, as_overlay_lookup, Ho.
  destruct (as_items t !! kl_key k) as [[a p]|] eqn:E.
  - unfold as_shown. cbn. destruct (Hwf _ _ E) as (s & Hs & Hk & _). cbn in Hs.
    destruct (as_erased (a, p)) eqn:Ee; [by intros [= <- <-]|]. rewrite Hs.
    destruct (check k s); intros [= <- <-]; [|done]. split; [done|]. exists p, a. repeat split; try done.
    by intros ->.
  - rewrite rv_read_spec. destruct (m !! kl_key k) as [s|] eqn:Em; cbn [mbind option_bind]; [|by intros [= <- <-]].
    destruct (check k s) eqn:Ec; [|by intros [= <- <-]].
    destruct (make_shared s t) as [p t1] eqn:Ems. intros [= <- <-].
    destruct (make_shared_spec _ _ _ _ _ _ _ Hd Ems) as (Hd1 & Hp & Hi). pose proof (Hm _ _ Em) as Hk.
    split.
    + replace mm with (partial_alter (fun _ => as_shown (as_heap t1) (Act_cache, p)) (sle_key s) mm).
      { apply as_set_denotes; [done|]. exists s. by rewrite Hk. }
      apply partial_alter_id. unfold as_shown. cbn. rewrite Hp, <-Ho, as_overlay_lookup, Hk, E. done.
    + exists p, Act_cache. cbn. rewrite Hk, lookup_insert_eq. done.
Qed.
End Facts.

(** ** Flushing the table *)

Section Flushing.
Context {D : Type}.
Implicit Types (t : ApplyStateTable D) (m mm : gmap Z (SLE D)) (s : SLE D) (p : ptr).

Lemma as_apply_item_writes {T} `{!RawView D T} (denotes : T -> gmap Z (SLE D) -> Z -> Prop)
    `{!RawViewLaws D T denotes} t m :
  as_wf t m -> writes denotes (as_items t) (as_shown (as_heap t)) m (as_apply_item (as_heap t)).
Proof.
  intros Hwf k [a p] to mm d Hk Hmm Hd. destruct (Hwf _ _ Hk) as (s & Hs & <- & Ha). cbn in *.
  unfold as_apply_item, as_shown. cbn. rewrite Hs. destruct a; cbn in *; rewrite <-Hmm in Ha.
  - exists to. split; [done|]. by rewrite partial_alter_id.
  - by apply rawErase_spec.
  - by apply rawInsert_spec.
  - by apply rawReplace_spec.
Qed.

Lemma as_apply_spec {T} `{!RawView D T} (denotes : T -> gmap Z (SLE D) -> Z -> Prop)
    `{!RawViewLaws D T denotes} t m mm (to : T) d d' :
  as_denotes m t mm d' -> denotes to m d ->
  exists to', as_apply t to = Ok to' /\ denotes to' mm (d + d').
Proof.
  intros (Hwf & <- & <-) Hto. unfold as_apply. apply flush_spec.
  - by apply as_apply_item_writes.
  - by apply rawDestroySFC_spec.
Qed.

(** The table is itself a target other tables can be flushed into. *)
#[export] Instance applyview_laws m : RawViewLaws D (ApplyStateTable D) (as_denotes m).
Proof.
  split; intros t mm d s Ht; cbn [rawErase rawInsert rawReplace rawDestroySFC applyview_raw].
  4: { destruct Ht as (Hwf & <- & <-). done. }
  all: intros Hs; unfold with_object; destruct (make_shared s t) as [p t1] eqn:Ems;
    destruct (make_shared_spec _ _ _ _ _ _ _ Ht Ems) as (Ht1 & Hp & Hi); pose proof Ht1 as (Hwf & Ho & _);
    rewrite <-Ho, as_overlay_lookup in Hs.
  - unfold as_rawErase, deref. rewrite Hp. cbn.
    destruct (as_items t1 !! sle_key s) as [[a q]|] eqn:E.
    + destruct (Hwf _ _ E) as (s0 & Hs0 & Hk & Ha). destruct a; cbn in *.
      * eexists. split; [done|]. apply (as_set_denotes _ _ _ _ _ (Act_erase, p)); [done|].
        exists s. split_and!; [done|done|by eexists].
      * by destruct Hs.
      * eexists. split; [done|]. by apply as_unset_denotes.
      * eexists. split; [done|]. apply (as_set_denotes _ _ _ _ _ (Act_erase, p)); [done|]. by exists s.
    + eexists. split; [done|]. apply (as_set_denotes _ _ _ _ _ (Act_erase, p)); [done|]. by exists s.
  - unfold as_insert, deref. rewrite Hp. cbn.
    assert (Hshow : forall a, a <> Act_erase -> as_shown (as_heap t1) (a, p) = Some s).
    { intros a Ha. unfold as_shown. by destruct a. }
    destruct (as_items t1 !! sle_key s) as [[a q]|] eqn:E.
    + destruct (Hwf _ _ E) as (s0 & Hs0 & Hk & Ha). destruct a; cbn in *; unfold as_shown in Hs; cbn in Hs;
        [congruence| |congruence..].
      eexists. split; [done|]. unfold insert, map_insert. rewrite <-(Hshow Act_modify) by done.
      apply as_set_denotes; [done|]. by exists s.
    + eexists. split; [done|]. unfold insert, map_insert. rewrite <-(Hshow Act_insert) by done.
      apply as_set_denotes; [done|]. by exists s.
  - unfold as_replace, deref. rewrite Hp. cbn.
    assert (Hshow : forall a, a <> Act_erase -> as_shown (as_heap t1) (a, p) = Some s).
    { intros a Ha. unfold as_shown. by destruct a. }
    destruct (as_items t1 !! sle_key s) as [[a q]|] eqn:E.
    + destruct (Hwf _ _ E) as (s0 & Hs0 & Hk & Ha). destruct a; cbn in *; unfold as_shown in Hs; cbn in Hs;
        [|by destruct Hs|..].
      all: eexists; (split; [done|]); unfold insert, map_insert.
      * rewrite <-(Hshow Act_modify) by done. apply as_set_denotes; [done|]. exists s. split_and!; [done|done|by eexists].
      * rewrite <-(Hshow Act_insert) by done. apply as_set_denotes; [done|]. by exists s.
      * rewrite <-(Hshow Act_modify) by done. apply as_set_denotes; [done|]. by exists s.
    + eexists. split; [done|]. unfold insert, map_insert. rewrite <-(Hshow Act_modify) by done.
      apply as_set_denotes; [done|]. by exists s.
Qed.
End Flushing.

(** ** A transactor's run *)

Section Runs.
Context {D : Type} (base : ReadView D) (m : gmap Z (SLE D)) `{!ReadViewOf base m} (Hm : keys_ok m).
Implicit Types (t : ApplyStateTable D) (mm : gmap Z (SLE D)) (s : SLE D) (p : ptr).

(** The in-place change of a peeked entry, reported with [update]. *)
Lemma modify_denotes t mm d k a p s s' :
  as_denotes m t mm d -> as_items t !! k = Some (a, p) -> a <> Act_erase -> as_heap t !! p = Some s ->
  sle_key s' = k ->
  exists t', as_update p (assign p s' t) = Ok t' /\ as_denotes m t' (<[k := s']> mm) d.
Proof.
  intros (Hwf & <- & Hd) Hk Ha Hp Hs'. unfold as_update, deref. cbn. rewrite lookup_insert_eq. cbn.
  rewrite Hs'. rewrite Hk, Nat.eqb_refl. cbn.
  set (a' := match a with Act_cache => Act_modify | _ => a end).
  assert (Hitem : as_item_wf (<[p := s']> (as_heap t)) m k (a', p)).
  { destruct (Hwf _ _ Hk) as (s0 & Hs0 & Hk0 & Hrest). exists s'. cbn. rewrite lookup_insert_eq.
    split; [done|]. split; [done|]. unfold a'. cbn in Hrest. by destruct a. }
  assert (Hden : as_denotes m (as_set (assign p s' t) k (a', p)) (<[k := s']> (as_overlay t m)) d).
  { split; [|split; [|done]].
    - intros k' item. cbn. destruct (decide (k = k')) as [<-|Hne].
      + rewrite lookup_insert_eq. intros [= <-]. exact Hitem.
      + rewrite lookup_insert_ne by done. intros Hi. eapply assign_wf_other; [done..|].
        destruct item as [a1 q]. cbn. intros ->. apply Hne. symmetry. by eapply held_once.
    - rewrite as_overlay_set. apply map_eq. intros k'. destruct (decide (k = k')) as [<-|Hne].
      + rewrite lookup_insert_eq, lookup_partial_alter_eq. unfold as_shown. cbn.
        rewrite lookup_insert_eq. unfold a'. by destruct a.
      + rewrite lookup_insert_ne, lookup_partial_alter_ne by done.
        apply (assign_overlay _ _ _ _ k); [|done]. by eapply held_once. }
  exists (as_set (assign p s' t) k (a', p)). split; [|done].
  assert (Hnoop : a' = a -> as_set (assign p s' t) k (a', p) = assign p s' t).
  { intros ->. unfold as_set, assign. cbn. f_equal. by apply insert_id. }
  destruct a; try done; by rewrite <-Hnoop at 1.
Qed.

(** Erasing a peeked entry. *)
Lemma erase_denotes t mm d k a p s :
  as_denotes m t mm d -> as_items t !! k = Some (a, p) -> a <> Act_erase -> as_heap t !! p = Some s ->
  exists t', as_erase p t = Ok t' /\ as_denotes m t' (delete k mm) d.
Proof.
  intros Hd Hk Ha Hp. pose proof Hd as (Hwf & _ & _).
  destruct (Hwf _ _ Hk) as (s0 & Hs0 & Hk0 & Hrest). cbn in *.
  assert (s0 = s) as -> by congruence. unfold as_erase, deref. rewrite Hp. cbn. rewrite Hk0, Hk, Nat.eqb_refl. cbn.
  destruct a; [|done|..].
  - eexists. split; [done|]. apply (as_set_denotes _ _ _ _ _ (Act_erase, p)); [done|]. exists s.
    split_and!; [done|done|by eexists].
  - eexists. split; [done|]. by apply as_unset_denotes.
  - eexists. split; [done|]. apply (as_set_denotes _ _ _ _ _ (Act_erase, p)); [done|]. by exists s.
Qed.

Lemma vo_step_sim (op : ViewOp D) t mm d mm' d' :
  as_denotes m t mm d -> vo_spec op (mm, d) = Some (mm', d') ->
  exists t', vo_step base op t = Ok t' /\ as_denotes m t' mm' d'.
Proof.
  intros Hd. destruct op as [k|k f|s|k|fee]; cbn [vo_spec vo_step].
  - intros [= <- <-]. destruct (as_peek t base k) as [r t1] eqn:E.
    destruct (as_peek_spec _ _ _ _ _ _ _ _ _ Hm Hd E) as [H1 _]. by exists t1.
  - destruct (as_peek t base k) as [r t1] eqn:E.
    destruct (as_peek_spec _ _ _ _ _ _ _ _ _ Hm Hd E) as [H1 H2].
    destruct (mm !! kl_key k) as [s|] eqn:Emm; [destruct (check k s)|].
    2,3: intros [= <- <-]; subst r; by exists t1.
    intros [= <- <-]. destruct H2 as (p & a & -> & Hp & Hi & Ha). unfold deref. rewrite Hp. cbn.
    eapply modify_denotes; [done..|]. cbn. pose proof H1 as (Hwf & _ & _).
    destruct (Hwf _ _ Hi) as (s0 & Hs0 & Hk & _). cbn in Hs0. congruence.
  - destruct (decide (is_Some (mm !! sle_key s))) as [|Hn]; [done|]. intros [= <- <-].
    apply eq_None_not_Some in Hn. exact (rawInsert_spec (RawViewLaws := applyview_laws m) _ _ _ s Hd Hn).
  - destruct (as_peek t base k) as [r t1] eqn:E.
    destruct (as_peek_spec _ _ _ _ _ _ _ _ _ Hm Hd E) as [H1 H2].
    destruct (mm !! kl_key k) as [s|] eqn:Emm; [destruct (check k s)|].
    2,3: intros [= <- <-]; subst r; by exists t1.
    intros [= <- <-]. destruct H2 as (p & a & -> & Hp & Hi & Ha). by eapply erase_denotes.
  - intros [= <- <-]. exists (as_destroySFC fee t). split; [done|]. exact (rawDestroySFC_spec (RawViewLaws := applyview_laws m) _ _ _ fee Hd).
Qed.

Lemma vo_run_sim ops t mm d mm' d' :
  as_denotes m t mm d -> vo_spec_run ops (mm, d) = Some (mm', d') ->
  exists t', vo_run base ops t = Ok t' /\ as_denotes m t' mm' d'.
Proof.
  revert t mm d. induction ops as [|op ops IH]; intros t mm d Hd; cbn [vo_spec_run].
  - intros [= <- <-]. by exists t.
  - intros ([mm1 d1] & H1 & H2)%bind_Some.
    destruct (vo_step_sim op t mm d mm1 d1 Hd H1) as (t1 & Hs & Hd1).
    destruct (IH t1 mm1 d1 Hd1 H2) as (t2 & Hr & Hd2). exists t2. split; [|done].
    unfold vo_run in *. cbn. by rewrite Hs.
Qed.

Lemma as_empty_denotes : as_denotes m as_empty m 0.
Proof.
  split; [apply map_Forall_empty|]. split; [|done]. apply map_eq. intros k.
  rewrite as_overlay_lookup. cbn. by rewrite lookup_empty.
Qed.
End Runs.

Section Claims.
Context {D : Type}.

(** C20. A transactor's view behaves as the ledger's map. Take any sequence of
    peeks, in-place changes reported with [update], insertions of absent keys,
    erasures and fee burns, and run it on a fresh [ApplyStateTable] over a base
    presenting [m]. No step fails; the view then presents exactly the map that
    running the sequence on [m] gives; and applying the table to any target that
    holds [m] - a ledger, an open view, another sandbox - leaves the target with
    that map and with the drops destroyed. *)
Theorem sandbox_commit {T} `{!RawView D T} (denotes : T -> gmap Z (SLE D) -> Z -> Prop)
    `{!RawViewLaws D T denotes} (base : ReadView D) (m m' : gmap Z (SLE D)) (ops : list (ViewOp D)) d' to d :
  ReadViewOf base m -> keys_ok m -> vo_spec_run ops (m, 0) = Some (m', d') -> denotes to m d ->
  exists t, vo_run base ops as_empty = Ok t /\
    ReadViewOf (applyview base t) m' /\
    exists to', as_apply t to = Ok to' /\ denotes to' m' (d + d').
Proof.
  intros Hb Hm Hspec Hto.
  destruct (vo_run_sim base m Hm ops as_empty m 0 m' d') as (t & Hr & Ht); [apply as_empty_denotes|done|].
  exists t. split; [done|]. split; [|by eapply as_apply_spec].
  pose proof Ht as (Hwf & <- & _). by apply applyview_of.
Qed.

(** Every change is visited. Whatever steps a transactor ran, if the entry its
    view shows at a key differs from the base's, [visit] - which feeds the
    invariant checkers and the metadata - calls back for that key with the base's
    entry as [before], with [isDelete] exactly when the entry is gone, and with
    the shown entry as [after] when it is not. *)
Theorem visit_complete (base : ReadView D) (m m' : gmap Z (SLE D)) (ops : list (ViewOp D)) d' k :
  ReadViewOf base m -> keys_ok m -> vo_spec_run ops (m, 0) = Some (m', d') -> m' !! k <> m !! k ->
  exists t after, vo_run base ops as_empty = Ok t /\
    (k, bool_decide (m' !! k = None), m !! k, after) ∈ as_visit t base /\
    (m' !! k <> None -> after = m' !! k).
Proof.
  intros Hb Hm Hspec Hne.
  destruct (vo_run_sim base m Hm ops as_empty m 0 m' d') as (t & Hr & (Hwf & <- & _)); [apply as_empty_denotes|done|].
  rewrite as_overlay_lookup in *. destruct (as_items t !! k) as [[a p]|] eqn:E; [|done].
  exists t, (as_heap t !! p). split; [done|]. destruct (Hwf _ _ E) as (s & Hs & Hk & Ha). cbn in Hs.
  assert (Hread : forall k, rv_read base (unchecked k) = m !! k).
  { intros k'. rewrite rv_read_spec. cbn. by destruct (m !! k'). }
  unfold as_shown in *. cbn in *. split; [|by destruct (as_erased (a, p))].
  unfold as_visit. apply list_elem_of_omap. exists (k, (a, p)).
  split; [by apply elem_of_in_order|]. cbn. rewrite Hread, Hs in *.
  destruct a; cbn in *; [congruence|done|rewrite Ha|]; done.
Qed.
End Claims.

(** ** Witnesses *)

Definition wops : list (ViewOp Z) :=
  [vo_modify (mkKeylet 97 4) (fun d => d + 1); vo_erase (unchecked 1); vo_insert (wsle 1 11);
   vo_insert (wsle 7 70); vo_erase (mkKeylet 97 9); vo_destroySFC 10].

Lemma sandbox_commit_witness :
  exists t, vo_run (ledger_view wledger) wops as_empty = Ok t /\
    ReadViewOf (applyview (ledger_view wledger) t) {[ 1 := wsle 1 11; 4 := wsle 4 41; 7 := wsle 7 70 ]} /\
    exists to', as_apply t wledger = Ok to' /\
      stateMap to' = {[ 1 := wsle 1 11; 4 := wsle 4 41; 7 := wsle 7 70 ]} /\ info_drops to' = 1000 - (0 + 10).
Proof.
  apply (sandbox_commit (fun l m d => stateMap l = m /\ info_drops l = 1000 - d) (ledger_view wledger) (stateMap wledger)).
  - apply ledger_view_of. by vm_compute.
  - exact wledger_keys.
  - by vm_compute.
  - done.
Defined.

Definition wresult : gmap Z (SLE Z) := {[ 1 := wsle 1 11; 4 := wsle 4 41; 7 := wsle 7 70 ]}.

Lemma visit_complete_witness :
  exists t after, vo_run (ledger_view wledger) wops as_empty = Ok t /\
    (9, bool_decide (wresult !! 9 = None), stateMap wledger !! 9, after) ∈ as_visit t (ledger_view wledger) /\
    (wresult !! 9 <> None -> after = wresult !! 9).
Proof.
  apply (visit_complete (ledger_view wledger) (stateMap wledger) wresult wops 10 9).
  - apply ledger_view_of. by vm_compute.
  - exact wledger_keys.
  - by vm_compute.
  - by vm_compute.
Defined.
