(* ===== verification/Directory.v ===== *)
(** * Ledger directories

    Models [ApplyView::dirAdd] and [ApplyView::dirRemove] of
    ledger/impl/ApplyView.cpp, and the walks of ledger/impl/View.cpp over a
    directory. A directory is a ring of pages: page 0 is the root, each page
    names its neighbours, and the root's previous page is the last. The state is
    the finite map a sandbox presents (see [ApplyStateTable.sandbox_commit]);
    an entry handed out by [peek] is named by its key, so two handles on the
    same page see each other's changes as the shared objects do. *)

From stdpp Require Import sorting.
From S2P Require Import Prelude.

Definition dirNodeMaxEntries : nat := 32.
Definition dirNodeMaxPages : Z := 262144.

(** A directory page; [dn_extra] is what the [describe] callback fills in. An
    absent link field reads as 0. *)
Record DirNode (D : Type) := mkDirNode {
  sfIndexes : list Z;
  sfIndexPrevious : Z;
  sfIndexNext : Z;
  sfRootIndex : Z;
  dn_extra : D
}.
Arguments mkDirNode {D}. Arguments sfIndexes {D}. Arguments sfIndexPrevious {D}.
Arguments sfIndexNext {D}. Arguments sfRootIndex {D}. Arguments dn_extra {D}.

Section Directory.
Context {D : Type}.
(** [sha512Half] over the directory's key and a page number. *)
Context (sha512Half : Z -> Z -> Z) (blank : D).
Implicit Types (st : gmap Z (DirNode D)) (node : DirNode D).

Definition getDirNodeIndex (uDirRoot uNodeIndex : Z) : Z :=
  if uNodeIndex =? 0 then uDirRoot else sha512Half uDirRoot uNodeIndex.

(** ** Field updates through a handle *)

Definition set_indexes (v : list Z) node : DirNode D :=
  mkDirNode v (sfIndexPrevious node) (sfIndexNext node) (sfRootIndex node) (dn_extra node).
Definition set_previous (p : Z) node : DirNode D :=
  mkDirNode (sfIndexes node) p (sfIndexNext node) (sfRootIndex node) (dn_extra node).
Definition set_next (p : Z) node : DirNode D :=
  mkDirNode (sfIndexes node) (sfIndexPrevious node) p (sfRootIndex node) (dn_extra node).

(** Changing fields of a held page and reporting it with [update]; erasing it. A
    page that is no longer in the view makes the table fail. *)
Definition update (f : DirNode D -> DirNode D) (k : Z) st : res (gmap Z (DirNode D)) :=
  match st !! k with
  | None => Throw (logic_error "ApplyStateTable::update: erased")
  | Some node => Ok (<[k := f node]> st)
  end.

Definition erase (k : Z) st : res (gmap Z (DirNode D)) :=
  match st !! k with
  | None => Throw (logic_error "ApplyStateTable::erase: double erase")
  | Some _ => Ok (delete k st)
  end.

(** [insert] of a page the view does not have. *)
Definition insert_new (k : Z) node st : res (gmap Z (DirNode D)) :=
  match st !! k with
  | Some _ => Throw (logic_error "ApplyStateTable::insert: already cached")
  | None => Ok (<[k := node]> st)
  end.

(** ** dirAdd *)

(** [std::lower_bound] on a sorted range, as the number of elements before it. *)
Fixpoint lower_bound (key : Z) (l : list Z) : nat :=
  match l with
  | [] => O
  | x :: l => if x <? key then S (lower_bound key l) else O
  end.

Definition add_to_page (preserveOrder : bool) (key : Z) (indexes : list Z) : res (list Z) :=
  if preserveOrder then
    if bool_decide (key ∈ indexes) then Throw (logic_error "dirInsert: double insertion")
    else Ok (indexes ++ [key])
  else
    let indexes := merge_sort Z.le indexes in
    let pos := lower_bound key indexes in
    if bool_decide (indexes !! pos = Some key) then Throw (logic_error "dirInsert: double insertion")
    else Ok (take pos indexes ++ key :: drop pos indexes).

Definition dirAdd (preserveOrder : bool) (directory key : Z) (describe : D -> D) st
    : res (option Z * gmap Z (DirNode D)) :=
  match st !! directory with
  | None =>
      let root := mkDirNode [key] 0 0 directory (describe blank) in
      st ← insert_new directory root st;
      Ok (Some 0, st)
  | Some root =>
      let page := sfIndexPrevious root in
      let node_key := if page =? 0 then directory else getDirNodeIndex directory page in
      match st !! node_key with
      | None => Throw (logic_error "Directory chain: root back-pointer broken.")
      | Some node =>
          let indexes := sfIndexes node in
          if (length indexes <? dirNodeMaxEntries)%nat then
            indexes ← add_to_page preserveOrder key indexes;
            st ← update (set_indexes indexes) node_key st;
            Ok (Some page, st)
          else
            let page := u64 (page + 1) in
            if dirNodeMaxPages <=? page then Ok (None, st) else
            st ← update (set_next page) node_key st;
            st ← update (set_previous page) directory st;
            let node := mkDirNode [key] (if page =? 1 then 0 else page - 1) 0 directory (describe blank) in
            st ← insert_new (getDirNodeIndex directory page) node st;
            Ok (Some page, st)
      end
  end.

(** ** dirRemove *)

(** [entries.erase (std::find (..., key))]. *)
Fixpoint erase_first (key : Z) (l : list Z) : list Z :=
  match l with
  | [] => []
  | x :: l => if x =? key then l else x :: erase_first key l
  end.

Definition indexes_empty (k : Z) st : bool :=
  match st !! k with Some n => bool_decide (sfIndexes n = []) | None => false end.

Definition next_of (k : Z) st : Z :=
  match st !! k with Some n => sfIndexNext n | None => 0 end.

(** The root page has become empty. *)
Definition remove_from_root (directory : Z) (prevPage nextPage : Z) (keepRoot : bool) st
    : res (bool * gmap Z (DirNode D)) :=
  if (nextPage =? 0) && negb (prevPage =? 0) then Throw (logic_error "Directory chain: fwd link broken") else
  if (prevPage =? 0) && negb (nextPage =? 0) then Throw (logic_error "Directory chain: rev link broken") else
  '(st, prevPage, nextPage) ←
    (if (nextPage =? prevPage) && negb (nextPage =? 0) then
       match st !! getDirNodeIndex directory nextPage with
       | None => Throw (logic_error "Directory chain: fwd link broken.")
       | Some last =>
           if bool_decide (sfIndexes last = []) then
             st ← update (set_previous 0 ∘ set_next 0) directory st;
             st ← erase (getDirNodeIndex directory nextPage) st;
             Ok (st, 0, 0)
           else Ok (st, prevPage, nextPage)
       end
     else Ok (st, prevPage, nextPage));
  if keepRoot then Ok (true, st) else
  if (nextPage =? 0) && (prevPage =? 0) then st ← erase directory st; Ok (true, st) else Ok (true, st).

(** A page other than the root has become empty. *)
Definition remove_page (directory page : Z) (prevPage nextPage : Z) (keepRoot : bool) st
    : res (bool * gmap Z (DirNode D)) :=
  if nextPage =? page then Throw (logic_error "Directory chain: fwd link broken") else
  if prevPage =? page then Throw (logic_error "Directory chain: rev link broken") else
  let prev := getDirNodeIndex directory prevPage in
  let next := getDirNodeIndex directory nextPage in
  match st !! prev with
  | None => Throw (logic_error "Directory chain: fwd link broken.")
  | Some _ =>
      st ← update (set_next nextPage) prev st;
      match st !! next with
      | None => Throw (logic_error "Directory chain: rev link broken.")
      | Some _ =>
          st ← update (set_previous prevPage) next st;
          st ← erase (getDirNodeIndex directory page) st;
          '(st, nextPage) ←
            (if negb (nextPage =? 0) && (next_of next st =? 0) && indexes_empty next st then
               st ← erase next st;
               st ← update (set_next 0) prev st;
               match st !! getDirNodeIndex directory 0 with
               | None => Throw (logic_error "Directory chain: root link broken.")
               | Some _ =>
                   st ← update (set_previous prevPage) (getDirNodeIndex directory 0) st;
                   Ok (st, 0)
               end
             else Ok (st, nextPage));
          if negb keepRoot && (nextPage =? 0) && (prevPage =? 0) && indexes_empty prev st
          then st ← erase prev st; Ok (true, st) else Ok (true, st)
      end
  end.

Definition dirRemove (directory page key : Z) (keepRoot : bool) st : res (bool * gmap Z (DirNode D)) :=
  match st !! getDirNodeIndex directory page with
  | None => Ok (false, st)
  | Some node =>
      let entries := sfIndexes node in
      if bool_decide (key ∈ entries) then
        let entries := erase_first key entries in
        st ← update (set_indexes entries) (getDirNodeIndex directory page) st;
        if negb (bool_decide (entries = [])) then Ok (true, st) else
        let prevPage := sfIndexPrevious node in
        let nextPage := sfIndexNext node in
        if page =? 0 then remove_from_root directory prevPage nextPage keepRoot st
        else remove_page directory page prevPage nextPage keepRoot st
      else Ok (false, st)
  end.

(** ** Walking a directory *)

(** [cdirNext]: the current page's remaining entry, or the first of a later page;
    [None] is the false result. The recursion follows next links, at most one
    per page. *)
Fixpoint cdirNext (fuel : nat) (uRootIndex : Z) node (uDirEntry : nat) st : option (DirNode D * nat * Z) :=
  match fuel with
  | O => None
  | S n =>
      match sfIndexes node !! uDirEntry with
      | Some uEntryIndex => Some (node, S uDirEntry, uEntryIndex)
      | None =>
          let uNodeNext := sfIndexNext node in
          if uNodeNext =? 0 then None else
          match st !! getDirNodeIndex uRootIndex uNodeNext with
          | None => None
          | Some sleNext => cdirNext n uRootIndex sleNext 0 st
          end
      end
  end.

(** [forEachItem]: the keys handed to the callback, page by page. *)
Fixpoint forEachItem (fuel : nat) (root pos : Z) st : option (list Z) :=
  match fuel with
  | O => None
  | S n =>
      match st !! pos with
      | None => Some []
      | Some sle =>
          if sfIndexNext sle =? 0 then Some (sfIndexes sle)
          else (sfIndexes sle ++.) <$> forEachItem n root (getDirNodeIndex root (sfIndexNext sle)) st
      end
  end.

Definition dirIsEmpty (k : Z) st : bool :=
  match st !! k with
  | None => true
  | Some sleNode =>
      if negb (bool_decide (sfIndexes sleNode = [])) then false else sfIndexNext sleNode =? 0
  end.
End Directory.

(** ** Neighbours in a chain of pages

    [nxt d ps p] is the page after [p] in [ps], [d] after the last; [prv d ps p]
    the page before it, [d] before the first. *)

Fixpoint nxt (d : Z) (ps : list Z) (p : Z) : Z :=
  match ps with
  | [] => d
  | x :: ps => if x =? p then hd d ps else nxt d ps p
  end.

Fixpoint prv (d : Z) (ps : list Z) (p : Z) : Z :=
  match ps with
  | [] => d
  | x :: ps => if x =? p then d else prv x ps p
  end.

Definition last_page (d : Z) (ps : list Z) : Z := default d (last ps).

Lemma last_page_cons d x ps : last_page d (x :: ps) = last_page x ps.
Proof. unfold last_page. rewrite last_cons. by destruct (last ps). Qed.

Lemma last_page_snoc d ps x : last_page d (ps ++ [x]) = x.
Proof. unfold last_page. by rewrite last_snoc. Qed.

Lemma last_page_app d a b : last_page d (a ++ b) = last_page (last_page d a) b.
Proof.
  revert d. induction a as [|x a IH]; intros d; [done|]. cbn [app]. by rewrite !last_page_cons, IH.
Qed.

Lemma last_page_in d x ps : last_page d (x :: ps) ∈ x :: ps.
Proof.
  unfold last_page. destruct (last (x :: ps)) eqn:E; [by apply last_Some_elem_of in E|].
  by apply last_None in E.
Qed.

Lemma nxt_app_l d a b p : p ∈ a -> nxt d (a ++ b) p = nxt (hd d b) a p.
Proof.
  induction a as [|x a IH]; intros Hp; [by apply elem_of_nil in Hp|]. cbn.
  destruct (Z.eqb_spec x p) as [->|Hne].
  - by destruct a.
  - apply elem_of_cons in Hp as [->|Hp]; [done|by apply IH].
Qed.

Lemma nxt_app_r d a b p : p ∉ a -> nxt d (a ++ b) p = nxt d b p.
Proof.
  induction a as [|x a IH]; intros Hp; [done|]. cbn. apply not_elem_of_cons in Hp as [Hne Hp].
  rewrite (proj2 (Z.eqb_neq x p)) by done. by apply IH.
Qed.

Lemma prv_app_l d a b p : p ∈ a -> prv d (a ++ b) p = prv d a p.
Proof.
  revert d. induction a as [|x a IH]; intros d Hp; [by apply elem_of_nil in Hp|]. cbn.
  destruct (Z.eqb_spec x p) as [->|Hne]; [done|].
  apply elem_of_cons in Hp as [->|Hp]; [done|by apply IH].
Qed.

Lemma prv_app_r d a b p : p ∉ a -> prv d (a ++ b) p = prv (last_page d a) b p.
Proof.
  revert d. induction a as [|x a IH]; intros d Hp; [done|]. cbn. apply not_elem_of_cons in Hp as [Hne Hp].
  rewrite (proj2 (Z.eqb_neq x p)), last_page_cons by done. by apply IH.
Qed.

(** Only the last page depends on what follows the chain, only the first on what precedes it. *)
Lemma nxt_default d d' x a p :
  NoDup (x :: a) -> p ∈ x :: a ->
  nxt d (x :: a) p = if p =? last_page x a then d else nxt d' (x :: a) p.
Proof.
  revert x. induction a as [|y a IH]; intros x Hd Hp.
  - apply list_elem_of_singleton in Hp as ->. cbn. by rewrite Z.eqb_refl.
  - apply NoDup_cons in Hd as [Hx Hd]. cbn [nxt hd]. rewrite last_page_cons.
    destruct (Z.eqb_spec x p) as [->|Hne].
    + rewrite (proj2 (Z.eqb_neq p _)); [done|]. intros ->. apply Hx.
      rewrite <-(last_page_cons 0). apply last_page_in.
    + apply elem_of_cons in Hp as [->|Hp]; [done|]. exact (IH y Hd Hp).
Qed.

Lemma prv_default d d' x a p : prv d (x :: a) p = if p =? x then d else prv d' (x :: a) p.
Proof. cbn. rewrite (Z.eqb_sym p x). by destruct (x =? p). Qed.

(** The ring of a chain: the page after the last is 0, the page before page 0 the last. *)
Definition ring_next (ps : list Z) (p : Z) : Z := nxt 0 ps p.
Definition ring_prev (ps : list Z) (p : Z) : Z := prv (last_page 0 ps) ps p.

Lemma ring_next_at a x b : x ∉ a -> ring_next (a ++ x :: b) x = hd 0 b.
Proof. intros H. unfold ring_next. rewrite nxt_app_r by done. cbn. by rewrite Z.eqb_refl. Qed.

Lemma ring_prev_at r a x b : x ∉ r :: a -> ring_prev (r :: a ++ x :: b) x = last_page r a.
Proof.
  intros H. unfold ring_prev. rewrite app_comm_cons, prv_app_r by done. cbn.
  by rewrite Z.eqb_refl, last_page_cons.
Qed.

(** Unlinking [x] redirects exactly its two neighbours. *)
Lemma ring_next_remove r a x b p :
  NoDup (r :: a ++ x :: b) -> p ∈ r :: a ++ b ->
  ring_next (r :: a ++ b) p =
  if p =? last_page r a then hd 0 b else ring_next (r :: a ++ x :: b) p.
Proof.
  intros Hd Hp. unfold ring_next. rewrite !(app_comm_cons a _ r) in *.
  apply NoDup_app in Hd as (Ha & Hab & Hb). apply NoDup_cons in Hb as [Hx Hb].
  apply elem_of_app in Hp as [Hp|Hp].
  - rewrite !nxt_app_l by done. cbn [hd]. by apply nxt_default.
  - assert (Hpa : p ∉ r :: a) by (intros H; apply (Hab p H); by right).
    rewrite !nxt_app_r by done. rewrite (proj2 (Z.eqb_neq p _)).
    + cbn. by rewrite (proj2 (Z.eqb_neq x p)) by (intros ->; done).
    + intros ->. apply Hpa. rewrite <-(last_page_cons 0). apply last_page_in.
Qed.

Lemma ring_prev_remove a x b p :
  NoDup (0 :: a ++ x :: b) -> p ∈ 0 :: a ++ b ->
  ring_prev (0 :: a ++ b) p =
  if p =? hd 0 b then last_page 0 a else ring_prev (0 :: a ++ x :: b) p.
Proof.
  intros Hd Hp. unfold ring_prev. rewrite !(app_comm_cons a _ 0) in *.
  apply NoDup_app in Hd as (Ha & Hab & Hb). apply NoDup_cons in Hb as [Hx Hb].
  apply elem_of_app in Hp as [Hp|Hp].
  - rewrite !prv_app_l by done. rewrite (prv_default _ (last_page 0 ((0 :: a) ++ x :: b))).
    destruct b as [|y b]; cbn [hd].
    + by rewrite app_nil_r, last_page_cons.
    + rewrite (proj2 (Z.eqb_neq p y)) by (intros ->; apply (Hab y Hp); right; left).
      rewrite !last_page_app, !last_page_cons. destruct (Z.eqb_spec p 0) as [->|]; [done|done].
  - assert (Hpa : p ∉ 0 :: a) by (intros H; apply (Hab p H); by right).
    rewrite !prv_app_r by done. rewrite !last_page_cons. destruct b as [|y b]; [by apply elem_of_nil in Hp|].
    rewrite (prv_default _ x). cbn [hd prv].
    by rewrite (proj2 (Z.eqb_neq x p)) by (intros ->; done).
Qed.

(** Linking a new last page. *)
Lemma ring_next_snoc r a q p :
  NoDup (r :: a) -> p ∈ r :: a ->
  ring_next (r :: a ++ [q]) p = if p =? last_page r a then q else ring_next (r :: a) p.
Proof.
  intros Hd Hp. unfold ring_next. rewrite app_comm_cons, nxt_app_l by done. by apply nxt_default.
Qed.

Lemma ring_prev_snoc a q p :
  p ∈ 0 :: a -> ring_prev (0 :: a ++ [q]) p = if p =? 0 then q else ring_prev (0 :: a) p.
Proof.
  intros Hp. unfold ring_prev. rewrite app_comm_cons, prv_app_l by done.
  rewrite (prv_default _ (last_page 0 (0 :: a))). by rewrite last_page_snoc.
Qed.

(** ** The abstract directory

    A list of pages in chain order, the root first. *)

Record DirPage (D : Type) := mkDirPage { pg : Z; pg_entries : list Z; pg_extra : D }.
Arguments mkDirPage {D}. Arguments pg {D}. Arguments pg_entries {D}. Arguments pg_extra {D}.

Definition dir_entries {D} (l : list (DirPage D)) : list Z := concat (pg_entries <$> l).

Definition in_u64 (p : Z) : Prop := 0 <= p < 2 ^ 64.

(** Pages ascend from the root, hold at most 32 entries, and only the root and
    the last may be empty. *)
Record pages_wf {D} (l : list (DirPage D)) : Prop := {
  wf_root : l <> [] -> head (pg <$> l) = Some 0;
  wf_sorted : StronglySorted Z.lt (pg <$> l);
  wf_max : forall x, x ∈ l -> pg x < dirNodeMaxPages;
  wf_size : forall x, x ∈ l -> (length (pg_entries x) <= dirNodeMaxEntries)%nat;
  wf_filled : forall i x, l !! i = Some x -> (0 < i)%nat -> (S i < length l)%nat -> pg_entries x <> []
}.

Fixpoint find_page {D} (q : Z) (l : list (DirPage D)) : option (DirPage D) :=
  match l with
  | [] => None
  | x :: l => if pg x =? q then Some x else find_page q l
  end.

Section Pages.
Context {D : Type} (dir : Z).
Implicit Types (l a b : list (DirPage D)) (x y : DirPage D).

(** The node of a page in the ring, and what is stored at each page number. *)
Definition node_of l x : DirNode D :=
  mkDirNode (pg_entries x) (ring_prev (pg <$> l) (pg x)) (ring_next (pg <$> l) (pg x)) dir (pg_extra x).

Definition look l (q : Z) : option (DirNode D) := node_of l <$> find_page q l.

Lemma sorted_NoDup (ps : list Z) : StronglySorted Z.lt ps -> NoDup ps.
Proof.
  induction 1 as [|p ps Hs IH Hp]; constructor; [|done]. rewrite Forall_forall in Hp.
  intros Hin. specialize (Hp _ Hin). lia.
Qed.

Lemma pages_NoDup l : pages_wf l -> NoDup (pg <$> l).
Proof. intros H. apply sorted_NoDup, H. Qed.

Lemma pages_u64 l x : pages_wf l -> x ∈ l -> in_u64 (pg x).
Proof.
  intros Hok Hx. pose proof (wf_max _ Hok _ Hx) as Hm. unfold dirNodeMaxPages in Hm.
  pose proof (wf_sorted _ Hok) as Hs. pose proof (wf_root _ Hok) as Hr.
  destruct l as [|r l]; [by apply elem_of_nil in Hx|]. specialize (Hr ltac:(done)). cbn in Hr, Hs.
  injection Hr as Hr. apply StronglySorted_inv in Hs as [_ Hs]. rewrite Forall_forall in Hs.
  apply elem_of_cons in Hx as [->|Hx]; [unfold in_u64; lia|].
  specialize (Hs (pg x) ltac:(by apply list_elem_of_fmap_2)). unfold in_u64. lia.
Qed.

Lemma find_page_Some q l x : find_page q l = Some x -> x ∈ l /\ pg x = q.
Proof.
  induction l as [|y l IH]; cbn; [done|]. destruct (Z.eqb_spec (pg y) q) as [Hq|Hq].
  - intros [= ->]. split; [left|done].
  - intros H. destruct (IH H). split; [by right|done].
Qed.

Lemma find_page_None q l : find_page q l = None <-> q ∉ pg <$> l.
Proof.
  induction l as [|y l IH]; cbn; [split; [by intros _ ?%elem_of_nil|done]|].
  rewrite not_elem_of_cons. destruct (Z.eqb_spec (pg y) q) as [Hq|Hq]; [naive_solver|].
  rewrite IH. naive_solver.
Qed.

Lemma find_page_app q a b :
  find_page q (a ++ b) = match find_page q a with Some x => Some x | None => find_page q b end.
Proof. induction a as [|y a IH]; cbn; [done|]. by destruct (pg y =? q). Qed.

Lemma find_page_middle q a x b :
  pg x ∉ pg <$> a ->
  find_page q (a ++ x :: b) = if q =? pg x then Some x else find_page q (a ++ b).
Proof.
  intros Hx. rewrite !find_page_app. cbn. rewrite (Z.eqb_sym q).
  destruct (Z.eqb_spec (pg x) q) as [<-|]; [|done].
  by rewrite (proj2 (find_page_None _ a) Hx).
Qed.

Lemma look_at a x b : pg x ∉ pg <$> a -> look (a ++ x :: b) (pg x) = Some (node_of (a ++ x :: b) x).
Proof. intros H. unfold look. rewrite find_page_middle by done. by rewrite Z.eqb_refl. Qed.

Lemma look_dom l q : is_Some (look l q) <-> q ∈ pg <$> l.
Proof.
  unfold look. rewrite fmap_is_Some. destruct (find_page q l) as [x|] eqn:E.
  - apply find_page_Some in E as [Hx <-]. split; [|by eauto]. intros _. by apply list_elem_of_fmap_2.
  - apply find_page_None in E. split; [by intros []|done].
Qed.

(** Replacing one page's entries. *)
Lemma look_set a x b v q :
  pg x ∉ pg <$> a ->
  look (a ++ mkDirPage (pg x) v (pg_extra x) :: b) q =
  (if q =? pg x then set_indexes v else id) <$> look (a ++ x :: b) q.
Proof.
  intros Hx. set (x' := mkDirPage (pg x) v (pg_extra x)).
  assert (Hpgs : pg <$> a ++ x' :: b = pg <$> a ++ x :: b) by by rewrite !fmap_app, !fmap_cons.
  unfold look. rewrite !find_page_middle by done. cbn [pg x'].
  destruct (q =? pg x).
  - cbn. unfold node_of. by rewrite Hpgs.
  - destruct (find_page q (a ++ b)); cbn; [|done]. unfold node_of. by rewrite Hpgs.
Qed.

(** Unlinking a page that is not the root. *)
Lemma look_remove r a x b q :
  NoDup (pg <$> r :: a ++ x :: b) -> pg r = 0 ->
  look (r :: a ++ b) q =
  if q =? pg x then None else
  (fun n => (if q =? hd 0 (pg <$> b) then set_previous (last_page 0 (pg <$> a)) else id)
              ((if q =? last_page 0 (pg <$> a) then set_next (hd 0 (pg <$> b)) else id) n))
    <$> look (r :: a ++ x :: b) q.
Proof.
  intros Hd Hr. assert (Hx : pg x ∉ pg <$> r :: a /\ pg x ∉ pg <$> b).
  { rewrite app_comm_cons, fmap_app, fmap_cons in Hd. apply NoDup_app in Hd as (_ & Hab & [Hb _]%NoDup_cons).
    split; [|done]. intros H. apply (Hab _ H). left. }
  unfold look. rewrite (app_comm_cons a (x :: b) r), find_page_middle by apply Hx.
  change ((r :: a) ++ b) with (r :: a ++ b). destruct (Z.eqb_spec q (pg x)) as [->|Hne].
  - rewrite (proj2 (find_page_None (pg x) (r :: a ++ b))); [done|]. rewrite app_comm_cons, fmap_app, elem_of_app. tauto.
  - destruct (find_page q (r :: a ++ b)) as [y|] eqn:E; [|done]. cbn [fmap option_fmap option_map]. f_equal.
    apply find_page_Some in E as [Hy <-].
    unfold node_of. rewrite !fmap_cons, !fmap_app, !fmap_cons, Hr in *.
    assert (Hin : pg y ∈ 0 :: (pg <$> a) ++ (pg <$> b)).
    { apply (list_elem_of_fmap_2 pg) in Hy. by rewrite fmap_cons, fmap_app, Hr in Hy. }
    rewrite (ring_next_remove 0 _ (pg x)), (ring_prev_remove _ (pg x)) by done.
    by destruct (pg y =? hd 0 _), (pg y =? last_page 0 _).
Qed.

(** Linking a new last page. *)
Lemma look_snoc r a x q :
  NoDup (pg <$> r :: a ++ [x]) -> pg r = 0 ->
  look (r :: a ++ [x]) q =
  if q =? pg x then Some (mkDirNode (pg_entries x) (last_page 0 (pg <$> a)) 0 dir (pg_extra x)) else
  (fun n => (if q =? 0 then set_previous (pg x) else id)
              ((if q =? last_page 0 (pg <$> a) then set_next (pg x) else id) n)) <$> look (r :: a) q.
Proof.
  intros Hd Hr. rewrite app_comm_cons, fmap_app in Hd. apply NoDup_app in Hd as (Hda & Hab & _).
  assert (Hx : pg x ∉ pg <$> r :: a) by (intros H; apply (Hab _ H); left).
  unfold look. rewrite (app_comm_cons a [x] r), find_page_middle, app_nil_r by done.
  destruct (Z.eqb_spec q (pg x)) as [->|Hne].
  - cbn [fmap option_fmap option_map]. unfold node_of. rewrite fmap_app.
    change (pg <$> [x]) with [pg x]. rewrite ring_next_at by done.
    change ((pg <$> r :: a) ++ [pg x]) with (pg r :: (pg <$> a) ++ [pg x]).
    rewrite ring_prev_at by done. by rewrite Hr.
  - destruct (find_page q (r :: a)) as [y|] eqn:E; [|done]. cbn [fmap option_fmap option_map]. f_equal.
    apply find_page_Some in E as [Hy <-].
    assert (Hin : pg y ∈ 0 :: (pg <$> a)).
    { apply (list_elem_of_fmap_2 pg) in Hy. by rewrite fmap_cons, Hr in Hy. }
    unfold node_of. rewrite fmap_app, !fmap_cons, Hr, <-app_comm_cons in *. cbn [fmap list_fmap].
    rewrite ring_next_snoc, ring_prev_snoc by done.
    by destruct (pg y =? 0), (pg y =? last_page 0 _).
Qed.
End Pages.

(** ** Well-formedness of the changed chain *)

Section Wf.
Context {D : Type}.
Implicit Types (l a b : list (DirPage D)) (x y : DirPage D).

Lemma wf_set a x b v :
  pages_wf (a ++ x :: b) -> (length v <= dirNodeMaxEntries)%nat -> (a <> [] -> b <> [] -> v <> []) ->
  pages_wf (a ++ mkDirPage (pg x) v (pg_extra x) :: b).
Proof.
  intros [Hr Hs Hm Hz Hf] Hv Hne. set (x' := mkDirPage (pg x) v (pg_extra x)).
  assert (Hpgs : pg <$> a ++ x' :: b = pg <$> a ++ x :: b) by by rewrite !fmap_app, !fmap_cons.
  assert (Hother : forall y, y ∈ a ++ x' :: b -> y = x' \/ y ∈ a ++ x :: b) by set_solver.
  split; rewrite ?Hpgs; [|done|..].
  - intros _. apply Hr. by destruct a.
  - intros y [->|Hy]%Hother; [apply (Hm x); set_solver|by apply Hm].
  - intros y [->|Hy]%Hother; [done|by apply Hz].
  - intros i y Hi H0 HS. rewrite length_app in HS. cbn in HS.
    destruct (decide (i = length a)) as [->|Hia].
    + rewrite list_lookup_middle in Hi by done. injection Hi as <-. cbn.
      apply Hne; intros ->; cbn in *; lia.
    + apply (Hf i); [|done|by rewrite length_app].
      rewrite <-Hi. destruct (decide (i < length a)%nat); [by rewrite !lookup_app_l|].
      rewrite !lookup_app_r by lia. by destruct (i - length a)%nat eqn:E; [lia|].
Qed.

Lemma wf_snoc a x y :
  pages_wf (a ++ [x]) -> pg x < pg y < dirNodeMaxPages -> (length (pg_entries y) <= dirNodeMaxEntries)%nat ->
  pg_entries x <> [] -> pages_wf ((a ++ [x]) ++ [y]).
Proof.
  intros [Hr Hs Hm Hz Hf] Hy Hyz Hx. split.
  - intros _. rewrite fmap_app, head_app. by rewrite Hr by (by intros [_ [=]]%app_nil).
  - rewrite fmap_app. apply StronglySorted_app. split_and!; [|done|by repeat constructor].
    intros p q Hp Hq%list_elem_of_singleton. subst q. rewrite fmap_app in *.
    apply elem_of_app in Hp as [Hp|Hp%list_elem_of_singleton]; [|subst p; cbn; lia].
    apply StronglySorted_app in Hs as (Hlt & _ & _). specialize (Hlt p (pg x) Hp ltac:(left)). cbn. lia.
  - intros z [Hz'|Hz'%list_elem_of_singleton]%elem_of_app; [by apply Hm|subst; lia].
  - intros z [Hz'|Hz'%list_elem_of_singleton]%elem_of_app; [by apply Hz|by subst].
  - intros i z Hi H0 HS. rewrite !length_app in HS. cbn in HS.
    rewrite lookup_app_l in Hi by (rewrite length_app; cbn; lia).
    destruct (decide (i = length a)) as [->|]; [by rewrite list_lookup_middle in Hi by done; injection Hi as <-|].
    apply (Hf i); [done..|]. rewrite length_app. cbn. lia.
Qed.

Lemma wf_remove r a x b : pages_wf (r :: a ++ x :: b) -> pages_wf (r :: a ++ b).
Proof.
  intros [Hr Hs Hm Hz Hf]. split.
  - intros _. exact (Hr ltac:(done)).
  - rewrite app_comm_cons, fmap_app in *. apply StronglySorted_app in Hs as (Hlt & Ha & Hb).
    apply StronglySorted_app. split_and!; [|done|].
    + intros p q Hp Hq. apply Hlt; [done|]. by right.
    + by apply StronglySorted_inv in Hb as [].
  - intros y Hy. apply Hm. set_solver.
  - intros y Hy. apply Hz. set_solver.
  - intros i y Hi H0 HS. rewrite app_comm_cons in *. rewrite length_app in *.
    destruct (decide (i < length (r :: a))%nat).
    + apply (Hf i); [by rewrite lookup_app_l in Hi |- *|done|]. cbn in *. lia.
    + apply (Hf (S i)); [|lia|cbn in *; lia].
      rewrite lookup_app_r in Hi |- * by lia. by rewrite Nat.sub_succ_l by lia.
Qed.

Lemma wf_nil : pages_wf ([] : list (DirPage D)).
Proof. split; try done; [constructor|by intros ? ?%elem_of_nil..]. Qed.
End Wf.

(** ** Steps on the pages of one directory *)

Section Steps.
Context {D : Type} (sha512Half : Z -> Z -> Z) (dir : Z).
Implicit Types (st : gmap Z (DirNode D)) (F : Z -> option (DirNode D)).
#[local] Abbreviation pk := (getDirNodeIndex sha512Half dir).

(** Distinct page numbers have distinct keys: [sha512Half] does not collide. *)
Definition pages_distinct : Prop := forall p q, in_u64 p -> in_u64 q -> pk p = pk q -> p = q.

Definition holds st F : Prop := forall q, in_u64 q -> st !! pk q = F q.

(** Entries of the ledger that are not pages of the directory are untouched. *)
Definition frame st st' : Prop := forall k, (forall p, in_u64 p -> k <> pk p) -> st' !! k = st !! k.

(** The state holds exactly the pages of [l], linked in a ring. *)
Definition dir_ok st (l : list (DirPage D)) : Prop := pages_wf l /\ holds st (look dir l).

Context (Hpk : pages_distinct).

Lemma frame_trans st1 st2 st3 : frame st1 st2 -> frame st2 st3 -> frame st1 st3.
Proof. intros H1 H2 k Hk. by rewrite H2, H1. Qed.

Lemma holds_ext st F F' : holds st F -> (forall q, in_u64 q -> F q = F' q) -> holds st F'.
Proof. intros H HF q Hq. rewrite H by done. by apply HF. Qed.

Lemma holds_insert st F p n : holds st F -> in_u64 p -> holds (<[pk p := n]> st) (fun q => if q =? p then Some n else F q).
Proof.
  intros H Hp q Hq. destruct (Z.eqb_spec q p) as [->|Hne]; [by rewrite lookup_insert_eq|].
  rewrite lookup_insert_ne; [by apply H|]. intros He. apply Hne. symmetry. by apply Hpk.
Qed.

Lemma frame_insert st p n : in_u64 p -> frame st (<[pk p := n]> st).
Proof. intros Hp k Hk. apply lookup_insert_ne. intros <-. by apply (Hk p). Qed.

Lemma update_holds st F f p :
  holds st F -> in_u64 p -> is_Some (F p) ->
  exists st', update f (pk p) st = Ok st' /\
    holds st' (fun q => (if q =? p then f else id) <$> F q) /\ frame st st'.
Proof.
  intros H Hp [n Hn]. unfold update. rewrite H, Hn by done. eexists. split; [done|].
  split; [|by apply frame_insert]. eapply holds_ext; [by apply holds_insert|].
  intros q Hq. cbn. destruct (Z.eqb_spec q p) as [->|]; [by rewrite Hn|by destruct (F q)].
Qed.

Lemma erase_holds st F p :
  holds st F -> in_u64 p -> is_Some (F p) ->
  exists st', erase (pk p) st = Ok st' /\ holds st' (fun q => if q =? p then None else F q) /\ frame st st'.
Proof.
  intros H Hp [n Hn]. unfold erase. rewrite H, Hn by done. eexists. split; [done|]. split.
  - intros q Hq. destruct (Z.eqb_spec q p) as [->|Hne]; [by rewrite lookup_delete_eq|].
    rewrite lookup_delete_ne; [by apply H|]. intros He. apply Hne. symmetry. by apply Hpk.
  - intros k Hk. apply lookup_delete_ne. intros <-. by apply (Hk p).
Qed.

Lemma insert_holds st F p n :
  holds st F -> in_u64 p -> F p = None ->
  exists st', insert_new (pk p) n st = Ok st' /\
    holds st' (fun q => if q =? p then Some n else F q) /\ frame st st'.
Proof.
  intros H Hp Hn. unfold insert_new. rewrite H, Hn by done. eexists. split; [done|].
  split; [by apply holds_insert|by apply frame_insert].
Qed.
End Steps.

(** ** Adding *)

Lemma lower_bound_spec key l :
  StronglySorted Z.le l ->
  (forall x, x ∈ take (lower_bound key l) l -> x < key) /\
  (forall x, x ∈ drop (lower_bound key l) l -> key <= x) /\
  (key ∈ l <-> l !! lower_bound key l = Some key).
Proof.
  induction 1 as [|x l Hs IH Hx]; cbn.
  { split_and!; [by intros ? ?%elem_of_nil..|]. split; [by intros ?%elem_of_nil|done]. }
  rewrite Forall_forall in Hx. destruct (Z.ltb_spec x key); cbn.
  - destruct IH as (H1 & H2 & H3). split_and!.
    + intros y [->|Hy]%elem_of_cons; [done|by apply H1].
    + exact H2.
    + rewrite <-H3, elem_of_cons. split; [intros [->|]; [lia|done]|by right].
  - split_and!.
    + by intros ? ?%elem_of_nil.
    + intros y [->|Hy]%elem_of_cons; [done|]. specialize (Hx _ Hy). lia.
    + split; [|intros [= ->]; left]. intros [->|Hy]%elem_of_cons; [done|]. specialize (Hx _ Hy). f_equal. lia.
Qed.

Lemma insert_sorted key l :
  StronglySorted Z.le l ->
  StronglySorted Z.le (take (lower_bound key l) l ++ key :: drop (lower_bound key l) l).
Proof.
  intros Hs. destruct (lower_bound_spec key l Hs) as (H1 & H2 & _).
  rewrite <-(take_drop (lower_bound key l) l) in Hs. apply StronglySorted_app in Hs as (H3 & H4 & H5).
  apply StronglySorted_app. split_and!; [|done|].
  - intros x y Hx [->|Hy]%elem_of_cons; [specialize (H1 _ Hx); lia|by apply H3].
  - constructor; [done|]. apply Forall_forall. exact H2.
Qed.

Lemma add_to_page_spec preserveOrder key ix :
  match add_to_page preserveOrder key ix with
  | Ok v => v ≡ₚ key :: ix /\ key ∉ ix /\
      (if preserveOrder then v = ix ++ [key] else StronglySorted Z.le v)
  | Throw e => e = logic_error "dirInsert: double insertion" /\ key ∈ ix
  end.
Proof.
  unfold add_to_page. destruct preserveOrder.
  - case_bool_decide as H; [done|]. split_and!; [|done|done]. by rewrite Permutation_app_comm.
  - set (s := merge_sort Z.le ix).
    assert (Hp : s ≡ₚ ix) by apply merge_sort_Permutation.
    assert (Hs : StronglySorted Z.le s) by (apply StronglySorted_merge_sort; apply _).
    destruct (lower_bound_spec key s Hs) as (_ & _ & Hin0).
    assert (Hin : key ∈ ix <-> s !! lower_bound key s = Some key) by (rewrite <-Hin0; by rewrite Hp).
    case_bool_decide as H; [split; [done|by apply Hin]|]. split_and!.
    + rewrite <-Permutation_middle, take_drop. by rewrite Hp.
    + by rewrite Hin.
    + by apply insert_sorted.
Qed.

Section Add.
Context {D : Type} (sha512Half : Z -> Z -> Z) (blank : D) (dir : Z).
Implicit Types (st : gmap Z (DirNode D)) (l : list (DirPage D)).
Context (Hpk : pages_distinct sha512Half dir).
#[local] Abbreviation pk := (getDirNodeIndex sha512Half dir).

Lemma split_last {A} (r : A) a : exists b x, r :: a = b ++ [x].
Proof. destruct (exists_last (l := r :: a)) as (b & x & H); [done|]. by exists b, x. Qed.

Lemma last_page_pg (r : DirPage D) a b x :
  r :: a = b ++ [x] -> pg r = 0 -> last_page 0 (pg <$> a) = pg x.
Proof.
  intros H Hr. rewrite <-Hr, <-(last_page_cons 0), <-fmap_cons, H, fmap_app. apply last_page_snoc.
Qed.

(** The last page, found through the root's back link. *)
Lemma dir_last st r a :
  dir_ok sha512Half dir st (r :: a) -> exists b x, r :: a = b ++ [x] /\ pg r = 0 /\
    st !! dir = Some (node_of dir (r :: a) r) /\ sfIndexPrevious (node_of dir (r :: a) r) = pg x /\
    pg x ∉ pg <$> b /\ in_u64 (pg x) /\
    st !! pk (pg x) = Some (node_of dir (r :: a) x).
Proof.
  intros [Hwf Hst]. destruct (split_last r a) as (b & x & Heq). exists b, x.
  assert (Hr : pg r = 0) by (pose proof (wf_root _ Hwf) as H; specialize (H ltac:(done)); by injection H).
  assert (Hx : in_u64 (pg x)) by (apply (pages_u64 _ _ Hwf); rewrite Heq; set_solver).
  assert (Hxb : pg x ∉ pg <$> b).
  { pose proof (pages_NoDup _ Hwf) as Hd. rewrite Heq, fmap_app in Hd. apply NoDup_app in Hd as (_ & Hab & _).
    intros H. apply (Hab _ H). left. }
  split_and!; try done.
  - assert (H : st !! pk 0 = look dir (r :: a) 0) by (apply Hst; unfold in_u64; lia).
    unfold look in H. cbn in H. by rewrite Hr in H.
  - unfold node_of, ring_prev. cbn. rewrite Z.eqb_refl, last_page_cons, Hr. by eapply last_page_pg.
  - rewrite Hst by done. rewrite Heq. by apply look_at.
Qed.

(** Putting the key in the last page. *)
Lemma add_in_place st b x v :
  dir_ok sha512Half dir st (b ++ [x]) -> (length v <= dirNodeMaxEntries)%nat ->
  exists st', update (set_indexes v) (pk (pg x)) st = Ok st' /\
    dir_ok sha512Half dir st' (b ++ [mkDirPage (pg x) v (pg_extra x)]) /\ frame sha512Half dir st st'.
Proof.
  intros [Hwf Hst] Hv.
  assert (Hxb : pg x ∉ pg <$> b).
  { pose proof (pages_NoDup _ Hwf) as Hd. rewrite fmap_app in Hd. apply NoDup_app in Hd as (_ & Hab & _).
    intros H. apply (Hab _ H). left. }
  destruct (update_holds sha512Half dir Hpk st _ (set_indexes v) (pg x) Hst) as (st' & Hu & Hst' & Hf).
  - apply (pages_u64 _ _ Hwf). set_solver.
  - apply look_dom. rewrite fmap_app. set_solver.
  - exists st'. split_and!; [done| |done]. split; [by apply wf_set|].
    eapply holds_ext; [done|]. intros q _. cbn. by rewrite look_set.
Qed.

(** Linking a fresh last page. *)
Lemma add_new_page st r a b x y node :
  dir_ok sha512Half dir st (r :: a) -> r :: a = b ++ [x] -> pg r = 0 ->
  pg y = pg x + 1 -> pg y < dirNodeMaxPages -> (length (pg_entries y) <= dirNodeMaxEntries)%nat ->
  pg_entries x <> [] -> node = mkDirNode (pg_entries y) (pg x) 0 dir (pg_extra y) ->
  exists st1 st2 st3, update (set_next (pg y)) (pk (pg x)) st = Ok st1 /\
    update (set_previous (pg y)) dir st1 = Ok st2 /\ insert_new (pk (pg y)) node st2 = Ok st3 /\
    dir_ok sha512Half dir st3 ((r :: a) ++ [y]) /\ frame sha512Half dir st st3.
Proof.
  intros [Hwf Hst] Heq Hr Hy Hmax Hsz Hne ->.
  assert (Hx : in_u64 (pg x)) by (apply (pages_u64 _ _ Hwf); rewrite Heq; set_solver).
  assert (H0 : in_u64 0) by (unfold in_u64; lia).
  assert (Hu : in_u64 (pg y)) by (unfold in_u64, dirNodeMaxPages in *; lia).
  assert (Hwf' : pages_wf ((r :: a) ++ [y])) by (rewrite Heq in *; apply wf_snoc; [done|lia|done..]).
  assert (Hl0 : 0 ∈ pg <$> r :: a) by (rewrite fmap_cons, Hr; left).
  assert (Hlx : pg x ∈ pg <$> r :: a) by (rewrite Heq, fmap_app; set_solver).
  assert (Hly : pg y ∉ pg <$> r :: a).
  { pose proof (pages_NoDup _ Hwf') as Hd. rewrite fmap_app in Hd. apply NoDup_app in Hd as (_ & Hab & _).
    intros H. apply (Hab _ H). left. }
  destruct (update_holds sha512Half dir Hpk st _ (set_next (pg y)) (pg x) Hst) as (st1 & Hu1 & Hst1 & Hf1);
    [done|by apply look_dom|].
  destruct (update_holds sha512Half dir Hpk st1 _ (set_previous (pg y)) 0 Hst1) as (st2 & Hu2 & Hst2 & Hf2);
    [done|by rewrite fmap_is_Some; apply look_dom|].
  destruct (insert_holds sha512Half dir Hpk st2 _ (pg y) (mkDirNode (pg_entries y) (pg x) 0 dir (pg_extra y)) Hst2)
    as (st3 & Hu3 & Hst3 & Hf3); [done| |].
  { destruct (look dir (r :: a) (pg y)) eqn:E; [|done]. exfalso. apply Hly, (look_dom dir). by eexists. }
  exists st1, st2, st3. split_and!; [done..| |by eapply frame_trans; [eapply frame_trans|]].
  split; [done|]. eapply holds_ext; [done|]. intros q _. cbn beta.
  change ((r :: a) ++ [y]) with (r :: a ++ [y]). rewrite look_snoc by (done || by apply pages_NoDup).
  rewrite (last_page_pg r a b x) by done. destruct (q =? pg y); [done|].
  destruct (look dir (r :: a) q); [|done]. cbn. by destruct (q =? 0), (q =? pg x).
Qed.
End Add.

Lemma entries_app {D} (a b : list (DirPage D)) : dir_entries (a ++ b) = dir_entries a ++ dir_entries b.
Proof. unfold dir_entries. by rewrite fmap_app, concat_app. Qed.

Lemma entries_one {D} (x : DirPage D) : dir_entries [x] = pg_entries x.
Proof. unfold dir_entries. cbn. by rewrite app_nil_r. Qed.

Section AddClaim.
Context {D : Type} (sha512Half : Z -> Z -> Z) (blank : D) (dir : Z).
Implicit Types (st : gmap Z (DirNode D)) (l : list (DirPage D)).

(** What a call of [dirAdd] on the directory [l] may return. *)
Definition dirAdd_post (preserveOrder : bool) key st l (r : res (option Z * gmap Z (DirNode D))) : Prop :=
  match r with
  | Ok (Some p, st') =>
      exists l', dir_ok sha512Half dir st' l' /\ frame sha512Half dir st st' /\
        (exists x, x ∈ l' /\ pg x = p /\ key ∈ pg_entries x) /\
        (if preserveOrder then dir_entries l' = dir_entries l ++ [key]
         else dir_entries l' ≡ₚ key :: dir_entries l)
  | Ok (None, st') =>
      st' = st /\ exists b x, l = b ++ [x] /\ length (pg_entries x) = dirNodeMaxEntries /\
        pg x = dirNodeMaxPages - 1
  | Throw e => e = logic_error "dirInsert: double insertion" /\ key ∈ dir_entries l
  end.

Lemma dirAdd_first preserveOrder key describe st :
  pages_distinct sha512Half dir -> dir_ok sha512Half dir st [] ->
  dirAdd_post preserveOrder key st [] (dirAdd sha512Half blank preserveOrder dir key describe st).
Proof.
  intros Hpk [Hwf Hst]. assert (H0 : in_u64 0) by (unfold in_u64; lia).
  pose proof (Hst 0 H0) as Hr. cbn in Hr. unfold dirAdd. change (getDirNodeIndex sha512Half dir 0) with dir in Hr.
  rewrite Hr. destruct (insert_holds sha512Half dir Hpk st _ 0
    (mkDirNode [key] 0 0 dir (describe blank)) Hst H0 eq_refl) as (st' & Hi & Hst' & Hf).
  change (getDirNodeIndex sha512Half dir 0) with dir in Hi. rewrite Hi. cbn [mbind res_bind].
  exists [mkDirPage 0 [key] (describe blank)]. split_and!; [split| | |].
  - split; cbn; [done|by repeat constructor|..].
    1,2: intros x ->%list_elem_of_singleton; cbn; unfold dirNodeMaxPages, dirNodeMaxEntries; lia.
    intros i x Hi0 H1 H2. lia.
  - eapply holds_ext; [done|]. intros q _. unfold look, find_page. cbn [pg]. rewrite (Z.eqb_sym 0). by destruct (q =? 0).
  - done.
  - exists (mkDirPage 0 [key] (describe blank)). split_and!; [left|done|left].
  - by destruct preserveOrder.
Qed.

(** Adding to a directory. On a well-formed directory - pages linked in a
    ring in ascending order from the root, at most 32 entries each - [dirAdd]
    returns the page it put the key on, keeps the directory well-formed, touches
    nothing else in the ledger and adds exactly that key: at the end of the whole
    listing when order is preserved, otherwise somewhere in its page. It declines
    only when the last page is full and is page 262143, changing nothing, and it
    fails only on an entry the directory already has. *)
Lemma dirAdd_correct preserveOrder key describe st l :
  pages_distinct sha512Half dir -> dir_ok sha512Half dir st l ->
  dirAdd_post preserveOrder key st l (dirAdd sha512Half blank preserveOrder dir key describe st).
Proof.
  intros Hpk Hok. destruct l as [|r a]; [by apply dirAdd_first|].
  destruct (dir_last sha512Half dir Hpk st r a Hok) as (b & x & Heq & Hr & Hroot & Hprev & Hxb & Hxu & Hlast).
  unfold dirAdd. rewrite Hroot, Hprev.
  replace (if pg x =? 0 then dir else getDirNodeIndex sha512Half dir (pg x))
    with (getDirNodeIndex sha512Half dir (pg x)) by (unfold getDirNodeIndex; by destruct (pg x =? 0)).
  rewrite Hlast. change (sfIndexes (node_of dir (r :: a) x)) with (pg_entries x).
  assert (Hin : x ∈ r :: a) by (rewrite Heq; set_solver).
  pose proof (wf_size _ (proj1 Hok) _ Hin) as Hsz. pose proof (wf_max _ (proj1 Hok) _ Hin) as Hmx.
  destruct (Nat.ltb_spec (length (pg_entries x)) dirNodeMaxEntries) as [Hlt|Hge].
  - pose proof (add_to_page_spec preserveOrder key (pg_entries x)) as Hadd.
    destruct (add_to_page preserveOrder key (pg_entries x)) as [v|e]; cbn [mbind res_bind].
    2: { destruct Hadd as [-> Hk]. split; [done|]. rewrite Heq, entries_app, entries_one. set_solver. }
    destruct Hadd as (Hperm & Hnew & Hord).
    destruct (add_in_place sha512Half dir Hpk st b x v) as (st' & -> & Hok' & Hf); [by rewrite <-Heq| |].
    { rewrite Hperm. cbn. lia. }
    cbn [mbind res_bind]. exists (b ++ [mkDirPage (pg x) v (pg_extra x)]). split_and!; [done|done| |].
    + exists (mkDirPage (pg x) v (pg_extra x)). split_and!; [set_solver|done|]. cbn. rewrite Hperm. left.
    + rewrite Heq, !entries_app, !entries_one. cbn. destruct preserveOrder.
      * by rewrite Hord, app_assoc.
      * by rewrite Hperm, <-Permutation_middle.
  - assert (Hpage : u64 (pg x + 1) = pg x + 1).
    { unfold u64. apply Z.mod_small. unfold in_u64, dirNodeMaxPages in *. lia. }
    rewrite Hpage. destruct (Z.leb_spec dirNodeMaxPages (pg x + 1)) as [Hfull|Hfree].
    { split; [done|]. exists b, x. split_and!; [done|lia|lia]. }
    set (y := mkDirPage (pg x + 1) [key] (describe blank)).
    destruct (add_new_page sha512Half dir Hpk st r a b x y
      (mkDirNode [key] (if pg x + 1 =? 1 then 0 else pg x + 1 - 1) 0 dir (describe blank)))
      as (st1 & st2 & st3 & H1 & H2 & H3 & Hok' & Hf); try done.
    { cbn. unfold dirNodeMaxEntries. lia. }
    { intros He. rewrite He in Hge. cbn in Hge. unfold dirNodeMaxEntries in Hge. lia. }
    { cbn. f_equal. destruct (Z.eqb_spec (pg x + 1) 1); lia. }
    cbn [pg y] in H1, H2, H3. rewrite H1. cbn [mbind res_bind]. rewrite H2. cbn [mbind res_bind].
    rewrite H3. cbn [mbind res_bind].
    exists ((r :: a) ++ [y]). split_and!; [done|done| |].
    + exists y. split_and!; [set_solver|done|left].
    + rewrite entries_app, entries_one. cbn [pg_entries y]. destruct preserveOrder; [done|].
      by rewrite Permutation_app_comm.
Qed.
End AddClaim.

(** ** Chains of page numbers *)

Section Chain.
Context {D : Type}.
Implicit Types (l a b : list (DirPage D)) (x r : DirPage D).

(** The page numbers of a chain are as they should be, whatever its entries. *)
Definition chain r l : Prop :=
  pg r = 0 /\ StronglySorted Z.lt (pg <$> r :: l) /\ forall p, p ∈ pg <$> r :: l -> in_u64 p.

Lemma chain_NoDup r l : chain r l -> NoDup (pg <$> r :: l).
Proof. intros (_ & Hs & _). by apply sorted_NoDup. Qed.

Lemma chain_last r a b : chain r (a ++ b) -> last_page 0 (pg <$> a) ∈ pg <$> r :: a ++ b.
Proof.
  intros [Hr _]. rewrite <-Hr, <-(last_page_cons 0), <-fmap_cons, app_comm_cons, fmap_app, elem_of_app.
  left. rewrite fmap_cons. apply last_page_in.
Qed.

Lemma chain_hd r a x b : chain r (a ++ x :: b) -> hd 0 (pg <$> b) ∈ pg <$> r :: a ++ x :: b.
Proof.
  intros [Hr _]. destruct b as [|y b].
  - change (hd 0 (pg <$> [])) with 0. rewrite fmap_cons, Hr. left.
  - change (hd 0 (pg <$> y :: b)) with (pg y). rewrite fmap_cons, fmap_app, !fmap_cons. set_solver.
Qed.

Lemma chain_remove r a x b : chain r (a ++ x :: b) -> chain r (a ++ b).
Proof.
  intros (Hr & Hs & Hu). split; [done|]. split.
  - rewrite app_comm_cons, fmap_app in *. apply StronglySorted_app in Hs as (Hlt & Ha & Hb).
    apply StronglySorted_app. split_and!; [|done|by apply StronglySorted_inv in Hb as []].
    intros p q Hp Hq. apply Hlt; [done|]. by right.
  - intros p Hp. apply Hu. rewrite fmap_cons, fmap_app, ?fmap_cons in *. set_solver.
Qed.

(** The pages around [x] are others than [x]. *)
Lemma chain_neq r a x b :
  chain r (a ++ x :: b) -> pg x <> 0 /\ last_page 0 (pg <$> a) <> pg x /\ hd 0 (pg <$> b) <> pg x /\
    ring_prev (pg <$> r :: a ++ x :: b) (pg x) = last_page 0 (pg <$> a) /\
    ring_next (pg <$> r :: a ++ x :: b) (pg x) = hd 0 (pg <$> b).
Proof.
  intros Hc. pose proof (chain_NoDup _ _ Hc) as Hd. destruct Hc as (Hr & Hs & _).
  rewrite app_comm_cons, fmap_app, fmap_cons in Hd. apply NoDup_app in Hd as (_ & Hab & [Hxb _]%NoDup_cons).
  assert (Hxa : pg x ∉ pg <$> r :: a) by (intros H; apply (Hab _ H); left).
  assert (Hx0 : pg x <> 0) by (intros He; apply Hxa; rewrite He, fmap_cons, Hr; left).
  split_and!; [done| | | |].
  - intros He. apply Hxa. rewrite fmap_cons, <-He, <-Hr, <-(last_page_cons 0). apply last_page_in.
  - intros He. destruct b as [|y b]; cbn in He; [done|]. apply Hxb. rewrite <-He. left.
  - rewrite fmap_cons, fmap_app, fmap_cons. rewrite ring_prev_at; [by rewrite Hr|by rewrite fmap_cons in Hxa].
  - rewrite app_comm_cons, fmap_app. change (pg <$> x :: b) with (pg x :: (pg <$> b)). by apply ring_next_at.
Qed.

End Chain.

(** ** Removing *)

Section Remove.
Context {D : Type} (sha512Half : Z -> Z -> Z) (dir : Z).
Implicit Types (st : gmap Z (DirNode D)) (l a b : list (DirPage D)) (x y r : DirPage D).
#[local] Abbreviation pk := (getDirNodeIndex sha512Half dir).
#[local] Abbreviation holds := (holds sha512Half dir).
#[local] Abbreviation frame := (frame sha512Half dir).
#[local] Abbreviation look := (look dir).

Context (Hpk : pages_distinct sha512Half dir).

(** Redirecting the neighbours of [x] and erasing it. *)
Lemma unlink st r a x b :
  holds st (look (r :: a ++ x :: b)) -> chain r (a ++ x :: b) ->
  let prevPage := last_page 0 (pg <$> a) in let nextPage := hd 0 (pg <$> b) in
  exists st1 st2 st3, is_Some (st !! pk prevPage) /\
    update (set_next nextPage) (pk prevPage) st = Ok st1 /\ is_Some (st1 !! pk nextPage) /\
    update (set_previous prevPage) (pk nextPage) st1 = Ok st2 /\ erase (pk (pg x)) st2 = Ok st3 /\
    holds st3 (look (r :: a ++ b)) /\ frame st st3.
Proof.
  intros Hst Hc prevPage nextPage. pose proof Hc as (Hr & _ & Hu).
  pose proof (chain_last _ _ _ Hc) as Hp. pose proof (chain_hd _ _ _ _ Hc) as Hn.
  assert (Hx : pg x ∈ pg <$> r :: a ++ x :: b) by (rewrite fmap_cons, fmap_app, fmap_cons; set_solver).
  fold prevPage in Hp. fold nextPage in Hn.
  destruct (update_holds sha512Half dir Hpk st _ (set_next nextPage) prevPage Hst) as (st1 & Hu1 & Hst1 & Hf1);
    [by apply Hu|by apply look_dom|].
  assert (Hn1 : is_Some (st1 !! pk nextPage)).
  { rewrite Hst1 by by apply Hu. rewrite fmap_is_Some. by apply look_dom. }
  destruct (update_holds sha512Half dir Hpk st1 _ (set_previous prevPage) nextPage Hst1) as (st2 & Hu2 & Hst2 & Hf2);
    [by apply Hu|by rewrite fmap_is_Some; apply look_dom|].
  destruct (erase_holds sha512Half dir Hpk st2 _ (pg x) Hst2) as (st3 & Hu3 & Hst3 & Hf3);
    [by apply Hu|by rewrite !fmap_is_Some; apply look_dom|].
  exists st1, st2, st3. split_and!; try done.
  - rewrite Hst by by apply Hu. by apply look_dom.
  - eapply holds_ext; [done|]. intros q _. cbn beta. rewrite (look_remove dir r a x b q (chain_NoDup _ _ Hc) Hr).
    destruct (q =? pg x); [done|]. fold prevPage nextPage.
    by destruct (look (r :: a ++ x :: b) q).
  - by eapply frame_trans; [eapply frame_trans|].
Qed.

(** Erasing the last page and closing the ring before it. *)
Lemma unlink_last st r a y :
  holds st (look (r :: a ++ [y])) -> chain r (a ++ [y]) ->
  let prevPage := last_page 0 (pg <$> a) in
  exists st1 st2 st3, erase (pk (pg y)) st = Ok st1 /\
    update (set_next 0) (pk prevPage) st1 = Ok st2 /\ is_Some (st2 !! pk 0) /\
    update (set_previous prevPage) (pk 0) st2 = Ok st3 /\
    holds st3 (look (r :: a)) /\ frame st st3.
Proof.
  intros Hst Hc prevPage. pose proof Hc as (Hr & _ & Hu).
  pose proof (chain_last _ _ _ Hc) as Hp. destruct (chain_neq _ _ _ _ Hc) as (Hy0 & Hyp & _).
  assert (Hy : pg y ∈ pg <$> r :: a ++ [y]) by (rewrite fmap_cons, fmap_app, fmap_cons; set_solver).
  assert (H0 : 0 ∈ pg <$> r :: a ++ [y]) by (rewrite fmap_cons, Hr; left).
  fold prevPage in Hp, Hyp.
  destruct (erase_holds sha512Half dir Hpk st _ (pg y) Hst) as (st1 & Hu1 & Hst1 & Hf1);
    [by apply Hu|by apply look_dom|].
  destruct (update_holds sha512Half dir Hpk st1 _ (set_next 0) prevPage Hst1) as (st2 & Hu2 & Hst2 & Hf2);
    [by apply Hu|rewrite (proj2 (Z.eqb_neq _ _)) by done; by apply look_dom|].
  assert (Hr2 : is_Some (if 0 =? pg y then None else look (r :: a ++ [y]) 0)).
  { rewrite (proj2 (Z.eqb_neq _ _)) by done. by apply look_dom. }
  assert (H02 : is_Some (st2 !! pk 0)) by (rewrite Hst2 by (by apply Hu); by rewrite fmap_is_Some).
  destruct (update_holds sha512Half dir Hpk st2 _ (set_previous prevPage) 0 Hst2) as (st3 & Hu3 & Hst3 & Hf3);
    [by apply Hu|by rewrite fmap_is_Some|].
  exists st1, st2, st3. split_and!; try done.
  - eapply holds_ext; [done|]. intros q _. cbn beta. rewrite <-(app_nil_r a) at 2.
    rewrite (look_remove dir r a y [] q (chain_NoDup _ _ Hc) Hr). cbn [hd fmap list_fmap]. fold prevPage.
    destruct (q =? pg y); [done|]. by destruct (look (r :: a ++ [y]) q).
  - by eapply frame_trans; [eapply frame_trans|].
Qed.

(** Erasing the last page after the root alone. *)
Lemma unlink_second st r y :
  holds st (look [r; y]) -> chain r [y] ->
  exists st1 st2, update (set_previous 0 ∘ set_next 0) (pk 0) st = Ok st1 /\ erase (pk (pg y)) st1 = Ok st2 /\
    holds st2 (look [r]) /\ frame st st2.
Proof.
  intros Hst Hc. pose proof Hc as (Hr & _ & Hu). 
  assert (Hy : pg y ∈ pg <$> [r; y]) by set_solver. assert (H0 : 0 ∈ pg <$> [r; y]) by (rewrite <-Hr; set_solver).
  destruct (update_holds sha512Half dir Hpk st _ (set_previous 0 ∘ set_next 0) 0 Hst) as (st1 & Hu1 & Hst1 & Hf1);
    [by apply Hu|by apply look_dom|].
  destruct (erase_holds sha512Half dir Hpk st1 _ (pg y) Hst1) as (st2 & Hu2 & Hst2 & Hf2);
    [by apply Hu|by rewrite fmap_is_Some; apply look_dom|].
  exists st1, st2. split_and!; try done; [|by eapply frame_trans].
  eapply holds_ext; [done|]. intros q _. cbn beta.
  pose proof (look_remove dir r [] y [] q (chain_NoDup _ _ Hc) Hr) as Hl.
  cbn [app hd fmap list_fmap last_page] in Hl. rewrite Hl.
  destruct (q =? pg y); [done|]. destruct (look [r; y] q) as [n|]; [|done]. cbn. by destruct (q =? 0).
Qed.

(** Erasing the root when it is alone. *)
Lemma erase_root st r :
  holds st (look [r]) -> pg r = 0 ->
  exists st1, erase dir st = Ok st1 /\ holds st1 (look []) /\ frame st st1.
Proof.
  intros Hst Hr.
  destruct (erase_holds sha512Half dir Hpk st _ 0 Hst) as (st1 & Hu1 & Hst1 & Hf1);
    [unfold in_u64; lia|rewrite <-Hr; by apply look_dom; left|].
  exists st1. split_and!; [done| |done]. eapply holds_ext; [done|]. intros q _. cbn beta.
  unfold Directory.look, find_page. rewrite Hr, (Z.eqb_sym 0). by destruct (q =? 0).
Qed.
End Remove.

(** The pages that stay when one has been emptied. An empty last page left right after
    it goes with it, and so does a root left alone and empty that need not be kept. *)
Definition drop_empty {D} (b : list (DirPage D)) : list (DirPage D) :=
  match b with
  | [y] => if bool_decide (pg_entries y = []) then [] else b
  | _ => b
  end.

Definition drop_root {D} (keepRoot : bool) (l : list (DirPage D)) : list (DirPage D) :=
  match l with
  | [r] => if negb keepRoot && bool_decide (pg_entries r = []) then [] else l
  | _ => l
  end.

(** The pages of a directory after an entry has gone from the page [x] between [a] and
    [b]: an emptied page is unlinked unless it is the root. *)
Definition pages_after {D} (keepRoot : bool) (a : list (DirPage D)) (x : DirPage D) (b : list (DirPage D)) : list (DirPage D) :=
  if bool_decide (pg_entries x = []) then
    drop_root keepRoot (match a with [] => x :: drop_empty b | _ => a ++ drop_empty b end)
  else a ++ x :: b.

Section RemoveOps.
Context {D : Type} (sha512Half : Z -> Z -> Z) (dir : Z).
Implicit Types (st : gmap Z (DirNode D)) (l a b : list (DirPage D)) (x y r : DirPage D).

Lemma drop_empty_many y z b : drop_empty (y :: z :: b) = y :: z :: b.
Proof. done. Qed.

Lemma drop_empty_not b : ~ (exists y, b = [y] /\ pg_entries y = []) -> drop_empty b = b.
Proof. intros H. destruct b as [|y [|z b]]; [done| |done]. cbn. case_bool_decide; [|done]. destruct H. by exists y. Qed.

Lemma drop_root_not (keepRoot : bool) r l : (keepRoot = false -> dir_entries (r :: l) <> []) -> drop_root keepRoot (r :: l) = r :: l.
Proof.
  intros H. destruct l as [|y l]; [|done]. cbn. destruct keepRoot; [done|]. cbn. case_bool_decide as He; [|done].
  destruct (H eq_refl). unfold dir_entries. cbn. by rewrite He.
Qed.

(** The directory is now [l'], of the same other entries; it is gone exactly when allowed and empty. *)
Definition removed st st' l' (keepRoot : bool) (entries : list Z) : Prop :=
  dir_ok sha512Half dir st' l' /\ frame sha512Half dir st st' /\ dir_entries l' = entries /\
  (l' = [] -> keepRoot = false) /\ (keepRoot = false -> entries = [] -> l' = []).

Lemma wf_chain r l : pages_wf (r :: l) -> chain r l.
Proof.
  intros Hwf. split_and!.
  - pose proof (wf_root _ Hwf) as H. specialize (H ltac:(done)). by injection H.
  - apply Hwf.
  - intros p (x & -> & Hx)%list_elem_of_fmap. by apply (pages_u64 _ _ Hwf).
Qed.

Lemma entries_cons x l : dir_entries (x :: l) = pg_entries x ++ dir_entries l.
Proof. done. Qed.

Context (Hpk : pages_distinct sha512Half dir).

Lemma erased_post st st1 st2 r :
  pg_entries r = [] -> frame sha512Half dir st st1 ->
  (holds sha512Half dir st2 (look dir []) /\ frame sha512Half dir st1 st2) -> removed st st2 [] false [].
Proof.
  intros Hr Hf [H1 H2]. split_and!; [split; [apply wf_nil|done]|by eapply frame_trans|done..].
Qed.

Lemma remove_from_root_ok st r b keepRoot :
  dir_ok sha512Half dir st (r :: b) -> pg_entries r = [] ->
  exists st', remove_from_root sha512Half dir (last_page 0 (pg <$> b)) (hd 0 (pg <$> b)) keepRoot st =
      Ok (true, st') /\ removed st st' (drop_root keepRoot (r :: drop_empty b)) keepRoot (dir_entries b).
Proof.
  intros [Hwf Hst] Hr. pose proof (wf_chain _ _ Hwf) as Hc. pose proof Hc as (Hr0 & Hs & Hu).
  assert (Hkeep : b <> [] \/ keepRoot = true -> (keepRoot = false -> dir_entries b <> []) ->
    removed st st (r :: b) keepRoot (dir_entries b)).
  { intros Hb Hne. split_and!; [done|done|by rewrite entries_cons, Hr|done|].
    intros Hk He. by specialize (Hne Hk). }
  unfold remove_from_root. destruct b as [|y b]; [|destruct b as [|z b]].
  - cbn. rewrite bool_decide_true by done. destruct keepRoot; cbn; [exists st; split; [done|]; apply Hkeep; [by right|done]|].
    destruct (erase_root sha512Half dir Hpk st r Hst Hr0) as (st1 & He & H1 & H2).
    rewrite He. exists st1. split; [done|]. by eapply erased_post.
  - cbn [fmap list_fmap hd]. change (last_page 0 [pg y]) with (pg y).
    destruct (chain_neq _ [] _ _ Hc) as (Hy0 & _). rewrite (proj2 (Z.eqb_neq (pg y) 0)), Z.eqb_refl by done.
    cbn [negb andb]. rewrite Hst by (apply Hu; set_solver).
    replace (look dir [r; y] (pg y)) with (Some (node_of dir [r; y] y)).
    2: { symmetry. apply (look_at dir [r] y []). intros H%list_elem_of_singleton. congruence. }
    cbn [sfIndexes node_of]. case_bool_decide as Hey.
    + destruct (unlink_second sha512Half dir Hpk st r y Hst Hc) as (st1 & st2 & Hu1 & Hu2 & Hst2 & Hf2).
      change (getDirNodeIndex sha512Half dir 0) with dir in Hu1. rewrite Hu1. cbn [mbind res_bind].
      rewrite Hu2. cbn [mbind res_bind]. unfold dir_entries. cbn [fmap list_fmap concat]. unfold drop_empty. rewrite Hey. cbn [app]. unfold drop_root. rewrite !bool_decide_true by done.
      destruct keepRoot; cbn [negb andb].
      * exists st2. split; [done|]. split_and!; [|done|by rewrite entries_one|done|done].
        split; [|done]. by apply (wf_remove r [] y []).
      * cbn. destruct (erase_root sha512Half dir Hpk st2 r Hst2 Hr0) as (st3 & He & H1 & H2).
        rewrite He. exists st3. split; [done|]. by eapply erased_post.
    + cbn [mbind res_bind]. unfold drop_empty. rewrite bool_decide_false by done. exists st. split; [destruct keepRoot; [done|]; by rewrite (proj2 (Z.eqb_neq (pg y) 0))|].
      apply Hkeep; [by left|]. intros _. by rewrite entries_one.
  - cbn [fmap list_fmap hd].
    assert (Hlast : pg y < last_page 0 (pg <$> y :: z :: b) /\ 0 < pg y).
    { rewrite fmap_cons, last_page_cons. rewrite !fmap_cons, Hr0 in Hs.
      apply StronglySorted_inv in Hs as [Hs H0]. rewrite Forall_forall in H0.
      apply StronglySorted_inv in Hs as [_ H1]. rewrite Forall_forall in H1. split; [|apply H0; left].
      apply H1. rewrite fmap_cons, last_page_cons, <-(last_page_cons 0). apply last_page_in. }
    change (pg y :: pg z :: _) with (pg <$> y :: z :: b).
    rewrite (proj2 (Z.eqb_neq (pg y) 0)), (proj2 (Z.eqb_neq (last_page 0 _) 0)),
      (proj2 (Z.eqb_neq (pg y) (last_page 0 _))) by lia.
    cbn [negb andb mbind res_bind]. rewrite (proj2 (Z.eqb_neq (pg y) 0)) by lia. cbn [andb].
    exists st. split; [by destruct keepRoot|]. apply Hkeep; [by left|].
    intros _ He. apply (wf_filled _ Hwf 1 y); [done|lia|cbn; lia|]. rewrite entries_cons in He.
    by apply app_nil in He as [].
Qed.

(** After the unlinking, the root goes too when it is alone and empty. *)
Lemma drop_root_ok st0 st r l keepRoot nextPage prevPage :
  dir_ok sha512Half dir st (r :: l) -> frame sha512Half dir st0 st -> pg r = 0 ->
  (nextPage = 0 /\ prevPage = 0 <-> l = []) -> (l <> [] -> dir_entries l <> []) ->
  exists st',
    (if negb keepRoot && (nextPage =? 0) && (prevPage =? 0) &&
        indexes_empty (getDirNodeIndex sha512Half dir prevPage) st
     then st' ← erase (getDirNodeIndex sha512Half dir prevPage) st; Ok (true, st') else Ok (true, st)) =
      Ok (true, st') /\ removed st0 st' (drop_root keepRoot (r :: l)) keepRoot (dir_entries (r :: l)).
Proof.
  intros [Hwf Hst] Hf Hr Hl Hne.
  assert (Hkeep : (keepRoot = false -> dir_entries (r :: l) <> []) ->
    removed st0 st (drop_root keepRoot (r :: l)) keepRoot (dir_entries (r :: l))).
  { intros H. rewrite drop_root_not by done. split_and!; try done. intros Hk He. by specialize (H Hk). }
  destruct keepRoot; [exists st; split; [done|by apply Hkeep]|].
  destruct (decide (nextPage = 0 /\ prevPage = 0)) as [H0|H0].
  - assert (l = []) as -> by by apply Hl. destruct H0 as [-> ->]. cbn [negb andb Z.eqb].
    assert (H0 : st !! getDirNodeIndex sha512Half dir 0 = Some (node_of dir [r] r)).
    { rewrite Hst by (unfold in_u64; lia). rewrite <-Hr. apply (look_at dir [] r []). apply not_elem_of_nil. }
    unfold indexes_empty. rewrite H0. cbn [sfIndexes node_of]. case_bool_decide as He.
    + destruct (erase_root sha512Half dir Hpk st r Hst Hr) as (st1 & Hu & H1 & H2).
      change (getDirNodeIndex sha512Half dir 0) with dir. rewrite Hu. exists st1. split; [done|].
      unfold drop_root. rewrite entries_one, He, bool_decide_true by done. by eapply erased_post.
    + exists st. split; [done|]. apply Hkeep. by rewrite entries_one.
  - assert (Hln : l <> []) by (intros He; by apply H0, Hl).
    exists st. split.
    + destruct (Z.eqb_spec nextPage 0), (Z.eqb_spec prevPage 0); try done. by destruct H0.
    + apply Hkeep. intros _. rewrite entries_cons. intros [_ He]%app_nil. by apply Hne.
Qed.

Lemma last_page_0 r a b : chain r (a ++ b) -> last_page 0 (pg <$> a) = 0 <-> a = [].
Proof.
  intros (Hr & Hs & _). split; [|by intros ->]. destruct a as [|y a]; [done|]. rewrite fmap_cons, last_page_cons.
  rewrite <-app_comm_cons, !fmap_cons, fmap_app, Hr in Hs. apply StronglySorted_inv in Hs as [_ Hs].
  rewrite app_comm_cons, Forall_app in Hs. destruct Hs as [Hs _]. rewrite Forall_forall in Hs.
  intros He. specialize (Hs (last_page 0 (pg y :: (pg <$> a))) (last_page_in _ _ _)).
  rewrite last_page_cons in Hs. lia.
Qed.

Lemma hd_page_0 r a b : chain r (a ++ b) -> hd 0 (pg <$> b) = 0 <-> b = [].
Proof.
  intros (Hr & Hs & _). split; [|by intros ->]. destruct b as [|y b]; [done|]. cbn. intros He.
  rewrite fmap_cons, fmap_app, fmap_cons, Hr in Hs. apply StronglySorted_inv in Hs as [_ Hs].
  apply Forall_app in Hs as [_ Hs]. apply Forall_inv in Hs. lia.
Qed.

(** Pages before the last hold entries. *)
Lemma filled_entries r a x b :
  pages_wf (r :: a ++ x :: b) -> a <> [] -> dir_entries a <> [].
Proof.
  intros Hwf Ha. destruct a as [|y a]; [done|]. rewrite entries_cons. intros [He _]%app_nil.
  apply (wf_filled _ Hwf 1 y); [done|lia|rewrite <-app_comm_cons; cbn; rewrite length_app; cbn; lia|done].
Qed.

Lemma filled_after r a x b :
  pages_wf (r :: a ++ x :: b) -> dir_entries b = [] -> b = [] \/ exists y, b = [y] /\ pg_entries y = [].
Proof.
  intros Hwf He. destruct b as [|y b]; [by left|right]. rewrite entries_cons in He. apply app_nil in He as [Hy He].
  exists y. split; [|done]. destruct b as [|z b]; [done|]. exfalso.
  apply (wf_filled _ Hwf (S (S (length a))) y); [|lia| |done].
  - replace (r :: a ++ x :: y :: z :: b) with ((r :: a ++ [x]) ++ y :: z :: b) by (cbn; by rewrite <-app_assoc).
    apply list_lookup_middle. cbn. rewrite length_app. cbn. lia.
  - cbn. rewrite length_app. cbn. lia.
Qed.

(** [next] is an empty last page. *)
Lemma next_is_empty_last st r a b :
  holds sha512Half dir st (look dir (r :: a ++ b)) -> chain r (a ++ b) ->
  let next := getDirNodeIndex sha512Half dir (hd 0 (pg <$> b)) in
  negb (hd 0 (pg <$> b) =? 0) && (next_of next st =? 0) && indexes_empty next st = true <->
  exists y, b = [y] /\ pg_entries y = [].
Proof.
  intros Hst Hc next. destruct b as [|y b]; cbn [hd fmap list_fmap] in *.
  { cbn. split; [done|]. by intros (? & ? & _). }
  destruct (chain_neq _ _ _ _ Hc) as (Hy0 & _ & _ & _ & Hn). pose proof Hc as (_ & _ & Hu).
  assert (Hy : st !! next = Some (node_of dir (r :: a ++ y :: b) y)).
  { unfold next. rewrite Hst by (apply Hu; rewrite fmap_cons, fmap_app, fmap_cons; set_solver).
    apply (look_at dir (r :: a) y b). pose proof (chain_NoDup _ _ Hc) as Hd.
    rewrite app_comm_cons, fmap_app, fmap_cons in Hd. apply NoDup_app in Hd as (_ & Hab & _).
    intros H. apply (Hab _ H). left. }
  unfold next_of, indexes_empty. rewrite Hy. cbn [sfIndexNext sfIndexes node_of]. rewrite Hn.
  rewrite (proj2 (Z.eqb_neq (pg y) 0)) by done. cbn [negb andb]. rewrite andb_true_iff, Z.eqb_eq, bool_decide_eq_true.
  rewrite (hd_page_0 r (a ++ [y]) b) by by rewrite <-app_assoc.
  split; [intros [-> ?]; by exists y|]. by intros (? & [= <- ->] & ?).
Qed.

Lemma remove_page_ok st r a x b keepRoot :
  pages_wf (r :: a ++ x :: b) ->
  holds sha512Half dir st (look dir (r :: a ++ mkDirPage (pg x) [] (pg_extra x) :: b)) ->
  exists st',
    remove_page sha512Half dir (pg x) (last_page 0 (pg <$> a)) (hd 0 (pg <$> b)) keepRoot st = Ok (true, st') /\
    removed st st' (drop_root keepRoot (r :: a ++ drop_empty b)) keepRoot (dir_entries (r :: a ++ b)).
Proof.
  intros Hwf Hst. set (x' := mkDirPage (pg x) [] (pg_extra x)) in *.
  assert (Hc : chain r (a ++ x' :: b)).
  { pose proof (wf_chain _ _ Hwf) as Hc. unfold chain in *. by rewrite !fmap_cons, !fmap_app, !fmap_cons in *. }
  pose proof (chain_remove _ _ _ _ Hc) as Hc'. pose proof (wf_remove _ _ _ _ Hwf) as Hwf'.
  destruct (chain_neq _ _ _ _ Hc) as (_ & Hp & Hn & _). pose proof Hc as (Hr & _ & _).
  destruct (unlink sha512Half dir Hpk st r a x' b Hst Hc) as (st1 & st2 & st3 & [n1 Hs1] & Hu1 & [n2 Hs2] & Hu2 & Hu3 & Hst3 & Hf3).
  cbn [pg x'] in Hp, Hn, Hu3. unfold remove_page.
  rewrite (proj2 (Z.eqb_neq (hd 0 _) (pg x))), (proj2 (Z.eqb_neq (last_page 0 _) (pg x))) by done.
  rewrite Hs1, Hu1. cbn [mbind res_bind]. rewrite Hs2, Hu2. cbn [mbind res_bind]. rewrite Hu3. cbn [mbind res_bind].
  pose proof (next_is_empty_last st3 r a b Hst3 Hc') as Hcond. cbn zeta in Hcond.
  destruct (negb _ && _ && _).
  - destruct (proj1 Hcond eq_refl) as (y & -> & Hy). change (hd 0 (pg <$> [y])) with (pg y).
    destruct (unlink_last sha512Half dir Hpk st3 r a y Hst3 Hc') as (st4 & st5 & st6 & Hu4 & Hu5 & [n6 Hs5] & Hu6 & Hst6 & Hf6).
    rewrite Hu4. cbn [mbind res_bind]. rewrite Hu5. cbn [mbind res_bind]. rewrite Hs5, Hu6. cbn [mbind res_bind].
    replace (dir_entries (r :: a ++ [y])) with (dir_entries (r :: a))
      by (rewrite !entries_cons, entries_app, entries_one, Hy; by rewrite app_nil_r).
    unfold drop_empty. rewrite bool_decide_true, app_nil_r by done. apply drop_root_ok; [split; [|done]|by eapply frame_trans|done| |].
    + rewrite <-(app_nil_r a). by apply (wf_remove r a y []).
    + rewrite (last_page_0 r a [y]) by done. tauto.
    + intros Ha. by eapply filled_entries.
  - cbn [mbind res_bind]. rewrite drop_empty_not by (intros Hy; by apply Hcond in Hy). apply drop_root_ok; [by split|done|done| |].
    + rewrite (last_page_0 r a b), (hd_page_0 r a b) by done. split; [by intros [-> ->]|]. by intros [-> ->]%app_nil.
    + intros Hne He. rewrite entries_app in He. apply app_nil in He as [Ha Hb].
      destruct (decide (a = [])) as [->|Hna]; [|by eapply filled_entries].
      destruct (filled_after _ _ _ _ Hwf Hb) as [->|Hy]; [done|]. by apply Hcond in Hy.
Qed.
End RemoveOps.

Lemma erase_first_in key (v : list Z) : key ∈ v -> exists pre post, v = pre ++ key :: post /\ erase_first key v = pre ++ post.
Proof.
  induction v as [|x v IH]; intros Hin; [by apply elem_of_nil in Hin|]. cbn.
  destruct (Z.eqb_spec x key) as [->|Hne]; [by exists [], v|].
  apply elem_of_cons in Hin as [->|Hin]; [done|]. destruct (IH Hin) as (pre & post & -> & ->).
  by exists (x :: pre), post.
Qed.

Section RemoveClaim.
Context {D : Type} (sha512Half : Z -> Z -> Z) (dir : Z).
Implicit Types (st : gmap Z (DirNode D)) (l : list (DirPage D)).

(** What a call of [dirRemove] on the directory [l] returns. *)
Definition dirRemove_post (page key : Z) (keepRoot : bool) st l (r : bool) st' : Prop :=
  exists l', dir_ok sha512Half dir st' l' /\ frame sha512Half dir st st' /\
  if r then
    (exists a x b pre post, l = a ++ x :: b /\ pg x = page /\ pg_entries x = pre ++ key :: post /\
      l' = pages_after keepRoot a (mkDirPage (pg x) (pre ++ post) (pg_extra x)) b) /\
    (exists pre post, dir_entries l = pre ++ key :: post /\ dir_entries l' = pre ++ post) /\
    (forall y, y ∈ l' -> pg_entries y = [] -> pg y = 0 \/ y ∈ l /\ pg y <> page) /\
    (l' = [] <-> keepRoot = false /\ dir_entries l' = [])
  else st' = st /\ forall x, x ∈ l -> pg x = page -> key ∉ pg_entries x.

Lemma drop_empty_in y (b : list (DirPage D)) : y ∈ drop_empty b -> y ∈ b.
Proof. destruct b as [|z [|w b]]; [done| |done]. cbn. case_bool_decide; [by intros ?%elem_of_nil|done]. Qed.

Lemma drop_root_in (keepRoot : bool) y l : y ∈ drop_root keepRoot l -> y ∈ l.
Proof. destruct l as [|z [|w l]]; [done| |done]. cbn. destruct (_ && _); [by intros ?%elem_of_nil|done]. Qed.

(** A page that has no entries is the root, or had none before. *)
Lemma pages_after_empty (keepRoot : bool) (a : list (DirPage D)) x b v y : pages_wf (a ++ x :: b) ->
  y ∈ pages_after keepRoot a (mkDirPage (pg x) v (pg_extra x)) b -> pg_entries y = [] -> pg y = 0 \/ y ∈ a ++ x :: b /\ pg y <> pg x.
Proof.
  intros Hwf Hy He. pose proof (pages_NoDup _ Hwf) as Hd. rewrite fmap_app, fmap_cons in Hd. apply NoDup_app in Hd as (_ & Hab & [Hxb _]%NoDup_cons).
  assert (Hin : y ∈ a \/ y ∈ b -> pg y = 0 \/ y ∈ a ++ x :: b /\ pg y <> pg x).
  { intros Hor. right. split; [set_solver|]. intros E. destruct Hor as [H|H].
    - apply (Hab (pg y)); [by apply list_elem_of_fmap_2|rewrite E; left].
    - apply Hxb. rewrite <-E. by apply list_elem_of_fmap_2. }
  unfold pages_after in Hy. cbn [pg_entries] in Hy. case_bool_decide as Hv.
  - apply drop_root_in in Hy. destruct a as [|r a].
    + apply elem_of_cons in Hy as [->|Hy%drop_empty_in]; [left|by apply Hin; right]. cbn. pose proof (wf_root _ Hwf ltac:(done)) as H0. by injection H0.
    + apply elem_of_app in Hy as [Hy|Hy%drop_empty_in]; apply Hin; [by left|by right].
  - apply elem_of_app in Hy as [Hy|[->|Hy]%elem_of_cons]; [apply Hin; by left|done|apply Hin; by right].
Qed.

Lemma removed_post st st' (a : list (DirPage D)) x b (keepRoot : bool) key pre post : pages_wf (a ++ x :: b) ->
  pg_entries x = pre ++ key :: post ->
  removed sha512Half dir st st' (pages_after keepRoot a (mkDirPage (pg x) (pre ++ post) (pg_extra x)) b) keepRoot (dir_entries a ++ (pre ++ post) ++ dir_entries b) ->
  dirRemove_post (pg x) key keepRoot st (a ++ x :: b) true st'.
Proof.
  intros Hwf Hx (Hok & Hf & He & H1 & H2). eexists. split_and!; [done|done| | | |].
  - by exists a, x, b, pre, post.
  - exists (dir_entries a ++ pre), (post ++ dir_entries b).
    rewrite entries_app, entries_cons, Hx, He. by rewrite <-!app_assoc.
  - intros y. by apply pages_after_empty.
  - rewrite He. split; [intros E; rewrite E in *; split; [by apply H1|by rewrite <-He]|]. intros [? ?]. by apply H2.
Qed.

Lemma removed_frame st st1 st2 l' (keepRoot : bool) es :
  frame sha512Half dir st st1 -> removed sha512Half dir st1 st2 l' keepRoot es ->
  removed sha512Half dir st st2 l' keepRoot es.
Proof. intros H (? & Hf & Hrest). split; [done|]. split; [by eapply frame_trans|done]. Qed.

Lemma pages_unique l (x y : DirPage D) : NoDup (pg <$> l) -> x ∈ l -> y ∈ l -> pg x = pg y -> x = y.
Proof.
  induction l as [|z l IH]; [by intros _ ?%elem_of_nil|]. rewrite fmap_cons. intros [Hz Hd]%NoDup_cons.
  intros [->|Hx]%elem_of_cons [->|Hy]%elem_of_cons Heq; [done| | |by apply IH].
  - destruct Hz. rewrite Heq. by apply list_elem_of_fmap_2.
  - destruct Hz. rewrite <-Heq. by apply list_elem_of_fmap_2.
Qed.

(** The page has become empty: the two ways on. *)
Lemma emptied_ok st a x b keepRoot :
  pages_distinct sha512Half dir -> pages_wf (a ++ x :: b) ->
  holds sha512Half dir st (look dir (a ++ mkDirPage (pg x) [] (pg_extra x) :: b)) ->
  let prevPage := ring_prev (pg <$> a ++ x :: b) (pg x) in
  let nextPage := ring_next (pg <$> a ++ x :: b) (pg x) in
  exists st',
    (if pg x =? 0 then remove_from_root sha512Half dir prevPage nextPage keepRoot st
     else remove_page sha512Half dir (pg x) prevPage nextPage keepRoot st) = Ok (true, st') /\
    removed sha512Half dir st st' (pages_after keepRoot a (mkDirPage (pg x) [] (pg_extra x)) b) keepRoot (dir_entries a ++ dir_entries b).
Proof.
  intros Hpk Hwf Hst. unfold pages_after. rewrite bool_decide_true by done. destruct a as [|r a]; cbn [app].
  - pose proof (wf_chain _ _ Hwf) as (Hr & _ & _). rewrite Hr, Z.eqb_refl.
    replace (ring_prev _ _) with (last_page 0 (pg <$> b)).
    2: { rewrite fmap_cons, Hr. unfold ring_prev. cbn. by rewrite last_page_cons. }
    replace (ring_next _ _) with (hd 0 (pg <$> b)).
    2: { rewrite fmap_cons, Hr. by unfold ring_next. }
    cbn zeta. replace (mkDirPage 0 [] (pg_extra x)) with (mkDirPage (pg x) [] (pg_extra x)) by by rewrite Hr. apply (remove_from_root_ok _ _ Hpk _ (mkDirPage (pg x) [] (pg_extra x))); [|done]. split; [|done].
    by apply (wf_set [] x b []); [|cbn; unfold dirNodeMaxEntries; lia|].
  - pose proof (wf_chain _ _ Hwf) as Hc. destruct (chain_neq _ _ _ _ Hc) as (H0 & _ & _ & Hp & Hn).
    cbn zeta. rewrite (proj2 (Z.eqb_neq (pg x) 0)) by done. rewrite Hp, Hn.
    rewrite entries_cons, <-app_assoc, <-entries_app, <-entries_cons. by apply remove_page_ok.
Qed.

(** Removing from a directory. On a well-formed directory [dirRemove] never
    fails. It returns false, changing nothing, when the named page does not hold
    the key; otherwise it removes that one entry and keeps all others in their
    order and on their pages, keeps the directory well-formed - unlinking the page if
    it is now empty and not the root, with an empty last page right after it - and
    touches nothing else in the ledger. The whole directory is gone exactly when no entry is left and the root
    need not be kept. *)
Lemma dirRemove_correct page key keepRoot st l :
  pages_distinct sha512Half dir -> dir_ok sha512Half dir st l -> in_u64 page ->
  exists r st', dirRemove sha512Half dir page key keepRoot st = Ok (r, st') /\
    dirRemove_post page key keepRoot st l r st'.
Proof.
  intros Hpk [Hwf Hst] Hpage. unfold dirRemove. rewrite Hst by done.
  destruct (find_page page l) as [x|] eqn:Ef; unfold look; rewrite Ef; cbn [fmap option_fmap option_map].
  2: { exists false, st. split; [done|]. exists l. split_and!; [done|done|done|].
       intros x Hx <-. apply find_page_None in Ef. destruct Ef. by apply list_elem_of_fmap_2. }
  apply find_page_Some in Ef as [Hin <-]. apply list_elem_of_split in Hin as (a & b & ->).
  assert (Hxa : pg x ∉ pg <$> a).
  { pose proof (pages_NoDup _ Hwf) as Hd. rewrite fmap_app, fmap_cons in Hd. apply NoDup_app in Hd as (_ & Hab & _).
    intros H. apply (Hab _ H). left. }
  cbn [sfIndexes node_of sfIndexPrevious sfIndexNext]. case_bool_decide as Hkey.
  2: { exists false, st. split; [done|]. exists (a ++ x :: b). split_and!; [done|done|done|].
       intros y Hy Hpg. rewrite (pages_unique (a ++ x :: b) y x); [done|by apply pages_NoDup|done|set_solver|done]. }
  destruct (erase_first_in _ _ Hkey) as (pre & post & Hx & ->).
  destruct (update_holds sha512Half dir Hpk st _ (set_indexes (pre ++ post)) (pg x) Hst Hpage) as (st1 & -> & Hst1 & Hf1).
  { apply look_dom. rewrite fmap_app, fmap_cons. set_solver. }
  cbn [mbind res_bind].
  eapply (holds_ext _ _ _ _ (look dir (a ++ mkDirPage (pg x) (pre ++ post) (pg_extra x) :: b))) in Hst1.
  2: { intros q _. by rewrite look_set. }
  case_bool_decide as Hemp; cbn [negb].
  - rewrite Hemp in Hst1. destruct (emptied_ok st1 a x b keepRoot Hpk Hwf Hst1) as (st' & -> & Hrem).
    exists true, st'. split; [done|]. apply (removed_post _ _ _ _ _ _ _ pre post); [done|done|]. rewrite Hemp.
    by eapply removed_frame.
  - exists true, st1. split; [done|]. apply (removed_post _ _ _ _ _ _ _ pre post); [done|done|]. unfold pages_after. rewrite bool_decide_false by done.
    assert (Hlen : (length (pre ++ post) <= dirNodeMaxEntries)%nat).
    { pose proof (wf_size _ Hwf x ltac:(set_solver)) as Hsz. rewrite Hx in Hsz. rewrite !length_app in *. cbn in Hsz. lia. }
    split_and!; [split; [by apply (wf_set a x b (pre ++ post))|done]|done|by rewrite entries_app|by destruct a|].
    intros _ [_ [? _]%app_nil]%app_nil. done.
Qed.
End RemoveClaim.

(** ** Walking *)

Section Walk.
Context {D : Type} (sha512Half : Z -> Z -> Z) (dir : Z).
Implicit Types (st : gmap Z (DirNode D)) (l a b : list (DirPage D)) (x : DirPage D).

(** [cdirNext] until it returns false, the way the walks of offer books call it. *)
Fixpoint cdir_list (fuel pages : nat) (node : DirNode D) (uDirEntry : nat) st : list Z :=
  match fuel with
  | O => []
  | S n =>
      match cdirNext sha512Half pages dir node uDirEntry st with
      | None => []
      | Some (node', uDirEntry', uEntryIndex) => uEntryIndex :: cdir_list n pages node' uDirEntry' st
      end
  end.

Lemma page_node st a x b :
  dir_ok sha512Half dir st (a ++ x :: b) ->
  st !! getDirNodeIndex sha512Half dir (pg x) = Some (node_of dir (a ++ x :: b) x) /\
  sfIndexNext (node_of dir (a ++ x :: b) x) = hd 0 (pg <$> b) /\
  (hd 0 (pg <$> b) = 0 <-> b = []).
Proof.
  intros [Hwf Hst].
  assert (Hxa : pg x ∉ pg <$> a).
  { pose proof (pages_NoDup _ Hwf) as Hd. rewrite fmap_app, fmap_cons in Hd. apply NoDup_app in Hd as (_ & Hab & _).
    intros H. apply (Hab _ H). left. }
  split_and!.
  - rewrite Hst by (apply (pages_u64 _ _ Hwf); set_solver). by apply look_at.
  - cbn. rewrite fmap_app, fmap_cons. by apply ring_next_at.
  - destruct a as [|r a]; [|apply (hd_page_0 r (a ++ [x]) b); rewrite <-app_assoc].
    + apply (hd_page_0 x [] b). by apply wf_chain.
    + by apply wf_chain.
Qed.

Lemma forEachItem_from st fuel a x b :
  dir_ok sha512Half dir st (a ++ x :: b) -> (length b < fuel)%nat ->
  forEachItem sha512Half fuel dir (getDirNodeIndex sha512Half dir (pg x)) st = Some (dir_entries (x :: b)).
Proof.
  revert a x fuel. induction b as [|y b IH]; intros a x fuel Hok Hf; destruct fuel as [|fuel]; [lia| |lia|].
  all: destruct (page_node st a x _ Hok) as (Hx & Hn & H0); cbn [forEachItem]; rewrite Hx, Hn.
  - by rewrite entries_one.
  - rewrite (proj2 (Z.eqb_neq _ 0)) by (intros He; by apply H0 in He). cbn [hd fmap list_fmap].
    rewrite (IH (a ++ [x])); [done|by rewrite <-app_assoc|cbn in Hf; lia].
Qed.

(** One call: the next entry of this page, else the walk goes on at the next page. *)
Lemma cdirNext_from st pages a x b i :
  dir_ok sha512Half dir st (a ++ x :: b) -> (length b < pages)%nat -> (i <= length (pg_entries x))%nat ->
  match cdirNext sha512Half pages dir (node_of dir (a ++ x :: b) x) i st with
  | None => drop i (pg_entries x) ++ dir_entries b = []
  | Some (node', i', e) =>
      exists a' y b', a ++ x :: b = a' ++ y :: b' /\ node' = node_of dir (a ++ x :: b) y /\
        (length b' <= length b)%nat /\ (i' <= length (pg_entries y))%nat /\
        drop i (pg_entries x) ++ dir_entries b = e :: drop i' (pg_entries y) ++ dir_entries b'
  end.
Proof.
  revert a x i pages. induction b as [|y b IH]; intros a x i pages Hok Hp Hi; destruct pages as [|pages]; [lia| |lia|].
  all: destruct (page_node st a x _ Hok) as (Hx & Hn & H0); cbn [cdirNext]; rewrite Hn;
    change (sfIndexes (node_of dir _ x)) with (pg_entries x); destruct (pg_entries x !! i) as [e|] eqn:Ee.
  1,3: exists a, x; eexists; split_and!; [done|done|done|by apply lookup_lt_Some in Ee|];
    by rewrite (drop_S _ e i) by done.
  all: apply lookup_ge_None in Ee; rewrite drop_ge by done.
  - done.
  - rewrite (proj2 (Z.eqb_neq _ 0)) by (intros He; by apply H0 in He). cbn [hd fmap list_fmap].
    assert (Heq : a ++ x :: y :: b = (a ++ [x]) ++ y :: b) by by rewrite <-app_assoc.
    rewrite Heq in *. destruct (page_node st _ y b Hok) as (Hy & _). rewrite Hy.
    specialize (IH (a ++ [x]) y 0%nat pages Hok ltac:(cbn in Hp; lia) ltac:(lia)).
    destruct (cdirNext _ _ _ _ _ _) as [[[node' i'] e]|].
    + destruct IH as (a' & z & b' & H1 & H2 & H3 & H4 & H5). exists a', z, b'.
      split_and!; [done|done|cbn; lia|done|]. by rewrite entries_cons, <-H5, drop_0.
    + by rewrite drop_0 in IH.
Qed.

Lemma cdir_list_from st pages fuel a x b i :
  dir_ok sha512Half dir st (a ++ x :: b) -> (length b < pages)%nat -> (i <= length (pg_entries x))%nat ->
  (length (drop i (pg_entries x) ++ dir_entries b) < fuel)%nat ->
  cdir_list fuel pages (node_of dir (a ++ x :: b) x) i st = drop i (pg_entries x) ++ dir_entries b.
Proof.
  intros Hok Hp Hi. remember (a ++ x :: b) as l eqn:Hl. revert a x b i Hl Hp Hi.
  induction fuel as [|fuel IH]; intros a x b i Hl Hp Hi Hf; [lia|]. cbn [cdir_list].
  pose proof (cdirNext_from st pages a x b i) as Hn. rewrite <-Hl in Hn. specialize (Hn Hok Hp Hi).
  destruct (cdirNext _ _ _ _ _ _) as [[[node' i'] e]|]; [|done].
  destruct Hn as (a' & y & b' & H1 & -> & H3 & H4 & H5). rewrite H5 in Hf |- *. f_equal.
  apply (IH a' y b'); [done|lia|done|]. cbn in Hf. lia.
Qed.

(** Walks list the directory. Both ways the code walks a well-formed directory
    - [forEachItem] following the next links page by page, and [cdirFirst] with
    [cdirNext] entry by entry - visit exactly its entries, in chain order, each
    once, and come to an end; a directory [dirIsEmpty] reports empty has none. *)
Theorem dir_walks st r l fuel pages n :
  dir_ok sha512Half dir st (r :: l) ->
  (length l < fuel)%nat -> (length l < pages)%nat -> (length (dir_entries (r :: l)) < n)%nat ->
  forEachItem sha512Half fuel dir dir st = Some (dir_entries (r :: l)) /\
  (exists root, st !! dir = Some root /\ cdir_list n pages root 0 st = dir_entries (r :: l)) /\
  (dirIsEmpty dir st = true -> dir_entries (r :: l) = []).
Proof.
  intros Hok Hf Hp Hn. pose proof (wf_chain _ _ (proj1 Hok)) as (Hr & _ & _).
  destruct (page_node st [] r l Hok) as (Hx & Hnx & H0). rewrite Hr in Hx.
  change (getDirNodeIndex sha512Half dir 0) with dir in Hx. split_and!.
  - pose proof (forEachItem_from st fuel [] r l Hok Hf) as H. by rewrite Hr in H.
  - eexists. split; [done|]. by apply (cdir_list_from st pages n [] r l 0); [done|done|lia|].
  - unfold dirIsEmpty. rewrite Hx, Hnx. change (sfIndexes (node_of dir _ r)) with (pg_entries r).
    case_bool_decide as He; [|done]. cbn [negb]. intros ->%Z.eqb_eq%H0. by rewrite entries_one.
Qed.
End Walk.

(** ** Witnesses *)

(** A directory whose root is full: 32 entries, then a second page of one. *)
Definition whash (d p : Z) : Z := d + p.
Definition wfull : list (DirPage unit) :=
  [mkDirPage 0 (seqZ 1 32) tt; mkDirPage 1 [50] tt].
Definition wdirst : gmap Z (DirNode unit) :=
  {[ 100 := mkDirNode (seqZ 1 32) 1 1 100 tt; 101 := mkDirNode [50] 0 0 100 tt ]}.

Lemma whash_distinct : pages_distinct whash 100.
Proof.
  intros p q Hp Hq. unfold getDirNodeIndex, whash. destruct (Z.eqb_spec p 0), (Z.eqb_spec q 0); lia.
Qed.

Lemma wdir_ok : dir_ok whash 100 wdirst wfull.
Proof.
  split.
  - split; [done|by repeat constructor| | |].
    1,2: intros x Hx; repeat (apply elem_of_cons in Hx as [->|Hx]; [vm_compute; (done || lia)|]);
      by apply elem_of_nil in Hx.
    intros i x Hi H0 HS. cbn in HS. lia.
  - intros q Hq. unfold look, find_page, wdirst, getDirNodeIndex, whash. cbn [pg wfull].
    destruct (Z.eqb_spec 0 q) as [<-|H0]; [by vm_compute|].
    destruct (Z.eqb_spec 1 q) as [<-|H1]; [by vm_compute|].
    rewrite (proj2 (Z.eqb_neq q 0)) by done. rewrite !lookup_insert_ne by lia. cbn.
    by rewrite lookup_singleton_ne by lia.
Qed.

Lemma dir_walks_witness :
  forEachItem whash 2 100 100 wdirst = Some (dir_entries wfull) /\
  (exists root, wdirst !! 100 = Some root /\ cdir_list whash 100 34 2 root 0 wdirst = dir_entries wfull) /\
  (dirIsEmpty 100 wdirst = true -> dir_entries wfull = []).
Proof. apply dir_walks; [exact wdir_ok|cbn; lia|cbn; lia|vm_compute; lia]. Defined.
