(* ===== verification/Prog.v ===== *)
(** * Programs over a view

    Transactors and the functions of ledger/impl/View.cpp are sequences of calls on
    an [ApplyView]. They are written here as programs in a small monad, which has two
    readings: over the [ApplyStateTable] the server uses, and over the finite map a
    ledger is. [run_sim] shows that the two agree, so that what is proved of a
    program over the map holds of the server's run. The file also has the amendments,
    the fee settings and the ledger information a program can ask its view for. *)

From S2P Require Import Prelude View RawStateTable ApplyStateTable STObject STAccess.

(** ** What a view knows *)

(** The amendments of protocol/Feature.h. *)
Inductive Feature :=
| featureMultiSign | featureTickets | featureTrustSetAuth | featureOwnerPaysFee | featureCompareFlowV1V2
| featureSHAMapV2 | featurePayChan | featureFlow | featureCompareTakerFlowCross | featureFlowCross
| featureCryptoConditions | featureTickSize | fix1368 | featureEscrow | featureCryptoConditionsSuite
| fix1373 | featureEnforceInvariants | featureSortedDirectories | fix1201 | fix1512 | fix1513 | fix1523
| fix1528 | featureDepositAuth | featureChecks | fix1571 | fix1543 | fix1623 | featureDepositPreauth
| fix1515 | fix1578 | featureMultiSignReserve | fixTakerDryOfferRemoval | fixMasterKeyAsRegularKey.

Record Fees := mkFees { fees_base : Z; fees_units : Z; fees_reserve : Z; fees_increment : Z }.

(** [Fees::accountReserve]: the sum is unsigned, the amount signed. *)
Definition accountReserve (f : Fees) (ownerCount : Z) : Z := i64 (fees_reserve f + ownerCount * fees_increment f).

(** The rules, the fees, whether the ledger is open, its sequence and its parent's
    close time. *)
Record ViewInfo := mkInfo {
  enabled : Feature -> bool;
  fees : Fees;
  is_open : bool;
  ledger_seq : Z;
  parentCloseTime : Z
}.

(** ** Programs *)

(** [Peek] hands out the entry the view shows; a change through the pointer followed
    by [update], an insertion, an erasure or a destruction of drops is a [Do]. *)
Inductive prog (A : Type) :=
| Ret (a : A)
| Raise (e : exn)
| Peek (k : Keylet) (c : option (SLE Object) -> prog A)
| Read (k : Keylet) (c : option (SLE Object) -> prog A)
| Do (op : ViewOp Object) (c : prog A).
Arguments Ret {A} a. Arguments Raise {A} e. Arguments Peek {A} k c. Arguments Read {A} k c. Arguments Do {A} op c.

Fixpoint prog_bind {A B} (f : A -> prog B) (p : prog A) : prog B :=
  match p with
  | Ret a => f a
  | Raise e => Raise e
  | Peek k c => Peek k (fun s => prog_bind f (c s))
  | Read k c => Read k (fun s => prog_bind f (c s))
  | Do op c => Do op (prog_bind f c)
  end.

#[export] Instance prog_ret : MRet prog := @Ret.
#[export] Instance prog_mbind : MBind prog := @prog_bind.

Definition liftR {A} (r : res A) : prog A := match r with Ok a => Ret a | Throw e => Raise e end.

Definition null_pointer : exn := logic_error "null pointer".

(** [view.peek], [view.read], [view.exists]. *)
Definition peek (k : Keylet) : prog (option (SLE Object)) := Peek k Ret.
Definition read (k : Keylet) : prog (option (SLE Object)) := Read k Ret.

(** A pointer that is used without a test. *)
Definition peek_object (k : Keylet) : prog Object := s ← peek k; match s with Some s => Ret (sle_data s) | None => Raise null_pointer end.
Definition read_object (k : Keylet) : prog Object := s ← read k; match s with Some s => Ret (sle_data s) | None => Raise null_pointer end.

(** The entry behind a pointer changed in place, and [view.update]. *)
Definition modify (k : Keylet) (f : Object -> res Object) : prog unit :=
  o ← peek_object k; o ← liftR (f o); Do (vo_modify k (fun _ => o)) (Ret ()).

Definition insert_sle (s : SLE Object) : prog unit := Do (vo_insert s) (Ret ()).

(** [view.erase] of a peeked entry. *)
Definition erase_sle (k : Keylet) : prog unit := _ ← peek_object k; Do (vo_erase k) (Ret ()).

(** ** Two readings *)

Section Run.
Context (base : ReadView Object).

Fixpoint run_table {A} (p : prog A) (t : ApplyStateTable Object) : res (A * ApplyStateTable Object) :=
  match p with
  | Ret a => Ok (a, t)
  | Raise e => Throw e
  | Peek k c =>
      let (r, t) := as_peek t base k in
      match r with
      | None => run_table (c None) t
      | Some q => s ← deref q t; run_table (c (Some s)) t
      end
  | Read k c => run_table (c (as_read t base k)) t
  | Do op c => t ← vo_step base op t; run_table c t
  end.
End Run.

Definition present_key : exn := logic_error "insert of a key that is present".

Fixpoint run_map {A} (p : prog A) (md : gmap Z (SLE Object) * Z) : res (A * (gmap Z (SLE Object) * Z)) :=
  match p with
  | Ret a => Ok (a, md)
  | Raise e => Throw e
  | Peek k c | Read k c => run_map (c (md.1 !! kl_key k ≫= fun s => if check k s then Some s else None)) md
  | Do op c => match vo_spec op md with Some md => run_map c md | None => Throw present_key end
  end.

(** ** They agree *)

Section Sim.
Context (base : ReadView Object) (m : gmap Z (SLE Object)) `{!ReadViewOf base m} (Hm : keys_ok m).

Lemma run_sim {A} (p : prog A) t mm d a mm' d' : as_denotes m t mm d -> run_map p (mm, d) = Ok (a, (mm', d')) ->
  exists t', run_table base p t = Ok (a, t') /\ as_denotes m t' mm' d'.
Proof.
  revert t mm d. induction p as [a0|e|k c IH|k c IH|op c IH]; intros t mm d Hd; cbn [run_map run_table].
  - intros [= <- <- <-]. by exists t.
  - done.
  - intros Hr. destruct (as_peek t base k) as [r t1] eqn:E. destruct (as_peek_spec base m t mm d k r t1 _ Hm Hd E) as [Hd1 Hp]. cbn [fst] in Hr.
    destruct (mm !! kl_key k) as [s|] eqn:Ek; cbn [mbind option_bind] in Hr; [|subst r; by eapply IH].
    destruct (check k s); [|subst r; by eapply IH]. destruct Hp as (q & b & -> & Hq & _). unfold deref. rewrite Hq. cbn [mbind res_bind]. by eapply IH.
  - intros Hr. eapply IH; [exact Hd|]. pose proof Hd as (Hwf & Ho & _). pose proof (applyview_of base m t _ Hwf) as Hv.
    change (as_read t base k) with (rv_read (applyview base t) k). rewrite rv_read_spec, Ho. exact Hr.
  - destruct (vo_spec op (mm, d)) as [[mm1 d1]|] eqn:E; [|done]. intros Hr.
    destruct (vo_step_sim base m Hm op t mm d mm1 d1 Hd E) as (t1 & -> & Hd1). cbn [mbind res_bind]. by eapply IH.
Qed.

Lemma run_sim_throw {A} (p : prog A) t mm d e : as_denotes m t mm d -> run_map p (mm, d) = Throw e -> e <> present_key -> run_table base p t = Throw e.
Proof.
  revert t mm d. induction p as [a0|e0|k c IH|k c IH|op c IH]; intros t mm d Hd; cbn [run_map run_table].
  - done.
  - by intros [= <-].
  - intros Hr He. destruct (as_peek t base k) as [r t1] eqn:E. destruct (as_peek_spec base m t mm d k r t1 _ Hm Hd E) as [Hd1 Hp]. cbn [fst] in Hr.
    destruct (mm !! kl_key k) as [s|] eqn:Ek; cbn [mbind option_bind] in Hr; [|subst r; by eapply IH].
    destruct (check k s); [|subst r; by eapply IH]. destruct Hp as (q & b & -> & Hq & _). unfold deref. rewrite Hq. cbn [mbind res_bind]. by eapply IH.
  - intros Hr He. eapply IH; [exact Hd| |done]. pose proof Hd as (Hwf & Ho & _). pose proof (applyview_of base m t _ Hwf) as Hv.
    change (as_read t base k) with (rv_read (applyview base t) k). rewrite rv_read_spec, Ho. exact Hr.
  - destruct (vo_spec op (mm, d)) as [[mm1 d1]|] eqn:E; [|by intros [= <-]]. intros Hr He.
    destruct (vo_step_sim base m Hm op t mm d mm1 d1 Hd E) as (t1 & -> & Hd1). cbn [mbind res_bind]. by eapply IH.
Qed.
End Sim.

(** ** Laws *)

Lemma run_bind {A B} (f : A -> prog B) (p : prog A) md : run_map (prog_bind f p) md = ('(a, md) ← run_map p md; run_map (f a) md).
Proof. revert md. induction p as [a|e|k c IH|k c IH|op c IH]; intros md; cbn; [done..| | |]; try apply IH. by destruct (vo_spec op md). Qed.

Lemma run_mbind {A B} (f : A -> prog B) (p : prog A) md : run_map (p ≫= f) md = ('(a, md) ← run_map p md; run_map (f a) md).
Proof. apply run_bind. Qed.

Lemma run_lift {A} (r : res A) md : run_map (liftR r) md = (a ← r; Ok (a, md)).
Proof. by destruct r. Qed.

(** What a keylet finds in a map. *)
Definition shown (m : gmap Z (SLE Object)) (k : Keylet) : option (SLE Object) := m !! kl_key k ≫= fun s => if check k s then Some s else None.

Lemma run_peek k m d : run_map (peek k) (m, d) = Ok (shown m k, (m, d)).
Proof. done. Qed.

Lemma run_read k m d : run_map (read k) (m, d) = Ok (shown m k, (m, d)).
Proof. done. Qed.

Lemma shown_Some m k s : shown m k = Some s <-> m !! kl_key k = Some s /\ check k s = true.
Proof.
  unfold shown. destruct (m !! kl_key k) as [s'|]; cbn; [|naive_solver]. destruct (check k s') eqn:E; split; [intros [= <-]; done|by intros [[= <-] _]|done|]. intros [[= ->] Hc]. congruence.
Qed.

(** The entry of a keylet with other contents. *)
Definition with_data (s : SLE Object) (o : Object) : SLE Object := mkSLE (sle_type s) (sle_key s) o.

Lemma run_modify k f m d s o : shown m k = Some s -> f (sle_data s) = Ok o ->
  run_map (modify k f) (m, d) = Ok ((), (<[kl_key k := with_data s o]> m, d)).
Proof.
  intros Hs Hf. unfold modify, peek_object. rewrite !run_mbind, run_peek. cbn [mbind res_bind]. rewrite Hs. cbn [run_map mbind res_bind].
  rewrite run_mbind, run_lift, Hf. cbn [mbind res_bind run_map]. apply shown_Some in Hs as [Hl Hc]. cbn [vo_spec]. by rewrite Hl, Hc.
Qed.

Lemma run_erase k m d s : shown m k = Some s -> run_map (erase_sle k) (m, d) = Ok ((), (delete (kl_key k) m, d)).
Proof.
  intros Hs. unfold erase_sle, peek_object. rewrite !run_mbind, run_peek. cbn [mbind res_bind]. rewrite Hs. cbn [run_map mbind res_bind].
  apply shown_Some in Hs as [Hl Hc]. cbn [vo_spec]. by rewrite Hl, Hc.
Qed.

Lemma run_insert s m d : m !! sle_key s = None -> run_map (insert_sle s) (m, d) = Ok ((), (<[sle_key s := s]> m, d)).
Proof. intros Hs. cbn. rewrite decide_False; [done|]. by rewrite Hs; intros [? ?]. Qed.

Lemma run_peek_object k m d s : shown m k = Some s -> run_map (peek_object k) (m, d) = Ok (sle_data s, (m, d)).
Proof. intros Hs. unfold peek_object. rewrite run_mbind, run_peek. cbn [mbind res_bind]. by rewrite Hs. Qed.

Lemma run_read_object k m d s : shown m k = Some s -> run_map (read_object k) (m, d) = Ok (sle_data s, (m, d)).
Proof. intros Hs. unfold read_object. rewrite run_mbind, run_read. cbn [mbind res_bind]. by rewrite Hs. Qed.
