(* ===== verification/LoadFee.v ===== *)
(** * Load-dependent fees

    Models app/misc/LoadFeeTrack.h and app/misc/impl/LoadFeeTrack.cpp: the three load
    factors a server keeps, how its own rises and falls, and [scaleFeeLoad], which
    scales a fee in fee units to drops under the current load with 64-bit numbers
    only. *)

From S2P Require Import Prelude Prog.

(** ** The load factors *)

Definition lftNormalFee : Z := 256.
Definition lftFeeIncFraction : Z := 4.
Definition lftFeeDecFraction : Z := 4.
Definition lftFeeMax : Z := u32 (lftNormalFee * 1000000).

Record LoadFeeTrack := mkTrack {
  localTxnLoadFee_ : Z;
  remoteTxnLoadFee_ : Z;
  clusterTxnLoadFee_ : Z;
  raiseCount_ : Z
}.

Definition new_track : LoadFeeTrack := mkTrack lftNormalFee lftNormalFee lftNormalFee 0.

Definition setRemoteFee (f : Z) (t : LoadFeeTrack) : LoadFeeTrack :=
  mkTrack (localTxnLoadFee_ t) f (clusterTxnLoadFee_ t) (raiseCount_ t).
Definition setClusterFee (f : Z) (t : LoadFeeTrack) : LoadFeeTrack :=
  mkTrack (localTxnLoadFee_ t) (remoteTxnLoadFee_ t) f (raiseCount_ t).

Definition getLoadBase (t : LoadFeeTrack) : Z := lftNormalFee.
Definition getLoadFactor (t : LoadFeeTrack) : Z :=
  Z.max (clusterTxnLoadFee_ t) (Z.max (localTxnLoadFee_ t) (remoteTxnLoadFee_ t)).
Definition getScalingFactors (t : LoadFeeTrack) : Z * Z :=
  (Z.max (localTxnLoadFee_ t) (remoteTxnLoadFee_ t), Z.max (remoteTxnLoadFee_ t) (clusterTxnLoadFee_ t)).

Definition isLoadedLocal (t : LoadFeeTrack) : bool := negb (raiseCount_ t =? 0) || negb (localTxnLoadFee_ t =? lftNormalFee).
Definition isLoadedCluster (t : LoadFeeTrack) : bool :=
  negb (raiseCount_ t =? 0) || negb (localTxnLoadFee_ t =? lftNormalFee) || negb (clusterTxnLoadFee_ t =? lftNormalFee).

(** The first call after a lowering only counts. *)
Definition raiseLocalFee (t : LoadFeeTrack) : bool * LoadFeeTrack :=
  let raiseCount := u32 (raiseCount_ t + 1) in
  if raiseCount <? 2 then (false, mkTrack (localTxnLoadFee_ t) (remoteTxnLoadFee_ t) (clusterTxnLoadFee_ t) raiseCount) else
  let origFee := localTxnLoadFee_ t in
  let fee := if localTxnLoadFee_ t <? remoteTxnLoadFee_ t then remoteTxnLoadFee_ t else localTxnLoadFee_ t in
  let fee := u32 (fee + fee / lftFeeIncFraction) in
  let fee := if lftFeeMax <? fee then lftFeeMax else fee in
  (negb (origFee =? fee), mkTrack fee (remoteTxnLoadFee_ t) (clusterTxnLoadFee_ t) raiseCount).

Definition lowerLocalFee (t : LoadFeeTrack) : bool * LoadFeeTrack :=
  let origFee := localTxnLoadFee_ t in
  let fee := localTxnLoadFee_ t - localTxnLoadFee_ t / lftFeeDecFraction in
  let fee := if fee <? lftNormalFee then lftNormalFee else fee in
  (negb (origFee =? fee), mkTrack fee (remoteTxnLoadFee_ t) (clusterTxnLoadFee_ t) 0).

(** ** Scaling *)

Definition max64 : Z := 2 ^ 64 - 1.

Definition division_by_zero : exn := logic_error "division by zero".

(** An unsigned division. *)
Definition quot (a b : Z) : res Z := if b =? 0 then Throw division_by_zero else Ok (a / b).

(** Euclid's loop; two rounds halve the second number. *)
Fixpoint gcd_loop (fuel : nat) (x y : Z) : Z :=
  match fuel with
  | O => x
  | S fuel => if y =? 0 then x else gcd_loop fuel y (x mod y)
  end.

Definition lowestTerms (a b : Z) : Z * Z :=
  if (a =? 0) && (b =? 0) then (a, b) else
  let x := gcd_loop 129 a b in (a / x, b / x).

Definition sorted_pair (a b : Z) : Z * Z := if a <? b then (b, a) else (a, b).

(** [fee * baseFee * feeFactor / den] without a product that overflows. *)
Definition scale_reduced (fee baseFee feeFactor den : Z) : res Z :=
  let '(fee, baseFee) := sorted_pair fee baseFee in
  q ← quot max64 feeFactor;
  if q <? baseFee then Throw (overflow_error "scaleFeeLoad") else
  let baseFee := baseFee * feeFactor in
  let '(fee, baseFee) := sorted_pair fee baseFee in
  q ← quot max64 baseFee;
  if q <? fee then
    fee ← quot fee den;
    if q <? fee then Throw (overflow_error "scaleFeeLoad") else Ok (fee * baseFee)
  else quot (fee * baseFee) den.

(** Privileged users pay the remote load until the local one is four times that. *)
Definition fee_factor (feeTrack : LoadFeeTrack) (bUnlimited : bool) : Z :=
  let '(feeFactor, uRemFee) := getScalingFactors feeTrack in
  if bUnlimited && (uRemFee <? feeFactor) && (feeFactor <? u32 (4 * uRemFee)) then uRemFee else feeFactor.

Definition scaleFeeLoad (fee : Z) (feeTrack : LoadFeeTrack) (fees : Fees) (bUnlimited : bool) : res Z :=
  if fee =? 0 then Ok fee else
  let feeFactor := fee_factor feeTrack bUnlimited in
  let baseFee := fees_base fees in
  let den := fees_units fees * getLoadBase feeTrack in
  let '(fee, den) := lowestTerms fee den in
  let '(baseFee, den) := lowestTerms baseFee den in
  let '(feeFactor, den) := lowestTerms feeFactor den in
  scale_reduced fee baseFee feeFactor den.

(** ** The local factor *)

(** What the code keeps as long as the factors it hears of do. *)
Definition factor_ok (f : Z) : Prop := lftNormalFee <= f <= lftFeeMax.
Definition track_ok (t : LoadFeeTrack) : Prop := factor_ok (localTxnLoadFee_ t) /\ factor_ok (remoteTxnLoadFee_ t).

Lemma quarter_range f : 256 <= f <= 256000000 -> 0 <= f / 4 <= f.
Proof. intros Hf. split; [apply Z.div_pos; lia|apply Z.div_le_upper_bound; lia]. Qed.

(** Raising keeps the local factor between the normal one and the largest one, does not
    lower it, and says whether it changed. *)
Lemma raise_local t : track_ok t -> let '(changed, t') := raiseLocalFee t in
  track_ok t' /\ localTxnLoadFee_ t <= localTxnLoadFee_ t' /\ changed = negb (localTxnLoadFee_ t =? localTxnLoadFee_ t').
Proof.
  destruct t as [l r c n]. unfold track_ok, factor_ok, raiseLocalFee. cbn [localTxnLoadFee_ remoteTxnLoadFee_ clusterTxnLoadFee_ raiseCount_].
  change lftFeeIncFraction with 4. change lftFeeMax with 256000000. change lftNormalFee with 256. intros [Hl Hr].
  set (f := if l <? r then r else l). assert (Hf : l <= f <= 256000000) by (unfold f; destruct (Z.ltb_spec l r); lia).
  pose proof (quarter_range f ltac:(lia)). rewrite (u32_small (f + f / 4)) by lia.
  destruct (u32 (n + 1) <? 2); cbn [localTxnLoadFee_ remoteTxnLoadFee_]; [rewrite Z.eqb_refl; split; [split; lia|]; split; [lia|done]|].
  destruct (Z.ltb_spec 256000000 (f + f / 4)); (split; [split; lia|]); (split; [lia|done]).
Qed.

(** Lowering does not raise it; the next raise then has no effect yet. *)
Lemma lower_local t : track_ok t -> let '(changed, t') := lowerLocalFee t in
  track_ok t' /\ localTxnLoadFee_ t' <= localTxnLoadFee_ t /\ changed = negb (localTxnLoadFee_ t =? localTxnLoadFee_ t') /\ fst (raiseLocalFee t') = false.
Proof.
  destruct t as [l r c n]. unfold track_ok, factor_ok, lowerLocalFee. cbn [localTxnLoadFee_ remoteTxnLoadFee_ clusterTxnLoadFee_ raiseCount_].
  change lftFeeDecFraction with 4. change lftFeeMax with 256000000. change lftNormalFee with 256. intros [Hl Hr]. pose proof (quarter_range l Hl).
  destruct (Z.ltb_spec (l - l / 4) 256); cbn [localTxnLoadFee_ remoteTxnLoadFee_]; (split; [split; lia|]); (split; [lia|done]).
Qed.

(** A remote factor near the top of its range makes raising the local one wrap around. *)
Lemma raise_wraps : exists t, lftNormalFee <= remoteTxnLoadFee_ t < 2 ^ 32 /\ localTxnLoadFee_ t = 1000 /\ localTxnLoadFee_ (snd (raiseLocalFee (snd (raiseLocalFee t)))) = 4.
Proof. exists (mkTrack 1000 3435973840 256 0). by vm_compute. Qed.

(** ** Lowest terms *)

Lemma gcd_loop_spec n : forall x y, 0 <= x -> 0 <= y < 2 ^ Z.of_nat n -> gcd_loop (S (2 * n)) x y = Z.gcd x y.
Proof.
  induction n as [|n IH]; intros x y Hx Hy.
  - cbn in Hy. assert (y = 0) as -> by lia. cbn. rewrite Z.gcd_0_r. lia.
  - replace (S (2 * S n)) with (S (S (S (2 * n)))) by lia. cbn [gcd_loop]. destruct (Z.eqb_spec y 0) as [->|Hn]; [rewrite Z.gcd_0_r; lia|].
    assert (Hm := Z.mod_pos_bound x y ltac:(lia)). destruct (Z.eqb_spec (x mod y) 0) as [He|He].
    + rewrite Z.gcd_comm, <-(Z.gcd_mod x y), He, Z.gcd_0_l by done. lia.
    + assert (Hm2 := Z.mod_pos_bound y (x mod y) ltac:(lia)). change (gcd_loop (S (2 * n)) (x mod y) (y mod (x mod y)) = Z.gcd x y).
      rewrite IH; [|lia|].
      * by rewrite Z.gcd_comm, Z.gcd_mod, Z.gcd_mod, Z.gcd_comm by done.
      * split; [lia|]. rewrite Nat2Z.inj_succ, Z.pow_succ_r in Hy by lia. assert (Hq := Z.div_mod y (x mod y) He).
        assert (1 <= y / (x mod y)) by (apply Z.div_le_lower_bound; lia). nia.
Qed.

Lemma lowestTerms_spec a b a' b' : 0 < a -> 0 < b < 2 ^ 64 -> lowestTerms a b = (a', b') -> exists g, 0 < g /\ a = g * a' /\ b = g * b' /\ 0 < a' /\ 0 < b'.
Proof.
  intros Ha Hb. unfold lowestTerms. destruct (Z.eqb_spec a 0); [lia|]. cbn [andb]. rewrite (gcd_loop_spec 64) by lia.
  assert (Hg : 0 < Z.gcd a b) by (assert (H := Z.gcd_nonneg a b); assert (Z.gcd a b <> 0) by (intros [? _]%Z.gcd_eq_0; lia); lia).
  intros [= <- <-]. exists (Z.gcd a b). destruct (Z.gcd_divide_l a b) as [x Hx], (Z.gcd_divide_r a b) as [y Hy].
  set (g := Z.gcd a b) in *. assert (a / g = x) as -> by (rewrite Hx; apply Z.div_mul; lia). assert (b / g = y) as -> by (rewrite Hy; apply Z.div_mul; lia).
  repeat split; nia.
Qed.

(** ** What scaling computes *)

(** [r] is at most [N / D], and less than it by less than some [e] whose square is at
    most [N]. *)
Definition scaled (N D r : Z) : Prop := 0 <= r < 2 ^ 64 /\ r * D <= N /\ exists e, 0 < e /\ e * e <= N /\ N < (r + e) * D.

Lemma quot_pos a b : 0 < b -> quot a b = Ok (a / b).
Proof. intros. unfold quot. by destruct (Z.eqb_spec b 0); [lia|]. Qed.

Lemma sorted_pair_spec a b : exists x y, sorted_pair a b = (x, y) /\ y <= x /\ x * y = a * b /\ (x = a /\ y = b \/ x = b /\ y = a).
Proof. unfold sorted_pair. destruct (Z.ltb_spec a b); [exists b, a|exists a, b]; (split; [done|]); lia. Qed.

Lemma below_max q y : 0 < y -> q <= max64 / y <-> q * y < 2 ^ 64.
Proof. intros Hy. unfold max64. split; intros H; [assert (y * ((2 ^ 64 - 1) / y) <= 2 ^ 64 - 1) by (apply Z.mul_div_le; lia); nia|apply Z.div_le_lower_bound; lia]. Qed.

(** The last step, on a product of two factors. *)
Lemma scale_product x y den : 0 < y <= x -> 0 < den < 2 ^ 40 ->
  match (if max64 / y <? x then fee ← quot x den; (if max64 / y <? fee then Throw (overflow_error "scaleFeeLoad") else Ok (fee * y)) else quot (x * y) den) with
  | Ok r => scaled (x * y) den r /\ (x * y < 2 ^ 64 -> r = x * y / den)
  | Throw e => e = overflow_error "scaleFeeLoad" /\ 2 ^ 64 * den <= x * y
  end.
Proof.
  intros Hy Hd. rewrite !quot_pos by lia. cbn [mbind res_bind]. assert (Hq := Z.mul_div_le x den ltac:(lia)). assert (Hu := Z.mul_succ_div_gt x den ltac:(lia)).
  assert (H0 : 0 <= x / den) by (apply Z.div_pos; lia).
  destruct (Z.ltb_spec (max64 / y) x) as [Hx|Hx].
  - assert (2 ^ 64 <= x * y) by (destruct (Z_lt_le_dec (x * y) (2 ^ 64)) as [H%below_max|]; lia).
    destruct (Z.ltb_spec (max64 / y) (x / den)) as [Ho|Ho].
    + split; [done|]. assert (2 ^ 64 <= x / den * y) by (destruct (Z_lt_le_dec (x / den * y) (2 ^ 64)) as [H1%below_max|]; lia). nia.
    + apply below_max in Ho; [|lia]. split; [|lia]. split; [nia|]. split; [nia|]. exists y. nia.
  - apply below_max in Hx; [|lia]. split; [|done]. assert (Hp := Z.mul_div_le (x * y) den ltac:(lia)). assert (Hs := Z.mul_succ_div_gt (x * y) den ltac:(lia)).
    assert (0 <= x * y / den) by (apply Z.div_pos; nia). split; [nia|]. split; [nia|]. exists 1. nia.
Qed.

Lemma scale_reduced_spec f b c den : 0 < f -> 0 < b -> 0 < c < 2 ^ 32 -> 0 < den < 2 ^ 40 ->
  match scale_reduced f b c den with
  | Ok r => scaled (f * b * c) den r /\ (f * b * c < 2 ^ 64 -> r = f * b * c / den)
  | Throw e => e = overflow_error "scaleFeeLoad" /\ 2 ^ 56 * den <= f * b * c
  end.
Proof.
  intros Hf Hb Hc Hd. unfold scale_reduced. destruct (sorted_pair_spec f b) as (f1 & b1 & -> & Hle & Hp & Hor). rewrite quot_pos by lia. cbn [mbind res_bind].
  destruct (Z.ltb_spec (max64 / c) b1) as [Ho|Ho].
  - split; [done|]. assert (2 ^ 64 <= b1 * c) by (destruct (Z_lt_le_dec (b1 * c) (2 ^ 64)) as [H%below_max|]; lia).
    assert (2 ^ 32 < b1) by nia. rewrite <-Hp. nia.
  - apply below_max in Ho; [|lia]. destruct (sorted_pair_spec f1 (b1 * c)) as (x & y & -> & Hxy & Hp2 & Hor2). rewrite (quot_pos max64 y) by nia. cbn [mbind res_bind].
    assert (Hn : x * y = f * b * c) by nia. assert (H := scale_product x y den ltac:(nia) Hd). rewrite <-Hn.
    destruct (if max64 / y <? x then _ else _); [exact H|]. split; [apply H|]. lia.
Qed.

(** The numbers a fee is computed from. *)
Definition fees_ok (feeTrack : LoadFeeTrack) (fees : Fees) : Prop :=
  0 < fees_base fees /\ 0 < fees_units fees < 2 ^ 32 /\ 0 < localTxnLoadFee_ feeTrack < 2 ^ 32 /\ 0 < remoteTxnLoadFee_ feeTrack < 2 ^ 32 /\ clusterTxnLoadFee_ feeTrack < 2 ^ 32.

Lemma fee_factor_range t fees unlimited : fees_ok t fees -> 0 < fee_factor t unlimited < 2 ^ 32.
Proof. intros (_ & _ & H). unfold fee_factor, getScalingFactors. cbv beta iota. destruct (_ && _ && _); lia. Qed.

Lemma scaled_cancel g N D r : 0 < g -> 0 < D -> 0 <= N -> scaled N D r -> scaled (g * N) (g * D) r.
Proof.
  intros Hg HD HN (Hr & Hlo & e & He & Hsq & Hhi). split; [done|]. split; [nia|]. exists e. split; [done|]. split; [nia|].
  replace ((r + e) * (g * D)) with (g * ((r + e) * D)) by ring. nia.
Qed.


(** With many fee units a scaled fee can lose half its value. *)
Lemma scale_coarse : let fees := mkFees 8589934583 4294967295 20 5 in
  scaleFeeLoad 8589934583 new_track fees false = Ok 8589934583 /\ 8589934583 * 8589934583 * 256 / (4294967295 * lftNormalFee) = 17179869152.
Proof. by vm_compute. Qed.

(** A base fee of zero divides by zero. *)
Lemma scale_zero_base : scaleFeeLoad 10 new_track (mkFees 0 10 20 5) false = Throw division_by_zero.
Proof. by vm_compute. Qed.

(** The first test for overflow is not exact: this fee would fit. *)
Lemma scale_overflow_early : let t := mkTrack 4294967291 256 256 0 in let fees := mkFees 8589934609 4294967295 20 5 in
  scaleFeeLoad 8589934609 t fees false = Throw (overflow_error "scaleFeeLoad") /\ 8589934609 * 8589934609 * 4294967291 / (4294967295 * lftNormalFee) < 2 ^ 59.
Proof. by vm_compute. Qed.

(** At eight times the normal load, where the fee is exact, and for a fee that takes the
    branch that divides first. *)
Definition busy : LoadFeeTrack := mkTrack 2048 256 256 0.
Definition cheap : Fees := mkFees 10 10 20 5.
Definition dear : Fees := mkFees 4194305 10 20 5.

