(* ===== verification/Invariants.v ===== *)
(** * Invariant checks

    Models app/tx/impl/InvariantCheck.cpp and [ApplyContext::checkInvariants] of
    app/tx/impl/ApplyContext.cpp: after a transaction has run, and before its changes
    are applied, eight checkers see every entry it touched. The theorems show what a
    passed check says of the two ledgers, before and after. *)

From S2P Require Import Prelude View RawStateTable ApplyStateTable STAmount SField STObject STAccess TER Indexes Formats Prog.

Definition SYSTEM_CURRENCY_START : Z := 1000 * 100000000 * 1000000.

(** [isLegalAmount]: the drops are compared as an unsigned number. *)
Definition isLegalAmount (drops : Z) : bool := u64 drops <=? SYSTEM_CURRENCY_START.

(** [sle[field]] of an amount. *)
Definition amount_at (s : SLE Object) (f : SField) : res STAmount := at_field as_amount (ofUnsigned 0) (sle_data s) f.

(** ** The checkers *)

(** The members of the eight checkers. *)
Record Checks := mkChecks {
  accountDeleted_ : bool;
  typeMismatch_ : bool;
  invalidTypeAdded_ : bool;
  balance_bad_ : bool;
  drops_ : Z;
  sfcTrustLine_ : bool;
  offer_bad_ : bool;
  escrow_bad_ : bool
}.

Definition getInvariantChecks : Checks := mkChecks false false false false 0 false false false.

(** A call of [visitEntry]: whether the entry is deleted, the entry before and after. *)
Definition Visited : Type := bool * option (SLE Object) * option (SLE Object).

Definition has_type (t : Z) (s : option (SLE Object)) : bool := match s with Some s => sle_type s =? t | None => false end.

(** [AccountRootsNotDeleted::visitEntry]. *)
Definition visit_deleted (e : Visited) (c : bool) : bool :=
  let '(isDelete, before, _) := e in if isDelete && has_type ltACCOUNT_ROOT before then true else c.

(** [LedgerEntryTypesMatch::visitEntry]. *)
Definition known_type (t : Z) : bool :=
  existsb (Z.eqb t) [ltACCOUNT_ROOT; ltDIR_NODE; ltSUPPLYFINANCECHAIN_STATE; ltTICKET; ltSIGNER_LIST; ltOFFER; ltLEDGER_HASHES;
                     ltAMENDMENTS; ltFEE_SETTINGS; ltESCROW; ltPAYCHAN; ltCHECK; ltDEPOSIT_PREAUTH].

Definition visit_types (e : Visited) (c : bool * bool) : bool * bool :=
  let '(_, before, after) := e in
  let mismatch := match before, after with Some b, Some a => negb (sle_type b =? sle_type a) | _, _ => false end in
  let invalid := match after with Some a => negb (known_type (sle_type a)) | None => false end in
  (mismatch || c.1, invalid || c.2).

(** [SFCBalanceChecks::visitEntry]. *)
Definition balance_isBad (balance : STAmount) : res bool :=
  if negb (mIsNative balance) then Ok true else
  drops ← sfc balance;
  if SYSTEM_CURRENCY_START <? u64 drops then Ok true else
  if drops <? 0 then Ok true else Ok false.

(** An entry of a type, tested by [isBad] of it. *)
Definition test_entry (type : Z) (isBad : SLE Object -> res bool) (s : option (SLE Object)) (bad : bool) : res bool :=
  match s with
  | Some s => if sle_type s =? type then (b ← isBad s; Ok (bad || b)) else Ok bad
  | None => Ok bad
  end.

Definition visit_both (type : Z) (isBad : SLE Object -> res bool) (e : Visited) (bad : bool) : res bool :=
  let '(_, before, after) := e in
  bad ← test_entry type isBad before bad; test_entry type isBad after bad.

Definition visit_balance : Visited -> bool -> res bool := visit_both ltACCOUNT_ROOT (fun s => b ← amount_at s sfBalance; balance_isBad b).

(** [SFCNotCreated::visitEntry]: the drops an entry holds. *)
Definition entry_drops (s : SLE Object) : res Z :=
  if sle_type s =? ltACCOUNT_ROOT then (b ← amount_at s sfBalance; sfc b)
  else if sle_type s =? ltPAYCHAN then (a ← amount_at s sfAmount; b ← amount_at s sfBalance; d ← op_sub a b; sfc d)
  else if sle_type s =? ltESCROW then (a ← amount_at s sfAmount; sfc a)
  else Ok 0.

Definition visit_drops (e : Visited) (drops : Z) : res Z :=
  let '(isDelete, before, after) := e in
  drops ← (match before with Some b => d ← entry_drops b; Ok (i64 (drops - d)) | None => Ok drops end);
  match after with
  | Some a =>
      if isDelete && ((sle_type a =? ltPAYCHAN) || (sle_type a =? ltESCROW)) then Ok drops
      else (d ← entry_drops a; Ok (i64 (drops + d)))
  | None => Ok drops
  end.

(** [NoSFCTrustLines::visitEntry]: the last trust line visited decides. *)
Definition visit_lines (e : Visited) (line : bool) : res bool :=
  let '(_, _, after) := e in
  match after with
  | Some a =>
      if sle_type a =? ltSUPPLYFINANCECHAIN_STATE then
        low ← getFieldAmount (sle_data a) sfLowLimit;
        if bool_decide (mIssue low = sfcIssue) then Ok true else
        (high ← getFieldAmount (sle_data a) sfHighLimit; Ok (bool_decide (mIssue high = sfcIssue)))
      else Ok line
  | None => Ok line
  end.

(** [NoBadOffers::visitEntry]. *)
Definition offer_isBad (s : SLE Object) : res bool :=
  pays ← amount_at s sfTakerPays; gets ← amount_at s sfTakerGets;
  if signum pays <? 0 then Ok true else
  if signum gets <? 0 then Ok true else
  Ok (mIsNative pays && mIsNative gets).

Definition visit_offers : Visited -> bool -> res bool := visit_both ltOFFER offer_isBad.

(** [NoZeroEscrow::visitEntry]. *)
Definition escrow_isBad (s : SLE Object) : res bool :=
  amount ← amount_at s sfAmount;
  if negb (mIsNative amount) then Ok true else
  drops ← sfc amount;
  if drops <=? 0 then Ok true else
  if SYSTEM_CURRENCY_START <=? u64 drops then Ok true else Ok false.

Definition visit_escrow : Visited -> bool -> res bool := visit_both ltESCROW escrow_isBad.

(** All checkers see an entry, in the order of the tuple. *)
Definition visitEntry (e : Visited) (c : Checks) : res Checks :=
  let deleted := visit_deleted e (accountDeleted_ c) in
  let '(mismatch, invalid) := visit_types e (typeMismatch_ c, invalidTypeAdded_ c) in
  balance ← visit_balance e (balance_bad_ c);
  drops ← visit_drops e (drops_ c);
  line ← visit_lines e (sfcTrustLine_ c);
  offer ← visit_offers e (offer_bad_ c);
  escrow ← visit_escrow e (escrow_bad_ c);
  Ok (mkChecks deleted mismatch invalid balance drops line offer escrow).

(** ** Final verdicts *)

(** [TransactionFeeCheck::finalize]. *)
Definition finalize_fee (tx : Object) (fee : Z) : res bool :=
  if fee <? 0 then Ok false else
  if SYSTEM_CURRENCY_START <=? u64 fee then Ok false else
  txFee ← getFieldAmount tx sfFee; txFee ← sfc txFee;
  Ok (negb (txFee <? fee)).

(** [SFCNotCreated::finalize]. *)
Definition finalize_drops (fee : Z) (drops : Z) : bool :=
  if 0 <? drops then false else if negb (i64 (- drops) =? fee) then false else true.

Definition finalize (tx : Object) (fee : Z) (c : Checks) : res bool :=
  fee_ok ← finalize_fee tx fee;
  Ok (fee_ok && negb (accountDeleted_ c) && (negb (typeMismatch_ c) && negb (invalidTypeAdded_ c)) && negb (balance_bad_ c) &&
      finalize_drops fee (drops_ c) && negb (sfcTrustLine_ c) && negb (offer_bad_ c) && negb (escrow_bad_ c)).

(** ** [ApplyContext] *)

Definition failInvariantCheck (result : Z) : Z :=
  if (result =? tecINVARIANT_FAILED) || (result =? tefINVARIANT_FAILED) then tefINVARIANT_FAILED else tecINVARIANT_FAILED.

Definition visited (e : Z * bool * option (SLE Object) * option (SLE Object)) : Visited := let '(_, isDelete, before, after) := e in (isDelete, before, after).

Definition run_checks (base : ReadView Object) (t : ApplyStateTable Object) (tx : Object) (fee : Z) : res bool :=
  c ← for_each visitEntry (visited <$> as_visit t base) getInvariantChecks; finalize tx fee c.

Definition checkInvariants (info : ViewInfo) (base : ReadView Object) (t : ApplyStateTable Object) (tx : Object) (result fee : Z) : Z :=
  if enabled info featureEnforceInvariants then
    match run_checks base t tx fee with
    | Ok true => result
    | Ok false => failInvariantCheck result
    | Throw _ => failInvariantCheck result
    end
  else result.

(** ** What is visited *)

Section Visit.
Context (base : ReadView Object) (m : gmap Z (SLE Object)) `{!ReadViewOf base m}.

Lemma read_unchecked k : rv_read base (unchecked k) = m !! k.
Proof. rewrite rv_read_spec. cbn. by destruct (m !! k). Qed.

(** What a call says of the ledger before and after. *)
Definition visit_ok (m' : gmap Z (SLE Object)) (e : Z * bool * option (SLE Object) * option (SLE Object)) : Prop :=
  let '(k, isDelete, before, after) := e in
  before = m !! k /\ is_Some after /\ if isDelete then m' !! k = None /\ is_Some before else after = m' !! k.

Abbreviation vkey := (fun e : Z * bool * option (SLE Object) * option (SLE Object) => e.1.1.1).

(** The call for an item of the table. *)
Definition visit_of (t : ApplyStateTable Object) (item : Z * (Action * ptr)) : option (Z * bool * option (SLE Object) * option (SLE Object)) :=
  match item.2.1 with
  | Act_erase => Some (item.1, true, rv_read base (unchecked item.1), as_heap t !! item.2.2)
  | Act_insert => Some (item.1, false, None, as_heap t !! item.2.2)
  | Act_modify => Some (item.1, false, rv_read base (unchecked item.1), as_heap t !! item.2.2)
  | Act_cache => None
  end.

Lemma visit_of_key t item e : visit_of t item = Some e -> vkey e = item.1.
Proof. unfold visit_of. destruct (item.2.1); [done|..]; by intros [= <-]. Qed.

Lemma visit_of_ok t k a p e : as_wf t m -> as_items t !! k = Some (a, p) -> visit_of t (k, (a, p)) = Some e -> visit_ok (as_overlay t m) e.
Proof.
  intros Hwf Hi. destruct (Hwf _ _ Hi) as (s & Hs & Hk & Ha). cbn in Hs, Ha.
  assert (Hm' : as_overlay t m !! k = as_shown (as_heap t) (a, p)) by by rewrite as_overlay_lookup, Hi. unfold as_shown in Hm'. cbn in Hm'.
  unfold visit_of. cbn. destruct a; [done|..]; intros [= <-]; unfold visit_ok; rewrite ?read_unchecked, Hs, Hm'; cbn; rewrite ?Hs; eauto.
Qed.

Lemma visit_keys_NoDup t (l : list (Z * (Action * ptr))) : NoDup l.*1 -> NoDup (vkey <$> omap (visit_of t) l).
Proof.
  induction l as [|item l IH]; intros Hn; [constructor|]. cbn [fmap list_fmap] in Hn. apply NoDup_cons in Hn as [Hx Hn]. cbn [omap list_omap].
  destruct (visit_of t item) as [e|] eqn:E; [|by apply IH]. cbn [fmap list_fmap]. apply NoDup_cons. split; [|by apply IH].
  intros (e' & Heq & (i & Hi & He')%list_elem_of_omap)%list_elem_of_fmap. apply Hx.
  rewrite <-(visit_of_key t item e E), Heq, (visit_of_key t i e' He'). by apply list_elem_of_fmap_2.
Qed.

(** Every changed entry is visited once, as it was and as it is. *)
Lemma as_visit_spec t : as_wf t m ->
  let m' := as_overlay t m in
  Forall (visit_ok m') (as_visit t base) /\ NoDup (vkey <$> as_visit t base) /\
  (forall k, k ∉ vkey <$> as_visit t base -> m' !! k = m !! k).
Proof.
  intros Hwf m'. change (as_visit t base) with (omap (visit_of t) (in_order (as_items t))). split; [|split].
  - rewrite Forall_forall. intros e ([k [a p]] & Hin%elem_of_in_order & He)%list_elem_of_omap. by eapply visit_of_ok.
  - apply visit_keys_NoDup, in_order_NoDup.
  - intros k Hk. unfold m'. rewrite as_overlay_lookup. destruct (as_items t !! k) as [[a p]|] eqn:E; [|done].
    destruct (Hwf _ _ E) as (s & Hs & _ & Ha). cbn in Hs, Ha. unfold as_shown. cbn. rewrite Hs.
    assert (Hv : forall e, visit_of t (k, (a, p)) = Some e -> False).
    { intros e He. apply Hk. rewrite <-(visit_of_key t (k, (a, p)) e He : _ = k). apply (list_elem_of_fmap_2 vkey), list_elem_of_omap. exists (k, (a, p)). split; [by apply elem_of_in_order|done]. }
    unfold visit_of in Hv. cbn in Hv. destruct a; [by rewrite Ha|..]; by destruct (Hv _ eq_refl).
Qed.
End Visit.

(** ** Sums over a ledger *)

Section Sum.
Context {A : Type} (v : A -> Z).

Definition map_sum (m : gmap Z A) : Z := map_fold (fun _ a z => v a + z) 0 m.
Definition opt_v (o : option A) : Z := match o with Some a => v a | None => 0 end.

Lemma map_sum_insert m k a : m !! k = None -> map_sum (<[k := a]> m) = v a + map_sum m.
Proof. intros Hk. unfold map_sum. rewrite map_fold_insert_L; [done| |done]. intros. lia. Qed.

Lemma map_sum_delete m k : map_sum m = opt_v (m !! k) + map_sum (delete k m).
Proof.
  destruct (m !! k) as [a|] eqn:E; cbn.
  - rewrite <-(insert_delete_id m k a E) at 1. by rewrite map_sum_insert by apply lookup_delete_eq.
  - by rewrite delete_id.
Qed.

(** The sum changes by what the keys of a list change. *)
Lemma map_sum_diff (ks : list Z) : forall m m' : gmap Z A, NoDup ks -> (forall k, k ∉ ks -> m' !! k = m !! k) ->
  map_sum m' - map_sum m = foldr (fun k z => opt_v (m' !! k) - opt_v (m !! k) + z) 0 ks.
Proof.
  induction ks as [|k ks IH]; intros m m' Hn Hd.
  - assert (m' = m) as -> by (apply map_eq; intros k; apply Hd, not_elem_of_nil). cbn. lia.
  - apply NoDup_cons in Hn as [Hk Hn]. cbn [foldr]. rewrite (map_sum_delete m k), (map_sum_delete m' k).
    assert (Hih : map_sum (delete k m') - map_sum (delete k m) = foldr (fun j z => opt_v (delete k m' !! j) - opt_v (delete k m !! j) + z) 0 ks).
    { apply IH; [done|]. intros j Hj. destruct (decide (j = k)) as [->|Hne]; [by rewrite !lookup_delete_eq|].
      rewrite !lookup_delete_ne by done. apply Hd. by intros [?|?]%elem_of_cons. }
    assert (Hf : foldr (fun j z => opt_v (delete k m' !! j) - opt_v (delete k m !! j) + z) 0 ks = foldr (fun j z => opt_v (m' !! j) - opt_v (m !! j) + z) 0 ks).
    { clear - Hk. induction ks as [|j ks IH]; [done|]. apply not_elem_of_cons in Hk as [Hj Hk]. cbn [foldr]. by rewrite IH, !lookup_delete_ne by done. }
    lia.
Qed.
End Sum.

(** ** What the checkers establish *)

(** The drops of an entry, and of a ledger: balances of accounts, what is left in
    payment channels, and escrows. *)
Definition entry_v (s : SLE Object) : Z := match entry_drops s with Ok d => d | Throw _ => 0 end.
Definition total_drops (m : gmap Z (SLE Object)) : Z := map_sum entry_v m.

Definition balance_ok (s : SLE Object) : Prop := exists b d, amount_at s sfBalance = Ok b /\ mIsNative b = true /\ sfc b = Ok d /\ 0 <= d <= SYSTEM_CURRENCY_START.
Definition escrow_ok (s : SLE Object) : Prop := exists b d, amount_at s sfAmount = Ok b /\ mIsNative b = true /\ sfc b = Ok d /\ 0 < d < SYSTEM_CURRENCY_START.
Definition offer_ok (s : SLE Object) : Prop := exists pays gets, amount_at s sfTakerPays = Ok pays /\ amount_at s sfTakerGets = Ok gets /\
  0 <= signum pays /\ 0 <= signum gets /\ (mIsNative pays && mIsNative gets = false).

(** An entry the checkers have nothing against. *)
Definition entry_good (s : SLE Object) : Prop :=
  (sle_type s = ltACCOUNT_ROOT -> balance_ok s) /\ (sle_type s = ltOFFER -> offer_ok s) /\ (sle_type s = ltESCROW -> escrow_ok s).

Definition visited_good (e : Visited) : Prop :=
  let '(isDelete, before, after) := e in
  (isDelete = true -> has_type ltACCOUNT_ROOT before = false) /\
  (forall b a, before = Some b -> after = Some a -> sle_type b = sle_type a) /\
  (forall a, after = Some a -> known_type (sle_type a) = true /\ entry_good a) /\
  (forall b, before = Some b -> entry_good b).

Definition visited_delta (e : Visited) : Z :=
  let '(isDelete, before, after) := e in
  (match after with
   | Some a => if isDelete && ((sle_type a =? ltPAYCHAN) || (sle_type a =? ltESCROW)) then 0 else entry_v a
   | None => 0
   end) - opt_v entry_v before.

(** No checker but the one for trust lines has seen anything. *)
Definition clean (c : Checks) : Prop :=
  accountDeleted_ c = false /\ typeMismatch_ c = false /\ invalidTypeAdded_ c = false /\ balance_bad_ c = false /\ offer_bad_ c = false /\ escrow_bad_ c = false.

(** *** Each checker *)

Lemma bind_Ok_inv {A B} (r : res A) (f : A -> res B) b : (x ← r; f x) = Ok b -> exists a, r = Ok a /\ f a = Ok b.
Proof. destruct r as [a|e]; [by exists a|done]. Qed.

Lemma test_entry_false type isBad s bad : test_entry type isBad s bad = Ok false ->
  bad = false /\ forall x, s = Some x -> sle_type x = type -> isBad x = Ok false.
Proof.
  unfold test_entry. destruct s as [x|]; [|by intros [= ->]]. destruct (Z.eqb_spec (sle_type x) type) as [He|He].
  - intros (b & Hb & [= [-> ->]%orb_false_iff])%bind_Ok_inv. split; [done|]. by intros ? [= <-].
  - intros [= ->]. split; [done|]. by intros ? [= <-].
Qed.

Lemma visit_both_false type isBad d b a bad : visit_both type isBad (d, b, a) bad = Ok false ->
  bad = false /\ forall x, b = Some x \/ a = Some x -> sle_type x = type -> isBad x = Ok false.
Proof.
  unfold visit_both. intros (bad1 & H1 & [-> H2]%test_entry_false)%bind_Ok_inv. apply test_entry_false in H1 as [-> H1]. split; [done|]. intros x [Hx|Hx]; eauto.
Qed.

Lemma sfc_range a d : sfc a = Ok d -> - 2 ^ 63 <= d <= 2 ^ 63.
Proof.
  unfold sfc. destruct (mIsNative a); [|done]. cbn. pose proof (Z.mod_pos_bound (mValue a + 2 ^ 63) (2 ^ 64) ltac:(lia)) as Hm.
  unfold i64. destruct (mIsNegative a); intros [= <-]; lia.
Qed.

Lemma u64_nonneg d : 0 <= d <= 2 ^ 63 -> u64 d = d.
Proof. intros. apply Z.mod_small. lia. Qed.

Lemma balance_isBad_false b : balance_isBad b = Ok false -> mIsNative b = true /\ exists d, sfc b = Ok d /\ 0 <= d <= SYSTEM_CURRENCY_START.
Proof.
  unfold balance_isBad. destruct (mIsNative b) eqn:Hn; [|done]. cbn [negb]. intros (d & Hd & H)%bind_Ok_inv. split; [done|]. exists d. split; [done|].
  destruct (Z.ltb_spec SYSTEM_CURRENCY_START (u64 d)) as [|Hle]; [done|]. destruct (Z.ltb_spec d 0) as [|Hpos]; [done|].
  rewrite u64_nonneg in Hle by (apply sfc_range in Hd; lia). lia.
Qed.

Lemma visit_balance_false d b a bad : visit_balance (d, b, a) bad = Ok false -> bad = false /\ forall x, b = Some x \/ a = Some x -> sle_type x = ltACCOUNT_ROOT -> balance_ok x.
Proof.
  intros [-> H]%visit_both_false. split; [done|]. intros x Hx Ht. destruct (bind_Ok_inv _ _ _ (H x Hx Ht)) as (y & Hy & (Hn & dr & Hd & Hr)%balance_isBad_false).
  by exists y, dr.
Qed.

Lemma visit_escrow_false d b a bad : visit_escrow (d, b, a) bad = Ok false -> bad = false /\ forall x, b = Some x \/ a = Some x -> sle_type x = ltESCROW -> escrow_ok x.
Proof.
  intros [-> H]%visit_both_false. split; [done|]. intros x Hx Ht. destruct (bind_Ok_inv _ _ _ (H x Hx Ht)) as (y & Hy & Hb).
  destruct (mIsNative y) eqn:Hn; [|done]. cbn [negb] in Hb. apply bind_Ok_inv in Hb as (dr & Hd & Hb). exists y, dr. split_and!; [done..| |];
    (destruct (Z.leb_spec dr 0) as [|Hpos]; [done|]); [lia|]. destruct (Z.leb_spec SYSTEM_CURRENCY_START (u64 dr)) as [|Hlt]; [done|].
  rewrite u64_nonneg in Hlt by (apply sfc_range in Hd; lia). lia.
Qed.

Lemma visit_offers_false d b a bad : visit_offers (d, b, a) bad = Ok false -> bad = false /\ forall x, b = Some x \/ a = Some x -> sle_type x = ltOFFER -> offer_ok x.
Proof.
  intros [-> H]%visit_both_false. split; [done|]. intros x Hx Ht. destruct (bind_Ok_inv _ _ _ (H x Hx Ht)) as (p & Hp & (g & Hg & Hb)%bind_Ok_inv).
  exists p, g. destruct (Z.ltb_spec (signum p) 0) as [|]; [done|]. destruct (Z.ltb_spec (signum g) 0) as [|]; [done|]. by injection Hb as ->.
Qed.

Lemma visit_types_false d b a c : visit_types (d, b, a) c = (false, false) -> c = (false, false) /\
  (forall x y, b = Some x -> a = Some y -> sle_type x = sle_type y) /\ (forall y, a = Some y -> known_type (sle_type y) = true).
Proof.
  destruct c as [c1 c2]. unfold visit_types. cbn [fst snd]. intros [= [H1 ->]%orb_false_iff [H2 ->]%orb_false_iff]. split; [done|]. split.
  - intros x y -> ->. by apply negb_false_iff, Z.eqb_eq in H1.
  - intros y ->. by apply negb_false_iff in H2.
Qed.

Lemma visit_deleted_false d b a c : visit_deleted (d, b, a) c = false -> c = false /\ (d = true -> has_type ltACCOUNT_ROOT b = false).
Proof. unfold visit_deleted. destruct d; cbn; [|done]. by destruct (has_type ltACCOUNT_ROOT b). Qed.

(** *** The running total, at the width of the counter *)

Definition same64 (a b : Z) : Prop := u64 a = u64 b.

Lemma same64_i64 a : same64 (i64 a) a.
Proof. unfold same64, u64, i64. rewrite Zminus_mod, Zmod_mod, <-Zminus_mod. f_equal. lia. Qed.

Lemma same64_add a b c d : same64 a b -> same64 c d -> same64 (a + c) (b + d).
Proof. unfold same64, u64. intros H1 H2. by rewrite Z.add_mod, H1, H2, <-Z.add_mod. Qed.

#[local] Instance same64_equiv : Equivalence same64.
Proof. split; unfold same64; [done|by intros a b ->|by intros a b c -> ->]. Qed.

Lemma entry_v_Ok s d : entry_drops s = Ok d -> entry_v s = d.
Proof. unfold entry_v. by intros ->. Qed.

Lemma visit_drops_delta e drops drops' : visit_drops e drops = Ok drops' -> same64 drops' (drops + visited_delta e).
Proof.
  destruct e as [[isDelete before] after]. unfold visit_drops, visited_delta. intros (d1 & H1 & H2)%bind_Ok_inv.
  assert (Hb : same64 d1 (drops - opt_v entry_v before)).
  { destruct before as [b|]; cbn; [|injection H1 as ->; by rewrite Z.sub_0_r].
    apply bind_Ok_inv in H1 as (x & Hx & [= <-]). rewrite (entry_v_Ok _ _ Hx). apply same64_i64. }
  destruct after as [a|]; [|injection H2 as <-; by replace (drops + _) with (drops - opt_v entry_v before) by lia].
  destruct (isDelete && _); [injection H2 as <-; by replace (drops + _) with (drops - opt_v entry_v before) by lia|].
  apply bind_Ok_inv in H2 as (x & Hx & [= <-]). rewrite (entry_v_Ok _ _ Hx). etransitivity; [apply same64_i64|].
  replace (drops + _) with ((drops - opt_v entry_v before) + x) by lia. by apply same64_add.
Qed.

Lemma visitEntry_clean e c c' : visitEntry e c = Ok c' -> clean c' -> clean c /\ visited_good e /\ same64 (drops_ c') (drops_ c + visited_delta e).
Proof.
  destruct e as [[d b] a]. unfold visitEntry. destruct (visit_types _ _) as [mm inv] eqn:Et.
  intros (bal & Hbal & (dr & Hdr & (ln & _ & (ofr & Hof & (es & Hes & [= <-])%bind_Ok_inv)%bind_Ok_inv)%bind_Ok_inv)%bind_Ok_inv)%bind_Ok_inv.
  intros (C1 & C2 & C3 & C4 & C5 & C6). cbn in C1, C2, C3, C4, C5, C6. subst.
  apply (visit_deleted_false d b a) in C1 as [D1 D2]. apply visit_types_false in Et as [[= T1 T2] [T3 T4]].
  apply visit_balance_false in Hbal as [B1 B2]. apply visit_offers_false in Hof as [O1 O2]. apply visit_escrow_false in Hes as [E1 E2].
  split; [done|]. split; [|by apply visit_drops_delta in Hdr]. split; [done|]. split; [done|].
  split; [intros x ->; split; [by apply T4|]|intros x ->]; unfold entry_good; split_and!; eauto.
Qed.

Definition sum_delta (l : list Visited) : Z := foldr (fun e z => visited_delta e + z) 0 l.

Lemma visit_all l : forall c c', for_each visitEntry l c = Ok c' -> clean c' ->
  clean c /\ Forall visited_good l /\ same64 (drops_ c') (drops_ c + sum_delta l).
Proof.
  induction l as [|e l IH]; intros c c'.
  - intros [= ->] Hc. split; [done|]. split; [done|]. cbn. by rewrite Z.add_0_r.
  - cbn [for_each]. intros (c1 & H1 & H2)%bind_Ok_inv Hc. destruct (IH _ _ H2 Hc) as (K1 & K2 & K3).
    destruct (visitEntry_clean e c c1 H1 K1) as (L1 & L2 & L3). split; [done|]. split; [by constructor|]. etransitivity; [exact K3|].
    cbn [sum_delta foldr]. rewrite Z.add_assoc. apply same64_add; [done|reflexivity].
Qed.

(** *** The sum of the differences *)

Section Total.
Context (m m' : gmap Z (SLE Object)).

(** A visited entry that passed adds what it adds to the ledger. *)
Lemma delta_ledger e : visit_ok m m' e -> visited_good (visited e) ->
  visited_delta (visited e) = opt_v entry_v (m' !! e.1.1.1) - opt_v entry_v (m !! e.1.1.1).
Proof.
  destruct e as [[[k d] b] a]. intros (-> & [x ->] & Hd) (G1 & G2 & _). cbn -[opt_v entry_v] in *. destruct d.
  - destruct Hd as [-> [y Hy]]. rewrite Hy in *. specialize (G1 eq_refl). cbn in G1. rewrite <-(G2 y x eq_refl eq_refl). apply Z.eqb_neq in G1.
    cbn [andb opt_v]. destruct (Z.eqb_spec (sle_type y) ltPAYCHAN) as [|N1]; [done|]. destruct (Z.eqb_spec (sle_type y) ltESCROW) as [|N2]; [done|]. cbn [orb].
    replace (entry_v x) with 0; [done|]. unfold entry_v, entry_drops. rewrite <-(G2 y x eq_refl eq_refl).
    destruct (Z.eqb_spec (sle_type y) ltACCOUNT_ROOT); [done|]. destruct (Z.eqb_spec (sle_type y) ltPAYCHAN); [done|]. by destruct (Z.eqb_spec (sle_type y) ltESCROW).
  - rewrite <-Hd. done.
Qed.

Lemma sum_delta_total l : Forall (visit_ok m m') l -> Forall visited_good (visited <$> l) -> NoDup ((fun e => e.1.1.1) <$> l) ->
  (forall k, k ∉ (fun e => e.1.1.1) <$> l -> m' !! k = m !! k) ->
  sum_delta (visited <$> l) = total_drops m' - total_drops m.
Proof.
  intros H1 H2 Hn Hk. unfold total_drops. rewrite (map_sum_diff entry_v _ m m' Hn Hk). clear Hn Hk.
  induction H1 as [|e l He Hl IH]; [done|]. cbn [fmap list_fmap sum_delta foldr] in *. apply Forall_cons in H2 as [Hg H2].
  rewrite (delta_ledger e He Hg). by rewrite <-IH.
Qed.
End Total.

(** ** Soundness *)

(** What passing the checks says of a ledger before and after and of the fee. *)
Record invariants_hold (m m' : gmap Z (SLE Object)) (txFee fee : Z) : Prop := {
  ih_fee : 0 <= fee <= txFee /\ fee < SYSTEM_CURRENCY_START;
  ih_drops : u64 (total_drops m') = u64 (total_drops m - fee);
  ih_accounts : forall k s, m !! k = Some s -> sle_type s = ltACCOUNT_ROOT -> exists s', m' !! k = Some s' /\ sle_type s' = ltACCOUNT_ROOT;
  ih_types : forall k s s', m !! k = Some s -> m' !! k = Some s' -> sle_type s = sle_type s';
  ih_entries : forall k s', m' !! k = Some s' -> m !! k <> Some s' -> known_type (sle_type s') = true /\ entry_good s'
}.

Lemma finalize_true tx fee c : finalize tx fee c = Ok true ->
  clean c /\ (exists a txFee, getFieldAmount tx sfFee = Ok a /\ sfc a = Ok txFee /\ 0 <= fee <= txFee /\ fee < SYSTEM_CURRENCY_START) /\ i64 (- drops_ c) = fee.
Proof.
  unfold finalize. intros (b & Hb & Hall)%bind_Ok_inv. injection Hall as Hall. rewrite !andb_true_iff, !negb_true_iff in Hall.
  destruct Hall as [[[[[[[-> H1] [H2 H3]] H4] H5] _] H6] H7]. split; [done|]. split.
  - unfold finalize_fee in Hb. destruct (Z.ltb_spec fee 0) as [|H0]; [done|]. destruct (Z.leb_spec SYSTEM_CURRENCY_START (u64 fee)) as [|Hl]; [done|].
    apply bind_Ok_inv in Hb as (a & Ha & (tf & Htf & [= Hc])%bind_Ok_inv). exists a, tf. apply negb_true_iff, Z.ltb_ge in Hc. apply sfc_range in Htf as Hr.
    rewrite u64_nonneg in Hl by lia. repeat split; done || lia.
  - unfold finalize_drops in H5. destruct (0 <? drops_ c); [done|]. by destruct (Z.eqb_spec (i64 (- drops_ c)) fee).
Qed.

Lemma invariants_of m m' l tx fee c : Forall (visit_ok m m') l -> NoDup ((fun e => e.1.1.1) <$> l) -> (forall k, k ∉ (fun e => e.1.1.1) <$> l -> m' !! k = m !! k) ->
  for_each visitEntry (visited <$> l) getInvariantChecks = Ok c -> finalize tx fee c = Ok true ->
  exists a txFee, getFieldAmount tx sfFee = Ok a /\ sfc a = Ok txFee /\ invariants_hold m m' txFee fee.
Proof.
  intros Hok Hn Hk Hv (Hc & (a & tf & Ha & Htf & Hfee & Hlt) & Hd)%finalize_true. destruct (visit_all _ _ _ Hv Hc) as (_ & Hg & Hs).
  rewrite (sum_delta_total m m' l Hok Hg Hn Hk) in Hs. exists a, tf. split; [done|]. split; [done|].
  assert (Hin : forall k, m' !! k = m !! k \/ exists d after, (k, d, m !! k, after) ∈ l /\ visited_good (d, m !! k, after) /\ visit_ok m m' (k, d, m !! k, after)).
  { intros k. destruct (decide (k ∈ (fun e : Z * bool * option (SLE Object) * option (SLE Object) => e.1.1.1) <$> l)) as [Hin|Hni]; [right|by left; apply Hk].
    apply list_elem_of_fmap in Hin as ([[[k' d] b] x] & -> & Hin). cbn in *. rewrite Forall_forall in Hok. pose proof (Hok _ Hin) as (-> & Hrest).
    exists d, x. split; [done|]. split; [|by split]. rewrite Forall_forall in Hg. exact (Hg _ (list_elem_of_fmap_2 visited l _ Hin)). }
  split.
  - done.
  - cbn in Hs. assert (Hsum : same64 (- fee) (total_drops m' - total_drops m)).
    { etransitivity; [|exact Hs]. rewrite <-Hd. replace (drops_ c) with (- - drops_ c) at 2 by lia.
      unfold same64, u64. pose proof (same64_i64 (- drops_ c)) as Hi. unfold same64, u64 in Hi.
      rewrite <-(Z.sub_0_l (i64 _)), <-(Z.sub_0_l (- drops_ c)), Zminus_mod, Hi, <-Zminus_mod. done. }
    replace (total_drops m') with (total_drops m + (total_drops m' - total_drops m)) by lia.
    replace (total_drops m - fee) with (total_drops m + - fee) by lia. symmetry. apply same64_add; [reflexivity|exact Hsum].
  - intros k s Hs' Ht. destruct (Hin k) as [->|(d & x & _ & (G1 & G2 & _) & (_ & [y ->] & Hd'))]; [by exists s|].
    destruct d; [|exists y; split; [done|]; by rewrite <-(G2 s y Hs' eq_refl)]. specialize (G1 eq_refl). rewrite Hs' in G1. cbn in G1. by apply Z.eqb_neq in G1.
  - intros k s s' Hs1 Hs2. destruct (Hin k) as [He|(d & x & _ & (G1 & G2 & _) & (_ & _ & Hd'))]; [congruence|].
    destruct d; [destruct Hd'; congruence|]. apply (G2 s s' Hs1). congruence.
  - intros k s' Hs1 Hs2. destruct (Hin k) as [He|(d & x & _ & (_ & _ & G3 & _) & (_ & _ & Hd'))]; [congruence|]. destruct d; [destruct Hd'; congruence|]. apply G3. congruence.
Qed.

(** The check passes exactly when it returns the result it was given. *)
Lemma checkInvariants_pass info base t tx (result : Z) fee : enabled info featureEnforceInvariants = true -> result <> tefINVARIANT_FAILED ->
  checkInvariants info base t tx result fee = result -> run_checks base t tx fee = Ok true.
Proof.
  intros He Hr. unfold checkInvariants. rewrite He. assert (Hf : failInvariantCheck result <> result).
  { unfold failInvariantCheck. destruct (Z.eqb_spec result tecINVARIANT_FAILED) as [->|H1]; [done|]. destruct (Z.eqb_spec result tefINVARIANT_FAILED); [congruence|]. cbn [orb]. congruence. }
  destruct (run_checks base t tx fee) as [[]|]; done.
Qed.

(** C6. The invariant checks are sound. If the checks let a transaction's changes pass,
    then between the ledger before and the ledger after the total of SFC in accounts,
    escrows and payment channels went down by the fee, as numbers of 64 bits; the fee
    is not negative and not above the one in the transaction; no account is gone; no
    entry changed its type; and every entry that was added or changed has a known
    type, and, by its type, a balance between 0 and the initial supply, an escrowed
    amount strictly between them, or offered amounts that are not negative and not
    both SFC. *)
Theorem invariant_checks_sound info base m t tx (result : Z) fee : ReadViewOf base m -> as_wf t m ->
  enabled info featureEnforceInvariants = true -> result <> tefINVARIANT_FAILED ->
  checkInvariants info base t tx result fee = result ->
  exists a txFee, getFieldAmount tx sfFee = Ok a /\ sfc a = Ok txFee /\ invariants_hold m (as_overlay t m) txFee fee.
Proof.
  intros Hb Hwf He Hr (c & Hc & Hf)%checkInvariants_pass%bind_Ok_inv; [|done..]. destruct (as_visit_spec base m t Hwf) as (H1 & H2 & H3).
  exact (invariants_of m (as_overlay t m) _ tx fee c H1 H2 H3 Hc Hf).
Qed.

(** ** Where the checkers are weaker than described *)

(** An amount below zero is not legal, although it does not exceed the supply. *)
Lemma negative_not_legal : isLegalAmount (-1) = false.
Proof. by vm_compute. Qed.

Definition wentry (k : Keylet) (f : Object -> res Object) : SLE Object :=
  match s ← make_SLE k; o ← f (sle_data s); Ok (with_data s o) with Ok s => s | Throw _ => mkSLE 0 0 (mkObject [] None) end.

Definition wline (key : Z) (low high : STAmount) : SLE Object :=
  wentry (mkKeylet ltSUPPLYFINANCECHAIN_STATE key) (fun o => o ← setFieldAmount o sfLowLimit low; setFieldAmount o sfHighLimit high).

Definition wusd : STAmount := mkSTAmount (mkIssue 5 6) 1000000000000000 0 false false.

(** Of the trust lines a transaction touches only the last counts: one in SFC passes
    when it is followed by another that is not. *)
Lemma sfc_line_passes : visit_lines (false, None, Some (wline 1 (ofSigned 5) (ofSigned 5))) false = Ok true /\
  for_each visitEntry [(false, None, Some (wline 1 (ofSigned 5) (ofSigned 5))); (false, None, Some (wline 2 wusd wusd))] getInvariantChecks = Ok getInvariantChecks.
Proof. by vm_compute. Qed.

(** ** Witness *)

Definition waccount (key drops : Z) : SLE Object := wentry (mkKeylet ltACCOUNT_ROOT key) (fun o => setFieldAmount o sfBalance (ofSigned drops)).

Definition wbase : RawStateTable.Ledger Object := mkLedger {[ 1 := waccount 1 1000; 2 := waccount 2 50 ]} 100000.

(** A payment of 100 drops with a fee of 10. *)
Definition wpay : list (ViewOp Object) :=
  [vo_modify (unchecked 1) (fun _ => sle_data (waccount 1 890)); vo_modify (unchecked 2) (fun _ => sle_data (waccount 2 150))].

Definition wtx : Object := mkObject [(sfFee, V_Amount (ofSigned 10))] None.
Definition winfo : ViewInfo := mkInfo (fun _ => true) (mkFees 10 10 20 5) false 7 1000.

Lemma invariant_checks_sound_witness : exists t a txFee,
  vo_run (ledger_view wbase) wpay as_empty = Ok t /\ getFieldAmount wtx sfFee = Ok a /\ sfc a = Ok txFee /\ invariants_hold (stateMap wbase) (as_overlay t (stateMap wbase)) txFee 10.
Proof.
  assert (Hb : ReadViewOf (ledger_view wbase) (stateMap wbase)) by (apply ledger_view_of; by vm_compute).
  assert (Hk : keys_ok (stateMap wbase)) by (intros k s; cbn; intros [[<- <-]|[_ [<- <-]%lookup_singleton_Some]]%lookup_insert_Some; by vm_compute).
  destruct (vo_run_sim (ledger_view wbase) (stateMap wbase) Hk wpay as_empty (stateMap wbase) 0 {[ 1 := waccount 1 890; 2 := waccount 2 150 ]} 0) as (t & Hr & Hwf & _);
    [apply as_empty_denotes|by vm_compute|].
  destruct (invariant_checks_sound winfo (ledger_view wbase) (stateMap wbase) t wtx tesSUCCESS 10 Hb Hwf eq_refl) as (a & f & Ha & Hf & Hi); [done| |by exists t, a, f].
  vm_compute in Hr. injection Hr as <-. by vm_compute.
Defined.
