(* ===== verification/Entries.v ===== *)
(** * Well-formed ledgers and the drops they hold

    What the programs of the transactors are proved against. A ledger is well formed
    when every entry is an object of the template of its type, is filed under its
    key, and holds a proper amount of SFC where its type holds one. [money] is the
    SFC an entry holds. A program that is [neutral] keeps the ledger well formed and
    moves no SFC; the rules for [neutral] follow the structure of programs. *)

From S2P Require Import Prelude View RawStateTable ApplyStateTable STAmount SField STObject STAccess Indexes Formats Prog Invariants.

(** ** Amounts of drops *)

Definition is_drops (a : STAmount) (n : Z) : Prop := wf a /\ mIsNative a = true /\ smant a = n.

Lemma drops_range a n : is_drops a n -> - cMaxNativeN <= n <= cMaxNativeN.
Proof. intros ((_ & Hr & _) & Hn & <-). rewrite Hn in Hr. destruct Hr as [_ Hr]. unfold smant. destruct (mIsNegative a); lia. Qed.

Lemma sfc_drops a n : is_drops a n -> sfc a = Ok n.
Proof. intros (Hwf & Hn & <-). unfold sfc. rewrite Hn. cbn [negb]. by rewrite smant_i64. Qed.

Lemma drops_comparable a b n p : is_drops a n -> is_drops b p -> areComparable a b = true.
Proof.
  intros ((Ia & _) & Na & _) ((Ib & _) & Nb & _). unfold areComparable. rewrite Na, Nb in *. unfold isSFC in *. cbn. lia.
Qed.

Lemma op_lt_drops a b n p : is_drops a n -> is_drops b p -> op_lt a b = Ok (n <? p).
Proof.
  intros Ha Hb. unfold op_lt. rewrite (drops_comparable a b n p Ha Hb). cbn [negb]. destruct Ha as ((_ & Ra & Za) & Na & <-), Hb as ((_ & Rb & Zb) & Nb & <-).
  rewrite Na in Ra. rewrite Nb in Rb. destruct Ra as [Oa Ra], Rb as [Ob Rb]. rewrite Oa, Ob, Z.ltb_irrefl. unfold smant.
  destruct (mIsNegative a) eqn:Ea, (mIsNegative b) eqn:Eb; cbn [Bool.eqb negb];
    repeat match goal with |- context [?x =? ?y] => destruct (Z.eqb_spec x y) | |- context [?x <? ?y] => destruct (Z.ltb_spec x y) end; cbn [negb]; done || lia || auto with lia.
  all: try (exfalso; lia). all: try (specialize (Za ltac:(lia)); congruence). all: try (specialize (Zb ltac:(lia)); congruence).
Qed.

Lemma op_neg_drops a n : is_drops a n -> is_drops (op_neg a) (- n).
Proof.
  intros ((Hi & Hr & Hz) & Hn & <-). unfold op_neg. destruct (Z.eqb_spec (mValue a) 0) as [E|E].
  - split; [done|]. split; [done|]. unfold smant. rewrite E. by destruct (mIsNegative a).
  - split; [split; [done|split; [|cbn; intros; contradiction]]|split; [done|]]; cbn; [exact Hr|]. unfold smant. cbn. destruct (mIsNegative a); cbn; lia.
Qed.

Lemma op_add_drops a b n p : is_drops a n -> is_drops b p -> - cMaxNativeN <= n + p <= cMaxNativeN -> exists c, op_add a b = Ok c /\ is_drops c (n + p).
Proof.
  intros (Ha & Na & <-) (Hb & Nb & <-) Hr. destruct (op_add_native a b Ha Hb Na Nb) as (c & E & Hs & Hi & Hv & Hn & Ho & Hz). exists c. split; [done|].
  split; [|split; [done|by rewrite Hs]]. split; [by rewrite Hn|]. split; [|done]. rewrite Hn. split; [done|]. rewrite <-Hs in Hr. unfold smant in Hr. destruct (mIsNegative c); lia.
Qed.

Lemma op_sub_drops a b n p : is_drops a n -> is_drops b p -> - cMaxNativeN <= n - p <= cMaxNativeN -> exists c, op_sub a b = Ok c /\ is_drops c (n - p).
Proof. intros Ha Hb Hr. apply (op_add_drops a (op_neg b) n (- p)); [done|by apply op_neg_drops|lia]. Qed.

Lemma ofSFC_inv n a : - 2 ^ 63 <= n <= 2 ^ 63 -> ofSFC n = Ok a -> is_drops a n.
Proof.
  intros Hn. unfold ofSFC. set (v := if n <? 0 then - n else n). assert (Hv : 0 <= v <= 2 ^ 63) by (subst v; destruct (Z.ltb_spec n 0); lia).
  intros E. rewrite canonicalize_native in E; cbn [mIssue mValue mOffset mIsNegative] in *; [|done|lia]. cbv zeta in E. rewrite Z.ltb_irrefl, Z.pow_0_r, Z.mul_1_r, u64_small in E by lia.
  destruct (Z.eqb_spec v 0) as [E0|E0].
  - injection E as <-. split; [split; [done|split; [split; [done|cbn; st_consts; lia]|done]]|split; [done|]]. cbn. subst v. destruct (Z.ltb_spec n 0); lia.
  - destruct (Z.ltb_spec cMaxNativeN v); [done|]. injection E as <-. split; [split; [done|split; [split; [done|cbn; lia]|done]]|split; [done|]].
    unfold smant. cbn. subst v. destruct (Z.ltb_spec n 0); lia.
Qed.

Lemma ofSFC_drops n : - cMaxNativeN <= n <= cMaxNativeN -> exists a, ofSFC n = Ok a /\ is_drops a n.
Proof.
  intros Hn. destruct (ofSFC n) as [a|e] eqn:E; [exists a; split; [done|apply ofSFC_inv; [st_consts; lia|done]]|]. exfalso.
  unfold ofSFC in E. rewrite canonicalize_native in E; cbn [mIssue mValue mOffset mIsNegative] in *; [|done|destruct (Z.ltb_spec n 0); st_consts; lia]. cbv zeta in E.
  rewrite Z.ltb_irrefl, Z.pow_0_r, Z.mul_1_r, u64_small in E by (destruct (Z.ltb_spec n 0); st_consts; lia).
  destruct (_ =? 0); [done|]. destruct (Z.ltb_spec cMaxNativeN (if n <? 0 then - n else n)); [|done]. destruct (Z.ltb_spec n 0); lia.
Qed.

(** ** Writes that returned *)

Lemma setField_written o f v o' : object_ok o -> field_ok f -> setField o f v = Ok o' -> written_to o f v o'.
Proof.
  intros Ho Hf E. destruct (decide (accepts o f)) as [Ha|Ha]; [|by rewrite setField_refused in E].
  destruct (decide (getSType v = fieldType f)) as [Hv|Hv]; [|by rewrite setField_mismatch in E].
  destruct (setField_Ok o f v Ho Hf Ha Hv) as (o2 & E2 & Hw). congruence.
Qed.

Lemma makeFieldAbsent_written o f o' : object_ok o -> field_ok f -> makeFieldAbsent o f = Ok o' -> written_to o f V_NotPresent o'.
Proof.
  intros Ho Hf E. destruct (getFieldIndex o f) as [i|] eqn:Hi; [|unfold makeFieldAbsent in E; by rewrite Hi in E].
  destruct (makeFieldAbsent_Ok o f Ho Hf) as (o2 & E2 & Hw); [by rewrite Hi|congruence].
Qed.

Lemma style_present o t f v : object_ok o -> o_type o = Some t -> peekAtPField o f = Some v -> is_Some (style t f).
Proof.
  intros Ho Ht Hp. destruct (getFieldIndex o f) as [i|] eqn:Hi; [|unfold peekAtPField in Hp; by rewrite Hi in Hp].
  destruct (ok_at o f i Ho Hi) as (g & u & Hu & _). unfold style. unfold getFieldIndex in Hi. rewrite Ht in Hi. rewrite Hi. cbn [mbind option_bind].
  destruct Ho as (_ & _ & _ & Hn). rewrite Ht in Hn. assert (Hl : is_Some (t.*1 !! i)) by (rewrite Hn, list_lookup_fmap, Hu; done).
  rewrite list_lookup_fmap in Hl. destruct Hl as [x (y & Hy & _)%fmap_Some]. apply fmap_is_Some. exists y. exact Hy.
Qed.

(** An assignment through a proxy leaves the value, or nothing where the field has a
    default and the value is it. *)
Lemma proxy_assign_written o f v e o' : object_ok o -> field_ok f -> isFree o = false -> proxy_assign o f v e = Ok o' ->
  written_to o f v o' \/ e = true /\ written_to o f V_NotPresent o'.
Proof.
  intros Ho Hf Hfree E. unfold proxy_assign in E. apply bind_Ok_inv in E as (s & Hs & E). unfold proxy_style, isFree in *. destruct (o_type o) as [t|] eqn:Ht; [|done].
  destruct (peekAtPField o f) as [w|] eqn:Hp; [|done]. injection Hs as <-. destruct (getFieldIndex o f) as [i|] eqn:Hi; [|unfold peekAtPField in Hp; by rewrite Hi in Hp].
  destruct (style_present o t f w Ho Ht Hp) as [s Hs]. rewrite Hs in E. destruct (is_soeDEFAULT (Some s) && e) eqn:He.
  - right. apply andb_prop in He as [_ ->]. split; [done|]. by apply makeFieldAbsent_written.
  - left. destruct (decide (getSType v = fieldType f)) as [Hv|Hv].
    + destruct (proxy_assign_Ok o t f s v e Ho Hf Ht Hs He Hv) as (o2 & E2 & Hw). unfold proxy_assign, proxy_style in E2. rewrite Ht, Hp, Hs in E2. cbn [mbind res_bind] in E2. rewrite He in E2. congruence.
    + exfalso. destruct (makeFieldPresent_spec o f i Ho Hf Hi) as (o1 & d & Hm & _ & _ & Hdt & Hat). rewrite Hm in E. cbn [mbind res_bind] in E.
      rewrite Hat, bool_decide_eq_false_2 in E by congruence. done.
Qed.

(** ** Runs that returned *)

Lemma run_bind_inv {A B} (f : A -> prog B) (p : prog A) md b md' : run_map (p ≫= f) md = Ok (b, md') ->
  exists a m1 d1, run_map p md = Ok (a, (m1, d1)) /\ run_map (f a) (m1, d1) = Ok (b, md').
Proof. rewrite run_mbind. intros ([a [m1 d1]] & E1 & E2)%bind_Ok_inv. by exists a, m1, d1. Qed.

Lemma run_lift_inv {A} (r : res A) md a md' : run_map (liftR r) md = Ok (a, md') -> r = Ok a /\ md' = md.
Proof. destruct r; [by intros [= <- <-]|done]. Qed.

Lemma run_ret_inv {A} (a b : A) md md' : run_map (mret a) md = Ok (b, md') -> b = a /\ md' = md.
Proof. by intros [= <- <-]. Qed.

Lemma run_peek_object_inv k m d o md' : run_map (peek_object k) (m, d) = Ok (o, md') -> exists s, shown m k = Some s /\ o = sle_data s /\ md' = (m, d).
Proof. unfold peek_object. rewrite run_mbind, run_peek. cbn [mbind res_bind]. destruct (shown m k) as [s|]; [|done]. intros [= <- <-]. by exists s. Qed.

Lemma run_read_object_inv k m d o md' : run_map (read_object k) (m, d) = Ok (o, md') -> exists s, shown m k = Some s /\ o = sle_data s /\ md' = (m, d).
Proof. unfold read_object. rewrite run_mbind, run_read. cbn [mbind res_bind]. destruct (shown m k) as [s|]; [|done]. intros [= <- <-]. by exists s. Qed.

Lemma run_modify_inv k f m d u md' : run_map (modify k f) (m, d) = Ok (u, md') ->
  exists s o, shown m k = Some s /\ f (sle_data s) = Ok o /\ md' = (<[kl_key k := with_data s o]> m, d).
Proof.
  destruct (shown m k) as [s|] eqn:Hs; [destruct (f (sle_data s)) as [o|e] eqn:Hf|].
  - rewrite (run_modify k f m d s o Hs Hf). intros [= <- <-]. by exists s, o.
  - unfold modify, peek_object. rewrite !run_mbind, run_peek. cbn [mbind res_bind]. rewrite Hs. cbn [run_map mbind res_bind]. by rewrite run_mbind, run_lift, Hf.
  - unfold modify, peek_object. rewrite !run_mbind, run_peek. cbn [mbind res_bind]. by rewrite Hs.
Qed.

Lemma run_erase_inv k m d u md' : run_map (erase_sle k) (m, d) = Ok (u, md') -> exists s, shown m k = Some s /\ md' = (delete (kl_key k) m, d).
Proof.
  destruct (shown m k) as [s|] eqn:Hs; [rewrite (run_erase k m d s Hs); intros [= <- <-]; by exists s|].
  unfold erase_sle, peek_object. rewrite !run_mbind, run_peek. cbn [mbind res_bind]. by rewrite Hs.
Qed.

Lemma run_modify_None k f m d : shown m k = None -> run_map (modify k f) (m, d) = Throw null_pointer.
Proof. intros Hs. unfold modify, peek_object. rewrite !run_mbind, run_peek. cbn [mbind res_bind]. by rewrite Hs. Qed.

Lemma run_erase_None k m d : shown m k = None -> run_map (erase_sle k) (m, d) = Throw null_pointer.
Proof. intros Hs. unfold erase_sle, peek_object. rewrite !run_mbind, run_peek. cbn [mbind res_bind]. by rewrite Hs. Qed.

Lemma run_insert_inv s m d u md' : run_map (insert_sle s) (m, d) = Ok (u, md') -> m !! sle_key s = None /\ md' = (<[sle_key s := s]> m, d).
Proof. cbn. case_decide as Hs; [done|]. intros [= <- <-]. split; [|done]. by apply eq_None_not_Some. Qed.

(** ** Functions that write some fields *)

(** [o'] is [o] with at most the fields of [F] written. *)
Definition evolves (F : list SField) (o o' : Object) : Prop :=
  object_ok o' /\ o_type o' = o_type o /\ forall g, getCode g ∉ getCode <$> F -> peekAtPField o' g = peekAtPField o g.

Definition writes (F : list SField) (f : Object -> res Object) : Prop :=
  forall o o', object_ok o -> isFree o = false -> f o = Ok o' -> evolves F o o'.

Lemma evolves_refl F o : object_ok o -> evolves F o o.
Proof. done. Qed.

Lemma evolves_trans F o1 o2 o3 : evolves F o1 o2 -> evolves F o2 o3 -> evolves F o1 o3.
Proof. intros (_ & T1 & P1) (H2 & T2 & P2). split; [done|]. split; [congruence|]. intros g Hg. by rewrite P2, P1. Qed.

Lemma written_evolves F o f v o' : written_to o f v o' -> getCode f ∈ getCode <$> F -> evolves F o o'.
Proof. intros (Ho & Ht & Hp) Hf. split; [done|]. split; [done|]. intros g Hg. rewrite Hp. case_decide as E; [|done]. by rewrite E in Hg. Qed.

Lemma evolves_free F o o' : evolves F o o' -> isFree o' = isFree o.
Proof. intros (_ & Ht & _). unfold isFree. by rewrite Ht. Qed.

Lemma writes_bind F f g : writes F f -> writes F g -> writes F (fun o => o1 ← f o; g o1).
Proof.
  intros Hf Hg o o' Ho Hfree (o1 & E1 & E2)%bind_Ok_inv. pose proof (Hf o o1 Ho Hfree E1) as H1. eapply evolves_trans; [exact H1|].
  apply Hg; [apply H1|by rewrite (evolves_free F o o1)|done].
Qed.

Lemma writes_read {A} F (r : Object -> res A) (f : A -> Object -> res Object) : (forall a, writes F (f a)) -> writes F (fun o => a ← r o; f a o).
Proof. intros Hf o o' Ho Hfree (a & E1 & E2)%bind_Ok_inv. by apply (Hf a). Qed.

Lemma writes_lift {A} F (r : res A) (f : A -> Object -> res Object) : (forall a, r = Ok a -> writes F (f a)) -> writes F (fun o => a ← r; f a o).
Proof. intros Hf o o' Ho Hfree (a & E1 & E2)%bind_Ok_inv. by apply (Hf a). Qed.

Lemma writes_ret F : writes F Ok.
Proof. by intros o o' Ho _ [= <-]. Qed.

Lemma writes_if F (b : bool) f g : writes F f -> writes F g -> writes F (fun o => if b then f o else g o).
Proof. by destruct b. Qed.

Lemma writes_set F f v : field_ok f -> getCode f ∈ getCode <$> F -> writes F (fun o => setField o f v).
Proof. intros Hf Hin o o' Ho _ E. eapply written_evolves; [by apply (setField_written o f v)|done]. Qed.

Lemma writes_absent F f : field_ok f -> getCode f ∈ getCode <$> F -> writes F (fun o => makeFieldAbsent o f).
Proof. intros Hf Hin o o' Ho _ E. eapply written_evolves; [by apply makeFieldAbsent_written|done]. Qed.

Lemma writes_assign F f v e : field_ok f -> getCode f ∈ getCode <$> F -> writes F (fun o => proxy_assign o f v e).
Proof. intros Hf Hin o o' Ho Hfree E. destruct (proxy_assign_written o f v e o' Ho Hf Hfree E) as [Hw|[_ Hw]]; by eapply written_evolves. Qed.

Lemma writes_disengage F f : field_ok f -> getCode f ∈ getCode <$> F -> writes F (fun o => proxy_disengage o f).
Proof.
  intros Hf Hin o o' Ho Hfree E. unfold proxy_disengage, proxy_style, isFree in *. destruct (o_type o) as [t|] eqn:Ht; [|done].
  destruct (peekAtPField o f) as [v|] eqn:Hp; [|done]. destruct (style_present o t f v Ho Ht Hp) as [s Hs]. rewrite Hs in E. cbn [mbind res_bind] in E.
  destruct s; [done| |done]. eapply written_evolves; [by apply makeFieldAbsent_written|done].
Qed.

(** ** The SFC of an entry *)

Definition amount_field (s : SLE Object) (f : SField) (n : Z) : Prop := exists a, peekAtPField (sle_data s) f = Some (V_Amount a) /\ is_drops a n.

(** Accounts hold a balance, escrows an amount, and payment channels what is left of
    their amount. *)
Definition holds_sfc (type : Z) : bool := (type =? ltACCOUNT_ROOT) || (type =? ltPAYCHAN) || (type =? ltESCROW).

Definition money_ok (s : SLE Object) : Prop :=
  (sle_type s = ltACCOUNT_ROOT -> exists n, amount_field s sfBalance n /\ 0 <= n) /\
  (sle_type s = ltPAYCHAN -> exists n p, amount_field s sfAmount n /\ amount_field s sfBalance p /\ 0 <= p <= n) /\
  (sle_type s = ltESCROW -> exists n, amount_field s sfAmount n /\ 0 <= n).

Definition ledger_ok (m : gmap Z (SLE Object)) : Prop := forall k s, m !! k = Some s -> sle_key s = k /\ sle_ok s /\ money_ok s.

Definition money (m : gmap Z (SLE Object)) (k : Z) : Z := opt_v entry_v (m !! k).

Lemma amount_at_field s f n : amount_field s f n -> exists a, amount_at s f = Ok a /\ is_drops a n.
Proof. intros (a & Hp & Ha). exists a. split; [|done]. unfold amount_at, at_field. by rewrite Hp. Qed.

Lemma getFieldAmount_field s f n : amount_field s f n -> exists a, getFieldAmount (sle_data s) f = Ok a /\ is_drops a n.
Proof. intros (a & Hp & Ha). exists a. split; [|done]. unfold getFieldAmount, getFieldBy. by rewrite Hp. Qed.

Lemma account_money s n : sle_type s = ltACCOUNT_ROOT -> amount_field s sfBalance n -> entry_v s = n.
Proof. intros Ht (a & Ha & Hd)%amount_at_field. unfold entry_v, entry_drops. rewrite Ht, Ha. cbn. by rewrite (sfc_drops a n). Qed.

Lemma escrow_money s n : sle_type s = ltESCROW -> amount_field s sfAmount n -> entry_v s = n.
Proof. intros Ht (a & Ha & Hd)%amount_at_field. unfold entry_v, entry_drops. rewrite Ht, Ha. cbn. by rewrite (sfc_drops a n). Qed.

Lemma paychan_money s n p : sle_type s = ltPAYCHAN -> amount_field s sfAmount n -> amount_field s sfBalance p -> 0 <= p <= n -> entry_v s = n - p.
Proof.
  intros Ht (a & Ha & Hd)%amount_at_field (b & Hb & Hdb)%amount_at_field Hr. unfold entry_v, entry_drops. rewrite Ht, Ha, Hb. cbn.
  pose proof (drops_range _ _ Hd). pose proof (drops_range _ _ Hdb). destruct (op_sub_drops a b n p Hd Hdb) as (c & -> & Hc); [lia|]. cbn. by rewrite (sfc_drops c (n - p)).
Qed.

Lemma no_money s : holds_sfc (sle_type s) = false -> entry_v s = 0.
Proof. unfold holds_sfc, entry_v, entry_drops. rewrite !orb_false_iff. intros [[-> ->] ->]. done. Qed.

Lemma money_ok_other s : holds_sfc (sle_type s) = false -> money_ok s.
Proof. unfold holds_sfc. rewrite !orb_false_iff, !Z.eqb_neq. intros [[? ?] ?]. by repeat split; intros. Qed.

(** Fields other than the two amounts do not matter. *)
Definition quiet (F : list SField) : Prop := getCode sfBalance ∉ getCode <$> F /\ getCode sfAmount ∉ getCode <$> F.

Lemma quiet_amounts s F o f : quiet F -> evolves F (sle_data s) o -> f = sfBalance \/ f = sfAmount ->
  (forall n, amount_field (with_data s o) f n <-> amount_field s f n) /\ amount_at (with_data s o) f = amount_at s f.
Proof.
  intros [Hb Ha] (Ho & Ht & Hp) Hf. assert (E : peekAtPField o f = peekAtPField (sle_data s) f) by (apply Hp; destruct Hf as [->| ->]; done).
  unfold amount_field, amount_at, at_field, with_data. cbn [sle_data]. by rewrite E, Ht.
Qed.

Lemma quiet_money s F o : quiet F -> evolves F (sle_data s) o -> entry_v (with_data s o) = entry_v s /\ (money_ok s -> money_ok (with_data s o)).
Proof.
  intros Hq He. destruct (quiet_amounts s F o sfBalance Hq He (or_introl eq_refl)) as [B1 B2]. destruct (quiet_amounts s F o sfAmount Hq He (or_intror eq_refl)) as [A1 A2].
  split; [unfold entry_v, entry_drops; by rewrite B2, A2|]. unfold money_ok. cbn [sle_type with_data]. setoid_rewrite B1. setoid_rewrite A1. done.
Qed.

Lemma sle_ok_evolves F s o : sle_ok s -> evolves F (sle_data s) o -> sle_ok (with_data s o).
Proof. intros (t & Ht & Hty & _) (Ho & Ht' & _). exists t. cbn. split; [done|]. split; [congruence|done]. Qed.

Lemma sle_ok_templated s : sle_ok s -> object_ok (sle_data s) /\ isFree (sle_data s) = false.
Proof. intros (t & _ & Ht & Ho). split; [done|]. unfold isFree. by rewrite Ht. Qed.

(** ** Ledgers with the same SFC *)

Definition same_money (m m' : gmap Z (SLE Object)) : Prop := forall k, money m' k = money m k.

#[export] Instance same_money_equiv : Equivalence same_money.
Proof. split; [done|by intros m m' H k|]. intros m1 m2 m3 H1 H2 k. by rewrite H2, H1. Qed.

Lemma money_insert m k s j : money (<[k := s]> m) j = if decide (j = k) then entry_v s else money m j.
Proof. unfold money. case_decide as E; [subst; by rewrite lookup_insert_eq|by rewrite lookup_insert_ne by done]. Qed.

Lemma money_delete m k j : money (delete k m) j = if decide (j = k) then 0 else money m j.
Proof. unfold money. case_decide as E; [subst; by rewrite lookup_delete_eq|by rewrite lookup_delete_ne by done]. Qed.

(** The total changes by the changes at the keys of a list that has all of them. *)
Lemma total_changes (ks : list Z) m m' : NoDup ks -> (forall k, k ∉ ks -> money m' k = money m k) ->
  total_drops m' - total_drops m = foldr (fun k z => money m' k - money m k + z) 0 ks.
Proof.
  intros Hn Hk. set (xs := filter (fun k => k ∉ ks) (elements (dom m ∪ dom m'))). assert (Hx : NoDup (ks ++ xs)).
  { apply NoDup_app. split; [done|]. split; [intros k H1 H2; by apply list_elem_of_filter in H2 as [H2 _]|]. apply NoDup_filter, NoDup_elements. }
  unfold total_drops. rewrite (map_sum_diff entry_v (ks ++ xs)); [|done|].
  - rewrite foldr_app. f_equal. assert (Hxs : Forall (fun k => money m' k = money m k) xs).
    { apply Forall_forall. intros k [H _]%list_elem_of_filter. by apply Hk. }
    clear - Hxs. induction Hxs as [|k xs E _ IH]; [done|]. cbn [foldr]. rewrite IH. unfold money in E. lia.
  - intros k [H1 H2]%not_elem_of_app. assert (H3 : k ∉ elements (dom m ∪ dom m')) by (intros H; apply H2, list_elem_of_filter; done).
    rewrite elem_of_elements, elem_of_union, !elem_of_dom, <-!not_eq_None_Some in H3.
    destruct (m !! k) eqn:E1, (m' !! k) eqn:E2; [..|done]; destruct H3; (by left) || (by right).
Qed.

Lemma same_money_total m m' : same_money m m' -> total_drops m' = total_drops m.
Proof. intros H. pose proof (total_changes [] m m' (NoDup_nil_2) (fun k _ => H k)) as E. cbn in E. lia. Qed.

(** ** Neutral programs *)

(** Entries of types other than [T] are the same in both ledgers. *)
Definition same_outside (T : list Z) (m m' : gmap Z (SLE Object)) : Prop := forall k s, sle_type s ∉ T -> m' !! k = Some s <-> m !! k = Some s.

(** A program that returns keeps the ledger well formed, moves no SFC, destroys none,
    and touches entries of the types [T] only. *)
Definition neutral (T : list Z) {A} (p : prog A) : Prop :=
  forall m d a m' d', ledger_ok m -> run_map p (m, d) = Ok (a, (m', d')) -> ledger_ok m' /\ same_money m m' /\ same_outside T m m' /\ d' = d.

Lemma same_outside_trans T m1 m2 m3 : same_outside T m1 m2 -> same_outside T m2 m3 -> same_outside T m1 m3.
Proof. intros H1 H2 k s Hs. by rewrite (H2 k s Hs), (H1 k s Hs). Qed.

Lemma neutral_weaken T T' {A} (p : prog A) : T ⊆ T' -> neutral T p -> neutral T' p.
Proof. intros HT H m d a m' d' Hm E. destruct (H m d a m' d' Hm E) as (? & ? & Hs & ?). split_and!; try done. intros k s Hk. apply Hs. set_solver. Qed.

Lemma neutral_same T {A} (p : prog A) : (forall m d a m' d', run_map p (m, d) = Ok (a, (m', d')) -> m' = m /\ d' = d) -> neutral T p.
Proof. intros H m d a m' d' Hm [-> ->]%H. done. Qed.

Lemma neutral_ret T {A} (a : A) : neutral T (mret a).
Proof. apply neutral_same. by intros m d b m' d' [= <- <- <-]. Qed.

Lemma neutral_raise T {A} e : neutral T (Raise (A := A) e).
Proof. by intros m d b m' d' _. Qed.

Lemma neutral_lift T {A} (r : res A) : neutral T (liftR r).
Proof. apply neutral_same. intros m d a m' d' [_ [= -> ->]]%run_lift_inv. done. Qed.

Lemma neutral_peek T k : neutral T (peek k).
Proof. apply neutral_same. by intros m d a m' d' [= <- <- <-]. Qed.

Lemma neutral_read T k : neutral T (read k).
Proof. apply neutral_same. by intros m d a m' d' [= <- <- <-]. Qed.

Lemma neutral_peek_object T k : neutral T (peek_object k).
Proof. apply neutral_same. intros m d a m' d' (s & _ & _ & [= -> ->])%run_peek_object_inv. done. Qed.

Lemma neutral_read_object T k : neutral T (read_object k).
Proof. apply neutral_same. intros m d a m' d' (s & _ & _ & [= -> ->])%run_read_object_inv. done. Qed.

Lemma neutral_bind T {A B} (p : prog A) (f : A -> prog B) : neutral T p -> (forall a, neutral T (f a)) -> neutral T (p ≫= f).
Proof.
  intros Hp Hf m d b m' d' Hm (a & m1 & d1 & E1 & E2)%run_bind_inv. destruct (Hp m d a m1 d1 Hm E1) as (H1 & S1 & O1 & ->).
  destruct (Hf a m1 d b m' d' H1 E2) as (H2 & S2 & O2 & ->). split_and!; [done|by etransitivity|by eapply same_outside_trans|done].
Qed.

Lemma neutral_lift_bind T {A B} (r : res A) (f : A -> prog B) : (forall a, r = Ok a -> neutral T (f a)) -> neutral T (liftR r ≫= f).
Proof. intros Hf m d b m' d' Hm (a & m1 & d1 & [Hr [= -> ->]]%run_lift_inv & E2)%run_bind_inv. exact (Hf a Hr m d b m' d' Hm E2). Qed.

(** A concrete type, which a keylet finds only on entries of it. *)
Definition concrete (t : Z) : bool := negb ((t =? ltANY) || (t =? ltINVALID) || (t =? ltCHILD)).

Lemma shown_type m k s : concrete (kl_type k) = true -> shown m k = Some s -> m !! kl_key k = Some s /\ sle_type s = kl_type k.
Proof.
  intros Hc [Hl Hk]%shown_Some. split; [done|]. unfold concrete in Hc. rewrite negb_true_iff, !orb_false_iff in Hc. destruct Hc as [[H1 H2] H3].
  unfold check in Hk. rewrite H1, H2, H3 in Hk. by apply Z.eqb_eq.
Qed.

Lemma ledger_ok_insert m k s : ledger_ok m -> sle_key s = k -> sle_ok s -> money_ok s -> ledger_ok (<[k := s]> m).
Proof. intros Hm Hk Hs Ho j s' [[<- <-]|[_ H]]%lookup_insert_Some; [done|by apply Hm]. Qed.

Lemma ledger_ok_delete m k : ledger_ok m -> ledger_ok (delete k m).
Proof. intros Hm j s [_ H]%lookup_delete_Some. by apply Hm. Qed.

Lemma same_outside_insert T m k s : sle_type s ∈ T -> (forall s0, m !! k = Some s0 -> sle_type s0 ∈ T) -> same_outside T m (<[k := s]> m).
Proof.
  intros Hs H0 j s' Hs'. rewrite lookup_insert_Some. split; [intros [[-> ->]|[_ ?]]; done|]. intros E. destruct (decide (k = j)) as [->|]; [by apply H0 in E|by right].
Qed.

Lemma same_outside_delete T m k : (forall s0, m !! k = Some s0 -> sle_type s0 ∈ T) -> same_outside T m (delete k m).
Proof. intros H0 j s' Hs'. rewrite lookup_delete_Some. split; [by intros [_ ?]|]. intros E. split; [|done]. intros ->. by apply H0 in E. Qed.

(** A change of an entry: of any of its fields when its type holds no SFC, of the
    others when it does. *)
Lemma neutral_modify T F k f : concrete (kl_type k) = true -> kl_type k ∈ T -> holds_sfc (kl_type k) = false \/ quiet F -> writes F f -> neutral T (modify k f).
Proof.
  intros Hc HT Hq Hf m d u m' d' Hm (s & o & Hs & Ho & [= -> ->])%run_modify_inv. destruct (shown_type m k s Hc Hs) as [Hl Hty]. destruct (Hm _ _ Hl) as (Hk & Hok & Hmo).
  destruct (sle_ok_templated s Hok) as [Hob Hfr]. pose proof (Hf _ _ Hob Hfr Ho) as He.
  assert (HM : entry_v (with_data s o) = entry_v s /\ money_ok (with_data s o)).
  { destruct Hq as [Hn|Hq].
    - rewrite <-Hty in Hn. split; [by rewrite !no_money|by apply money_ok_other].
    - destruct (quiet_money s F o Hq He) as [Hv Hmo']. split; [done|by apply Hmo']. }
  destruct HM as [HM1 HM2]. split_and!; [|..|done].
  - apply ledger_ok_insert; [done|done|by eapply sle_ok_evolves|done].
  - intros j. rewrite money_insert. case_decide as E; [|done]. subst. unfold money. by rewrite Hl.
  - apply same_outside_insert; [cbn; congruence|]. intros s0 Hs0. congruence.
Qed.

Lemma neutral_erase T k : concrete (kl_type k) = true -> kl_type k ∈ T -> holds_sfc (kl_type k) = false -> neutral T (erase_sle k).
Proof.
  intros Hc HT Hn m d u m' d' Hm (s & Hs & [= -> ->])%run_erase_inv. destruct (shown_type m k s Hc Hs) as [Hl Hty]. split_and!; [by apply ledger_ok_delete|..|done].
  - intros j. rewrite money_delete. case_decide as E; [|done]. subst. unfold money. rewrite Hl. cbn. rewrite no_money; [done|congruence].
  - apply same_outside_delete. intros s0 Hs0. congruence.
Qed.

Lemma neutral_insert T s : sle_ok s -> sle_type s ∈ T -> holds_sfc (sle_type s) = false -> neutral T (insert_sle s).
Proof.
  intros Hs HT Hn m d u m' d' Hm [Hl [= -> ->]]%run_insert_inv. split_and!; [|..|done].
  - apply ledger_ok_insert; [done|done|done|by apply money_ok_other].
  - intros j. rewrite money_insert. case_decide as E; [|done]. subst. unfold money. by rewrite Hl, no_money.
  - apply same_outside_insert; [done|]. intros s0 Hs0. congruence.
Qed.

(** A new entry of a keylet, with its fields set. *)
Definition new_sle (k : Keylet) (f : Object -> res Object) : res (SLE Object) := s ← make_SLE k; o ← f (sle_data s); Ok (with_data s o).

Lemma make_SLE_inv k s : make_SLE k = Ok s -> sle_ok s /\ sle_type s = kl_type k /\ sle_key s = kl_key k.
Proof.
  intros E. destruct (findByType ledger_formats (kl_type k)) as [t|] eqn:Ht; [|unfold make_SLE in E; rewrite Ht in E; by destruct (negb _)].
  destruct (make_SLE_ok k) as (s' & E' & ?); [by rewrite Ht|]. congruence.
Qed.

Lemma new_sle_inv F k f s : writes F f -> new_sle k f = Ok s -> sle_ok s /\ sle_type s = kl_type k /\ sle_key s = kl_key k /\
  exists s0, make_SLE k = Ok s0 /\ f (sle_data s0) = Ok (sle_data s).
Proof.
  intros Hf (s0 & E0 & (o & Ho & [= <-])%bind_Ok_inv)%bind_Ok_inv. destruct (make_SLE_inv k s0 E0) as (Hok & Ht & Hk). destruct (sle_ok_templated s0 Hok) as [Hob Hfr].
  split_and!; [eapply sle_ok_evolves; [done|by apply Hf]|done|done|by exists s0].
Qed.

Definition insert_new (k : Keylet) (f : Object -> res Object) : prog unit := s ← liftR (new_sle k f); insert_sle s.

Lemma neutral_new T F k f : writes F f -> kl_type k ∈ T -> holds_sfc (kl_type k) = false -> neutral T (insert_new k f).
Proof. intros Hf HT Hn. apply neutral_lift_bind. intros s (Hs & Ht & _)%(new_sle_inv F); [|done]. apply neutral_insert; congruence. Qed.

(** ** Automation *)

Create HintDb neutral.
#[export] Hint Resolve neutral_ret neutral_raise neutral_lift neutral_peek neutral_read neutral_peek_object neutral_read_object : neutral.

Create HintDb writes.
#[export] Hint Resolve writes_ret writes_set writes_absent writes_assign writes_disengage : writes.

Ltac field_ok_tac := apply field_ok_dec_true; reflexivity.
#[export] Hint Extern 1 (field_ok _) => field_ok_tac : writes.
#[export] Hint Extern 1 (_ ∈ _ <$> _) => (refine (bool_decide_unpack _ _); vm_compute; exact I) : writes.

Ltac quiet_tac := split; refine (bool_decide_unpack _ _); vm_compute; exact I.

(** One step towards [writes]. *)
Ltac writes_step :=
  match goal with
  | |- writes _ _ => solve [eauto with writes]
  | |- writes _ (fun o => setFieldU8 _ _ _) => unfold setFieldU8
  | |- writes _ (fun o => _ ← ?r; _) => first [apply writes_lift; intros ? ?|apply writes_bind|apply writes_read; intros ?]
  | |- writes _ (fun o => if _ then _ else _) => apply writes_if
  end.
Ltac writes_tac := unfold setFieldU8, setFieldU16, setFieldU32, setFieldU64, setFieldH128, setFieldH160, setFieldH256, setFieldV256, setAccountID, setFieldVL, setFieldAmount, setFieldArray; repeat writes_step.

Ltac neutral_step :=
  match goal with
  | |- neutral _ _ => solve [eauto with neutral]
  | |- neutral _ (liftR _ ≫= _) => apply neutral_lift_bind; intros ? ?
  | |- neutral _ (_ ≫= _) => apply neutral_bind; [|intros ?]
  | |- neutral _ (let _ := _ in _) => cbv zeta
  | |- neutral _ (if ?b then _ else _) => destruct b
  | |- neutral _ (match ?x with Some _ => _ | None => _ end) => destruct x
  end.
Ltac neutral_tac := repeat neutral_step.

(** ** Reads and writes that return *)

(** What a field of an entry reads as. *)
Definition field_of {V} (cast : STValue -> option V) (empty : V) (s : SLE Object) (f : SField) : V :=
  match peekAtPField (sle_data s) f ≫= cast with Some v => v | None => empty end.

(** The type of entry has the field. *)
Definition has_field (type : Z) (f : SField) : bool :=
  match findByType ledger_formats type with Some t => match template_index t f with Some _ => true | None => false end | None => false end.

Lemma has_field_index s f : sle_ok s -> has_field (sle_type s) f = true -> is_Some (getFieldIndex (sle_data s) f).
Proof.
  intros (t & Ht & Hty & _). unfold has_field, getFieldIndex. rewrite Ht, Hty. by destruct (template_index t f).
Qed.

Lemma get_field {V} (cast : STValue -> option V) (empty : V) s f : sle_ok s -> has_field (sle_type s) f = true -> field_ok f ->
  (forall v, getSType v = fieldType f -> is_Some (cast v)) -> cast V_NotPresent = None ->
  getFieldBy cast empty (sle_data s) f = Ok (field_of cast empty s f).
Proof.
  intros Hs Hf Hok Hcast Hnp. destruct (has_field_index s f Hs Hf) as [i Hi]. destruct Hs as (t & _ & _ & Ho). destruct (ok_at _ f i Ho Hi) as (g & v & _ & Hc & Hg & Hv & Hp).
  rewrite (getFieldBy_spec _ _ _ _ v) by done. unfold field_of. rewrite Hp. cbn. destruct (isPresent v) eqn:E.
  - destruct (Hcast v) as [x ->]; [|done]. rewrite <-(code_type g f Hg Hok Hc). by apply Hv.
  - apply (fun H => H : isPresent v = false) in E. destruct v; try done. by rewrite Hnp.
Qed.

Lemma set_field s f v : sle_ok s -> has_field (sle_type s) f = true -> field_ok f -> getSType v = fieldType f ->
  exists o, setField (sle_data s) f v = Ok o /\ written_to (sle_data s) f v o /\ sle_ok (with_data s o).
Proof.
  intros Hs Hf Hok Hv. destruct (sle_ok_templated s Hs) as [Ho _]. destruct (setField_Ok (sle_data s) f v Ho Hok) as (o & E & Hw); [right; by apply has_field_index|done|].
  exists o. split; [done|]. split; [done|]. apply (sle_ok_evolves [f]); [done|]. eapply written_evolves; [done|left].
Qed.

Lemma field_of_written {V} (cast : STValue -> option V) empty s f v o g : written_to (sle_data s) f v o ->
  field_of cast empty (with_data s o) g = if decide (getCode g = getCode f) then match cast v with Some x => x | None => empty end else field_of cast empty s g.
Proof. intros (_ & _ & Hp). unfold field_of, with_data. cbn [sle_data]. rewrite Hp. by case_decide. Qed.

(** ** Deciding that a ledger is well formed *)

#[export] Instance SOEStyle_eq_dec : EqDecision SOEStyle.
Proof. solve_decision. Defined.

Definition field_okb (f : SField) : bool :=
  (0 <=? fieldValue f) && (fieldValue f <? 65536) &&
  match default_value (fieldType f) with Ok v => isPresent v && bool_decide (getSType v = fieldType f) | Throw _ => false end.

Definition object_okb (o : Object) : bool :=
  bool_decide (NoDup (getCode <$> (o_fields o).*1)) && forallb field_okb (o_fields o).*1 &&
  forallb (fun fv : SField * STValue => negb (isPresent fv.2) || bool_decide (getSType fv.2 = fieldType fv.1)) (o_fields o) &&
  match o_type o with Some t => bool_decide ((t.*1 : list SField) = (o_fields o).*1) | None => true end.

Definition sle_okb (s : SLE Object) : bool :=
  match findByType ledger_formats (sle_type s), o_type (sle_data s) with
  | Some t, Some t' => bool_decide ((t : list (SField * SOEStyle)) = t') && object_okb (sle_data s)
  | _, _ => false
  end.

(** A native amount that is well formed, and its drops. *)
Definition drops_of (v : option STValue) : option Z :=
  match v with
  | Some (V_Amount a) =>
      if mIsNative a && isSFC (currency (mIssue a)) && (mOffset a =? 0) && (0 <=? mValue a) && (mValue a <=? cMaxNativeN) && (negb (mValue a =? 0) || negb (mIsNegative a))
      then Some (smant a) else None
  | _ => None
  end.

Definition money_okb (s : SLE Object) : bool :=
  let amount f := drops_of (peekAtPField (sle_data s) f) in
  (negb (sle_type s =? ltACCOUNT_ROOT) || match amount sfBalance with Some n => 0 <=? n | None => false end) &&
  (negb (sle_type s =? ltPAYCHAN) || match amount sfAmount, amount sfBalance with Some n, Some p => (0 <=? p) && (p <=? n) | _, _ => false end) &&
  (negb (sle_type s =? ltESCROW) || match amount sfAmount with Some n => 0 <=? n | None => false end).

Definition ledger_okb (m : gmap Z (SLE Object)) : bool :=
  forallb (fun e : Z * SLE Object => (sle_key e.2 =? e.1) && sle_okb e.2 && money_okb e.2) (map_to_list m).

Lemma object_okb_ok o : object_okb o = true -> object_ok o.
Proof.
  unfold object_okb. rewrite !andb_true_iff. intros [[[H1%bool_decide_eq_true_1 H2] H3] H4]. split_and!; [done|..].
  - rewrite forallb_forall in H2. apply Forall_forall. intros f Hf%list_elem_of_In. by apply field_ok_dec_true, H2.
  - rewrite forallb_forall in H3. apply Forall_forall. intros fv Hf%list_elem_of_In%H3 Hp. rewrite Hp in Hf. by apply bool_decide_eq_true_1 in Hf.
  - destruct (o_type o); [|done]. by apply bool_decide_eq_true_1 in H4.
Qed.

Lemma drops_of_field s f n : drops_of (peekAtPField (sle_data s) f) = Some n -> amount_field s f n.
Proof.
  unfold drops_of. destruct (peekAtPField (sle_data s) f) as [[]|] eqn:E; try done. destruct (_ && _) eqn:H; [|done]. intros [= <-]. exists a. split; [done|].
  rewrite !andb_true_iff, orb_true_iff, !negb_true_iff, !Z.leb_le, !Z.eqb_eq, Z.eqb_neq in H. destruct H as [[[[[H1 H2] H3] H4] H5] H6]. split_and!; [|done|done].
  split; [by rewrite H1, H2|]. split; [rewrite H1; by split|]. intros Hv. by destruct H6.
Qed.

Lemma money_okb_ok s : money_okb s = true -> money_ok s.
Proof.
  unfold money_okb. rewrite !andb_true_iff. intros [[H1 H2] H3]. split_and!; intros Ht.
  - rewrite (proj2 (Z.eqb_eq _ _) Ht) in H1. cbn [negb orb] in H1. clear H2 H3. destruct (drops_of (peekAtPField (sle_data s) sfBalance)) as [n|] eqn:E; [|done].
    exists n. split; [by apply drops_of_field|by apply Z.leb_le].
  - rewrite (proj2 (Z.eqb_eq _ _) Ht) in H2. cbn [negb orb] in H2. clear H1 H3. destruct (drops_of (peekAtPField (sle_data s) sfAmount)) as [n|] eqn:E1; [|done].
    destruct (drops_of (peekAtPField (sle_data s) sfBalance)) as [p|] eqn:E2; [|done]. apply andb_prop in H2 as [? ?]. exists n, p.
    split; [by apply drops_of_field|]. split; [by apply drops_of_field|]. split; by apply Z.leb_le.
  - rewrite (proj2 (Z.eqb_eq _ _) Ht) in H3. cbn [negb orb] in H3. clear H1 H2. destruct (drops_of (peekAtPField (sle_data s) sfAmount)) as [n|] eqn:E; [|done].
    exists n. split; [by apply drops_of_field|by apply Z.leb_le].
Qed.

Lemma sle_okb_ok s : sle_okb s = true -> sle_ok s.
Proof.
  unfold sle_okb. destruct (findByType ledger_formats (sle_type s)) as [t|] eqn:E1; [|done]. destruct (o_type (sle_data s)) as [t'|] eqn:E2; [|done].
  intros [H2%bool_decide_eq_true_1 H4%object_okb_ok]%andb_prop. exists t. split_and!; [done|congruence|done].
Qed.

Lemma ledger_okb_ok m : ledger_okb m = true -> ledger_ok m.
Proof.
  unfold ledger_okb. rewrite forallb_forall. intros H k s Hs. specialize (H (k, s)). cbn in H. rewrite <-list_elem_of_In, elem_of_map_to_list in H. specialize (H Hs).
  rewrite !andb_true_iff in H. by destruct H as [[H1%Z.eqb_eq H2%sle_okb_ok] H3%money_okb_ok].
Qed.
