(* ===== verification/TxMeta.v ===== *)
(** * Transaction metadata and the final step of a transaction

    Models ledger/TxMeta.h and ledger/impl/TxMeta.cpp, the transaction part of
    ledger/OpenView.h, and [ApplyStateTable::apply (OpenView, ...)]: the record of what
    a transaction changed, the threading of the changed entries and of the accounts
    that own them to the transaction, and the commit of both to the open view. The
    equality of values and objects the record depends on (STBase.cpp, STVar.h,
    STObject.cpp) is here too. *)

From S2P Require Import Prelude Serializer View RawStateTable ApplyStateTable STAmount SField STObject STAccess Indexes Formats TER STTx Prog Invariants Entries.

(** ** Equality of values *)

(** [STPathElement::operator==]; the hash is a function of the other members. *)
Definition element_eq (a b : STPathElement) : bool :=
  (Z.land (mType a) typeAccount =? Z.land (mType b) typeAccount) && (mAccountID a =? mAccountID b) && (mCurrencyID a =? mCurrencyID b) && (mIssuerID a =? mIssuerID b).

(** The comparison of vectors. *)
Fixpoint vector_eq {A B} (eq : A -> B -> bool) (l : list A) (k : list B) : bool :=
  match l, k with [], [] => true | a :: l, b :: k => eq a b && vector_eq eq l k | _, _ => false end.

(** [STObject::operator==] against fields [k], of fields each with what it is
    equivalent to. Names of the objects themselves do not matter. *)
Definition counted (f : SField) (v : STValue) : bool := isPresent v && isBinary f.

Definition object_eq_with (l : list (SField * STValue * (STValue -> bool))) (k : Fields) : bool :=
  forallb (fun '(f, v, same) =>
    if counted f v then match List.find (fun g => field_eq f g.1) k with Some (_, w) => same w | None => false end else true) l &&
  (length (List.filter (fun '(f, v, _) => counted f v) l) =? length (List.filter (fun '(f, v) => counted f v) k))%nat.

(** [isEquivalent]. An object inside a value is compared as one without a template. *)
Fixpoint isEquivalent (v w : STValue) {struct v} : bool :=
  match v, w with
  | V_NotPresent, V_NotPresent => true
  | V_UInt8 a, V_UInt8 b | V_UInt16 a, V_UInt16 b | V_UInt32 a, V_UInt32 b | V_UInt64 a, V_UInt64 b => a =? b
  | V_Hash128 a, V_Hash128 b | V_Hash160 a, V_Hash160 b | V_Hash256 a, V_Hash256 b => a =? b
  | V_Amount a, V_Amount b => STAmount.op_eq b a
  | V_VL a, V_VL b | V_Vector256 a, V_Vector256 b => vector_eq Z.eqb a b
  | V_Account d a, V_Account e b => Bool.eqb d e && (a =? b)
  | V_PathSet a, V_PathSet b => vector_eq (vector_eq element_eq) a b
  | V_Object a, V_Object b =>
      vector_eq (fun (x : SField * STValue * (STValue -> bool)) (y : SField * STValue) => bool_decide (getSType x.1.2 = getSType y.2) && x.2 y.2)
        (sort_by (fun x => getCode x.1.1) (List.filter (fun x => isPresent x.1.2 && shouldInclude true x.1.1) (map (fun '(f, v) => (f, v, isEquivalent v)) a)))
        (sort_by (fun x => getCode x.1) (List.filter (fun x => isPresent x.2 && shouldInclude true x.1) b))
  | V_Array a, V_Array b =>
      vector_eq (fun (x : SField * Fields) (y : SField * Fields) => object_eq_with (map (fun '(f, v) => (f, v, isEquivalent v)) x.2) y.2) a b
  | _, _ => false
  end.

(** [STObject::operator==] and [STBase::operator==]. *)
Definition object_eq (o p : Object) : bool := object_eq_with (map (fun '(f, v) => (f, v, isEquivalent v)) (o_fields o)) (o_fields p).
Definition value_eq (v w : STValue) : bool := bool_decide (getSType v = getSType w) && isEquivalent v w.

Definition hasMatchingEntry (o : Object) (fv : SField * STValue) : bool :=
  match peekAtPField o fv.1 with Some w => value_eq fv.2 w | None => false end.

(** ** The record *)

Record TxMeta := mkMeta {
  mTransactionID : Z;
  mLedger : Z;
  mIndex : Z;
  mResult : Z;
  mDelivered : option STAmount;
  mNodes : list (SField * Object)
}.

Definition empty_object : Object := mkObject [] None.

(** [TxMeta ()] and [init]. *)
Definition meta_init (id ledger : Z) : TxMeta := mkMeta id ledger (u32 (-1)) 255 None [].

Definition with_nodes (m : TxMeta) (l : list (SField * Object)) : TxMeta := mkMeta (mTransactionID m) (mLedger m) (mIndex m) (mResult m) (mDelivered m) l.
Definition setDeliveredAmount (m : TxMeta) (a : STAmount) : TxMeta := mkMeta (mTransactionID m) (mLedger m) (mIndex m) (mResult m) (Some a) (mNodes m).

(** The node of an entry, changed by [f]; [missing] is what happens when there is none. *)
Fixpoint at_node (node : Z) (f : SField * Object -> res (SField * Object)) (missing : res (list (SField * Object))) (l : list (SField * Object)) : res (list (SField * Object)) :=
  match l with
  | [] => missing
  | n :: l =>
      i ← getFieldH256 n.2 sfLedgerIndex;
      if i =? node then (n ← f n; Ok (n :: l)) else (l ← at_node node f missing l; Ok (n :: l))
  end.

Fixpoint isNodeAffected_in (node : Z) (l : list (SField * Object)) : res bool :=
  match l with [] => Ok false | n :: l => i ← getFieldH256 n.2 sfLedgerIndex; if i =? node then Ok true else isNodeAffected_in node l end.
Definition isNodeAffected (node : Z) (m : TxMeta) : res bool := isNodeAffected_in node (mNodes m).

(** A new node. *)
Definition new_node (node : Z) (type : SField) (nodeType : Z) : res (SField * Object) :=
  o ← setFieldH256 empty_object sfLedgerIndex node; o ← setFieldU16 o sfLedgerEntryType nodeType; Ok (type, o).

Definition setAffectedNode (node : Z) (type : SField) (nodeType : Z) (m : TxMeta) : res TxMeta :=
  l ← at_node node (fun n => o ← setFieldU16 n.2 sfLedgerEntryType nodeType; Ok (type, o)) (n ← new_node node type nodeType; Ok [n]) (mNodes m);
  Ok (with_nodes m l).

(** [getAffectedNode (SLE, type)] and a change of the node it returns. *)
Definition getAffectedNode_for (sle : SLE Object) (type : SField) (f : Object -> res Object) (m : TxMeta) : res TxMeta :=
  let at_object n := o ← f n.2; Ok (n.1, o) in
  l ← at_node (sle_key sle) at_object
        (nodeType ← getFieldU16 (sle_data sle) sfLedgerEntryType; n ← new_node (sle_key sle) type nodeType; n ← at_object n; Ok [n]) (mNodes m);
  Ok (with_nodes m l).

Definition getAffectedNode (node : Z) (f : Object -> res Object) (m : TxMeta) : res TxMeta :=
  l ← at_node node (fun n => o ← f n.2; Ok (n.1, o)) (Throw (runtime_error "Affected node not found")) (mNodes m);
  Ok (with_nodes m l).

(** [TxMeta::thread]. *)
Definition meta_thread (prevTxID prevLgrID : Z) (node : Object) : res Object :=
  match getFieldIndex node sfPreviousTxnID with
  | None => o ← setFieldH256 node sfPreviousTxnID prevTxID; setFieldU32 o sfPreviousTxnLgrSeq prevLgrID
  | Some _ => Ok node
  end.

Definition node_index (n : SField * Object) : Z := match getFieldH256 n.2 sfLedgerIndex with Ok i => i | Throw _ => 0 end.

Definition getAsObject (m : TxMeta) : res Object :=
  o ← setFieldU8 empty_object sfTransactionResult (mResult m mod 256);
  o ← setFieldU32 o sfTransactionIndex (mIndex m);
  let o := snd (emplace_back o sfAffectedNodes (V_Array (map (fun n : SField * Object => (n.1, o_fields n.2)) (mNodes m)))) in
  match mDelivered m with Some a => setFieldAmount o sfDeliveredAmount a | None => Ok o end.

(** [addRaw]: the nodes are sorted by their keys. *)
Definition addRaw (m : TxMeta) (result index : Z) : res (list Z) :=
  let m := mkMeta (mTransactionID m) (mLedger m) index result (mDelivered m) (sort_by node_index (mNodes m)) in
  o ← getAsObject m; add_object true (o_fields o).

(** [TxMeta (txid, ledger, obj)] and, from bytes, [TxMeta (txid, ledger, data)]. *)
Definition meta_of_object (txid ledger : Z) (o : Object) : res TxMeta :=
  nodes ← getFieldArray o sfAffectedNodes;
  result ← getFieldU8 o sfTransactionResult;
  index ← getFieldU32 o sfTransactionIndex;
  delivered ← (if isFieldPresent o sfDeliveredAmount then a ← getFieldAmount o sfDeliveredAmount; Ok (Some a) else Ok None);
  Ok (mkMeta txid ledger index result delivered (map (fun n : SField * Fields => (n.1, mkObject n.2 None)) nodes)).

Definition parse_meta (txid ledger : Z) (data : list Z) : res TxMeta :=
  '(fields, _) ← parse_object (Serializer.iter data); meta_of_object txid ledger (mkObject fields None).

(** [getAffectedAccounts]: the accounts and issuers among the new or final fields. *)
Definition account_in (fv : SField * STValue) : option Z :=
  match fv.2 with
  | V_Account d a => if d then None else Some a
  | V_Amount a =>
      if field_eq fv.1 sfLowLimit || field_eq fv.1 sfHighLimit || field_eq fv.1 sfTakerPays || field_eq fv.1 sfTakerGets
      then if account (mIssue a) =? 0 then None else Some (account (mIssue a)) else None
  | _ => None
  end.

Definition node_accounts (n : SField * Object) : list Z :=
  match peekAtPField n.2 (if field_eq n.1 sfCreatedNode then sfNewFields else sfFinalFields) with
  | Some (V_Object inner) => omap account_in inner
  | _ => []
  end.

Definition getAffectedAccounts (m : TxMeta) : gset Z := list_to_set (mNodes m ≫= node_accounts).

(** ** Open views *)

(** The changes of an [OpenView] and its transactions, with the metadata of those in a
    closed ledger. *)
Record OpenView := mkOpen { ov_items : RawStateTable Object; ov_txs : gmap Z (list Z * option (list Z)) }.

Definition with_raw (f : RawStateTable Object -> res (RawStateTable Object)) (v : OpenView) : res OpenView := t ← f (ov_items v); Ok (mkOpen t (ov_txs v)).

#[export] Instance OpenView_raw : RawView Object OpenView := {
  rawErase sle := with_raw (raw_erase sle);
  rawInsert sle := with_raw (raw_insert sle);
  rawReplace sle := with_raw (raw_replace sle);
  rawDestroySFC fee v := mkOpen (raw_destroySFC fee (ov_items v)) (ov_txs v)
}.

Definition txExists (v : OpenView) (key : Z) : bool := match ov_txs v !! key with Some _ => true | None => false end.
Definition txCount (v : OpenView) : Z := Z.of_nat (size (ov_txs v)).

Definition rawTxInsert (key : Z) (txn : list Z) (metaData : option (list Z)) (v : OpenView) : res OpenView :=
  if txExists v key then Throw (logic_error "rawTxInsert: duplicate TX id") else Ok (mkOpen (ov_items v) (<[ key := (txn, metaData) ]> (ov_txs v))).

(** ** Threading *)

Section Apply.
Context (sha512Half : list Z -> Z).
Context (info : ViewInfo) (base : ReadView Object).

(** The table, the record, and the copies of entries that only threading changes. *)
Record Build := mkBuild { b_table : ApplyStateTable Object; b_meta : TxMeta; b_mods : gmap Z (SLE Object) }.

(** Where an entry to be threaded is: an object of the table, or a copy. *)
Inductive ModRef := In_table (p : ptr) | In_mods (key : Z).

Definition mod_get (r : ModRef) (b : Build) : res (SLE Object) :=
  match r with
  | In_table p => deref p (b_table b)
  | In_mods k => match b_mods b !! k with Some s => Ok s | None => Throw null_pointer end
  end.

Definition mod_set (r : ModRef) (s : SLE Object) (b : Build) : Build :=
  match r with
  | In_table p => mkBuild (assign p s (b_table b)) (b_meta b) (b_mods b)
  | In_mods k => mkBuild (b_table b) (b_meta b) (<[ k := s ]> (b_mods b))
  end.

Definition with_meta (b : Build) (m : TxMeta) : Build := mkBuild (b_table b) m (b_mods b).

Definition threadItem (r : ModRef) (b : Build) : res Build :=
  s ← mod_get r b;
  '(prev, s) ← thread s (mTransactionID (b_meta b)) (mLedger (b_meta b));
  let b := mod_set r s b in
  match prev with
  | None => Ok b
  | Some (prevTxID, prevLgrID) =>
      if prevTxID =? 0 then Ok b else m ← getAffectedNode_for s sfModifiedNode (meta_thread prevTxID prevLgrID) (b_meta b); Ok (with_meta b m)
  end.

Definition getForMod (key : Z) (b : Build) : option (ModRef * Build) :=
  match b_mods b !! key with
  | Some _ => Some (In_mods key, b)
  | None =>
      let copy := match rv_read base (unchecked key) with
                  | None => None
                  | Some s => Some (In_mods key, mkBuild (b_table b) (b_meta b) (<[ key := s ]> (b_mods b)))
                  end in
      match as_items (b_table b) !! key with
      | Some (Act_erase, _) => None
      | Some (Act_cache, _) => copy
      | Some (_, p) => Some (In_table p, b)
      | None => copy
      end
  end.

Definition threadTx (to : Z) (b : Build) : res Build :=
  match getForMod (kl_key (keylet_account sha512Half to)) b with
  | None => Ok b
  | Some (r, b) => threadItem r b
  end.

Definition threadOwners (sle : SLE Object) (b : Build) : res Build :=
  let o := sle_data sle in
  if sle_type sle =? ltACCOUNT_ROOT then Ok b
  else if (sle_type sle =? ltESCROW) || (sle_type sle =? ltPAYCHAN) then
    a ← at_field as_account 0 o sfAccount; b ← threadTx a b; d ← at_field as_account 0 o sfDestination; threadTx d b
  else if sle_type sle =? ltSUPPLYFINANCECHAIN_STATE then
    l ← at_field as_amount (mkSTAmount sfcIssue 0 0 true false) o sfLowLimit; b ← threadTx (account (mIssue l)) b;
    h ← at_field as_amount (mkSTAmount sfcIssue 0 0 true false) o sfHighLimit; threadTx (account (mIssue h)) b
  else
    a ← at_opt as_account 0 o sfAccount;
    match a with Some _ => a ← at_field as_account 0 o sfAccount; threadTx a b | None => Ok b end.

(** ** [ApplyStateTable::apply (OpenView, ...)] *)

(** The fields kept of an entry, as an inner object of its node when there are any.
    Fields that are not present are visited too. *)
Definition add_inner (key : Z) (name : SField) (fields : Fields) (b : Build) : res Build :=
  match fields with
  | [] => Ok b
  | _ => m ← getAffectedNode key (fun o => Ok (snd (emplace_back o name (V_Object fields)))) (b_meta b); Ok (with_meta b m)
  end.

Definition previous_fields (orig cur : Object) : Fields :=
  List.filter (fun fv => shouldMeta sMD_ChangeOrig fv.1 && negb (hasMatchingEntry cur fv)) (o_fields orig).
Definition final_fields (meta : Z) (cur : Object) : Fields := List.filter (fun fv => shouldMeta meta fv.1) (o_fields cur).
Definition new_fields (cur : Object) : Fields :=
  List.filter (fun fv => negb (isDefault fv.2) && shouldMeta (Z.lor sMD_Create sMD_Always) fv.1) (o_fields cur).

(** One item of the table. A modified entry that is equal to the original is skipped. *)
Definition record_item (item : Z * (Action * ptr)) (b : Build) : res Build :=
  let '(key, (action, p)) := item in
  let orig := rv_read base (unchecked key) in
  match action with
  | Act_cache => Ok b
  | Act_erase =>
      cur ← deref p (b_table b);
      nodeType ← getFieldU16 (sle_data cur) sfLedgerEntryType;
      m ← setAffectedNode key sfDeletedNode nodeType (b_meta b);
      let b := with_meta b m in
      match orig with
      | None => Throw null_pointer
      | Some orig =>
          b ← threadOwners orig b;
          cur ← deref p (b_table b);
          b ← add_inner key sfPreviousFields (previous_fields (sle_data orig) (sle_data cur)) b;
          add_inner key sfFinalFields (final_fields (Z.lor sMD_Always sMD_DeleteFinal) (sle_data cur)) b
      end
  | Act_modify =>
      cur ← deref p (b_table b);
      match orig with
      | None => Throw null_pointer
      | Some orig =>
          if object_eq (sle_data cur) (sle_data orig) then Ok b else
          nodeType ← getFieldU16 (sle_data cur) sfLedgerEntryType;
          m ← setAffectedNode key sfModifiedNode nodeType (b_meta b);
          let b := with_meta b m in
          b ← (if isThreadedType cur then threadItem (In_table p) b else Ok b);
          cur ← deref p (b_table b);
          b ← add_inner key sfPreviousFields (previous_fields (sle_data orig) (sle_data cur)) b;
          add_inner key sfFinalFields (final_fields (Z.lor sMD_Always sMD_ChangeNew) (sle_data cur)) b
      end
  | Act_insert =>
      cur ← deref p (b_table b);
      nodeType ← getFieldU16 (sle_data cur) sfLedgerEntryType;
      m ← setAffectedNode key sfCreatedNode nodeType (b_meta b);
      let b := with_meta b m in
      b ← threadOwners cur b;
      b ← (if isThreadedType cur then threadItem (In_table p) b else Ok b);
      cur ← deref p (b_table b);
      add_inner key sfNewFields (new_fields (sle_data cur)) b
  end.

(** The record of all items, in the order of their keys. *)
Definition build_meta (t : ApplyStateTable Object) (txid : Z) (deliver : option STAmount) : res Build :=
  let meta := meta_init txid (ledger_seq info) in
  let meta := match deliver with Some a => setDeliveredAmount meta a | None => meta end in
  for_each record_item (in_order (as_items t)) (mkBuild t meta ∅).

Definition apply_open (t : ApplyStateTable Object) (to : OpenView) (tx : STTx) (ter : Z) (deliver : option STAmount) : res OpenView :=
  sTx ← add_object true (o_fields (tx_object tx));
  if is_open info then to ← rawTxInsert (tid_ tx) sTx None to; as_apply t to
  else
    b ← build_meta t (tid_ tx) deliver;
    to ← for_each (fun m : Z * SLE Object => rawReplace m.2) (in_order (b_mods b)) to;
    sMeta ← addRaw (b_meta b) ter (txCount to);
    to ← rawTxInsert (tid_ tx) sTx (Some sMeta) to;
    as_apply (b_table b) to.
End Apply.
