(* ===== verification/MetaCommit.v ===== *)
(** * The final step of a transaction commits its changes

    [apply_open] of [TxMeta] on a table of well-formed entries: it does not fail,
    leaves the open view with the changes of the table, threaded to the transaction,
    and records every one of them in the metadata. *)

From S2P Require Import Prelude Serializer View RawStateTable ApplyStateTable STAmount SField STObject STAccess Indexes Formats TER STTx Prog Invariants Entries TxMeta.

(** ** Threading an entry *)

(** Values that can be written. *)
Definition writable (o : Object) : Prop := forall f v, peekAtPField o f = Some v -> exists bs, add_value v = Ok bs.

Definition thread_fields : list SField := [sfPreviousTxnID; sfPreviousTxnLgrSeq].

(** [s'] is [s], or [s] threaded to a transaction. *)
Definition threaded (txid seq : Z) (s s' : SLE Object) : Prop :=
  s' = s \/ sle_type s' = sle_type s /\ sle_key s' = sle_key s /\ evolves thread_fields (sle_data s) (sle_data s') /\
            peekAtPField (sle_data s') sfPreviousTxnID = Some (V_Hash256 txid) /\ peekAtPField (sle_data s') sfPreviousTxnLgrSeq = Some (V_UInt32 seq).

(** A field is found by its code. *)
Lemma peek_code o f g : getCode f = getCode g -> peekAtPField o f = peekAtPField o g.
Proof.
  intros Hg. assert (Hi : forall l, index_of f l = index_of g l) by (induction l as [|x l IH]; cbn; [done|]; unfold field_eq; by rewrite Hg, IH).
  unfold peekAtPField, getFieldIndex, template_index. destruct (o_type o); by rewrite Hi.
Qed.

Lemma threaded_trans txid seq s1 s2 s3 : threaded txid seq s1 s2 -> threaded txid seq s2 s3 -> threaded txid seq s1 s3.
Proof.
  intros [->|(T1 & K1 & E1 & H1)] [->|(T2 & K2 & E2 & H2)]; [by left|by right|by right|]. right. split; [congruence|]. split; [congruence|].
  split; [by eapply evolves_trans|done].
Qed.

Lemma threaded_type txid seq s s' : threaded txid seq s s' -> sle_type s' = sle_type s /\ sle_key s' = sle_key s.
Proof. by intros [->|(-> & -> & _)]. Qed.

Lemma threaded_ok txid seq s s' : sle_ok s -> threaded txid seq s s' -> sle_ok s'.
Proof.
  intros Hok [->|(Ht & Hk & He & _)]; [done|]. pose proof (sle_ok_evolves _ s (sle_data s') Hok He) as H. destruct s as [t k o], s' as [t' k' o']. cbn in *. by subst.
Qed.

Lemma threaded_writable txid seq s s' : writable (sle_data s) -> threaded txid seq s s' -> writable (sle_data s').
Proof.
  intros Hw [->|(_ & _ & (_ & _ & He) & H1 & H2)]; [done|]. intros f v Hv.
  destruct (decide (getCode f ∈ getCode <$> thread_fields)) as [Hin|Hn]; [|rewrite He in Hv by done; by eapply Hw].
  cbn in Hin. rewrite !elem_of_cons in Hin. destruct Hin as [Hin|[Hin|[]%elem_of_nil]]; rewrite (peek_code _ _ _ Hin) in Hv; [rewrite H1 in Hv|rewrite H2 in Hv]; injection Hv as <-; by eexists.
Qed.

(** An entry of a type that is threaded. *)
Definition threadable (s : SLE Object) : Prop := has_field (sle_type s) sfPreviousTxnID = true /\ has_field (sle_type s) sfPreviousTxnLgrSeq = true.

(** The entry names the transaction as the last that changed it. *)
Definition marked (txid : Z) (s : SLE Object) : Prop := field_of as_h256 0 s sfPreviousTxnID = txid.

Lemma thread_spec s txid seq : sle_ok s -> threadable s -> exists prev s', thread s txid seq = Ok (prev, s') /\ threaded txid seq s s' /\ marked txid s'.
Proof.
  intros Hok [H1 H2]. unfold thread, getFieldH256, getFieldU32, setFieldH256, setFieldU32.
  rewrite (get_field as_h256 0 s sfPreviousTxnID) by (done || field_ok_tac || (intros []; cbn; eauto || done)). cbn [mbind res_bind].
  destruct (Z.eqb_spec (field_of as_h256 0 s sfPreviousTxnID) txid) as [E|_]; [eexists _, s; split; [done|]; split; [by left|done]|].
  rewrite (get_field as_u32 0 s sfPreviousTxnLgrSeq) by (done || field_ok_tac || (intros []; cbn; eauto || done)). cbn [mbind res_bind].
  destruct (set_field s sfPreviousTxnID (V_Hash256 txid) Hok H1 ltac:(field_ok_tac) eq_refl) as (o1 & -> & W1 & Hok1). cbn [mbind res_bind].
  destruct (set_field (with_data s o1) sfPreviousTxnLgrSeq (V_UInt32 seq) Hok1 H2 ltac:(field_ok_tac) eq_refl) as (o2 & E2 & W2 & _). cbn [with_data sle_data] in E2, W2. rewrite E2.
  cbn [mbind res_bind]. assert (Hev : evolves thread_fields (sle_data s) o2) by (eapply evolves_trans; eapply written_evolves; [exact W1|left|exact W2|right; left]). destruct W1 as (_ & _ & W1), W2 as (_ & _ & W2).
  assert (Hp : peekAtPField o2 sfPreviousTxnID = Some (V_Hash256 txid)) by (rewrite W2, decide_False by done; by rewrite W1, decide_True).
  eexists _, _. split; [done|]. split; [|unfold marked, field_of; cbn [sle_data]; by rewrite Hp]. right. split; [done|]. split; [done|]. cbn [sle_data]. split; [done|]. split; [done|by rewrite W2, decide_True].
Qed.

(** ** The nodes of the record *)

Definition inner_names : list SField := [sfPreviousFields; sfFinalFields; sfNewFields].

(** The node of an entry, and one that has no inner objects yet. *)
Definition node_ok (k : Z) (n : SField * Object) : Prop :=
  object_ok n.2 /\ isFree n.2 = true /\ peekAtPField n.2 sfLedgerIndex = Some (V_Hash256 k) /\ writable n.2.
Definition bare (n : SField * Object) : Prop := forall f, getCode f ∈ getCode <$> inner_names -> peekAtPField n.2 f = None.

(** Nodes of different entries, with something known of each; those of entries not yet
    [done] are bare. *)
Definition nodes_with (Q : Z -> SField * Object -> Prop) (ks : list Z) (l : list (SField * Object)) : Prop :=
  NoDup ks /\ Forall2 (fun k n => node_ok k n /\ Q k n) ks l.
Definition until (done : Z -> Prop) : Z -> SField * Object -> Prop := fun k n => ~ done k -> bare n.
Abbreviation nodes_ok := (fun done => nodes_with (until done)).

Lemma free_peek_None o f : object_ok o -> isFree o = true -> peekAtPField o f = None -> getFieldIndex o f = None.
Proof.
  intros Ho Hf. destruct (getFieldIndex o f) as [i|] eqn:Hi; [|done]. destruct (ok_at o f i Ho Hi) as (g & v & _ & _ & _ & _ & Hp). congruence.
Qed.

Lemma node_index_read k n : node_ok k n -> getFieldH256 n.2 sfLedgerIndex = Ok k.
Proof. intros (_ & _ & Hp & _). unfold getFieldH256. by rewrite (getFieldBy_spec _ _ _ _ _ Hp). Qed.

Lemma writable_written o f v o' : writable o -> written_to o f v o' -> (exists bs, add_value v = Ok bs) -> writable o'.
Proof. intros Hw (_ & _ & Hp) Hv g w. rewrite Hp. case_decide; [by intros [= <-]|apply Hw]. Qed.

(** Setting a field of a node. *)
Lemma node_set k n type f v : node_ok k n -> field_ok f -> getSType v = fieldType f -> getCode f <> getCode sfLedgerIndex -> getCode f ∉ getCode <$> inner_names ->
  (exists bs, add_value v = Ok bs) -> exists o, setField n.2 f v = Ok o /\ node_ok k (type, o) /\ (bare n -> bare (type, o)).
Proof.
  intros (Ho & Hfree & Hi & Hw) Hf Hv Hne Hin Hb. destruct (setField_Ok n.2 f v Ho Hf (or_introl Hfree) Hv) as (o & E & W). exists o. split; [done|].
  pose proof W as (Ho' & Ht & Hp). split.
  - split; [done|]. split; [unfold isFree in *; cbn [snd]; by rewrite Ht|]. split; [cbn [snd]; by rewrite Hp, decide_False|by eapply writable_written].
  - intros Hbare g Hg. cbn [snd]. rewrite Hp, decide_False; [by apply Hbare|congruence].
Qed.

(** Adding an inner object. *)
Lemma node_emplace k n f l : node_ok k n -> field_ok f -> fieldType f = STI_OBJECT -> getCode f <> getCode sfLedgerIndex -> peekAtPField n.2 f = None ->
  (exists bs, add_value (V_Object l) = Ok bs) -> node_ok k (n.1, (emplace_back n.2 f (V_Object l)).2) /\
  forall g, peekAtPField (emplace_back n.2 f (V_Object l)).2 g = if decide (getCode g = getCode f) then Some (V_Object l) else peekAtPField n.2 g.
Proof.
  intros (Ho & Hfree & Hi & Hw) Hf Ht Hne Hn Hb. apply free_peek_None in Hn; [|done..]. assert (Hv : value_ok (f, V_Object l)) by (intros _; symmetry; exact Ht).
  pose proof (fun g => emplace_peek n.2 f (V_Object l) g Ho Hf Hfree Hn Hv) as Hp. split; [|done]. cbn [snd]. split; [by apply emplace_ok|].
  split; [done|]. split; [cbn [snd]; by rewrite Hp, decide_False|]. intros g w. cbn [snd]. rewrite Hp. case_decide; [by intros [= <-]|apply Hw].
Qed.

Definition bare_node (k : Z) (type : SField) (nodeType : Z) : SField * Object :=
  (type, mkObject [(sfLedgerIndex, V_Hash256 k); (sfLedgerEntryType, V_UInt16 nodeType)] None).

Lemma bare_node_ok k type nodeType : new_node k type nodeType = Ok (bare_node k type nodeType) /\ node_ok k (bare_node k type nodeType) /\ bare (bare_node k type nodeType).
Proof.
  split; [done|]. assert (Ho : object_ok (bare_node k type nodeType).2).
  { apply object_okb_ok. by vm_compute. }
  split; [split; [done|]; split; [done|]; split; [done|]|].
  - intros f v. rewrite ok_peek by done. destruct (index_of f _) as [[|[|i]]|]; cbn; [intros [= <-]; by eexists|intros [= <-]; by eexists|by destruct i|done].
  - intros f Hf. rewrite ok_peek by done. cbn [bare_node o_fields snd fmap list_fmap fst]. destruct (index_of f _) as [i|] eqn:E; [|done]. exfalso.
    apply index_of_Some in E as (g & Hg & Hc). destruct i as [|[|]]; cbn in Hg; [injection Hg as <-|injection Hg as <-|done]; rewrite <-Hc in Hf; revert Hf;
      refine (bool_decide_unpack _ _); vm_compute; exact I.
Qed.

Lemma at_node_found Q Q' k f missing ks l : nodes_with Q ks l -> k ∈ ks ->
  (forall n, node_ok k n /\ Q k n -> exists n', f n = Ok n' /\ node_ok k n' /\ Q' k n') -> (forall j n, j <> k -> Q j n -> Q' j n) ->
  exists l', at_node k f missing l = Ok l' /\ nodes_with Q' ks l'.
Proof.
  intros [Hnd Hl] Hk Hf Hq. assert (H : exists l', at_node k f missing l = Ok l' /\ Forall2 (fun k n => node_ok k n /\ Q' k n) ks l').
  { induction Hl as [|k' n ks l Hn Hl IH]; [by apply elem_of_nil in Hk|]. cbn [at_node]. rewrite (node_index_read k' n) by apply Hn. cbn [mbind res_bind].
    apply NoDup_cons in Hnd as [Hnew Hnd]. destruct (Z.eqb_spec k' k) as [->|Hne].
    - destruct (Hf n Hn) as (n' & -> & Hn'). cbn [mbind res_bind]. eexists. split; [done|]. constructor; [done|]. clear -Hl Hq Hnew.
      induction Hl as [|j x ks l Hx Hl IH]; constructor; apply not_elem_of_cons in Hnew as [Hne Hnew]; [|by apply IH]. split; [apply Hx|by apply Hq; [congruence|apply Hx]].
    - apply elem_of_cons in Hk as [->|Hk]; [done|]. destruct (IH Hnd Hk) as (l' & -> & Hl'). eexists. split; [done|]. constructor; [|done]. split; [apply Hn|by apply Hq; [|apply Hn]]. }
  destruct H as (l' & E & H). exists l'. done.
Qed.

Lemma at_node_missing Q k f missing ks l n : nodes_with Q ks l -> k ∉ ks -> missing = Ok [n] -> node_ok k n -> Q k n ->
  at_node k f missing l = Ok (l ++ [n]) /\ nodes_with Q (ks ++ [k]) (l ++ [n]).
Proof.
  intros [Hnd Hl] Hk -> Hn Hb. split.
  - clear Hnd. induction Hl as [|k' n' ks l Hn' Hl IH]; [done|]. apply not_elem_of_cons in Hk as [Hne Hk]. cbn [at_node]. rewrite (node_index_read k' n') by apply Hn'.
    cbn [mbind res_bind]. destruct (Z.eqb_spec k' k) as [->|]; [done|]. by rewrite (IH Hk).
  - split; [|by apply Forall2_app; [|constructor]]. apply NoDup_app. split; [done|]. split; [|apply NoDup_singleton]. intros x Hx ->%list_elem_of_singleton. done.
Qed.

(** ** Objects that can be written *)

Lemma ok_elem_peek o f v : object_ok o -> (f, v) ∈ o_fields o -> peekAtPField o f = Some v.
Proof.
  intros Ho (i & Hi)%list_elem_of_lookup. rewrite ok_peek by done. destruct Ho as (Hn & _).
  assert (Hg : (o_fields o).*1 !! i = Some f) by (by rewrite list_lookup_fmap, Hi). rewrite (index_of_lookup f _ i f Hn Hg eq_refl). cbn. by rewrite Hi.
Qed.

Lemma mapR_Ok {A B} (f : A -> res B) l : (forall a, a ∈ l -> exists b, f a = Ok b) -> exists bs, mapR f l = Ok bs.
Proof.
  induction l as [|a l IH]; intros H; [by exists []|]. destruct (H a) as [b Hb]; [left|]. destruct IH as [bs Hbs]; [intros x Hx; apply H; by right|].
  exists (b :: bs). change (mapR f (a :: l)) with (b ← f a; bs ← mapR f l; Ok (b :: bs)). by rewrite Hb, Hbs.
Qed.

Lemma encode_Ok which fv bs : add_value fv.2 = Ok bs -> exists e, encode_with add_value which fv = Ok e.
Proof. destruct fv as [f v]. cbn. intros H. unfold encode_with. destruct (isPresent v && shouldInclude which f); [rewrite H|]; by eexists. Qed.

Lemma fields_Ok which o : object_ok o -> writable o -> forall l, l ⊆ o_fields o -> exists es, mapR (encode_with add_value which) l = Ok es.
Proof. intros Ho Hw l Hl. apply mapR_Ok. intros [f v] Hin. destruct (Hw f v) as [bs Hb]; [apply ok_elem_peek; auto|]. by eapply encode_Ok. Qed.

Lemma filter_sub {A} (P : A -> bool) (l : list A) : List.filter P l ⊆ l.
Proof. intros x Hx%list_elem_of_In. apply list_elem_of_In. by apply List.filter_In in Hx as [Hx _]. Qed.

Lemma inner_Ok o l : object_ok o -> writable o -> l ⊆ o_fields o -> exists bs, add_value (V_Object l) = Ok bs.
Proof. intros Ho Hw Hl. destruct (fields_Ok true o Ho Hw l Hl) as [es Hes]. cbn. rewrite Hes. by eexists. Qed.

(** ** The templates *)

(** The fields threading relies on. *)
Definition template_threads (e : Z * SOTemplate) : bool :=
  has_field e.1 sfLedgerEntryType && (negb (has_field e.1 sfPreviousTxnID) || has_field e.1 sfPreviousTxnLgrSeq).

Lemma templates_thread : forallb template_threads ledger_formats = true.
Proof. by vm_compute. Qed.

Lemma sle_template_threads s : sle_ok s -> has_field (sle_type s) sfLedgerEntryType = true /\ (has_field (sle_type s) sfPreviousTxnID = true -> threadable s).
Proof.
  intros (t & Ht & _). apply findByType_elem, list_elem_of_In in Ht. pose proof templates_thread as H. rewrite forallb_forall in H. specialize (H _ Ht).
  unfold template_threads in H. cbn [fst] in H. apply andb_true_iff in H as [-> H]. split; [done|]. intros Hp. rewrite Hp in H. by split.
Qed.

Lemma isThreadedType_threadable s : sle_ok s -> isThreadedType s = true -> threadable s.
Proof.
  intros Hok Hi. apply sle_template_threads; [done|]. destruct Hok as (t & Ht & Hty & _). unfold has_field, isThreadedType, getFieldIndex in *. rewrite Hty in Hi. by rewrite Ht.
Qed.

Lemma entry_type_read s : sle_ok s -> exists n, getFieldU16 (sle_data s) sfLedgerEntryType = Ok n.
Proof.
  intros Hok. eexists. apply get_field; [done|by apply sle_template_threads|field_ok_tac|intros []; cbn; eauto || done|done].
Qed.

(** Reading a field that is required, and one that was seen to be there. *)
Lemma at_field_required {V} (cast : STValue -> option V) empty s f : sle_ok s ->
  (t ← findByType ledger_formats (sle_type s); style t f) = Some soeREQUIRED -> exists x, at_field cast empty (sle_data s) f = Ok x.
Proof.
  intros (t & Ht & Hty & Ho) Hs. rewrite Ht in Hs. cbn in Hs. destruct (template_accepts _ t f _ Hty Hs) as [i Hi]. destruct (ok_at _ f i Ho Hi) as (g & v & _ & _ & _ & _ & Hp).
  unfold at_field. rewrite Hp, Hty, Hs. destruct (cast v); by eexists.
Qed.

Lemma at_opt_field {V} (cast : STValue -> option V) empty s f : sle_ok s ->
  at_opt cast empty (sle_data s) f = Ok None \/ exists x, at_opt cast empty (sle_data s) f = Ok (Some x) /\ at_field cast empty (sle_data s) f = Ok x.
Proof.
  intros (t & Ht & Hty & Ho). unfold at_opt, at_field. destruct (peekAtPField (sle_data s) f) as [v|]; [|by left]. destruct (cast v) as [x|]; [right; by eexists|].
  rewrite Hty. destruct (style t f) as [[]|]; [right; by eexists|by left|right; by eexists|right; by eexists].
Qed.

(** *** Owners *)

(** The accounts an entry is threaded to when it is created or deleted. *)
Definition owners (s : SLE Object) : list Z :=
  let o := sle_data s in
  let holder f := match at_field as_account 0 o f with Ok a => [a] | Throw _ => [] end in
  let issuer f := match at_field as_amount (mkSTAmount sfcIssue 0 0 true false) o f with Ok l => [account (mIssue l)] | Throw _ => [] end in
  if sle_type s =? ltACCOUNT_ROOT then []
  else if (sle_type s =? ltESCROW) || (sle_type s =? ltPAYCHAN) then holder sfAccount ++ holder sfDestination
  else if sle_type s =? ltSUPPLYFINANCECHAIN_STATE then issuer sfLowLimit ++ issuer sfHighLimit
  else match at_opt as_account 0 o sfAccount with Ok (Some a) => [a] | _ => [] end.

Lemma owners_threaded txid seq s s' : threaded txid seq s s' -> owners s' = owners s.
Proof.
  intros [->|(Ht & _ & (_ & Hty & Hp) & _)]; [done|]. unfold owners. rewrite Ht.
  assert (P : forall f, getCode f ∉ getCode <$> thread_fields -> peekAtPField (sle_data s') f = peekAtPField (sle_data s) f) by done. clear Hp. unfold at_field, at_opt. rewrite Hty.
  by rewrite !P by (refine (bool_decide_unpack _ _); vm_compute; exact I).
Qed.

(** ** While the record is built *)

Section Build.
Context (sha512Half : list Z -> Z) (info : ViewInfo) (base : ReadView Object) (m : gmap Z (SLE Object)) `{!ReadViewOf base m}.
Context (t : ApplyStateTable Object) (txid : Z) (deliver : option STAmount).
Abbreviation seq := (ledger_seq info).
Abbreviation akey := (fun a => kl_key (keylet_account sha512Half a)).

(** An entry as a ledger holds it under a key; at the key of an account it is one. *)
Definition entry_fine (k : Z) (s : SLE Object) : Prop :=
  sle_key s = k /\ sle_ok s /\ writable (sle_data s) /\ ((exists a, k = akey a) -> sle_type s = ltACCOUNT_ROOT).

Definition map_fine (mm : gmap Z (SLE Object)) : Prop := forall k s, mm !! k = Some s -> entry_fine k s.
Definition table_fine : Prop := forall k a p s, as_items t !! k = Some (a, p) -> as_heap t !! p = Some s -> entry_fine k s.

Context (Hm : map_fine m) (Ht : table_fine) (Hwf : as_wf t m).

(** The table changes the entry, or at most looks at it. *)
Definition changes (k : Z) : Prop := exists a p, as_items t !! k = Some (a, p) /\ a <> Act_cache.

(** A change that has to be on record: all but an entry modified to be equal to what it was. *)
Definition recorded (ks : list Z) (k : Z) : Prop :=
  k ∈ ks \/ exists p s s' orig, as_items t !! k = Some (Act_modify, p) /\ as_heap t !! p = Some s /\ m !! k = Some orig /\
              threaded txid seq s s' /\ object_eq (sle_data s') (sle_data orig) = true.

Record build_with (Q : Z -> SField * Object -> Prop) (done : Z -> Prop) (ks : list Z) (b : Build) : Prop := {
  bo_items : as_items (b_table b) = as_items t;
  bo_drops : as_dropsDestroyed (b_table b) = as_dropsDestroyed t;
  bo_heap : forall p s, as_heap t !! p = Some s -> exists s', as_heap (b_table b) !! p = Some s' /\ threaded txid seq s s';
  bo_mods : forall k s', b_mods b !! k = Some s' -> (exists s, m !! k = Some s /\ threaded txid seq s s') /\ ~ changes k;
  bo_id : mTransactionID (b_meta b) = txid /\ mLedger (b_meta b) = seq /\ mDelivered (b_meta b) = deliver;
  bo_nodes : nodes_with Q ks (mNodes (b_meta b));
  bo_listed : forall k, k ∈ ks -> changes k \/ is_Some (b_mods b !! k);
  bo_recorded : forall k, done k -> changes k -> recorded ks k
}.

Abbreviation build_ok := (fun done => build_with (until done) done).

(** *** What is threaded *)

(** The object of the table at [p] is threaded. *)
Definition tmark (b : Build) (p : ptr) : Prop := forall s, as_heap (b_table b) !! p = Some s -> marked txid s.

(** The entry at [k] is threaded, or it is deleted, or there is none. *)
Definition at_rest (b : Build) (k : Z) : Prop :=
  is_Some (b_mods b !! k) \/
  match as_items t !! k with
  | Some (Act_erase, _) => True
  | Some (Act_insert, p) | Some (Act_modify, p) => tmark b p
  | _ => m !! k = None
  end.

(** From [b] to [b'] nothing that was threaded is lost, and new copies are threaded and
    at keys of [O]. *)
Definition grows (O : list Z) (b b' : Build) : Prop :=
  (forall p, tmark b p -> tmark b' p) /\ (forall k, is_Some (b_mods b !! k) -> is_Some (b_mods b' !! k)) /\
  (forall k s', b_mods b' !! k = Some s' -> (exists s, b_mods b !! k = Some s /\ (marked txid s -> marked txid s')) \/ k ∈ O /\ marked txid s').

Lemma grows_same O b b' : b_table b' = b_table b -> b_mods b' = b_mods b -> grows O b b'.
Proof. intros Et Em. unfold grows, tmark. rewrite Et, Em. split; [done|]. split; [done|]. intros k s Hs. left. by exists s. Qed.

Lemma grows_trans O b1 b2 b3 : grows O b1 b2 -> grows O b2 b3 -> grows O b1 b3.
Proof.
  intros (A1 & A2 & A3) (B1 & B2 & B3). split; [by auto|]. split; [by auto|]. intros k s3 H3. destruct (B3 k s3 H3) as [(s2 & H2 & M2)|]; [|by right].
  destruct (A3 k s2 H2) as [(s1 & H1 & M1)|[Hk M1]]; [left; exists s1; auto|right; auto].
Qed.

Lemma grows_mono O O' b b' : O ⊆ O' -> grows O b b' -> grows O' b b'.
Proof. intros HO (A1 & A2 & A3). split; [done|]. split; [done|]. intros k s H. destruct (A3 k s H) as [|[? ?]]; [by left|right; auto]. Qed.

Lemma at_rest_grows O b b' k : grows O b b' -> at_rest b k -> at_rest b' k.
Proof. intros (A1 & A2 & _) [H|H]; [left; auto|right]. destruct (as_items t !! k) as [[[] p]|]; auto. Qed.

(** What threading one entry does. *)
Definition effect (r : ModRef) (b b' : Build) : Prop :=
  exists s', marked txid s' /\
    match r with
    | In_table p => as_heap (b_table b') = <[ p := s' ]> (as_heap (b_table b)) /\ b_mods b' = b_mods b
    | In_mods k => b_table b' = b_table b /\ b_mods b' = <[ k := s' ]> (b_mods b)
    end.

Lemma effect_set r s' b : marked txid s' -> effect r b (mod_set r s' b).
Proof. intros Hs. exists s'. by destruct r. Qed.

Lemma effect_table p b b' O : effect (In_table p) b b' -> grows O b b' /\ tmark b' p.
Proof.
  intros (s' & Hs' & Eh & Em). unfold grows, tmark. rewrite Eh, Em. split; [split; [|split; [done|intros k s Hs; left; by exists s]]|].
  - intros q Hq s [[_ <-]|[_ H]]%lookup_insert_Some; [done|by apply Hq].
  - intros s. rewrite lookup_insert_eq. by intros [= <-].
Qed.

(** The copy may have been made just before. *)
Lemma effect_mods k b0 b b' : b_table b = b_table b0 -> (b_mods b = b_mods b0 \/ exists s, b_mods b = <[ k := s ]> (b_mods b0)) -> effect (In_mods k) b b' ->
  grows [k] b0 b' /\ is_Some (b_mods b' !! k).
Proof.
  intros Et Em (s' & Hs' & Et' & Em'). split; [|rewrite Em', lookup_insert_eq; by eexists]. unfold grows, tmark. rewrite Et', Et, Em'. split; [done|].
  assert (Hoff : forall j, j <> k -> b_mods b !! j = b_mods b0 !! j) by (intros j Hj; destruct Em as [->|[s ->]]; [done|by rewrite lookup_insert_ne]). split.
  - intros j [x Hx]. destruct (decide (j = k)) as [->|Hj]; [rewrite lookup_insert_eq; by eexists|]. rewrite lookup_insert_ne, Hoff, Hx by done. by eexists.
  - intros j x [[<- <-]|[Hj Hx]]%lookup_insert_Some; [right; split; [left|done]|left]. rewrite Hoff in Hx by done. by exists x.
Qed.

(** The accounts that the change of the table at a key is threaded to. *)
Definition owned_by (k : Z) : list Z :=
  match as_items t !! k with
  | Some (Act_erase, _) => match m !! k with Some orig => akey <$> owners orig | None => [] end
  | Some (Act_insert, p) => match as_heap t !! p with Some s => akey <$> owners s | None => [] end
  | _ => []
  end.

(** The change at a key has been threaded. *)
Definition linked (b : Build) (k : Z) : Prop :=
  (forall j, j ∈ owned_by k -> at_rest b j) /\
  match as_items t !! k with
  | Some (Act_insert, p) => forall s, as_heap t !! p = Some s -> isThreadedType s = true -> tmark b p
  | Some (Act_modify, p) => forall s, as_heap t !! p = Some s -> isThreadedType s = true -> tmark b p \/
      exists s' orig, m !! k = Some orig /\ threaded txid seq s s' /\ object_eq (sle_data s') (sle_data orig) = true
  | _ => True
  end.

Lemma linked_grows O b b' k : grows O b b' -> linked b k -> linked b' k.
Proof.
  intros Hg [H1 H2]. split; [intros j Hj; eapply at_rest_grows; [done|by apply H1]|]. destruct Hg as (A1 & _). destruct (as_items t !! k) as [[[] p]|]; try done.
  - intros s Hs Hi. by apply A1, (H2 s).
  - intros s Hs Hi. destruct (H2 s Hs Hi) as [|]; [left; auto|by right].
Qed.

Definition threads_done (done : Z -> Prop) (b : Build) : Prop :=
  (forall j, done j -> linked b j) /\ (forall k s, b_mods b !! k = Some s -> marked txid s /\ exists j, k ∈ owned_by j).

Lemma read_orig k : rv_read base (unchecked k) = m !! k.
Proof. exact (read_unchecked base m k). Qed.

Lemma entry_fine_threaded k s s' : entry_fine k s -> threaded txid seq s s' -> entry_fine k s'.
Proof.
  intros (Hk & Hok & Hw & Ha) H. destruct (threaded_type _ _ _ _ H) as [T1 T2]. split; [congruence|]. split; [by eapply threaded_ok|]. split; [by eapply threaded_writable|].
  by rewrite T1.
Qed.

(** Where an entry that can be threaded is found. *)
Definition ref_ok (b : Build) (k : Z) (r : ModRef) : Prop :=
  match r with
  | In_table p => exists a, as_items t !! k = Some (a, p) /\ a <> Act_cache
  | In_mods k' => k' = k /\ is_Some (b_mods b !! k)
  end.

Lemma mod_get_ok done ks b k r : build_ok done ks b -> ref_ok b k r -> exists s, mod_get r b = Ok s /\ entry_fine k s.
Proof.
  intros Hb. destruct r as [p|k']; cbn.
  - intros (a & Hi & _). destruct (Hwf _ _ Hi) as (s & Hs & _). destruct (bo_heap _ _ _ _ Hb _ _ Hs) as (s' & Hs' & Hth). cbn in Hs'.
    exists s'. unfold deref. rewrite Hs'. split; [done|]. eapply entry_fine_threaded; [|done]. by eapply Ht.
  - intros [-> [s Hs]]. rewrite Hs. exists s. split; [done|]. destruct (bo_mods _ _ _ _ Hb _ _ Hs) as [(s0 & H0 & Hth) _]. eapply entry_fine_threaded; [|done]. by apply Hm.
Qed.

Lemma held_key k a p s : as_items t !! k = Some (a, p) -> as_heap t !! p = Some s -> sle_key s = k.
Proof. intros Hi Hs. by destruct (Ht _ _ _ _ Hi Hs) as (Hk & _). Qed.

Lemma mod_set_ok done ks b k r s s' : build_ok done ks b -> ref_ok b k r -> mod_get r b = Ok s -> threaded txid seq s s' ->
  build_ok done ks (mod_set r s' b) /\ ref_ok (mod_set r s' b) k r.
Proof.
  intros Hb Hr Hs Hth. destruct r as [p|k']; cbn in *.
  - split; [|done]. unfold deref in Hs. destruct (as_heap (b_table b) !! p) as [s1|] eqn:E1; [|done]. injection Hs as <-. destruct Hb as [H1 H2 H3 H4 H5 H6 H7 H8].
    split; [done|done| |done..]. intros q s0 H0. cbn. destruct (decide (q = p)) as [->|Hne].
    + rewrite lookup_insert_eq. eexists. split; [done|]. destruct (H3 _ _ H0) as (s2 & E2 & Hth2). rewrite E1 in E2. injection E2 as <-. by eapply threaded_trans.
    + rewrite lookup_insert_ne by done. by apply H3.
  - destruct Hr as [-> Hi]. destruct (b_mods b !! k) as [s1|] eqn:E1; [|done]. injection Hs as <-. split; [|split; [done|by rewrite lookup_insert_eq]].
    destruct Hb as [H1 H2 H3 H4 H5 H6 H7 H8]. split; [done..| |done|done| |done].
    + intros j sj. cbn. destruct (decide (j = k)) as [->|Hne]; [|rewrite lookup_insert_ne by done; apply H4]. rewrite lookup_insert_eq. intros [= <-].
      destruct (H4 _ _ E1) as [(s0 & H0 & Hth0) Hc]. split; [|done]. exists s0. split; [done|]. by eapply threaded_trans.
    + intros j Hj. cbn. destruct (H7 j Hj) as [|Hs]; [by left|right]. destruct (decide (j = k)) as [->|]; [by rewrite lookup_insert_eq|by rewrite lookup_insert_ne].
Qed.

(** A change to the node of an entry, with a new node where there was none. *)
Lemma with_node_ok Q Q' done ks b k l : build_with Q done ks b -> changes k \/ is_Some (b_mods b !! k) ->
  (k ∈ ks /\ nodes_with Q' ks l \/ k ∉ ks /\ nodes_with Q' (ks ++ [k]) l) -> exists ks', build_with Q' done ks' (with_meta b (with_nodes (b_meta b) l)) /\ k ∈ ks' /\ ks ⊆ ks'.
Proof.
  intros [H1 H2 H3 H4 H5 H6 H7 H8] Hk [[Hin Hl]|[Hin Hl]].
  - exists ks. split; [by split|done].
  - exists (ks ++ [k]). split; [|split; [apply elem_of_app; right; left|intros x Hx; apply elem_of_app; by left]]. split; [done..| |].
    + cbn. intros j [Hj| ->%list_elem_of_singleton]%elem_of_app; [by apply H7|done].
    + intros j Hj Hc. destruct (H8 j Hj Hc) as [|]; [left; apply elem_of_app; by left|by right].
Qed.

Lemma setAffectedNode_ok done ks b k type nodeType : build_ok done ks b -> changes k ->
  exists ks' meta, setAffectedNode k type nodeType (b_meta b) = Ok meta /\ build_ok done ks' (with_meta b meta) /\ k ∈ ks' /\ ks ⊆ ks'.
Proof.
  intros Hb Hc. unfold setAffectedNode. pose proof (bo_nodes _ _ _ _ Hb) as Hl. destruct (bare_node_ok k type nodeType) as (E & H2 & H3). rewrite E. cbn [mbind res_bind].
  assert (Hf : forall n, node_ok k n /\ until done k n -> exists n', (o ← setFieldU16 n.2 sfLedgerEntryType nodeType; Ok (type, o)) = Ok n' /\ node_ok k n' /\ until done k n').
  { intros n [Hn Hbare]. destruct (node_set k n type sfLedgerEntryType (V_UInt16 nodeType) Hn) as (o & Eo & Ho & Hbo); [field_ok_tac|done|done|refine (bool_decide_unpack _ _); vm_compute; exact I|by eexists|].
    unfold setFieldU16. rewrite Eo. cbn [mbind res_bind]. eexists. split; [done|]. split; [done|]. intros Hd. by apply Hbo, Hbare. }
  destruct (decide (k ∈ ks)) as [Hin|Hin].
  - destruct (at_node_found (until done) (until done) k _ (Ok [bare_node k type nodeType]) ks _ Hl Hin Hf (fun _ _ _ H => H)) as (l' & -> & Hl'). cbn [mbind res_bind].
    destruct (with_node_ok (until done) (until done) done ks b k l' Hb (or_introl Hc) (or_introl (conj Hin Hl'))) as (ks' & H). by eexists ks', _.
  - destruct (at_node_missing (until done) k (fun n => o ← setFieldU16 n.2 sfLedgerEntryType nodeType; Ok (type, o)) _ ks _ _ Hl Hin eq_refl H2 (fun _ => H3)) as [-> Hl']. cbn [mbind res_bind].
    destruct (with_node_ok (until done) (until done) done ks b k _ Hb (or_introl Hc) (or_intror (conj Hin Hl'))) as (ks' & H). by eexists ks', _.
Qed.

Lemma meta_thread_ok k n prevTxID prevLgrID : node_ok k n -> exists o, meta_thread prevTxID prevLgrID n.2 = Ok o /\ node_ok k (n.1, o) /\ (bare n -> bare (n.1, o)).
Proof.
  intros Hn. unfold meta_thread. destruct (getFieldIndex n.2 sfPreviousTxnID); [exists n.2; destruct n; done|].
  destruct (node_set k n n.1 sfPreviousTxnID (V_Hash256 prevTxID) Hn) as (o & Eo & Ho & Hbo); [field_ok_tac|done|done|refine (bool_decide_unpack _ _); vm_compute; exact I|by eexists|].
  unfold setFieldH256. rewrite Eo. cbn [mbind res_bind].
  destruct (node_set k _ n.1 sfPreviousTxnLgrSeq (V_UInt32 prevLgrID) Ho) as (o2 & Eo2 & Ho2 & Hbo2); [field_ok_tac|done|done|refine (bool_decide_unpack _ _); vm_compute; exact I|by eexists|].
  exists o2. split; [exact Eo2|]. split; [done|]. intros H. by apply Hbo2, Hbo.
Qed.

Lemma getAffectedNode_for_ok done ks b s type prevTxID prevLgrID : build_ok done ks b -> sle_ok s -> changes (sle_key s) \/ is_Some (b_mods b !! sle_key s) ->
  exists ks' meta, getAffectedNode_for s type (meta_thread prevTxID prevLgrID) (b_meta b) = Ok meta /\ build_ok done ks' (with_meta b meta) /\ ks ⊆ ks'.
Proof.
  intros Hb Hok Hc. unfold getAffectedNode_for. pose proof (bo_nodes _ _ _ _ Hb) as Hl. set (k := sle_key s) in *. destruct (entry_type_read s Hok) as [nt ->]. cbn [mbind res_bind].
  destruct (bare_node_ok k type nt) as (-> & H2 & H3). cbn [mbind res_bind]. destruct (meta_thread_ok k _ prevTxID prevLgrID H2) as (o & -> & Ho & Hbo). cbn [mbind res_bind].
  assert (Hf : forall n, node_ok k n /\ until done k n -> exists n', (o ← meta_thread prevTxID prevLgrID n.2; Ok (n.1, o)) = Ok n' /\ node_ok k n' /\ until done k n').
  { intros n [Hn Hbare]. destruct (meta_thread_ok k n prevTxID prevLgrID Hn) as (o' & -> & Ho' & Hbo'). eexists. split; [done|]. split; [done|]. intros Hd. by apply Hbo', Hbare. }
  destruct (decide (k ∈ ks)) as [Hin|Hin].
  - destruct (at_node_found (until done) (until done) k _ (Ok [((bare_node k type nt).1, o)]) ks _ Hl Hin Hf (fun _ _ _ H => H)) as (l' & -> & Hl'). cbn [mbind res_bind].
    destruct (with_node_ok (until done) (until done) done ks b k l' Hb Hc (or_introl (conj Hin Hl'))) as (ks' & H & _ & H'). by eexists ks', _.
  - destruct (at_node_missing (until done) k (fun n => o ← meta_thread prevTxID prevLgrID n.2; Ok (n.1, o)) _ ks _ _ Hl Hin eq_refl Ho (fun _ => Hbo H3)) as [-> Hl']. cbn [mbind res_bind].
    destruct (with_node_ok (until done) (until done) done ks b k _ Hb Hc (or_intror (conj Hin Hl'))) as (ks' & H & _ & H'). by eexists ks', _.
Qed.

Lemma ref_listed b k r : ref_ok b k r -> changes k \/ is_Some (b_mods b !! k).
Proof. destruct r; cbn; [intros (a & H1 & H2); left; by exists a, p|by intros [_ H]; right]. Qed.

Lemma threadItem_ok done ks b k r : build_ok done ks b -> ref_ok b k r -> (forall s, mod_get r b = Ok s -> threadable s) ->
  exists ks' b', threadItem r b = Ok b' /\ build_ok done ks' b' /\ ks ⊆ ks' /\ effect r b b'.
Proof.
  intros Hb Hr Hth. destruct (mod_get_ok _ _ _ _ _ Hb Hr) as (s & Hs & Hk & Hok & Hw & Ha). unfold threadItem. rewrite Hs. cbn [mbind res_bind].
  destruct (bo_id _ _ _ _ Hb) as (-> & -> & _). destruct (thread_spec s txid seq Hok (Hth s Hs)) as (prev & s' & -> & Ht' & Hmk). cbn [mbind res_bind]. pose proof (effect_set r s' b Hmk) as Hef.
  destruct (mod_set_ok _ _ _ _ _ _ _ Hb Hr Hs Ht') as [Hb' Hr']. destruct prev as [[p1 p2]|]; [|by exists ks, (mod_set r s' b)].
  destruct (p1 =? 0); [by exists ks, (mod_set r s' b)|]. destruct (threaded_type _ _ _ _ Ht') as [_ Hk'].
  destruct (getAffectedNode_for_ok done ks (mod_set r s' b) s' sfModifiedNode p1 p2 Hb') as (ks' & meta & E & Hb2 & Hsub); [by eapply threaded_ok| |].
  - rewrite Hk', Hk. by eapply ref_listed.
  - rewrite E. cbn [mbind res_bind]. by eexists ks', _.
Qed.

Lemma getForMod_ok done ks b k : build_ok done ks b ->
  match getForMod base k b with
  | None => at_rest b k
  | Some (r, b') => build_ok done ks b' /\ ref_ok b' k r /\ b_table b' = b_table b /\ (b_mods b' = b_mods b \/ exists s, r = In_mods k /\ b_mods b' = <[ k := s ]> (b_mods b))
  end.
Proof.
  intros Hb. unfold getForMod. rewrite read_orig. destruct (b_mods b !! k) as [s|] eqn:Em; [split; [done|]; split; [cbn; by rewrite Em|by auto]|]. rewrite (bo_items _ _ _ _ Hb).
  assert (Hcopy : ~ changes k -> match (match m !! k with None => None | Some s => Some (In_mods k, mkBuild (b_table b) (b_meta b) (<[ k := s ]> (b_mods b))) end) with
    None => m !! k = None | Some (r, b') => build_ok done ks b' /\ ref_ok b' k r /\ b_table b' = b_table b /\ (b_mods b' = b_mods b \/ exists s, r = In_mods k /\ b_mods b' = <[ k := s ]> (b_mods b)) end).
  { intros Hc. destruct (m !! k) as [s|] eqn:E; [|done]. split; [|split; [cbn; split; [done|by rewrite lookup_insert_eq]|split; [done|right; by exists s]]]. destruct Hb as [H1 H2 H3 H4 H5 H6 H7 H8]. split; [done..| |done|done| |done].
    - intros j sj. cbn. destruct (decide (j = k)) as [->|Hne]; [|rewrite lookup_insert_ne by done; apply H4]. rewrite lookup_insert_eq. intros [= <-]. split; [|done]. exists s. split; [done|by left].
    - intros j Hj. cbn. destruct (H7 j Hj) as [|Hs]; [by left|right]. destruct (decide (j = k)) as [->|]; [by rewrite lookup_insert_eq|by rewrite lookup_insert_ne]. }
  assert (Hnone : ~ changes k -> m !! k = None -> at_rest b k).
  { intros Hc Hn. right. destruct (as_items t !! k) as [[[] p]|] eqn:Ei; try done; destruct Hc; by eexists _, _. }
  destruct (as_items t !! k) as [[[] p]|] eqn:Ei.
  - assert (Hc : ~ changes k) by (intros (a & q & Hi & Ha); congruence). pose proof (Hcopy Hc) as H. destruct (m !! k); [done|by apply Hnone].
  - right. by rewrite Ei.
  - split; [done|]. split; [by exists Act_insert|by auto].
  - split; [done|]. split; [by exists Act_modify|by auto].
  - assert (Hc : ~ changes k) by (intros (a & q & Hi & Ha); congruence). pose proof (Hcopy Hc) as H. destruct (m !! k); [done|by apply Hnone].
Qed.

Lemma threadTx_ok done ks b a : build_ok done ks b ->
  exists ks' b', threadTx sha512Half base a b = Ok b' /\ build_ok done ks' b' /\ ks ⊆ ks' /\ grows [akey a] b b' /\ at_rest b' (akey a).
Proof.
  intros Hb. unfold threadTx. pose proof (getForMod_ok done ks b (akey a) Hb) as H. cbv beta in *. destruct (getForMod base _ b) as [[r b']|]; [|exists ks, b; split_and!; try done; by apply grows_same].
  destruct H as (Hb' & Hr & Et & Em). destruct (threadItem_ok done ks b' _ r Hb' Hr) as (ks' & b2 & E & Hb2 & Hs & Hef).
  { intros s Hs. destruct (mod_get_ok _ _ _ _ _ Hb' Hr) as (s' & Hs' & _ & _ & _ & Ha). rewrite Hs in Hs'. injection Hs' as <-. unfold threadable. rewrite (Ha (ex_intro _ a eq_refl)). by vm_compute. }
  exists ks', b2. split; [done|]. split; [done|]. split; [done|]. destruct r as [p|k'].
  - assert (Em' : b_mods b' = b_mods b) by (destruct Em as [|(s & [=] & _)]; done). destruct (effect_table p b' b2 [akey a] Hef) as [Hg Hp]. split; [eapply grows_trans; [by apply grows_same|exact Hg]|].
    right. destruct Hr as (a' & Hi & Ha'). rewrite Hi. by destruct a'.
  - destruct Hr as [-> _]. destruct (effect_mods (kl_key (keylet_account sha512Half a)) b b' b2 Et) as [Hg Hk]; [destruct Em as [|(s & _ & ?)]; [by left|right; by exists s]|exact Hef|]. split; [exact Hg|by left].
Qed.

Lemma threadOwners_ok done ks b s : build_ok done ks b -> sle_ok s ->
  exists ks' b', threadOwners sha512Half base s b = Ok b' /\ build_ok done ks' b' /\ ks ⊆ ks' /\ grows (akey <$> owners s) b b' /\ forall k, k ∈ akey <$> owners s -> at_rest b' k.
Proof.
  intros Hb Hok. unfold threadOwners, owners.
  assert (Htwo : forall x y, exists ks' b', (b ← threadTx sha512Half base x b; threadTx sha512Half base y b) = Ok b' /\ build_ok done ks' b' /\ ks ⊆ ks' /\
    grows (akey <$> [x; y]) b b' /\ forall k, k ∈ akey <$> [x; y] -> at_rest b' k).
  { intros x y. destruct (threadTx_ok done ks b x Hb) as (k1 & b1 & -> & Hb1 & S1 & G1 & R1). cbn [mbind res_bind]. destruct (threadTx_ok done k1 b1 y Hb1) as (k2 & b2 & E2 & Hb2 & S2 & G2 & R2).
    exists k2, b2. split; [done|]. split; [done|]. split; [by etrans|]. split; [eapply grows_trans; [eapply grows_mono; [|exact G1]|eapply grows_mono; [|exact G2]]; set_solver|].
    intros k [->|[->|[]%elem_of_nil]%elem_of_cons]%elem_of_cons; [by eapply at_rest_grows|done]. }
  assert (Hnone : exists ks' b', Ok b = Ok b' /\ build_ok done ks' b' /\ ks ⊆ ks' /\ grows (akey <$> []) b b' /\ forall k, k ∈ akey <$> [] -> at_rest b' k).
  { exists ks, b. split; [done|]. split; [done|]. split; [done|]. split; [by apply grows_same|]. intros k []%elem_of_nil. }
  destruct (Z.eqb_spec (sle_type s) ltACCOUNT_ROOT); [exact Hnone|].
  destruct ((sle_type s =? ltESCROW) || (sle_type s =? ltPAYCHAN)) eqn:E1.
  - destruct (at_field_required as_account 0 s sfAccount Hok) as [x Ex]; [apply orb_true_iff in E1 as [->%Z.eqb_eq| ->%Z.eqb_eq]; by vm_compute|].
    destruct (at_field_required as_account 0 s sfDestination Hok) as [y Ey]; [apply orb_true_iff in E1 as [->%Z.eqb_eq| ->%Z.eqb_eq]; by vm_compute|].
    rewrite Ex, Ey. cbn [mbind res_bind app]. exact (Htwo x y).
  - destruct (Z.eqb_spec (sle_type s) ltSUPPLYFINANCECHAIN_STATE) as [E2|_].
    + destruct (at_field_required as_amount (mkSTAmount sfcIssue 0 0 true false) s sfLowLimit Hok) as [x Ex]; [rewrite E2; by vm_compute|].
      destruct (at_field_required as_amount (mkSTAmount sfcIssue 0 0 true false) s sfHighLimit Hok) as [y Ey]; [rewrite E2; by vm_compute|].
      rewrite Ex, Ey. cbn [mbind res_bind app]. exact (Htwo (account (mIssue x)) (account (mIssue y))).
    + destruct (at_opt_field as_account 0 s sfAccount Hok) as [->|(x & -> & E)]; cbn [mbind res_bind]; [exact Hnone|]. rewrite E. cbn [mbind res_bind].
      destruct (threadTx_ok done ks b x Hb) as (k1 & b1 & -> & Hb1 & S1 & G1 & R1). exists k1, b1. split_and!; try done. intros k [->|[]%elem_of_nil]%elem_of_cons. done.
Qed.

Lemma build_weaken (Q Q' : Z -> SField * Object -> Prop) done done' ks b : build_with Q done ks b -> (forall j n, j ∈ ks -> Q j n -> Q' j n) ->
  (forall j, done' j -> changes j -> done j \/ recorded ks j) -> build_with Q' done' ks b.
Proof.
  intros [H1 H2 H3 H4 H5 [H6 H6'] H7 H8] HQ Hd. split; [done..| |done|].
  - split; [done|]. clear -H6' HQ. induction H6' as [|k n ks l [Hn Hq] Hl IH]; [constructor|]. constructor; [split; [done|]; apply HQ; [left|done]|]. apply IH. intros j x Hj. apply HQ. by right.
  - intros j Hj Hc. destruct (Hd j Hj Hc) as [|]; auto.
Qed.

(** The node of [k] gets an inner object under a name it does not have. *)
Lemma add_inner_ok Q Q' done ks b k name l o : build_with Q done ks b -> k ∈ ks -> object_ok o -> writable o -> l ⊆ o_fields o -> name ∈ inner_names ->
  (forall n, Q k n -> peekAtPField n.2 name = None) ->
  (forall n n', Q k n -> (forall g, getCode g <> getCode name -> peekAtPField n'.2 g = peekAtPField n.2 g) -> Q' k n') -> (forall j n, j <> k -> Q j n -> Q' j n) ->
  exists b', add_inner k name l b = Ok b' /\ build_with Q' done ks b' /\ b_table b' = b_table b /\ b_mods b' = b_mods b.
Proof.
  intros Hb Hk Ho Hw Hl Hname Hnone HQ Hq. unfold add_inner. destruct l as [|x l].
  { exists b. split; [done|]. split; [|done]. eapply build_weaken; [done| |by left]. intros j n _ Hj. destruct (decide (j = k)) as [->|]; [by eapply HQ|by apply Hq]. }
  destruct (inner_Ok o (x :: l) Ho Hw Hl) as [bs Hbs]. unfold getAffectedNode.
  assert (Hf : field_ok name /\ fieldType name = STI_OBJECT /\ getCode name <> getCode sfLedgerIndex).
  { unfold inner_names in Hname. rewrite !elem_of_cons in Hname. destruct Hname as [->|[->|[->|[]%elem_of_nil]]]; (split; [field_ok_tac|done]). }
  destruct Hf as (Hf & Hty & Hne).
  destruct (at_node_found Q Q' k (fun n => o ← Ok (emplace_back n.2 name (V_Object (x :: l))).2; Ok (n.1, o)) (Throw (runtime_error "Affected node not found")) ks (mNodes (b_meta b))) as (l' & -> & Hl');
    [apply Hb|done| |done|].
  - intros n [Hn Hqn]. destruct (node_emplace k n name (x :: l) Hn Hf Hty Hne (Hnone n Hqn) (ex_intro _ bs Hbs)) as [Hn' Hp]. eexists. split; [done|]. split; [done|].
    eapply HQ; [done|]. intros g Hg. cbn [snd]. by rewrite Hp, decide_False.
  - cbn [mbind res_bind]. eexists. split; [done|]. split; [|done]. destruct Hb as [H1 H2 H3 H4 H5 H6 H7 H8]. by split.
Qed.

(** What is known of the node of [k] after one inner object, and after two. *)
Definition stage1 (done : Z -> Prop) (k : Z) : Z -> SField * Object -> Prop :=
  fun j n => if decide (j = k) then peekAtPField n.2 sfFinalFields = None else until done j n.
Definition stage2 (done : Z -> Prop) (k : Z) : Z -> SField * Object -> Prop := fun j n => if decide (j = k) then True else until done j n.
Definition also (done : Z -> Prop) (k : Z) : Z -> Prop := fun j => done j \/ j = k.

Lemma finish_ok done ks b k : build_with (stage2 done k) done ks b -> recorded ks k -> build_ok (also done k) ks b.
Proof.
  intros Hb Hr. eapply build_weaken; [exact Hb| |].
  - intros j n _ H Hd. unfold stage2 in H. case_decide as Hj; [subst; destruct Hd; by right|]. apply H. intros ?. apply Hd. by left.
  - intros j [Hj| ->] _; [by left|by right].
Qed.

(** The fields kept of an erased or modified entry. *)
Lemma add_two_ok done ks b k l1 l2 o1 o2 : build_ok done ks b -> k ∈ ks -> ~ done k -> object_ok o1 -> writable o1 -> l1 ⊆ o_fields o1 -> object_ok o2 -> writable o2 -> l2 ⊆ o_fields o2 ->
  exists b', (b ← add_inner k sfPreviousFields l1 b; add_inner k sfFinalFields l2 b) = Ok b' /\ build_ok (also done k) ks b' /\ b_table b' = b_table b /\ b_mods b' = b_mods b.
Proof.
  intros Hb Hk Hd Ho1 Hw1 Hl1 Ho2 Hw2 Hl2.
  destruct (add_inner_ok (until done) (stage1 done k) done ks b k sfPreviousFields l1 o1) as (b1 & -> & Hb1 & T1 & M1); try done; [left| | | |].
  - intros n Hn. apply Hn; [done|]. left.
  - intros n n' Hn Hp. unfold stage1. rewrite decide_True by done. rewrite Hp by done. apply Hn; [done|]. right. left.
  - intros j n Hj Hn. unfold stage1. by rewrite decide_False.
  - cbn [mbind res_bind]. destruct (add_inner_ok (stage1 done k) (stage2 done k) done ks b1 k sfFinalFields l2 o2) as (b2 & -> & Hb2 & T2 & M2); try done; [right; left| | | |].
    + intros n. unfold stage1. by rewrite decide_True.
    + intros n n' _ _. unfold stage2. by rewrite decide_True.
    + intros j n Hj. unfold stage1, stage2. by rewrite !decide_False.
    + exists b2. split; [done|]. split; [apply finish_ok; [done|]; by left|]. split; congruence.
Qed.

Lemma deref_ok Q done ks b k a p : build_with Q done ks b -> as_items t !! k = Some (a, p) ->
  exists s s', as_heap t !! p = Some s /\ deref p (b_table b) = Ok s' /\ threaded txid seq s s' /\ entry_fine k s'.
Proof.
  intros Hb Hi. destruct (Hwf _ _ Hi) as (s & Hs & _). destruct (bo_heap _ _ _ _ Hb _ _ Hs) as (s' & Hs' & Hth). cbn in Hs'. exists s, s'. unfold deref. rewrite Hs'.
  split; [done|]. split; [done|]. split; [done|]. eapply entry_fine_threaded; [|done]. by eapply Ht.
Qed.

Lemma sle_object s : sle_ok s -> object_ok (sle_data s).
Proof. intros H. by apply sle_ok_templated. Qed.

Lemma thread_self_ok done ks b k a p s : build_ok done ks b -> as_items t !! k = Some (a, p) -> a <> Act_cache -> deref p (b_table b) = Ok s -> sle_ok s ->
  exists ks' b', (if isThreadedType s then threadItem (In_table p) b else Ok b) = Ok b' /\ build_ok done ks' b' /\ ks ⊆ ks' /\ grows [] b b' /\ (isThreadedType s = true -> tmark b' p).
Proof.
  intros Hb Hi Ha Hs Hok. destruct (isThreadedType s) eqn:E; [|exists ks, b; split_and!; try done; by apply grows_same]. destruct (threadItem_ok done ks b k (In_table p)) as (ks' & b' & E' & Hb' & S & Hef); [done|by exists a| |].
  - cbn. intros s' Hs'. rewrite Hs in Hs'. injection Hs' as <-. by apply isThreadedType_threadable.
  - destruct (effect_table p b b' [] Hef). by exists ks', b'.
Qed.

(** Threading does not change the type of an entry. *)
Lemma isThreadedType_threaded s s' : sle_ok s -> sle_ok s' -> threaded txid seq s s' -> isThreadedType s' = isThreadedType s.
Proof.
  intros (x & F & E & _) (x' & F' & E' & _) Hth. unfold isThreadedType, getFieldIndex. destruct (threaded_type _ _ _ _ Hth) as [T _]. rewrite E, E'. rewrite T in F'. assert (x' = x) as -> by congruence. done.
Qed.

Lemma held_ok k a p s : as_items t !! k = Some (a, p) -> as_heap t !! p = Some s -> sle_ok s.
Proof. intros Hi Hs. by destruct (Ht _ _ _ _ Hi Hs) as (_ & ? & _). Qed.

Lemma changes_item k a p : as_items t !! k = Some (a, p) -> a <> Act_cache -> changes k.
Proof. intros. by exists a, p. Qed.

Lemma record_erase_ok done ks b k p : build_ok done ks b -> as_items t !! k = Some (Act_erase, p) -> ~ done k ->
  exists ks' b', record_item sha512Half base (k, (Act_erase, p)) b = Ok b' /\ build_ok (also done k) ks' b' /\ grows (owned_by k) b b' /\ linked b' k.
Proof.
  intros Hb Hi Hd. cbn [record_item]. rewrite read_orig. destruct (deref_ok _ _ _ _ _ _ _ Hb Hi) as (s & s1 & Hs & -> & Hth1 & (_ & Hok1 & _ & _)). cbn [mbind res_bind].
  destruct (entry_type_read s1 Hok1) as [nt ->]. cbn [mbind res_bind].
  destruct (setAffectedNode_ok done ks b k sfDeletedNode nt Hb (changes_item _ _ _ Hi ltac:(done))) as (k1 & m1 & -> & Hb1 & Hin1 & S1). cbn [mbind res_bind].
  destruct (Hwf _ _ Hi) as (_ & _ & _ & [orig Horig]). rewrite Horig. destruct (Hm _ _ Horig) as (_ & Hoko & Hwo & _).
  destruct (threadOwners_ok done k1 _ orig Hb1 Hoko) as (k2 & b2 & -> & Hb2 & S2 & G2 & R2). cbn [mbind res_bind].
  destruct (deref_ok _ _ _ _ _ _ _ Hb2 Hi) as (s' & s2 & Hs' & -> & Hth2 & (_ & Hok2 & Hw2 & _)). cbn [mbind res_bind].
  destruct (add_two_ok done k2 b2 k (previous_fields (sle_data orig) (sle_data s2)) (final_fields (Z.lor sMD_Always sMD_DeleteFinal) (sle_data s2)) (sle_data orig) (sle_data s2)) as (b3 & E & Hb3 & T3 & M3);
    [done|by apply S2|done|by apply sle_object|done|apply filter_sub|by apply sle_object|done|apply filter_sub|].
  exists k2, b3. split; [done|]. split; [done|]. unfold linked, owned_by. rewrite Hi, Horig. pose proof (grows_same [] b2 b3 T3 M3) as G3.
  split; [eapply grows_trans; [by apply (grows_same _ b (with_meta b m1))|]; eapply grows_trans; [exact G2|by apply grows_same]|]. split; [|done]. intros j Hj. eapply at_rest_grows; [exact G3|by apply R2].
Qed.

Lemma record_modify_ok done ks b k p : build_ok done ks b -> as_items t !! k = Some (Act_modify, p) -> ~ done k ->
  exists ks' b', record_item sha512Half base (k, (Act_modify, p)) b = Ok b' /\ build_ok (also done k) ks' b' /\ grows (owned_by k) b b' /\ linked b' k.
Proof.
  intros Hb Hi Hd. cbn [record_item]. rewrite read_orig. destruct (deref_ok _ _ _ _ _ _ _ Hb Hi) as (s & s1 & Hs & Hd1 & Hth1 & (_ & Hok1 & _ & _)). rewrite Hd1. cbn [mbind res_bind].
  destruct (Hwf _ _ Hi) as (_ & _ & _ & [orig Horig]). rewrite Horig. destruct (Hm _ _ Horig) as (_ & Hoko & Hwo & _). unfold linked, owned_by. rewrite Hi.
  destruct (object_eq (sle_data s1) (sle_data orig)) eqn:Heq.
  { exists ks, b. split; [done|]. split; [eapply build_weaken; [exact Hb| |]|].
    - intros j n _ H Hnd. apply H. intros ?. apply Hnd. by left.
    - intros j [Hj| ->] _; [by left|]. right. right. by exists p, s, s1, orig.
    - split; [by apply grows_same|]. split; [by intros j []%elem_of_nil|]. intros x Hx _. assert (x = s) as -> by congruence. right. by exists s1, orig. }
  destruct (entry_type_read s1 Hok1) as [nt ->]. cbn [mbind res_bind].
  destruct (setAffectedNode_ok done ks b k sfModifiedNode nt Hb (changes_item _ _ _ Hi ltac:(done))) as (k1 & m1 & -> & Hb1 & Hin1 & S1). cbn [mbind res_bind].
  destruct (thread_self_ok done k1 _ k Act_modify p s1 Hb1 Hi ltac:(done) Hd1 Hok1) as (k2 & b2 & -> & Hb2 & S2 & G2 & M2). cbn [mbind res_bind].
  destruct (deref_ok _ _ _ _ _ _ _ Hb2 Hi) as (s' & s2 & Hs' & -> & Hth2 & (_ & Hok2 & Hw2 & _)). cbn [mbind res_bind].
  destruct (add_two_ok done k2 b2 k (previous_fields (sle_data orig) (sle_data s2)) (final_fields (Z.lor sMD_Always sMD_ChangeNew) (sle_data s2)) (sle_data orig) (sle_data s2)) as (b3 & E & Hb3 & T3 & B3);
    [done|by apply S2|done|by apply sle_object|done|apply filter_sub|by apply sle_object|done|apply filter_sub|].
  exists k2, b3. split; [done|]. split; [done|]. pose proof (grows_same [] b2 b3 T3 B3) as G3.
  split; [eapply grows_trans; [by apply (grows_same _ b (with_meta b m1))|]; by eapply grows_trans|]. split; [by intros j []%elem_of_nil|]. intros x Hx Hty. assert (x = s) as -> by congruence. left.
  apply G3, M2. rewrite (isThreadedType_threaded s s1) by (done || by eapply held_ok). done.
Qed.

Lemma record_insert_ok done ks b k p : build_ok done ks b -> as_items t !! k = Some (Act_insert, p) -> ~ done k ->
  exists ks' b', record_item sha512Half base (k, (Act_insert, p)) b = Ok b' /\ build_ok (also done k) ks' b' /\ grows (owned_by k) b b' /\ linked b' k.
Proof.
  intros Hb Hi Hd. cbn [record_item]. destruct (deref_ok _ _ _ _ _ _ _ Hb Hi) as (s & s1 & Hs & Hd1 & Hth1 & (_ & Hok1 & _ & _)). rewrite Hd1. cbn [mbind res_bind].
  destruct (entry_type_read s1 Hok1) as [nt ->]. cbn [mbind res_bind].
  destruct (setAffectedNode_ok done ks b k sfCreatedNode nt Hb (changes_item _ _ _ Hi ltac:(done))) as (k1 & m1 & -> & Hb1 & Hin1 & S1). cbn [mbind res_bind].
  destruct (threadOwners_ok done k1 _ s1 Hb1 Hok1) as (k2 & b2 & -> & Hb2 & S2 & G2 & R2). cbn [mbind res_bind]. rewrite (owners_threaded _ _ _ _ Hth1) in G2, R2.
  destruct (deref_ok _ _ _ _ _ _ _ Hb2 Hi) as (s' & s2 & Hs' & Hd2 & Hth2 & (_ & Hok2 & Hw2 & _)). assert (s' = s) as -> by congruence. pose proof (held_ok _ _ _ _ Hi Hs) as Hok.
  rewrite (isThreadedType_threaded s s1 Hok Hok1 Hth1), <-(isThreadedType_threaded s s2 Hok Hok2 Hth2). destruct (thread_self_ok done k2 b2 k Act_insert p s2 Hb2 Hi ltac:(done) Hd2 Hok2) as (k3 & b3 & -> & Hb3 & S3 & G3 & M3). cbn [mbind res_bind].
  destruct (deref_ok _ _ _ _ _ _ _ Hb3 Hi) as (s'' & s3 & Hs'' & -> & Hth3 & (_ & Hok3 & Hw3 & _)). cbn [mbind res_bind]. assert (Hin3 : k ∈ k3) by by apply S3, S2.
  destruct (add_inner_ok (until done) (stage2 done k) done k3 b3 k sfNewFields (new_fields (sle_data s3)) (sle_data s3)) as (b4 & -> & Hb4 & T4 & B4);
    [done|done|by apply sle_object|done|apply filter_sub|right; right; left| | | |].
  - intros n Hn. apply Hn; [done|]. right. right. left.
  - intros n n' _ _. unfold stage2. by rewrite decide_True.
  - intros j n Hj Hn. unfold stage2. by rewrite decide_False.
  - exists k3, b4. split; [done|]. split; [apply finish_ok; [done|by left]|]. unfold linked, owned_by. rewrite Hi, Hs. pose proof (grows_same [] b3 b4 T4 B4) as G4. pose proof (grows_trans _ _ _ _ G3 G4) as G5.
    split; [eapply grows_trans; [by apply (grows_same _ b (with_meta b m1))|]; eapply grows_trans; [exact G2|eapply grows_mono; [|exact G5]; set_solver]|].
    split; [intros j Hj; eapply at_rest_grows; [exact G5|by apply R2]|]. intros x Hx Hty. assert (x = s) as -> by congruence. apply G4, M3. by rewrite (isThreadedType_threaded s s2).
Qed.

Lemma record_item_ok done ks b k item : build_ok done ks b -> as_items t !! k = Some item -> ~ done k ->
  exists ks' b', record_item sha512Half base (k, item) b = Ok b' /\ build_ok (also done k) ks' b' /\ grows (owned_by k) b b' /\ linked b' k.
Proof.
  intros Hb Hi Hd. destruct item as [[] p]; [|exact (record_erase_ok done ks b k p Hb Hi Hd)|exact (record_insert_ok done ks b k p Hb Hi Hd)|exact (record_modify_ok done ks b k p Hb Hi Hd)].
  exists ks, b. split; [done|]. split; [eapply build_weaken; [exact Hb| |]|split; [by apply grows_same|]].
  - intros j n _ H Hnd. apply H. intros ?. apply Hnd. by left.
  - intros j [Hj| ->] (a & q & Hq & Ha); [by left|]. congruence.
  - unfold linked, owned_by. rewrite Hi. by split; [intros j []%elem_of_nil|].
Qed.

Lemma threads_step done b b' k : threads_done done b -> grows (owned_by k) b b' -> linked b' k -> threads_done (also done k) b'.
Proof.
  intros [H1 H2] Hg Hl. split; [intros j [Hj| ->]; [eapply linked_grows; [exact Hg|by apply H1]|done]|]. intros j s Hs. destruct Hg as (_ & _ & A3). destruct (A3 j s Hs) as [(s0 & H0 & M0)|[Hj M0]].
  - destruct (H2 j s0 H0). auto.
  - split; [done|]. by exists k.
Qed.

Lemma record_items_ok l : forall dn ks b, build_ok dn ks b -> threads_done dn b -> NoDup l.*1 -> (forall k i, (k, i) ∈ l -> as_items t !! k = Some i /\ ~ dn k) ->
  exists done' ks' b', for_each (record_item sha512Half base) l b = Ok b' /\ build_ok done' ks' b' /\ threads_done done' b' /\ (forall k, dn k \/ k ∈ l.*1 -> done' k).
Proof.
  induction l as [|[k i] l IH]; intros dn ks b Hb Htd Hn Hl; [exists dn, ks, b; split; [done|]; split; [done|]; split; [done|]; by intros k [|?%elem_of_nil]|].
  cbn [fmap list_fmap fst] in Hn. apply NoDup_cons in Hn as [Hk Hn]. destruct (Hl k i) as [Hi Hd]; [left|]. destruct (record_item_ok dn ks b k i Hb Hi Hd) as (k1 & b1 & E1 & Hb1 & G1 & L1).
  destruct (IH (also dn k) k1 b1 Hb1 (threads_step _ _ _ _ Htd G1 L1) Hn) as (d2 & k2 & b2 & E2 & Hb2 & Ht2 & Hsub).
  - intros j x Hj. destruct (Hl j x) as [Hx Hdx]; [by right|]. split; [done|]. intros [?| ->]; [done|]. apply Hk. by apply (list_elem_of_fmap_2 fst l (k, x)).
  - exists d2, k2, b2. cbn [for_each]. rewrite E1. split; [done|]. split; [done|]. split; [done|]. intros j Hj. apply Hsub. cbn [fmap list_fmap fst] in Hj. destruct Hj as [Hj|[->|Hj]%elem_of_cons]; [left; by left|left; by right|by right].
Qed.

Lemma build_meta_ok : exists ks b, build_meta sha512Half info base t txid deliver = Ok b /\ build_ok (fun _ => True) ks b /\ threads_done (fun _ => True) b.
Proof.
  unfold build_meta. set (b0 := mkBuild t _ _). assert (H0 : build_ok (fun _ => False) [] b0).
  { split; [done|done| | | | | |done].
    - intros p s Hs. exists s. split; [done|by left].
    - intros k s'. cbn. by rewrite lookup_empty.
    - cbn. by destruct deliver.
    - cbn. destruct deliver; (split; [constructor|constructor]).
    - by intros k Hk%elem_of_nil. }
  destruct (record_items_ok (in_order (as_items t)) (fun _ => False) [] b0 H0) as (d & ks & b & E & Hb & Htd & Hd); [split; [done|]; intros k s Hs; cbn in Hs; by rewrite lookup_empty in Hs|apply in_order_NoDup|intros k i Hk%elem_of_in_order; auto|].
  exists ks, b. split; [exact E|]. split; [eapply build_weaken; [exact Hb| |]|].
  - intros j n Hj Hn Hnd. by destruct Hnd.
  - intros j _ (a & p & Hi & _). left. apply Hd. right. apply (list_elem_of_fmap_2 fst _ (j, (a, p))). by apply elem_of_in_order.
  - destruct Htd as [T1 T2]. split; [|done]. intros j _. destruct (as_items t !! j) as [i|] eqn:Ei; [apply T1, Hd; right; apply (list_elem_of_fmap_2 fst _ (j, i)); by apply elem_of_in_order|].
    unfold linked, owned_by. rewrite Ei. by split; [intros k []%elem_of_nil|].
Qed.

(** ** The metadata can be written *)

Lemma insert_by_elem {A} (key : A -> Z) x l y : y ∈ insert_by key x l <-> y = x \/ y ∈ l.
Proof.
  induction l as [|z l IH]; cbn [insert_by]; [rewrite list_elem_of_singleton; split; [auto|intros [?|?%elem_of_nil]; done]|].
  destruct (key x <=? key z); rewrite ?elem_of_cons, ?IH; [done|]. naive_solver.
Qed.

Lemma sort_by_elem {A} (key : A -> Z) l y : y ∈ sort_by key l <-> y ∈ l.
Proof. induction l as [|x l IH]; [done|]. cbn [sort_by foldr]. rewrite insert_by_elem, elem_of_cons. by rewrite <-IH. Qed.

Lemma array_Ok l : (forall n, n ∈ l -> object_ok n.2 /\ writable n.2) -> exists bs, add_value (V_Array (map (fun n : SField * Object => (n.1, o_fields n.2)) l)) = Ok bs.
Proof.
  intros Hl. cbn [add_value]. destruct (mapR_Ok (fun fo : SField * Fields => let (f, fields) := fo in es ← mapR (encode_with add_value true) fields;
    Ok (addFieldID (sti_code (fieldType f)) (fieldValue f) [] ++ emit_sorted es ++ addFieldID (sti_code STI_OBJECT) 1 [])) (map (fun n : SField * Object => (n.1, o_fields n.2)) l)) as [bss ->]; [|by eexists].
  intros a (n & -> & Hn)%list_elem_of_fmap. destruct (Hl n Hn) as [Ho Hw]. destruct (fields_Ok true n.2 Ho Hw (o_fields n.2) ltac:(done)) as [es ->]. by eexists.
Qed.

Lemma addRaw_ok done ks b ter index : build_ok done ks b -> exists bs, addRaw (b_meta b) ter index = Ok bs.
Proof.
  intros Hb. pose proof (bo_nodes _ _ _ _ Hb) as [_ Hl]. unfold addRaw. set (nodes := sort_by node_index (mNodes (b_meta b))).
  destruct (array_Ok nodes) as [bs Hbs].
  { intros n Hn%sort_by_elem. apply list_elem_of_lookup in Hn as [i Hi]. destruct (Forall2_lookup_r _ _ _ _ _ Hl Hi) as (k & _ & (Ho & _ & _ & Hw) & _). done. }
  unfold getAsObject. cbn [mResult mIndex mDelivered mNodes].
  assert (Hfields : forall fs : Fields, (forall fv, fv ∈ fs -> exists bs, add_value fv.2 = Ok bs) -> exists bs, add_object true fs = Ok bs).
  { intros fs Hfs. unfold add_object. destruct (mapR_Ok (encode true) fs) as [es ->]; [|by eexists]. intros fv Hfv. destruct (Hfs fv Hfv) as [x Hx]. by eapply encode_Ok. }
  change (setFieldU8 empty_object sfTransactionResult (ter mod 256)) with (Ok (mkObject [(sfTransactionResult, V_UInt8 (ter mod 256))] None) : res Object). cbn [mbind res_bind].
  change (setFieldU32 (mkObject [(sfTransactionResult, V_UInt8 (ter mod 256))] None) sfTransactionIndex index)
    with (Ok (mkObject [(sfTransactionResult, V_UInt8 (ter mod 256)); (sfTransactionIndex, V_UInt32 index)] None) : res Object). cbn [mbind res_bind emplace_back snd o_fields o_type app].
  set (arr := V_Array _) in *. destruct (mDelivered (b_meta b)) as [a|].
  - change (setFieldAmount (mkObject [(sfTransactionResult, V_UInt8 (ter mod 256)); (sfTransactionIndex, V_UInt32 index); (sfAffectedNodes, arr)] None) sfDeliveredAmount a)
      with (Ok (mkObject [(sfTransactionResult, V_UInt8 (ter mod 256)); (sfTransactionIndex, V_UInt32 index); (sfAffectedNodes, arr); (sfDeliveredAmount, V_Amount a)] None) : res Object).
    cbn [mbind res_bind o_fields]. apply Hfields. intros fv. rewrite !elem_of_cons. intros [->|[->|[->|[->|[]%elem_of_nil]]]]; by eexists.
  - cbn [mbind res_bind o_fields]. apply Hfields. intros fv. rewrite !elem_of_cons. intros [->|[->|[->|[]%elem_of_nil]]]; by eexists.
Qed.
End Build.

(** ** The open view *)

#[export] Instance Action_eq_dec : EqDecision Action.
Proof. solve_decision. Defined.

Definition ov_denotes (m0 : gmap Z (SLE Object)) (txs : gmap Z (list Z * option (list Z))) (v : OpenView) (mm : gmap Z (SLE Object)) (d : Z) : Prop :=
  raw_denotes m0 (ov_items v) mm d /\ ov_txs v = txs.

#[export] Instance OpenView_laws m0 txs : RawViewLaws Object OpenView (ov_denotes m0 txs).
Proof.
  split; intros v mm d s [Hr Ht]; cbn [rawErase rawInsert rawReplace rawDestroySFC OpenView_raw]; unfold with_raw.
  - intros Hs. destruct (rawErase_spec (denotes := raw_denotes m0) (ov_items v) mm d s Hr Hs) as (x & E & Hx). cbn in E. rewrite E. eexists. split; [done|]. by split.
  - intros Hs. destruct (rawInsert_spec (denotes := raw_denotes m0) (ov_items v) mm d s Hr Hs) as (x & E & Hx). cbn in E. rewrite E. eexists. split; [done|]. by split.
  - intros Hs. destruct (rawReplace_spec (denotes := raw_denotes m0) (ov_items v) mm d s Hr Hs) as (x & E & Hx). cbn in E. rewrite E. eexists. split; [done|]. by split.
  - split; [|done]. exact (rawDestroySFC_spec (T := RawStateTable Object) (denotes := raw_denotes m0) (ov_items v) mm d s Hr).
Qed.

(** ** Writing the changes out *)

Section Commit.
Context (sha512Half : list Z -> Z) (info : ViewInfo) (m : gmap Z (SLE Object)) (t : ApplyStateTable Object) (txid : Z) (deliver : option STAmount).
Context (Hm : map_fine sha512Half m) (Ht : table_fine sha512Half t) (Hwf : as_wf t m).
Context {T : Type} `{!RawView Object T} (denotes : T -> gmap Z (SLE Object) -> Z -> Prop) `{!RawViewLaws Object T denotes}.
Context (ks : list Z) (b : Build) (Hb : build_with info m t txid deliver (until (fun _ => True)) (fun _ => True) ks b).

(** The ledger with the copies that were threaded. *)
Definition with_mods : gmap Z (SLE Object) := b_mods b ∪ m.

Lemma with_mods_lookup k : with_mods !! k = match b_mods b !! k with Some s => Some s | None => m !! k end.
Proof. unfold with_mods. rewrite lookup_union. by destruct (b_mods b !! k), (m !! k). Qed.

Lemma write_mods to d : denotes to m d -> exists to', for_each (fun x : Z * SLE Object => rawReplace x.2) (in_order (b_mods b)) to = Ok to' /\ denotes to' with_mods d.
Proof.
  intros Hto. destruct (flush_spec denotes (b_mods b) Some m (fun x : Z * SLE Object => rawReplace x.2) to d) as (to' & E & Hd); [|done|].
  - intros k s to1 mm d1 Hs Hmm Hd. destruct (bo_mods _ _ _ _ _ _ _ _ _ Hb _ _ Hs) as [(s0 & H0 & Hth) _]. destruct (threaded_type _ _ _ _ Hth) as [_ Hk]. destruct (Hm _ _ H0) as (Hk0 & _).
    rewrite Hk0 in Hk. cbn [snd]. rewrite <-Hk in *. apply rawReplace_spec; [done|]. rewrite Hmm, H0. by eexists.
  - exists to'. split; [done|]. replace with_mods with (overlay (b_mods b) Some m); [done|]. apply map_eq. intros k. by rewrite overlay_lookup, with_mods_lookup.
Qed.

(** The table as it would be with its cached entries read again. *)
Definition recached (s : SLE Object) : SLE Object :=
  match as_items t !! sle_key s with Some (Act_cache, _) => default s (with_mods !! sle_key s) | _ => s end.
Definition recached_table : ApplyStateTable Object := mkApply (as_items t) (recached <$> as_heap (b_table b)) (as_dropsDestroyed t).

Lemma heap_after k a p : as_items t !! k = Some (a, p) -> exists s s', as_heap t !! p = Some s /\ as_heap (b_table b) !! p = Some s' /\ threaded txid (ledger_seq info) s s' /\ sle_key s' = k.
Proof.
  intros Hi. destruct (Hwf _ _ Hi) as (s & Hs & Hk & _). cbn in Hs. destruct (bo_heap _ _ _ _ _ _ _ _ _ Hb _ _ Hs) as (s' & Hs' & Hth). exists s, s'. destruct (threaded_type _ _ _ _ Hth) as [_ Hk'].
  repeat split; try done. congruence.
Qed.

Lemma recached_lookup k a p : as_items t !! k = Some (a, p) -> exists s', as_heap (b_table b) !! p = Some s' /\
  as_heap recached_table !! p = Some (if decide (a = Act_cache) then default s' (with_mods !! k) else s').
Proof.
  intros Hi. destruct (heap_after k a p Hi) as (s & s' & _ & Hs' & _ & Hk). exists s'. split; [done|]. cbn. rewrite lookup_fmap, Hs'. cbn. unfold recached. rewrite Hk, Hi. by destruct a.
Qed.

Lemma for_each_ext {A U} (f g : A -> U -> res U) l : (forall a u, a ∈ l -> f a u = g a u) -> forall u, for_each f l u = for_each g l u.
Proof.
  induction l as [|a l IH]; intros Hfg u; [done|]. cbn. rewrite (Hfg a u) by left. destruct (g a u); cbn; [|done]. apply IH. intros x y Hx. apply Hfg. by right.
Qed.

Lemma apply_recached (to : T) : as_apply (b_table b) to = as_apply recached_table to.
Proof.
  unfold as_apply. rewrite (bo_items _ _ _ _ _ _ _ _ _ Hb), (bo_drops _ _ _ _ _ _ _ _ _ Hb). apply for_each_ext. intros [k [a p]] u Hin%elem_of_in_order.
  destruct (recached_lookup k a p Hin) as (s' & Hs' & Hr). unfold as_apply_item. cbn [fst snd]. rewrite Hs', Hr. by destruct a.
Qed.

Lemma recached_wf : as_wf recached_table with_mods.
Proof.
  intros k [a p] Hi. cbn in Hi. destruct (recached_lookup k a p Hi) as (s' & Hs' & Hr). destruct (heap_after k a p Hi) as (s & s2 & Hs & Hs2 & Hth & Hk). rewrite Hs' in Hs2. injection Hs2 as <-.
  destruct (Hwf _ _ Hi) as (s3 & Hs3 & Hk3 & Ha). cbn in Hs3, Ha. assert (Hw := with_mods_lookup k).
  assert (Hno : a <> Act_cache -> with_mods !! k = m !! k).
  { intros Hac. rewrite Hw. destruct (b_mods b !! k) eqn:E; [|done]. destruct (bo_mods _ _ _ _ _ _ _ _ _ Hb _ _ E) as [_ Hc]. destruct Hc. by exists a, p. }
  assert (Hcached : m !! k = Some s3 -> exists v, with_mods !! k = Some v /\ sle_key v = k).
  { intros H3. rewrite Hw. destruct (b_mods b !! k) as [sm|] eqn:E; [|by exists s3]. exists sm. split; [done|]. destruct (bo_mods _ _ _ _ _ _ _ _ _ Hb _ _ E) as [(s0 & H0 & Hth0) _].
    destruct (threaded_type _ _ _ _ Hth0) as [_ ->]. by destruct (Hm _ _ H0) as (-> & _). }
  unfold as_item_wf. cbn [fst snd]. destruct a.
  - destruct (Hcached Ha) as (v & Hv & Hkv). rewrite decide_True, Hv in Hr by done. exists v. done.
  - rewrite decide_False in Hr by done. exists s'. rewrite Hno by done. done.
  - rewrite decide_False in Hr by done. exists s'. rewrite Hno by done. done.
  - rewrite decide_False in Hr by done. exists s'. rewrite Hno by done. done.
Qed.

(** What is in the end under a key. *)
Lemma final_lookup k : option_Forall2 (threaded txid (ledger_seq info)) (as_overlay t m !! k) (as_overlay recached_table with_mods !! k).
Proof.
  assert (Hbase : option_Forall2 (threaded txid (ledger_seq info)) (m !! k) (with_mods !! k)).
  { rewrite with_mods_lookup. destruct (b_mods b !! k) as [s'|] eqn:E; [|destruct (m !! k); constructor; by left].
    destruct (bo_mods _ _ _ _ _ _ _ _ _ Hb _ _ E) as [(s & -> & Hth) _]. by constructor. }
  rewrite !as_overlay_lookup. cbn [recached_table as_items]. destruct (as_items t !! k) as [[a p]|] eqn:Hi; [|done].
  destruct (recached_lookup k a p Hi) as (s' & Hs' & Hr). destruct (heap_after k a p Hi) as (s & s2 & Hs & Hs2 & Hth & Hk). rewrite Hs' in Hs2. injection Hs2 as <-.
  destruct (Hwf _ _ Hi) as (s3 & Hs3 & Hk3 & Ha). cbn in Hs3, Ha. unfold as_shown. cbn [snd]. destruct a; cbn [as_erased fst]; rewrite ?Hr, ?Hs.
  - rewrite decide_True by done. cbn in Ha. assert (s3 = s) as -> by congruence. rewrite Ha in Hbase. by inversion Hbase; subst; cbn; constructor.
  - constructor.
  - by constructor.
  - by constructor.
Qed.

Lemma write_out to d : denotes to m d -> exists to1 to2, for_each (fun x : Z * SLE Object => rawReplace x.2) (in_order (b_mods b)) to = Ok to1 /\ denotes to1 with_mods d /\
  as_apply (b_table b) to1 = Ok to2 /\ denotes to2 (as_overlay recached_table with_mods) (d + as_dropsDestroyed t).
Proof.
  intros Hto. destruct (write_mods to d Hto) as (to1 & E1 & H1). destruct (as_apply_spec denotes recached_table with_mods (as_overlay recached_table with_mods) to1 d (as_dropsDestroyed t)) as (to2 & E2 & H2); [|done|].
  - split; [apply recached_wf|done].
  - exists to1, to2. split; [done|]. split; [done|]. rewrite apply_recached. done.
Qed.
End Commit.

(** ** The theorem *)

Lemma raw_tx_insert to key txn meta : txExists to key = false -> rawTxInsert key txn meta to = Ok (mkOpen (ov_items to) (<[ key := (txn, meta) ]> (ov_txs to))).
Proof. intros H. unfold rawTxInsert. by rewrite H. Qed.

(** What the metadata of a transaction lists: nodes for different entries, among them
    every entry the table changes, unless to what it was; and no others but account
    roots that were threaded because they own an entry that is created or deleted. *)
Definition lists_changes (sha512Half : list Z -> Z) (info : ViewInfo) (m final : gmap Z (SLE Object)) (t : ApplyStateTable Object) (txid : Z) (meta : TxMeta) : Prop :=
  exists ks, NoDup ks /\ Forall2 (fun k n => getFieldH256 n.2 sfLedgerIndex = Ok k) ks (mNodes meta) /\
    (forall k, changes t k -> recorded info m t txid ks k) /\
    (forall k, k ∈ ks -> changes t k \/ exists j s s', k ∈ owned_by sha512Half m t j /\ m !! k = Some s /\ final !! k = Some s' /\
       sle_type s' = ltACCOUNT_ROOT /\ threaded txid (ledger_seq info) s s' /\ marked txid s').

(** What is threaded: the owners of every entry that is created or deleted, and every
    entry of a threaded type that is created or modified, unless to what it was; an entry
    that the table does not change and that owns none of those is as it was. *)
Definition threads_changes (sha512Half : list Z -> Z) (info : ViewInfo) (m final : gmap Z (SLE Object)) (t : ApplyStateTable Object) (txid : Z) : Prop :=
  (forall j k s, k ∈ owned_by sha512Half m t j -> final !! k = Some s -> marked txid s) /\
  (forall k p s s', as_items t !! k = Some (Act_insert, p) -> as_heap t !! p = Some s -> isThreadedType s = true -> final !! k = Some s' -> marked txid s') /\
  (forall k p s s', as_items t !! k = Some (Act_modify, p) -> as_heap t !! p = Some s -> isThreadedType s = true -> final !! k = Some s' -> marked txid s' \/
     exists s1 orig, m !! k = Some orig /\ threaded txid (ledger_seq info) s s1 /\ object_eq (sle_data s1) (sle_data orig) = true) /\
  (forall k, ~ changes t k -> (forall j, k ∉ owned_by sha512Half m t j) -> final !! k = m !! k).

Lemma final_mods (info : ViewInfo) m t txid deliver ks b k s : build_with info m t txid deliver (until (fun _ => True)) (fun _ => True) ks b -> as_wf t m ->
  b_mods b !! k = Some s -> as_overlay (recached_table m t b) (with_mods m b) !! k = Some s /\ exists s0, m !! k = Some s0 /\ threaded txid (ledger_seq info) s0 s.
Proof.
  intros Hb Hwf Hs. destruct (bo_mods _ _ _ _ _ _ _ _ _ Hb _ _ Hs) as [(s0 & H0 & Hth) Hc]. split; [|by exists s0]. rewrite as_overlay_lookup. cbn [recached_table as_items].
  assert (Hw : with_mods m b !! k = Some s) by (by rewrite with_mods_lookup, Hs).
  destruct (as_items t !! k) as [[a p]|] eqn:Hi; [|done]. destruct (decide (a = Act_cache)) as [->|Ha]; [|destruct Hc; by exists a, p].
  destruct (recached_lookup info m t txid deliver Hwf ks b Hb k Act_cache p Hi) as (s' & _ & Hr). rewrite decide_True, Hw in Hr by done. unfold as_shown. cbn [as_erased fst snd]. exact Hr.
Qed.

Section Final.
Context (sha512Half : list Z -> Z) (info : ViewInfo) (m : gmap Z (SLE Object)) (t : ApplyStateTable Object) (txid : Z) (deliver : option STAmount) (ks : list Z) (b : Build).
Context (Hb : build_with info m t txid deliver (until (fun _ => True)) (fun _ => True) ks b) (Hwf : as_wf t m) (Htd : threads_done sha512Half info m t txid (fun _ => True) b).
Abbreviation final := (as_overlay (recached_table m t b) (with_mods m b)).

(** An object of the table that the table changes ends up in the ledger as it is. *)
Lemma final_item k a p s : as_items t !! k = Some (a, p) -> a = Act_insert \/ a = Act_modify -> tmark txid b p -> final !! k = Some s -> marked txid s.
Proof.
  intros Hi Ha Hp Hs. rewrite as_overlay_lookup in Hs. cbn [recached_table as_items] in Hs. rewrite Hi in Hs. destruct (recached_lookup info m t txid deliver Hwf ks b Hb k a p Hi) as (s' & Hs' & Hr).
  rewrite decide_False in Hr by (destruct Ha as [-> | ->]; done). unfold as_shown in Hs. cbn [as_erased fst snd] in Hs.
  assert (Ea : as_heap (recached_table m t b) !! p = Some s) by (destruct Ha as [-> | ->]; exact Hs). rewrite Hr in Ea. injection Ea as <-. by apply Hp.
Qed.

Lemma final_rest k s : at_rest m t txid b k -> final !! k = Some s -> marked txid s.
Proof.
  intros [[s' Hs']|H] Hs.
  - destruct (final_mods info m t txid deliver ks b k s' Hb Hwf Hs') as [F _]. rewrite F in Hs. injection Hs as <-. by apply (proj2 Htd k).
  - pose proof Hs as Hs0. rewrite as_overlay_lookup in Hs. cbn [recached_table as_items] in Hs. destruct (as_items t !! k) as [[[] p]|] eqn:Hi.
    + destruct (Hwf _ _ Hi) as (s3 & _ & _ & Ha). cbn in Ha. congruence.
    + discriminate Hs.
    + by eapply final_item; [exact Hi|left| |].
    + by eapply final_item; [exact Hi|right| |].
    + rewrite with_mods_lookup in Hs. destruct (b_mods b !! k) as [x|] eqn:Ex; [|congruence]. injection Hs as ->. by apply (proj2 Htd k).
Qed.

Lemma final_threads : threads_changes sha512Half info m final t txid.
Proof.
  destruct Htd as [T1 T2]. split; [|split; [|split]].
  - intros j k s Hj. apply final_rest. by apply (T1 j I).
  - intros k p s s' Hi Hs Hty. destruct (T1 k I) as [_ H]. rewrite Hi in H. eapply final_item; [exact Hi|by left|by eapply H].
  - intros k p s s' Hi Hs Hty Hf. destruct (T1 k I) as [_ H]. rewrite Hi in H. destruct (H s Hs Hty) as [Hp|(s1 & orig & H1 & H2 & H3)]; [left|right; by exists s1, orig].
    by eapply final_item; [exact Hi|right| |].
  - intros k Hc Ho. assert (Em : b_mods b !! k = None). { destruct (b_mods b !! k) as [x|] eqn:Ex; [|done]. destruct (T2 k x Ex) as [_ [j Hj]]. by destruct (Ho j). }
    assert (Ew : with_mods m b !! k = m !! k) by by rewrite with_mods_lookup, Em. rewrite as_overlay_lookup. cbn [recached_table as_items]. destruct (as_items t !! k) as [[a p]|] eqn:Hi; [|done].
    destruct (decide (a = Act_cache)) as [->|Ha]; [|destruct Hc; by exists a, p]. destruct (recached_lookup info m t txid deliver Hwf ks b Hb k Act_cache p Hi) as (s' & _ & Hr).
    destruct (Hwf _ _ Hi) as (s3 & _ & _ & Ha). cbn in Ha. rewrite decide_True, Ew, Ha in Hr by done. unfold as_shown. cbn [as_erased fst snd]. by rewrite Hr.
Qed.
End Final.

(** C19. The end of a transaction. For a table of well-formed entries over a view,
    [apply_open] does not fail. In an open ledger the view then shows exactly what the
    table showed and holds the transaction. In a closed ledger it shows the same with
    some entries threaded to the transaction, that is, with their previous-transaction
    fields set to it and nothing else changed. These are the accounts that own an entry
    that is created or deleted, and the entries of a threaded type that are created or
    modified (unless to what they were); an entry that the table does not change and that
    is no such owner is as it was. The view holds the transaction with metadata that list
    every entry the table changed and, beyond these, only account roots that were
    threaded as owners. *)
Theorem apply_open_commits sha512Half info base m0 m t m' d' to d tx ter deliver sTx : ReadViewOf base m ->
  raw_denotes m0 (ov_items to) m d -> map_fine sha512Half m -> table_fine sha512Half t -> as_denotes m t m' d' ->
  txExists to (tid_ tx) = false -> add_object true (o_fields (tx_object tx)) = Ok sTx ->
  exists to' final, apply_open sha512Half info base t to tx ter deliver = Ok to' /\ raw_denotes m0 (ov_items to') final (d + d') /\
    if is_open info then final = m' /\ ov_txs to' = <[ tid_ tx := (sTx, None) ]> (ov_txs to)
    else (forall k, option_Forall2 (threaded (tid_ tx) (ledger_seq info)) (m' !! k) (final !! k)) /\
      exists meta sMeta, addRaw meta ter (txCount to) = Ok sMeta /\ ov_txs to' = <[ tid_ tx := (sTx, Some sMeta) ]> (ov_txs to) /\
        mTransactionID meta = tid_ tx /\ mDelivered meta = deliver /\ lists_changes sha512Half info m final t (tid_ tx) meta /\ threads_changes sha512Half info m final t (tid_ tx).
Proof.
  intros Hbase Hto Hm Ht (Hwf & <- & <-) Hnew Hser. unfold apply_open. rewrite Hser. cbn [mbind res_bind]. destruct (is_open info).
  - rewrite raw_tx_insert by done. cbn [mbind res_bind]. set (txs := <[ tid_ tx := (sTx, None) ]> (ov_txs to)).
    destruct (as_apply_spec (ov_denotes m0 txs) t m (as_overlay t m) (mkOpen (ov_items to) txs) d (as_dropsDestroyed t)) as (to' & E & [H1 H2]); [done|done|].
    exists to', (as_overlay t m). done.
  - destruct (build_meta_ok sha512Half info base m t (tid_ tx) deliver Hm Ht Hwf) as (ks & b & -> & Hb & Htd). cbn [mbind res_bind].
    destruct (write_mods sha512Half info m t (tid_ tx) deliver Hm (ov_denotes m0 (ov_txs to)) ks b Hb to d) as (to1 & -> & [H1 T1]); [done|]. cbn [mbind res_bind].
    destruct (addRaw_ok info m t (tid_ tx) deliver _ ks b ter (txCount to1) Hb) as [sMeta Hraw]. rewrite Hraw. cbn [mbind res_bind].
    rewrite raw_tx_insert by (unfold txExists in *; by rewrite T1). cbn [mbind res_bind]. rewrite T1. set (txs := <[ tid_ tx := (sTx, Some sMeta) ]> (ov_txs to)).
    set (final := as_overlay (recached_table m t b) (with_mods m b)).
    destruct (as_apply_spec (ov_denotes m0 txs) (recached_table m t b) (with_mods m b) final (mkOpen (ov_items to1) txs) d (as_dropsDestroyed t)) as (to2 & E & [H2 T2]).
    { split; [by eapply recached_wf|done]. } { done. }
    rewrite <-(apply_recached info m t (tid_ tx) deliver Hwf ks b Hb) in E. exists to2, final. split; [exact E|]. split; [done|]. split; [intros k; by eapply final_lookup|].
    exists (b_meta b), sMeta. destruct (bo_id _ _ _ _ _ _ _ _ _ Hb) as (I1 & _ & I2). split; [unfold txCount in *; by rewrite <-T1|]. split; [done|]. split; [done|]. split; [done|]. split; [|by apply (final_threads sha512Half info m t (tid_ tx) deliver ks b)].
    destruct (bo_nodes _ _ _ _ _ _ _ _ _ Hb) as [Hn Hl]. exists ks. split; [done|]. split; [eapply Forall2_impl; [exact Hl|]; intros k n [Hk _]; by apply node_index_read|].
    split; [intros k; by apply (bo_recorded _ _ _ _ _ _ _ _ _ Hb)|]. intros k Hk. destruct (bo_listed _ _ _ _ _ _ _ _ _ Hb k Hk) as [|[s Hs]]; [by left|right].
    destruct (final_mods info m t (tid_ tx) deliver ks b k s Hb Hwf Hs) as (F1 & s0 & F2 & F3). destruct (proj2 Htd k s Hs) as [Hmk [j Hj]].
    exists j, s0, s. split_and!; try done. destruct (threaded_type _ _ _ _ F3) as [-> _]. apply (Hm _ _ F2). unfold owned_by in Hj. repeat case_match; try (by apply elem_of_nil in Hj); apply list_elem_of_fmap in Hj as (x & -> & _); by exists x.
Qed.

(** ** Witness *)

(** Deciding that accounts are as a ledger holds them. *)
Definition account_fineb (ks : Z * SLE Object) : bool :=
  (sle_key ks.2 =? ks.1) && sle_okb ks.2 && (sle_type ks.2 =? ltACCOUNT_ROOT) &&
  forallb (fun fv : SField * STValue => match add_value fv.2 with Ok _ => true | Throw _ => false end) (o_fields (sle_data ks.2)).

Lemma account_fineb_ok sha512Half k s : account_fineb (k, s) = true -> entry_fine sha512Half k s.
Proof.
  unfold account_fineb. cbn [fst snd]. rewrite !andb_true_iff. intros [[[Hk%Z.eqb_eq Hok%sle_okb_ok] Ht%Z.eqb_eq] Hw]. split; [done|]. split; [done|]. split; [|done].
  intros f v Hp. rewrite ok_peek in Hp by by apply sle_object. destruct (index_of f _) as [i|]; [|done]. cbn in Hp. destruct (o_fields (sle_data s) !! i) as [[g w]|] eqn:E; [|done]. injection Hp as <-.
  rewrite forallb_forall in Hw. specialize (Hw (g, w) ltac:(apply list_elem_of_In; by eapply list_elem_of_lookup_2)). cbn in *. destruct (add_value w); [by eexists|done].
Qed.

Lemma map_fine_dec sha512Half mm : forallb account_fineb (map_to_list mm) = true -> map_fine sha512Half mm.
Proof. intros H k s Hs. rewrite forallb_forall in H. apply account_fineb_ok, H, list_elem_of_In, elem_of_map_to_list. done. Qed.

Definition table_fineb (t : ApplyStateTable Object) : bool :=
  forallb (fun i : Z * (Action * ptr) => match as_heap t !! i.2.2 with Some s => account_fineb (i.1, s) | None => true end) (map_to_list (as_items t)).

Lemma table_fine_dec sha512Half t : table_fineb t = true -> table_fine sha512Half t.
Proof.
  intros H k a p s Hi Hs. unfold table_fineb in H. rewrite forallb_forall in H. specialize (H (k, (a, p)) ltac:(apply list_elem_of_In; by apply elem_of_map_to_list)). cbn in H. rewrite Hs in H.
  by apply account_fineb_ok.
Qed.

(** The payment of [Invariants], applied to a closed ledger. *)
Lemma apply_open_commits_witness : exists t to' final,
  vo_run (ledger_view wbase) wpay as_empty = Ok t /\ apply_open wsum winfo (ledger_view wbase) t (mkOpen raw_empty ∅) wpayment tesSUCCESS None = Ok to' /\
  raw_denotes (stateMap wbase) (ov_items to') final (0 + 0) /\
  (forall k, option_Forall2 (threaded (tid_ wpayment) 7) (({[ 1 := waccount 1 890; 2 := waccount 2 150 ]} : gmap Z (SLE Object)) !! k) (final !! k)) /\
  threads_changes wsum winfo (stateMap wbase) final t (tid_ wpayment).
Proof.
  assert (Hb : ReadViewOf (ledger_view wbase) (stateMap wbase)) by (apply ledger_view_of; by vm_compute).
  assert (Hf : map_fine wsum (stateMap wbase)) by (apply map_fine_dec; by vm_compute).
  assert (Hk : keys_ok (stateMap wbase)) by (intros k s Hs; by apply Hf in Hs as (? & _)).
  destruct (vo_run_sim (ledger_view wbase) (stateMap wbase) Hk wpay as_empty (stateMap wbase) 0 {[ 1 := waccount 1 890; 2 := waccount 2 150 ]} 0) as (t & Hr & Hd);
    [apply as_empty_denotes|by vm_compute|]. exists t.
  assert (Hraw : raw_denotes (stateMap wbase) raw_empty (stateMap wbase) 0).
  { split; [apply map_Forall_empty|]. split; [|done]. apply map_eq. intros k. rewrite raw_overlay_lookup. cbn. by rewrite lookup_empty. }
  assert (Hser : exists bs, add_object true (o_fields (tx_object wpayment)) = Ok bs) by (vm_compute; by eexists). destruct Hser as [bs Hser].
  assert (Hnew : txExists (mkOpen raw_empty ∅) (tid_ wpayment) = false) by (unfold txExists; cbn [ov_txs]; by rewrite lookup_empty).
  assert (Ht : table_fine wsum t) by (apply table_fine_dec; vm_compute in Hr; injection Hr as <-; by vm_compute).
  destruct (apply_open_commits wsum winfo (ledger_view wbase) (stateMap wbase) (stateMap wbase) t _ 0 (mkOpen raw_empty ∅) 0 wpayment tesSUCCESS None bs Hb Hraw Hf Ht Hd Hnew Hser)
    as (to' & final & E & H1 & H2 & H3). exists to', final. split; [exact Hr|]. split; [exact E|]. split; [exact H1|]. split; [exact H2|]. destruct H3 as (meta & sMeta & _ & _ & _ & _ & _ & H4). exact H4.
Defined.
