(* ===== verification/OwnerDir.v ===== *)
(** * Directories in a ledger

    [ApplyView::dirAdd] and [ApplyView::dirRemove] of ledger/impl/ApplyView.cpp as
    programs on the entries of a ledger, with [describeOwnerDir] and the older
    [dirAdd] of ledger/impl/View.cpp. They are neutral: only pages of directories
    change. *)

From S2P Require Import Prelude Serializer Directory View RawStateTable ApplyStateTable STAmount SField STObject STAccess Indexes Formats Prog Invariants Entries.

Definition logic {A} (what : string) : prog A := Raise (logic_error what).

Section Dir.
Context (sha512Half : list Z -> Z).

Abbreviation page_of := (keylet_page_of sha512Half).

(** The fields of a new page. [describe] runs before the entries are set on the first
    page, and last on the others. *)
Definition first_page (directory : Keylet) (key : Z) (describe : Object -> res Object) (o : Object) : res Object :=
  o ← setFieldH256 o sfRootIndex (kl_key directory); o ← describe o; setFieldV256 o sfIndexes [key].

Definition next_page (directory : Keylet) (key page : Z) (describe : Object -> res Object) (o : Object) : res Object :=
  o ← setFieldH256 o sfRootIndex (kl_key directory);
  o ← setFieldV256 o sfIndexes [key];
  o ← (if negb (page =? 1) then setFieldU64 o sfIndexPrevious (page - 1) else Ok o);
  describe o.

Definition view_dirAdd (preserveOrder : bool) (directory : Keylet) (key : Z) (describe : Object -> res Object) : prog (option Z) :=
  root ← peek directory;
  match root with
  | None => _ ← insert_new directory (first_page directory key describe); mret (Some 0)
  | Some root =>
      page ← liftR (getFieldU64 (sle_data root) sfIndexPrevious);
      let nk := if page =? 0 then directory else page_of directory page in
      node ← peek nk;
      match node with
      | None => logic "Directory chain: root back-pointer broken."
      | Some node =>
          indexes ← liftR (getFieldV256 (sle_data node) sfIndexes);
          if (length indexes <? dirNodeMaxEntries)%nat then
            indexes ← liftR (add_to_page preserveOrder key indexes);
            _ ← modify nk (fun o => setFieldV256 o sfIndexes indexes);
            mret (Some page)
          else
            let page := u64 (page + 1) in
            if dirNodeMaxPages <=? page then mret None else
            _ ← modify nk (fun o => setFieldU64 o sfIndexNext page);
            _ ← modify directory (fun o => setFieldU64 o sfIndexPrevious page);
            _ ← insert_new (page_of directory page) (next_page directory key page describe);
            mret (Some page)
      end
  end.

(** The root page has become empty. *)
Definition view_remove_from_root (directory : Keylet) (prevPage nextPage : Z) (keepRoot : bool) : prog bool :=
  if (nextPage =? 0) && negb (prevPage =? 0) then logic "Directory chain: fwd link broken" else
  if (prevPage =? 0) && negb (nextPage =? 0) then logic "Directory chain: rev link broken" else
  '(prevPage, nextPage) ←
    (if (nextPage =? prevPage) && negb (nextPage =? 0) then
       last ← peek (page_of directory nextPage);
       match last with
       | None => logic "Directory chain: fwd link broken."
       | Some last =>
           entries ← liftR (getFieldV256 (sle_data last) sfIndexes);
           if bool_decide (entries = []) then
             _ ← modify (page_of directory 0) (fun o => o ← setFieldU64 o sfIndexNext 0; setFieldU64 o sfIndexPrevious 0);
             _ ← erase_sle (page_of directory nextPage);
             mret (0, 0)
           else mret (prevPage, nextPage)
       end
     else mret (prevPage, nextPage));
  if keepRoot then mret true else
  if (nextPage =? 0) && (prevPage =? 0) then _ ← erase_sle (page_of directory 0); mret true else mret true.

(** A page other than the root has become empty. *)
Definition view_remove_page (directory : Keylet) (page prevPage nextPage : Z) (keepRoot : bool) : prog bool :=
  if nextPage =? page then logic "Directory chain: fwd link broken" else
  if prevPage =? page then logic "Directory chain: rev link broken" else
  let prev := page_of directory prevPage in
  let next := page_of directory nextPage in
  sle ← peek prev;
  match sle with
  | None => logic "Directory chain: fwd link broken."
  | Some _ =>
      _ ← modify prev (fun o => setFieldU64 o sfIndexNext nextPage);
      sle ← peek next;
      match sle with
      | None => logic "Directory chain: rev link broken."
      | Some _ =>
          _ ← modify next (fun o => setFieldU64 o sfIndexPrevious prevPage);
          _ ← erase_sle (page_of directory page);
          o ← peek_object next;
          after ← liftR (getFieldU64 o sfIndexNext);
          entries ← liftR (getFieldV256 o sfIndexes);
          nextPage ←
            (if negb (nextPage =? 0) && (after =? 0) && bool_decide (entries = []) then
               _ ← erase_sle next;
               _ ← modify prev (fun o => setFieldU64 o sfIndexNext 0);
               root ← peek (page_of directory 0);
               match root with
               | None => logic "Directory chain: root link broken."
               | Some _ => _ ← modify (page_of directory 0) (fun o => setFieldU64 o sfIndexPrevious prevPage); mret 0
               end
             else mret nextPage);
          if negb keepRoot && (nextPage =? 0) && (prevPage =? 0) then
            o ← peek_object prev;
            entries ← liftR (getFieldV256 o sfIndexes);
            if bool_decide (entries = []) then _ ← erase_sle prev; mret true else mret true
          else mret true
      end
  end.

Definition view_dirRemove (directory : Keylet) (page key : Z) (keepRoot : bool) : prog bool :=
  node ← peek (page_of directory page);
  match node with
  | None => mret false
  | Some node =>
      entries ← liftR (getFieldV256 (sle_data node) sfIndexes);
      if bool_decide (key ∈ entries) then
        let entries := erase_first key entries in
        _ ← modify (page_of directory page) (fun o => setFieldV256 o sfIndexes entries);
        if negb (bool_decide (entries = [])) then mret true else
        prevPage ← liftR (getFieldU64 (sle_data node) sfIndexPrevious);
        nextPage ← liftR (getFieldU64 (sle_data node) sfIndexNext);
        if page =? 0 then view_remove_from_root directory prevPage nextPage keepRoot
        else view_remove_page directory page prevPage nextPage keepRoot
      else mret false
  end.

(** [describeOwnerDir]. *)
Definition describeOwnerDir (account : Z) (o : Object) : res Object := proxy_assign o sfOwner (V_Account false account) (account =? 0).

(** [dirAdd] of View.cpp before [featureSortedDirectories]: entries are appended, an
    entry that is there already is not noticed, and pages run out at 64 bits only. *)
Definition legacy_dirAdd (dir : Keylet) (uLedgerIndex : Z) (fDescriber : Object -> res Object) : prog (option Z) :=
  sleRoot ← peek dir;
  match sleRoot with
  | None =>
      _ ← insert_new dir (fun o => setFieldH256 o sfRootIndex (kl_key dir));
      _ ← modify dir (fun o => o ← fDescriber o; setFieldV256 o sfIndexes [uLedgerIndex]);
      mret (Some 0)
  | Some root =>
      uNodeDir ← liftR (getFieldU64 (sle_data root) sfIndexPrevious);
      let nk := if uNodeDir =? 0 then dir else page_of dir uNodeDir in
      node ← peek_object nk;
      svIndexes ← liftR (getFieldV256 node sfIndexes);
      if negb (length svIndexes =? dirNodeMaxEntries)%nat then
        _ ← modify nk (fun o => setFieldV256 o sfIndexes (svIndexes ++ [uLedgerIndex])); mret (Some uNodeDir)
      else
        let uNodeDir := u64 (uNodeDir + 1) in
        if uNodeDir =? 0 then mret None else
        _ ← modify nk (fun o => setFieldU64 o sfIndexNext uNodeDir);
        _ ← modify dir (fun o => setFieldU64 o sfIndexPrevious uNodeDir);
        _ ← insert_new (page_of dir uNodeDir) (fun o => setFieldH256 o sfRootIndex (kl_key dir));
        _ ← modify (page_of dir uNodeDir) (fun o =>
              o ← (if negb (uNodeDir =? 1) then setFieldU64 o sfIndexPrevious (uNodeDir - 1) else Ok o);
              o ← fDescriber o;
              setFieldV256 o sfIndexes [uLedgerIndex]);
        mret (Some uNodeDir)
  end.

(** [dirAdd (view, dir, uLedgerIndex, strictOrder, fDescriber)]. *)
Definition dirAdd_at (info : ViewInfo) (dir : Keylet) (uLedgerIndex : Z) (strictOrder : bool) (fDescriber : Object -> res Object) : prog (option Z) :=
  if enabled info featureSortedDirectories then view_dirAdd strictOrder dir uLedgerIndex fDescriber else legacy_dirAdd dir uLedgerIndex fDescriber.
End Dir.

(** ** Only pages change *)

Definition page_fields : list SField := [sfRootIndex; sfIndexes; sfIndexNext; sfIndexPrevious; sfOwner; sfTakerPaysCurrency; sfTakerPaysIssuer; sfTakerGetsCurrency; sfTakerGetsIssuer; sfExchangeRate].

Lemma page_quiet : quiet page_fields.
Proof. quiet_tac. Qed.

Lemma neutral_page k f : kl_type k = ltDIR_NODE -> writes page_fields f -> neutral [ltDIR_NODE] (modify k f).
Proof. intros Hk Hf. apply (neutral_modify _ page_fields); rewrite ?Hk; [done|set_solver|by left|done]. Qed.

Lemma neutral_new_page k f : kl_type k = ltDIR_NODE -> writes page_fields f -> neutral [ltDIR_NODE] (insert_new k f).
Proof. intros Hk Hf. apply (neutral_new _ page_fields); rewrite ?Hk; [done|set_solver|done]. Qed.

Lemma neutral_erase_page k : kl_type k = ltDIR_NODE -> neutral [ltDIR_NODE] (erase_sle k).
Proof. intros Hk. apply neutral_erase; rewrite ?Hk; [done|set_solver|done]. Qed.

Lemma if_page (b : bool) k1 k2 : kl_type k1 = ltDIR_NODE -> kl_type k2 = ltDIR_NODE -> kl_type (if b then k1 else k2) = ltDIR_NODE.
Proof. by destruct b. Qed.

#[export] Hint Resolve neutral_page neutral_new_page neutral_erase_page if_page : neutral.
#[export] Hint Extern 1 (kl_type _ = ltDIR_NODE) => reflexivity : neutral.
#[export] Hint Extern 3 (writes _ _) => writes_tac : neutral.

Section Neutral.
Context (sha512Half : list Z -> Z).

Lemma neutral_dirAdd po dir key describe : kl_type dir = ltDIR_NODE -> writes page_fields describe -> neutral [ltDIR_NODE] (view_dirAdd sha512Half po dir key describe).
Proof. intros Hd Hw. unfold view_dirAdd, first_page, next_page, logic. neutral_tac. Qed.

Lemma neutral_remove_root dir prevPage nextPage keepRoot : neutral [ltDIR_NODE] (view_remove_from_root sha512Half dir prevPage nextPage keepRoot).
Proof. unfold view_remove_from_root, logic. neutral_tac. all: destruct a; neutral_tac. Qed.

Lemma neutral_remove_page dir page prevPage nextPage keepRoot : neutral [ltDIR_NODE] (view_remove_page sha512Half dir page prevPage nextPage keepRoot).
Proof. unfold view_remove_page, logic. neutral_tac. Qed.

Lemma neutral_dirRemove dir page key keepRoot : neutral [ltDIR_NODE] (view_dirRemove sha512Half dir page key keepRoot).
Proof. unfold view_dirRemove. neutral_tac; [apply neutral_remove_root|apply neutral_remove_page]. Qed.

Lemma neutral_legacy_dirAdd dir key describe : kl_type dir = ltDIR_NODE -> writes page_fields describe -> neutral [ltDIR_NODE] (legacy_dirAdd sha512Half dir key describe).
Proof. intros Hd Hw. unfold legacy_dirAdd. neutral_tac. Qed.

Lemma neutral_dirAdd_at info dir key strict describe : kl_type dir = ltDIR_NODE -> writes page_fields describe -> neutral [ltDIR_NODE] (dirAdd_at sha512Half info dir key strict describe).
Proof. intros Hd Hw. unfold dirAdd_at. destruct (enabled _ _); [by apply neutral_dirAdd|by apply neutral_legacy_dirAdd]. Qed.
End Neutral.

Lemma writes_describeOwnerDir account : writes page_fields (describeOwnerDir account).
Proof. unfold describeOwnerDir. writes_tac. Qed.

#[export] Hint Resolve writes_describeOwnerDir : writes neutral.

(** ** The pages of a ledger *)

(** A page as Directory.v has it. *)
Definition node_of_sle (s : SLE Object) : DirNode unit :=
  mkDirNode (field_of as_v256 [] s sfIndexes) (field_of as_u64 0 s sfIndexPrevious) (field_of as_u64 0 s sfIndexNext) (field_of as_h256 0 s sfRootIndex) tt.

Definition dirs (m : gmap Z (SLE Object)) : gmap Z (DirNode unit) :=
  omap (fun s => if sle_type s =? ltDIR_NODE then Some (node_of_sle s) else None) m.

Lemma dirs_lookup m k : dirs m !! k = m !! k ≫= fun s => if sle_type s =? ltDIR_NODE then Some (node_of_sle s) else None.
Proof. unfold dirs. by rewrite lookup_omap. Qed.

Lemma shown_page m k : kl_type k = ltDIR_NODE -> dirs m !! kl_key k = node_of_sle <$> shown m k.
Proof.
  intros Hk. rewrite dirs_lookup. unfold shown. destruct (m !! kl_key k) as [s|]; [|done]. cbn. unfold check. rewrite Hk. cbn.
  by destruct (sle_type s =? ltDIR_NODE).
Qed.

Lemma dirs_insert m k s : sle_type s = ltDIR_NODE -> dirs (<[k := s]> m) = <[k := node_of_sle s]> (dirs m).
Proof. intros Hs. unfold dirs. by erewrite omap_insert_Some by (rewrite Hs; done). Qed.

Lemma dirs_delete m k : dirs (delete k m) = delete k (dirs m).
Proof. unfold dirs. by rewrite omap_delete. Qed.

(** Writes to a page, as changes of the node. *)
Lemma set_next_page s p : sle_ok s -> sle_type s = ltDIR_NODE ->
  exists o, setFieldU64 (sle_data s) sfIndexNext p = Ok o /\ sle_ok (with_data s o) /\ node_of_sle (with_data s o) = set_next p (node_of_sle s).
Proof.
  intros Hs Ht. destruct (set_field s sfIndexNext (V_UInt64 p) Hs) as (o & E & Hw & Hok); [by rewrite Ht|field_ok_tac|done|].
  exists o. split_and!; [done|done|]. unfold node_of_sle, set_next. by rewrite !(field_of_written _ _ _ _ _ _ _ Hw).
Qed.

Lemma set_previous_page s p : sle_ok s -> sle_type s = ltDIR_NODE ->
  exists o, setFieldU64 (sle_data s) sfIndexPrevious p = Ok o /\ sle_ok (with_data s o) /\ node_of_sle (with_data s o) = set_previous p (node_of_sle s).
Proof.
  intros Hs Ht. destruct (set_field s sfIndexPrevious (V_UInt64 p) Hs) as (o & E & Hw & Hok); [by rewrite Ht|field_ok_tac|done|].
  exists o. split_and!; [done|done|]. unfold node_of_sle, set_previous. by rewrite !(field_of_written _ _ _ _ _ _ _ Hw).
Qed.

Lemma set_indexes_page s v : sle_ok s -> sle_type s = ltDIR_NODE ->
  exists o, setFieldV256 (sle_data s) sfIndexes v = Ok o /\ sle_ok (with_data s o) /\ node_of_sle (with_data s o) = set_indexes v (node_of_sle s).
Proof.
  intros Hs Ht. destruct (set_field s sfIndexes (V_Vector256 v) Hs) as (o & E & Hw & Hok); [by rewrite Ht|field_ok_tac|done|].
  exists o. split_and!; [done|done|]. unfold node_of_sle, set_indexes. by rewrite !(field_of_written _ _ _ _ _ _ _ Hw).
Qed.

Lemma get_u64_page s f : sle_ok s -> sle_type s = ltDIR_NODE -> f = sfIndexNext \/ f = sfIndexPrevious -> getFieldU64 (sle_data s) f = Ok (field_of as_u64 0 s f).
Proof. intros Hs Ht Hf. apply get_field; [done|rewrite Ht; by destruct Hf as [->| ->]|destruct Hf as [->| ->]; field_ok_tac| |done]. destruct Hf as [->| ->]; intros []; cbn; eauto || done. Qed.

Lemma get_indexes_page s : sle_ok s -> sle_type s = ltDIR_NODE -> getFieldV256 (sle_data s) sfIndexes = Ok (field_of as_v256 [] s sfIndexes).
Proof. intros Hs Ht. apply get_field; [done|by rewrite Ht|field_ok_tac| |done]. intros []; cbn; eauto || done. Qed.

(** ** Steps agree *)

(** [f] changes the fields of a page as [g] does the node. *)
Definition page_action (f : Object -> res Object) (g : DirNode unit -> DirNode unit) : Prop :=
  forall s, sle_ok s -> sle_type s = ltDIR_NODE -> exists o, f (sle_data s) = Ok o /\ sle_ok (with_data s o) /\ node_of_sle (with_data s o) = g (node_of_sle s).

Lemma act_next p : page_action (fun o => setFieldU64 o sfIndexNext p) (set_next p).
Proof. intros s. apply set_next_page. Qed.

Lemma act_previous p : page_action (fun o => setFieldU64 o sfIndexPrevious p) (set_previous p).
Proof. intros s. apply set_previous_page. Qed.

Lemma act_indexes v : page_action (fun o => setFieldV256 o sfIndexes v) (set_indexes v).
Proof. intros s. apply set_indexes_page. Qed.

Lemma page_action_two f g f' g' : page_action f g -> page_action f' g' -> page_action (fun o => o ← f o; f' o) (g' ∘ g).
Proof.
  intros H1 H2 s Hs Ht. destruct (H1 s Hs Ht) as (o & E & Hok & Hn). destruct (H2 _ Hok Ht) as (o' & E' & Hok' & Hn'). cbn [sle_data with_data] in *.
  exists o'. rewrite E. cbn. split_and!; [done|done|]. by rewrite <-Hn.
Qed.

Section Steps.
Context (m : gmap Z (SLE Object)) (d : Z) (Hm : ledger_ok m).

Lemma shown_ok k s : kl_type k = ltDIR_NODE -> shown m k = Some s -> m !! kl_key k = Some s /\ sle_ok s /\ sle_type s = ltDIR_NODE /\ sle_key s = kl_key k /\ dirs m !! kl_key k = Some (node_of_sle s).
Proof.
  intros Hk Hs. destruct (shown_type m k s) as [Hl Ht]; [by rewrite Hk|done|]. destruct (Hm _ _ Hl) as (? & ? & ?). rewrite shown_page, Hs by done. split_and!; done || congruence.
Qed.

Lemma modify_page k f g s : kl_type k = ltDIR_NODE -> page_action f g -> shown m k = Some s ->
  exists m', run_map (modify k f) (m, d) = Ok ((), (m', d)) /\ update g (kl_key k) (dirs m) = Ok (dirs m') /\ ledger_ok m' /\ same_outside [ltDIR_NODE] m m'.
Proof.
  intros Hk Hf Hs. destruct (shown_ok k s Hk Hs) as (Hl & Hok & Ht & Hkey & Hd). destruct (Hf s Hok Ht) as (o & E & Hok' & Hn).
  exists (<[kl_key k := with_data s o]> m). rewrite (run_modify k f m d s o Hs E). split; [done|]. unfold update. rewrite Hd, dirs_insert, Hn by done. split_and!; [done|..].
  - apply ledger_ok_insert; [done|done|done|]. apply money_ok_other. cbn. by rewrite Ht.
  - apply same_outside_insert; [cbn; set_solver|]. intros s0 Hs0. assert (s0 = s) as -> by congruence. set_solver.
Qed.

Lemma erase_page k s : kl_type k = ltDIR_NODE -> shown m k = Some s ->
  exists m', run_map (erase_sle k) (m, d) = Ok ((), (m', d)) /\ erase (kl_key k) (dirs m) = Ok (dirs m') /\ ledger_ok m' /\ same_outside [ltDIR_NODE] m m'.
Proof.
  intros Hk Hs. destruct (shown_ok k s Hk Hs) as (Hl & Hok & Ht & Hkey & Hd). exists (delete (kl_key k) m). rewrite (run_erase k m d s Hs). split; [done|]. unfold erase. rewrite Hd, dirs_delete.
  split_and!; [done|by apply ledger_ok_delete|]. apply same_outside_delete. intros s0 Hs0. assert (s0 = s) as -> by congruence. set_solver.
Qed.

Lemma insert_page k f s n : kl_type k = ltDIR_NODE -> m !! kl_key k = None -> new_sle k f = Ok s -> sle_ok s -> sle_type s = ltDIR_NODE -> sle_key s = kl_key k -> node_of_sle s = n ->
  exists m', run_map (Entries.insert_new k f) (m, d) = Ok ((), (m', d)) /\ Directory.insert_new (kl_key k) n (dirs m) = Ok (dirs m') /\ ledger_ok m' /\ same_outside [ltDIR_NODE] m m'.
Proof.
  intros Hk Hl Hnew Hok Ht Hkey <-. exists (<[kl_key k := s]> m). unfold Entries.insert_new. rewrite run_mbind, run_lift, Hnew. cbn [mbind res_bind].
  rewrite run_insert by congruence. rewrite Hkey. split; [done|]. unfold Directory.insert_new. rewrite dirs_lookup, Hl. cbn. rewrite dirs_insert by done. split_and!; [done|..].
  - apply ledger_ok_insert; [done|done|done|]. apply money_ok_other. by rewrite Ht.
  - apply same_outside_insert; [rewrite Ht; set_solver|]. congruence.
Qed.
End Steps.

(** ** New pages *)

Definition set_root (r : Z) (n : DirNode unit) : DirNode unit := mkDirNode (Directory.sfIndexes n) (Directory.sfIndexPrevious n) (Directory.sfIndexNext n) r tt.

Lemma set_root_page s r : sle_ok s -> sle_type s = ltDIR_NODE ->
  exists o, setFieldH256 (sle_data s) sfRootIndex r = Ok o /\ sle_ok (with_data s o) /\ node_of_sle (with_data s o) = set_root r (node_of_sle s).
Proof.
  intros Hs Ht. destruct (set_field s sfRootIndex (V_Hash256 r) Hs) as (o & E & Hw & Hok); [by rewrite Ht|field_ok_tac|done|].
  exists o. split_and!; [done|done|]. unfold node_of_sle, set_root. by rewrite !(field_of_written _ _ _ _ _ _ _ Hw).
Qed.

Lemma page_action_ret : page_action Ok id.
Proof. intros s Hs Ht. exists (sle_data s). split_and!; [done|by destruct s|by destruct s]. Qed.

Lemma page_action_if (b : bool) f g f' g' : page_action f g -> page_action f' g' -> page_action (fun o => if b then f o else f' o) (if b then g else g').
Proof. by destruct b. Qed.

Lemma new_page k f g : kl_type k = ltDIR_NODE -> page_action f g ->
  exists s, new_sle k f = Ok s /\ sle_ok s /\ sle_type s = ltDIR_NODE /\ sle_key s = kl_key k /\ node_of_sle s = g (mkDirNode [] 0 0 0 tt).
Proof.
  intros Hk Hf. destruct k as [ty key]. cbn in Hk. subst ty. destruct (make_SLE_ok (mkKeylet ltDIR_NODE key)) as (s & E & Hok & Ht & Hkey); [by vm_compute; eauto|].
  destruct (Hf s Hok Ht) as (o & Eo & Hok' & Hn). exists (with_data s o). unfold new_sle. rewrite E. cbn [mbind res_bind]. rewrite Eo. cbn [mbind res_bind]. split_and!; [done|done|done|done|].
  rewrite Hn. f_equal. clear -E. vm_compute in E. injection E as <-. by vm_compute.
Qed.

Lemma first_page_action dir key describe : page_action describe id -> page_action (first_page dir key describe) (set_indexes [key] ∘ (id ∘ set_root (kl_key dir))).
Proof.
  intros Hd. unfold first_page. intros s Hs Ht. destruct (set_root_page s (kl_key dir) Hs Ht) as (o1 & E1 & H1 & N1). destruct (Hd _ H1 Ht) as (o2 & E2 & H2 & N2).
  destruct (set_indexes_page _ [key] H2 Ht) as (o3 & E3 & H3 & N3). cbn [sle_data with_data] in *. exists o3. rewrite E1. cbn [mbind res_bind]. rewrite E2. cbn [mbind res_bind].
  split_and!; [done|done|]. cbn. unfold with_data in *. cbn in *. by rewrite N3, N2, N1.
Qed.

Lemma next_page_action dir key page describe : page_action describe id ->
  page_action (next_page dir key page describe) (fun n => mkDirNode [key] (if page =? 1 then Directory.sfIndexPrevious n else page - 1) (Directory.sfIndexNext n) (kl_key dir) tt).
Proof.
  intros Hd s Hs Ht. unfold next_page. destruct (set_root_page s (kl_key dir) Hs Ht) as (o1 & E1 & H1 & N1). destruct (set_indexes_page _ [key] H1 Ht) as (o2 & E2 & H2 & N2).
  cbn [sle_data with_data] in *. rewrite E1. cbn [mbind res_bind]. rewrite E2. cbn [mbind res_bind].
  assert (exists o3, (if negb (page =? 1) then setFieldU64 o2 sfIndexPrevious (page - 1) else Ok o2) = Ok o3 /\ sle_ok (with_data s o3) /\
    node_of_sle (with_data s o3) = (if page =? 1 then id else set_previous (page - 1)) (node_of_sle (with_data s o2))) as (o3 & -> & H3 & N3).
  { destruct (page =? 1); cbn [negb]; [by exists o2|]. exact (set_previous_page _ (page - 1) H2 Ht). }
  destruct (Hd _ H3 Ht) as (o4 & E4 & H4 & N4). cbn [sle_data with_data mbind res_bind] in *. exists o4. split_and!; [done|done|].
  unfold with_data in *. cbn in *. rewrite N4, N3, N2, N1. by destruct (page =? 1).
Qed.

Lemma describeOwnerDir_action account : page_action (describeOwnerDir account) id.
Proof.
  intros s Hs Ht. destruct Hs as (t & Hf & Hty & Ho). assert (Hst : style t sfOwner = Some soeOPTIONAL) by (rewrite Ht in Hf; vm_compute in Hf; injection Hf as <-; reflexivity).
  destruct (proxy_assign_Ok (sle_data s) t sfOwner soeOPTIONAL (V_Account false account) (account =? 0) Ho ltac:(field_ok_tac) Hty Hst eq_refl eq_refl) as (o & E & Hw).
  exists o. split; [done|]. split; [apply (sle_ok_evolves [sfOwner]); [by exists t|eapply written_evolves; [done|left]]|].
  unfold node_of_sle. by rewrite !(field_of_written _ _ _ _ _ _ _ Hw).
Qed.

(** ** The programs agree with Directory.v *)

Section Agree.
Context (sha512Half : list Z -> Z).

(** The digest of a page number, as Directory.v takes it. *)
Definition page_digest (root page : Z) : Z := sha512Half (ns spaceDirNode ++ big_endian 32 root ++ big_endian 8 page).

(** The keys of the pages are used by pages only. *)
Definition page_keys (dir : Keylet) (m : gmap Z (SLE Object)) : Prop :=
  forall q s, in_u64 q -> m !! getDirNodeIndex sha512Half (kl_key dir) q = Some s -> sle_type s = ltDIR_NODE.

Definition agrees {A} (d : Z) (r : res (A * gmap Z (DirNode unit))) (x : res (A * (gmap Z (SLE Object) * Z))) : Prop :=
  match r with
  | Ok (a, st) => exists m', x = Ok (a, (m', d)) /\ dirs m' = st
  | Throw _ => exists e, x = Throw e
  end.

Lemma page_keys_outside dir m m' : page_keys dir m -> same_outside [ltDIR_NODE] m m' -> page_keys dir m'.
Proof.
  intros H Ho q s Hq Hs. destruct (decide (sle_type s = ltDIR_NODE)) as [|Hne]; [done|]. apply (H q); [done|]. apply Ho; [|done]. set_solver.
Qed.

Lemma page_key_free dir m q : page_keys dir m -> in_u64 q -> dirs m !! getDirNodeIndex sha512Half (kl_key dir) q = None -> m !! getDirNodeIndex sha512Half (kl_key dir) q = None.
Proof.
  intros H Hq. rewrite dirs_lookup. destruct (m !! _) as [s|] eqn:E; [|done]. cbn. by rewrite (H q s Hq E).
Qed.

Lemma run_step {A B} (p : prog A) (f : A -> prog B) m d a m' : run_map p (m, d) = Ok (a, (m', d)) -> run_map (p ≫= f) (m, d) = run_map (f a) (m', d).
Proof. intros E. by rewrite run_mbind, E. Qed.

Lemma run_lift_step {A B} (r : res A) (f : A -> prog B) m d a : r = Ok a -> run_map (liftR r ≫= f) (m, d) = run_map (f a) (m, d).
Proof. intros ->. by rewrite run_mbind. Qed.

Lemma run_peek_step {B} k (f : option (SLE Object) -> prog B) m d : run_map (peek k ≫= f) (m, d) = run_map (f (shown m k)) (m, d).
Proof. by rewrite run_mbind. Qed.

Lemma u64_in z : in_u64 (u64 z).
Proof. unfold in_u64, u64. apply Z.mod_pos_bound. lia. Qed.

(** Adding, in a ledger and in Directory.v. *)
Lemma dirAdd_agrees po dir key describe m d : kl_type dir = ltDIR_NODE -> page_action describe id -> ledger_ok m -> page_keys dir m ->
  agrees d (dirAdd page_digest tt po (kl_key dir) key id (dirs m)) (run_map (view_dirAdd sha512Half po dir key describe) (m, d)).
Proof.
  intros Hk Hd Hm Hf. unfold dirAdd, view_dirAdd. rewrite run_peek_step, shown_page by done. assert (H0 : in_u64 0) by (unfold in_u64; lia).
  destruct (shown m dir) as [root|] eqn:Hroot; cbn [fmap option_fmap option_map].
  2: { destruct (new_page dir _ _ Hk (first_page_action dir key describe Hd)) as (s & E & Hok & Ht & Hkey & Hn).
    assert (Hfree : m !! kl_key dir = None).
    { apply (page_key_free dir m 0 Hf H0). change (getDirNodeIndex sha512Half (kl_key dir) 0) with (kl_key dir). by rewrite shown_page, Hroot by done. }
    destruct (insert_page m d Hm dir _ s _ Hk Hfree E Hok Ht Hkey Hn) as (m' & Er & Ei & _).
    rewrite (run_step _ _ _ _ _ _ Er). rewrite (Ei : Directory.insert_new (kl_key dir) (mkDirNode [key] 0 0 (kl_key dir) (id tt)) (dirs m) = Ok (dirs m')). cbn. by exists m'. }
  destruct (shown_ok m Hm dir root Hk Hroot) as (Hl & Hok & Ht & Hkey & Hdr). rewrite (run_lift_step _ _ _ _ _ (get_u64_page root sfIndexPrevious Hok Ht (or_intror eq_refl))).
  change (Directory.sfIndexPrevious (node_of_sle root)) with (field_of as_u64 0 root sfIndexPrevious). set (page := field_of as_u64 0 root sfIndexPrevious).
  set (nk := if page =? 0 then dir else keylet_page_of sha512Half dir page). assert (Hnk : kl_type nk = ltDIR_NODE) by (subst nk; by destruct (page =? 0)).
  assert (Enk : (if page =? 0 then kl_key dir else Directory.getDirNodeIndex page_digest (kl_key dir) page) = kl_key nk).
  { subst nk. unfold keylet_page_of, keylet_page, Indexes.getDirNodeIndex, Directory.getDirNodeIndex, page_digest. destruct (page =? 0) eqn:E; cbn [kl_key]; by rewrite ?E. }
  rewrite Enk, run_peek_step, shown_page by done. destruct (shown m nk) as [node|] eqn:Hnode; cbn [fmap option_fmap option_map]; [|by eexists].
  destruct (shown_ok m Hm nk node Hnk Hnode) as (Hl' & Hok' & Ht' & Hkey' & Hdn). rewrite (run_lift_step _ _ _ _ _ (get_indexes_page node Hok' Ht')).
  change (Directory.sfIndexes (node_of_sle node)) with (field_of as_v256 [] node sfIndexes). set (ix := field_of as_v256 [] node sfIndexes).
  destruct (length ix <? dirNodeMaxEntries)%nat.
  - destruct (add_to_page po key ix) as [v|e] eqn:Ea; [|by eexists]. rewrite (run_lift_step _ _ _ _ v) by done. cbn [mbind res_bind].
    destruct (modify_page m d Hm nk _ _ node Hnk (act_indexes v) Hnode) as (m' & Er & Eu & _). rewrite (run_step _ _ _ _ _ _ Er), Eu. cbn. by exists m'.
  - cbv zeta. destruct (dirNodeMaxPages <=? u64 (page + 1)); [by exists m|].
    destruct (modify_page m d Hm nk _ _ node Hnk (act_next (u64 (page + 1))) Hnode) as (m1 & Er & Eu & Hm1 & Ho1). rewrite (run_step _ _ _ _ _ _ Er), Eu. cbn [mbind res_bind].
    assert (exists r1, shown m1 dir = Some r1) as [r1 Hr1].
    { assert (is_Some (dirs m1 !! kl_key dir)) as Hs.
      { unfold update in Eu. rewrite Hdn in Eu. injection Eu as <-. destruct (decide (kl_key nk = kl_key dir)) as [->|]; [by rewrite lookup_insert_eq|]. by rewrite lookup_insert_ne, Hdr. }
      rewrite shown_page in Hs by done. destruct (shown m1 dir); [by eexists|by destruct Hs]. }
    destruct (modify_page m1 d Hm1 dir _ _ r1 Hk (act_previous (u64 (page + 1))) Hr1) as (m2 & Er2 & Eu2 & Hm2 & Ho2). rewrite (run_step _ _ _ _ _ _ Er2), Eu2. cbn [mbind res_bind].
    set (pk := keylet_page_of sha512Half dir (u64 (page + 1))).
    change (Directory.getDirNodeIndex page_digest (kl_key dir) (u64 (page + 1))) with (kl_key pk).
    destruct (new_page pk _ _ eq_refl (next_page_action dir key (u64 (page + 1)) describe Hd)) as (s & E & Hoks & Hts & Hkeys & Hn).
    destruct (dirs m2 !! kl_key pk) as [x|] eqn:Ex.
    + unfold Directory.insert_new. rewrite Ex. cbn. eexists. unfold Entries.insert_new. rewrite run_mbind, run_mbind, run_lift, E. cbn [mbind res_bind].
      cbn. rewrite Hkeys, decide_True; [done|]. rewrite dirs_lookup in Ex. by destruct (m2 !! kl_key pk).
    + assert (Hfree : m2 !! kl_key pk = None).
      { apply (page_key_free dir m2 (u64 (page + 1))); [|apply u64_in|done]. eapply page_keys_outside; [|exact Ho2]. by eapply page_keys_outside. }
      destruct (insert_page m2 d Hm2 pk _ s _ eq_refl Hfree E Hoks Hts Hkeys Hn) as (m3 & Er3 & Ei & _).
      rewrite (run_step _ _ _ _ _ _ Er3). rewrite (Ei : Directory.insert_new (kl_key pk) (mkDirNode [key] (if u64 (page + 1) =? 1 then 0 else u64 (page + 1) - 1) 0 (kl_key dir) (id tt)) (dirs m2) = Ok (dirs m3)). cbn. by exists m3.
Qed.

Lemma shown_iff m k n : kl_type k = ltDIR_NODE -> dirs m !! kl_key k = Some n -> exists s, shown m k = Some s /\ node_of_sle s = n.
Proof. intros Hk. rewrite shown_page by done. intros (s & Hs & ->)%fmap_Some. by exists s. Qed.

Lemma shown_not m k : kl_type k = ltDIR_NODE -> dirs m !! kl_key k = None -> shown m k = None.
Proof. intros Hk. rewrite shown_page by done. by intros ?%fmap_None. Qed.

Lemma run_assoc {A B C} (p : prog A) (f : A -> prog B) (g : B -> prog C) md : run_map ((p ≫= f) ≫= g) md = run_map (p ≫= fun a => f a ≫= g) md.
Proof. rewrite !run_mbind. destruct (run_map p md) as [[a md1]|]; [|done]. cbn [mbind res_bind]. by rewrite run_mbind. Qed.

Lemma res_assoc {A B C} (r : res A) (f : A -> res B) (g : B -> res C) : ((r ≫= f) ≫= g) = (r ≫= fun a => f a ≫= g).
Proof. by destruct r. Qed.

Section Remove.
Context (dir : Keylet).
Abbreviation pk := (Directory.getDirNodeIndex page_digest (kl_key dir)).
Abbreviation kl := (keylet_page_of sha512Half dir).

Lemma kl_pk p : kl_key (kl p) = pk p.
Proof. done. Qed.

(** Changing a page: both succeed, or both fail. *)
Lemma update_agrees {A} (k : Keylet) f g m d (c : prog A) (c' : gmap Z (DirNode unit) -> res (A * gmap Z (DirNode unit))) :
  kl_type k = ltDIR_NODE -> page_action f g -> ledger_ok m -> (forall m', ledger_ok m' -> same_outside [ltDIR_NODE] m m' -> update g (kl_key k) (dirs m) = Ok (dirs m') -> agrees d (c' (dirs m')) (run_map c (m', d))) ->
  agrees d (st ← update g (kl_key k) (dirs m); c' st) (run_map (_ ← modify k f; c) (m, d)).
Proof.
  intros Hk Hf Hm Hc. destruct (shown m k) as [s|] eqn:Hs.
  - destruct (modify_page m d Hm k f g s Hk Hf Hs) as (m' & Er & Eu & Hm' & Ho). rewrite (run_step _ _ _ _ _ _ Er), Eu. by apply Hc.
  - unfold update. rewrite shown_page, Hs by done. cbn [fmap option_fmap option_map]. cbn [mbind res_bind agrees]. eexists. by rewrite run_mbind, run_modify_None.
Qed.

Lemma erase_agrees {A} (k : Keylet) m d (c : prog A) (c' : gmap Z (DirNode unit) -> res (A * gmap Z (DirNode unit))) :
  kl_type k = ltDIR_NODE -> ledger_ok m -> (forall m', ledger_ok m' -> same_outside [ltDIR_NODE] m m' -> erase (kl_key k) (dirs m) = Ok (dirs m') -> agrees d (c' (dirs m')) (run_map c (m', d))) ->
  agrees d (st ← erase (kl_key k) (dirs m); c' st) (run_map (_ ← erase_sle k; c) (m, d)).
Proof.
  intros Hk Hm Hc. destruct (shown m k) as [s|] eqn:Hs.
  - destruct (erase_page m d Hm k s Hk Hs) as (m' & Er & Eu & Hm' & Ho). rewrite (run_step _ _ _ _ _ _ Er), Eu. by apply Hc.
  - unfold erase. rewrite shown_page, Hs by done. cbn [fmap option_fmap option_map]. cbn [mbind res_bind agrees]. eexists. by rewrite run_mbind, run_erase_None.
Qed.

(** Looking a page up. *)
Lemma peek_agrees {A} (k : Keylet) m d (c : SLE Object -> prog A) (c' : DirNode unit -> res (A * gmap Z (DirNode unit))) w w' :
  kl_type k = ltDIR_NODE -> ledger_ok m -> (forall s, shown m k = Some s -> sle_ok s -> sle_type s = ltDIR_NODE -> agrees d (c' (node_of_sle s)) (run_map (c s) (m, d))) ->
  agrees d (match dirs m !! kl_key k with None => Throw w | Some n => c' n end)
    (run_map (x ← peek k; match x with None => logic w' | Some s => c s end) (m, d)).
Proof.
  intros Hk Hm Hc. rewrite run_peek_step, shown_page by done. destruct (shown m k) as [s|] eqn:Hs; cbn; [|by eexists].
  destruct (shown_ok m Hm k s Hk Hs) as (_ & ? & ? & _). by apply Hc.
Qed.

Lemma agrees_ret {A} (a : A) m d : agrees d (Ok (a, dirs m)) (run_map (mret a) (m, d)).
Proof. by exists m. Qed.

Lemma remove_root_agrees prevPage nextPage keepRoot m d : ledger_ok m ->
  agrees d (remove_from_root page_digest (kl_key dir) prevPage nextPage keepRoot (dirs m)) (run_map (view_remove_from_root sha512Half dir prevPage nextPage keepRoot) (m, d)).
Proof.
  intros Hm. unfold remove_from_root, view_remove_from_root, logic. destruct ((nextPage =? 0) && negb (prevPage =? 0)); [by eexists|].
  destruct ((prevPage =? 0) && negb (nextPage =? 0)); [by eexists|].
  assert (Hend : forall p n m', ledger_ok m' -> agrees d (if keepRoot then Ok (true, dirs m') else if (n =? 0) && (p =? 0) then st ← erase (kl_key dir) (dirs m'); Ok (true, st) else Ok (true, dirs m'))
    (run_map (if keepRoot then mret true else if (n =? 0) && (p =? 0) then _ ← erase_sle (kl 0); mret true else mret true) (m', d))).
  { intros p n m' Hm'. destruct keepRoot; [apply agrees_ret|]. destruct ((n =? 0) && (p =? 0)); [|apply agrees_ret].
    apply (erase_agrees (kl 0) m' d _ (fun st => Ok (true, st))); [done|done|]. intros m2 _ _ _. apply agrees_ret. }
  destruct ((nextPage =? prevPage) && negb (nextPage =? 0)).
  2: { rewrite (run_step _ _ _ _ _ m) by done. by apply Hend. }
  rewrite run_assoc, run_peek_step. rewrite (shown_page m (kl nextPage) eq_refl : dirs m !! pk nextPage = _).
  destruct (shown m (kl nextPage)) as [last|] eqn:Hs; cbn [fmap option_fmap option_map]; [|by eexists].
  destruct (shown_ok m Hm (kl nextPage) last eq_refl Hs) as (_ & Hok & Ht & _). rewrite run_assoc, (run_lift_step _ _ _ _ _ (get_indexes_page last Hok Ht)).
  change (Directory.sfIndexes (node_of_sle last)) with (field_of as_v256 [] last sfIndexes). case_bool_decide as He.
  2: { rewrite (run_step _ _ _ _ _ m) by done. by apply Hend. }
  rewrite run_assoc. rewrite res_assoc. refine (update_agrees (kl 0) _ _ m d _ _ eq_refl (page_action_two _ _ _ _ (act_next 0) (act_previous 0)) Hm _).
  intros m1 Hm1 _ _. rewrite run_assoc, res_assoc. refine (erase_agrees (kl nextPage) m1 d _ _ eq_refl Hm1 _).
  intros m2 Hm2 _ _. rewrite (run_step _ _ _ _ _ m2) by done. by apply Hend.
Qed.
Lemma peek_object_step {B} k (f : Object -> prog B) m d s : shown m k = Some s -> run_map (peek_object k ≫= f) (m, d) = run_map (f (sle_data s)) (m, d).
Proof. intros Hs. by rewrite (run_step _ _ _ _ _ _ (run_peek_object k m d s Hs)). Qed.

(** The last steps: an emptied root goes with the directory. *)
Lemma remove_end_agrees keepRoot prevPage nextPage m d : ledger_ok m -> is_Some (shown m (kl prevPage)) ->
  agrees d (if negb keepRoot && (nextPage =? 0) && (prevPage =? 0) && indexes_empty (pk prevPage) (dirs m) then st ← erase (pk prevPage) (dirs m); Ok (true, st) else Ok (true, dirs m))
    (run_map (if negb keepRoot && (nextPage =? 0) && (prevPage =? 0) then
        o ← peek_object (kl prevPage); entries ← liftR (getFieldV256 o sfIndexes);
        if bool_decide (entries = []) then _ ← erase_sle (kl prevPage); mret true else mret true
      else mret true) (m, d)).
Proof.
  intros Hm [s Hs]. destruct (negb keepRoot && (nextPage =? 0) && (prevPage =? 0)); [|apply agrees_ret]. cbn [andb].
  destruct (shown_ok m Hm (kl prevPage) s eq_refl Hs) as (_ & Hok & Ht & _ & Hd). rewrite (peek_object_step _ _ _ _ _ Hs), (run_lift_step _ _ _ _ _ (get_indexes_page s Hok Ht)).
  unfold indexes_empty. rewrite (Hd : dirs m !! pk prevPage = _). change (Directory.sfIndexes (node_of_sle s)) with (field_of as_v256 [] s sfIndexes).
  case_bool_decide; [|apply agrees_ret]. refine (erase_agrees (kl prevPage) m d _ _ eq_refl Hm _). intros m1 _ _ _. apply agrees_ret.
Qed.

Lemma update_dom g k (st st' : gmap Z (DirNode unit)) j : update g k st = Ok st' -> is_Some (st' !! j) <-> is_Some (st !! j).
Proof.
  unfold update. destruct (st !! k) as [n|] eqn:E; [|done]. intros [= <-]. destruct (decide (k = j)) as [->|]; [rewrite lookup_insert_eq, E; by split; eauto|by rewrite lookup_insert_ne].
Qed.

Lemma erase_dom k (st st' : gmap Z (DirNode unit)) j : erase k st = Ok st' -> j <> k -> is_Some (st' !! j) <-> is_Some (st !! j).
Proof. unfold erase. destruct (st !! k); [|done]. intros [= <-] Hj. by rewrite lookup_delete_ne. Qed.

Lemma shown_dom m p : is_Some (shown m (kl p)) <-> is_Some (dirs m !! pk p).
Proof. rewrite (shown_page m (kl p) eq_refl : dirs m !! pk p = _). symmetry. apply fmap_is_Some. Qed.

Lemma remove_page_agrees page prevPage nextPage keepRoot m d : ledger_ok m -> pages_distinct page_digest (kl_key dir) -> in_u64 page -> in_u64 prevPage -> in_u64 nextPage ->
  agrees d (remove_page page_digest (kl_key dir) page prevPage nextPage keepRoot (dirs m)) (run_map (view_remove_page sha512Half dir page prevPage nextPage keepRoot) (m, d)).
Proof.
  intros Hm Hpk Hp Hpr Hnx. unfold remove_page, view_remove_page. destruct (Z.eqb_spec nextPage page) as [|Hnp]; [by eexists|]. destruct (Z.eqb_spec prevPage page) as [|Hpp]; [by eexists|].
  cbv zeta. refine (peek_agrees (kl prevPage) m d _ _ _ _ eq_refl Hm _). intros sp Hsp _ _. refine (update_agrees (kl prevPage) _ _ m d _ _ eq_refl (act_next nextPage) Hm _).
  intros m1 Hm1 _ E1. refine (peek_agrees (kl nextPage) m1 d _ _ _ _ eq_refl Hm1 _). intros sn Hsn _ _. refine (update_agrees (kl nextPage) _ _ m1 d _ _ eq_refl (act_previous prevPage) Hm1 _).
  intros m2 Hm2 _ E2. refine (erase_agrees (kl page) m2 d _ _ eq_refl Hm2 _). intros m3 Hm3 _ E3.
  assert (Hkn : pk nextPage <> pk page) by (intros E; apply Hnp; by apply Hpk). assert (Hkp : pk prevPage <> pk page) by (intros E; apply Hpp; by apply Hpk).
  assert (Hn3 : is_Some (shown m3 (kl nextPage))) by (apply shown_dom; rewrite (erase_dom _ _ _ _ E3 Hkn), (update_dom _ _ _ _ _ E2); by apply shown_dom; exists sn).
  assert (Hp3 : is_Some (shown m3 (kl prevPage))) by (apply shown_dom; rewrite (erase_dom _ _ _ _ E3 Hkp), (update_dom _ _ _ _ _ E2), (update_dom _ _ _ _ _ E1); by apply shown_dom; exists sp).
  destruct Hn3 as [sn3 Hsn3]. destruct (shown_ok m3 Hm3 (kl nextPage) sn3 eq_refl Hsn3) as (_ & Hok & Ht & _ & Hd).
  rewrite (peek_object_step _ _ _ _ _ Hsn3), (run_lift_step _ _ _ _ _ (get_u64_page sn3 sfIndexNext Hok Ht (or_introl eq_refl))), (run_lift_step _ _ _ _ _ (get_indexes_page sn3 Hok Ht)).
  assert (next_of (pk nextPage) (dirs m3) = field_of as_u64 0 sn3 sfIndexNext) as -> by (unfold next_of; by rewrite (Hd : dirs m3 !! pk nextPage = _)).
  assert (indexes_empty (pk nextPage) (dirs m3) = bool_decide (field_of as_v256 [] sn3 sfIndexes = [])) as -> by (unfold indexes_empty; by rewrite (Hd : dirs m3 !! pk nextPage = _)).
  destruct (negb (nextPage =? 0) && (field_of as_u64 0 sn3 sfIndexNext =? 0) && bool_decide (field_of as_v256 [] sn3 sfIndexes = [])).
  2: { rewrite (run_step _ _ _ _ _ m3) by done. by apply remove_end_agrees. }
  rewrite run_assoc, res_assoc. refine (erase_agrees (kl nextPage) m3 d _ _ eq_refl Hm3 _). intros m4 Hm4 _ E4.
  rewrite run_assoc, res_assoc. refine (update_agrees (kl prevPage) _ _ m4 d _ _ eq_refl (act_next 0) Hm4 _). intros m5 Hm5 _ E5.
  rewrite run_assoc, run_peek_step. rewrite (shown_page m5 (kl 0) eq_refl : dirs m5 !! pk 0 = _). destruct (shown m5 (kl 0)) as [s0|] eqn:Hs0; cbn [fmap option_fmap option_map]; [|by eexists].
  rewrite run_assoc, res_assoc. refine (update_agrees (kl 0) _ _ m5 d _ _ eq_refl (act_previous prevPage) Hm5 _). intros m6 Hm6 _ E6.
  rewrite (run_step _ _ _ _ _ m6) by done. apply remove_end_agrees; [done|]. apply shown_dom. rewrite (update_dom _ _ _ _ _ E6).
  unfold update in E5. destruct (dirs m4 !! kl_key (kl prevPage)) as [n|]; [|done]. injection E5 as <-. by rewrite lookup_insert_eq.
Qed.

(** Removing, in a ledger and in Directory.v. *)
Lemma dirRemove_agrees page key keepRoot m d : ledger_ok m -> pages_distinct page_digest (kl_key dir) -> in_u64 page ->
  (forall n, dirs m !! pk page = Some n -> in_u64 (Directory.sfIndexPrevious n) /\ in_u64 (Directory.sfIndexNext n)) ->
  agrees d (dirRemove page_digest (kl_key dir) page key keepRoot (dirs m)) (run_map (view_dirRemove sha512Half dir page key keepRoot) (m, d)).
Proof.
  intros Hm Hpk Hp Hlinks. unfold dirRemove, view_dirRemove. rewrite run_peek_step. rewrite (shown_page m (kl page) eq_refl : dirs m !! pk page = _) in *.
  destruct (shown m (kl page)) as [s|] eqn:Hs; cbn [fmap option_fmap option_map]; [|apply agrees_ret]. destruct (Hlinks _ eq_refl) as [Hpr Hnx].
  destruct (shown_ok m Hm (kl page) s eq_refl Hs) as (_ & Hok & Ht & _). rewrite (run_lift_step _ _ _ _ _ (get_indexes_page s Hok Ht)).
  change (Directory.sfIndexes (node_of_sle s)) with (field_of as_v256 [] s sfIndexes). case_bool_decide; [|apply agrees_ret]. cbv zeta.
  refine (update_agrees (kl page) _ _ m d _ _ eq_refl (act_indexes _) Hm _). intros m1 Hm1 _ E1. destruct (negb _); [apply agrees_ret|].
  rewrite (run_lift_step _ _ _ _ _ (get_u64_page s sfIndexPrevious Hok Ht (or_intror eq_refl))), (run_lift_step _ _ _ _ _ (get_u64_page s sfIndexNext Hok Ht (or_introl eq_refl))).
  destruct (page =? 0); [by apply remove_root_agrees|by apply remove_page_agrees].
Qed.
End Remove.
End Agree.

(** ** Only pages of the directory change *)

(** A program changes no entries but those at the keys [K]. *)
Definition confined (K : Z -> Prop) {A} (p : prog A) : Prop :=
  forall m d a m' d', run_map p (m, d) = Ok (a, (m', d')) -> forall k, ~ K k -> m' !! k = m !! k.

Section Confined.
Context (K : Z -> Prop).

Lemma confined_ret {A} (a : A) : confined K (mret a).
Proof. by intros m d b m' d' [_ [= -> ->]]%run_ret_inv. Qed.

Lemma confined_raise {A} e : confined K (Raise (A := A) e).
Proof. intros m d b m' d' H. discriminate H. Qed.

Lemma confined_bind {A B} (p : prog A) (f : A -> prog B) : confined K p -> (forall a, confined K (f a)) -> confined K (p ≫= f).
Proof. intros Hp Hf m d b m' d' (a & m1 & d1 & E1 & E2)%run_bind_inv k Hk. by rewrite (Hf a _ _ _ _ _ E2 k Hk), (Hp _ _ _ _ _ E1 k Hk). Qed.

Lemma confined_lift {A} (r : res A) : confined K (liftR r).
Proof. intros m d a m' d' [_ [= -> ->]]%run_lift_inv. done. Qed.

Lemma confined_peek k : confined K (peek k).
Proof. by intros m d a m' d' [= <- <- <-]. Qed.

Lemma confined_peek_object k : confined K (peek_object k).
Proof. intros m d a m' d' (s & _ & _ & [= -> ->])%run_peek_object_inv. done. Qed.

Lemma confined_modify k f : K (kl_key k) -> confined K (modify k f).
Proof. intros HK m d a m' d' (s & o & _ & _ & [= -> ->])%run_modify_inv j Hj. apply lookup_insert_ne. by intros <-. Qed.

Lemma confined_erase k : K (kl_key k) -> confined K (erase_sle k).
Proof. intros HK m d a m' d' (s & _ & [= -> ->])%run_erase_inv j Hj. apply lookup_delete_ne. by intros <-. Qed.

Lemma confined_new k F f : writes F f -> K (kl_key k) -> confined K (Entries.insert_new k f).
Proof.
  intros Hf HK m d a m' d' Hr j Hj. unfold Entries.insert_new in Hr. apply run_bind_inv in Hr as (s & m1 & d1 & [Hn [= -> ->]]%run_lift_inv & [_ [= -> ->]]%run_insert_inv).
  destruct (new_sle_inv F _ _ _ Hf Hn) as (_ & _ & Hkey & _). apply lookup_insert_ne. intros E. apply Hj. congruence.
Qed.
End Confined.

Ltac confined_step :=
  match goal with
  | |- confined _ (mret _) => apply confined_ret
  | |- confined _ (Raise _) => apply confined_raise
  | |- confined _ (liftR _) => apply confined_lift
  | |- confined _ (peek _) => apply confined_peek
  | |- confined _ (peek_object _) => apply confined_peek_object
  | |- confined _ (modify _ _) => apply confined_modify
  | |- confined _ (erase_sle _) => apply confined_erase
  | |- confined _ (Entries.insert_new _ _) => apply (confined_new _ _ page_fields); [writes_tac|]
  | |- confined _ (_ ≫= _) => apply confined_bind; [|intros ?]
  | |- confined _ (let _ := _ in _) => cbv zeta
  | |- confined _ (if ?b then _ else _) => destruct b
  | |- confined _ (match ?x with Some _ => _ | None => _ end) => destruct x
  | |- confined _ (let (_, _) := ?x in _) => destruct x
  end.
Ltac confined_tac := repeat confined_step.

Section Pages.
Context (sha512Half : list Z -> Z) (dir : Keylet).

(** The keys of the directory's pages. *)
Definition page_key (k : Z) : Prop := exists p, in_u64 p /\ k = getDirNodeIndex sha512Half (kl_key dir) p.

Lemma page_key_of p : in_u64 p -> page_key (kl_key (keylet_page_of sha512Half dir p)).
Proof. intros Hp. by exists p. Qed.

Lemma page_key_root : page_key (kl_key dir).
Proof. exists 0. split; [unfold in_u64; lia|done]. Qed.

Lemma page_key_last (b : bool) p : in_u64 p -> page_key (kl_key (if b then dir else keylet_page_of sha512Half dir p)).
Proof. intros Hp. destruct b; [apply page_key_root|by apply page_key_of]. Qed.

Lemma dirAdd_confined po key describe m d a m' d' k : writes page_fields describe ->
  (forall s, shown m dir = Some s -> exists p, getFieldU64 (sle_data s) sfIndexPrevious = Ok p /\ in_u64 p) ->
  run_map (view_dirAdd sha512Half po dir key describe) (m, d) = Ok (a, (m', d')) -> ~ page_key k -> m' !! k = m !! k.
Proof.
  intros Hw Hp Hr Hk. unfold view_dirAdd in Hr. rewrite run_mbind, run_peek in Hr. cbn [mbind res_bind] in Hr. pose proof page_key_root as HK0. destruct (shown m dir) as [s|].
  - destruct (Hp s eq_refl) as (p & E & Hpu). rewrite (run_lift_step _ _ _ _ _ E) in Hr. pose proof (page_key_last (p =? 0) p Hpu) as HK1.
    assert (HK2 : page_key (kl_key (keylet_page_of sha512Half dir (u64 (p + 1))))) by (apply page_key_of; unfold in_u64, u64; apply Z.mod_pos_bound; lia).
    revert Hr k Hk. cbv zeta. match goal with |- run_map ?q _ = _ -> _ => assert (Hc : confined page_key q) end; [|intros Hr; exact (Hc m d a m' d' Hr)].
    unfold logic, next_page. confined_tac; done.
  - revert Hr k Hk. match goal with |- run_map ?q _ = _ -> _ => assert (Hc : confined page_key q) end; [|intros Hr; exact (Hc m d a m' d' Hr)].
    unfold first_page. confined_tac. done.
Qed.

(** An addition that is declined changes nothing. *)
Lemma dirAdd_None po key describe m d m' d' : run_map (view_dirAdd sha512Half po dir key describe) (m, d) = Ok (None, (m', d')) -> m' = m.
Proof.
  intros Hr. unfold view_dirAdd in Hr. rewrite run_mbind, run_peek in Hr. cbn [mbind res_bind] in Hr. destruct (shown m dir) as [s|]; [|by apply run_bind_inv in Hr as (? & ? & ? & _ & [? _]%run_ret_inv)].
  apply run_bind_inv in Hr as (p & m1 & d1 & [_ [= -> ->]]%run_lift_inv & Hr). cbv zeta in Hr. rewrite run_mbind, run_peek in Hr. cbn [mbind res_bind] in Hr. destruct (shown m _) as [n|]; [|discriminate Hr].
  apply run_bind_inv in Hr as (es & m1 & d1 & [_ [= -> ->]]%run_lift_inv & Hr). destruct (_ <? _)%nat.
  - by apply run_bind_inv in Hr as (es' & m1 & d1 & _ & (? & ? & ? & _ & [? _]%run_ret_inv)%run_bind_inv).
  - destruct (_ <=? _); [by apply run_ret_inv in Hr as [_ [= -> ->]]|].
    by apply run_bind_inv in Hr as (? & ? & ? & _ & (? & ? & ? & _ & (? & ? & ? & _ & [? _]%run_ret_inv)%run_bind_inv)%run_bind_inv).
Qed.

Lemma remove_confined page prevPage nextPage keepRoot : in_u64 page -> in_u64 prevPage -> in_u64 nextPage ->
  confined page_key (if page =? 0 then view_remove_from_root sha512Half dir prevPage nextPage keepRoot else view_remove_page sha512Half dir page prevPage nextPage keepRoot).
Proof.
  intros H1%page_key_of H2%page_key_of H3%page_key_of. pose proof (page_key_of 0 ltac:(unfold in_u64; lia)) as H0. destruct (page =? 0).
  - unfold view_remove_from_root, logic. confined_tac; done.
  - unfold view_remove_page, logic. confined_tac; done.
Qed.

Lemma dirRemove_confined page key keepRoot m d a m' d' k : in_u64 page ->
  (forall s, shown m (keylet_page_of sha512Half dir page) = Some s -> exists p n, getFieldU64 (sle_data s) sfIndexPrevious = Ok p /\ in_u64 p /\ getFieldU64 (sle_data s) sfIndexNext = Ok n /\ in_u64 n) ->
  run_map (view_dirRemove sha512Half dir page key keepRoot) (m, d) = Ok (a, (m', d')) -> ~ page_key k -> m' !! k = m !! k.
Proof.
  intros Hpage Hl Hr Hk. unfold view_dirRemove in Hr. rewrite run_mbind, run_peek in Hr. cbn [mbind res_bind] in Hr. pose proof (page_key_of page Hpage) as HK.
  destruct (shown m _) as [s|] eqn:Hs; [|by apply run_ret_inv in Hr as [_ [= -> ->]]]. destruct (Hl s eq_refl) as (p & n & E1 & Hp & E2 & Hn). rewrite E1, E2 in Hr.
  revert Hr k Hk. match goal with |- run_map ?q _ = _ -> _ => assert (Hc : confined page_key q) end; [|intros Hr; exact (Hc m d a m' d' Hr)].
  apply confined_bind; [apply confined_lift|intros es]. destruct (bool_decide _); [|apply confined_ret]. cbv zeta. apply confined_bind; [by apply confined_modify|intros _]. destruct (negb _); [apply confined_ret|].
  intros m0 d0 b m1 d1 Hr. rewrite (run_lift_step _ _ _ _ _ eq_refl), (run_lift_step _ _ _ _ _ eq_refl) in Hr. exact (remove_confined page p n keepRoot Hpage Hp Hn _ _ _ _ _ Hr).
Qed.
End Pages.

(** ** Directories in a ledger stay well formed *)

Section Claims.
Context (sha512Half : list Z -> Z) (dir : Keylet).
Abbreviation digest := (page_digest sha512Half).

(** The links of a well-formed directory are page numbers. *)
Lemma links_in_u64 (m : gmap Z (SLE Object)) l page n : dir_ok digest (kl_key dir) (dirs m) l -> in_u64 page ->
  dirs m !! Directory.getDirNodeIndex digest (kl_key dir) page = Some n -> in_u64 (Directory.sfIndexPrevious n) /\ in_u64 (Directory.sfIndexNext n).
Proof.
  intros [Hwf Hst] Hp Hn. rewrite Hst in Hn by done. unfold look in Hn. apply fmap_Some in Hn as (x & [Hx <-]%find_page_Some & ->). cbn.
  assert (H0 : in_u64 0) by (unfold in_u64; lia). assert (Hall : forall y : DirPage unit, y ∈ l -> in_u64 (pg y)) by (intros y Hy; by apply (pages_u64 l)).
  assert (Hps : Forall in_u64 (pg <$> l)) by (apply Forall_fmap, Forall_forall; exact Hall). clear -Hps H0. split.
  - unfold ring_prev. assert (Hlast : in_u64 (last_page 0 (pg <$> l))).
    { destruct (pg <$> l) as [|p ps]; [done|]. pose proof (last_page_in 0 p ps) as Hin. rewrite Forall_forall in Hps. by apply Hps. }
    revert Hlast. generalize (last_page 0 (pg <$> l)) as z. induction Hps as [|p ps Hp Hps IH]; intros z Hz; [done|]. cbn. destruct (p =? pg x); [done|]. by apply IH.
  - unfold ring_next. induction Hps as [|p ps Hp Hps IH]; [done|]. cbn. destruct (p =? pg x); [|done]. by destruct Hps.
Qed.

Lemma links_read m l page s : ledger_ok m -> dir_ok digest (kl_key dir) (dirs m) l -> in_u64 page -> shown m (keylet_page_of sha512Half dir page) = Some s ->
  exists p n, getFieldU64 (sle_data s) sfIndexPrevious = Ok p /\ in_u64 p /\ getFieldU64 (sle_data s) sfIndexNext = Ok n /\ in_u64 n.
Proof.
  intros Hm Hok Hp Hs. destruct (shown_ok m Hm (keylet_page_of sha512Half dir page) s eq_refl Hs) as (_ & Hso & Ht & _ & Hd). destruct (links_in_u64 m l page _ Hok Hp Hd) as [H1 H2].
  eexists _, _. split; [by apply get_u64_page; auto|]. split; [exact H1|]. split; [by apply get_u64_page; auto|exact H2].
Qed.

(** Only pages of this directory are different. *)
Definition only_pages (m m' : gmap Z (SLE Object)) : Prop := forall k, ~ page_key sha512Half dir k -> m' !! k = m !! k.

(** What [dirAdd] leaves. *)
Definition added (preserveOrder : bool) (key : Z) (m : gmap Z (SLE Object)) (l : list (DirPage unit)) (d : Z) (r : res (option Z * (gmap Z (SLE Object) * Z))) : Prop :=
  match r with
  | Ok (Some p, (m', d')) =>
      ledger_ok m' /\ same_money m m' /\ same_outside [ltDIR_NODE] m m' /\ only_pages m m' /\ d' = d /\
      exists l', dir_ok digest (kl_key dir) (dirs m') l' /\ (exists x, x ∈ l' /\ pg x = p /\ key ∈ pg_entries x) /\
        if preserveOrder then dir_entries l' = dir_entries l ++ [key] else dir_entries l' ≡ₚ key :: dir_entries l
  | Ok (None, (m', d')) =>
      m' = m /\ d' = d /\
      exists b x, l = b ++ [x] /\ length (pg_entries x) = dirNodeMaxEntries /\ pg x = dirNodeMaxPages - 1
  | Throw _ => key ∈ dir_entries l
  end.

(** C29. Adding to a directory of the ledger. In a well-formed ledger, on a directory
    whose pages are linked in a ring in ascending order from the root with at most 32
    entries each, [ApplyView::dirAdd] returns the page it put the key on, keeps the
    ledger and the directory well formed, changes no entry but pages of this directory
    and moves no SFC, and adds exactly that key: at the end of the whole listing when
    order is preserved, otherwise somewhere in its page. It declines only when the last
    page is full and is page 262143, changing nothing, and it fails only on an entry the
    directory already has. *)
Theorem ledger_dirAdd preserveOrder key describe m l d : kl_type dir = ltDIR_NODE -> page_action describe id -> writes page_fields describe ->
  ledger_ok m -> page_keys sha512Half dir m -> pages_distinct digest (kl_key dir) -> dir_ok digest (kl_key dir) (dirs m) l ->
  added preserveOrder key m l d (run_map (view_dirAdd sha512Half preserveOrder dir key describe) (m, d)).
Proof.
  intros Hk Hd Hw Hm Hkeys Hpk Hok. pose proof (dirAdd_agrees sha512Half preserveOrder dir key describe m d Hk Hd Hm Hkeys) as Ha.
  pose proof (dirAdd_correct digest tt (kl_key dir) preserveOrder key id (dirs m) l Hpk Hok) as Hc. unfold agrees, dirAdd_post in *.
  destruct (dirAdd digest tt preserveOrder (kl_key dir) key id (dirs m)) as [[[p|] st]|e].
  - destruct Ha as (m' & Er & <-). rewrite Er. cbn. destruct (neutral_dirAdd sha512Half preserveOrder dir key describe Hk Hw m d (Some p) m' d Hm Er) as (H1 & H2 & H3 & _).
    destruct Hc as (l' & Hl & _ & Hx & He). split_and!; [done..| |done|by exists l'].
    intros k. apply (dirAdd_confined sha512Half dir preserveOrder key describe m d (Some p) m' d k Hw); [|exact Er]. intros s Hs.
    destruct (links_read m l 0 s Hm Hok) as (q & n & E & Hq & _); [unfold in_u64; lia| |by exists q].
    by destruct dir as [ty kk]; cbn in Hk; subst ty.
  - destruct Ha as (m' & Er & Est). rewrite Er. cbn. apply dirAdd_None in Er as ->. by destruct Hc as [_ Hx].
  - destruct Ha as (e' & ->). apply Hc.
Qed.

(** A removal that finds nothing changes nothing. *)
Lemma dirRemove_false page key keepRoot m l d m' : ledger_ok m -> dir_ok digest (kl_key dir) (dirs m) l -> in_u64 page ->
  (forall x, x ∈ l -> pg x = page -> key ∉ pg_entries x) -> run_map (view_dirRemove sha512Half dir page key keepRoot) (m, d) = Ok (false, (m', d)) -> m' = m.
Proof.
  intros Hm [_ Hst] Hp Hno Hr. unfold view_dirRemove in Hr. rewrite run_mbind, run_peek in Hr. cbn [mbind res_bind] in Hr.
  destruct (shown m _) as [s|] eqn:Hs; [|by apply run_ret_inv in Hr as [_ [= ->]]]. destruct (shown_ok m Hm (keylet_page_of sha512Half dir page) s eq_refl Hs) as (_ & Hok & Ht & _ & Hd).
  rewrite (run_lift_step _ _ _ _ _ (get_indexes_page s Hok Ht)) in Hr. case_bool_decide as Hin; [|by apply run_ret_inv in Hr as [_ [= ->]]].
  pose proof (Hst page Hp) as Hx. assert (Hd' : dirs m !! Directory.getDirNodeIndex digest (kl_key dir) page = Some (node_of_sle s)) by exact Hd. rewrite Hd' in Hx.
  symmetry in Hx. unfold look in Hx. apply fmap_Some in Hx as (x & [Hxl Hxp]%find_page_Some & Hn). destruct (Hno x Hxl Hxp). apply (f_equal Directory.sfIndexes) in Hn. cbn in Hn. by rewrite <-Hn.
Qed.

(** C33. Removing from a directory of the ledger. In a well-formed ledger, on a
    well-formed directory, [ApplyView::dirRemove] never fails. It returns false,
    changing nothing, when the named page does not hold the key; otherwise it removes
    that one entry and keeps all others in their order and on their pages, keeps the
    ledger and the directory well formed, changes no entry but pages of this directory
    and moves no SFC. A page that this empties is erased and unlinked unless it is the
    root, wherever in the chain it is, together with an empty last page right after it;
    so a page without entries that is not the root was empty before. The whole
    directory is gone exactly when no entry is left and the root need not be kept. *)
Theorem ledger_dirRemove page key keepRoot m l d : ledger_ok m -> pages_distinct digest (kl_key dir) -> dir_ok digest (kl_key dir) (dirs m) l -> in_u64 page ->
  exists r m', run_map (view_dirRemove sha512Half dir page key keepRoot) (m, d) = Ok (r, (m', d)) /\
    ledger_ok m' /\ same_money m m' /\ same_outside [ltDIR_NODE] m m' /\ only_pages m m' /\ (r = false -> m' = m) /\ dirRemove_post digest (kl_key dir) page key keepRoot (dirs m) l r (dirs m').
Proof.
  intros Hm Hpk Hok Hp. pose proof (dirRemove_agrees sha512Half dir page key keepRoot m d Hm Hpk Hp (fun n => links_in_u64 m l page n Hok Hp)) as Ha.
  destruct (dirRemove_correct digest (kl_key dir) page key keepRoot (dirs m) l Hpk Hok Hp) as (r & st & E & Hpost). rewrite E in Ha. destruct Ha as (m' & Er & <-).
  destruct (neutral_dirRemove sha512Half dir page key keepRoot m d r m' d Hm Er) as (H1 & H2 & H3 & _). exists r, m'. split_and!; try done.
  - intros k. apply (dirRemove_confined sha512Half dir page key keepRoot m d r m' d k Hp); [|exact Er]. intros s. by apply (links_read m l).
  - intros ->. destruct Hpost as (l' & _ & _ & _ & Hno). by apply (dirRemove_false page key keepRoot m l d).
Qed.
End Claims.

(** ** Witnesses *)

(** The directory of account 5: a full root and a second page of one entry. *)
Definition wdir : Keylet := keylet_ownerDir id_digest 5.
Definition wpages : list (DirPage unit) := [mkDirPage 0 (seqZ 1 32) tt; mkDirPage 1 [50] tt].
Definition wledger : gmap Z (SLE Object) :=
  {[ kl_key wdir := wentry wdir (fun o => o ← setFieldH256 o sfRootIndex (kl_key wdir); o ← setFieldV256 o sfIndexes (seqZ 1 32); o ← setFieldU64 o sfIndexPrevious 1; setFieldU64 o sfIndexNext 1);
     kl_key (keylet_page_of id_digest wdir 1) := wentry (keylet_page_of id_digest wdir 1) (fun o => o ← setFieldH256 o sfRootIndex (kl_key wdir); setFieldV256 o sfIndexes [50]) ]}.

Lemma id_digest_inj l l' : Forall is_byte l -> Forall is_byte l' -> length l = length l' -> id_digest l = id_digest l' -> l = l'.
Proof.
  intros Hl Hl' Hlen E. unfold id_digest in E. apply (f_equal (fun z => Z.shiftr z 64)) in E. rewrite !Z.shiftr_shiftl_l, !Z.sub_diag, !Z.shiftl_0_r in E by lia.
  rewrite !from_bytes_cons, Hlen in E. apply from_bytes_inj; [done..|lia].
Qed.

Lemma page_preimage_bytes root p : Forall is_byte (ns spaceDirNode ++ big_endian 32 root ++ big_endian 8 p).
Proof. rewrite !Forall_app. split_and!; apply big_endian_bytes. Qed.

Lemma wdir_distinct : pages_distinct (page_digest id_digest) (kl_key wdir).
Proof.
  assert (Hbig : forall p, page_digest id_digest (kl_key wdir) p <> kl_key wdir).
  { intros p E. unfold page_digest, id_digest at 1 in E. set (l := _ ++ _) in E. assert (Hl : length l = 42%nat) by (subst l; rewrite !length_app; unfold ns; by rewrite !length_big_endian).
    pose proof (from_bytes_range l (page_preimage_bytes _ p)) as Hr. rewrite from_bytes_cons, Hl in E. rewrite Hl in Hr. change (Z.of_nat 42) with 42 in *. rewrite Z.shiftl_mul_pow2 in E by lia.
    assert (HK : kl_key wdir < 256 ^ 42 * 2 ^ 64) by (vm_compute; reflexivity). set (b := from_bytes l) in *. clearbody b. revert E HK Hr. generalize (kl_key wdir). clear. intros K. lia. }
  intros p q Hp Hq. unfold Directory.getDirNodeIndex. destruct (Z.eqb_spec p 0) as [->|Hp0], (Z.eqb_spec q 0) as [->|Hq0]; [done|intros E; by destruct (Hbig q)|intros E; by destruct (Hbig p)|].
  intros E. apply id_digest_inj in E; [|apply page_preimage_bytes..|by rewrite !length_app, !length_big_endian].
  apply app_inv_head in E. apply app_inv_head in E. apply (f_equal from_bytes) in E. rewrite !from_bytes_be in E.
  unfold in_u64 in *. rewrite !Z.mod_small in E by (cbn; lia). done.
Qed.

Lemma wpage_ok k f : kl_type k = ltDIR_NODE -> writes page_fields f -> new_sle k f = Ok (wentry k f) -> sle_key (wentry k f) = kl_key k /\ sle_type (wentry k f) = ltDIR_NODE /\ sle_ok (wentry k f) /\ money_ok (wentry k f).
Proof. intros Hk Hw (Hok & Ht & Hkey & _)%(new_sle_inv page_fields); [|done]. rewrite Hk in Ht. split_and!; [done..|]. apply money_ok_other. by rewrite Ht. Qed.

Lemma wledger_pages k s : wledger !! k = Some s -> sle_key s = k /\ sle_type s = ltDIR_NODE /\ sle_ok s /\ money_ok s.
Proof.
  unfold wledger. intros [[<- <-]|[_ [<- <-]%lookup_singleton_Some]]%lookup_insert_Some; (apply wpage_ok; [done|writes_tac|vm_compute; reflexivity]).
Qed.

Lemma wledger_ok : ledger_ok wledger.
Proof. intros k s (? & ? & ? & ?)%wledger_pages. done. Qed.

Lemma wpages_keys_ok : page_keys id_digest wdir wledger.
Proof. intros q s _ (_ & ? & _)%wledger_pages. done. Qed.

Lemma wledger_dir : dir_ok (page_digest id_digest) (kl_key wdir) (dirs wledger) wpages.
Proof.
  split.
  - split; [done|by repeat constructor| | |].
    1,2: intros x Hx; repeat (apply elem_of_cons in Hx as [->|Hx]; [vm_compute; (done || lia)|]); by apply elem_of_nil in Hx.
    intros i x Hi H0 HS. cbn in HS. lia.
  - intros q Hq. rewrite dirs_lookup. destruct (decide (q = 0)) as [->|H0]; [by vm_compute|]. destruct (decide (q = 1)) as [->|H1]; [by vm_compute|].
    assert (wledger !! Directory.getDirNodeIndex (page_digest id_digest) (kl_key wdir) q = None) as ->.
    { destruct (wledger !! _) as [s|] eqn:E; [|done]. exfalso. unfold wledger in E. apply lookup_insert_Some in E as [[E _]|[_ [E _]%lookup_singleton_Some]].
      - exact (H0 (eq_sym (wdir_distinct 0 q ltac:(unfold in_u64; lia) Hq E))).
      - exact (H1 (eq_sym (wdir_distinct 1 q ltac:(unfold in_u64; lia) Hq E))). }
    unfold look, wpages, find_page. cbn [pg]. rewrite (proj2 (Z.eqb_neq 0 q)), (proj2 (Z.eqb_neq 1 q)) by lia. done.
Qed.

Lemma ledger_dirAdd_witness : added id_digest wdir true 60 wledger wpages 7 (run_map (view_dirAdd id_digest true wdir 60 (describeOwnerDir 5)) (wledger, 7)).
Proof.
  apply ledger_dirAdd; [done| |apply writes_describeOwnerDir|exact wledger_ok|exact wpages_keys_ok|exact wdir_distinct|exact wledger_dir].
  apply describeOwnerDir_action.
Defined.

Lemma ledger_dirRemove_witness : exists r m', run_map (view_dirRemove id_digest wdir 1 50 false) (wledger, 7) = Ok (r, (m', 7)) /\ ledger_ok m' /\
  dirRemove_post (page_digest id_digest) (kl_key wdir) 1 50 false (dirs wledger) wpages r (dirs m').
Proof.
  destruct (ledger_dirRemove id_digest wdir 1 50 false wledger wpages 7 wledger_ok wdir_distinct wledger_dir) as (r & m' & E & H & _ & _ & _ & _ & Hp); [unfold in_u64; lia|].
  exists r, m'. split; [exact E|]. split; [exact H|exact Hp].
Defined.
