(* ===== verification/LedgerView.v ===== *)
(** * Functions on a view

    Models ledger/impl/View.cpp: what an account holds and may spend, freezes, owner
    counts, and the changes transactors make to trust lines, offers and balances. The
    hooks of a view are those of [ReadView] and [ApplyView], which change nothing;
    assertions are not modelled. A pointer that is used without a test is a
    [null_pointer] exception where there is no entry. *)

From S2P Require Import Prelude Directory View RawStateTable ApplyStateTable STAmount SField STObject STAccess TER Indexes Formats Prog Invariants Entries OwnerDir.

(** ** Switch-over times *)

Definition fix1141Time : Z := 520707600.
Definition fix1274Time : Z := 528570000.
Definition fix1298Time : Z := 535658400.
Definition fix1443Time : Z := 542595600.
Definition fix1449Time : Z := 544219200.

Definition fix1141 (closeTime : Z) : bool := fix1141Time <? closeTime.
Definition fix1274 (closeTime : Z) : bool := fix1274Time <? closeTime.
Definition fix1298 (closeTime : Z) : bool := fix1298Time <? closeTime.
Definition fix1443 (closeTime : Z) : bool := fix1443Time <? closeTime.
Definition fix1449 (closeTime : Z) : bool := fix1449Time <? closeTime.

(** ** Amounts *)

Definition noAccount : Z := 1.
Definition sfcAccount : Z := 0.

(** [STAmount::setIssuer] and [clear (issue)]. *)
Definition setIssuer (a : STAmount) (issuer : Z) : STAmount := setIssue a (mkIssue (currency (mIssue a)) issuer).
Definition clear_to (a : STAmount) (issue : Issue) : STAmount := clear (setIssue a issue).
Definition zeroed (a : STAmount) : res STAmount := zeroOf (mIssue a).

(** A test of some bits of the flags. *)
Definition has_flags (flags bits : Z) : bool := negb (Z.land flags bits =? 0).

(** [Rate]: billionths, and the product of protocol/impl/Rate2.cpp. *)
Definition parityRate : Z := 1000000000.
Definition rate_as_amount (rate : Z) : res STAmount := make noIssue rate (-9) false.
Definition multiply_rate (amount : STAmount) (rate : Z) : res STAmount :=
  if rate =? parityRate then Ok amount else (r ← rate_as_amount rate; multiply amount r (mIssue amount)).

Inductive FreezeHandling := fhIGNORE_FREEZE | fhZERO_IF_FROZEN.

(** Prevents an owner count from wrapping. *)
Definition confineOwnerCount (current adjustment : Z) : Z :=
  let adjusted := u32 (current + adjustment) in
  if 0 <? adjustment then (if adjusted <? current then 2 ^ 32 - 1 else adjusted)
  else (if current <? adjusted then 0 else adjusted).

Section View.
Context (sha512Half : list Z -> Z) (info : ViewInfo).

Abbreviation acct := (keylet_account sha512Half).
Abbreviation line := (keylet_line sha512Half).

(** ** Observers *)

Definition isGlobalFrozen (issuer : Z) : prog bool :=
  if isSFC issuer then mret false else
  sle ← read (acct issuer);
  mret (match sle with Some s => isFlag (sle_data s) lsfGlobalFreeze | None => false end).

Definition isFrozen (account currency issuer : Z) : prog bool :=
  if isSFC currency then mret false else
  sle ← read (acct issuer);
  if match sle with Some s => isFlag (sle_data s) lsfGlobalFreeze | None => false end then mret true else
  if negb (issuer =? account) then
    sle ← read (line account issuer currency);
    mret (match sle with Some s => isFlag (sle_data s) (if account <? issuer then lsfHighFreeze else lsfLowFreeze) | None => false end)
  else mret false.

(** The balance less the reserve, and not less than 0. *)
Definition sfcLiquid (id ownerCountAdj : Z) : prog Z :=
  sle ← read (acct id);
  match sle with
  | None => mret 0
  | Some s =>
      count ← liftR (getFieldU32 (sle_data s) sfOwnerCount);
      let ownerCount := if fix1141 (parentCloseTime info) then confineOwnerCount count ownerCountAdj else count in
      reserve ← liftR (ofSFC (accountReserve (fees info) ownerCount));
      balance ← liftR (getFieldAmount (sle_data s) sfBalance);
      amount ← liftR (op_sub balance reserve);
      short ← liftR (op_lt balance reserve);
      liftR (sfc (if short : bool then clear amount else amount))
  end.

Definition accountHolds (account currency issuer : Z) (zeroIfFrozen : FreezeHandling) : prog STAmount :=
  if isSFC currency then drops ← sfcLiquid account 0; liftR (ofSFC drops) else
  sle ← read (line account issuer currency);
  match sle with
  | None => mret (clear_to (ofUnsigned 0) (mkIssue currency issuer))
  | Some s =>
      frozen ← (match zeroIfFrozen with fhZERO_IF_FROZEN => isFrozen account currency issuer | fhIGNORE_FREEZE => mret false end);
      if frozen : bool then mret (clear_to (ofUnsigned 0) (mkIssue currency issuer)) else
      amount ← liftR (getFieldAmount (sle_data s) sfBalance);
      mret (setIssuer (if issuer <? account then negate amount else amount) issuer)
  end.

Definition accountFunds (id : Z) (saDefault : STAmount) (freezeHandling : FreezeHandling) : prog STAmount :=
  if negb (mIsNative saDefault) && (account (mIssue saDefault) =? id) then mret saDefault
  else accountHolds id (currency (mIssue saDefault)) (account (mIssue saDefault)) freezeHandling.

Definition transferRate (issuer : Z) : prog Z :=
  sle ← read (acct issuer);
  match sle with
  | Some s => if isFieldPresent (sle_data s) sfTransferRate then liftR (getFieldU32 (sle_data s) sfTransferRate) else mret parityRate
  | None => mret parityRate
  end.

(** The amendments that are enabled, and those with a majority since a time. *)
Definition getEnabledAmendments : prog (gset Z) :=
  sle ← read (keylet_amendments sha512Half);
  match sle with
  | Some s => if isFieldPresent (sle_data s) sfAmendments then v ← liftR (getFieldV256 (sle_data s) sfAmendments); mret (list_to_set v) else mret ∅
  | None => mret ∅
  end.

Definition majority_of (e : SField * Fields) : res (Z * Z) :=
  let o := mkObject e.2 (findSOTemplateBySField e.1) in
  a ← getFieldH256 o sfAmendment; t ← getFieldU32 o sfCloseTime; Ok (a, t).

Definition getMajorityAmendments : prog (gmap Z Z) :=
  sle ← read (keylet_amendments sha512Half);
  match sle with
  | Some s =>
      if isFieldPresent (sle_data s) sfMajorities then
        majorities ← liftR (getFieldArray (sle_data s) sfMajorities);
        l ← liftR (mapR majority_of majorities);
        mret (foldl (fun ret e => <[e.1 := e.2]> ret) ∅ l)
      else mret ∅
  | None => mret ∅
  end.

(** ** Modifiers *)

Definition adjustOwnerCount (k : Keylet) (amount : Z) : prog unit :=
  modify k (fun o =>
    current ← getFieldU32 o sfOwnerCount;
    _ ← at_field as_account 0 o sfAccount;
    setFieldU32 o sfOwnerCount (confineOwnerCount current amount)).

(** Makes a trust line between two accounts, in both their directories; [bSrcHigh]
    says whether the source is the account with the higher identifier, and
    [saLimit]'s issuer which side's limit is set. *)
Definition trustCreate (bSrcHigh : bool) (uSrcAccountID uDstAccountID uIndex account_set : Z) (bAuth bNoSupplyFinanceChain bFreeze : bool)
    (saBalance saLimit : STAmount) (uQualityIn uQualityOut : Z) : prog Z :=
  let uLowAccountID := if negb bSrcHigh then uSrcAccountID else uDstAccountID in
  let uHighAccountID := if bSrcHigh then uSrcAccountID else uDstAccountID in
  let k := mkKeylet ltSUPPLYFINANCECHAIN_STATE uIndex in
  _ ← insert_new k Ok;
  lowNode ← dirAdd_at sha512Half info (keylet_ownerDir sha512Half uLowAccountID) uIndex false (describeOwnerDir uLowAccountID);
  match lowNode with None => mret (tecDIR_FULL : Z) | Some lowNode =>
  highNode ← dirAdd_at sha512Half info (keylet_ownerDir sha512Half uHighAccountID) uIndex false (describeOwnerDir uHighAccountID);
  match highNode with None => mret (tecDIR_FULL : Z) | Some highNode =>
  let bSetDst := account (mIssue saLimit) =? uDstAccountID in
  let bSetHigh := xorb bSrcHigh bSetDst in
  slePeer ← peek (acct (if bSetHigh then uLowAccountID else uHighAccountID));
  peer_limit ← liftR (zeroOf (mkIssue (currency (mIssue saBalance)) (if bSetDst then uSrcAccountID else uDstAccountID)));
  _ ← modify k (fun o =>
    o ← setFieldU64 o sfLowNode lowNode;
    o ← setFieldU64 o sfHighNode highNode;
    o ← setFieldAmount o (if bSetHigh then sfHighLimit else sfLowLimit) saLimit;
    o ← setFieldAmount o (if bSetHigh then sfLowLimit else sfHighLimit) peer_limit;
    o ← (if negb (uQualityIn =? 0) then setFieldU32 o (if bSetHigh then sfHighQualityIn else sfLowQualityIn) uQualityIn else Ok o);
    if negb (uQualityOut =? 0) then setFieldU32 o (if bSetHigh then sfHighQualityOut else sfLowQualityOut) uQualityOut else Ok o);
  match slePeer with None => Raise null_pointer | Some slePeer =>
  let uFlags : Z := if bSetHigh then lsfHighReserve else lsfLowReserve in
  let uFlags := if bAuth then Z.lor uFlags (if bSetHigh then lsfHighAuth else lsfLowAuth) else uFlags in
  let uFlags := if bNoSupplyFinanceChain then Z.lor uFlags (if bSetHigh then lsfHighNoSupplyFinanceChain else lsfLowNoSupplyFinanceChain) else uFlags in
  let uFlags := if bFreeze then Z.lor uFlags (if negb bSetHigh then lsfLowFreeze else lsfHighFreeze) else uFlags in
  let uFlags := if negb (has_flags (getFlags (sle_data slePeer)) lsfDefaultSupplyFinanceChain)
                then Z.lor uFlags (if bSetHigh then lsfLowNoSupplyFinanceChain else lsfHighNoSupplyFinanceChain) else uFlags in
  _ ← modify k (fun o => setFieldU32 o sfFlags uFlags);
  _ ← adjustOwnerCount (acct account_set) 1;
  _ ← modify k (fun o => setFieldAmount o sfBalance (if bSetHigh then op_neg saBalance else saBalance));
  mret (tesSUCCESS : Z)
  end end end.

(** Takes a line out of both directories and erases it. [final] is the change the
    caller has made to the entry, of which the view hears only when it is erased. *)
Definition trustDelete_as (k : Keylet) (uLowAccountID uHighAccountID : Z) (state : Object) (final : Object -> res Object) : prog Z :=
  uLowNode ← liftR (getFieldU64 state sfLowNode);
  uHighNode ← liftR (getFieldU64 state sfHighNode);
  low ← view_dirRemove sha512Half (keylet_ownerDir sha512Half uLowAccountID) uLowNode (kl_key k) false;
  if negb low then mret (tefBAD_LEDGER : Z) else
  high ← view_dirRemove sha512Half (keylet_ownerDir sha512Half uHighAccountID) uHighNode (kl_key k) false;
  if negb high then mret (tefBAD_LEDGER : Z) else
  _ ← modify k final;
  _ ← erase_sle k;
  mret (tesSUCCESS : Z).

Definition trustDelete (k : Keylet) (uLowAccountID uHighAccountID : Z) : prog Z :=
  o ← peek_object k; trustDelete_as k uLowAccountID uHighAccountID o Ok.

(** [offerDelete] of the offer at a key. *)
Definition offerDelete (offerIndex : Z) : prog Z :=
  let k := mkKeylet ltOFFER offerIndex in
  sle ← peek k;
  match sle with
  | None => mret (tesSUCCESS : Z)
  | Some sle =>
      owner ← liftR (getAccountID (sle_data sle) sfAccount);
      uDirectory ← liftR (getFieldH256 (sle_data sle) sfBookDirectory);
      ownerNode ← liftR (getFieldU64 (sle_data sle) sfOwnerNode);
      removed ← view_dirRemove sha512Half (keylet_ownerDir sha512Half owner) ownerNode offerIndex false;
      if negb removed then mret (tefBAD_LEDGER : Z) else
      bookNode ← liftR (getFieldU64 (sle_data sle) sfBookNode);
      removed ← view_dirRemove sha512Half (keylet_page sha512Half uDirectory 0) bookNode offerIndex false;
      if negb removed then mret (tefBAD_LEDGER : Z) else
      _ ← adjustOwnerCount (acct owner) (-1);
      _ ← erase_sle k;
      mret (tesSUCCESS : Z)
  end.

(** The sender's side of a trust line comes to its default state: the balance is no
    longer positive, a reserve is held, and nothing else is set. *)
Definition sender_clears (bSenderHigh : bool) (uSenderID : Z) (state : Object) (uFlags : Z) (before after : STAmount) : prog bool :=
  let side {A} (low high : A) := if negb bSenderHigh then low else high in
  if negb (0 <? signum before) then mret false else
  if 0 <? signum after then mret false else
  if negb (has_flags uFlags (side lsfLowReserve lsfHighReserve)) then mret false else
  sender ← read_object (acct uSenderID);
  if Bool.eqb (has_flags uFlags (side lsfLowNoSupplyFinanceChain lsfHighNoSupplyFinanceChain)) (has_flags (getFlags sender) lsfDefaultSupplyFinanceChain) then mret false else
  if has_flags uFlags (side lsfLowFreeze lsfHighFreeze) then mret false else
  limit ← liftR (getFieldAmount state (side sfLowLimit sfHighLimit));
  if negb (is_zero limit) then mret false else
  qin ← liftR (getFieldU32 state (side sfLowQualityIn sfHighQualityIn));
  if negb (qin =? 0) then mret false else
  qout ← liftR (getFieldU32 state (side sfLowQualityOut sfHighQualityOut));
  mret (qout =? 0).

(** The bits of the flags less the sender's reserve. *)
Definition clear_reserve (bSenderHigh : bool) (uFlags : Z) : Z :=
  Z.land uFlags (Z.land (Z.lnot (if negb bSenderHigh then lsfLowReserve else lsfHighReserve)) (Z.ones 32)).

(** The line's new balance from the sender's view, and what follows from it: the
    owner count and the reserve flag, and the deletion of the line when its balance is
    zero and the receiver holds no reserve. *)
Definition settle_line (k : Keylet) (bSenderHigh : bool) (uSenderID uReceiverID : Z) (state : Object) (before after : STAmount) : prog Z :=
  uFlags ← liftR (getFieldU32 state sfFlags);
  clears ← sender_clears bSenderHigh uSenderID state uFlags before after;
  _ ← (if clears : bool then adjustOwnerCount (acct uSenderID) (-1) else mret ());
  let bDelete := clears && is_zero after && negb (has_flags uFlags (if bSenderHigh then lsfLowReserve else lsfHighReserve)) in
  let balance := if bSenderHigh then negate after else after in
  let final := fun o =>
    o ← (if clears then setFieldU32 o sfFlags (clear_reserve bSenderHigh uFlags) else Ok o);
    setFieldAmount o sfBalance balance in
  if bDelete then trustDelete_as k (if bSenderHigh then uReceiverID else uSenderID) (if negb bSenderHigh then uReceiverID else uSenderID) state final
  else (_ ← modify k final; mret (tesSUCCESS : Z)).

(** Direct send without fees, over the line of the two accounts. *)
Definition SupplyFinanceChainCredit (uSenderID uReceiverID : Z) (saAmount : STAmount) : prog Z :=
  let bSenderHigh := uReceiverID <? uSenderID in
  let uIndex := getSupplyFinanceChainStateIndex sha512Half uSenderID uReceiverID (currency (mIssue saAmount)) in
  let k := mkKeylet ltSUPPLYFINANCECHAIN_STATE uIndex in
  state ← peek k;
  match state with
  | None =>
      saReceiverLimit ← liftR (zeroOf (mkIssue (currency (mIssue saAmount)) uReceiverID));
      receiver ← peek_object (acct uReceiverID);
      trustCreate bSenderHigh uSenderID uReceiverID uIndex uReceiverID false (negb (has_flags (getFlags receiver) lsfDefaultSupplyFinanceChain)) false
        (setIssuer saAmount noAccount) saReceiverLimit 0 0
  | Some s =>
      saBalance ← liftR (getFieldAmount (sle_data s) sfBalance);
      let saBefore := if bSenderHigh then negate saBalance else saBalance in
      saBalance ← liftR (op_sub saBefore saAmount);
      settle_line k bSenderHigh uSenderID uReceiverID (sle_data s) saBefore saBalance
  end.

(** The fee of an issuer for a transfer between others. *)
Definition SupplyFinanceChainTransferFee (from to issuer : Z) (amount : STAmount) : prog STAmount :=
  if negb (from =? issuer) && negb (to =? issuer) then
    rate ← transferRate issuer;
    if negb (rate =? parityRate) then p ← liftR (multiply_rate amount rate); liftR (op_sub p amount)
    else liftR (zeroed amount)
  else liftR (zeroed amount).

(** Sends regardless of limits: the result and what it cost. The result of a direct
    credit is not looked at. *)
Definition SupplyFinanceChainSend (uSenderID uReceiverID : Z) (saAmount : STAmount) : prog (Z * STAmount) :=
  let issuer := account (mIssue saAmount) in
  if (uSenderID =? issuer) || (uReceiverID =? issuer) || (issuer =? noAccount) then
    _ ← SupplyFinanceChainCredit uSenderID uReceiverID saAmount; mret ((tesSUCCESS : Z), saAmount)
  else
    saActual ←
      (if negb (fix1141 (parentCloseTime info)) then
         fee ← SupplyFinanceChainTransferFee uSenderID uReceiverID issuer saAmount;
         a ← (if is_zero fee then mret saAmount else liftR (op_add saAmount fee));
         mret (setIssuer a issuer)
       else rate ← transferRate issuer; liftR (multiply_rate saAmount rate));
    terResult ← SupplyFinanceChainCredit issuer uReceiverID saAmount;
    terResult ← (if terResult =? tesSUCCESS then SupplyFinanceChainCredit uSenderID issuer saActual else mret terResult);
    mret (terResult, saActual).

Definition failed_processing : Z := if is_open info then telFAILED_PROCESSING else tecFAILED_PROCESSING.

Definition accountSend (uSenderID uReceiverID : Z) (saAmount : STAmount) : prog Z :=
  if is_zero saAmount || (uSenderID =? uReceiverID) then mret (tesSUCCESS : Z) else
  if negb (mIsNative saAmount) then r ← SupplyFinanceChainSend uSenderID uReceiverID saAmount; mret r.1 else
  sender ← (if negb (uSenderID =? 0) then peek (acct uSenderID) else mret None);
  receiver ← (if negb (uReceiverID =? 0) then peek (acct uReceiverID) else mret None);
  terResult ←
    (match sender with
     | Some s =>
         sndBal ← liftR (getFieldAmount (sle_data s) sfBalance);
         short ← liftR (op_lt sndBal saAmount);
         if short : bool then mret failed_processing else
         left ← liftR (op_sub sndBal saAmount);
         _ ← modify (acct uSenderID) (fun o => setFieldAmount o sfBalance left);
         mret (tesSUCCESS : Z)
     | None => mret (tesSUCCESS : Z)
     end);
  match receiver with
  | Some s =>
      if terResult =? tesSUCCESS then
        rcvBal ← liftR (getFieldAmount (sle_data s) sfBalance);
        sum ← liftR (op_add rcvBal saAmount);
        _ ← modify (acct uReceiverID) (fun o => setFieldAmount o sfBalance sum);
        mret terResult
      else mret terResult
  | None => mret terResult
  end.

Definition issueIOU (account_ : Z) (amount : STAmount) (issue : Issue) : prog Z :=
  let bSenderHigh := account_ <? account issue in
  let index := getSupplyFinanceChainStateIndex sha512Half (account issue) account_ (currency issue) in
  let k := mkKeylet ltSUPPLYFINANCECHAIN_STATE index in
  state ← peek k;
  match state with
  | None =>
      limit ← liftR (zeroOf (mkIssue (currency issue) account_));
      receiver ← peek_object (acct account_);
      trustCreate bSenderHigh (account issue) account_ index account_ false (negb (has_flags (getFlags receiver) lsfDefaultSupplyFinanceChain)) false
        (setIssuer amount noAccount) limit 0 0
  | Some s =>
      balance ← liftR (getFieldAmount (sle_data s) sfBalance);
      let start_balance := if bSenderHigh then negate balance else balance in
      final_balance ← liftR (op_sub start_balance amount);
      settle_line k bSenderHigh (account issue) account_ (sle_data s) start_balance final_balance
  end.

Definition redeemIOU (account_ : Z) (amount : STAmount) (issue : Issue) : prog Z :=
  let bSenderHigh := account issue <? account_ in
  let index := getSupplyFinanceChainStateIndex sha512Half account_ (account issue) (currency issue) in
  let k := mkKeylet ltSUPPLYFINANCECHAIN_STATE index in
  state ← peek k;
  match state with
  | None => mret (tefINTERNAL : Z)
  | Some s =>
      balance ← liftR (getFieldAmount (sle_data s) sfBalance);
      let start_balance := if bSenderHigh then negate balance else balance in
      final_balance ← liftR (op_sub start_balance amount);
      settle_line k bSenderHigh account_ (account issue) (sle_data s) start_balance final_balance
  end.

Definition transferSFC (from to : Z) (amount : STAmount) : prog Z :=
  sender ← peek_object (acct from);
  receiver ← peek (acct to);
  balance ← liftR (getFieldAmount sender sfBalance);
  short ← liftR (op_lt balance amount);
  if short : bool then mret failed_processing else
  left ← liftR (op_sub balance amount);
  _ ← modify (acct from) (fun o => setFieldAmount o sfBalance left);
  match receiver with
  | None => Raise null_pointer
  | Some _ =>
      o ← peek_object (acct to);
      balance ← liftR (getFieldAmount o sfBalance);
      sum ← liftR (op_add balance amount);
      _ ← modify (acct to) (fun o => setFieldAmount o sfBalance sum);
      mret (tesSUCCESS : Z)
  end.
End View.

(** ** What moves no SFC *)

Lemma neutral_sub1 (t : Z) T {A} (p : prog A) : t ∈ T -> neutral [t] p -> neutral T p.
Proof. intros Ht. apply neutral_weaken. intros x ->%list_elem_of_singleton. done. Qed.

Section Neutral.
Context (sha512Half : list Z -> Z) (info : ViewInfo) (T : list Z).

Lemma neutral_dirRemove_in dir page key keepRoot : ltDIR_NODE ∈ T -> neutral T (view_dirRemove sha512Half dir page key keepRoot).
Proof. intros HT. apply (neutral_sub1 ltDIR_NODE); [done|]. apply neutral_dirRemove. Qed.

Lemma neutral_dirAdd_in dir key strict describe : ltDIR_NODE ∈ T -> kl_type dir = ltDIR_NODE -> writes page_fields describe -> neutral T (dirAdd_at sha512Half info dir key strict describe).
Proof. intros HT Hd Hw. apply (neutral_sub1 ltDIR_NODE); [done|]. by apply neutral_dirAdd_at. Qed.

Lemma neutral_ownerCount id n : ltACCOUNT_ROOT ∈ T -> neutral T (adjustOwnerCount (keylet_account sha512Half id) n).
Proof. intros HT. unfold adjustOwnerCount. apply (neutral_modify _ [sfOwnerCount]); [done|done|right; quiet_tac|writes_tac]. Qed.

(** An entry of a type that holds no SFC may be changed in any way. *)
Lemma neutral_other F k f : concrete (kl_type k) = true -> kl_type k ∈ T -> holds_sfc (kl_type k) = false -> writes F f -> neutral T (modify k f).
Proof. intros. apply (neutral_modify _ F); [done|done|by left|done]. Qed.

Lemma neutral_new_plain k : kl_type k ∈ T -> holds_sfc (kl_type k) = false -> neutral T (insert_new k Ok).
Proof. apply (neutral_new _ []), writes_ret. Qed.
End Neutral.

#[export] Hint Resolve neutral_dirRemove_in neutral_dirAdd_in neutral_ownerCount neutral_erase neutral_new_plain : neutral.
#[export] Hint Extern 2 (_ ∈ _ :: _) => (refine (bool_decide_unpack _ _); vm_compute; exact I) : neutral.
#[export] Hint Extern 2 (concrete _ = true) => reflexivity : neutral.
#[export] Hint Extern 2 (holds_sfc _ = false) => reflexivity : neutral.

Section Neutral2.
Context (sha512Half : list Z -> Z) (info : ViewInfo).

Lemma neutral_offerDelete i : neutral [ltDIR_NODE; ltACCOUNT_ROOT; ltOFFER] (offerDelete sha512Half i).
Proof. unfold offerDelete. neutral_tac. Qed.

Abbreviation Tline := [ltDIR_NODE; ltACCOUNT_ROOT; ltSUPPLYFINANCECHAIN_STATE].

Definition line_fields : list SField := [sfLowNode; sfHighNode; sfLowLimit; sfHighLimit; sfLowQualityIn; sfHighQualityIn; sfLowQualityOut; sfHighQualityOut; sfFlags; sfBalance].

Lemma neutral_line T k f : kl_type k = ltSUPPLYFINANCECHAIN_STATE -> ltSUPPLYFINANCECHAIN_STATE ∈ T -> writes line_fields f -> neutral T (modify k f).
Proof. intros Hk HT Hf. apply (neutral_other T line_fields); rewrite ?Hk; done. Qed.

Lemma neutral_trustDelete T k low high state final : kl_type k = ltSUPPLYFINANCECHAIN_STATE -> ltDIR_NODE ∈ T -> ltSUPPLYFINANCECHAIN_STATE ∈ T -> writes line_fields final ->
  neutral T (trustDelete_as sha512Half k low high state final).
Proof.
  intros Hk HD HT Hf. unfold trustDelete_as. neutral_tac. all: try by apply neutral_line. apply neutral_erase; by rewrite Hk.
Qed.

Lemma neutral_isFrozen T a c i : neutral T (isFrozen sha512Half a c i).
Proof. unfold isFrozen. neutral_tac. Qed.

Lemma neutral_sender_clears T h id state flags before after : neutral T (sender_clears sha512Half h id state flags before after).
Proof. unfold sender_clears. neutral_tac. Qed.

Lemma neutral_settle_line T k h a b state before after : kl_type k = ltSUPPLYFINANCECHAIN_STATE -> ltDIR_NODE ∈ T -> ltACCOUNT_ROOT ∈ T -> ltSUPPLYFINANCECHAIN_STATE ∈ T ->
  neutral T (settle_line sha512Half k h a b state before after).
Proof.
  intros Hk HD HA HT. unfold settle_line. neutral_tac; try apply neutral_sender_clears.
  all: (apply neutral_trustDelete || apply neutral_line); try done; writes_tac.
Qed.

Lemma neutral_trustCreate src a b i acct x y z bal lim qi qo : neutral Tline (trustCreate sha512Half info src a b i acct x y z bal lim qi qo).
Proof.
  unfold trustCreate. neutral_tac. all: try (apply neutral_line; [done|set_solver|]; try destruct (xorb _ _); writes_tac).
Qed.

Lemma neutral_transferRate T i : neutral T (transferRate sha512Half i).
Proof. unfold transferRate. neutral_tac. Qed.

Lemma neutral_credit a b amount : neutral Tline (SupplyFinanceChainCredit sha512Half info a b amount).
Proof. unfold SupplyFinanceChainCredit. neutral_tac; [by apply neutral_settle_line; set_solver|apply neutral_trustCreate]. Qed.

Lemma neutral_send a b amount : neutral Tline (SupplyFinanceChainSend sha512Half info a b amount).
Proof.
  unfold SupplyFinanceChainSend, SupplyFinanceChainTransferFee. neutral_tac; try apply neutral_credit; apply neutral_transferRate.
Qed.

Lemma neutral_issueIOU a amount issue : neutral Tline (issueIOU sha512Half info a amount issue).
Proof. unfold issueIOU. neutral_tac; [by apply neutral_settle_line; set_solver|apply neutral_trustCreate]. Qed.

Lemma neutral_redeemIOU a amount issue : neutral Tline (redeemIOU sha512Half a amount issue).
Proof. unfold redeemIOU. neutral_tac. by apply neutral_settle_line; set_solver. Qed.

Lemma neutral_accountSend_issued a b amount : mIsNative amount = false -> neutral Tline (accountSend sha512Half info a b amount).
Proof. intros Hn. unfold accountSend. rewrite Hn. cbn [negb]. neutral_tac. apply neutral_send. Qed.
End Neutral2.

(** ** Balances *)

Lemma money_nonneg m k : ledger_ok m -> 0 <= money m k.
Proof.
  intros Hm. unfold money. destruct (m !! k) as [s|] eqn:E; [|done]. destruct (Hm _ _ E) as (_ & _ & H1 & H2 & H3). cbn.
  destruct (holds_sfc (sle_type s)) eqn:Hh; [|by rewrite no_money]. unfold holds_sfc in Hh. rewrite !orb_true_iff, !Z.eqb_eq in Hh. destruct Hh as [[Ht|Ht]|Ht].
  - destruct (H1 Ht) as (n & Ha & Hn). by rewrite (account_money s n).
  - destruct (H2 Ht) as (n & p & Ha & Hb & Hn). rewrite (paychan_money s n p) by done. lia.
  - destruct (H3 Ht) as (n & Ha & Hn). by rewrite (escrow_money s n).
Qed.

Lemma total_drops_nonneg m : ledger_ok m -> 0 <= total_drops m.
Proof.
  intros Hm. unfold total_drops. revert Hm. induction m as [|k s m Hk IH] using map_ind; intros Hm; [done|]. rewrite map_sum_insert by done.
  assert (Hm' : ledger_ok m) by (intros j s' E; apply Hm; rewrite lookup_insert_ne; [done|congruence]). specialize (IH Hm').
  pose proof (money_nonneg _ k Hm) as Hv. unfold money in Hv. rewrite lookup_insert_eq in Hv. cbn in Hv. lia.
Qed.

Lemma total_delete m k : total_drops m = money m k + total_drops (delete k m).
Proof. apply map_sum_delete. Qed.

(** What two entries hold is part of the total. *)
Lemma money_two m k1 k2 : ledger_ok m -> k1 <> k2 -> money m k1 + money m k2 <= total_drops m.
Proof.
  intros Hm Hk. rewrite (total_delete m k1), (total_delete (delete k1 m) k2). pose proof (total_drops_nonneg (delete k2 (delete k1 m)) (ledger_ok_delete _ _ (ledger_ok_delete _ _ Hm))).
  rewrite money_delete, decide_False by done. lia.
Qed.

Lemma money_one m k : ledger_ok m -> money m k <= total_drops m.
Proof. intros Hm. rewrite (total_delete m k). pose proof (total_drops_nonneg (delete k m) (ledger_ok_delete _ _ Hm)). lia. Qed.

(** SFC goes from one entry to another. *)
Definition moved (m m' : gmap Z (SLE Object)) (from to n : Z) : Prop :=
  forall j, money m' j = if decide (j = from) then money m j - n else if decide (j = to) then money m j + n else money m j.

Lemma moved_total m m' from to n : from <> to -> moved m m' from to n -> total_drops m' = total_drops m.
Proof.
  intros Hne H. assert (Hn : NoDup [from; to]) by (repeat constructor; set_solver). pose proof (total_changes [from; to] m m' Hn) as E. cbn [foldr] in E.
  rewrite (H from), (H to), decide_True, decide_False, decide_True in E by done. specialize (E ltac:(intros k Hk; rewrite H, !decide_False by set_solver; done)). lia.
Qed.

Section Balance.
Context (sha512Half : list Z -> Z).
Abbreviation acct := (keylet_account sha512Half).

Lemma account_balance m id s : ledger_ok m -> shown m (acct id) = Some s ->
  exists a n, peekAtPField (sle_data s) sfBalance = Some (V_Amount a) /\ is_drops a n /\ 0 <= n /\ money m (kl_key (acct id)) = n /\ sle_ok s /\ sle_type s = ltACCOUNT_ROOT.
Proof.
  intros Hm Hs. destruct (shown_type m (acct id) s eq_refl Hs) as [Hl Ht]. destruct (Hm _ _ Hl) as (_ & Hok & H1 & _). destruct (H1 Ht) as (n & Ha & Hn).
  pose proof Ha as (a & Hp & Hd). exists a, n. split_and!; try done. unfold money. rewrite Hl. by apply account_money.
Qed.

Lemma get_balance o a : peekAtPField o sfBalance = Some (V_Amount a) -> getFieldAmount o sfBalance = Ok a.
Proof. intros Hp. unfold getFieldAmount, getFieldBy. by rewrite Hp. Qed.

(** The balance of an account is set. *)
Lemma run_set_balance m d id s a n : ledger_ok m -> shown m (acct id) = Some s -> is_drops a n -> 0 <= n ->
  exists m', run_map (modify (acct id) (fun o => setFieldAmount o sfBalance a)) (m, d) = Ok ((), (m', d)) /\ ledger_ok m' /\ same_outside [ltACCOUNT_ROOT] m m' /\
    (forall j, money m' j = if decide (j = kl_key (acct id)) then n else money m j) /\
    (forall k, kl_key k <> kl_key (acct id) -> shown m' k = shown m k) /\ is_Some (shown m' (acct id)).
Proof.
  intros Hm Hs Ha Hn. destruct (account_balance m id s Hm Hs) as (b & p & _ & _ & _ & _ & Hok & Ht). destruct (shown_type m (acct id) s eq_refl Hs) as [Hl _]. destruct (Hm _ _ Hl) as (Hk & _).
  destruct (set_field s sfBalance (V_Amount a) Hok) as (o & E & Hw & Hok'); [by rewrite Ht|field_ok_tac|done|].
  assert (Hf : amount_field (with_data s o) sfBalance n) by (exists a; split; [|done]; destruct Hw as (_ & _ & Hp); cbn [sle_data with_data]; rewrite Hp; by rewrite decide_True).
  exists (<[kl_key (acct id) := with_data s o]> m). rewrite (run_modify _ _ m d s o Hs E). split_and!; [done|..].
  - apply ledger_ok_insert; [done|done|done|]. split_and!; cbn [sle_type with_data]; intros Hty; [by exists n|by rewrite Ht in Hty..].
  - apply same_outside_insert; [cbn; rewrite Ht; set_solver|]. intros s0 Hs0. rewrite Hl in Hs0. injection Hs0 as <-. rewrite Ht. set_solver.
  - intros j. rewrite money_insert. case_decide; [|done]. by apply account_money.
  - intros k Hne. unfold shown. by rewrite lookup_insert_ne.
  - unfold shown. rewrite lookup_insert_eq. cbn. unfold check. cbn. rewrite Ht. cbn. eauto.
Qed.
End Balance.

Section Transfer.
Context (sha512Half : list Z -> Z) (info : ViewInfo).
Abbreviation acct := (keylet_account sha512Half).
Abbreviation akey := (fun id => kl_key (keylet_account sha512Half id)).

(** What a transfer of [n] drops does. *)
Definition transferred (from to n : Z) (m : gmap Z (SLE Object)) (d : Z) (r : res (Z * (gmap Z (SLE Object) * Z))) : Prop :=
  exists ter m', r = Ok (ter, (m', d)) /\ ledger_ok m' /\ total_drops m' = total_drops m /\ same_outside [ltACCOUNT_ROOT] m m' /\
    if money m (akey from) <? n then ter = failed_processing info /\ m' = m else ter = tesSUCCESS /\ moved m m' (akey from) (akey to) n.

Context (m : gmap Z (SLE Object)) (d from to n : Z) (amount : STAmount) (Hm : ledger_ok m) (Htotal : total_drops m <= cMaxNativeN) (Ha : is_drops amount n) (Hn : 0 <= n)
  (Hkeys : akey from <> akey to).

(** The two writes, after the balances were read. *)
Lemma transfer_writes sf st a1 n1 a2 n2 left_ sum : shown m (acct from) = Some sf -> shown m (acct to) = Some st ->
  peekAtPField (sle_data sf) sfBalance = Some (V_Amount a1) -> is_drops a1 n1 -> money m (akey from) = n1 ->
  peekAtPField (sle_data st) sfBalance = Some (V_Amount a2) -> is_drops a2 n2 -> money m (akey to) = n2 ->
  is_drops left_ (n1 - n) -> is_drops sum (n2 + n) -> n <= n1 -> 0 <= n2 ->
  exists m1 m', run_map (modify (acct from) (fun o => setFieldAmount o sfBalance left_)) (m, d) = Ok ((), (m1, d)) /\ shown m1 (acct to) = Some st /\
    run_map (modify (acct to) (fun o => setFieldAmount o sfBalance sum)) (m1, d) = Ok ((), (m', d)) /\
    ledger_ok m' /\ total_drops m' = total_drops m /\ same_outside [ltACCOUNT_ROOT] m m' /\ moved m m' (akey from) (akey to) n.
Proof.
  intros Hsf Hst Hp1 Hd1 Hm1 Hp2 Hd2 Hm2 Hl Hs Hle Hn2.
  destruct (run_set_balance sha512Half m d from sf left_ (n1 - n) Hm Hsf Hl ltac:(lia)) as (m1 & E1 & Hok1 & Ho1 & HM1 & Hsh1 & _).
  assert (Hst1 : shown m1 (acct to) = Some st) by (rewrite Hsh1 by congruence; done).
  destruct (run_set_balance sha512Half m1 d to st sum (n2 + n) Hok1 Hst1 Hs ltac:(lia)) as (m2 & E2 & Hok2 & Ho2 & HM2 & _).
  assert (Hmv : moved m m2 (akey from) (akey to) n).
  { intros j. rewrite HM2, HM1. repeat case_decide; try subst j; congruence || lia. }
  exists m1, m2. split_and!; [done|done|done|done|by eapply moved_total|by eapply same_outside_trans|done].
Qed.

(** The balances of both accounts, and what comes of them. *)
Lemma transfer_amounts : is_Some (shown m (acct from)) -> is_Some (shown m (acct to)) -> exists sf st a1 a2 n1 n2,
  shown m (acct from) = Some sf /\ shown m (acct to) = Some st /\
  peekAtPField (sle_data sf) sfBalance = Some (V_Amount a1) /\ is_drops a1 n1 /\ money m (akey from) = n1 /\
  peekAtPField (sle_data st) sfBalance = Some (V_Amount a2) /\ is_drops a2 n2 /\ money m (akey to) = n2 /\ 0 <= n2 /\
  op_lt a1 amount = Ok (n1 <? n) /\ (n <= n1 -> exists left_ sum, op_sub a1 amount = Ok left_ /\ op_add a2 amount = Ok sum /\ is_drops left_ (n1 - n) /\ is_drops sum (n2 + n)).
Proof.
  intros [sf Hsf] [st Hst]. destruct (account_balance sha512Half m from sf Hm Hsf) as (a1 & n1 & Hp1 & Hd1 & Hn1 & Hm1 & _). destruct (account_balance sha512Half m to st Hm Hst) as (a2 & n2 & Hp2 & Hd2 & Hn2 & Hm2 & _).
  exists sf, st, a1, a2, n1, n2. split_and!; try done; [by apply op_lt_drops|]. intros Hle. pose proof (money_two m _ _ Hm Hkeys) as H2. rewrite Hm1, Hm2 in H2. pose proof (drops_range _ _ Hd1). pose proof (drops_range _ _ Ha).
  destruct (op_sub_drops a1 amount n1 n Hd1 Ha ltac:(lia)) as (l & E1 & H1). destruct (op_add_drops a2 amount n2 n Hd2 Ha ltac:(lia)) as (s & E2 & Hs). by exists l, s.
Qed.

Lemma transferSFC_run : is_Some (shown m (acct from)) -> is_Some (shown m (acct to)) -> transferred from to n m d (run_map (transferSFC sha512Half info from to amount) (m, d)).
Proof.
  intros H1 H2. destruct (transfer_amounts H1 H2) as (sf & st & a1 & a2 & n1 & n2 & Hsf & Hst & Hp1 & Hd1 & Hm1 & Hp2 & Hd2 & Hm2 & Hn2 & Hlt & Hle). unfold transferSFC, transferred.
  rewrite (peek_object_step _ _ _ _ _ Hsf), run_peek_step, Hst, (run_lift_step _ _ _ _ _ (get_balance _ _ Hp1)), (run_lift_step _ _ _ _ _ Hlt), Hm1.
  destruct (Z.ltb_spec n1 n) as [Hs|Hs]; [by exists (failed_processing info), m|]. destruct (Hle Hs) as (l & sum & El & Es & Hl & Hsum). rewrite (run_lift_step _ _ _ _ _ El).
  destruct (transfer_writes sf st a1 n1 a2 n2 l sum Hsf Hst Hp1 Hd1 Hm1 Hp2 Hd2 Hm2 Hl Hsum Hs Hn2) as (m1 & m' & E1 & Hst1 & E2 & Hok & Ht & Ho & Hmv).
  rewrite (run_step _ _ _ _ _ _ E1), (peek_object_step _ _ _ _ _ Hst1), (run_lift_step _ _ _ _ _ (get_balance _ _ Hp2)), (run_lift_step _ _ _ _ _ Es), (run_step _ _ _ _ _ _ E2).
  by exists tesSUCCESS, m'.
Qed.

Lemma accountSend_run : from <> 0 -> to <> 0 -> is_Some (shown m (acct from)) -> is_Some (shown m (acct to)) -> transferred from to n m d (run_map (accountSend sha512Half info from to amount) (m, d)).
Proof.
  intros Hf0 Ht0 H1 H2. destruct (transfer_amounts H1 H2) as (sf & st & a1 & a2 & n1 & n2 & Hsf & Hst & Hp1 & Hd1 & Hm1 & Hp2 & Hd2 & Hm2 & Hn2 & Hlt & Hle). unfold accountSend, transferred.
  rewrite (proj2 (Z.eqb_neq from to)) by congruence. rewrite orb_false_r. destruct (is_zero amount) eqn:Hz.
  { assert (n = 0) as ->. { destruct Ha as (_ & _ & <-). apply is_zero_true in Hz. unfold smant. rewrite Hz. by destruct (mIsNegative amount). }
    exists tesSUCCESS, m. split_and!; try done. pose proof (money_nonneg m (akey from) Hm). rewrite (proj2 (Z.ltb_ge _ _)) by lia. split; [done|]. intros j. repeat case_decide; lia. }
  destruct Ha as (_ & Hnat & _). rewrite Hnat. cbn [negb]. rewrite (proj2 (Z.eqb_neq from 0)), (proj2 (Z.eqb_neq to 0)) by done. cbn [negb].
  rewrite !run_peek_step, Hsf, Hst, run_assoc, (run_lift_step _ _ _ _ _ (get_balance _ _ Hp1)), run_assoc, (run_lift_step _ _ _ _ _ Hlt), Hm1.
  destruct (Z.ltb_spec n1 n) as [Hs|Hs].
  { rewrite (run_step _ _ _ _ (failed_processing info) m) by done. exists (failed_processing info), m. split_and!; try done. unfold failed_processing. by destruct (is_open info). }
  destruct (Hle Hs) as (l & sum & El & Es & Hl & Hsum). rewrite run_assoc, (run_lift_step _ _ _ _ _ El).
  destruct (transfer_writes sf st a1 n1 a2 n2 l sum Hsf Hst Hp1 Hd1 Hm1 Hp2 Hd2 Hm2 Hl Hsum Hs Hn2) as (m1 & m' & E1 & Hst1 & E2 & Hok & Ht & Ho & Hmv).
  rewrite run_assoc, (run_step _ _ _ _ _ _ E1), (run_step _ _ _ _ (tesSUCCESS : Z) m1) by done. rewrite Z.eqb_refl.
  rewrite (run_lift_step _ _ _ _ _ (get_balance _ _ Hp2)), (run_lift_step _ _ _ _ _ Es), (run_step _ _ _ _ _ _ E2). by exists tesSUCCESS, m'.
Qed.
End Transfer.

(** C26. SFC is sent exactly. In a well-formed ledger whose total does not exceed the
    supply, between two accounts that exist, [transferSFC] and [accountSend] of a
    native amount return: with an error, changing nothing, when the sender has less;
    otherwise with success, the sender's balance lower and the receiver's higher by
    the amount, every other holding of SFC as before, the ledger well formed, the
    total the same, and no entry touched but accounts. *)
Theorem sfc_sent_exactly sha512Half info m d from to n amount : ledger_ok m -> total_drops m <= cMaxNativeN -> is_drops amount n -> 0 <= n ->
  kl_key (keylet_account sha512Half from) <> kl_key (keylet_account sha512Half to) ->
  is_Some (shown m (keylet_account sha512Half from)) -> is_Some (shown m (keylet_account sha512Half to)) ->
  transferred sha512Half info from to n m d (run_map (transferSFC sha512Half info from to amount) (m, d)) /\
  (from <> 0 -> to <> 0 -> transferred sha512Half info from to n m d (run_map (accountSend sha512Half info from to amount) (m, d))).
Proof. intros. split; [by apply transferSFC_run|intros; by apply accountSend_run]. Qed.

(** ** Witness *)

(** Accounts 5 and 6 with 1000 and 50 SFC. *)
Definition waccount_of (id drops : Z) : SLE Object :=
  wentry (keylet_account id_digest id) (fun o => o ← setAccountID o sfAccount id; o ← setFieldU32 o sfSequence 1; setFieldAmount o sfBalance (ofSigned drops)).

Definition waccounts : gmap Z (SLE Object) :=
  {[ kl_key (keylet_account id_digest 5) := waccount_of 5 1000000000; kl_key (keylet_account id_digest 6) := waccount_of 6 50000000 ]}.

Lemma waccounts_ok : ledger_ok waccounts.
Proof. apply ledger_okb_ok. vm_compute. reflexivity. Qed.

Lemma sfc_sent_exactly_witness : transferred id_digest winfo 5 6 300 waccounts 0 (run_map (transferSFC id_digest winfo 5 6 (ofSigned 300)) (waccounts, 0)).
Proof.
  assert (Ha : is_drops (ofSigned 300) 300) by (split_and!; [split_and!; [reflexivity|split; [reflexivity|vm_compute; split; discriminate]|reflexivity]|reflexivity|reflexivity]).
  assert (Hs : forall id, id = 5 \/ id = 6 -> is_Some (shown waccounts (keylet_account id_digest id))) by (intros id [->| ->]; eexists; vm_compute; reflexivity).
  refine (proj1 (sfc_sent_exactly id_digest winfo waccounts 0 5 6 300 (ofSigned 300) waccounts_ok _ Ha _ _ (Hs 5 _) (Hs 6 _)));
    [vm_compute; discriminate|lia|vm_compute; discriminate|by left|by right].
Defined.
