(* ===== verification/Transactor.v ===== *)
(** * The transaction engine

    Models app/tx/impl/Transactor.cpp, SignerEntries.cpp, ApplyContext.cpp,
    applySteps.cpp and the functions [apply] and [applyTransaction] of apply.cpp: the
    three stages of a transaction and the common part of all transactors. What a
    class of transaction adds is a [TxClass], over which the file is general.

    A transaction is checked by itself ([preflight]), against a ledger it does not
    change ([preclaim]), and applied in a sandbox that is committed, with the fee,
    when its result is one that claims a fee and the invariants hold
    ([transact], which is [Transactor::operator()]). *)

From S2P Require Import Prelude STAmount Serializer Keys SField STObject STAccess View TER Indexes Formats STTx RawStateTable ApplyStateTable Prog.
From S2P Require Import HashRouter LoadFee Invariants Entries TxMeta MetaCommit OwnerDir LedgerView.

(** ** Contexts *)

Record PreflightContext := mkPreflight { pf_tx : STTx; pf_rules : Feature -> bool; pf_flags : Z; pf_validity : res (Validity * SignReason) }.

(** The members a transactor's [doApply] sees: [account_], [mPriorBalance],
    [mSourceBalance], [ctx_.baseFee] and the flags of the view. *)
Record Applying := mkApplying { ap_tx : STTx; account_ : Z; mPriorBalance : Z; mSourceBalance : Z; ap_baseFee : Z; ap_flags : Z }.

(** The functions a class of transaction has of its own. [doApply] gives the result
    and the amount it has told [ctx_.deliver]. *)
Record TxClass := mkClass {
  tc_preflight : PreflightContext -> res Z;
  tc_calculateBaseFee : STTx -> prog Z;
  tc_preclaim : STTx -> Z -> prog Z;
  tc_doApply : Applying -> prog (Z * option STAmount);
  tc_affectsSubsequentTransactionAuth : STTx -> res bool;
  tc_calculateMaxSpend : STTx -> res Z
}.

Definition unfundedOfferRemoveLimit : nat := 1000.
Definition oversizeMetaDataCap : nat := 5200.

(** ** Checks of the transaction by itself *)

Definition preflight0 (ctx : PreflightContext) : res Z := Ok (if tid_ (pf_tx ctx) =? 0 then (temINVALID : Z) else tesSUCCESS).

Definition preflight1 (ctx : PreflightContext) : res Z :=
  ret ← preflight0 ctx;
  if negb (isTesSuccess ret) then Ok ret else
  id ← getAccountID (tx_object (pf_tx ctx)) sfAccount;
  if id =? 0 then Ok (temBAD_SRC_ACCOUNT : Z) else
  fee ← getFieldAmount (tx_object (pf_tx ctx)) sfFee;
  bad ← (if negb (mIsNative fee) || mIsNegative fee then Ok true else (drops ← sfc fee; Ok (negb (isLegalAmount drops))));
  if bad : bool then Ok (temBAD_FEE : Z) else
  spk ← getSigningPubKey (pf_tx ctx);
  if negb (bool_decide (spk = [])) && bool_decide (publicKeyType spk = None) then Ok (temBAD_SIGNATURE : Z) else
  Ok (tesSUCCESS : Z).

Definition preflight2 (ctx : PreflightContext) : res Z :=
  sigValid ← pf_validity ctx;
  Ok (match sigValid.1 with SigBad => (temINVALID : Z) | _ => tesSUCCESS end).

(** ** [SignerEntries] *)

Record SignerEntry := mkSignerEntry { se_account : Z; se_weight : Z }.

Fixpoint signer_entries (l : list (SField * Fields)) : res (list SignerEntry * Z) :=
  match l with
  | [] => Ok ([], (tesSUCCESS : Z))
  | e :: l =>
      if negb (bool_decide (getCode e.1 = getCode sfSignerEntry)) then Ok ([], (temMALFORMED : Z)) else
      account ← getAccountID (inner_object e) sfAccount;
      weight ← getFieldU16 (inner_object e) sfSignerWeight;
      r ← signer_entries l;
      Ok (mkSignerEntry account weight :: r.1, r.2)
  end.

Definition deserialize (obj : Object) : res (list SignerEntry * Z) :=
  if negb (isFieldPresent obj sfSignerEntries) then Ok ([], (temMALFORMED : Z)) else
  entries ← getFieldArray obj sfSignerEntries;
  signer_entries entries.

Section Transactor.
Context (sha512Half : list Z -> Z) (ripesha : list Z -> Z) (info : ViewInfo) (feeTrack : LoadFeeTrack).

Abbreviation acct := (keylet_account sha512Half).

(** [calcAccountID (PublicKey (slice))], of a slice that is a key. *)
Definition calcAccountID (pk : list Z) : Z := ripesha pk.

(** ** Fees *)

(** One fee for the transaction and one for each of its signers. *)
Definition calculateBaseFee (tx : STTx) : prog Z :=
  let baseFee := fees_units (fees info) in
  signerCount ← (if isFieldPresent (tx_object tx) sfSigners then a ← liftR (getFieldArray (tx_object tx) sfSigners); mret (Z.of_nat (length a)) else mret 0);
  mret (u64 (baseFee + signerCount * baseFee)).

Definition calculateFeePaid (tx : STTx) : res Z := a ← at_field as_amount (ofUnsigned 0) (tx_object tx) sfFee; sfc a.

Definition minimumFee (baseFee flags : Z) : res Z :=
  f ← scaleFeeLoad baseFee feeTrack (fees info) (negb (Z.land flags tapUNLIMITED =? 0)); Ok (i64 f).

Definition checkFee (tx : STTx) (flags baseFee : Z) : prog Z :=
  feePaid ← liftR (calculateFeePaid tx);
  if negb (isLegalAmount feePaid) || (feePaid <? 0) then mret (temBAD_FEE : Z) else
  feeDue ← liftR (minimumFee baseFee flags);
  if is_open info && (feePaid <? feeDue) then mret (telINSUF_FEE_P : Z) else
  if feePaid =? 0 then mret (tesSUCCESS : Z) else
  id ← liftR (getAccountID (tx_object tx) sfAccount);
  sle ← read_object (acct id);
  balance ← liftR (a ← at_field as_amount (ofUnsigned 0) sle sfBalance; sfc a);
  if balance <? feePaid then
    if (0 <? balance) && negb (is_open info) then mret (tecINSUFF_FEE : Z) else mret (terINSUF_FEE_B : Z)
  else mret (tesSUCCESS : Z).

(** ** The sequence number *)

Definition checkSeq (txExists : Z -> bool) (tx : STTx) : prog Z :=
  id ← liftR (getAccountID (tx_object tx) sfAccount);
  sle ← read (acct id);
  match sle with
  | None => mret (terNO_ACCOUNT : Z)
  | Some sle =>
      t_seq ← liftR (getSequence tx);
      a_seq ← liftR (getFieldU32 (sle_data sle) sfSequence);
      if negb (t_seq =? a_seq) then
        if a_seq <? t_seq then mret (terPRE_SEQ : Z) else
        if txExists (tid_ tx) then mret (tefALREADY : Z) else mret (tefPAST_SEQ : Z)
      else
      wrong ← (if isFieldPresent (tx_object tx) sfAccountTxnID then
                 a ← liftR (getFieldH256 (sle_data sle) sfAccountTxnID); t ← liftR (getFieldH256 (tx_object tx) sfAccountTxnID); mret (negb (a =? t))
               else mret false);
      if wrong : bool then mret (tefWRONG_PRIOR : Z) else
      late ← (if isFieldPresent (tx_object tx) sfLastLedgerSequence then
                last ← liftR (getFieldU32 (tx_object tx) sfLastLedgerSequence); mret (last <? ledger_seq info)
              else mret false);
      if late : bool then mret (tefMAX_LEDGER : Z) else mret (tesSUCCESS : Z)
  end.

(** ** The signing key *)

Definition checkSingleSign (tx : STTx) : prog Z :=
  pkSigner ← liftR (getSigningPubKey tx);
  if bool_decide (publicKeyType pkSigner = None) then mret (tefBAD_AUTH : Z) else
  let idSigner := calcAccountID pkSigner in
  idAccount ← liftR (getAccountID (tx_object tx) sfAccount);
  sleAccount ← read_object (acct idAccount);
  let isMasterDisabled := isFlag sleAccount lsfDisableMaster in
  if enabled info fixMasterKeyAsRegularKey then
    regular ← liftR (at_opt as_account 0 sleAccount sfRegularKey);
    if bool_decide (regular = Some idSigner) then mret (tesSUCCESS : Z) else
    if negb isMasterDisabled && (idAccount =? idSigner) then mret (tesSUCCESS : Z) else
    if isMasterDisabled && (idAccount =? idSigner) then mret (tefMASTER_DISABLED : Z) else
    mret (tefBAD_AUTH : Z)
  else
  if idSigner =? idAccount then mret (if isMasterDisabled then (tefMASTER_DISABLED : Z) else tesSUCCESS) else
  regular ← liftR (at_opt as_account 0 sleAccount sfRegularKey);
  if bool_decide (regular = Some idSigner) then mret (tesSUCCESS : Z) else
  if isFieldPresent sleAccount sfRegularKey then mret (tefBAD_AUTH : Z) else mret (tefBAD_AUTH_MASTER : Z).

(** The entries from the first that is not before an account; the iterator is not
    compared to the end before the first step. *)
Fixpoint advance (id : Z) (l : list SignerEntry) : list SignerEntry :=
  match l with
  | [] => []
  | e :: l' => if se_account e <? id then advance id l' else l
  end.

(** The key that signed for an account of the list may do so. *)
Definition signer_key (id signingAcctID : Z) : prog Z :=
  root ← read (acct id);
  if signingAcctID =? id then
    match root with
    | None => mret (tesSUCCESS : Z)
    | Some root => flags ← liftR (getFieldU32 (sle_data root) sfFlags); mret (if has_flags flags lsfDisableMaster then (tefMASTER_DISABLED : Z) else tesSUCCESS)
    end
  else
    match root with
    | None => mret (tefBAD_SIGNATURE : Z)
    | Some root =>
        if negb (isFieldPresent (sle_data root) sfRegularKey) then mret (tefBAD_SIGNATURE : Z) else
        regular ← liftR (getAccountID (sle_data root) sfRegularKey);
        mret (if negb (signingAcctID =? regular) then (tefBAD_SIGNATURE : Z) else tesSUCCESS)
    end.

(** Both lists are in the order of the accounts. *)
Fixpoint multi_loop (txSigners : list Object) (iter : list SignerEntry) (weightSum : Z) : prog (Z * Z) :=
  match txSigners with
  | [] => mret ((tesSUCCESS : Z), weightSum)
  | txSigner :: rest =>
      txSignerAcctID ← liftR (getAccountID txSigner sfAccount);
      match iter with
      | [] => Raise (logic_error "dereference of the end")
      | _ :: _ =>
          match advance txSignerAcctID iter with
          | [] => mret ((tefBAD_SIGNATURE : Z), weightSum)
          | e :: _ as iter =>
              if negb (se_account e =? txSignerAcctID) then mret ((tefBAD_SIGNATURE : Z), weightSum) else
              spk ← liftR (getFieldVL txSigner sfSigningPubKey);
              if bool_decide (publicKeyType spk = None) then mret ((tefBAD_SIGNATURE : Z), weightSum) else
              ter ← signer_key txSignerAcctID (calcAccountID spk);
              if negb (ter =? tesSUCCESS) then mret (ter, weightSum) else
              multi_loop rest iter (u32 (weightSum + se_weight e))
          end
      end
  end.

Definition checkMultiSign (tx : STTx) : prog Z :=
  id ← liftR (getAccountID (tx_object tx) sfAccount);
  sleAccountSigners ← read (keylet_signers sha512Half id);
  match sleAccountSigners with
  | None => mret (tefNOT_MULTI_SIGNING : Z)
  | Some signers =>
      accountSigners ← liftR (deserialize (sle_data signers));
      if negb (accountSigners.2 =? tesSUCCESS) then mret accountSigners.2 else
      txSigners ← liftR (getFieldArray (tx_object tx) sfSigners);
      r ← multi_loop (map inner_object txSigners) accountSigners.1 0;
      if negb (r.1 =? tesSUCCESS) then mret r.1 else
      quorum ← liftR (getFieldU32 (sle_data signers) sfSignerQuorum);
      mret (if r.2 <? quorum then (tefBAD_QUORUM : Z) else tesSUCCESS)
  end.

Definition checkSign (tx : STTx) : prog Z :=
  spk ← (if enabled info featureMultiSign then liftR (getSigningPubKey tx) else mret [0]);
  if bool_decide (spk = []) then checkMultiSign tx else checkSingleSign tx.

(** ** Application *)

(** [setSeq] and [payFee], on the account that [apply] has peeked at. *)
Definition setSeq (tx : STTx) (o : Object) : res Object :=
  t_seq ← getSequence tx;
  o ← setFieldU32 o sfSequence (u32 (t_seq + 1));
  if isFieldPresent o sfAccountTxnID then setFieldH256 o sfAccountTxnID (tid_ tx) else Ok o.

Definition payFee (tx : STTx) (mSourceBalance : Z) (o : Object) : res Object :=
  feePaid ← calculateFeePaid tx;
  a ← ofSFC (i64 (mSourceBalance - feePaid));
  setFieldAmount o sfBalance a.

Definition transactor_apply (cls : TxClass) (tx : STTx) (baseFee flags : Z) : prog (Z * option STAmount) :=
  account ← liftR (getAccountID (tx_object tx) sfAccount);
  sle ← peek (acct account);
  match sle with
  | None => tc_doApply cls (mkApplying tx account 0 0 baseFee flags)
  | Some sle =>
      prior ← liftR (a ← at_field as_amount (ofUnsigned 0) (sle_data sle) sfBalance; sfc a);
      feePaid ← liftR (calculateFeePaid tx);
      _ ← modify (acct account) (fun o => o ← setSeq tx o; payFee tx prior o);
      tc_doApply cls (mkApplying tx account prior (i64 (prior - feePaid)) baseFee flags)
  end.

(** The offers that were deleted as they were: found unfunded. *)
Definition removed_offer (e : Z * bool * option (SLE Object) * option (SLE Object)) : res (option Z) :=
  match e with
  | (index, true, Some before, Some after) =>
      if sle_type before =? ltOFFER then
        b ← getFieldAmount (sle_data before) sfTakerPays;
        a ← getFieldAmount (sle_data after) sfTakerPays;
        Ok (if op_eq b a then Some index else None)
      else Ok None
  | _ => Ok None
  end.

Definition removed_offers (l : list (Z * bool * option (SLE Object) * option (SLE Object))) : res (list Z) := l ← mapR removed_offer l; Ok (omap id l : list Z).

Fixpoint removeUnfundedOffers (limit : nat) (offers : list Z) : prog unit :=
  match offers, limit with
  | [], _ | _, O => mret ()
  | index :: offers, S limit' =>
      sleOffer ← peek (mkKeylet ltOFFER index);
      match sleOffer with
      | Some _ => _ ← offerDelete sha512Half index; removeUnfundedOffers limit' offers
      | None => removeUnfundedOffers limit offers
      end
  end.

(** [reset], after the sandbox is discarded. *)
Definition reset (tx : STTx) (fee : Z) : prog Z :=
  id ← liftR (getAccountID (tx_object tx) sfAccount);
  txnAcct ← peek_object (acct id);
  balance ← liftR (a ← getFieldAmount txnAcct sfBalance; sfc a);
  let fee := if balance <? fee then balance else fee in
  _ ← modify (acct id) (fun o =>
    a ← ofSFC (i64 (balance - fee));
    o ← setFieldAmount o sfBalance a;
    t_seq ← getSequence tx;
    setFieldU32 o sfSequence (u32 (t_seq + 1)));
  mret fee.

(** What is left of a run: the result, whether it is to be applied, the fee, the
    amount delivered and the sandbox. *)
Record Outcome := mkOutcome { oc_result : Z; oc_applied : bool; oc_fee : Z; oc_deliver : option STAmount; oc_table : ApplyStateTable Object }.

Section Operator.
Context (base : ReadView Object) (tx : STTx) (flags : Z).

(** The first part: the class's own work, when the checks passed. *)
Definition first_run (cls : TxClass) (preclaimResult baseFee : Z) : res Outcome :=
  '(r, t) ← (if preclaimResult =? tesSUCCESS then run_table base (transactor_apply cls tx baseFee flags) as_empty else Ok ((preclaimResult, None), as_empty));
  fee ← (a ← getFieldAmount (tx_object tx) sfFee; sfc a);
  Ok (mkOutcome (if (oversizeMetaDataCap <? as_size t)%nat then tecOVERSIZE else r.1) (isTesSuccess r.1) fee r.2 t).

(** The second: a result that only claims the fee. *)
Definition claim_fee (o : Outcome) : res Outcome :=
  let unfunded := (oc_result o =? tecOVERSIZE) || (oc_result o =? tecKILLED) in
  if unfunded || isTecClaimHardFail (oc_result o) flags then
    removedOffers ← (if unfunded then removed_offers (as_visit (oc_table o) base) else Ok []);
    '(fee, t) ← run_table base (reset tx (oc_fee o)) as_empty;
    '(_, t) ← (if unfunded then run_table base (removeUnfundedOffers unfundedOfferRemoveLimit removedOffers) t else Ok (tt, t));
    Ok (mkOutcome (oc_result o) true fee None t)
  else Ok o.

(** The third: the invariants, and a second try that only claims the fee. *)
Definition check_outcome (o : Outcome) : res Outcome :=
  if oc_applied o then
    let result := checkInvariants info base (oc_table o) (tx_object tx) (oc_result o) (oc_fee o) in
    o ← (if result =? tecINVARIANT_FAILED then
           '(fee, t) ← run_table base (reset tx (oc_fee o)) as_empty;
           Ok (mkOutcome (checkInvariants info base t (tx_object tx) result fee) true fee None t)
         else Ok (mkOutcome result true (oc_fee o) (oc_deliver o) (oc_table o)));
    Ok (mkOutcome (oc_result o) (isTecClaim (oc_result o) || isTesSuccess (oc_result o)) (oc_fee o) (oc_deliver o) (oc_table o))
  else Ok o.

(** The fee leaves the ledger's total. *)
Definition settle (o : Outcome) : res Outcome :=
  if oc_applied o then
    if oc_fee o <? 0 then Throw (logic_error "fee charged is negative!") else
    let t := if negb (is_open info) && negb (oc_fee o =? 0) then as_destroySFC (oc_fee o) (oc_table o) else oc_table o in
    Ok (mkOutcome (oc_result o) true (oc_fee o) (oc_deliver o) t)
  else Ok o.

(** Everything before the sandbox is committed. *)
Definition prepare (cls : TxClass) (preclaimResult baseFee : Z) : res Outcome :=
  o ← first_run cls preclaimResult baseFee;
  o ← claim_fee o;
  o ← check_outcome o;
  settle o.
End Operator.

(** [Transactor::operator()], with [to] both the view that is read and the one that
    is committed to. An exception before the commit leaves the view as it was; one in
    the middle of it leaves it half written, which is [None]. *)
Definition transact (base : ReadView Object) (to : OpenView) (cls : TxClass) (tx : STTx) (flags preclaimResult baseFee : Z) : res (Z * bool) * option OpenView :=
  match prepare base tx flags cls preclaimResult baseFee with
  | Throw e => (Throw e, Some to)
  | Ok o =>
      if oc_applied o then
        match apply_open sha512Half info base (oc_table o) to tx (oc_result o) (oc_deliver o) with
        | Ok to' => (Ok (oc_result o, true), Some to')
        | Throw e => (Throw e, None)
        end
      else (Ok (oc_result o, false), Some to)
  end.

(** ** The steps *)

Context (classes : Z -> option TxClass) (validity : STTx -> res (Validity * SignReason)).

(** A program that only reads, over a view. *)
Fixpoint read_only {A} (base : ReadView Object) (p : prog A) : res A :=
  match p with
  | Ret a => Ok a
  | Raise e => Throw e
  | Peek k c | Read k c => read_only base (c (rv_read base k))
  | Do _ _ => Throw (logic_error "a view that is only read cannot be changed")
  end.

Definition or_exception (r : res Z) : Z := match r with Ok ter => ter | Throw _ => tefEXCEPTION end.

Definition invoke_preflight (ctx : PreflightContext) : res Z :=
  match classes (tx_type_ (pf_tx ctx)) with Some cls => tc_preflight cls ctx | None => Ok (temUNKNOWN : Z) end.

Definition preflight (rules : Feature -> bool) (tx : STTx) (flags : Z) : Z :=
  or_exception (invoke_preflight (mkPreflight tx rules flags (validity tx))).

Definition invoke_calculateBaseFee (tx : STTx) : prog Z :=
  match classes (tx_type_ tx) with Some cls => tc_calculateBaseFee cls tx | None => mret 0 end.

Definition invoke_preclaim (cls : TxClass) (txExists : Z -> bool) (tx : STTx) (flags : Z) : prog Z :=
  id ← liftR (getAccountID (tx_object tx) sfAccount);
  if negb (id =? 0) then
    result ← checkSeq txExists tx;
    if negb (result =? tesSUCCESS) then mret result else
    baseFee ← invoke_calculateBaseFee tx;
    result ← checkFee tx flags baseFee;
    if negb (result =? tesSUCCESS) then mret result else
    result ← checkSign tx;
    if negb (result =? tesSUCCESS) then mret result else
    tc_preclaim cls tx flags
  else tc_preclaim cls tx flags.

(** [preclaim], of a preflight under the rules of the view ([same_rules]) or others. *)
Definition preclaim (base : ReadView Object) (to : OpenView) (same_rules : bool) (preflightResult : Z) (tx : STTx) (flags : Z) : Z :=
  let ter := if same_rules then preflightResult else preflight (enabled info) tx flags in
  if negb (ter =? tesSUCCESS) then ter else
  or_exception (match classes (tx_type_ tx) with
                | Some cls => read_only base (invoke_preclaim cls (txExists to) tx flags)
                | None => Ok (temUNKNOWN : Z)
                end).

Definition likelyToClaimFee (ter flags : Z) : bool := (ter =? tesSUCCESS) || isTecClaimHardFail ter flags.

(** [doApply], of a preclaim against a ledger with the sequence [preclaim_seq]. *)
Definition doApply (base : ReadView Object) (to : OpenView) (preclaim_seq ter : Z) (tx : STTx) (flags : Z) : (Z * bool) * option OpenView :=
  if negb (preclaim_seq =? ledger_seq info) then (((tefEXCEPTION : Z), false), Some to) else
  if negb (likelyToClaimFee ter flags) then ((ter, false), Some to) else
  match read_only base (invoke_calculateBaseFee tx) with
  | Throw _ => (((tefEXCEPTION : Z), false), Some to)
  | Ok baseFee =>
      match classes (tx_type_ tx) with
      | None => (((temUNKNOWN : Z), false), Some to)
      | Some cls =>
          let (r, to') := transact base to cls tx flags ter baseFee in
          (match r with Ok r => r | Throw _ => ((tefEXCEPTION : Z), false) end, to')
      end
  end.

Definition apply (base : ReadView Object) (to : OpenView) (tx : STTx) (flags : Z) : (Z * bool) * option OpenView :=
  let pfresult := preflight (enabled info) tx flags in
  let pcresult := preclaim base to true pfresult tx flags in
  doApply base to (ledger_seq info) pcresult tx flags.

(** *** What the queue asks *)

Inductive ConsequenceCategory := normal | blocker.
Record TxConsequences := mkConsequences { category : ConsequenceCategory; cq_fee : Z; potentialSpend : Z }.

Definition invoke_calculateConsequences (tx : STTx) : res TxConsequences :=
  match (if (tx_type_ tx =? ttAMENDMENT) || (tx_type_ tx =? ttFEE) then None else classes (tx_type_ tx)) with
  | Some cls =>
      blocks ← tc_affectsSubsequentTransactionAuth cls tx;
      feePaid ← calculateFeePaid tx;
      maxSpend ← tc_calculateMaxSpend cls tx;
      Ok (mkConsequences (if blocks : bool then blocker else normal) feePaid maxSpend)
  | None => feePaid ← calculateFeePaid tx; Ok (mkConsequences blocker feePaid 0)
  end.

Definition calculateConsequences (preflightResult : Z) (tx : STTx) : res TxConsequences :=
  if negb (preflightResult =? tesSUCCESS) then (feePaid ← calculateFeePaid tx; Ok (mkConsequences blocker feePaid 0))
  else invoke_calculateConsequences tx.

Inductive ApplyResult := Success | Fail | Retry.

Definition applyTransaction (base : ReadView Object) (to : OpenView) (tx : STTx) (retryAssured : bool) (flags : Z) : ApplyResult * option OpenView :=
  let flags := if retryAssured then Z.lor flags tapRETRY else flags in
  let (r, to') := apply base to tx flags in
  (if r.2 then Success
   else if isTefFailure r.1 || isTemMalformed r.1 || isTelLocal r.1 then Fail else Retry, to').
End Transactor.
