(* ===== verification/Unfunded.v ===== *)
(** * Removing unfunded offers

    What [removeUnfundedOffers] of app/tx/impl/Transactor.cpp and [offerDelete] of
    ledger/impl/View.cpp do to a ledger: the offers they are given go, with their
    places in the two directories that list them, the owners' counts fall, and nothing
    else is different. *)

From S2P Require Import Prelude Serializer Directory View RawStateTable ApplyStateTable STAmount SField STObject STAccess TER Indexes Formats Prog Invariants Entries OwnerDir LedgerView Transactor.

(** The page at [P] lists the entry [i]. *)
Definition listed (m : gmap Z (SLE Object)) (P i : Z) : Prop := exists s, m !! P = Some s /\ sle_type s = ltDIR_NODE /\ i ∈ field_of as_v256 [] s sfIndexes.

(** ** What a program keeps *)

Definition keeps (Q : gmap Z (SLE Object) -> Prop) {A} (p : prog A) : Prop :=
  forall m d a m' d', ledger_ok m -> Q m -> run_map p (m, d) = Ok (a, (m', d')) -> ledger_ok m' /\ Q m'.

Section Keeps.
Context (Q : gmap Z (SLE Object) -> Prop).

Lemma keeps_ret {A} (a : A) : keeps Q (mret a).
Proof. intros m d b m' d' Hm HQ [_ [= -> ->]]%run_ret_inv. done. Qed.

Lemma keeps_raise {A} e : keeps Q (Raise (A := A) e).
Proof. intros m d b m' d' Hm HQ H. discriminate H. Qed.

Lemma keeps_bind {A B} (p : prog A) (f : A -> prog B) : keeps Q p -> (forall a, keeps Q (f a)) -> keeps Q (p ≫= f).
Proof. intros Hp Hf m d b m' d' Hm HQ (a & m1 & d1 & E1 & E2)%run_bind_inv. destruct (Hp m d a m1 d1 Hm HQ E1). by eapply Hf. Qed.

Lemma keeps_lift_bind {A B} (r : res A) (f : A -> prog B) : (forall a, r = Ok a -> keeps Q (f a)) -> keeps Q (liftR r ≫= f).
Proof. intros Hf m d b m' d' Hm HQ (a & m1 & d1 & [E1 [= -> ->]]%run_lift_inv & E2)%run_bind_inv. by eapply Hf. Qed.

Lemma keeps_peek_bind {B} k (f : option (SLE Object) -> prog B) :
  (forall m, ledger_ok m -> Q m -> keeps Q (f (shown m k))) -> keeps Q (peek k ≫= f).
Proof. intros Hf m d b m' d' Hm HQ H. rewrite run_mbind, run_peek in H. by eapply (Hf m). Qed.

Lemma keeps_object_bind {B} k (f : Object -> prog B) :
  (forall m s, ledger_ok m -> Q m -> shown m k = Some s -> keeps Q (f (sle_data s))) -> keeps Q (peek_object k ≫= f).
Proof. intros Hf m d b m' d' Hm HQ (o & m1 & d1 & (s & Hs & -> & [= -> ->])%run_peek_object_inv & E2)%run_bind_inv. by eapply Hf. Qed.
End Keeps.

(** ** A page keeps what it lists *)

Section Listed.
Context (P i : Z).

Lemma listed_page k s m : ledger_ok m -> kl_type k = ltDIR_NODE -> shown m k = Some s -> listed m P i -> getFieldV256 (sle_data s) sfIndexes = Ok [] -> P <> kl_key k.
Proof.
  intros Hm Hk Hs (s' & Hl & _ & Hi) He ->. destruct (shown_ok m Hm k s Hk Hs) as (Hl' & Hok & Ht & _ & _). assert (s' = s) as -> by congruence.
  rewrite get_indexes_page in He by done. injection He as He. rewrite He in Hi. set_solver.
Qed.

(** The fields that link pages. *)
Definition link_fields : list SField := [sfIndexNext; sfIndexPrevious].

Lemma keeps_link k f : kl_type k = ltDIR_NODE -> writes link_fields f -> keeps (fun m => listed m P i) (modify k f).
Proof.
  intros Hk Hf m d u m' d' Hm (s' & Hl & Ht & Hi) Hr. pose proof Hr as Hr'. apply run_modify_inv in Hr' as (s & o & Hs & Ho & [= -> ->]).
  destruct (shown_ok m Hm k s Hk Hs) as (Hl' & Hok & Ht' & _ & _). destruct (sle_ok_templated s Hok) as [Hob Hfr]. destruct (Hf _ _ Hob Hfr Ho) as (_ & _ & Hp).
  split; [eapply (neutral_page k f Hk); [|exact Hm|exact Hr]; intros o1 o2 A1 A2 A3; destruct (Hf _ _ A1 A2 A3) as (? & ? & P3); split_and!; try done; intros g Hg; apply P3; set_solver|].
  destruct (decide (P = kl_key k)) as [->|Hne]; [|exists s'; by rewrite lookup_insert_ne].
  assert (s' = s) as -> by congruence. exists (with_data s o). rewrite lookup_insert_eq. split; [done|]. split; [done|]. unfold field_of in *. cbn [sle_data with_data].
  rewrite Hp; [done|]. refine (bool_decide_unpack _ _). vm_compute. exact I.
Qed.

Lemma keeps_erase k : P <> kl_key k -> keeps (fun m => listed m P i) (erase_sle k).
Proof.
  intros Hne m d u m' d' Hm (s' & Hl & Ht & Hi) (s & Hs & [= -> ->])%run_erase_inv. split; [by apply ledger_ok_delete|]. exists s'. by rewrite lookup_delete_ne.
Qed.
End Listed.

Ltac keeps_step :=
  match goal with
  | |- keeps _ (mret _) => apply keeps_ret
  | |- keeps _ (Raise _) => apply keeps_raise
  | |- keeps _ (logic _) => apply keeps_raise
  | |- keeps _ (liftR _ ≫= _) => apply keeps_lift_bind; intros ? ?
  | |- keeps _ (peek _ ≫= _) => apply keeps_peek_bind; intros ? ? ?
  | |- keeps _ (peek_object _ ≫= _) => apply keeps_object_bind; intros ? ? ? ? ?
  | |- keeps _ (_ ≫= _) => apply keeps_bind; [|intros ?]
  | |- keeps _ (modify _ _) => apply keeps_link; [done|unfold link_fields; writes_tac]
  | |- keeps _ (erase_sle _) => apply keeps_erase
  | |- keeps _ (if bool_decide ?b then _ else _) => case_bool_decide
  | |- keeps _ (if ?b then _ else _) => let E := fresh "E" in destruct b eqn:E; [repeat apply andb_prop in E as [? E]|clear E]
  | |- keeps _ (match shown ?m ?k with _ => _ end) => destruct (shown m k) eqn:?
  | |- keeps _ (match ?x with _ => _ end) => destruct x
  end.
Ltac keeps_tac := cbv zeta; repeat keeps_step; repeat match goal with E : bool_decide (_ = []) = true |- _ => apply bool_decide_eq_true in E end; subst; try (by eauto using listed_page).

Section DirRemove.
Context (sha512Half : list Z -> Z) (P i : Z).
Abbreviation page_of := (keylet_page_of sha512Half).

Lemma keeps_remove_page dir page prevPage nextPage keepRoot : P <> kl_key (page_of dir page) -> keeps (fun m => listed m P i) (view_remove_page sha512Half dir page prevPage nextPage keepRoot).
Proof. intros HP. unfold view_remove_page. keeps_tac. Qed.

Lemma keeps_remove_root dir prevPage nextPage keepRoot : P <> kl_key (page_of dir 0) -> keeps (fun m => listed m P i) (view_remove_from_root sha512Half dir prevPage nextPage keepRoot).
Proof. intros HP. unfold view_remove_from_root. keeps_tac. Qed.

(** A removal takes nothing from a page but the entry it removes. *)
Lemma keeps_dirRemove dir page key keepRoot : P <> kl_key (page_of dir page) \/ key <> i -> keeps (fun m => listed m P i) (view_dirRemove sha512Half dir page key keepRoot).
Proof.
  intros HP m d a m' d' Hm HQ Hr. split; [by eapply (neutral_dirRemove sha512Half dir page key keepRoot m d)|]. unfold view_dirRemove in Hr. rewrite run_mbind, run_peek in Hr. cbn [mbind res_bind] in Hr.
  set (pk := page_of dir page) in *. destruct (shown m pk) as [s|] eqn:Hs; [|apply run_ret_inv in Hr as [_ [= -> ->]]; done].
  destruct (shown_ok m Hm pk s eq_refl Hs) as (Hl & Hok & Ht & _ & _). apply run_bind_inv in Hr as (es & m0 & d0 & [He [= -> ->]]%run_lift_inv & Hr). rewrite get_indexes_page in He by done. injection He as <-.
  case_bool_decide as Hin; [|apply run_ret_inv in Hr as [_ [= -> ->]]; done]. cbv zeta in Hr. set (es' := erase_first key (field_of as_v256 [] s sfIndexes)) in *.
  apply run_bind_inv in Hr as (u & m1 & d1 & Hmod & Hr). assert (Hm1 : ledger_ok m1) by by eapply neutral_page; [| |exact Hm|exact Hmod]; [done|unfold page_fields; writes_tac].
  apply run_modify_inv in Hmod as (s0 & o & Hs0 & Ho & [= -> ->]). assert (s0 = s) as -> by congruence. destruct (set_indexes_page s es' Hok Ht) as (o' & Ho' & Hok' & Hn). assert (o' = o) as -> by congruence.
  assert (Hes : field_of as_v256 [] (with_data s o) sfIndexes = es') by by apply (f_equal Directory.sfIndexes) in Hn.
  assert (HQ1 : listed (<[kl_key pk := with_data s o]> m) P i).
  { destruct HQ as (s1 & Hl1 & Ht1 & Hi1). destruct (decide (P = kl_key pk)) as [E|E]; [|exists s1; by rewrite lookup_insert_ne]. destruct HP as [HP|HP]; [done|].
    rewrite E in *. assert (s1 = s) as -> by congruence. exists (with_data s o). rewrite lookup_insert_eq, Hes. split; [done|]. split; [done|]. destruct (erase_first_in _ _ Hin) as (pre & post & Hv & Hv'). unfold es'. rewrite Hv'. rewrite Hv in Hi1. set_solver. }
  case_bool_decide as Hemp; cbn [negb] in Hr; [|apply run_ret_inv in Hr as [_ [= -> ->]]; done].
  assert (HPk : P <> kl_key pk).
  { intros E. destruct HQ1 as (s1 & Hl1 & _ & Hi1). rewrite E, lookup_insert_eq in Hl1. injection Hl1 as <-. rewrite Hes, Hemp in Hi1. set_solver. }
  repeat (apply run_bind_inv in Hr as (? & ? & ? & [_ [= -> ->]]%run_lift_inv & Hr)). destruct (Z.eqb_spec page 0) as [->|Hpage].
  - eapply keeps_remove_root; [exact HPk|exact Hm1|exact HQ1|exact Hr].
  - eapply keeps_remove_page; [exact HPk|exact Hm1|exact HQ1|exact Hr].
Qed.
End DirRemove.

(** ** No entry appears *)

Section Vanish.
Context (k0 : Z).

Lemma keeps_none_modify T k f : neutral T (modify k f) -> keeps (fun m => m !! k0 = None) (modify k f).
Proof.
  intros Hn m d u m' d' Hm Hk Hr. split; [by eapply Hn|]. apply run_modify_inv in Hr as (s & o & [Hs _]%shown_Some & _ & [= -> ->]). rewrite lookup_insert_ne; [done|]. intros E. congruence.
Qed.

Lemma keeps_none_erase k : keeps (fun m => m !! k0 = None) (erase_sle k).
Proof. intros m d u m' d' Hm Hk (s & _ & [= -> ->])%run_erase_inv. split; [by apply ledger_ok_delete|]. rewrite lookup_delete. by case_decide. Qed.
End Vanish.

Ltac none_step :=
  match goal with
  | |- keeps _ (modify _ _) => eapply keeps_none_modify; solve [eauto with neutral]
  | |- keeps _ (erase_sle _) => apply keeps_none_erase
  | _ => keeps_step
  end.

Lemma keeps_none_dirRemove sha512Half k0 dir page key keepRoot : keeps (fun m => m !! k0 = None) (view_dirRemove sha512Half dir page key keepRoot).
Proof. unfold view_dirRemove, view_remove_page, view_remove_from_root. cbv zeta; repeat none_step. Qed.

(** ** A ledger without some of its offers *)

(** [m'] is [m] without some of [offers]: nothing appears, no drops move, the offers
    that stay are what they were, of an account only the owner count may differ, and
    a directory lists what it listed but for the offers. *)
Definition sheds (offers : list Z) (m m' : gmap Z (SLE Object)) : Prop :=
  ledger_ok m' /\ same_money m m' /\ same_outside [ltDIR_NODE : Z; ltACCOUNT_ROOT : Z; ltOFFER : Z] m m' /\
  (forall k, m !! k = None -> m' !! k = None) /\
  (forall k s, sle_type s = ltOFFER -> m !! k = Some s -> m' !! k = Some s \/ m' !! k = None /\ k ∈ offers) /\
  (forall k s, sle_type s = ltACCOUNT_ROOT -> m !! k = Some s -> exists s', m' !! k = Some s' /\ sle_type s' = ltACCOUNT_ROOT /\ evolves [sfOwnerCount] (sle_data s) (sle_data s')) /\
  (forall P i, listed m P i -> i ∉ offers -> listed m' P i).

Lemma account_evolves m k s : ledger_ok m -> m !! k = Some s -> evolves [sfOwnerCount] (sle_data s) (sle_data s).
Proof. intros Hm Hl. apply evolves_refl. destruct (Hm _ _ Hl) as (_ & Hok & _). by apply sle_ok_templated in Hok as [? _]. Qed.

Lemma sheds_refl offers m : ledger_ok m -> sheds offers m m.
Proof.
  intros Hm. split; [done|]. split; [done|]. split; [done|]. split; [done|]. split; [by left|]. split; [|done].
  intros k s Ht Hl. exists s. split; [done|]. split; [done|]. by eapply (account_evolves m).
Qed.

Lemma sheds_trans offers m1 m2 m3 : sheds offers m1 m2 -> sheds offers m2 m3 -> sheds offers m1 m3.
Proof.
  intros (A1 & A2 & A3 & A4 & A5 & A6 & A7) (B1 & B2 & B3 & B4 & B5 & B6 & B7). split; [done|]. split; [by etransitivity|]. split; [by eapply same_outside_trans|]. split; [by auto|]. split; [|split; [|by auto]].
  - intros k s Ht Hl. destruct (A5 k s Ht Hl) as [H|[H Hin]]; [by apply B5|]. right. split; [|done]. by apply B4.
  - intros k s Ht Hl. destruct (A6 k s Ht Hl) as (s1 & Hl1 & Ht1 & He1). destruct (B6 k s1 Ht1 Hl1) as (s2 & Hl2 & Ht2 & He2). exists s2. split; [done|]. split; [done|]. by eapply evolves_trans.
Qed.

Lemma sheds_mono offers offers' m m' : offers ⊆ offers' -> sheds offers m m' -> sheds offers' m m'.
Proof.
  intros Hs (A1 & A2 & A3 & A4 & A5 & A6 & A7). split; [done|]. split; [done|]. split; [done|]. split; [done|]. split; [|split; [done|]].
  - intros k s Ht Hl. destruct (A5 k s Ht Hl) as [?|[? ?]]; [by left|right; auto].
  - intros P i Hl Hi. apply A7; [done|]. by intros Hin%Hs.
Qed.

Lemma listed_same_outside T m m' P i : ltDIR_NODE ∉ T -> same_outside T m m' -> listed m P i -> listed m' P i.
Proof. intros HT Hs (s & Hl & Ht & Hi). exists s. split; [|done]. apply Hs; [by rewrite Ht|done]. Qed.

Section Shed.
Context (sha512Half : list Z -> Z).
Abbreviation page_of := (keylet_page_of sha512Half).

Lemma dirRemove_sheds dir page i keepRoot m d b m' d' : ledger_ok m -> run_map (view_dirRemove sha512Half dir page i keepRoot) (m, d) = Ok (b, (m', d')) -> sheds [i] m m'.
Proof.
  intros Hm Hr. destruct (neutral_dirRemove sha512Half dir page i keepRoot m d b m' d' Hm Hr) as (H1 & H2 & H3 & _). split; [done|]. split; [done|].
  split; [intros k s Hs; apply H3; set_solver|]. split; [intros k Hk; by eapply (keeps_none_dirRemove sha512Half k dir page i keepRoot m d)|]. split; [|split].
  - intros k s Ht Hl. left. apply H3; [|done]. rewrite Ht. set_solver.
  - intros k s Ht Hl. exists s. split; [apply H3; [rewrite Ht; set_solver|done]|]. split; [done|]. by eapply (account_evolves m).
  - intros P j Hl Hj. eapply (keeps_dirRemove sha512Half P j dir page i keepRoot); [right; set_solver|exact Hm|exact Hl|exact Hr].
Qed.

Lemma adjust_sheds offers k n m d u m' d' : ledger_ok m -> kl_type k = ltACCOUNT_ROOT -> run_map (adjustOwnerCount k n) (m, d) = Ok (u, (m', d')) -> sheds offers m m' /\ same_outside [ltACCOUNT_ROOT : Z] m m'.
Proof.
  intros Hm Hk Hr. assert (Hw : writes [sfOwnerCount] (fun o => current ← getFieldU32 o sfOwnerCount; _ ← at_field as_account 0 o sfAccount; setFieldU32 o sfOwnerCount (confineOwnerCount current n))) by writes_tac.
  assert (Hn : neutral [ltACCOUNT_ROOT : Z] (adjustOwnerCount k n)) by (apply (neutral_modify _ [sfOwnerCount]); [by rewrite Hk|rewrite Hk; set_solver|right; quiet_tac|done]).
  destruct (Hn m d u m' d' Hm Hr) as (H1 & H2 & H3 & _). split; [|done]. split; [done|]. split; [done|]. split; [intros j s Hs; apply H3; set_solver|].
  split; [intros j Hj; by eapply (keeps_none_modify j _ k _ Hn m d)|]. split; [|split; [|intros P i Hl _; eapply listed_same_outside; [|exact H3|exact Hl]; set_solver]].
  - intros j s Ht Hl. left. apply H3; [|done]. rewrite Ht. set_solver.
  - intros j s Ht Hl. apply run_modify_inv in Hr as (s0 & o & Hs & Ho & [= -> ->]). destruct (shown_type m k s0) as [Hl0 Ht0]; [by rewrite Hk|done|].
    destruct (decide (j = kl_key k)) as [->|Hne]; [|exists s; rewrite lookup_insert_ne by done; split; [done|]; split; [done|]; by eapply (account_evolves m)].
    exists (with_data s0 o). rewrite lookup_insert_eq. split; [done|]. split; [by rewrite <-Hk|]. assert (s0 = s) as -> by congruence.
    destruct (Hm _ _ Hl) as (_ & Hok & _). destruct (sle_ok_templated s Hok). by apply Hw.
Qed.

Lemma erase_sheds i m d u m' d' : ledger_ok m -> run_map (erase_sle (mkKeylet ltOFFER i)) (m, d) = Ok (u, (m', d')) -> sheds [i] m m' /\ m' !! i = None.
Proof.
  intros Hm Hr. destruct (neutral_erase [ltOFFER : Z] (mkKeylet ltOFFER i) eq_refl ltac:(set_solver) eq_refl m d u m' d' Hm Hr) as (H1 & H2 & H3 & _). pose proof Hr as (s0 & Hs & [= -> ->])%run_erase_inv. cbn [kl_key] in *.
  split; [|by rewrite lookup_delete_eq]. split; [done|]. split; [done|]. split; [intros j s Hj; apply H3; set_solver|]. split; [intros j Hj; rewrite lookup_delete; by case_decide|].
  split; [|split; [|intros P j Hl _; eapply listed_same_outside; [|exact H3|exact Hl]; set_solver]].
  - intros j s Ht Hl. rewrite lookup_delete. case_decide; [right; set_solver|by left].
  - intros j s Ht Hl. exists s. split; [apply H3; [rewrite Ht; set_solver|done]|]. split; [done|]. by eapply (account_evolves m).
Qed.

(** A removal returns what it was asked whenever the page lists the entry. *)
Definition yields {A} (a : A) (p : prog A) : Prop := forall md b md', run_map p md = Ok (b, md') -> b = a.

Lemma yields_bind {A B} (b : B) (p : prog A) (f : A -> prog B) : (forall a, yields b (f a)) -> yields b (p ≫= f).
Proof. intros Hf md c md' (a & m1 & d1 & _ & E)%run_bind_inv. by eapply Hf. Qed.

Lemma yields_ret {A} (a : A) : yields a (mret a).
Proof. intros md b md' [-> _]%run_ret_inv. done. Qed.

Lemma yields_raise {A} (a : A) e : yields a (Raise e).
Proof. intros md b md' H. discriminate H. Qed.

Ltac yields_tac :=
  cbv zeta; repeat match goal with
  | |- yields _ (mret _) => apply yields_ret
  | |- yields _ (logic _) => apply yields_raise
  | |- yields _ (_ ≫= _) => apply yields_bind; intros ?
  | |- yields _ (if ?b then _ else _) => destruct b
  | |- yields _ (match ?x with _ => _ end) => destruct x
  end.

Lemma dirRemove_true dir page i keepRoot m d b md' : ledger_ok m -> listed m (kl_key (page_of dir page)) i ->
  run_map (view_dirRemove sha512Half dir page i keepRoot) (m, d) = Ok (b, md') -> b = true.
Proof.
  intros Hm (s & Hl & Ht & Hi) Hr. assert (Hs : shown m (page_of dir page) = Some s) by (unfold shown; rewrite Hl; cbn; unfold check; cbn; by rewrite Ht).
  unfold view_dirRemove in Hr. rewrite run_mbind, run_peek in Hr. cbn [mbind res_bind] in Hr. rewrite Hs in Hr. destruct (shown_ok m Hm (page_of dir page) s eq_refl Hs) as (_ & Hok & _).
  apply run_bind_inv in Hr as (es & m0 & d0 & [He [= -> ->]]%run_lift_inv & Hr). rewrite get_indexes_page in He by done. injection He as <-. rewrite bool_decide_eq_true_2 in Hr by done.
  cbv zeta in Hr. revert Hr. match goal with |- run_map ?p ?x = _ -> _ => assert (Hy : yields true p); [|apply Hy] end. unfold view_remove_page, view_remove_from_root. yields_tac.
Qed.

(** The pages an offer names list it. *)
Definition in_directories (m : gmap Z (SLE Object)) (s : SLE Object) (i : Z) : Prop :=
  exists owner node book bnode, getAccountID (sle_data s) sfAccount = Ok owner /\ getFieldU64 (sle_data s) sfOwnerNode = Ok node /\
    getFieldH256 (sle_data s) sfBookDirectory = Ok book /\ getFieldU64 (sle_data s) sfBookNode = Ok bnode /\
    let P1 := kl_key (page_of (keylet_ownerDir sha512Half owner) node) in let P2 := kl_key (page_of (keylet_page sha512Half book 0) bnode) in
    P1 <> P2 /\ listed m P1 i /\ listed m P2 i.

Lemma offerDelete_sheds i m d r m' d' : ledger_ok m -> run_map (offerDelete sha512Half i) (m, d) = Ok (r, (m', d')) -> sheds [i] m m' /\
  forall s, sle_type s = ltOFFER -> m !! i = Some s -> in_directories m s i -> m' !! i = None.
Proof.
  intros Hm Hr. unfold offerDelete in Hr. cbv zeta in Hr. rewrite run_mbind, run_peek in Hr. cbn [mbind res_bind] in Hr. destruct (shown m (mkKeylet ltOFFER i)) as [s|] eqn:Hs; cycle 1.
  { apply run_ret_inv in Hr as [-> [= -> ->]]. split; [by apply sheds_refl|]. intros s Ht Hl _. unfold shown in Hs. cbn [kl_key] in Hs. rewrite Hl in Hs. cbn in Hs. unfold check in Hs. cbn [kl_type] in Hs. by rewrite Ht in Hs. }
  destruct (shown_type m (mkKeylet ltOFFER i) s eq_refl Hs) as [Hl Ht]. cbn [kl_key kl_type] in *.
  apply run_bind_inv in Hr as (owner & ? & ? & [F1 [= -> ->]]%run_lift_inv & Hr). apply run_bind_inv in Hr as (book & ? & ? & [F3 [= -> ->]]%run_lift_inv & Hr).
  apply run_bind_inv in Hr as (node & ? & ? & [F2 [= -> ->]]%run_lift_inv & Hr). apply run_bind_inv in Hr as (b1 & m1 & d1 & R1 & Hr). pose proof (dirRemove_sheds _ _ _ _ _ _ _ _ _ Hm R1) as S1. pose proof S1 as (Hm1 & _).
  assert (T1 : in_directories m s i -> b1 = true). { intros (ow & n & bk & bn & E1 & E2 & _ & _ & _ & Hin & _). assert (ow = owner) as -> by congruence. assert (n = node) as -> by congruence. eapply dirRemove_true; [exact Hm|exact Hin|exact R1]. }
  destruct b1; cbn [negb] in Hr; [|apply run_ret_inv in Hr as [-> [= -> ->]]; split; [done|]; intros s' _ Hl' Hd; assert (s' = s) as -> by congruence; by apply T1 in Hd].
  apply run_bind_inv in Hr as (bnode & ? & ? & [F4 [= -> ->]]%run_lift_inv & Hr). apply run_bind_inv in Hr as (b2 & m2 & d2 & R2 & Hr). pose proof (dirRemove_sheds _ _ _ _ _ _ _ _ _ Hm1 R2) as S2. pose proof S2 as (Hm2 & _).
  assert (T2 : in_directories m s i -> b2 = true).
  { intros (ow & n & bk & bn & E1 & E2 & E3 & E4 & Hne & _ & Hin). assert (ow = owner) as -> by congruence. assert (n = node) as -> by congruence. assert (bk = book) as -> by congruence. assert (bn = bnode) as -> by congruence.
    eapply dirRemove_true; [exact Hm1| |exact R2]. eapply (keeps_dirRemove sha512Half _ i); [|exact Hm|exact Hin|exact R1]. by left. }
  destruct b2; cbn [negb] in Hr; [|apply run_ret_inv in Hr as [-> [= -> ->]]; split; [by eapply sheds_trans|]; intros s' _ Hl' Hd; assert (s' = s) as -> by congruence; by apply T2 in Hd].
  apply run_bind_inv in Hr as (u3 & m3 & d3 & R3 & Hr). destruct (adjust_sheds [i] (keylet_account sha512Half owner) _ _ _ _ _ _ Hm2 eq_refl R3) as [S3 _]. pose proof S3 as (Hm3 & _).
  apply run_bind_inv in Hr as (u4 & m4 & d4 & R4 & Hr). destruct (erase_sheds _ _ _ _ _ _ Hm3 R4) as [S4 G]. apply run_ret_inv in Hr as [-> [= -> ->]].
  split; [|done]. do 3 (eapply sheds_trans; [eassumption|]). done.
Qed.

Lemma in_directories_kept offers m m' s i : sheds offers m m' -> i ∉ offers -> in_directories m s i -> in_directories m' s i.
Proof.
  intros (_ & _ & _ & _ & _ & _ & HL) Hi (ow & n & bk & bn & E1 & E2 & E3 & E4 & Hne & L1 & L2). exists ow, n, bk, bn. by split_and!; auto.
Qed.

(** [removeUnfundedOffers] takes nothing but offers it is given, and takes every one
    of the first [limit] that its directories list. *)
Lemma removeUnfunded_sheds limit offers m d u m' d' : ledger_ok m -> run_map (removeUnfundedOffers sha512Half limit offers) (m, d) = Ok (u, (m', d')) -> sheds offers m m' /\
  forall i s, i ∈ take limit offers -> sle_type s = ltOFFER -> m !! i = Some s -> in_directories m s i -> m' !! i = None.
Proof.
  revert limit m d. induction offers as [|j offers IH]; intros limit m d Hm Hr.
  { destruct limit; apply run_ret_inv in Hr as [_ [= -> ->]]; (split; [by apply sheds_refl|]); intros i s Hi; cbn in Hi; set_solver. }
  destruct limit as [|limit]; [apply run_ret_inv in Hr as [_ [= -> ->]]; split; [by apply sheds_refl|]; intros i s Hi; cbn in Hi; set_solver|].
  cbn [removeUnfundedOffers] in Hr. rewrite run_mbind, run_peek in Hr. cbn [mbind res_bind] in Hr. destruct (shown m (mkKeylet ltOFFER j)) as [sj|] eqn:Hs.
  - apply run_bind_inv in Hr as (r & m1 & d1 & R1 & Hr). destruct (offerDelete_sheds _ _ _ _ _ _ Hm R1) as [S1 G1]. destruct (IH limit m1 d1) as [S2 G2]; [by apply S1|exact Hr|].
    split; [eapply sheds_trans; [eapply sheds_mono; [|exact S1]|eapply sheds_mono; [|exact S2]]; set_solver|]. intros i s Hi Ht Hl Hd. pose proof S2 as (_ & _ & _ & N2 & _).
    destruct (decide (i = j)) as [->|Hne]; [apply N2; by eapply G1|]. pose proof S1 as (_ & _ & _ & _ & O1 & _). destruct (O1 i s Ht Hl) as [Hl1|[Hn _]]; [|by apply N2].
    apply (G2 i s); [cbn [take] in Hi; set_solver|done|done|]. eapply in_directories_kept; [exact S1|set_solver|done].
  - destruct (IH (S limit) m d Hm Hr) as [S2 G2]. split; [eapply sheds_mono; [|exact S2]; set_solver|]. intros i s Hi Ht Hl Hd. destruct (decide (i = j)) as [->|Hne].
    + exfalso. unfold shown in Hs. cbn [kl_key] in Hs. rewrite Hl in Hs. cbn in Hs. unfold check in Hs. cbn [kl_type] in Hs. by rewrite Ht in Hs.
    + apply (G2 i s); try done. cbn [take] in Hi. apply elem_of_cons in Hi as [?|Hi]; [done|]. apply elem_of_take in Hi as (n & Hn & Hlt). apply elem_of_take. exists n. split; [done|lia].
Qed.
End Shed.

(** What is left of the ledger when [offers] were to be removed. *)
Definition offers_removed (sha512Half : list Z -> Z) (offers : list Z) (m m' : gmap Z (SLE Object)) : Prop :=
  sheds offers m m' /\ forall i s, i ∈ take unfundedOfferRemoveLimit offers -> sle_type s = ltOFFER -> m !! i = Some s -> in_directories sha512Half m s i -> m' !! i = None.
