(* ===== verification/Engine.v ===== *)
(** * What the engine guarantees

    Theorems on the files of [Transactor]: what is committed has passed the
    invariants, a result that claims a fee changes the account that pays it and
    nothing else, and a transaction that is applied was signed by a key that may. *)

From S2P Require Import Prelude STAmount Serializer Keys SField STObject STAccess View TER Indexes Formats STTx RawStateTable ApplyStateTable Prog.
From S2P Require Import HashRouter LoadFee Invariants Entries TxMeta MetaCommit OwnerDir LedgerView Transactor Unfunded.

(** ** Runs over the sandbox *)

(** A run that inserts only keys that are not there, and destroys no drops. *)
Fixpoint orderly {A} (p : prog A) (m : gmap Z (SLE Object)) : bool :=
  match p with
  | Ret _ | Raise _ => true
  | Peek k c | Read k c => orderly (c (shown m k)) m
  | Do (vo_destroySFC _) _ => false
  | Do op c => match vo_spec op (m, 0) with Some md => orderly c md.1 | None => false end
  end.

Lemma vo_spec_drops (op : ViewOp Object) m d : (forall fee, op <> vo_destroySFC fee) -> vo_spec op (m, d) = (fun md => (md.1, d)) <$> vo_spec op (m, 0).
Proof. destruct op as [k|k f|s|k|fee]; intros Hop; cbn; [done| | | |by destruct (Hop fee)]; repeat case_match; done. Qed.

(** Such a run over the table is a run over the map. *)
Lemma orderly_run {A} base m (p : prog A) : ReadViewOf base m -> keys_ok m -> forall t mm d a t', orderly p mm = true -> as_denotes m t mm d -> run_table base p t = Ok (a, t') ->
  exists mm', run_map p (mm, d) = Ok (a, (mm', d)) /\ as_denotes m t' mm' d.
Proof.
  intros Hb Hk. induction p as [a0|e|k c IH|k c IH|op c IH]; intros t mm d a t' Ho Hd; cbn [run_map run_table].
  - intros [= <- <-]. by exists mm.
  - done.
  - destruct (as_peek t base k) as [r t1] eqn:E. destruct (as_peek_spec base m t mm d k r t1 _ Hk Hd E) as [Hd1 Hp]. cbn [orderly] in Ho. unfold shown in Ho.
    cbn [fst]. destruct (mm !! kl_key k) as [s|]; cbn [mbind option_bind] in *; [|subst r; by apply IH]. destruct (check k s); [|subst r; by apply IH].
    destruct Hp as (q & b & -> & Hq & _). unfold deref. rewrite Hq. cbn [mbind res_bind]. by apply IH.
  - cbn [orderly] in Ho. pose proof Hd as (Hwf & Hov & _). pose proof (applyview_of base m t _ Hwf) as Hv.
    change (as_read t base k) with (rv_read (applyview base t) k). rewrite rv_read_spec, Hov. by apply IH.
  - assert (Hop : forall fee, op <> vo_destroySFC fee) by by intros fee ->. rewrite vo_spec_drops by done.
    assert (Ho' : exists md, vo_spec op (mm, 0) = Some md /\ orderly c md.1 = true) by (destruct op; cbn [orderly] in Ho; try done; destruct (vo_spec _ _) as [md|]; by try exists md).
    destruct Ho' as ([mm1 d1] & Hs & Ho'). rewrite Hs. cbn [fmap option_fmap option_map fst].
    assert (Hs' : vo_spec op (mm, d) = Some (mm1, d)) by by rewrite vo_spec_drops, Hs.
    destruct (vo_step_sim base m Hk op t mm d mm1 d Hd Hs') as (t1 & -> & Hd1). cbn [mbind res_bind]. by apply IH.
Qed.

(** Programs that insert nothing are orderly whatever they find. *)
Definition tame {A} (p : prog A) : Prop := forall m, orderly p m = true.

Lemma orderly_bind {A B} (p : prog A) (f : A -> prog B) m : orderly p m = true -> (forall a md, run_map p (m, 0) = Ok (a, md) -> orderly (f a) md.1 = true) -> orderly (p ≫= f) m = true.
Proof.
  change (p ≫= f) with (prog_bind f p). revert m. induction p as [a|e|k c IH|k c IH|op c IH]; intros m Ho Hf; cbn [prog_bind orderly] in *.
  - by apply (Hf a (m, 0)).
  - done.
  - apply IH; [done|]. intros a md Hr. by apply Hf.
  - apply IH; [done|]. intros a md Hr. by apply Hf.
  - assert (Hop : forall fee, op <> vo_destroySFC fee) by by intros fee ->. cbn [run_map] in Hf.
    destruct op; try done; destruct (vo_spec _ (m, 0)) as [[m1 d1]|] eqn:E; try done; (apply IH; [done|]); intros a md Hr; apply Hf; cbn in E; repeat case_match; simplify_eq; done.
Qed.

Lemma tame_bind {A B} (p : prog A) (f : A -> prog B) : tame p -> (forall a, tame (f a)) -> tame (p ≫= f).
Proof. intros Hp Hf m. apply orderly_bind; [done|]. intros a md _. by apply Hf. Qed.

Lemma tame_ret {A} (a : A) : tame (mret a). Proof. done. Qed.
Lemma tame_raise {A} e : tame (Raise (A := A) e). Proof. done. Qed.
Lemma tame_lift {A} (r : res A) : tame (liftR r). Proof. by destruct r. Qed.
Lemma tame_peek k : tame (peek k). Proof. done. Qed.
Lemma tame_read k : tame (read k). Proof. done. Qed.
Lemma tame_peek_object k : tame (peek_object k). Proof. intros m. cbn. by destruct (shown m k). Qed.
Lemma tame_read_object k : tame (read_object k). Proof. intros m. cbn. by destruct (shown m k). Qed.
Lemma tame_modify k f : tame (modify k f).
Proof. apply tame_bind; [apply tame_peek_object|intros o]. apply tame_bind; [apply tame_lift|intros o' m]. cbn. repeat case_match; simplify_eq; done. Qed.
Lemma tame_erase k : tame (erase_sle k).
Proof. apply tame_bind; [apply tame_peek_object|intros o m]. cbn. repeat case_match; simplify_eq; done. Qed.

Ltac tame_step :=
  match goal with
  | |- tame (modify _ _) => apply tame_modify
  | |- tame (erase_sle _) => apply tame_erase
  | |- tame (peek_object _) => apply tame_peek_object
  | |- tame (read_object _) => apply tame_read_object
  | |- tame (peek _) => apply tame_peek
  | |- tame (read _) => apply tame_read
  | |- tame (liftR _) => apply tame_lift
  | |- tame (mret _) => apply tame_ret
  | |- tame (Raise _) => apply tame_raise
  | |- tame (_ ≫= _) => apply tame_bind; [|intros ?]
  | |- tame (if ?b then _ else _) => destruct b
  | |- tame (match ?x with _ => _ end) => destruct x
  end.
Ltac tame_tac := cbv zeta; repeat tame_step.

(** One step of taking a run that returned apart. *)
Ltac run_step H :=
  match type of H with
  | run_map (_ ≫= _) _ = Ok _ => let H1 := fresh "R" in apply run_bind_inv in H as (? & ? & ? & H1 & H); try run_step H1
  | run_map (liftR _) _ = Ok _ => apply run_lift_inv in H as [? [= -> ->]]
  | run_map (mret _) _ = Ok _ => apply run_ret_inv in H as [-> [= -> ->]]
  | run_map (peek_object _) _ = Ok _ => apply run_peek_object_inv in H as (? & ? & -> & [= -> ->])
  | run_map (read_object _) _ = Ok _ => apply run_read_object_inv in H as (? & ? & -> & [= -> ->])
  | run_map (peek _) _ = Ok _ => rewrite run_peek in H; injection H as <- <- <-
  | run_map (read _) _ = Ok _ => rewrite run_read in H; injection H as <- <- <-
  | run_map (modify _ _) _ = Ok _ => apply run_modify_inv in H as (? & ? & ? & ? & [= -> ->])
  | run_map (erase_sle _) _ = Ok _ => apply run_erase_inv in H as (? & ? & [= -> ->])
  end.

Section Reset.
Context (sha512Half : list Z -> Z).
Abbreviation acct := (keylet_account sha512Half).
Abbreviation akey := (fun id => kl_key (keylet_account sha512Half id)).

Lemma tame_dirRemove dir page key keepRoot : tame (view_dirRemove sha512Half dir page key keepRoot).
Proof. unfold view_dirRemove, view_remove_page, view_remove_from_root, logic. tame_tac. Qed.

Lemma tame_offerDelete i : tame (offerDelete sha512Half i).
Proof. unfold offerDelete, adjustOwnerCount. cbv zeta; repeat first [tame_step | apply tame_dirRemove]. Qed.

Lemma tame_removeUnfunded limit l : tame (removeUnfundedOffers sha512Half limit l).
Proof.
  revert limit. induction l as [|i l IH]; intros limit; [by destruct limit|]. cbn [removeUnfundedOffers]. destruct limit as [|limit]; [done|].
  apply tame_bind; [apply tame_peek|intros s]. destruct s; [apply tame_bind; [apply tame_offerDelete|intros _; apply IH]|apply IH].
Qed.

(** The ledger [m'] is [m] with the fee taken from the account's balance and the
    account's sequence number moved to [next]; nothing but fields [F] of the account
    is different. *)
Definition charged (F : list SField) (id next fee : Z) (m m' : gmap Z (SLE Object)) : Prop :=
  exists s s' n, m !! akey id = Some s /\ m' = <[akey id := s']> m /\ evolves F (sle_data s) (sle_data s') /\
    sle_type s = ltACCOUNT_ROOT /\ sle_type s' = ltACCOUNT_ROOT /\ sle_key s' = sle_key s /\
    amount_field s sfBalance n /\ amount_field s' sfBalance (n - fee) /\ fee <= n /\ field_of as_u32 0 s' sfSequence = next.

Lemma tame_reset tx fee : tame (reset sha512Half tx fee).
Proof. unfold reset. tame_tac. Qed.

Lemma reset_run tx fee m d fee' m' d' : ledger_ok m -> 0 <= fee -> run_map (reset sha512Half tx fee) (m, d) = Ok (fee', (m', d')) ->
  exists id seq, getAccountID (tx_object tx) sfAccount = Ok id /\ getSequence tx = Ok seq /\ charged [sfBalance; sfSequence] id (u32 (seq + 1)) fee' m m' /\
    fee' = Z.min fee (money m (akey id)) /\ 0 <= fee' /\ d' = d.
Proof.
  intros Hm Hfee Hr. unfold reset in Hr. repeat run_step Hr. repeat run_step R. repeat run_step R0. repeat run_step R2.
  rewrite H0 in H2. injection H2 as <-. rename x into id, x3 into s, x0 into n, x6 into o'. destruct (account_balance sha512Half m id s Hm H0) as (a & n' & Hp & Ha & Hn & Hmoney & Hok & Ht).
  rewrite (get_balance _ _ Hp) in H1. cbn [mbind res_bind] in H1. rewrite (sfc_drops a n' Ha) in H1. injection H1 as <-. set (fee' := if n' <? fee then n' else fee) in *.
  assert (Hf' : 0 <= fee' <= n' /\ fee' = Z.min fee n') by (subst fee'; destruct (Z.ltb_spec n' fee); lia).
  pose proof (drops_range a n' Ha) as Hrange. rewrite i64_small in H3 by (st_consts; lia).
  apply bind_Ok_inv in H3 as (b & Hb & H3). destruct (ofSFC_drops (n' - fee')) as (b' & Hb' & Hdb); [st_consts; lia|]. rewrite Hb in Hb'. injection Hb' as <-.
  apply bind_Ok_inv in H3 as (o1 & Ho1 & H3). apply bind_Ok_inv in H3 as (seq & Hseq & H3). destruct (sle_ok_templated s Hok) as [Hobj _].
  assert (Hw1 : written_to (sle_data s) sfBalance (V_Amount b) o1) by (apply setField_written; [done|field_ok_tac|done]).
  assert (Hobj1 : object_ok o1) by apply Hw1. assert (Hw2 : written_to o1 sfSequence (V_UInt32 (u32 (seq + 1))) o') by (apply setField_written; [done|field_ok_tac|done]).
  destruct (shown_type m (acct id) s eq_refl H0) as [Hl _]. exists id, seq. split; [done|]. split; [done|]. split; [|split; [cbv beta; rewrite Hmoney; lia|split; [lia|done]]].
  exists s, (with_data s o'), n'. split; [done|]. split; [done|]. split; [|split; [done|split; [done|split; [done|split; [by exists a|split; [|split; [lia|]]]]]]].
  - eapply evolves_trans; eapply written_evolves; [exact Hw1| |exact Hw2|]; refine (bool_decide_unpack _ _); vm_compute; exact I.
  - exists b. split; [|done]. destruct Hw1 as (_ & _ & P1), Hw2 as (_ & _ & P2). cbn [sle_data with_data]. rewrite P2, decide_False, P1, decide_True by done. done.
  - unfold field_of. cbn [sle_data with_data]. destruct Hw2 as (_ & _ & P2). rewrite P2, decide_True by done. done.
Qed.

(** What a charge is to the ledger as a whole. *)
Lemma charged_ok F id next fee m m' : ledger_ok m -> 0 <= fee -> charged F id next fee m m' -> ledger_ok m' /\ total_drops m' = total_drops m - fee.
Proof.
  intros Hm Hfee (s & s' & n & Hl & -> & Hev & Ht & Ht' & Hk & Hn & Hn' & Hle & _). destruct (Hm _ _ Hl) as (Hk0 & Hok & _). split.
  - apply ledger_ok_insert; [done|congruence| |].
    + replace s' with (with_data s (sle_data s')) by (destruct s, s'; cbn in *; unfold with_data; cbn; congruence). by eapply sle_ok_evolves.
    + split_and!; intros E; try (rewrite Ht' in E; discriminate E). exists (n - fee). split; [done|lia].
  - set (k := akey id) in *. cbv beta in *. assert (Hmon : money m k = n) by (unfold money; rewrite Hl; by apply account_money).
    assert (Htc : total_drops (<[k := s']> m) - total_drops m = money (<[k := s']> m) k - money m k + 0).
    { apply (total_changes [k]); [apply NoDup_singleton|]. intros j Hj. rewrite money_insert, decide_False; [done|]. set_solver. }
    rewrite money_insert, decide_True, (account_money s' (n - fee)) in Htc by done. lia.
Qed.

Definition pay_fields : list SField := [sfSequence; sfAccountTxnID; sfBalance].

Lemma evolves_sub F F' o o' : getCode <$> F ⊆ getCode <$> F' -> evolves F o o' -> evolves F' o o'.
Proof. intros Hs (H1 & H2 & H3). split; [done|]. split; [done|]. intros g Hg. apply H3. intros Hin. by apply Hg, Hs. Qed.

(** The account after [setSeq] and [payFee]. *)
Lemma paid_object tx n fee s o' : sle_ok s -> sle_type s = ltACCOUNT_ROOT -> calculateFeePaid tx = Ok fee -> 0 <= n - fee <= cMaxNativeN ->
  (o ← setSeq tx (sle_data s); payFee tx n o) = Ok o' ->
  exists seq b, getSequence tx = Ok seq /\ evolves pay_fields (sle_data s) o' /\ peekAtPField o' sfBalance = Some (V_Amount b) /\ is_drops b (n - fee) /\
    field_of as_u32 0 (with_data s o') sfSequence = u32 (seq + 1).
Proof.
  intros Hok Ht Hfee Hrange (o1 & Hseq & Hpay)%bind_Ok_inv. destruct (sle_ok_templated s Hok) as [Hobj _]. unfold setSeq in Hseq. apply bind_Ok_inv in Hseq as (seq & Es & Hseq). apply bind_Ok_inv in Hseq as (o0 & Hset & Htx).
  assert (Hw0 : written_to (sle_data s) sfSequence (V_UInt32 (u32 (seq + 1))) o0) by (apply setField_written; [done|field_ok_tac|done]). assert (Hobj0 : object_ok o0) by apply Hw0.
  assert (Hev1 : evolves [sfAccountTxnID] o0 o1).
  { destruct (isFieldPresent o0 sfAccountTxnID); [|injection Htx as <-; by apply evolves_refl]. apply (written_evolves _ _ sfAccountTxnID (V_Hash256 (tid_ tx))); [apply setField_written; [done|field_ok_tac|exact Htx]|left]. }
  assert (Hobj1 : object_ok o1) by apply Hev1. unfold payFee in Hpay. rewrite Hfee in Hpay. cbn [mbind res_bind] in Hpay. rewrite i64_small in Hpay by (st_consts; lia).
  apply bind_Ok_inv in Hpay as (b & Hb & Hpay). destruct (ofSFC_drops (n - fee)) as (b' & Hb' & Hdb); [st_consts; lia|]. rewrite Hb in Hb'. injection Hb' as <-.
  assert (Hw2 : written_to o1 sfBalance (V_Amount b) o') by (apply setField_written; [done|field_ok_tac|done]). exists seq, b. split; [done|]. split; [|split; [|split; [done|]]].
  - apply (evolves_trans _ _ o0); [eapply written_evolves; [exact Hw0|]|apply (evolves_trans _ _ o1); [eapply evolves_sub; [|exact Hev1]|eapply written_evolves; [exact Hw2|]]];
      refine (bool_decide_unpack _ _); vm_compute; exact I.
  - destruct Hw2 as (_ & _ & P2). by rewrite P2, decide_True.
  - unfold field_of. cbn [sle_data with_data]. destruct Hw2 as (_ & _ & P2), Hw0 as (_ & _ & P0). destruct Hev1 as (_ & _ & P1).
    rewrite P2, decide_False, P1, P0, decide_True; [done|done|refine (bool_decide_unpack _ _); vm_compute; exact I|done].
Qed.

(** [apply] charges the account and hands over to the class. *)
Lemma pay_run cls tx baseFee flags m d r m' d' id fee : ledger_ok m -> getAccountID (tx_object tx) sfAccount = Ok id -> calculateFeePaid tx = Ok fee ->
  is_Some (shown m (acct id)) -> 0 <= fee <= money m (akey id) -> run_map (transactor_apply sha512Half cls tx baseFee flags) (m, d) = Ok (r, (m', d')) ->
  exists seq m1, getSequence tx = Ok seq /\ charged pay_fields id (u32 (seq + 1)) fee m m1 /\
    run_map (tc_doApply cls (mkApplying tx id (money m (akey id)) (money m (akey id) - fee) baseFee flags)) (m1, d) = Ok (r, (m', d')).
Proof.
  intros Hm Hid Hfee [s Hs] Hle Hr. unfold transactor_apply in Hr. run_step Hr. rewrite Hid in H. injection H as <-. run_step Hr. rewrite Hs in Hr.
  destruct (account_balance sha512Half m id s Hm Hs) as (a & n & Hp & Ha & Hn & Hmoney & Hok & Ht). pose proof (drops_range a n Ha) as Hrange. cbv beta in *. rewrite Hmoney in *.
  run_step Hr. unfold at_field in H. rewrite Hp in H. cbn [as_amount mbind res_bind] in H. rewrite (sfc_drops a n Ha) in H. injection H as <-. run_step Hr. rewrite Hfee in H. injection H as <-.
  apply run_bind_inv in Hr as (u & m1 & d1 & Hmod & Hr). apply run_modify_inv in Hmod as (s' & o' & Hs' & Hf & [= -> ->]). rewrite Hs in Hs'. injection Hs' as <-.
  rewrite i64_small in Hr by (st_consts; lia). destruct (paid_object tx n fee s o' Hok Ht Hfee) as (seq & b & Hseq & Hev & Hb & Hdb & Hnext); [st_consts; lia|done|].
  destruct (shown_type m (acct id) s eq_refl Hs) as [Hl _]. eexists seq, _. split; [done|]. split; [|exact Hr].
  exists s, (with_data s o'), n. split; [done|]. split; [done|]. split; [done|]. split; [done|]. split; [done|]. split; [done|]. split; [by exists a|]. split; [by exists b|]. split; [lia|done].
Qed.
End Reset.

(** A class whose own part moves no SFC takes the fee from the account, and nothing
    from or to anyone else. *)
Lemma neutral_apply sha512Half T cls tx baseFee flags m d r m' d' id fee : (forall ap, neutral T (tc_doApply cls ap)) ->
  ledger_ok m -> getAccountID (tx_object tx) sfAccount = Ok id -> calculateFeePaid tx = Ok fee ->
  is_Some (shown m (keylet_account sha512Half id)) -> 0 <= fee <= money m (kl_key (keylet_account sha512Half id)) ->
  run_map (transactor_apply sha512Half cls tx baseFee flags) (m, d) = Ok (r, (m', d')) ->
  ledger_ok m' /\ d' = d /\ forall k, money m' k = if decide (k = kl_key (keylet_account sha512Half id)) then money m k - fee else money m k.
Proof.
  intros HT Hm Hid Hfee Hs Hle Hr. destruct (pay_run sha512Half cls tx baseFee flags m d r m' d' id fee Hm Hid Hfee Hs Hle Hr) as (seq & m1 & _ & Hc & Hr1).
  destruct (charged_ok sha512Half _ id _ fee m m1 Hm ltac:(lia) Hc) as [Hm1 _]. destruct (HT _ _ _ _ _ _ Hm1 Hr1) as (Hm' & Hsame & _ & ->). split; [done|]. split; [done|]. intros k. rewrite Hsame.
  destruct Hc as (s & s' & n & Hl & -> & _ & Ht & Ht' & _ & Hn & Hn' & _). rewrite money_insert. case_decide as Hk; [|done]. rewrite (account_money s' (n - fee)) by done.
  unfold money. rewrite Hk, Hl. cbn [opt_v]. by rewrite (account_money s n).
Qed.

(** ** What is committed *)

Section Outcome.
Context (sha512Half : list Z -> Z) (info : ViewInfo) (base : ReadView Object) (m : gmap Z (SLE Object)) (tx : STTx) (flags : Z).
Context (Hbase : ReadViewOf base m) (Hm : ledger_ok m).
Context (txFee : Z) (HtxFee : (a ← getFieldAmount (tx_object tx) sfFee; sfc a) = Ok txFee) (Hpos : 0 <= txFee).

Abbreviation Toffers := [ltDIR_NODE : Z; ltACCOUNT_ROOT : Z; ltOFFER : Z].

Lemma ledger_ok_keys : keys_ok m.
Proof. intros k s Hs. by apply Hm in Hs as [? _]. Qed.

(** The fee is taken, or the whole balance where the fee is more. *)
Definition fee_taken (fee : Z) (m' : gmap Z (SLE Object)) : Prop :=
  exists id seq, getAccountID (tx_object tx) sfAccount = Ok id /\ getSequence tx = Ok seq /\
    fee = Z.min txFee (money m (kl_key (keylet_account sha512Half id))) /\ 0 <= fee /\ charged sha512Half [sfBalance; sfSequence] id (u32 (seq + 1)) fee m m'.

Definition unfunded (result : Z) : bool := (result =? tecOVERSIZE) || (result =? tecKILLED).

(** Only the fee is taken. When the transaction was too large or killed, the offers
    that its run, which left the sandbox [t1], had found unfunded are removed as well. *)
Definition only_fee (t1 : ApplyStateTable Object) (result fee : Z) (m' : gmap Z (SLE Object)) : Prop :=
  exists mid, fee_taken fee mid /\
    if unfunded result then exists offers, removed_offers (as_visit t1 base) = Ok offers /\ offers_removed sha512Half offers mid m' else m' = mid.

Lemma fee_taken_total fee m' : fee_taken fee m' -> ledger_ok m' /\ total_drops m' = total_drops m - fee.
Proof. intros (id & seq & _ & _ & _ & Hf & Hc). by apply (charged_ok sha512Half _ id _ fee m m' Hm Hf Hc). Qed.

Lemma only_fee_total t1 result fee m' : only_fee t1 result fee m' -> ledger_ok m' /\ total_drops m' = total_drops m - fee.
Proof.
  intros (mid & Ht & H). destruct (fee_taken_total _ _ Ht) as [H1 H2]. destruct (unfunded result); [|by subst].
  destruct H as (offers & _ & (H3 & H4 & _) & _). split; [done|]. by rewrite (same_money_total mid m').
Qed.

(** A fee from which [reset] comes to the same. *)
Definition fee_in (fee : Z) : Prop := 0 <= fee <= txFee /\ forall id, getAccountID (tx_object tx) sfAccount = Ok id -> Z.min txFee (money m (kl_key (keylet_account sha512Half id))) <= fee.

Lemma reset_table fee fee' t : fee_in fee -> run_table base (reset sha512Half tx fee) as_empty = Ok (fee', t) ->
  exists m', as_denotes m t m' 0 /\ fee_taken fee' m' /\ fee_in fee'.
Proof.
  intros [Hf Hin] Hr. destruct (orderly_run base m _ Hbase ledger_ok_keys as_empty m 0 fee' t (tame_reset _ _ _ _) (as_empty_denotes m) Hr) as (m' & Hr' & Hd).
  destruct (reset_run sha512Half tx fee m 0 fee' m' 0 Hm) as (id & seq & H1 & H2 & H3 & H4 & H5 & _); [lia|done|]. pose proof (Hin id H1) as Hle. cbv beta in *.
  exists m'. split; [done|]. split; [exists id, seq; split_and!; [done|done|lia|done|done]|]. split; [lia|]. intros id' Hid. assert (id' = id) as -> by congruence. lia.
Qed.

Lemma claim_fee_spec o o' : fee_in (oc_fee o) -> claim_fee sha512Half base tx flags o = Ok o' ->
  o' = o /\ oc_result o <> tecOVERSIZE \/
  oc_applied o' = true /\ oc_result o' = oc_result o /\ isTecClaim (oc_result o) = true /\ fee_in (oc_fee o') /\
    exists m', as_denotes m (oc_table o') m' 0 /\ only_fee (oc_table o) (oc_result o) (oc_fee o') m'.
Proof.
  intros Hf. unfold claim_fee. change ((oc_result o =? tecOVERSIZE) || (oc_result o =? tecKILLED)) with (unfunded (oc_result o)). destruct (unfunded (oc_result o) || isTecClaimHardFail (oc_result o) flags) eqn:E; cycle 1.
  { intros [= <-]. apply orb_false_iff in E as [E _]. left. split; [done|]. intros He. rewrite He in E. discriminate E. }
  intros (offers & Hoff & H)%bind_Ok_inv. apply bind_Ok_inv in H as ([fee t] & Hr & H). apply bind_Ok_inv in H as ([u t'] & Hu & [= <-]). right. cbn [oc_applied oc_result oc_fee oc_table].
  destruct (reset_table _ _ _ Hf Hr) as (m1 & Hd & Ho & Hf'). split; [done|]. split; [done|]. split; [|split; [done|]].
  { destruct (unfunded (oc_result o)) eqn:Eu; [|apply andb_prop in E as [-> _]; done]. unfold unfunded in Eu. rewrite orb_true_iff, !Z.eqb_eq in Eu. destruct Eu as [-> | ->]; done. }
  unfold only_fee. destruct (unfunded (oc_result o)); [|injection Hu as <- <-; exists m1; split; [done|]; by exists m1].
  destruct (orderly_run base m _ Hbase ledger_ok_keys t m1 0 u t' (tame_removeUnfunded _ _ _ _) Hd Hu) as (m2 & Hr2 & Hd2). exists m2. split; [done|].
  exists m1. split; [done|]. exists offers. split; [done|]. eapply removeUnfunded_sheds; [by apply (fee_taken_total fee)|exact Hr2].
Qed.

(** A check that lets its result through has run to the end. *)
Lemma checked t r fee res : enabled info featureEnforceInvariants = true -> checkInvariants info base t (tx_object tx) r fee = res ->
  isTecClaim res || isTesSuccess res = true -> r = tecINVARIANT_FAILED \/ res <> tecINVARIANT_FAILED -> run_checks base t (tx_object tx) fee = Ok true.
Proof.
  intros He <-. unfold checkInvariants. rewrite He. assert (Hfail : isTecClaim (failInvariantCheck r) || isTesSuccess (failInvariantCheck r) = true -> r = tecINVARIANT_FAILED \/ failInvariantCheck r <> tecINVARIANT_FAILED -> False).
  { unfold failInvariantCheck. destruct (Z.eqb_spec r tecINVARIANT_FAILED) as [->|H1]; cbn [orb]; [intros Ha; discriminate Ha|]. destruct (r =? tefINVARIANT_FAILED); [intros Ha; discriminate Ha|]. intros _ [H|H]; [by apply H1|by apply H]. }
  destruct (run_checks base t (tx_object tx) fee) as [[]|e]; intros Ha Hr; [done|by destruct (Hfail Ha Hr)..].
Qed.

Lemma run_checks_hold t m' d fee : as_denotes m t m' d -> run_checks base t (tx_object tx) fee = Ok true -> invariants_hold m m' txFee fee.
Proof.
  intros (Hwf & <- & _) (c & Hc & Hf)%bind_Ok_inv. destruct (as_visit_spec base m t Hwf) as (H1 & H2 & H3).
  destruct (invariants_of m (as_overlay t m) _ (tx_object tx) fee c H1 H2 H3 Hc Hf) as (a & f & Ha & Hs & Hi). rewrite Ha in HtxFee. cbn in HtxFee. congruence.
Qed.

(** The first run's sandbox. *)
Lemma first_run_spec cls ter baseFee o : orderly (transactor_apply sha512Half cls tx baseFee flags) m = true ->
  first_run sha512Half base tx flags cls ter baseFee = Ok o -> oc_fee o = txFee /\ exists m', as_denotes m (oc_table o) m' 0.
Proof.
  intros Ho (([r dl] & t) & Hr & H)%bind_Ok_inv. rewrite HtxFee in H. injection H as <-. cbn. split; [done|].
  destruct (ter =? tesSUCCESS); [|injection Hr as <- <- <-; exists m; apply as_empty_denotes].
  destruct (orderly_run base m _ Hbase ledger_ok_keys as_empty m 0 _ t Ho (as_empty_denotes m) Hr) as (m' & _ & Hd). by exists m'.
Qed.

Lemma first_run_fee cls ter baseFee o : first_run sha512Half base tx flags cls ter baseFee = Ok o -> oc_fee o = txFee /\ (oc_applied o = true -> oc_result o = tecOVERSIZE \/ oc_result o = tesSUCCESS).
Proof.
  intros (([r dl] & t) & Hr & H)%bind_Ok_inv. rewrite HtxFee in H. injection H as <-. cbn [oc_fee oc_applied oc_result]. split; [done|]. intros Ht%Z.eqb_eq. cbn [fst] in *. rewrite Ht. destruct (oversizeMetaDataCap <? as_size t)%nat; auto.
Qed.

(** The sandbox after the drops of the fee are written off. *)
Lemma settle_spec o o' : settle info o = Ok o' -> oc_applied o' = true ->
  oc_applied o = true /\ oc_result o' = oc_result o /\ oc_fee o' = oc_fee o /\ oc_deliver o' = oc_deliver o /\
  forall m', as_denotes m (oc_table o) m' 0 -> as_denotes m (oc_table o') m' (if is_open info then 0 else oc_fee o).
Proof.
  unfold settle. destruct (oc_applied o) eqn:Ha; [|intros [= <-]; by rewrite Ha]. destruct (oc_fee o <? 0); [done|]. intros [= <-] _. cbn. split_and!; try done. intros m' Hd.
  destruct (is_open info); cbn; [done|]. destruct (Z.eqb_spec (oc_fee o) 0) as [->|Hn]; cbn; [done|]. exact (rawDestroySFC_spec (RawViewLaws := applyview_laws m) _ _ _ (oc_fee o) Hd).
Qed.

(** The outcome after the invariants. *)
Lemma check_outcome_spec o o' : fee_in (oc_fee o) -> check_outcome sha512Half info base tx o = Ok o' -> oc_applied o' = true ->
  oc_applied o = true /\
  (o' = mkOutcome (oc_result o) true (oc_fee o) (oc_deliver o) (oc_table o) \/ oc_result o' = tecINVARIANT_FAILED /\ exists m', as_denotes m (oc_table o') m' 0 /\ forall t1, only_fee t1 (oc_result o') (oc_fee o') m') /\
  (enabled info featureEnforceInvariants = true -> run_checks base (oc_table o') (tx_object tx) (oc_fee o') = Ok true).
Proof.
  intros Hf. unfold check_outcome. destruct (oc_applied o) eqn:Ha; [|intros [= <-]; by rewrite Ha]. set (r := checkInvariants info base (oc_table o) (tx_object tx) (oc_result o) (oc_fee o)).
  destruct (Z.eqb_spec r tecINVARIANT_FAILED) as [Hr|Hr].
  - intros (x & ([fee t] & Hrun & [= <-])%bind_Ok_inv & [= <-])%bind_Ok_inv. cbn. intros Happ. destruct (reset_table _ _ _ Hf Hrun) as (m1 & Hd & Ho & _).
    set (r2 := checkInvariants info base t (tx_object tx) r fee) in *. split; [done|]. split.
    + right. assert (r2 = tecINVARIANT_FAILED) as ->; [|split; [done|]; exists m1; split; [done|]; intros t1; by exists m1]. unfold r2, checkInvariants in *. rewrite Hr in *. destruct (enabled info featureEnforceInvariants); [|done].
      destruct (run_checks base t (tx_object tx) fee) as [[]|]; [done|discriminate Happ..].
    + intros He. eapply checked; [done|reflexivity|exact Happ|]. left. exact Hr.
  - cbn. intros [= <-]. cbn. intros Happ. split; [done|]. split.
    + left. f_equal; [|done]. unfold r, checkInvariants in *. destruct (enabled info featureEnforceInvariants) eqn:He; [|done]. destruct (run_checks base (oc_table o) (tx_object tx) (oc_fee o)) as [[]|]; [done|..];
        unfold failInvariantCheck in *; destruct (_ || _) in *; [discriminate Happ|by destruct Hr|discriminate Happ|by destruct Hr].
    + intros He. eapply checked; [done|reflexivity|exact Happ|]. by right.
Qed.

Lemma prepare_spec cls ter baseFee o : prepare sha512Half info base tx flags cls ter baseFee = Ok o -> oc_applied o = true ->
  exists o1 o2 o3, first_run sha512Half base tx flags cls ter baseFee = Ok o1 /\ claim_fee sha512Half base tx flags o1 = Ok o2 /\
    check_outcome sha512Half info base tx o2 = Ok o3 /\ settle info o3 = Ok o /\ oc_applied o2 = true /\ oc_applied o3 = true /\
    fee_in (oc_fee o1) /\ fee_in (oc_fee o2).
Proof.
  intros (o1 & H1 & (o2 & H2 & (o3 & H3 & H4)%bind_Ok_inv)%bind_Ok_inv)%bind_Ok_inv Ha. exists o1, o2, o3. destruct (settle_spec o3 o H4 Ha) as (Ha3 & _).
  destruct (first_run_fee cls ter baseFee o1 H1) as [Hf1 _]. assert (F1 : fee_in (oc_fee o1)) by (rewrite Hf1; split; [lia|intros id _; lia]).
  assert (F2 : fee_in (oc_fee o2)) by (destruct (claim_fee_spec o1 o2 F1 H2) as [[-> _]|(_ & _ & _ & ? & _)]; done).
  destruct (check_outcome_spec o2 o3 F2 H3 Ha3) as (Ha2 & _). by split_and!.
Qed.

(** When the result claims a fee. *)
Lemma prepare_claims cls ter baseFee o : prepare sha512Half info base tx flags cls ter baseFee = Ok o -> oc_applied o = true -> isTecClaim (oc_result o) = true ->
  exists o1 m', first_run sha512Half base tx flags cls ter baseFee = Ok o1 /\ as_denotes m (oc_table o) m' (if is_open info then 0 else oc_fee o) /\ only_fee (oc_table o1) (oc_result o) (oc_fee o) m'.
Proof.
  intros Hp Ha Htec. destruct (prepare_spec _ _ _ _ Hp Ha) as (o1 & o2 & o3 & H1 & H2 & H3 & H4 & A2 & A3 & F1 & F2). exists o1. destruct (settle_spec o3 o H4 Ha) as (_ & Er & Ef & _ & Hd).
  rewrite Er, Ef in *. destruct (check_outcome_spec o2 o3 F2 H3 A3) as (_ & [->|(_ & m' & D & O)] & _); [|by exists m'; auto]. cbn in *.
  destruct (claim_fee_spec o1 o2 F1 H2) as [[-> Hno]|(_ & -> & _ & _ & m' & D & O)]; [|by exists m'; auto]. exfalso. destruct (first_run_fee cls ter baseFee o1 H1) as [_ Hres].
  destruct (Hres A2) as [Ho|Ho]; [by apply Hno|]. rewrite Ho in Htec. discriminate Htec.
Qed.

(** What passes the checks. *)
Lemma prepare_checked cls ter baseFee o : enabled info featureEnforceInvariants = true -> orderly (transactor_apply sha512Half cls tx baseFee flags) m = true ->
  prepare sha512Half info base tx flags cls ter baseFee = Ok o -> oc_applied o = true ->
  exists m', as_denotes m (oc_table o) m' (if is_open info then 0 else oc_fee o) /\ invariants_hold m m' txFee (oc_fee o).
Proof.
  intros He Ho Hp Ha. destruct (prepare_spec _ _ _ _ Hp Ha) as (o1 & o2 & o3 & H1 & H2 & H3 & H4 & A2 & A3 & F1 & F2). destruct (settle_spec o3 o H4 Ha) as (_ & _ & Ef & _ & Hd). rewrite Ef.
  destruct (check_outcome_spec o2 o3 F2 H3 A3) as (_ & Hcase & Hrun). specialize (Hrun He). destruct (first_run_spec cls ter baseFee o1 Ho H1) as (_ & m1 & D1).
  assert (exists m', as_denotes m (oc_table o3) m' 0) as (m' & D).
  { destruct Hcase as [->|(_ & m' & D & _)]; [|by exists m']. cbn. destruct (claim_fee_spec o1 o2 F1 H2) as [[-> _]|(_ & _ & _ & _ & m' & D & _)]; [by exists m1|by exists m']. }
  exists m'. split; [by apply Hd|]. by eapply run_checks_hold.
Qed.
End Outcome.

Lemma transact_applied sha512Half info base to cls tx flags ter baseFee result to' : transact sha512Half info base to cls tx flags ter baseFee = (Ok (result, true), to') ->
  exists o v, prepare sha512Half info base tx flags cls ter baseFee = Ok o /\ oc_applied o = true /\ oc_result o = result /\ to' = Some v /\
    apply_open sha512Half info base (oc_table o) to tx result (oc_deliver o) = Ok v.
Proof.
  unfold transact. destruct (prepare _ _ _ _ _ _ _ _) as [o|e] eqn:E; [|done]. destruct (oc_applied o) eqn:Ha; [|done].
  destruct (apply_open _ _ _ _ _ _ _ _) as [v|e] eqn:Ev; [|done]. intros [= <- <-]. by exists o, v.
Qed.


(** C3. A result that claims a fee changes nothing else. When a transaction is applied
    with a [tec] result, the sandbox that is committed is, whatever the transactor did
    before it failed, the ledger with the fee, or the whole balance if the fee is more,
    taken from the account, and with the sequence number of the account moved past the
    transaction's. Only when the transaction was killed or too large is there more to
    it: let [o1] be what the failed run left. Then of the offers that this run had
    deleted with what they ask for unchanged, the first thousand are deleted again, each
    that its two directories list; every other offer is as it was, no entry appears,
    of accounts only the owner count may differ besides, and directories list what they
    listed but for those offers. The total falls by the fee. *)
Theorem claims_only_fee sha512Half info base m to cls tx flags ter baseFee result to' txFee : ReadViewOf base m -> ledger_ok m ->
  (a ← getFieldAmount (tx_object tx) sfFee; sfc a) = Ok txFee -> 0 <= txFee ->
  transact sha512Half info base to cls tx flags ter baseFee = (Ok (result, true), to') -> isTecClaim result = true ->
  exists o1 t deliver v fee m', first_run sha512Half base tx flags cls ter baseFee = Ok o1 /\
    to' = Some v /\ apply_open sha512Half info base t to tx result deliver = Ok v /\ as_denotes m t m' (if is_open info then 0 else fee) /\
    only_fee sha512Half base m tx txFee (oc_table o1) result fee m' /\ ledger_ok m' /\ total_drops m' = total_drops m - fee.
Proof.
  intros Hb Hm Hf Hpos Hr Htec. destruct (transact_applied _ _ _ _ _ _ _ _ _ _ _ Hr) as (o & v & Hp & Ha & <- & -> & Hv).
  destruct (prepare_claims sha512Half info base m tx flags Hb Hm txFee Hf Hpos cls ter baseFee o Hp Ha Htec) as (o1 & m' & H1 & Hd & Hi).
  exists o1, (oc_table o), (oc_deliver o), v, (oc_fee o), m'. destruct (only_fee_total sha512Half base m tx Hm txFee _ _ _ _ Hi). done.
Qed.

(** ** Who may sign *)

(** Runs that only read. *)
Section ReadOnly.
Context (base : ReadView Object) (m : gmap Z (SLE Object)) (Hbase : ReadViewOf base m).

Lemma ro_bind_inv {A B} (p : prog A) (f : A -> prog B) b : read_only base (p ≫= f) = Ok b -> exists a, read_only base p = Ok a /\ read_only base (f a) = Ok b.
Proof.
  change (p ≫= f) with (prog_bind f p). induction p as [a0|e|k c IH|k c IH|op c IH]; cbn [read_only prog_bind]; [by exists a0|done|apply IH|apply IH|done].
Qed.

Lemma ro_lift_inv {A} (r : res A) a : read_only base (liftR r) = Ok a -> r = Ok a.
Proof. by destruct r. Qed.

Lemma ro_ret_inv {A} (a b : A) : read_only base (mret a) = Ok b -> b = a.
Proof. by intros [= <-]. Qed.

Lemma ro_read_inv k s : read_only base (read k) = Ok s -> s = shown m k.
Proof. cbn. rewrite rv_read_spec. by intros [= <-]. Qed.

Lemma ro_read_object_inv k o : read_only base (read_object k) = Ok o -> exists s, shown m k = Some s /\ o = sle_data s.
Proof. intros (s & ->%ro_read_inv & H)%ro_bind_inv. destruct (shown m k) as [s|]; [|done]. injection H as <-. by exists s. Qed.
End ReadOnly.

Ltac ro_step H :=
  match type of H with
  | read_only _ (_ ≫= _) = Ok _ => let H1 := fresh "R" in apply ro_bind_inv in H as (? & H1 & H); try ro_step H1
  | read_only _ (liftR _) = Ok _ => apply ro_lift_inv in H
  | read_only _ (mret _) = Ok _ => apply ro_ret_inv in H
  | read_only _ (read _) = Ok _ => eapply ro_read_inv in H; [|eassumption]; subst
  | read_only _ (read_object _) = Ok _ => eapply ro_read_object_inv in H as (? & ? & ->); [|eassumption]
  end.

Section Authority.
Context (sha512Half ripesha : list Z -> Z) (info : ViewInfo) (feeTrack : LoadFeeTrack) (base : ReadView Object) (m : gmap Z (SLE Object)) (Hbase : ReadViewOf base m).
Abbreviation acct := (keylet_account sha512Half).

(** A key signs for an account by its master key, when that is not disabled, or by
    its regular key. *)
Definition single_authorised (tx : STTx) : Prop :=
  exists pk id s, getSigningPubKey tx = Ok pk /\ publicKeyType pk <> None /\ getAccountID (tx_object tx) sfAccount = Ok id /\ shown m (acct id) = Some s /\
    (ripesha pk = id /\ isFlag (sle_data s) lsfDisableMaster = false \/ at_opt as_account 0 (sle_data s) sfRegularKey = Ok (Some (ripesha pk))).

(** A signer of a list signs with its own key, which for an account of the ledger must
    not be disabled, or with its regular key. *)
Definition signer_authorised (id key : Z) : Prop :=
  match shown m (acct id) with
  | None => key = id
  | Some s => key = id /\ (exists flags, getFieldU32 (sle_data s) sfFlags = Ok flags /\ has_flags flags lsfDisableMaster = false) \/
              isFieldPresent (sle_data s) sfRegularKey = true /\ getAccountID (sle_data s) sfRegularKey = Ok key
  end.

Definition matches (entries : list SignerEntry) (txSigner : Object) (e : SignerEntry) : Prop :=
  e ∈ entries /\ getAccountID txSigner sfAccount = Ok (se_account e) /\
  exists spk, getFieldVL txSigner sfSigningPubKey = Ok spk /\ publicKeyType spk <> None /\ signer_authorised (se_account e) (ripesha spk).

Definition weights (l : list SignerEntry) : Z := foldr (fun e z => se_weight e + z) 0 l.

Definition multi_authorised (tx : STTx) : Prop :=
  enabled info featureMultiSign = true /\ getSigningPubKey tx = Ok [] /\
  exists id s entries txSigners picked quorum, getAccountID (tx_object tx) sfAccount = Ok id /\ shown m (keylet_signers sha512Half id) = Some s /\
    deserialize (sle_data s) = Ok (entries, (tesSUCCESS : Z)) /\ getFieldArray (tx_object tx) sfSigners = Ok txSigners /\
    Forall2 (matches entries) (map inner_object txSigners) picked /\ getFieldU32 (sle_data s) sfSignerQuorum = Ok quorum /\ quorum <= u32 (weights picked).

Definition authorised (tx : STTx) : Prop := single_authorised tx \/ multi_authorised tx.

Lemma advance_suffix id l : exists pre, l = pre ++ advance id l.
Proof. induction l as [|e l [pre IH]]; [by exists []|]. cbn. destruct (se_account e <? id); [exists (e :: pre); cbn; by f_equal|by exists []]. Qed.

Lemma signer_key_spec id key : read_only base (signer_key sha512Half id key) = Ok (tesSUCCESS : Z) -> signer_authorised id key.
Proof.
  unfold signer_key, signer_authorised. intros Hr. ro_step Hr. destruct (Z.eqb_spec key id) as [He|Hne]; destruct (shown m (acct id)) as [s|].
  - ro_step Hr. apply ro_ret_inv in Hr. destruct (has_flags _ _) eqn:E in Hr; [discriminate Hr|]. left. eauto.
  - done.
  - destruct (isFieldPresent (sle_data s) sfRegularKey); cbn [negb] in Hr; [|discriminate Hr]. ro_step Hr. apply ro_ret_inv in Hr. right. split; [done|].
    destruct (Z.eqb_spec key x) as [->|]; [done|discriminate Hr].
  - discriminate Hr.
Qed.

Lemma u32_add_r a b : u32 (a + u32 b) = u32 (a + b).
Proof. unfold u32. by rewrite Zplus_mod_idemp_r. Qed.

Lemma multi_loop_spec txSigners : forall iter w r, read_only base (multi_loop sha512Half ripesha txSigners iter w) = Ok r -> r.1 = tesSUCCESS ->
  exists picked, Forall2 (matches iter) txSigners picked /\ r.2 = match picked with [] => w | _ => u32 (w + weights picked) end.
Proof.
  induction txSigners as [|x rest IH]; intros iter w r; cbn [multi_loop].
  - intros ->%ro_ret_inv _. by exists [].
  - intros Hr Hs. ro_step Hr. destruct iter as [|e0 iter]; [done|]. set (all := e0 :: iter) in *. destruct (advance_suffix x0 all) as [pre Hpre]. destruct (advance x0 all) as [|e suf]; [apply ro_ret_inv in Hr as ->; discriminate Hs|].
    destruct (Z.eqb_spec (se_account e) x0) as [<-|]; cbn [negb] in Hr; [|apply ro_ret_inv in Hr as ->; discriminate Hs]. ro_step Hr.
    case_bool_decide as Hk; [apply ro_ret_inv in Hr as ->; discriminate Hs|]. apply ro_bind_inv in Hr as (ter & Hkey & Hr). destruct (Z.eqb_spec ter tesSUCCESS) as [->|Hne]; cbn [negb] in Hr; [|apply ro_ret_inv in Hr as ->; by destruct Hne].
    destruct (IH _ _ _ Hr Hs) as (picked & Hf & Hw). exists (e :: picked). split.
    + constructor; [split; [rewrite Hpre; set_solver|split; [done|]; eexists; split; [done|]; split; [done|by apply signer_key_spec]]|].
      eapply Forall2_impl; [exact Hf|]. intros y z (Hz & Hrest). split; [|done]. rewrite Hpre. set_solver.
    + rewrite Hw. cbn [weights foldr]. fold (weights picked). destruct picked; [cbn; by rewrite Z.add_0_r|]. rewrite Z.add_comm, u32_add_r. f_equal. lia.
Qed.

Lemma checkMultiSign_spec tx : enabled info featureMultiSign = true -> getSigningPubKey tx = Ok [] ->
  read_only base (checkMultiSign sha512Half ripesha tx) = Ok (tesSUCCESS : Z) -> multi_authorised tx.
Proof.
  intros He Hpk Hr. split; [done|]. split; [done|]. unfold checkMultiSign in Hr. ro_step Hr. ro_step Hr. destruct (shown m (keylet_signers sha512Half x)) as [s|] eqn:Hs; [|discriminate Hr].
  ro_step Hr. destruct x0 as [entries ter]. cbn [fst snd] in Hr. destruct (Z.eqb_spec ter tesSUCCESS) as [->|Hne]; cbn [negb] in Hr; [|apply ro_ret_inv in Hr; by destruct Hne].
  ro_step Hr. apply ro_bind_inv in Hr as (r & Hloop & Hr). destruct (Z.eqb_spec r.1 tesSUCCESS) as [Hsucc|Hne]; cbn [negb] in Hr; [|apply ro_ret_inv in Hr; by destruct Hne].
  ro_step Hr. apply ro_ret_inv in Hr. destruct (multi_loop_spec _ _ _ _ Hloop Hsucc) as (picked & Hf & Hw).
  do 6 eexists. do 3 (split; [eassumption|]). split; [eassumption|]. split; [exact Hf|]. split; [eassumption|].
  destruct (Z.ltb_spec r.2 x1) as [|Hq]; [discriminate Hr|]. rewrite Hw in Hq. destruct picked; done.
Qed.

Lemma checkSingleSign_spec tx : read_only base (checkSingleSign sha512Half ripesha info tx) = Ok (tesSUCCESS : Z) -> single_authorised tx.
Proof.
  unfold checkSingleSign, calcAccountID. intros Hr. ro_step Hr. case_bool_decide as Hk; [discriminate Hr|]. ro_step Hr. ro_step Hr. rename x into pk, x0 into id, x2 into s.
  exists pk, id, s. do 4 (split; [done|]). destruct (enabled info fixMasterKeyAsRegularKey).
  - ro_step Hr. case_bool_decide as Hreg; [subst; by right|]. destruct (isFlag (sle_data s) lsfDisableMaster); cbn [negb andb] in Hr; destruct (Z.eqb_spec id (ripesha pk)); try discriminate Hr. by left.
  - destruct (Z.eqb_spec (ripesha pk) id) as [He|He]; [apply ro_ret_inv in Hr; left; split; [done|]; by destruct (isFlag (sle_data s) lsfDisableMaster)|].
    ro_step Hr. case_bool_decide as Hreg; [subst; by right|]. destruct (isFieldPresent (sle_data s) sfRegularKey); discriminate Hr.
Qed.

Lemma checkSign_authorised tx : read_only base (checkSign sha512Half ripesha info tx) = Ok (tesSUCCESS : Z) -> authorised tx.
Proof.
  unfold checkSign. intros Hr. apply ro_bind_inv in Hr as (spk & Hs & Hr). case_bool_decide as He; [subst spk|left; by apply checkSingleSign_spec].
  right. destruct (enabled info featureMultiSign) eqn:Hf; [|discriminate Hs]. apply ro_lift_inv in Hs. by apply checkMultiSign_spec.
Qed.

(** The other checks of a signature give no result that claims a fee. *)
Definition no_claim (p : prog Z) : Prop := forall r, read_only base p = Ok r -> isTecClaim r = false.

Lemma no_claim_ret r : isTecClaim r = false -> no_claim (mret r).
Proof. by intros H ? ->%ro_ret_inv. Qed.
Lemma no_claim_bind {A} (p : prog A) f : (forall a, read_only base p = Ok a -> no_claim (f a)) -> no_claim (p ≫= f).
Proof. intros H r (a & Ha & Hf)%ro_bind_inv. by eapply H. Qed.

Ltac no_claim_step :=
  match goal with
  | |- no_claim (_ ≫= _) => apply no_claim_bind; intros ? ?
  | |- no_claim (mret _) => apply no_claim_ret; first [reflexivity | by repeat case_match]
  | |- no_claim (if ?b then _ else _) => destruct b eqn:?
  | |- no_claim (match ?x with _ => _ end) => destruct x eqn:?
  end.

Lemma no_claim_checkSeq ex tx : no_claim (checkSeq sha512Half info ex tx).
Proof. unfold checkSeq. repeat no_claim_step. Qed.

Lemma no_claim_single tx : no_claim (checkSingleSign sha512Half ripesha info tx).
Proof. unfold checkSingleSign. repeat no_claim_step. Qed.

Lemma no_claim_signer_key id key : no_claim (signer_key sha512Half id key).
Proof. unfold signer_key. repeat no_claim_step. Qed.

Lemma no_claim_loop txSigners : forall iter w r, read_only base (multi_loop sha512Half ripesha txSigners iter w) = Ok r -> isTecClaim r.1 = false.
Proof.
  induction txSigners as [|x rest IH]; intros iter w r; cbn [multi_loop]; [by intros ->%ro_ret_inv|]. intros Hr. ro_step Hr. destruct iter as [|e0 iter]; [done|].
  destruct (advance x0 (e0 :: iter)) as [|e suf]; [by apply ro_ret_inv in Hr as ->|]. destruct (negb _); [by apply ro_ret_inv in Hr as ->|]. ro_step Hr.
  case_bool_decide; [by apply ro_ret_inv in Hr as ->|]. apply ro_bind_inv in Hr as (ter & Hk & Hr). destruct (negb _); [|by eapply IH]. apply ro_ret_inv in Hr as ->. by eapply no_claim_signer_key.
Qed.

Lemma deserialize_code o e ter : deserialize o = Ok (e, ter) -> isTecClaim ter = false.
Proof.
  unfold deserialize. destruct (negb _); [by intros [= <- <-]|]. intros (l & _ & Hl)%bind_Ok_inv. revert e ter Hl.
  induction l as [|x l IH]; intros e ter; cbn [signer_entries]; [by intros [= <- <-]|]. destruct (negb _); [by intros [= <- <-]|].
  intros (a & _ & (w & _ & ([e' t'] & H & [= <- <-])%bind_Ok_inv)%bind_Ok_inv)%bind_Ok_inv. by eapply IH.
Qed.

Lemma no_claim_multi tx : no_claim (checkMultiSign sha512Half ripesha tx).
Proof.
  unfold checkMultiSign. apply no_claim_bind. intros id Hid. apply no_claim_bind. intros sle Hs. destruct sle as [s|]; [|by apply no_claim_ret]. apply no_claim_bind. intros [e ter] He%ro_lift_inv%deserialize_code.
  cbn [fst snd]. destruct (negb _); [by apply no_claim_ret|]. apply no_claim_bind. intros l _. apply no_claim_bind. intros r Hr%no_claim_loop. destruct (negb _); [by apply no_claim_ret|]. repeat no_claim_step.
Qed.

Lemma no_claim_checkSign tx : no_claim (checkSign sha512Half ripesha info tx).
Proof. unfold checkSign. apply no_claim_bind. intros spk _. case_bool_decide; [apply no_claim_multi|apply no_claim_single]. Qed.

Lemma checkSeq_spec ex tx : read_only base (checkSeq sha512Half info ex tx) = Ok (tesSUCCESS : Z) ->
  exists id s seq, getAccountID (tx_object tx) sfAccount = Ok id /\ shown m (acct id) = Some s /\ getSequence tx = Ok seq /\ getFieldU32 (sle_data s) sfSequence = Ok seq.
Proof.
  unfold checkSeq. intros Hr. ro_step Hr. ro_step Hr. rename x into id. destruct (shown m (acct id)) as [s|] eqn:Hs; [|discriminate Hr]. ro_step Hr. ro_step Hr. rename x into seq.
  destruct (Z.eqb_spec seq x0) as [<-|Hne]; [by exists id, s, seq|]. cbn [negb] in Hr. exfalso. repeat case_match; discriminate Hr.
Qed.

(** The balance of an account that is too small for the fee. *)
Definition cannot_pay (tx : STTx) (feePaid : Z) : Prop :=
  is_open info = false /\ exists id s balance, getAccountID (tx_object tx) sfAccount = Ok id /\ shown m (acct id) = Some s /\
    (a ← at_field as_amount (ofUnsigned 0) (sle_data s) sfBalance; sfc a) = Ok balance /\ 0 < balance < feePaid.

Lemma checkFee_spec tx flags baseFee r : read_only base (checkFee sha512Half info feeTrack tx flags baseFee) = Ok r -> r = tesSUCCESS \/ isTecClaim r = true ->
  exists feePaid, calculateFeePaid tx = Ok feePaid /\ 0 <= feePaid <= SYSTEM_CURRENCY_START /\ (r = tesSUCCESS \/ cannot_pay tx feePaid).
Proof.
  unfold checkFee. intros Hr Hcode. ro_step Hr. rename x into feePaid. exists feePaid. split; [done|]. destruct (isLegalAmount feePaid) eqn:Hl; cbn [negb orb] in Hr; [|apply ro_ret_inv in Hr as ->; by destruct Hcode].
  destruct (Z.ltb_spec feePaid 0) as [|Hpos]; [apply ro_ret_inv in Hr as ->; by destruct Hcode|]. split.
  { unfold isLegalAmount in Hl. apply Z.leb_le in Hl. unfold calculateFeePaid in *. destruct (at_field _ _ _ _) as [a|] in *; [|done]. rewrite u64_nonneg in Hl; [lia|]. split; [done|]. by eapply sfc_range. }
  ro_step Hr. destruct (is_open info && (feePaid <? x)); [apply ro_ret_inv in Hr as ->; by destruct Hcode|]. destruct (feePaid =? 0); [apply ro_ret_inv in Hr; by left|]. ro_step Hr. ro_step Hr.
  ro_step Hr. destruct (Z.ltb_spec x1 feePaid) as [Hlt|]; [|apply ro_ret_inv in Hr; by left]. destruct (Z.ltb_spec 0 x1); cbn [andb] in Hr; [|apply ro_ret_inv in Hr as ->; by destruct Hcode].
  destruct (is_open info) eqn:Ho; cbn [negb] in Hr; [apply ro_ret_inv in Hr as ->; by destruct Hcode|]. right. split; [done|]. eauto 10.
Qed.

Context (classes : Z -> option TxClass) (validity : STTx -> res (Validity * SignReason)).

(** The preflight of a class makes the common checks, for an account that is not zero,
    and gives no result that claims a fee. *)
Definition common_checks (cls : TxClass) : Prop := forall ctx ter, tc_preflight cls ctx = Ok ter ->
  isTecClaim ter = false /\
  (ter = tesSUCCESS -> getAccountID (tx_object (pf_tx ctx)) sfAccount <> Ok 0 -> preflight1 ctx = Ok (tesSUCCESS : Z) /\ preflight2 ctx = Ok (tesSUCCESS : Z)).

Lemma invoke_preclaim_spec cls ex tx flags r id : getAccountID (tx_object tx) sfAccount = Ok id -> id <> 0 ->
  read_only base (invoke_preclaim sha512Half ripesha info feeTrack classes cls ex tx flags) = Ok r -> r = tesSUCCESS \/ isTecClaim r = true ->
  exists s seq feePaid, shown m (acct id) = Some s /\ getSequence tx = Ok seq /\ getFieldU32 (sle_data s) sfSequence = Ok seq /\
    calculateFeePaid tx = Ok feePaid /\ 0 <= feePaid <= SYSTEM_CURRENCY_START /\ (authorised tx \/ cannot_pay tx feePaid).
Proof.
  intros Hid Hz Hr Hcode. unfold invoke_preclaim in Hr. ro_step Hr. rewrite Hid in R. injection R as <-. destruct (Z.eqb_spec id 0) as [|_]; [done|]. cbn [negb] in Hr.
  apply ro_bind_inv in Hr as (r1 & H1 & Hr). destruct (Z.eqb_spec r1 tesSUCCESS) as [->|Hne]; cbn [negb] in Hr; [|apply ro_ret_inv in Hr as ->; pose proof (no_claim_checkSeq _ _ _ H1); destruct Hcode; congruence].
  destruct (checkSeq_spec _ _ H1) as (id' & s & seq & Hid' & Hs & Hseq & Haseq). rewrite Hid in Hid'. injection Hid' as <-.
  apply ro_bind_inv in Hr as (baseFee & _ & Hr). apply ro_bind_inv in Hr as (r2 & H2 & Hr).
  assert (Hcode2 : r2 = tesSUCCESS \/ isTecClaim r2 = true) by (destruct (Z.eqb_spec r2 tesSUCCESS); [by left|apply ro_ret_inv in Hr as ->; done]).
  destruct (checkFee_spec _ _ _ _ H2 Hcode2) as (feePaid & Hf & Hrange & Hpay). exists s, seq, feePaid. do 5 (split; [done|]). destruct Hpay as [->|Hpay]; [|by right]. left. cbn [negb] in Hr.
  apply ro_bind_inv in Hr as (r3 & H3 & Hr). destruct (Z.eqb_spec r3 tesSUCCESS) as [->|Hne]; cbn [negb] in Hr; [|apply ro_ret_inv in Hr as ->; pose proof (no_claim_checkSign _ _ H3); destruct Hcode; congruence].
  by apply checkSign_authorised.
Qed.
End Authority.

Lemma likely_codes ter flags : likelyToClaimFee ter flags = true -> ter = tesSUCCESS \/ isTecClaim ter = true.
Proof. unfold likelyToClaimFee, isTecClaimHardFail. rewrite orb_true_iff, andb_true_iff, Z.eqb_eq. tauto. Qed.

Lemma or_exception_claims r : or_exception r = tesSUCCESS \/ isTecClaim (or_exception r) = true -> r = Ok (or_exception r).
Proof. destruct r; [done|]. by intros [|]. Qed.

(** What a preclaim that goes on to apply says. *)
Lemma preclaim_claims sha512Half ripesha info feeTrack classes validity base to tx flags id : (forall type cls, classes type = Some cls -> common_checks cls) ->
  getAccountID (tx_object tx) sfAccount = Ok id -> id <> 0 ->
  let ter := preclaim sha512Half ripesha info feeTrack classes validity base to true (preflight classes validity (enabled info) tx flags) tx flags in
  ter = tesSUCCESS \/ isTecClaim ter = true ->
  preflight2 (mkPreflight tx (enabled info) flags (validity tx)) = Ok (tesSUCCESS : Z) /\
  exists cls r, read_only base (invoke_preclaim sha512Half ripesha info feeTrack classes cls (txExists to) tx flags) = Ok r /\ (r = tesSUCCESS \/ isTecClaim r = true).
Proof.
  intros Hcls Hid Hz. cbv zeta. unfold preclaim. intros Hcode.
  assert (Hpf : preflight classes validity (enabled info) tx flags = tesSUCCESS \/ isTecClaim (preflight classes validity (enabled info) tx flags) = true)
    by (destruct (Z.eqb_spec (preflight classes validity (enabled info) tx flags) tesSUCCESS); [by left|done]).
  assert (Hok := or_exception_claims _ Hpf). unfold invoke_preflight in Hok at 1. cbn [pf_tx] in Hok.
  fold (preflight classes validity (enabled info) tx flags) in Hok. revert Hpf Hok Hcode. generalize (preflight classes validity (enabled info) tx flags). intros pf Hpf Hok.
  destruct (classes (tx_type_ tx)) as [cls|] eqn:Ec; [|injection Hok as <-; by destruct Hpf]. destruct (Hcls _ _ Ec _ _ Hok) as [Hno Hcommon]. destruct Hpf as [->|]; [|congruence].
  rewrite Z.eqb_refl. cbn [negb]. intros Hcode. destruct (Hcommon eq_refl) as [_ H2]; [cbn [pf_tx]; congruence|]. split; [done|]. exists cls. eexists. split; [|exact Hcode]. by apply or_exception_claims.
Qed.

(** C2. Nothing is applied without authority. If the three stages apply a transaction of
    an account, then the account exists and its sequence number is the transaction's;
    its signature is good; the fee it offers is a legal amount; and the key that signed
    may sign for the account: it is the account's master key and that is not disabled,
    or its regular key, or the signers are members of the account's signer list, each
    with a key that may sign for them, and reach its quorum. The one exception is a
    closed ledger in which the account has less than the fee: there the engine takes
    what the account has before it looks at the key. *)
Theorem applied_is_authorised sha512Half ripesha info feeTrack classes validity base m to tx flags result to' id : ReadViewOf base m ->
  (forall type cls, classes type = Some cls -> common_checks cls) ->
  apply sha512Half ripesha info feeTrack classes validity base to tx flags = ((result, true), to') ->
  getAccountID (tx_object tx) sfAccount = Ok id -> id <> 0 ->
  exists s seq feePaid v why, shown m (keylet_account sha512Half id) = Some s /\ getSequence tx = Ok seq /\ getFieldU32 (sle_data s) sfSequence = Ok seq /\
    validity tx = Ok (v, why) /\ v <> SigBad /\ calculateFeePaid tx = Ok feePaid /\ 0 <= feePaid <= SYSTEM_CURRENCY_START /\
    (authorised sha512Half ripesha info m tx \/ cannot_pay sha512Half info m tx feePaid).
Proof.
  intros Hb Hcls Happ Hid Hz. unfold apply, doApply in Happ. rewrite Z.eqb_refl in Happ. cbn [negb] in Happ.
  destruct (likelyToClaimFee _ flags) eqn:Hl in Happ; cbn [negb] in Happ; [|discriminate Happ].
  destruct (preclaim_claims sha512Half ripesha info feeTrack classes validity base to tx flags id Hcls Hid Hz (likely_codes _ _ Hl)) as (H2 & cls & r & Hr & Hcode).
  destruct (invoke_preclaim_spec sha512Half ripesha info feeTrack base m Hb classes cls (txExists to) tx flags r id Hid Hz Hr Hcode) as (s & seq & feePaid & A1 & A2 & A3 & A4 & A5 & A6).
  unfold preflight2 in H2. cbn [pf_validity] in H2. apply bind_Ok_inv in H2 as ([v why] & Hv & H2). exists s, seq, feePaid, v, why. split_and!; try done; try lia. intros ->. discriminate H2.
Qed.
