(* ===== verification/AccountTx.v ===== *)
(** * Transactors for an account and what it owns

    Models SetRegularKey.cpp, SetSignerList.cpp, SetAccount.cpp, DepositPreauth.cpp,
    CreateTicket.cpp, CancelTicket.cpp and CancelOffer.cpp of app/tx/impl. None of them
    moves SFC besides the fee, and none can leave an account without a way to sign. *)

From S2P Require Import Prelude STAmount Serializer Keys SField STObject STAccess View TER Indexes Formats STTx RawStateTable ApplyStateTable Prog.
From S2P Require Import HashRouter LoadFee Invariants Entries TxMeta MetaCommit OwnerDir LedgerView Transactor Engine.

Definition QUALITY_ONE : Z := 1000000000.
Definition minTickSize : Z := 3.
Definition maxTickSize : Z := 16.
Definition DOMAIN_BYTES_MAX : nat := 256.

(** Early returns of a preflight. *)
Definition unless_tes (r : res Z) (next : res Z) : res Z := ret ← r; if negb (isTesSuccess ret) then Ok ret else next.

Definition tx_flags (tx : STTx) : Z := getFlags (tx_object tx).
Definition tx_has (tx : STTx) (f : SField) : bool := isFieldPresent (tx_object tx) f.

(** [view.exists], which for entries of another type at the key is not told apart. *)
Definition exists_at (k : Keylet) : prog bool := s ← read k; mret (bool_decide (is_Some s)).

(** [~flag] of 32 bits, and a flag put in or taken out. *)
Definition without_flag (flags f : Z) : Z := Z.land flags (Z.land (Z.lnot f) (Z.ones 32)).

Section Account.
Context (sha512Half ripesha : list Z -> Z) (info : ViewInfo) (feeTrack : LoadFeeTrack).

Abbreviation acct := (keylet_account sha512Half).
Abbreviation ownerDir := (keylet_ownerDir sha512Half).

(** A class that overrides neither the base fee, nor what the queue asks. *)
Definition plain_class (pre : PreflightContext -> res Z) (claim : STTx -> Z -> prog Z) (act : Applying -> prog Z) : TxClass :=
  mkClass pre (calculateBaseFee info) claim (fun a => ter ← act a; mret (ter, None)) (fun _ => Ok false) (fun _ => Ok 0).

Definition no_preclaim (tx : STTx) (flags : Z) : prog Z := mret (tesSUCCESS : Z).

(** A key that hashes to an account. *)
Definition signed_with_master (tx : STTx) (account : Z) : res bool :=
  spk ← getSigningPubKey tx;
  Ok (negb (bool_decide (publicKeyType spk = None)) && (calcAccountID ripesha spk =? account)).

(** What must be in the account before the transaction for one more thing to be owned. *)
Definition reserve_for (count : Z) : Z := accountReserve (fees info) (u32 count).

(** ** [SetRegularKey] *)

Definition SetRegularKey_calculateBaseFee (tx : STTx) : prog Z :=
  id ← liftR (getAccountID (tx_object tx) sfAccount);
  master ← liftR (signed_with_master tx id);
  sle ← (if master : bool then read (acct id) else mret None);
  match sle with
  | Some sle => if negb (has_flags (getFlags (sle_data sle)) lsfPasswordSpent) then mret 0 else calculateBaseFee info tx
  | None => calculateBaseFee info tx
  end.

Definition SetRegularKey_preflight (ctx : PreflightContext) : res Z :=
  unless_tes (preflight1 ctx) (
  if has_flags (tx_flags (pf_tx ctx)) tfUniversalMask then Ok (temINVALID_FLAG : Z) else
  same ← (if pf_rules ctx fixMasterKeyAsRegularKey && tx_has (pf_tx ctx) sfRegularKey then
            key ← getAccountID (tx_object (pf_tx ctx)) sfRegularKey; id ← getAccountID (tx_object (pf_tx ctx)) sfAccount; Ok (key =? id)
          else Ok false);
  if same : bool then Ok (temBAD_REGKEY : Z) else preflight2 ctx).

Definition set_flag (f : Z) (o : Object) : res Object := r ← setFlag o f; Ok r.2.

Definition SetRegularKey_doApply (ap : Applying) : prog Z :=
  let k := acct (account_ ap) in
  _ ← peek_object k;
  fee ← liftR (minimumFee info feeTrack (ap_baseFee ap) (ap_flags ap));
  _ ← (if fee =? 0 then modify k (set_flag lsfPasswordSpent) else mret ());
  if tx_has (ap_tx ap) sfRegularKey then
    _ ← modify k (fun o => key ← getAccountID (tx_object (ap_tx ap)) sfRegularKey; setAccountID o sfRegularKey key);
    mret (tesSUCCESS : Z)
  else
    sle ← peek_object k;
    signers ← (if isFlag sle lsfDisableMaster then peek (keylet_signers sha512Half (account_ ap)) else mret None);
    if isFlag sle lsfDisableMaster && negb (bool_decide (is_Some signers)) then mret (tecNO_ALTERNATIVE_KEY : Z) else
    _ ← modify k (fun o => makeFieldAbsent o sfRegularKey);
    mret (tesSUCCESS : Z).

Definition SetRegularKey : TxClass :=
  mkClass SetRegularKey_preflight SetRegularKey_calculateBaseFee no_preclaim (fun a => ter ← SetRegularKey_doApply a; mret (ter, None)) (fun _ => Ok true) (fun _ => Ok 0).

(** ** [SetSignerList] *)

Inductive Operation := op_unknown | op_set | op_destroy.

Definition determineOperation (tx : STTx) : res (Z * Z * list SignerEntry * Operation) :=
  quorum ← at_field as_u32 0 (tx_object tx) sfSignerQuorum;
  let hasSignerEntries := tx_has tx sfSignerEntries in
  if negb (quorum =? 0) && hasSignerEntries then
    signers ← deserialize (tx_object tx);
    if negb (signers.2 =? tesSUCCESS) then Ok (signers.2, quorum, [], op_unknown)
    else Ok ((tesSUCCESS : Z), quorum, sort_by se_account signers.1, op_set)
  else Ok ((tesSUCCESS : Z), quorum, [], if (quorum =? 0) && negb hasSignerEntries then op_destroy else op_unknown).

Fixpoint adjacent_same (l : list SignerEntry) : bool :=
  match l with
  | a :: (b :: _) as l' => (se_account a =? se_account b) || adjacent_same l'
  | _ => false
  end.

(** The loop: an error, or the sum of the weights. *)
Fixpoint signers_weight (account : Z) (l : list SignerEntry) (sum : Z) : Z + Z :=
  match l with
  | [] => inr sum
  | e :: l => if se_weight e <=? 0 then inl (temBAD_WEIGHT : Z) else
              if se_account e =? account then inl (temBAD_SIGNER : Z) else signers_weight account l (sum + se_weight e)
  end.

Definition validateQuorumAndSignerEntries (quorum : Z) (signers : list SignerEntry) (account : Z) : Z :=
  if (length signers <? minMultiSigners)%nat || (maxMultiSigners <? length signers)%nat then temMALFORMED else
  if adjacent_same signers then temBAD_SIGNER else
  match signers_weight account signers 0 with
  | inl ter => ter
  | inr allSignersWeight => if (quorum <=? 0) || (allSignersWeight <? quorum) then temBAD_QUORUM else tesSUCCESS
  end.

Definition SetSignerList_preflight (ctx : PreflightContext) : res Z :=
  if negb (pf_rules ctx featureMultiSign) then Ok (temDISABLED : Z) else
  unless_tes (preflight1 ctx) (
  r ← determineOperation (pf_tx ctx);
  let '(ter, quorum, signers, op) := r in
  if negb (ter =? tesSUCCESS) then Ok ter else
  match op with
  | op_unknown => Ok (temMALFORMED : Z)
  | op_destroy => preflight2 ctx
  | op_set =>
      account ← getAccountID (tx_object (pf_tx ctx)) sfAccount;
      let ter := validateQuorumAndSignerEntries quorum signers account in
      if negb (ter =? tesSUCCESS) then Ok ter else preflight2 ctx
  end).

Definition signerCountBasedOwnerCountDelta (entryCount : nat) : Z := 2 + Z.of_nat entryCount.

Definition removeSignersFromLedger (account : Z) : prog Z :=
  let k := keylet_signers sha512Half account in
  signers ← peek k;
  match signers with
  | None => mret (tesSUCCESS : Z)
  | Some s =>
      removeFromOwnerCount ←
        (if negb (has_flags (getFlags (sle_data s)) lsfOneOwnerCount) then
           actualList ← liftR (getFieldArray (sle_data s) sfSignerEntries); mret (- signerCountBasedOwnerCountDelta (length actualList))
         else mret (-1));
      hint ← liftR (at_field as_u64 0 (sle_data s) sfOwnerNode);
      removed ← view_dirRemove sha512Half (ownerDir account) hint (kl_key k) false;
      if negb removed then mret (tefBAD_LEDGER : Z) else
      _ ← adjustOwnerCount (acct account) removeFromOwnerCount;
      _ ← erase_sle k;
      mret (tesSUCCESS : Z)
  end.

Definition signer_fields (e : SignerEntry) : SField * Fields := (sfSignerEntry, [(sfAccount, V_Account false (se_account e)); (sfSignerWeight, V_UInt16 (se_weight e))]).

Definition writeSignersToSLE (quorum flags : Z) (signers : list SignerEntry) (o : Object) : res Object :=
  o ← setFieldU32 o sfSignerQuorum quorum;
  o ← setFieldU32 o sfSignerListID 0;
  o ← (if negb (flags =? 0) then setFieldU32 o sfFlags flags else Ok o);
  setFieldArray o sfSignerEntries (map signer_fields signers).

Definition replaceSignerList (ap : Applying) (quorum : Z) (signers : list SignerEntry) : prog Z :=
  let account := account_ ap in
  let k := keylet_signers sha512Half account in
  ter ← removeSignersFromLedger account;
  if negb (ter =? tesSUCCESS) then mret ter else
  sle ← peek_object (acct account);
  oldOwnerCount ← liftR (at_field as_u32 0 sle sfOwnerCount);
  let '(addedOwnerCount, flags) := if enabled info featureMultiSignReserve then (1, lsfOneOwnerCount : Z) else (signerCountBasedOwnerCountDelta (length signers), 0) in
  if mPriorBalance ap <? reserve_for (oldOwnerCount + addedOwnerCount) then mret (tecINSUFFICIENT_RESERVE : Z) else
  _ ← insert_new k Ok;
  _ ← modify k (writeSignersToSLE quorum flags signers);
  page ← dirAdd_at sha512Half info (ownerDir account) (kl_key k) false (describeOwnerDir account);
  match page with
  | None => mret (tecDIR_FULL : Z)
  | Some page =>
      _ ← modify k (fun o => setFieldU64 o sfOwnerNode page);
      _ ← adjustOwnerCount (acct account) addedOwnerCount;
      mret (tesSUCCESS : Z)
  end.

Definition destroySignerList (account : Z) : prog Z :=
  sle ← peek_object (acct account);
  if isFlag sle lsfDisableMaster && negb (isFieldPresent sle sfRegularKey) then mret (tecNO_ALTERNATIVE_KEY : Z) else
  removeSignersFromLedger account.

Definition SetSignerList_doApply (ap : Applying) : prog Z :=
  r ← liftR (determineOperation (ap_tx ap));
  let '(_, quorum, signers, op) := r in
  match op with
  | op_set => replaceSignerList ap quorum signers
  | op_destroy => destroySignerList (account_ ap)
  | op_unknown => mret (temMALFORMED : Z)
  end.

Definition SetSignerList : TxClass :=
  mkClass SetSignerList_preflight (calculateBaseFee info) no_preclaim (fun a => ter ← SetSignerList_doApply a; mret (ter, None)) (fun _ => Ok true) (fun _ => Ok 0).

(** ** [DepositPreauth] *)

Definition DepositPreauth_preflight (ctx : PreflightContext) : res Z :=
  if negb (pf_rules ctx featureDepositPreauth) then Ok (temDISABLED : Z) else
  unless_tes (preflight1 ctx) (
  if has_flags (tx_flags (pf_tx ctx)) tfUniversalMask then Ok (temINVALID_FLAG : Z) else
  optAuth ← at_opt as_account 0 (tx_object (pf_tx ctx)) sfAuthorize;
  optUnauth ← at_opt as_account 0 (tx_object (pf_tx ctx)) sfUnauthorize;
  match optAuth, optUnauth with
  | Some target, None =>
      if target =? 0 then Ok (temINVALID_ACCOUNT_ID : Z) else
      id ← at_field as_account 0 (tx_object (pf_tx ctx)) sfAccount;
      if target =? id then Ok (temCANNOT_PREAUTH_SELF : Z) else preflight2 ctx
  | None, Some target => if target =? 0 then Ok (temINVALID_ACCOUNT_ID : Z) else preflight2 ctx
  | _, _ => Ok (temMALFORMED : Z)
  end).

Definition DepositPreauth_preclaim (tx : STTx) (flags : Z) : prog Z :=
  if tx_has tx sfAuthorize then
    auth ← liftR (at_field as_account 0 (tx_object tx) sfAuthorize);
    target ← exists_at (acct auth);
    if negb target then mret (tecNO_TARGET : Z) else
    id ← liftR (at_field as_account 0 (tx_object tx) sfAccount);
    there ← exists_at (keylet_depositPreauth sha512Half id auth);
    mret (if there : bool then (tecDUPLICATE : Z) else tesSUCCESS)
  else
    unauth ← liftR (at_field as_account 0 (tx_object tx) sfUnauthorize);
    id ← liftR (at_field as_account 0 (tx_object tx) sfAccount);
    there ← exists_at (keylet_depositPreauth sha512Half id unauth);
    mret (if there : bool then (tesSUCCESS : Z) else tecNO_ENTRY).

(** The reserve as an [STAmount], compared with the prior balance. *)
Definition short_of_reserve (ap : Applying) (count : Z) : prog bool :=
  reserve ← liftR (ofSFC (reserve_for count));
  prior ← liftR (ofSFC (mPriorBalance ap));
  liftR (op_lt prior reserve).

Definition DepositPreauth_doApply (ap : Applying) : prog Z :=
  let account := account_ ap in
  sleOwner ← peek (acct account);
  if tx_has (ap_tx ap) sfAuthorize then
    sleOwner ← peek_object (acct account);
    count ← liftR (getFieldU32 sleOwner sfOwnerCount);
    short ← short_of_reserve ap (count + 1);
    if short : bool then mret (tecINSUFFICIENT_RESERVE : Z) else
    auth ← liftR (at_field as_account 0 (tx_object (ap_tx ap)) sfAuthorize);
    let k := keylet_depositPreauth sha512Half account auth in
    _ ← insert_new k (fun o => o ← setAccountID o sfAccount account; setAccountID o sfAuthorize auth);
    page ← view_dirAdd sha512Half false (ownerDir account) (kl_key k) (describeOwnerDir account);
    match page with
    | None => mret (tecDIR_FULL : Z)
    | Some page =>
        _ ← modify k (fun o => setFieldU64 o sfOwnerNode page);
        _ ← adjustOwnerCount (acct account) 1;
        mret (tesSUCCESS : Z)
    end
  else
    unauth ← liftR (at_field as_account 0 (tx_object (ap_tx ap)) sfUnauthorize);
    let k := keylet_depositPreauth sha512Half account unauth in
    slePreauth ← peek k;
    match slePreauth with
    | None => mret (tecNO_ENTRY : Z)
    | Some s =>
        page ← liftR (at_field as_u64 0 (sle_data s) sfOwnerNode);
        removed ← view_dirRemove sha512Half (ownerDir account) page (kl_key k) true;
        if negb removed then mret (tefBAD_LEDGER : Z) else
        _ ← adjustOwnerCount (acct account) (-1);
        _ ← erase_sle k;
        mret (tesSUCCESS : Z)
    end.

Definition DepositPreauth : TxClass := plain_class DepositPreauth_preflight DepositPreauth_preclaim DepositPreauth_doApply.

(** ** Tickets *)

Definition CreateTicket_preflight (ctx : PreflightContext) : res Z :=
  if negb (pf_rules ctx featureTickets) then Ok (temDISABLED : Z) else
  if has_flags (tx_flags (pf_tx ctx)) tfUniversalMask then Ok (temINVALID_FLAG : Z) else
  unless_tes (preflight1 ctx) (
  bad ← (if tx_has (pf_tx ctx) sfExpiration then e ← getFieldU32 (tx_object (pf_tx ctx)) sfExpiration; Ok (e =? 0) else Ok false);
  if bad : bool then Ok (temBAD_EXPIRATION : Z) else preflight2 ctx).

Definition CreateTicket_doApply (ap : Applying) : prog Z :=
  let account := account_ ap in
  let tx := ap_tx ap in
  sle ← peek_object (acct account);
  count ← liftR (getFieldU32 sle sfOwnerCount);
  if mPriorBalance ap <? reserve_for (count + 1) then mret (tecINSUFFICIENT_RESERVE : Z) else
  expiration ← (if tx_has tx sfExpiration then liftR (at_field as_u32 0 (tx_object tx) sfExpiration) else mret 0);
  if tx_has tx sfExpiration && (expiration <=? parentCloseTime info) then mret (tesSUCCESS : Z) else
  seq ← liftR (getSequence tx);
  let k := keylet_ticket sha512Half account seq in
  _ ← insert_new k (fun o =>
    o ← setAccountID o sfAccount account;
    o ← setFieldU32 o sfSequence seq;
    if negb (expiration =? 0) then setFieldU32 o sfExpiration expiration else Ok o);
  ter ←
    (if tx_has tx sfTarget then
       target ← liftR (getAccountID (tx_object tx) sfTarget);
       sleTarget ← peek (acct target);
       match sleTarget with
       | None => mret (tecNO_TARGET : Z)
       | Some _ => _ ← (if negb (target =? account) then modify k (fun o => setAccountID o sfTarget target) else mret ()); mret (tesSUCCESS : Z)
       end
     else mret (tesSUCCESS : Z));
  if negb (ter =? tesSUCCESS) then mret ter else
  page ← dirAdd_at sha512Half info (ownerDir account) (kl_key k) false (describeOwnerDir account);
  match page with
  | None => mret (tecDIR_FULL : Z)
  | Some page =>
      _ ← modify k (fun o => setFieldU64 o sfOwnerNode page);
      _ ← adjustOwnerCount (acct account) 1;
      mret (tesSUCCESS : Z)
  end.

Definition CreateTicket : TxClass := plain_class CreateTicket_preflight no_preclaim CreateTicket_doApply.

Definition CancelTicket_preflight (ctx : PreflightContext) : res Z :=
  if negb (pf_rules ctx featureTickets) then Ok (temDISABLED : Z) else
  if has_flags (tx_flags (pf_tx ctx)) tfUniversalMask then Ok (temINVALID_FLAG : Z) else
  unless_tes (preflight1 ctx) (preflight2 ctx).

(** Who may take a ticket away: its owner, its target, and anyone once it has expired. *)
Definition may_cancel_ticket (account owner : Z) (sle : Object) : res bool :=
  if account =? owner then Ok true else
  target ← (if isFieldPresent sle sfTarget then t ← getAccountID sle sfTarget; Ok (account =? t) else Ok false);
  if target : bool then Ok true else
  if isFieldPresent sle sfExpiration then e ← getFieldU32 sle sfExpiration; Ok (e <=? parentCloseTime info) else Ok false.

Definition CancelTicket_doApply (ap : Applying) : prog Z :=
  ticketId ← liftR (getFieldH256 (tx_object (ap_tx ap)) sfTicketID);
  let k := mkKeylet ltTICKET ticketId in
  sleTicket ← peek k;
  match sleTicket with
  | None => mret (tecNO_ENTRY : Z)
  | Some s =>
      owner ← liftR (getAccountID (sle_data s) sfAccount);
      authorized ← liftR (may_cancel_ticket (account_ ap) owner (sle_data s));
      if negb authorized then mret (tecNO_PERMISSION : Z) else
      hint ← liftR (getFieldU64 (sle_data s) sfOwnerNode);
      removed ← view_dirRemove sha512Half (ownerDir owner) hint ticketId false;
      if negb removed then mret (tefBAD_LEDGER : Z) else
      _ ← adjustOwnerCount (acct owner) (-1);
      _ ← erase_sle k;
      mret (tesSUCCESS : Z)
  end.

Definition CancelTicket : TxClass := plain_class CancelTicket_preflight no_preclaim CancelTicket_doApply.

(** ** [CancelOffer] *)

Definition CancelOffer_preflight (ctx : PreflightContext) : res Z :=
  unless_tes (preflight1 ctx) (
  if has_flags (tx_flags (pf_tx ctx)) tfUniversalMask then Ok (temINVALID_FLAG : Z) else
  seq ← getFieldU32 (tx_object (pf_tx ctx)) sfOfferSequence;
  if seq =? 0 then Ok (temBAD_SEQUENCE : Z) else preflight2 ctx).

Definition CancelOffer_preclaim (tx : STTx) (flags : Z) : prog Z :=
  id ← liftR (at_field as_account 0 (tx_object tx) sfAccount);
  offerSequence ← liftR (at_field as_u32 0 (tx_object tx) sfOfferSequence);
  sle ← read_object (acct id);
  seq ← liftR (at_field as_u32 0 sle sfSequence);
  mret (if seq <=? offerSequence then (temBAD_SEQUENCE : Z) else tesSUCCESS).

Definition CancelOffer_doApply (ap : Applying) : prog Z :=
  offerSequence ← liftR (at_field as_u32 0 (tx_object (ap_tx ap)) sfOfferSequence);
  _ ← read (acct (account_ ap));
  let offerIndex := getOfferIndex sha512Half (account_ ap) offerSequence in
  sleOffer ← peek (mkKeylet ltOFFER offerIndex);
  match sleOffer with
  | Some _ => offerDelete sha512Half offerIndex
  | None => mret (tesSUCCESS : Z)
  end.

Definition CancelOffer : TxClass := plain_class CancelOffer_preflight CancelOffer_preclaim CancelOffer_doApply.

(** ** [SetAccount] *)

(** A flag asked for by a bit of the transaction's flags or by its number. *)
Definition wants (uTxFlags bit number flag : Z) : bool := has_flags uTxFlags bit || (number =? flag).

Definition SetAccount_affectsAuth (tx : STTx) : res bool :=
  if has_flags (tx_flags tx) (Z.lor tfRequireAuth tfOptionalAuth) then Ok true else
  let hot (f : option Z) := match f with Some f => (f =? asfRequireAuth) || (f =? asfDisableMaster) || (f =? asfAccountTxnID) | None => false end in
  uSetFlag ← at_opt as_u32 0 (tx_object tx) sfSetFlag;
  if hot uSetFlag then Ok true else
  uClearFlag ← at_opt as_u32 0 (tx_object tx) sfClearFlag;
  Ok (hot uClearFlag).

Definition bad_rate (rules : Feature -> bool) (uRate : Z) : bool :=
  negb (uRate =? 0) && (uRate <? QUALITY_ONE) || rules fix1201 && (2 * QUALITY_ONE <? uRate).

Definition SetAccount_preflight (ctx : PreflightContext) : res Z :=
  let tx := tx_object (pf_tx ctx) in
  unless_tes (preflight1 ctx) (
  let uTxFlags := tx_flags (pf_tx ctx) in
  if has_flags uTxFlags tfAccountSetMask then Ok (temINVALID_FLAG : Z) else
  uSetFlag ← getFieldU32 tx sfSetFlag;
  uClearFlag ← getFieldU32 tx sfClearFlag;
  if negb (uSetFlag =? 0) && (uSetFlag =? uClearFlag) then Ok (temINVALID_FLAG : Z) else
  if wants uTxFlags tfRequireAuth uSetFlag asfRequireAuth && wants uTxFlags tfOptionalAuth uClearFlag asfRequireAuth then Ok (temINVALID_FLAG : Z) else
  if wants uTxFlags requireDestTag uSetFlag asfRequireDest && wants uTxFlags tfOptionalDestTag uClearFlag asfRequireDest then Ok (temINVALID_FLAG : Z) else
  if wants uTxFlags tfDisallowSFC uSetFlag asfDisallowSFC && wants uTxFlags tfAllowSFC uClearFlag asfDisallowSFC then Ok (temINVALID_FLAG : Z) else
  badRate ← (if isFieldPresent tx sfTransferRate then uRate ← getFieldU32 tx sfTransferRate; Ok (bad_rate (pf_rules ctx) uRate) else Ok false);
  if badRate : bool then Ok (temBAD_TRANSFER_RATE : Z) else
  if isFieldPresent tx sfTickSize && negb (pf_rules ctx featureTickSize) then Ok (temDISABLED : Z) else
  badTick ← (if isFieldPresent tx sfTickSize then
               t ← at_field as_u8 0 tx sfTickSize; Ok (negb (t =? 0) && ((t <? minTickSize) || (maxTickSize <? t)))
             else Ok false);
  if badTick : bool then Ok (temBAD_TICK_SIZE : Z) else
  mk ← at_opt as_vl [] tx sfMessageKey;
  if match mk with Some mk => negb (bool_decide (mk = [])) && bool_decide (publicKeyType mk = None) | None => false end then Ok (telBAD_PUBLIC_KEY : Z) else
  domain ← at_opt as_vl [] tx sfDomain;
  if match domain with Some d => (DOMAIN_BYTES_MAX <? length d)%nat | None => false end then Ok (telBAD_DOMAIN : Z) else
  preflight2 ctx).

(** [dirIsEmpty] of View.cpp. *)
Definition view_dirIsEmpty (k : Keylet) : prog bool :=
  sleNode ← read k;
  match sleNode with
  | None => mret true
  | Some s =>
      entries ← liftR (getFieldV256 (sle_data s) sfIndexes);
      if negb (bool_decide (entries = [])) then mret false else
      next ← liftR (getFieldU64 (sle_data s) sfIndexNext);
      mret (next =? 0)
  end.

Definition SetAccount_preclaim (tx : STTx) (flags : Z) : prog Z :=
  id ← liftR (at_field as_account 0 (tx_object tx) sfAccount);
  sle ← read_object (acct id);
  uFlagsIn ← liftR (getFieldU32 sle sfFlags);
  uSetFlag ← liftR (getFieldU32 (tx_object tx) sfSetFlag);
  if wants (tx_flags tx) tfRequireAuth uSetFlag asfRequireAuth && negb (has_flags uFlagsIn lsfRequireAuth) then
    empty ← view_dirIsEmpty (ownerDir id);
    if negb empty then mret (if has_flags flags tapRETRY then (terOWNERS : Z) else tecOWNERS) else mret (tesSUCCESS : Z)
  else mret (tesSUCCESS : Z).

(** A flag that is set and cleared when it is not what is asked for. *)
Definition toggle (set clear : bool) (flag uFlagsIn uFlagsOut : Z) : Z :=
  let uFlagsOut := if set && negb (has_flags uFlagsIn flag) then Z.lor uFlagsOut flag else uFlagsOut in
  if clear && has_flags uFlagsIn flag then without_flag uFlagsOut flag else uFlagsOut.

(** A flag that is set, or else cleared, whatever it was. *)
Definition assign_flag (set clear : bool) (flag uFlagsOut : Z) : Z :=
  if set then Z.lor uFlagsOut flag else if clear then without_flag uFlagsOut flag else uFlagsOut.

Definition toggles (uTxFlags uSetFlag uClearFlag uFlagsIn : Z) : Z :=
  let f := toggle (wants uTxFlags tfRequireAuth uSetFlag asfRequireAuth) (wants uTxFlags tfOptionalAuth uClearFlag asfRequireAuth) lsfRequireAuth uFlagsIn uFlagsIn in
  let f := toggle (wants uTxFlags requireDestTag uSetFlag asfRequireDest) (wants uTxFlags tfOptionalDestTag uClearFlag asfRequireDest) lsfRequireDestTag uFlagsIn f in
  toggle (wants uTxFlags tfDisallowSFC uSetFlag asfDisallowSFC) (wants uTxFlags tfAllowSFC uClearFlag asfDisallowSFC) lsfDisallowSFC uFlagsIn f.

(** The flags after the checks of the master key have passed. *)
Definition final_flags (uTxFlags uSetFlag uClearFlag uFlagsIn : Z) : Z :=
  let f := toggles uTxFlags uSetFlag uClearFlag uFlagsIn in
  let f := toggle (uSetFlag =? asfDisableMaster) (uClearFlag =? asfDisableMaster) lsfDisableMaster uFlagsIn f in
  let f := assign_flag (uSetFlag =? asfDefaultSupplyFinanceChain) (uClearFlag =? asfDefaultSupplyFinanceChain) lsfDefaultSupplyFinanceChain f in
  let f := assign_flag (uSetFlag =? asfNoFreeze) false lsfNoFreeze f in
  let f := assign_flag (uSetFlag =? asfGlobalFreeze) false lsfGlobalFreeze f in
  let f := if negb (uSetFlag =? asfGlobalFreeze) && (uClearFlag =? asfGlobalFreeze) && negb (has_flags f lsfNoFreeze) then without_flag f lsfGlobalFreeze else f in
  if enabled info featureDepositAuth then assign_flag (uSetFlag =? asfDepositAuth) (uClearFlag =? asfDepositAuth) lsfDepositAuth f else f.

(** A field of the account from the one of the transaction; a value that stands for
    none takes the field away. *)
Definition copy_field {V} (present : bool) (get : res V) (none : V -> bool) (make : V -> STValue) (f : SField) (o : Object) : res Object :=
  if present then (v ← get; if none v then makeFieldAbsent o f else setField o f (make v)) else Ok o.

Definition track_txn_id (uSetFlag uClearFlag : Z) (o : Object) : res Object :=
  o ← (if (uSetFlag =? asfAccountTxnID) && negb (isFieldPresent o sfAccountTxnID) then (r ← makeFieldPresent o sfAccountTxnID; Ok r.2) else Ok o);
  if (uClearFlag =? asfAccountTxnID) && isFieldPresent o sfAccountTxnID then makeFieldAbsent o sfAccountTxnID else Ok o.

Definition copy_fields (tx : Object) (o : Object) : res Object :=
  o ← copy_field (isFieldPresent tx sfEmailHash) (getFieldH128 tx sfEmailHash) (fun h => h =? 0) V_Hash128 sfEmailHash o;
  o ← copy_field (isFieldPresent tx sfWalletLocator) (getFieldH256 tx sfWalletLocator) (fun h => h =? 0) V_Hash256 sfWalletLocator o;
  o ← copy_field (isFieldPresent tx sfMessageKey) (getFieldVL tx sfMessageKey) (fun b => bool_decide (b = [])) V_VL sfMessageKey o;
  o ← copy_field (isFieldPresent tx sfDomain) (getFieldVL tx sfDomain) (fun b => bool_decide (b = [])) V_VL sfDomain o;
  o ← copy_field (isFieldPresent tx sfTransferRate) (getFieldU32 tx sfTransferRate) (fun r => (r =? 0) || (r =? QUALITY_ONE)) V_UInt32 sfTransferRate o;
  copy_field (isFieldPresent tx sfTickSize) (at_field as_u8 0 tx sfTickSize) (fun t => (t =? 0) || (t =? maxTickSize)) V_UInt8 sfTickSize o.

Definition SetAccount_doApply (ap : Applying) : prog Z :=
  let tx := ap_tx ap in
  let k := acct (account_ ap) in
  sle ← peek_object k;
  uFlagsIn ← liftR (getFieldU32 sle sfFlags);
  uSetFlag ← liftR (getFieldU32 (tx_object tx) sfSetFlag);
  uClearFlag ← liftR (getFieldU32 (tx_object tx) sfClearFlag);
  sigWithMaster ← liftR (signed_with_master tx (account_ ap));
  let disables := (uSetFlag =? asfDisableMaster) && negb (has_flags uFlagsIn lsfDisableMaster) in
  if disables && negb sigWithMaster then mret (tecNEED_MASTER_KEY : Z) else
  alternative ←
    (if disables && negb (isFieldPresent sle sfRegularKey) then s ← peek (keylet_signers sha512Half (account_ ap)); mret (bool_decide (is_Some s)) else mret true);
  if negb alternative then mret (if enabled info featureMultiSign then (tecNO_ALTERNATIVE_KEY : Z) else tecNO_REGULAR_KEY) else
  if (uSetFlag =? asfNoFreeze) && negb sigWithMaster && negb (has_flags uFlagsIn lsfDisableMaster) then mret (tecNEED_MASTER_KEY : Z) else
  let uFlagsOut := final_flags (tx_flags tx) uSetFlag uClearFlag uFlagsIn in
  _ ← modify k (fun o =>
    o ← track_txn_id uSetFlag uClearFlag o;
    o ← copy_fields (tx_object tx) o;
    if negb (uFlagsIn =? uFlagsOut) then setFieldU32 o sfFlags uFlagsOut else Ok o);
  mret (tesSUCCESS : Z).

Definition SetAccount : TxClass :=
  mkClass SetAccount_preflight (calculateBaseFee info) SetAccount_preclaim (fun a => ter ← SetAccount_doApply a; mret (ter, None)) SetAccount_affectsAuth (fun _ => Ok 0).
End Account.

(** ** No SFC moves *)

Lemma writes_set_flag f : writes [sfFlags] (set_flag f).
Proof.
  intros o o' Ho Hfree (r & Hr & [= <-])%bind_Ok_inv. unfold setFlag, getPField in Hr. rewrite Hfree, andb_false_r in Hr. destruct (getFieldIndex o sfFlags) as [i|] eqn:Hi; cbn [mbind res_bind] in Hr; [|injection Hr as <-; by apply evolves_refl].
  destruct (as_u32 (value_at o i)) as [n|]; injection Hr as <-; [|by apply evolves_refl]. apply (written_evolves _ _ sfFlags (V_UInt32 (Z.lor n f))); [|left]. apply put_written; [done|field_ok_tac|done|done].
Qed.

Lemma writes_make_present F f : field_ok f -> getCode f ∈ getCode <$> F -> writes F (fun o => r ← makeFieldPresent o f; Ok r.2).
Proof.
  intros Hf Hin o o' Ho Hfree (r & Hr & [= <-])%bind_Ok_inv. destruct (getFieldIndex o f) as [i|] eqn:Hi; [|unfold makeFieldPresent in Hr; rewrite Hi, Hfree in Hr; done].
  destruct (makeFieldPresent_spec o f i Ho Hf Hi) as (o1 & v & E & Hw & _). rewrite E in Hr. injection Hr as <-. by eapply written_evolves.
Qed.

Lemma writes_copy_field {V} F present (get : res V) none make f : field_ok f -> getCode f ∈ getCode <$> F -> writes F (copy_field present get none make f).
Proof.
  intros Hf Hin. unfold copy_field. apply writes_if; [|apply writes_ret]. apply writes_lift. intros v _. apply writes_if; [by apply writes_absent|by apply writes_set].
Qed.

Definition detail_fields : list SField := [sfAccountTxnID; sfEmailHash; sfWalletLocator; sfMessageKey; sfDomain; sfTransferRate; sfTickSize].
Definition account_fields : list SField := sfFlags :: detail_fields.

Lemma writes_sub F F' f : getCode <$> F ⊆ getCode <$> F' -> writes F f -> writes F' f.
Proof. intros Hs Hf o o' Ho Hfree E. eapply evolves_sub; [exact Hs|by apply Hf]. Qed.

Lemma account_fields_quiet : quiet account_fields.
Proof. quiet_tac. Qed.

Lemma writes_track uSet uClear : writes detail_fields (track_txn_id uSet uClear).
Proof.
  unfold track_txn_id. apply writes_bind.
  - intros o o' Ho Hfree. case_match; [|intros [= <-]; by apply evolves_refl]. apply (writes_make_present detail_fields sfAccountTxnID); [field_ok_tac|refine (bool_decide_unpack _ _); vm_compute; exact I|done|done].
  - intros o o' Ho Hfree. case_match; [|intros [= <-]; by apply evolves_refl]. apply (writes_absent detail_fields sfAccountTxnID); [field_ok_tac|refine (bool_decide_unpack _ _); vm_compute; exact I|done|done].
Qed.

Lemma writes_copy_fields tx : writes detail_fields (copy_fields tx).
Proof.
  unfold copy_fields. repeat first [apply writes_bind | apply writes_copy_field]; first [field_ok_tac | refine (bool_decide_unpack _ _); vm_compute; exact I].
Qed.

Section Neutral.
Context (sha512Half ripesha : list Z -> Z) (info : ViewInfo) (feeTrack : LoadFeeTrack).

Abbreviation Tacct := [ltACCOUNT_ROOT; ltDIR_NODE; ltSIGNER_LIST; ltDEPOSIT_PREAUTH; ltTICKET; ltOFFER].

Lemma neutral_account T F id f : ltACCOUNT_ROOT ∈ T -> quiet F -> writes F f -> neutral T (modify (keylet_account sha512Half id) f).
Proof. intros HT HF Hf. apply (neutral_modify T F); [done|done|by right|done]. Qed.

(** Entries of the other types may be written in any way. *)
Ltac entry_tac F := first
  [ apply (neutral_account Tacct F); [set_solver|quiet_tac|solve [writes_tac]]
  | apply (neutral_other Tacct F); [reflexivity|set_solver|reflexivity|solve [writes_tac]]
  | apply (neutral_new Tacct F); [solve [writes_tac]|set_solver|reflexivity] ].

Lemma neutral_SetRegularKey ap : neutral Tacct (SetRegularKey_doApply sha512Half info feeTrack ap).
Proof.
  unfold SetRegularKey_doApply. cbv zeta. neutral_tac; try entry_tac [sfRegularKey]. apply (neutral_account _ [sfFlags]); [set_solver|quiet_tac|apply writes_set_flag].
Qed.

Lemma neutral_removeSigners account : neutral Tacct (removeSignersFromLedger sha512Half account).
Proof. unfold removeSignersFromLedger. cbv zeta. neutral_tac. Qed.

Lemma writes_signers quorum flags signers : writes [sfSignerQuorum; sfSignerListID; sfFlags; sfSignerEntries] (writeSignersToSLE quorum flags signers).
Proof. unfold writeSignersToSLE. writes_tac. Qed.

Lemma neutral_SetSignerList ap : neutral Tacct (SetSignerList_doApply sha512Half info ap).
Proof.
  unfold SetSignerList_doApply. apply neutral_lift_bind. intros [[[ter quorum] signers] op] _. destruct op; [apply neutral_ret|unfold replaceSignerList|unfold destroySignerList]; cbv zeta.
  - neutral_tac; try apply neutral_removeSigners. all: try (destruct (enabled info featureMultiSignReserve); neutral_tac).
    all: first [entry_tac [sfOwnerNode] | apply (neutral_other Tacct [sfSignerQuorum; sfSignerListID; sfFlags; sfSignerEntries]); [reflexivity|set_solver|reflexivity|apply writes_signers]
               | apply neutral_dirAdd_in; [set_solver|reflexivity|apply writes_describeOwnerDir] ].
  - neutral_tac. apply neutral_removeSigners.
Qed.

Lemma neutral_dirAdd_view T po dir key describe : ltDIR_NODE ∈ T -> kl_type dir = ltDIR_NODE -> writes page_fields describe -> neutral T (view_dirAdd sha512Half po dir key describe).
Proof. intros HT Hd Hw. apply (neutral_sub1 ltDIR_NODE); [done|]. by apply neutral_dirAdd. Qed.

Lemma neutral_DepositPreauth ap : neutral Tacct (DepositPreauth_doApply sha512Half info ap).
Proof.
  unfold DepositPreauth_doApply, short_of_reserve. cbv zeta. neutral_tac.
  all: first [entry_tac [sfAccount; sfAuthorize; sfOwnerNode] | apply neutral_dirAdd_view; [set_solver|reflexivity|apply writes_describeOwnerDir] ].
Qed.

Lemma neutral_CreateTicket ap : neutral Tacct (CreateTicket_doApply sha512Half info ap).
Proof.
  unfold CreateTicket_doApply. cbv zeta. neutral_tac.
  all: first [entry_tac [sfAccount; sfSequence; sfExpiration; sfTarget; sfOwnerNode] | apply neutral_dirAdd_in; [set_solver|reflexivity|apply writes_describeOwnerDir] ].
Qed.

Lemma neutral_CancelTicket ap : neutral Tacct (CancelTicket_doApply sha512Half info ap).
Proof. unfold CancelTicket_doApply. cbv zeta. neutral_tac. Qed.

Lemma neutral_CancelOffer ap : neutral Tacct (CancelOffer_doApply sha512Half ap).
Proof. unfold CancelOffer_doApply. cbv zeta. neutral_tac. eapply neutral_weaken; [|apply neutral_offerDelete]. set_solver. Qed.

Lemma neutral_SetAccount ap : neutral Tacct (SetAccount_doApply sha512Half ripesha info ap).
Proof.
  unfold SetAccount_doApply. cbv zeta. neutral_tac. all: apply (neutral_account Tacct account_fields); [set_solver|apply account_fields_quiet|].
  all: apply writes_bind; [apply (writes_sub detail_fields); [set_solver|apply writes_track]|]; apply writes_bind; [apply (writes_sub detail_fields); [set_solver|apply writes_copy_fields]|]; writes_tac.
Qed.
End Neutral.

(** ** No account is locked out *)

Section Keys.
Context (sha512Half ripesha : list Z -> Z) (info : ViewInfo) (feeTrack : LoadFeeTrack).
Abbreviation acct := (keylet_account sha512Half).
Abbreviation signers := (keylet_signers sha512Half).

(** The account can sign: with its master key, a regular key or a list of signers. *)
Definition can_sign_by (m : gmap Z (SLE Object)) (id : Z) (o : Object) : Prop :=
  isFlag o lsfDisableMaster = false \/ isFieldPresent o sfRegularKey = true \/ is_Some (shown m (signers id)).

Definition has_key (m : gmap Z (SLE Object)) (id : Z) : Prop := exists s, shown m (acct id) = Some s /\ can_sign_by m id (sle_data s).

(** What a type of entry shows is not touched by changes to others. *)
Lemma shown_outside T m m' k : same_outside T m m' -> concrete (kl_type k) = true -> kl_type k ∉ T -> shown m' k = shown m k.
Proof.
  intros Hs Hc Hk. destruct (shown m k) as [s|] eqn:E; [|destruct (shown m' k) as [s|] eqn:E'; [|done]].
  - apply (shown_type _ _ _ Hc) in E as E2. destruct E2 as [Hl Ht]. apply shown_Some in E as [_ Hck]. apply shown_Some. split; [|done]. apply Hs; [by rewrite Ht|done].
  - apply (shown_type _ _ _ Hc) in E' as E2. destruct E2 as [Hl Ht]. apply shown_Some in E' as [_ Hck]. assert (shown m k = Some s); [|congruence]. apply shown_Some. split; [|done]. apply Hs; [by rewrite Ht|done].
Qed.

Lemma shown_modified m k s o : concrete (kl_type k) = true -> shown m k = Some s ->
  shown (<[kl_key k := with_data s o]> m) k = Some (with_data s o) /\ same_outside [kl_type k] m (<[kl_key k := with_data s o]> m).
Proof.
  intros Hc Hs. destruct (shown_type m k s Hc Hs) as [Hl Ht]. apply shown_Some in Hs as [_ Hck]. split.
  - apply shown_Some. split; [apply lookup_insert_eq|]. unfold check in *. exact Hck.
  - apply same_outside_insert; [cbn; rewrite Ht; set_solver|]. intros s0 Hs0. rewrite Hl in Hs0. injection Hs0 as <-. rewrite Ht. set_solver.
Qed.

Lemma evolves_sign F m id o o' : evolves F o o' -> getCode sfFlags ∉ getCode <$> F -> getCode sfRegularKey ∉ getCode <$> F -> can_sign_by m id o -> can_sign_by m id o'.
Proof. intros (_ & _ & Hp) H1 H2. unfold can_sign_by, isFlag, getFlags, isFieldPresent. by rewrite !Hp. Qed.

Lemma can_sign_outside T m m' id o : same_outside T m m' -> ltSIGNER_LIST ∉ T -> can_sign_by m id o -> can_sign_by m' id o.
Proof. intros Hs HT. unfold can_sign_by. by rewrite (shown_outside T m m' (signers id)). Qed.

(** A change to the account keeps what it can sign with, or has it from the signers. *)
Lemma has_key_modify m id s o : shown m (acct id) = Some s -> can_sign_by m id o -> has_key (<[kl_key (acct id) := with_data s o]> m) id.
Proof.
  intros Hs Hc. destruct (shown_modified m (acct id) s o eq_refl Hs) as [H1 H2]. eexists. split; [exact H1|]. eapply can_sign_outside; [exact H2| |exact Hc]. cbn. set_solver.
Qed.

Lemma writes_ownerCount n : writes [sfOwnerCount] (fun o => current ← getFieldU32 o sfOwnerCount; _ ← at_field as_account 0 o sfAccount; setFieldU32 o sfOwnerCount (confineOwnerCount current n)).
Proof. writes_tac. Qed.

Lemma ownerCount_key m d id n u m' d' : ledger_ok m -> run_map (adjustOwnerCount (acct id) n) (m, d) = Ok (u, (m', d')) -> has_key m id -> has_key m' id.
Proof.
  intros Hm Hr (s & Hs & Hc). unfold adjustOwnerCount in Hr. apply run_modify_inv in Hr as (s' & o & Hs' & Ho & [= -> ->]). rewrite Hs in Hs'. injection Hs' as <-.
  destruct (shown_type m (acct id) s eq_refl Hs) as [Hl _]. destruct (Hm _ _ Hl) as (_ & Hok & _). destruct (sle_ok_templated s Hok) as [Hobj Hfree].
  apply has_key_modify; [done|]. eapply (evolves_sign [sfOwnerCount]); [| | |exact Hc]; try (refine (bool_decide_unpack _ _); vm_compute; exact I).
  by apply (writes_ownerCount n).
Qed.

Lemma has_key_outside T m m' id : same_outside T m m' -> ltSIGNER_LIST ∉ T -> ltACCOUNT_ROOT ∉ T -> has_key m id -> has_key m' id.
Proof.
  intros Hs H1 H2 (s & Hk & Hc). exists s. split; [by rewrite (shown_outside T m m' (acct id))|by eapply can_sign_outside].
Qed.

Lemma SetRegularKey_key ap m d m' d' : ledger_ok m -> run_map (SetRegularKey_doApply sha512Half info feeTrack ap) (m, d) = Ok ((tesSUCCESS : Z), (m', d')) -> has_key m' (account_ ap).
Proof.
  intros Hm Hr. unfold SetRegularKey_doApply in Hr. cbv zeta in Hr. run_step Hr. run_step Hr. apply run_bind_inv in Hr as (u & m1 & d1 & Hflag & Hr).
  assert (Hm1 : ledger_ok m1).
  { destruct (_ =? 0) in Hflag; [|by apply run_ret_inv in Hflag as [_ [= -> ->]]]. assert (Hn : neutral [ltACCOUNT_ROOT] (modify (acct (account_ ap)) (set_flag lsfPasswordSpent))).
    { apply (neutral_account sha512Half _ [sfFlags]); [set_solver|quiet_tac|apply writes_set_flag]. } by apply (Hn _ _ _ _ _ Hm Hflag). }
  clear Hflag Hm. destruct (tx_has (ap_tx ap) sfRegularKey).
  - apply run_bind_inv in Hr as (u2 & m2 & d2 & Hmod & [_ [= -> ->]]%run_ret_inv). apply run_modify_inv in Hmod as (s & o & Hs & Ho & [= -> ->]). apply has_key_modify; [done|]. right. left.
    apply bind_Ok_inv in Ho as (key & _ & Ho). destruct (shown_type m1 (acct _) s eq_refl Hs) as [Hl _]. destruct (Hm1 _ _ Hl) as (_ & Hok & _). destruct (sle_ok_templated s Hok) as [Hobj _].
    assert (Hw : written_to (sle_data s) sfRegularKey (V_Account false key) o) by (apply setField_written; [done|field_ok_tac|done]). destruct Hw as (_ & _ & Hp). unfold isFieldPresent. by rewrite Hp, decide_True.
  - apply run_bind_inv in Hr as (o0 & m2 & d2 & Hpk & Hr). apply run_peek_object_inv in Hpk as (s & Hs & -> & [= -> ->]).
    apply run_bind_inv in Hr as (sg & m2 & d2 & Hsg & Hr). assert (Hsg' : (m2, d2) = (m1, d1) /\ (isFlag (sle_data s) lsfDisableMaster = true -> sg = shown m1 (signers (account_ ap)))).
    { destruct (isFlag (sle_data s) lsfDisableMaster); [rewrite run_peek in Hsg; by injection Hsg as <- <- <-|by apply run_ret_inv in Hsg as [_ [= -> ->]]]. }
    destruct Hsg' as [[= -> ->] Hsg']. destruct (isFlag (sle_data s) lsfDisableMaster && negb (bool_decide (is_Some sg))) eqn:Hc; [apply run_ret_inv in Hr as [Hr _]; discriminate Hr|].
    apply run_bind_inv in Hr as (u2 & m2 & d2 & Hmod & [_ [= -> ->]]%run_ret_inv). apply run_modify_inv in Hmod as (s' & o & Hs' & Ho & [= -> ->]). rewrite Hs in Hs'. injection Hs' as <-.
    apply has_key_modify; [done|]. destruct (shown_type m1 (acct _) s eq_refl Hs) as [Hl _]. destruct (Hm1 _ _ Hl) as (_ & Hok & _). destruct (sle_ok_templated s Hok) as [Hobj _].
    assert (Hw : written_to (sle_data s) sfRegularKey V_NotPresent o) by (apply makeFieldAbsent_written; [done|field_ok_tac|done]). destruct Hw as (_ & _ & Hp).
    unfold can_sign_by, isFlag, getFlags. rewrite Hp, decide_False by done. fold (getFlags (sle_data s)). fold (isFlag (sle_data s) lsfDisableMaster).
    destruct (isFlag (sle_data s) lsfDisableMaster); [|by left]. right. right. rewrite <-(Hsg' eq_refl). cbn in Hc. by apply negb_false_iff, bool_decide_eq_true in Hc.
Qed.

Abbreviation Tdir := [ltDIR_NODE].

Lemma removeSigners_key account m d m' d' s : ledger_ok m -> shown m (acct account) = Some s -> isFlag (sle_data s) lsfDisableMaster = false \/ isFieldPresent (sle_data s) sfRegularKey = true ->
  run_map (removeSignersFromLedger sha512Half account) (m, d) = Ok ((tesSUCCESS : Z), (m', d')) -> has_key m' account.
Proof.
  intros Hm Hs Hc Hr. assert (Hkey : has_key m account) by (exists s; split; [done|]; unfold can_sign_by; tauto). unfold removeSignersFromLedger in Hr. cbv zeta in Hr. run_step Hr.
  destruct (shown m (signers account)) as [sg|]; [|by apply run_ret_inv in Hr as [_ [= -> ->]]]. apply run_bind_inv in Hr as (n & m1 & d1 & Hn & Hr).
  assert ((m1, d1) = (m, d)) as [= -> ->]. { destruct (negb _) in Hn; [run_step Hn; by apply run_ret_inv in Hn as [_ [= -> ->]]|by apply run_ret_inv in Hn as [_ [= -> ->]]]. }
  run_step Hr. apply run_bind_inv in Hr as (b & m1 & d1 & Hdir & Hr). destruct (neutral_dirRemove sha512Half _ _ _ _ _ _ _ _ _ Hm Hdir) as (Hm1 & _ & Ho1 & _).
  destruct (negb b); [apply run_ret_inv in Hr as [Hr _]; discriminate Hr|]. apply run_bind_inv in Hr as (u & m2 & d2 & Hown & Hr). assert (Hn2 : neutral [ltACCOUNT_ROOT] (adjustOwnerCount (acct account) n)) by (apply neutral_ownerCount; set_solver).
  destruct (Hn2 _ _ _ _ _ Hm1 Hown) as (Hm2 & _). assert (Hsign : exists s2, shown m2 (acct account) = Some s2 /\ (isFlag (sle_data s2) lsfDisableMaster = false \/ isFieldPresent (sle_data s2) sfRegularKey = true)).
  { unfold adjustOwnerCount in Hown. apply run_modify_inv in Hown as (s1 & o & Hs1 & Ho & [= -> ->]). rewrite (shown_outside Tdir m m1) in Hs1 by (done || set_solver). rewrite Hs in Hs1. injection Hs1 as <-.
    assert (Hs1 : shown m1 (acct account) = Some s) by (rewrite (shown_outside Tdir m m1) by (done || set_solver); done). destruct (shown_modified m1 (acct account) s o eq_refl Hs1) as [Hs2 _]. eexists. split; [exact Hs2|].
    destruct (shown_type m1 (acct account) s eq_refl Hs1) as [Hl _]. destruct (Hm1 _ _ Hl) as (_ & Hok & _). destruct (sle_ok_templated s Hok) as [Hobj Hfree].
    destruct (writes_ownerCount n _ _ Hobj Hfree Ho) as (_ & _ & Hp). cbn [sle_data with_data]. unfold isFlag, getFlags, isFieldPresent in *. rewrite !Hp by (refine (bool_decide_unpack _ _); vm_compute; exact I). done. }
  destruct Hsign as (s2 & Hs2 & Hc2). apply run_bind_inv in Hr as (u2 & m3 & d3 & Her & Hr). apply run_ret_inv in Hr as [_ [= -> ->]]. apply run_erase_inv in Her as (sg2 & Hsg2 & [= -> ->]).
  assert (Ho3 : same_outside [ltSIGNER_LIST] m2 (delete (kl_key (signers account)) m2)).
  { apply same_outside_delete. intros s0 Hs0. destruct (shown_type m2 (signers account) sg2 eq_refl Hsg2) as [Hl Ht]. rewrite Hl in Hs0. injection Hs0 as <-. rewrite Ht. set_solver. }
  exists s2. split; [rewrite (shown_outside [ltSIGNER_LIST] m2) by (done || set_solver); done|]. unfold can_sign_by. tauto.
Qed.

Lemma SetSignerList_key ap m d m' d' : ledger_ok m -> run_map (SetSignerList_doApply sha512Half info ap) (m, d) = Ok ((tesSUCCESS : Z), (m', d')) -> has_key m' (account_ ap).
Proof.
  intros Hm Hr. unfold SetSignerList_doApply in Hr. run_step Hr. destruct x as [[[ter quorum] sgs] op]. set (id := account_ ap) in *. destruct op; [apply run_ret_inv in Hr as [Hr _]; discriminate Hr| |].
  - unfold replaceSignerList in Hr. cbv zeta in Hr. fold id in Hr. apply run_bind_inv in Hr as (r1 & m1 & d1 & Hrem & Hr). destruct (neutral_removeSigners sha512Half id _ _ _ _ _ Hm Hrem) as (Hm1 & _).
    destruct (negb (r1 =? tesSUCCESS)) eqn:Hr1; [apply run_ret_inv in Hr as [Hr _]; rewrite <-Hr in Hr1; discriminate Hr1|]. run_step Hr. run_step Hr. destruct (if enabled info featureMultiSignReserve then _ else _) as [added flags] in Hr.
    destruct (_ <? _) in Hr; [apply run_ret_inv in Hr as [Hr _]; discriminate Hr|]. apply run_bind_inv in Hr as (u1 & m2 & d2 & Hins & Hr). apply run_bind_inv in Hr as (u2 & m3 & d3 & Hmod & Hr).
    assert (Hm2 : ledger_ok m2). { assert (Hn : neutral [ltSIGNER_LIST] (insert_new (signers id) Ok)) by (apply neutral_new_plain; [set_solver|done]). by apply (Hn _ _ _ _ _ Hm1 Hins). }
    assert (Hm3 : ledger_ok m3). { assert (Hn : neutral [ltSIGNER_LIST] (modify (signers id) (writeSignersToSLE quorum flags sgs))) by (apply (neutral_other _ [sfSignerQuorum; sfSignerListID; sfFlags; sfSignerEntries]); [done|set_solver|done|apply writes_signers]). by apply (Hn _ _ _ _ _ Hm2 Hmod). }
    apply run_bind_inv in Hr as (page & m4 & d4 & Hdir & Hr). destruct (neutral_dirAdd_at sha512Half info (keylet_ownerDir sha512Half id) _ false _ eq_refl (writes_describeOwnerDir id) _ _ _ _ _ Hm3 Hdir) as (Hm4 & _).
    destruct page as [page|]; [|apply run_ret_inv in Hr as [Hr _]; discriminate Hr]. apply run_bind_inv in Hr as (u4 & m5 & d5 & Hnode & Hr). apply run_modify_inv in Hnode as (sl & o & Hsl & Ho & [= -> ->]).
    destruct (shown_modified m4 (signers id) sl o eq_refl Hsl) as [Hsl5 _]. apply run_bind_inv in Hr as (u6 & m6 & d6 & Hown & Hr). apply run_ret_inv in Hr as [_ [= -> ->]].
    unfold adjustOwnerCount in Hown. apply run_modify_inv in Hown as (sa & oa & Hsa & _ & [= -> ->]). apply has_key_modify; [done|]. right. right. eexists. exact Hsl5.
  - unfold destroySignerList in Hr. apply run_bind_inv in Hr as (o & m1 & d1 & Hpk & Hr). apply run_peek_object_inv in Hpk as (s & Hs & -> & [= -> ->]).
    destruct (_ && _) eqn:Hc in Hr; [apply run_ret_inv in Hr as [Hr _]; discriminate Hr|]. eapply removeSigners_key; [exact Hm|exact Hs| |exact Hr].
    destruct (isFlag (sle_data s) lsfDisableMaster); [right|by left]. cbn in Hc. by apply negb_false_iff in Hc.
Qed.

(** Bit 20 of the flags is that of the master key. *)
Lemma land_flag_bit n i : 0 <= i -> Z.land n (Z.shiftl 1 i) = if Z.testbit n i then Z.shiftl 1 i else 0.
Proof.
  intros Hi. assert (Hone : forall j, Z.testbit (Z.shiftl 1 i) j = bool_decide (j = i)).
  { intros j. rewrite Z.shiftl_1_l. case_bool_decide as Hj; [subst; by apply Z.pow2_bits_true|]. apply Z.pow2_bits_false. congruence. }
  apply Z.bits_inj'. intros j Hj. rewrite Z.land_spec, Hone. destruct (Z.testbit n i) eqn:E; rewrite ?Hone, ?Z.bits_0; case_bool_decide as Hji; rewrite ?andb_false_r, ?andb_true_r; congruence.
Qed.

Lemma isFlag_master o : isFlag o lsfDisableMaster = Z.testbit (getFlags o) 20.
Proof. unfold isFlag. change (lsf_code lsfDisableMaster) with (Z.shiftl 1 20). rewrite land_flag_bit by done. by destruct (Z.testbit _ 20). Qed.

Lemma has_flags_master n : has_flags n lsfDisableMaster = Z.testbit n 20.
Proof. unfold has_flags. change (lsf_code lsfDisableMaster) with (Z.shiftl 1 20). rewrite land_flag_bit by done. by destruct (Z.testbit _ 20). Qed.

Lemma without_bit n f i : 0 <= i < 32 -> Z.testbit (without_flag n f) i = Z.testbit n i && negb (Z.testbit f i).
Proof. intros Hi. unfold without_flag. rewrite !Z.land_spec, Z.lnot_spec, Z.ones_spec_low, andb_true_r by lia. done. Qed.

Lemma toggle_bit set clear flag fin fout i : 0 <= i < 32 -> Z.testbit flag i = false -> Z.testbit (toggle set clear flag fin fout) i = Z.testbit fout i.
Proof.
  intros Hi Hf. unfold toggle. assert (E : Z.testbit (if set && negb (has_flags fin flag) then Z.lor fout flag else fout) i = Z.testbit fout i).
  { destruct (_ && _); [|done]. by rewrite Z.lor_spec, Hf, orb_false_r. }
  destruct (clear && _); [|done]. by rewrite without_bit, Hf, andb_true_r.
Qed.

Lemma assign_bit set clear flag f i : 0 <= i < 32 -> Z.testbit flag i = false -> Z.testbit (assign_flag set clear flag f) i = Z.testbit f i.
Proof. intros Hi Hf. unfold assign_flag. destruct set; [by rewrite Z.lor_spec, Hf, orb_false_r|]. destruct clear; [by rewrite without_bit, Hf, andb_true_r|done]. Qed.

(** The master key is disabled after only if it was, or if that is asked for. *)
Lemma final_flags_master uTx uSet uClear fin : Z.testbit (final_flags info uTx uSet uClear fin) 20 = true -> Z.testbit fin 20 = true \/ uSet = asfDisableMaster.
Proof.
  unfold final_flags. intros Hb. assert (Hb1 : Z.testbit (toggle (uSet =? asfDisableMaster) (uClear =? asfDisableMaster) lsfDisableMaster fin (toggles uTx uSet uClear fin)) 20 = true).
  { revert Hb. destruct (enabled info featureDepositAuth); [rewrite assign_bit by done|]; (case_match; [rewrite without_bit by lia; intros [Hb _]%andb_prop; revert Hb|]); rewrite !assign_bit by done; done. }
  unfold toggle in Hb1. destruct (Z.eqb_spec uSet asfDisableMaster); [by right|left]. cbn [andb] in Hb1. assert (Ht : Z.testbit (toggles uTx uSet uClear fin) 20 = true).
  { destruct (_ && _) in Hb1; [|done]. rewrite without_bit in Hb1 by lia. by apply andb_prop in Hb1 as [? _]. }
  unfold toggles in Ht. by rewrite !toggle_bit in Ht by done.
Qed.

Lemma getFlags_U32 o n : getFieldU32 o sfFlags = Ok n -> getFlags o = n.
Proof.
  unfold getFieldU32, getFieldBy, getFlags. destruct (peekAtPField o sfFlags) as [v|]; [|done]. cbn. destruct (isPresent v) eqn:E; [destruct (as_u32 v); [by intros [= ->]|done]|].
  intros [= <-]. by destruct v.
Qed.

Lemma SetAccount_key ap m d m' d' : ledger_ok m -> has_key m (account_ ap) ->
  run_map (SetAccount_doApply sha512Half ripesha info ap) (m, d) = Ok ((tesSUCCESS : Z), (m', d')) -> has_key m' (account_ ap).
Proof.
  intros Hm (s & Hs & Hkey) Hr. set (id := account_ ap) in *. unfold SetAccount_doApply in Hr. cbv zeta in Hr. fold id in Hr. apply run_bind_inv in Hr as (o0 & m1 & d1 & Hpk & Hr).
  apply run_peek_object_inv in Hpk as (s0 & Hs0 & -> & [= -> ->]). rewrite Hs in Hs0. injection Hs0 as <-. apply run_bind_inv in Hr as (fin & ? & ? & Hfin & Hr). apply run_lift_inv in Hfin as [Hfin [= -> ->]].
  apply run_bind_inv in Hr as (uSet & ? & ? & Hu & Hr). apply run_lift_inv in Hu as [_ [= -> ->]]. apply run_bind_inv in Hr as (uClear & ? & ? & Hu & Hr). apply run_lift_inv in Hu as [_ [= -> ->]].
  apply run_bind_inv in Hr as (master & ? & ? & Hu & Hr). apply run_lift_inv in Hu as [_ [= -> ->]]. set (disables := (uSet =? asfDisableMaster) && negb (has_flags fin lsfDisableMaster)) in *.
  destruct (disables && negb master); [apply run_ret_inv in Hr as [Hr _]; discriminate Hr|]. apply run_bind_inv in Hr as (alt & m1 & d1 & Halt & Hr).
  assert (Ha : (m1, d1) = (m, d) /\ (disables = true -> isFieldPresent (sle_data s) sfRegularKey = false -> alt = bool_decide (is_Some (shown m (signers id))))).
  { destruct disables; cbn [andb] in Halt; [destruct (isFieldPresent (sle_data s) sfRegularKey); cbn [negb] in Halt; [|run_step Halt]|]; apply run_ret_inv in Halt as [-> [= -> ->]]; done. }
  destruct Ha as [[= -> ->] Ha]. destruct alt; cbn [negb] in Hr; [|destruct (enabled info featureMultiSign); apply run_ret_inv in Hr as [Hr _]; discriminate Hr].
  destruct (_ && _) in Hr; [apply run_ret_inv in Hr as [Hr _]; discriminate Hr|]. apply run_bind_inv in Hr as (u & m1 & d1 & Hmod & Hr). apply run_ret_inv in Hr as [_ [= -> ->]].
  apply run_modify_inv in Hmod as (s' & o & Hs' & Ho & [= -> ->]). rewrite Hs in Hs'. injection Hs' as <-. apply has_key_modify; [done|].
  destruct (shown_type m (acct id) s eq_refl Hs) as [Hl _]. destruct (Hm _ _ Hl) as (_ & Hok & _). destruct (sle_ok_templated s Hok) as [Hobj Hfree].
  set (fout := final_flags info _ uSet uClear fin) in *. apply bind_Ok_inv in Ho as (o1 & Ho1 & Ho). apply bind_Ok_inv in Ho as (o2 & Ho2 & Ho).
  destruct (writes_track _ _ _ _ Hobj Hfree Ho1) as (Hobj1 & Ht1 & Hp1). assert (Hfree1 : isFree o1 = false) by (unfold isFree in *; by rewrite Ht1).
  destruct (writes_copy_fields _ _ _ Hobj1 Hfree1 Ho2) as (Hobj2 & Ht2 & Hp2).
  assert (Hreg : peekAtPField o sfRegularKey = peekAtPField (sle_data s) sfRegularKey /\ getFlags o = fout).
  { destruct (Z.eqb_spec fin fout) as [Heq|Hne]; cbn [negb] in Ho.
    - injection Ho as <-. rewrite Hp2, Hp1 by (refine (bool_decide_unpack _ _); vm_compute; exact I). split; [done|]. unfold getFlags. rewrite Hp2, Hp1 by (refine (bool_decide_unpack _ _); vm_compute; exact I).
      rewrite <-Heq. by apply getFlags_U32.
    - assert (Hw : written_to o2 sfFlags (V_UInt32 fout) o) by (apply setField_written; [done|field_ok_tac|done]). destruct Hw as (_ & _ & Hp).
      split; [rewrite Hp, decide_False, Hp2, Hp1 by (done || (refine (bool_decide_unpack _ _); vm_compute; exact I)); done|]. unfold getFlags. by rewrite Hp, decide_True. }
  destruct Hreg as [Hreg Hflags]. unfold can_sign_by. rewrite isFlag_master, Hflags. unfold isFieldPresent. rewrite Hreg. fold (isFieldPresent (sle_data s) sfRegularKey).
  destruct (Z.testbit fout 20) eqn:Hb; [right|by left]. unfold can_sign_by in Hkey. rewrite isFlag_master, (getFlags_U32 _ _ Hfin) in Hkey.
  destruct (Z.testbit fin 20) eqn:Hbin; [destruct Hkey as [Hkey|Hkey]; [discriminate Hkey|done]|]. destruct (final_flags_master _ _ _ _ Hb) as [Hx|Hx]; [congruence|].
  assert (Hdis : disables = true) by (unfold disables; rewrite Hx, has_flags_master, Hbin; done). destruct (isFieldPresent (sle_data s) sfRegularKey) eqn:Er; [by left|right].
  specialize (Ha Hdis eq_refl). symmetry in Ha. by apply bool_decide_eq_true in Ha.
Qed.

(** C22. No transaction locks an account out. The three transactions that change how an
    account signs ([SetRegularKey], [SetSignerList] and [SetAccount]) leave it, when
    they succeed, with a master key that is not disabled, a regular key or a list of
    signers, if it had one of them before. *)
Theorem never_locked_out cls ap m d dl m' d' : ledger_ok m -> has_key m (account_ ap) ->
  cls = SetRegularKey sha512Half ripesha info feeTrack \/ cls = SetSignerList sha512Half info \/ cls = SetAccount sha512Half ripesha info ->
  run_map (tc_doApply cls ap) (m, d) = Ok (((tesSUCCESS : Z), dl), (m', d')) -> has_key m' (account_ ap).
Proof.
  intros Hm Hk Hcls Hr. destruct Hcls as [->|[->| ->]]; apply run_bind_inv in Hr as (ter & m1 & d1 & Hr & [[= <- ->] [= -> ->]]%run_ret_inv);
    [by eapply SetRegularKey_key|by eapply SetSignerList_key|by eapply SetAccount_key].
Qed.
End Keys.

(** ** The common checks are made *)

Section Common.
Context (ctx : PreflightContext).

(** A result that ends in [preflight2]; and one that starts with [preflight1] too. *)
Definition ends_checked (r : res Z) : Prop := forall ter, r = Ok ter -> isTecClaim ter = false /\ (ter = tesSUCCESS -> preflight2 ctx = Ok (tesSUCCESS : Z)).
Definition all_checked (r : res Z) : Prop := forall ter, r = Ok ter ->
  isTecClaim ter = false /\ (ter = tesSUCCESS -> preflight1 ctx = Ok (tesSUCCESS : Z) /\ preflight2 ctx = Ok (tesSUCCESS : Z)).

Lemma ends_code (c : TERcode) : isTecClaim c = false -> c <> tesSUCCESS -> ends_checked (Ok (c : Z)).
Proof. intros Hc Hn ter [= <-]. split; [done|]. by destruct c. Qed.
Lemma all_code (c : TERcode) : isTecClaim c = false -> c <> tesSUCCESS -> all_checked (Ok (c : Z)).
Proof. intros Hc Hn ter [= <-]. split; [done|]. by destruct c. Qed.
Lemma ends_preflight2 : ends_checked (preflight2 ctx).
Proof. intros ter E. split; [|by intros ->]. unfold preflight2 in E. apply bind_Ok_inv in E as (v & _ & [= <-]). by destruct v.1. Qed.
Lemma ends_bind {A} (r : res A) f : (forall a, r = Ok a -> ends_checked (f a)) -> ends_checked (r ≫= f).
Proof. intros H ter (a & Ha & Hf)%bind_Ok_inv. by eapply H. Qed.

Lemma preflight1_code ter : preflight1 ctx = Ok ter -> isTecClaim ter = false.
Proof.
  unfold preflight1, preflight0. cbn [mbind res_bind]. destruct (tid_ (pf_tx ctx) =? 0); [by intros [= <-]|]. cbn [isTesSuccess negb]. intros (id & _ & H)%bind_Ok_inv. revert H. destruct (id =? 0); [by intros [= <-]|].
  intros (fee & _ & (bad & _ & H)%bind_Ok_inv)%bind_Ok_inv. revert H. destruct bad; [by intros [= <-]|]. intros (spk & _ & H)%bind_Ok_inv. revert H. destruct (_ && _); by intros [= <-].
Qed.

Lemma all_unless next : ends_checked next -> all_checked (unless_tes (preflight1 ctx) next).
Proof.
  intros Hn ter (r & Hr & H)%bind_Ok_inv. destruct (isTesSuccess r) eqn:E; cbn [negb] in H.
  - apply Z.eqb_eq in E. subst r. destruct (Hn ter H) as [H1 H2]. split; [done|]. intros ->. auto.
  - injection H as <-. split; [by apply preflight1_code|]. intros ->. discriminate E.
Qed.
End Common.

Ltac checks_step :=
  match goal with
  | |- all_checked _ (unless_tes _ _) => apply all_unless
  | |- all_checked _ (if ?b then _ else _) => destruct b
  | |- all_checked _ (Ok _) => apply all_code; [reflexivity|discriminate]
  | |- ends_checked _ (preflight2 _) => apply ends_preflight2
  | |- ends_checked _ (_ ≫= _) => apply ends_bind; intros ? ?
  | |- ends_checked _ (Ok (TERtoInt _)) => apply ends_code; [reflexivity|discriminate]
  | |- ends_checked _ (if ?b then _ else _) => destruct b eqn:?
  | |- ends_checked _ (match ?x with _ => _ end) => destruct x eqn:?
  end.

Lemma checked_class cls : (forall ctx, all_checked ctx (tc_preflight cls ctx)) -> common_checks cls.
Proof. intros H ctx ter E. destruct (H ctx ter E) as [H1 H2]. auto. Qed.

Ltac class_checks := apply checked_class; intros ctx; cbn [tc_preflight plain_class]; cbv zeta; repeat checks_step.

Section Classes.
Context (sha512Half ripesha : list Z -> Z) (info : ViewInfo) (feeTrack : LoadFeeTrack).

Lemma checks_SetRegularKey : common_checks (SetRegularKey sha512Half ripesha info feeTrack).
Proof. unfold SetRegularKey, SetRegularKey_preflight. class_checks. Qed.

Lemma determineOperation_code tx ter q l op : determineOperation tx = Ok (ter, q, l, op) -> isTecClaim ter = false.
Proof.
  unfold determineOperation. intros (quorum & _ & H)%bind_Ok_inv. revert H. destruct (_ && _); [|by intros [= <- <- <- <-]]. intros ([e t] & He & H)%bind_Ok_inv. revert H. cbn [fst snd].
  destruct (negb _); [intros [= <- <- <- <-]; by eapply deserialize_code|by intros [= <- <- <- <-]].
Qed.

Lemma validate_code quorum l id : isTecClaim (validateQuorumAndSignerEntries quorum l id) = false.
Proof.
  unfold validateQuorumAndSignerEntries. destruct (_ || _); [done|]. destruct (adjacent_same l); [done|]. assert (H : forall sum ter, signers_weight id l sum = inl ter -> isTecClaim ter = false).
  { induction l as [|e l IH]; intros sum ter; cbn; [done|]. destruct (_ <=? _); [by intros [= <-]|]. destruct (_ =? _); [by intros [= <-]|]. apply IH. }
  destruct (signers_weight id l 0) as [ter|sum] eqn:E; [by eapply H|]. by destruct (_ || _).
Qed.

Lemma ends_not_tes ctx ter : isTecClaim ter = false -> ter <> tesSUCCESS -> ends_checked ctx (Ok ter).
Proof. by intros H1 H2 t [= <-]. Qed.

Lemma checks_SetSignerList : common_checks (SetSignerList sha512Half info).
Proof.
  unfold SetSignerList, SetSignerList_preflight. class_checks.
  - apply ends_not_tes; [by eapply determineOperation_code|]. intros ->. discriminate.
  - apply ends_not_tes; [apply validate_code|]. intros E. rewrite E in *. discriminate.
Qed.

Lemma checks_DepositPreauth : common_checks (DepositPreauth sha512Half info).
Proof. unfold DepositPreauth, DepositPreauth_preflight. class_checks. Qed.
Lemma checks_CreateTicket : common_checks (CreateTicket sha512Half info).
Proof. unfold CreateTicket, CreateTicket_preflight. class_checks. Qed.
Lemma checks_CancelTicket : common_checks (CancelTicket sha512Half info).
Proof. unfold CancelTicket, CancelTicket_preflight. class_checks. Qed.
Lemma checks_CancelOffer : common_checks (CancelOffer sha512Half info).
Proof. unfold CancelOffer, CancelOffer_preflight. class_checks. Qed.
Lemma checks_SetAccount : common_checks (SetAccount sha512Half ripesha info).
Proof. unfold SetAccount, SetAccount_preflight. class_checks. Qed.
End Classes.

(** ** Samples *)

(** A run that ends with success. *)
Definition succeeds {A} (code : A -> Z) (r : res (A * (gmap Z (SLE Object) * Z))) : bool := match r with Ok (a, _) => code a =? tesSUCCESS | Throw _ => false end.

Lemma succeeds_run {A} (code : A -> Z) r : succeeds code r = true -> exists a m' d', r = Ok (a, (m', d')) /\ code a = tesSUCCESS.
Proof. destruct r as [[a [m' d']]|]; [|done]. intros H%Z.eqb_eq. by exists a, m', d'. Qed.

Lemma ran {A} (code : A -> Z) (r : res (A * (gmap Z (SLE Object) * Z))) (P : A -> gmap Z (SLE Object) -> Z -> Prop) : succeeds code r = true ->
  (forall a m' d', r = Ok (a, (m', d')) -> code a = tesSUCCESS -> P a m' d') -> exists a m' d', r = Ok (a, (m', d')) /\ code a = tesSUCCESS /\ P a m' d'.
Proof. intros (a & m' & d' & E & Ha)%succeeds_run HP. exists a, m', d'. auto. Qed.

Definition sample_tx (type : Z) (assembler : Object -> res Object) : STTx := match build_STTx id_digest type assembler with Ok tx => tx | Throw _ => mkTx (mkObject [] None) 0 0 end.

(** A ledger of late 2016, with every amendment. *)
Definition sample_info : ViewInfo := mkInfo (fun _ => true) (mkFees 10 10 20 5) false 7 600000000.

(** The fields of an entry that make up the sample accounts, with flags. *)
Definition sample_account (id drops flags : Z) : Z * SLE Object :=
  (kl_key (keylet_account id_digest id),
   wentry (keylet_account id_digest id) (fun o => o ← setAccountID o sfAccount id; o ← setFieldU32 o sfSequence 1; o ← setFieldU32 o sfFlags flags; setFieldAmount o sfBalance (ofSigned drops))).

(** Account 5, which has a regular key, disables its master key. *)
Definition sample_keyed : gmap Z (SLE Object) :=
  {[ kl_key (keylet_account id_digest 5) := wentry (keylet_account id_digest 5) (fun o => o ← setAccountID o sfAccount 5; o ← setFieldU32 o sfSequence 1; o ← setAccountID o sfRegularKey 9; setFieldAmount o sfBalance (ofSigned 1000)) ]}.

Definition sample_disable : Applying :=
  mkApplying (sample_tx ttACCOUNT_SET (fun o => o ← setAccountID o sfAccount 5; o ← setFieldU32 o sfSetFlag asfDisableMaster; setFieldVL o sfSigningPubKey (237 :: repeat 0 32))) 5 1000 1000 10 0.

Lemma never_locked_out_witness : exists a m' d', run_map (tc_doApply (SetAccount id_digest (fun _ => 5) sample_info) sample_disable) (sample_keyed, 0) = Ok (a, (m', d')) /\ a.1 = tesSUCCESS /\ has_key id_digest m' 5.
Proof.
  apply (ran fst); [vm_compute; reflexivity|]. intros [ter dl] m' d' E Hter. cbn in Hter. subst ter.
  refine (never_locked_out id_digest (fun _ => 5) sample_info (mkTrack 256 256 256 0) (SetAccount id_digest (fun _ => 5) sample_info) sample_disable sample_keyed 0 dl m' d' _ _ (or_intror (or_intror eq_refl)) E).
  - apply ledger_okb_ok. vm_compute. reflexivity.
  - eexists. split; [vm_compute; reflexivity|]. left. vm_compute. reflexivity.
Defined.
