(* ===== verification/TrustTx.v ===== *)
(** * The trust line transactor

    Models SetTrust.cpp of app/tx/impl: a line is made, changed, or deleted when both
    its sides are in their default state. *)

From S2P Require Import Prelude STAmount Serializer Keys SField STObject STAccess View TER Indexes Formats STTx RawStateTable ApplyStateTable Prog.
From S2P Require Import HashRouter LoadFee Invariants Entries TxMeta MetaCommit OwnerDir LedgerView Transactor Engine AccountTx.

(** [badCurrency] of protocol/impl/UintTypes.cpp. *)
Definition badCurrency : Z := 6364237184358154240.

Section Trust.
Context (sha512Half : list Z -> Z) (info : ViewInfo).

Abbreviation acct := (keylet_account sha512Half).

Definition SetTrust_preflight (ctx : PreflightContext) : res Z :=
  unless_tes (preflight1 ctx) (
  if has_flags (tx_flags (pf_tx ctx)) tfTrustSetMask then Ok (temINVALID_FLAG : Z) else
  saLimitAmount ← getFieldAmount (tx_object (pf_tx ctx)) sfLimitAmount;
  if negb (isLegalNet saLimitAmount) then Ok (temBAD_AMOUNT : Z) else
  if mIsNative saLimitAmount then Ok (temBAD_LIMIT : Z) else
  if badCurrency =? currency (mIssue saLimitAmount) then Ok (temBAD_CURRENCY : Z) else
  if signum saLimitAmount <? 0 then Ok (temBAD_LIMIT : Z) else
  let issuer := account (mIssue saLimitAmount) in
  if (issuer =? 0) || (issuer =? noAccount) then Ok (temDST_NEEDED : Z) else
  preflight2 ctx).

Definition SetTrust_preclaim (tx : STTx) (flags : Z) : prog Z :=
  id ← liftR (at_field as_account 0 (tx_object tx) sfAccount);
  sle ← read (acct id);
  refused ←
    (if has_flags (tx_flags tx) tfSetfAuth then
       match sle with
       | None => Raise null_pointer
       | Some sle => f ← liftR (getFieldU32 (sle_data sle) sfFlags); mret (negb (has_flags f lsfRequireAuth))
       end
     else mret false);
  if refused : bool then mret (tefNO_AUTH_REQUIRED : Z) else
  saLimitAmount ← liftR (at_field as_amount (ofUnsigned 0) (tx_object tx) sfLimitAmount);
  let uDstAccountID := account (mIssue saLimitAmount) in
  if id =? uDstAccountID then
    sleDelete ← read (keylet_line sha512Half id uDstAccountID (currency (mIssue saLimitAmount)));
    mret (match sleDelete with None => (temDST_IS_SRC : Z) | Some _ => (tesSUCCESS : Z) end)
  else mret (tesSUCCESS : Z).

(** One of the qualities of a line: kept, set or cleared, and the values of both sides
    after, with the default one as 0. *)
Definition set_quality (bHigh asked : bool) (q : Z) (low high : SField) (o : Object) : res (Object * Z * Z) :=
  let mine := if bHigh then high else low in
  o ← (if asked then (if negb (q =? 0) then setFieldU32 o mine q else makeFieldAbsent o mine) else Ok o);
  qlow ← (if asked && negb bHigh then Ok q else getFieldU32 o low);
  qhigh ← (if asked && bHigh then Ok q else getFieldU32 o high);
  let plain (q : Z) := if q =? QUALITY_ONE then 0 else q in
  Ok (o, plain qlow, plain qhigh).

(** The flags of the transaction. *)
Record TrustFlags := mkTrustFlags { tfl_auth : bool; tfl_setNo : bool; tfl_clearNo : bool; tfl_setFreeze : bool; tfl_clearFreeze : bool }.

Definition trust_flags (uTxFlags : Z) : TrustFlags :=
  mkTrustFlags (has_flags uTxFlags tfSetfAuth) (has_flags uTxFlags tfSetNoSupplyFinanceChain) (has_flags uTxFlags tfClearNoSupplyFinanceChain)
    (has_flags uTxFlags tfSetFreeze) (has_flags uTxFlags tfClearFreeze).

Definition line_noflag (bHigh : bool) : Z := if bHigh then lsfHighNoSupplyFinanceChain else lsfLowNoSupplyFinanceChain.
Definition line_freeze (bHigh : bool) : Z := if bHigh then lsfHighFreeze else lsfLowFreeze.

(** The flags of the line for the NoSupplyFinanceChain and freeze settings, or a refusal. *)
Definition line_flags (f : TrustFlags) (bHigh noFreeze : bool) (myBalance : STAmount) (uFlagsIn : Z) : Z + Z :=
  let frozen (u : Z) :=
    if tfl_setFreeze f && negb (tfl_clearFreeze f) && negb noFreeze then Z.lor u (line_freeze bHigh)
    else if tfl_clearFreeze f && negb (tfl_setFreeze f) then without_flag u (line_freeze bHigh) else u in
  if tfl_setNo f && negb (tfl_clearNo f) then
    if 0 <=? signum myBalance then inr (frozen (Z.lor uFlagsIn (line_noflag bHigh)))
    else if enabled info fix1578 then inl (tecNO_PERMISSION : Z) else inr (frozen uFlagsIn)
  else if tfl_clearNo f && negb (tfl_setNo f) then inr (frozen (without_flag uFlagsIn (line_noflag bHigh)))
  else inr (frozen uFlagsIn).

(** A side of the line is not in its default state. *)
Definition reserve_set (uQualityIn uQualityOut uFlags noflag freeze : Z) (def : bool) (limit balance : STAmount) : bool :=
  negb (uQualityIn =? 0) || negb (uQualityOut =? 0) || negb (Bool.eqb (negb (has_flags uFlags noflag)) def) || has_flags uFlags freeze || negb (is_zero limit) || (0 <? signum balance).

(** The reserve of one side follows whether it is set; the flags, and whether the
    side's owner count went up. *)
Definition side_reserve (k : Keylet) (set : bool) (uFlagsIn reserve uFlags : Z) : prog (Z * bool) :=
  let reserved := has_flags uFlagsIn reserve in
  if set && negb reserved then _ ← adjustOwnerCount k 1; mret (Z.lor uFlags reserve, true)
  else if negb set && reserved then _ ← adjustOwnerCount k (-1); mret (without_flag uFlags reserve, false)
  else mret (uFlags, false).

Definition modify_line (ap : Applying) (k : Keylet) (uDst : Z) (bHigh : bool) (state sle sleDst : Object) (saLimitAmount saLimitAllow : STAmount) (bQualityIn bQualityOut : bool)
    (uQualityIn uQualityOut reserveCreate : Z) (f : TrustFlags) : prog Z :=
  let account := account_ ap in
  let low := if bHigh then uDst else account in
  let high := if bHigh then account else uDst in
  saLowBalance ← liftR (getFieldAmount state sfBalance);
  let saHighBalance := op_neg saLowBalance in
  state1 ← liftR (setFieldAmount state (if bHigh then sfHighLimit else sfLowLimit) saLimitAllow);
  saLowLimit ← liftR (if bHigh then getFieldAmount state1 sfLowLimit else Ok saLimitAllow);
  saHighLimit ← liftR (if bHigh then Ok saLimitAllow else getFieldAmount state1 sfHighLimit);
  qin ← liftR (set_quality bHigh bQualityIn uQualityIn sfLowQualityIn sfHighQualityIn state1);
  let '(state2, uLowQualityIn, uHighQualityIn) := qin in
  qout ← liftR (set_quality bHigh bQualityOut uQualityOut sfLowQualityOut sfHighQualityOut state2);
  let '(state3, uLowQualityOut, uHighQualityOut) := qout in
  uFlagsIn ← liftR (getFieldU32 state3 sfFlags);
  match line_flags f bHigh (isFlag sle lsfNoFreeze) (if bHigh then saHighBalance else saLowBalance) uFlagsIn with
  | inl ter => mret ter
  | inr uFlagsOut =>
      let sleLow := if bHigh then sleDst else sle in
      let sleHigh := if bHigh then sle else sleDst in
      let bLowReserveSet := reserve_set uLowQualityIn uLowQualityOut uFlagsOut lsfLowNoSupplyFinanceChain lsfLowFreeze (has_flags (getFlags sleLow) lsfDefaultSupplyFinanceChain) saLowLimit saLowBalance in
      let bHighReserveSet := reserve_set uHighQualityIn uHighQualityOut uFlagsOut lsfHighNoSupplyFinanceChain lsfHighFreeze (has_flags (getFlags sleHigh) lsfDefaultSupplyFinanceChain) saHighLimit saHighBalance in
      let bDefault := negb bLowReserveSet && negb bHighReserveSet in
      let uFlagsOut := if tfl_auth f then Z.lor uFlagsOut (if bHigh then lsfHighAuth else lsfLowAuth) else uFlagsOut in
      r ← side_reserve (acct low) bLowReserveSet uFlagsIn lsfLowReserve uFlagsOut;
      r' ← side_reserve (acct high) bHighReserveSet uFlagsIn lsfHighReserve r.1;
      let uFlagsOut := r'.1 in
      let bReserveIncrease := if bHigh then r'.2 else r.2 in
      let final := fun o =>
        o ← setFieldAmount o (if bHigh then sfHighLimit else sfLowLimit) saLimitAllow;
        q ← set_quality bHigh bQualityIn uQualityIn sfLowQualityIn sfHighQualityIn o;
        q ← set_quality bHigh bQualityOut uQualityOut sfLowQualityOut sfHighQualityOut q.1.1;
        if negb (uFlagsIn =? uFlagsOut) then setFieldU32 q.1.1 sfFlags uFlagsOut else Ok q.1.1 in
      if bDefault || (badCurrency =? currency (mIssue saLimitAmount)) then trustDelete_as sha512Half k low high state final
      else if bReserveIncrease && (mPriorBalance ap <? reserveCreate) then mret (tecINSUF_RESERVE_LINE : Z)
      else (_ ← modify k final; mret (tesSUCCESS : Z))
  end.

Definition SetTrust_doApply (ap : Applying) : prog Z :=
  let tx := tx_object (ap_tx ap) in
  let account := account_ ap in
  saLimitAmount ← liftR (getFieldAmount tx sfLimitAmount);
  let bQualityIn := isFieldPresent tx sfQualityIn in
  let bQualityOut := isFieldPresent tx sfQualityOut in
  let cur := currency (mIssue saLimitAmount) in
  let uDstAccountID := STAmount.account (mIssue saLimitAmount) in
  let bHigh := uDstAccountID <? account in
  sle ← peek_object (acct account);
  uOwnerCount ← liftR (getFieldU32 sle sfOwnerCount);
  let reserveCreate := if uOwnerCount <? 2 then 0 else reserve_for info (uOwnerCount + 1) in
  uQualityIn ← (if bQualityIn then liftR (getFieldU32 tx sfQualityIn) else mret 0);
  uQualityOut ← (if bQualityOut then liftR (getFieldU32 tx sfQualityOut) else mret 0);
  let uQualityOut := if bQualityOut && (QUALITY_ONE =? uQualityOut) then 0 else uQualityOut in
  let f := trust_flags (tx_flags (ap_tx ap)) in
  let k := keylet_line sha512Half account uDstAccountID cur in
  if account =? uDstAccountID then
    sleDelete ← peek_object k; trustDelete_as sha512Half k account uDstAccountID sleDelete Ok
  else
  sleDst ← peek (acct uDstAccountID);
  match sleDst with
  | None => mret (tecNO_DST : Z)
  | Some sleDst =>
      let saLimitAllow := setIssuer saLimitAmount account in
      state ← peek k;
      match state with
      | Some state => modify_line ap k uDstAccountID bHigh (sle_data state) sle (sle_data sleDst) saLimitAmount saLimitAllow bQualityIn bQualityOut uQualityIn uQualityOut reserveCreate f
      | None =>
          if is_zero saLimitAmount && (negb bQualityIn || (uQualityIn =? 0)) && (negb bQualityOut || (uQualityOut =? 0)) && (negb (enabled info featureTrustSetAuth) || negb (tfl_auth f))
          then mret (tecNO_LINE_REDUNDANT : Z)
          else if mPriorBalance ap <? reserveCreate then mret (tecNO_LINE_INSUF_RESERVE : Z)
          else
            saBalance ← liftR (zeroOf (mkIssue cur noAccount));
            trustCreate sha512Half info bHigh account uDstAccountID (kl_key k) account (tfl_auth f) (tfl_setNo f && negb (tfl_clearNo f)) (tfl_setFreeze f && negb (tfl_clearFreeze f))
              saBalance saLimitAllow uQualityIn uQualityOut
      end
  end.

Definition SetTrust : TxClass := plain_class info SetTrust_preflight SetTrust_preclaim SetTrust_doApply.
End Trust.

(** ** What holds of it *)

Section Facts.
Context (sha512Half : list Z -> Z) (info : ViewInfo).

Abbreviation Tline := [ltDIR_NODE; ltACCOUNT_ROOT; ltSUPPLYFINANCECHAIN_STATE].

Lemma writes_quality bHigh asked q low high f : field_ok low -> field_ok high -> getCode low ∈ getCode <$> line_fields -> getCode high ∈ getCode <$> line_fields ->
  (forall r, writes line_fields (f r)) -> writes line_fields (fun o => r ← set_quality bHigh asked q low high o; f r r.1.1).
Proof.
  intros Hl Hh Il Ih Hf o o' Ho Hfree (r & Hr & E)%bind_Ok_inv. unfold set_quality in Hr. apply bind_Ok_inv in Hr as (o1 & Ho1 & Hr). apply bind_Ok_inv in Hr as (ql & _ & Hr). apply bind_Ok_inv in Hr as (qh & _ & [= <-]).
  cbn [fst] in E. assert (Hev : evolves line_fields o o1).
  { revert Ho1. destruct asked; [|intros [= <-]; by apply evolves_refl]. destruct (negb (q =? 0)), bHigh; intros E1; first [eapply (writes_set line_fields) in E1 | eapply (writes_absent line_fields) in E1]; done. }
  eapply evolves_trans; [exact Hev|]. eapply Hf; [apply Hev|by rewrite (evolves_free _ _ _ Hev)|exact E].
Qed.

Lemma writes_final_line bHigh bIn bOut qin qout limit fin fout : writes line_fields (fun o =>
  o ← setFieldAmount o (if bHigh then sfHighLimit else sfLowLimit) limit;
  q ← set_quality bHigh bIn qin sfLowQualityIn sfHighQualityIn o;
  q ← set_quality bHigh bOut qout sfLowQualityOut sfHighQualityOut q.1.1;
  if negb (fin =? fout) then setFieldU32 q.1.1 sfFlags fout else Ok q.1.1).
Proof.
  apply writes_bind; [destruct bHigh; writes_tac|].
  apply (writes_quality bHigh bIn qin sfLowQualityIn sfHighQualityIn (fun _ o => q ← set_quality bHigh bOut qout sfLowQualityOut sfHighQualityOut o; if negb (fin =? fout) then setFieldU32 q.1.1 sfFlags fout else Ok q.1.1));
    [field_ok_tac|field_ok_tac|refine (bool_decide_unpack _ _); vm_compute; exact I|refine (bool_decide_unpack _ _); vm_compute; exact I|intros _].
  apply (writes_quality bHigh bOut qout sfLowQualityOut sfHighQualityOut (fun _ o => if negb (fin =? fout) then setFieldU32 o sfFlags fout else Ok o));
    [field_ok_tac|field_ok_tac|refine (bool_decide_unpack _ _); vm_compute; exact I|refine (bool_decide_unpack _ _); vm_compute; exact I|intros _]. writes_tac.
Qed.

Lemma neutral_side_reserve id set fin reserve flags : neutral Tline (side_reserve (keylet_account sha512Half id) set fin reserve flags).
Proof. unfold side_reserve. cbv zeta. neutral_tac. Qed.

Lemma neutral_modify_line ap a c uDst bHigh state sle sleDst limit allow bIn bOut qin qout create f :
  neutral Tline (modify_line sha512Half info ap (keylet_line sha512Half a uDst c) uDst bHigh state sle sleDst limit allow bIn bOut qin qout create f).
Proof.
  unfold modify_line. cbv zeta. apply neutral_lift_bind. intros low _. apply neutral_lift_bind. intros s1 _. apply neutral_lift_bind. intros ll _. apply neutral_lift_bind. intros hl _.
  apply neutral_lift_bind. intros [[s2 li] hi] _. apply neutral_lift_bind. intros [[s3 lo] ho] _. apply neutral_lift_bind. intros fin _. destruct (line_flags _ _ _ _ _ _) as [ter|fout]; [apply neutral_ret|].
  apply neutral_bind; [destruct bHigh; apply neutral_side_reserve|intros r]. apply neutral_bind; [destruct bHigh; apply neutral_side_reserve|intros r'].
  destruct (_ || _); [apply neutral_trustDelete; [done|set_solver|set_solver|apply writes_final_line]|]. destruct (_ && _); [apply neutral_ret|].
  apply neutral_bind; [apply neutral_line; [done|set_solver|apply writes_final_line]|intros _; apply neutral_ret].
Qed.

Lemma neutral_SetTrust ap : neutral Tline (SetTrust_doApply sha512Half info ap).
Proof.
  unfold SetTrust_doApply. cbv zeta. neutral_tac.
  all: first [apply neutral_modify_line | apply neutral_trustCreate | apply neutral_trustDelete; [done|set_solver|set_solver|apply writes_ret] ].
Qed.

Lemma checks_SetTrust : common_checks (SetTrust sha512Half info).
Proof. unfold SetTrust, SetTrust_preflight. class_checks. Qed.

(** The currency that is kept from standing for SFC is the one whose code is [XRP]. *)
Lemma bad_currency_is_xrp : badCurrency = from_bytes [88; 82; 80; 0; 0; 0; 0; 0] /\ badCurrency <> from_bytes [83; 70; 67; 0; 0; 0; 0; 0].
Proof. by vm_compute. Qed.
End Facts.
