(* ===== verification/Conditions.v ===== *)
(** * Crypto-conditions

    Models conditions/impl/utils.h, conditions/impl/PreimageSha256.h,
    conditions/Condition.h, conditions/impl/Condition.cpp and
    conditions/impl/Fulfillment.cpp, and [checkCondition] of app/tx/impl/Escrow.cpp: the
    decoding of conditions and of fulfillments, of which only preimages are supported,
    and their matching. SHA-256 is a parameter. *)

From S2P Require Import Prelude Serializer.

Inductive cc_error :=
| unsupported_type | unknown_type | fingerprint_size | incorrect_encoding | trailing_garbage | buffer_empty | buffer_overfull | buffer_underfull
| malformed_encoding | short_preamble | unexpected_tag | long_tag | large_size | preimage_too_long.

(** A result, or the error code. *)
Abbreviation cc A := (cc_error + A)%type.
Definition cc_bind {A B} (f : A -> cc B) (r : cc A) : cc B := match r with inl e => inl e | inr a => f a end.
#[local] Notation "'let!' x := r 'in' e" := (cc_bind (fun x => e) r) (at level 200, x pattern, right associativity).

(** ** [der] *)

Record Preamble := mkPreamble { p_type : Z; p_tag : Z; p_length : Z }.

Definition isPrimitive (p : Preamble) : bool := Z.land (p_type p) 32 =? 0.
Definition isConstructed (p : Preamble) : bool := negb (isPrimitive p).
Definition isContextSpecific (p : Preamble) : bool := Z.land (p_type p) 192 =? 128.

Definition slice_size (s : list Z) : Z := Z.of_nat (length s).

Definition parsePreamble (s : list Z) : cc (Preamble * list Z) :=
  match s with
  | b0 :: b1 :: s =>
      let type := Z.land b0 224 in
      let tag := Z.land b0 31 in
      if tag =? 31 then inl long_tag else
      if negb (Z.land b1 128 =? 0) then
        let cnt := Z.land b1 127 in
        if cnt =? 0 then inl malformed_encoding else
        if 8 <? cnt then inl large_size else
        if slice_size s <? cnt then inl short_preamble else
        let len := from_bytes (take (Z.to_nat cnt) s) in
        if len =? 0 then inl malformed_encoding else
        inr (mkPreamble type tag len, drop (Z.to_nat cnt) s)
      else inr (mkPreamble type tag b1, s)
  | _ => inl short_preamble
  end.

(** The count is narrowed to 32 bits by the call. *)
Definition parseOctetString (s : list Z) (count : Z) : cc (list Z * list Z) :=
  let count := u32 count in
  if slice_size s <? count then inl buffer_underfull else
  if 65535 <? count then inl large_size else
  inr (take (Z.to_nat count) s, drop (Z.to_nat count) s).

(** [parseInteger<std::uint32_t>]. *)
Definition parseInteger32 (s : list Z) (count : Z) : cc (Z * list Z) :=
  match s with
  | [] => inl malformed_encoding
  | b :: _ =>
      if slice_size s <? count then inl buffer_underfull else
      if 5 <? count then inl large_size else
      if negb (Z.land b 128 =? 0) then inl malformed_encoding else
      if (count =? 5) && negb (b =? 0) then inl malformed_encoding else
      inr (u32 (from_bytes (take (Z.to_nat count) s)), drop (Z.to_nat count) s)
  end.

(** ** Conditions *)

Definition fingerprintSize : Z := 32.
Definition maxPreimageLength : Z := 128.
Definition maxSerializedCondition : Z := 128.
Definition maxSerializedFulfillment : Z := 256.

(** The supported type, [preimageSha256], with no subtypes. *)
Record Condition := mkCondition { c_cost : Z; c_fingerprint : list Z }.

#[export] Instance Condition_eq_dec : EqDecision Condition.
Proof. solve_decision. Defined.

Definition loadSimpleSha256 (s : list Z) : cc Condition :=
  let! (p, s) := parsePreamble s in
  if negb (isPrimitive p) || negb (isContextSpecific p) then inl incorrect_encoding else
  if negb (p_tag p =? 0) then inl unexpected_tag else
  if negb (p_length p =? fingerprintSize) then inl fingerprint_size else
  let! (b, s) := parseOctetString s (p_length p) in
  let! (p, s) := parsePreamble s in
  if negb (isPrimitive p) || negb (isContextSpecific p) then inl malformed_encoding else
  if negb (p_tag p =? 1) then inl unexpected_tag else
  let! (cost, s) := parseInteger32 s (p_length p) in
  if negb (bool_decide (s = [])) then inl trailing_garbage else
  if maxPreimageLength <? cost then inl preimage_too_long else
  inr (mkCondition cost b).

(** An error of [loadSimpleSha256] is overwritten when the slice is not empty. *)
Definition Condition_deserialize (s : list Z) : cc Condition :=
  if bool_decide (s = []) then inl buffer_empty else
  let! (p, s) := parsePreamble s in
  if negb (isConstructed p) || negb (isContextSpecific p) then inl malformed_encoding else
  if slice_size s <? p_length p then inl buffer_underfull else
  if maxSerializedCondition <? slice_size s then inl large_size else
  if p_tag p =? 0 then
    match loadSimpleSha256 (take (Z.to_nat (p_length p)) s) with
    | inr c => if negb (bool_decide (drop (Z.to_nat (p_length p)) s = [])) then inl trailing_garbage else inr c
    | inl e => if negb (bool_decide (s = [])) then inl trailing_garbage else inl e
    end
  else if p_tag p <=? 4 then inl unsupported_type else inl unknown_type.

(** ** Fulfillments *)

(** [PreimageSha256::deserialize]: the preimage. *)
Definition PreimageSha256_deserialize (s : list Z) : cc (list Z) :=
  let! (p, s) := parsePreamble s in
  if negb (isPrimitive p) || negb (isContextSpecific p) then inl incorrect_encoding else
  if negb (p_tag p =? 0) then inl unexpected_tag else
  if negb (slice_size s =? p_length p) then inl trailing_garbage else
  if maxPreimageLength <? slice_size s then inl preimage_too_long else
  let! (b, s) := parseOctetString s (p_length p) in
  inr b.

Definition Fulfillment_deserialize (s : list Z) : cc (list Z) :=
  if bool_decide (s = []) then inl buffer_empty else
  let! (p, s) := parsePreamble s in
  if negb (isConstructed p) || negb (isContextSpecific p) then inl malformed_encoding else
  if slice_size s <? p_length p then inl buffer_underfull else
  if p_length p <? slice_size s then inl buffer_overfull else
  if maxSerializedFulfillment <? p_length p then inl large_size else
  if p_tag p =? 0 then PreimageSha256_deserialize (take (Z.to_nat (p_length p)) s)
  else if p_tag p <=? 4 then inl unsupported_type else inl unknown_type.

Section Match.
Context (sha256 : list Z -> list Z).

(** [PreimageSha256::condition]. *)
Definition condition_of (payload : list Z) : Condition := mkCondition (slice_size payload) (sha256 payload).

(** [match] and [validate]: the preimage validates any message. *)
Definition cc_validate (payload : list Z) (c : Condition) : bool := bool_decide (c = condition_of payload).

Definition checkCondition (f c : list Z) : bool :=
  match Condition_deserialize c with
  | inl _ => false
  | inr condition => match Fulfillment_deserialize f with inl _ => false | inr payload => cc_validate payload condition end
  end.
End Match.

(** ** The encodings of the RFC *)

(** The length octets, of a length below 256. *)
Definition der_length (n : Z) : list Z := if n <? 128 then [n] else [129; n].
Definition der (id : Z) (content : list Z) : list Z := id :: der_length (slice_size content) ++ content.

Definition encode_fulfillment (payload : list Z) : list Z := der 160 (der 128 payload).
Definition encode_condition (fp : list Z) (cost : Z) : list Z := der 160 (der 128 fp ++ der 129 (if cost <? 128 then [cost] else [0; cost])).

Lemma parsePreamble_der id n rest : 0 <= n < 256 -> Z.land id 31 <> 31 -> parsePreamble (id :: der_length n ++ rest) = inr (mkPreamble (Z.land id 224) (Z.land id 31) n, rest).
Proof.
  intros Hn Hid. unfold der_length. apply Z.eqb_neq in Hid. destruct (Z.ltb_spec n 128) as [Hs|Hl]; cbn [app parsePreamble]; rewrite Hid.
  - assert (Z.land n 128 = 0) as ->; [|done]. change 128 with (2 ^ 7). rewrite Z.land_comm. apply Z.bits_inj'. intros i Hi. rewrite Z.land_spec, Z.bits_0, Z.pow2_bits_eqb by lia.
    destruct (Z.eqb_spec 7 i) as [<-|]; [|done]. apply (Z.testbit_false n 7); [lia|]. rewrite Z.div_small by lia. done.
  - cbn [negb Z.land Z.eqb Pos.land]. change (negb (Z.land 129 128 =? 0)) with true. cbn [app]. change (Z.land 129 127) with 1. change (1 =? 0) with false. change (8 <? 1) with false. cbn match.
    replace (slice_size (n :: rest) <? 1) with false by (symmetry; apply Z.ltb_ge; unfold slice_size; cbn [length]; lia). change (Z.to_nat 1) with 1%nat. cbn [take drop]. rewrite take_0, drop_0.
    change (from_bytes [n]) with n. destruct (Z.eqb_spec n 0); [lia|done].
Qed.

Lemma slice_size_app l k : slice_size (l ++ k) = slice_size l + slice_size k.
Proof. unfold slice_size. rewrite length_app. lia. Qed.

Lemma slice_size_der id c : slice_size (der id c) = 1 + slice_size (der_length (slice_size c)) + slice_size c.
Proof. unfold der. cbn [app]. change (id :: der_length (slice_size c) ++ c) with ([id] ++ der_length (slice_size c) ++ c). rewrite !slice_size_app. change (slice_size [id]) with 1. lia. Qed.

Lemma slice_size_pos l : 0 <= slice_size l.
Proof. unfold slice_size. lia. Qed.

Lemma der_length_size n : 1 <= slice_size (der_length n) <= 2.
Proof. unfold der_length, slice_size. destruct (n <? 128); cbn [length]; lia. Qed.

Lemma parseOctetString_all s rest : slice_size s <= 65535 -> parseOctetString (s ++ rest) (slice_size s) = inr (s, rest).
Proof.
  intros Hs. pose proof (slice_size_pos s). pose proof (slice_size_pos rest). unfold parseOctetString. rewrite u32_small by lia. rewrite slice_size_app. destruct (Z.ltb_spec (slice_size s + slice_size rest) (slice_size s)); [lia|].
  destruct (Z.ltb_spec 65535 (slice_size s)); [lia|]. unfold slice_size. by rewrite Nat2Z.id, take_app_length, drop_app_length.
Qed.

Lemma take_size {A} (l : list A) : take (Z.to_nat (Z.of_nat (length l))) l = l.
Proof. rewrite Nat2Z.id. by apply take_ge. Qed.
Lemma drop_size {A} (l : list A) : drop (Z.to_nat (Z.of_nat (length l))) l = [].
Proof. rewrite Nat2Z.id. by apply drop_ge. Qed.

Lemma fulfillment_decodes payload : slice_size payload <= maxPreimageLength -> Fulfillment_deserialize (encode_fulfillment payload) = inr payload.
Proof.
  intros Hp. unfold maxPreimageLength in Hp. pose proof (slice_size_pos payload). pose proof (der_length_size (slice_size payload)). pose proof (slice_size_der 128 payload) as Hsz. set (inner := der 128 payload) in *.
  unfold Fulfillment_deserialize, encode_fulfillment. rewrite bool_decide_eq_false_2 by done. unfold der at 1. fold inner. rewrite parsePreamble_der by (lia || done). cbn [cc_bind].
  change (negb (isConstructed _) || negb (isContextSpecific _)) with false. cbn [p_length p_tag]. rewrite Z.ltb_irrefl. unfold maxSerializedFulfillment. destruct (Z.ltb_spec 256 (slice_size inner)); [lia|].
  change (Z.land 160 31 =? 0) with true. cbn match. unfold slice_size at 1. rewrite take_size. unfold inner, der, PreimageSha256_deserialize. rewrite parsePreamble_der by (lia || done). cbn [cc_bind].
  change (negb (isPrimitive _) || negb (isContextSpecific _)) with false. cbn [p_length p_tag]. change (negb (Z.land 128 31 =? 0)) with false. rewrite Z.eqb_refl. cbn [negb]. unfold maxPreimageLength.
  destruct (Z.ltb_spec 128 (slice_size payload)); [lia|]. rewrite <-(app_nil_r payload) at 1. by rewrite parseOctetString_all by lia.
Qed.

Lemma condition_decodes fp cost : slice_size fp = fingerprintSize -> 0 <= cost <= maxPreimageLength -> Condition_deserialize (encode_condition fp cost) = inr (mkCondition cost fp).
Proof.
  unfold fingerprintSize, maxPreimageLength. intros Hfp Hc. set (n := if cost <? 128 then [cost] else [0; cost]).
  assert (Hn : slice_size n = (if cost <? 128 then 1 else 2) /\ from_bytes n = cost /\ exists b l, n = b :: l /\ Z.land b 128 = 0).
  { unfold n. destruct (Z.ltb_spec cost 128); [split; [done|]; split; [done|]; exists cost, []; split; [done|]|split; [done|]; split; [change (from_bytes [0; cost]) with (Z.shiftl 0 8 + cost); by rewrite Z.shiftl_0_l|by exists 0, [cost]]].
    replace cost with (cost mod 2 ^ 7) by (apply Z.mod_small; lia). rewrite <-Z.land_ones, <-Z.land_assoc by lia. change (Z.land (Z.ones 7) 128) with 0. apply Z.land_0_r. }
  destruct Hn as (Hn1 & Hn2 & b & l & Hn3 & Hb). set (inner := der 128 fp ++ der 129 n). assert (Hin : 37 <= slice_size inner <= 38).
  { unfold inner. rewrite slice_size_app, !slice_size_der, Hfp, Hn1. change (slice_size (der_length 32)) with 1. destruct (cost <? 128); [change (slice_size (der_length 1)) with 1|change (slice_size (der_length 2)) with 1]; lia. }
  unfold Condition_deserialize, encode_condition. fold n. fold inner. rewrite bool_decide_eq_false_2 by done. unfold der. rewrite parsePreamble_der by (lia || done). cbn [cc_bind].
  change (negb (isConstructed _) || negb (isContextSpecific _)) with false. cbn [p_length p_tag]. rewrite Z.ltb_irrefl. unfold maxSerializedCondition. destruct (Z.ltb_spec 128 (slice_size inner)); [lia|].
  change (Z.land 160 31 =? 0) with true. cbn match. unfold slice_size. rewrite take_size, drop_size. assert (loadSimpleSha256 inner = inr (mkCondition cost fp)) as ->; [|done].
  unfold loadSimpleSha256, inner, der. rewrite <-app_comm_cons, <-app_assoc, parsePreamble_der by (lia || done). cbn [cc_bind]. unfold isPrimitive, isContextSpecific; cbn [p_type]. change (Z.land (Z.land 128 224) 32 =? 0) with true. change (Z.land (Z.land 128 224) 192 =? 128) with true.
  cbn [p_length p_tag negb orb]. change (negb (Z.land 128 31 =? 0)) with false. unfold fingerprintSize. rewrite Hfp. cbn [Z.eqb negb Pos.eqb]. match goal with |- context [parseOctetString (fp ++ ?r) 32] => pose proof (parseOctetString_all fp r) as Ho end. rewrite Hfp in Ho. rewrite Ho by lia. clear Ho. cbn [cc_bind].
  assert (Hn256 : 0 <= slice_size n < 256) by (rewrite Hn1; destruct (cost <? 128); lia). rewrite parsePreamble_der by (lia || done). cbn [cc_bind]. unfold isPrimitive, isContextSpecific; cbn [p_type]. change (Z.land (Z.land 129 224) 32 =? 0) with true. change (Z.land (Z.land 129 224) 192 =? 128) with true. cbn [p_length p_tag negb orb].
  change (negb (Z.land 129 31 =? 1)) with false. cbn match. unfold parseInteger32. rewrite Hn3 at 1. rewrite Z.ltb_irrefl, Hn1, Hb. replace (5 <? (if cost <? 128 then 1 else 2)) with false by (by destruct (cost <? 128)).
  replace ((if cost <? 128 then 1 else 2) =? 5) with false by (by destruct (cost <? 128)). cbn [negb Z.eqb andb]. rewrite <-Hn1. unfold slice_size. rewrite take_size, drop_size, Hn2. cbn [cc_bind].
  rewrite bool_decide_eq_true_2 by done. cbn [negb]. rewrite u32_small by lia. unfold maxPreimageLength. destruct (Z.ltb_spec 128 cost); [lia|done].
Qed.

(** What a fulfillment that decodes carries. *)
Lemma fulfillment_size f payload : Fulfillment_deserialize f = inr payload -> slice_size payload <= maxPreimageLength.
Proof.
  unfold Fulfillment_deserialize. destruct (bool_decide (f = [])); [done|]. destruct (parsePreamble f) as [e|[p s]]; [done|]. cbn [cc_bind]. destruct (_ || _); [done|]. destruct (_ <? _); [done|]. destruct (_ <? _); [done|].
  destruct (_ <? _); [done|]. destruct (p_tag p =? 0); [|by destruct (_ <=? _)]. unfold PreimageSha256_deserialize. generalize (take (Z.to_nat (p_length p)) s). intros s1.
  destruct (parsePreamble s1) as [e|[p1 s2]]; [done|]. cbn [cc_bind]. destruct (_ || _); [done|]. destruct (negb (p_tag p1 =? 0)); [done|]. destruct (negb (slice_size s2 =? p_length p1)) eqn:E; [done|].
  destruct (Z.ltb_spec maxPreimageLength (slice_size s2)) as [|Hm]; [done|]. apply negb_false_iff, Z.eqb_eq in E. rewrite <-E. pose proof (slice_size_pos s2). unfold maxPreimageLength in *.
  rewrite <-(app_nil_r s2) at 1. rewrite parseOctetString_all by lia. cbn [cc_bind]. intros [= <-]. done.
Qed.

(** C25. A condition is met by the preimage of its fingerprint, and by nothing else. For
    a condition as the standard encodes it, with the digest of a preimage of at most 128
    bytes and its length, the encoding of that preimage passes the check; and whatever
    passes the check for a condition with some fingerprint and cost carries a preimage
    of that fingerprint whose length is the cost. *)
Theorem preimage_unlocks sha256 payload fp cost : (forall l, slice_size (sha256 l) = fingerprintSize) -> slice_size fp = fingerprintSize -> 0 <= cost <= maxPreimageLength ->
  (slice_size payload <= maxPreimageLength -> checkCondition sha256 (encode_fulfillment payload) (encode_condition (sha256 payload) (slice_size payload)) = true) /\
  (forall f, checkCondition sha256 f (encode_condition fp cost) = true -> exists p, Fulfillment_deserialize f = inr p /\ sha256 p = fp /\ slice_size p = cost).
Proof.
  intros Hsha Hfp Hc. split.
  - intros Hp. unfold checkCondition. pose proof (slice_size_pos payload). rewrite condition_decodes, fulfillment_decodes by (done || lia). unfold cc_validate. by apply bool_decide_eq_true_2.
  - intros f. unfold checkCondition. rewrite condition_decodes by done. destruct (Fulfillment_deserialize f) as [|p]; [done|]. unfold cc_validate. intros H%bool_decide_eq_true_1. exists p. injection H as -> ->. done.
Qed.

(** A stand-in for the digest. *)
Definition wsha256 (l : list Z) : list Z := big_endian 32 (from_bytes (1 :: l)).

Lemma preimage_unlocks_witness : checkCondition wsha256 (encode_fulfillment [7; 8; 9]) (encode_condition (wsha256 [7; 8; 9]) 3) = true.
Proof.
  refine (proj1 (preimage_unlocks wsha256 [7; 8; 9] (wsha256 [7; 8; 9]) 3 _ _ _) _); [|by vm_compute|done|done]. intros l. unfold wsha256, slice_size, big_endian. by rewrite ?length_map, ?length_rev, ?length_seq.
Defined.

(** The decoder takes lengths that are not in their shortest form: a fulfillment has
    more than one encoding. *)
Lemma fulfillment_malleable : let f := encode_fulfillment [7; 8; 9] in let g := [160; 129; 5; 128; 3; 7; 8; 9] in
  f <> g /\ Fulfillment_deserialize f = inr [7; 8; 9] /\ Fulfillment_deserialize g = inr [7; 8; 9].
Proof. by vm_compute. Qed.
