(* ===== verification/Funds.v ===== *)
(** * Funds held for later

    What the transactors for escrows, payment channels and checks share: amounts and
    other values of fields through [operator[]] and its proxies (protocol/STObject.h),
    the checks of a destination, and the effect on the ledger of a balance that goes up
    or down and of an entry that comes or goes with the SFC it holds. *)

From S2P Require Import Prelude STAmount Serializer Keys SField STObject STAccess View TER Indexes Formats STTx RawStateTable ApplyStateTable Prog.
From S2P Require Import HashRouter LoadFee Invariants Entries TxMeta MetaCommit OwnerDir LedgerView Transactor Engine AccountTx.

(** [STAmount ()]. *)
Definition no_amount : STAmount := ofDrops 0 false.

Definition tx_amount (o : Object) (f : SField) : res STAmount := at_field as_amount no_amount o f.
Definition get_amount (o : Object) (f : SField) : res STAmount := proxy_value as_amount no_amount o f.
Definition set_amount (o : Object) (f : SField) (a : STAmount) : res Object := proxy_assign o f (V_Amount a) (op_eq a no_amount).
Definition set_account (o : Object) (f : SField) (id : Z) : res Object := proxy_assign o f (V_Account false id) (id =? 0).
Definition set_u32 (o : Object) (f : SField) (n : Z) : res Object := proxy_assign o f (V_UInt32 n) (n =? 0).
Definition set_u64 (o : Object) (f : SField) (n : Z) : res Object := proxy_assign o f (V_UInt64 n) (n =? 0).
Definition set_vl (o : Object) (f : SField) (b : list Z) : res Object := proxy_assign o f (V_VL b) (bool_decide (b = [])).
Definition set_opt_u32 (o : Object) (f : SField) (v : option Z) : res Object := proxy_assign_opt o f ((fun n => (V_UInt32 n, n =? 0)) <$> v).
Definition set_opt_vl (o : Object) (f : SField) (v : option (list Z)) : res Object := proxy_assign_opt o f ((fun b => (V_VL b, bool_decide (b = []))) <$> v).

Definition present {A} (v : option A) : bool := match v with Some _ => true | None => false end.

(** A balance changes by an operation on amounts. *)
Definition change_balance (op : STAmount -> res STAmount) (o : Object) : res Object :=
  b ← get_amount o sfBalance; c ← op b; set_amount o sfBalance c.

Section Check.
Context (sha512Half : list Z -> Z) (info : ViewInfo).

(** The destination of an escrow or of a payment channel: it is there, has the tag it
    asks for and, in old ledgers, takes SFC. *)
Definition check_destination (tx : Object) : prog Z :=
  dst ← liftR (at_field as_account 0 tx sfDestination);
  sled ← read (keylet_account sha512Half dst);
  match sled with
  | None => mret (tecNO_DST : Z)
  | Some sled =>
      flags ← liftR (at_field as_u32 0 (sle_data sled) sfFlags);
      tag ← liftR (at_opt as_u32 0 tx sfDestinationTag);
      if has_flags flags lsfRequireDestTag && negb (present tag) then mret (tecDST_TAG_NEEDED : Z) else
      if negb (enabled info featureDepositAuth) && has_flags flags lsfDisallowSFC then mret (tecNO_TARGET : Z) else
      mret (tesSUCCESS : Z)
  end.

(** A destination that asks for authorization has it given: to itself and to those it
    has authorized before. *)
Definition deposit_authorised (by_ dst : Z) (sled : Object) : prog bool :=
  if has_flags (getFlags sled) lsfDepositAuth && negb (by_ =? dst) then exists_at (keylet_depositPreauth sha512Half dst by_) else mret true.
End Check.

(** ** Writes *)

Lemma writes_assign_opt F f v : field_ok f -> getCode f ∈ getCode <$> F -> writes F (fun o => proxy_assign_opt o f v).
Proof. intros Hf Hin. destruct v as [[v e]|]; [by apply writes_assign|by apply writes_disengage]. Qed.

#[export] Hint Resolve writes_assign_opt : writes.

Ltac funds_writes := unfold set_amount, set_account, set_u32, set_u64, set_vl, set_opt_u32, set_opt_vl; writes_tac.

(** A value set through a proxy of a field that has no default. *)
Lemma assign_written o t f st v e o' : object_ok o -> field_ok f -> o_type o = Some t -> style t f = Some st -> st <> soeDEFAULT -> proxy_assign o f v e = Ok o' -> written_to o f v o'.
Proof.
  intros Ho Hf Ht Hst Hnd E. assert (Hfree : isFree o = false) by (unfold isFree; by rewrite Ht). assert (E' : proxy_assign o f v false = Ok o').
  { unfold proxy_assign in *. rewrite (proxy_style_Ok o t f st) in * by done. cbn [mbind res_bind] in *. by destruct st. }
  by destruct (proxy_assign_written _ _ _ _ _ Ho Hf Hfree E') as [Hw|[He _]].
Qed.

Lemma assign_opt_written o t f v o' : object_ok o -> field_ok f -> o_type o = Some t -> style t f = Some soeOPTIONAL -> proxy_assign_opt o f v = Ok o' ->
  written_to o f (match v with Some (v, _) => v | None => V_NotPresent end) o'.
Proof.
  intros Ho Hf Ht Hst. destruct v as [[v e]|]; cbn [proxy_assign_opt]; [by apply (assign_written o t f soeOPTIONAL)|].
  unfold proxy_disengage. rewrite (proxy_style_Ok o t f soeOPTIONAL) by done. cbn [mbind res_bind]. by apply makeFieldAbsent_written.
Qed.

Lemma written_here o f v o' : written_to o f v o' -> peekAtPField o' f = Some v.
Proof. intros (_ & _ & Hp). by rewrite Hp, decide_True. Qed.
Lemma written_off o f v o' g : written_to o f v o' -> getCode g <> getCode f -> peekAtPField o' g = peekAtPField o g.
Proof. intros (_ & _ & Hp) Hg. by rewrite Hp, decide_False. Qed.

(** An amount set through a proxy, in a field that is required. *)
Lemma set_amount_field s f a o n : sle_ok s -> field_ok f -> (forall t, findByType ledger_formats (sle_type s) = Some t -> style t f = Some soeREQUIRED) ->
  set_amount (sle_data s) f a = Ok o -> is_drops a n -> written_to (sle_data s) f (V_Amount a) o /\ amount_field (with_data s o) f n.
Proof.
  intros (t & Ht & Hty & Hob) Hf Hst Ho Ha. assert (Hw : written_to (sle_data s) f (V_Amount a) o) by (eapply (assign_written _ t f soeREQUIRED); [done|done|done|by apply Hst|done|exact Ho]).
  split; [done|]. exists a. split; [by apply (written_here (sle_data s))|done].
Qed.

Lemma get_amount_field s f n a : amount_field s f n -> get_amount (sle_data s) f = Ok a -> is_drops a n.
Proof.
  intros (b & Hp & Hb) Hg. unfold get_amount, proxy_value in Hg. apply bind_Ok_inv in Hg as (st & _ & Hg). rewrite Hp in Hg. cbn in Hg. by injection Hg as <-.
Qed.

(** ** Balances that change *)

Section Balance.
Context (sha512Half : list Z -> Z).
Abbreviation acct := (keylet_account sha512Half).
Abbreviation akey id := (kl_key (keylet_account sha512Half id)).

(** The ledger after an account's balance went up by [n], or down. *)
Definition paid (m m' : gmap Z (SLE Object)) (id n : Z) : Prop :=
  ledger_ok m' /\ same_outside [ltACCOUNT_ROOT] m m' /\ forall j, money m' j = if decide (j = akey id) then money m j + n else money m j.

Lemma change_balance_run op n m d id u m' d' : ledger_ok m -> 0 <= money m (akey id) + n ->
  (forall b c, is_drops b (money m (akey id)) -> op b = Ok c -> is_drops c (money m (akey id) + n)) ->
  run_map (modify (acct id) (change_balance op)) (m, d) = Ok (u, (m', d')) -> paid m m' id n /\ d' = d.
Proof.
  intros Hm Hn Hop Hr. apply run_modify_inv in Hr as (s & o & Hs & Ho & [= -> ->]). split; [|done]. destruct (account_balance sha512Half m id s Hm Hs) as (a & p & Hp & Hd & H0 & Hmo & Hok & Ht).
  destruct (shown_type m (acct id) s eq_refl Hs) as [Hl _]. destruct (Hm _ _ Hl) as (Hk & _). unfold change_balance in Ho. apply bind_Ok_inv in Ho as (b & Hb & Ho). apply bind_Ok_inv in Ho as (c & Hc & Ho).
  assert (Hbd : is_drops b p) by (eapply get_amount_field; [|exact Hb]; by exists a). rewrite Hmo in *.
  destruct (set_amount_field s sfBalance c o (p + n) Hok) as [Hw Hf]; [field_ok_tac|intros t E; rewrite Ht in E; by injection E as <-|done|by eapply Hop|].
  split; [|split].
  - apply ledger_ok_insert; [done|done| |].
    + eapply (sle_ok_evolves [sfBalance]); [done|]. eapply written_evolves; [exact Hw|left].
    + split_and!; cbn [sle_type with_data]; intros Hty; [by exists (p + n)|by rewrite Ht in Hty..].
  - apply same_outside_insert; [cbn; rewrite Ht; set_solver|]. intros s0 Hs0. pose proof (eq_trans (eq_sym Hl) Hs0) as [= <-]. rewrite Ht. set_solver.
  - intros j. rewrite money_insert. change (getAccountRootIndex sha512Half id) with (akey id). case_decide as E; [|done]. subst j. rewrite Hmo. by apply account_money.
Qed.

Lemma credit_run a n m d id u m' d' : ledger_ok m -> is_drops a n -> 0 <= money m (akey id) + n <= cMaxNativeN ->
  run_map (modify (acct id) (change_balance (fun b => op_add b a))) (m, d) = Ok (u, (m', d')) -> paid m m' id n /\ d' = d.
Proof.
  intros Hm Ha Hn. apply change_balance_run; [done|lia|]. intros b c Hb Hc. pose proof (drops_range _ _ Hb). destruct (op_add_drops b a _ n Hb Ha) as (c' & Hc' & Hd); [lia|]. congruence.
Qed.

Lemma debit_run a n m d id u m' d' : ledger_ok m -> is_drops a n -> 0 <= n <= money m (akey id) ->
  run_map (modify (acct id) (change_balance (fun b => op_sub b a))) (m, d) = Ok (u, (m', d')) -> paid m m' id (- n) /\ d' = d.
Proof.
  intros Hm Ha Hn. apply change_balance_run; [done|lia|]. intros b c Hb Hc. pose proof (drops_range _ _ Hb). destruct (op_sub_drops b a _ n Hb Ha) as (c' & Hc' & Hd); [lia|].
  rewrite Z.add_opp_r. congruence.
Qed.
End Balance.

(** ** Entries that come and go *)

(** A new entry that holds [n] drops. *)
Lemma insert_new_run F k f n m d u m' d' : ledger_ok m -> writes F f -> concrete (kl_type k) = true ->
  (forall s, sle_ok s -> sle_type s = kl_type k -> (exists s0, make_SLE k = Ok s0 /\ f (sle_data s0) = Ok (sle_data s)) -> money_ok s /\ entry_v s = n) ->
  run_map (insert_new k f) (m, d) = Ok (u, (m', d')) ->
  ledger_ok m' /\ (forall j, money m' j = if decide (j = kl_key k) then n else money m j) /\ m !! kl_key k = None /\ same_outside [kl_type k] m m' /\ d' = d /\
  exists s s0, shown m' k = Some s /\ make_SLE k = Ok s0 /\ f (sle_data s0) = Ok (sle_data s).
Proof.
  intros Hm Hf Hc Hs Hr. unfold insert_new in Hr. apply run_bind_inv in Hr as (s & m1 & d1 & [Hn [= -> ->]]%run_lift_inv & Hr). apply run_insert_inv in Hr as [Hl [= -> ->]].
  destruct (new_sle_inv F k f s Hf Hn) as (Hok & Ht & Hk & s0 & E0 & E1). destruct (Hs s Hok Ht) as [Hmo Hv]; [by exists s0|]. rewrite Hk in *. split_and!; [|..|done|].
  - by apply ledger_ok_insert.
  - intros j. rewrite money_insert. by case_decide.
  - done.
  - apply same_outside_insert; [set_solver|]. intros s' E. by rewrite Hl in E.
  - exists s, s0. split; [|done]. apply shown_Some. rewrite lookup_insert_eq. split; [done|]. unfold check. rewrite Ht, Z.eqb_refl. unfold concrete in Hc. rewrite negb_true_iff, !orb_false_iff in Hc. by destruct Hc as [[-> ->] ->].
Qed.

Lemma erase_run k m d u m' d' : ledger_ok m -> concrete (kl_type k) = true -> run_map (erase_sle k) (m, d) = Ok (u, (m', d')) ->
  ledger_ok m' /\ m' !! kl_key k = None /\ (forall j, money m' j = if decide (j = kl_key k) then 0 else money m j) /\ same_outside [kl_type k] m m' /\ d' = d.
Proof.
  intros Hm Hc (s & Hs & [= -> ->])%run_erase_inv. destruct (shown_type m k s Hc Hs) as [Hl Ht]. split_and!; [by apply ledger_ok_delete|apply lookup_delete_eq|intros j; apply money_delete| |done].
  apply same_outside_delete. intros s0 E. rewrite Hl in E. injection E as <-. rewrite Ht. set_solver.
Qed.

(** Keys of entries of different types that are there differ. *)
Lemma shown_keys m k1 k2 s1 s2 : concrete (kl_type k1) = true -> concrete (kl_type k2) = true -> shown m k1 = Some s1 -> shown m k2 = Some s2 -> kl_type k1 <> kl_type k2 -> kl_key k1 <> kl_key k2.
Proof. intros H1 H2 E1 E2 Ht Hk. destruct (shown_type _ _ _ H1 E1) as [L1 T1]. destruct (shown_type _ _ _ H2 E2) as [L2 T2]. rewrite Hk, L2 in L1. injection L1 as ->. congruence. Qed.
