(* ===== verification/Escrow.v ===== *)
(** * Escrows

    Models Escrow.cpp of app/tx/impl: SFC is set aside until a time has passed or a
    condition is met, and can be taken back after another time. *)

From S2P Require Import Prelude STAmount Serializer Keys SField STObject STAccess View TER Indexes Formats STTx RawStateTable ApplyStateTable Prog.
From S2P Require Import HashRouter LoadFee Invariants Entries TxMeta MetaCommit OwnerDir LedgerView Transactor Engine AccountTx Conditions Funds.

(** A time strictly after another. *)
Definition after (now mark : Z) : bool := mark <? now.

Definition SF_CF_INVALID : Z := 4096.
Definition SF_CF_VALID : Z := 8192.

Section Escrow.
Context (sha512Half : list Z -> Z) (sha256 : list Z -> list Z) (info : ViewInfo) (router : Z -> Z).

Abbreviation acct := (keylet_account sha512Half).
Abbreviation ownerDir := (keylet_ownerDir sha512Half).

(** ** [EscrowCreate] *)

(** Of the conditions that decode, none is of a type that needs an amendment. *)
Definition EscrowCreate_preflight (ctx : PreflightContext) : res Z :=
  let tx := tx_object (pf_tx ctx) in
  if negb (pf_rules ctx featureEscrow) then Ok (temDISABLED : Z) else
  if pf_rules ctx fix1543 && has_flags (tx_flags (pf_tx ctx)) tfUniversalMask then Ok (temINVALID_FLAG : Z) else
  unless_tes (preflight1 ctx) (
  amount ← tx_amount tx sfAmount;
  if negb (isSFC (currency (mIssue amount))) then Ok (temBAD_AMOUNT : Z) else
  if signum amount <=? 0 then Ok (temBAD_AMOUNT : Z) else
  cancelAfter ← at_opt as_u32 0 tx sfCancelAfter;
  finishAfter ← at_opt as_u32 0 tx sfFinishAfter;
  if negb (present cancelAfter) && negb (present finishAfter) then Ok (temBAD_EXPIRATION : Z) else
  if match cancelAfter, finishAfter with Some c, Some f => c <=? f | _, _ => false end then Ok (temBAD_EXPIRATION : Z) else
  cb ← at_opt as_vl [] tx sfCondition;
  if pf_rules ctx fix1571 && negb (present finishAfter) && negb (present cb) then Ok (temMALFORMED : Z) else
  if match cb with Some c => match Condition_deserialize c with inl _ => true | inr _ => false end | None => false end then Ok (temMALFORMED : Z) else
  preflight2 ctx).

(** The times of the transaction are over. *)
Definition escrow_over (tx : Object) : res bool :=
  let closeTime := parentCloseTime info in
  let over (t : option Z) := match t with Some t => if enabled info fix1571 then after closeTime t else t <=? closeTime | None => false end in
  cancelAfter ← at_opt as_u32 0 tx sfCancelAfter;
  if over cancelAfter then Ok true else
  finishAfter ← at_opt as_u32 0 tx sfFinishAfter;
  Ok (over finishAfter).

(** Reserve and funds: [tesSUCCESS] when there is enough of both. *)
Definition escrow_funds (sle tx : Object) : res Z :=
  balance ← (a ← get_amount sle sfBalance; sfc a);
  count ← proxy_value as_u32 0 sle sfOwnerCount;
  let reserve := reserve_for info (count + 1) in
  if balance <? reserve then Ok (tecINSUFFICIENT_RESERVE : Z) else
  drops ← (a ← tx_amount tx sfAmount; sfc a);
  if balance <? i64 (reserve + drops) then Ok (tecUNFUNDED : Z) else Ok (tesSUCCESS : Z).

Definition new_escrow (tx : Object) (account : Z) (o : Object) : res Object :=
  amount ← tx_amount tx sfAmount;
  o ← set_amount o sfAmount amount;
  o ← set_account o sfAccount account;
  condition ← at_opt as_vl [] tx sfCondition;
  o ← set_opt_vl o sfCondition condition;
  sourceTag ← at_opt as_u32 0 tx sfSourceTag;
  o ← set_opt_u32 o sfSourceTag sourceTag;
  dst ← at_field as_account 0 tx sfDestination;
  o ← set_account o sfDestination dst;
  cancelAfter ← at_opt as_u32 0 tx sfCancelAfter;
  o ← set_opt_u32 o sfCancelAfter cancelAfter;
  finishAfter ← at_opt as_u32 0 tx sfFinishAfter;
  o ← set_opt_u32 o sfFinishAfter finishAfter;
  destinationTag ← at_opt as_u32 0 tx sfDestinationTag;
  set_opt_u32 o sfDestinationTag destinationTag.

(** The entry goes in a directory, and keeps the page: whether there was room. *)
Definition file_entry (k : Keylet) (id : Z) (node : SField) : prog bool :=
  page ← dirAdd_at sha512Half info (ownerDir id) (kl_key k) false (describeOwnerDir id);
  match page with
  | None => mret false
  | Some page => _ ← modify k (fun o => set_u64 o node page); mret true
  end.

Definition EscrowCreate_doApply (ap : Applying) : prog Z :=
  let tx := tx_object (ap_tx ap) in
  over ← liftR (escrow_over tx);
  if over : bool then mret (tecNO_PERMISSION : Z) else
  account ← liftR (at_field as_account 0 tx sfAccount);
  sle ← peek_object (acct account);
  ter ← liftR (escrow_funds sle tx);
  if negb (ter =? tesSUCCESS) then mret ter else
  ter ← check_destination sha512Half info tx;
  if negb (ter =? tesSUCCESS) then mret ter else
  seq ← liftR (proxy_value as_u32 0 sle sfSequence);
  let k := keylet_escrow sha512Half account (u32 (seq - 1)) in
  _ ← insert_new k (new_escrow tx account);
  filed ← file_entry k account sfOwnerNode;
  if negb filed then mret (tecDIR_FULL : Z) else
  dest ← liftR (at_field as_account 0 tx sfDestination);
  filed ← (if enabled info fix1523 && negb (dest =? account) then file_entry k dest sfDestinationNode else mret true);
  if negb filed then mret (tecDIR_FULL : Z) else
  amount ← liftR (tx_amount tx sfAmount);
  _ ← modify (acct account) (change_balance (fun b => op_sub b amount));
  _ ← adjustOwnerCount (acct account) 1;
  mret (tesSUCCESS : Z).

Definition EscrowCreate : TxClass :=
  mkClass EscrowCreate_preflight (calculateBaseFee info) no_preclaim (fun a => ter ← EscrowCreate_doApply a; mret (ter, None)) (fun _ => Ok false)
    (fun tx => a ← tx_amount (tx_object tx) sfAmount; sfc a).

(** ** [EscrowFinish] *)

(** The verdict on the condition is worked out at the end, for later. *)
Definition EscrowFinish_preflight (ctx : PreflightContext) : res Z :=
  let tx := tx_object (pf_tx ctx) in
  if negb (pf_rules ctx featureEscrow) then Ok (temDISABLED : Z) else
  if pf_rules ctx fix1543 && has_flags (tx_flags (pf_tx ctx)) tfUniversalMask then Ok (temINVALID_FLAG : Z) else
  unless_tes (preflight1 ctx) (
  cb ← at_opt as_vl [] tx sfCondition;
  fb ← at_opt as_vl [] tx sfFulfillment;
  if negb (Bool.eqb (present cb) (present fb)) then Ok (temMALFORMED : Z) else
  unless_tes (preflight2 ctx) (Ok (tesSUCCESS : Z))).

(** The flags that preflight leaves at the router for the transaction. *)
Definition preflight_flags (flags : Z) (cb fb : option (list Z)) : Z :=
  match cb, fb with
  | Some c, Some f =>
      if negb (has_flags flags (Z.lor SF_CF_INVALID SF_CF_VALID)) then Z.lor flags (if checkCondition sha256 f c then SF_CF_VALID else SF_CF_INVALID) else flags
  | _, _ => flags
  end.

Definition EscrowFinish_calculateBaseFee (tx : STTx) : prog Z :=
  fb ← liftR (at_opt as_vl [] (tx_object tx) sfFulfillment);
  let extraFee := match fb with Some f => u64 (fees_units (fees info) * (32 + Z.of_nat (length f) / 16)) | None => 0 end in
  base ← calculateBaseFee info tx;
  mret (u64 (base + extraFee)).

(** It is too soon, or too late, to finish an escrow. *)
Definition finish_refused (slep : Object) : res bool :=
  let now := parentCloseTime info in
  finishAfter ← optional_value as_u32 0 slep sfFinishAfter;
  cancelAfter ← optional_value as_u32 0 slep sfCancelAfter;
  if enabled info fix1571 then
    Ok (match finishAfter with Some t => negb (after now t) | None => false end || match cancelAfter with Some t => after now t | None => false end)
  else
    Ok (match finishAfter with Some t => now <=? t | None => false end || match cancelAfter with Some t => now <=? t | None => false end).

(** The verdict on the condition, worked out here if the router has lost it; none when
    there is no fulfillment to work it out from. *)
Definition condition_flags (flags : Z) (cb fb : option (list Z)) : option Z :=
  match cb with
  | Some c =>
      if negb (has_flags flags (Z.lor SF_CF_INVALID SF_CF_VALID)) then
        match fb with Some f => Some (if checkCondition sha256 f c then SF_CF_VALID else SF_CF_INVALID) | None => None end
      else Some flags
  | None => Some flags
  end.

(** The fulfillment against the condition of the entry. *)
Definition check_fulfillment (flags : Z) (cb fb cond : option (list Z)) : Z :=
  match condition_flags flags cb fb with
  | None => tecINTERNAL
  | Some flags =>
      if has_flags flags SF_CF_INVALID then tecCRYPTOCONDITION_ERROR else
      if negb (present cond) && present cb then tecCRYPTOCONDITION_ERROR else
      if present cond && negb (bool_decide (cond = cb)) then tecCRYPTOCONDITION_ERROR else tesSUCCESS
  end.

(** The entry leaves the directories it is in. *)
Definition unfile_escrow (k : Keylet) (slep : Object) (account : Z) (destination : res Z) : prog bool :=
  page ← liftR (proxy_value as_u64 0 slep sfOwnerNode);
  removed ← view_dirRemove sha512Half (ownerDir account) page (kl_key k) true;
  if negb removed then mret false else
  page ← liftR (optional_value as_u64 0 slep sfDestinationNode);
  match page with
  | Some page => if enabled info fix1523 then (dst ← liftR destination; view_dirRemove sha512Half (ownerDir dst) page (kl_key k) true) else mret true
  | None => mret true
  end.

Definition EscrowFinish_doApply (ap : Applying) : prog Z :=
  let tx := tx_object (ap_tx ap) in
  owner ← liftR (at_field as_account 0 tx sfOwner);
  seq ← liftR (at_field as_u32 0 tx sfOfferSequence);
  let k := keylet_escrow sha512Half owner seq in
  slep ← peek k;
  match slep with
  | None => mret (tecNO_TARGET : Z)
  | Some slep =>
      let slep := sle_data slep in
      refused ← liftR (finish_refused slep);
      if refused : bool then mret (tecNO_PERMISSION : Z) else
      cb ← liftR (at_opt as_vl [] tx sfCondition);
      fb ← liftR (at_opt as_vl [] tx sfFulfillment);
      cond ← liftR (optional_value as_vl [] slep sfCondition);
      let ter := check_fulfillment (router (tid_ (ap_tx ap))) cb fb cond in
      if negb (ter =? tesSUCCESS) then mret ter else
      destID ← liftR (proxy_value as_account 0 slep sfDestination);
      sled ← peek (acct destID);
      match sled with
      | None => mret (tecNO_DST : Z)
      | Some sled =>
          allowed ← (if enabled info featureDepositAuth then deposit_authorised sha512Half (account_ ap) destID (sle_data sled) else mret true);
          if negb allowed then mret (tecNO_PERMISSION : Z) else
          account ← liftR (proxy_value as_account 0 slep sfAccount);
          removed ← unfile_escrow k slep account (Ok destID);
          if negb removed then mret (tefBAD_LEDGER : Z) else
          amount ← liftR (get_amount slep sfAmount);
          _ ← modify (acct destID) (change_balance (fun b => op_add b amount));
          _ ← adjustOwnerCount (acct account) (-1);
          _ ← erase_sle k;
          mret (tesSUCCESS : Z)
      end
  end.

Definition EscrowFinish : TxClass :=
  mkClass EscrowFinish_preflight EscrowFinish_calculateBaseFee no_preclaim (fun a => ter ← EscrowFinish_doApply a; mret (ter, None)) (fun _ => Ok false) (fun _ => Ok 0).

(** ** [EscrowCancel] *)

Definition EscrowCancel_preflight (ctx : PreflightContext) : res Z :=
  if negb (pf_rules ctx featureEscrow) then Ok (temDISABLED : Z) else
  if pf_rules ctx fix1543 && has_flags (tx_flags (pf_tx ctx)) tfUniversalMask then Ok (temINVALID_FLAG : Z) else
  unless_tes (preflight1 ctx) (preflight2 ctx).

Definition EscrowCancel_doApply (ap : Applying) : prog Z :=
  let tx := tx_object (ap_tx ap) in
  owner ← liftR (at_field as_account 0 tx sfOwner);
  seq ← liftR (at_field as_u32 0 tx sfOfferSequence);
  let k := keylet_escrow sha512Half owner seq in
  slep ← peek k;
  match slep with
  | None => mret (tecNO_TARGET : Z)
  | Some slep =>
      let slep := sle_data slep in
      cancelAfter ← liftR (optional_value as_u32 0 slep sfCancelAfter);
      let now := parentCloseTime info in
      if match cancelAfter with Some t => if enabled info fix1571 then negb (after now t) else now <=? t | None => true end then mret (tecNO_PERMISSION : Z) else
      account ← liftR (proxy_value as_account 0 slep sfAccount);
      removed ← unfile_escrow k slep account (proxy_value as_account 0 slep sfDestination);
      if negb removed then mret (tefBAD_LEDGER : Z) else
      amount ← liftR (get_amount slep sfAmount);
      _ ← modify (acct account) (change_balance (fun b => op_add b amount));
      _ ← adjustOwnerCount (acct account) (-1);
      _ ← erase_sle k;
      mret (tesSUCCESS : Z)
  end.

Definition EscrowCancel : TxClass := plain_class info EscrowCancel_preflight no_preclaim EscrowCancel_doApply.
End Escrow.

(** ** What holds of them *)

Section Steps.
Context (sha512Half : list Z -> Z) (sha256 : list Z -> list Z) (info : ViewInfo) (router : Z -> Z).

Abbreviation acct := (keylet_account sha512Half).
Abbreviation akey id := (kl_key (keylet_account sha512Half id)).

Lemma check_destination_same tx m d r m' d' : run_map (check_destination sha512Half info tx) (m, d) = Ok (r, (m', d')) -> m' = m /\ d' = d.
Proof.
  intros Hr. unfold check_destination in Hr. run_step Hr. run_step Hr. destruct (shown m (acct x)) as [sled|]; [|by apply run_ret_inv in Hr as [_ [= -> ->]]].
  run_step Hr. run_step Hr. destruct (_ && _) in Hr; [by apply run_ret_inv in Hr as [_ [= -> ->]]|]. destruct (_ && _) in Hr; by apply run_ret_inv in Hr as [_ [= -> ->]].
Qed.

Lemma deposit_authorised_same by_ dst sled m d r m' d' : run_map (deposit_authorised sha512Half by_ dst sled) (m, d) = Ok (r, (m', d')) -> m' = m /\ d' = d.
Proof.
  unfold deposit_authorised. destruct (_ && _); [|by intros [_ [= -> ->]]%run_ret_inv]. unfold exists_at. intros Hr. run_step Hr. by apply run_ret_inv in Hr as [_ [= -> ->]].
Qed.

(** The entry is filed, and only the page is written into it. *)
Lemma file_entry_run k id node m d b m' d' e : ledger_ok m -> concrete (kl_type k) = true -> kl_type k <> ltDIR_NODE -> field_ok node -> quiet [node] -> shown m k = Some e ->
  run_map (file_entry sha512Half info k id node) (m, d) = Ok (b, (m', d')) ->
  ledger_ok m' /\ same_money m m' /\ same_outside [ltDIR_NODE; kl_type k] m m' /\ d' = d /\ exists e', shown m' k = Some e' /\ evolves [node] (sle_data e) (sle_data e').
Proof using sha512Half info.
  clear sha256 router. intros Hm Hc Hk Hf Hq He Hr. unfold file_entry in Hr. apply run_bind_inv in Hr as (page & m1 & d1 & Hd & Hr).
  destruct (neutral_dirAdd_at sha512Half info (keylet_ownerDir sha512Half id) _ false _ eq_refl (writes_describeOwnerDir id) _ _ _ _ _ Hm Hd) as (Hm1 & S1 & O1 & ->).
  assert (He1 : shown m1 k = Some e) by (by rewrite (shown_outside [ltDIR_NODE] m m1) by (done || set_solver)). destruct (sle_ok_templated e) as [Hob Hfree]; [by apply (shown_type m k e Hc) in He as [Hl _]; apply (Hm _ _ Hl)|].
  assert (O1' : same_outside [ltDIR_NODE; kl_type k] m m1) by (intros j s Hs; apply O1; set_solver).
  destruct page as [page|]; [|apply run_ret_inv in Hr as [_ [= -> ->]]; split_and!; [done|done|done|done|]; exists e; split; [done|by apply evolves_refl]].
  apply run_bind_inv in Hr as (u & m2 & d2 & Hmod & Hr). apply run_ret_inv in Hr as [_ [= -> ->]]. assert (Hw : writes [node] (fun o => set_u64 o node page)) by (apply writes_assign; [done|left]).
  assert (Hn : neutral [kl_type k] (modify k (fun o => set_u64 o node page))) by (apply (neutral_modify _ [node]); [done|set_solver|by right|done]).
  destruct (Hn _ _ _ _ _ Hm1 Hmod) as (Hm2 & S2 & O2 & ->). apply run_modify_inv in Hmod as (s & o & Hs & Ho & [= ->]). rewrite He1 in Hs. injection Hs as <-.
  split_and!; [done|by etransitivity| |done|].
  - eapply same_outside_trans; [exact O1'|]. intros j s Hs. apply O2. set_solver.
  - exists (with_data e o). split; [by apply shown_modified|]. by apply Hw.
Qed.

Lemma unfile_neutral k slep account dst : neutral [ltDIR_NODE] (unfile_escrow sha512Half info k slep account dst).
Proof. unfold unfile_escrow. neutral_tac. Qed.

(** ** Creation *)

(** What an escrow says: the amount, and the terms of the transaction. *)
Definition escrow_terms (tx : Object) (account : Z) (e : Object) : Prop :=
  (exists a, tx_amount tx sfAmount = Ok a /\ peekAtPField e sfAmount = Some (V_Amount a)) /\ peekAtPField e sfAccount = Some (V_Account false account) /\
  (exists dst, at_field as_account 0 tx sfDestination = Ok dst /\ peekAtPField e sfDestination = Some (V_Account false dst)) /\
  at_opt as_vl [] tx sfCondition = Ok (peekAtPField e sfCondition ≫= as_vl) /\
  at_opt as_u32 0 tx sfCancelAfter = Ok (peekAtPField e sfCancelAfter ≫= as_u32) /\ at_opt as_u32 0 tx sfFinishAfter = Ok (peekAtPField e sfFinishAfter ≫= as_u32).

Definition term_fields : list SField := [sfAmount; sfAccount; sfDestination; sfCondition; sfCancelAfter; sfFinishAfter].

Lemma escrow_terms_evolve F tx account e e' : evolves F e e' -> Forall (fun f => getCode f ∉ getCode <$> F) term_fields -> escrow_terms tx account e -> escrow_terms tx account e'.
Proof.
  intros (_ & _ & Hp) HF. rewrite Forall_forall in HF. assert (P : forall f, f ∈ term_fields -> peekAtPField e' f = peekAtPField e f) by (intros f Hf; by apply Hp, HF).
  unfold escrow_terms. by rewrite !P by (unfold term_fields; set_solver).
Qed.

Abbreviation escrow_template := (default [] (findByType ledger_formats ltESCROW)).

Lemma new_escrow_terms tx account o o' : object_ok o -> o_type o = Some escrow_template -> new_escrow tx account o = Ok o' -> escrow_terms tx account o'.
Proof.
  intros Ho Ht Hn. unfold new_escrow in Hn. apply bind_Ok_inv in Hn as (a & Ha & Hn). apply bind_Ok_inv in Hn as (o1 & W1 & Hn). apply (assign_written o escrow_template sfAmount soeREQUIRED) in W1; [|done|field_ok_tac|done|done|done].
  apply bind_Ok_inv in Hn as (o2 & W2 & Hn). apply (assign_written o1 escrow_template sfAccount soeREQUIRED) in W2; [|apply W1|field_ok_tac|by rewrite (proj1 (proj2 W1))|done|done].
  apply bind_Ok_inv in Hn as (c & Hc & Hn). apply bind_Ok_inv in Hn as (o3 & W3 & Hn). assert (T2 : o_type o2 = Some escrow_template) by (by rewrite (proj1 (proj2 W2)), (proj1 (proj2 W1))).
  apply (assign_opt_written o2 escrow_template sfCondition) in W3; [|apply W2|field_ok_tac|done|done].
  apply bind_Ok_inv in Hn as (st & Hst & Hn). apply bind_Ok_inv in Hn as (o4 & W4 & Hn). assert (T3 : o_type o3 = Some escrow_template) by (by rewrite (proj1 (proj2 W3))).
  apply (assign_opt_written o3 escrow_template sfSourceTag) in W4; [|apply W3|field_ok_tac|done|done].
  apply bind_Ok_inv in Hn as (dst & Hdst & Hn). apply bind_Ok_inv in Hn as (o5 & W5 & Hn). assert (T4 : o_type o4 = Some escrow_template) by (by rewrite (proj1 (proj2 W4))).
  apply (assign_written o4 escrow_template sfDestination soeREQUIRED) in W5; [|apply W4|field_ok_tac|done|done|done].
  apply bind_Ok_inv in Hn as (ca & Hca & Hn). apply bind_Ok_inv in Hn as (o6 & W6 & Hn). assert (T5 : o_type o5 = Some escrow_template) by (by rewrite (proj1 (proj2 W5))).
  apply (assign_opt_written o5 escrow_template sfCancelAfter) in W6; [|apply W5|field_ok_tac|done|done].
  apply bind_Ok_inv in Hn as (fa & Hfa & Hn). apply bind_Ok_inv in Hn as (o7 & W7 & Hn). assert (T6 : o_type o6 = Some escrow_template) by (by rewrite (proj1 (proj2 W6))).
  apply (assign_opt_written o6 escrow_template sfFinishAfter) in W7; [|apply W6|field_ok_tac|done|done].
  apply bind_Ok_inv in Hn as (dt & Hdt & W8). assert (T7 : o_type o7 = Some escrow_template) by (by rewrite (proj1 (proj2 W7))).
  apply (assign_opt_written o7 escrow_template sfDestinationTag) in W8; [|apply W7|field_ok_tac|done|done].
  unfold escrow_terms. assert (Off : forall g, getCode g <> getCode sfDestinationTag -> peekAtPField o' g = peekAtPField o7 g) by (intros g Hg; by eapply written_off). rewrite !Off by done.
  rewrite (written_here _ _ _ _ W7), !(written_off _ _ _ _ _ W7) by done. rewrite (written_here _ _ _ _ W6), !(written_off _ _ _ _ _ W6) by done. rewrite (written_here _ _ _ _ W5), !(written_off _ _ _ _ _ W5) by done.
  rewrite !(written_off _ _ _ _ _ W4) by done. rewrite (written_here _ _ _ _ W3), !(written_off _ _ _ _ _ W3) by done. rewrite (written_here _ _ _ _ W2), !(written_off _ _ _ _ _ W2), (written_here _ _ _ _ W1) by done.
  split_and!; [by exists a|done|by exists dst|rewrite Hc; by destruct c|rewrite Hca; by destruct ca|rewrite Hfa; by destruct fa].
Qed.

Lemma writes_new_escrow tx account : writes [sfAmount; sfAccount; sfCondition; sfSourceTag; sfDestination; sfCancelAfter; sfFinishAfter; sfDestinationTag] (new_escrow tx account).
Proof. unfold new_escrow. funds_writes. Qed.

(** The entry holds the amount. *)
Lemma new_escrow_money tx account a n s k : kl_type k = ltESCROW -> tx_amount tx sfAmount = Ok a -> is_drops a n -> 0 <= n -> sle_type s = kl_type k ->
  (exists s0, make_SLE k = Ok s0 /\ new_escrow tx account (sle_data s0) = Ok (sle_data s)) -> escrow_terms tx account (sle_data s) /\ money_ok s /\ entry_v s = n.
Proof.
  intros Hk Ha Hd Hn Ht (s0 & E0 & E1). destruct (make_SLE_inv k s0 E0) as ((t & Hft & Hty & Hob) & Ht0 & _). rewrite Hk in *. rewrite Ht0 in Hft. injection Hft as <-.
  pose proof (new_escrow_terms tx account _ _ Hob Hty E1) as Hterms. split; [done|]. destruct Hterms as ((a' & Ha' & Hp) & _). rewrite Ha in Ha'. injection Ha' as <-.
  assert (Hf : amount_field s sfAmount n) by (by exists a). split; [|by apply escrow_money]. split_and!; intros Hty'; [by rewrite Ht in Hty'..|by exists n].
Qed.

(** Reserves are amounts of SFC. *)
Definition sane_fees (f : Fees) : Prop := forall c, 0 <= c < 2 ^ 32 -> 0 <= fees_reserve f + c * fees_increment f <= cMaxNativeN.

Lemma reserve_sane c : sane_fees (fees info) -> 0 <= reserve_for info c <= cMaxNativeN.
Proof.
  intros Hf. unfold reserve_for, accountReserve. specialize (Hf (u32 c) (Z.mod_pos_bound c (2 ^ 32) eq_refl)). rewrite i64_small; [done|]. unfold cMaxNativeN in *. lia.
Qed.

Lemma escrow_funds_spec s tx a n p : sane_fees (fees info) -> amount_field s sfBalance p -> tx_amount tx sfAmount = Ok a -> is_drops a n -> 0 <= n ->
  escrow_funds info (sle_data s) tx = Ok (tesSUCCESS : Z) -> exists count, proxy_value as_u32 0 (sle_data s) sfOwnerCount = Ok count /\ reserve_for info (count + 1) + n <= p.
Proof.
  intros Hfees Hb Ha Hd Hn E. unfold escrow_funds in E. apply bind_Ok_inv in E as (bal & Hbal & E). apply bind_Ok_inv in Hbal as (b & Hgb & Hsb). pose proof (get_amount_field s sfBalance p b Hb Hgb) as Hbd.
  rewrite (sfc_drops b p Hbd) in Hsb. injection Hsb as <-. apply bind_Ok_inv in E as (count & Hc & E). exists count. split; [done|]. destruct (_ <? _) in E; [done|]. rewrite Ha in E. cbn [mbind res_bind] in E.
  rewrite (sfc_drops a n Hd) in E. cbn [mbind res_bind] in E. pose proof (reserve_sane (count + 1) Hfees). pose proof (drops_range _ _ Hd). rewrite i64_small in E by (unfold cMaxNativeN in *; lia).
  destruct (Z.ltb_spec p (reserve_for info (count + 1) + n)); [done|lia].
Qed.

(** What a successful creation does. *)
Definition escrow_created (tx : Object) (n : Z) (m m' : gmap Z (SLE Object)) : Prop :=
  exists account s seq count e, let k := keylet_escrow sha512Half account (u32 (seq - 1)) in
    at_field as_account 0 tx sfAccount = Ok account /\ shown m (acct account) = Some s /\ proxy_value as_u32 0 (sle_data s) sfSequence = Ok seq /\ proxy_value as_u32 0 (sle_data s) sfOwnerCount = Ok count /\
    m !! kl_key k = None /\ shown m' k = Some e /\ escrow_terms tx account (sle_data e) /\ moved m m' (akey account) (kl_key k) n /\ reserve_for info (count + 1) <= money m' (akey account).

(** The steps after the checks. *)
Lemma create_steps ap account s seq m d m1 d1 m2 d2 m3 d3 m4 d4 u1 u4 b2 b3 dest a n p :
  let tx := tx_object (ap_tx ap) in let k := keylet_escrow sha512Half account (u32 (seq - 1)) in
  ledger_ok m -> tx_amount tx sfAmount = Ok a -> is_drops a n -> 0 <= n <= p -> shown m (acct account) = Some s -> money m (akey account) = p ->
  run_map (insert_new k (new_escrow tx account)) (m, d) = Ok (u1, (m1, d1)) ->
  run_map (file_entry sha512Half info k account sfOwnerNode) (m1, d1) = Ok (b2, (m2, d2)) ->
  run_map (if enabled info fix1523 && negb (dest =? account) then file_entry sha512Half info k dest sfDestinationNode else mret true) (m2, d2) = Ok (b3, (m3, d3)) ->
  run_map (modify (acct account) (change_balance (fun b => op_sub b a))) (m3, d3) = Ok (u4, (m4, d4)) ->
  ledger_ok m4 /\ m !! kl_key k = None /\ moved m m4 (akey account) (kl_key k) n /\ d4 = d /\ exists e, shown m4 k = Some e /\ escrow_terms tx account (sle_data e).
Proof.
  intros tx k Hm Ha Hd Hn Hs Hp R1 R2 R3 R4. assert (Hnew : forall s1, sle_type s1 = kl_type k -> (exists s0, make_SLE k = Ok s0 /\ new_escrow tx account (sle_data s0) = Ok (sle_data s1)) ->
    escrow_terms tx account (sle_data s1) /\ money_ok s1 /\ entry_v s1 = n) by (intros s1 H1 H2; apply (new_escrow_money tx account a n s1 k); [done|done|done|lia|done|done]).
  destruct (insert_new_run _ k _ n m d u1 m1 d1 Hm (writes_new_escrow tx account) eq_refl) as (Hm1 & M1 & Hnone & O1 & -> & e1 & s0 & He1 & Hs0 & Hf0); [intros; by apply Hnew|done|].
  assert (T1 : escrow_terms tx account (sle_data e1)) by (eapply Hnew; [by apply (shown_type m1 k e1 eq_refl)|by exists s0]).
  destruct (file_entry_run k account sfOwnerNode m1 d b2 m2 d2 e1 Hm1 eq_refl) as (Hm2 & S2 & O2 & -> & e2 & He2 & V2); [done|field_ok_tac|quiet_tac|done|done|].
  assert (T2 : escrow_terms tx account (sle_data e2)) by (eapply escrow_terms_evolve; [exact V2|refine (bool_decide_unpack _ _); vm_compute; exact I|done]).
  assert (H3 : ledger_ok m3 /\ same_money m2 m3 /\ same_outside [ltDIR_NODE; ltESCROW] m2 m3 /\ d3 = d /\ exists e3, shown m3 k = Some e3 /\ escrow_terms tx account (sle_data e3)).
  { destruct (_ && _) in R3; [|apply run_ret_inv in R3 as [_ [= -> ->]]; split_and!; try done; by exists e2].
    destruct (file_entry_run k dest sfDestinationNode m2 d b3 m3 d3 e2 Hm2 eq_refl) as (Hm3 & S3 & O3 & -> & e3 & He3 & V3); [done|field_ok_tac|quiet_tac|done|done|].
    split_and!; try done. exists e3. split; [done|]. eapply escrow_terms_evolve; [exact V3|refine (bool_decide_unpack _ _); vm_compute; exact I|done]. }
  destruct H3 as (Hm3 & S3 & O3 & -> & e3 & He3 & T3). assert (Hne : akey account <> kl_key k). { intros E. destruct (shown_type m (acct account) s eq_refl Hs) as [Hl _]. rewrite E, Hnone in Hl. done. }
  assert (HM3 : forall j, money m3 j = if decide (j = kl_key k) then n else money m j) by (intros j; by rewrite S3, S2, M1).
  destruct (debit_run sha512Half a n m3 d account u4 m4 d4 Hm3 Hd) as [(Hm4 & O4 & M4) ->]; [rewrite HM3, decide_False by done; lia|done|].
  split_and!; [done|done| |done|exists e3; split; [by rewrite (shown_outside [ltACCOUNT_ROOT] m3 m4) by (done || set_solver)|done]].
  intros j. rewrite M4, HM3. repeat case_decide; subst; try done; try lia. unfold money. rewrite Hnone. cbn. lia.
Qed.

Lemma create_run ap m d m' d' a n : ledger_ok m -> sane_fees (fees info) -> tx_amount (tx_object (ap_tx ap)) sfAmount = Ok a -> is_drops a n -> 0 <= n ->
  run_map (EscrowCreate_doApply sha512Half info ap) (m, d) = Ok ((tesSUCCESS : Z), (m', d')) -> ledger_ok m' /\ escrow_created (tx_object (ap_tx ap)) n m m' /\ d' = d.
Proof.
  intros Hm Hfees Ha Hd Hn Hr. unfold EscrowCreate_doApply in Hr. cbv zeta in Hr. run_step Hr. destruct x; [apply run_ret_inv in Hr as [Hr _]; discriminate Hr|].
  apply run_bind_inv in Hr as (account & m0 & d0 & [Hacc [= -> ->]]%run_lift_inv & Hr). apply run_bind_inv in Hr as (o & m0 & d0 & (s & Hs & -> & [= -> ->])%run_peek_object_inv & Hr).
  apply run_bind_inv in Hr as (ter & m0 & d0 & [Hfunds [= -> ->]]%run_lift_inv & Hr). destruct (Z.eqb_spec ter tesSUCCESS) as [->|Hne]; [|apply run_ret_inv in Hr as [Hr _]; congruence]. cbn [negb] in Hr.
  destruct (account_balance sha512Half m account s Hm Hs) as (b & p & Hpk & Hbd & Hp0 & Hmo & _). destruct (escrow_funds_spec s (tx_object (ap_tx ap)) a n p Hfees) as (count & Hcount & Hle); [by exists b|done..|].
  apply run_bind_inv in Hr as (ter & m0 & d0 & Hdst & Hr). apply check_destination_same in Hdst as [-> ->]. destruct (Z.eqb_spec ter tesSUCCESS) as [_|Hne]; [|apply run_ret_inv in Hr as [Hr _]; congruence]. cbn [negb] in Hr.
  apply run_bind_inv in Hr as (seq & m0 & d0 & [Hseq [= -> ->]]%run_lift_inv & Hr). apply run_bind_inv in Hr as (u1 & m1 & d1 & R1 & Hr). apply run_bind_inv in Hr as (b2 & m2 & d2 & R2 & Hr).
  destruct b2; [|apply run_ret_inv in Hr as [Hr _]; discriminate Hr]. cbn [negb] in Hr. apply run_bind_inv in Hr as (dest & m0 & d0 & [Hdest [= -> ->]]%run_lift_inv & Hr). apply run_bind_inv in Hr as (b3 & m3 & d3 & R3 & Hr).
  destruct b3; [|apply run_ret_inv in Hr as [Hr _]; discriminate Hr]. cbn [negb] in Hr. rewrite Ha in Hr. apply run_bind_inv in Hr as (a' & m0 & d0 & [[= <-] [= -> ->]]%run_lift_inv & Hr).
  apply run_bind_inv in Hr as (u4 & m4 & d4 & R4 & Hr). apply run_bind_inv in Hr as (u5 & m5 & d5 & R5 & Hr). apply run_ret_inv in Hr as [_ [= -> ->]]. pose proof (reserve_sane (count + 1) Hfees).
  destruct (create_steps ap account s seq m d m1 d1 m2 d2 m3 d3 m4 d4 u1 u4 true true dest a n p) as (Hm4 & Hnone & Hmv & -> & e & He & Hterms); try done; [lia|].
  assert (Hn5 : neutral [ltACCOUNT_ROOT] (adjustOwnerCount (acct account) 1)) by (apply neutral_ownerCount; set_solver). destruct (Hn5 _ _ _ _ _ Hm4 R5) as (Hm5 & S5 & O5 & ->).
  split; [done|]. split; [|done]. exists account, s, seq, count, e. split_and!; try done; [by rewrite (shown_outside [ltACCOUNT_ROOT] m4 m5) by (done || set_solver)|intros j; rewrite S5; apply Hmv|].
  rewrite S5, Hmv, decide_True, Hmo by done. lia.
Qed.

(** ** Release *)

(** An escrow goes to an account. *)
Lemma release_run k e account dst payee m d b1 m1 d1 u2 m2 d2 u3 m3 d3 u4 m4 d4 a : kl_type k = ltESCROW -> ledger_ok m -> total_drops m <= cMaxNativeN -> shown m k = Some e ->
  get_amount (sle_data e) sfAmount = Ok a ->
  run_map (unfile_escrow sha512Half info k (sle_data e) account dst) (m, d) = Ok (b1, (m1, d1)) ->
  run_map (modify (acct payee) (change_balance (fun b => op_add b a))) (m1, d1) = Ok (u2, (m2, d2)) ->
  run_map (adjustOwnerCount (acct account) (-1)) (m2, d2) = Ok (u3, (m3, d3)) ->
  run_map (erase_sle k) (m3, d3) = Ok (u4, (m4, d4)) ->
  ledger_ok m4 /\ m4 !! kl_key k = None /\ (exists n, amount_field e sfAmount n /\ moved m m4 (kl_key k) (akey payee) n) /\ total_drops m4 = total_drops m /\ d4 = d.
Proof.
  intros Hk Hm Htot He Ha R1 R2 R3 R4. assert (Hc : concrete (kl_type k) = true) by (by rewrite Hk). destruct (shown_type m k e Hc He) as [Hl Ht]. destruct (Hm _ _ Hl) as (_ & _ & _ & _ & Hmo).
  destruct (Hmo ltac:(congruence)) as (n & Hf & Hn). assert (HMk : money m (kl_key k) = n) by (unfold money; rewrite Hl; apply escrow_money; congruence).
  destruct (unfile_neutral k (sle_data e) account dst _ _ _ _ _ Hm R1) as (Hm1 & S1 & O1 & ->).
  assert (He1 : shown m1 k = Some e) by (rewrite (shown_outside [ltDIR_NODE] m m1) by (done || rewrite ?Hk; set_solver); done).
  assert (Hne : akey payee <> kl_key k). { apply run_modify_inv in R2 as (s & _ & Hs & _). eapply (shown_keys m1); [|exact Hc|exact Hs|exact He1|by rewrite Hk]; done. }
  pose proof (money_two m _ _ Hm Hne) as H2. rewrite HMk in H2. destruct (credit_run sha512Half a n m1 d payee u2 m2 d2 Hm1) as [(Hm2 & O2 & M2) ->]; [by eapply get_amount_field|rewrite S1; pose proof (money_nonneg m (akey payee) Hm); lia|done|].
  assert (Hn3 : neutral [ltACCOUNT_ROOT] (adjustOwnerCount (acct account) (-1))) by (apply neutral_ownerCount; set_solver). destruct (Hn3 _ _ _ _ _ Hm2 R3) as (Hm3 & S3 & O3 & ->).
  destruct (erase_run k m3 d u4 m4 d4 Hm3 Hc R4) as (Hm4 & Hnone & M4 & _ & ->). assert (Hmv : moved m m4 (kl_key k) (akey payee) n) by (intros j; rewrite M4, S3, M2, S1; repeat case_decide; subst; try done; lia).
  split_and!; [done|done|by exists n|eapply moved_total; [|exact Hmv]; congruence|done].
Qed.

(** The flags of the router tell the truth about the condition. *)
Definition cf_sound (flags : Z) (cb fb : option (list Z)) : Prop :=
  forall c, cb = Some c -> has_flags flags (Z.lor SF_CF_INVALID SF_CF_VALID) = true -> has_flags flags SF_CF_INVALID = false -> exists f, fb = Some f /\ checkCondition sha256 f c = true.

Lemma has_flags_lor flags b : b <> 0 -> has_flags (Z.lor flags b) b = true.
Proof.
  intros Hb. unfold has_flags. assert (E : Z.land (Z.lor flags b) b = b) by (apply Z.bits_inj'; intros i Hi; rewrite Z.land_spec, Z.lor_spec; by destruct (Z.testbit flags i), (Z.testbit b i)).
  rewrite E. by apply negb_true_iff, Z.eqb_neq.
Qed.

(** Preflight and application leave true flags, and so does the loss of the entry. *)
Lemma preflight_flags_sound flags cb fb : cf_sound flags cb fb -> cf_sound (preflight_flags sha256 flags cb fb) cb fb.
Proof.
  intros Hs. unfold preflight_flags. destruct cb as [c|], fb as [f|]; try done. destruct (negb _); [|done]. intros c' [= <-] _ Hi. exists f. split; [done|]. destruct (checkCondition sha256 f c); [done|].
  by rewrite has_flags_lor in Hi.
Qed.

Lemma condition_flags_sound flags flags' cb fb : cf_sound flags cb fb -> condition_flags sha256 flags cb fb = Some flags' -> cf_sound flags' cb fb.
Proof.
  intros Hs. unfold condition_flags. destruct cb as [c|]; [|by intros [= <-]]. destruct (negb _); [|by intros [= <-]]. destruct fb as [f|]; [|done]. intros [= <-] c' [= <-] _ Hi. exists f. split; [done|].
  by destruct (checkCondition sha256 f c).
Qed.

Lemma no_flags_sound cb fb : cf_sound 0 cb fb.
Proof. intros c _ Hf. done. Qed.

Lemma check_fulfillment_spec flags cb fb cond : cf_sound flags cb fb -> check_fulfillment sha256 flags cb fb cond = tesSUCCESS ->
  cb = cond /\ forall c, cond = Some c -> exists f, fb = Some f /\ checkCondition sha256 f c = true.
Proof.
  intros Hs. unfold check_fulfillment. destruct (condition_flags sha256 flags cb fb) as [flags'|] eqn:Ec; [|done]. pose proof (condition_flags_sound _ _ _ _ Hs Ec) as Hs'.
  destruct (has_flags flags' SF_CF_INVALID) eqn:Hi; [done|]. destruct cond as [c|], cb as [c'|]; cbn [present negb andb]; try done. 
  destruct (bool_decide (Some c = Some c')) eqn:Hb; [|done]. apply bool_decide_eq_true in Hb as [= <-]. intros _. split; [done|]. intros c0 [= <-]. apply Hs'; [done| |done].
  unfold condition_flags in Ec. destruct (has_flags flags (Z.lor SF_CF_INVALID SF_CF_VALID)) eqn:Hd; cbn [negb] in Ec; [by injection Ec as <-|]. destruct fb as [f|]; [|done]. injection Ec as <-. by destruct (checkCondition sha256 f c).
Qed.

(** When a finish is let through: after the finish time; and, once [fix1571] is enabled,
    not after the cancel time. Before it the cancel time had to be past as well. *)
Definition in_time (e : Object) : Prop :=
  (forall t, optional_value as_u32 0 e sfFinishAfter = Ok (Some t) -> t < parentCloseTime info) /\
  (forall t, optional_value as_u32 0 e sfCancelAfter = Ok (Some t) -> if enabled info fix1571 then parentCloseTime info <= t else t < parentCloseTime info).

Lemma finish_refused_spec e : finish_refused info e = Ok false -> in_time e.
Proof.
  intros E. unfold finish_refused in E. apply bind_Ok_inv in E as (fa & Hfa & E). apply bind_Ok_inv in E as (ca & Hca & E). unfold in_time, after in *. rewrite Hfa, Hca.
  destruct (enabled info fix1571); injection E as [E1 E2]%orb_false_iff; split; intros t [= ->].
  - apply negb_false_iff, Z.ltb_lt in E1. lia.
  - apply Z.ltb_ge in E2. lia.
  - apply Z.leb_gt in E1. lia.
  - apply Z.leb_gt in E2. lia.
Qed.

(** What a successful finish does. *)
Definition escrow_finished (tx : Object) (m m' : gmap Z (SLE Object)) : Prop :=
  exists owner seq e dst n, let k := keylet_escrow sha512Half owner seq in
    at_field as_account 0 tx sfOwner = Ok owner /\ at_field as_u32 0 tx sfOfferSequence = Ok seq /\ shown m k = Some e /\ amount_field e sfAmount n /\ proxy_value as_account 0 (sle_data e) sfDestination = Ok dst /\
    in_time (sle_data e) /\ (forall c, optional_value as_vl [] (sle_data e) sfCondition = Ok (Some c) -> exists f, at_opt as_vl [] tx sfFulfillment = Ok (Some f) /\ checkCondition sha256 f c = true) /\
    m' !! kl_key k = None /\ moved m m' (kl_key k) (akey dst) n.

Definition tx_cf_sound (tx : STTx) : Prop := forall cb fb, at_opt as_vl [] (tx_object tx) sfCondition = Ok cb -> at_opt as_vl [] (tx_object tx) sfFulfillment = Ok fb -> cf_sound (router (tid_ tx)) cb fb.

Lemma finish_run ap m d m' d' : ledger_ok m -> total_drops m <= cMaxNativeN -> tx_cf_sound (ap_tx ap) ->
  run_map (EscrowFinish_doApply sha512Half sha256 info router ap) (m, d) = Ok ((tesSUCCESS : Z), (m', d')) -> ledger_ok m' /\ escrow_finished (tx_object (ap_tx ap)) m m' /\ total_drops m' = total_drops m /\ d' = d.
Proof.
  intros Hm Htot Hcf Hr. unfold EscrowFinish_doApply in Hr. cbv zeta in Hr. apply run_bind_inv in Hr as (owner & m0 & d0 & [Hown [= -> ->]]%run_lift_inv & Hr).
  apply run_bind_inv in Hr as (seq & m0 & d0 & [Hseq [= -> ->]]%run_lift_inv & Hr). run_step Hr. set (k := keylet_escrow sha512Half owner seq) in *.
  destruct (shown m k) as [e|] eqn:He; [|apply run_ret_inv in Hr as [Hr _]; discriminate Hr]. apply run_bind_inv in Hr as (ref & m0 & d0 & [Href [= -> ->]]%run_lift_inv & Hr).
  destruct ref; [apply run_ret_inv in Hr as [Hr _]; discriminate Hr|]. apply run_bind_inv in Hr as (cb & m0 & d0 & [Hcb [= -> ->]]%run_lift_inv & Hr). apply run_bind_inv in Hr as (fb & m0 & d0 & [Hfb [= -> ->]]%run_lift_inv & Hr).
  apply run_bind_inv in Hr as (cond & m0 & d0 & [Hcond [= -> ->]]%run_lift_inv & Hr). destruct (Z.eqb_spec (check_fulfillment sha256 (router (tid_ (ap_tx ap))) cb fb cond) tesSUCCESS) as [Hok|Hne]; [|apply run_ret_inv in Hr as [Hr _]; congruence].
  cbn [negb] in Hr. destruct (check_fulfillment_spec _ _ _ _ (Hcf cb fb Hcb Hfb) Hok) as [_ Hful]. apply run_bind_inv in Hr as (dst & m0 & d0 & [Hdst [= -> ->]]%run_lift_inv & Hr). run_step Hr.
  destruct (shown m (acct dst)) as [sled|]; [|apply run_ret_inv in Hr as [Hr _]; discriminate Hr]. apply run_bind_inv in Hr as (al & m0 & d0 & Hal & Hr).
  assert (m0 = m /\ d0 = d) as [-> ->] by (destruct (enabled info featureDepositAuth); [by apply deposit_authorised_same in Hal|by apply run_ret_inv in Hal as [_ [= -> ->]]]).
  destruct al; [|apply run_ret_inv in Hr as [Hr _]; discriminate Hr]. cbn [negb] in Hr. apply run_bind_inv in Hr as (account & m0 & d0 & [Hacc [= -> ->]]%run_lift_inv & Hr).
  apply run_bind_inv in Hr as (b1 & m1 & d1 & R1 & Hr). destruct b1; [|apply run_ret_inv in Hr as [Hr _]; discriminate Hr]. cbn [negb] in Hr. apply run_bind_inv in Hr as (a & m0 & d0 & [Ha [= -> ->]]%run_lift_inv & Hr).
  apply run_bind_inv in Hr as (u2 & m2 & d2 & R2 & Hr). apply run_bind_inv in Hr as (u3 & m3 & d3 & R3 & Hr). apply run_bind_inv in Hr as (u4 & m4 & d4 & R4 & Hr). apply run_ret_inv in Hr as [_ [= -> ->]].
  destruct (release_run k e account (Ok dst) dst m d true m1 d1 u2 m2 d2 u3 m3 d3 u4 m4 d4 a) as (Hm4 & Hnone & (n & Hn & Hmv) & Ht4 & ->); try done. split; [done|]. split; [|done].
  exists owner, seq, e, dst, n. split_and!; try done; [by apply finish_refused_spec|]. intros c Hc. rewrite Hcond in Hc. injection Hc as ->. destruct (Hful c eq_refl) as (f & -> & Hchk). by exists f.
Qed.

(** What a successful cancel does. *)
Definition escrow_cancelled (tx : Object) (m m' : gmap Z (SLE Object)) : Prop :=
  exists owner seq e account t n, let k := keylet_escrow sha512Half owner seq in
    at_field as_account 0 tx sfOwner = Ok owner /\ at_field as_u32 0 tx sfOfferSequence = Ok seq /\ shown m k = Some e /\ amount_field e sfAmount n /\ proxy_value as_account 0 (sle_data e) sfAccount = Ok account /\
    optional_value as_u32 0 (sle_data e) sfCancelAfter = Ok (Some t) /\ t < parentCloseTime info /\ m' !! kl_key k = None /\ moved m m' (kl_key k) (akey account) n.

Lemma cancel_run ap m d m' d' : ledger_ok m -> total_drops m <= cMaxNativeN ->
  run_map (EscrowCancel_doApply sha512Half info ap) (m, d) = Ok ((tesSUCCESS : Z), (m', d')) -> ledger_ok m' /\ escrow_cancelled (tx_object (ap_tx ap)) m m' /\ total_drops m' = total_drops m /\ d' = d.
Proof.
  intros Hm Htot Hr. unfold EscrowCancel_doApply in Hr. cbv zeta in Hr. apply run_bind_inv in Hr as (owner & m0 & d0 & [Hown [= -> ->]]%run_lift_inv & Hr).
  apply run_bind_inv in Hr as (seq & m0 & d0 & [Hseq [= -> ->]]%run_lift_inv & Hr). run_step Hr. set (k := keylet_escrow sha512Half owner seq) in *.
  destruct (shown m k) as [e|] eqn:He; [|apply run_ret_inv in Hr as [Hr _]; discriminate Hr]. apply run_bind_inv in Hr as (ca & m0 & d0 & [Hca [= -> ->]]%run_lift_inv & Hr).
  destruct ca as [t|]; [|apply run_ret_inv in Hr as [Hr _]; discriminate Hr]. destruct (if enabled info fix1571 then _ else _) eqn:Ht in Hr; [apply run_ret_inv in Hr as [Hr _]; discriminate Hr|].
  assert (Hlt : t < parentCloseTime info). { unfold after in Ht. destruct (enabled info fix1571); [apply negb_false_iff, Z.ltb_lt in Ht|apply Z.leb_gt in Ht]; lia. }
  apply run_bind_inv in Hr as (account & m0 & d0 & [Hacc [= -> ->]]%run_lift_inv & Hr).
  apply run_bind_inv in Hr as (b1 & m1 & d1 & R1 & Hr). destruct b1; [|apply run_ret_inv in Hr as [Hr _]; discriminate Hr]. cbn [negb] in Hr. apply run_bind_inv in Hr as (a & m0 & d0 & [Ha [= -> ->]]%run_lift_inv & Hr).
  apply run_bind_inv in Hr as (u2 & m2 & d2 & R2 & Hr). apply run_bind_inv in Hr as (u3 & m3 & d3 & R3 & Hr). apply run_bind_inv in Hr as (u4 & m4 & d4 & R4 & Hr). apply run_ret_inv in Hr as [_ [= -> ->]].
  destruct (release_run k e account (proxy_value as_account 0 (sle_data e) sfDestination) account m d true m1 d1 u2 m2 d2 u3 m3 d3 u4 m4 d4 a) as (Hm4 & Hnone & (n & Hn & Hmv) & Ht4 & ->); try done. split; [done|]. split; [|done].
  exists owner, seq, e, account, t, n. split_and!; done.
Qed.

Lemma checks_EscrowCreate : common_checks (EscrowCreate sha512Half info).
Proof. unfold EscrowCreate, EscrowCreate_preflight. class_checks. Qed.
Lemma checks_EscrowFinish : common_checks (EscrowFinish sha512Half sha256 info router).
Proof.
  unfold EscrowFinish, EscrowFinish_preflight. class_checks. intros ter E. unfold unless_tes in E. apply bind_Ok_inv in E as (r & Hr & E). destruct (isTesSuccess r) eqn:Hs; cbn [negb] in E.
  - injection E as <-. split; [done|]. intros _. apply Z.eqb_eq in Hs. by rewrite Hs in Hr.
  - injection E as <-. split; [by eapply ends_preflight2|]. by intros ->.
Qed.
Lemma checks_EscrowCancel : common_checks (EscrowCancel sha512Half info).
Proof. unfold EscrowCancel, EscrowCancel_preflight. class_checks. Qed.

(** C10. The life of an escrow. A creation that succeeds moves exactly the amount from
    the account to a new entry with the terms of the transaction, and leaves the account
    its reserve. A finish that succeeds comes after the finish time, with a fulfillment of
    the entry's condition if it has one, and moves exactly what the entry holds to its
    destination. With [fix1571] enabled it does not come after the cancel time; without
    the amendment it comes only after the cancel time, where the entry has one, so that
    finish and cancel are open at once. A cancel that succeeds comes after the cancel time
    and moves what the entry holds back to the account that paid it. The entry is gone
    after both, and none of the three changes the total of SFC. *)
Theorem escrow_life ap m d m' d' : ledger_ok m -> total_drops m <= cMaxNativeN -> sane_fees (fees info) -> tx_cf_sound (ap_tx ap) ->
  let tx := tx_object (ap_tx ap) in
  (forall a n, tx_amount tx sfAmount = Ok a -> is_drops a n -> 0 <= n ->
    run_map (EscrowCreate_doApply sha512Half info ap) (m, d) = Ok ((tesSUCCESS : Z), (m', d')) -> escrow_created tx n m m' /\ total_drops m' = total_drops m) /\
  (run_map (EscrowFinish_doApply sha512Half sha256 info router ap) (m, d) = Ok ((tesSUCCESS : Z), (m', d')) -> escrow_finished tx m m' /\ total_drops m' = total_drops m) /\
  (run_map (EscrowCancel_doApply sha512Half info ap) (m, d) = Ok ((tesSUCCESS : Z), (m', d')) -> escrow_cancelled tx m m' /\ total_drops m' = total_drops m).
Proof.
  intros Hm Htot Hfees Hcf tx. split_and!.
  - intros a n Ha Hd Hn Hr. destruct (create_run ap m d m' d' a n Hm Hfees Ha Hd Hn Hr) as (_ & Hc & _). split; [done|]. destruct Hc as (account & s & seq & count & e & _ & Hs & _ & _ & Hnone & _ & _ & Hmv & _).
    eapply moved_total; [|exact Hmv]. intros E. destruct (shown_type m (acct account) s eq_refl Hs) as [Hl _]. rewrite E, Hnone in Hl. done.
  - intros Hr. by destruct (finish_run ap m d m' d' Hm Htot Hcf Hr) as (_ & ? & ? & _).
  - intros Hr. by destruct (cancel_run ap m d m' d' Hm Htot Hr) as (_ & ? & ? & _).
Qed.
End Steps.

(** ** Witness *)

(** The ledger after a run. *)
Definition ledger_after {A} (r : res (A * (gmap Z (SLE Object) * Z))) : gmap Z (SLE Object) := match r with Ok (_, (m, _)) => m | Throw _ => ∅ end.

Definition sample_accounts : gmap Z (SLE Object) := list_to_map [sample_account 5 1000000000 0; sample_account 6 50000000 0].

(** Account 5 sets 300 drops aside for account 6, under a condition; later account 6
    takes them with its fulfillment. *)
Definition sample_create : Applying :=
  mkApplying (sample_tx ttESCROW_CREATE (fun o => o ← setAccountID o sfAccount 5; o ← setAccountID o sfDestination 6; o ← setFieldAmount o sfAmount (ofSigned 300); o ← setFieldU32 o sfFinishAfter 600000100;
    setFieldVL o sfCondition (encode_condition (wsha256 [7; 8; 9]) 3))) 5 1000000000 1000000000 10 0.
Definition sample_finish : Applying :=
  mkApplying (sample_tx ttESCROW_FINISH (fun o => o ← setAccountID o sfAccount 6; o ← setAccountID o sfOwner 5; o ← setFieldU32 o sfOfferSequence 0; o ← setFieldVL o sfCondition (encode_condition (wsha256 [7; 8; 9]) 3);
    setFieldVL o sfFulfillment (encode_fulfillment [7; 8; 9]))) 6 50000000 50000000 10 0.
Definition sample_timed : Applying :=
  mkApplying (sample_tx ttESCROW_CREATE (fun o => o ← setAccountID o sfAccount 5; o ← setAccountID o sfDestination 6; o ← setFieldAmount o sfAmount (ofSigned 300); o ← setFieldU32 o sfFinishAfter 600000100;
    setFieldU32 o sfCancelAfter 600000150)) 5 1000000000 1000000000 10 0.
Definition sample_cancel : Applying :=
  mkApplying (sample_tx ttESCROW_CANCEL (fun o => o ← setAccountID o sfAccount 6; o ← setAccountID o sfOwner 5; setFieldU32 o sfOfferSequence 0)) 6 50000000 50000000 10 0.
Definition sample_later : ViewInfo := mkInfo (fun _ => true) (mkFees 10 10 20 5) false 8 600000200.
Definition sample_escrowed : gmap Z (SLE Object) := ledger_after (run_map (EscrowCreate_doApply id_digest sample_info sample_create) (sample_accounts, 0)).
Definition sample_expired : gmap Z (SLE Object) := ledger_after (run_map (EscrowCreate_doApply id_digest sample_info sample_timed) (sample_accounts, 0)).

Lemma sample_fees : sane_fees (mkFees 10 10 20 5).
Proof. intros c Hc. cbn. unfold cMaxNativeN. lia. Qed.

Lemma escrow_life_witness :
  (exists ter m' d', run_map (EscrowCreate_doApply id_digest sample_info sample_create) (sample_accounts, 0) = Ok (ter, (m', d')) /\ ter = tesSUCCESS /\ escrow_created id_digest sample_info (tx_object (ap_tx sample_create)) 300 sample_accounts m') /\
  (exists ter m' d', run_map (EscrowFinish_doApply id_digest wsha256 sample_later (fun _ => 0) sample_finish) (sample_escrowed, 0) = Ok (ter, (m', d')) /\ ter = tesSUCCESS /\ escrow_finished id_digest wsha256 sample_later (tx_object (ap_tx sample_finish)) sample_escrowed m') /\
  (exists ter m' d', run_map (EscrowCancel_doApply id_digest sample_later sample_cancel) (sample_expired, 0) = Ok (ter, (m', d')) /\ ter = tesSUCCESS /\ escrow_cancelled id_digest sample_later (tx_object (ap_tx sample_cancel)) sample_expired m').
Proof.
  split; [|split].
  - apply (ran (fun t => t)); [vm_compute; reflexivity|]. intros ter m' d' E ->.
    refine (proj1 (proj1 (escrow_life id_digest wsha256 sample_info (fun _ => 0) sample_create sample_accounts 0 m' d' _ _ sample_fees _) (ofSigned 300) 300 _ _ _ E));
      [apply ledger_okb_ok; vm_compute; reflexivity|vm_compute; discriminate|by intros cb fb _ _ c _ Hf|vm_compute; reflexivity| |lia].
    split_and!; [split_and!; [reflexivity|split; [reflexivity|vm_compute; split; discriminate]|reflexivity]|reflexivity|reflexivity].
  - apply (ran (fun t => t)); [vm_compute; reflexivity|]. intros ter m' d' E ->.
    refine (proj1 (proj1 (proj2 (escrow_life id_digest wsha256 sample_later (fun _ => 0) sample_finish sample_escrowed 0 m' d' _ _ sample_fees _)) E));
      [apply ledger_okb_ok; vm_compute; reflexivity|vm_compute; discriminate|by intros cb fb _ _ c _ Hf].
  - apply (ran (fun t => t)); [vm_compute; reflexivity|]. intros ter m' d' E ->.
    refine (proj1 (proj2 (proj2 (escrow_life id_digest wsha256 sample_later (fun _ => 0) sample_cancel sample_expired 0 m' d' _ _ sample_fees _)) E));
      [apply ledger_okb_ok; vm_compute; reflexivity|vm_compute; discriminate|by intros cb fb _ _ c _ Hf].
Defined.
