(* ===== verification/PayChan.v ===== *)
(** * Payment channels

    Models PayChan.cpp of app/tx/impl and protocol/PayChan.h: an account sets SFC aside
    for a destination, which claims parts of it with signatures of the channel's key;
    what is left goes back when the channel closes. The verification of signatures is a
    parameter. *)

From S2P Require Import Prelude STAmount Serializer Keys SField STObject STAccess View TER Indexes Formats STTx RawStateTable ApplyStateTable Prog.
From S2P Require Import HashRouter LoadFee Invariants Entries TxMeta MetaCommit OwnerDir LedgerView Transactor Engine AccountTx Funds Escrow.

(** [serializePayChanAuthorization]. *)
Definition serializePayChanAuthorization (key amt : Z) : list Z := add64 amt (add256 key (add32 (hash_prefix 67 76 77) [])).

Section PayChan.
Context (sha512Half : list Z -> Z) (verify : list Z -> list Z -> list Z -> bool -> res bool) (info : ViewInfo).

Abbreviation acct := (keylet_account sha512Half).
Abbreviation ownerDir := (keylet_ownerDir sha512Half).

(** What the channel has left goes back to the account that made it. *)
Definition closeChannel (k : Keylet) : prog Z :=
  slep ← peek_object k;
  src ← liftR (proxy_value as_account 0 slep sfAccount);
  page ← liftR (proxy_value as_u64 0 slep sfOwnerNode);
  removed ← view_dirRemove sha512Half (ownerDir src) page (kl_key k) true;
  if negb removed then mret (tefBAD_LEDGER : Z) else
  _ ← modify (acct src) (change_balance (fun b =>
    amount ← get_amount slep sfAmount; c ← op_add b amount; balance ← get_amount slep sfBalance; op_sub c balance));
  _ ← adjustOwnerCount (acct src) (-1);
  _ ← erase_sle k;
  mret (tesSUCCESS : Z).

(** ** [PayChanCreate] *)

(** The amount is SFC, and more than nothing. *)
Definition bad_amount (a : STAmount) : bool := negb (isSFC (currency (mIssue a))) || (signum a <=? 0).

Definition PayChanCreate_preflight (ctx : PreflightContext) : res Z :=
  let tx := tx_object (pf_tx ctx) in
  if negb (pf_rules ctx featurePayChan) then Ok (temDISABLED : Z) else
  if pf_rules ctx fix1543 && has_flags (tx_flags (pf_tx ctx)) tfUniversalMask then Ok (temINVALID_FLAG : Z) else
  unless_tes (preflight1 ctx) (
  amount ← tx_amount tx sfAmount;
  if bad_amount amount then Ok (temBAD_AMOUNT : Z) else
  account ← at_field as_account 0 tx sfAccount;
  dst ← at_field as_account 0 tx sfDestination;
  if account =? dst then Ok (temDST_IS_SRC : Z) else
  pk ← at_field as_vl [] tx sfPublicKey;
  if bool_decide (publicKeyType pk = None) then Ok (temMALFORMED : Z) else
  preflight2 ctx).

(** Reserve and funds, compared as [STAmount]s. *)
Definition channel_funds (balance amount : STAmount) (reserve : Z) : res Z :=
  r ← ofSFC reserve;
  short ← op_lt balance r;
  if short : bool then Ok (tecINSUFFICIENT_RESERVE : Z) else
  sum ← op_add r amount;
  short ← op_lt balance sum;
  if short : bool then Ok (tecUNFUNDED : Z) else Ok (tesSUCCESS : Z).

Definition PayChanCreate_preclaim (tx : STTx) (flags : Z) : prog Z :=
  account ← liftR (at_field as_account 0 (tx_object tx) sfAccount);
  sle ← read_object (acct account);
  balance ← liftR (tx_amount sle sfBalance);
  count ← liftR (at_field as_u32 0 sle sfOwnerCount);
  amount ← liftR (tx_amount (tx_object tx) sfAmount);
  ter ← liftR (channel_funds balance amount (reserve_for info (count + 1)));
  if negb (ter =? tesSUCCESS) then mret ter else
  check_destination sha512Half info (tx_object tx).

Definition new_channel (tx : Object) (account dst : Z) (o : Object) : res Object :=
  amount ← tx_amount tx sfAmount;
  o ← set_amount o sfAmount amount;
  zero ← zeroOf (mIssue amount);
  o ← set_amount o sfBalance zero;
  o ← set_account o sfAccount account;
  o ← set_account o sfDestination dst;
  settleDelay ← at_field as_u32 0 tx sfSettleDelay;
  o ← set_u32 o sfSettleDelay settleDelay;
  pk ← at_field as_vl [] tx sfPublicKey;
  o ← set_vl o sfPublicKey pk;
  cancelAfter ← at_opt as_u32 0 tx sfCancelAfter;
  o ← set_opt_u32 o sfCancelAfter cancelAfter;
  sourceTag ← at_opt as_u32 0 tx sfSourceTag;
  o ← set_opt_u32 o sfSourceTag sourceTag;
  destinationTag ← at_opt as_u32 0 tx sfDestinationTag;
  set_opt_u32 o sfDestinationTag destinationTag.

Definition PayChanCreate_doApply (ap : Applying) : prog Z :=
  let tx := tx_object (ap_tx ap) in
  account ← liftR (at_field as_account 0 tx sfAccount);
  sle ← peek_object (acct account);
  dst ← liftR (at_field as_account 0 tx sfDestination);
  seq ← liftR (proxy_value as_u32 0 sle sfSequence);
  let k := keylet_payChan sha512Half account dst (u32 (seq - 1)) in
  _ ← insert_new k (new_channel tx account dst);
  filed ← file_entry sha512Half info k account sfOwnerNode;
  if negb filed then mret (tecDIR_FULL : Z) else
  amount ← liftR (tx_amount tx sfAmount);
  _ ← modify (acct account) (change_balance (fun b => op_sub b amount));
  _ ← adjustOwnerCount (acct account) 1;
  mret (tesSUCCESS : Z).

Definition PayChanCreate : TxClass := plain_class info PayChanCreate_preflight PayChanCreate_preclaim PayChanCreate_doApply.

(** ** [PayChanFund] *)

Definition PayChanFund_preflight (ctx : PreflightContext) : res Z :=
  let tx := tx_object (pf_tx ctx) in
  if negb (pf_rules ctx featurePayChan) then Ok (temDISABLED : Z) else
  if pf_rules ctx fix1543 && has_flags (tx_flags (pf_tx ctx)) tfUniversalMask then Ok (temINVALID_FLAG : Z) else
  unless_tes (preflight1 ctx) (
  amount ← tx_amount tx sfAmount;
  if bad_amount amount then Ok (temBAD_AMOUNT : Z) else preflight2 ctx).

(** The channel is past its end. *)
Definition channel_over (slep : Object) : res bool :=
  let closeTime := parentCloseTime info in
  let over (t : option Z) := match t with Some t => t <=? closeTime | None => false end in
  cancelAfter ← optional_value as_u32 0 slep sfCancelAfter;
  expiration ← optional_value as_u32 0 slep sfExpiration;
  Ok (over cancelAfter || over expiration).

(** Whether the expiration may be put at a time. *)
Definition extend_expiration (slep : Object) (extend : Z) : res bool :=
  expiration ← optional_value as_u32 0 slep sfExpiration;
  settleDelay ← proxy_value as_u32 0 slep sfSettleDelay;
  let minExpiration := u32 (parentCloseTime info + settleDelay) in
  let minExpiration := match expiration with Some e => if e <? minExpiration then e else minExpiration | None => minExpiration end in
  Ok (negb (extend <? minExpiration)).

Definition PayChanFund_doApply (ap : Applying) : prog Z :=
  let tx := tx_object (ap_tx ap) in
  channel ← liftR (at_field as_h256 0 tx sfPayChannel);
  let k := mkKeylet ltPAYCHAN channel in
  slep ← peek k;
  match slep with
  | None => mret (tecNO_ENTRY : Z)
  | Some slep =>
      let slep := sle_data slep in
      src ← liftR (proxy_value as_account 0 slep sfAccount);
      txAccount ← liftR (at_field as_account 0 tx sfAccount);
      over ← liftR (channel_over slep);
      if over : bool then closeChannel k else
      if negb (src =? txAccount) then mret (tecNO_PERMISSION : Z) else
      extend ← liftR (at_opt as_u32 0 tx sfExpiration);
      extended ← (match extend with
                  | Some extend =>
                      later ← liftR (extend_expiration slep extend);
                      if negb later then mret false else (_ ← modify k (fun o => set_opt_u32 o sfExpiration (Some extend)); mret true)
                  | None => mret true
                  end);
      if negb extended then mret (temBAD_EXPIRATION : Z) else
      sle ← peek_object (acct txAccount);
      balance ← liftR (get_amount sle sfBalance);
      count ← liftR (proxy_value as_u32 0 sle sfOwnerCount);
      amount ← liftR (tx_amount tx sfAmount);
      ter ← liftR (channel_funds balance amount (reserve_for info count));
      if negb (ter =? tesSUCCESS) then mret ter else
      _ ← modify k (fun o => a ← get_amount o sfAmount; b ← op_add a amount; set_amount o sfAmount b);
      _ ← modify (acct txAccount) (change_balance (fun b => op_sub b amount));
      mret (tesSUCCESS : Z)
  end.

Definition PayChanFund : TxClass := plain_class info PayChanFund_preflight no_preclaim PayChanFund_doApply.

(** ** [PayChanClaim] *)

(** The signature of a claim, which is checked where it is present. *)
Definition claim_signature (tx : Object) (bal amt : option STAmount) : res Z :=
  sig ← at_opt as_vl [] tx sfSignature;
  match sig with
  | None => Ok (tesSUCCESS : Z)
  | Some sig =>
      pk ← at_opt as_vl [] tx sfPublicKey;
      match pk, bal with
      | Some pk, Some bal =>
          reqBalance ← sfc bal;
          authAmt ← (match amt with Some amt => sfc amt | None => Ok reqBalance end);
          if authAmt <? reqBalance then Ok (temBAD_AMOUNT : Z) else
          channel ← at_field as_h256 0 tx sfPayChannel;
          if bool_decide (publicKeyType pk = None) then Ok (temMALFORMED : Z) else
          valid ← verify pk (serializePayChanAuthorization channel authAmt) sig true;
          Ok (if valid : bool then (tesSUCCESS : Z) else temBAD_SIGNATURE)
      | _, _ => Ok (temMALFORMED : Z)
      end
  end.

Definition PayChanClaim_preflight (ctx : PreflightContext) : res Z :=
  let tx := tx_object (pf_tx ctx) in
  if negb (pf_rules ctx featurePayChan) then Ok (temDISABLED : Z) else
  unless_tes (preflight1 ctx) (
  bal ← at_opt as_amount no_amount tx sfBalance;
  if match bal with Some b => bad_amount b | None => false end then Ok (temBAD_AMOUNT : Z) else
  amt ← at_opt as_amount no_amount tx sfAmount;
  if match amt with Some a => bad_amount a | None => false end then Ok (temBAD_AMOUNT : Z) else
  more ← (match bal, amt with Some b, Some a => op_lt a b | _, _ => Ok false end);
  if more : bool then Ok (temBAD_AMOUNT : Z) else
  let flags := tx_flags (pf_tx ctx) in
  if pf_rules ctx fix1543 && has_flags flags tfPayChanClaimMask then Ok (temINVALID_FLAG : Z) else
  if has_flags flags tfClose && has_flags flags tfRenew then Ok (temMALFORMED : Z) else
  unless_tes (claim_signature tx bal amt) (preflight2 ctx)).

(** The key of the transaction is the channel's. *)
Definition same_key (tx slep : Object) : res bool :=
  pk ← proxy_value as_vl [] slep sfPublicKey;
  if bool_decide (publicKeyType pk = None) then Throw (logic_error "PublicKey::PublicKey invalid type") else
  txpk ← at_field as_vl [] tx sfPublicKey;
  Ok (bool_decide (txpk = pk)).

(** A claim for a balance: the checks, and the payment of the difference. *)
Definition claim_balance (k : Keylet) (tx slep : Object) (src dst txAccount : Z) (balance : STAmount) : prog Z :=
  chanBalance ← liftR (a ← getFieldAmount slep sfBalance; sfc a);
  chanFunds ← liftR (a ← getFieldAmount slep sfAmount; sfc a);
  reqBalance ← liftR (sfc balance);
  sig ← liftR (at_opt as_vl [] tx sfSignature);
  if (txAccount =? dst) && negb (present sig) then mret (temBAD_SIGNATURE : Z) else
  signer ← liftR (if present sig then same_key tx slep else Ok true);
  if negb signer then mret (temBAD_SIGNER : Z) else
  if chanFunds <? reqBalance then mret (tecUNFUNDED_PAYMENT : Z) else
  if reqBalance <=? chanBalance then mret (tecUNFUNDED_PAYMENT : Z) else
  sled ← peek (acct dst);
  match sled with
  | None => mret (terNO_ACCOUNT : Z)
  | Some sled =>
      let depositAuth := enabled info featureDepositAuth in
      if negb depositAuth && (txAccount =? src) && has_flags (getFlags (sle_data sled)) lsfDisallowSFC then mret (tecNO_TARGET : Z) else
      allowed ← (if depositAuth then deposit_authorised sha512Half txAccount dst (sle_data sled) else mret true);
      if negb allowed then mret (tecNO_PERMISSION : Z) else
      _ ← modify k (fun o => set_amount o sfBalance balance);
      _ ← modify (acct dst) (change_balance (fun b => delta ← ofSFC (reqBalance - chanBalance); op_add b delta));
      mret (tesSUCCESS : Z)
  end.

(** The end of a claim that asks to close. *)
Definition claim_close (k : Keylet) (dst txAccount : Z) (curExpiration : option Z) : prog Z :=
  slep ← peek_object k;
  dry ← liftR (if dst =? txAccount then Ok true else (b ← get_amount slep sfBalance; a ← get_amount slep sfAmount; Ok (op_eq b a)));
  if dry : bool then closeChannel k else
  settleDelay ← liftR (proxy_value as_u32 0 slep sfSettleDelay);
  let settleExpiration := u32 (parentCloseTime info + settleDelay) in
  _ ← (if match curExpiration with Some e => settleExpiration <? e | None => true end then modify k (fun o => set_opt_u32 o sfExpiration (Some settleExpiration)) else mret ());
  mret (tesSUCCESS : Z).

Definition PayChanClaim_doApply (ap : Applying) : prog Z :=
  let tx := tx_object (ap_tx ap) in
  channel ← liftR (at_field as_h256 0 tx sfPayChannel);
  let k := mkKeylet ltPAYCHAN channel in
  slep ← peek k;
  match slep with
  | None => mret (tecNO_TARGET : Z)
  | Some slep =>
      let slep := sle_data slep in
      src ← liftR (proxy_value as_account 0 slep sfAccount);
      dst ← liftR (proxy_value as_account 0 slep sfDestination);
      txAccount ← liftR (at_field as_account 0 tx sfAccount);
      curExpiration ← liftR (optional_value as_u32 0 slep sfExpiration);
      over ← liftR (channel_over slep);
      if over : bool then closeChannel k else
      if negb (txAccount =? src) && negb (txAccount =? dst) then mret (tecNO_PERMISSION : Z) else
      balance ← liftR (at_opt as_amount no_amount tx sfBalance);
      ter ← (match balance with Some balance => claim_balance k tx slep src dst txAccount balance | None => mret (tesSUCCESS : Z) end);
      if negb (ter =? tesSUCCESS) then mret ter else
      let flags := tx_flags (ap_tx ap) in
      renewed ←
        (if has_flags flags tfRenew then
           if negb (src =? txAccount) then mret false else (_ ← modify k (fun o => set_opt_u32 o sfExpiration None); mret true)
         else mret true);
      if negb renewed then mret (tecNO_PERMISSION : Z) else
      if has_flags flags tfClose then claim_close k dst txAccount curExpiration else mret (tesSUCCESS : Z)
  end.

Definition PayChanClaim : TxClass := plain_class info PayChanClaim_preflight no_preclaim PayChanClaim_doApply.
End PayChan.

(** ** What holds of them *)

(** A native amount that may be larger than any balance, as a sum can be on the way. *)
Definition is_big (a : STAmount) (n : Z) : Prop :=
  isSFC (currency (mIssue a)) = true /\ mIsNative a = true /\ mOffset a = 0 /\ 0 <= mValue a /\ (mValue a = 0 -> mIsNegative a = false) /\ smant a = n.

Lemma big_drops a n : is_big a n -> - cMaxNativeN <= n <= cMaxNativeN -> is_drops a n.
Proof.
  intros (Hi & Hn & Ho & Hv & Hz & Hs) Hr. split_and!; [|done|done]. split; [by rewrite Hn|]. split; [|done]. rewrite Hn. split; [done|]. unfold smant in Hs. destruct (mIsNegative a); lia.
Qed.

Lemma op_add_big a b n p : is_big a n -> - 2 ^ 62 <= n <= 2 ^ 62 -> is_drops b p -> exists c, op_add a b = Ok c /\ is_big c (n + p).
Proof.
  intros (Hi & Hn & Ho & Hv & Hz & Hs) Hr Hb. destruct (decide (- cMaxNativeN <= n <= cMaxNativeN)) as [Hd|Hd].
  - assert (Ha : is_drops a n) by (by apply big_drops). destruct Ha as (Hwa & _ & _). destruct Hb as (Hwb & Nb & <-). destruct (op_add_native a b Hwa Hwb Hn Nb) as (c & E & Sc & Ic & Vc & Nc & Oc & Zc).
    exists c. split; [done|]. split_and!; try done. lia.
  - destruct Hb as (Hwb & Nb & <-). pose proof (smant_i64 b Hwb) as Sb. pose proof Hwb as (Ib & _). rewrite Nb in Ib. assert (Hc : areComparable a b = true) by (unfold areComparable; rewrite Hn, Nb; unfold isSFC in *; cbn; lia).
    unfold op_add. rewrite Hc. cbn [negb]. destruct (is_zero b) eqn:Eb.
    { exists a. split; [done|]. apply is_zero_true in Eb. split_and!; try done. unfold smant at 2. rewrite Eb. destruct (mIsNegative b); lia. }
    destruct (is_zero a) eqn:Ea; [apply is_zero_true in Ea; exfalso; apply Hd; rewrite <-Hs; unfold smant; rewrite Ea; destruct (mIsNegative a); unfold cMaxNativeN; lia|].
    rewrite Hn. unfold getSNValue. rewrite Hn, Nb. cbn [negb mbind res_bind]. assert (Sa : (if mIsNegative a then - i64 (mValue a) else i64 (mValue a)) = n).
    { unfold smant in Hs. rewrite i64_small by (destruct (mIsNegative a); lia). done. }
    rewrite Sa, Sb. exists (ofSigned (n + smant b)). split; [done|]. generalize (smant b). intros s. unfold is_big, ofSigned, set, smant. destruct (Z.ltb_spec (n + s) 0); cbn; split_and!; try done; lia.
Qed.

Lemma drops_big a n : is_drops a n -> is_big a n.
Proof. intros ((Hi & Hr & Hz) & Hn & Hs). rewrite Hn in *. destruct Hr as [Ho Hr]. split_and!; try done; lia. Qed.

Lemma op_lt_big a b n p : is_big a n -> is_big b p -> op_lt a b = Ok (n <? p).
Proof.
  intros (Ia & Na & Oa & Ra & Za & <-) (Ib & Nb & Ob & Rb & Zb & <-). unfold op_lt. assert (Hc : areComparable a b = true) by (unfold areComparable; rewrite Na, Nb; unfold isSFC in *; cbn; lia).
  rewrite Hc. cbn [negb]. rewrite Oa, Ob, Z.ltb_irrefl. unfold smant.
  destruct (mIsNegative a) eqn:Ea, (mIsNegative b) eqn:Eb; cbn [Bool.eqb negb];
    repeat match goal with |- context [?x =? ?y] => destruct (Z.eqb_spec x y) | |- context [?x <? ?y] => destruct (Z.ltb_spec x y) end; cbn [negb]; done || lia || auto with lia.
  all: try (exfalso; lia). all: try (specialize (Za ltac:(lia)); congruence). all: try (specialize (Zb ltac:(lia)); congruence).
Qed.

Lemma zeroOf_drops i : isSFC (currency i) = true -> exists z, zeroOf i = Ok z /\ is_drops z 0.
Proof.
  intros Hi. unfold zeroOf, make. rewrite canonicalize_native; cbn [mIssue mValue mOffset mIsNegative]; [|done|lia]. cbv zeta. cbn [Z.eqb]. eexists. split; [reflexivity|].
  split_and!; [|done|done]. split; [done|]. split; [split; [done|]|done]. cbn. unfold cMaxNativeN. lia.
Qed.

(** The funds are there. *)
Lemma channel_funds_spec b a p x r : is_drops b p -> is_drops a x -> 0 <= x -> 0 <= r <= cMaxNativeN -> channel_funds b a r = Ok (tesSUCCESS : Z) -> r + x <= p.
Proof.
  intros Hb Ha Hx Hr E. unfold channel_funds in E. destruct (ofSFC_drops r ltac:(lia)) as (c & Ec & Hc). rewrite Ec in E. cbn [mbind res_bind] in E. rewrite (op_lt_drops b c p r Hb Hc) in E. cbn [mbind res_bind] in E.
  destruct (p <? r); [done|]. destruct (op_add_big c a r x (drops_big _ _ Hc)) as (w & Ew & Hw); [unfold cMaxNativeN in *; lia|done|]. rewrite Ew in E. cbn [mbind res_bind] in E.
  rewrite (op_lt_big b w p (r + x) (drops_big _ _ Hb) Hw) in E. cbn [mbind res_bind] in E. destruct (Z.ltb_spec p (r + x)); [done|lia].
Qed.

Section Channels.
Context (sha512Half : list Z -> Z) (verify : list Z -> list Z -> list Z -> bool -> res bool) (info : ViewInfo).

Abbreviation acct := (keylet_account sha512Half).
Abbreviation akey id := (kl_key (keylet_account sha512Half id)).

(** The amounts of a channel. *)
Definition channel (e : SLE Object) (n p : Z) : Prop := amount_field e sfAmount n /\ amount_field e sfBalance p /\ 0 <= p <= n.

Lemma channel_at m k e : kl_type k = ltPAYCHAN -> ledger_ok m -> shown m k = Some e -> exists n p, channel e n p /\ money m (kl_key k) = n - p /\ sle_ok e /\ sle_type e = ltPAYCHAN /\ sle_key e = kl_key k.
Proof.
  intros Hk Hm He. destruct (shown_type m k e) as [Hl Ht]; [by rewrite Hk|done|]. rewrite Hk in Ht. destruct (Hm _ _ Hl) as (Hkey & Hok & _ & Hmo & _). destruct (Hmo Ht) as (n & p & Hn & Hp & Hr).
  exists n, p. split_and!; try done. unfold money. rewrite Hl. by apply paychan_money.
Qed.

(** The channel is written, and has other amounts. *)
Lemma channel_put F m k e o n p : kl_type k = ltPAYCHAN -> ledger_ok m -> shown m k = Some e -> evolves F (sle_data e) o -> channel (with_data e o) n p ->
  let m' := <[kl_key k := with_data e o]> m in
  ledger_ok m' /\ (forall j, money m' j = if decide (j = kl_key k) then n - p else money m j) /\ shown m' k = Some (with_data e o) /\ same_outside [ltPAYCHAN] m m'.
Proof.
  intros Hk Hm He Hev Hc m'. destruct (channel_at m k e Hk Hm He) as (n0 & p0 & _ & _ & Hok & Ht & Hkey). assert (Hcc : concrete (kl_type k) = true) by (by rewrite Hk).
  destruct (shown_modified m k e o Hcc He) as [Hsh Ho]. destruct Hc as (Hn & Hp & Hr). split_and!; [|..|by rewrite Hk in Ho].
  - apply ledger_ok_insert; [done|done|by eapply sle_ok_evolves|]. split_and!; cbn [sle_type with_data]; intros Ht'; [by rewrite Ht in Ht'| |by rewrite Ht in Ht']. by exists n, p.
  - intros j. unfold m'. rewrite money_insert. case_decide; [|done]. apply paychan_money; done.
  - done.
Qed.

(** A field of the channel other than its amounts. *)
Lemma channel_quiet F f m k e d u m' d' : kl_type k = ltPAYCHAN -> ledger_ok m -> shown m k = Some e -> quiet F -> writes F f -> run_map (modify k f) (m, d) = Ok (u, (m', d')) ->
  ledger_ok m' /\ same_money m m' /\ (exists e', shown m' k = Some e' /\ evolves F (sle_data e) (sle_data e')) /\ same_outside [ltPAYCHAN] m m' /\ d' = d.
Proof.
  intros Hk Hm He Hq Hf Hr. assert (Hcc : concrete (kl_type k) = true) by (by rewrite Hk).
  assert (Hn : neutral [ltPAYCHAN] (modify k f)) by (apply (neutral_modify _ F); [done|rewrite Hk; set_solver|by right|done]). destruct (Hn _ _ _ _ _ Hm Hr) as (Hm' & S & O & ->).
  split_and!; try done. apply run_modify_inv in Hr as (s & o & Hs & Ho & [= ->]). rewrite He in Hs. injection Hs as <-. exists (with_data e o). split; [by apply shown_modified|].
  destruct (channel_at m k e Hk Hm He) as (_ & _ & _ & _ & Hok & _). destruct (sle_ok_templated e Hok) as [Hob Hfree]. by apply Hf.
Qed.

Lemma amount_unique s f n n' : amount_field s f n -> amount_field s f n' -> n = n'.
Proof. intros (a & E & _ & _ & <-) (a' & E' & _ & _ & <-). rewrite E in E'. by injection E' as <-. Qed.

Lemma channel_evolve F e e' n p : quiet F -> evolves F (sle_data e) (sle_data e') -> channel e n p -> channel e' n p.
Proof. intros [Hb Ha] (_ & _ & Hp) (H1 & H2 & H3). split; [|split; [|done]]; [destruct H1 as (a & E & Hd)|destruct H2 as (a & E & Hd)]; exists a; (split; [|done]); by rewrite Hp. Qed.

(** ** Closing *)

Lemma close_run k e m d m' d' : kl_type k = ltPAYCHAN -> ledger_ok m -> total_drops m <= cMaxNativeN -> shown m k = Some e ->
  run_map (closeChannel sha512Half k) (m, d) = Ok ((tesSUCCESS : Z), (m', d')) ->
  ledger_ok m' /\ m' !! kl_key k = None /\ (exists src n p, proxy_value as_account 0 (sle_data e) sfAccount = Ok src /\ channel e n p /\ moved m m' (kl_key k) (akey src) (n - p)) /\ total_drops m' = total_drops m /\ d' = d.
Proof.
  intros Hk Hm Htot He Hr. assert (Hcc : concrete (kl_type k) = true) by (by rewrite Hk). destruct (channel_at m k e Hk Hm He) as (n & p & Hch & HMk & _). unfold closeChannel in Hr.
  apply run_bind_inv in Hr as (o & m0 & d0 & (s & Hs & -> & [= -> ->])%run_peek_object_inv & Hr). rewrite He in Hs. injection Hs as <-. apply run_bind_inv in Hr as (src & m0 & d0 & [Hsrc [= -> ->]]%run_lift_inv & Hr).
  apply run_bind_inv in Hr as (page & m0 & d0 & [_ [= -> ->]]%run_lift_inv & Hr). apply run_bind_inv in Hr as (b1 & m1 & d1 & R1 & Hr). destruct b1; [|apply run_ret_inv in Hr as [Hr _]; discriminate Hr]. cbn [negb] in Hr.
  destruct (neutral_dirRemove sha512Half _ _ _ _ _ _ _ _ _ Hm R1) as (Hm1 & S1 & O1 & ->). assert (He1 : shown m1 k = Some e) by (rewrite (shown_outside [ltDIR_NODE] m m1) by (done || rewrite ?Hk; set_solver); done).
  apply run_bind_inv in Hr as (u2 & m2 & d2 & R2 & Hr). apply run_bind_inv in Hr as (u3 & m3 & d3 & R3 & Hr). apply run_bind_inv in Hr as (u4 & m4 & d4 & R4 & Hr). apply run_ret_inv in Hr as [_ [= -> ->]].
  assert (Hne : akey src <> kl_key k). { apply run_modify_inv in R2 as (s & _ & Hs & _). eapply (shown_keys m1); [|exact Hcc|exact Hs|exact He1|by rewrite Hk]; done. }
  pose proof (money_two m _ _ Hm Hne) as H2. rewrite HMk in H2. pose proof (money_nonneg m (akey src) Hm). destruct Hch as (Hn & Hp & Hr0).
  destruct (fun H1 H2 => change_balance_run sha512Half _ (n - p) m1 d src u2 m2 d2 Hm1 H1 H2 R2) as [(Hm2 & O2 & M2) ->]; [rewrite S1; lia| |].
  { rewrite S1. intros b c Hb (a & Ha & (w & Hw & (q & Hq & Hc)%bind_Ok_inv)%bind_Ok_inv)%bind_Ok_inv. pose proof (get_amount_field e sfAmount n a Hn Ha) as Had. pose proof (get_amount_field e sfBalance p q Hp Hq) as Hqd.
    pose proof (drops_range _ _ Hb). pose proof (drops_range _ _ Had). destruct (op_add_big b a _ n (drops_big _ _ Hb)) as (w' & Ew & Bw); [unfold cMaxNativeN in *; lia|done|]. rewrite Ew in Hw. injection Hw as ->.
    destruct (op_add_big w (op_neg q) _ (- p) Bw) as (c' & Ec & Bc); [unfold cMaxNativeN in *; lia|by apply op_neg_drops|]. unfold op_sub in Hc. rewrite Ec in Hc. injection Hc as ->.
    apply big_drops; [|lia]. by replace (money m (akey src) + (n - p)) with (money m (akey src) + n + - p) by lia. }
  assert (Hn3 : neutral [ltACCOUNT_ROOT] (adjustOwnerCount (acct src) (-1))) by (apply neutral_ownerCount; set_solver). destruct (Hn3 _ _ _ _ _ Hm2 R3) as (Hm3 & S3 & O3 & ->).
  destruct (erase_run k m3 d u4 m4 d4 Hm3 Hcc R4) as (Hm4 & Hnone & M4 & _ & ->).
  assert (Hmv : moved m m4 (kl_key k) (akey src) (n - p)) by (intros j; rewrite M4, S3, M2, S1; repeat case_decide; subst; try done; lia).
  split_and!; [done|done|by exists src, n, p|eapply moved_total; [|exact Hmv]; congruence|done].
Qed.

(** ** Funding *)

(** What a successful funding does: the channel is closed when it is past its end, and
    otherwise its owner adds to it. *)
Definition channel_closed (k : Keylet) (e : SLE Object) (m m' : gmap Z (SLE Object)) : Prop :=
  m' !! kl_key k = None /\ exists src n p, proxy_value as_account 0 (sle_data e) sfAccount = Ok src /\ channel e n p /\ moved m m' (kl_key k) (akey src) (n - p).

Definition channel_funded (tx : Object) (k : Keylet) (e : SLE Object) (m m' : gmap Z (SLE Object)) (x : Z) : Prop :=
  exists src n p e', at_field as_account 0 tx sfAccount = Ok src /\ proxy_value as_account 0 (sle_data e) sfAccount = Ok src /\ channel e n p /\
    shown m' k = Some e' /\ channel e' (n + x) p /\ moved m m' (akey src) (kl_key k) x.

(** The amount of the channel goes up. *)
Lemma add_amount_run a x k e n p m d u m' d' : kl_type k = ltPAYCHAN -> ledger_ok m -> shown m k = Some e -> channel e n p -> is_drops a x -> 0 <= x -> n + x <= cMaxNativeN ->
  run_map (modify k (fun o => b ← get_amount o sfAmount; c ← op_add b a; set_amount o sfAmount c)) (m, d) = Ok (u, (m', d')) ->
  ledger_ok m' /\ (forall j, money m' j = if decide (j = kl_key k) then n + x - p else money m j) /\ (exists e', shown m' k = Some e' /\ channel e' (n + x) p) /\ same_outside [ltPAYCHAN] m m' /\ d' = d.
Proof.
  intros Hk Hm He Hch Ha Hx Hmax Hr. apply run_modify_inv in Hr as (s & o & Hs & Ho & [= -> ->]). rewrite He in Hs. injection Hs as <-. destruct (channel_at m k e Hk Hm He) as (_ & _ & _ & _ & Hok & Ht & _).
  apply bind_Ok_inv in Ho as (b & Hb & Ho). apply bind_Ok_inv in Ho as (c & Hc & Ho). destruct Hch as (Hn & Hp & Hr0). pose proof (get_amount_field e sfAmount n b Hn Hb) as Hbd. pose proof (drops_range _ _ Hbd).
  destruct (op_add_drops b a n x Hbd Ha ltac:(lia)) as (c' & Ec & Hcd). rewrite Ec in Hc. injection Hc as ->.
  destruct (set_amount_field e sfAmount c o (n + x) Hok) as [Hw Hf]; [field_ok_tac|intros t E; rewrite Ht in E; by injection E as <-|done|done|].
  assert (Hch' : channel (with_data e o) (n + x) p). { split; [done|]. split; [|lia]. destruct Hp as (q & Hq & Hqd). exists q. split; [|done]. cbn [sle_data with_data]. by rewrite (written_off _ _ _ _ _ Hw). }
  assert (Hev : evolves [sfAmount] (sle_data e) o) by (eapply written_evolves; [exact Hw|left]). destruct (channel_put [sfAmount] m k e o (n + x) p Hk Hm He Hev Hch') as (H1 & H2 & H3 & H4).
  split_and!; try done. by exists (with_data e o).
Qed.

Lemma fund_run ap m d m' d' a x : let tx := tx_object (ap_tx ap) in ledger_ok m -> total_drops m <= cMaxNativeN -> sane_fees (fees info) -> tx_amount tx sfAmount = Ok a -> is_drops a x -> 0 <= x ->
  (forall id e n p, at_field as_h256 0 tx sfPayChannel = Ok id -> shown m (mkKeylet ltPAYCHAN id) = Some e -> channel e n p -> n + x <= cMaxNativeN) ->
  run_map (PayChanFund_doApply sha512Half info ap) (m, d) = Ok ((tesSUCCESS : Z), (m', d')) ->
  exists id e, let k := mkKeylet ltPAYCHAN id in at_field as_h256 0 tx sfPayChannel = Ok id /\ shown m k = Some e /\ ledger_ok m' /\ total_drops m' = total_drops m /\
    (channel_over info (sle_data e) = Ok true /\ channel_closed k e m m' \/ channel_over info (sle_data e) = Ok false /\ channel_funded tx k e m m' x).
Proof.
  intros tx Hm Htot Hfees Ha Hd Hx Hmax Hr. unfold PayChanFund_doApply in Hr. cbv zeta in Hr. fold tx in Hr. apply run_bind_inv in Hr as (id & m0 & d0 & [Hid [= -> ->]]%run_lift_inv & Hr). run_step Hr.
  set (k := mkKeylet ltPAYCHAN id) in *. destruct (shown m k) as [e|] eqn:He; [|apply run_ret_inv in Hr as [Hr _]; discriminate Hr]. exists id, e.
  apply run_bind_inv in Hr as (src & m0 & d0 & [Hsrc [= -> ->]]%run_lift_inv & Hr). apply run_bind_inv in Hr as (txa & m0 & d0 & [Htxa [= -> ->]]%run_lift_inv & Hr).
  apply run_bind_inv in Hr as (over & m0 & d0 & [Hover [= -> ->]]%run_lift_inv & Hr). destruct over.
  { destruct (close_run k e m d m' d' eq_refl Hm Htot He Hr) as (Hm' & Hnone & Hmv & Ht' & _). split_and!; try done. left. by split. }
  destruct (Z.eqb_spec src txa) as [<-|]; [|apply run_ret_inv in Hr as [Hr _]; discriminate Hr]. cbn [negb] in Hr. apply run_bind_inv in Hr as (ext & m0 & d0 & [_ [= -> ->]]%run_lift_inv & Hr).
  apply run_bind_inv in Hr as (b1 & m1 & d1 & R1 & Hr). destruct (channel_at m k e eq_refl Hm He) as (n & p & Hch & HMk & _).
  assert (H1 : ledger_ok m1 /\ same_money m m1 /\ (exists e1, shown m1 k = Some e1 /\ channel e1 n p) /\ same_outside [ltPAYCHAN] m m1 /\ d1 = d).
  { destruct ext as [ext|]; [|apply run_ret_inv in R1 as [_ [= -> ->]]; split_and!; try done; by exists e]. apply run_bind_inv in R1 as (later & m0 & d0 & [_ [= -> ->]]%run_lift_inv & R1).
    destruct later; cbn [negb] in R1; [|apply run_ret_inv in R1 as [_ [= -> ->]]; split_and!; try done; by exists e]. apply run_bind_inv in R1 as (u & m0 & d0 & R0 & R1). apply run_ret_inv in R1 as [_ [= -> ->]].
    assert (Hw : writes [sfExpiration] (fun o => set_opt_u32 o sfExpiration (Some ext))) by funds_writes.
    destruct (fun Hq => channel_quiet [sfExpiration] _ m k e d u m0 d0 eq_refl Hm He Hq Hw R0) as (H1 & H2 & (e1 & H3 & H4) & H5 & ->); [quiet_tac|]. split_and!; try done. exists e1. split; [done|]. eapply channel_evolve; [|exact H4|done]. quiet_tac. }
  clear R1. destruct H1 as (Hm1 & S1 & (e1 & He1 & Hch1) & O1 & ->). destruct b1; [|apply run_ret_inv in Hr as [Hr _]; discriminate Hr]. cbn [negb] in Hr.
  apply run_bind_inv in Hr as (o & m0 & d0 & (s & Hs & -> & [= -> ->])%run_peek_object_inv & Hr). apply run_bind_inv in Hr as (b & m0 & d0 & [Hb [= -> ->]]%run_lift_inv & Hr).
  apply run_bind_inv in Hr as (count & m0 & d0 & [Hcount [= -> ->]]%run_lift_inv & Hr). rewrite Ha in Hr. apply run_bind_inv in Hr as (a' & m0 & d0 & [[= <-] [= -> ->]]%run_lift_inv & Hr).
  apply run_bind_inv in Hr as (ter & m0 & d0 & [Hfunds [= -> ->]]%run_lift_inv & Hr). destruct (Z.eqb_spec ter tesSUCCESS) as [->|]; [|apply run_ret_inv in Hr as [Hr _]; congruence]. cbn [negb] in Hr.
  destruct (account_balance sha512Half m1 src s Hm1 Hs) as (ab & q & Hpk & Hbd & _ & HMs & _). assert (Hb' : is_drops b q) by (eapply get_amount_field; [|exact Hb]; by exists ab).
  pose proof (reserve_sane info count Hfees) as Hres. pose proof (channel_funds_spec b a q x _ Hb' Hd Hx Hres Hfunds) as Hle.
  apply run_bind_inv in Hr as (u2 & m2 & d2 & R2 & Hr). apply run_bind_inv in Hr as (u3 & m3 & d3 & R3 & Hr). apply run_ret_inv in Hr as [_ [= -> ->]].
  destruct (add_amount_run a x k e1 n p m1 d u2 m2 d2 eq_refl Hm1 He1 Hch1 Hd Hx) as (Hm2 & M2 & (e2 & He2 & Hch2) & O2 & ->); [by apply (Hmax id e n p)|done|].
  assert (Hne : akey src <> kl_key k) by (eapply (shown_keys m1); [|  |exact Hs|exact He1|]; done).
  destruct (debit_run sha512Half a x m2 d src u3 m3 d3 Hm2 Hd) as [(Hm3 & O3 & M3) ->]; [rewrite M2, decide_False by done; lia|done|].
  assert (Hmv : moved m m3 (akey src) (kl_key k) x) by (intros j; rewrite M3, M2, S1; repeat case_decide; subst; try done; lia).
  split_and!; try done; [by eapply moved_total|]. right. split; [done|]. exists src, n, p, e2. split_and!; try done. by rewrite (shown_outside [ltACCOUNT_ROOT] m2 m3) by (done || set_solver).
Qed.

(** ** Claims *)

Lemma at_opt_is {V} (cast : STValue -> option V) empty o f x : at_opt cast empty o f = Ok (Some x) -> at_field cast empty o f = Ok x.
Proof.
  unfold at_opt, at_field. destruct (peekAtPField o f) as [v|]; [|done]. destruct (cast v) as [y|]; [by intros [= <-]|]. destruct (o_type o) as [t|]; [|done]. destruct (style t f) as [[]|]; by intros [= <-].
Qed.

Lemma proxy_value_evolve {V} (cast : STValue -> option V) empty F o o' f : evolves F o o' -> getCode f ∉ getCode <$> F -> proxy_value cast empty o' f = proxy_value cast empty o f.
Proof. intros (_ & Ht & Hp) Hf. unfold proxy_value, proxy_style. by rewrite Ht, !Hp. Qed.

(** The channel's key has signed for at least [q] drops of the channel. *)
Definition signed (tx e : Object) (q : Z) : Prop :=
  exists pk sig id auth, proxy_value as_vl [] e sfPublicKey = Ok pk /\ at_opt as_vl [] tx sfSignature = Ok (Some sig) /\ at_field as_h256 0 tx sfPayChannel = Ok id /\ q <= auth /\
    verify pk (serializePayChanAuthorization id auth) sig true = Ok true.

Lemma claim_signature_spec tx bal amt sig b q e : claim_signature verify tx bal amt = Ok (tesSUCCESS : Z) -> at_opt as_vl [] tx sfSignature = Ok (Some sig) -> bal = Some b -> sfc b = Ok q ->
  same_key tx e = Ok true -> signed tx e q.
Proof.
  intros E Hsig -> Hq Hkey. unfold claim_signature in E. rewrite Hsig in E. cbn [mbind res_bind] in E. apply bind_Ok_inv in E as (pk & Hpk & E). destruct pk as [pk|]; [|done].
  rewrite Hq in E. cbn [mbind res_bind] in E. apply bind_Ok_inv in E as (auth & _ & E). destruct (Z.ltb_spec auth q) as [|Hle]; [done|]. apply bind_Ok_inv in E as (id & Hid & E). case_bool_decide; [done|].
  apply bind_Ok_inv in E as (v & Hv & E). destruct v; [|done]. unfold same_key in Hkey. apply bind_Ok_inv in Hkey as (cpk & Hc & Hkey). case_bool_decide; [done|].
  rewrite (at_opt_is _ _ _ _ _ Hpk) in Hkey. cbn [mbind res_bind] in Hkey. injection Hkey as Hkey. apply bool_decide_eq_true in Hkey as ->. by exists cpk, sig, id, auth.
Qed.

Lemma preflight_signature ctx : let tx := tx_object (pf_tx ctx) in PayChanClaim_preflight verify ctx = Ok (tesSUCCESS : Z) ->
  exists bal amt, at_opt as_amount no_amount tx sfBalance = Ok bal /\ claim_signature verify tx bal amt = Ok (tesSUCCESS : Z).
Proof.
  intros tx E. unfold PayChanClaim_preflight in E. cbv zeta in E. destruct (negb _); [done|]. unfold unless_tes at 1 in E. apply bind_Ok_inv in E as (r & _ & E). destruct (isTesSuccess r) eqn:Hr; cbn [negb] in E; [|injection E as ->; discriminate Hr].
  apply bind_Ok_inv in E as (bal & Hbal & E). exists bal. destruct (match bal with Some b => bad_amount b | None => false end); [done|]. apply bind_Ok_inv in E as (amt & Hamt & E). exists amt.
  destruct (match amt with Some b => bad_amount b | None => false end); [done|]. apply bind_Ok_inv in E as (more & _ & E). destruct more; [done|]. destruct (_ && _); [done|]. destruct (_ && _); [done|].
  split; [done|]. unfold unless_tes in E. apply bind_Ok_inv in E as (r' & Hr' & E). destruct (isTesSuccess r') eqn:Hs; cbn [negb] in E; [|injection E as ->; discriminate Hs]. apply Z.eqb_eq in Hs. by rewrite Hs in Hr'.
Qed.

(** The balance of the channel goes up to what is claimed, and the difference is paid. *)
Lemma claim_balance_run tx k e src dst txa b q n p m d m' d' : kl_type k = ltPAYCHAN -> ledger_ok m -> total_drops m <= cMaxNativeN -> shown m k = Some e -> channel e n p -> is_drops b q ->
  run_map (claim_balance sha512Half info k tx (sle_data e) src dst txa b) (m, d) = Ok ((tesSUCCESS : Z), (m', d')) ->
  p < q <= n /\ ledger_ok m' /\ moved m m' (kl_key k) (akey dst) (q - p) /\ total_drops m' = total_drops m /\ (exists e', shown m' k = Some e' /\ channel e' n q /\ evolves [sfBalance] (sle_data e) (sle_data e')) /\ d' = d /\
  (txa = dst -> exists sig, at_opt as_vl [] tx sfSignature = Ok (Some sig) /\ same_key tx (sle_data e) = Ok true).
Proof.
  intros Hk Hm Htot He Hch Hbq Hr. assert (Hcc : concrete (kl_type k) = true) by (by rewrite Hk). destruct (channel_at m k e Hk Hm He) as (n1 & p1 & Hch1 & HMk & Hok & Ht & _). destruct Hch as (Hn & Hp & Hr0).
  unfold claim_balance in Hr. apply run_bind_inv in Hr as (cb & m0 & d0 & [Hcb [= -> ->]]%run_lift_inv & Hr). apply bind_Ok_inv in Hcb as (ab & Hab & Hcb). destruct (getFieldAmount_field e sfBalance p Hp) as (ab' & Eab & Habd).
  rewrite Eab in Hab. injection Hab as <-. rewrite (sfc_drops _ _ Habd) in Hcb. injection Hcb as <-. apply run_bind_inv in Hr as (cf & m0 & d0 & [Hcf [= -> ->]]%run_lift_inv & Hr). apply bind_Ok_inv in Hcf as (af & Haf & Hcf).
  destruct (getFieldAmount_field e sfAmount n Hn) as (af' & Eaf & Hafd). rewrite Eaf in Haf. injection Haf as <-. rewrite (sfc_drops _ _ Hafd) in Hcf. injection Hcf as <-. rewrite (sfc_drops _ _ Hbq) in Hr.
  apply run_bind_inv in Hr as (q' & m0 & d0 & [[= <-] [= -> ->]]%run_lift_inv & Hr). apply run_bind_inv in Hr as (sig & m0 & d0 & [Hsig [= -> ->]]%run_lift_inv & Hr).
  destruct ((txa =? dst) && negb (present sig)) eqn:Hauth; [apply run_ret_inv in Hr as [Hr _]; discriminate Hr|]. apply run_bind_inv in Hr as (signer & m0 & d0 & [Hsigner [= -> ->]]%run_lift_inv & Hr).
  destruct signer; [|apply run_ret_inv in Hr as [Hr _]; discriminate Hr]. cbn [negb] in Hr. destruct (Z.ltb_spec n q); [apply run_ret_inv in Hr as [Hr _]; discriminate Hr|].
  destruct (Z.leb_spec q p); [apply run_ret_inv in Hr as [Hr _]; discriminate Hr|]. run_step Hr. destruct (shown m (acct dst)) as [sled|] eqn:Hsled; [|apply run_ret_inv in Hr as [Hr _]; discriminate Hr]. cbv zeta in Hr.
  destruct (_ && _) in Hr; [apply run_ret_inv in Hr as [Hr _]; discriminate Hr|]. apply run_bind_inv in Hr as (al & m0 & d0 & Hal & Hr).
  assert (m0 = m /\ d0 = d) as [-> ->] by (destruct (enabled info featureDepositAuth); [by apply deposit_authorised_same in Hal|by apply run_ret_inv in Hal as [_ [= -> ->]]]).
  destruct al; [|apply run_ret_inv in Hr as [Hr _]; discriminate Hr]. cbn [negb] in Hr. apply run_bind_inv in Hr as (u1 & m1 & d1 & R1 & Hr). apply run_bind_inv in Hr as (u2 & m2 & d2 & R2 & Hr). apply run_ret_inv in Hr as [_ [= -> ->]].
  apply run_modify_inv in R1 as (s & o & Hs & Ho & [= -> ->]). rewrite He in Hs. injection Hs as <-. destruct (set_amount_field e sfBalance b o q Hok) as [Hw Hf]; [field_ok_tac|intros t E; rewrite Ht in E; by injection E as <-|done|done|].
  assert (Hch' : channel (with_data e o) n q). { split; [|split; [done|lia]]. destruct Hn as (w & Ew & Hwd). exists w. split; [|done]. cbn [sle_data with_data]. by rewrite (written_off _ _ _ _ _ Hw). }
  assert (Hev : evolves [sfBalance] (sle_data e) o) by (eapply written_evolves; [exact Hw|left]). destruct (channel_put [sfBalance] m k e o n q Hk Hm He Hev Hch') as (Hm1 & M1 & Hsh1 & O1).
  assert (Hne : akey dst <> kl_key k) by (eapply (shown_keys m); [|exact Hcc|exact Hsled|exact He|by rewrite Hk]; done). pose proof (money_two m _ _ Hm Hne) as H2. pose proof (money_nonneg m (akey dst) Hm).
  assert (HMk' : money m (kl_key k) = n - p). { destruct (shown_type m k e Hcc He) as [Hl _]. unfold money. rewrite Hl. by apply paychan_money. }
  pose proof (drops_range _ _ Hbq). destruct (fun H1 H2 => change_balance_run sha512Half _ (q - p) _ d dst u2 m2 d2 Hm1 H1 H2 R2) as [(Hm2 & O2 & M2) ->]; [rewrite M1, decide_False by done; lia| |].
  { rewrite M1, decide_False by done. intros c w Hc (dl & Hdl & Hw2)%bind_Ok_inv. apply ofSFC_inv in Hdl; [|unfold cMaxNativeN in *; lia]. destruct (op_add_drops c dl _ (q - p) Hc Hdl) as (w' & Ew & Hwd); [lia|]. congruence. }
  assert (Hmv : moved m m2 (kl_key k) (akey dst) (q - p)) by (intros j; rewrite M2, M1; repeat case_decide; subst; try done; lia).
  split_and!; try done; [eapply moved_total; [|exact Hmv]; congruence|exists (with_data e o); split; [by rewrite (shown_outside [ltACCOUNT_ROOT] _ m2) by (done || rewrite ?Hk; set_solver)|done]|].
  intros ->. rewrite Z.eqb_refl in Hauth. destruct sig as [sig|]; [|done]. by exists sig.
Qed.

(** What a successful claim does. When the transaction has a balance, the channel's
    balance becomes it, and the difference goes to the destination: the channel's owner
    has sent the transaction, or the channel's key has signed for it. When it has none,
    nothing is paid. Then the channel closes, if it is asked to and either the destination
    asks or all is paid, and otherwise it stays. *)
Definition channel_claimed (tx : Object) (flags : Z) (k : Keylet) (e : SLE Object) (m m' : gmap Z (SLE Object)) : Prop :=
  exists src dst txa bal n p q m1, at_field as_account 0 tx sfAccount = Ok txa /\ proxy_value as_account 0 (sle_data e) sfAccount = Ok src /\ proxy_value as_account 0 (sle_data e) sfDestination = Ok dst /\
    at_opt as_amount no_amount tx sfBalance = Ok bal /\ channel e n p /\ (txa = src \/ txa = dst) /\
    match bal with Some b => is_drops b q /\ p < q <= n /\ (txa = src \/ signed tx (sle_data e) q) | None => q = p end /\ moved m m1 (kl_key k) (akey dst) (q - p) /\
    if has_flags flags tfClose && ((dst =? txa) || (q =? n)) then m' !! kl_key k = None /\ moved m1 m' (kl_key k) (akey src) (n - q)
    else (exists e', shown m' k = Some e' /\ channel e' n q) /\ same_money m1 m'.

Lemma moved_nothing m k1 k2 : moved m m k1 k2 0.
Proof. intros j. repeat case_decide; lia. Qed.

(** Amounts of drops are equal when their numbers are. *)
Lemma op_eq_drops a b x y : is_drops a x -> is_drops b y -> op_eq a b = (x =? y).
Proof.
  intros ((Na & Ra & Za) & Ea & <-) ((Nb & Rb & Zb) & Eb & <-). rewrite Ea in Ra, Na. rewrite Eb in Rb, Nb. destruct Ra as [Oa Ra], Rb as [Ob Rb]. symmetry in Na, Nb. apply Z.eqb_eq in Na, Nb.
  unfold op_eq, areComparable, smant. rewrite Ea, Eb, Na, Nb, Oa, Ob. cbn [Bool.eqb andb Z.eqb].
  destruct (mIsNegative a), (mIsNegative b); cbn [Bool.eqb andb]; [destruct (Z.eqb_spec (mValue a) (mValue b)), (Z.eqb_spec (- mValue a) (- mValue b)); lia|..|done].
  - symmetry. apply Z.eqb_neq. intros E. assert (mValue a = 0) as E0 by lia. by apply Za in E0.
  - symmetry. apply Z.eqb_neq. intros E. assert (mValue b = 0) as E0 by lia. by apply Zb in E0.
Qed.

(** The end of a claim that asks to close. *)
Lemma claim_close_run k e n q src dst txa ce m d m' d' : kl_type k = ltPAYCHAN -> ledger_ok m -> total_drops m <= cMaxNativeN -> shown m k = Some e -> channel e n q ->
  proxy_value as_account 0 (sle_data e) sfAccount = Ok src -> run_map (claim_close sha512Half info k dst txa ce) (m, d) = Ok ((tesSUCCESS : Z), (m', d')) ->
  ledger_ok m' /\ total_drops m' = total_drops m /\
  if (dst =? txa) || (q =? n) then m' !! kl_key k = None /\ moved m m' (kl_key k) (akey src) (n - q) else (exists e', shown m' k = Some e' /\ channel e' n q) /\ same_money m m'.
Proof.
  intros Hk Hm Htot He Hch Hsrc Hr. unfold claim_close in Hr. apply run_bind_inv in Hr as (o & m0 & d0 & (s & Hs & -> & [= -> ->])%run_peek_object_inv & Hr). rewrite He in Hs. injection Hs as <-.
  apply run_bind_inv in Hr as (dry & m0 & d0 & [Hdry [= -> ->]]%run_lift_inv & Hr). assert (dry = (dst =? txa) || (q =? n)) as Edry.
  { destruct (dst =? txa); [by injection Hdry as <-|]. apply bind_Ok_inv in Hdry as (b & Hb & Hdry). apply bind_Ok_inv in Hdry as (a & Ha & [= <-]). cbn [orb]. destruct Hch as (Hn & Hp & _). apply op_eq_drops; by eapply get_amount_field. }
  rewrite <-Edry. clear Edry Hdry. destruct dry.
  - destruct (close_run k e m d m' d' Hk Hm Htot He Hr) as (Hm' & Hnone & (src' & n' & p' & Hsrc' & Hch' & Hmv) & Ht & _). split_and!; try done. rewrite Hsrc in Hsrc'. injection Hsrc' as <-.
    destruct Hch as (Hn & Hp & _), Hch' as (Hn' & Hp' & _). rewrite <-(amount_unique e sfAmount n n' Hn Hn'), <-(amount_unique e sfBalance q p' Hp Hp') in Hmv. done.
  - apply run_bind_inv in Hr as (sd & m0 & d0 & [_ [= -> ->]]%run_lift_inv & Hr). apply run_bind_inv in Hr as (u & m1 & d1 & R1 & Hr).
    apply run_ret_inv in Hr as [_ [= -> ->]]. destruct (match ce with Some e0 => _ | None => true end) in R1.
    + set (t := u32 _) in R1. assert (Hw : writes [sfExpiration] (fun o => set_opt_u32 o sfExpiration (Some t))) by funds_writes.
      destruct (fun Hq => channel_quiet [sfExpiration] _ m k e d u m1 d1 Hk Hm He Hq Hw R1) as (Hm1 & S1 & (e1 & He1 & V1) & _ & _); [quiet_tac|]. split_and!; [done|by apply same_money_total| |done].
      exists e1. split; [done|]. eapply channel_evolve; [|exact V1|done]. quiet_tac.
    + apply run_ret_inv in R1 as [_ [= -> ->]]. split_and!; try done. by exists e.
Qed.

Lemma claim_run ctx ap m d m' d' : let tx := tx_object (ap_tx ap) in pf_tx ctx = ap_tx ap -> PayChanClaim_preflight verify ctx = Ok (tesSUCCESS : Z) -> ledger_ok m -> total_drops m <= cMaxNativeN ->
  (forall b, at_opt as_amount no_amount tx sfBalance = Ok (Some b) -> exists q, is_drops b q) ->
  run_map (PayChanClaim_doApply sha512Half info ap) (m, d) = Ok ((tesSUCCESS : Z), (m', d')) ->
  exists id e, let k := mkKeylet ltPAYCHAN id in at_field as_h256 0 tx sfPayChannel = Ok id /\ shown m k = Some e /\ ledger_ok m' /\ total_drops m' = total_drops m /\
    (channel_over info (sle_data e) = Ok true /\ channel_closed k e m m' \/ channel_over info (sle_data e) = Ok false /\ channel_claimed tx (tx_flags (ap_tx ap)) k e m m').
Proof.
  intros tx Hctx Hpre Hm Htot Hbal Hr. destruct (preflight_signature ctx Hpre) as (bal & amt & Hpbal & Hpsig). rewrite Hctx in Hpbal, Hpsig. fold tx in Hpbal, Hpsig.
  unfold PayChanClaim_doApply in Hr. cbv zeta in Hr. fold tx in Hr. apply run_bind_inv in Hr as (id & m0 & d0 & [Hid [= -> ->]]%run_lift_inv & Hr). run_step Hr.
  set (k := mkKeylet ltPAYCHAN id) in *. destruct (shown m k) as [e|] eqn:He; [|apply run_ret_inv in Hr as [Hr _]; discriminate Hr]. exists id, e.
  apply run_bind_inv in Hr as (src & m0 & d0 & [Hsrc [= -> ->]]%run_lift_inv & Hr). apply run_bind_inv in Hr as (dst & m0 & d0 & [Hdst [= -> ->]]%run_lift_inv & Hr). apply run_bind_inv in Hr as (txa & m0 & d0 & [Htxa [= -> ->]]%run_lift_inv & Hr).
  apply run_bind_inv in Hr as (ce & m0 & d0 & [_ [= -> ->]]%run_lift_inv & Hr). apply run_bind_inv in Hr as (over & m0 & d0 & [Hover [= -> ->]]%run_lift_inv & Hr). destruct over.
  { destruct (close_run k e m d m' d' eq_refl Hm Htot He Hr) as (Hm' & Hnone & Hmv & Ht' & _). split_and!; try done. left. by split. }
  destruct (negb (txa =? src) && negb (txa =? dst)) eqn:Hwho; [apply run_ret_inv in Hr as [Hr _]; discriminate Hr|]. assert (Hwho' : txa = src \/ txa = dst) by lia.
  rewrite Hpbal in Hr. apply run_bind_inv in Hr as (bal' & m0 & d0 & [[= <-] [= -> ->]]%run_lift_inv & Hr). apply run_bind_inv in Hr as (ter & m1 & d1 & R1 & Hr). destruct (Z.eqb_spec ter tesSUCCESS) as [Eter|]; [|apply run_ret_inv in Hr as [Hr _]; congruence].
  cbn [negb] in Hr. subst ter. destruct (channel_at m k e eq_refl Hm He) as (n & p & Hch & HMk & Hok & _).
  assert (H1 : exists q e1, match bal with Some b => is_drops b q /\ p < q <= n /\ (txa = src \/ signed tx (sle_data e) q) | None => q = p end /\ ledger_ok m1 /\ total_drops m1 = total_drops m /\ moved m m1 (kl_key k) (akey dst) (q - p) /\ shown m1 k = Some e1 /\ channel e1 n q /\ evolves [sfBalance] (sle_data e) (sle_data e1)).
  { destruct bal as [b|].
    - destruct (Hbal b Hpbal) as [q Hq]. destruct (claim_balance_run tx k e src dst txa b q n p m d m1 d1 eq_refl Hm Htot He Hch Hq R1) as (Hpq & Hm1 & Hmv & Ht1 & (e1 & He1 & Hch1 & V1) & _ & Hsig).
      exists q, e1. split_and!; try done; try lia. destruct Hwho' as [|Hd]; [by left|right]. destruct (Hsig Hd) as (sig & Hs & Hkey). by eapply claim_signature_spec; [exact Hpsig|exact Hs|done|by apply sfc_drops|].
    - apply run_ret_inv in R1 as [_ [= -> ->]]. exists p, e. destruct Hch as (H1 & H2 & H3). rewrite Z.sub_diag. destruct (sle_ok_templated e Hok) as [Hob _]. split_and!; try done; try lia. apply moved_nothing. }
  clear R1. destruct H1 as (q & e1 & Hq & Hm1 & Ht1 & Hmv1 & He1 & Hch1 & V1).
  apply run_bind_inv in Hr as (b2 & m2 & d2 & R2 & Hr). destruct b2; [|apply run_ret_inv in Hr as [Hr _]; discriminate Hr]. cbn [negb] in Hr.
  assert (H2 : ledger_ok m2 /\ same_money m1 m2 /\ exists e2, shown m2 k = Some e2 /\ channel e2 n q /\ proxy_value as_account 0 (sle_data e2) sfAccount = Ok src).
  { assert (Hs1 : proxy_value as_account 0 (sle_data e1) sfAccount = Ok src) by (rewrite (proxy_value_evolve _ _ _ _ _ _ V1); [done|refine (bool_decide_unpack _ _); vm_compute; exact I]).
    destruct (has_flags _ tfRenew) in R2; [|apply run_ret_inv in R2 as [_ [= -> ->]]; split_and!; try done; by exists e1]. destruct (negb _) in R2; [apply run_ret_inv in R2 as [R2 _]; discriminate R2|].
    apply run_bind_inv in R2 as (u & m0 & d0 & R0 & R2). apply run_ret_inv in R2 as [_ [= -> ->]]. assert (Hw : writes [sfExpiration] (fun o => set_opt_u32 o sfExpiration None)) by funds_writes.
    destruct (fun Hq => channel_quiet [sfExpiration] _ m1 k e1 _ u m0 d0 eq_refl Hm1 He1 Hq Hw R0) as (Hm2 & S2 & (e2 & He2 & V2) & _ & _); [quiet_tac|]. split_and!; try done. exists e2. split_and!; [done|eapply channel_evolve; [|exact V2|done]; quiet_tac|].
    rewrite (proxy_value_evolve _ _ _ _ _ _ V2); [done|refine (bool_decide_unpack _ _); vm_compute; exact I]. }
  destruct H2 as (Hm2 & S2 & e2 & He2 & Hch2 & Hsrc2). pose proof (same_money_total _ _ S2) as Ht2.
  assert (H3 : ledger_ok m' /\ total_drops m' = total_drops m2 /\ if has_flags (tx_flags (ap_tx ap)) tfClose && ((dst =? txa) || (q =? n)) then m' !! kl_key k = None /\ moved m2 m' (kl_key k) (akey src) (n - q)
    else (exists e', shown m' k = Some e' /\ channel e' n q) /\ same_money m2 m').
  { destruct (has_flags (tx_flags (ap_tx ap)) tfClose); cbn [andb]; [|apply run_ret_inv in Hr as [_ [= -> ->]]; split_and!; try done; by exists e2]. eapply claim_close_run; [done|done| |exact He2|exact Hch2|exact Hsrc2|exact Hr]. lia. }
  destruct H3 as (Hm' & Ht' & Hend). split_and!; try done; [lia|]. right. split; [done|]. exists src, dst, txa, bal, n, p, q, m1. split_and!; try done.
  destruct (has_flags (tx_flags (ap_tx ap)) tfClose && ((dst =? txa) || (q =? n))); [|destruct Hend as [He' S3]; split; [done|by etransitivity]]. destruct Hend as [Hnone Hmv3]. split; [done|]. intros j. rewrite Hmv3, (S2 j). done.
Qed.

(** ** Creation *)

Abbreviation paychan_template := (default [] (findByType ledger_formats ltPAYCHAN)).

(** What a new channel says. *)
Definition channel_terms (tx : Object) (account dst : Z) (e : Object) : Prop :=
  (exists a z, tx_amount tx sfAmount = Ok a /\ zeroOf (mIssue a) = Ok z /\ peekAtPField e sfAmount = Some (V_Amount a) /\ peekAtPField e sfBalance = Some (V_Amount z)) /\
  peekAtPField e sfAccount = Some (V_Account false account) /\ peekAtPField e sfDestination = Some (V_Account false dst) /\
  (exists pk, at_field as_vl [] tx sfPublicKey = Ok pk /\ peekAtPField e sfPublicKey = Some (V_VL pk)).

Lemma new_channel_terms tx account dst o o' : object_ok o -> o_type o = Some paychan_template -> new_channel tx account dst o = Ok o' -> channel_terms tx account dst o'.
Proof.
  intros Ho Ht Hn. unfold new_channel in Hn. apply bind_Ok_inv in Hn as (a & Ha & Hn). apply bind_Ok_inv in Hn as (o1 & W1 & Hn). apply (assign_written o paychan_template sfAmount soeREQUIRED) in W1; [|done|field_ok_tac|done|done|done].
  apply bind_Ok_inv in Hn as (z & Hz & Hn). apply bind_Ok_inv in Hn as (o2 & W2 & Hn). assert (T1 : o_type o1 = Some paychan_template) by (by rewrite (proj1 (proj2 W1))).
  apply (assign_written o1 paychan_template sfBalance soeREQUIRED) in W2; [|apply W1|field_ok_tac|done|done|done]. apply bind_Ok_inv in Hn as (o3 & W3 & Hn). assert (T2 : o_type o2 = Some paychan_template) by (by rewrite (proj1 (proj2 W2))).
  apply (assign_written o2 paychan_template sfAccount soeREQUIRED) in W3; [|apply W2|field_ok_tac|done|done|done]. apply bind_Ok_inv in Hn as (o4 & W4 & Hn). assert (T3 : o_type o3 = Some paychan_template) by (by rewrite (proj1 (proj2 W3))).
  apply (assign_written o3 paychan_template sfDestination soeREQUIRED) in W4; [|apply W3|field_ok_tac|done|done|done]. apply bind_Ok_inv in Hn as (sd & _ & Hn). apply bind_Ok_inv in Hn as (o5 & W5 & Hn).
  assert (T4 : o_type o4 = Some paychan_template) by (by rewrite (proj1 (proj2 W4))). apply (assign_written o4 paychan_template sfSettleDelay soeREQUIRED) in W5; [|apply W4|field_ok_tac|done|done|done].
  apply bind_Ok_inv in Hn as (pk & Hpk & Hn). apply bind_Ok_inv in Hn as (o6 & W6 & Hn). assert (T5 : o_type o5 = Some paychan_template) by (by rewrite (proj1 (proj2 W5))).
  apply (assign_written o5 paychan_template sfPublicKey soeREQUIRED) in W6; [|apply W5|field_ok_tac|done|done|done]. assert (T6 : o_type o6 = Some paychan_template) by (by rewrite (proj1 (proj2 W6))).
  assert (Hrest : evolves [sfCancelAfter; sfSourceTag; sfDestinationTag] o6 o').
  { revert Hn. apply (fun H : writes [sfCancelAfter; sfSourceTag; sfDestinationTag] (fun o => _) => H o6 o'); [funds_writes|apply W6|unfold isFree; by rewrite T6]. }
  destruct Hrest as (_ & _ & Hp). unfold channel_terms. rewrite !Hp by (refine (bool_decide_unpack _ _); vm_compute; exact I).
  rewrite (written_here _ _ _ _ W6), !(written_off _ _ _ _ _ W6), !(written_off _ _ _ _ _ W5) by done. rewrite (written_here _ _ _ _ W4), !(written_off _ _ _ _ _ W4) by done. rewrite (written_here _ _ _ _ W3), !(written_off _ _ _ _ _ W3) by done.
  rewrite (written_here _ _ _ _ W2), !(written_off _ _ _ _ _ W2), (written_here _ _ _ _ W1) by done. split_and!; [by exists a, z|done|done|by exists pk].
Qed.

Lemma channel_terms_amounts tx account dst e a n : channel_terms tx account dst (sle_data e) -> tx_amount tx sfAmount = Ok a -> is_drops a n -> 0 <= n -> channel e n 0.
Proof.
  intros ((a' & z & Ha' & Hz & Pa & Pz) & _) Ha Hd Hn. rewrite Ha in Ha'. injection Ha' as <-. assert (Hi : isSFC (currency (mIssue a)) = true) by (destruct Hd as ((Hi & _) & Hnat & _); congruence).
  destruct (zeroOf_drops (mIssue a) Hi) as (z' & Ez & Hzd). rewrite Hz in Ez. injection Ez as <-. split; [by exists a|]. split; [by exists z|lia].
Qed.

Lemma writes_new_channel tx account dst : writes [sfAmount; sfBalance; sfAccount; sfDestination; sfSettleDelay; sfPublicKey; sfCancelAfter; sfSourceTag; sfDestinationTag] (new_channel tx account dst).
Proof. unfold new_channel. funds_writes. Qed.

(** What a successful creation does. *)
Definition channel_created (tx : Object) (n : Z) (m m' : gmap Z (SLE Object)) : Prop :=
  exists account dst seq s e, let k := keylet_payChan sha512Half account dst (u32 (seq - 1)) in
    at_field as_account 0 tx sfAccount = Ok account /\ at_field as_account 0 tx sfDestination = Ok dst /\ shown m (acct account) = Some s /\ proxy_value as_u32 0 (sle_data s) sfSequence = Ok seq /\
    m !! kl_key k = None /\ shown m' k = Some e /\ channel_terms tx account dst (sle_data e) /\ channel e n 0 /\ moved m m' (akey account) (kl_key k) n.

Lemma channel_create_run ap m d m' d' a n : let tx := tx_object (ap_tx ap) in ledger_ok m -> tx_amount tx sfAmount = Ok a -> is_drops a n -> 0 <= n ->
  (forall account, at_field as_account 0 tx sfAccount = Ok account -> n <= money m (akey account)) ->
  run_map (PayChanCreate_doApply sha512Half info ap) (m, d) = Ok ((tesSUCCESS : Z), (m', d')) -> ledger_ok m' /\ total_drops m' = total_drops m /\ channel_created tx n m m'.
Proof.
  intros tx Hm Ha Hd Hn Hle Hr. unfold PayChanCreate_doApply in Hr. cbv zeta in Hr. fold tx in Hr. apply run_bind_inv in Hr as (account & m0 & d0 & [Hacc [= -> ->]]%run_lift_inv & Hr).
  apply run_bind_inv in Hr as (o & m0 & d0 & (s & Hs & -> & [= -> ->])%run_peek_object_inv & Hr). apply run_bind_inv in Hr as (dst & m0 & d0 & [Hdst [= -> ->]]%run_lift_inv & Hr). apply run_bind_inv in Hr as (seq & m0 & d0 & [Hseq [= -> ->]]%run_lift_inv & Hr).
  set (k := keylet_payChan sha512Half account dst (u32 (seq - 1))) in *. apply run_bind_inv in Hr as (u1 & m1 & d1 & R1 & Hr). apply run_bind_inv in Hr as (b2 & m2 & d2 & R2 & Hr).
  destruct b2; [|apply run_ret_inv in Hr as [Hr _]; discriminate Hr]. cbn [negb] in Hr. rewrite Ha in Hr. apply run_bind_inv in Hr as (a' & m0 & d0 & [[= <-] [= -> ->]]%run_lift_inv & Hr).
  apply run_bind_inv in Hr as (u4 & m4 & d4 & R4 & Hr). apply run_bind_inv in Hr as (u5 & m5 & d5 & R5 & Hr). apply run_ret_inv in Hr as [_ [= -> ->]].
  assert (Hnew : forall s1, sle_ok s1 -> sle_type s1 = kl_type k -> (exists s0, make_SLE k = Ok s0 /\ new_channel tx account dst (sle_data s0) = Ok (sle_data s1)) -> channel_terms tx account dst (sle_data s1)).
  { intros s1 Hok1 Ht1 (s0 & E0 & E1). destruct (make_SLE_inv k s0 E0) as ((t & Hft & Hty & Hob) & Ht0 & _). rewrite Ht0 in Hft. injection Hft as <-. by eapply new_channel_terms. }
  destruct (fun H => insert_new_run _ k (new_channel tx account dst) n m d u1 m1 d1 Hm (writes_new_channel tx account dst) eq_refl H R1) as (Hm1 & M1 & Hnone & O1 & -> & e1 & s0 & He1 & Hs0 & Hf0).
  { intros s1 Hok1 Ht1 Hex. pose proof (channel_terms_amounts tx account dst s1 a n (Hnew s1 Hok1 Ht1 Hex) Ha Hd Hn) as (C1 & C2 & C3). split; [|rewrite (paychan_money s1 n 0) by done; lia].
    split_and!; intros Hty; [by rewrite Ht1 in Hty|by exists n, 0|by rewrite Ht1 in Hty]. }
  assert (T1 : channel_terms tx account dst (sle_data e1)). { apply (shown_type m1 k e1 eq_refl) in He1 as [Hl1 Ht1]. apply Hnew; [by apply (Hm1 _ _ Hl1)|done|by exists s0]. }
  destruct (file_entry_run sha512Half info k account sfOwnerNode m1 d true m2 d2 e1 Hm1 eq_refl) as (Hm2 & S2 & O2 & -> & e2 & He2 & V2); [done|field_ok_tac|quiet_tac|done|done|].
  assert (T2 : channel_terms tx account dst (sle_data e2)). { destruct V2 as (_ & _ & Hp). unfold channel_terms. by rewrite !Hp by (refine (bool_decide_unpack _ _); vm_compute; exact I). }
  assert (Hne : akey account <> kl_key k). { intros E. destruct (shown_type m (acct account) s eq_refl Hs) as [Hl _]. rewrite E, Hnone in Hl. done. } specialize (Hle account Hacc).
  destruct (debit_run sha512Half a n m2 d account u4 m4 d4 Hm2 Hd) as [(Hm4 & O4 & M4) ->]; [rewrite S2, M1, decide_False by done; lia|done|].
  assert (Hn5 : neutral [ltACCOUNT_ROOT] (adjustOwnerCount (acct account) 1)) by (apply neutral_ownerCount; set_solver). destruct (Hn5 _ _ _ _ _ Hm4 R5) as (Hm5 & S5 & O5 & ->).
  assert (Hmv : moved m m5 (akey account) (kl_key k) n). { intros j. rewrite S5, M4, S2, M1. repeat case_decide; subst; try done; try lia. unfold money. rewrite Hnone. cbn. lia. }
  split_and!; [done|by eapply moved_total|]. exists account, dst, seq, s, e2. fold k. split_and!; try done; [|by eapply channel_terms_amounts].
  rewrite (shown_outside [ltACCOUNT_ROOT] m4 m5) by (done || set_solver). by rewrite (shown_outside [ltACCOUNT_ROOT] m2 m4) by (done || set_solver).
Qed.

Lemma checks_PayChanCreate : common_checks (PayChanCreate sha512Half info).
Proof. unfold PayChanCreate, PayChanCreate_preflight. class_checks. Qed.
Lemma checks_PayChanFund : common_checks (PayChanFund sha512Half info).
Proof. unfold PayChanFund, PayChanFund_preflight. class_checks. Qed.

Lemma claim_signature_code tx bal amt ter : claim_signature verify tx bal amt = Ok ter -> isTecClaim ter = false.
Proof.
  unfold claim_signature. intros (sig & _ & E)%bind_Ok_inv. destruct sig as [sig|]; [|by injection E as <-]. apply bind_Ok_inv in E as (pk & _ & E). destruct pk as [pk|], bal as [bal|]; try by injection E as <-.
  apply bind_Ok_inv in E as (q & _ & E). apply bind_Ok_inv in E as (au & _ & E). destruct (_ <? _); [by injection E as <-|]. apply bind_Ok_inv in E as (id & _ & E). destruct (bool_decide _); [by injection E as <-|].
  apply bind_Ok_inv in E as (v & _ & E). injection E as <-. by destruct v.
Qed.

Lemma checks_PayChanClaim : common_checks (PayChanClaim sha512Half verify info).
Proof.
  unfold PayChanClaim, PayChanClaim_preflight. class_checks.
  all: intros ter (r & Hr & E)%bind_Ok_inv; destruct (isTesSuccess r) eqn:Hs; cbn [negb] in E; [by apply ends_preflight2|injection E as <-; split; [by eapply claim_signature_code|by intros ->]].
Qed.

(** C11. The life of a payment channel. A creation that succeeds moves exactly the amount
    from the account to a new channel with nothing paid. A funding that succeeds is the
    owner's, and moves exactly the amount to the channel. A claim that passed preflight
    and succeeds, and that names a balance, pays the destination exactly the difference
    between that balance and what was paid before, which is positive and never more than
    the channel has; unless the owner sends it, the channel's key has signed for at least
    as much. A claim that names none pays nothing. Past its end, and when a claim asks to
    close it and is the destination's or leaves nothing in it, a channel is gone and
    exactly what it has left is back with its owner; otherwise it stays. None of it
    changes the total. *)
Theorem channel_life ctx ap m d m' d' : ledger_ok m -> total_drops m <= cMaxNativeN -> sane_fees (fees info) -> pf_tx ctx = ap_tx ap ->
  let tx := tx_object (ap_tx ap) in
  (forall a n, tx_amount tx sfAmount = Ok a -> is_drops a n -> 0 <= n -> (forall account, at_field as_account 0 tx sfAccount = Ok account -> n <= money m (akey account)) ->
    run_map (PayChanCreate_doApply sha512Half info ap) (m, d) = Ok ((tesSUCCESS : Z), (m', d')) -> channel_created tx n m m' /\ total_drops m' = total_drops m) /\
  (forall a x, tx_amount tx sfAmount = Ok a -> is_drops a x -> 0 <= x ->
    (forall id e n p, at_field as_h256 0 tx sfPayChannel = Ok id -> shown m (mkKeylet ltPAYCHAN id) = Some e -> channel e n p -> n + x <= cMaxNativeN) ->
    run_map (PayChanFund_doApply sha512Half info ap) (m, d) = Ok ((tesSUCCESS : Z), (m', d')) ->
    exists id e, let k := mkKeylet ltPAYCHAN id in at_field as_h256 0 tx sfPayChannel = Ok id /\ shown m k = Some e /\ total_drops m' = total_drops m /\
      (channel_over info (sle_data e) = Ok true /\ channel_closed k e m m' \/ channel_over info (sle_data e) = Ok false /\ channel_funded tx k e m m' x)) /\
  (PayChanClaim_preflight verify ctx = Ok (tesSUCCESS : Z) -> (forall b, at_opt as_amount no_amount tx sfBalance = Ok (Some b) -> exists q, is_drops b q) ->
    run_map (PayChanClaim_doApply sha512Half info ap) (m, d) = Ok ((tesSUCCESS : Z), (m', d')) ->
    exists id e, let k := mkKeylet ltPAYCHAN id in at_field as_h256 0 tx sfPayChannel = Ok id /\ shown m k = Some e /\ total_drops m' = total_drops m /\
      (channel_over info (sle_data e) = Ok true /\ channel_closed k e m m' \/ channel_over info (sle_data e) = Ok false /\ channel_claimed tx (tx_flags (ap_tx ap)) k e m m')).
Proof.
  intros Hm Htot Hfees Hctx tx. split_and!.
  - intros a n Ha Hd Hn Hle Hr. by destruct (channel_create_run ap m d m' d' a n Hm Ha Hd Hn Hle Hr) as (_ & ? & ?).
  - intros a x Ha Hd Hx Hmax Hr. destruct (fund_run ap m d m' d' a x Hm Htot Hfees Ha Hd Hx Hmax Hr) as (id & e & ? & ? & _ & ? & ?). by exists id, e.
  - intros Hpre Hbal Hr. destruct (claim_run ctx ap m d m' d' Hctx Hpre Hm Htot Hbal Hr) as (id & e & ? & ? & _ & ? & ?). by exists id, e.
Qed.
End Channels.

(** ** Witness *)

(** Account 5 opens a channel of 500 drops to account 6, which claims 200 of them. *)
Definition sample_key : list Z := 237 :: repeat 0 32.
Definition sample_open : Applying :=
  mkApplying (sample_tx ttPAYCHAN_CREATE (fun o => o ← setAccountID o sfAccount 5; o ← setAccountID o sfDestination 6; o ← setFieldAmount o sfAmount (ofSigned 500); o ← setFieldU32 o sfSettleDelay 60;
    setFieldVL o sfPublicKey sample_key)) 5 1000000000 1000000000 10 0.
Definition sample_channel : Keylet := keylet_payChan id_digest 5 6 0.
Definition sample_claim : Applying :=
  mkApplying (sample_tx ttPAYCHAN_CLAIM (fun o => o ← setAccountID o sfAccount 6; o ← setFieldU32 o sfSequence 1; o ← setFieldAmount o sfFee (ofSigned 10); o ← setFieldH256 o sfPayChannel (kl_key sample_channel); o ← setFieldAmount o sfBalance (ofSigned 200); o ← setFieldAmount o sfAmount (ofSigned 200);
    o ← setFieldVL o sfSignature [1; 2; 3]; setFieldVL o sfPublicKey sample_key)) 6 50000000 50000000 10 0.
Definition sample_checks (ap : Applying) : PreflightContext := mkPreflight (ap_tx ap) (fun _ => true) 0 (Ok (Valid, Reason EmptyString)).
Definition sample_opened : gmap Z (SLE Object) := ledger_after (run_map (PayChanCreate_doApply id_digest sample_info sample_open) (sample_accounts, 0)).

Lemma channel_life_witness :
  (exists ter m' d', run_map (PayChanCreate_doApply id_digest sample_info sample_open) (sample_accounts, 0) = Ok (ter, (m', d')) /\ ter = tesSUCCESS /\ channel_created id_digest (tx_object (ap_tx sample_open)) 500 sample_accounts m') /\
  (exists ter m' d', run_map (PayChanClaim_doApply id_digest sample_info sample_claim) (sample_opened, 0) = Ok (ter, (m', d')) /\ ter = tesSUCCESS /\
     exists e, channel_claimed id_digest (fun _ _ _ _ => Ok true) (tx_object (ap_tx sample_claim)) (tx_flags (ap_tx sample_claim)) (mkKeylet ltPAYCHAN (kl_key sample_channel)) e sample_opened m').
Proof.
  assert (Hd : forall n, 0 <= n <= 1000 -> is_drops (ofSigned n) n).
  { intros n Hn. unfold ofSigned, set. destruct (Z.ltb_spec n 0); [lia|]. split_and!; [|reflexivity|reflexivity]. split; [reflexivity|]. split; [split; [reflexivity|cbn; unfold cMaxNativeN; lia]|reflexivity]. }
  split; apply (ran (fun t => t)).
  - vm_compute. reflexivity.
  - intros ter m' d' E ->. refine (proj1 (proj1 (channel_life id_digest (fun _ _ _ _ => Ok true) sample_info (sample_checks sample_open) sample_open sample_accounts 0 m' d' _ _ sample_fees eq_refl) (ofSigned 500) 500 _ _ _ _ E));
      [apply ledger_okb_ok; vm_compute; reflexivity|vm_compute; discriminate|vm_compute; reflexivity|apply Hd; lia|lia|]. intros account Hacc. vm_compute in Hacc. injection Hacc as <-. vm_compute. discriminate.
  - vm_compute. reflexivity.
  - intros ter m' d' E ->. destruct (proj2 (proj2 (channel_life id_digest (fun _ _ _ _ => Ok true) sample_info (sample_checks sample_claim) sample_claim sample_opened 0 m' d' ltac:(apply ledger_okb_ok; vm_compute; reflexivity) ltac:(vm_compute; discriminate) sample_fees eq_refl))) as (id & e & Hid & He & _ & Hcase);
      [vm_compute; reflexivity| |exact E|].
    2: { assert (Eid : at_field as_h256 0 (tx_object (ap_tx sample_claim)) sfPayChannel = Ok (kl_key sample_channel)) by (vm_compute; reflexivity). rewrite Eid in Hid. apply (f_equal (fun r => match r with Ok v => v | Throw _ => 0 end)) in Hid. cbv beta iota in Hid. subst id.
      assert (Ho : match shown sample_opened (mkKeylet ltPAYCHAN (kl_key sample_channel)) with Some e => channel_over sample_info (sle_data e) | None => Ok true end = Ok false) by (vm_compute; reflexivity).
      rewrite He in Ho. exists e. destruct Hcase as [[Hov _]|[_ Hc]]; [congruence|exact Hc]. }
    intros b Hb. exists 200. assert (Eb : at_opt as_amount no_amount (tx_object (ap_tx sample_claim)) sfBalance = Ok (Some (ofSigned 200))) by (vm_compute; reflexivity). rewrite Eb in Hb. injection Hb as <-. apply Hd. lia.
Defined.
