(* ===== verification/Payment.v ===== *)
(** * Payments

    Models Payment.cpp of app/tx/impl. A payment of SFC that needs no paths is made
    here; every other one is the work of [SupplyFinanceChainCalc], which is a parameter:
    a program that gives a result and the amount it has delivered. *)

From S2P Require Import Prelude STAmount Serializer Keys SField STObject STAccess View TER Indexes Formats STTx RawStateTable ApplyStateTable Prog.
From S2P Require Import HashRouter LoadFee Invariants Entries TxMeta MetaCommit OwnerDir LedgerView Transactor Engine AccountTx TrustTx Funds Escrow.

Definition MaxPathSize : nat := 6.
Definition MaxPathLength : nat := 8.

(** [operator==] of [Issue]: SFC has no issuer. *)
Definition same_issue (a b : Issue) : bool := (currency a =? currency b) && (isSFC (currency a) || (account a =? account b)).

(** What [SupplyFinanceChainCalculate] is called with. *)
Record CalcInput := mkCalc {
  ci_maxSource : STAmount; ci_amount : STAmount; ci_dst : Z; ci_src : Z; ci_paths : list (list STPathElement);
  ci_partial : bool; ci_defaultPaths : bool; ci_limitQuality : bool; ci_open : bool
}.

(** The most the payment may cost the source. *)
Definition max_source_amount (sendMax : option STAmount) (saDstAmount : STAmount) (id : Z) : res STAmount :=
  match sendMax with
  | Some sendMax => Ok sendMax
  | None =>
      if mIsNative saDstAmount then Ok saDstAmount
      else make (mkIssue (currency (mIssue saDstAmount)) id) (mValue saDstAmount) (mOffset saDstAmount) (signum saDstAmount <? 0)
  end.

(** The amount to deliver at least. *)
Definition bad_deliver_min (saDstAmount : STAmount) (partial : bool) (deliverMin : option STAmount) : res bool :=
  match deliverMin with
  | None => Ok false
  | Some dMin =>
      if negb partial then Ok true else
      if negb (isLegalNet dMin) || (signum dMin <=? 0) then Ok true else
      if negb (same_issue (mIssue dMin) (mIssue saDstAmount)) then Ok true else
      op_lt saDstAmount dMin
  end.

Definition Payment_preflight (ctx : PreflightContext) : res Z :=
  let tx := tx_object (pf_tx ctx) in
  unless_tes (preflight1 ctx) (
  let uTxFlags := tx_flags (pf_tx ctx) in
  if has_flags uTxFlags tfPaymentMask then Ok (temINVALID_FLAG : Z) else
  let partialPaymentAllowed := has_flags uTxFlags tfPartialPayment in
  let limitQuality := has_flags uTxFlags tfLimitQuality in
  let defaultPathsAllowed := negb (has_flags uTxFlags tfNoSupplyFinanceChainDirect) in
  let bPaths := isFieldPresent tx sfPaths in
  let bMax := isFieldPresent tx sfSendMax in
  saDstAmount ← getFieldAmount tx sfAmount;
  account ← getAccountID tx sfAccount;
  sendMax ← (if bMax then a ← getFieldAmount tx sfSendMax; Ok (Some a) else Ok None);
  maxSourceAmount ← max_source_amount sendMax saDstAmount account;
  let uSrcCurrency := currency (mIssue maxSourceAmount) in
  let uDstCurrency := currency (mIssue saDstAmount) in
  let bSFCDirect := (uSrcCurrency =? 0) && (uDstCurrency =? 0) in
  if negb (isLegalNet saDstAmount) || negb (isLegalNet maxSourceAmount) then Ok (temBAD_AMOUNT : Z) else
  uDstAccountID ← getAccountID tx sfDestination;
  if uDstAccountID =? 0 then Ok (temDST_NEEDED : Z) else
  if bMax && (signum maxSourceAmount <=? 0) then Ok (temBAD_AMOUNT : Z) else
  if signum saDstAmount <=? 0 then Ok (temBAD_AMOUNT : Z) else
  if (badCurrency =? uSrcCurrency) || (badCurrency =? uDstCurrency) then Ok (temBAD_CURRENCY : Z) else
  if (account =? uDstAccountID) && (uSrcCurrency =? uDstCurrency) && negb bPaths then Ok (temREDUNDANT : Z) else
  if bSFCDirect && bMax then Ok (temBAD_SEND_SFC_MAX : Z) else
  if bSFCDirect && bPaths then Ok (temBAD_SEND_SFC_PATHS : Z) else
  if bSFCDirect && partialPaymentAllowed then Ok (temBAD_SEND_SFC_PARTIAL : Z) else
  if bSFCDirect && limitQuality then Ok (temBAD_SEND_SFC_LIMIT : Z) else
  if bSFCDirect && negb defaultPathsAllowed then Ok (temBAD_SEND_SFC_NO_DIRECT : Z) else
  deliverMin ← at_opt as_amount no_amount tx sfDeliverMin;
  bad ← bad_deliver_min saDstAmount partialPaymentAllowed deliverMin;
  if bad : bool then Ok (temBAD_AMOUNT : Z) else preflight2 ctx).

Definition Payment_calculateMaxSpend (tx : STTx) : res Z :=
  if tx_has tx sfSendMax then
    sendMax ← tx_amount (tx_object tx) sfSendMax; if mIsNative sendMax then sfc sendMax else Ok 0
  else
    saDstAmount ← getFieldAmount (tx_object tx) sfAmount; if mIsNative saDstAmount then sfc saDstAmount else Ok 0.

Section Payment.
Context (sha512Half : list Z -> Z) (info : ViewInfo) (calc : CalcInput -> prog (Z * STAmount)).

Abbreviation acct := (keylet_account sha512Half).

Definition path_too_big (paths : list (list STPathElement)) : bool := (MaxPathSize <? length paths)%nat || existsb (fun p => (MaxPathLength <? length p)%nat) paths.

(** The state of the destination before a payment: [tesSUCCESS], or why it is refused. *)
Definition payment_destination (tx : STTx) (saDstAmount : STAmount) (sleDst : option (SLE Object)) : res Z :=
  match sleDst with
  | None =>
      if negb (mIsNative saDstAmount) then Ok (tecNO_DST : Z) else
      if is_open info && has_flags (tx_flags tx) tfPartialPayment then Ok (telNO_DST_PARTIAL : Z) else
      reserve ← ofSFC (reserve_for info 0);
      short ← op_lt saDstAmount reserve;
      Ok (if short : bool then (tecNO_DST_INSUF_SFC : Z) else tesSUCCESS)
  | Some sleDst => Ok (if has_flags (getFlags (sle_data sleDst)) lsfRequireDestTag && negb (tx_has tx sfDestinationTag) then (tecDST_TAG_NEEDED : Z) else tesSUCCESS)
  end.

Definition Payment_preclaim (tx : STTx) (flags : Z) : prog Z :=
  let o := tx_object tx in
  let paths := tx_has tx sfPaths in
  sendMax ← liftR (at_opt as_amount no_amount o sfSendMax);
  uDstAccountID ← liftR (at_field as_account 0 o sfDestination);
  saDstAmount ← liftR (tx_amount o sfAmount);
  sleDst ← read (acct uDstAccountID);
  ter ← liftR (payment_destination tx saDstAmount sleDst);
  if negb (ter =? tesSUCCESS) then mret ter else
  if paths || present sendMax || negb (mIsNative saDstAmount) then
    spsPaths ← liftR (getFieldPathSet o sfPaths);
    mret (if is_open info && path_too_big spsPaths then (telBAD_PATH_COUNT : Z) else tesSUCCESS)
  else mret (tesSUCCESS : Z).

Definition new_account (id : Z) (o : Object) : res Object := o ← setAccountID o sfAccount id; setFieldU32 o sfSequence 1.

(** The destination is looked up, or made. *)
Definition payment_account (uDstAccountID : Z) : prog Object :=
  let k := acct uDstAccountID in
  sleDst ← peek k;
  match sleDst with
  | None => _ ← insert_new k (new_account uDstAccountID); peek_object k
  | Some _ => _ ← modify k Ok; peek_object k
  end.

(** A payment over paths: the result, and the amount delivered when it is not the one
    asked for. *)
Definition payment_by_paths (ap : Applying) (maxSourceAmount saDstAmount : STAmount) (uDstAccountID : Z) (deliverMin : option STAmount) (reqDepositAuth : bool) : prog (Z * option STAmount) :=
  let tx := tx_object (ap_tx ap) in
  let uTxFlags := tx_flags (ap_tx ap) in
  allowed ← (if enabled info featureDepositPreauth && reqDepositAuth && negb (uDstAccountID =? account_ ap) then exists_at (keylet_depositPreauth sha512Half uDstAccountID (account_ ap)) else mret true);
  if negb allowed then mret ((tecNO_PERMISSION : Z), None) else
  spsPaths ← liftR (getFieldPathSet tx sfPaths);
  rc ← calc (mkCalc maxSourceAmount saDstAmount uDstAccountID (account_ ap) spsPaths (has_flags uTxFlags tfPartialPayment) (negb (has_flags uTxFlags tfNoSupplyFinanceChainDirect))
               (has_flags uTxFlags tfLimitQuality) (is_open info));
  let '(result, actualAmountOut) := rc in
  less ← liftR (if (result =? tesSUCCESS) && negb (op_eq actualAmountOut saDstAmount) then match deliverMin with Some d => op_lt actualAmountOut d | None => Ok false end else Ok false);
  let deliver := if (result =? tesSUCCESS) && negb (op_eq actualAmountOut saDstAmount) && negb less then Some actualAmountOut else None in
  let result := if less : bool then (tecPATH_PARTIAL : Z) else result in
  mret ((if isTerRetry result then (tecPATH_DRY : Z) else result), deliver).

(** Whether an account that asks for authorization takes the SFC all the same: it has
    authorized the source, or both its balance and the amount are small. *)
Definition direct_authorised (ap : Applying) (uDstAccountID : Z) (saDstAmount : STAmount) (sleDst : Object) : prog bool :=
  if uDstAccountID =? account_ ap then mret true else
  there ← exists_at (keylet_depositPreauth sha512Half uDstAccountID (account_ ap));
  if there : bool then mret true else
  dstReserve ← liftR (ofSFC (reserve_for info 0));
  more ← liftR (op_lt dstReserve saDstAmount);
  if more : bool then mret false else
  balance ← liftR (getFieldAmount sleDst sfBalance);
  more ← liftR (op_lt dstReserve balance);
  mret (negb more).

(** The credit of the destination, which re-arms the password change fee. *)
Definition credit_destination (saDstAmount : STAmount) (o : Object) : res Object :=
  balance ← getFieldAmount o sfBalance;
  sum ← op_add balance saDstAmount;
  o ← setFieldAmount o sfBalance sum;
  if has_flags (getFlags o) lsfPasswordSpent then (r ← clearFlag o lsfPasswordSpent; Ok r.2) else Ok o.

Definition payment_direct (ap : Applying) (saDstAmount : STAmount) (uDstAccountID : Z) (sleDst : Object) (reqDepositAuth : bool) : prog Z :=
  src ← read_object (acct (account_ ap));
  uOwnerCount ← liftR (getFieldU32 src sfOwnerCount);
  fee ← liftR (a ← getFieldAmount (tx_object (ap_tx ap)) sfFee; sfc a);
  let mmm := Z.max (reserve_for info uOwnerCount) fee in
  drops ← liftR (sfc saDstAmount);
  if mPriorBalance ap <? i64 (drops + mmm) then mret (tecUNFUNDED_PAYMENT : Z) else
  allowed ← (if reqDepositAuth then direct_authorised ap uDstAccountID saDstAmount sleDst else mret true);
  if negb allowed then mret (tecNO_PERMISSION : Z) else
  _ ← modify (acct (account_ ap)) (fun o => source ← ofSFC (mSourceBalance ap); left ← op_sub source saDstAmount; setFieldAmount o sfBalance left);
  _ ← modify (acct uDstAccountID) (credit_destination saDstAmount);
  mret (tesSUCCESS : Z).

Definition Payment_doApply (ap : Applying) : prog (Z * option STAmount) :=
  let tx := tx_object (ap_tx ap) in
  deliverMin ← liftR (at_opt as_amount no_amount tx sfDeliverMin);
  let paths := tx_has (ap_tx ap) sfPaths in
  sendMax ← liftR (at_opt as_amount no_amount tx sfSendMax);
  uDstAccountID ← liftR (getAccountID tx sfDestination);
  saDstAmount ← liftR (getFieldAmount tx sfAmount);
  maxSourceAmount ← liftR (max_source_amount sendMax saDstAmount (account_ ap));
  sleDst ← payment_account uDstAccountID;
  let reqDepositAuth := has_flags (getFlags sleDst) lsfDepositAuth && enabled info featureDepositAuth in
  let bSupplyFinanceChain := paths || present sendMax || negb (mIsNative saDstAmount) in
  if negb (enabled info featureDepositPreauth) && bSupplyFinanceChain && reqDepositAuth then mret ((tecNO_PERMISSION : Z), None) else
  if bSupplyFinanceChain then payment_by_paths ap maxSourceAmount saDstAmount uDstAccountID deliverMin reqDepositAuth
  else (ter ← payment_direct ap saDstAmount uDstAccountID sleDst reqDepositAuth; mret (ter, None)).

Definition Payment : TxClass := mkClass Payment_preflight (calculateBaseFee info) Payment_preclaim Payment_doApply (fun _ => Ok false) Payment_calculateMaxSpend.
End Payment.

(** ** What holds of it *)

Lemma modify_ext k f g m d s : shown m k = Some s -> f (sle_data s) = g (sle_data s) -> run_map (modify k f) (m, d) = run_map (modify k g) (m, d).
Proof.
  intros Hs E. unfold modify. rewrite !(peek_object_step _ _ _ _ _ Hs). by rewrite E.
Qed.

Lemma read_object_step {B} k (f : Object -> prog B) m d s : shown m k = Some s -> run_map (read_object k ≫= f) (m, d) = run_map (f (sle_data s)) (m, d).
Proof. intros Hs. by rewrite run_mbind, (run_read_object _ _ _ s Hs). Qed.

Lemma exists_at_step {B} k (f : bool -> prog B) m d : run_map (exists_at k ≫= f) (m, d) = run_map (f (bool_decide (is_Some (shown m k)))) (m, d).
Proof. unfold exists_at. rewrite run_assoc, run_mbind, run_read. done. Qed.

Lemma clearFlag_evolves o flag : object_ok o -> exists r, clearFlag o flag = Ok r /\ evolves [sfFlags] o r.2.
Proof.
  intros Ho. unfold clearFlag, getPField. destruct (getFieldIndex o sfFlags) as [i|] eqn:Hi; cbn [andb mbind res_bind]; [|eexists; split; [reflexivity|by apply evolves_refl]].
  destruct (as_u32 (value_at o i)) as [n|]; (eexists; split; [reflexivity|]); [|by apply evolves_refl]. apply (written_evolves _ _ sfFlags (V_UInt32 (Z.land n (Z.lnot flag)))); [|left]. apply put_written; [done|field_ok_tac|done|done].
Qed.

(** A new account has no SFC, and sequence number 1. *)
Lemma new_account_made key id : exists s, new_sle (mkKeylet ltACCOUNT_ROOT key) (new_account id) = Ok s /\ sle_ok s /\ sle_type s = ltACCOUNT_ROOT /\ sle_key s = key /\
  amount_field s sfBalance 0 /\ peekAtPField (sle_data s) sfSequence = Some (V_UInt32 1) /\ peekAtPField (sle_data s) sfAccount = Some (V_Account false id) /\ getFlags (sle_data s) = 0.
Proof.
  assert (E : exists s, new_sle (mkKeylet ltACCOUNT_ROOT key) (new_account id) = Ok s /\ peekAtPField (sle_data s) sfBalance = Some (V_Amount (ofUnsigned 0)) /\
    peekAtPField (sle_data s) sfSequence = Some (V_UInt32 1) /\ peekAtPField (sle_data s) sfAccount = Some (V_Account false id) /\ getFlags (sle_data s) = 0) by (eexists; split; [vm_compute; reflexivity|vm_compute; done]).
  destruct E as (s & E & Hb & Hq & Ha & Hf). exists s. assert (Hw : writes [sfAccount; sfSequence] (new_account id)) by (unfold new_account; writes_tac). destruct (new_sle_inv [sfAccount; sfSequence] _ _ s Hw E) as (Hok & Ht & Hk & _). split_and!; try done.
  exists (ofUnsigned 0). split; [done|]. split; [|done]. apply (bool_decide_unpack (wf (ofUnsigned 0))). by vm_compute.
Qed.

Section Direct.
Context (sha512Half : list Z -> Z) (info : ViewInfo) (calc : CalcInput -> prog (Z * STAmount)).

Abbreviation acct := (keylet_account sha512Half).
Abbreviation akey id := (kl_key (keylet_account sha512Half id)).

(** The destination after it is looked up or made. *)
Lemma payment_account_run dst m d : ledger_ok m -> m !! akey dst = None \/ is_Some (shown m (acct dst)) ->
  exists s m1, run_map (payment_account sha512Half dst) (m, d) = Ok (sle_data s, (m1, d)) /\ shown m1 (acct dst) = Some s /\ ledger_ok m1 /\ same_money m m1 /\
    (forall k, kl_key k <> akey dst -> shown m1 k = shown m k) /\
    match shown m (acct dst) with Some s0 => s = s0 | None => peekAtPField (sle_data s) sfSequence = Some (V_UInt32 1) /\ getFlags (sle_data s) = 0 end.
Proof.
  intros Hm Hk. unfold payment_account. cbv zeta. rewrite run_peek_step. destruct (shown m (acct dst)) as [s|] eqn:Hs.
  - exists s, m. rewrite run_mbind, (run_modify _ _ m d s (sle_data s) Hs eq_refl). cbn [mbind res_bind]. destruct (shown_type m (acct dst) s eq_refl Hs) as [Hl _].
    assert (E : <[akey dst := with_data s (sle_data s)]> m = m) by (apply insert_id; rewrite Hl; by destruct s). rewrite E, (run_peek_object _ m d s Hs). done.
  - destruct Hk as [Hnone|[? ?]]; [|congruence]. destruct (new_account_made (akey dst) dst) as (s & E & Hok & Ht & Hkey & Hb & Hq & Ha & Hf).
    exists s, (<[akey dst := s]> m). unfold insert_new. rewrite run_assoc, (run_lift_step _ _ _ _ _ E), run_mbind, (run_insert s m d) by (by rewrite Hkey). cbn [mbind res_bind]. rewrite Hkey.
    assert (Hs1 : shown (<[akey dst := s]> m) (acct dst) = Some s) by (unfold shown; rewrite lookup_insert_eq; cbn; unfold check; rewrite Ht; done).
    rewrite (run_peek_object _ _ d s Hs1). split_and!; try done.
    + apply ledger_ok_insert; [done|done|done|]. split_and!; intros Hty; [by exists 0|by rewrite Ht in Hty..].
    + intros j. rewrite money_insert. case_decide as Ej; [|done]. subst j. rewrite (account_money s 0 Ht Hb). unfold money. by rewrite Hnone.
    + intros k Hne. unfold shown. by rewrite lookup_insert_ne by done.
Qed.

(** The destination takes a deposit of [n] drops from the source. *)
Definition takes_deposit (m : gmap Z (SLE Object)) (src dst n : Z) : bool :=
  negb (has_flags (match shown m (acct dst) with Some s => getFlags (sle_data s) | None => 0 end) lsfDepositAuth && enabled info featureDepositAuth) || (dst =? src) ||
  bool_decide (is_Some (shown m (keylet_depositPreauth sha512Half dst src))) || ((n <=? reserve_for info 0) && (money m (akey dst) <=? reserve_for info 0)).

(** What a direct payment does. *)
Definition paid_directly (ap : Applying) (dst n fee : Z) (m : gmap Z (SLE Object)) (d : Z) (r : res ((Z * option STAmount) * (gmap Z (SLE Object) * Z))) : Prop :=
  exists ter m' count, r = Ok ((ter, None), (m', d)) /\ ledger_ok m' /\ total_drops m' = total_drops m /\
    (forall s, shown m (acct (account_ ap)) = Some s -> getFieldU32 (sle_data s) sfOwnerCount = Ok count) /\
    if mPriorBalance ap <? n + Z.max (reserve_for info count) fee then ter = tecUNFUNDED_PAYMENT /\ same_money m m'
    else if negb (takes_deposit m (account_ ap) dst n) then ter = tecNO_PERMISSION /\ same_money m m'
    else ter = tesSUCCESS /\ moved m m' (akey (account_ ap)) (akey dst) n /\ is_Some (shown m' (acct dst)).

Context (ap : Applying) (m : gmap Z (SLE Object)) (d dst n fee : Z) (a : STAmount) (Hm : ledger_ok m) (Htotal : total_drops m <= cMaxNativeN) (Hfees : sane_fees (fees info))
  (Ha : is_drops a n) (Hn : 0 <= n) (Hfee : (a ← getFieldAmount (tx_object (ap_tx ap)) sfFee; sfc a) = Ok fee) (Hfee0 : 0 <= fee <= cMaxNativeN) (Hprior : mPriorBalance ap = mSourceBalance ap + fee).

Abbreviation src := (account_ ap).
Context (Hsrc : money m (akey src) = mSourceBalance ap) (Hne : akey src <> akey dst).

(** The credit of the destination. *)
Lemma credit_destination_run m1 s p : ledger_ok m1 -> shown m1 (acct dst) = Some s -> money m1 (akey dst) = p -> p + n <= cMaxNativeN ->
  exists m2, run_map (modify (acct dst) (credit_destination a)) (m1, d) = Ok ((), (m2, d)) /\ ledger_ok m2 /\ (forall j, money m2 j = if decide (j = akey dst) then p + n else money m1 j) /\ is_Some (shown m2 (acct dst)).
Proof.
  intros Hm1 Hs Hp Hmax. destruct (account_balance sha512Half m1 dst s Hm1 Hs) as (b & p' & Hpk & Hbd & Hp0 & Hmo & Hok & Ht). assert (p' = p) as -> by congruence.
  destruct (op_add_drops b a p n Hbd Ha ltac:(lia)) as (c & Ec & Hcd). destruct (set_field s sfBalance (V_Amount c) Hok) as (o & E & Hw & Hok'); [by rewrite Ht|field_ok_tac|done|].
  assert (Hc : exists o', credit_destination a (sle_data s) = Ok o' /\ evolves [sfFlags] o o').
  { unfold credit_destination. rewrite (get_balance _ _ Hpk). cbn [mbind res_bind]. rewrite Ec. cbn [mbind res_bind]. unfold setFieldAmount. rewrite E. cbn [mbind res_bind].
    destruct (has_flags _ _); [|exists o; split; [done|apply evolves_refl, Hw]]. destruct (clearFlag_evolves o lsfPasswordSpent (proj1 Hw)) as (r & -> & Hev). by exists r.2. }
  destruct Hc as (o' & Hc & Hev'). assert (Hf : amount_field (with_data s o') sfBalance (p + n)).
  { exists c. split; [|done]. destruct Hev' as (_ & _ & Hp'). cbn [sle_data with_data]. rewrite Hp' by (refine (bool_decide_unpack _ _); vm_compute; exact I). by eapply written_here. }
  destruct (shown_type m1 (acct dst) s eq_refl Hs) as [Hl _]. destruct (Hm1 _ _ Hl) as (Hkey & _). exists (<[akey dst := with_data s o']> m1). rewrite (run_modify _ _ m1 d s o' Hs Hc). split_and!; [done|..].
  - apply ledger_ok_insert; [done|done| |split_and!; cbn [sle_type with_data]; intros Hty; [by exists (p + n); split; [|lia]|by rewrite Ht in Hty..]].
    eapply (sle_ok_evolves [sfBalance; sfFlags]); [done|]. eapply evolves_trans; [eapply written_evolves; [exact Hw|left]|]. eapply evolves_sub; [|exact Hev']. set_solver.
  - intros j. rewrite money_insert. case_decide; [|done]. by apply account_money.
  - destruct (shown_modified m1 (acct dst) s o' eq_refl Hs) as [-> _]. done.
Qed.

Lemma direct_authorised_run m1 s p : shown m1 (acct dst) = Some s -> amount_field s sfBalance p ->
  run_map (direct_authorised sha512Half info ap dst a (sle_data s)) (m1, d) = Ok ((dst =? src) || bool_decide (is_Some (shown m1 (keylet_depositPreauth sha512Half dst src))) || ((n <=? reserve_for info 0) && (p <=? reserve_for info 0)), (m1, d)).
Proof.
  intros Hs Hf. unfold direct_authorised. destruct (dst =? src); [done|]. cbn [orb]. rewrite exists_at_step. destruct (bool_decide _); [done|]. cbn [orb]. pose proof (reserve_sane info 0 Hfees).
  destruct (ofSFC_drops (reserve_for info 0)) as (r & Er & Hr); [lia|]. rewrite (run_lift_step _ _ _ _ _ Er), (run_lift_step _ _ _ _ _ (op_lt_drops _ _ _ _ Hr Ha)).
  destruct (Z.ltb_spec (reserve_for info 0) n); [rewrite (proj2 (Z.leb_gt _ _)) by lia; done|]. rewrite (proj2 (Z.leb_le _ _)) by lia. cbn [andb]. destruct (getFieldAmount_field s sfBalance p Hf) as (b & Eb & Hb).
  rewrite (run_lift_step _ _ _ _ _ Eb), (run_lift_step _ _ _ _ _ (op_lt_drops _ _ _ _ Hr Hb)). rewrite Z.leb_antisym. done.
Qed.

(** The two balances are written. *)
Lemma direct_writes m1 ss s p : ledger_ok m1 -> same_money m m1 -> shown m1 (acct src) = Some ss -> shown m1 (acct dst) = Some s -> money m1 (akey dst) = p -> n <= mSourceBalance ap ->
  exists m', run_map (_ ← modify (acct src) (fun o => source ← ofSFC (mSourceBalance ap); left ← op_sub source a; setFieldAmount o sfBalance left); _ ← modify (acct dst) (credit_destination a); mret (tesSUCCESS : Z)) (m1, d) = Ok ((tesSUCCESS : Z), (m', d)) /\
    ledger_ok m' /\ total_drops m' = total_drops m /\ moved m m' (akey src) (akey dst) n /\ is_Some (shown m' (acct dst)).
Proof.
  intros Hm1 S1 Hss Hs Hp Hle. pose proof (money_two m _ _ Hm Hne) as H2. rewrite <-(S1 (akey dst)), Hp, Hsrc in H2. destruct (ofSFC_drops (mSourceBalance ap)) as (c & Ec & Hc); [pose proof (money_nonneg m1 (akey dst) Hm1); lia|].
  destruct (op_sub_drops c a _ n Hc Ha) as (l & El & Hl); [pose proof (money_nonneg m1 (akey dst) Hm1); lia|].
  destruct (run_set_balance sha512Half m1 d src ss l (mSourceBalance ap - n) Hm1 Hss Hl ltac:(lia)) as (m2 & E2 & Hm2 & _ & M2 & Hsh & _).
  rewrite <-(modify_ext _ (fun o => source ← ofSFC (mSourceBalance ap); left ← op_sub source a; setFieldAmount o sfBalance left) _ _ _ _ Hss) in E2 by (rewrite Ec; cbn [mbind res_bind]; by rewrite El).
  rewrite (OwnerDir.run_step _ _ _ _ _ _ E2). assert (Hs2 : shown m2 (acct dst) = Some s) by (rewrite Hsh by congruence; done).
  destruct (credit_destination_run m2 s p Hm2 Hs2) as (m3 & E3 & Hm3 & M3 & Hsome); [rewrite M2, decide_False by congruence; done|lia|]. rewrite (OwnerDir.run_step _ _ _ _ _ _ E3).
  assert (Hmv : moved m m3 (akey src) (akey dst) n) by (intros j; rewrite M3, M2, S1; repeat case_decide; subst; try congruence; lia).
  exists m3. split_and!; try done. by eapply moved_total.
Qed.

Lemma payment_run : tx_has (ap_tx ap) sfPaths = false -> at_opt as_amount no_amount (tx_object (ap_tx ap)) sfSendMax = Ok None -> at_opt as_amount no_amount (tx_object (ap_tx ap)) sfDeliverMin = Ok None ->
  getAccountID (tx_object (ap_tx ap)) sfDestination = Ok dst -> getFieldAmount (tx_object (ap_tx ap)) sfAmount = Ok a -> is_Some (shown m (acct src)) -> m !! akey dst = None \/ is_Some (shown m (acct dst)) ->
  paid_directly ap dst n fee m d (run_map (Payment_doApply sha512Half info calc ap) (m, d)).
Proof.
  intros Hpaths Hmax Hmin Hdst Hamt [ss Hss] Hk. destruct (payment_account_run dst m d Hm Hk) as (s & m1 & E1 & Hs & Hm1 & S1 & Hsh & Hwas). assert (Hss1 : shown m1 (acct src) = Some ss) by (rewrite Hsh by congruence; done).
  destruct (account_balance sha512Half m1 src ss Hm1 Hss1) as (bs & q & _ & _ & _ & _ & Hoks & Hts). set (count := field_of as_u32 0 ss sfOwnerCount).
  assert (Hcount : getFieldU32 (sle_data ss) sfOwnerCount = Ok count) by (apply get_field; [done|by rewrite Hts|field_ok_tac|intros v; by destruct v|done]).
  destruct (account_balance sha512Half m1 dst s Hm1 Hs) as (bd & p & Hpk & Hbd & Hp0 & Hmo & _). assert (Hnat : mIsNative a = true) by apply Ha.
  assert (Hcnt : forall s', shown m (acct src) = Some s' -> getFieldU32 (sle_data s') sfOwnerCount = Ok count) by (intros s' E; rewrite Hss in E; by injection E as <-).
  unfold Payment_doApply. cbv zeta. rewrite (run_lift_step _ _ _ _ _ Hmin), (run_lift_step _ _ _ _ _ Hmax), (run_lift_step _ _ _ _ _ Hdst), (run_lift_step _ _ _ _ _ Hamt).
  rewrite (run_lift_step _ _ _ _ a) by (unfold max_source_amount; by rewrite Hnat). rewrite (OwnerDir.run_step _ _ _ _ _ _ E1), Hpaths, Hnat. cbn [present negb orb]. rewrite andb_false_r. cbn [andb].
  set (req := has_flags (getFlags (sle_data s)) lsfDepositAuth && enabled info featureDepositAuth). unfold payment_direct. rewrite !run_assoc, (read_object_step _ _ _ _ _ Hss1), run_assoc, (run_lift_step _ _ _ _ _ Hcount), run_assoc, (run_lift_step _ _ _ _ _ Hfee).
  rewrite run_assoc, (run_lift_step _ _ _ _ _ (sfc_drops _ _ Ha)). pose proof (reserve_sane info count Hfees). pose proof (drops_range _ _ Ha). rewrite i64_small by (unfold cMaxNativeN in *; lia). unfold paid_directly.
  destruct (Z.ltb_spec (mPriorBalance ap) (n + Z.max (reserve_for info count) fee)) as [Hlt|Hge].
  { exists tecUNFUNDED_PAYMENT, m1, count. split_and!; try done; [by apply same_money_total|]. rewrite (proj2 (Z.ltb_lt _ _)) by lia. done. }
  assert (Htakes : takes_deposit m src dst n = negb req || ((dst =? src) || bool_decide (is_Some (shown m1 (keylet_depositPreauth sha512Half dst src))) || ((n <=? reserve_for info 0) && (p <=? reserve_for info 0)))).
  { unfold takes_deposit. assert (Hf : match shown m (acct dst) with Some s0 => getFlags (sle_data s0) | None => 0 end = getFlags (sle_data s)) by (destruct (shown m (acct dst)); [by subst s|by destruct Hwas]).
    rewrite Hf. fold req. rewrite <-(S1 (akey dst)), Hmo. destruct req; cbn [negb orb]; [|done]. f_equal. f_equal.
    destruct (decide (kl_key (keylet_depositPreauth sha512Half dst src) = akey dst)) as [Ek|Ek]; [|by rewrite Hsh].
    assert (Hn1 : shown m1 (keylet_depositPreauth sha512Half dst src) = None).
    { destruct (shown m1 (keylet_depositPreauth sha512Half dst src)) as [s'|] eqn:E'; [|done]. exfalso. refine (shown_keys m1 (keylet_depositPreauth sha512Half dst src) (acct dst) s' s _ _ E' Hs _ Ek); done. }
    rewrite Hn1. destruct (shown m (keylet_depositPreauth sha512Half dst src)) as [s'|] eqn:E'; [|done]. exfalso. destruct (shown_type m (keylet_depositPreauth sha512Half dst src) s' eq_refl E') as [Hl Ht']. rewrite Ek in Hl. destruct Hk as [Hk|[s0 Hs0]]; [congruence|].
    refine (shown_keys m (keylet_depositPreauth sha512Half dst src) (acct dst) s' s0 _ _ E' Hs0 _ Ek); done. }
  assert (Hauth : run_map (if req then direct_authorised sha512Half info ap dst a (sle_data s) else mret true) (m1, d) = Ok (takes_deposit m src dst n, (m1, d))).
  { rewrite Htakes. destruct req; [|done]. cbn [negb orb]. apply direct_authorised_run; [done|]. by exists bd. }
  rewrite run_assoc, (OwnerDir.run_step _ _ _ _ _ _ Hauth). destruct (takes_deposit m src dst n) eqn:Htk; cbn [negb].
  - destruct (direct_writes m1 ss s p Hm1 S1 Hss1 Hs Hmo) as (m' & E' & Hm' & Ht' & Hmv & Hsome); [lia|]. rewrite (OwnerDir.run_step _ _ _ _ _ _ E'). exists tesSUCCESS, m', count. split_and!; try done. rewrite (proj2 (Z.ltb_ge _ _)) by lia. done.
  - exists tecNO_PERMISSION, m1, count. split_and!; try done; [by apply same_money_total|]. rewrite (proj2 (Z.ltb_ge _ _)) by lia. done.
Qed.
End Direct.

Lemma checks_Payment sha512Half info calc : common_checks (Payment sha512Half info calc).
Proof. unfold Payment, Payment_preflight. class_checks. Qed.

(** C8. A payment of SFC without paths does exactly what it says. After the fee is taken,
    in a well-formed ledger, the payment of [n] drops to another account always returns.
    It is refused as unfunded when the balance before the fee is less than [n] and the
    larger of the reserve and the fee, and for lack of permission when the destination
    asks for authorization, has not given it to the source, and either it or the payment
    is above the base reserve. In every other case exactly [n] drops go from the source
    to the destination, which is made if it was not there; every other holding of SFC
    and the total are as before. *)
Theorem direct_payment sha512Half info calc ap m d dst n fee a : ledger_ok m -> total_drops m <= cMaxNativeN -> sane_fees (fees info) -> is_drops a n -> 0 <= n ->
  (a ← getFieldAmount (tx_object (ap_tx ap)) sfFee; sfc a) = Ok fee -> 0 <= fee <= cMaxNativeN -> mPriorBalance ap = mSourceBalance ap + fee ->
  money m (kl_key (keylet_account sha512Half (account_ ap))) = mSourceBalance ap -> kl_key (keylet_account sha512Half (account_ ap)) <> kl_key (keylet_account sha512Half dst) ->
  tx_has (ap_tx ap) sfPaths = false -> at_opt as_amount no_amount (tx_object (ap_tx ap)) sfSendMax = Ok None -> at_opt as_amount no_amount (tx_object (ap_tx ap)) sfDeliverMin = Ok None ->
  getAccountID (tx_object (ap_tx ap)) sfDestination = Ok dst -> getFieldAmount (tx_object (ap_tx ap)) sfAmount = Ok a -> is_Some (shown m (keylet_account sha512Half (account_ ap))) ->
  m !! kl_key (keylet_account sha512Half dst) = None \/ is_Some (shown m (keylet_account sha512Half dst)) ->
  paid_directly sha512Half info ap dst n fee m d (run_map (Payment_doApply sha512Half info calc ap) (m, d)).
Proof. intros. by apply (payment_run sha512Half info calc ap m d dst n fee a). Qed.

(** Account 5 pays 300 drops to account 6. *)
Definition sample_payment : Applying :=
  mkApplying (sample_tx ttPAYMENT (fun o => o ← setAccountID o sfAccount 5; o ← setFieldAmount o sfFee (ofSigned 10); o ← setAccountID o sfDestination 6; setFieldAmount o sfAmount (ofSigned 300))) 5 1000000010 1000000000 10 0.

Lemma direct_payment_witness :
  paid_directly id_digest sample_info sample_payment 6 300 10 sample_accounts 0 (run_map (Payment_doApply id_digest sample_info (fun _ => mret ((tesSUCCESS : Z), no_amount)) sample_payment) (sample_accounts, 0)).
Proof.
  refine (direct_payment id_digest sample_info (fun _ => mret ((tesSUCCESS : Z), no_amount)) sample_payment sample_accounts 0 6 300 10 (ofSigned 300) _ _ sample_fees _ _ _ _ _ _ _ _ _ _ _ _ _ _);
    [apply ledger_okb_ok; vm_compute; reflexivity|vm_compute; discriminate| |lia|vm_compute; reflexivity|vm_compute; split; discriminate|vm_compute; reflexivity|vm_compute; reflexivity|vm_compute; discriminate|vm_compute; reflexivity|vm_compute; reflexivity|vm_compute; reflexivity|vm_compute; reflexivity|vm_compute; reflexivity| | ].
  - split_and!; [split_and!; [reflexivity|split; [reflexivity|vm_compute; split; discriminate]|reflexivity]|reflexivity|reflexivity].
  - eexists. vm_compute. reflexivity.
  - right. eexists. vm_compute. reflexivity.
Defined.
