(* ===== verification/ChangeTx.v ===== *)
(** * Pseudo-transactions

    Models Change.cpp and Change.h of app/tx/impl: the transactions validators agree on,
    with no account, no fee and no signature, which enable amendments, record their
    majorities and set the fees. *)

From S2P Require Import Prelude STAmount Serializer Keys SField STObject STAccess View TER Indexes Formats STTx RawStateTable ApplyStateTable Prog.
From S2P Require Import HashRouter LoadFee Invariants Entries TxMeta MetaCommit OwnerDir LedgerView Transactor Engine AccountTx Funds.

(** [STTx::getSignature], which catches what is thrown. *)
Definition getSignature (tx : STTx) : list Z := match getFieldVL (tx_object tx) sfTxnSignature with Ok b => b | Throw _ => [] end.

Definition Change_preflight (ctx : PreflightContext) : res Z :=
  let tx := tx_object (pf_tx ctx) in
  unless_tes (preflight0 ctx) (
  account ← getAccountID tx sfAccount;
  if negb (account =? 0) then Ok (temBAD_SRC_ACCOUNT : Z) else
  fee ← getFieldAmount tx sfFee;
  if negb (mIsNative fee) || negb (is_zero fee) then Ok (temBAD_FEE : Z) else
  spk ← getSigningPubKey (pf_tx ctx);
  if negb (bool_decide (spk = [])) || negb (bool_decide (getSignature (pf_tx ctx) = [])) || isFieldPresent tx sfSigners then Ok (temBAD_SIGNATURE : Z) else
  seq ← getSequence (pf_tx ctx);
  if negb (seq =? 0) || isFieldPresent tx sfPreviousTxnID then Ok (temBAD_SEQUENCE : Z) else
  Ok (tesSUCCESS : Z)).

Section Change.
Context (sha512Half : list Z -> Z) (info : ViewInfo).

Definition Change_preclaim (tx : STTx) (flags : Z) : prog Z :=
  if is_open info then mret (temINVALID : Z) else
  if negb (tx_type_ tx =? ttAMENDMENT) && negb (tx_type_ tx =? ttFEE) then mret (temUNKNOWN : Z) else
  mret (tesSUCCESS : Z).

(** The majorities without that of an amendment, and whether it was among them; none
    when a majority it already has is announced. *)
Fixpoint other_majorities (gotMajority : bool) (amendment : Z) (l : list (SField * Fields)) : res (option (bool * list (SField * Fields))) :=
  match l with
  | [] => Ok (Some (false, []))
  | e :: l =>
      a ← getFieldH256 (inner_object e) sfAmendment;
      if a =? amendment then
        if gotMajority then Ok None else (r ← other_majorities gotMajority amendment l; Ok (option_map (fun x => (true, x.2)) r))
      else (r ← other_majorities gotMajority amendment l; Ok (option_map (fun x => (x.1, e :: x.2)) r))
  end.

(** The entry is made when it is not there. *)
Definition present_entry (k : Keylet) : prog Object :=
  s ← peek k;
  match s with
  | None => _ ← insert_new k Ok; peek_object k
  | Some s => mret (sle_data s)
  end.

Definition new_majority (amendment : Z) : SField * Fields := (sfMajority, [(sfAmendment, V_Hash256 amendment); (sfCloseTime, V_UInt32 (parentCloseTime info))]).

(** The entry with the new majorities, and the amendment enabled when no flag is set. *)
Definition write_amendments (amendment : Z) (gotMajority lostMajority : bool) (amendments : list Z) (newMajorities : list (SField * Fields)) (o : Object) : res Object :=
  let newMajorities := if gotMajority then newMajorities ++ [new_majority amendment] else newMajorities in
  o ← (if negb gotMajority && negb lostMajority then setFieldV256 o sfAmendments (amendments ++ [amendment]) else Ok o);
  if bool_decide (newMajorities = []) then makeFieldAbsent o sfMajorities else setFieldArray o sfMajorities newMajorities.

(** The amendment table and the operations of the server hear of it besides. *)
Definition applyAmendment (tx : STTx) : prog Z :=
  amendment ← liftR (getFieldH256 (tx_object tx) sfAmendment);
  let k := keylet_amendments sha512Half in
  amendmentObject ← present_entry k;
  amendments ← liftR (getFieldV256 amendmentObject sfAmendments);
  if bool_decide (amendment ∈ amendments) then mret (tefALREADY : Z) else
  let gotMajority := has_flags (tx_flags tx) tfGotMajority in
  let lostMajority := has_flags (tx_flags tx) tfLostMajority in
  if gotMajority && lostMajority then mret (temINVALID_FLAG : Z) else
  majorities ← liftR (if isFieldPresent amendmentObject sfMajorities then l ← getFieldArray amendmentObject sfMajorities; other_majorities gotMajority amendment l else Ok (Some (false, [])));
  match majorities with
  | None => mret (tefALREADY : Z)
  | Some (found, newMajorities) =>
      if negb found && lostMajority then mret (tefALREADY : Z) else
      _ ← modify k (write_amendments amendment gotMajority lostMajority amendments newMajorities);
      mret (tesSUCCESS : Z)
  end.

Definition write_fees (tx : Object) (o : Object) : res Object :=
  baseFee ← getFieldU64 tx sfBaseFee;
  o ← setFieldU64 o sfBaseFee baseFee;
  units ← getFieldU32 tx sfReferenceFeeUnits;
  o ← setFieldU32 o sfReferenceFeeUnits units;
  base ← getFieldU32 tx sfReserveBase;
  o ← setFieldU32 o sfReserveBase base;
  increment ← getFieldU32 tx sfReserveIncrement;
  setFieldU32 o sfReserveIncrement increment.

Definition applyFee (tx : STTx) : prog Z :=
  let k := keylet_fees sha512Half in
  _ ← present_entry k;
  _ ← modify k (write_fees (tx_object tx));
  mret (tesSUCCESS : Z).

Definition Change_doApply (ap : Applying) : prog Z := if tx_type_ (ap_tx ap) =? ttAMENDMENT then applyAmendment (ap_tx ap) else applyFee (ap_tx ap).

Definition Change : TxClass := mkClass Change_preflight (fun _ => mret 0) Change_preclaim (fun a => ter ← Change_doApply a; mret (ter, None)) (fun _ => Ok false) (fun _ => Ok 0).
End Change.

(** ** What holds of it *)

(** The amendments that are enabled, and the times of the majorities. *)
Definition AmendmentState : Type := gset Z * gmap Z Z.

(** What the announcement of an amendment means: nothing, when it is enabled already,
    when a majority is gained twice, and when one is lost that is not there. *)
Definition announce (now amendment : Z) (gotMajority lostMajority : bool) (st : AmendmentState) : option AmendmentState :=
  let '(E, M) := st in
  if bool_decide (amendment ∈ E) then None else
  if gotMajority && lostMajority then None else
  if gotMajority then (if M !! amendment then None else Some (E, <[amendment := now]> M))
  else if lostMajority then (if M !! amendment then Some (E, delete amendment M) else None)
  else Some (E ∪ {[amendment]}, delete amendment M).

Definition of_majorities (M : gmap Z Z) (l : list (Z * Z)) : gmap Z Z := foldl (fun ret e => <[e.1 := e.2]> ret) M l.

Lemma of_majorities_delete a l : forall M, of_majorities (delete a M) (filter (fun e => e.1 <> a) l) = delete a (of_majorities M l).
Proof.
  induction l as [|[b t] l IH]; intros M; [done|]. unfold of_majorities in *. cbn [foldl fst snd]. rewrite filter_cons. destruct (decide (b = a)) as [->|Hb].
  - rewrite decide_False by (cbn; tauto). rewrite <-IH. f_equal. by rewrite delete_insert_eq.
  - rewrite decide_True by done. cbn [foldl fst snd]. rewrite <-IH. f_equal. by rewrite delete_insert_ne by done.
Qed.

Lemma of_majorities_None a l : forall M, (of_majorities M l) !! a = None <-> M !! a = None /\ a ∉ l.*1.
Proof.
  induction l as [|[b t] l IH]; intros M; [cbn; set_solver|]. unfold of_majorities in *. cbn [foldl fst snd]. rewrite IH, fmap_cons. cbn [fst]. rewrite not_elem_of_cons, lookup_insert_None. naive_solver.
Qed.

Lemma of_majorities_app M l a t : of_majorities M (l ++ [(a, t)]) = <[a := t]> (of_majorities M l).
Proof. unfold of_majorities. by rewrite foldl_app. Qed.

(** The majorities of the entry, without one of them. *)
Lemma other_majorities_spec got a l : forall ms, mapR majority_of l = Ok ms ->
  exists r, other_majorities got a l = Ok r /\
    match r with
    | None => got = true /\ a ∈ ms.*1
    | Some (found, rest) => found = bool_decide (a ∈ ms.*1) /\ (got = true -> a ∉ ms.*1) /\ mapR majority_of rest = Ok (filter (fun e => e.1 <> a) ms)
    end.
Proof.
  induction l as [|e l IH]; intros ms Hms; [injection Hms as <-; eexists; split; [reflexivity|]; cbn; set_solver|]. cbn [mapR] in Hms. apply bind_Ok_inv in Hms as ([b t] & Hb & Hms). apply bind_Ok_inv in Hms as (ms' & Hms' & [= <-]).
  destruct (IH ms' Hms') as (r & Hr & Hspec). pose proof Hb as Hb'. unfold majority_of in Hb'. apply bind_Ok_inv in Hb' as (b' & Hb1 & Hb'). apply bind_Ok_inv in Hb' as (t' & Ht1 & [= -> ->]).
  cbn [other_majorities]. unfold inner_object. rewrite Hb1. cbn [mbind res_bind]. rewrite filter_cons, fmap_cons. cbn [fst]. destruct (Z.eqb_spec b a) as [->|Hne].
  - destruct got; [exists None; split; [done|]; split; [done|left]|]. rewrite Hr. cbn [mbind res_bind]. eexists. split; [reflexivity|]. destruct r as [[found rest]|]; cbn; [|destruct Hspec; done].
    destruct Hspec as (_ & _ & Hrest). rewrite decide_False by tauto. split_and!; [symmetry; apply bool_decide_eq_true_2; left|done|done].
  - rewrite Hr. cbn [mbind res_bind]. eexists. split; [reflexivity|]. destruct r as [[found rest]|]; cbn; [|split; [apply Hspec|right; apply Hspec]]. destruct Hspec as (-> & Hgot & Hrest). rewrite decide_True by done. split_and!.
    + apply bool_decide_ext. rewrite elem_of_cons. naive_solver.
    + intros Hg. rewrite not_elem_of_cons. split; [congruence|by apply Hgot].
    + rewrite Hb. cbn [mbind res_bind]. by rewrite Hrest.
Qed.

Section Amend.
Context (sha512Half : list Z -> Z) (info : ViewInfo).

Abbreviation k := (keylet_amendments sha512Half).

(** The entry of the amendments says a state; where it is not there, nothing is enabled. *)
Definition says (m : gmap Z (SLE Object)) (st : AmendmentState) : Prop :=
  run_map (getEnabledAmendments sha512Half) (m, 0) = Ok (st.1, (m, 0)) /\ run_map (getMajorityAmendments sha512Half) (m, 0) = Ok (st.2, (m, 0)).

(** What an object of the entry says. *)
Definition object_says (o : Object) (v : list Z) (ms : list (Z * Z)) : Prop :=
  getFieldV256 o sfAmendments = Ok v /\ (if isFieldPresent o sfAmendments then True else v = []) /\
  exists l, (if isFieldPresent o sfMajorities then getFieldArray o sfMajorities else Ok []) = Ok l /\ mapR majority_of l = Ok ms.

Lemma object_says_state m s v ms : shown m k = Some s -> object_says (sle_data s) v ms -> says m (list_to_set v, of_majorities ∅ ms).
Proof.
  intros Hs (Hv & Hpres & l & Hl & Hms). split.
  - unfold getEnabledAmendments. rewrite run_mbind, run_read, Hs. cbn [mbind res_bind]. destruct (isFieldPresent (sle_data s) sfAmendments); [|by subst v]. by rewrite (run_lift_step _ _ _ _ _ Hv).
  - unfold getMajorityAmendments. rewrite run_mbind, run_read, Hs. cbn [mbind res_bind]. destruct (isFieldPresent (sle_data s) sfMajorities); [by rewrite (run_lift_step _ _ _ _ _ Hl), (run_lift_step _ _ _ _ _ Hms)|]. injection Hl as <-. by injection Hms as <-.
Qed.

Lemma absent_field {V} (cast : STValue -> option V) empty s f : sle_ok s -> has_field (sle_type s) f = true -> isFieldPresent (sle_data s) f = false -> getFieldBy cast empty (sle_data s) f = Ok empty.
Proof.
  intros Hs Hf Hp. destruct (has_field_index s f Hs Hf) as [i Hi]. destruct Hs as (t & _ & _ & Ho). destruct (ok_at _ f i Ho Hi) as (g & v & _ & _ & _ & _ & Hpk). unfold getFieldBy, isFieldPresent in *. rewrite Hpk in *. by rewrite Hp.
Qed.

Lemma says_object m s st : ledger_ok m -> shown m k = Some s -> says m st -> exists v ms, object_says (sle_data s) v ms /\ st = (list_to_set v, of_majorities ∅ ms).
Proof.
  intros Hm Hs [HE HM]. destruct (shown_type m k s eq_refl Hs) as [Hl Ht]. destruct (Hm _ _ Hl) as (_ & Hok & _).
  unfold getEnabledAmendments in HE. rewrite run_mbind, run_read, Hs in HE. cbn [mbind res_bind] in HE. unfold getMajorityAmendments in HM. rewrite run_mbind, run_read, Hs in HM. cbn [mbind res_bind] in HM.
  assert (Hv : exists v, getFieldV256 (sle_data s) sfAmendments = Ok v /\ (if isFieldPresent (sle_data s) sfAmendments then True else v = []) /\ st.1 = list_to_set v).
  { destruct (isFieldPresent (sle_data s) sfAmendments) eqn:Hp; [apply run_bind_inv in HE as (v & m1 & d1 & [Hv [= -> ->]]%run_lift_inv & [E _]%run_ret_inv); by exists v|].
    apply run_ret_inv in HE as [E _]. exists []. split; [apply absent_field; [done|by rewrite Ht|done]|done]. }
  assert (Hms : exists l ms, (if isFieldPresent (sle_data s) sfMajorities then getFieldArray (sle_data s) sfMajorities else Ok []) = Ok l /\ mapR majority_of l = Ok ms /\ st.2 = of_majorities ∅ ms).
  { destruct (isFieldPresent (sle_data s) sfMajorities); [|apply run_ret_inv in HM as [E _]; by exists [], []]. apply run_bind_inv in HM as (l & m1 & d1 & [Hl1 [= -> ->]]%run_lift_inv & HM).
    apply run_bind_inv in HM as (ms & m1 & d1 & [Hms [= -> ->]]%run_lift_inv & [E _]%run_ret_inv). by exists l, ms. }
  destruct Hv as (v & Hv1 & Hv2 & Hv3), Hms as (l & ms & Hl1 & Hms & Hst). exists v, ms. split; [|destruct st; cbn in *; congruence]. split; [done|]. split; [done|]. by exists l.
Qed.

(** The entry after it is looked up or made. *)
Lemma present_entry_run m d st : ledger_ok m -> m !! kl_key k = None \/ is_Some (shown m k) -> says m st ->
  exists s m1 v ms, run_map (present_entry k) (m, d) = Ok (sle_data s, (m1, d)) /\ shown m1 k = Some s /\ ledger_ok m1 /\ same_outside [ltAMENDMENTS] m m1 /\ object_says (sle_data s) v ms /\ st = (list_to_set v, of_majorities ∅ ms).
Proof.
  intros Hm Hk Hst. unfold present_entry. rewrite run_peek_step. destruct (shown m k) as [s|] eqn:Hs.
  - destruct (says_object m s st Hm Hs Hst) as (v & ms & Ho & E). by exists s, m, v, ms.
  - destruct Hk as [Hnone|[? ?]]; [|congruence]. assert (Hnew : exists s, new_sle k Ok = Ok s /\ object_says (sle_data s) [] []).
    { generalize (kl_key k). intros key. change k with (mkKeylet ltAMENDMENTS (kl_key k)). generalize (kl_key k). intros key'. eexists. split; [vm_compute; reflexivity|]. split; [done|]. split; [done|]. by exists []. }
    destruct Hnew as (s & E & Hos). destruct (new_sle_inv [] k Ok s (writes_ret []) E) as (Hok & Ht & Hkey & _). exists s, (<[kl_key k := s]> m), [], [].
    assert (Hs1 : shown (<[kl_key k := s]> m) k = Some s) by (unfold shown; rewrite lookup_insert_eq; cbn; unfold check; rewrite Ht; done).
    unfold insert_new. rewrite run_assoc, (run_lift_step _ _ _ _ _ E), run_mbind, (run_insert s m d) by (by rewrite Hkey). cbn [mbind res_bind]. rewrite Hkey, (run_peek_object _ _ d s Hs1). split_and!; try done.
    + apply ledger_ok_insert; [done|done|done|]. apply money_ok_other. by rewrite Ht.
    + apply same_outside_insert; [rewrite Ht; set_solver|]. intros s0 Hs0. congruence.
    + destruct Hst as [HE HM]. unfold getEnabledAmendments in HE. rewrite run_mbind, run_read, Hs in HE. unfold getMajorityAmendments in HM. rewrite run_mbind, run_read, Hs in HM. injection HE as HE. injection HM as HM. destruct st. cbn in *. by subst.
Qed.

Lemma mapR_snoc {A B} (f : A -> res B) l ys x y : mapR f l = Ok ys -> f x = Ok y -> mapR f (l ++ [x]) = Ok (ys ++ [y]).
Proof.
  revert ys. induction l as [|z l IH]; intros ys; cbn [mapR app]; [intros [= <-] ->; done|]. intros (w & Hw & (ws & Hws & [= <-])%bind_Ok_inv)%bind_Ok_inv Hx. rewrite Hw. cbn [mbind res_bind]. by rewrite (IH ws Hws Hx).
Qed.

(** The majorities of the entry are written. *)
Lemma write_majorities s l ms o v : sle_ok s -> sle_type s = ltAMENDMENTS -> evolves [sfAmendments] (sle_data s) o -> mapR majority_of l = Ok ms ->
  getFieldV256 o sfAmendments = Ok v -> (if isFieldPresent o sfAmendments then True else v = []) ->
  exists o', (if bool_decide (l = []) then makeFieldAbsent o sfMajorities else setFieldArray o sfMajorities l) = Ok o' /\ object_says o' v ms /\ evolves [sfAmendments; sfMajorities] (sle_data s) o'.
Proof.
  intros Hok Ht Hev Hms Hv Hp. assert (Hs' : sle_ok (with_data s o)) by (by eapply sle_ok_evolves). assert (Hsub : evolves [sfAmendments; sfMajorities] (sle_data s) o) by (eapply evolves_sub; [|exact Hev]; set_solver).
  assert (Hsays : forall w o', written_to o sfMajorities w o' -> (if isPresent w then as_array w = Some l else l = []) -> object_says o' v ms /\ evolves [sfAmendments; sfMajorities] (sle_data s) o').
  { intros w o' Hw Hl. split; [|eapply evolves_trans; [exact Hsub|eapply written_evolves; [exact Hw|refine (bool_decide_unpack _ _); vm_compute; exact I]]].
    assert (Hoff : peekAtPField o' sfAmendments = peekAtPField o sfAmendments) by (by eapply written_off). unfold object_says, getFieldV256, getFieldBy, isFieldPresent in *. rewrite Hoff, (written_here _ _ _ _ Hw). split; [done|]. split; [done|].
    exists l. split; [|done]. destruct (isPresent w) eqn:Epw; [|by subst l]. unfold getFieldArray, getFieldBy. rewrite (written_here _ _ _ _ Hw), Epw, Hl. done. }
  case_bool_decide as Hl0.
  - destruct (makeFieldAbsent_Ok o sfMajorities) as (o' & E & Hw); [apply Hev|field_ok_tac|apply (has_field_index (with_data s o)); [done|cbn [sle_type with_data]; by rewrite Ht]|]. exists o'. split; [done|]. apply (Hsays _ _ Hw). done.
  - destruct (set_field (with_data s o) sfMajorities (V_Array l) Hs') as (o' & E & Hw & _); [cbn [sle_type with_data]; by rewrite Ht|field_ok_tac|done|]. exists o'. split; [done|]. apply (Hsays _ _ Hw). done.
Qed.

Definition amendment_done (m : gmap Z (SLE Object)) (d now amendment : Z) (got lost : bool) (st : AmendmentState) (r : res (Z * (gmap Z (SLE Object) * Z))) : Prop :=
  exists ter m', r = Ok (ter, (m', d)) /\ ledger_ok m' /\ same_money m m' /\ same_outside [ltAMENDMENTS] m m' /\
    match announce now amendment got lost st with
    | None => (ter = tefALREADY \/ ter = temINVALID_FLAG) /\ says m' st
    | Some st' => ter = tesSUCCESS /\ says m' st'
    end.

Lemma write_amendments_run s a got lost v ms rest : sle_ok s -> sle_type s = ltAMENDMENTS -> object_says (sle_data s) v ms -> got && lost = false -> (got = true -> a ∉ ms.*1) -> mapR majority_of rest = Ok (filter (fun e => e.1 <> a) ms) ->
  exists o' v' ms', write_amendments info a got lost v rest (sle_data s) = Ok o' /\ evolves [sfAmendments; sfMajorities] (sle_data s) o' /\ object_says o' v' ms' /\
    v' = (if negb got && negb lost then v ++ [a] else v) /\ ms' = filter (fun e => e.1 <> a) ms ++ (if got then [(a, parentCloseTime info)] else []).
Proof.
  intros Hok Ht (Hv & Hp & _) Hgl Hgot Hrest. set (l := if got then rest ++ [new_majority info a] else rest). set (ms' := filter (fun e => e.1 <> a) ms ++ (if got then [(a, parentCloseTime info)] else [])).
  assert (Hl : mapR majority_of l = Ok ms'). { subst l ms'. destruct got; [|by rewrite app_nil_r]. apply mapR_snoc; [done|]. by vm_compute. }
  destruct (sle_ok_templated s Hok) as [Hob _].
  assert (Hset : exists o1, (if negb got && negb lost then setFieldV256 (sle_data s) sfAmendments (v ++ [a]) else Ok (sle_data s)) = Ok o1 /\ evolves [sfAmendments] (sle_data s) o1 /\
    getFieldV256 o1 sfAmendments = Ok (if negb got && negb lost then v ++ [a] else v) /\ (if isFieldPresent o1 sfAmendments then True else (if negb got && negb lost then v ++ [a] else v) = [])).
  { destruct (negb got && negb lost); [|exists (sle_data s); split_and!; try done]. destruct (set_field s sfAmendments (V_Vector256 (v ++ [a])) Hok) as (o1 & E & Hw & _); [by rewrite Ht|field_ok_tac|done|].
    exists o1. split; [done|]. split; [eapply written_evolves; [exact Hw|left]|]. unfold getFieldV256, getFieldBy, isFieldPresent. by rewrite (written_here _ _ _ _ Hw). }
  destruct Hset as (o1 & E1 & Hev & Hv1 & Hp1). destruct (write_majorities s l ms' o1 _ Hok Ht Hev Hl Hv1 Hp1) as (o' & E' & Hsays & Hev'). exists o', (if negb got && negb lost then v ++ [a] else v), ms'.
  split_and!; try done. unfold write_amendments. rewrite E1. cbn [mbind res_bind]. done.
Qed.

(** The announcement, on the lists of the entry. *)
Lemma announce_lists now a got lost v ms : a ∉ v -> got && lost = false -> (got = true -> a ∉ ms.*1) -> (lost = true -> a ∈ ms.*1) ->
  announce now a got lost (list_to_set v, of_majorities ∅ ms) =
    Some (list_to_set (if negb got && negb lost then v ++ [a] else v), of_majorities ∅ (filter (fun e => e.1 <> a) ms ++ (if got then [(a, now)] else []))).
Proof.
  intros Ha Hgl Hgot Hlost. unfold announce. rewrite bool_decide_eq_false_2, Hgl by (by rewrite elem_of_list_to_set).
  assert (Hd : of_majorities ∅ (filter (fun e => e.1 <> a) ms) = delete a (of_majorities ∅ ms)) by (by rewrite <-of_majorities_delete, delete_empty).
  assert (Hn : of_majorities ∅ ms !! a = None <-> a ∉ ms.*1) by (rewrite of_majorities_None, lookup_empty; tauto).
  destruct got; cbn [negb andb].
  - rewrite of_majorities_app, Hd, insert_delete_eq. by rewrite (proj2 Hn (Hgot eq_refl)).
  - rewrite app_nil_r, Hd. destruct lost; cbn [negb]; [|by rewrite list_to_set_app_L, list_to_set_singleton_L]. destruct (of_majorities ∅ ms !! a) eqn:E; [done|]. by destruct (proj1 Hn eq_refl (Hlost eq_refl)).
Qed.

Lemma announce_refused now a got lost v ms : got = true /\ a ∈ ms.*1 \/ lost = true /\ a ∉ ms.*1 -> got && lost = false -> announce now a got lost (list_to_set v, of_majorities ∅ ms) = None.
Proof.
  intros H Hgl. unfold announce. rewrite Hgl. case_bool_decide; [done|]. assert (Hn : of_majorities ∅ ms !! a = None <-> a ∉ ms.*1) by (rewrite of_majorities_None, lookup_empty; tauto).
  destruct H as [[-> H]|[-> H]]; [destruct (of_majorities ∅ ms !! a) eqn:E; [done|by destruct (proj1 Hn eq_refl H)]|]. destruct got; [done|]. by rewrite (proj2 Hn H).
Qed.

Lemma neutral_present T k0 : kl_type k0 ∈ T -> holds_sfc (kl_type k0) = false -> neutral T (present_entry k0).
Proof. intros HT Hn. unfold present_entry. pose proof (neutral_new T [] k0 Ok (writes_ret []) HT Hn). neutral_tac. Qed.

Lemma neutral_applyAmendment tx : neutral [ltAMENDMENTS] (applyAmendment sha512Half info tx).
Proof.
  unfold applyAmendment. pose proof (neutral_present [ltAMENDMENTS] k ltac:(left) eq_refl) as Hp. neutral_tac; try done. destruct p as [found l]. neutral_tac.
  apply (neutral_modify _ [sfAmendments; sfMajorities]); [done|left|by left|]. unfold write_amendments. writes_tac; destruct (bool_decide _); writes_tac.
Qed.

Lemma neutral_applyFee tx : neutral [ltFEE_SETTINGS] (applyFee sha512Half tx).
Proof.
  unfold applyFee. pose proof (neutral_present [ltFEE_SETTINGS] (keylet_fees sha512Half) ltac:(left) eq_refl) as Hp. neutral_tac; try done.
  apply (neutral_modify _ [sfBaseFee; sfReferenceFeeUnits; sfReserveBase; sfReserveIncrement]); [done|left|by left|]. unfold write_fees. writes_tac.
Qed.

(** What [applyAmendment] returns, and what the entry says then. *)
Lemma applyAmendment_run m d st tx a : ledger_ok m -> m !! kl_key k = None \/ is_Some (shown m k) -> says m st -> getFieldH256 (tx_object tx) sfAmendment = Ok a ->
  exists ter m', run_map (applyAmendment sha512Half info tx) (m, d) = Ok (ter, (m', d)) /\
    match announce (parentCloseTime info) a (has_flags (tx_flags tx) tfGotMajority) (has_flags (tx_flags tx) tfLostMajority) st with
    | None => (ter = tefALREADY \/ ter = temINVALID_FLAG) /\ says m' st
    | Some st' => ter = tesSUCCESS /\ says m' st'
    end.
Proof.
  intros Hm Hk Hst Ha. destruct (present_entry_run m d st Hm Hk Hst) as (s & m1 & v & ms & Hpe & Hs & Hm1 & _ & Ho & ->). pose proof (object_says_state m1 s v ms Hs Ho) as Hst1.
  unfold applyAmendment. rewrite (run_lift_step _ _ _ _ _ Ha), run_mbind, Hpe. cbn [mbind res_bind]. pose proof Ho as (Hv & _ & l & Hl & Hms). rewrite (run_lift_step _ _ _ _ _ Hv).
  generalize (has_flags (tx_flags tx) tfGotMajority), (has_flags (tx_flags tx) tfLostMajority). intros got lost. cbv zeta.
  destruct (bool_decide (a ∈ v)) eqn:Hin; [apply bool_decide_eq_true_1 in Hin; eexists _, m1; split; [reflexivity|]; unfold announce; rewrite bool_decide_eq_true_2 by (by rewrite elem_of_list_to_set); auto|apply bool_decide_eq_false_1 in Hin].
  destruct (got && lost) eqn:Hgl; [eexists _, m1; split; [reflexivity|]; unfold announce; rewrite Hgl; destruct (bool_decide _); auto|].
  destruct (other_majorities_spec got a l ms Hms) as (r & Hr & Hspec).
  assert (Hr' : (if isFieldPresent (sle_data s) sfMajorities then l0 ← getFieldArray (sle_data s) sfMajorities; other_majorities got a l0 else Ok (Some (false, []))) = Ok r).
  { destruct (isFieldPresent (sle_data s) sfMajorities); [rewrite Hl; exact Hr|]. injection Hl as <-. exact Hr. }
  rewrite (run_lift_step _ _ _ _ _ Hr'). destruct r as [[found rest]|]; [|eexists _, m1; split; [reflexivity|]; rewrite announce_refused; auto]. destruct Hspec as (-> & Hgot & Hrest).
  destruct (negb (bool_decide (a ∈ ms.*1)) && lost) eqn:Hl2; [apply andb_true_iff in Hl2 as [Hl2%negb_true_iff%bool_decide_eq_false_1 ->]; eexists _, m1; split; [reflexivity|]; rewrite announce_refused; auto|].
  destruct (shown_type m1 k s eq_refl Hs) as [Hl1 Ht]. destruct (Hm1 _ _ Hl1) as (_ & Hok & _). destruct (write_amendments_run s a got lost v ms rest Hok Ht Ho Hgl Hgot Hrest) as (o' & v' & ms' & Hw & Hev & Ho' & Ev & Ems).
  rewrite run_mbind, (run_modify _ _ _ d s o' Hs Hw). cbn [mbind res_bind]. eexists _, _. split; [reflexivity|]. rewrite announce_lists; [|done|done|done|]; subst; [split; [done|]|].
  - apply (object_says_state _ (with_data s o')); [|done]. apply shown_Some. rewrite lookup_insert_eq. split; [done|]. by apply shown_Some in Hs as [_ Hc].
  - intros ->. rewrite andb_true_r in Hl2. by apply negb_false_iff, bool_decide_eq_true_1 in Hl2.
Qed.

(** C27. The amendments entry refines the set of enabled amendments with the times of the
    majorities. In a well-formed ledger where the entry says the state [st], or is not
    there and nothing is enabled, [applyAmendment] returns. Where the announcement means
    nothing, because the amendment is enabled already, has a majority that is announced
    again, has none that is lost, or carries both flags, the result is tefALREADY or
    temINVALID_FLAG and the entry says the same. Otherwise the result is tesSUCCESS, and
    the entry says the state with the majority recorded at the close time of the parent,
    removed, or replaced by the amendment itself. No other entry changes, no SFC moves
    and the ledger stays well formed. *)
Theorem amendments_refine m d st tx a : ledger_ok m -> m !! kl_key k = None \/ is_Some (shown m k) -> says m st -> getFieldH256 (tx_object tx) sfAmendment = Ok a ->
  amendment_done m d (parentCloseTime info) a (has_flags (tx_flags tx) tfGotMajority) (has_flags (tx_flags tx) tfLostMajority) st (run_map (applyAmendment sha512Half info tx) (m, d)).
Proof.
  intros Hm Hk Hst Ha. destruct (applyAmendment_run m d st tx a Hm Hk Hst Ha) as (ter & m' & R & H). destruct (neutral_applyAmendment tx m d ter m' d Hm R) as (? & ? & ? & _). exists ter, m'. auto.
Qed.

Lemma checks_Change : common_checks (Change sha512Half info).
Proof.
  intros ctx ter H. cbn [tc_preflight Change] in H. unfold Change_preflight, unless_tes, preflight0 in H. cbn [mbind res_bind] in H. destruct (tid_ (pf_tx ctx) =? 0); [by injection H as <-|]. cbn [isTesSuccess negb] in H.
  apply bind_Ok_inv in H as (id & Hid & H). destruct (Z.eqb_spec id 0) as [->|]; cbn [negb] in H; [|by injection H as <-]. assert (Hc : isTecClaim ter = false).
  { apply bind_Ok_inv in H as (fee & _ & H). destruct (_ || _); [by injection H as <-|]. apply bind_Ok_inv in H as (spk & _ & H). destruct (_ || _); [by injection H as <-|].
    apply bind_Ok_inv in H as (seq & _ & H). destruct (_ || _); by injection H as <-. }
  split; [done|]. by intros _ Hne.
Qed.
End Amend.

(** The first majority, in a ledger that has no entry for amendments. *)
Definition sample_majority : STTx := sample_tx ttAMENDMENT (fun o => o ← setFieldH256 o sfAmendment 77; setFieldU32 o sfFlags tfGotMajority).

Lemma amendments_refine_witness :
  amendment_done id_digest ∅ 0 600000000 77 (has_flags (tx_flags sample_majority) tfGotMajority) (has_flags (tx_flags sample_majority) tfLostMajority) (∅, ∅) (run_map (applyAmendment id_digest sample_info sample_majority) (∅, 0)) /\
  announce 600000000 77 (has_flags (tx_flags sample_majority) tfGotMajority) (has_flags (tx_flags sample_majority) tfLostMajority) (∅, ∅) = Some (∅, {[77 := 600000000]}).
Proof.
  split; [|vm_compute; reflexivity]. refine (amendments_refine id_digest sample_info ∅ 0 (∅, ∅) sample_majority 77 _ _ _ _).
  - intros k s Hk. by rewrite lookup_empty in Hk.
  - left. apply lookup_empty.
  - split; reflexivity.
  - vm_compute. reflexivity.
Defined.
