(* ===== verification/PaymentSandbox.v ===== *)
(** * Payment sandboxes

    Models PaymentSandbox.h and PaymentSandbox.cpp of ledger: the view in which payments
    are worked out. It remembers the credits and debits made through it, so that what a
    payment brings in cannot be spent by the same payment; sandboxes are nested, one per
    attempt. The calls of [accountSend] (ledger/impl/View.cpp) that report a transfer of
    SFC are modelled with it. The second part is the sandbox as a program over the
    program of its parent. *)

From S2P Require Import Prelude STAmount Serializer Keys SField STObject STAccess View TER Indexes Formats RawStateTable ApplyStateTable Prog.
From S2P Require Import Invariants Entries OwnerDir LedgerView.

(** ** Deferred credits *)

Abbreviation CreditKey := (Z * Z * Z)%type.

Record CreditValue := mkCredit { lowAcctCredits : STAmount; highAcctCredits : STAmount; lowAcctOrigBalance : STAmount }.
Record DeferredCredits := mkDeferred { credits_ : gmap CreditKey CreditValue; ownerCounts_ : gmap Z Z }.
Record Adjustment := mkAdjustment { debits : STAmount; credits : STAmount; origBalance : STAmount }.

Definition no_credits : DeferredCredits := mkDeferred ∅ ∅.

Definition makeKey (a1 a2 c : Z) : CreditKey := if a1 <? a2 then (a1, a2, c) else (a2, a1, c).

Definition credit (sender receiver : Z) (amount preCreditSenderBalance : STAmount) (tab : DeferredCredits) : res DeferredCredits :=
  let k := makeKey sender receiver (currency (mIssue amount)) in
  v ← (match credits_ tab !! k with
       | None =>
           z ← zeroed amount;
           Ok (if sender <? receiver then mkCredit z amount preCreditSenderBalance else mkCredit amount z (op_neg preCreditSenderBalance))
       | Some v =>
           if sender <? receiver
           then h ← op_add (highAcctCredits v) amount; Ok (mkCredit (lowAcctCredits v) h (lowAcctOrigBalance v))
           else l ← op_add (lowAcctCredits v) amount; Ok (mkCredit l (highAcctCredits v) (lowAcctOrigBalance v))
       end);
  Ok (mkDeferred (<[k := v]> (credits_ tab)) (ownerCounts_ tab)).

Definition record_ownerCount (id cur next : Z) (tab : DeferredCredits) : DeferredCredits :=
  let v := Z.max cur next in
  mkDeferred (credits_ tab) (<[id := match ownerCounts_ tab !! id with None => v | Some mapVal => Z.max v mapVal end]> (ownerCounts_ tab)).

Definition recorded_ownerCount (id : Z) (tab : DeferredCredits) : option Z := ownerCounts_ tab !! id.

Definition adjustments (main other currency : Z) (tab : DeferredCredits) : option Adjustment :=
  v ← credits_ tab !! makeKey main other currency;
  Some (if main <? other then mkAdjustment (highAcctCredits v) (lowAcctCredits v) (lowAcctOrigBalance v)
        else mkAdjustment (lowAcctCredits v) (highAcctCredits v) (op_neg (lowAcctOrigBalance v))).

(** The loops go over the entries in the order of the keys. *)
Definition merge_value (toVal : option CreditValue) (fromVal : CreditValue) : res CreditValue :=
  match toVal with
  | None => Ok fromVal
  | Some toVal =>
      l ← op_add (lowAcctCredits toVal) (lowAcctCredits fromVal);
      h ← op_add (highAcctCredits toVal) (highAcctCredits fromVal);
      Ok (mkCredit l h (lowAcctOrigBalance toVal))
  end.

Definition merge_credit (i : CreditKey * CreditValue) (to : gmap CreditKey CreditValue) : res (gmap CreditKey CreditValue) :=
  v ← merge_value (to !! i.1) i.2; Ok (<[i.1 := v]> to).

Definition merge_count (i : Z * Z) (to : gmap Z Z) : gmap Z Z := <[i.1 := match to !! i.1 with None => i.2 | Some toVal => Z.max toVal i.2 end]> to.

Definition deferred_apply (from to : DeferredCredits) : res DeferredCredits :=
  c ← foldl (fun r i => to ← r; merge_credit i to) (Ok (credits_ to)) (map_to_list (credits_ from));
  Ok (mkDeferred c (foldl (fun to i => merge_count i to) (ownerCounts_ to) (map_to_list (ownerCounts_ from)))).

(** ** The hooks *)

(** [std::min] of amounts. *)
Definition amount_min (a b : STAmount) : res STAmount := c ← op_lt b a; Ok (if c : bool then b else a).

Section Hooks.
Context (info : ViewInfo).

(** The loop from a sandbox outwards: the debits, the balance before the outermost
    record, and the least of the recorded balances. *)
Fixpoint walk_adjustments (chain : list DeferredCredits) (account issuer currency : Z) (delta lastBal minBal : STAmount) : res (STAmount * STAmount * STAmount) :=
  match chain with
  | [] => Ok (delta, lastBal, minBal)
  | tab :: chain =>
      match adjustments account issuer currency tab with
      | None => walk_adjustments chain account issuer currency delta lastBal minBal
      | Some adj =>
          delta ← op_add delta (debits adj);
          lower ← op_lt (origBalance adj) minBal;
          walk_adjustments chain account issuer currency delta (origBalance adj) (if lower : bool then origBalance adj else minBal)
      end
  end.

Fixpoint walk_credits (chain : list DeferredCredits) (account issuer currency : Z) (adjustedAmt : STAmount) : res STAmount :=
  match chain with
  | [] => Ok adjustedAmt
  | tab :: chain =>
      match adjustments account issuer currency tab with
      | None => walk_credits chain account issuer currency adjustedAmt
      | Some adj => a ← op_sub adjustedAmt (credits adj); walk_credits chain account issuer currency a
      end
  end.

Definition balanceHook (chain : list DeferredCredits) (account issuer : Z) (amount : STAmount) : res STAmount :=
  let cur := currency (mIssue amount) in
  adjustedAmt ←
    (if fix1141 (parentCloseTime info) then
       z ← zeroed amount;
       '(delta, lastBal, minBal) ← walk_adjustments chain account issuer cur z amount amount;
       left ← op_sub lastBal delta;
       a ← amount_min amount left;
       a ← (if enabled info fix1368 then amount_min a minBal else Ok a);
       Ok (if fix1274 (parentCloseTime info) then setIssuer a (STAmount.account (mIssue amount)) else a)
     else walk_credits chain account issuer cur amount);
  Ok (if isSFC issuer && (signum adjustedAmt <? 0) then clear adjustedAmt else adjustedAmt).

Fixpoint ownerCountHook (chain : list DeferredCredits) (account count : Z) : Z :=
  match chain with
  | [] => count
  | tab :: chain => ownerCountHook chain account (match recorded_ownerCount account tab with Some adj => Z.max count adj | None => count end)
  end.
End Hooks.

(** What [accountSend] reports of a transfer of SFC, after the switchover. *)
Definition report_send (from to : Z) (saAmount sndBal rcvBal : STAmount) (tab : DeferredCredits) : res DeferredCredits :=
  tab ← credit from sfcAccount saAmount sndBal tab;
  credit sfcAccount to saAmount (op_neg rcvBal) tab.

(** ** The changes of balances *)

Definition balance_sides (s : SLE Object) : res (option (Z * Z * STAmount)) :=
  if sle_type s =? ltACCOUNT_ROOT then
    high ← at_field as_account 0 (sle_data s) sfAccount; b ← at_field as_amount (ofDrops 0 false) (sle_data s) sfBalance; Ok (Some (sfcAccount, high, b))
  else if sle_type s =? ltSUPPLYFINANCECHAIN_STATE then
    low ← at_field as_amount (ofDrops 0 false) (sle_data s) sfLowLimit;
    high ← at_field as_amount (ofDrops 0 false) (sle_data s) sfHighLimit;
    b ← at_field as_amount (ofDrops 0 false) (sle_data s) sfBalance;
    Ok (Some (STAmount.account (mIssue low), STAmount.account (mIssue high), b))
  else Ok None.

(** [emplace], and the sum when it is new. *)
Definition emplace_change (k : CreditKey) (delta : STAmount) (result : gmap CreditKey STAmount) : res (gmap CreditKey STAmount) :=
  match result !! k with
  | Some _ => Ok result
  | None => d ← op_add delta delta; Ok (<[k := d]> result)
  end.

(** One entry that changed: the accounts of the two sides, and the old and new balance. *)
Definition change_of (isDelete : bool) (before after : option (SLE Object)) : res (option (Z * Z * STAmount * STAmount)) :=
  let nothing := (0, 0, ofDrops 0 false, ofDrops 0 false) in
  match isDelete, before, after with
  | true, None, _ => Ok None
  | true, Some b, _ =>
      r ← balance_sides b;
      match r with Some (low, high, old) => z ← zeroed old; Ok (Some (low, high, old, z)) | None => Ok (Some nothing) end
  | false, None, Some a =>
      r ← balance_sides a;
      match r with Some (low, high, new) => z ← zeroed new; Ok (Some (low, high, z, new)) | None => Ok (Some nothing) end
  | false, Some b, Some a =>
      r ← balance_sides a;
      match r with
      | Some (low, high, new) => old ← at_field as_amount (ofDrops 0 false) (sle_data b) sfBalance; Ok (Some (low, high, old, new))
      | None => Ok (Some nothing)
      end
  | false, _, None => Throw null_pointer
  end.

Definition balance_change (isDelete : bool) (before after : option (SLE Object)) (result : gmap CreditKey STAmount) : res (gmap CreditKey STAmount) :=
  c ← change_of isDelete before after;
  match c with
  | None => Ok result
  | Some (lowID, highID, oldBalance, newBalance) =>
      delta ← op_sub newBalance oldBalance;
      let cur := currency (mIssue newBalance) in
      let result := <[(lowID, highID, cur) := delta]> result in
      result ← emplace_change (lowID, lowID, cur) delta result;
      emplace_change (highID, highID, cur) (negate delta) result
  end.

Definition balanceChanges (visited : list (bool * option (SLE Object) * option (SLE Object))) : res (gmap CreditKey STAmount) :=
  foldl (fun r e => result ← r; balance_change e.1.1 e.1.2 e.2 result) (Ok ∅) visited.

(** ** Nested sandboxes *)

(** A sandbox: the SFC the accounts have in it, the credits it has deferred, and what
    each account has sent since the first one was opened. *)
Record Frame := mkFrame { f_balances : gmap Z Z; f_credits : DeferredCredits; f_sent : gmap Z Z }.

Definition at0 (m : gmap Z Z) (k : Z) : Z := default 0 (m !! k).

Inductive SandboxOp :=
| Send (from to n : Z)
| Open
| Commit
| Discard.

(** Sends go through the innermost sandbox; one is opened over it; its changes and its
    credits are applied to the one below; or it is dropped. *)
Definition sandbox_step (op : SandboxOp) (st : list Frame) : option (res (list Frame)) :=
  match op, st with
  | Send from to n, f :: st =>
      if (from <=? 0) || (to <=? 0) || (from =? to) || (n <=? 0) || (at0 (f_balances f) from <? n) then None else
      let b := f_balances f in
      Some (tab ← report_send from to (ofSigned n) (ofSigned (at0 b from)) (ofSigned (at0 b to)) (f_credits f);
            Ok (mkFrame (<[to := at0 b to + n]> (<[from := at0 b from - n]> b)) tab (<[from := at0 (f_sent f) from + n]> (f_sent f)) :: st))
  | Open, f :: st => Some (Ok (mkFrame (f_balances f) no_credits (f_sent f) :: f :: st))
  | Commit, f :: g :: st => Some (tab ← deferred_apply (f_credits f) (f_credits g); Ok (mkFrame (f_balances f) tab (f_sent f) :: st))
  | Discard, _ :: g :: st => Some (Ok (g :: st))
  | _, _ => None
  end.

Fixpoint sandbox_run (ops : list SandboxOp) (st : list Frame) : option (res (list Frame)) :=
  match ops with
  | [] => Some (Ok st)
  | op :: ops => match sandbox_step op st with Some (Ok st) => sandbox_run ops st | r => r end
  end.

Definition all_sent (ops : list SandboxOp) : Z := foldr (fun op z => match op with Send _ _ n => n + z | _ => z end) 0 ops.

(** ** What holds of them *)

(** What a table has of the SFC of an account: what the account sent and received, and
    what it had before. *)
Definition records (tab : DeferredCredits) (id had s r : Z) : Prop :=
  match credits_ tab !! makeKey id 0 0 with
  | None => s = 0 /\ r = 0
  | Some v => is_drops (lowAcctCredits v) s /\ is_drops (highAcctCredits v) r /\ is_drops (lowAcctOrigBalance v) (- had)
  end.

(** A stack of tables accounts for what is sent and received since an account had [b0],
    none of it beyond a bound. *)
Inductive accounts_for (id b0 L : Z) : list DeferredCredits -> Z -> Z -> Prop :=
| af_nil : 0 <= b0 <= cMaxNativeN -> accounts_for id b0 L [] 0 0
| af_cons tab tabs s r S R : accounts_for id b0 L tabs S R -> records tab id (b0 - S + R) s r -> 0 <= s -> 0 <= r -> S + s <= L -> R + r <= L -> 0 <= b0 - (S + s) + (R + r) ->
    accounts_for id b0 L (tab :: tabs) (S + s) (R + r).

Lemma ofSigned_drops n : - cMaxNativeN <= n <= cMaxNativeN -> is_drops (ofSigned n) n.
Proof.
  intros Hn. unfold ofSigned, set. destruct (Z.ltb_spec n 0); (split; [split; [done|split; [split; [done|]|]]|split; [done|]]); cbn; unfold smant, cMaxNativeN in *; cbn; try lia. all: try (intros; lia). all: done.
Qed.

Lemma zeroed_drops a n : is_drops a n -> exists z, zeroed a = Ok z /\ is_drops z 0.
Proof.
  intros ((Hi & _) & Hn & _). rewrite Hn in Hi. unfold zeroed, zeroOf, make. rewrite canonicalize_native; cbn [mIssue mValue mOffset mIsNegative]; [|done|lia]. cbv zeta. cbn [Z.eqb]. eexists. split; [reflexivity|].
  split_and!; [|done|done]. split; [done|]. split; [split; [done|]|done]. cbn. unfold cMaxNativeN. lia.
Qed.

Lemma drops_currency a n : is_drops a n -> currency (mIssue a) = 0.
Proof. intros ((Hi & _) & Hn & _). rewrite Hn in Hi. symmetry in Hi. by apply Z.eqb_eq in Hi. Qed.

Lemma makeKey_sfc id : 0 < id -> makeKey id 0 0 = (0, id, 0) /\ makeKey 0 id 0 = (0, id, 0).
Proof. intros Hi. unfold makeKey. destruct (Z.ltb_spec id 0), (Z.ltb_spec 0 id); split; done || lia. Qed.

(** A record of one side of a send. *)
Lemma credit_out tab id had s r a n pre : 0 < id -> records tab id had s r -> is_drops a n -> 0 <= n -> 0 <= s -> s + n <= cMaxNativeN -> is_drops pre (had - s + r) ->
  exists tab', credit id 0 a pre tab = Ok tab' /\ records tab' id had (s + n) r /\ forall j, j <> id -> 0 < j -> credits_ tab' !! makeKey j 0 0 = credits_ tab !! makeKey j 0 0.
Proof.
  intros Hid Hrec Ha Hn Hs Hb Hpre. destruct (makeKey_sfc id Hid) as [K1 _]. unfold credit. rewrite (drops_currency _ _ Ha), K1. destruct (Z.ltb_spec id 0) as [|_]; [lia|]. unfold records in Hrec. rewrite K1 in Hrec.
  assert (Hother : forall (v : CreditValue) j, j <> id -> 0 < j -> (<[(0, id, 0) := v]> (credits_ tab)) !! makeKey j 0 0 = credits_ tab !! makeKey j 0 0).
  { intros v j Hj Hpos. destruct (makeKey_sfc j Hpos) as [-> _]. rewrite lookup_insert_ne; [done|congruence]. }
  destruct (credits_ tab !! (0, id, 0)) as [v|] eqn:E.
  - destruct Hrec as (Hl & Hh & Ho). destruct (op_add_drops _ _ _ _ Hl Ha) as (l & El & Hld); [lia|]. rewrite El. cbn [mbind res_bind]. eexists. split; [reflexivity|]. split; [|intros; by apply Hother].
    unfold records. rewrite K1. cbn [credits_]. rewrite lookup_insert_eq. done.
  - destruct Hrec as [-> ->]. destruct (zeroed_drops _ _ Ha) as (z & Ez & Hz). rewrite Ez. cbn [mbind res_bind]. eexists. split; [reflexivity|]. split; [|intros; by apply Hother].
    unfold records. rewrite K1. cbn [credits_]. rewrite lookup_insert_eq. cbn. split_and!; [done|done|]. apply op_neg_drops in Hpre. by replace (had - 0 + 0) with had in Hpre by lia.
Qed.

Lemma credit_in tab id had s r a n pre : 0 < id -> records tab id had s r -> is_drops a n -> 0 <= n -> 0 <= r -> r + n <= cMaxNativeN -> is_drops pre (- (had - s + r)) ->
  exists tab', credit 0 id a pre tab = Ok tab' /\ records tab' id had s (r + n) /\ forall j, j <> id -> 0 < j -> credits_ tab' !! makeKey j 0 0 = credits_ tab !! makeKey j 0 0.
Proof.
  intros Hid Hrec Ha Hn Hs Hb Hpre. destruct (makeKey_sfc id Hid) as [K1 K2]. unfold credit. rewrite (drops_currency _ _ Ha), K2. destruct (Z.ltb_spec 0 id) as [_|]; [|lia]. unfold records in Hrec. rewrite K1 in Hrec.
  assert (Hother : forall (v : CreditValue) j, j <> id -> 0 < j -> (<[(0, id, 0) := v]> (credits_ tab)) !! makeKey j 0 0 = credits_ tab !! makeKey j 0 0).
  { intros v j Hj Hpos. destruct (makeKey_sfc j Hpos) as [-> _]. rewrite lookup_insert_ne; [done|congruence]. }
  destruct (credits_ tab !! (0, id, 0)) as [v|] eqn:E.
  - destruct Hrec as (Hl & Hh & Ho). destruct (op_add_drops _ _ _ _ Hh Ha) as (l & El & Hld); [lia|]. rewrite El. cbn [mbind res_bind]. eexists. split; [reflexivity|]. split; [|intros; by apply Hother].
    unfold records. rewrite K1. cbn [credits_]. rewrite lookup_insert_eq. done.
  - destruct Hrec as [-> ->]. destruct (zeroed_drops _ _ Ha) as (z & Ez & Hz). rewrite Ez. cbn [mbind res_bind]. eexists. split; [reflexivity|]. split; [|intros; by apply Hother].
    unfold records. rewrite K1. cbn [credits_]. rewrite lookup_insert_eq. cbn. split_and!; [done|done|]. by replace (had - 0 + 0) with had in Hpre by lia.
Qed.

(** ** Merging tables *)

Lemma merge_all l : NoDup l.*1 -> forall to, (forall i, i ∈ l -> exists w, merge_value (to !! i.1) i.2 = Ok w) ->
  exists c, foldl (fun r i => to ← r; merge_credit i to) (Ok to) l = Ok c /\ (forall k, k ∉ l.*1 -> c !! k = to !! k) /\ forall k v, (k, v) ∈ l -> exists w, merge_value (to !! k) v = Ok w /\ c !! k = Some w.
Proof.
  induction l as [|[k0 v0] l IH]; intros Hn to H; [exists to; split_and!; [done|done|set_solver]|]. cbn [fmap list_fmap fst] in Hn. apply NoDup_cons in Hn as [Hk0 Hn].
  destruct (H (k0, v0)) as (w0 & Hw0); [left|]. cbn [fst snd] in Hw0. cbn [foldl]. unfold merge_credit at 2. cbn [mbind res_bind fst snd]. rewrite Hw0. cbn [mbind res_bind].
  assert (Hne : forall i, i ∈ l -> (<[k0 := w0]> to) !! i.1 = to !! i.1).
  { intros i Hi. apply lookup_insert_ne. intros ->. apply Hk0, list_elem_of_fmap. by exists i. }
  destruct (IH Hn (<[k0 := w0]> to)) as (c & Ec & Hout & Hin); [intros i Hi; rewrite Hne by done; apply H; by right|]. exists c. split; [done|]. split.
  - intros k Hk. cbn [fmap list_fmap fst] in Hk. apply not_elem_of_cons in Hk as [? ?]. by rewrite Hout, lookup_insert_ne.
  - intros k v [[= -> ->]|Hkv]%elem_of_cons; [exists w0; split; [done|]; by rewrite Hout, lookup_insert_eq|]. destruct (Hin k v Hkv) as (w & Hw & Hc). exists w. split; [|done]. pose proof (Hne (k, v) Hkv) as E. cbn [fst] in E. by rewrite E in Hw.
Qed.

(** The keys of a table of SFC. *)
Definition sfc_table (tab : DeferredCredits) : Prop := forall k v, credits_ tab !! k = Some v -> exists id, 0 < id /\ k = (0, id, 0).

(** A sandbox applied to the one below: the sums, and the older balance. *)
Lemma apply_records tf tg : sfc_table tf -> sfc_table tg ->
  (forall id, 0 < id -> exists had sf rf sg rg, records tg id had sg rg /\ records tf id (had - sg + rg) sf rf /\ 0 <= sg /\ 0 <= rg /\ 0 <= sf /\ 0 <= rf /\ sg + sf <= cMaxNativeN /\ rg + rf <= cMaxNativeN) ->
  exists tab, deferred_apply tf tg = Ok tab /\ sfc_table tab /\
    forall id had sf rf sg rg, 0 < id -> records tg id had sg rg -> records tf id (had - sg + rg) sf rf -> 0 <= sg /\ 0 <= rg /\ 0 <= sf /\ 0 <= rf /\ sg + sf <= cMaxNativeN /\ rg + rf <= cMaxNativeN ->
      records tab id had (sg + sf) (rg + rf).
Proof.
  intros Hf Hg Hr. unfold deferred_apply. destruct (merge_all (map_to_list (credits_ tf)) (NoDup_fst_map_to_list _) (credits_ tg)) as (c & Ec & Hout & Hin).
  { intros [k v] Hi%elem_of_map_to_list. cbn [fst snd]. destruct (Hf k v Hi) as (id & Hid & ->). destruct (Hr id Hid) as (had & sf & rf & sg & rg & H1 & H2 & Hb). unfold records in H1, H2. destruct (makeKey_sfc id Hid) as [K _]. rewrite K, ?Hi in *.
    destruct (credits_ tg !! (0, id, 0)) as [w|]; [|by exists v]. destruct H1 as (A1 & A2 & A3), H2 as (B1 & B2 & B3). cbn [merge_value].
    destruct (op_add_drops _ _ _ _ A1 B1) as (l & -> & _); [lia|]. cbn [mbind res_bind]. destruct (op_add_drops _ _ _ _ A2 B2) as (h & -> & _); [lia|]. cbn [mbind res_bind]. by eexists. }
  rewrite Ec. cbn [mbind res_bind]. eexists. split; [reflexivity|]. cbn [credits_]. split.
  - intros k v Hk. destruct (decide (k ∈ (map_to_list (credits_ tf)).*1)) as [Hi|Hi].
    + apply list_elem_of_fmap in Hi as ([k' v'] & -> & Hi%elem_of_map_to_list). by eapply Hf.
    + cbn [credits_] in Hk. rewrite Hout in Hk by done. by eapply Hg.
  - intros id had sf rf sg rg Hid H1 H2 Hb. unfold records in *. cbn [credits_]. destruct (makeKey_sfc id Hid) as [K _]. rewrite K in *. destruct (credits_ tf !! (0, id, 0)) as [v|] eqn:Ev.
    + destruct (Hin (0, id, 0) v) as (w & Hw & Hc); [by apply elem_of_map_to_list|]. rewrite Hc. destruct (credits_ tg !! (0, id, 0)) as [u|].
      * destruct H1 as (A1 & A2 & A3), H2 as (B1 & B2 & B3). cbn [merge_value] in Hw. destruct (op_add_drops _ _ _ _ A1 B1) as (l & El & Hl); [lia|]. destruct (op_add_drops _ _ _ _ A2 B2) as (h & Eh & Hh); [lia|].
        rewrite El, Eh in Hw. by injection Hw as <-.
      * injection Hw as <-. destruct H1 as [-> ->]. by replace (had - 0 + 0) with had in H2 by lia.
    + rewrite Hout; [destruct H2 as [-> ->]; by rewrite !Z.add_0_r|]. intros ([k' v'] & E & Hi%elem_of_map_to_list)%list_elem_of_fmap. cbn in E. subst k'. congruence.
Qed.

(** ** The invariant of the stack *)

Fixpoint good (b0 : gmap Z Z) (L : Z) (st : list Frame) : Prop :=
  match st with
  | [] => True
  | f :: rest => sfc_table (f_credits f) /\ (forall id, 0 < id -> exists R, accounts_for id (at0 b0 id) L (map f_credits (f :: rest)) (at0 (f_sent f) id) R /\ at0 (f_balances f) id = at0 b0 id - at0 (f_sent f) id + R) /\ good b0 L rest
  end.

Lemma accounts_bounds id b0 L tabs S R : accounts_for id b0 L tabs S R -> 0 <= L -> 0 <= S <= L /\ 0 <= R <= L /\ 0 <= b0 <= cMaxNativeN /\ 0 <= b0 - S + R.
Proof. induction 1; intros HL; [lia|]. specialize (IHaccounts_for HL). lia. Qed.

Lemma accounts_weaken id b0 L L' tabs S R : L <= L' -> accounts_for id b0 L tabs S R -> accounts_for id b0 L' tabs S R.
Proof. intros HL. induction 1; [by constructor|]. econstructor; [done|done|lia..]. Qed.

Lemma good_weaken b0 L L' st : L <= L' -> good b0 L st -> good b0 L' st.
Proof.
  intros HL. induction st as [|f rest IH]; [done|]. intros (H1 & H2 & H3). split; [done|]. split; [|by apply IH]. intros id Hid. destruct (H2 id Hid) as (R & HA & HB). exists R. split; [by eapply accounts_weaken|done].
Qed.

Lemma at0_insert m k v j : at0 (<[k := v]> m) j = if decide (j = k) then v else at0 m j.
Proof. unfold at0. case_decide; [subst; by rewrite lookup_insert_eq|by rewrite lookup_insert_ne]. Qed.

Lemma credit_table sender receiver a pre tab tab' id : sfc_table tab -> credit sender receiver a pre tab = Ok tab' -> 0 < id -> makeKey sender receiver (currency (mIssue a)) = (0, id, 0) -> sfc_table tab'.
Proof.
  intros Ht (v & _ & [= <-])%bind_Ok_inv Hid Hk k w. cbn [credits_]. rewrite Hk, lookup_insert_Some. intros [[<- _]|[_ Hw]]; [by exists id|by eapply Ht].
Qed.

Definition sent_by (op : SandboxOp) : Z := match op with Send _ _ n => n | _ => 0 end.

(** The table of the innermost sandbox, for one account. *)
Lemma accounts_head id b0 L tab tabs S R : accounts_for id b0 L (tab :: tabs) S R ->
  exists s r S0 R0, accounts_for id b0 L tabs S0 R0 /\ records tab id (b0 - S0 + R0) s r /\ S = S0 + s /\ R = R0 + r /\ 0 <= s /\ 0 <= r /\ S <= L /\ R <= L /\ 0 <= b0 - S + R.
Proof. inversion 1; subst. by exists s, r, S0, R0. Qed.

Lemma records_same tab tab' id had s r : credits_ tab' !! makeKey id 0 0 = credits_ tab !! makeKey id 0 0 -> records tab id had s r -> records tab' id had s r.
Proof. intros E. unfold records. by rewrite E. Qed.

Lemma send_good b0 L f rest from to n r : good b0 L (f :: rest) -> 0 <= L -> 0 <= n -> (forall id, 0 <= at0 b0 id /\ at0 b0 id + (L + n) <= cMaxNativeN) -> sandbox_step (Send from to n) (f :: rest) = Some r ->
  exists f', r = Ok (f' :: rest) /\ good b0 (L + n) (f' :: rest).
Proof.
  intros (Hsfc & Hacc & Hrest) HL Hn0 Hb Hstep. cbn [sandbox_step] in Hstep.
  destruct (Z.leb_spec from 0) as [|Hf]; [done|]. destruct (Z.leb_spec to 0) as [|Ht]; [done|]. destruct (Z.eqb_spec from to) as [|Hne]; [done|]. destruct (Z.leb_spec n 0) as [|Hn]; [done|]. destruct (Z.ltb_spec (at0 (f_balances f) from) n) as [|Hbal]; [done|].
  cbn [orb] in Hstep. injection Hstep as <-. destruct (Hacc from Hf) as (Rf & Haf & Hbf). destruct (Hacc to Ht) as (Rt & Hat & Hbt). cbn [map] in Haf, Hat. pose proof (Hb from). pose proof (Hb to).
  pose proof (accounts_bounds _ _ _ _ _ _ Haf HL). pose proof (accounts_bounds _ _ _ _ _ _ Hat HL).
  destruct (accounts_head _ _ _ _ _ _ _ Haf) as (s1 & r1 & S1 & R1 & Ho1 & Hr1 & ES1 & ER1 & Hx1). destruct (accounts_head _ _ _ _ _ _ _ Hat) as (s2 & r2 & S2 & R2 & Ho2 & Hr2 & ES2 & ER2 & Hx2).
  pose proof (accounts_bounds _ _ _ _ _ _ Ho1 HL). pose proof (accounts_bounds _ _ _ _ _ _ Ho2 HL).
  destruct (credit_out (f_credits f) from _ s1 r1 (ofSigned n) n (ofSigned (at0 (f_balances f) from)) Hf Hr1) as (t1 & E1 & Hrec1 & Hsame1); [apply ofSigned_drops; lia|lia|lia|lia|..].
  { replace (at0 b0 from - S1 + R1 - s1 + r1) with (at0 (f_balances f) from) by lia. apply ofSigned_drops. lia. }
  destruct (credit_in t1 to (at0 b0 to - S2 + R2) s2 r2 (ofSigned n) n (op_neg (ofSigned (at0 (f_balances f) to))) Ht) as (t2 & E2 & Hrec2 & Hsame2); [|apply ofSigned_drops; lia|lia|lia|lia|..].
  { eapply records_same; [by apply Hsame1|done]. }
  { apply op_neg_drops. replace (at0 b0 to - S2 + R2 - s2 + r2) with (at0 (f_balances f) to) by lia. apply ofSigned_drops. lia. }
  unfold report_send, sfcAccount. rewrite E1. cbn [mbind res_bind]. rewrite E2. cbn [mbind res_bind]. eexists. split; [reflexivity|]. cbn [good f_credits f_balances f_sent map]. split; [|split; [|by eapply good_weaken; [|exact Hrest]; lia]].
  { assert (Hcur : currency (mIssue (ofSigned n)) = 0) by (eapply drops_currency, ofSigned_drops; lia). destruct (makeKey_sfc from Hf) as [K1 _], (makeKey_sfc to Ht) as [_ K2]. 
    eapply (credit_table 0 to _ _ t1 t2 to); [|exact E2|done|by rewrite Hcur]. eapply (credit_table from 0 _ _ _ t1 from); [exact Hsfc|exact E1|done|by rewrite Hcur]. }
  intros id Hid. rewrite !at0_insert. destruct (decide (id = from)) as [->|Hif].
  - rewrite decide_False by done. exists (R1 + r1). split; [|lia]. rewrite ES1, <-Z.add_assoc. apply af_cons; [by eapply accounts_weaken; [|exact Ho1]; lia| |lia..]. eapply records_same; [by apply Hsame2|done].
  - destruct (decide (id = to)) as [->|Hit].
    + exists (R2 + (r2 + n)). split; [|lia]. rewrite ES2. apply af_cons; [by eapply accounts_weaken; [|exact Ho2]; lia|done|lia..].
    + destruct (Hacc id Hid) as (R & Ha & HB). exists R. split; [|done]. cbn [map] in Ha. destruct (accounts_head _ _ _ _ _ _ _ Ha) as (s & r & S & R0 & Ho & Hr & -> & -> & Hx). apply af_cons; [by eapply accounts_weaken; [|exact Ho]; lia| |lia..].
      eapply records_same; [|exact Hr]. by rewrite Hsame2, Hsame1.
Qed.

Lemma commit_good b0 L f g rest : good b0 L (f :: g :: rest) -> 0 <= L -> (forall id, 0 <= at0 b0 id /\ at0 b0 id + L <= cMaxNativeN) ->
  exists tab, deferred_apply (f_credits f) (f_credits g) = Ok tab /\ good b0 L (mkFrame (f_balances f) tab (f_sent f) :: rest).
Proof.
  intros (Hsf & Haf & Hsg & Hag & Hrest) HL Hb.
  assert (Hsplit : forall id, 0 < id -> exists sf rf sg rg S R, accounts_for id (at0 b0 id) L (map f_credits rest) S R /\ records (f_credits g) id (at0 b0 id - S + R) sg rg /\ records (f_credits f) id (at0 b0 id - S + R - sg + rg) sf rf /\
    at0 (f_sent f) id = S + (sg + sf) /\ at0 (f_balances f) id = at0 b0 id - at0 (f_sent f) id + (R + (rg + rf)) /\ 0 <= S /\ 0 <= R /\ S + (sg + sf) <= L /\ R + (rg + rf) <= L /\ 0 <= sg /\ 0 <= rg /\ 0 <= sf /\ 0 <= rf /\ 0 <= at0 b0 id - (S + (sg + sf)) + (R + (rg + rf))).
  { intros id Hid. destruct (Haf id Hid) as (R & Ha & HB). cbn [map] in Ha. destruct (accounts_head _ _ _ _ _ _ _ Ha) as (sf & rf & S1 & R1 & Ho1 & Hr1 & ES1 & ER1 & Hx1). destruct (accounts_head _ _ _ _ _ _ _ Ho1) as (sg & rg & S & R0 & Ho & Hr & ES & ER & Hx).
    pose proof (accounts_bounds _ _ _ _ _ _ Ho HL). exists sf, rf, sg, rg, S, R0. split; [done|]. split; [done|]. split; [by replace (at0 b0 id - S + R0 - sg + rg) with (at0 b0 id - S1 + R1) by lia|]. split_and!; lia. }
  destruct (apply_records (f_credits f) (f_credits g) Hsf Hsg) as (tab & Et & Hst & Hrec).
  { intros id Hid. destruct (Hsplit id Hid) as (sf & rf & sg & rg & S & R & _ & H1 & H2 & Hx). pose proof (Hb id). exists (at0 b0 id - S + R), sf, rf, sg, rg. split_and!; try done; lia. }
  exists tab. split; [done|]. cbn [good f_credits f_balances f_sent map]. split; [done|]. split; [|done]. intros id Hid. destruct (Hsplit id Hid) as (sf & rf & sg & rg & S & R & Ho & H1 & H2 & Hx). pose proof (Hb id). exists (R + (rg + rf)).
  split; [|lia]. destruct Hx as (-> & Hx). apply af_cons; [done| |lia..]. apply (Hrec id _ sf rf sg rg Hid H1 H2). lia.
Qed.

Lemma step_good b0 L op st r : good b0 L st -> 0 <= L -> 0 <= sent_by op -> (forall id, 0 <= at0 b0 id /\ at0 b0 id + (L + sent_by op) <= cMaxNativeN) -> sandbox_step op st = Some r ->
  exists f rest, r = Ok (f :: rest) /\ good b0 (L + sent_by op) (f :: rest).
Proof.
  intros Hg HL Hn Hb Hs. destruct op as [from to n| | |]; cbn [sent_by] in *.
  - destruct st as [|f rest]; [done|]. destruct (send_good b0 L f rest from to n r Hg HL Hn Hb Hs) as (f' & -> & Hg'). by exists f', rest.
  - rewrite Z.add_0_r in *. destruct st as [|f rest]; [done|]. injection Hs as <-. eexists _, _. split; [reflexivity|]. split; [by intros k v|]. split; [|done]. cbn [f_credits f_balances f_sent map]. intros id Hid. destruct Hg as (_ & Ha & _). destruct (Ha id Hid) as (R & HA & HB). exists R. split; [|done].
    pose proof (accounts_bounds _ _ _ _ _ _ HA HL). pose proof (af_cons id (at0 b0 id) L no_credits _ 0 0 _ _ HA) as Hc. rewrite !Z.add_0_r in Hc. apply Hc; done || lia.
  - rewrite Z.add_0_r in *. destruct st as [|f [|g rest]]; [done|done|]. cbn in Hs. injection Hs as <-. destruct (commit_good b0 L f g rest Hg HL) as (tab & -> & Hg'); [intros id; specialize (Hb id); lia|]. eexists _, _. by split.
  - rewrite Z.add_0_r. destruct st as [|f [|g rest]]; [done|done|]. injection Hs as <-. exists g, rest. split; [done|]. by destruct Hg as (_ & _ & Hg).
Qed.

Lemma all_sent_pos ops : Forall (fun op => 0 <= sent_by op) ops -> 0 <= all_sent ops.
Proof. unfold all_sent. induction 1 as [|o l Ho _ IHl]; [done|]. destruct o; cbn [foldr sent_by] in *; lia. Qed.

Lemma run_good b0 ops : forall L st r f rest, st = f :: rest -> good b0 L st -> 0 <= L -> Forall (fun op => 0 <= sent_by op) ops -> (forall id, 0 <= at0 b0 id /\ at0 b0 id + (L + all_sent ops) <= cMaxNativeN) -> sandbox_run ops st = Some r ->
  exists f rest, r = Ok (f :: rest) /\ good b0 (L + all_sent ops) (f :: rest).
Proof.
  induction ops as [|op ops IH]; intros L st r f rest -> Hg HL Hpos Hb Hr.
  - injection Hr as <-. exists f, rest. rewrite Z.add_0_r. done.
  - apply Forall_cons_1 in Hpos as [Hp Hpos]. assert (Hall : all_sent (op :: ops) = sent_by op + all_sent ops) by (destruct op; done). rewrite Hall in *. cbn [sandbox_run] in Hr.
    pose proof (all_sent_pos ops Hpos) as Hrest.
    destruct (sandbox_step op (f :: rest)) as [r1|] eqn:E; [|done]. destruct (step_good b0 L op _ r1 Hg HL Hp) as (f1 & rest1 & -> & Hg1); [intros id; specialize (Hb id); lia|done|].
    destruct (IH (L + sent_by op) _ r f1 rest1 eq_refl Hg1) as (f2 & rest2 & -> & Hg2); [lia|done|intros id; specialize (Hb id); lia|done|]. exists f2, rest2. split; [done|]. by rewrite Z.add_assoc.
Qed.

(** ** What the hook makes of it *)

Lemma walk_adjusted id b0 L chain S R : accounts_for id b0 L chain S R -> 0 < id -> 0 <= L <= cMaxNativeN -> b0 + L <= cMaxNativeN ->
  forall delta last min D B M, is_drops delta D -> is_drops last B -> is_drops min M -> 0 <= D -> D + S <= cMaxNativeN ->
  exists delta' last' min' X Y, walk_adjustments chain id 0 0 delta last min = Ok (delta', last', min') /\ is_drops delta' (D + S) /\ is_drops last' X /\ is_drops min' Y /\
    (X = b0 \/ X = B /\ S = 0 /\ R = 0) /\ Z.min M (b0 - S) <= Y <= M.
Proof.
  intros Ha Hid HL Hb. induction Ha as [|tab tabs s r S R Ha IH Hrec Hs Hr HS HR H0]; intros delta last min D B M Hd Hl Hm HD HDS; cbn [walk_adjustments].
  - exists delta, last, min, B, M. rewrite Z.add_0_r. split_and!; first [done|by right|lia].
  - pose proof (accounts_bounds _ _ _ _ _ _ Ha ltac:(lia)) as Hbd. unfold adjustments, records in *. destruct (credits_ tab !! makeKey id 0 0) as [v|]; cbn [mbind option_bind].
    + destruct Hrec as (A1 & A2 & A3). apply op_neg_drops in A3. rewrite Z.opp_involutive in A3. destruct (Z.ltb_spec id 0) as [|_]; [lia|]. cbn [debits origBalance]. destruct (op_add_drops _ _ _ _ Hd A1) as (d1 & -> & Hd1); [lia|]. cbn [mbind res_bind].
      rewrite (op_lt_drops _ _ _ _ A3 Hm). cbn [mbind res_bind]. set (c := b0 - S + R <? M). assert (Hm' : is_drops (if c then op_neg (lowAcctOrigBalance v) else min) (Z.min (b0 - S + R) M)) by (subst c; destruct (Z.ltb_spec (b0 - S + R) M); [by rewrite Z.min_l by lia|by rewrite Z.min_r by lia]).
      destruct (IH d1 _ _ (D + s) _ _ Hd1 A3 Hm') as (d2 & l2 & m2 & X & Y & E & H1 & H2 & H3 & HX & HY); [lia|lia|]. exists d2, l2, m2, X, Y. split; [exact E|]. split; [by replace (D + (S + s)) with (D + s + S) by lia|]. split_and!; [done|done|left|lia|lia]. destruct HX as [|(-> & -> & ->)]; lia.
    + destruct Hrec as [-> ->]. rewrite !Z.add_0_r in *. by apply IH.
Qed.

Lemma amount_min_drops a b n p : is_drops a n -> is_drops b p -> exists c, amount_min a b = Ok c /\ is_drops c (Z.min n p).
Proof. intros Ha Hb. unfold amount_min. rewrite (op_lt_drops _ _ _ _ Hb Ha). cbn [mbind res_bind]. destruct (Z.ltb_spec p n); eexists; (split; [reflexivity|]); [by rewrite Z.min_r by lia|by rewrite Z.min_l by lia]. Qed.

Lemma setIssuer_drops a n i : is_drops a n -> is_drops (setIssuer a i) n.
Proof. intros ((Hi & Hr & Hz) & Hn & Hs). rewrite Hn in *. unfold setIssuer, setIssue, is_drops, wf, smant. cbn. rewrite <-Hi. split_and!; done. Qed.

Lemma clear_negative a n : is_drops a n -> is_drops (if signum a <? 0 then clear a else a) (Z.max 0 n).
Proof.
  intros Ha. pose proof Ha as ((Hi & Hr & Hz) & Hn & Hs). rewrite Hn in Hi, Hr. destruct Hr as [Ho Hr]. unfold smant in Hs. unfold signum. destruct (Z.eqb_spec (mValue a) 0) as [E|E]; [|destruct (mIsNegative a) eqn:En]; cbn [Z.ltb Z.compare].
  - rewrite Z.max_l by (destruct (mIsNegative a); lia). by replace 0 with n by (destruct (mIsNegative a); lia).
  - rewrite Z.max_l by lia. unfold clear, is_drops, wf, wf_native, smant. cbn. rewrite Hn. split_and!; try done.
  - by rewrite Z.max_r by lia.
Qed.

(** C12. What a payment brings in cannot be spent by it. Take any sequence of transfers of
    SFC through nested payment sandboxes, where sandboxes are opened over one another,
    committed to the one below or dropped, starting from balances that no account can
    raise above the supply. It returns; and then the balance that the innermost sandbox
    shows of an account (after the switchover to the second algorithm) is what the account
    had at the start less all it has sent since in what was not dropped, and not less than
    zero, whatever it has received. *)
Theorem received_not_spendable info b0 ops r : fix1141 (parentCloseTime info) = true -> Forall (fun op => 0 <= sent_by op) ops -> (forall id, 0 <= at0 b0 id /\ at0 b0 id + all_sent ops <= cMaxNativeN) ->
  sandbox_run ops [mkFrame b0 no_credits ∅] = Some r ->
  exists f rest, r = Ok (f :: rest) /\ forall id, 0 < id ->
    exists usable, balanceHook info (map f_credits (f :: rest)) id sfcAccount (ofSigned (at0 (f_balances f) id)) = Ok usable /\ is_drops usable (Z.max 0 (at0 b0 id - at0 (f_sent f) id)).
Proof.
  intros Hfix Hpos Hb Hr. pose proof (all_sent_pos ops Hpos) as Hsum.
  assert (Hg0 : good b0 0 [mkFrame b0 no_credits ∅]).
  { split; [by intros k v|]. split; [|done]. intros id Hid. exists 0. cbn [f_sent f_balances map f_credits]. replace (at0 ∅ id) with 0 by (unfold at0; by rewrite lookup_empty). split; [|lia]. specialize (Hb id). apply (af_cons id (at0 b0 id) 0 no_credits [] 0 0 0 0); [apply af_nil; lia|done|lia..]. }
  destruct (run_good b0 ops 0 _ r _ [] eq_refl Hg0) as (f & rest & -> & Hg); [lia|done|by intros id; apply Hb|done|]. exists f, rest. split; [done|]. intros id Hid. destruct Hg as (_ & Ha & _). destruct (Ha id Hid) as (R & HA & HB). rewrite Z.add_0_l in *.
  specialize (Hb id). pose proof (accounts_bounds _ _ _ _ _ _ HA Hsum) as Hbd. set (S := at0 (f_sent f) id) in *. set (b := at0 b0 id) in *. assert (Hbal : is_drops (ofSigned (at0 (f_balances f) id)) (b - S + R)) by (rewrite HB; apply ofSigned_drops; lia).
  unfold balanceHook, sfcAccount. rewrite Hfix, (drops_currency _ _ Hbal). destruct (zeroed_drops _ _ Hbal) as (z & -> & Hz). cbn [mbind res_bind].
  destruct (walk_adjusted id b _ _ S R HA Hid ltac:(lia) ltac:(lia) z _ _ 0 _ _ Hz Hbal Hbal) as (d & l & mn & X & Y & -> & Hd & Hl & Hm & HX & HY); [lia|lia|]. cbn [mbind res_bind].
  assert (HXS : X - (0 + S) = b - S) by (destruct HX as [|(-> & -> & ->)]; lia). destruct (op_sub_drops _ _ _ _ Hl Hd) as (left & -> & Hleft); [lia|]. cbn [mbind res_bind]. rewrite HXS in Hleft.
  destruct (amount_min_drops _ _ _ _ Hbal Hleft) as (a1 & -> & Ha1). cbn [mbind res_bind]. rewrite Z.min_r in Ha1 by lia.
  assert (Ha2 : exists a2, (if enabled info fix1368 then amount_min a1 mn else Ok a1) = Ok a2 /\ is_drops a2 (b - S)).
  { destruct (enabled info fix1368); [|by exists a1]. destruct (amount_min_drops _ _ _ _ Ha1 Hm) as (a2 & -> & Ha2). exists a2. split; [done|]. by rewrite Z.min_l in Ha2 by lia. }
  destruct Ha2 as (a2 & -> & Ha2). cbn [mbind res_bind isSFC Z.eqb andb]. eexists. split; [reflexivity|]. apply clear_negative. destruct (fix1274 _); [by apply setIssuer_drops|done].
Qed.

(** Account 1 has 100, account 2 has 40. Account 2 receives 60 in an inner sandbox that
    is committed, and sends 10. *)
Lemma received_not_spendable_witness : exists f usable, let info := mkInfo (fun _ => true) (mkFees 10 10 20 5) false 7 600000000 in
  sandbox_run [Send 1 2 5; Open; Send 1 2 60; Commit; Open; Send 2 3 20; Discard; Send 2 1 10] [mkFrame {[1 := 100; 2 := 40]} no_credits ∅] = Some (Ok [f]) /\
  balanceHook info [f_credits f] 2 sfcAccount (ofSigned (at0 (f_balances f) 2)) = Ok usable /\ is_drops usable 30 /\ at0 (f_balances f) 2 = 95.
Proof.
  set (ops := [Send 1 2 5; Open; Send 1 2 60; Commit; Open; Send 2 3 20; Discard; Send 2 1 10]). set (b0 := {[1 := 100; 2 := 40]} : gmap Z Z). set (info := mkInfo (fun _ => true) (mkFees 10 10 20 5) false 7 600000000).
  assert (Hrun : exists f, sandbox_run ops [mkFrame b0 no_credits ∅] = Some (Ok [f]) /\ at0 (f_balances f) 2 = 95 /\ at0 (f_sent f) 2 = 10) by (eexists; split; [vm_compute; reflexivity|split; vm_compute; reflexivity]).
  destruct Hrun as (f & Hrun & Hbal & Hsent). destruct (received_not_spendable info b0 ops (Ok [f]) eq_refl) as (f' & rest & E & H); [|intros id|exact Hrun|].
  - repeat (apply Forall_cons_2; [cbn; lia|]). apply Forall_nil_2.
  - unfold at0, b0. rewrite lookup_insert. case_decide; [cbn; unfold cMaxNativeN; lia|]. rewrite lookup_singleton. case_decide; cbn; unfold cMaxNativeN; lia.
  - injection E as <- <-. destruct (H 2 eq_refl) as (usable & Hu & Hd). exists f, usable. split; [exact Hrun|]. split; [exact Hu|]. split; [|exact Hbal]. rewrite Hsent in Hd. exact Hd.
Defined.

(** The changes of balances count the first change of an account twice and the later ones
    not at all. Two accounts lose 100 and 30 drops: the first is said to have lost 200, and
    the total of the two, which is 130, to be 200. *)
Lemma balanceChanges_doubles : match balanceChanges [(false, Some (waccount_of 5 1000), Some (waccount_of 5 900)); (false, Some (waccount_of 6 500), Some (waccount_of 6 470))] with
  | Ok r => smant <$> r !! (5, 5, 0) = Some 200 /\ smant <$> r !! (0, 0, 0) = Some (-200) /\ smant <$> r !! (0, 5, 0) = Some (-100) /\ smant <$> r !! (0, 6, 0) = Some (-30)
  | Throw _ => False
  end.
Proof. vm_compute. done. Qed.

(** ** A sandbox over a program *)

(** What a sandbox holds of a key: whether it is changed, and the entry if it has one. *)
Abbreviation Overlay := (gmap Z (bool * option (SLE Object))).

Definition ov_find (k : Keylet) (s : option (SLE Object)) : option (SLE Object) := s ≫= fun s => if check k s then Some s else None.

(** The entry of a keylet, from the sandbox or else from its parent. *)
Definition ov_look {A} (k : Keylet) (ov : Overlay) (c : option (SLE Object) -> prog A) : prog A :=
  match ov !! kl_key k with Some i => c (ov_find k i.2) | None => Read k c end.

(** [peek] keeps a copy of the entry. *)
Definition ov_keep (k : Keylet) (s : option (SLE Object)) (ov : Overlay) : Overlay :=
  match s, ov !! kl_key k with Some s, None => <[kl_key k := (false, Some s)]> ov | _, _ => ov end.

(** A program run in the sandbox, as a program of the parent that only reads. *)
Fixpoint sandboxed {A} (p : prog A) (ov : Overlay) : prog (A * Overlay) :=
  match p with
  | Ret a => Ret (a, ov)
  | Raise e => Raise e
  | Peek k c => ov_look k ov (fun s => sandboxed (c s) (ov_keep k s ov))
  | Read k c => ov_look k ov (fun s => sandboxed (c s) ov)
  | Do (vo_peek k) c => ov_look k ov (fun s => sandboxed c (ov_keep k s ov))
  | Do (vo_modify k f) c =>
      ov_look k ov (fun s => sandboxed c (match s with Some s => <[kl_key k := (true, Some (mkSLE (sle_type s) (sle_key s) (f (sle_data s))))]> ov | None => ov end))
  | Do (vo_insert s) c =>
      ov_look (mkKeylet ltANY (sle_key s)) ov (fun old => match old with Some _ => Raise present_key | None => sandboxed c (<[sle_key s := (true, Some s)]> ov) end)
  | Do (vo_erase k) c => ov_look k ov (fun s => sandboxed c (match s with Some _ => <[kl_key k := (true, None)]> ov | None => ov end))
  | Do (vo_destroySFC fee) c => Do (vo_destroySFC fee) (sandboxed c ov)
  end.

(** [apply]: what is changed goes to the parent, in the order of the keys. *)
Definition commit_item (i : Z * (bool * option (SLE Object))) : prog unit :=
  if negb i.2.1 then Ret () else
  Do (vo_erase (mkKeylet ltANY i.1)) (match i.2.2 with Some s => Do (vo_insert s) (Ret ()) | None => Ret () end).

Fixpoint commit_items (l : list (Z * (bool * option (SLE Object)))) : prog unit :=
  match l with [] => Ret () | i :: l => _ ← commit_item i; commit_items l end.

Definition commit (ov : Overlay) : prog unit := commit_items (map_to_list ov).

(** ** What a sandbox does *)

(** Programs that change only entries of the types [T] that are there. *)
Fixpoint touches (T : list Z) {A} (p : prog A) : Prop :=
  match p with
  | Ret _ | Raise _ => True
  | Peek k c => (concrete (kl_type k) = true /\ kl_type k ∈ T) /\ forall s, touches T (c s)
  | Read k c => forall s, touches T (c s)
  | Do (vo_modify k _) c | Do (vo_erase k) c => (concrete (kl_type k) = true /\ kl_type k ∈ T) /\ touches T c
  | Do _ c => False
  end.

(** The entries as the sandbox shows them over a ledger. It holds entries of some types
    that the ledger has, and those it has not changed are as there. *)
Definition tracks (T : list Z) (m : gmap Z (SLE Object)) (ov : Overlay) (mm : gmap Z (SLE Object)) : Prop :=
  (forall k, mm !! k = match ov !! k with Some i => i.2 | None => m !! k end) /\
  forall k i, ov !! k = Some i -> (exists s, m !! k = Some s /\ sle_type s ∈ T) /\ (i.1 = false -> i.2 = m !! k).

Lemma tracks_empty T m : tracks T m ∅ m.
Proof. split; [intros k; by rewrite lookup_empty|intros k i; by rewrite lookup_empty]. Qed.

Lemma ov_look_run {A} T m ov mm k (c : option (SLE Object) -> prog A) d : tracks T m ov mm -> run_map (ov_look k ov c) (m, d) = run_map (c (shown mm k)) (m, d).
Proof. intros [Hs _]. unfold ov_look, shown. rewrite Hs. by destruct (ov !! kl_key k) as [[b s]|]. Qed.

(** An entry at a key the sandbox shows is an entry of the ledger below. *)
Lemma tracks_below T m ov mm k s : tracks T m ov mm -> concrete (kl_type k) = true -> kl_type k ∈ T -> shown mm k = Some s -> exists s0, m !! kl_key k = Some s0 /\ sle_type s0 ∈ T.
Proof.
  intros [Hs Hi] Hc HT [Hl Ht]%shown_type; [|done]. rewrite Hs in Hl. destruct (ov !! kl_key k) as [i|] eqn:E; [by destruct (Hi _ _ E) as [? _]|]. exists s. by rewrite Ht.
Qed.

Lemma tracks_set T m ov mm k v : tracks T m ov mm -> (exists s0, m !! k = Some s0 /\ sle_type s0 ∈ T) -> tracks T m (<[k := (true, v)]> ov) (match v with Some s => <[k := s]> mm | None => delete k mm end).
Proof.
  intros [Hs Hi] Hb. split.
  - intros j. destruct (decide (j = k)) as [->|Hj]; [rewrite lookup_insert_eq; destruct v; [by rewrite lookup_insert_eq|by rewrite lookup_delete_eq]|].
    rewrite (lookup_insert_ne ov), <-Hs by done. destruct v; [by rewrite lookup_insert_ne|by rewrite lookup_delete_ne].
  - intros j i. rewrite lookup_insert_Some. intros [[<- <-]|[_ Hj]]; [done|by apply Hi].
Qed.

Lemma tracks_keep T m ov mm k : tracks T m ov mm -> concrete (kl_type k) = true -> kl_type k ∈ T -> tracks T m (ov_keep k (shown mm k) ov) mm.
Proof.
  intros Ht Hc HT. pose proof Ht as [Hs Hi]. unfold ov_keep. destruct (shown mm k) as [s|] eqn:Es; [|done]. destruct (ov !! kl_key k) eqn:E; [done|]. destruct (tracks_below _ _ _ _ _ _ Ht Hc HT Es) as (s0 & Hs0 & HT0).
  apply shown_Some in Es as [Hl Hk]. pose proof Hl as Hl'. rewrite Hs, E in Hl'. split.
  - intros j. destruct (decide (j = kl_key k)) as [->|Hj]; [by rewrite lookup_insert_eq|]. by rewrite lookup_insert_ne.
  - intros j i. rewrite lookup_insert_Some. intros [[<- <-]|[_ Hj]]; [|by apply Hi]. split; [by exists s0|]. by intros _.
Qed.

(** What runs in the sandbox runs as on the entries it shows, and leaves the ledger. *)
Lemma sandboxed_inv T {A} (p : prog A) : touches T p -> forall m ov mm d a ov' m1 d1, tracks T m ov mm -> run_map (sandboxed p ov) (m, d) = Ok ((a, ov'), (m1, d1)) ->
  m1 = m /\ d1 = d /\ exists mm', run_map p (mm, d) = Ok (a, (mm', d)) /\ tracks T m ov' mm'.
Proof.
  induction p as [a0|e|k c IH|k c IH|op c IH]; intros Hp m ov mm d a ov' m1 d1 Ht; cbn [sandboxed]; [intros [= -> -> -> ->]; cbn [run_map]; by eauto 6|done|..].
  - destruct Hp as [[Hc HT] Hp]. rewrite (ov_look_run _ _ _ _ _ _ _ Ht). intros Hr. destruct (IH _ (Hp _) _ _ mm _ _ _ _ _ (tracks_keep _ _ _ _ _ Ht Hc HT) Hr) as (-> & -> & mm' & Hr' & Ht'). split; [done|]. split; [done|]. by exists mm'.
  - rewrite (ov_look_run _ _ _ _ _ _ _ Ht). intros Hr. destruct (IH _ (Hp _) _ _ mm _ _ _ _ _ Ht Hr) as (-> & -> & mm' & Hr' & Ht'). split; [done|]. split; [done|]. by exists mm'.
  - destruct op as [k|k f|s|k|fee]; cbn [touches] in Hp; try done; destruct Hp as [[Hc HT] Hp]; rewrite (ov_look_run _ _ _ _ _ _ _ Ht); intros Hr; cbn [run_map vo_spec fst snd]; pose proof (fun s => tracks_below T m ov mm k s Ht Hc HT) as Hbelow; unfold shown in *.
    + destruct (mm !! kl_key k) as [s|] eqn:E; cbn [mbind option_bind] in *; [destruct (check k s)|]; [|by apply (IH Hp _ _ _ _ _ _ _ _ Ht Hr)..]. by apply (IH Hp _ _ _ _ _ _ _ _ (tracks_set _ _ _ _ _ (Some _) Ht (Hbelow s eq_refl)) Hr).
    + destruct (mm !! kl_key k) as [s|] eqn:E; cbn [mbind option_bind] in *; [destruct (check k s)|]; [|by apply (IH Hp _ _ _ _ _ _ _ _ Ht Hr)..]. by apply (IH Hp _ _ _ _ _ _ _ _ (tracks_set _ _ _ _ _ None Ht (Hbelow s eq_refl)) Hr).
Qed.

Lemma sandboxed_bind {A B} (p : prog A) (f : A -> prog B) : forall ov md, run_map (sandboxed (p ≫= f) ov) md = run_map (sandboxed p ov ≫= fun x => sandboxed (f x.1) x.2) md.
Proof.
  assert (Hlook : forall X k ov (c c' : option (SLE Object) -> prog X) md, (forall s, run_map (c s) md = run_map (c' s) md) -> run_map (ov_look k ov c) md = run_map (ov_look k ov c') md).
  { intros X k ov c c' md H. unfold ov_look. destruct (ov !! kl_key k); [apply H|]. cbn [run_map]. apply H. }
  assert (Hbind : forall k ov (c : option (SLE Object) -> prog (A * Overlay)) md, run_map (ov_look k ov c ≫= fun x => sandboxed (f x.1) x.2) md = run_map (ov_look k ov (fun s => c s ≫= fun x => sandboxed (f x.1) x.2)) md).
  { intros k ov c md. unfold ov_look. by destruct (ov !! kl_key k). }
  change (p ≫= f) with (prog_bind f p). induction p as [a|e|k c IH|k c IH|op c IH]; intros ov md; cbn [prog_bind sandboxed]; [done|done|..].
  - rewrite Hbind. apply Hlook. intros s. apply IH.
  - rewrite Hbind. apply Hlook. intros s. apply IH.
  - destruct op as [k|k g|s|k|fee]; cbn [sandboxed]; [rewrite Hbind; apply Hlook; intros s; apply IH| | | |]; [rewrite Hbind; apply Hlook; intros s; apply IH|rewrite Hbind; apply Hlook; intros [?|]; [done|apply IH]|rewrite Hbind; apply Hlook; intros s; apply IH|].
    cbn [run_map]. change (Do (vo_destroySFC fee) (sandboxed c ov) ≫= fun x => sandboxed (f x.1) x.2) with (Do (vo_destroySFC fee) (sandboxed c ov ≫= fun x => sandboxed (f x.1) x.2)). cbn [run_map]. destruct (vo_spec _ md); [apply IH|done].
Qed.

(** One step in the sandbox. *)
Lemma sandboxed_step T {A B} (p : prog A) (f : A -> prog B) m ov mm d x m2 d2 : touches T p -> tracks T m ov mm -> run_map (sandboxed (p ≫= f) ov) (m, d) = Ok (x, (m2, d2)) ->
  exists a ov1 mm1, run_map p (mm, d) = Ok (a, (mm1, d)) /\ tracks T m ov1 mm1 /\ run_map (sandboxed (f a) ov1) (m, d) = Ok (x, (m2, d2)).
Proof.
  intros Hp Ht. rewrite sandboxed_bind. intros ([a ov1] & m1 & d1 & H1 & H2)%run_bind_inv. destruct (sandboxed_inv T p Hp _ _ _ _ _ _ _ _ Ht H1) as (-> & -> & mm1 & Hr & Ht1). by exists a, ov1, mm1.
Qed.

(** ** What [apply] does *)

Lemma commit_items_run (l : list (Z * (bool * option (SLE Object)))) : forall m d, NoDup l.*1 -> (forall k s, (k, (true, Some s)) ∈ l -> sle_key s = k) ->
  exists m', run_map (commit_items l) (m, d) = Ok ((), (m', d)) /\ (forall k, k ∉ l.*1 -> m' !! k = m !! k) /\ forall k (i : bool * option (SLE Object)), (k, i) ∈ l -> m' !! k = if i.1 then i.2 else m !! k.
Proof.
  induction l as [|[k0 [b0 v0]] l IH]; intros m d Hn Hk; [exists m; split_and!; [done|done|set_solver]|]. cbn [fmap list_fmap fst] in Hn. apply NoDup_cons in Hn as [Hk0 Hn].
  assert (Hitem : exists m1, run_map (commit_item (k0, (b0, v0))) (m, d) = Ok ((), (m1, d)) /\ (forall k, k <> k0 -> m1 !! k = m !! k) /\ m1 !! k0 = if b0 then v0 else m !! k0).
  { unfold commit_item. cbn [fst snd]. destruct b0; cbn [negb]; [|by exists m]. cbn [run_map vo_spec kl_key]. assert (Hdel : (match m !! k0 with Some s => if check (mkKeylet ltANY k0) s then Some (delete k0 m, d) else Some (m, d) | None => Some (m, d) end) = Some (delete k0 m, d)).
    { destruct (m !! k0) eqn:E; [done|]. by rewrite delete_id. }
    rewrite Hdel. destruct v0 as [s|].
    - assert (Es : sle_key s = k0) by (apply Hk; left). cbn [run_map vo_spec]. rewrite Es, decide_False by (rewrite lookup_delete_eq; by intros [? ?]). exists (<[k0 := s]> (delete k0 m)). split; [done|]. split; [|by rewrite lookup_insert_eq]. intros k Hne. by rewrite lookup_insert_ne, lookup_delete_ne.
    - exists (delete k0 m). split; [done|]. split; [|by rewrite lookup_delete_eq]. intros k Hne. by rewrite lookup_delete_ne. }
  destruct Hitem as (m1 & E1 & Ho1 & Hi1). destruct (IH m1 d Hn) as (m' & E & Ho & Hi); [intros k s Hks; apply Hk; by right|]. exists m'. cbn [commit_items]. rewrite run_mbind, E1. cbn [mbind res_bind]. split; [done|]. split.
  - intros k Hk'. cbn [fmap list_fmap fst] in Hk'. apply not_elem_of_cons in Hk' as [? ?]. by rewrite Ho, Ho1.
  - intros k i [[= -> ->]|Hki]%elem_of_cons; [by rewrite Ho, Hi1|]. rewrite (Hi k i Hki). destruct i.1; [done|]. apply Ho1. intros ->. apply Hk0, list_elem_of_fmap. by exists (k0, i).
Qed.

Lemma commit_run T m ov mm d : tracks T m ov mm -> (forall k s, mm !! k = Some s -> sle_key s = k) -> run_map (commit ov) (m, d) = Ok ((), (mm, d)).
Proof.
  intros [Hs Hi] Hk. unfold commit. destruct (commit_items_run (map_to_list ov) m d) as (m' & E & Ho & Hin); [apply NoDup_fst_map_to_list| |].
  - intros k s Hks%elem_of_map_to_list. apply Hk. by rewrite Hs, Hks.
  - rewrite E. do 3 f_equal. apply map_eq. intros k. rewrite Hs. destruct (ov !! k) as [i|] eqn:Ek.
    + rewrite (Hin k i) by (by apply elem_of_map_to_list). destruct (Hi k i Ek) as [_ Hc]. destruct i as [[] v]; [done|]. cbn in *. by rewrite Hc.
    + apply Ho. intros ([k' v'] & Ek' & Hi'%elem_of_map_to_list)%list_elem_of_fmap. cbn in Ek'. subst k'. congruence.
Qed.

(** The ledger below may change elsewhere. *)
Definition ov_on (ov : Overlay) (m : gmap Z (SLE Object)) : gmap Z (SLE Object) := merge (fun i s => match i with Some i => i.2 | None => s end) ov m.

Lemma ov_on_lookup ov m k : ov_on ov m !! k = match ov !! k with Some i => i.2 | None => m !! k end.
Proof. unfold ov_on. rewrite lookup_merge. by destruct (ov !! k), (m !! k). Qed.

Lemma tracks_move T U m m1 ov mm : tracks T m ov mm -> (forall x, x ∈ T -> x ∉ U) -> same_outside U m m1 -> tracks T m1 ov (ov_on ov m1).
Proof.
  intros [Hs Hi] HTU Hso. split; [intros k; apply ov_on_lookup|]. intros k i Ek. destruct (Hi k i Ek) as [(s & Hl & HT) Hc]. assert (Hl1 : m1 !! k = Some s) by (apply Hso; [by apply HTU|done]). split; [by exists s|]. intros Hf. rewrite Hl1, <-Hl. by apply Hc.
Qed.

Lemma ov_on_money T m m1 ov mm : tracks T m ov mm -> same_money m m1 -> same_money mm (ov_on ov m1).
Proof. intros [Hs _] Hm k. unfold money. rewrite ov_on_lookup, Hs. destruct (ov !! k); [done|]. apply Hm. Qed.

Lemma ov_on_ledger T m m1 ov mm : tracks T m ov mm -> ledger_ok mm -> ledger_ok m1 -> ledger_ok (ov_on ov m1).
Proof. intros [Hs _] Hmm Hm1 k s. rewrite ov_on_lookup. destruct (ov !! k) as [i|] eqn:E; [|apply Hm1]. intros Hi. apply Hmm. by rewrite Hs, E. Qed.

Lemma touches_bind T {A B} (p : prog A) (f : A -> prog B) : touches T p -> (forall a, touches T (f a)) -> touches T (p ≫= f).
Proof.
  intros Hp Hf. change (p ≫= f) with (prog_bind f p). induction p as [a|e|k c IH|k c IH|op c IH]; cbn [prog_bind touches] in *; [apply Hf|done|..].
  - destruct Hp as [H1 H2]. split; [done|]. intros s. apply IH, H2.
  - intros s. apply IH, Hp.
  - destruct op; try done; destruct Hp as [H1 H2]; (split; [done|by apply IH]).
Qed.

Lemma touches_lift T {A} (r : res A) : touches T (liftR r).
Proof. by destruct r. Qed.
Lemma touches_ret T {A} (a : A) : touches T (mret a).
Proof. done. Qed.
Lemma touches_read T k : touches T (read k).
Proof. done. Qed.
Lemma touches_peek T k : concrete (kl_type k) = true -> kl_type k ∈ T -> touches T (peek k).
Proof. done. Qed.
Lemma touches_peek_object T k : concrete (kl_type k) = true -> kl_type k ∈ T -> touches T (peek_object k).
Proof. intros Hc HT. apply touches_bind; [done|]. by intros [s|]. Qed.
Lemma touches_modify T k f : concrete (kl_type k) = true -> kl_type k ∈ T -> touches T (modify k f).
Proof. intros Hc HT. apply touches_bind; [by apply touches_peek_object|]. intros o. apply touches_bind; [apply touches_lift|]. by intros o'. Qed.
Lemma touches_erase T k : concrete (kl_type k) = true -> kl_type k ∈ T -> touches T (erase_sle k).
Proof. intros Hc HT. apply touches_bind; [by apply touches_peek_object|]. by intros o. Qed.

Create HintDb touches.
#[export] Hint Resolve touches_lift touches_ret touches_read touches_peek touches_peek_object touches_modify touches_erase : touches.
