(* ===== verification/Checks.v ===== *)
(** * Checks

    Models CreateCheck.cpp, CancelCheck.cpp and CashCheck.cpp of app/tx/impl. A check
    lets its destination draw up to an amount from its source until it expires. To cash
    one, the payment is made in a payment sandbox while the check leaves the directories
    through the view below it; the payment engine ([flow]) is a parameter. *)

From S2P Require Import Prelude STAmount Serializer Keys SField STObject STAccess View TER Indexes Formats STTx RawStateTable ApplyStateTable Prog.
From S2P Require Import HashRouter LoadFee Invariants Entries TxMeta MetaCommit OwnerDir LedgerView Transactor Engine AccountTx TrustTx Conditions Funds Escrow PaymentSandbox.

(** [std::max] of amounts. *)
Definition amount_max (a b : STAmount) : res STAmount := c ← op_lt a b; Ok (if c : bool then b else a).

Definition keylet_check_id (id : Z) : Keylet := mkKeylet ltCHECK id.

(** What the payment engine is asked: deliver, source, destination, partial payment,
    and the most to send. *)
Record FlowInput := mkFlow { fl_deliver : STAmount; fl_src : Z; fl_dst : Z; fl_partial : bool; fl_sendMax : STAmount }.

Section Checks.
Context (sha512Half : list Z -> Z) (info : ViewInfo) (flow : FlowInput -> prog (Z * STAmount)).

Abbreviation acct := (keylet_account sha512Half).
Abbreviation ownerDir := (keylet_ownerDir sha512Half).
Abbreviation line := (keylet_line sha512Half).

(** ** [CreateCheck] *)

Definition CreateCheck_preflight (ctx : PreflightContext) : res Z :=
  let tx := tx_object (pf_tx ctx) in
  if negb (pf_rules ctx featureChecks) then Ok (temDISABLED : Z) else
  unless_tes (preflight1 ctx) (
  if has_flags (tx_flags (pf_tx ctx)) tfUniversalMask then Ok (temINVALID_FLAG : Z) else
  account ← at_field as_account 0 tx sfAccount;
  dst ← at_field as_account 0 tx sfDestination;
  if account =? dst then Ok (temREDUNDANT : Z) else
  sendMax ← getFieldAmount tx sfSendMax;
  if negb (isLegalNet sendMax) || (signum sendMax <=? 0) then Ok (temBAD_AMOUNT : Z) else
  if badCurrency =? currency (mIssue sendMax) then Ok (temBAD_CURRENCY : Z) else
  optExpiry ← at_opt as_u32 0 tx sfExpiration;
  if bool_decide (optExpiry = Some 0) then Ok (temBAD_EXPIRATION : Z) else
  preflight2 ctx).

(** A trust line that one of its accounts has frozen. *)
Definition line_frozen (a b cur : Z) (high : bool) : prog bool :=
  sleTrust ← read (line a b cur);
  mret (match sleTrust with Some s => isFlag (sle_data s) (if high then lsfHighFreeze else lsfLowFreeze) | None => false end).

(** What is checked of a currency that is not SFC. *)
Definition check_frozen (srcId dstId : Z) (sendMax : STAmount) : prog bool :=
  let issuerId := STAmount.account (mIssue sendMax) in
  let cur := currency (mIssue sendMax) in
  global ← isGlobalFrozen sha512Half issuerId;
  if global : bool then mret true else
  src ← (if negb (issuerId =? srcId) then line_frozen srcId issuerId cur (srcId <? issuerId) else mret false);
  if src : bool then mret true else
  if negb (issuerId =? dstId) then line_frozen issuerId dstId cur (issuerId <? dstId) else mret false.

Definition expired (optExpiry : option Z) : bool := match optExpiry with Some e => e <=? parentCloseTime info | None => false end.

Definition CreateCheck_preclaim (tx : STTx) (flags : Z) : prog Z :=
  let o := tx_object tx in
  dstId ← liftR (at_field as_account 0 o sfDestination);
  sleDst ← read (acct dstId);
  match sleDst with
  | None => mret (tecNO_DST : Z)
  | Some sleDst =>
      if has_flags (getFlags (sle_data sleDst)) lsfRequireDestTag && negb (tx_has tx sfDestinationTag) then mret (tecDST_TAG_NEEDED : Z) else
      sendMax ← liftR (tx_amount o sfSendMax);
      frozen ← (if negb (mIsNative sendMax) then srcId ← liftR (getAccountID o sfAccount); check_frozen srcId dstId sendMax else mret false);
      if frozen : bool then mret (tecFROZEN : Z) else
      optExpiry ← liftR (at_opt as_u32 0 o sfExpiration);
      if expired optExpiry then mret (tecEXPIRED : Z) else
      mret (tesSUCCESS : Z)
  end.

(** A field that is copied when the transaction has it. *)
Definition copy_u32 (tx : Object) (f : SField) (o : Object) : res Object :=
  v ← at_opt as_u32 0 tx f; match v with Some n => setFieldU32 o f n | None => Ok o end.

Definition new_check (tx : Object) (account dst seq : Z) (o : Object) : res Object :=
  o ← setAccountID o sfAccount account;
  o ← setAccountID o sfDestination dst;
  o ← setFieldU32 o sfSequence seq;
  sendMax ← tx_amount tx sfSendMax;
  o ← setFieldAmount o sfSendMax sendMax;
  o ← copy_u32 tx sfSourceTag o;
  o ← copy_u32 tx sfDestinationTag o;
  invoiceId ← at_opt as_h256 0 tx sfInvoiceID;
  o ← (match invoiceId with Some h => setFieldH256 o sfInvoiceID h | None => Ok o end);
  copy_u32 tx sfExpiration o.

(** The check goes in a directory, and keeps the page. *)
Definition file_check (k : Keylet) (id : Z) (node : SField) : prog bool :=
  page ← dirAdd_at sha512Half info (ownerDir id) (kl_key k) false (describeOwnerDir id);
  match page with
  | None => mret false
  | Some page => _ ← modify k (fun o => setFieldU64 o node page); mret true
  end.

Definition CreateCheck_doApply (ap : Applying) : prog Z :=
  let tx := tx_object (ap_tx ap) in
  let account := account_ ap in
  sle ← peek_object (acct account);
  count ← liftR (getFieldU32 sle sfOwnerCount);
  reserve ← liftR (ofSFC (reserve_for info (count + 1)));
  prior ← liftR (ofSFC (mPriorBalance ap));
  short ← liftR (op_lt prior reserve);
  if short : bool then mret (tecINSUFFICIENT_RESERVE : Z) else
  dst ← liftR (at_field as_account 0 tx sfDestination);
  seq ← liftR (getSequence (ap_tx ap));
  let k := keylet_check sha512Half account seq in
  _ ← insert_new k (new_check tx account dst seq);
  filed ← (if negb (dst =? account) then file_check k dst sfDestinationNode else mret true);
  if negb filed then mret (tecDIR_FULL : Z) else
  filed ← file_check k account sfOwnerNode;
  if negb filed then mret (tecDIR_FULL : Z) else
  _ ← adjustOwnerCount (acct account) 1;
  mret (tesSUCCESS : Z).

Definition CreateCheck : TxClass := plain_class info CreateCheck_preflight CreateCheck_preclaim CreateCheck_doApply.

(** ** [CancelCheck] *)

Definition CancelCheck_preflight (ctx : PreflightContext) : res Z :=
  if negb (pf_rules ctx featureChecks) then Ok (temDISABLED : Z) else
  unless_tes (preflight1 ctx) (
  if has_flags (tx_flags (pf_tx ctx)) tfUniversalMask then Ok (temINVALID_FLAG : Z) else
  preflight2 ctx).

Definition CancelCheck_preclaim (tx : STTx) (flags : Z) : prog Z :=
  id ← liftR (at_field as_h256 0 (tx_object tx) sfCheckID);
  sleCheck ← read (keylet_check_id id);
  match sleCheck with
  | None => mret (tecNO_ENTRY : Z)
  | Some s =>
      optExpiry ← liftR (at_opt as_u32 0 (sle_data s) sfExpiration);
      if expired optExpiry then mret (tesSUCCESS : Z) else
      acctId ← liftR (at_field as_account 0 (tx_object tx) sfAccount);
      src ← liftR (at_field as_account 0 (sle_data s) sfAccount);
      dst ← liftR (at_field as_account 0 (sle_data s) sfDestination);
      mret (if negb (acctId =? src) && negb (acctId =? dst) then (tecNO_PERMISSION : Z) else tesSUCCESS)
  end.

(** The check leaves the directory of its destination and that of its source. *)
Definition unfile_check (k : Keylet) (sleCheck : Object) (srcId dstId : Z) : prog bool :=
  removed ← (if negb (srcId =? dstId) then page ← liftR (proxy_value as_u64 0 sleCheck sfDestinationNode); view_dirRemove sha512Half (ownerDir dstId) page (kl_key k) true else mret true);
  if negb removed then mret false else
  page ← liftR (proxy_value as_u64 0 sleCheck sfOwnerNode);
  view_dirRemove sha512Half (ownerDir srcId) page (kl_key k) true.

Definition CancelCheck_doApply (ap : Applying) : prog Z :=
  checkId ← liftR (at_field as_h256 0 (tx_object (ap_tx ap)) sfCheckID);
  let k := keylet_check_id checkId in
  sleCheck ← peek k;
  match sleCheck with
  | None => mret (tecNO_ENTRY : Z)
  | Some s =>
      srcId ← liftR (getAccountID (sle_data s) sfAccount);
      dstId ← liftR (getAccountID (sle_data s) sfDestination);
      removed ← unfile_check k (sle_data s) srcId dstId;
      if negb removed then mret (tefBAD_LEDGER : Z) else
      _ ← adjustOwnerCount (acct srcId) (-1);
      _ ← erase_sle k;
      mret (tesSUCCESS : Z)
  end.

Definition CancelCheck : TxClass := plain_class info CancelCheck_preflight CancelCheck_preclaim CancelCheck_doApply.

(** ** [CashCheck] *)

Definition CashCheck_preflight (ctx : PreflightContext) : res Z :=
  let tx := tx_object (pf_tx ctx) in
  if negb (pf_rules ctx featureChecks) then Ok (temDISABLED : Z) else
  unless_tes (preflight1 ctx) (
  if has_flags (tx_flags (pf_tx ctx)) tfUniversalMask then Ok (temINVALID_FLAG : Z) else
  optAmount ← at_opt as_amount no_amount tx sfAmount;
  optDeliverMin ← at_opt as_amount no_amount tx sfDeliverMin;
  match optAmount, optDeliverMin with
  | Some value, None | None, Some value =>
      if negb (isLegalNet value) || (signum value <=? 0) then Ok (temBAD_AMOUNT : Z) else
      if badCurrency =? currency (mIssue value) then Ok (temBAD_CURRENCY : Z) else
      preflight2 ctx
  | _, _ => Ok (temMALFORMED : Z)
  end).

(** The accounts of a check that is cashed. *)
Definition cash_accounts (check : Object) (srcId dstId : Z) : prog Z :=
  sleSrc ← read (acct srcId);
  sleDst ← read (acct dstId);
  match sleSrc, sleDst with
  | Some _, Some sleDst =>
      if has_flags (getFlags (sle_data sleDst)) lsfRequireDestTag && negb (isFieldPresent check sfDestinationTag) then mret (tecDST_TAG_NEEDED : Z) else mret (tesSUCCESS : Z)
  | _, _ => mret (tecNO_ENTRY : Z)
  end.

(** The destination may hold what the issuer owes. *)
Definition cash_line (dstId issuerId cur : Z) : prog Z :=
  sleTrustLine ← read (line dstId issuerId cur);
  match sleTrustLine with
  | None => mret (tecNO_LINE : Z)
  | Some sleTrustLine =>
      sleIssuer ← read (acct issuerId);
      match sleIssuer with
      | None => mret (tecNO_ISSUER : Z)
      | Some sleIssuer =>
          iflags ← liftR (at_field as_u32 0 (sle_data sleIssuer) sfFlags);
          authorized ← (if has_flags iflags lsfRequireAuth then
                          lflags ← liftR (at_field as_u32 0 (sle_data sleTrustLine) sfFlags); mret (has_flags lflags (if issuerId <? dstId then lsfLowAuth else lsfHighAuth))
                        else mret true);
          if negb authorized then mret (tecNO_AUTH : Z) else
          frozen ← isFrozen sha512Half dstId cur issuerId;
          mret (if frozen : bool then (tecFROZEN : Z) else tesSUCCESS)
      end
  end.

Definition CashCheck_preclaim (tx : STTx) (flags : Z) : prog Z :=
  let o := tx_object tx in
  id ← liftR (at_field as_h256 0 o sfCheckID);
  sleCheck ← read (keylet_check_id id);
  match sleCheck with
  | None => mret (tecNO_ENTRY : Z)
  | Some s =>
      let check := sle_data s in
      dstId ← liftR (at_field as_account 0 check sfDestination);
      account ← liftR (at_field as_account 0 o sfAccount);
      if negb (account =? dstId) then mret (tecNO_PERMISSION : Z) else
      srcId ← liftR (at_field as_account 0 check sfAccount);
      if srcId =? dstId then mret (tecINTERNAL : Z) else
      ter ← cash_accounts check srcId dstId;
      if negb (ter =? tesSUCCESS) then mret ter else
      optExpiry ← liftR (at_opt as_u32 0 check sfExpiration);
      if expired optExpiry then mret (tecEXPIRED : Z) else
      optAmount ← liftR (at_opt as_amount no_amount o sfAmount);
      value ← liftR (match optAmount with Some a => Ok a | None => tx_amount o sfDeliverMin end);
      sendMax ← liftR (tx_amount check sfSendMax);
      let cur := currency (mIssue value) in
      let issuerId := STAmount.account (mIssue value) in
      if negb (cur =? currency (mIssue sendMax)) then mret (temMALFORMED : Z) else
      if negb (issuerId =? STAmount.account (mIssue sendMax)) then mret (temMALFORMED : Z) else
      more ← liftR (op_lt sendMax value);
      if more : bool then mret (tecPATH_PARTIAL : Z) else
      funds ← accountFunds sha512Half info srcId value fhZERO_IF_FROZEN;
      funds ← liftR (if mIsNative value then inc ← ofSFC (fees_increment (fees info)); op_add funds inc else Ok funds);
      more ← liftR (op_lt funds value);
      if more : bool then mret (tecPATH_PARTIAL : Z) else
      if negb (mIsNative value) && negb (issuerId =? dstId) then cash_line dstId issuerId cur else mret (tesSUCCESS : Z)
  end.

(** A check for SFC is paid: the result, and the amount reported as delivered. *)
Definition cash_sfc (ap : Applying) (srcId : Z) (sendMax : STAmount) (optDeliverMin : option STAmount) : prog (Z * option STAmount) :=
  liquid ← sfcLiquid sha512Half info srcId (-1);
  srcLiquid ← liftR (ofSFC liquid);
  sfcDeliver ← liftR (match optDeliverMin with
                      | Some deliverMin => m ← amount_min sendMax srcLiquid; amount_max deliverMin m
                      | None => getFieldAmount (tx_object (ap_tx ap)) sfAmount
                      end);
  short ← liftR (op_lt srcLiquid sfcDeliver);
  if short : bool then mret ((tecUNFUNDED_PAYMENT : Z), None) else
  _ ← transferSFC sha512Half info srcId (account_ ap) sfcDeliver;
  mret ((tesSUCCESS : Z), if present optDeliverMin && enabled info fix1623 then Some sfcDeliver else None).

(** A check for another currency is paid by the payment engine. *)
Definition cash_issued (ap : Applying) (srcId : Z) (sendMax : STAmount) (optDeliverMin : option STAmount) : prog (Z * option STAmount) :=
  flowDeliver ← liftR (match optDeliverMin with
                       | Some d => STAmount.make (mIssue d) (cMaxValue / 2) cMaxOffset false
                       | None => tx_amount (tx_object (ap_tx ap)) sfAmount
                       end);
  result ← flow (mkFlow flowDeliver srcId (account_ ap) (present optDeliverMin) sendMax);
  let '(ter, actualAmountOut) := result in
  if negb (ter =? tesSUCCESS) then mret (ter, None) else
  match optDeliverMin with
  | None => mret ((tesSUCCESS : Z), None)
  | Some deliverMin =>
      less ← liftR (op_lt actualAmountOut deliverMin);
      if less : bool then mret ((tecPATH_PARTIAL : Z), None) else
      mret ((tesSUCCESS : Z), if enabled info fix1623 then Some actualAmountOut else None)
  end.

(** The part made in the sandbox before the check leaves the directories: the result,
    what was delivered, and the check with its source. *)
Definition cash_payment (ap : Applying) (k : Keylet) : prog (Z * option STAmount * option (Object * Z)) :=
  let tx := tx_object (ap_tx ap) in
  sleCheck ← peek k;
  match sleCheck with
  | None => mret ((tecFAILED_PROCESSING : Z), None, None)
  | Some sleCheck =>
      let check := sle_data sleCheck in
      srcId ← liftR (getAccountID check sfAccount);
      sleSrc ← peek (acct srcId);
      sleDst ← peek (acct (account_ ap));
      match sleSrc, sleDst with
      | Some _, Some _ =>
          optDeliverMin ← liftR (at_opt as_amount no_amount tx sfDeliverMin);
          if srcId =? account_ ap then mret ((tesSUCCESS : Z), None, Some (check, srcId)) else
          sendMax ← liftR (getFieldAmount check sfSendMax);
          r ← (if mIsNative sendMax then cash_sfc ap srcId sendMax optDeliverMin else cash_issued ap srcId sendMax optDeliverMin);
          mret (r, Some (check, srcId))
      | _, _ => mret ((tecFAILED_PROCESSING : Z), None, None)
      end
  end.

(** The sandbox over the view of the transaction: the payment is in the sandbox, the
    directories change below it, and the sandbox is applied at the end. *)
Definition CashCheck_doApply (ap : Applying) : prog (Z * option STAmount) :=
  checkKey ← liftR (at_field as_h256 0 (tx_object (ap_tx ap)) sfCheckID);
  let k := keylet_check_id checkKey in
  r ← sandboxed (cash_payment ap k) ∅;
  let '((ter, deliver, found), psb) := r in
  match found with
  | None => mret (ter, deliver)
  | Some (check, srcId) =>
      if negb (ter =? tesSUCCESS) then mret (ter, deliver) else
      removed ← unfile_check k check srcId (account_ ap);
      if negb removed then mret ((tefBAD_LEDGER : Z), deliver) else
      r ← sandboxed (_ ← adjustOwnerCount (acct srcId) (-1); erase_sle k) psb;
      _ ← commit r.2;
      mret ((tesSUCCESS : Z), deliver)
  end.

Definition CashCheck : TxClass := mkClass CashCheck_preflight (calculateBaseFee info) CashCheck_preclaim CashCheck_doApply (fun _ => Ok false) (fun _ => Ok 0).
End Checks.

(** ** A check that stays in a directory *)

(** The payment engine on a direct path from the source over the issuer to the
    destination: two credits, without fees. *)
Definition direct_flow (sha512Half : list Z -> Z) (info : ViewInfo) (i : FlowInput) : prog (Z * STAmount) :=
  let issuer := STAmount.account (mIssue (fl_deliver i)) in
  ter ← SupplyFinanceChainCredit sha512Half info (fl_src i) issuer (fl_deliver i);
  if negb (ter =? tesSUCCESS) then mret (ter, fl_deliver i) else
  ter ← SupplyFinanceChainCredit sha512Half info issuer (fl_dst i) (fl_deliver i);
  mret (ter, fl_deliver i).

(** Accounts 5 and 6 trust account 7 for its currency; account 5 holds 100 of it, all of
    which a check of account 5 lets account 6 draw. The entries are in the owners'
    directories. *)
Definition units (n issuer : Z) : STAmount := match STAmount.make (mkIssue 9 issuer) n 0 false with Ok a => a | Throw _ => no_amount end.
Definition wcheck : Keylet := keylet_check id_digest 5 1.
Definition wline (low high flags balance limit : Z) : SLE Object :=
  wentry (keylet_line id_digest low high 9) (fun o => o ← setFieldU32 o sfFlags flags; o ← setFieldAmount o sfBalance (units balance 1); o ← setFieldAmount o sfLowLimit (units limit low); setFieldAmount o sfHighLimit (units 0 high)).
Definition wowner (id : Z) (keys : list Z) : Z * SLE Object :=
  let dir := keylet_ownerDir id_digest id in
  (kl_key dir, wentry dir (fun o => o ← setFieldH256 o sfRootIndex (kl_key dir); o ← setFieldV256 o sfIndexes keys; describeOwnerDir id o)).
Definition wline_key (low : Z) : Z := kl_key (keylet_line id_digest low 7 9).

Definition wcheck_ledger : gmap Z (SLE Object) := list_to_map
  [(kl_key (keylet_account id_digest 5), waccount_of 5 1000000000); (kl_key (keylet_account id_digest 6), waccount_of 6 1000000000); (kl_key (keylet_account id_digest 7), waccount_of 7 1000000000);
   (wline_key 5, wline 5 7 (Z.lor lsfLowReserve lsfLowNoSupplyFinanceChain) 100 0); (wline_key 6, wline 6 7 lsfLowReserve 0 1000);
   wowner 5 [kl_key wcheck; wline_key 5]; wowner 6 [kl_key wcheck; wline_key 6]; wowner 7 [wline_key 5; wline_key 6];
   (kl_key wcheck, wentry wcheck (fun o => o ← setAccountID o sfAccount 5; o ← setAccountID o sfDestination 6; o ← setFieldU32 o sfSequence 1; setFieldAmount o sfSendMax (units 100 7)))].

Definition wcash : Applying :=
  mkApplying (sample_tx ttCHECK_CASH (fun o => o ← setAccountID o sfAccount 6; o ← setFieldH256 o sfCheckID (kl_key wcheck); setFieldAmount o sfAmount (units 100 7))) 6 1000000000 1000000000 10 0.

(** Cashing the check of account 5 empties its trust line, and the line is deleted: the
    sandbox has a copy of the page without the line, but with the check, and this copy
    replaces the page from which the check was removed below. The check is gone, and the
    directory of account 5 still names it. *)
Definition left_behind (r : res ((Z * option STAmount) * (gmap Z (SLE Object) * Z))) : bool :=
  match r with
  | Ok ((ter, None), (m', _)) =>
      (ter =? tesSUCCESS) && bool_decide (m' !! kl_key wcheck = None) &&
      match m' !! kl_key (keylet_ownerDir id_digest 5) with
      | Some s => match getFieldV256 (sle_data s) sfIndexes with Ok l => bool_decide (l = [kl_key wcheck]) | Throw _ => false end
      | None => false
      end
  | _ => false
  end.

Lemma cashed_check_left_behind : left_behind (run_map (CashCheck_doApply id_digest winfo (direct_flow id_digest winfo) wcash) (wcheck_ledger, 0)) = true.
Proof. vm_compute. reflexivity. Qed.

(** ** What holds of them *)

Section Laws.
Context (sha512Half : list Z -> Z) (info : ViewInfo) (flow : FlowInput -> prog (Z * STAmount)).

Abbreviation acct := (keylet_account sha512Half).
Abbreviation akey id := (kl_key (keylet_account sha512Half id)).

Lemma unfile_check_neutral k check src dst : neutral [ltDIR_NODE] (unfile_check sha512Half k check src dst).
Proof. unfold unfile_check. neutral_tac. Qed.

Lemma writes_copy_u32 F tx f : field_ok f -> getCode f ∈ getCode <$> F -> writes F (copy_u32 tx f).
Proof. intros Hf Hin. apply writes_lift. intros [n|] _; [by apply writes_set|apply writes_ret]. Qed.

Definition check_fields : list SField := [sfAccount; sfDestination; sfSequence; sfSendMax; sfSourceTag; sfDestinationTag; sfInvoiceID; sfExpiration; sfOwnerNode; sfDestinationNode].

Lemma writes_new_check tx account dst seq : writes check_fields (new_check tx account dst seq).
Proof.
  unfold new_check. writes_tac. all: try (apply writes_copy_u32; [field_ok_tac|refine (bool_decide_unpack _ _); vm_compute; exact I]). destruct a0; writes_tac.
Qed.

Lemma neutral_file_check k id node : kl_type k = ltCHECK -> field_ok node -> getCode node ∈ getCode <$> check_fields -> neutral [ltDIR_NODE; ltACCOUNT_ROOT; ltCHECK] (file_check sha512Half info k id node).
Proof.
  intros Hk Hf Hin. unfold file_check. neutral_tac.
  all: try (apply neutral_dirAdd_in; [set_solver|done|apply writes_describeOwnerDir]). apply (neutral_other _ check_fields); [by rewrite Hk|rewrite Hk; set_solver|by rewrite Hk|by apply writes_set].
Qed.

(** Writing a check, and cancelling it, moves no SFC. *)
Lemma neutral_CreateCheck ap : neutral [ltDIR_NODE; ltACCOUNT_ROOT; ltCHECK] (CreateCheck_doApply sha512Half info ap).
Proof.
  unfold CreateCheck_doApply. neutral_tac.
  all: try (apply neutral_file_check; [done|field_ok_tac|refine (bool_decide_unpack _ _); vm_compute; exact I]). apply (neutral_new _ check_fields); [apply writes_new_check|set_solver|done].
Qed.

Lemma neutral_CancelCheck ap : neutral [ltDIR_NODE; ltACCOUNT_ROOT; ltCHECK] (CancelCheck_doApply sha512Half ap).
Proof. unfold CancelCheck_doApply, keylet_check_id. neutral_tac; eapply neutral_weaken; [|apply unfile_check_neutral]; set_solver. Qed.

Lemma checks_CreateCheck : common_checks (CreateCheck sha512Half info).
Proof. unfold CreateCheck, CreateCheck_preflight. class_checks. Qed.
Lemma checks_CancelCheck : common_checks (CancelCheck sha512Half info).
Proof. unfold CancelCheck, CancelCheck_preflight. class_checks. Qed.
Lemma checks_CashCheck : common_checks (CashCheck sha512Half info flow).
Proof. unfold CashCheck, CashCheck_preflight. apply checked_class. intros ctx. cbn [tc_preflight]. cbv zeta. repeat checks_step. Qed.

(** ** What an account can send *)

Lemma confine_range c adj : 0 <= confineOwnerCount c adj < 2 ^ 32.
Proof. unfold confineOwnerCount. assert (H : 0 <= u32 (c + adj) < 2 ^ 32) by apply (Z.mod_pos_bound (c + adj) (2 ^ 32) eq_refl). destruct (0 <? adj), (_ <? _); lia. Qed.

Lemma sfcLiquid_run id adj m d v m' d' : ledger_ok m -> fix1141 (parentCloseTime info) = true -> sane_fees (fees info) -> run_map (sfcLiquid sha512Half info id adj) (m, d) = Ok (v, (m', d')) ->
  m' = m /\ d' = d /\ 0 <= v <= money m (akey id).
Proof.
  intros Hm Hfix Hfees Hr. unfold sfcLiquid in Hr. run_step Hr. destruct (shown m (acct id)) as [s|] eqn:Hs; [|apply run_ret_inv in Hr as [-> [= -> ->]]; split_and!; [done|done|lia|by apply money_nonneg]].
  destruct (account_balance sha512Half m id s Hm Hs) as (a & n & Hp & Hd & Hn & Hmo & _). apply run_bind_inv in Hr as (count & m1 & d1 & [_ [= -> ->]]%run_lift_inv & Hr). cbv zeta in Hr. rewrite Hfix in Hr.
  pose proof (Hfees _ (confine_range count adj)) as Hres. revert Hr Hres. generalize (confineOwnerCount count adj). intros c Hr Hres. apply run_bind_inv in Hr as (r & m1 & d1 & [Hrv [= -> ->]]%run_lift_inv & Hr).
  unfold accountReserve in Hrv. rewrite i64_small in Hrv by (unfold cMaxNativeN in *; lia). apply ofSFC_inv in Hrv; [|unfold cMaxNativeN in *; lia]. set (R := fees_reserve (fees info) + c * fees_increment (fees info)) in *.
  apply run_bind_inv in Hr as (b & m1 & d1 & [Hb [= -> ->]]%run_lift_inv & Hr). rewrite (get_balance _ _ Hp) in Hb. injection Hb as <-. pose proof (drops_range _ _ Hd). destruct (op_sub_drops a r n R Hd Hrv) as (l & El & Hl); [unfold cMaxNativeN in *; lia|].
  rewrite (run_lift_step _ _ _ _ _ El), (run_lift_step _ _ _ _ _ (op_lt_drops _ _ _ _ Hd Hrv)) in Hr. apply run_lift_inv in Hr as [Hv [= -> ->]]. split; [done|]. split; [done|]. rewrite Hmo. destruct (Z.ltb_spec n R).
  - destruct Hl as (_ & Hnat & _). unfold sfc, clear in Hv. cbn in Hv. rewrite Hnat in Hv. cbn [negb] in Hv. change (i64 0) with 0 in Hv. injection Hv as <-. lia.
  - rewrite (sfc_drops _ _ Hl) in Hv. injection Hv as <-. lia.
Qed.

(** ** Cashing a check for SFC *)

(** What the transaction asks: an amount, or the least to deliver. *)
Definition asks (tx : Object) (least : bool) (v : Z) : Prop :=
  exists a, is_drops a v /\ 0 <= v /\
    if least then at_opt as_amount no_amount tx sfAmount = Ok None /\ at_opt as_amount no_amount tx sfDeliverMin = Ok (Some a) /\ tx_amount tx sfDeliverMin = Ok a
    else at_opt as_amount no_amount tx sfAmount = Ok (Some a) /\ at_opt as_amount no_amount tx sfDeliverMin = Ok None /\ getFieldAmount tx sfAmount = Ok a.

Definition pays (least : bool) (v most n : Z) : Prop := if least then v <= n <= most else n = v /\ v <= most.

Lemma amount_max_drops a b n p : is_drops a n -> is_drops b p -> exists c, amount_max a b = Ok c /\ is_drops c (Z.max n p).
Proof. intros Ha Hb. unfold amount_max. rewrite (op_lt_drops _ _ _ _ Ha Hb). cbn [mbind res_bind]. destruct (Z.ltb_spec n p); eexists; (split; [reflexivity|]); [by rewrite Z.max_r by lia|by rewrite Z.max_l by lia]. Qed.

Lemma cash_sfc_run ap src smax sm least v m d dl m' d' : ledger_ok m -> total_drops m <= cMaxNativeN -> fix1141 (parentCloseTime info) = true -> sane_fees (fees info) ->
  is_drops smax sm -> asks (tx_object (ap_tx ap)) least v -> v <= sm -> akey src <> akey (account_ ap) -> is_Some (shown m (acct src)) -> is_Some (shown m (acct (account_ ap))) ->
  (exists o, at_opt as_amount no_amount (tx_object (ap_tx ap)) sfDeliverMin = Ok o /\ run_map (cash_sfc sha512Half info ap src smax o) (m, d) = Ok (((tesSUCCESS : Z), dl), (m', d'))) ->
  d' = d /\ ledger_ok m' /\ same_outside [ltACCOUNT_ROOT] m m' /\ exists n, pays least v sm n /\ moved m m' (akey src) (akey (account_ ap)) n /\ 0 <= n.
Proof.
  intros Hm Htot Hfix Hfees Hsm (a & Ha & Hv & Hask) Hle Hkeys Hs1 Hs2 (o & Ho & Hr). unfold cash_sfc in Hr. apply run_bind_inv in Hr as (liq & m1 & d1 & Hliq & Hr). destruct (sfcLiquid_run _ _ _ _ _ _ _ Hm Hfix Hfees Hliq) as (-> & -> & Hb).
  pose proof (money_one m (akey src) Hm) as Hone. destruct (ofSFC_drops liq ltac:(lia)) as (l & El & Hl). rewrite (run_lift_step _ _ _ _ _ El) in Hr.
  apply run_bind_inv in Hr as (dv & m1 & d1 & [Hdv [= -> ->]]%run_lift_inv & Hr). assert (Hn : exists n, is_drops dv n /\ 0 <= n /\ pays least v sm n).
  { destruct least; destruct Hask as (H1 & H2 & H3); rewrite H2 in Ho; injection Ho as <-.
    - destruct (amount_min_drops _ _ _ _ Hsm Hl) as (mn & Emn & Hmn). rewrite Emn in Hdv. cbn [mbind res_bind] in Hdv. destruct (amount_max_drops _ _ _ _ Ha Hmn) as (mx & Emx & Hmx). rewrite Emx in Hdv. injection Hdv as <-.
      exists (Z.max v (Z.min sm liq)). split; [done|]. unfold pays. lia.
    - rewrite H3 in Hdv. injection Hdv as <-. by exists v. }
  destruct Hn as (n & Hdn & Hn & Hpays). rewrite (run_lift_step _ _ _ _ _ (op_lt_drops _ _ _ _ Hl Hdn)) in Hr. destruct (Z.ltb_spec liq n) as [Hlt|Hge]; [apply run_ret_inv in Hr as [[= E] _]; discriminate E|].
  apply run_bind_inv in Hr as (ter & m1 & d1 & Ht & [_ [= -> ->]]%run_ret_inv). destruct (transferSFC_run sha512Half info m d src (account_ ap) n dv Hm Htot Hdn Hn Hkeys Hs1 Hs2) as (ter' & m2 & E & Hok & _ & Hso & Hmv).
  rewrite E in Ht. injection Ht as <- <- <-. destruct (Z.ltb_spec (money m (akey src)) n) as [|_]; [lia|]. destruct Hmv as [_ Hmv]. split_and!; try done. by exists n.
Qed.

Lemma touches_cash_sfc ap src smax o : touches [ltCHECK; ltACCOUNT_ROOT] (cash_sfc sha512Half info ap src smax o).
Proof.
  unfold cash_sfc, sfcLiquid, transferSFC.
  repeat match goal with
  | |- touches _ (_ ≫= _) => apply touches_bind; [|intros ?]
  | |- touches _ (match ?x with _ => _ end) => destruct x
  | |- touches _ (let _ := _ in _) => cbv zeta
  | |- touches _ _ => solve [eauto with touches|apply touches_peek; [done|set_solver]|apply touches_peek_object; [done|set_solver]|apply touches_modify; [done|set_solver]|done]
  end.
Qed.

(** What preclaim has found of a check for SFC. *)
Lemma cash_preclaim_spec tx flags m d m' d' id s smax sm least v : run_map (CashCheck_preclaim sha512Half info tx flags) (m, d) = Ok ((tesSUCCESS : Z), (m', d')) ->
  at_field as_h256 0 (tx_object tx) sfCheckID = Ok id -> shown m (keylet_check_id id) = Some s -> peekAtPField (sle_data s) sfSendMax = Some (V_Amount smax) -> is_drops smax sm -> asks (tx_object tx) least v ->
  v <= sm /\ exists account, at_field as_account 0 (tx_object tx) sfAccount = Ok account /\ at_field as_account 0 (sle_data s) sfDestination = Ok account /\ at_field as_account 0 (sle_data s) sfAccount <> Ok account.
Proof.
  intros Hr Hid Hs Hp Hsm (a & Ha & Hv & Hask). unfold CashCheck_preclaim in Hr. cbv zeta in Hr. rewrite (run_lift_step _ _ _ _ _ Hid) in Hr. run_step Hr. rewrite Hs in Hr.
  apply run_bind_inv in Hr as (dst & m1 & d1 & [Hdst [= -> ->]]%run_lift_inv & Hr). apply run_bind_inv in Hr as (account & m1 & d1 & [Hacc [= -> ->]]%run_lift_inv & Hr).
  destruct (Z.eqb_spec account dst) as [->|]; cbn [negb] in Hr; [|apply run_ret_inv in Hr as [E _]; discriminate E]. apply run_bind_inv in Hr as (src & m1 & d1 & [Hsrc [= -> ->]]%run_lift_inv & Hr).
  destruct (Z.eqb_spec src dst) as [|Hne]; [apply run_ret_inv in Hr as [E _]; discriminate E|]. split; [|exists dst; split_and!; [done|done|congruence]].
  apply run_bind_inv in Hr as (ter & m1 & d1 & _ & Hr). destruct (Z.eqb_spec ter tesSUCCESS) as [_|Hter]; cbn [negb] in Hr; [|apply run_ret_inv in Hr as [E _]; congruence].
  apply run_bind_inv in Hr as (oe & m2 & d2 & [_ [= -> ->]]%run_lift_inv & Hr). destruct (expired info oe); [apply run_ret_inv in Hr as [E _]; discriminate E|].
  apply run_bind_inv in Hr as (oa & m2 & d2 & [Hoa [= -> ->]]%run_lift_inv & Hr). apply run_bind_inv in Hr as (value & m2 & d2 & [Hval [= -> ->]]%run_lift_inv & Hr). apply run_bind_inv in Hr as (sx & m2 & d2 & [Hsx [= -> ->]]%run_lift_inv & Hr).
  assert (sx = smax) as -> by (unfold tx_amount, at_field in Hsx; rewrite Hp in Hsx; cbn in Hsx; congruence).
  assert (value = a) as -> by (destruct least; destruct Hask as (H1 & _ & H3); rewrite H1 in Hoa; injection Hoa as <-; [rewrite H3 in Hval|]; by injection Hval).
  destruct (negb (currency (mIssue a) =? _)); [apply run_ret_inv in Hr as [E _]; discriminate E|]. destruct (negb (STAmount.account (mIssue a) =? _)); [apply run_ret_inv in Hr as [E _]; discriminate E|].
  rewrite (run_lift_step _ _ _ _ _ (op_lt_drops _ _ _ _ Hsm Ha)) in Hr. destruct (Z.ltb_spec sm v); [apply run_ret_inv in Hr as [E _]; discriminate E|done].
Qed.

Abbreviation Tcash := [ltCHECK; ltACCOUNT_ROOT].

Lemma peeked k m d a m' d' : run_map (peek k) (m, d) = Ok (a, (m', d')) -> a = shown m k /\ m' = m.
Proof. rewrite run_peek. by intros [= <- <- _]. Qed.

(** The payment in the sandbox. *)
Lemma cash_payment_run ap k s src smax sm least v m d ov dl found m1 d1 : ledger_ok m -> total_drops m <= cMaxNativeN -> fix1141 (parentCloseTime info) = true -> sane_fees (fees info) -> kl_type k = ltCHECK ->
  shown m k = Some s -> getAccountID (sle_data s) sfAccount = Ok src -> peekAtPField (sle_data s) sfSendMax = Some (V_Amount smax) -> is_drops smax sm -> asks (tx_object (ap_tx ap)) least v -> v <= sm -> src <> account_ ap -> akey src <> akey (account_ ap) ->
  run_map (sandboxed (cash_payment sha512Half info flow ap k) ∅) (m, d) = Ok (((((tesSUCCESS : Z), dl), found), ov), (m1, d1)) ->
  m1 = m /\ d1 = d /\ found = Some (sle_data s, src) /\ exists mm n, tracks Tcash m ov mm /\ ledger_ok mm /\ same_outside [ltACCOUNT_ROOT] m mm /\ pays least v sm n /\ moved m mm (akey src) (akey (account_ ap)) n.
Proof.
  intros Hm Htot Hfix Hfees Hk Hs Hsrc Hp Hsm Hask Hle Hne Hkeys Hr. unfold cash_payment in Hr. cbv zeta in Hr.
  assert (Tk : touches Tcash (peek k)) by (apply touches_peek; rewrite Hk; [done|set_solver]). assert (Ta : forall id, touches Tcash (peek (acct id))) by (intros id; apply touches_peek; [done|set_solver]).
  destruct (sandboxed_step Tcash _ _ _ _ m _ _ _ _ Tk (tracks_empty _ _) Hr) as (x & ov1 & mm1 & [-> ->]%peeked & T1 & Hr1). rewrite Hs in Hr1.
  destruct (sandboxed_step Tcash _ _ _ _ m _ _ _ _ (touches_lift _ _) T1 Hr1) as (x & ov2 & mm2 & [E [= ->]]%run_lift_inv & T2 & Hr2). rewrite Hsrc in E. injection E as <-.
  destruct (sandboxed_step Tcash _ _ _ _ m _ _ _ _ (Ta src) T2 Hr2) as (x & ov3 & mm3 & [-> ->]%peeked & T3 & Hr3).
  destruct (sandboxed_step Tcash _ _ _ _ m _ _ _ _ (Ta (account_ ap)) T3 Hr3) as (x & ov4 & mm4 & [-> ->]%peeked & T4 & Hr4).
  destruct (shown m (acct src)) as [ssrc|] eqn:Es; [|discriminate Hr4]. destruct (shown m (acct (account_ ap))) as [sdst|] eqn:Ed; [|discriminate Hr4].
  destruct (sandboxed_step Tcash _ _ _ _ m _ _ _ _ (touches_lift _ _) T4 Hr4) as (o & ov5 & mm5 & [Eo [= ->]]%run_lift_inv & T5 & Hr5). destruct (Z.eqb_spec src (account_ ap)) as [|_]; [done|].
  destruct (sandboxed_step Tcash _ _ _ _ m _ _ _ _ (touches_lift _ _) T5 Hr5) as (x & ov6 & mm6 & [E [= ->]]%run_lift_inv & T6 & Hr6).
  assert (x = smax) as -> by (unfold getFieldAmount, getFieldBy in E; rewrite Hp in E; by injection E). pose proof Hsm as (_ & Hnat & _). rewrite Hnat in Hr6.
  destruct (sandboxed_step Tcash _ _ _ _ m _ _ _ _ (touches_cash_sfc _ _ _ _) T6 Hr6) as ([t dl'] & ov7 & mm7 & Hcash & T7 & Hr7). cbn in Hr7. injection Hr7 as -> -> <- <- <- <-.
  destruct (cash_sfc_run ap src smax sm least v m d dl mm7 d Hm Htot Hfix Hfees Hsm Hask Hle Hkeys ltac:(by rewrite Es) ltac:(by rewrite Ed)) as (_ & Hok & Hso & n & Hpays & Hmv & _); [by exists o|].
  split_and!; try done. by exists mm7, n.
Qed.

(** The ledger after a check is cashed. *)
Definition check_cashed (k : Keylet) (src dst : Z) (least : bool) (v most : Z) (m m' : gmap Z (SLE Object)) : Prop :=
  exists n, pays least v most n /\ moved m m' (akey src) (akey dst) n /\ m' !! kl_key k = None /\ ledger_ok m' /\ total_drops m' = total_drops m /\ same_outside [ltDIR_NODE; ltCHECK; ltACCOUNT_ROOT] m m'.

(** The end in the sandbox: the owner count, and the check. *)
Lemma cash_end_run src k ov mm m d u ov' m1 d1 : kl_type k = ltCHECK -> tracks Tcash m ov mm -> ledger_ok mm ->
  run_map (sandboxed (_ ← adjustOwnerCount (acct src) (-1); erase_sle k) ov) (m, d) = Ok ((u, ov'), (m1, d1)) ->
  m1 = m /\ d1 = d /\ exists mm', tracks Tcash m ov' mm' /\ ledger_ok mm' /\ same_money mm mm' /\ same_outside Tcash mm mm' /\ mm' !! kl_key k = None.
Proof.
  intros Hk Ht Hmm Hr. assert (Htch : touches Tcash (adjustOwnerCount (acct src) (-1) ≫= fun _ => erase_sle k)).
  { apply touches_bind; [apply touches_modify; [done|set_solver]|]. intros _. apply touches_erase; rewrite Hk; [done|set_solver]. }
  destruct (sandboxed_inv Tcash _ Htch _ _ _ _ _ _ _ _ Ht Hr) as (-> & -> & mm' & Hrun & Ht'). split; [done|]. split; [done|]. exists mm'.
  assert (Hn : neutral Tcash (adjustOwnerCount (acct src) (-1) ≫= fun _ => erase_sle k)).
  { apply neutral_bind; [apply neutral_ownerCount; set_solver|]. intros _. apply neutral_erase; rewrite Hk; [done|set_solver|done]. }
  destruct (Hn _ _ _ _ _ Hmm Hrun) as (H1 & H2 & H3 & _). split_and!; try done. apply run_bind_inv in Hrun as (u1 & m2 & d2 & _ & Hrun). apply run_erase_inv in Hrun as (s & _ & [= -> _]). apply lookup_delete_eq.
Qed.

(** C13. A check pays what is asked, once, and never more than it says. Let a check for SFC
    be in a well-formed ledger whose total does not exceed the supply, let preclaim find
    nothing against cashing it and let [CashCheck::doApply] succeed. Then the account that
    cashes it is its destination; what moves from the source to the destination is the
    amount asked for or, when the transaction names the least to deliver, at least that;
    it is at most the check's SendMax; the check is gone; no other holding of SFC changes,
    and the ledger stays well formed. This holds although the payment is made in a
    sandbox and the directories are changed in the view below it. *)
Theorem check_pays_once ap flags m d m0 d0 dl m' d' id s src smax sm least v : ledger_ok m -> total_drops m <= cMaxNativeN -> fix1141 (parentCloseTime info) = true -> sane_fees (fees info) ->
  at_field as_account 0 (tx_object (ap_tx ap)) sfAccount = Ok (account_ ap) -> at_field as_h256 0 (tx_object (ap_tx ap)) sfCheckID = Ok id -> asks (tx_object (ap_tx ap)) least v ->
  shown m (keylet_check_id id) = Some s -> getAccountID (sle_data s) sfAccount = Ok src -> peekAtPField (sle_data s) sfSendMax = Some (V_Amount smax) -> is_drops smax sm -> src <> account_ ap -> akey src <> akey (account_ ap) ->
  run_map (CashCheck_preclaim sha512Half info (ap_tx ap) flags) (m, d) = Ok ((tesSUCCESS : Z), (m0, d0)) ->
  run_map (CashCheck_doApply sha512Half info flow ap) (m, d) = Ok (((tesSUCCESS : Z), dl), (m', d')) ->
  at_field as_account 0 (sle_data s) sfDestination = Ok (account_ ap) /\ check_cashed (keylet_check_id id) src (account_ ap) least v sm m m' /\ d' = d.
Proof.
  intros Hm Htot Hfix Hfees Hacc Hid Hask Hs Hsrc Hp Hsm Hne Hkeys Hpre Hr. destruct (cash_preclaim_spec _ _ _ _ _ _ _ _ _ _ _ _ Hpre Hid Hs Hp Hsm Hask) as (Hle & account & Ha & Hdst & _). rewrite Hacc in Ha. injection Ha as <-. split; [done|].
  unfold CashCheck_doApply in Hr. cbv zeta in Hr. rewrite (run_lift_step _ _ _ _ _ Hid) in Hr. apply run_bind_inv in Hr as ([[[ter deliver] found] ov] & m1 & d1 & Hpay & Hr).
  assert (Hter : ter = tesSUCCESS). { destruct found as [[? ?]|]; [|apply run_ret_inv in Hr as [E _]; congruence]. destruct (Z.eqb_spec ter tesSUCCESS); [done|]. cbn [negb] in Hr. apply run_ret_inv in Hr as [E _]. congruence. }
  rewrite Hter in Hpay, Hr. destruct (cash_payment_run ap (keylet_check_id id) s src smax sm least v m d ov deliver found m1 d1 Hm Htot Hfix Hfees eq_refl Hs Hsrc Hp Hsm Hask Hle Hne Hkeys Hpay) as (-> & -> & -> & mm & n & T & Hok & Hso & Hpays & Hmv).
  rewrite Z.eqb_refl in Hr. cbn [negb] in Hr. apply run_bind_inv in Hr as (b & m2 & d2 & Hun & Hr). destruct (unfile_check_neutral _ _ _ _ _ _ _ _ _ Hm Hun) as (Hm2 & Hsm2 & Hso2 & ->). destruct b; cbn [negb] in Hr; [|apply run_ret_inv in Hr as [[= E _] _]; discriminate E].
  apply run_bind_inv in Hr as ([u ov'] & m3 & d3 & Hend & Hr). pose proof (tracks_move Tcash [ltDIR_NODE] m m2 ov mm T ltac:(set_solver) Hso2) as T2. pose proof (ov_on_ledger _ _ _ _ _ T Hok Hm2) as Hok2. pose proof (ov_on_money _ _ _ _ _ T Hsm2) as Hmo2.
  destruct (cash_end_run src (keylet_check_id id) ov _ m2 d u ov' m3 d3 eq_refl T2 Hok2 Hend) as (-> & -> & mm' & T3 & Hok3 & Hmo3 & Hso3 & Hgone).
  rewrite (OwnerDir.run_step _ _ _ _ _ _ (commit_run _ _ _ _ d T3 (fun k s H => proj1 (Hok3 k s H)))) in Hr. apply run_ret_inv in Hr as [_ [= -> ->]]. split; [|done].
  assert (Hmv3 : moved m mm' (akey src) (akey (account_ ap)) n) by (intros j; rewrite Hmo3, Hmo2; apply Hmv). exists n. split_and!; try done; [by eapply moved_total|].
  intros j e He. rewrite (Hso3 j e) by set_solver. rewrite ov_on_lookup. destruct T as [Hl _]. assert (Emm : mm !! j = Some e <-> m !! j = Some e) by (apply Hso; set_solver). rewrite Hl in Emm. destruct (ov !! j); [done|]. apply Hso2. set_solver.
Qed.
End Laws.

(** ** Witness *)

(** A check of account 5 for 500 drops, which account 6 cashes for at least 200. *)
Definition wsfc_ledger : gmap Z (SLE Object) := list_to_map
  [sample_account 5 1000000000 0; sample_account 6 50000000 0; wowner 5 [kl_key wcheck]; wowner 6 [kl_key wcheck];
   (kl_key wcheck, wentry wcheck (fun o => o ← setAccountID o sfAccount 5; o ← setAccountID o sfDestination 6; o ← setFieldU32 o sfSequence 1; setFieldAmount o sfSendMax (ofSigned 500)))].
Definition wdraw : Applying :=
  mkApplying (sample_tx ttCHECK_CASH (fun o => o ← setAccountID o sfAccount 6; o ← setFieldH256 o sfCheckID (kl_key wcheck); setFieldAmount o sfDeliverMin (ofSigned 200))) 6 50000000 50000000 10 0.
Definition no_flow (i : FlowInput) : prog (Z * STAmount) := mret ((tecPATH_DRY : Z), fl_deliver i).

Lemma check_pays_once_witness : exists a m' d', run_map (CashCheck_doApply id_digest sample_info no_flow wdraw) (wsfc_ledger, 0) = Ok (a, (m', d')) /\ a.1 = tesSUCCESS /\ check_cashed id_digest wcheck 5 6 true 200 500 wsfc_ledger m'.
Proof.
  assert (Hd : forall n, n = 200 \/ n = 500 -> is_drops (ofSigned n) n) by (intros n [->| ->]; (split_and!; [split_and!; [reflexivity|split; [reflexivity|vm_compute; split; discriminate]|reflexivity]|reflexivity|reflexivity])).
  apply (ran fst); [vm_compute; reflexivity|]. intros [ter dl] m' d' E Hter. cbn in Hter. subst ter.
  assert (Hpre : exists ter m0 d0, run_map (CashCheck_preclaim id_digest sample_info (ap_tx wdraw) 0) (wsfc_ledger, 0) = Ok (ter, (m0, d0)) /\ ter = tesSUCCESS) by (apply (succeeds_run (fun t => t)); vm_compute; reflexivity).
  destruct Hpre as (ter & m0 & d0 & Hpre & ->).
  assert (Hs : exists s, shown wsfc_ledger (keylet_check_id (kl_key wcheck)) = Some s /\ getAccountID (sle_data s) sfAccount = Ok 5 /\ peekAtPField (sle_data s) sfSendMax = Some (V_Amount (ofSigned 500))) by (eexists; split; [vm_compute; reflexivity|split; vm_compute; reflexivity]).
  destruct Hs as (s & Hs & Hsrc & Hp).
  refine (proj1 (proj2 (check_pays_once id_digest sample_info no_flow wdraw 0 wsfc_ledger 0 m0 d0 dl m' d' (kl_key wcheck) s 5 (ofSigned 500) 500 true 200 _ _ _ sample_fees _ _ _ Hs Hsrc Hp _ _ _ Hpre E)));
    [apply ledger_okb_ok; vm_compute; reflexivity|vm_compute; discriminate|vm_compute; reflexivity|vm_compute; reflexivity|vm_compute; reflexivity| |apply Hd; by right|discriminate|vm_compute; discriminate].
  exists (ofSigned 200). split; [apply Hd; by left|]. split; [lia|]. split; [vm_compute; reflexivity|]. split; vm_compute; reflexivity.
Defined.
