(* ===== verification/Classes.v ===== *)
(** * The classes of transactions

    Models the switches of applySteps.cpp (app/tx/impl): which class has a type of
    transaction. [CreateOffer], the payment engine and the path calculation are
    parameters. The classes make the checks the engine relies on, so that what is proved
    of the engine holds for them; and samples run whole transactions through it. *)

From S2P Require Import Prelude STAmount Serializer Keys SField STObject STAccess View TER Indexes Formats STTx RawStateTable ApplyStateTable Prog.
From S2P Require Import HashRouter LoadFee Invariants Entries TxMeta MetaCommit OwnerDir LedgerView Transactor Unfunded Engine AccountTx TrustTx Conditions Funds Escrow PayChan Payment ChangeTx PaymentSandbox Checks.

Section Classes.
Context (sha512Half ripesha : list Z -> Z) (sha256 : list Z -> list Z) (verify : list Z -> list Z -> list Z -> bool -> res bool) (info : ViewInfo) (feeTrack : LoadFeeTrack)
  (router : Z -> Z) (calc : CalcInput -> prog (Z * STAmount)) (flow : FlowInput -> prog (Z * STAmount)) (CreateOffer : TxClass).

Definition class_of (type : TxType) : option TxClass :=
  match type with
  | ttACCOUNT_SET => Some (SetAccount sha512Half ripesha info)
  | ttCHECK_CANCEL => Some (CancelCheck sha512Half info)
  | ttCHECK_CASH => Some (CashCheck sha512Half info flow)
  | ttCHECK_CREATE => Some (CreateCheck sha512Half info)
  | ttDEPOSIT_PREAUTH => Some (DepositPreauth sha512Half info)
  | ttOFFER_CANCEL => Some (CancelOffer sha512Half info)
  | ttOFFER_CREATE => Some CreateOffer
  | ttESCROW_CREATE => Some (EscrowCreate sha512Half info)
  | ttESCROW_FINISH => Some (EscrowFinish sha512Half sha256 info router)
  | ttESCROW_CANCEL => Some (EscrowCancel sha512Half info)
  | ttPAYCHAN_CLAIM => Some (PayChanClaim sha512Half verify info)
  | ttPAYCHAN_CREATE => Some (PayChanCreate sha512Half info)
  | ttPAYCHAN_FUND => Some (PayChanFund sha512Half info)
  | ttPAYMENT => Some (Payment sha512Half info calc)
  | ttREGULAR_KEY_SET => Some (SetRegularKey sha512Half ripesha info feeTrack)
  | ttSIGNER_LIST_SET => Some (SetSignerList sha512Half info)
  | ttTICKET_CANCEL => Some (CancelTicket sha512Half info)
  | ttTICKET_CREATE => Some (CreateTicket sha512Half info)
  | ttTRUST_SET => Some (SetTrust sha512Half info)
  | ttAMENDMENT | ttFEE => Some (Change sha512Half info)
  | _ => None
  end.

Definition tx_types : list TxType :=
  [ttPAYMENT; ttESCROW_CREATE; ttESCROW_FINISH; ttACCOUNT_SET; ttESCROW_CANCEL; ttREGULAR_KEY_SET; ttNICKNAME_SET; ttOFFER_CREATE; ttOFFER_CANCEL; no_longer_used; ttTICKET_CREATE; ttTICKET_CANCEL;
   ttSIGNER_LIST_SET; ttPAYCHAN_CREATE; ttPAYCHAN_FUND; ttPAYCHAN_CLAIM; ttCHECK_CREATE; ttCHECK_CASH; ttCHECK_CANCEL; ttDEPOSIT_PREAUTH; ttTRUST_SET; ttAMENDMENT; ttFEE].

Definition classes (type : Z) : option TxClass := match List.find (fun t => tt_code t =? type) tx_types with Some t => class_of t | None => None end.

Lemma classes_check : common_checks CreateOffer -> forall type cls, classes type = Some cls -> common_checks cls.
Proof.
  intros Hoffer type cls. unfold classes. destruct (List.find _ tx_types) as [t|]; [|done].
  destruct t; cbn [class_of]; try done; intros [= <-]; auto using checks_SetAccount, checks_CancelCheck, checks_CashCheck, checks_CreateCheck, checks_DepositPreauth, checks_CancelOffer, checks_EscrowCreate, checks_EscrowFinish,
    checks_EscrowCancel, checks_PayChanClaim, checks_PayChanCreate, checks_PayChanFund, checks_Payment, checks_SetRegularKey, checks_SetSignerList, checks_CancelTicket, checks_CreateTicket, checks_SetTrust, checks_Change.
Qed.
End Classes.

(** ** Samples *)

(** Account 5, whose key hashes to 5, pays 300 drops to account 6 for a fee of 10; the
    payment of 20000000000 drops has no funds; and the poor account 8 cannot pay the
    fee. *)
Definition sample_ripesha (key : list Z) : Z := match key with _ :: b :: _ => b | _ => 0 end.
Definition key_of (id : Z) : list Z := 237 :: id :: repeat 0 31.
Definition sample_pay (from signer drops : Z) : STTx :=
  sample_tx ttPAYMENT (fun o => o ← setAccountID o sfAccount from; o ← setFieldU32 o sfSequence 1; o ← setFieldAmount o sfFee (ofSigned 10); o ← setFieldVL o sfSigningPubKey (key_of signer);
    o ← setAccountID o sfDestination 6; setFieldAmount o sfAmount (ofSigned drops)).

Definition sample_ledger : RawStateTable.Ledger Object := mkLedger (list_to_map [sample_account 5 1000000000 0; sample_account 6 50000000 0; sample_account 8 4 0]) 100000000000.
Definition sample_track : LoadFeeTrack := mkTrack 256 256 256 0.
Definition no_calc (i : CalcInput) : prog (Z * STAmount) := mret ((tecPATH_DRY : Z), no_amount).
Definition no_offers : TxClass := mkClass (fun _ => Ok (temDISABLED : Z)) (fun _ => mret 0) (fun _ _ => mret (temDISABLED : Z)) (fun _ => mret ((temDISABLED : Z), None)) (fun _ => Ok false) (fun _ => Ok 0).
Definition sample_classes : Z -> option TxClass := classes id_digest sample_ripesha wsha256 (fun _ _ _ _ => Ok true) sample_info sample_track (fun _ => 0) no_calc no_flow no_offers.
Definition signed (tx : STTx) : res (Validity * SignReason) := Ok (Valid, Reason EmptyString).

Definition sample_apply (tx : STTx) : (Z * bool) * option OpenView :=
  apply id_digest sample_ripesha sample_info sample_track sample_classes signed (ledger_view sample_ledger) (mkOpen raw_empty ∅) tx 0.

Lemma sample_view : ReadViewOf (ledger_view sample_ledger) (stateMap sample_ledger).
Proof. apply ledger_view_of. vm_compute. reflexivity. Qed.

Lemma sample_ledger_ok : ledger_ok (stateMap sample_ledger).
Proof. apply ledger_okb_ok. vm_compute. reflexivity. Qed.

Definition sample_transact (tx : STTx) : res (Z * bool) * option OpenView :=
  transact id_digest sample_info (ledger_view sample_ledger) (mkOpen raw_empty ∅) (Payment id_digest sample_info no_calc) tx 0 tesSUCCESS 10.

(** The result of a transaction that is applied. *)
Lemma transacted (r : res (Z * bool) * option OpenView) code : (match r.1 with Ok (c, true) => c =? code | _ => false end) = true -> exists to', r = (Ok (code, true), to').
Proof. destruct r as [[[c []]|] to']; cbn; try done. intros ->%Z.eqb_eq. by exists to'. Qed.


(** A ledger with an offer of account 6 in it, and a class that finds the offer
    unfunded and is then killed. *)
Definition list_offer : prog unit :=
  _ ← view_dirAdd id_digest false (keylet_ownerDir id_digest 6) 77 (describeOwnerDir 6);
  _ ← view_dirAdd id_digest false (keylet_page id_digest 123456789 0) 77 (fun o => Ok o);
  _ ← insert_new (mkKeylet ltOFFER 77) (fun o =>
        o ← setAccountID o sfAccount 6; o ← setFieldAmount o sfTakerPays (ofSigned 30); o ← setFieldAmount o sfTakerGets (units 40 8); setFieldH256 o sfBookDirectory 123456789);
  adjustOwnerCount (keylet_account id_digest 6) 1.

Definition market_ledger : RawStateTable.Ledger Object :=
  mkLedger (match run_map list_offer (stateMap sample_ledger, 0) with Ok (_, (m, _)) => m | Throw _ => ∅ end) 100000000000.

Definition killed_class : TxClass :=
  mkClass (fun _ => Ok (tesSUCCESS : Z)) (fun _ => mret 0) (fun _ _ => mret (tesSUCCESS : Z)) (fun _ => _ ← offerDelete id_digest 77; mret ((tecKILLED : Z), None)) (fun _ => Ok false) (fun _ => Ok 0).

Lemma market_view : ReadViewOf (ledger_view market_ledger) (stateMap market_ledger).
Proof. apply ledger_view_of. vm_compute. reflexivity. Qed.

Lemma market_ledger_ok : ledger_ok (stateMap market_ledger).
Proof. apply ledger_okb_ok. vm_compute. reflexivity. Qed.

Definition market_transact (tx : STTx) : res (Z * bool) * option OpenView :=
  transact id_digest sample_info (ledger_view market_ledger) (mkOpen raw_empty ∅) killed_class tx 0 tesSUCCESS 10.

(** The offers that the first run of it found unfunded. *)
Lemma market_offers o1 : first_run id_digest (ledger_view market_ledger) (sample_pay 5 5 300) 0 killed_class tesSUCCESS 10 = Ok o1 -> removed_offers (as_visit (oc_table o1) (ledger_view market_ledger)) = Ok [77].
Proof.
  assert (H : match first_run id_digest (ledger_view market_ledger) (sample_pay 5 5 300) 0 killed_class tesSUCCESS 10 with Ok o => removed_offers (as_visit (oc_table o) (ledger_view market_ledger)) | Throw e => Throw e end = Ok [77]) by (vm_compute; reflexivity).
  intros E. by rewrite E in H.
Qed.

Lemma claims_only_fee_witness :
  (exists to', sample_transact (sample_pay 5 5 20000000000) = (Ok ((tecUNFUNDED_PAYMENT : Z), true), to') /\
     exists m', total_drops m' = total_drops (stateMap sample_ledger) - 10) /\
  (exists to', market_transact (sample_pay 5 5 300) = (Ok ((tecKILLED : Z), true), to') /\
     exists mid m', total_drops m' = total_drops (stateMap market_ledger) - 10 /\ offers_removed id_digest [77] mid m').
Proof.
  split.
  - destruct (transacted (sample_transact (sample_pay 5 5 20000000000)) tecUNFUNDED_PAYMENT) as [to' E]; [vm_compute; reflexivity|]. exists to'. split; [exact E|]. unfold sample_transact in E.
    destruct (claims_only_fee id_digest sample_info (ledger_view sample_ledger) (stateMap sample_ledger) (mkOpen raw_empty ∅) (Payment id_digest sample_info no_calc) (sample_pay 5 5 20000000000) 0 tesSUCCESS 10 tecUNFUNDED_PAYMENT to' 10 sample_view sample_ledger_ok)
      as (o1 & t & dl & v & fee & m' & _ & _ & _ & _ & (mid & (id & seq & Hid & _ & Hf & _) & _) & _ & Ht); [vm_compute; reflexivity|vm_compute; discriminate|exact E|reflexivity|]. exists m'.
    rewrite Ht, Hf. assert (id = 5) as -> by (vm_compute in Hid; congruence). assert (Hmin : Z.min 10 (money (stateMap sample_ledger) (kl_key (keylet_account id_digest 5))) = 10) by (vm_compute; reflexivity). by rewrite Hmin.
  - destruct (transacted (market_transact (sample_pay 5 5 300)) tecKILLED) as [to' E]; [vm_compute; reflexivity|]. exists to'. split; [exact E|]. unfold market_transact in E.
    destruct (claims_only_fee id_digest sample_info (ledger_view market_ledger) (stateMap market_ledger) (mkOpen raw_empty ∅) killed_class (sample_pay 5 5 300) 0 tesSUCCESS 10 tecKILLED to' 10 market_view market_ledger_ok)
      as (o1 & t & dl & v & fee & m' & H1 & _ & _ & _ & (mid & (id & seq & Hid & _ & Hf & _) & (offers & Ho & Hrem)) & _ & Ht); [vm_compute; reflexivity|vm_compute; discriminate|exact E|reflexivity|]. exists mid, m'.
    rewrite (market_offers o1 H1) in Ho. injection Ho as <-. split; [|exact Hrem]. rewrite Ht, Hf. assert (id = 5) as -> by (vm_compute in Hid; congruence).
    assert (Hmin : Z.min 10 (money (stateMap market_ledger) (kl_key (keylet_account id_digest 5))) = 10) by (vm_compute; reflexivity). by rewrite Hmin.
Defined.

Lemma no_offers_checks : common_checks no_offers.
Proof. intros ctx ter [= <-]. by split. Qed.

Lemma applied_is_authorised_witness : exists to', sample_apply (sample_pay 5 5 300) = (((tesSUCCESS : Z), true), to') /\
  exists feePaid, authorised id_digest sample_ripesha sample_info (stateMap sample_ledger) (sample_pay 5 5 300) \/ cannot_pay id_digest sample_info (stateMap sample_ledger) (sample_pay 5 5 300) feePaid.
Proof.
  assert (E : exists to', sample_apply (sample_pay 5 5 300) = (((tesSUCCESS : Z), true), to')).
  { assert (H : (sample_apply (sample_pay 5 5 300)).1 = ((tesSUCCESS : Z), true)) by (vm_compute; reflexivity). destruct (sample_apply (sample_pay 5 5 300)) as [r to']. exists to'. cbn in H. by rewrite H. }
  destruct E as [to' E]. exists to'. split; [exact E|]. unfold sample_apply in E.
  destruct (applied_is_authorised id_digest sample_ripesha sample_info sample_track sample_classes signed (ledger_view sample_ledger) (stateMap sample_ledger) (mkOpen raw_empty ∅) (sample_pay 5 5 300) 0 tesSUCCESS to' 5 sample_view)
    as (s & seq & fee & v & why & _ & _ & _ & _ & _ & _ & _ & Ha); [apply classes_check, no_offers_checks|exact E|vm_compute; reflexivity|vm_compute; discriminate|exists fee; exact Ha].
Defined.

(** The balance of an account in a view over the sample ledger. *)
Definition balance_in (v : OpenView) (id : Z) : option Z :=
  match raw_read (ov_items v) (ledger_view sample_ledger) (keylet_account id_digest id) with
  | Some s => match getFieldAmount (sle_data s) sfBalance with Ok a => Some (smant a) | Throw _ => None end
  | None => None
  end.

(** The fee is taken before the key is looked at. Account 8 has 4 drops; a transaction in
    its name that is signed with the key of account 7 is applied, and takes them. *)
Lemma unauthorised_fee_claim : match sample_apply (sample_pay 8 7 20) with
  | ((ter, applied), Some v) => ter = tecINSUFF_FEE /\ applied = true /\ balance_in v 8 = Some 0
  | _ => False
  end.
Proof. vm_compute. done. Qed.
