(* ===== verification/Consensus.v ===== *)
(** * Consensus decisions and close times

    Models consensus/Consensus.cpp (when to close a ledger and when a round has
    reached consensus), consensus/LedgerTiming.h (close-time resolution and
    rounding), consensus/DisputedTx.h (votes on a disputed transaction) and the
    thresholds of consensus/ConsensusParms.h. Durations are milliseconds, network
    times 32-bit seconds, counts 64-bit. *)

From S2P Require Import Prelude.

(** ** Parameters *)

Record ConsensusParms := mkParms {
  minCONSENSUS_PCT : Z;
  ledgerMIN_CONSENSUS : Z;
  ledgerMIN_CLOSE : Z;
  avINIT_CONSENSUS_PCT : Z;
  avMID_CONSENSUS_TIME : Z;
  avMID_CONSENSUS_PCT : Z;
  avLATE_CONSENSUS_TIME : Z;
  avLATE_CONSENSUS_PCT : Z;
  avSTUCK_CONSENSUS_TIME : Z;
  avSTUCK_CONSENSUS_PCT : Z;
  avCT_CONSENSUS_PCT : Z;
  avMIN_CONSENSUS_TIME : Z;
  ledgerIDLE_INTERVAL : Z;
  ledgerMAX_CONSENSUS : Z;
  proposeFRESHNESS : Z;
  proposeINTERVAL : Z;
  useRoundedCloseTime : bool
}.

Definition defaultParms : ConsensusParms := mkParms 80 1950 2000 50 50 65 85 70 200 95 75 5000 15000 10000 20 12 true.

(** ** Consensus.cpp *)

Definition shouldCloseLedger (anyTransactions : bool) (prevProposers proposersClosed proposersValidated : Z)
    (prevRoundTime timeSincePrevClose openTime idleInterval : Z) (parms : ConsensusParms) : bool :=
  if (prevRoundTime <? -1000) || (600000 <? prevRoundTime) || (600000 <? timeSincePrevClose) then true else
  if prevProposers / 2 <? u64 (proposersClosed + proposersValidated) then true else
  if negb anyTransactions then idleInterval <=? timeSincePrevClose else
  if openTime <? ledgerMIN_CLOSE parms then false else
  if openTime <? Z.quot prevRoundTime 2 then false else
  true.

Definition checkConsensusReached (agreeing total : Z) (count_self : bool) (minConsensusPct : Z) : bool :=
  if total =? 0 then true else
  let agreeing := if count_self then u64 (agreeing + 1) else agreeing in
  let total := if count_self then u64 (total + 1) else total in
  let currentPercentage := u64 (agreeing * 100) / total in
  minConsensusPct <=? currentPercentage.

Inductive ConsensusState := CS_No | CS_MovedOn | CS_Yes.

Definition checkConsensus (prevProposers currentProposers currentAgree currentFinished : Z)
    (previousAgreeTime currentAgreeTime : Z) (parms : ConsensusParms) (proposing : bool) : ConsensusState :=
  if currentAgreeTime <=? ledgerMIN_CONSENSUS parms then CS_No else
  if (currentProposers <? u64 (prevProposers * 3) / 4) &&
     (currentAgreeTime <? previousAgreeTime + ledgerMIN_CONSENSUS parms) then CS_No else
  if checkConsensusReached currentAgree currentProposers proposing (minCONSENSUS_PCT parms) then CS_Yes else
  if checkConsensusReached currentFinished currentProposers false (minCONSENSUS_PCT parms) then CS_MovedOn else
  CS_No.

(** ** LedgerTiming.h *)

Definition ledgerPossibleTimeResolutions : list Z := [10; 20; 30; 60; 90; 120].
Definition increaseLedgerTimeResolutionEvery : Z := 8.
Definition decreaseLedgerTimeResolutionEvery : Z := 1.

(** [std::find] over the bins, as an index. *)
Fixpoint find_index (x : Z) (l : list Z) : option nat :=
  match l with
  | [] => None
  | y :: l => if y =? x then Some O else S <$> find_index x l
  end.

Definition getNextLedgerTimeResolution (previousResolution : Z) (previousAgree : bool) (ledgerSeq : Z) : Z :=
  match find_index previousResolution ledgerPossibleTimeResolutions with
  | None => previousResolution
  | Some iter =>
      let coarser :=
        if negb previousAgree && (ledgerSeq mod decreaseLedgerTimeResolutionEvery =? 0)
        then ledgerPossibleTimeResolutions !! S iter else None in
      match coarser with
      | Some r => r
      | None =>
          if previousAgree && (ledgerSeq mod increaseLedgerTimeResolutionEvery =? 0) then
            match iter with
            | O => previousResolution
            | S iter => default previousResolution (ledgerPossibleTimeResolutions !! iter)
            end
          else previousResolution
      end
  end.

Definition roundCloseTime (closeTime closeResolution : Z) : Z :=
  if closeTime =? 0 then closeTime else
  let closeTime := u32 (closeTime + closeResolution / 2) in
  u32 (closeTime - closeTime mod closeResolution).

Definition effCloseTime (closeTime resolution priorCloseTime : Z) : Z :=
  if closeTime =? 0 then closeTime else
  Z.max (roundCloseTime closeTime resolution) (u32 (priorCloseTime + 1)).

(** ** DisputedTx.h *)

Record DisputedTx := mkDisputed { yays : Z; nays : Z; ourVote : bool; votes : gmap Z bool }.

Definition dispute (vote : bool) : DisputedTx := mkDisputed 0 0 vote ∅.

Definition setVote (peer : Z) (votesYes : bool) (d : DisputedTx) : DisputedTx :=
  match votes d !! peer with
  | None =>
      let votes' := <[peer := votesYes]> (votes d) in
      if votesYes then mkDisputed (yays d + 1) (nays d) (ourVote d) votes'
      else mkDisputed (yays d) (nays d + 1) (ourVote d) votes'
  | Some v =>
      if votesYes && negb v then
        mkDisputed (yays d + 1) (nays d - 1) (ourVote d) (<[peer := true]> (votes d))
      else if negb votesYes && v then
        mkDisputed (yays d - 1) (nays d + 1) (ourVote d) (<[peer := false]> (votes d))
      else d
  end.

Definition unVote (peer : Z) (d : DisputedTx) : DisputedTx :=
  match votes d !! peer with
  | None => d
  | Some true => mkDisputed (yays d - 1) (nays d) (ourVote d) (delete peer (votes d))
  | Some false => mkDisputed (yays d) (nays d - 1) (ourVote d) (delete peer (votes d))
  end.

(** The share of yes votes, our own included; [int] division truncates. *)
Definition vote_weight (d : DisputedTx) : Z :=
  Z.quot (yays d * 100 + (if ourVote d then 100 else 0)) (nays d + yays d + 1).

(** The needed share; the comparisons convert [percentTime] to [std::size_t]. *)
Definition threshold (percentTime : Z) (p : ConsensusParms) : Z :=
  if u64 percentTime <? avMID_CONSENSUS_TIME p then avINIT_CONSENSUS_PCT p else
  if u64 percentTime <? avLATE_CONSENSUS_TIME p then avMID_CONSENSUS_PCT p else
  if u64 percentTime <? avSTUCK_CONSENSUS_TIME p then avLATE_CONSENSUS_PCT p else
  avSTUCK_CONSENSUS_PCT p.

Definition updateVote (percentTime : Z) (proposing : bool) (p : ConsensusParms) (d : DisputedTx)
    : bool * DisputedTx :=
  if ourVote d && (nays d =? 0) then (false, d) else
  if negb (ourVote d) && (yays d =? 0) then (false, d) else
  let newPosition :=
    if proposing then threshold percentTime p <? u64 (vote_weight d) else nays d <? yays d in
  if eqb newPosition (ourVote d) then (false, d)
  else (true, mkDisputed (yays d) (nays d) newPosition (votes d)).

(** ** Theorems *)

(** The test is the exact comparison of shares. *)
Lemma checkConsensusReached_iff agreeing total (count_self : bool) pct :
  0 <= agreeing -> 0 <= total -> agreeing * 100 + 100 < 2 ^ 64 -> total + 1 < 2 ^ 64 -> 0 <= pct ->
  checkConsensusReached agreeing total count_self pct = true <->
  total = 0 \/ pct * (total + Z.b2z count_self) <= (agreeing + Z.b2z count_self) * 100.
Proof.
  intros Ha Ht Hb Hc Hp. unfold checkConsensusReached. destruct (Z.eqb_spec total 0) as [->|Hne]; [by split; [left|]|].
  destruct count_self; cbn [Z.b2z]; rewrite ?(u64_small (agreeing + 1)), ?(u64_small (total + 1)), u64_small by lia;
    rewrite Z.leb_le; split.
  - intros H. right. pose proof (Z.mul_div_le ((agreeing + 1) * 100) (total + 1)). nia.
  - intros [|H]; [lia|]. apply Z.div_le_lower_bound; lia.
  - intros H. right. pose proof (Z.mul_div_le (agreeing * 100) total). nia.
  - intros [|H]; [lia|]. apply Z.div_le_lower_bound; lia.
Qed.

(** No two positions win the same round. If the supporters of two positions
    are disjoint among the [total] proposers a server sees, at most one of the
    positions passes the threshold test, whether or not the server adds itself to
    the first: for any threshold from 67% up, in particular the 80% the code uses. *)
Theorem consensus_exclusive a1 a2 total (self : bool) pct :
  0 < total -> 0 <= a1 -> 0 <= a2 -> a1 + a2 <= total -> 67 <= pct -> total * 100 + 100 < 2 ^ 64 ->
  checkConsensusReached a1 total self pct = true -> checkConsensusReached a2 total false pct = false.
Proof.
  intros Ht H1 H2 Hd Hp Hb R1. apply not_true_iff_false. intros R2.
  apply checkConsensusReached_iff in R1; [|lia..]. apply checkConsensusReached_iff in R2; [|lia..].
  destruct R1 as [|R1], R2 as [|R2]; [lia..|]. destruct self; cbn in *; nia.
Qed.

(** When a round ends. [checkConsensus] says Yes exactly when more than the
    minimum time has passed, the round is not rushed - three quarters of the last
    round's proposers are here, or the time of the last round has passed again -
    and our position has its 80%; it says MovedOn only when, under the same
    conditions, our position has not and 80% have finished. *)
Theorem checkConsensus_spec prev cur agree finished prevTime curTime (proposing : bool) :
  0 <= agree -> 0 <= finished -> 0 <= cur -> 0 <= prev ->
  agree * 100 + 100 < 2 ^ 64 -> finished * 100 + 100 < 2 ^ 64 -> cur + 1 < 2 ^ 64 -> prev * 3 < 2 ^ 64 ->
  let ready := 1950 < curTime /\ (prev * 3 / 4 <= cur \/ prevTime + 1950 <= curTime) in
  let self := Z.b2z proposing in
  let agreed := cur = 0 \/ 80 * (cur + self) <= (agree + self) * 100 in
  let moved := cur = 0 \/ 80 * cur <= finished * 100 in
  match checkConsensus prev cur agree finished prevTime curTime defaultParms proposing with
  | CS_Yes => ready /\ agreed
  | CS_MovedOn => ready /\ ~ agreed /\ moved
  | CS_No => ~ ready \/ (~ agreed /\ ~ moved)
  end.
Proof.
  intros Ha Hf Hc Hp Ba Bf Bc Bp ready self agreed moved. unfold checkConsensus. cbn [ledgerMIN_CONSENSUS minCONSENSUS_PCT defaultParms].
  pose proof (checkConsensusReached_iff agree cur proposing 80 Ha Hc Ba Bc ltac:(lia)) as H1.
  pose proof (checkConsensusReached_iff finished cur false 80 Hf Hc Bf Bc ltac:(lia)) as H2.
  cbn [Z.b2z] in H2. rewrite !Z.add_0_r in H2. rewrite u64_small by lia.
  destruct (Z.leb_spec curTime 1950); [left; unfold ready; lia|].
  destruct (Z.ltb_spec cur (prev * 3 / 4)), (Z.ltb_spec curTime (prevTime + 1950)); cbn [andb];
    [left; unfold ready; lia|..];
    (destruct (checkConsensusReached agree _ _ _); [split; [unfold ready; lia|by apply H1]|]);
    (assert (Hna : ~ agreed) by (intros H'; by apply H1 in H'));
    (destruct (checkConsensusReached finished _ _ _);
      [split; [unfold ready; lia|]; split; [done|by apply H2]|right; split; [done|intros H'; by apply H2 in H']]).
Qed.

(** Rounding close times. Away from the 32-bit end of time, a nonzero close
    time is rounded to a multiple of the resolution at distance at most half of
    it, ties upward, and rounding again changes nothing; the effective time is
    besides strictly after the prior ledger's. *)
Theorem roundCloseTime_nearest t r prior :
  0 < t -> 0 < r -> 0 <= prior -> t + r / 2 < 2 ^ 32 -> prior + 1 < 2 ^ 32 ->
  let t' := roundCloseTime t r in
  (r | t') /\ t - (r - 1) / 2 <= t' <= t + r / 2 /\
  (t' <> 0 -> t' + r / 2 < 2 ^ 32 -> roundCloseTime t' r = t') /\
  prior < effCloseTime t r prior /\ (prior < t' -> effCloseTime t r prior = t').
Proof.
  intros Ht Hr Hp Hb Hpb t'. assert (Heq : t' = r * ((t + r / 2) / r)).
  { unfold t', roundCloseTime. rewrite (proj2 (Z.eqb_neq t 0)) by lia.
    assert (0 <= r / 2) by (apply Z.div_pos; lia). rewrite (u32_small (t + r / 2)) by lia.
    pose proof (Z.mod_pos_bound (t + r / 2) r Hr). pose proof (Z.mod_le (t + r / 2) r ltac:(lia) Hr).
    rewrite u32_small by lia. pose proof (Z.div_mod (t + r / 2) r). lia. }
  pose proof (Z.mod_pos_bound (t + r / 2) r Hr). pose proof (Z.div_mod (t + r / 2) r ltac:(lia)) as Hdm.
  split; [rewrite Heq; apply Z.divide_factor_l|]. split; [|split].
  - rewrite Heq. assert (r / 2 + (r - 1) / 2 = r - 1); [|lia].
    destruct (Z.Even_or_Odd r) as [[k ->]|[k ->]].
    + replace (2 * k) with (k * 2) by lia. rewrite Z.div_mul by lia. replace (k * 2 - 1) with ((k - 1) * 2 + 1) by lia.
      rewrite Z.div_add_l by lia. change (1 / 2) with 0. lia.
    + replace (2 * k + 1) with (k * 2 + 1) by lia. replace (k * 2 + 1 - 1) with (k * 2) by lia.
      rewrite Z.div_add_l, Z.div_mul by lia. change (1 / 2) with 0. lia.
  - intros Hn0 Hb'. unfold roundCloseTime. rewrite (proj2 (Z.eqb_neq t' 0)) by done.
    assert (0 <= r / 2 < r) by (split; [apply Z.div_pos; lia|apply Z.div_lt; lia]).
    assert (0 <= t') by (rewrite Heq; apply Z.mul_nonneg_nonneg; [lia|apply Z.div_pos; lia]).
    rewrite (u32_small (t' + r / 2)) by lia.
    assert (Hmod : (t' + r / 2) mod r = r / 2).
    { rewrite Heq, Z.add_comm, Z.mul_comm, Z_mod_plus_full. by apply Z.mod_small. }
    rewrite Hmod. rewrite u32_small; lia.
  - unfold effCloseTime. rewrite (proj2 (Z.eqb_neq t 0)) by lia. fold t'. rewrite (u32_small (prior + 1)) by lia. lia.
Qed.

(** The close-time resolution moves between adjacent bins. From a valid bin
    the next resolution is a valid bin: after a disagreement the next coarser one
    (the coarsest stays), after an agreement the next finer one on every eighth
    ledger (the finest stays), and otherwise unchanged. *)
Theorem resolution_adjacent i r agree seq :
  ledgerPossibleTimeResolutions !! i = Some r ->
  getNextLedgerTimeResolution r agree seq =
    if agree then
      if seq mod 8 =? 0 then default r (ledgerPossibleTimeResolutions !! pred i) else r
    else default r (ledgerPossibleTimeResolutions !! S i).
Proof.
  unfold getNextLedgerTimeResolution, increaseLedgerTimeResolutionEvery, decreaseLedgerTimeResolutionEvery.
  rewrite Z.mod_1_r. intros Hi.
  do 6 (destruct i as [|i]; [injection Hi as <-; cbn; destruct agree; cbn; by destruct (seq mod 8 =? 0)|]).
  done.
Qed.

(** *** Votes on a disputed transaction *)

Definition count_votes (v : bool) (m : gmap Z bool) : Z :=
  Z.of_nat (size (filter (fun kv : Z * bool => kv.2 = v) m)).

Definition dispute_ok (d : DisputedTx) : Prop :=
  yays d = count_votes true (votes d) /\ nays d = count_votes false (votes d).

Lemma count_votes_insert v w p m :
  m !! p = None -> count_votes v (<[p := w]> m) = count_votes v m + (if eqb w v then 1 else 0).
Proof.
  intros Hp. unfold count_votes. destruct (eqb w v) eqn:E.
  - apply eqb_prop in E as ->. rewrite map_filter_insert_True by done.
    rewrite map_size_insert_None; [lia|]. apply map_lookup_filter_None. by left.
  - apply eqb_false_iff in E. rewrite map_filter_insert_False by done. rewrite delete_id by done. lia.
Qed.

Lemma count_votes_delete v w p m :
  m !! p = Some w -> count_votes v (delete p m) = count_votes v m - (if eqb w v then 1 else 0).
Proof.
  intros Hp. rewrite <-(insert_id m p w) at 2 by done. rewrite <-insert_delete_eq.
  rewrite count_votes_insert by apply lookup_delete_eq. lia.
Qed.

Lemma count_votes_replace v w w' p m :
  m !! p = Some w ->
  count_votes v (<[p := w']> m) = count_votes v m - (if eqb w v then 1 else 0) + (if eqb w' v then 1 else 0).
Proof.
  intros Hp. rewrite <-insert_delete_eq, count_votes_insert by apply lookup_delete_eq.
  by rewrite (count_votes_delete v w).
Qed.

Lemma setVote_spec p v d : dispute_ok d ->
  dispute_ok (setVote p v d) /\ ourVote (setVote p v d) = ourVote d /\ votes (setVote p v d) = <[p := v]> (votes d).
Proof.
  intros [Hy Hn]. unfold setVote. destruct (votes d !! p) as [w|] eqn:E.
  - destruct v, w; cbn; rewrite ?(insert_id _ _ _ E); unfold dispute_ok; cbn;
      rewrite ?(count_votes_replace _ _ _ _ _ E); cbn; repeat split; lia || done.
  - destruct v; unfold dispute_ok; cbn; rewrite !(count_votes_insert _ _ _ _ E); cbn; repeat split; lia || done.
Qed.

Lemma unVote_spec p d : dispute_ok d ->
  dispute_ok (unVote p d) /\ ourVote (unVote p d) = ourVote d /\ votes (unVote p d) = delete p (votes d).
Proof.
  intros [Hy Hn]. unfold unVote. destruct (votes d !! p) as [[|]|] eqn:E; unfold dispute_ok; cbn;
    rewrite ?(count_votes_delete _ _ _ _ E); cbn; repeat split; try lia; try done; by rewrite delete_id.
Qed.

Lemma updateVote_spec percentTime proposing p d b d' : dispute_ok d -> updateVote percentTime proposing p d = (b, d') ->
  dispute_ok d' /\ votes d' = votes d /\ if b then ourVote d' = negb (ourVote d) else d' = d.
Proof.
  intros Hd. unfold updateVote. destruct (ourVote d && _); [by intros [= <- <-]|]. destruct (negb (ourVote d) && _); [by intros [= <- <-]|].
  set (np := if proposing then _ else _). destruct (eqb np (ourVote d)) eqn:E; intros [= <- <-]; [done|]. split; [done|]. split; [done|].
  cbn. apply eqb_false_iff in E. by destruct np, (ourVote d).
Qed.

(** The tallies are right. Starting from no votes and under any sequence of
    votes cast, changed and withdrawn, [yays_] and [nays_] are the numbers of peers
    whose last standing vote is yes and no, and each call sets exactly that
    peer's vote. *)
Theorem dispute_tallies (ops : list (Z * option bool)) vote :
  let d := foldl (fun d op => match op.2 with Some v => setVote op.1 v d | None => unVote op.1 d end)
             (dispute vote) ops in
  dispute_ok d /\ ourVote d = vote /\
  votes d = foldl (fun m op => match op.2 with Some v => <[op.1 := v]> m | None => delete op.1 m end) ∅ ops.
Proof.
  cbn zeta. set (step := fun d (op : Z * option bool) => match op.2 with Some v => setVote op.1 v d | None => unVote op.1 d end).
  assert (Hgen : forall ops d, dispute_ok d -> let d' := foldl step d ops in
    dispute_ok d' /\ ourVote d' = ourVote d /\
    votes d' = foldl (fun m op => match op.2 with Some v => <[op.1 := v]> m | None => delete op.1 m end) (votes d) ops).
  { clear ops. induction ops as [|op ops IH]; intros d Hd; [done|]. cbn.
    assert (dispute_ok (step d op) /\ ourVote (step d op) = ourVote d /\
      votes (step d op) = match op.2 with Some v => <[op.1 := v]> (votes d) | None => delete op.1 (votes d) end) as (H1 & H2 & H3).
    { unfold step. destruct op.2; [by apply setVote_spec|by apply unVote_spec]. }
    destruct (IH _ H1) as (H4 & H5 & H6). rewrite H6, H5, H3. done. }
  apply (Hgen ops (dispute vote)). done.
Qed.

Lemma quot_mono a b c : 0 < c -> a <= b -> Z.quot a c <= Z.quot b c.
Proof. intros. by apply Z.quot_le_mono. Qed.

(** A vote settles. With the peers' votes and the clock unchanged, updating
    our vote a second time never changes it back, so a server does not oscillate
    on a dispute; and while proposing we vote yes only with more than the
    threshold share, which never falls as the round goes on. *)
Theorem updateVote_settles percentTime proposing d d' :
  dispute_ok d -> yays d * 100 + 100 < 2 ^ 63 ->
  updateVote percentTime proposing defaultParms d = (true, d') ->
  updateVote percentTime proposing defaultParms d' = (false, d') /\ ourVote d' = negb (ourVote d) /\
  (proposing = true -> ourVote d' = true -> threshold percentTime defaultParms < vote_weight d) /\
  (forall later, 0 <= percentTime <= later -> later < 2 ^ 64 ->
     threshold percentTime defaultParms <= threshold later defaultParms).
Proof.
  intros [Hy Hn] Hb.
  assert (Hy0 : 0 <= yays d) by (rewrite Hy; unfold count_votes; lia).
  assert (Hn0 : 0 <= nays d) by (rewrite Hn; unfold count_votes; lia).
  assert (Hw : forall v, let e := mkDisputed (yays d) (nays d) v (votes d) in u64 (vote_weight e) = vote_weight e).
  { intros v. apply u64_small. unfold vote_weight. cbn. rewrite Z.quot_div_nonneg by (destruct v; lia).
    split; [apply Z.div_pos; destruct v; lia|].
    apply Z.le_lt_trans with (yays d * 100 + 100); [|lia]. apply Z.div_le_upper_bound; [lia|]. destruct v; nia. }
  assert (Hmono : vote_weight (mkDisputed (yays d) (nays d) false (votes d)) <=
                  vote_weight (mkDisputed (yays d) (nays d) true (votes d))).
  { unfold vote_weight. cbn. apply quot_mono; lia. }
  assert (Hlater : forall later, 0 <= percentTime <= later -> later < 2 ^ 64 ->
    threshold percentTime defaultParms <= threshold later defaultParms).
  { intros later H1 H2. unfold threshold. rewrite !u64_small by lia. cbn.
    repeat case_match; rewrite ?Z.ltb_lt, ?Z.ltb_ge in *; lia. }
  destruct d as [y n v vs]. cbn in Hw, Hmono, Hy0, Hn0 |- *.
  pose proof (Hw true) as Hwt. pose proof (Hw false) as Hwf.
  set (T := threshold percentTime defaultParms) in *.
  set (pos := fun v => if proposing then T <? u64 (vote_weight (mkDisputed y n v vs)) else n <? y).
  assert (Hpos : pos v = negb v -> pos (negb v) = negb v).
  { unfold pos. destruct proposing; [|done]. destruct v; cbn; rewrite Hwt, Hwf, ?Z.ltb_lt, ?Z.ltb_ge; lia. }
  unfold updateVote. cbn [ourVote nays yays votes]. fold T. fold (pos v) (pos (negb v)).
  destruct (v && (n =? 0)); [done|]. destruct (negb v && (y =? 0)); [done|].
  destruct (eqb (pos v) v) eqn:E; [done|]. intros [= <-]. apply eqb_false_iff in E.
  assert (Hv : pos v = negb v) by (destruct (pos v), v; done). rewrite Hv. cbn [ourVote nays yays votes].
  fold (pos (negb v)). rewrite (Hpos Hv), eqb_reflx. split; [by repeat case_match|]. split; [done|]. split; [|done].
  intros -> Ht. unfold pos in Hv. rewrite Ht in Hv. apply Z.ltb_lt in Hv. destruct v; [done|]. by rewrite Hwf in Hv.
Qed.

(** In a normal round with transactions, the ledger closes once a majority of the
    last proposers has, or it has been open for the minimum and for half the last
    round. *)
Lemma shouldCloseLedger_busy prev closed validated prevRound since open idle :
  -1000 <= prevRound <= 600000 -> since <= 600000 -> 0 <= closed + validated < 2 ^ 64 ->
  shouldCloseLedger true prev closed validated prevRound since open idle defaultParms = true <->
  prev / 2 < closed + validated \/ (2000 <= open /\ Z.quot prevRound 2 <= open).
Proof.
  intros H1 H2 H3. unfold shouldCloseLedger. rewrite u64_small by lia.
  rewrite (proj2 (Z.ltb_ge prevRound (-1000))), (proj2 (Z.ltb_ge 600000 _)), (proj2 (Z.ltb_ge 600000 _)) by lia.
  cbn. repeat case_match; rewrite ?Z.ltb_lt, ?Z.ltb_ge in *; split; intros; try done; lia.
Qed.

(** ** Witnesses *)

Lemma consensus_exclusive_witness :
  checkConsensusReached 8 9 true 80 = true /\ checkConsensusReached 1 9 false 80 = false.
Proof.
  split; [by vm_compute|]. apply (consensus_exclusive 8 1 9 true 80); [lia..|by vm_compute].
Defined.

Lemma checkConsensus_spec_witness :
  checkConsensus 10 9 8 0 3000 4000 defaultParms true = CS_Yes /\
  match checkConsensus 10 9 8 0 3000 4000 defaultParms true with
  | CS_Yes => (1950 < 4000 /\ (10 * 3 / 4 <= 9 \/ 3000 + 1950 <= 4000)) /\ (9 = 0 \/ 80 * (9 + 1) <= (8 + 1) * 100)
  | CS_MovedOn => (1950 < 4000 /\ (10 * 3 / 4 <= 9 \/ 3000 + 1950 <= 4000)) /\
      ~ (9 = 0 \/ 80 * (9 + 1) <= (8 + 1) * 100) /\ (9 = 0 \/ 80 * 9 <= 0 * 100)
  | CS_No => ~ (1950 < 4000 /\ (10 * 3 / 4 <= 9 \/ 3000 + 1950 <= 4000)) \/
      (~ (9 = 0 \/ 80 * (9 + 1) <= (8 + 1) * 100) /\ ~ (9 = 0 \/ 80 * 9 <= 0 * 100))
  end.
Proof. split; [by vm_compute|]. apply (checkConsensus_spec 10 9 8 0 3000 4000 true); lia. Defined.

Lemma roundCloseTime_nearest_witness :
  roundCloseTime 1005 10 = 1010 /\ (10 | roundCloseTime 1005 10) /\ 990 < effCloseTime 1005 10 990.
Proof.
  split; [by vm_compute|].
  destruct (roundCloseTime_nearest 1005 10 990) as (H1 & _ & _ & H2 & _); [lia|lia|lia|by vm_compute|lia|]. done.
Defined.

Lemma resolution_adjacent_witness :
  getNextLedgerTimeResolution 30 false 5 = 60.
Proof. exact (resolution_adjacent 2 30 false 5 eq_refl). Defined.

Definition wdispute : DisputedTx := setVote 3 true (setVote 2 true (setVote 1 false (dispute false))).

Lemma updateVote_settles_witness :
  updateVote 10 true defaultParms (setVote 4 true wdispute) =
    (true, mkDisputed 3 1 true (votes (setVote 4 true wdispute))) /\
  updateVote 10 true defaultParms (mkDisputed 3 1 true (votes (setVote 4 true wdispute))) =
    (false, mkDisputed 3 1 true (votes (setVote 4 true wdispute))).
Proof.
  split; [by vm_compute|].
  apply (updateVote_settles 10 true (setVote 4 true wdispute)); [|by vm_compute|by vm_compute].
  by vm_compute.
Defined.
