(* ===== verification/Round.v ===== *)
(** * The rounds of consensus

    Models consensus/Consensus.h: the phases of a round, the positions of the peers,
    the disputes between their transaction sets and ours, the changes of our position,
    the close time and the acceptance of a ledger; with consensus/ConsensusProposal.h
    and consensus/ConsensusTypes.h. A transaction set is any type with the operations
    that the comment on [Consensus] asks for. What the adaptor answers is given with
    each call as a record, with one reading of the clock, in nanoseconds; what it is
    told is a list of events, latest first. Hash maps are visited in some order of
    their entries. Access to an empty [boost::optional] is an exception here, and so is
    running out of fuel; [RoundInv] shows that neither happens. *)

From Stdlib Require Import Floats.SpecFloat.
From S2P Require Import Prelude Consensus.

(** ** ConsensusProposal.h *)

Record Proposal := mkProposal { previousLedger : Z; proposeSeq : Z; position : Z; closeTime : Z; seenTime : Z; nodeID : Z }.

Definition seqJoin : Z := 0.
Definition seqLeave : Z := 4294967295.

Definition isInitial (p : Proposal) : bool := proposeSeq p =? seqJoin.
Definition isBowOut (p : Proposal) : bool := proposeSeq p =? seqLeave.
Definition isStale (cutoff : Z) (p : Proposal) : bool := seenTime p <=? cutoff.

Definition changePosition (newPosition newCloseTime now : Z) (p : Proposal) : Proposal :=
  mkProposal (previousLedger p) (if proposeSeq p =? seqLeave then proposeSeq p else u32 (proposeSeq p + 1)) newPosition newCloseTime now (nodeID p).

Definition bowOut (now : Z) (p : Proposal) : Proposal :=
  mkProposal (previousLedger p) seqLeave (position p) (closeTime p) now (nodeID p).

(** [int]. *)
Definition i32 (z : Z) : Z := (z + 2 ^ 31) mod 2 ^ 32 - 2 ^ 31.

(** ** ConsensusTypes.h *)

Inductive ConsensusMode := Proposing | Observing | WrongLedger | SwitchedLedger.
#[export] Instance ConsensusMode_eq_dec : EqDecision ConsensusMode. Proof. solve_decision. Defined.

Inductive ConsensusPhase := Open | Establish | Accepted.
#[export] Instance ConsensusPhase_eq_dec : EqDecision ConsensusPhase. Proof. solve_decision. Defined.

Record ConsensusTimer := mkTimer { start_ : Z; dur_ : Z }.
Definition timer_reset (now : Z) : ConsensusTimer := mkTimer now 0.
Definition timer_tick (now : Z) (t : ConsensusTimer) : ConsensusTimer := mkTimer (start_ t) (Z.quot (now - start_ t) 1000000).
Definition timer_add (fixed : Z) (t : ConsensusTimer) : ConsensusTimer := mkTimer (start_ t) (dur_ t + fixed).

(** A [std::map] from times to counts, in the order of the times. *)
Fixpoint bump (t : Z) (l : list (Z * Z)) : list (Z * Z) :=
  match l with
  | [] => [(t, 1)]
  | (t', n) :: l' => if t <? t' then (t, 1) :: l else if t =? t' then (t', n + 1) :: l' else (t', n) :: bump t l'
  end.

Record Ledger := mkLedger { lgr_id : Z; lgr_seq : Z; closeTimeResolution : Z; closeAgree : bool; lgr_closeTime : Z; parentCloseTime : Z }.

(** The operations on a transaction set, and what the comment in Consensus.h says of
    them. The identifier of a set is a hash of its contents. *)
Class TxSetOps (T X : Type) := {
  tx_id : X -> Z;
  set_id : T -> Z;
  set_exists : T -> Z -> bool;
  set_find : T -> Z -> option X;
  set_compare : T -> T -> list (Z * bool);
  set_insert : X -> T -> T;
  set_erase : Z -> T -> T }.

Class TxSetLaws (T X : Type) `{TxSetOps T X} : Prop := {
  exists_find (t : T) i : set_exists t i = true <-> exists x, set_find t i = Some x /\ tx_id x = i;
  find_id (t : T) i x : set_find t i = Some x -> tx_id x = i;
  compare_differs (t o : T) i b : In (i, b) (set_compare t o) <-> set_exists t i = b /\ set_exists o i = negb b;
  exists_insert (x : X) (t : T) i : set_exists (set_insert x t) i = (tx_id x =? i) || set_exists t i;
  exists_erase (t : T) i j : set_exists (set_erase i t) j = negb (i =? j) && set_exists t j;
  id_contents (t o : T) : set_id t = set_id o -> forall i, set_exists t i = set_exists o i }.

Definition empty_optional : exn := logic_error "empty optional".
Definition out_of_fuel : exn := logic_error "out of fuel".

Definition deref {A} (o : option A) : res A := match o with Some a => Ok a | None => Throw empty_optional end.

Fixpoint each {A S} (f : A -> S -> res S) (l : list A) (s : S) : res S :=
  match l with [] => Ok s | a :: l => s ← f a s; each f l s end.

Section Machine.
Context {T X : Type} `{TxSetOps T X}.

Record ConsensusResult := mkResult {
  txns : T; r_position : Proposal; disputes : gmap Z (X * DisputedTx); compares : gset Z;
  roundTime : ConsensusTimer; state : ConsensusState; proposers : Z }.

Definition new_result (s : T) (p : Proposal) : ConsensusResult := mkResult s p ∅ ∅ (mkTimer 0 0) CS_No 0.

Definition with_txns (t : T) (r : ConsensusResult) := mkResult t (r_position r) (disputes r) (compares r) (roundTime r) (state r) (proposers r).
Definition with_position (p : Proposal) (r : ConsensusResult) := mkResult (txns r) p (disputes r) (compares r) (roundTime r) (state r) (proposers r).
Definition with_disputes (d : gmap Z (X * DisputedTx)) (r : ConsensusResult) := mkResult (txns r) (r_position r) d (compares r) (roundTime r) (state r) (proposers r).
Definition with_compares (c : gset Z) (r : ConsensusResult) := mkResult (txns r) (r_position r) (disputes r) c (roundTime r) (state r) (proposers r).
Definition with_roundTime (t : ConsensusTimer) (r : ConsensusResult) := mkResult (txns r) (r_position r) (disputes r) (compares r) t (state r) (proposers r).
Definition with_state (c : ConsensusState) (r : ConsensusResult) := mkResult (txns r) (r_position r) (disputes r) (compares r) (roundTime r) c (proposers r).
Definition with_proposers (n : Z) (r : ConsensusResult) := mkResult (txns r) (r_position r) (disputes r) (compares r) (roundTime r) (state r) n.

(** What the adaptor is told. *)
Inductive Event :=
| Ev_mode (before after : ConsensusMode)
| Ev_propose (p : Proposal)
| Ev_share_position (p : Proposal)
| Ev_share_tx (x : X)
| Ev_share_set (t : T)
| Ev_accept (forced : bool) (r : ConsensusResult) (prev : Ledger) (closeResolution : Z) (rawPeers : list (Z * Z)) (rawSelf : Z) (mode : ConsensusMode).

(** What the adaptor answers. *)
Record Adaptor := mkAdaptor {
  clock : Z;
  acquireLedger : Z -> option Ledger;
  acquireTxSet : Z -> option T;
  hasOpenTransactions : bool;
  proposersValidated : Z -> Z;
  proposersFinished : Ledger -> Z -> Z;
  getPrevLedger : Z -> Ledger -> ConsensusMode -> Z;
  onClose : Ledger -> Z -> ConsensusMode -> T * Proposal;
  getValidLedgerIndex : Z;
  getQuorumKeys : Z * gset Z;
  laggards : Z -> gset Z -> Z * gset Z;
  validator : bool;
  haveValidated : bool }.

Record Round := mkRound {
  phase_ : ConsensusPhase;
  mode_ : ConsensusMode;
  firstRound_ : bool;
  haveCloseTimeConsensus_ : bool;
  convergePercent_ : Z;
  openTime_ : ConsensusTimer;
  closeResolution_ : Z;
  prevRoundTime_ : Z;
  now_ : Z;
  prevCloseTime_ : Z;
  prevLedgerID_ : Z;
  previousLedger_ : Ledger;
  acquired_ : gmap Z T;
  result_ : option ConsensusResult;
  rawPeers_ : list (Z * Z);
  rawSelf_ : Z;
  currPeerPositions_ : gmap Z Proposal;
  recentPeerPositions_ : gmap Z (list Proposal);
  prevProposers_ : Z;
  deadNodes_ : gset Z;
  out_ : list Event }.

Definition set_phase (x : ConsensusPhase) (s : Round) : Round :=
  mkRound x (mode_ s) (firstRound_ s) (haveCloseTimeConsensus_ s) (convergePercent_ s) (openTime_ s) (closeResolution_ s) (prevRoundTime_ s) (now_ s) (prevCloseTime_ s) (prevLedgerID_ s) (previousLedger_ s) (acquired_ s) (result_ s) (rawPeers_ s) (rawSelf_ s) (currPeerPositions_ s) (recentPeerPositions_ s) (prevProposers_ s) (deadNodes_ s) (out_ s).
Definition set_modeField (x : ConsensusMode) (s : Round) : Round :=
  mkRound (phase_ s) x (firstRound_ s) (haveCloseTimeConsensus_ s) (convergePercent_ s) (openTime_ s) (closeResolution_ s) (prevRoundTime_ s) (now_ s) (prevCloseTime_ s) (prevLedgerID_ s) (previousLedger_ s) (acquired_ s) (result_ s) (rawPeers_ s) (rawSelf_ s) (currPeerPositions_ s) (recentPeerPositions_ s) (prevProposers_ s) (deadNodes_ s) (out_ s).
Definition set_firstRound (x : bool) (s : Round) : Round :=
  mkRound (phase_ s) (mode_ s) x (haveCloseTimeConsensus_ s) (convergePercent_ s) (openTime_ s) (closeResolution_ s) (prevRoundTime_ s) (now_ s) (prevCloseTime_ s) (prevLedgerID_ s) (previousLedger_ s) (acquired_ s) (result_ s) (rawPeers_ s) (rawSelf_ s) (currPeerPositions_ s) (recentPeerPositions_ s) (prevProposers_ s) (deadNodes_ s) (out_ s).
Definition set_closeTimeConsensus (x : bool) (s : Round) : Round :=
  mkRound (phase_ s) (mode_ s) (firstRound_ s) x (convergePercent_ s) (openTime_ s) (closeResolution_ s) (prevRoundTime_ s) (now_ s) (prevCloseTime_ s) (prevLedgerID_ s) (previousLedger_ s) (acquired_ s) (result_ s) (rawPeers_ s) (rawSelf_ s) (currPeerPositions_ s) (recentPeerPositions_ s) (prevProposers_ s) (deadNodes_ s) (out_ s).
Definition set_convergePercent (x : Z) (s : Round) : Round :=
  mkRound (phase_ s) (mode_ s) (firstRound_ s) (haveCloseTimeConsensus_ s) x (openTime_ s) (closeResolution_ s) (prevRoundTime_ s) (now_ s) (prevCloseTime_ s) (prevLedgerID_ s) (previousLedger_ s) (acquired_ s) (result_ s) (rawPeers_ s) (rawSelf_ s) (currPeerPositions_ s) (recentPeerPositions_ s) (prevProposers_ s) (deadNodes_ s) (out_ s).
Definition set_openTime (x : ConsensusTimer) (s : Round) : Round :=
  mkRound (phase_ s) (mode_ s) (firstRound_ s) (haveCloseTimeConsensus_ s) (convergePercent_ s) x (closeResolution_ s) (prevRoundTime_ s) (now_ s) (prevCloseTime_ s) (prevLedgerID_ s) (previousLedger_ s) (acquired_ s) (result_ s) (rawPeers_ s) (rawSelf_ s) (currPeerPositions_ s) (recentPeerPositions_ s) (prevProposers_ s) (deadNodes_ s) (out_ s).
Definition set_prevRoundTime (x : Z) (s : Round) : Round :=
  mkRound (phase_ s) (mode_ s) (firstRound_ s) (haveCloseTimeConsensus_ s) (convergePercent_ s) (openTime_ s) (closeResolution_ s) x (now_ s) (prevCloseTime_ s) (prevLedgerID_ s) (previousLedger_ s) (acquired_ s) (result_ s) (rawPeers_ s) (rawSelf_ s) (currPeerPositions_ s) (recentPeerPositions_ s) (prevProposers_ s) (deadNodes_ s) (out_ s).
Definition set_now (x : Z) (s : Round) : Round :=
  mkRound (phase_ s) (mode_ s) (firstRound_ s) (haveCloseTimeConsensus_ s) (convergePercent_ s) (openTime_ s) (closeResolution_ s) (prevRoundTime_ s) x (prevCloseTime_ s) (prevLedgerID_ s) (previousLedger_ s) (acquired_ s) (result_ s) (rawPeers_ s) (rawSelf_ s) (currPeerPositions_ s) (recentPeerPositions_ s) (prevProposers_ s) (deadNodes_ s) (out_ s).
Definition set_prevCloseTime (x : Z) (s : Round) : Round :=
  mkRound (phase_ s) (mode_ s) (firstRound_ s) (haveCloseTimeConsensus_ s) (convergePercent_ s) (openTime_ s) (closeResolution_ s) (prevRoundTime_ s) (now_ s) x (prevLedgerID_ s) (previousLedger_ s) (acquired_ s) (result_ s) (rawPeers_ s) (rawSelf_ s) (currPeerPositions_ s) (recentPeerPositions_ s) (prevProposers_ s) (deadNodes_ s) (out_ s).
Definition set_prevLedgerID (x : Z) (s : Round) : Round :=
  mkRound (phase_ s) (mode_ s) (firstRound_ s) (haveCloseTimeConsensus_ s) (convergePercent_ s) (openTime_ s) (closeResolution_ s) (prevRoundTime_ s) (now_ s) (prevCloseTime_ s) x (previousLedger_ s) (acquired_ s) (result_ s) (rawPeers_ s) (rawSelf_ s) (currPeerPositions_ s) (recentPeerPositions_ s) (prevProposers_ s) (deadNodes_ s) (out_ s).
Definition set_acquired (x : gmap Z T) (s : Round) : Round :=
  mkRound (phase_ s) (mode_ s) (firstRound_ s) (haveCloseTimeConsensus_ s) (convergePercent_ s) (openTime_ s) (closeResolution_ s) (prevRoundTime_ s) (now_ s) (prevCloseTime_ s) (prevLedgerID_ s) (previousLedger_ s) x (result_ s) (rawPeers_ s) (rawSelf_ s) (currPeerPositions_ s) (recentPeerPositions_ s) (prevProposers_ s) (deadNodes_ s) (out_ s).
Definition set_result (x : option ConsensusResult) (s : Round) : Round :=
  mkRound (phase_ s) (mode_ s) (firstRound_ s) (haveCloseTimeConsensus_ s) (convergePercent_ s) (openTime_ s) (closeResolution_ s) (prevRoundTime_ s) (now_ s) (prevCloseTime_ s) (prevLedgerID_ s) (previousLedger_ s) (acquired_ s) x (rawPeers_ s) (rawSelf_ s) (currPeerPositions_ s) (recentPeerPositions_ s) (prevProposers_ s) (deadNodes_ s) (out_ s).
Definition set_rawPeers (x : list (Z * Z)) (s : Round) : Round :=
  mkRound (phase_ s) (mode_ s) (firstRound_ s) (haveCloseTimeConsensus_ s) (convergePercent_ s) (openTime_ s) (closeResolution_ s) (prevRoundTime_ s) (now_ s) (prevCloseTime_ s) (prevLedgerID_ s) (previousLedger_ s) (acquired_ s) (result_ s) x (rawSelf_ s) (currPeerPositions_ s) (recentPeerPositions_ s) (prevProposers_ s) (deadNodes_ s) (out_ s).
Definition set_rawSelf (x : Z) (s : Round) : Round :=
  mkRound (phase_ s) (mode_ s) (firstRound_ s) (haveCloseTimeConsensus_ s) (convergePercent_ s) (openTime_ s) (closeResolution_ s) (prevRoundTime_ s) (now_ s) (prevCloseTime_ s) (prevLedgerID_ s) (previousLedger_ s) (acquired_ s) (result_ s) (rawPeers_ s) x (currPeerPositions_ s) (recentPeerPositions_ s) (prevProposers_ s) (deadNodes_ s) (out_ s).
Definition set_currPeerPositions (x : gmap Z Proposal) (s : Round) : Round :=
  mkRound (phase_ s) (mode_ s) (firstRound_ s) (haveCloseTimeConsensus_ s) (convergePercent_ s) (openTime_ s) (closeResolution_ s) (prevRoundTime_ s) (now_ s) (prevCloseTime_ s) (prevLedgerID_ s) (previousLedger_ s) (acquired_ s) (result_ s) (rawPeers_ s) (rawSelf_ s) x (recentPeerPositions_ s) (prevProposers_ s) (deadNodes_ s) (out_ s).
Definition set_recentPeerPositions (x : gmap Z (list Proposal)) (s : Round) : Round :=
  mkRound (phase_ s) (mode_ s) (firstRound_ s) (haveCloseTimeConsensus_ s) (convergePercent_ s) (openTime_ s) (closeResolution_ s) (prevRoundTime_ s) (now_ s) (prevCloseTime_ s) (prevLedgerID_ s) (previousLedger_ s) (acquired_ s) (result_ s) (rawPeers_ s) (rawSelf_ s) (currPeerPositions_ s) x (prevProposers_ s) (deadNodes_ s) (out_ s).
Definition set_prevProposers (x : Z) (s : Round) : Round :=
  mkRound (phase_ s) (mode_ s) (firstRound_ s) (haveCloseTimeConsensus_ s) (convergePercent_ s) (openTime_ s) (closeResolution_ s) (prevRoundTime_ s) (now_ s) (prevCloseTime_ s) (prevLedgerID_ s) (previousLedger_ s) (acquired_ s) (result_ s) (rawPeers_ s) (rawSelf_ s) (currPeerPositions_ s) (recentPeerPositions_ s) x (deadNodes_ s) (out_ s).
Definition set_deadNodes (x : gset Z) (s : Round) : Round :=
  mkRound (phase_ s) (mode_ s) (firstRound_ s) (haveCloseTimeConsensus_ s) (convergePercent_ s) (openTime_ s) (closeResolution_ s) (prevRoundTime_ s) (now_ s) (prevCloseTime_ s) (prevLedgerID_ s) (previousLedger_ s) (acquired_ s) (result_ s) (rawPeers_ s) (rawSelf_ s) (currPeerPositions_ s) (recentPeerPositions_ s) (prevProposers_ s) x (out_ s).
Definition set_out (x : list Event) (s : Round) : Round :=
  mkRound (phase_ s) (mode_ s) (firstRound_ s) (haveCloseTimeConsensus_ s) (convergePercent_ s) (openTime_ s) (closeResolution_ s) (prevRoundTime_ s) (now_ s) (prevCloseTime_ s) (prevLedgerID_ s) (previousLedger_ s) (acquired_ s) (result_ s) (rawPeers_ s) (rawSelf_ s) (currPeerPositions_ s) (recentPeerPositions_ s) (prevProposers_ s) (deadNodes_ s) x.

(** ** State *)

Definition emit (e : Event) (s : Round) : Round := set_out (e :: out_ s) s.
Definition set_mode (m : ConsensusMode) (s : Round) : Round := set_modeField m (emit (Ev_mode (mode_ s) m) s).
Definition update_result (f : ConsensusResult -> ConsensusResult) (s : Round) : Round := set_result (f <$> result_ s) s.

Definition new_round (genesis : Ledger) : Round :=
  mkRound Accepted Observing true false 0 (mkTimer 0 0) 30 0 0 0 0 genesis ∅ None [] 0 ∅ ∅ 0 ∅ [].

Variable parms : ConsensusParms.
(** The order in which a hash map is visited. *)
Variable order : forall A, list (Z * A) -> list (Z * A).

Definition visit {A} (m : gmap Z A) : list (Z * A) := order A (map_to_list m).

Definition asCloseTime (s : Round) (raw : Z) : Z :=
  if useRoundedCloseTime parms then roundCloseTime raw (closeResolution_ s)
  else effCloseTime raw (closeResolution_ s) (lgr_closeTime (previousLedger_ s)).

(** ** Disputes *)

(** The votes of the peers whose sets are at hand. *)
Definition peer_vote (s : Round) (txID : Z) (pit : Z * Proposal) (d : DisputedTx) : DisputedTx :=
  match acquired_ s !! position pit.2 with
  | Some t => setVote pit.1 (set_exists t txID) d
  | None => d
  end.

Definition create_dispute (o : T) (id : Z * bool) (s : Round) : res Round :=
  r ← deref (result_ s);
  tx ← deref (if id.2 then set_find (txns r) id.1 else set_find o id.1);
  let txID := tx_id tx in
  match disputes r !! txID with
  | Some _ => Ok s
  | None =>
      let dtx := foldl (fun d pit => peer_vote s txID pit d) (dispute (set_exists (txns r) txID)) (visit (currPeerPositions_ s)) in
      Ok (set_result (Some (with_disputes (<[txID := (tx, dtx)]> (disputes r)) r)) (emit (Ev_share_tx tx) s))
  end.

Definition createDisputes (o : T) (s : Round) : res Round :=
  r ← deref (result_ s);
  if bool_decide (set_id o ∈ compares r) then Ok s else
  let s := set_result (Some (with_compares ({[set_id o]} ∪ compares r) r)) s in
  if set_id (txns r) =? set_id o then Ok s else
  each (create_dispute o) (set_compare (txns r) o) s.

Definition updateDisputes (node : Z) (other : T) (s : Round) : res Round :=
  r ← deref (result_ s);
  s ← (if bool_decide (set_id other ∈ compares r) then Ok s else createDisputes other s);
  r ← deref (result_ s);
  Ok (set_result (Some (with_disputes ((fun it : X * DisputedTx => (it.1, setVote node (set_exists other (tx_id it.1)) it.2)) <$> disputes r) r)) s).

(** ** Positions of the peers *)

Definition gotTxSet (now : Z) (txSet : T) (s : Round) : res Round :=
  if bool_decide (phase_ s = Accepted) then Ok s else
  let s := set_now now s in
  let id := set_id txSet in
  if bool_decide (is_Some (acquired_ s !! id)) then Ok s else
  let s := set_acquired (<[id := txSet]> (acquired_ s)) s in
  match result_ s with
  | None => Ok s
  | Some _ => each (fun it s => if position it.2 =? id then updateDisputes it.1 txSet s else Ok s) (visit (currPeerPositions_ s)) s
  end.

Definition unvote_all (peer : Z) (r : ConsensusResult) : ConsensusResult :=
  with_disputes ((fun it : X * DisputedTx => (it.1, unVote peer it.2)) <$> disputes r) r.

(** A position that is not refused: whether the peer leaves, or where it stands now. *)
Definition take_position (a : Adaptor) (newPeerProp : Proposal) (s : Round) : res Round :=
  let peerID := nodeID newPeerProp in
  if isBowOut newPeerProp then
    let s := update_result (unvote_all peerID) s in
    Ok (set_deadNodes ({[peerID]} ∪ deadNodes_ s) (set_currPeerPositions (delete peerID (currPeerPositions_ s)) s))
  else
  let s := set_currPeerPositions (<[peerID := newPeerProp]> (currPeerPositions_ s)) s in
  let s := if isInitial newPeerProp then set_rawPeers (bump (closeTime newPeerProp) (rawPeers_ s)) s else s in
  match acquired_ s !! position newPeerProp with
  | None => match acquireTxSet a (position newPeerProp) with Some t => gotTxSet (now_ s) t s | None => Ok s end
  | Some t => match result_ s with Some _ => updateDisputes peerID t s | None => Ok s end
  end.

Definition peerProposalInternal (a : Adaptor) (now : Z) (newPeerProp : Proposal) (s : Round) : res (bool * Round) :=
  if bool_decide (phase_ s = Accepted) then Ok (false, s) else
  let s := set_now now s in
  let peerID := nodeID newPeerProp in
  if negb (previousLedger newPeerProp =? prevLedgerID_ s) then Ok (false, s) else
  if bool_decide (peerID ∈ deadNodes_ s) then Ok (false, s) else
  let old := match currPeerPositions_ s !! peerID with Some p => proposeSeq newPeerProp <=? proposeSeq p | None => false end in
  if old then Ok (false, s) else
  s ← take_position a newPeerProp s; Ok (true, s).

Definition peerProposal (a : Adaptor) (now : Z) (newPeerPos : Proposal) (s : Round) : res (bool * Round) :=
  let peerID := nodeID newPeerPos in
  let props := default [] (recentPeerPositions_ s !! peerID) in
  let props := if 10 <=? Z.of_nat (length props) then tail props else props in
  peerProposalInternal a now newPeerPos (set_recentPeerPositions (<[peerID := props ++ [newPeerPos]]> (recentPeerPositions_ s)) s).

Definition playback (a : Adaptor) (pos : Proposal) (s : Round) : res Round :=
  if previousLedger pos =? prevLedgerID_ s then
    '(relay, s) ← peerProposalInternal a (now_ s) pos s;
    Ok (if relay : bool then emit (Ev_share_position pos) s else s)
  else Ok s.

Definition playbackProposals (a : Adaptor) (s : Round) : res Round :=
  each (fun it s => each (playback a) it.2 s) (visit (recentPeerPositions_ s)) s.

(** ** Closing the ledger *)

Definition closeLedger (a : Adaptor) (s : Round) : res Round :=
  let s := set_rawSelf (now_ s) (set_phase Establish s) in
  let '(t, p) := onClose a (previousLedger_ s) (now_ s) (mode_ s) in
  let s := set_result (Some (with_roundTime (timer_reset (clock a)) (new_result t p))) s in
  let s := if bool_decide (is_Some (acquired_ s !! set_id t)) then s
           else emit (Ev_share_set t) (set_acquired (<[set_id t := t]> (acquired_ s)) s) in
  let s := if bool_decide (mode_ s = Proposing) then emit (Ev_propose p) s else s in
  each (fun pit s => match acquired_ s !! position pit.2 with Some t => createDisputes t s | None => Ok s end) (visit (currPeerPositions_ s)) s.

Definition sinceClose (s : Round) : Z :=
  let previousCloseCorrect := negb (bool_decide (mode_ s = WrongLedger)) && closeAgree (previousLedger_ s) &&
    negb (lgr_closeTime (previousLedger_ s) =? parentCloseTime (previousLedger_ s) + 1) in
  let lastCloseTime := if previousCloseCorrect then lgr_closeTime (previousLedger_ s) else prevCloseTime_ s in
  (now_ s - lastCloseTime) * 1000.

Definition phaseOpen (a : Adaptor) (s : Round) : res Round :=
  let s := set_openTime (timer_tick (clock a) (openTime_ s)) s in
  let idleInterval := Z.max (ledgerIDLE_INTERVAL parms) (u32 (2 * closeTimeResolution (previousLedger_ s)) * 1000) in
  if shouldCloseLedger (hasOpenTransactions a) (prevProposers_ s) (Z.of_nat (size (currPeerPositions_ s))) (proposersValidated a (prevLedgerID_ s))
       (prevRoundTime_ s) (sinceClose s) (dur_ (openTime_ s)) idleInterval parms
  then closeLedger a s else Ok s.

(** ** Waiting for laggards *)

(** [float] is IEEE binary32. *)
Definition float_of (n : Z) : spec_float := binary_normalize 24 128 n 0 false.

Definition maxPausePhase : Z := 4.

Definition shouldPause (a : Adaptor) (s : Round) : res bool :=
  let seq := lgr_seq (previousLedger_ s) in
  let ahead := u32 (seq - Z.min (getValidLedgerIndex a) seq) in
  let '(quorum, trustedKeys) := getQuorumKeys a in
  let totalValidators := Z.of_nat (size trustedKeys) in
  let '(lagging, trustedKeys) := laggards a seq trustedKeys in
  let offline := Z.of_nat (size trustedKeys) in
  r ← deref (result_ s);
  if (ahead =? 0) || (lagging =? 0) || (totalValidators =? 0) || negb (validator a) || negb (haveValidated a) || (ledgerMAX_CONSENSUS parms <? dur_ (roundTime r))
  then Ok false else
  let phase := (ahead - 1) mod (maxPausePhase + 1) in
  if phase =? 0 then Ok (u64 (totalValidators - quorum) <? u64 (lagging + offline)) else
  if phase =? maxPausePhase then Ok true else
  let nonLaggards := float_of (u64 (totalValidators - u64 (lagging + offline))) in
  let quorumRatio := SFdiv 24 128 (float_of quorum) (float_of totalValidators) in
  let allowedDissent := SFsub 24 128 (float_of 1) quorumRatio in
  let phaseFactor := SFdiv 24 128 (float_of phase) (float_of maxPausePhase) in
  Ok (SFltb (SFdiv 24 128 nonLaggards (float_of totalValidators)) (SFadd 24 128 quorumRatio (SFmul 24 128 allowedDissent phaseFactor))).

(** ** Updating our position *)

Definition participantsNeeded (participants percent : Z) : Z :=
  let result := Z.quot (participants * percent + Z.quot percent 2) 100 in
  if result =? 0 then 1 else result.

(** Drops the positions that are stale and counts the close times of the others. *)
Definition check_fresh (peerCutoff : Z) (it : Z * Proposal) (vs : list (Z * Z) * Round) : res (list (Z * Z) * Round) :=
  let '(votes, s) := vs in
  if isStale peerCutoff it.2 then
    r ← deref (result_ s);
    Ok (votes, set_currPeerPositions (delete it.1 (currPeerPositions_ s)) (set_result (Some (unvote_all (nodeID it.2) r)) s))
  else Ok (bump (asCloseTime s (closeTime it.2)) votes, s).

(** Our vote on each dispute, with the set it leads to if any changed. *)
Definition vote_on (percent : Z) (proposing : bool) (txns : T) (it : Z * (X * DisputedTx)) (acc : gmap Z (X * DisputedTx) * option T) : gmap Z (X * DisputedTx) * option T :=
  let '(ds, mutableSet) := acc in
  let '(id, (tx, d)) := it in
  let '(changed, d) := updateVote percent proposing parms d in
  (<[id := (tx, d)]> ds,
   if changed : bool then Some (if ourVote d then set_insert tx (default txns mutableSet) else set_erase id (default txns mutableSet)) else mutableSet).

Definition vote_on_disputes (s : Round) (r : ConsensusResult) : gmap Z (X * DisputedTx) * option T :=
  foldl (fun acc it => vote_on (convergePercent_ s) (bool_decide (mode_ s = Proposing)) (txns r) it acc) (disputes r, None) (visit (disputes r)).

(** The close time with the most votes beyond the threshold, and whether they suffice. *)
Definition count_time (threshConsensus : Z) (acc : Z * Z * bool) (it : Z * Z) : Z * Z * bool :=
  let '(threshVote, time, have) := acc in
  if threshVote <=? it.2 then (it.2, it.1, have || (threshConsensus <=? it.2)) else acc.

Definition closeTime_consensus (s : Round) (r : ConsensusResult) (closeTimeVotes : list (Z * Z)) : Z * bool :=
  if bool_decide (currPeerPositions_ s = ∅) then (asCloseTime s (closeTime (r_position r)), true) else
  let neededWeight := threshold (convergePercent_ s) parms in
  let participants := Z.of_nat (size (currPeerPositions_ s)) in
  let '(closeTimeVotes, participants) := if bool_decide (mode_ s = Proposing) then (bump (asCloseTime s (closeTime (r_position r))) closeTimeVotes, participants + 1) else (closeTimeVotes, participants) in
  let threshVote := participantsNeeded participants neededWeight in
  let threshConsensus := participantsNeeded participants (avCT_CONSENSUS_PCT parms) in
  let '(_, time, have) := foldl (count_time threshConsensus) (threshVote, 0, false) closeTimeVotes in
  (time, have).

(** Tells the peers of a set of ours that did not come from one of them. *)
Definition share_new (newSet : T) (p : Proposal) (s : Round) : res Round :=
  if bool_decide (is_Some (acquired_ s !! set_id newSet)) then Ok s else
  let s := set_acquired (<[set_id newSet := newSet]> (acquired_ s)) s in
  let s := if isBowOut p then s else emit (Ev_share_set newSet) s in
  each (fun it s => if position it.2 =? set_id newSet then r ← deref (result_ s); updateDisputes it.1 (txns r) s else Ok s) (visit (currPeerPositions_ s)) s.

(** Takes the new set as our position and tells the peers. *)
Definition adopt (ourNewSet : T) (consensusCloseTime : Z) (s : Round) : res Round :=
  r ← deref (result_ s);
  let r := with_position (changePosition (set_id ourNewSet) consensusCloseTime (now_ s) (r_position r)) (with_txns ourNewSet r) in
  s ← share_new ourNewSet (r_position r) (set_result (Some r) s);
  r ← deref (result_ s);
  Ok (if negb (isBowOut (r_position r)) && bool_decide (mode_ s = Proposing) then emit (Ev_propose (r_position r)) s else s).

Definition updateOurPositions (s : Round) : res Round :=
  let peerCutoff := u32 (now_ s - proposeFRESHNESS parms) in
  let ourCutoff := u32 (now_ s - proposeINTERVAL parms) in
  '(closeTimeVotes, s) ← each (check_fresh peerCutoff) (visit (currPeerPositions_ s)) ([], s);
  r ← deref (result_ s);
  let '(ds, ourNewSet) := vote_on_disputes s r in
  let r := with_disputes ds r in
  let '(consensusCloseTime, have) := closeTime_consensus s r closeTimeVotes in
  let s := set_closeTimeConsensus have (set_result (Some r) s) in
  let ourNewSet := match ourNewSet with
    | Some t => Some t
    | None => if negb (consensusCloseTime =? asCloseTime s (closeTime (r_position r))) || isStale ourCutoff (r_position r) then Some (txns r) else None
    end in
  match ourNewSet with Some t => adopt t consensusCloseTime s | None => Ok s end.

(** ** Consensus *)

Definition haveConsensus (a : Adaptor) (s : Round) : res (bool * Round) :=
  r ← deref (result_ s);
  let ourPosition := position (r_position r) in
  let agree := Z.of_nat (length (filter (fun it : Z * Proposal => position it.2 = ourPosition) (visit (currPeerPositions_ s)))) in
  let disagree := Z.of_nat (length (filter (fun it : Z * Proposal => position it.2 <> ourPosition) (visit (currPeerPositions_ s)))) in
  let currentFinished := proposersFinished a (previousLedger_ s) (prevLedgerID_ s) in
  let st := checkConsensus (prevProposers_ s) (agree + disagree) agree currentFinished (prevRoundTime_ s) (dur_ (roundTime r)) parms (bool_decide (mode_ s = Proposing)) in
  let s := set_result (Some (with_state st r)) s in
  Ok (match st with CS_No => false | _ => true end, s).

Definition phaseEstablish (a : Adaptor) (s : Round) : res Round :=
  r ← deref (result_ s);
  let r := with_proposers (Z.of_nat (size (currPeerPositions_ s))) (with_roundTime (timer_tick (clock a) (roundTime r)) r) in
  let s := set_result (Some r) s in
  let s := set_convergePercent (i32 (Z.quot (dur_ (roundTime r) * 100) (Z.max (prevRoundTime_ s) (avMIN_CONSENSUS_TIME parms)))) s in
  if dur_ (roundTime r) <? ledgerMIN_CONSENSUS parms then Ok s else
  s ← updateOurPositions s;
  pause ← shouldPause a s;
  if pause : bool then Ok s else
  '(have, s) ← haveConsensus a s;
  if negb have then Ok s else
  if negb (haveCloseTimeConsensus_ s) then Ok s else
  r ← deref (result_ s);
  let s := set_phase Accepted (set_prevRoundTime (dur_ (roundTime r)) (set_prevProposers (Z.of_nat (size (currPeerPositions_ s))) s)) in
  Ok (emit (Ev_accept false r (previousLedger_ s) (closeResolution_ s) (rawPeers_ s) (rawSelf_ s) (mode_ s)) s).

(** ** Rounds and changes of the ledger *)

Definition leaveConsensus (s : Round) : Round :=
  if bool_decide (mode_ s = Proposing) then
    let s := match result_ s with
             | Some r => if isBowOut (r_position r) then s else
                 let p := bowOut (now_ s) (r_position r) in emit (Ev_propose p) (set_result (Some (with_position p r)) s)
             | None => s
             end in
    set_mode Observing s
  else s.

Definition start_state (a : Adaptor) (now prevLedgerID : Z) (prevLedger : Ledger) (mode : ConsensusMode) (s : Round) : Round :=
  let s := set_mode mode (set_phase Open s) in
  mkRound (phase_ s) (mode_ s) (firstRound_ s) false 0 (timer_reset (clock a))
    (getNextLedgerTimeResolution (closeTimeResolution prevLedger) (closeAgree prevLedger) (u32 (lgr_seq prevLedger + 1)))
    (prevRoundTime_ s) now (prevCloseTime_ s) prevLedgerID prevLedger ∅ None [] 0 ∅ (recentPeerPositions_ s) (prevProposers_ s) ∅ (out_ s).

Definition startRoundInternal (timer : Z -> Round -> res Round) (a : Adaptor) (now prevLedgerID : Z) (prevLedger : Ledger) (mode : ConsensusMode) (s : Round) : res Round :=
  s ← playbackProposals a (start_state a now prevLedgerID prevLedger mode s);
  if prevProposers_ s / 2 <? Z.of_nat (size (currPeerPositions_ s)) then timer (now_ s) s else Ok s.

Definition clear_result (r : ConsensusResult) : ConsensusResult := with_compares ∅ (with_disputes ∅ r).

Definition handleWrongLedger (timer : Z -> Round -> res Round) (a : Adaptor) (lgrId : Z) (s : Round) : res Round :=
  let s := leaveConsensus s in
  s ← (if prevLedgerID_ s =? lgrId then Ok s else
       playbackProposals a (set_deadNodes ∅ (set_rawPeers [] (set_currPeerPositions ∅ (update_result clear_result (set_prevLedgerID lgrId s))))));
  if lgr_id (previousLedger_ s) =? prevLedgerID_ s then Ok s else
  match acquireLedger a (prevLedgerID_ s) with
  | Some newLedger => startRoundInternal timer a (now_ s) lgrId newLedger SwitchedLedger s
  | None => Ok (set_mode WrongLedger s)
  end.

Definition checkLedger (timer : Z -> Round -> res Round) (a : Adaptor) (s : Round) : res Round :=
  let netLgr := getPrevLedger a (prevLedgerID_ s) (previousLedger_ s) (mode_ s) in
  if negb (netLgr =? prevLedgerID_ s) then handleWrongLedger timer a netLgr s else
  if negb (lgr_id (previousLedger_ s) =? prevLedgerID_ s) then handleWrongLedger timer a netLgr s else Ok s.

Fixpoint timerEntry (fuel : nat) (a : Adaptor) (now : Z) (s : Round) : res Round :=
  match fuel with
  | O => Throw out_of_fuel
  | S fuel =>
      if bool_decide (phase_ s = Accepted) then Ok s else
      s ← checkLedger (timerEntry fuel a) a (set_now now s);
      match phase_ s with
      | Open => phaseOpen a s
      | Establish => phaseEstablish a s
      | Accepted => Ok s
      end
  end.

Definition startRound (fuel : nat) (a : Adaptor) (now prevLedgerID : Z) (prevLedger : Ledger) (nowUntrusted : gset Z) (proposing : bool) (s : Round) : res Round :=
  let s := if firstRound_ s then set_firstRound false (set_prevCloseTime (lgr_closeTime prevLedger) (set_prevRoundTime (ledgerIDLE_INTERVAL parms) s))
           else set_prevCloseTime (rawSelf_ s) s in
  let s := set_recentPeerPositions (foldr delete (recentPeerPositions_ s) (elements nowUntrusted)) s in
  let startMode := if proposing then Proposing else Observing in
  let '(prevLedger, startMode) :=
    if lgr_id prevLedger =? prevLedgerID then (prevLedger, startMode) else
    match acquireLedger a prevLedgerID with Some newLedger => (newLedger, startMode) | None => (prevLedger, WrongLedger) end in
  startRoundInternal (timerEntry fuel a) a now prevLedgerID prevLedger startMode s.

Definition simulate (a : Adaptor) (now : Z) (consensusDelay : option Z) (s : Round) : res Round :=
  s ← closeLedger a (set_now now s);
  r ← deref (result_ s);
  let n := Z.of_nat (size (currPeerPositions_ s)) in
  let r := with_proposers n (with_roundTime (timer_add (default 100 consensusDelay) (roundTime r)) r) in
  let s := set_phase Accepted (set_prevRoundTime (dur_ (roundTime r)) (set_prevProposers n (set_result (Some r) s))) in
  Ok (emit (Ev_accept true r (previousLedger_ s) (closeResolution_ s) (rawPeers_ s) (rawSelf_ s) (mode_ s)) s).

End Machine.

Arguments Round : clear implicits.
Arguments ConsensusResult : clear implicits.
Arguments Adaptor : clear implicits.
Arguments Event : clear implicits.
