(* ===== verification/RoundInv.v ===== *)
(** * What holds of every round of consensus

    The invariant of [Round]: disputes are exactly as the transaction sets at hand say,
    and every operation keeps this and does not fail; then what it takes for a ledger to
    be accepted. *)

From S2P Require Import Prelude Consensus Round.

(** ** Loops *)

Lemma each_inv {A S} (P : list A -> S -> Prop) (f : A -> S -> res S) l : forall s, P l s ->
  (forall a l s, P (a :: l) s -> exists s', f a s = Ok s' /\ P l s') -> exists s', each f l s = Ok s' /\ P [] s'.
Proof.
  induction l as [|a l IH]; intros s HP Hf; [by exists s|]. destruct (Hf a l s HP) as (s' & E & HP'). cbn [each]. rewrite E. cbn [mbind res_bind]. by apply IH.
Qed.

Lemma each_keeps {A S} (P : S -> Prop) (f : A -> S -> res S) l : (forall a s, P s -> exists s', f a s = Ok s' /\ P s') ->
  forall s, P s -> exists s', each f l s = Ok s' /\ P s'.
Proof. intros Hf s HP. apply (each_inv (fun _ => P)); [done|]. intros a _ s0 H0. by apply Hf. Qed.

Section Inv.
Context {T X : Type} `{TxSetLaws T X}.
Implicit Types (s : Round T X) (r : ConsensusResult T X) (t o : T) (curr : gmap Z Proposal) (acq : gmap Z T).

Variable parms : ConsensusParms.
Variable order : forall A, list (Z * A) -> list (Z * A).
Hypothesis order_perm : forall A (l : list (Z * A)), order A l ≡ₚ l.

Lemma visit_in {A} (m : gmap Z A) k v : (k, v) ∈ visit order m <-> m !! k = Some v.
Proof. unfold visit. rewrite order_perm. apply elem_of_map_to_list. Qed.

Lemma visit_nodup {A} (m : gmap Z A) : NoDup (visit order m).*1.
Proof. unfold visit. rewrite order_perm. apply NoDup_fst_map_to_list. Qed.

(** ** The invariant *)

(** What the disputes say. A dispute is about one transaction; its tallies count its
    votes; our vote is our set's; only current peers vote, and a peer whose set is at
    hand votes as its set says, unless it is in [E]. Where our set differs from one it
    was compared with, there is a dispute, or one is about to be made for a transaction
    in [L]. The set of a peer that is not in [Y] has been compared when it is at hand.
    And a dispute is about a transaction on which two sets at hand differ, one of which
    was compared with ours. *)
Definition contested acq r i : Prop := exists j t j' t', j ∈ compares r /\ acq !! j = Some t /\ acq !! j' = Some t' /\ set_exists t i <> set_exists t' i.

Record debate (E Y : gset Z) (L : list Z) curr acq r : Prop := {
  db_dispute i tx d : disputes r !! i = Some (tx, d) -> tx_id tx = i /\ dispute_ok d /\ ourVote d = set_exists (txns r) i /\
    (forall n v, votes d !! n = Some v -> is_Some (curr !! n)) /\
    (forall n p t, n ∉ E -> curr !! n = Some p -> acq !! position p = Some t -> votes d !! n = Some (set_exists t i));
  db_compared i : i ∈ compares r -> exists t, acq !! i = Some t /\ forall x, set_exists (txns r) x <> set_exists t x -> x ∈ L \/ is_Some (disputes r !! x);
  db_peers n p : n ∉ Y -> curr !! n = Some p -> is_Some (acq !! position p) -> position p ∈ compares r;
  db_origin i : is_Some (disputes r !! i) -> contested acq r i }.

Definition acquired_ok acq : Prop := forall i t, acq !! i = Some t -> set_id t = i.

(** The result of a step that only makes and votes on disputes. *)
Definition debated s s' : Prop :=
  exists r ds cs es, result_ s = Some r /\ s' = set_out (es ++ out_ s) (set_result (Some (with_compares cs (with_disputes ds r))) s).

Lemma debated_refl s r : result_ s = Some r -> debated s s.
Proof. intros Hr. exists r, (disputes r), (compares r), []. split; [done|]. destruct s; cbn in *. subst. by destruct r. Qed.

Lemma debated_trans s1 s2 s3 : debated s1 s2 -> debated s2 s3 -> debated s1 s3.
Proof.
  intros (r & ds & cs & es & Hr & ->) (r' & ds' & cs' & es' & Hr' & ->). cbn in Hr'. injection Hr' as <-.
  exists r, ds', cs', (es' ++ es). split; [done|]. cbn. by rewrite <-app_assoc.
Qed.

(** *** Making disputes *)

Lemma peer_votes s i (l : list (Z * Proposal)) : NoDup l.*1 -> forall d, dispute_ok d ->
  let d' := foldl (fun d pit => peer_vote s i pit d) d l in
  dispute_ok d' /\ ourVote d' = ourVote d /\ (forall n v, votes d' !! n = Some v -> votes d !! n = Some v \/ n ∈ l.*1) /\
  (forall n p t, (n, p) ∈ l -> acquired_ s !! position p = Some t -> votes d' !! n = Some (set_exists t i)) /\
  (forall n, n ∉ l.*1 -> votes d' !! n = votes d !! n).
Proof.
  induction l as [|[n0 p0] l IH]; intros Hnd d Hd; cbn zeta; cbn [foldl].
  { split_and!; [done..|by left|by intros n p t []%not_elem_of_nil|done]. }
  apply NoDup_cons in Hnd as [Hn0 Hnd]. cbn [fst] in Hn0.
  assert (Hv : dispute_ok (peer_vote s i (n0, p0) d) /\ ourVote (peer_vote s i (n0, p0) d) = ourVote d /\
    votes (peer_vote s i (n0, p0) d) = match acquired_ s !! position p0 with Some t => <[n0 := set_exists t i]> (votes d) | None => votes d end).
  { unfold peer_vote. cbn. destruct (acquired_ s !! position p0); [by apply setVote_spec|done]. }
  destruct Hv as (H1 & H2 & H3). destruct (IH Hnd _ H1) as (H4 & H5 & H6 & H7 & H8). split_and!; [done|congruence|..].
  - intros n v Hn. destruct (H6 n v Hn) as [Hn'|Hn']; [|right; by right]. rewrite H3 in Hn'.
    destruct (acquired_ s !! position p0); [|by left]. apply lookup_insert_Some in Hn' as [[<- _]|[_ Hn']]; [right; left|by left].
  - intros n p t Hin Ht. apply elem_of_cons in Hin as [[= -> ->]|Hin]; [|by apply (H7 n p)].
    rewrite (H8 n0 Hn0), H3, Ht. apply lookup_insert_eq.
  - intros n [Hne Hn]%not_elem_of_cons. rewrite (H8 n Hn), H3. destruct (acquired_ s !! position p0); [|done].
    rewrite lookup_insert_ne; done.
Qed.

Lemma create_dispute_ok E Y L o i b s r : result_ s = Some r -> debate E Y (i :: L) (currPeerPositions_ s) (acquired_ s) r ->
  In (i, b) (set_compare (txns r) o) -> contested (acquired_ s) r i -> exists s' r', create_dispute order o (i, b) s = Ok s' /\ debated s s' /\ result_ s' = Some r' /\
    txns r' = txns r /\ compares r' = compares r /\ debate E Y L (currPeerPositions_ s') (acquired_ s') r'.
Proof.
  intros Hr HD Hin Hcon. apply compare_differs in Hin as [Hb Hob]. unfold create_dispute. rewrite Hr. cbn [deref mbind res_bind fst snd].
  assert (Hf : exists x, (if b then set_find (txns r) i else set_find o i) = Some x /\ tx_id x = i).
  { destruct b; [by apply exists_find|]. by apply exists_find. }
  destruct Hf as (x & -> & Hx). cbn [deref mbind res_bind]. rewrite Hx.
  destruct (disputes r !! i) as [[x' d]|] eqn:Ei.
  { exists s, r. split_and!; [done|by apply (debated_refl s r)|done..|]. destruct HD as [H1 H2 H3 H4]. constructor; [done| |done|done].
    intros j Hj. destruct (H2 j Hj) as (t & Ht & Hd). exists t. split; [done|]. intros y Hy.
    destruct (Hd y Hy) as [[->|?]%elem_of_cons|?]; [right; by rewrite Ei|by left|by right]. }
  set (d := foldl _ _ _). destruct (peer_votes s i (visit order (currPeerPositions_ s)) (visit_nodup _) (dispute (set_exists (txns r) i))) as (V1 & V2 & V3 & V4 & V5); [done|].
  fold d in V1, V2, V3, V4, V5.
  eexists _, (with_disputes (<[i := (x, d)]> (disputes r)) r). split_and!; [done| |done..|].
  - exists r, (<[i := (x, d)]> (disputes r)), (compares r), [Ev_share_tx x]. split; [done|]. destruct s; cbn in *; by destruct r.
  - destruct HD as [H1 H2 H3 H4]. constructor; cbn.
    + intros j tx d0 [[<- [= <- <-]]|[Hne Hj]]%lookup_insert_Some; [|by apply H1].
      split_and!; [done..| |].
      * intros n v Hn. destruct (V3 n v Hn) as [Hn'|Hn']; [done|]. apply list_elem_of_fmap in Hn' as ([n' p] & -> & Hp). apply visit_in in Hp. cbn. by rewrite Hp.
      * intros n p t _ Hp Ht. apply (V4 n p t); [by apply visit_in|done].
    + intros j Hj. destruct (H2 j Hj) as (t & Ht & Hd). exists t. split; [done|]. intros y Hy. destruct (Hd y Hy) as [[->|?]%elem_of_cons|?].
      * right. by rewrite lookup_insert_eq.
      * by left.
      * right. destruct (decide (i = y)) as [->|]; [by rewrite lookup_insert_eq|by rewrite lookup_insert_ne].
    + done.
    + intros j Hj. destruct (decide (i = j)) as [<-|Hne]; [done|]. rewrite lookup_insert_ne in Hj by done. by apply H4.
Qed.

Lemma debated_curr s s' : debated s s' -> currPeerPositions_ s' = currPeerPositions_ s /\ acquired_ s' = acquired_ s.
Proof. by intros (r & ds & cs & es & _ & ->). Qed.

Lemma debate_weaken E E' Y Y' L curr acq r : debate E Y L curr acq r -> E ⊆ E' ->
  (forall n p, n ∉ Y' -> n ∈ Y -> curr !! n = Some p -> is_Some (acq !! position p) -> position p ∈ compares r) -> debate E' Y' L curr acq r.
Proof.
  intros [H1 H2 H3 H4] HE HY. constructor; [|done| |done].
  - intros i tx d Hi. destruct (H1 i tx d Hi) as (? & ? & ? & ? & Hv). split_and!; [done..|]. intros n p t Hn. apply Hv. set_solver.
  - intros n p Hn Hp Ha. destruct (decide (n ∈ Y)); [by apply (HY n p)|by apply (H3 n p)].
Qed.

Lemma createDisputes_ok E Y o s r : result_ s = Some r -> acquired_ok (acquired_ s) -> is_Some (acquired_ s !! set_id (txns r)) -> is_Some (acquired_ s !! set_id o) ->
  debate E Y [] (currPeerPositions_ s) (acquired_ s) r -> exists s' r', createDisputes order o s = Ok s' /\ debated s s' /\ result_ s' = Some r' /\
    txns r' = txns r /\ set_id o ∈ compares r' /\ debate E Y [] (currPeerPositions_ s) (acquired_ s) r'.
Proof.
  intros Hr Hacq [t0 Ht0] [t Ht] HD. unfold createDisputes. rewrite Hr. cbn [deref mbind res_bind].
  case_bool_decide as Hin; [exists s, r; split_and!; by try apply (debated_refl s r)|].
  pose proof (id_contents t o (Hacq _ _ Ht)) as Hto. pose proof (id_contents t0 (txns r) (Hacq _ _ Ht0)) as Hto0.
  set (r1 := with_compares _ r). set (s1 := set_result (Some r1) s).
  assert (D1 : debated s s1). { exists r, (disputes r), ({[set_id o]} ∪ compares r), []. split; [done|]. destruct s; cbn in *; by destruct r. }
  assert (HD1 : debate E Y (map fst (set_compare (txns r) o)) (currPeerPositions_ s) (acquired_ s) r1).
  { destruct HD as [H1 H2 H3 H4]. constructor; cbn; [done| |intros n p ? ? ?; set_solver|intros i Hi; destruct (H4 i Hi) as (j & t1 & j' & t2 & ? & ?); exists j, t1, j', t2; set_solver].
    intros i [->%elem_of_singleton|Hi]%elem_of_union.
    - exists t. split; [done|]. intros x Hx. rewrite Hto in Hx. left. apply list_elem_of_fmap. exists (x, set_exists (txns r) x). split; [done|].
      apply list_elem_of_In, compare_differs. split; [done|]. by destruct (set_exists (txns r) x), (set_exists o x).
    - destruct (H2 i Hi) as (t' & Ht' & Hd). exists t'. split; [done|]. intros x Hx. destruct (Hd x Hx) as [[]%not_elem_of_nil|?]. by right. }
  destruct (Z.eqb_spec (set_id (txns r)) (set_id o)) as [Hid|Hid].
  { exists s1, r1. split_and!; [done..|cbn; set_solver|]. destruct HD1 as [H1 H2 H3 H4]. constructor; [done| |done|done].
    intros i Hi. destruct (H2 i Hi) as (t' & Ht' & Hd). exists t'. split; [done|]. intros x Hx. destruct (Hd x Hx) as [Hx'|?]; [|by right].
    exfalso. apply list_elem_of_fmap in Hx' as ([x' b] & -> & Hx'%list_elem_of_In%compare_differs). cbn in Hx'.
    rewrite (id_contents _ _ Hid) in Hx'. destruct b, (set_exists o x'); naive_solver. }
  destruct (each_inv (fun l s' => exists r', debated s s' /\ result_ s' = Some r' /\ txns r' = txns r /\ set_id o ∈ compares r' /\
    (forall ib, In ib l -> In ib (set_compare (txns r) o)) /\ debate E Y (map fst l) (currPeerPositions_ s) (acquired_ s) r') (create_dispute order o) (set_compare (txns r) o) s1) as (s' & Hs' & r' & ? & ? & ? & ? & _ & ?).
  - exists r1. split_and!; [done..|cbn; set_solver|done|done].
  - intros [i b] l s2 (r2 & D2 & Hr2 & Htx & Hc & Hl & HD2). destruct (debated_curr _ _ D2) as [Ec Ea]. rewrite <-Ec, <-Ea in HD2.
    destruct (create_dispute_ok E Y (map fst l) o i b s2 r2 Hr2) as (s3 & r3 & -> & D3 & Hr3 & Htx3 & Hc3 & HD3); [exact HD2|rewrite Htx; apply Hl; by left| |].
    { rewrite Ea. exists (set_id o), t, (set_id (txns r)), t0. split_and!; [done..|]. rewrite Hto, Hto0. destruct (proj1 (compare_differs _ _ _ _) (Hl (i, b) ltac:(by left))) as [-> ->]. by destruct b. }
    destruct (debated_curr _ _ D3) as [Ec3 Ea3]. rewrite Ec3, Ea3, Ec, Ea in HD3. exists s3. split; [done|]. exists r3.
    split_and!; [by apply (debated_trans _ s2)|done|congruence|by rewrite Hc3|intros ? ?; apply Hl; by right|done].
  - by exists s', r'.
Qed.

(** *** Voting on disputes *)

Lemma updateDisputes_ok E Y node o p s r : result_ s = Some r -> acquired_ok (acquired_ s) -> is_Some (acquired_ s !! set_id (txns r)) -> acquired_ s !! set_id o = Some o ->
  currPeerPositions_ s !! node = Some p -> position p = set_id o -> debate E Y [] (currPeerPositions_ s) (acquired_ s) r ->
  exists s' r', updateDisputes order node o s = Ok s' /\ debated s s' /\ result_ s' = Some r' /\ txns r' = txns r /\
    debate (E ∖ {[node]}) (Y ∖ {[node]}) [] (currPeerPositions_ s) (acquired_ s) r'.
Proof.
  intros Hr Hacq Hown Ho Hnode Hpos HD. unfold updateDisputes. rewrite Hr. cbn [deref mbind res_bind].
  assert (Hc : exists s1 r1, (if bool_decide (set_id o ∈ compares r) then Ok s else createDisputes order o s) = Ok s1 /\ debated s s1 /\ result_ s1 = Some r1 /\
    txns r1 = txns r /\ set_id o ∈ compares r1 /\ debate E Y [] (currPeerPositions_ s) (acquired_ s) r1).
  { case_bool_decide; [exists s, r; split_and!; by try apply (debated_refl s r)|]. apply createDisputes_ok; done. }
  destruct Hc as (s1 & r1 & -> & D1 & Hr1 & Htx & Hin & [H1 H2 H3 H4]). cbn [mbind res_bind]. rewrite Hr1. cbn [deref mbind res_bind].
  set (ds := _ <$> disputes r1). exists (set_result (Some (with_disputes ds r1)) s1), (with_disputes ds r1). split_and!; [done| |done..|].
  { eapply debated_trans; [exact D1|]. exists r1, ds, (compares r1), []. split; [done|]. destruct s1; cbn in *; by destruct r1. }
  constructor; cbn.
  - intros i tx d Hi. unfold ds in Hi. rewrite lookup_fmap in Hi. destruct (disputes r1 !! i) as [[tx0 d0]|] eqn:E0; [|done]. injection Hi as <- <-.
    destruct (H1 i tx0 d0 E0) as (Htx0 & Hok & Hv & Hc & Hp). cbn [fst snd]. rewrite Htx0.
    destruct (setVote_spec node (set_exists o i) d0 Hok) as (K1 & K2 & K3). split_and!; [done..|congruence| |].
    + intros n v Hn. rewrite K3 in Hn. apply lookup_insert_Some in Hn as [[<- _]|[_ Hn]]; [by rewrite Hnode|by apply (Hc n v)].
    + intros n p' t Hn Hp' Ht. rewrite K3. destruct (decide (node = n)) as [<-|Hne].
      * rewrite lookup_insert_eq. assert (p' = p) as -> by congruence. rewrite Hpos, Ho in Ht. by injection Ht as <-.
      * rewrite lookup_insert_ne by done. apply (Hp n p' t); [set_solver|done..].
  - intros i Hi. destruct (H2 i Hi) as (t & Ht & Hd). exists t. split; [done|]. intros x Hx. destruct (Hd x Hx) as [?|Hx']; [by left|right].
    unfold ds. rewrite lookup_fmap. destruct Hx' as [y ->]. by eexists.
  - intros n p' Hn Hp' Ha. destruct (decide (n = node)) as [->|]; [|apply (H3 n p'); set_solver]. assert (p' = p) as -> by congruence. by rewrite Hpos.
  - intros i Hi. apply (H4 i). unfold ds in Hi. rewrite lookup_fmap in Hi. by destruct (disputes r1 !! i).
Qed.

(** ** The state of a round *)

Definition own_ok acq r : Prop := set_id (txns r) = position (r_position r) /\ is_Some (acq !! set_id (txns r)).

Record round_okE (E Y : gset Z) s : Prop := {
  ok_phase : match phase_ s with Open => result_ s = None | Establish => is_Some (result_ s) | Accepted => True end;
  ok_curr n p : currPeerPositions_ s !! n = Some p -> nodeID p = n /\ previousLedger p = prevLedgerID_ s /\ isBowOut p = false /\ n ∉ deadNodes_ s;
  ok_acquired : acquired_ok (acquired_ s);
  ok_result r : result_ s = Some r -> own_ok (acquired_ s) r /\ debate E Y [] (currPeerPositions_ s) (acquired_ s) r }.

Abbreviation round_ok := (round_okE ∅ ∅).

(** A step on the disputes changes nothing else. *)
Lemma debated_ok E Y E' Y' s s' r' : round_okE E Y s -> debated s s' -> result_ s' = Some r' -> txns r' = txns (default r' (result_ s)) ->
  debate E' Y' [] (currPeerPositions_ s) (acquired_ s) r' -> round_okE E' Y' s'.
Proof.
  intros [H1 H2 H3 H4] (r & ds & cs & es & Hr & ->) Hr' Htx HD. cbn in Hr'. injection Hr' as <-. rewrite Hr in Htx, H1. constructor; cbn; [|done..|].
  - destruct (phase_ s); [done|by eexists|done].
  - intros r0 [= <-]. split; [|done]. apply (H4 r Hr).
Qed.

(** Fields that the invariant does not speak of. *)
Lemma ok_frame E Y s s' : phase_ s' = phase_ s -> currPeerPositions_ s' = currPeerPositions_ s -> acquired_ s' = acquired_ s ->
  prevLedgerID_ s' = prevLedgerID_ s -> deadNodes_ s' = deadNodes_ s -> result_ s' = result_ s -> round_okE E Y s -> round_okE E Y s'.
Proof. intros E1 E2 E3 E4 E5 E6 [H1 H2 H3 H4]. constructor; rewrite ?E1, ?E2, ?E3, ?E4, ?E5, ?E6; auto. Qed.

Lemma updateDisputes_round E Y node o p s : round_okE E Y s -> is_Some (result_ s) -> acquired_ s !! set_id o = Some o ->
  currPeerPositions_ s !! node = Some p -> position p = set_id o ->
  exists s', updateDisputes order node o s = Ok s' /\ debated s s' /\ round_okE (E ∖ {[node]}) (Y ∖ {[node]}) s'.
Proof.
  intros Hs [r Hr] Ho Hn Hp. destruct (ok_result _ _ _ Hs r Hr) as [[_ Hown] HD].
  destruct (updateDisputes_ok E Y node o p s r) as (s' & r' & -> & D & Hr' & Htx & HD'); try done; [apply (ok_acquired _ _ _ Hs)|].
  exists s'. split; [done|]. split; [done|]. eapply debated_ok; try done. by rewrite Hr.
Qed.

(** ** Positions of the peers *)

(** What the code relies on of the adaptor. *)
Definition adaptor_ok (a : Adaptor T) : Prop :=
  (forall i t, acquireTxSet a i = Some t -> set_id t = i) /\ (forall l now m, set_id (onClose a l now m).1 = position (onClose a l now m).2).

(** What the steps on the peers' positions leave alone. *)
Definition peers_only s s' : Prop :=
  phase_ s' = phase_ s /\ mode_ s' = mode_ s /\ prevLedgerID_ s' = prevLedgerID_ s /\ previousLedger_ s' = previousLedger_ s /\
  firstRound_ s' = firstRound_ s /\ prevProposers_ s' = prevProposers_ s /\ recentPeerPositions_ s' = recentPeerPositions_ s.

#[local] Instance peers_only_refl : Reflexive peers_only.
Proof. by intros s. Qed.
#[local] Instance peers_only_trans : Transitive peers_only.
Proof. intros s1 s2 s3 (?&?&?&?&?&?&?) (?&?&?&?&?&?&?). unfold peers_only. split_and!; congruence. Qed.

Lemma debated_peers s s' : debated s s' -> peers_only s s'.
Proof. by intros (r & ds & cs & es & _ & ->). Qed.

Lemma round_ok_mono E Y E' Y' s : E ⊆ E' -> Y ⊆ Y' -> round_okE E Y s -> round_okE E' Y' s.
Proof.
  intros HE HY [H1 H2 H3 H4]. constructor; [done..|]. intros r Hr. destruct (H4 r Hr) as [Ho HD]. split; [done|].
  eapply debate_weaken; [exact HD|done|]. intros n p Hn Hn'. set_solver.
Qed.

(** The peers of a list that propose a set. *)
Definition at_set (id : Z) (l : list (Z * Proposal)) : gset Z := list_to_set (filter (fun it : Z * Proposal => position it.2 = id) l).*1.

(** Each peer that proposes a set at hand votes in turn. *)
Lemma vote_loop t f l s : acquired_ s !! set_id t = Some t -> is_Some (result_ s) -> (forall it, it ∈ l -> currPeerPositions_ s !! it.1 = Some it.2) ->
  (forall it s', debated s s' -> f it s' = if position it.2 =? set_id t then updateDisputes order it.1 t s' else Ok s') ->
  round_okE (at_set (set_id t) l) (at_set (set_id t) l) s -> exists s', each f l s = Ok s' /\ debated s s' /\ round_ok s'.
Proof.
  intros Ht [r Hr] Hl Hf Hs.
  destruct (each_inv (fun l' s' => debated s s' /\ (forall it, it ∈ l' -> currPeerPositions_ s !! it.1 = Some it.2) /\ round_okE (at_set (set_id t) l') (at_set (set_id t) l') s') f l s)
    as (s' & ? & ? & _ & ?); [split_and!; [by apply (debated_refl s r)|done..]| |by exists s'].
  intros [n p] l' s1 (D & Hl' & H1). destruct (debated_curr _ _ D) as [Ec Ea]. rewrite (Hf _ _ D). cbn [fst snd].
  assert (Hn : currPeerPositions_ s1 !! n = Some p) by (rewrite Ec; apply (Hl' (n, p)); left).
  assert (Hl'' : forall it, it ∈ l' -> currPeerPositions_ s !! it.1 = Some it.2) by (intros it ?; apply Hl'; by right).
  unfold at_set in H1. rewrite filter_cons in H1. cbn [snd] in H1. destruct (Z.eqb_spec (position p) (set_id t)) as [Hp|Hp].
  - rewrite decide_True in H1 by done. cbn [fmap list_fmap list_to_set fst] in H1.
    destruct (updateDisputes_round _ _ n t p s1 H1) as (s2 & -> & D2 & H2); [|by rewrite Ea|done..|].
    { destruct D as (r0 & ds & cs & es & _ & ->). by eexists. }
    exists s2. split; [done|]. split_and!; [by eapply debated_trans|done|]. eapply round_ok_mono; [| |exact H2]; unfold at_set; set_solver.
  - rewrite decide_False in H1 by done. by exists s1.
Qed.

(** A set comes to hand: only the peers that propose it have to vote. *)
Lemma debate_acquire t curr acq r : acq !! set_id t = None -> debate ∅ ∅ [] curr acq r ->
  let Q := at_set (set_id t) (visit order curr) in debate Q Q [] curr (<[set_id t := t]> acq) r.
Proof.
  intros Ha [D1 D2 D3 D4] Q.
  assert (HQ : forall n p, curr !! n = Some p -> n ∉ Q -> set_id t <> position p).
  { intros n p Hp Hn Heq. apply Hn. unfold Q, at_set. apply elem_of_list_to_set, list_elem_of_fmap. exists (n, p). split; [done|].
    apply list_elem_of_filter. split; [done|by apply visit_in]. }
  constructor.
  - intros i tx d Hi. destruct (D1 i tx d Hi) as (? & ? & ? & ? & Hv). split_and!; [done..|]. intros n p t' Hn Hp Ht'.
    rewrite lookup_insert_ne in Ht' by by apply (HQ n p). apply (Hv n p t'); [set_solver|done..].
  - intros i Hi. destruct (D2 i Hi) as (t' & Ht' & ?). exists t'. split; [|done]. rewrite lookup_insert_ne; [done|]. congruence.
  - intros n p Hn Hp Hsome. rewrite lookup_insert_ne in Hsome by by apply (HQ n p). apply (D3 n p); [set_solver|done..].
  - intros i Hi. destruct (D4 i Hi) as (j & t1 & j' & t2 & ? & ? & ? & ?). exists j, t1, j', t2. rewrite !lookup_insert_ne by congruence. done.
Qed.

Lemma acquired_insert t acq : acquired_ok acq -> acquired_ok (<[set_id t := t]> acq).
Proof. intros Ha i t' [[<- <-]|[_ Ht]]%lookup_insert_Some; [done|by apply Ha]. Qed.

Lemma gotTxSet_ok now t s : round_ok s -> exists s', gotTxSet order now t s = Ok s' /\ peers_only s s' /\ round_ok s'.
Proof.
  intros Hs. unfold gotTxSet. case_bool_decide as Hph; [by exists s|].
  assert (Hs0 : round_ok (set_now now s)) by (by apply (ok_frame _ _ s)).
  case_bool_decide as Ha; [by exists (set_now now s)|]. set (s0 := set_now now s) in *. apply eq_None_not_Some in Ha.
  set (s1 := set_acquired _ s0). set (Q := at_set (set_id t) (visit order (currPeerPositions_ s0))).
  assert (Hs1 : round_okE Q Q s1).
  { destruct Hs0 as [H1 H2 H3 H4]. constructor; cbn; [done..|by apply acquired_insert|].
    intros r Hr. destruct (H4 r Hr) as [[Ho1 Ho2] HD]. split; [split; [done|]|by apply debate_acquire].
    destruct (decide (set_id t = set_id (txns r))) as [->|]; [by rewrite lookup_insert_eq|by rewrite lookup_insert_ne]. }
  destruct (result_ s1) as [r|] eqn:Hr.
  - destruct (vote_loop t (fun it s => if position it.2 =? set_id t then updateDisputes order it.1 t s else Ok s) (visit order (currPeerPositions_ s1)) s1)
      as (s2 & -> & D & H2); [apply lookup_insert_eq|by rewrite Hr|intros [n p] Hin; by apply visit_in in Hin|done|exact Hs1|].
    exists s2. split_and!; [done| |done]. transitivity s1; [done|by apply debated_peers].
  - exists s1. split_and!; [done..|]. destruct Hs1 as [H1 H2 H3 H4]. constructor; [done..|]. intros r' Hr'. congruence.
Qed.

Lemma unvote_debate n curr acq r : debate ∅ ∅ [] curr acq r -> debate ∅ ∅ [] (delete n curr) acq (unvote_all n r).
Proof.
  intros [H1 H2 H3 H4]. constructor; cbn.
  - intros i tx d Hi. rewrite lookup_fmap in Hi. destruct (disputes r !! i) as [[tx0 d0]|] eqn:E0; [|done]. injection Hi as <- <-.
    destruct (H1 i tx0 d0 E0) as (? & Hok & ? & Hc & Hp). cbn [fst snd]. destruct (unVote_spec n d0 Hok) as (K1 & K2 & K3). split_and!; [done..|congruence| |].
    + intros m v Hm. rewrite K3 in Hm. apply lookup_delete_Some in Hm as [Hne Hm]. rewrite lookup_delete_ne by done. by apply (Hc m v).
    + intros m p t Hm [Hne Hp']%lookup_delete_Some Ht. rewrite K3, lookup_delete_ne by done. by apply (Hp m p t).
  - intros i Hi. destruct (H2 i Hi) as (t & Ht & Hd). exists t. split; [done|]. intros x Hx. destruct (Hd x Hx) as [?|[y Hy]]; [by left|right].
    rewrite lookup_fmap, Hy. by eexists.
  - intros m p Hm [_ Hp]%lookup_delete_Some. by apply (H3 m p).
  - intros i Hi. apply (H4 i). rewrite lookup_fmap in Hi. by destruct (disputes r !! i).
Qed.

Lemma take_position_ok a p s : adaptor_ok a -> round_ok s -> phase_ s <> Accepted -> previousLedger p = prevLedgerID_ s -> nodeID p ∉ deadNodes_ s ->
  exists s', take_position order a p s = Ok s' /\ peers_only s s' /\ round_ok s'.
Proof.
  intros [Ha _] Hs Hph Hp Hd. unfold take_position. destruct (isBowOut p) eqn:Hb.
  { eexists. split; [done|]. split; [done|]. destruct Hs as [H1 H2 H3 H4]. constructor; cbn.
    - destruct (phase_ s), (result_ s) as [r|]; done.
    - intros n q [Hne Hq]%lookup_delete_Some. destruct (H2 n q Hq) as (? & ? & ? & ?). split_and!; [done..|]. set_solver.
    - done.
    - intros r' Hr'. destruct (result_ s) as [r|]; [|done]. injection Hr' as <-. destruct (H4 r eq_refl) as [? HD]. split; [done|by apply unvote_debate]. }
  set (s1 := set_currPeerPositions _ s). set (s2 := if isInitial p then _ else s1).
  assert (Hs2 : peers_only s s2 /\ acquired_ s2 = acquired_ s /\ result_ s2 = result_ s /\ currPeerPositions_ s2 = <[nodeID p := p]> (currPeerPositions_ s) /\ deadNodes_ s2 = deadNodes_ s).
  { unfold s2. by destruct (isInitial p). }
  destruct Hs2 as (HP & Eacq & Eres & Ecurr & Edead). rewrite Eacq, Eres.
  assert (Hok : round_okE (if acquired_ s !! position p then {[nodeID p]} else ∅) (if acquired_ s !! position p then {[nodeID p]} else ∅) s2).
  { destruct Hs as [H1 H2 H3 H4]. destruct HP as (E1 & _ & E2 & _). constructor; rewrite ?E1, ?E2, ?Eacq, ?Eres, ?Ecurr, ?Edead; [done| |done|].
    - intros n q [[<- <-]|[_ Hq]]%lookup_insert_Some; [done|by apply H2].
    - intros r Hr. destruct (H4 r Hr) as [Ho [D1 D2 D3 D4]]. split; [done|]. constructor; [|done| |done].
      + intros i tx d Hi. destruct (D1 i tx d Hi) as (? & ? & ? & Hc & Hv). split_and!; [done..| |].
        * intros n v Hn. destruct (decide (nodeID p = n)) as [->|]; [by rewrite lookup_insert_eq|rewrite lookup_insert_ne by done; by apply (Hc n v)].
        * intros n q t Hn [[<- <-]|[_ Hq]]%lookup_insert_Some Ht; [rewrite Ht in Hn; set_solver|apply (Hv n q t); [set_solver|done..]].
      + intros n q Hn [[<- <-]|[_ Hq]]%lookup_insert_Some Ht; [destruct Ht as [t Ht]; rewrite Ht in Hn; set_solver|apply (D3 n q); [set_solver|done..]]. }
  destruct (acquired_ s !! position p) as [t|] eqn:Et.
  - destruct (result_ s) as [r|] eqn:Er.
    + pose proof (ok_acquired _ _ _ Hs _ _ Et) as Hid.
      destruct (updateDisputes_round _ _ (nodeID p) t p s2 Hok) as (s3 & -> & D3 & H3); [by rewrite Eres|by rewrite Eacq, Hid|rewrite Ecurr; apply lookup_insert_eq|done|].
      exists s3. split_and!; [done|transitivity s2; [done|by apply debated_peers]|]. eapply round_ok_mono; [| |exact H3]; set_solver.
    + exists s2. split_and!; [done..|]. destruct Hok as [H1 H2 H3 H4]. constructor; [done..|]. intros r' Hr'. congruence.
  - destruct (acquireTxSet a (position p)) as [t|] eqn:Eq; [|by exists s2].
    destruct (gotTxSet_ok (now_ s2) t s2 Hok) as (s3 & -> & P3 & H3). exists s3. split_and!; [done|by transitivity s2|done].
Qed.

Lemma peerProposalInternal_ok a now p s : adaptor_ok a -> round_ok s ->
  exists b s', peerProposalInternal order a now p s = Ok (b, s') /\ peers_only s s' /\ round_ok s'.
Proof.
  intros Ha Hs. unfold peerProposalInternal. case_bool_decide as Hph; [by exists false, s|].
  assert (Hs0 : round_ok (set_now now s)) by (by apply (ok_frame _ _ s)).
  destruct (Z.eqb_spec (previousLedger p) (prevLedgerID_ (set_now now s))) as [Hp|]; cbn [negb]; [|by eexists _, _].
  case_bool_decide as Hd; [by eexists _, _|].
  destruct (match currPeerPositions_ _ !! nodeID p with Some _ => _ | None => _ end); [by eexists _, _|].
  destruct (take_position_ok a p (set_now now s) Ha Hs0) as (s' & -> & HP & H'); [done..|]. by eexists true, s'.
Qed.

Lemma peerProposal_ok a now p s : adaptor_ok a -> round_ok s -> exists b s', peerProposal order a now p s = Ok (b, s') /\ phase_ s' = phase_ s /\ round_ok s'.
Proof.
  intros Ha Hs. unfold peerProposal. set (s1 := set_recentPeerPositions _ s). destruct (peerProposalInternal_ok a now p s1 Ha) as (b & s' & ? & HP & ?); [by apply (ok_frame _ _ s)|].
  exists b, s'. split_and!; [done|apply HP|done].
Qed.

Lemma playback_ok a p s : adaptor_ok a -> round_ok s -> exists s', playback order a p s = Ok s' /\ peers_only s s' /\ round_ok s'.
Proof.
  intros Ha Hs. unfold playback. destruct (previousLedger p =? prevLedgerID_ s); [|by exists s].
  destruct (peerProposalInternal_ok a (now_ s) p s Ha Hs) as (b & s' & -> & HP & H'). cbn [mbind res_bind]. destruct b; [|by exists s'].
  exists (emit (Ev_share_position p) s'). split_and!; [done|done|by apply (ok_frame _ _ s')].
Qed.

Lemma playbackProposals_ok a s : adaptor_ok a -> round_ok s -> exists s', playbackProposals order a s = Ok s' /\ peers_only s s' /\ round_ok s'.
Proof.
  intros Ha Hs. unfold playbackProposals. apply (each_keeps (fun s' => peers_only s s' /\ round_ok s')); [|done].
  intros [n l] s1 H1. apply (each_keeps (fun s' => peers_only s s' /\ round_ok s')); [|done].
  intros p s2 [P2 H2]. destruct (playback_ok a p s2 Ha H2) as (s3 & ? & P3 & ?). exists s3. split_and!; [done|by transitivity s2|done].
Qed.

(** ** Closing the ledger *)

Lemma closeLedger_ok a s : adaptor_ok a -> round_ok s -> exists s', closeLedger order a s = Ok s' /\ phase_ s' = Establish /\ round_ok s'.
Proof.
  intros [_ Ha] Hs. unfold closeLedger. set (s0 := set_rawSelf _ _).
  pose proof (Ha (previousLedger_ s0) (now_ s0) (mode_ s0)) as Hc. destruct (onClose a _ _ _) as [t p]. cbn [fst snd] in Hc.
  set (s1 := set_result _ s0). set (s2 := if bool_decide (is_Some _) then _ else _). set (s3 := if bool_decide (mode_ s2 = _) then _ else _).
  assert (H3 : round_okE ∅ (list_to_set (visit order (currPeerPositions_ s3)).*1) s3 /\ phase_ s3 = Establish /\ is_Some (result_ s3)).
  { assert (Hdb : forall acq, debate ∅ (list_to_set (visit order (currPeerPositions_ s)).*1) [] (currPeerPositions_ s) acq (with_roundTime (timer_reset (clock a)) (new_result t p))).
    { intros acq. constructor; cbn; [by intros i tx d Hi|set_solver| |by intros i [? Hi]]. intros n q Hn Hq _. exfalso. apply Hn, elem_of_list_to_set, list_elem_of_fmap.
      exists (n, q). split; [done|by apply visit_in]. }
    assert (H2 : round_okE ∅ (list_to_set (visit order (currPeerPositions_ s)).*1) s2 /\ phase_ s2 = Establish /\ is_Some (result_ s2) /\ currPeerPositions_ s2 = currPeerPositions_ s).
    { destruct Hs as [K1 K2 K3 K4]. unfold s2. case_bool_decide as Hin; (split_and!; [|done|by eexists|done]); (constructor; cbn; [by eexists|done|try by apply acquired_insert..|]).
      - done.
      - intros r [= <-]. by split.
      - intros r [= <-]. split; [|done]. split; [done|]. cbn. by rewrite lookup_insert_eq. }
    destruct H2 as (H2 & Hph & Hr & Ec). unfold s3. case_bool_decide; rewrite <-Ec in H2; [|done]. split; [by apply (ok_frame _ _ s2)|done]. }
  destruct H3 as (H3 & Hph & r & Hr). clearbody s3. clear dependent s2.
  destruct (each_inv (fun l s' => debated s3 s' /\ (forall it, it ∈ l -> currPeerPositions_ s3 !! it.1 = Some it.2) /\ round_okE ∅ (list_to_set l.*1) s')
    (fun pit s => match acquired_ s !! position pit.2 with Some t => createDisputes order t s | None => Ok s end) (visit order (currPeerPositions_ s3)) s3) as (s' & -> & D & _ & H').
  - split_and!; [by apply (debated_refl s3 r)|intros [n q] Hq; by apply visit_in in Hq|done].
  - intros [n q] l s4 (D & Hl & H4). destruct (debated_curr _ _ D) as [Ec Ea]. cbn [fst snd fmap list_fmap list_to_set] in *.
    assert (Hq : currPeerPositions_ s4 !! n = Some q) by (rewrite Ec; apply (Hl (n, q)); left).
    assert (Hl' : forall it, it ∈ l -> currPeerPositions_ s3 !! it.1 = Some it.2) by (intros it ?; apply Hl; by right).
    assert (Hr4 : exists r4, result_ s4 = Some r4) by (destruct D as (? & ? & ? & ? & _ & ->); by eexists). destruct Hr4 as [r4 Hr4].
    destruct (ok_result _ _ _ H4 r4 Hr4) as [Ho HD].
    destruct (acquired_ s4 !! position q) as [t'|] eqn:Et.
    + pose proof (ok_acquired _ _ _ H4 _ _ Et) as Hid.
      destruct (createDisputes_ok ∅ ({[n]} ∪ list_to_set l.*1) t' s4 r4 Hr4 (ok_acquired _ _ _ H4) (proj2 Ho)) as (s5 & r5 & -> & D5 & Hr5 & Htx & Hin & HD5); [by rewrite Hid, Et|exact HD|].
      exists s5. split_and!; [done|by eapply debated_trans|done|]. eapply debated_ok; [exact H4|done|exact Hr5|by rewrite Hr4|].
      eapply debate_weaken; [exact HD5|done|]. intros m q' Hm [->%elem_of_singleton|?]%elem_of_union Hq' _; [|done]. assert (q' = q) as -> by congruence. by rewrite <-Hid.
    + exists s4. split_and!; [done..|]. destruct H4 as [K1 K2 K3 K4]. constructor; [done..|]. intros r' Hr'. destruct (K4 r' Hr') as [? HD']. split; [done|].
      eapply debate_weaken; [exact HD'|done|]. intros m q' Hm [->%elem_of_singleton|?]%elem_of_union Hq' [t' Ht']; [|done]. congruence.
  - exists s'. split_and!; [done| |done]. by destruct D as (? & ? & ? & ? & _ & ->).
Qed.

(** ** Our vote *)

Lemma vote_on_ok percent proposing txs i tx d ds ms curr acq r : ds !! i = Some (tx, d) ->
  debate ∅ ∅ [] curr acq (with_txns (default txs ms) (with_disputes ds r)) ->
  let acc := vote_on parms percent proposing txs (i, (tx, d)) (ds, ms) in
  debate ∅ ∅ [] curr acq (with_txns (default txs acc.2) (with_disputes acc.1 r)) /\ (forall j, j <> i -> acc.1 !! j = ds !! j).
Proof.
  intros Hi [H1 H2 H3 H4]. cbn in H1, H2, H3, H4. destruct (H1 i tx d Hi) as (Htx & Hok & Hv & Hc & Hp). unfold vote_on.
  destruct (updateVote percent proposing parms d) as [b d'] eqn:EV. destruct (updateVote_spec _ _ _ _ _ _ Hok EV) as (Hok' & Hvo & Hb). cbn zeta. cbn [fst snd].
  split; [|intros j Hj; by rewrite lookup_insert_ne].
  set (t' := default txs _).
  assert (Hi' : set_exists t' i = ourVote d').
  { unfold t'. destruct b; [|cbn; by rewrite Hb]. destruct (ourVote d'); cbn; [rewrite exists_insert, Htx, Z.eqb_refl|rewrite exists_erase, Z.eqb_refl]; done. }
  assert (Hj' : forall j, j <> i -> set_exists t' j = set_exists (default txs ms) j).
  { intros j Hj. unfold t'. destruct b; [|done]. destruct (ourVote d'); cbn; [rewrite exists_insert, Htx|rewrite exists_erase]; rewrite (proj2 (Z.eqb_neq i j)) by congruence; done. }
  constructor; cbn.
  - intros j tx0 d0 [[<- [= <- <-]]|[Hne Hj]]%lookup_insert_Some.
    + split_and!; [done..| |]; rewrite Hvo; done.
    + rewrite Hj' by done. by apply H1.
  - intros j Hj. destruct (H2 j Hj) as (t & Ht & Hd). exists t. split; [done|]. intros x Hx. right. destruct (decide (i = x)) as [->|Hne]; [by rewrite lookup_insert_eq|].
    rewrite lookup_insert_ne by done. destruct (Hd x) as [[]%not_elem_of_nil|?]; [|done]. by rewrite <-Hj'.
  - done.
  - intros j Hj. apply H4. destruct (decide (i = j)) as [<-|Hne]; [by rewrite Hi|by rewrite lookup_insert_ne in Hj by done].
Qed.

Lemma vote_on_disputes_ok s r curr acq : debate ∅ ∅ [] curr acq r ->
  let acc := vote_on_disputes parms order s r in debate ∅ ∅ [] curr acq (with_txns (default (txns r) acc.2) (with_disputes acc.1 r)).
Proof.
  intros HD. unfold vote_on_disputes. cbn zeta.
  assert (Hgen : forall l acc, NoDup l.*1 -> (forall it, it ∈ l -> acc.1 !! it.1 = Some it.2) -> debate ∅ ∅ [] curr acq (with_txns (default (txns r) acc.2) (with_disputes acc.1 r)) ->
    let acc' := foldl (fun acc it => vote_on parms (convergePercent_ s) (bool_decide (mode_ s = Proposing)) (txns r) it acc) acc l in
    debate ∅ ∅ [] curr acq (with_txns (default (txns r) acc'.2) (with_disputes acc'.1 r))).
  { induction l as [|[i [tx d]] l IH]; intros [ds ms] Hnd Hin HD'; [done|]. cbn [foldl]. apply NoDup_cons in Hnd as [Hi Hnd]. cbn [fst] in Hi.
    destruct (vote_on_ok (convergePercent_ s) (bool_decide (mode_ s = Proposing)) (txns r) i tx d ds ms curr acq r (Hin (i, (tx, d)) ltac:(left)) HD') as [HD1 Hds].
    apply IH; [done| |exact HD1]. intros [j v] Hj. cbn [fst snd]. rewrite Hds; [apply (Hin (j, v)); by right|]. intros ->. apply Hi, list_elem_of_fmap. by exists (i, v). }
  apply Hgen; [apply visit_nodup|intros [i v] Hi; by apply visit_in in Hi|]. cbn. destruct HD as [H1 H2 H3 H4]. by constructor.
Qed.

(** Adopting a set that the disputes already speak for. *)
Lemma adopt_ok t ct s r : result_ s = Some r -> phase_ s = Establish -> 
  (forall n p, currPeerPositions_ s !! n = Some p -> nodeID p = n /\ previousLedger p = prevLedgerID_ s /\ isBowOut p = false /\ n ∉ deadNodes_ s) ->
  acquired_ok (acquired_ s) -> debate ∅ ∅ [] (currPeerPositions_ s) (acquired_ s) (with_txns t r) ->
  exists s' r', adopt order t ct s = Ok s' /\ round_ok s' /\ result_ s' = Some r' /\ closeTime (r_position r') = ct /\ roundTime r' = roundTime r /\
    phase_ s' = Establish /\ peers_only s s' /\ currPeerPositions_ s' = currPeerPositions_ s /\ haveCloseTimeConsensus_ s' = haveCloseTimeConsensus_ s /\ closeResolution_ s' = closeResolution_ s.
Proof.
  intros Hr Hph Hc Ha HD. unfold adopt. rewrite Hr. cbn [deref mbind res_bind].
  set (p' := changePosition _ _ _ _). set (r1 := with_position p' (with_txns t r)). set (s1 := set_result (Some r1) s).
  assert (HD1 : debate ∅ ∅ [] (currPeerPositions_ s) (acquired_ s) r1) by (destruct HD; by constructor).
  assert (Hstep : exists s2 r2, share_new order t (r_position r1) s1 = Ok s2 /\
     round_ok s2 /\ result_ s2 = Some r2 /\ r_position r2 = p' /\ roundTime r2 = roundTime r /\ peers_only s s2 /\ currPeerPositions_ s2 = currPeerPositions_ s /\
     haveCloseTimeConsensus_ s2 = haveCloseTimeConsensus_ s /\ closeResolution_ s2 = closeResolution_ s).
  { unfold share_new. case_bool_decide as Hin.
    - exists s1, r1. split_and!; [done| |done..]. constructor; cbn; [by rewrite Hph; eexists|done..|]. intros r' [= <-]. done.
    - apply eq_None_not_Some in Hin. cbn zeta. set (s2 := set_acquired _ s1). set (s3 := if isBowOut _ then _ else _).
      assert (H3 : peers_only s s3 /\ result_ s3 = Some r1 /\ currPeerPositions_ s3 = currPeerPositions_ s /\ acquired_ s3 = <[set_id t := t]> (acquired_ s) /\ deadNodes_ s3 = deadNodes_ s /\ haveCloseTimeConsensus_ s3 = haveCloseTimeConsensus_ s /\ closeResolution_ s3 = closeResolution_ s).
      { unfold s3. by destruct (isBowOut _). }
      destruct H3 as (P3 & R3 & C3 & A3 & D3 & V3 & Z3). clearbody s3.
      destruct (vote_loop t (fun it s => if position it.2 =? set_id t then r ← deref (result_ s); updateDisputes order it.1 (txns r) s else Ok s) (visit order (currPeerPositions_ s3)) s3) as (s4 & -> & D4 & H4).
      + rewrite A3. apply lookup_insert_eq.
      + by rewrite R3.
      + intros [n q] Hq. by apply visit_in in Hq.
      + intros it s' (r' & ds & cs & es & Hr' & ->). assert (r' = r1) as -> by congruence. done.
      + destruct P3 as (E1 & _ & E2 & _). constructor; rewrite ?E1, ?E2, ?R3, ?C3, ?A3, ?D3; [by rewrite Hph; eexists|done|by apply acquired_insert|].
        intros r' [= <-]. split; [split; [done|]; by rewrite lookup_insert_eq|]. apply debate_acquire; done.
      + destruct D4 as (r' & ds & cs & es & Hr' & E4). assert (r' = r1) as -> by congruence. exists s4, (with_compares cs (with_disputes ds r1)). rewrite E4 in *. split_and!; try done. }
  destruct Hstep as (s2 & r2 & -> & H2 & R2 & Hp2 & Ht2 & P2 & C2 & V2 & Z2). cbn [mbind res_bind]. rewrite R2. cbn [deref mbind res_bind].
  set (s3 := if _ && _ then _ else _). exists s3, r2.
  assert (H3 : round_ok s3 /\ result_ s3 = Some r2 /\ peers_only s2 s3 /\ currPeerPositions_ s3 = currPeerPositions_ s2 /\ haveCloseTimeConsensus_ s3 = haveCloseTimeConsensus_ s2 /\ closeResolution_ s3 = closeResolution_ s2).
  { unfold s3. destruct (_ && _); [|done]. split_and!; try done. by apply (ok_frame _ _ s2). }
  destruct H3 as (H3 & R3 & P3 & C3 & V3 & Z3). split_and!; [done|done|done|by rewrite Hp2|done| |by transitivity s2|congruence|congruence|congruence].
  destruct P2 as (E2 & _), P3 as (E3 & _). congruence.
Qed.

(** ** The close time *)

Fixpoint tally (t : Z) (l : list (Z * Z)) : Z :=
  match l with [] => 0 | (t', n) :: l => (if t' =? t then n else 0) + tally t l end.

Lemma tally_bump (t t' : Z) l : tally t (bump t' l) = tally t l + (if t' =? t then 1 else 0).
Proof.
  induction l as [|[u n] l IH]; cbn [bump tally]; [lia|]. destruct (Z.ltb_spec t' u); cbn [tally]; [lia|].
  destruct (Z.eqb_spec t' u) as [->|]; cbn [tally]; [|rewrite IH; lia]. destruct (u =? t); lia.
Qed.

Lemma bump_pos (t : Z) l : Forall (fun it : Z * Z => 0 <= it.2) l -> Forall (fun it : Z * Z => 0 <= it.2) (bump t l).
Proof.
  intros Hl. induction Hl as [|[u n] l Hn Hl IH]; cbn [bump]; [by repeat constructor|].
  destruct (t <? u); [by repeat constructor|]. destruct (t =? u); constructor; cbn in *; (done || lia).
Qed.

Lemma tally_ge (t n : Z) l : Forall (fun it : Z * Z => 0 <= it.2) l -> (t, n) ∈ l -> n <= tally t l.
Proof.
  assert (Hpos : forall l, Forall (fun it : Z * Z => 0 <= it.2) l -> 0 <= tally t l).
  { clear. induction 1 as [|[u m] l Hm Hl IH]; cbn [tally] in *; [lia|]. cbn in Hm. destruct (u =? t); lia. }
  induction 1 as [|[u m] l Hm Hl IH]; [by intros []%not_elem_of_nil|]. cbn in Hm. cbn [tally]. intros [[= -> ->]|Hin]%elem_of_cons.
  - rewrite Z.eqb_refl. specialize (Hpos l Hl). lia.
  - specialize (IH Hin). destruct (u =? t); lia.
Qed.

Lemma count_time_ok thr l tv0 tv time have : foldl (count_time thr) (tv0, 0, false) l = (tv, time, have) -> have = true -> (time, tv) ∈ l /\ thr <= tv.
Proof.
  assert (Hgen : forall l' acc, l' ⊆ l -> (acc.2 = true -> (acc.1.2, acc.1.1) ∈ l /\ thr <= acc.1.1) ->
    let acc' := foldl (count_time thr) acc l' in acc'.2 = true -> (acc'.1.2, acc'.1.1) ∈ l /\ thr <= acc'.1.1).
  { induction l' as [|[t n] l' IH]; intros [[tv' t'] h'] Hl Hacc; [done|]. cbn [foldl]. apply IH; [intros x Hx; apply Hl; by right|].
    unfold count_time. cbn [fst snd] in *. destruct (Z.leb_spec tv' n); [|done]. cbn [fst snd]. intros [Hh|Hh]%orb_true_iff.
    - destruct (Hacc Hh). split; [apply Hl; left|lia].
    - split; [apply Hl; left|by apply Z.leb_le]. }
  intros E Hh. specialize (Hgen l (tv0, 0, false)). rewrite E in Hgen. cbn in Hgen. by apply Hgen.
Qed.

(** The current peers whose close time counts as [ct]. *)
Definition supporters s (ct : Z) : Z := Z.of_nat (size (filter (fun np : Z * Proposal => asCloseTime parms s (closeTime np.2) = ct) (currPeerPositions_ s))).

(** Three quarters of the participants are for the close time we stand for. *)
Definition close_agreed s r : Prop :=
  exists ct, (closeTime (r_position r) = ct \/ asCloseTime parms s (closeTime (r_position r)) = ct) /\
    (currPeerPositions_ s = ∅ \/
     let self := Z.b2z (bool_decide (mode_ s = Proposing)) in
     participantsNeeded (Z.of_nat (size (currPeerPositions_ s)) + self) (avCT_CONSENSUS_PCT parms) <= supporters s ct + self).

(** What updating our position leaves alone. *)
Definition update_only s s' : Prop := peers_only s s' /\ now_ s' = now_ s /\ closeResolution_ s' = closeResolution_ s /\ acquired_ s' = acquired_ s /\ deadNodes_ s' = deadNodes_ s.

Lemma asCloseTime_same s s' (t : Z) : previousLedger_ s' = previousLedger_ s -> closeResolution_ s' = closeResolution_ s -> asCloseTime parms s' t = asCloseTime parms s t.
Proof. intros E1 E2. unfold asCloseTime. by rewrite E1, E2. Qed.

(** Counting the votes of the peers that have been visited. *)
Definition tallied s (l : list (Z * Proposal)) (votes : list (Z * Z)) curr : Prop :=
  forall ct, tally ct votes = Z.of_nat (size (filter (fun np : Z * Proposal => asCloseTime parms s (closeTime np.2) = ct /\ np.1 ∉ l.*1) curr)).

Lemma tallied_fresh s n p l votes curr : n ∉ l.*1 -> curr !! n = Some p -> tallied s ((n, p) :: l) votes curr ->
  tallied s l (bump (asCloseTime parms s (closeTime p)) votes) curr.
Proof.
  intros Hn Hp HT ct. rewrite tally_bump, HT. cbn [fmap list_fmap fst].
  set (F := filter (fun np : Z * Proposal => _ /\ np.1 ∉ n :: l.*1) curr). destruct (Z.eqb_spec (asCloseTime parms s (closeTime p)) ct) as [Hct|Hct].
  - assert (E : filter (fun np : Z * Proposal => asCloseTime parms s (closeTime np.2) = ct /\ np.1 ∉ l.*1) curr = <[n := p]> F).
    { apply map_eq. intros k. apply option_eq. intros q. unfold F. rewrite map_lookup_filter_Some, lookup_insert_Some, map_lookup_filter_Some. cbn [fst snd].
      rewrite not_elem_of_cons. destruct (decide (n = k)) as [<-|]; naive_solver. }
    rewrite E, map_size_insert_None; [lia|]. apply map_lookup_filter_None. right. intros q _ [_ Hk]. apply Hk. left.
  - assert (E : filter (fun np : Z * Proposal => asCloseTime parms s (closeTime np.2) = ct /\ np.1 ∉ l.*1) curr = F); [|rewrite E; lia].
    apply map_eq. intros k. apply option_eq. intros q. unfold F. rewrite !map_lookup_filter_Some. cbn [fst snd]. rewrite not_elem_of_cons. destruct (decide (k = n)) as [->|]; naive_solver.
Qed.

Lemma tallied_stale s n p l votes curr : n ∉ l.*1 -> tallied s ((n, p) :: l) votes curr -> tallied s l votes (delete n curr).
Proof.
  intros Hn HT ct. rewrite HT. cbn [fmap list_fmap fst]. do 2 f_equal. apply map_eq. intros k. apply option_eq. intros q.
  rewrite !map_lookup_filter_Some, lookup_delete_Some. cbn [fst snd]. rewrite not_elem_of_cons. naive_solver.
Qed.

Lemma check_fresh_ok cutoff s r : round_ok s -> result_ s = Some r -> exists votes s' r',
  each (check_fresh parms cutoff) (visit order (currPeerPositions_ s)) ([], s) = Ok (votes, s') /\ round_ok s' /\ update_only s s' /\
  result_ s' = Some r' /\ roundTime r' = roundTime r /\ Forall (fun it : Z * Z => 0 <= it.2) votes /\ tallied s [] votes (currPeerPositions_ s').
Proof.
  intros Hs Hr.
  destruct (each_inv (fun l vs => NoDup l.*1 /\ (forall it, it ∈ l -> currPeerPositions_ vs.2 !! it.1 = Some it.2) /\ round_ok vs.2 /\ update_only s vs.2 /\
    (exists r', result_ vs.2 = Some r' /\ roundTime r' = roundTime r) /\ Forall (fun it : Z * Z => 0 <= it.2) vs.1 /\ tallied s l vs.1 (currPeerPositions_ vs.2))
    (check_fresh parms cutoff) (visit order (currPeerPositions_ s)) ([], s)) as ([votes s'] & ? & _ & _ & ? & ? & (r' & ? & ?) & ? & ?); [| |by exists votes, s', r'].
  - split_and!; cbn; [apply visit_nodup|intros [n p] Hp; by apply visit_in in Hp|done|done|by exists r|constructor|].
    intros ct. cbn [tally]. set (F := filter _ _). assert (F = ∅) as ->; [|by rewrite map_size_empty]. apply map_empty. intros n. apply map_lookup_filter_None. right.
    intros p Hp [_ Hn]. apply Hn, list_elem_of_fmap. exists (n, p). split; [done|by apply visit_in].
  - intros [n p] l [votes s1] (Hnd & Hl & H1 & U1 & (r1 & R1 & Ht1) & Hpos & HT). cbn [fst snd fmap list_fmap] in *. apply NoDup_cons in Hnd as [Hn Hnd].
    assert (Hp : currPeerPositions_ s1 !! n = Some p) by (apply (Hl (n, p)); left). unfold check_fresh. cbn [fst snd]. destruct (isStale cutoff p).
    + rewrite R1. cbn [deref mbind res_bind]. eexists. split; [done|]. cbn [fst snd]. destruct H1 as [K1 K2 K3 K4]. destruct (K2 n p Hp) as [Hid _]. rewrite Hid.
      split_and!; [done| | |done|by eexists|done|by eapply tallied_stale].
      * intros [m q] Hm. cbn. rewrite lookup_delete_ne; [apply (Hl (m, q)); by right|]. intros ->. apply Hn, list_elem_of_fmap. by exists (m, q).
      * constructor; cbn; [|intros m q [_ Hq]%lookup_delete_Some; by apply K2|done|].
        -- rewrite R1 in K1. destruct (phase_ s1); [done|by eexists|done].
        -- intros r' [= <-]. destruct (K4 r1 R1) as [? HD]. split; [done|by apply unvote_debate].
    + eexists. split; [done|]. cbn [fst snd]. split_and!; [done|intros it Hit; apply Hl; by right|done|done|by exists r1|by apply bump_pos|].
      destruct U1 as ((_ & _ & _ & EL & _) & _ & ER & _). rewrite (asCloseTime_same s s1) by done. by apply (tallied_fresh s n p).
Qed.

Lemma closeTime_consensus_ok s r votes time : Forall (fun it : Z * Z => 0 <= it.2) votes -> tallied s [] votes (currPeerPositions_ s) ->
  closeTime_consensus parms s r votes = (time, true) ->
  currPeerPositions_ s = ∅ \/ let self := Z.b2z (bool_decide (mode_ s = Proposing)) in
     participantsNeeded (Z.of_nat (size (currPeerPositions_ s)) + self) (avCT_CONSENSUS_PCT parms) <= supporters s time + self.
Proof.
  intros Hpos HT. unfold closeTime_consensus. case_bool_decide as Hempty; [by left|]. intros Heq. right. cbn zeta.
  assert (HS : supporters s time = tally time votes).
  { rewrite HT. unfold supporters. do 2 f_equal. apply map_filter_ext. intros n p _. cbn. split; [intros ?; split; [done|by intros []%not_elem_of_nil]|by intros [? _]]. }
  case_bool_decide as Hm; cbn [Z.b2z]; destruct (foldl _ _ _) as [[tv t] h] eqn:E; injection Heq as -> ->;
    destruct (count_time_ok _ _ _ _ _ _ E eq_refl) as [Hin Hthr]; apply tally_ge in Hin; try by apply bump_pos.
  - rewrite tally_bump in Hin. destruct (_ =? _) in Hin; lia.
  - rewrite !Z.add_0_r in *. lia.
  - done.
Qed.

(** ** Updating our position *)

Lemma supporters_same s s' ct : currPeerPositions_ s' = currPeerPositions_ s -> previousLedger_ s' = previousLedger_ s -> closeResolution_ s' = closeResolution_ s ->
  supporters s' ct = supporters s ct.
Proof. intros E1 E2 E3. unfold supporters. rewrite E1. do 2 f_equal. apply map_filter_ext. intros n p _. cbn. by rewrite (asCloseTime_same s s'). Qed.

Lemma close_agreed_same s s' r r' : currPeerPositions_ s' = currPeerPositions_ s -> mode_ s' = mode_ s -> previousLedger_ s' = previousLedger_ s -> closeResolution_ s' = closeResolution_ s ->
  r_position r' = r_position r -> close_agreed s r -> close_agreed s' r'.
Proof.
  intros E1 E2 E3 E4 E5 (ct & Hct & Hs). exists ct. rewrite (supporters_same s s'), (asCloseTime_same s s'), E1, E2, E5 by done. by split.
Qed.

Lemma updateOurPositions_ok s r : round_ok s -> phase_ s = Establish -> result_ s = Some r -> exists s' r',
  updateOurPositions parms order s = Ok s' /\ round_ok s' /\ phase_ s' = Establish /\ peers_only s s' /\ result_ s' = Some r' /\ roundTime r' = roundTime r /\
  (haveCloseTimeConsensus_ s' = true -> close_agreed s' r').
Proof.
  intros Hs Hph Hr. unfold updateOurPositions.
  destruct (check_fresh_ok (u32 (now_ s - proposeFRESHNESS parms)) s r Hs Hr) as (votes & s1 & r1 & -> & H1 & U1 & R1 & Ht1 & Hpos & HT). cbn [mbind res_bind]. rewrite R1. cbn [deref mbind res_bind].
  destruct U1 as (P1 & En & Er & Ea & Ed). destruct P1 as (Eph & Em & Eid & EL & Ef & Epp & Erc).
  assert (HT1 : tallied s1 [] votes (currPeerPositions_ s1)).
  { intros ct. rewrite HT. do 2 f_equal. apply map_filter_ext. intros n p _. cbn. by rewrite (asCloseTime_same s s1) by done. }
  destruct (ok_result _ _ _ H1 r1 R1) as [Ho HD].
  pose proof (vote_on_disputes_ok s1 r1 _ _ HD) as HV. destruct (vote_on_disputes parms order s1 r1) as [ds ms]. cbn [fst snd] in HV.
  destruct (closeTime_consensus parms s1 (with_disputes ds r1) votes) as [time have] eqn:EC.
  set (s2 := set_closeTimeConsensus have (set_result (Some (with_disputes ds r1)) s1)).
  assert (Hadopt : forall t, debate ∅ ∅ [] (currPeerPositions_ s2) (acquired_ s2) (with_txns t (with_disputes ds r1)) -> exists s' r',
    adopt order t time s2 = Ok s' /\ round_ok s' /\ phase_ s' = Establish /\ peers_only s s' /\ result_ s' = Some r' /\ roundTime r' = roundTime r /\ (haveCloseTimeConsensus_ s' = true -> close_agreed s' r')).
  { intros t Hd. destruct (adopt_ok t time s2 (with_disputes ds r1)) as (s' & r' & -> & H' & R' & Ec' & Et' & Hph' & P' & C' & V' & Z'); [done|cbn; congruence|apply H1|apply H1|done|].
    exists s', r'. split_and!; [done..|transitivity s2; done|done|cbn in Et'; congruence|]. rewrite V'. cbn. intros ->.
    destruct P' as (_ & Em' & _ & EL' & _). exists time. split; [by left|].
    rewrite (supporters_same s1 s'), C', Em' by done. apply (closeTime_consensus_ok s1 (with_disputes ds r1) votes time Hpos HT1 EC). }
  destruct ms as [t|]; [by apply Hadopt|]. cbn [default] in HV.
  destruct (_ || _) eqn:Enew; [by apply Hadopt|]. exists s2, (with_disputes ds r1). apply orb_false_iff in Enew as [Enew _]. apply negb_false_iff, Z.eqb_eq in Enew.
  split_and!; [done| |cbn; congruence|done|done|done|].
  - destruct H1 as [K1 K2 K3 K4]. constructor; cbn; [rewrite Eph, Hph; by eexists|done..|]. intros r' [= <-]. split; [done|]. destruct HV. by constructor.
  - cbn. intros ->. exists time. split; [right; cbn; done|]. apply (closeTime_consensus_ok s1 (with_disputes ds r1) votes time Hpos HT1 EC).
Qed.

(** ** Acceptance *)

(** The number of current peers at a position. *)
Definition agreeing s (pos : Z) : Z := Z.of_nat (size (filter (fun np : Z * Proposal => position np.2 = pos) (currPeerPositions_ s))).

(** What it takes to accept a ledger. The last event is the acceptance of our result.
    The round has lasted long enough; enough of the participants are at our position or,
    when the network moved on, have validated a later ledger; and enough of them are for
    the close time. *)
Definition accepted_ok (a : Adaptor T) s : Prop :=
  exists r evs, result_ s = Some r /\ out_ s = Ev_accept false r (previousLedger_ s) (closeResolution_ s) (rawPeers_ s) (rawSelf_ s) (mode_ s) :: evs /\
    ledgerMIN_CONSENSUS parms <= dur_ (roundTime r) /\ haveCloseTimeConsensus_ s = true /\ close_agreed s r /\
    let peers := Z.of_nat (size (currPeerPositions_ s)) in
    match state r with
    | CS_Yes => checkConsensusReached (agreeing s (position (r_position r))) peers (bool_decide (mode_ s = Proposing)) (minCONSENSUS_PCT parms) = true
    | CS_MovedOn => checkConsensusReached (proposersFinished a (previousLedger_ s) (prevLedgerID_ s)) peers false (minCONSENSUS_PCT parms) = true
    | CS_No => False
    end.

Definition post (a : Adaptor T) s : Prop := round_ok s /\ (phase_ s = Accepted -> accepted_ok a s).

Lemma count_filter (P : Z * Proposal -> Prop) `{HP : forall x, Decision (P x)} curr : length (filter P (visit order curr)) = size (filter P curr).
Proof.
  unfold visit. rewrite order_perm. induction curr as [|n p curr Hn IH] using map_ind; [by rewrite map_to_list_empty, map_filter_empty, map_size_empty|].
  rewrite map_to_list_insert, filter_cons by done. case_decide as Hd.
  - rewrite map_filter_insert_True, map_size_insert_None by (done || (apply map_lookup_filter_None; by left)). cbn. by rewrite IH.
  - by rewrite map_filter_insert_False, delete_id.
Qed.

Lemma haveConsensus_ok a s r : round_ok s -> phase_ s = Establish -> result_ s = Some r -> exists b s' st,
  haveConsensus parms order a s = Ok (b, s') /\ s' = set_result (Some (with_state st r)) s /\ round_ok s' /\
  (b = true -> let peers := Z.of_nat (size (currPeerPositions_ s)) in
    match st with
    | CS_Yes => checkConsensusReached (agreeing s (position (r_position r))) peers (bool_decide (mode_ s = Proposing)) (minCONSENSUS_PCT parms) = true
    | CS_MovedOn => checkConsensusReached (proposersFinished a (previousLedger_ s) (prevLedgerID_ s)) peers false (minCONSENSUS_PCT parms) = true
    | CS_No => False
    end).
Proof.
  intros Hs Hph Hr. unfold haveConsensus. rewrite Hr. cbn [deref mbind res_bind]. rewrite !count_filter.
  fold (agreeing s (position (r_position r))). set (dis := Z.of_nat _).
  assert (Hsum : agreeing s (position (r_position r)) + dis = Z.of_nat (size (currPeerPositions_ s))).
  { unfold agreeing, dis. rewrite <-Nat2Z.inj_add. f_equal. rewrite <-map_size_disj_union by apply map_disjoint_filter_complement.
    by rewrite map_filter_union_complement. }
  rewrite Hsum. set (st := checkConsensus _ _ _ _ _ _ _ _). eexists _, _, st. split_and!; [done..| |].
  - destruct Hs as [K1 K2 K3 K4]. constructor; cbn; [rewrite Hph; by eexists|done..|]. intros r' [= <-]. destruct (K4 r Hr) as [? []]. split; [done|by constructor].
  - unfold st, checkConsensus. destruct (_ <=? _); [done|]. destruct (_ && _); [done|]. destruct (checkConsensusReached (agreeing _ _) _ _ _) eqn:E1; [done|].
    destruct (checkConsensusReached (proposersFinished _ _ _) _ _ _) eqn:E2; done.
Qed.

Lemma shouldPause_ok a s r : result_ s = Some r -> exists b, shouldPause parms a s = Ok b.
Proof.
  intros Hr. unfold shouldPause. destruct (getQuorumKeys a) as [quorum keys]. destruct (laggards a _ _) as [lag rest]. rewrite Hr. cbn [deref mbind res_bind].
  repeat match goal with |- exists b, (if ?c then _ else _) = Ok b => destruct c; [by eexists|] end. by eexists.
Qed.

Lemma phaseEstablish_ok a s : round_ok s -> phase_ s = Establish -> exists s', phaseEstablish parms order a s = Ok s' /\ post a s'.
Proof.
  intros Hs Hph. pose proof (ok_phase _ _ _ Hs) as Hr0. rewrite Hph in Hr0. destruct Hr0 as [r Hr]. unfold phaseEstablish. rewrite Hr. cbn [deref mbind res_bind].
  set (r1 := with_proposers _ (with_roundTime _ r)). set (s1 := set_convergePercent _ _).
  assert (H1 : round_ok s1).
  { destruct Hs as [K1 K2 K3 K4]. constructor; cbn; [rewrite Hph; by eexists|done..|]. intros r' [= <-]. destruct (K4 r Hr) as [? []]. split; [done|by constructor]. }
  destruct (Z.ltb_spec (dur_ (roundTime r1)) (ledgerMIN_CONSENSUS parms)) as [Hlt|Hge]; [exists s1; split; [done|]; split; [done|]; cbn; congruence|].
  destruct (updateOurPositions_ok s1 r1 H1 Hph eq_refl) as (s2 & r2 & -> & H2 & Hph2 & P2 & R2 & Ht2 & Hct). cbn [mbind res_bind].
  destruct (shouldPause_ok a s2 r2 R2) as [b ->]. cbn [mbind res_bind]. destruct b; [exists s2; split; [done|]; split; [done|]; congruence|].
  destruct (haveConsensus_ok a s2 r2 H2 Hph2 R2) as (b & s3 & st & -> & E3 & H3 & Hst). cbn [mbind res_bind].
  subst s3. set (s3 := set_result _ s2) in *. assert (Hph3 : phase_ s3 <> Accepted) by (cbn; congruence).
  destruct b; cbn [negb]; [|by exists s3]. destruct (haveCloseTimeConsensus_ s3) eqn:EV; cbn [negb]; [|by exists s3]. specialize (Hst eq_refl).
  eexists. split; [done|]. split.
  - destruct H3 as [K1 K2 K3 K4]. constructor; [done..|]. intros r' Hr'. by apply K4.
  - intros _. exists (with_state st r2). eexists. split_and!; [done|done|cbn; rewrite Ht2; done|done| |exact Hst].
    eapply close_agreed_same; [..|apply (Hct EV)]; done.
Qed.

(** ** Rounds *)

Lemma phaseOpen_ok a s : adaptor_ok a -> round_ok s -> phase_ s = Open -> exists s', phaseOpen parms order a s = Ok s' /\ post a s'.
Proof.
  intros Ha Hs Hph. unfold phaseOpen. set (s1 := set_openTime _ s). assert (H1 : round_ok s1) by (by apply (ok_frame _ _ s)).
  destruct (shouldCloseLedger _ _ _ _ _ _ _ _ _); [|exists s1; split; [done|split; [done|cbn; congruence]]].
  destruct (closeLedger_ok a s1 Ha H1) as (s' & -> & Hph' & H'). exists s'. split; [done|]. split; [done|congruence].
Qed.

(** The network settles: it stays with the ledger it sent us to, once we have it. *)
Definition settled (a : Adaptor T) : Prop := forall id l m l', let id' := getPrevLedger a id l m in
  acquireLedger a id' = Some l' -> lgr_id l' = id' /\ getPrevLedger a id' l' SwitchedLedger = id'.

(** A timer that is safe to call in the states of [P]. *)
Definition timer_ok (a : Adaptor T) (P : Round T X -> Prop) (timer : Z -> Round T X -> res (Round T X)) : Prop :=
  forall now s, round_ok s -> P s -> exists s', timer now s = Ok s' /\ post a s'.

Lemma start_state_ok a now id l m s : round_ok (start_state a now id l m s).
Proof. constructor; cbn; [done|by intros n p Hp|by intros i t Hi|done]. Qed.

Lemma startRoundInternal_ok (P : Round T X -> Prop) timer a now id l m s : adaptor_ok a -> timer_ok a P timer ->
  (forall s', phase_ s' = Open -> prevLedgerID_ s' = id -> previousLedger_ s' = l -> mode_ s' = m -> P s') ->
  exists s', startRoundInternal order timer a now id l m s = Ok s' /\ post a s'.
Proof.
  intros Ha Ht HP. unfold startRoundInternal.
  destruct (playbackProposals_ok a _ Ha (start_state_ok a now id l m s)) as (s1 & -> & P1 & H1). cbn [mbind res_bind].
  destruct P1 as (Eph & Em & Eid & EL & _). destruct (_ <? _); [apply Ht; [done|apply HP; by rewrite ?Eph, ?Eid, ?EL, ?Em]|].
  exists s1. split; [done|]. split; [done|]. rewrite Eph. done.
Qed.

Lemma leaveConsensus_ok s : round_ok s -> round_ok (leaveConsensus s) /\ phase_ (leaveConsensus s) = phase_ s /\ prevLedgerID_ (leaveConsensus s) = prevLedgerID_ s /\
  previousLedger_ (leaveConsensus s) = previousLedger_ s.
Proof.
  intros Hs. unfold leaveConsensus. case_bool_decide; [|done]. destruct (result_ s) as [r|] eqn:Hr; [|split; [by apply (ok_frame _ _ s)|done]].
  destruct (isBowOut (r_position r)); (split; [|done]); [by apply (ok_frame _ _ s)|].
  destruct Hs as [K1 K2 K3 K4]. constructor; cbn; [|done..|].
  - rewrite Hr in K1. destruct (phase_ s); [done|by eexists|done].
  - intros r' [= <-]. destruct (K4 r Hr) as [? []]. split; [done|by constructor].
Qed.

Lemma switch_ok s id : round_ok s -> round_ok (set_deadNodes ∅ (set_rawPeers [] (set_currPeerPositions ∅ (update_result clear_result (set_prevLedgerID id s))))).
Proof.
  intros [K1 K2 K3 K4]. constructor; cbn.
  - destruct (phase_ s), (result_ s); done.
  - done.
  - done.
  - intros r' Hr'. destruct (result_ s) as [r|]; [|done]. injection Hr' as <-. destruct (K4 r eq_refl) as [? _]. split; [done|].
    constructor; cbn; [by intros i tx d Hi|set_solver|done|by intros i [? Hi]].
Qed.

Lemma handleWrongLedger_ok (P : Round T X -> Prop) timer a id s : adaptor_ok a -> timer_ok a P timer -> round_ok s -> phase_ s <> Accepted ->
  (forall l' s', acquireLedger a id = Some l' -> phase_ s' = Open -> prevLedgerID_ s' = id -> previousLedger_ s' = l' -> mode_ s' = SwitchedLedger -> P s') ->
  exists s', handleWrongLedger order timer a id s = Ok s' /\ post a s'.
Proof.
  intros Ha Ht Hs Hph HP. unfold handleWrongLedger. destruct (leaveConsensus_ok s Hs) as (H1 & E1 & E2 & E3). set (s1 := leaveConsensus s) in *.
  assert (Hmid : exists s2, (if prevLedgerID_ s1 =? id then Ok s1 else
       playbackProposals order a (set_deadNodes ∅ (set_rawPeers [] (set_currPeerPositions ∅ (update_result clear_result (set_prevLedgerID id s1)))))) = Ok s2 /\
     round_ok s2 /\ phase_ s2 = phase_ s /\ prevLedgerID_ s2 = id).
  { destruct (Z.eqb_spec (prevLedgerID_ s1) id); [by exists s1|]. destruct (playbackProposals_ok a _ Ha (switch_ok s1 id H1)) as (s2 & -> & P2 & H2). exists s2.
    destruct P2 as (Eph & _ & Eid & _). split_and!; [done|done|by rewrite Eph|by rewrite Eid]. }
  destruct Hmid as (s2 & -> & H2 & Eph & Eid). cbn [mbind res_bind].
  destruct (lgr_id (previousLedger_ s2) =? prevLedgerID_ s2); [exists s2; split; [done|]; split; [done|congruence]|]. rewrite Eid.
  destruct (acquireLedger a id) as [l'|] eqn:El.
  - apply (startRoundInternal_ok P); [done..|]. intros s' ? ? ? ?. by apply (HP l' s').
  - exists (set_mode WrongLedger s2). split; [done|]. split; [by apply (ok_frame _ _ s2)|]. cbn. congruence.
Qed.

(** Whether a timer call has to switch to another ledger. *)
Definition in_sync (a : Adaptor T) s : Prop := getPrevLedger a (prevLedgerID_ s) (previousLedger_ s) (mode_ s) = prevLedgerID_ s /\ lgr_id (previousLedger_ s) = prevLedgerID_ s.

Lemma phase_step a s : adaptor_ok a -> post a s ->
  exists s', match phase_ s with Open => phaseOpen parms order a s | Establish => phaseEstablish parms order a s | Accepted => Ok s end = Ok s' /\ post a s'.
Proof.
  intros Ha [Hs Hacc]. destruct (phase_ s) eqn:Hph; [by apply phaseOpen_ok|by apply phaseEstablish_ok|]. exists s. split; [done|]. split; [done|]. intros _. by apply Hacc.
Qed.

Lemma timerEntry_sync fuel a : adaptor_ok a -> timer_ok a (fun s => in_sync a s /\ phase_ s = Open) (timerEntry parms order (S fuel) a).
Proof.
  intros Ha now s Hs [[Hsync Hid] Hph]. cbn [timerEntry]. rewrite bool_decide_false by congruence. unfold checkLedger. cbn [prevLedgerID_ previousLedger_ mode_ set_now].
  rewrite Hsync, Hid, !Z.eqb_refl. cbn [negb mbind res_bind]. apply phase_step; [done|]. split; [by apply (ok_frame _ _ s)|]. cbn. congruence.
Qed.

(** Two calls suffice: the first may switch to another ledger, the second does not. *)
Lemma timerEntry_ok a now s : adaptor_ok a -> settled a -> round_ok s -> phase_ s <> Accepted -> exists s', timerEntry parms order 2 a now s = Ok s' /\ post a s'.
Proof.
  intros Ha Hset Hs Hph. cbn [timerEntry]. rewrite bool_decide_false by done. fold (timerEntry parms order 1 a). set (s0 := set_now now s).
  assert (Hs0 : round_ok s0) by (by apply (ok_frame _ _ s)).
  assert (Hck : exists s1, checkLedger order (timerEntry parms order 1 a) a s0 = Ok s1 /\ post a s1).
  { unfold checkLedger. set (id := getPrevLedger a _ _ _).
    assert (Hw : exists s1, handleWrongLedger order (timerEntry parms order 1 a) a id s0 = Ok s1 /\ post a s1).
    { apply (handleWrongLedger_ok _ _ _ _ _ Ha (timerEntry_sync 0 a Ha) Hs0 Hph). intros l' s' El Eph Eid EL Em. split; [|done].
      destruct (Hset _ _ _ _ El) as [Hl' Hstay]. split; rewrite ?EL, ?Eid, ?Em; done. }
    destruct (negb _); [done|]. destruct (negb _); [done|]. exists s0. split; [done|]. by split. }
  destruct Hck as (s1 & -> & H1). cbn [mbind res_bind]. by apply phase_step.
Qed.

Lemma startRound_ok a now id l untrusted proposing s : adaptor_ok a -> settled a -> 
  exists s', startRound parms order 2 a now id l untrusted proposing s = Ok s' /\ post a s'.
Proof.
  intros Ha Hset. unfold startRound. destruct (if lgr_id l =? id then _ else _) as [l' m].
  apply (startRoundInternal_ok (fun s => phase_ s = Open)); [done| |done]. intros now' s' Hs' Hph'. apply timerEntry_ok; [done..|congruence].
Qed.

Lemma simulate_ok a now delay s : adaptor_ok a -> round_ok s -> exists s', simulate order a now delay s = Ok s' /\ round_ok s' /\ phase_ s' = Accepted.
Proof.
  intros Ha Hs. unfold simulate. destruct (closeLedger_ok a (set_now now s) Ha) as (s1 & -> & Hph & H1); [by apply (ok_frame _ _ s)|]. cbn [mbind res_bind].
  pose proof (ok_phase _ _ _ H1) as Hr. rewrite Hph in Hr. destruct Hr as [r Hr]. rewrite Hr. cbn [deref mbind res_bind]. eexists. split; [done|]. split; [|done].
  destruct H1 as [K1 K2 K3 K4]. constructor; cbn; [done..|]. intros r' [= <-]. destruct (K4 r Hr) as [? []]. split; [done|by constructor].
Qed.

(** ** Any sequence of calls *)

Inductive RoundOp :=
| Op_start (a : Adaptor T) (now id : Z) (l : Ledger) (untrusted : gset Z) (proposing : bool)
| Op_peer (a : Adaptor T) (now : Z) (p : Proposal)
| Op_timer (a : Adaptor T) (now : Z)
| Op_set (now : Z) (t : T)
| Op_simulate (a : Adaptor T) (now : Z) (delay : option Z).

Definition round_step (op : RoundOp) s : res (Round T X) :=
  match op with
  | Op_start a now id l untrusted proposing => startRound parms order 2 a now id l untrusted proposing s
  | Op_peer a now p => '(_, s) ← peerProposal order a now p s; Ok s
  | Op_timer a now => timerEntry parms order 2 a now s
  | Op_set now t => gotTxSet order now t s
  | Op_simulate a now delay => simulate order a now delay s
  end.

Definition round_run (ops : list RoundOp) (genesis : Ledger) : res (Round T X) := each round_step ops (new_round genesis).

Definition op_ok (op : RoundOp) : Prop :=
  match op with
  | Op_start a _ _ _ _ _ | Op_timer a _ => adaptor_ok a /\ settled a
  | Op_peer a _ _ | Op_simulate a _ _ => adaptor_ok a
  | Op_set _ _ => True
  end.

Lemma round_step_ok op s : op_ok op -> round_ok s -> exists s', round_step op s = Ok s' /\ round_ok s'.
Proof.
  intros Hop Hs. destruct op as [a now id l untrusted proposing|a now p|a now|now t|a now delay]; cbn [round_step op_ok] in *.
  - destruct Hop. destruct (startRound_ok a now id l untrusted proposing s) as (s' & ? & ? & _); [done..|]. by exists s'.
  - destruct (peerProposal_ok a now p s Hop Hs) as (b & s' & -> & _ & ?). by exists s'.
  - destruct Hop as [Ha Hset]. destruct (decide (phase_ s = Accepted)) as [Hph|Hph].
    + exists s. cbn [timerEntry]. by rewrite bool_decide_true.
    + destruct (timerEntry_ok a now s Ha Hset Hs Hph) as (s' & ? & ? & _). by exists s'.
  - destruct (gotTxSet_ok now t s Hs) as (s' & ? & _ & ?). by exists s'.
  - destruct (simulate_ok a now delay s Hop Hs) as (s' & ? & ? & _). by exists s'.
Qed.

Lemma round_run_ok ops genesis : Forall op_ok ops -> exists s, round_run ops genesis = Ok s /\ round_ok s.
Proof.
  intros Hops. unfold round_run. assert (Hs : round_ok (new_round genesis)) by (constructor; cbn; [done|by intros n p Hp|by intros i t Hi|done]).
  revert Hs. generalize (new_round genesis : Round T X). induction Hops as [|op ops Hop Hops IH]; intros s Hs; [by exists s|].
  destruct (round_step_ok op s Hop Hs) as (s' & Hs' & H'). cbn [each]. rewrite Hs'. cbn [mbind res_bind]. by apply IH.
Qed.

(** Disputes are what the sets say. *)
Definition disputes_exact s r : Prop :=
  set_id (txns r) = position (r_position r) /\
  (forall i tx d, disputes r !! i = Some (tx, d) -> tx_id tx = i /\ ourVote d = set_exists (txns r) i /\
     yays d = count_votes true (votes d) /\ nays d = count_votes false (votes d) /\ forall n v, votes d !! n = Some v -> is_Some (currPeerPositions_ s !! n)) /\
  (forall n p t i, currPeerPositions_ s !! n = Some p -> acquired_ s !! position p = Some t ->
     (set_exists (txns r) i <> set_exists t i -> is_Some (disputes r !! i)) /\
     (forall tx d, disputes r !! i = Some (tx, d) -> votes d !! n = Some (set_exists t i))) /\
  (forall i, is_Some (disputes r !! i) -> contested (acquired_ s) r i).


(** Enough of the participants agree. *)
Definition agreed (a : Adaptor T) s r : Prop :=
  let peers := Z.of_nat (size (currPeerPositions_ s)) in
  let self := Z.b2z (bool_decide (mode_ s = Proposing)) in
  match state r with
  | CS_Yes => peers = 0 \/ minCONSENSUS_PCT parms * (peers + self) <= (agreeing s (position (r_position r)) + self) * 100
  | CS_MovedOn => peers = 0 \/ minCONSENSUS_PCT parms * peers <= proposersFinished a (previousLedger_ s) (prevLedgerID_ s) * 100
  | CS_No => False
  end.

(** C5. A ledger is accepted only with agreement. In any state that calls lead to, a
    timer call returns, and if it accepts, then its last act is to report the result it
    stands by: after the least time of a round; with the share of participants that the
    parameters ask for at our very position, ourselves included if we propose, or with
    that share of peers seen to have validated a later ledger; and with enough of them
    for the close time that we report. *)
Theorem accepted_with_agreement ops genesis a now s : Forall op_ok ops -> round_run ops genesis = Ok s -> phase_ s <> Accepted -> adaptor_ok a -> settled a ->
  0 <= minCONSENSUS_PCT parms -> exists s', timerEntry parms order 2 a now s = Ok s' /\
    (phase_ s' = Accepted -> Z.of_nat (size (currPeerPositions_ s')) < 2 ^ 56 -> 0 <= proposersFinished a (previousLedger_ s') (prevLedgerID_ s') < 2 ^ 56 ->
     exists r evs, result_ s' = Some r /\ out_ s' = Ev_accept false r (previousLedger_ s') (closeResolution_ s') (rawPeers_ s') (rawSelf_ s') (mode_ s') :: evs /\
       ledgerMIN_CONSENSUS parms <= dur_ (roundTime r) /\ agreed a s' r /\ close_agreed s' r).
Proof.
  intros Hops Hrun Hph Ha Hset Hpct. destruct (round_run_ok ops genesis Hops) as (s0 & Hs0 & Hok). assert (s0 = s) as -> by congruence.
  destruct (timerEntry_ok a now s Ha Hset Hok Hph) as (s' & -> & _ & Hacc). exists s'. split; [done|]. intros Hph' Hsz Hfin.
  destruct (Hacc Hph') as (r & evs & Hr & Hev & Hmin & _ & Hct & Hst). exists r, evs. split_and!; [done..| |done]. unfold agreed.
  assert (Hle : 0 <= agreeing s' (position (r_position r)) <= Z.of_nat (size (currPeerPositions_ s'))).
  { unfold agreeing. split; [lia|]. apply inj_le, map_subseteq_size, map_filter_subseteq. }
  destruct (state r); [done| |]; apply checkConsensusReached_iff in Hst; cbn [Z.b2z] in *; rewrite ?Z.add_0_r in *; try lia; done.
Qed.

End Inv.

(** ** A transaction set *)

(** Sets of numbers, each number a transaction. *)
#[local] Instance number_sets : TxSetOps (gset Z) Z := {
  tx_id x := x;
  set_id t := Z.pos (encode t);
  set_exists t i := bool_decide (i ∈ t);
  set_find t i := if bool_decide (i ∈ t) then Some i else None;
  set_compare t o := map (fun i => (i, bool_decide (i ∈ t))) (elements ((t ∖ o) ∪ (o ∖ t)));
  set_insert x t := {[x]} ∪ t;
  set_erase i t := t ∖ {[i]} }.

#[local] Instance number_sets_laws : TxSetLaws (gset Z) Z.
Proof.
  constructor; cbn.
  - intros t i. rewrite bool_decide_eq_true. split; [intros Hi; exists i; by rewrite bool_decide_true|intros (x & Hx & <-); by case_bool_decide].
  - intros t i x. case_bool_decide; congruence.
  - intros t o i b. rewrite in_map_iff. setoid_rewrite <-list_elem_of_In. setoid_rewrite elem_of_elements. split.
    + intros (j & [= -> <-] & Hj). repeat case_bool_decide; cbn; set_solver.
    + intros [<- Ho]. exists i. split; [done|]. repeat case_bool_decide; cbn in *; set_solver.
  - intros x t i. destruct (Z.eqb_spec x i); repeat case_bool_decide; cbn; set_solver.
  - intros t i j. destruct (Z.eqb_spec i j); repeat case_bool_decide; cbn; set_solver.
  - intros t o Hto i. assert (t = o) as ->; [|done]. apply (inj encode). by injection Hto.
Qed.

Definition any_order (A : Type) (l : list (Z * A)) : list (Z * A) := l.

Definition first_ledger : Ledger := mkLedger 1 1 30 true 1000 990.

(** A peer that has transaction 1, while we have 1 and 2; the clock in milliseconds. *)
Definition sample_adaptor (ms : Z) : Adaptor (gset Z) :=
  mkAdaptor (ms * 1000000) (fun id => if id =? 1 then Some first_ledger else None)
    (fun id => if id =? Z.pos (encode ({[1]} : gset Z)) then Some {[1]} else None) true (fun _ => 0) (fun _ _ => 0) (fun _ _ _ => 1)
    (fun l now m => ({[1; 2]}, mkProposal 1 seqJoin (Z.pos (encode ({[1; 2]} : gset Z))) now now 0)) 1 (0, ∅) (fun _ _ => (0, ∅)) false false.

Lemma sample_adaptor_ok ms : adaptor_ok (X := Z) (sample_adaptor ms) /\ settled (sample_adaptor ms).
Proof.
  split; [split|].
  - intros i t Ht. cbn in Ht. destruct (Z.eqb_spec i (Z.pos (encode ({[1]} : gset Z)))) as [->|]; [|done]. by injection Ht as <-.
  - done.
  - intros id l m l'. cbn. by intros [= <-].
Qed.

Definition sample_ops : list (@RoundOp (gset Z)) :=
  [Op_start (sample_adaptor 0) 1010 1 first_ledger ∅ true;
   Op_peer (sample_adaptor 1000) 1011 (mkProposal 1 seqJoin (Z.pos (encode ({[1]} : gset Z))) 1010 1011 7);
   Op_timer (sample_adaptor 3000) 1013].

Lemma sample_ops_ok : Forall (op_ok (X := Z)) sample_ops.
Proof. unfold sample_ops. repeat (apply Forall_cons; split); cbn [op_ok]; [apply sample_adaptor_ok..|constructor]. Qed.

(** The phase, the number of peers, and of our result the disputed transactions with our
    votes, the position and the outcome. *)
Definition sample_summary (s : res (Round (gset Z) Z)) : option (ConsensusPhase * nat * option (list (Z * bool) * Z * ConsensusState)) :=
  match s with
  | Ok s => Some (phase_ s, size (currPeerPositions_ s), (fun r => (map (fun '(i, (_, d)) => (i, ourVote d)) (map_to_list (disputes r)), position (r_position r), state r)) <$> result_ s)
  | Throw _ => None
  end.

Definition sample_run : res (Round (gset Z) Z) := round_run defaultParms any_order sample_ops first_ledger.


(** With time we give up transaction 2, and the ledger with transaction 1 is accepted. *)
Lemma accepted_with_agreement_witness : exists s s' r evs, sample_run = Ok s /\ timerEntry defaultParms any_order 2 (sample_adaptor 9000) 1016 s = Ok s' /\
  sample_summary (Ok s') = Some (Accepted, 1%nat, Some ([(2, false)], Z.pos (encode ({[1]} : gset Z)), CS_Yes)) /\
  result_ s' = Some r /\ out_ s' = Ev_accept false r (previousLedger_ s') (closeResolution_ s') (rawPeers_ s') (rawSelf_ s') (mode_ s') :: evs /\
  ledgerMIN_CONSENSUS defaultParms <= dur_ (roundTime r) /\ agreed defaultParms (sample_adaptor 9000) s' r /\ close_agreed defaultParms s' r.
Proof.
  destruct sample_run as [s|e] eqn:Hs; [|apply (f_equal sample_summary) in Hs; vm_compute in Hs; discriminate Hs].
  assert (Hph : phase_ s <> Accepted).
  { assert (E : sample_summary (Ok s) = Some (Establish, 1%nat, Some ([(2, true)], Z.pos (encode ({[1; 2]} : gset Z)), CS_No))) by (rewrite <-Hs; vm_compute; reflexivity).
    cbn in E. injection E as E _ _. rewrite E. discriminate. }
  destruct (accepted_with_agreement defaultParms any_order (fun A l => Permutation_refl l) sample_ops first_ledger (sample_adaptor 9000) 1016 s sample_ops_ok Hs Hph) as (s' & Hs' & Hacc);
    [apply sample_adaptor_ok..|vm_compute; discriminate|].
  assert (Hsum : sample_summary (Ok s') = Some (Accepted, 1%nat, Some ([(2, false)], Z.pos (encode ({[1]} : gset Z)), CS_Yes))).
  { assert (E : (s ← sample_run; timerEntry defaultParms any_order 2 (sample_adaptor 9000) 1016 s) = Ok s') by (rewrite Hs; exact Hs'). rewrite <-E. vm_compute. reflexivity. }
  pose proof Hsum as Hp. cbn in Hp. injection Hp as Hp Hsz _. destruct Hacc as (r & evs & H1 & H2 & H3 & H4 & H5); [exact Hp|rewrite Hsz; reflexivity|split; [discriminate|reflexivity]|].
  exists s, s', r, evs. exact (conj eq_refl (conj Hs' (conj Hsum (conj H1 (conj H2 (conj H3 (conj H4 H5))))))).
Defined.
