(* ===== verification/LedgerTrie.v ===== *)
(** * The ledger ancestry trie

    Models consensus/LedgerTrie.h: a compressed trie over ledger histories that
    counts, for every ledger, the validations for it and for its descendants. A
    ledger is the list of the IDs of its ancestors, genesis first and itself
    last; [mismatch] is the sequence number of the first difference. The theorems
    show that the trie answers tip and branch support as the plain multiset of
    validations does, under any sequence of insertions and removals. *)

From S2P Require Import Prelude.

(** ** Ledgers

    [ledger[s]], the zero ID when unknown; sequence numbers start at 0. *)
Abbreviation Ledger := (list Z).
Definition ancestor (l : Ledger) (s : nat) : Z := nth s l 0.
Definition seq_of (l : Ledger) : nat := pred (length l).
Definition id_of (l : Ledger) : Z := ancestor l (seq_of l).

Fixpoint mismatch (a b : Ledger) : nat :=
  match a, b with
  | x :: a, y :: b => if x =? y then S (mismatch a b) else O
  | _, _ => O
  end.

(** ** Spans: the half-open interval [start, end) of a ledger's history *)

Record Span := mkSpan { start_ : nat; end_ : nat; ledger_ : Ledger }.

Definition span_of (l : Ledger) : Span := mkSpan 0 (seq_of l + 1) l.

Definition clamp (s : Span) (val : nat) : nat := Nat.min (Nat.max (start_ s) val) (end_ s).

Definition sub_span (s : Span) (from to : nat) : option Span :=
  let newFrom := clamp s from in
  let newTo := clamp s to in
  if (newFrom <? newTo)%nat then Some (mkSpan newFrom newTo (ledger_ s)) else None.

Definition span_from (s : Span) (spot : nat) : option Span := sub_span s spot (end_ s).
Definition span_before (s : Span) (spot : nat) : option Span := sub_span s (start_ s) spot.
Definition startID (s : Span) : Z := ancestor (ledger_ s) (start_ s).
Definition diff (s : Span) (o : Ledger) : nat := clamp s (mismatch (ledger_ s) o).
Definition tip_seq (s : Span) : nat := end_ s - 1.
Definition tip_id (s : Span) : Z := ancestor (ledger_ s) (tip_seq s).

Definition merge_span (a b : Span) : Span :=
  if (end_ a <? end_ b)%nat
  then mkSpan (Nat.min (start_ a) (start_ b)) (end_ b) (ledger_ b)
  else mkSpan (Nat.min (start_ a) (start_ b)) (end_ a) (ledger_ a).

(** ** Nodes; parents are implicit in the tree *)

Inductive Node := mkNode (span : Span) (tipSupport branchSupport : Z) (children : list Node).

Definition n_span (n : Node) : Span := let 'mkNode s _ _ _ := n in s.
Definition n_tip (n : Node) : Z := let 'mkNode _ t _ _ := n in t.
Definition n_branch (n : Node) : Z := let 'mkNode _ _ b _ := n in b.
Definition n_children (n : Node) : list Node := let 'mkNode _ _ _ cs := n in cs.

Record LedgerTrie := mkTrie { root : Node; seqSupport : gmap nat Z }.

(** The empty trie: the genesis ledger without support. *)
Definition empty_trie (genesis : Z) : LedgerTrie := mkTrie (mkNode (mkSpan 0 1 [genesis]) 0 0 []) ∅.

(** ** find and findByLedgerID *)

(** The first child whose span matches the ledger beyond [pos]. *)
Fixpoint child_matching {R} (ledger : Ledger) (pos : nat) (f : Node -> nat -> R) (cs : list Node) : option R :=
  match cs with
  | [] => None
  | c :: cs =>
      let childPos := diff (n_span c) ledger in
      if (pos <? childPos)%nat then Some (f c childPos) else child_matching ledger pos f cs
  end.

(** The loop of [find] from a node and position: while the whole span matches, go
    to the first child that matches further. *)
Fixpoint find_from (ledger : Ledger) (n : Node) (pos : nat) : Node * nat :=
  let 'mkNode sp _ _ cs := n in
  if (pos =? end_ sp)%nat
  then default (n, pos) (child_matching ledger pos (find_from ledger) cs)
  else (n, pos).

Definition find (t : LedgerTrie) (ledger : Ledger) : Node * nat :=
  find_from ledger (root t) (diff (n_span (root t)) ledger).

(** The first child the search succeeds in. *)
Fixpoint first_found {R} (f : Node -> option R) (cs : list Node) : option R :=
  match cs with
  | [] => None
  | c :: cs => match f c with Some r => Some r | None => first_found f cs end
  end.

Fixpoint findByLedgerID (id : Z) (n : Node) : option Node :=
  let 'mkNode sp _ _ cs := n in
  if id =? tip_id sp then Some n else first_found (findByLedgerID id) cs.

(** ** insert *)

(** The work at [loc], the node [find] stops at, with the increment of its support. *)
Definition insert_at (ledger : Ledger) (count : Z) (n : Node) (diffSeq : nat) : Node :=
  let 'mkNode sp tip branch cs := n in
  let prefix := span_before sp diffSeq in
  let oldSuffix := span_from sp diffSeq in
  let newSuffix := span_from (span_of ledger) diffSeq in
  let '(sp, tip, cs) :=
    match oldSuffix with
    | Some old => (match prefix with Some pre => pre | None => sp end, 0, [mkNode old tip branch cs])
    | None => (sp, tip, cs)
    end in
  match newSuffix with
  | Some new => mkNode sp tip (u32 (branch + count)) (cs ++ [mkNode new (u32 (0 + count)) (u32 (0 + count)) []])
  | None => mkNode sp (u32 (tip + count)) (u32 (branch + count)) cs
  end.

(** Change the first child whose span matches the ledger beyond [pos]. *)
Fixpoint update_matching (ledger : Ledger) (pos : nat) (f : Node -> nat -> Node) (cs : list Node)
    : option (list Node) :=
  match cs with
  | [] => None
  | c :: cs =>
      let childPos := diff (n_span c) ledger in
      if (pos <? childPos)%nat then Some (f c childPos :: cs)
      else (c ::.) <$> update_matching ledger pos f cs
  end.

(** Descend as [find] does, insert there, and increment branch support up to the root. *)
Fixpoint insert_from (ledger : Ledger) (count : Z) (n : Node) (pos : nat) : Node :=
  let 'mkNode sp tip branch cs := n in
  if (pos =? end_ sp)%nat then
    match update_matching ledger pos (insert_from ledger count) cs with
    | Some cs => mkNode sp tip (u32 (branch + count)) cs
    | None => insert_at ledger count n pos
    end
  else insert_at ledger count n pos.

Definition insert_ledger (ledger : Ledger) (count : Z) (t : LedgerTrie) : LedgerTrie :=
  mkTrie (insert_from ledger count (root t) (diff (n_span (root t)) ledger))
    (<[seq_of ledger := u32 (default 0 (seqSupport t !! seq_of ledger) + count)]> (seqSupport t)).

(** ** remove *)

(** What the loop after the decrement leaves of a node: kept and the loop stops,
    erased, or merged with its only child; after the last two the loop goes on at
    the parent. *)
Inductive Removed := R_stop (n : Node) | R_erased | R_merged (n : Node).

Definition compress (sp : Span) (tip branch : Z) (cs : list Node) : Removed :=
  if tip =? 0 then
    match cs with
    | [] => R_erased
    | [mkNode csp ctip cbranch ccs] => R_merged (mkNode (merge_span sp csp) ctip cbranch ccs)
    | _ => R_stop (mkNode sp tip branch cs)
    end
  else R_stop (mkNode sp tip branch cs).

(** [Node::erase] swaps the last child into the erased one's place. *)
Definition swap_pop (before after : list Node) : list Node :=
  match last after with
  | None => before
  | Some l => before ++ l :: removelast after
  end.

(** The children after one of them was handled, and whether the loop goes on. *)
Definition put_child (before : list Node) (r : Removed) (after : list Node) : bool * list Node :=
  match r with
  | R_stop c => (false, before ++ c :: after)
  | R_erased => (true, swap_pop before after)
  | R_merged c => (true, before ++ c :: after)
  end.

(** The first child the removal succeeds in, with those before and after it. *)
Fixpoint remove_child (rm : Node -> option Removed) (before cs : list Node) : option (bool * list Node) :=
  match cs with
  | [] => None
  | c :: cs =>
      match rm c with
      | Some r => Some (put_child before r cs)
      | None => remove_child rm (before ++ [c]) cs
      end
  end.

Fixpoint remove_from (id : Z) (count : Z) (n : Node) : option Removed :=
  let 'mkNode sp tip branch cs := n in
  if id =? tip_id sp then Some (compress sp (u32 (tip - count)) (u32 (branch - count)) cs) else
  match remove_child (remove_from id count) [] cs with
  | None => None
  | Some (true, cs) => Some (compress sp tip (u32 (branch - count)) cs)
  | Some (false, cs) => Some (R_stop (mkNode sp tip (u32 (branch - count)) cs))
  end.

(** The root is never compressed. *)
Definition remove_root (id : Z) (count : Z) (n : Node) : Node :=
  let 'mkNode sp tip branch cs := n in
  if id =? tip_id sp then mkNode sp (u32 (tip - count)) (u32 (branch - count)) cs else
  match remove_child (remove_from id count) [] cs with
  | None => n
  | Some (_, cs) => mkNode sp tip (u32 (branch - count)) cs
  end.

Definition remove_ledger (ledger : Ledger) (count : Z) (t : LedgerTrie) : bool * LedgerTrie :=
  match findByLedgerID (id_of ledger) (root t) with
  | None => (false, t)
  | Some loc =>
      if n_tip loc =? 0 then (false, t) else
      let count := Z.min count (n_tip loc) in
      let support := u32 (default 0 (seqSupport t !! seq_of ledger) - count) in
      (true, mkTrie (remove_root (id_of ledger) count (root t))
               (if support =? 0 then delete (seq_of ledger) (seqSupport t)
                else <[seq_of ledger := support]> (seqSupport t)))
  end.

(** ** Queries *)

Definition tipSupport (t : LedgerTrie) (ledger : Ledger) : Z :=
  match findByLedgerID (id_of ledger) (root t) with Some loc => n_tip loc | None => 0 end.

Definition branchSupport (t : LedgerTrie) (ledger : Ledger) : Z :=
  match findByLedgerID (id_of ledger) (root t) with
  | Some loc => n_branch loc
  | None =>
      let (loc, diffSeq) := find t ledger in
      if (seq_of ledger <? diffSeq)%nat && (seq_of ledger <? end_ (n_span loc))%nat
      then n_branch loc else 0
  end.

Definition empty (t : LedgerTrie) : bool := n_branch (root t) =? 0.

(** ** Support counted over the nodes *)

(** Sum of the counts of the ledgers in [p]. *)
Fixpoint total (p : Ledger -> bool) (xs : list (Ledger * Z)) : Z :=
  match xs with
  | [] => 0
  | (l, c) :: xs => (if p l then c else 0) + total p xs
  end.

(** The ledger a node stands for. *)
Definition n_ledger (n : Node) : Ledger := take (end_ (n_span n)) (ledger_ (n_span n)).

Fixpoint nodes (n : Node) : list (Ledger * Z) :=
  let 'mkNode sp tip _ cs := n in
  (take (end_ sp) (ledger_ sp), tip) :: concat (nodes <$> cs).

Definition forest (cs : list Node) : list (Ledger * Z) := concat (nodes <$> cs).

Fixpoint branches (cs : list Node) : Z :=
  match cs with [] => 0 | c :: cs => n_branch c + branches cs end.

Lemma total_app p xs ys : total p (xs ++ ys) = total p xs + total p ys.
Proof. induction xs as [|[l c] xs IH]; cbn; [done|]. rewrite IH. lia. Qed.

Lemma total_none p xs : (forall l c, (l, c) ∈ xs -> p l = false) -> total p xs = 0.
Proof.
  induction xs as [|[l c] xs IH]; intros H; cbn; [done|]. rewrite (H l c) by left.
  rewrite IH; [done|]. intros l' c' Hin. apply (H l' c'). by right.
Qed.

Lemma total_all p xs : (forall l c, (l, c) ∈ xs -> p l = true) -> total p xs = total (fun _ => true) xs.
Proof.
  induction xs as [|[l c] xs IH]; intros H; cbn; [done|]. rewrite (H l c) by left.
  rewrite IH; [done|]. intros l' c' Hin. apply (H l' c'). by right.
Qed.

Lemma forest_app a b : forest (a ++ b) = forest a ++ forest b.
Proof. unfold forest. by rewrite fmap_app, concat_app. Qed.

Lemma forest_cons c cs : forest (c :: cs) = nodes c ++ forest cs.
Proof. done. Qed.

Lemma branches_app a b : branches (a ++ b) = branches a + branches b.
Proof. induction a as [|c a IH]; cbn; [done|]. rewrite IH. lia. Qed.

Lemma Node_ind' (P : Node -> Prop) :
  (forall sp t b cs, Forall P cs -> P (mkNode sp t b cs)) -> forall n, P n.
Proof.
  intros H. fix IH 1. intros [sp t b cs]. apply H.
  induction cs as [|c cs IHcs]; constructor; [apply IH|exact IHcs].
Qed.

Lemma elem_of_forest cs l c : (l, c) ∈ forest cs <-> exists n, n ∈ cs /\ (l, c) ∈ nodes n.
Proof.
  induction cs as [|n cs IH].
  - split; [by intros ?%elem_of_nil|]. by intros (n & ?%elem_of_nil & _).
  - rewrite forest_cons, elem_of_app, IH. setoid_rewrite elem_of_cons. naive_solver.
Qed.

(** ** Common prefixes *)

Lemma mismatch_spec a b :
  take (mismatch a b) a = take (mismatch a b) b /\
  (mismatch a b <= length a)%nat /\ (mismatch a b <= length b)%nat /\
  (forall x, a !! mismatch a b = Some x -> b !! mismatch a b <> Some x).
Proof.
  revert b. induction a as [|x a IH]; intros [|y b]; cbn; [split_and!; try done; lia..|].
  destruct (Z.eqb_spec x y) as [->|Hne]; cbn.
  - destruct (IH b) as (H1 & H2 & H3 & H4). split_and!; [by rewrite H1|lia|lia|done].
  - split_and!; [done|lia|lia|]. intros z [= ->] [= ->]. done.
Qed.

Lemma take_agree {A} (a b : list A) i j : take j a = take j b -> (i < j)%nat -> a !! i = b !! i.
Proof. intros H Hi. rewrite <-(lookup_take_lt a j i), <-(lookup_take_lt b j i) by done. by rewrite H. Qed.

(** The histories agree below [k] exactly when the mismatch is not below it. *)
Lemma mismatch_ge a b k :
  (k <= length a)%nat -> (k <= length b)%nat -> (k <= mismatch a b)%nat <-> take k a = take k b.
Proof.
  intros Ha Hb. destruct (mismatch_spec a b) as (H1 & H2 & H3 & H4). split.
  - intros Hk. rewrite <-(Nat.min_l k (mismatch a b)) by done.
    by rewrite <-!take_take, H1.
  - intros Hk. destruct (decide (k <= mismatch a b)%nat) as [|Hn]; [done|exfalso].
    destruct (lookup_lt_is_Some_2 a (mismatch a b)) as [x Hx]; [lia|].
    apply (H4 x Hx). rewrite <-Hx. symmetry. apply (take_agree a b _ k); [done|lia].
Qed.

Lemma ancestor_lookup l s : (s < length l)%nat -> l !! s = Some (ancestor l s).
Proof. intros H. unfold ancestor. destruct (nth_lookup_or_length l s 0); [done|lia]. Qed.

Lemma take_prefix_lookup (l m : Ledger) i : take (S i) l `prefix_of` m -> (i < length l)%nat -> m !! i = l !! i.
Proof.
  intros [k ->] Hi. rewrite lookup_app_l by (rewrite length_take; lia). apply lookup_take_lt. lia.
Qed.

(** ** The invariant *)

Section Trie.
(** The ledgers that exist: closed under ancestry, each determined by its ID, and
    all descending from one genesis ledger. *)
Context (known : Ledger -> Prop) (genesis : Z).

Class Histories : Prop := {
  known_ancestor : forall l k, known l -> (0 < k)%nat -> known (take k l);
  known_unique : forall a b, known a -> known b -> id_of a = id_of b -> a = b;
  known_genesis : forall l, known l -> head l = Some genesis;
  known_root : known [genesis]
}.

(** A node continues its parent's ledger [P]; its children start with distinct
    IDs; branch support adds up. *)
Inductive node_ok : Ledger -> Node -> Prop :=
| node_ok_intro P sp tip branch cs :
    length P = start_ sp -> take (start_ sp) (ledger_ sp) = P ->
    (start_ sp < end_ sp)%nat -> (end_ sp <= length (ledger_ sp))%nat ->
    known (take (end_ sp) (ledger_ sp)) ->
    0 <= tip -> branch = tip + branches cs ->
    Forall (node_ok (take (end_ sp) (ledger_ sp))) cs ->
    Forall (fun c => n_tip c = 0 -> (2 <= length (n_children c))%nat) cs ->
    NoDup ((fun c => startID (n_span c)) <$> cs) ->
    node_ok P (mkNode sp tip branch cs).

(** A node other than the root with no support of its own has several children. *)
Definition dense (n : Node) : Prop := n_tip n = 0 -> (2 <= length (n_children n))%nat.

Lemma node_ok_branch P n : node_ok P n -> 0 <= n_branch n /\ n_branch n = total (fun _ => true) (nodes n).
Proof.
  revert P. induction n as [sp t b cs IH] using Node_ind'. intros P Hok.
  inversion Hok as [? ? ? ? ? _ _ _ _ _ Ht Hb Hcs _ _]; subst. cbn.
  assert (H : 0 <= branches cs /\ branches cs = total (fun _ => true) (forest cs)).
  { clear Hok. induction cs as [|c cs IHcs]; [done|]. apply Forall_cons in IH as [IHc IH].
    apply Forall_cons in Hcs as [Hc Hcs]. destruct (IHc _ Hc), (IHcs IH Hcs).
    rewrite forest_cons, total_app. cbn. lia. }
  unfold forest in H. lia.
Qed.

Lemma branches_bound Q cs c : Forall (node_ok Q) cs -> c ∈ cs -> n_branch c <= branches cs.
Proof.
  intros Hcs. induction cs as [|d cs IH]; [by intros ?%elem_of_nil|]. apply Forall_cons in Hcs as [Hd Hcs].
  assert (H0 : 0 <= branches cs).
  { clear IH. induction cs as [|e cs IH]; [done|]. apply Forall_cons in Hcs as [He Hcs]. cbn.
    pose proof (node_ok_branch _ _ He). specialize (IH Hcs). lia. }
  cbn. intros [->|Hin]%elem_of_cons; [lia|]. specialize (IH Hcs Hin). pose proof (node_ok_branch _ _ Hd). lia.
Qed.

(** The ledger of a node continues [P] with the node's start ID. *)
Lemma node_ok_ledger P n :
  node_ok P n -> P `prefix_of` n_ledger n /\ (length P < length (n_ledger n))%nat /\
    n_ledger n !! length P = Some (startID (n_span n)) /\ known (n_ledger n) /\
    length (n_ledger n) = end_ (n_span n) /\ id_of (n_ledger n) = tip_id (n_span n).
Proof.
  intros Hok. inversion Hok as [? sp ? ? ? Hl HP Hse Hel Hk _ _ _ _ _]; subst. unfold n_ledger. cbn.
  rewrite !Hl, !length_take, (Nat.min_l (end_ sp)) by lia. split_and!; try done.
  - replace (start_ sp) with (Nat.min (start_ sp) (end_ sp)) by lia. rewrite <-take_take. apply prefix_take.
  - rewrite lookup_take_lt by done. by apply ancestor_lookup; lia.
  - unfold id_of, tip_id, seq_of, tip_seq, ancestor. rewrite length_take, Nat.min_l by lia.
    rewrite !nth_lookup, lookup_take_lt by lia. by rewrite Nat.sub_1_r.
Qed.

(** All ledgers in a subtree continue the subtree's root. *)
Lemma nodes_extend P n l c : node_ok P n -> (l, c) ∈ nodes n -> n_ledger n `prefix_of` l /\ known l /\ 0 <= c.
Proof.
  revert P. induction n as [sp t b cs IH] using Node_ind'. intros P Hok.
  pose proof (node_ok_ledger _ _ Hok) as (_ & _ & _ & Hk & _).
  inversion Hok as [? ? ? ? ? _ _ _ _ _ Ht _ Hcs _ _]; subst. cbn.
  intros [[= -> ->]|Hin]%elem_of_cons; [done|].
  apply elem_of_forest in Hin as (d & Hd & Hin). rewrite Forall_forall in IH, Hcs.
  destruct (IH d Hd _ (Hcs d Hd) Hin) as (Hpre & ? & ?). split; [|done].
  destruct (node_ok_ledger _ _ (Hcs d Hd)) as (Hp & _). by etrans.
Qed.

(** ** Insertion *)

Lemma span_before_at sp pos :
  (start_ sp < pos <= end_ sp)%nat -> span_before sp pos = Some (mkSpan (start_ sp) pos (ledger_ sp)).
Proof.
  intros H. unfold span_before, sub_span, clamp. rewrite (Nat.max_l (start_ sp)), Nat.max_r, !Nat.min_l by lia.
  by rewrite (proj2 (Nat.ltb_lt _ _)) by lia.
Qed.

Lemma span_from_at sp pos :
  (start_ sp <= pos <= end_ sp)%nat -> (start_ sp <= end_ sp)%nat ->
  span_from sp pos = if (pos <? end_ sp)%nat then Some (mkSpan pos (end_ sp) (ledger_ sp)) else None.
Proof.
  intros H H'. unfold span_from, sub_span, clamp.
  rewrite !(Nat.max_r (start_ sp)), Nat.min_id, Nat.min_l by lia. done.
Qed.

Lemma span_of_length l : l <> [] -> span_of l = mkSpan 0 (length l) l.
Proof. intros H. unfold span_of, seq_of. destruct l; [done|]. cbn. f_equal. lia. Qed.

Lemma diff_spec sp l :
  (start_ sp < end_ sp)%nat -> (end_ sp <= length (ledger_ sp))%nat -> (start_ sp < diff sp l)%nat ->
  (diff sp l <= end_ sp)%nat /\ (diff sp l <= length l)%nat /\
  take (diff sp l) (ledger_ sp) = take (diff sp l) l /\
  ((diff sp l < end_ sp)%nat -> forall x, ledger_ sp !! diff sp l = Some x -> l !! diff sp l <> Some x).
Proof.
  intros Hse Hel Hd. destruct (mismatch_spec (ledger_ sp) l) as (H1 & H2 & H3 & H4).
  unfold diff, clamp in *. set (k := mismatch (ledger_ sp) l) in *.
  assert (Hk : (start_ sp < k)%nat) by lia. rewrite Nat.max_r in * by lia.
  destruct (Nat.le_gt_cases k (end_ sp)) as [Hle|Hgt].
  - rewrite Nat.min_l in * by done. done.
  - rewrite Nat.min_r in * by lia. split_and!; [done|lia| |lia].
    apply (mismatch_ge (ledger_ sp) l); [lia..|]. fold k. lia.
Qed.

Lemma leaf_ok l pos count :
  known l -> (pos < length l)%nat -> 0 < count ->
  node_ok (take pos l) (mkNode (mkSpan pos (length l) l) count count []).
Proof.
  intros Hk Hp Hc. constructor; cbn; try done; try lia.
  - rewrite length_take. lia.
  - by rewrite take_ge.
  - constructor.
Qed.

(** What inserting does to a subtree. *)
Definition inserted (l : Ledger) (count : Z) (P : Ledger) (n n' : Node) : Prop :=
  node_ok P n' /\ (dense n -> dense n') /\ n_branch n' = n_branch n + count /\
  start_ (n_span n') = start_ (n_span n) /\ startID (n_span n') = startID (n_span n) /\
  forall p, total p (nodes n') = total p (nodes n) + (if p l then count else 0).

Context {hist : Histories}.

Lemma insert_at_end P sp tip branch cs l count :
  node_ok P (mkNode sp tip branch cs) -> known l -> 0 < count -> branch + count < 2 ^ 32 ->
  take (end_ sp) (ledger_ sp) = take (end_ sp) l -> (end_ sp <= length l)%nat ->
  (forall c, c ∈ cs -> l !! end_ sp <> Some (startID (n_span c))) ->
  inserted l count P (mkNode sp tip branch cs) (insert_at l count (mkNode sp tip branch cs) (end_ sp)).
Proof.
  intros Hok Hk Hc Hb Heq Hlen Hno.
  inversion Hok as [? ? ? ? ? H1 H2 H3 H4 H5 H6 H7 H8 H9 H10]; subst.
  destruct (node_ok_branch _ _ Hok) as [Hb0 _]. cbn [n_branch] in Hb0.
  assert (Hbr : 0 <= branches cs).
  { pose proof (node_ok_branch (take (start_ sp) (ledger_ sp)) (mkNode sp 0 (0 + branches cs) cs)) as H.
    apply H. by constructor. }
  unfold insert_at. rewrite (span_from_at sp) by lia. rewrite Nat.ltb_irrefl.
  rewrite span_of_length by (intros ->; cbn in Hlen; lia). rewrite span_from_at by (cbn; lia). cbn [end_ start_ ledger_].
  destruct (Nat.ltb_spec (end_ sp) (length l)) as [Hlt|Hge].
  - rewrite !u32_small by lia. rewrite Z.add_0_l. unfold inserted. cbn [n_branch n_span nodes]. split_and!; try done.
    + constructor; try done; [rewrite branches_app; cbn; lia| | |].
      * apply Forall_app. split; [done|]. constructor; [|done]. rewrite Heq. by apply leaf_ok.
      * apply Forall_app. split; [done|]. constructor; [|done]. cbn. lia.
      * rewrite fmap_app. apply NoDup_app. split_and!; [done| |by apply NoDup_singleton].
        intros i (c & -> & Hin)%list_elem_of_fmap Hi%list_elem_of_singleton. cbn in Hi. apply (Hno c Hin).
        rewrite Hi. unfold startID. cbn. by apply ancestor_lookup.
    + unfold dense. cbn. intros Hd Ht. specialize (Hd Ht). rewrite length_app. cbn. lia.
    + intros p. rewrite fmap_app, concat_app. cbn. rewrite total_app. cbn. rewrite (take_ge l) by lia. ring.
  - assert (Hl : take (end_ sp) (ledger_ sp) = l) by (rewrite Heq; by apply take_ge).
    rewrite !u32_small by lia. unfold inserted. cbn [n_branch n_span nodes]. split_and!; try done.
    + constructor; try done; lia.
    + unfold dense. cbn. lia.
    + intros p. cbn. rewrite Hl. destruct (p l); ring.
Qed.

Lemma insert_at_split P sp tip branch cs l count pos :
  node_ok P (mkNode sp tip branch cs) -> known l -> 0 < count -> branch + count < 2 ^ 32 ->
  (start_ sp < pos < end_ sp)%nat -> (pos <= length l)%nat -> take pos (ledger_ sp) = take pos l ->
  (forall x, ledger_ sp !! pos = Some x -> l !! pos <> Some x) ->
  dense (mkNode sp tip branch cs) ->
  inserted l count P (mkNode sp tip branch cs) (insert_at l count (mkNode sp tip branch cs) pos).
Proof.
  intros Hok Hk Hc Hb Hpos Hlen Heq Hno Hd.
  inversion Hok as [? ? ? ? ? H1 H2 H3 H4 H5 H6 H7 H8 H9 H10]; subst.
  destruct (node_ok_branch _ _ Hok) as [Hb0 Hb1]. cbn [n_branch] in Hb0.
  set (old := mkNode (mkSpan pos (end_ sp) (ledger_ sp)) tip (tip + branches cs) cs).
  assert (Hold : node_ok (take pos (ledger_ sp)) old).
  { constructor; cbn; try done; try lia. rewrite length_take. lia. }
  assert (Hkp : known (take pos (ledger_ sp))).
  { replace pos with (Nat.min pos (end_ sp)) by lia. rewrite <-take_take. apply known_ancestor; [done|lia]. }
  assert (Hnodes : nodes old = (take (end_ sp) (ledger_ sp), tip) :: concat (nodes <$> cs)) by done.
  unfold insert_at. rewrite (span_before_at sp), (span_from_at sp) by lia. rewrite (proj2 (Nat.ltb_lt _ _)) by lia.
  rewrite span_of_length by (intros ->; cbn in Hlen; lia). rewrite span_from_at by (cbn; lia). cbn [end_ start_ ledger_].
  fold old. destruct (Nat.ltb_spec pos (length l)) as [Hlt|Hge].
  - rewrite !u32_small by lia. rewrite Z.add_0_l. unfold inserted. cbn [n_branch n_span]. split_and!; try done.
    + constructor; cbn [start_ end_ ledger_]; try done; try lia; [cbn; lia| | |].
      * constructor; [done|]. constructor; [|done]. rewrite Heq. by apply leaf_ok.
      * constructor; [done|]. constructor; [|done]. cbn. lia.
      * cbn. apply NoDup_cons. split; [|by apply NoDup_singleton]. intros Hi%list_elem_of_singleton.
        change (ancestor (ledger_ sp) pos = ancestor l pos) in Hi. apply (Hno (ancestor (ledger_ sp) pos)); [by apply ancestor_lookup; lia|].
        rewrite Hi. by apply ancestor_lookup.
    + intros _ _. cbn. lia.
    + intros p. change (nodes (mkNode ?s ?t ?b ?c)) with ((take (end_ s) (ledger_ s), t) :: concat (nodes <$> c)).
      cbn [end_ ledger_ fmap list_fmap concat app]. fold (nodes old). rewrite Hnodes. cbn. rewrite total_app. cbn.
      rewrite (take_ge l) by lia. destruct (p (take pos (ledger_ sp))); ring.
  - rewrite !u32_small by lia. rewrite Z.add_0_l. unfold inserted. cbn [n_branch n_span]. split_and!; try done.
    + constructor; cbn [start_ end_ ledger_]; try done; try lia; [cbn; lia|by constructor|by constructor|].
      cbn. by apply NoDup_singleton.
    + intros _. unfold dense. cbn. lia.
    + intros p. cbn [nodes end_ ledger_ fmap list_fmap concat app]. fold (nodes old). rewrite app_nil_r.
      assert (Hl : take pos (ledger_ sp) = l) by (rewrite Heq; by apply take_ge). rewrite Hl. cbn. ring.
Qed.

(** The child the descent takes: the one that starts with the ledger's next ID. *)
Lemma child_diff Q c l :
  node_ok Q c -> Q `prefix_of` l ->
  (length Q < diff (n_span c) l)%nat <-> l !! length Q = Some (startID (n_span c)).
Proof.
  intros Hok [k Hl]. inversion Hok as [? sp ? ? cs H1 H2 H3 H4 _ _ _ _ _ _]; subst Q. cbn [n_span].
  assert (HQ : take (start_ sp) l = take (start_ sp) (ledger_ sp)).
  { rewrite Hl. rewrite take_app_le by lia. rewrite take_take. by rewrite Nat.min_id. }
  assert (Hid : ledger_ sp !! start_ sp = Some (startID sp)) by (apply ancestor_lookup; lia).
  rewrite H1. split.
  - intros Hd. destruct (diff_spec sp l H3 H4 Hd) as (_ & _ & He & _). rewrite <-Hid. symmetry.
    by apply (take_agree _ _ _ (diff sp l)).
  - intros Hs. unfold diff, clamp.
    assert (start_ sp < mismatch (ledger_ sp) l)%nat; [|lia].
    apply lookup_lt_Some in Hs as Hlt. apply (mismatch_ge (ledger_ sp) l); [lia|lia|].
    rewrite !(take_S_r _ _ (startID sp)) by done. by rewrite HQ.
Qed.

Lemma update_matching_spec l pos f cs :
  match update_matching l pos f cs with
  | Some cs' => exists a c b, cs = a ++ c :: b /\ (pos < diff (n_span c) l)%nat /\
      cs' = a ++ f c (diff (n_span c) l) :: b
  | None => forall c, c ∈ cs -> ~ (pos < diff (n_span c) l)%nat
  end.
Proof.
  induction cs as [|c cs IH]; cbn [update_matching]; [intros c Hc; by apply elem_of_nil in Hc|].
  destruct (Nat.ltb_spec pos (diff (n_span c) l)) as [Hlt|Hge]; [by exists [], c, cs|].
  destruct (update_matching l pos f cs) as [cs'|]; cbn.
  - destruct IH as (a & d & b & -> & Hd & ->). by exists (c :: a), d, b.
  - intros d [->|Hd]%elem_of_cons; [lia|by apply IH].
Qed.

(** Replacing one child by one it was inserted in. *)
Lemma inserted_child P sp tip branch a c b l count c' :
  node_ok P (mkNode sp tip branch (a ++ c :: b)) -> branch + count < 2 ^ 32 -> 0 < count ->
  inserted l count (take (end_ sp) (ledger_ sp)) c c' ->
  inserted l count P (mkNode sp tip branch (a ++ c :: b)) (mkNode sp tip (u32 (branch + count)) (a ++ c' :: b)).
Proof.
  intros Hok Hb Hc (H1 & H2 & H3 & H4 & H5 & H6). destruct (node_ok_branch _ _ Hok) as [Hb0 _]. cbn in Hb0.
  inversion Hok as [? ? ? ? ? I1 I2 I3 I4 I5 I6 I7 I8 I9 I10]; subst.
  rewrite u32_small by lia. unfold inserted. cbn [n_branch n_span]. split_and!; try done.
  - apply Forall_app in I8 as [I8a [I8c I8b]%Forall_cons]. apply Forall_app in I9 as [I9a [I9c I9b]%Forall_cons].
    constructor; try done.
    + rewrite !branches_app. cbn. lia.
    + apply Forall_app. split; [done|]. by constructor.
    + apply Forall_app. split; [done|]. constructor; [by apply H2|done].
    + rewrite fmap_app, fmap_cons, H5. by rewrite fmap_app, fmap_cons in I10.
  - unfold dense. cbn. by rewrite !length_app.
  - intros p. cbn. rewrite !fmap_app, !fmap_cons, !concat_app. cbn. rewrite !total_app, H6. ring.
Qed.

Lemma insert_from_ok l count n : forall P pos,
  node_ok P n -> known l -> 0 < count -> n_branch n + count < 2 ^ 32 -> P `prefix_of` l ->
  pos = diff (n_span n) l -> (length P < pos)%nat -> (pos = end_ (n_span n) \/ dense n) ->
  inserted l count P n (insert_from l count n pos).
Proof.
  induction n as [sp tip branch cs IH] using Node_ind'. intros P pos Hok Hk Hc Hb HP Hpos Hlt Hd.
  cbn [n_span n_branch] in *. pose proof Hok as Hok'.
  inversion Hok' as [? ? ? ? ? I1 I2 I3 I4 I5 I6 I7 I8 I9 I10]; subst P0 sp0 tip0 branch0 cs0.
  rewrite I1, Hpos in Hlt. destruct (diff_spec sp l I3 I4 Hlt) as (D1 & D2 & D3 & D4). rewrite <-Hpos in *.
  cbn [insert_from]. destruct (Nat.eqb_spec pos (end_ sp)) as [->|Hne].
  - assert (HQ : take (end_ sp) (ledger_ sp) `prefix_of` l) by (rewrite D3; apply prefix_take).
    assert (Hlen : length (take (end_ sp) (ledger_ sp)) = end_ sp) by (rewrite length_take; lia).
    pose proof (update_matching_spec l (end_ sp) (insert_from l count) cs) as Hum.
    destruct (update_matching _ _ _ _) as [cs'|].
    + destruct Hum as (a & c & b & -> & Hcd & ->). apply inserted_child; [done..|].
      apply Forall_app in I8 as [I8a [I8c I8b]%Forall_cons]. apply Forall_app in IH as [_ [IHc _]%Forall_cons].
      apply Forall_app in I9 as [_ [I9c _]%Forall_cons].
      apply IHc; try done; [|by rewrite Hlen|by right].
      assert (n_branch c <= branches (a ++ c :: b)); [|lia].
      eapply branches_bound; [apply Forall_app; split; [exact I8a|by constructor]|]. set_solver.
    + apply insert_at_end; try done. intros c Hc'. rewrite <-Hlen.
      rewrite Forall_forall in I8. rewrite <-(child_diff _ c l (I8 c Hc') HQ). rewrite Hlen. by apply Hum.
  - apply insert_at_split; try done; [lia|by apply D4; lia|]. by destruct Hd.
Qed.

(** ** Lookup *)

(** Predicates that only hold of a ledger and its descendants. *)
Definition below (l : Ledger) (p : Ledger -> bool) : Prop := forall l', p l' = true -> l `prefix_of` l'.

Lemma total_subtree_none P n l p :
  node_ok P n -> below l p -> ~ (exists l', n_ledger n `prefix_of` l' /\ l `prefix_of` l') -> total p (nodes n) = 0.
Proof.
  intros Hok Hp Hno. apply total_none. intros l' c Hin. destruct (nodes_extend _ _ _ _ Hok Hin) as (H1 & _ & _).
  destruct (p l') eqn:E; [|done]. exfalso. apply Hno. exists l'. split; [done|]. by apply Hp.
Qed.

(** The other children hold no descendant of a ledger that continues with [c]'s start ID. *)
Lemma total_other Q a c b l p :
  Forall (node_ok Q) (a ++ c :: b) -> NoDup ((fun c => startID (n_span c)) <$> a ++ c :: b) ->
  l !! length Q = Some (startID (n_span c)) -> below l p ->
  total p (forest (a ++ c :: b)) = total p (nodes c).
Proof.
  intros Hcs Hd Hl Hp.
  assert (Hother : forall d, d ∈ a ++ b -> total p (nodes d) = 0).
  { intros d Hdin. assert (Hok : node_ok Q d) by (rewrite Forall_forall in Hcs; apply Hcs; set_solver).
    eapply total_subtree_none; [done|done|]. intros (l' & H1 & H2).
    destruct (node_ok_ledger _ _ Hok) as (_ & Hlen & Hid & _).
    assert (Heq : startID (n_span d) = startID (n_span c)).
    { apply (prefix_lookup_Some _ _ _ _ Hid) in H1. apply (prefix_lookup_Some _ _ _ _ Hl) in H2. congruence. }
    rewrite fmap_app, fmap_cons in Hd. apply NoDup_app in Hd as (_ & Hab & [Hcb _]%NoDup_cons).
    apply elem_of_app in Hdin as [Hdin|Hdin].
    - apply (Hab (startID (n_span d))); [apply list_elem_of_fmap; by exists d|]. rewrite Heq. left.
    - apply Hcb. rewrite <-Heq. apply list_elem_of_fmap. by exists d. }
  assert (Hzero : forall cs, (forall d, d ∈ cs -> d ∈ a ++ b) -> total p (forest cs) = 0).
  { induction cs as [|d cs IH]; intros Hsub; [done|]. rewrite forest_cons, total_app, Hother by (apply Hsub; left).
    rewrite IH; [done|]. intros e He. apply Hsub. by right. }
  rewrite forest_app, forest_cons, !total_app, !Hzero; [lia|set_solver..].
Qed.

Lemma first_found_spec {R} (f : Node -> option R) cs :
  match first_found f cs with
  | Some r => exists a c b, cs = a ++ c :: b /\ f c = Some r /\ (forall d, d ∈ a -> f d = None)
  | None => forall c, c ∈ cs -> f c = None
  end.
Proof.
  induction cs as [|c cs IH]; cbn; [by intros c Hc%elem_of_nil|].
  destruct (f c) as [r|] eqn:E; [exists [], c, cs; split_and!; [done..|]; by intros d Hd%elem_of_nil|].
  destruct (first_found f cs) as [r|].
  - destruct IH as (a & d & b & -> & Hd & Ha). exists (c :: a), d, b. split_and!; [done..|].
    intros e [->|He]%elem_of_cons; [done|by apply Ha].
  - intros d [->|Hd]%elem_of_cons; [done|by apply IH].
Qed.

Lemma below_self l : below l (fun l' => bool_decide (l' = l)).
Proof. intros l' H%bool_decide_eq_true. by subst. Qed.

Lemma below_prefix l : below l (fun l' => bool_decide (l `prefix_of` l')).
Proof. by intros l' H%bool_decide_eq_true. Qed.

(** [findByLedgerID] finds the node of exactly that ledger, with its own and its
    descendants' support. *)
Lemma find_id_spec l n : forall P,
  node_ok P n -> known l ->
  match findByLedgerID (id_of l) n with
  | Some m => n_ledger m = l /\ n_ledger n `prefix_of` l /\ 0 <= n_tip m <= n_branch n /\
      total (fun l' => bool_decide (l' = l)) (nodes n) = n_tip m /\
      total (fun l' => bool_decide (l `prefix_of` l')) (nodes n) = n_branch m
  | None => forall l' c, (l', c) ∈ nodes n -> l' <> l
  end.
Proof.
  induction n as [sp tip branch cs IH] using Node_ind'. intros P Hok Hk.
  pose proof (node_ok_ledger _ _ Hok) as (HP & HL & Hid & Hkn & Hlen & Htid). cbn [n_span] in *.
  destruct (node_ok_branch _ _ Hok) as [Hb0 Hb]. cbn [n_branch] in Hb0, Hb.
  pose proof Hok as Hok'. inversion Hok' as [? ? ? ? ? I1 I2 I3 I4 I5 I6 I7 I8 I9 I10]; subst P0 sp0 tip0 branch0 cs0.
  set (n := mkNode sp tip branch cs) in *. change (n_ledger n) with (take (end_ sp) (ledger_ sp)) in *. set (Q := take (end_ sp) (ledger_ sp)) in *.
  assert (Hext : forall l' c, (l', c) ∈ forest cs -> Q `prefix_of` l' /\ (length Q < length l')%nat).
  { intros l' c (d & Hd & Hin)%elem_of_forest. rewrite Forall_forall in I8.
    destruct (nodes_extend _ _ _ _ (I8 d Hd) Hin) as (H1 & _). destruct (node_ok_ledger _ _ (I8 d Hd)) as (H2 & H3 & _).
    split; [by etrans|]. apply prefix_length in H1. lia. }
  assert (Hbr : 0 <= branches cs).
  { assert (H : node_ok P (mkNode sp 0 (0 + branches cs) cs)) by by constructor. by destruct (node_ok_branch _ _ H). }
  cbn [findByLedgerID n]. destruct (Z.eqb_spec (id_of l) (tip_id sp)) as [He|Hne].
  - assert (HQ : Q = l) by (apply known_unique; [done..|by rewrite Htid]). subst l. split_and!; try done; [cbn; lia| |].
    + cbn. fold (forest cs) Q. rewrite bool_decide_true by done. rewrite total_none; [lia|].
      intros l' c Hin. apply bool_decide_false. intros ->. apply Hext in Hin as [_ Hin]. lia.
    + rewrite Hb. apply total_all. intros l' c Hin. apply bool_decide_true.
      by destruct (nodes_extend _ _ _ _ Hok Hin) as [H _].
  - assert (HQ : Q <> l) by (intros <-; by rewrite Htid in Hne).
    pose proof (first_found_spec (findByLedgerID (id_of l)) cs) as Hff. destruct (first_found _ cs) as [m|].
    + destruct Hff as (a & c & b & -> & Hc & Ha). apply Forall_app in IH as [_ [IHc _]%Forall_cons].
      pose proof I8 as I8'. apply Forall_app in I8' as [_ [I8c _]%Forall_cons].
      specialize (IHc _ I8c Hk). rewrite Hc in IHc. destruct IHc as (H1 & H2 & H3 & H4 & H5).
      destruct (node_ok_ledger _ _ I8c) as (J1 & J2 & J3 & _). fold Q in J1, J2, J3.
      assert (Hl : l !! length Q = Some (startID (n_span c))) by (by eapply prefix_lookup_Some).
      assert (Hll : (length Q < length l)%nat) by (apply prefix_length in H2; lia).
      assert (n_branch c <= branches (a ++ c :: b)) by (eapply branches_bound; [done|set_solver]).
      split_and!; [done|by etrans|lia|cbn [n_branch n]; lia| |].
      * cbn. fold (forest (a ++ c :: b)) Q. rewrite bool_decide_false by done.
        rewrite (total_other Q a c b l) by (done || apply below_self). exact H4.
      * cbn. fold (forest (a ++ c :: b)) Q. rewrite bool_decide_false by (intros Hp; apply prefix_length in Hp; lia).
        rewrite (total_other Q a c b l) by (done || apply below_prefix). exact H5.
    + cbn. intros l' c [[= -> ->]|Hin]%elem_of_cons; [done|].
      apply elem_of_forest in Hin as (d & Hd & Hin). rewrite Forall_forall in IH, I8.
      specialize (IH d Hd _ (I8 d Hd) Hk). rewrite (Hff d Hd) in IH. by eapply IH.
Qed.

Lemma child_matching_spec {R} l pos (f : Node -> nat -> R) cs :
  match child_matching l pos f cs with
  | Some r => exists a c b, cs = a ++ c :: b /\ (pos < diff (n_span c) l)%nat /\ r = f c (diff (n_span c) l)
  | None => forall c, c ∈ cs -> ~ (pos < diff (n_span c) l)%nat
  end.
Proof.
  induction cs as [|c cs IH]; cbn [child_matching]; [intros c Hc; by apply elem_of_nil in Hc|].
  destruct (Nat.ltb_spec pos (diff (n_span c) l)) as [Hlt|Hge]; [by exists [], c, cs|].
  destruct (child_matching l pos f cs) as [r|].
  - destruct IH as (a & d & b & -> & Hd & ->). by exists (c :: a), d, b.
  - intros d [->|Hd]%elem_of_cons; [lia|by apply IH].
Qed.

(** The support of a ledger that is not the tip of a node but inside a span. *)
Lemma find_spec l n : forall P pos,
  node_ok P n -> l <> [] -> P `prefix_of` l -> pos = diff (n_span n) l -> (length P < pos)%nat ->
  let '(loc, diffSeq) := find_from l n pos in
  total (fun l' => bool_decide (l `prefix_of` l')) (nodes n) =
  if (seq_of l <? diffSeq)%nat && (seq_of l <? end_ (n_span loc))%nat then n_branch loc else 0.
Proof.
  induction n as [sp tip branch cs IH] using Node_ind'. intros P pos Hok Hl0 HP Hpos Hlt.
  assert (Hseq : seq_of l = (length l - 1)%nat /\ (0 < length l)%nat) by (unfold seq_of; destruct l; cbn; [done|lia]).
  pose proof (node_ok_ledger _ _ Hok) as (_ & _ & _ & _ & Hlen & _).
  destruct (node_ok_branch _ _ Hok) as [_ Hb]. cbn [n_branch n_span] in *.
  pose proof Hok as Hok'. inversion Hok' as [? ? ? ? ? I1 I2 I3 I4 I5 I6 I7 I8 I9 I10]; subst P0 sp0 tip0 branch0 cs0.
  rewrite I1, Hpos in Hlt. destruct (diff_spec sp l I3 I4 Hlt) as (D1 & D2 & D3 & D4). rewrite <-Hpos in *.
  set (n := mkNode sp tip branch cs) in *. change (n_ledger n) with (take (end_ sp) (ledger_ sp)) in *.
  set (Q := take (end_ sp) (ledger_ sp)) in *.
  assert (Hall : (length l <= pos)%nat -> total (fun l' => bool_decide (l `prefix_of` l')) (nodes n) = branch).
  { intros Hle. rewrite Hb. apply total_all. intros l' c Hin. apply bool_decide_true.
    destruct (nodes_extend _ _ _ _ Hok Hin) as [H _]. etrans; [|exact H]. change (n_ledger n) with Q.
    assert (Heq : l = take pos (ledger_ sp)) by (rewrite D3; symmetry; apply take_ge; lia).
    rewrite Heq. unfold Q. replace pos with (Nat.min pos (end_ sp)) by lia. rewrite <-take_take. apply prefix_take. }
  cbn [find_from n]. destruct (Nat.eqb_spec pos (end_ sp)) as [He|Hne].
  - rewrite He in *. assert (HQ : Q `prefix_of` l) by (unfold Q; rewrite D3; apply prefix_take).
    pose proof (child_matching_spec l (end_ sp) (find_from l) cs) as Hcm.
    destruct (child_matching _ _ _ _) as [r|]; cbn [default from_option].
    + destruct Hcm as (a & c & b & -> & Hcd & ->). pose proof I8 as I8'. apply Forall_app in I8' as [_ [I8c _]%Forall_cons].
      apply Forall_app in IH as [_ [IHc _]%Forall_cons]. unfold id.
      specialize (IHc Q (diff (n_span c) l) I8c Hl0 HQ eq_refl ltac:(by rewrite Hlen)).
      assert (Hid : l !! length Q = Some (startID (n_span c))) by (apply child_diff; [done|done|by rewrite Hlen]).
      destruct (find_from l c (diff (n_span c) l)) as [loc d]. rewrite <-IHc.
      cbn. fold (forest (a ++ c :: b)) Q. rewrite (total_other Q a c b l) by (done || apply below_prefix).
      apply lookup_lt_Some in Hid. rewrite bool_decide_false; [done|]. intros Hp%prefix_length. lia.
    + unfold id. cbn [n_span n n_branch]. destruct (decide (length l <= end_ sp)%nat) as [Hle|Hgt].
      * rewrite !(proj2 (Nat.ltb_lt _ _)) by lia. cbn [andb]. by apply Hall.
      * rewrite (proj2 (Nat.ltb_ge (seq_of l) _)) by lia. cbn [andb]. apply total_none. intros l' c Hin.
        apply bool_decide_false. intros Hp. cbn in Hin. apply elem_of_cons in Hin as [[= -> ->]|Hin].
        { fold Q in Hp. apply prefix_length in Hp. lia. }
        apply elem_of_forest in Hin as (d & Hd & Hin). rewrite Forall_forall in I8.
        apply (Hcm d Hd). rewrite <-Hlen. apply (child_diff Q); [by apply I8|done|].
        destruct (nodes_extend _ _ _ _ (I8 d Hd) Hin) as [Hdl _]. destruct (node_ok_ledger _ _ (I8 d Hd)) as (_ & _ & Hid & _).
        fold Q in Hid. pose proof (prefix_lookup_Some _ _ _ _ Hid Hdl) as H1.
        destruct (lookup_lt_is_Some_2 l (length Q)) as [x Hx]; [lia|].
        pose proof (prefix_lookup_Some _ _ _ _ Hx Hp). congruence.
  - cbn [n_span n n_branch]. destruct (decide (length l <= pos)%nat) as [Hle|Hgt].
    + rewrite !(proj2 (Nat.ltb_lt _ _)) by lia. cbn [andb]. by apply Hall.
    + rewrite (proj2 (Nat.ltb_ge (seq_of l) pos)) by lia. cbn [andb].
      apply (total_subtree_none P n l); [done|apply below_prefix|]. intros (l' & H1 & H2).
      change (n_ledger n) with Q in H1. destruct (lookup_lt_is_Some_2 l pos) as [x Hx]; [lia|].
      destruct (lookup_lt_is_Some_2 (ledger_ sp) pos) as [y Hy]; [lia|].
      apply (D4 ltac:(lia) y Hy). rewrite Hx. f_equal.
      assert (HyQ : Q !! pos = Some y) by (unfold Q; rewrite lookup_take_lt by lia; done).
      pose proof (prefix_lookup_Some _ _ _ _ HyQ H1). pose proof (prefix_lookup_Some _ _ _ _ Hx H2). congruence.
Qed.

(** ** Removal *)

(** Taking [count] of [l]'s support out of a subtree leaves [r]. *)
Definition removed (l : Ledger) (count : Z) (P : Ledger) (n : Node) (r : Removed) : Prop :=
  match r with
  | R_stop n' | R_merged n' =>
      node_ok P n' /\ dense n' /\ n_branch n' = n_branch n - count /\ startID (n_span n') = startID (n_span n) /\
      forall p, total p (nodes n') = total p (nodes n) - (if p l then count else 0)
  | R_erased => n_branch n = count /\ forall p, total p (nodes n) = if p l then count else 0
  end.

Lemma total_perm p xs ys : xs ≡ₚ ys -> total p xs = total p ys.
Proof. induction 1 as [|[l c] ? ? ? IH|[l c] [l' c'] ?|]; cbn; [done|by rewrite IH|ring|congruence]. Qed.

Lemma forest_perm a b : a ≡ₚ b -> forest a ≡ₚ forest b.
Proof.
  induction 1; [done|rewrite !forest_cons; by apply Permutation_app_head| |by etrans].
  rewrite !forest_cons, !app_assoc. apply Permutation_app_tail, Permutation_app_comm.
Qed.

Lemma branches_perm a b : a ≡ₚ b -> branches a = branches b.
Proof. induction 1; cbn; try lia. Qed.

Lemma swap_pop_perm a b : swap_pop a b ≡ₚ a ++ b.
Proof.
  unfold swap_pop. destruct (last b) as [x|] eqn:E.
  - apply last_Some in E as [b' ->]. rewrite removelast_last. f_equiv. apply Permutation_cons_append.
  - apply last_None in E as ->. by rewrite app_nil_r.
Qed.

(** Compressing changes neither the support nor where the subtree starts. *)
Lemma compress_ok l P sp tip branch cs :
  node_ok P (mkNode sp tip branch cs) -> removed l 0 P (mkNode sp tip branch cs) (compress sp tip branch cs).
Proof.
  intros Hok. unfold compress. inversion Hok as [? ? ? ? ? I1 I2 I3 I4 I5 I6 I7 I8 I9 I10]; subst P0 sp0 tip0 branch0 cs0.
  assert (Hkeep : dense (mkNode sp tip branch cs) -> removed l 0 P (mkNode sp tip branch cs) (R_stop (mkNode sp tip branch cs))).
  { intros Hd. split_and!; try done; [cbn; lia|]. intros p. destruct (p l); lia. }
  destruct (Z.eqb_spec tip 0) as [->|Hne]; [|by apply Hkeep; intros Ht; cbn in Ht].
  destruct cs as [|[csp ct cb ccs] [|d cs]]; [| |apply Hkeep; intros _; cbn; lia].
  - split; [done|]. intros p. cbn. by destruct (p l), (p (take _ _)).
  - apply Forall_cons in I8 as [I8 _]. apply Forall_cons in I9 as [I9 _].
    inversion I8 as [? ? ? ? ? J1 J2 J3 J4 J5 J6 J7 J8 J9 J10]; subst P0 sp0 tip branch0 cs.
    rewrite length_take, Nat.min_l in J1 by lia. unfold merge_span.
    rewrite (proj2 (Nat.ltb_lt _ _)), Nat.min_l by lia.
    assert (Hpre : take (end_ sp) (ledger_ csp) = take (end_ sp) (ledger_ sp)) by (rewrite <-J2, <-J1; done).
    split_and!; try done.
    + constructor; cbn [start_ end_ ledger_]; try done; try lia.
      rewrite <-I2. replace (start_ sp) with (Nat.min (start_ sp) (end_ sp)) by lia. by rewrite <-!take_take, Hpre.
    + cbn in I7 |- *. lia.
    + cbn. unfold startID. cbn. unfold ancestor. rewrite !nth_lookup. f_equal. by apply (take_agree _ _ _ (end_ sp)).
    + intros p. cbn. rewrite app_nil_r. destruct (p (take (end_ sp) (ledger_ sp))), (p l); lia.
Qed.

(** A node that lost [count] of [l]'s support, then compressed. *)
Lemma removed_compress l count P n sp tip branch cs :
  node_ok P (mkNode sp tip branch cs) -> branch = n_branch n - count -> startID sp = startID (n_span n) ->
  (forall p, total p (nodes (mkNode sp tip branch cs)) = total p (nodes n) - (if p l then count else 0)) ->
  removed l count P n (compress sp tip branch cs).
Proof.
  intros Hok Hb Hs Ht. pose proof (compress_ok l P sp tip branch cs Hok) as Hc.
  destruct (compress sp tip branch cs) as [n'| |n']; cbn in Hc |- *.
  - destruct Hc as (H1 & H2 & H3 & H4 & H5). split_and!; [done|done|lia|congruence|].
    intros p. rewrite H5. cbn in Ht. rewrite Ht. destruct (p l); lia.
  - destruct Hc as [H1 H2]. split; [lia|]. intros p. specialize (H2 p). cbn in Ht. rewrite Ht in H2.
    destruct (p l); lia.
  - destruct Hc as (H1 & H2 & H3 & H4 & H5). split_and!; [done|done|lia|congruence|].
    intros p. rewrite H5. cbn in Ht. rewrite Ht. destruct (p l); lia.
Qed.

(** The children after one of them lost [count] of [l]'s support. *)
Lemma put_child_ok l count P sp tip branch a c b r cont cs' :
  node_ok P (mkNode sp tip branch (a ++ c :: b)) -> removed l count (take (end_ sp) (ledger_ sp)) c r ->
  put_child a r b = (cont, cs') ->
  node_ok P (mkNode sp tip (branch - count) cs') /\
  (forall p, total p (forest cs') = total p (forest (a ++ c :: b)) - (if p l then count else 0)) /\
  (cont = false -> length cs' = length (a ++ c :: b)).
Proof.
  intros Hok Hr Hput. inversion Hok as [? ? ? ? ? I1 I2 I3 I4 I5 I6 I7 I8 I9 I10]; subst P0 sp0 tip0 branch0 cs.
  apply Forall_app in I8 as [I8a [I8c I8b]%Forall_cons]. apply Forall_app in I9 as [I9a [I9c I9b]%Forall_cons].
  assert (Hsub : forall c', node_ok (take (end_ sp) (ledger_ sp)) c' -> dense c' -> n_branch c' = n_branch c - count ->
    startID (n_span c') = startID (n_span c) ->
    (forall p, total p (nodes c') = total p (nodes c) - (if p l then count else 0)) ->
    node_ok P (mkNode sp tip (branch - count) (a ++ c' :: b)) /\
    (forall p, total p (forest (a ++ c' :: b)) = total p (forest (a ++ c :: b)) - (if p l then count else 0)) /\
    length (a ++ c' :: b) = length (a ++ c :: b)).
  { intros c' H1 H2 H3 H4 H5. split_and!.
    - constructor; try done.
      + rewrite branches_app in *. cbn in *. lia.
      + apply Forall_app. split; [done|]. by constructor.
      + apply Forall_app. split; [done|]. by constructor.
      + rewrite fmap_app, fmap_cons, H4. by rewrite fmap_app, fmap_cons in I10.
    - intros p. rewrite !forest_app, !forest_cons, !total_app, H5. ring.
    - by rewrite !length_app. }
  destruct r as [c'| |c']; cbn in Hput; injection Hput as <- <-.
  - destruct Hr as (H1 & H2 & H3 & H4 & H5). destruct (Hsub c' H1 H2 H3 H4 H5) as (G1 & G2 & G3). done.
  - destruct Hr as [H1 H2]. pose proof (swap_pop_perm a b) as Hp. split_and!; [| |done].
    + constructor; try done.
      * rewrite (branches_perm _ _ Hp), branches_app in *. cbn in I7. lia.
      * rewrite Hp. by apply Forall_app.
      * rewrite Hp. by apply Forall_app.
      * rewrite Hp, fmap_app. rewrite fmap_app, fmap_cons in I10. apply NoDup_app in I10 as (N1 & N2 & [N3 N4]%NoDup_cons).
        apply NoDup_app. split_and!; [done| |done]. intros i Hi Hib. apply (N2 i Hi). by right.
    + intros p. rewrite (total_perm p _ _ (forest_perm _ _ Hp)). rewrite !forest_app, forest_cons, !total_app, H2. ring.
  - destruct Hr as (H1 & H2 & H3 & H4 & H5). destruct (Hsub c' H1 H2 H3 H4 H5) as (G1 & G2 & G3). done.
Qed.

Lemma remove_child_found rm before a c b r :
  (forall d, d ∈ a -> rm d = None) -> rm c = Some r ->
  remove_child rm before (a ++ c :: b) = Some (put_child (before ++ a) r b).
Proof.
  revert before. induction a as [|d a IH]; intros before Ha Hc; cbn.
  - by rewrite Hc, app_nil_r.
  - rewrite (Ha d) by left. rewrite IH; [by rewrite <-app_assoc| |done]. intros e He. apply Ha. by right.
Qed.

Lemma remove_child_none rm before cs : (forall c, c ∈ cs -> rm c = None) -> remove_child rm before cs = None.
Proof.
  revert before. induction cs as [|c cs IH]; intros before H; cbn; [done|].
  rewrite (H c) by left. apply IH. intros d Hd. apply H. by right.
Qed.

(** Taking support from the node itself. *)
Lemma own_removed l count P sp tip branch cs :
  node_ok P (mkNode sp tip branch cs) -> take (end_ sp) (ledger_ sp) = l -> 0 <= count <= tip ->
  node_ok P (mkNode sp (tip - count) (branch - count) cs) /\
  forall p, total p (nodes (mkNode sp (tip - count) (branch - count) cs)) =
    total p (nodes (mkNode sp tip branch cs)) - (if p l then count else 0).
Proof.
  intros Hok Hl Hc. inversion Hok as [? ? ? ? ? I1 I2 I3 I4 I5 I6 I7 I8 I9 I10]; subst. split.
  - constructor; try done; lia.
  - intros p. cbn. destruct (p (take (end_ sp) (ledger_ sp))); lia.
Qed.

Lemma nodes_put p l count sp tip branch branch' cs cs' :
  (forall p, total p (forest cs') = total p (forest cs) - (if p l then count else 0)) ->
  total p (nodes (mkNode sp tip branch' cs')) = total p (nodes (mkNode sp tip branch cs)) - (if p l then count else 0).
Proof. intros H. cbn. fold (forest cs) (forest cs'). rewrite H. ring. Qed.

Lemma remove_from_ok l count n : forall P,
  node_ok P n -> dense n -> known l -> n_branch n < 2 ^ 32 ->
  match findByLedgerID (id_of l) n with
  | Some m => 0 < count <= n_tip m ->
      exists r, remove_from (id_of l) count n = Some r /\ removed l count P n r
  | None => remove_from (id_of l) count n = None
  end.
Proof.
  induction n as [sp tip branch cs IH] using Node_ind'. intros P Hok Hd Hk Hb.
  destruct (node_ok_ledger _ _ Hok) as (_ & _ & _ & Hkn & _ & Htid).
  destruct (node_ok_branch _ _ Hok) as [Hb0 _]. pose proof (find_id_spec l _ P Hok Hk) as Hfind.
  pose proof Hok as Hok'. inversion Hok' as [? ? ? ? ? I1 I2 I3 I4 I5 I6 I7 I8 I9 I10]; subst P0 sp0 tip0 branch0 cs0.
  cbn [findByLedgerID remove_from n_branch n_span] in *.
  destruct (Z.eqb_spec (id_of l) (tip_id sp)) as [He|Hne].
  - intros Hc. cbn in Hc. assert (Hl : take (end_ sp) (ledger_ sp) = l) by (apply known_unique; [done..|]; etrans; [exact Htid|done]).
    destruct Hfind as (_ & _ & Htb & _). cbn in Htb.
    rewrite !u32_small by lia. eexists. split; [done|].
    destruct (own_removed l count P sp tip branch cs Hok Hl ltac:(lia)) as [H1 H2]. by apply removed_compress.
  - pose proof (first_found_spec (findByLedgerID (id_of l)) cs) as Hff. rewrite Forall_forall in IH, I8, I9.
    assert (Hbc : forall c, c ∈ cs -> n_branch c < 2 ^ 32).
    { intros c Hc. assert (n_branch c <= branches cs); [|lia]. eapply branches_bound; [by apply Forall_forall|done]. }
    destruct (first_found _ cs) as [m|].
    + intros Hc. destruct Hff as (a & c & b & -> & Hfc & Hfa). destruct Hfind as (_ & _ & Htb & _).
      specialize (IH c ltac:(set_solver) _ (I8 c ltac:(set_solver)) (I9 c ltac:(set_solver)) Hk (Hbc c ltac:(set_solver))) as IHc.
      rewrite Hfc in IHc. destruct (IHc Hc) as (r & Hr & Hrem).
      rewrite (remove_child_found _ [] a c b r); [| |done].
      2: { intros d Hda. assert (Hdin : d ∈ a ++ c :: b) by set_solver.
           specialize (IH d Hdin _ (I8 d Hdin) (I9 d Hdin) Hk (Hbc d Hdin)). by rewrite (Hfa d Hda) in IH. }
      cbn [app]. destruct (put_child a r b) as [cont cs'] eqn:Eput.
      destruct (put_child_ok l count P sp tip branch a c b r cont cs' Hok Hrem Eput) as (P1 & P2 & P3).
      rewrite u32_small by lia. destruct cont; eexists; (split; [done|]).
      * apply removed_compress; [done..|]. intros p. exact (nodes_put p l count sp tip branch (branch - count) (a ++ c :: b) cs' P2).
      * cbn. split_and!; [done| |done|done|].
        -- unfold dense in *. cbn in *. by rewrite (P3 eq_refl).
        -- intros p. exact (nodes_put p l count sp tip branch (branch - count) (a ++ c :: b) cs' P2).
    + rewrite remove_child_none; [done|]. intros c Hc.
      specialize (IH c Hc _ (I8 c Hc) (I9 c Hc) Hk (Hbc c Hc)). by rewrite (Hff c Hc) in IH.
Qed.

(** ** The trie against the multiset of validations *)

Lemma root_pos n l : start_ (n_span n) = 0%nat -> end_ (n_span n) = 1%nat -> node_ok [] n -> known l -> diff (n_span n) l = 1%nat.
Proof.
  intros Hs He Hok Hk. unfold diff, clamp. rewrite Hs, He.
  assert (1 <= mismatch (ledger_ (n_span n)) l)%nat; [|lia].
  pose proof (known_genesis _ Hk) as Hg. destruct (node_ok_ledger _ _ Hok) as (_ & Hl & _ & Hkn & _).
  pose proof (known_genesis _ Hkn) as Hgn. unfold n_ledger in Hgn. rewrite He in Hgn.
  destruct (ledger_ (n_span n)) as [|x a], l as [|y b]; try done. cbn in *. injection Hg as ->. injection Hgn as ->.
  rewrite Z.eqb_refl. lia.
Qed.

Lemma insert_root_span l count n P :
  node_ok P n -> (end_ (n_span n) <= length l)%nat ->
  n_span (insert_from l count n (end_ (n_span n))) = n_span n.
Proof.
  intros Hok Hl. inversion Hok as [? sp tip branch cs H1 H2 H3 H4 _ _ _ _ _ _]; subst. cbn [n_span insert_from].
  rewrite Nat.eqb_refl. destruct (update_matching _ _ _ _); [done|]. unfold insert_at.
  rewrite (span_from_at sp), Nat.ltb_irrefl by lia. by destruct (span_from _ _).
Qed.

Lemma remove_root_span id count n : n_span (remove_root id count n) = n_span n.
Proof. destruct n as [sp tip branch cs]. cbn. destruct (id =? _); [done|]. by destruct (remove_child _ _ _) as [[? ?]|]. Qed.

(** The trie holds the validations [m]: every way of counting over the nodes
    agrees with counting over [m]. *)
Definition represents (t : LedgerTrie) (m : gmap Ledger Z) : Prop :=
  node_ok [] (root t) /\ start_ (n_span (root t)) = 0%nat /\ end_ (n_span (root t)) = 1%nat /\
  (forall p, total p (nodes (root t)) = total p (map_to_list m)) /\
  (forall l c, m !! l = Some c -> 0 < c /\ known l) /\
  (forall s, default 0 (seqSupport t !! s) = total (fun l => bool_decide (seq_of l = s)) (map_to_list m)).

Definition spec_insert (l : Ledger) (count : Z) (m : gmap Ledger Z) : gmap Ledger Z :=
  <[l := default 0 (m !! l) + count]> m.

Definition spec_remove (l : Ledger) (count : Z) (m : gmap Ledger Z) : bool * gmap Ledger Z :=
  match m !! l with
  | None => (false, m)
  | Some k => (true, if k <=? count then delete l m else <[l := k - count]> m)
  end.

Definition support (m : gmap Ledger Z) (p : Ledger -> bool) : Z := total p (map_to_list m).

Lemma support_insert m l c p : m !! l = None -> support (<[l := c]> m) p = support m p + (if p l then c else 0).
Proof.
  intros Hl. unfold support. rewrite (total_perm p _ _ (map_to_list_insert m l c Hl)). cbn. ring.
Qed.

Lemma support_delete m l c p : m !! l = Some c -> support (delete l m) p = support m p - (if p l then c else 0).
Proof.
  intros Hl. rewrite <-(insert_id m l c Hl) at 2. rewrite <-insert_delete_eq.
  rewrite support_insert by apply lookup_delete_eq. ring.
Qed.

Lemma support_set m l c p : support (<[l := c]> m) p = support m p - (if p l then default 0 (m !! l) else 0) + (if p l then c else 0).
Proof.
  destruct (m !! l) as [k|] eqn:E; cbn.
  - rewrite <-insert_delete_eq, support_insert by apply lookup_delete_eq. by rewrite (support_delete m l k).
  - rewrite support_insert by done. destruct (p l); ring.
Qed.

Lemma support_at m l : support m (fun l' => bool_decide (l' = l)) = default 0 (m !! l).
Proof.
  destruct (m !! l) as [c|] eqn:E; cbn.
  - rewrite <-(insert_id m l c E), <-insert_delete_eq, support_insert by apply lookup_delete_eq.
    rewrite bool_decide_true by done. unfold support. rewrite total_none; [ring|].
    intros l' k Hin%elem_of_map_to_list. apply bool_decide_false. intros ->. by rewrite lookup_delete_eq in Hin.
  - unfold support. apply total_none. intros l' k Hin%elem_of_map_to_list. apply bool_decide_false. congruence.
Qed.

Lemma total_nonneg p xs : (forall l c, (l, c) ∈ xs -> 0 <= c) -> 0 <= total p xs.
Proof.
  induction xs as [|[l c] xs IH]; intros H; cbn; [done|].
  assert (0 <= c) by (apply (H l); left). assert (0 <= total p xs) by (apply IH; intros l' c' Hin; apply (H l'); by right).
  destruct (p l); lia.
Qed.

Lemma total_mono p xs : (forall l c, (l, c) ∈ xs -> 0 <= c) -> total p xs <= total (fun _ => true) xs.
Proof.
  induction xs as [|[l c] xs IH]; intros H; cbn; [done|].
  assert (0 <= c) by (apply (H l); left). assert (total p xs <= total (fun _ => true) xs) by (apply IH; intros l' c' Hin; apply (H l'); by right).
  destruct (p l); lia.
Qed.

Lemma represents_bounds t m p :
  represents t m -> 0 <= support m p <= support m (fun _ => true) /\ n_branch (root t) = support m (fun _ => true).
Proof.
  intros (Hok & _ & _ & Ht & _ & _). unfold support. rewrite <-!Ht. destruct (node_ok_branch _ _ Hok) as [_ <-].
  assert (Hpos : forall l c, (l, c) ∈ nodes (root t) -> 0 <= c) by (intros l c Hin; by destruct (nodes_extend _ _ _ _ Hok Hin) as (_ & _ & ?)).
  split; [|done]. destruct (node_ok_branch _ _ Hok) as [_ ->]. split; [by apply total_nonneg|by apply total_mono].
Qed.

Lemma insert_represents t m l count :
  represents t m -> known l -> 0 < count -> support m (fun _ => true) + count < 2 ^ 32 ->
  represents (insert_ledger l count t) (spec_insert l count m).
Proof.
  intros Hrep Hk Hc Hb. destruct (represents_bounds t m (fun l' => bool_decide (seq_of l' = seq_of l)) Hrep) as [Hsb Hbr].
  pose proof Hrep as (Hok & Hs & He & Ht & Hm & Hseq).
  assert (Hpos := root_pos (root t) l Hs He Hok Hk).
  assert (Hl : (1 <= length l)%nat) by (pose proof (known_genesis _ Hk); destruct l; [done|cbn; lia]).
  destruct (insert_from_ok l count (root t) [] (diff (n_span (root t)) l)) as (H1 & _ & H3 & H4 & H5 & H6);
    try done; [lia|apply prefix_nil|cbn; lia|left; lia|].
  unfold insert_ledger. split; cbn [root seqSupport]; [done|].
  rewrite Hpos, <-He in *. rewrite (insert_root_span l count (root t) []) by (done || lia). split_and!; try done.
  - intros p. rewrite H6, Ht. fold (support (spec_insert l count m) p) (support m p). unfold spec_insert.
    rewrite support_set. destruct (p l); ring.
  - intros l' c. unfold spec_insert. intros [[<- <-]|[_ Hl']]%lookup_insert_Some; [|by apply Hm].
    split; [|done]. destruct (m !! l) as [k|] eqn:E; cbn; [destruct (Hm _ _ E)|]; lia.
  - intros s. fold (support (spec_insert l count m) (fun l' => bool_decide (seq_of l' = s))). unfold spec_insert.
    rewrite support_set. destruct (decide (s = seq_of l)) as [->|Hne].
    + rewrite lookup_insert_eq, bool_decide_true by done. cbn. rewrite Hseq.
      fold (support m (fun l' => bool_decide (seq_of l' = seq_of l))). rewrite u32_small by lia. ring.
    + rewrite lookup_insert_ne, bool_decide_false, Hseq by done. fold (support m (fun l' => bool_decide (seq_of l' = s))). ring.
Qed.

Lemma remove_root_ok l count n m :
  node_ok [] n -> known l -> n_branch n < 2 ^ 32 -> findByLedgerID (id_of l) n = Some m -> 0 < count <= n_tip m ->
  node_ok [] (remove_root (id_of l) count n) /\
  forall p, total p (nodes (remove_root (id_of l) count n)) = total p (nodes n) - (if p l then count else 0).
Proof.
  destruct n as [sp tip branch cs]. intros Hok Hk Hb Hm Hc.
  destruct (node_ok_ledger _ _ Hok) as (_ & _ & _ & Hkn & _ & Htid). destruct (node_ok_branch _ _ Hok) as [Hb0 _].
  pose proof (find_id_spec l _ [] Hok Hk) as Hfind. rewrite Hm in Hfind. destruct Hfind as (_ & _ & Htb & _).
  pose proof Hok as Hok'. inversion Hok' as [? ? ? ? ? I1 I2 I3 I4 I5 I6 I7 I8 I9 I10]; subst P sp0 tip0 branch0 cs0.
  cbn [findByLedgerID remove_root n_branch n_span] in *.
  destruct (Z.eqb_spec (id_of l) (tip_id sp)) as [He|Hne].
  - injection Hm as <-. cbn in Hc, Htb. rewrite !u32_small by lia. apply own_removed; [done| |lia].
    apply known_unique; [done..|]. etrans; [exact Htid|done].
  - pose proof (first_found_spec (findByLedgerID (id_of l)) cs) as Hff. rewrite Hm in Hff.
    rewrite Forall_forall in I8, I9.
    assert (Hrm : forall c, c ∈ cs -> match findByLedgerID (id_of l) c with
      | Some m => 0 < count <= n_tip m -> exists r, remove_from (id_of l) count c = Some r /\ removed l count (take (end_ sp) (ledger_ sp)) c r
      | None => remove_from (id_of l) count c = None end).
    { intros c Hcin. apply remove_from_ok; [by apply I8|exact (I9 c Hcin)|done|].
      assert (n_branch c <= branches cs); [|lia]. eapply branches_bound; [by apply Forall_forall|done]. }
    destruct Hff as (a & c & b & -> & Hfc & Hfa). pose proof (Hrm c ltac:(set_solver)) as Hrc. rewrite Hfc in Hrc.
    destruct (Hrc Hc) as (r & Hr & Hrem). rewrite (remove_child_found _ [] a c b r); [| |done].
    2: { intros d Hd. pose proof (Hrm d ltac:(set_solver)) as Hrd. by rewrite (Hfa d Hd) in Hrd. }
    cbn [app]. destruct (put_child a r b) as [cont cs'] eqn:Eput.
    destruct (put_child_ok l count [] sp tip branch a c b r cont cs' Hok Hrem Eput) as (P1 & P2 & _).
    rewrite u32_small by lia. split; [done|]. intros p.
    exact (nodes_put p l count sp tip branch (branch - count) (a ++ c :: b) cs' P2).
Qed.

(** Looking a ledger up in the trie and in the multiset. *)
Lemma represents_lookup t m l :
  represents t m -> known l ->
  match findByLedgerID (id_of l) (root t) with
  | Some loc => n_tip loc = default 0 (m !! l) /\ n_branch loc = support m (fun l' => bool_decide (l `prefix_of` l'))
  | None => m !! l = None
  end.
Proof.
  intros (Hok & _ & _ & Ht & Hm & _) Hk. pose proof (find_id_spec l _ [] Hok Hk) as Hf.
  destruct (findByLedgerID _ _) as [loc|].
  - destruct Hf as (_ & _ & _ & H1 & H2). rewrite Ht in H1, H2. split; [|done].
    rewrite <-H1. apply support_at.
  - assert (H0 : support m (fun l' => bool_decide (l' = l)) = 0).
    { unfold support. rewrite <-Ht. apply total_none. intros l' c Hin. apply bool_decide_false. by eapply Hf. }
    rewrite support_at in H0. destruct (m !! l) as [c|] eqn:E; [|done]. cbn in H0. destruct (Hm _ _ E). lia.
Qed.

Lemma remove_represents t m l count :
  represents t m -> known l -> 0 < count -> support m (fun _ => true) < 2 ^ 32 ->
  fst (remove_ledger l count t) = fst (spec_remove l count m) /\
  represents (snd (remove_ledger l count t)) (snd (spec_remove l count m)).
Proof.
  intros Hrep Hk Hc Hb. pose proof (represents_lookup t m l Hrep Hk) as Hlk.
  destruct (represents_bounds t m (fun l' => bool_decide (seq_of l' = seq_of l)) Hrep) as [Hsb Hbr].
  pose proof Hrep as (Hok & Hs & He & Ht & Hm & Hseq). unfold remove_ledger, spec_remove.
  destruct (findByLedgerID (id_of l) (root t)) as [loc|] eqn:Ef; [|by rewrite Hlk].
  destruct Hlk as [Htip _]. rewrite Htip. destruct (m !! l) as [k|] eqn:E; [|done]. cbn [default from_option id] in *.
  destruct (Hm _ _ E) as [Hk0 _]. unfold id in *. rewrite (proj2 (Z.eqb_neq k 0)) by lia. cbn [fst snd]. split; [done|].
  set (c' := Z.min count k). destruct (remove_root_ok l c' (root t) loc Hok Hk ltac:(lia) Ef ltac:(lia)) as [R1 R2].
  set (m' := if k <=? count then delete l m else <[l := k - count]> m).
  assert (Hm' : forall p, support m' p = support m p - (if p l then c' else 0)).
  { intros p. unfold m', c'. destruct (Z.leb_spec k count).
    - rewrite (support_delete m l k) by done. rewrite Z.min_r by lia. done.
    - rewrite support_set, E. cbn. rewrite Z.min_l by lia. destruct (p l); ring. }
  split; cbn [root seqSupport]; [done|]. rewrite remove_root_span. split_and!; try done.
  - intros p. fold (support m' p). by rewrite R2, Ht, Hm'.
  - intros l' c0. unfold m'. destruct (Z.leb_spec k count).
    + intros [_ Hl']%lookup_delete_Some. by apply Hm.
    + intros [[<- <-]|[_ Hl']]%lookup_insert_Some; [split; [lia|done]|by apply Hm].
  - intros s. fold (support m' (fun l' => bool_decide (seq_of l' = s))). rewrite Hm', Hseq.
    pose proof (Hm' (fun l' => bool_decide (seq_of l' = seq_of l))) as Hs'. cbn beta in Hs'.
    rewrite (bool_decide_true (seq_of l = seq_of l)) in Hs' by done.
    assert (Hnn : 0 <= support m' (fun l' => bool_decide (seq_of l' = seq_of l))).
    { apply total_nonneg. intros l' c0 Hin%elem_of_map_to_list. unfold m' in Hin. destruct (Z.leb_spec k count).
      - apply lookup_delete_Some in Hin as [_ Hin]. destruct (Hm _ _ Hin). lia.
      - apply lookup_insert_Some in Hin as [[<- <-]|[_ Hin]]; [lia|]. destruct (Hm _ _ Hin). lia. }
    unfold support in Hsb, Hs', Hnn, Hb. rewrite u32_small by lia. unfold support. cbn beta.
    destruct (decide (s = seq_of l)) as [->|Hne].
    + rewrite (bool_decide_true (seq_of l = seq_of l)) by done. case_match eqn:E0.
      * apply Z.eqb_eq in E0. rewrite lookup_delete_eq. cbn. lia.
      * by rewrite lookup_insert_eq.
    + rewrite (bool_decide_false (seq_of l = s)) by done. case_match; rewrite ?lookup_delete_ne, ?lookup_insert_ne by done;
        rewrite Hseq; ring.
Qed.

Lemma branch_represents t m l :
  represents t m -> known l -> branchSupport t l = support m (fun l' => bool_decide (l `prefix_of` l')).
Proof.
  intros Hrep Hk. pose proof (represents_lookup t m l Hrep Hk) as Hlk. unfold branchSupport.
  destruct (findByLedgerID _ _) as [loc|]; [by destruct Hlk|].
  destruct Hrep as (Hok & Hs & He & Ht & _ & _). pose proof (root_pos (root t) l Hs He Hok Hk) as Hpos.
  pose proof (find_spec l (root t) [] (diff (n_span (root t)) l) Hok) as Hf. unfold find.
  destruct (find_from l (root t) (diff (n_span (root t)) l)) as [loc d]. rewrite Ht in Hf. symmetry. apply Hf.
  - intros ->. by pose proof (known_genesis _ Hk).
  - apply prefix_nil.
  - done.
  - cbn. lia.
Qed.

Lemma empty_represents : represents (empty_trie genesis) ∅.
Proof.
  split_and!; try done.
  - constructor; cbn; try done; try lia; [apply known_root|constructor].
  - intros p. rewrite map_to_list_empty. cbn. by destruct (p [genesis]).
Qed.

Lemma represents_empty t m : represents t m -> empty t = true <-> m = ∅.
Proof.
  intros Hrep. unfold empty. destruct (represents_bounds t m (fun _ => true) Hrep) as [_ ->]. rewrite Z.eqb_eq.
  split; [|by intros ->]. intros H0. apply map_empty. intros l. destruct (m !! l) as [c|] eqn:E; [|done].
  destruct Hrep as (_ & _ & _ & _ & Hm & _). destruct (Hm _ _ E). exfalso.
  assert (Hnn : 0 <= support (delete l m) (fun _ => true)).
  { apply total_nonneg. intros l2 c2 Hin%elem_of_map_to_list. apply lookup_delete_Some in Hin as [_ Hin].
    destruct (Hm _ _ Hin). lia. }
  rewrite (support_delete m l c) in Hnn by done. cbv beta iota in Hnn. lia.
Qed.

(** ** Sequences of operations *)

Inductive TrieOp := op_insert (l : Ledger) (count : Z) | op_remove (l : Ledger) (count : Z).

Definition trie_step (t : LedgerTrie) (op : TrieOp) : LedgerTrie :=
  match op with op_insert l c => insert_ledger l c t | op_remove l c => snd (remove_ledger l c t) end.

Definition spec_step (m : gmap Ledger Z) (op : TrieOp) : gmap Ledger Z :=
  match op with op_insert l c => spec_insert l c m | op_remove l c => snd (spec_remove l c m) end.

(** Known ledgers, positive counts. *)
Definition op_valid (op : TrieOp) : Prop :=
  match op with op_insert l c | op_remove l c => known l /\ 0 < c end.

Fixpoint inserted_total (ops : list TrieOp) : Z :=
  match ops with
  | [] => 0
  | op_insert _ c :: ops => c + inserted_total ops
  | op_remove _ _ :: ops => inserted_total ops
  end.

Lemma inserted_total_nonneg ops : Forall op_valid ops -> 0 <= inserted_total ops.
Proof. induction 1 as [|[l c|l c] ops [_ Hc] _ IH]; cbn; lia. Qed.

Lemma spec_remove_le t m l c :
  represents t m -> 0 < c -> support (snd (spec_remove l c m)) (fun _ => true) <= support m (fun _ => true).
Proof.
  intros Hrep Hc. unfold spec_remove. destruct (m !! l) as [k|] eqn:E; [|done]. cbn.
  destruct Hrep as (_ & _ & _ & _ & Hm & _). destruct (Hm _ _ E).
  destruct (Z.leb_spec k c); [rewrite (support_delete m l k) by done|rewrite support_set, E]; cbn; lia.
Qed.

Lemma run_represents ops t m :
  represents t m -> Forall op_valid ops -> support m (fun _ => true) + inserted_total ops < 2 ^ 32 ->
  represents (foldl trie_step t ops) (foldl spec_step m ops) /\
  support (foldl spec_step m ops) (fun _ => true) < 2 ^ 32.
Proof.
  revert t m. induction ops as [|op ops IH]; intros t m Hrep Hv Hb; [cbn [inserted_total foldl] in *; split; [done|lia]|].
  apply Forall_cons in Hv as [Hop Hv]. pose proof (inserted_total_nonneg _ Hv) as Hnn. cbn [foldl].
  destruct op as [l c|l c]; destruct Hop as [Hk Hc]; cbn [inserted_total] in Hb.
  - apply IH; [apply insert_represents; [done..|lia]|done|]. cbn. unfold spec_insert. rewrite support_set. cbv beta iota. lia.
  - destruct (remove_represents t m l c Hrep Hk Hc ltac:(lia)) as [_ Hr]. apply IH; [done..|].
    assert (support (snd (spec_remove l c m)) (fun _ => true) <= support m (fun _ => true)); [|cbn; lia].
    by eapply spec_remove_le.
Qed.
End Trie.

Section Claims.
Context (known : Ledger -> Prop) (genesis : Z).

(** C21. The compressed trie is the multiset of validations. Run any sequence of
    insertions and removals of known ledgers on the empty trie, and run it on a
    plain map from ledgers to counts. Then [tipSupport] of a ledger is its count,
    [branchSupport] the sum of the counts of the ledgers descending from it,
    [seqSupport] the sum per sequence number, the trie is empty when the map is,
    and a further [remove] succeeds exactly when the ledger has support. Needed of
    the ledgers are their documented properties: an ID determines the history. *)
Theorem trie_refines (ops : list TrieOp) l count :
  Histories known genesis -> Forall (op_valid known) ops -> inserted_total ops < 2 ^ 32 -> known l -> 0 < count ->
  let t := foldl trie_step (empty_trie genesis) ops in
  let m := foldl spec_step ∅ ops in
  tipSupport t l = default 0 (m !! l) /\
  branchSupport t l = support m (fun l' => bool_decide (l `prefix_of` l')) /\
  (forall s, default 0 (seqSupport t !! s) = support m (fun l' => bool_decide (seq_of l' = s))) /\
  (empty t = true <-> m = ∅) /\
  (fst (remove_ledger l count t) = true <-> is_Some (m !! l)).
Proof.
  intros Hh Hv Hb Hk Hc t m.
  destruct (run_represents known genesis ops (empty_trie genesis) ∅) as [Hrep Hbm];
    [by apply empty_represents|done|unfold support; rewrite map_to_list_empty; cbn; lia|].
  fold t m in Hrep, Hbm. pose proof (represents_lookup known genesis t m l Hrep Hk) as Hlk. split_and!.
  - unfold tipSupport. destruct (findByLedgerID _ _); [by destruct Hlk|by rewrite Hlk].
  - by apply (branch_represents known genesis).
  - apply Hrep.
  - by apply (represents_empty known genesis).
  - destruct (remove_represents known genesis t m l count Hrep Hk Hc Hbm) as [-> _]. unfold spec_remove.
    destruct (m !! l); cbn; [split; [by eexists|done]|split; [done|by intros []]].
Qed.
End Claims.

(** ** Witness *)

(** A small ledger tree: 1 - 2 - 3 - 4 and 2 - 5 - 6. *)
Definition wknown (l : Ledger) : Prop :=
  l ∈ [[1]; [1; 2]; [1; 2; 3]; [1; 2; 3; 4]; [1; 2; 5]; [1; 2; 5; 6]].

Definition wops : list TrieOp :=
  [op_insert [1; 2; 3; 4] 2; op_insert [1; 2; 5; 6] 1; op_insert [1; 2; 3] 3; op_remove [1; 2; 3; 4] 5].

Lemma wknown_histories : Histories wknown 1.
Proof.
  unfold wknown. split.
  - intros l k Hl Hk. destruct k as [|k]; [lia|].
    repeat (apply elem_of_cons in Hl as [->|Hl];
      [do 4 (destruct k as [|k]; [cbn; set_solver|]); cbn; rewrite ?take_nil; set_solver|]).
    by apply elem_of_nil in Hl.
  - intros a b Ha Hb.
    repeat (apply elem_of_cons in Ha as [->|Ha]; [repeat (apply elem_of_cons in Hb as [->|Hb]; [by vm_compute|]); by apply elem_of_nil in Hb|]).
    by apply elem_of_nil in Ha.
  - intros l Hl. repeat (apply elem_of_cons in Hl as [->|Hl]; [done|]). by apply elem_of_nil in Hl.
  - left.
Qed.

Lemma trie_refines_witness :
  tipSupport (foldl trie_step (empty_trie 1) wops) [1; 2; 3] = 3 /\
  branchSupport (foldl trie_step (empty_trie 1) wops) [1; 2] = 4 /\
  tipSupport (foldl trie_step (empty_trie 1) wops) [1; 2; 3] = default 0 (foldl spec_step ∅ wops !! [1; 2; 3]).
Proof.
  split; [by vm_compute|]. split; [by vm_compute|].
  apply (trie_refines wknown 1 wops [1; 2; 3] 1); [exact wknown_histories| |by vm_compute| |lia].
  - repeat constructor; unfold wknown; set_solver || lia.
  - unfold wknown. set_solver.
Defined.
