(* ===== verification/TriePreferred.v ===== *)
(** * The preferred ledger

    Models [LedgerTrie::getPreferred] of consensus/LedgerTrie.h: the walk along
    the compressed trie that picks the ledger to work on, advancing only while no
    vote still out could favour another branch. The theorem shows that the walk,
    which jumps along spans and over sequence numbers, reaches exactly the ledger
    the documented ledger-by-ledger rule reaches on the multiset of validations. *)

From stdpp Require Import sorting.
From S2P Require Import Prelude LedgerTrie.

Record SpanTip := mkTip { st_seq : nat; st_id : Z; st_ledger : Ledger }.

Definition span_tip (s : Span) : SpanTip := mkTip (tip_seq s) (tip_id s) (ledger_ s).

(** ** Uncommitted support

    An iterator into [seqSupport] is the list of its remaining entries, in
    ascending order of the sequence number. *)

Definition seq_le (a b : nat * Z) : Prop := (a.1 <= b.1)%nat.

#[export] Instance seq_le_dec a b : Decision (seq_le a b).
Proof. unfold seq_le. apply _. Defined.

#[export] Instance seq_le_total : Total seq_le.
Proof. intros [a ?] [b ?]. unfold seq_le. cbn. lia. Qed.

#[export] Instance seq_le_trans : Transitive seq_le.
Proof. intros [a ?] [b ?] [c ?]. unfold seq_le. cbn. lia. Qed.

Definition seq_entries (m : gmap nat Z) : list (nat * Z) := merge_sort seq_le (map_to_list m).

(** The loop that adds the support of ledgers earlier than [limit]. *)
Fixpoint consume (limit : nat) (it : list (nat * Z)) (uncommitted : Z) : list (nat * Z) * Z :=
  match it with
  | (s, c) :: it' => if (s <? limit)%nat then consume limit it' (u32 (uncommitted + c)) else (it, uncommitted)
  | [] => ([], uncommitted)
  end.

(** The loop that advances [nextSeq] along a span. *)
Fixpoint along_span (branch : Z) (last : nat) (it : list (nat * Z)) (nextSeq : nat) (uncommitted : Z)
    : nat * list (nat * Z) * Z :=
  if (nextSeq <? last)%nat && (uncommitted <? branch) then
    match it with
    | (s, c) :: it' =>
        if (s <? last)%nat then along_span branch last it' (s + 1) (u32 (uncommitted + c))
        else (last, it, uncommitted)
    | [] => (last, it, uncommitted)
    end
  else (nextSeq, it, uncommitted).

(** ** The best child

    A child with what the walk would return from it. [std::partial_sort] puts the
    two greatest by branch support, then start ID, in front; it also reorders the
    children, which nothing else depends on. *)

Record Candidate := mkCand { c_branch : Z; c_startID : Z; c_walk : list (nat * Z) -> Z -> SpanTip }.

Definition better (a b : Candidate) : bool :=
  (c_branch b <? c_branch a) || ((c_branch a =? c_branch b) && (c_startID b <? c_startID a)).

(** The greatest candidate and the others. *)
Fixpoint select_best (c : Candidate) (cs : list Candidate) : Candidate * list Candidate :=
  match cs with
  | [] => (c, [])
  | d :: ds =>
      if better d c then let (b, o) := select_best d ds in (b, c :: o)
      else let (b, o) := select_best c ds in (b, d :: o)
  end.

Definition margin_of (best : Candidate) (others : list Candidate) : Z :=
  match others with
  | [] => c_branch best
  | o :: os =>
      let second := fst (select_best o os) in
      let margin := u32 (c_branch best - c_branch second) in
      if c_startID second <? c_startID best then u32 (margin + 1) else margin
  end.

(** ** The walk *)

Fixpoint preferred_from (largestIssued : nat) (n : Node) (it : list (nat * Z)) (uncommitted : Z) : SpanTip :=
  let 'mkNode sp _ branch cs := n in
  let kids := map (fun c => mkCand (n_branch c) (startID (n_span c)) (preferred_from largestIssued c)) cs in
  let nextSeq := (start_ sp + 1)%nat in
  let '(it, uncommitted) := consume (Nat.max nextSeq largestIssued) it uncommitted in
  let '(nextSeq, it, uncommitted) := along_span branch (end_ sp) it nextSeq uncommitted in
  if (nextSeq <? end_ sp)%nat then
    match span_before sp nextSeq with Some s => span_tip s | None => span_tip sp end
  else
    match kids with
    | [] => span_tip sp
    | k :: ks =>
        let (best, others) := select_best k ks in
        if (uncommitted <? margin_of best others) || (uncommitted =? 0)
        then c_walk best it uncommitted else span_tip sp
    end.

Definition getPreferred (t : LedgerTrie) (largestIssued : nat) : option SpanTip :=
  if empty t then None
  else Some (preferred_from largestIssued (root t) (seq_entries (seqSupport t)) 0).

(** ** The documented rule, ledger by ledger

    From [l], going on to its child [x] needs more branch support than the
    validators that have not yet validated at that sequence number, and, against
    every other child, more than its support plus theirs; equal support is decided
    by the greater ID. *)

Definition branch_of (m : gmap Ledger Z) (l : Ledger) : Z :=
  support m (fun l' => bool_decide (l `prefix_of` l')).

Definition uncommitted_at (m : gmap Ledger Z) (s : nat) : Z :=
  support m (fun l' => (seq_of l' <? s)%nat).

Definition advances (m : gmap Ledger Z) (largestIssued : nat) (l : Ledger) (x : Z) : Prop :=
  let uncommitted := uncommitted_at m (Nat.max (length l) largestIssued) in
  uncommitted < branch_of m (l ++ [x]) /\
  forall y, y <> x ->
    branch_of m (l ++ [y]) + uncommitted < branch_of m (l ++ [x]) + (if y <? x then 1 else 0).

(** [l] is reached from the genesis ledger by advancing, and nothing follows it. *)
Definition preferred (m : gmap Ledger Z) (largestIssued : nat) (genesis : Z) (l : Ledger) : Prop :=
  head l = Some genesis /\
  (forall k x, (0 < k)%nat -> l !! k = Some x -> advances m largestIssued (take k l) x) /\
  (forall x, ~ advances m largestIssued l x).

(** ** The iterator and the uncommitted support *)

Section Uncommitted.
Context (known : Ledger -> Prop) (genesis : Z) (t : LedgerTrie) (m : gmap Ledger Z).
Context (Hrep : represents known t m) (Hbound : support m (fun _ => true) < 2 ^ 32).

#[local] Abbreviation U := (uncommitted_at m).

Lemma support_split p q r :
  (forall l, p l = q l || r l) -> (forall l, q l && r l = false) -> support m p = support m q + support m r.
Proof.
  intros Hp Hd. unfold support. induction (map_to_list m) as [|[l c] xs IH]; cbn; [done|].
  rewrite IH, Hp. specialize (Hd l). destruct (q l), (r l); cbn in *; try done; ring.
Qed.

Lemma U_S s : U (S s) = U s + default 0 (seqSupport t !! s).
Proof.
  destruct Hrep as (_ & _ & _ & _ & _ & ->). unfold uncommitted_at. apply support_split; intros l.
  - destruct (Nat.ltb_spec (seq_of l) (S s)), (Nat.ltb_spec (seq_of l) s); cbn; try lia; case_bool_decide; (done || lia).
  - destruct (Nat.ltb_spec (seq_of l) s); cbn; [|done]. apply bool_decide_false. lia.
Qed.

Lemma U_range s : 0 <= U s < 2 ^ 32.
Proof. destruct (represents_bounds known genesis t m (fun l' => (seq_of l' <? s)%nat) Hrep). unfold uncommitted_at. lia. Qed.

Lemma U_same a b : (a <= b)%nat -> (forall s, (a <= s < b)%nat -> seqSupport t !! s = None) -> U b = U a.
Proof.
  induction 1 as [|b Hab IH]; intros Hnone; [done|]. rewrite U_S, IH, Hnone; [cbn; lia|lia|]. intros s Hs. apply Hnone. lia.
Qed.

(** The iterator is at the entries from [lim] on, those before it are counted. *)
Definition at_limit (lim : nat) (it : list (nat * Z)) (uncommitted : Z) : Prop :=
  uncommitted = U lim /\ StronglySorted (fun a b => (a.1 < b.1)%nat) it /\
  forall s c, (s, c) ∈ it <-> (lim <= s)%nat /\ seqSupport t !! s = Some c.

Lemma at_limit_gap lim s c it unc s' :
  at_limit lim ((s, c) :: it) unc -> (lim <= s' < s)%nat -> seqSupport t !! s' = None.
Proof.
  intros (_ & [_ Hs]%StronglySorted_inv & Hin) Hs'. rewrite Forall_forall in Hs.
  destruct (seqSupport t !! s') as [c'|] eqn:E; [|done].
  assert (Hmem : (s', c') ∈ (s, c) :: it) by (apply Hin; split; [lia|done]).
  apply elem_of_cons in Hmem as [[= -> ->]|Hmem]; [lia|]. specialize (Hs _ Hmem). cbn in Hs. lia.
Qed.

Lemma at_limit_step lim s c it unc :
  at_limit lim ((s, c) :: it) unc -> (lim <= s)%nat /\ at_limit (S s) it (u32 (unc + c)).
Proof.
  intros H.
  assert (Hgap : forall s', (lim <= s' < s)%nat -> seqSupport t !! s' = None) by (intros; by eapply at_limit_gap).
  destruct H as (Hu & [Hs Hlt]%StronglySorted_inv & Hin). rewrite Forall_forall in Hlt.
  assert (Hsc : (lim <= s)%nat /\ seqSupport t !! s = Some c) by (apply Hin; left). destruct Hsc as [Hle Hsc].
  split; [done|]. assert (HU : U (S s) = unc + c) by (rewrite U_S, Hsc, (U_same lim s) by done; cbn; lia).
  split_and!; [rewrite u32_small; [done|]; rewrite <-HU; apply U_range|done|].
  intros s' c'. split.
  - intros Hmem. pose proof (Hlt _ Hmem) as Hl. cbn in Hl. assert (Hc : (s', c') ∈ (s, c) :: it) by by right.
    apply Hin in Hc as [_ Hc]. split; [lia|done].
  - intros [Hl Hc]. assert (Hmem : (s', c') ∈ (s, c) :: it) by (apply Hin; split; [lia|done]).
    apply elem_of_cons in Hmem as [[= -> ->]|Hmem]; [lia|done].
Qed.

(** Moving the limit over a gap. *)
Lemma at_limit_move lim lim' it unc :
  at_limit lim it unc -> (lim <= lim')%nat -> (forall s c, (s, c) ∈ it -> (lim' <= s)%nat) -> at_limit lim' it unc.
Proof.
  intros (Hu & Hs & Hin) Hle Hall. split_and!; [|done|].
  - rewrite Hu. symmetry. apply U_same; [done|]. intros s Hsr. destruct (seqSupport t !! s) as [c|] eqn:E; [|done].
    assert (Hmem : (s, c) ∈ it) by (apply Hin; split; [lia|done]). specialize (Hall _ _ Hmem). lia.
  - intros s c. rewrite Hin. split; [|intros [? ?]; split; [lia|done]]. intros [Hl Hc]. split; [|done].
    apply (Hall s c). by apply Hin.
Qed.

Lemma head_least s c it lim s' c' : StronglySorted (fun a b : nat * Z => (a.1 < b.1)%nat) ((s, c) :: it) ->
  (lim <= s)%nat -> (s', c') ∈ (s, c) :: it -> (lim <= s')%nat.
Proof.
  intros [_ Hs]%StronglySorted_inv Hle [[= -> ->]|Hin]%elem_of_cons; [done|].
  rewrite Forall_forall in Hs. specialize (Hs _ Hin). cbn in Hs. lia.
Qed.

Lemma consume_spec limit it : forall lim unc,
  at_limit lim it unc -> (lim <= limit)%nat ->
  let '(it', unc') := consume limit it unc in at_limit limit it' unc'.
Proof.
  induction it as [|[s c] it IH]; intros lim unc H Hle; cbn [consume].
  - eapply at_limit_move; [done..|]. by intros s c Hin%elem_of_nil.
  - destruct (Nat.ltb_spec s limit) as [Hlt|Hge].
    + destruct (at_limit_step _ _ _ _ _ H) as [_ H']. apply (IH (S s)); [done|lia].
    + eapply at_limit_move; [done..|]. intros s' c'. by eapply head_least; [apply H|].
Qed.

Lemma along_span_spec branch last largest it : forall nextSeq unc,
  at_limit (Nat.max nextSeq largest) it unc -> (nextSeq <= last)%nat ->
  let '(next', it', unc') := along_span branch last it nextSeq unc in
  (nextSeq <= next' <= last)%nat /\
  (forall q, (nextSeq <= q < next')%nat -> U (Nat.max q largest) < branch) /\
  (if (next' <? last)%nat then branch <= U (Nat.max next' largest)
   else at_limit (Nat.max last largest) it' unc').
Proof.
  induction it as [|[s c] it IH]; intros nextSeq unc H Hle; cbn [along_span].
  all: destruct (Nat.ltb_spec nextSeq last) as [Hlt|Hge]; cbn [andb];
    [|assert (nextSeq = last) as -> by lia; rewrite Nat.ltb_irrefl; split_and!; [lia|lia|intros; lia|done]].
  all: destruct (Z.ltb_spec unc branch) as [Hb|Hb];
    [|rewrite (proj2 (Nat.ltb_lt _ _)) by done; split_and!; [lia|lia|intros; lia|]; destruct H as [<- _]; done].
  - rewrite Nat.ltb_irrefl.
    assert (Hmove : forall q, (nextSeq <= q)%nat -> at_limit (Nat.max q largest) [] unc).
    { intros q Hq. eapply at_limit_move; [done|lia|]. by intros s c Hin%elem_of_nil. }
    split_and!; [lia|lia| |by apply Hmove]. intros q Hq. destruct (Hmove q ltac:(lia)) as [<- _]. done.
  - destruct (at_limit_step _ _ _ _ _ H) as [Hls Hstep].
    assert (Hmove : forall q, (nextSeq <= q)%nat -> (q <= s)%nat -> at_limit (Nat.max q largest) ((s, c) :: it) unc).
    { intros q Hq Hqs. eapply at_limit_move; [done|lia|]. intros s' c'. eapply head_least; [apply H|lia]. }
    destruct (Nat.ltb_spec s last) as [Hsl|Hsl].
    + specialize (IH (s + 1)%nat (u32 (unc + c))). replace (Nat.max (s + 1) largest) with (S s) in IH by lia.
      specialize (IH Hstep ltac:(lia)). destruct (along_span _ _ _ _ _) as [[next' it'] unc'].
      destruct IH as (H1 & H2 & H3). split_and!; [lia|lia| |done]. intros q Hq.
      destruct (decide (s < q)%nat); [apply H2; lia|]. destruct (Hmove q ltac:(lia) ltac:(lia)) as [<- _]. done.
    + rewrite Nat.ltb_irrefl. split_and!; [lia|lia| |].
      * intros q Hq. destruct (Hmove q ltac:(lia) ltac:(lia)) as [<- _]. done.
      * apply Hmove; lia.
Qed.

Lemma seq_entries_start : at_limit 0 (seq_entries (seqSupport t)) 0.
Proof.
  split_and!.
  - unfold uncommitted_at. symmetry. apply total_none. done.
  - unfold seq_entries.
    assert (Hd : NoDup (merge_sort seq_le (map_to_list (seqSupport t))).*1).
    { rewrite merge_sort_Permutation. apply NoDup_fst_map_to_list. }
    assert (Hs : StronglySorted seq_le (merge_sort seq_le (map_to_list (seqSupport t)))) by (apply StronglySorted_merge_sort; apply _).
    induction Hs as [|a l Hs IH Hle]; [constructor|]. rewrite fmap_cons in Hd. apply NoDup_cons in Hd as [Hn Hd].
    constructor; [by apply IH|]. rewrite Forall_forall in Hle |- *. intros b Hb. specialize (Hle _ Hb).
    unfold seq_le in Hle. assert (a.1 <> b.1); [|lia]. intros He. apply Hn. rewrite He. by apply list_elem_of_fmap_2.
  - intros s c. unfold seq_entries. rewrite merge_sort_Permutation, elem_of_map_to_list. split; [|tauto]. split; [lia|done].
Qed.
End Uncommitted.

(** ** Branch support read off the trie *)

Section Walk.
Context (known : Ledger -> Prop) (genesis : Z) {hist : Histories known genesis} (m : gmap Ledger Z).

#[local] Abbreviation sid n := (startID (n_span n)).

(** The node accounts for every ledger that continues as it does. *)
Definition subtree (P : Ledger) (n : Node) : Prop :=
  forall l, (P ++ [sid n]) `prefix_of` l -> branch_of m l = total (fun l' => bool_decide (l `prefix_of` l')) (nodes n).

Lemma take_in_span P n k :
  node_ok known P n -> (start_ (n_span n) < k)%nat -> (P ++ [sid n]) `prefix_of` take k (ledger_ (n_span n)).
Proof.
  intros Hok Hk. destruct Hok as [P sp tip branch cs H1 H2 H3 H4 _ _ _ _ _ _]. cbn in *.
  unfold startID. rewrite <-H2, <-take_S_r by (apply ancestor_lookup; lia).
  replace (S (start_ sp)) with (Nat.min (S (start_ sp)) k) by lia. rewrite <-take_take. apply prefix_take.
Qed.

Lemma own_prefix P n : node_ok known P n -> (P ++ [sid n]) `prefix_of` n_ledger n.
Proof. intros Hok. apply take_in_span; [done|]. by destruct Hok. Qed.

Lemma span_branch P n k :
  node_ok known P n -> subtree P n -> (start_ (n_span n) < k <= end_ (n_span n))%nat ->
  branch_of m (take k (ledger_ (n_span n))) = n_branch n.
Proof.
  intros Hok Hsub Hk. rewrite Hsub by (apply take_in_span; [done|lia]). destruct (node_ok_branch _ _ _ Hok) as [_ ->].
  apply total_all. intros l c Hin. apply bool_decide_true. destruct (nodes_extend known genesis _ _ _ _ Hok Hin) as [Hl _].
  etrans; [|exact Hl]. unfold n_ledger. replace k with (Nat.min k (end_ (n_span n))) by lia. rewrite <-take_take. apply prefix_take.
Qed.

Lemma span_off P n k y :
  node_ok known P n -> subtree P n -> (start_ (n_span n) < k < end_ (n_span n))%nat ->
  ledger_ (n_span n) !! k <> Some y -> branch_of m (take k (ledger_ (n_span n)) ++ [y]) = 0.
Proof.
  intros Hok Hsub Hk Hy. rewrite Hsub by (etrans; [apply (take_in_span P n k); [done|lia]|by apply prefix_app_r]).
  eapply (total_subtree_none known genesis); [done|apply below_prefix|]. intros (l' & H1 & H2).
  assert (Hlen : (end_ (n_span n) <= length (ledger_ (n_span n)))%nat) by (by destruct Hok).
  assert (Hb : l' !! k = Some y).
  { eapply prefix_lookup_Some; [|exact H2]. apply list_lookup_middle. rewrite length_take. lia. }
  destruct (lookup_lt_is_Some_2 (ledger_ (n_span n)) k) as [z Hz]; [lia|]. apply Hy. rewrite Hz, <-Hb. symmetry.
  eapply prefix_lookup_Some; [|exact H1]. unfold n_ledger. by rewrite lookup_take_lt by lia.
Qed.

Lemma node_total P n l :
  node_ok known P n -> (length (n_ledger n) < length l)%nat ->
  total (fun l' => bool_decide (l `prefix_of` l')) (nodes n) =
  total (fun l' => bool_decide (l `prefix_of` l')) (forest (n_children n)).
Proof.
  destruct n as [sp tip branch cs]. intros _ Hlen. cbn. fold (forest cs). rewrite bool_decide_false; [done|].
  intros Hp%prefix_length. unfold n_ledger in Hlen. cbn in Hlen. lia.
Qed.

Lemma child_subtree P n c :
  node_ok known P n -> subtree P n -> c ∈ n_children n -> node_ok known (n_ledger n) c /\ subtree (n_ledger n) c.
Proof.
  intros Hok Hsub Hc. destruct (node_ok_ledger known genesis _ _ Hok) as (HP & HlP & Hid & _).
  assert (Hcs : Forall (node_ok known (n_ledger n)) (n_children n)) by (by destruct Hok).
  split; [by rewrite Forall_forall in Hcs; apply Hcs|]. intros l Hl.
  assert (Hle : n_ledger n `prefix_of` l) by (etrans; [|exact Hl]; by apply prefix_app_r).
  assert (Hlt : (length (n_ledger n) < length l)%nat) by (apply prefix_length in Hl; rewrite length_app in Hl; cbn in Hl; lia).
  rewrite (Hsub l), (node_total P n l) by (done || by etrans; [apply own_prefix|]).
  apply list_elem_of_split in Hc as (a & b & E). rewrite E in *. apply (total_other known genesis (n_ledger n) a c b l); [done| | |apply below_prefix].
  - rewrite <-E. by destruct Hok.
  - eapply prefix_lookup_Some; [|exact Hl]. by apply list_lookup_middle.
Qed.

Lemma child_branch P n c :
  node_ok known P n -> subtree P n -> c ∈ n_children n -> branch_of m (n_ledger n ++ [sid c]) = n_branch c.
Proof.
  intros Hok Hsub Hc. destruct (child_subtree P n c Hok Hsub Hc) as [Hcok Hcsub].
  rewrite <-(span_branch _ c (S (start_ (n_span c))) Hcok Hcsub) by (destruct Hcok; cbn; lia). f_equal.
  destruct Hcok as [Q sp tip branch cs H1 H2 H3 H4]. cbn. rewrite (take_S_r _ _ (startID sp)) by (apply ancestor_lookup; lia). by rewrite H2.
Qed.

Lemma no_child P n x :
  node_ok known P n -> subtree P n -> (forall c, c ∈ n_children n -> sid c <> x) -> branch_of m (n_ledger n ++ [x]) = 0.
Proof.
  intros Hok Hsub Hx. rewrite (Hsub (n_ledger n ++ [x])), (node_total P n)
    by (done || (rewrite length_app; cbn; lia) || by etrans; [apply own_prefix|apply prefix_app_r]).
  apply total_none. intros l c (d & Hd & Hin)%elem_of_forest. apply bool_decide_false. intros Hl.
  destruct (child_subtree P n d Hok Hsub Hd) as [Hdok _]. destruct (nodes_extend known genesis _ _ _ _ Hdok Hin) as [Hp _].
  destruct (node_ok_ledger known genesis _ _ Hdok) as (_ & _ & Hid & _). apply (Hx d Hd).
  apply (prefix_lookup_Some _ _ _ _ Hid) in Hp. eapply (prefix_lookup_Some _ _ (length (n_ledger n)) x) in Hl; [congruence|].
  by apply list_lookup_middle.
Qed.

Lemma branch_positive P n : node_ok known P n -> dense n -> 1 <= n_branch n.
Proof.
  revert P. induction n as [sp tip branch cs IH] using Node_ind'. intros P Hok Hd.
  inversion Hok as [? ? ? ? ? _ _ _ _ _ Ht Hb Hcs Hden _]; subst. cbn in *. unfold dense in Hd. cbn in Hd.
  destruct (decide (tip = 0)) as [->|]; [|assert (0 <= branches cs); [|lia]].
  - destruct cs as [|c cs]; [cbn in *; lia|]. pose proof (branches_bound _ _ _ c Hcs ltac:(left)).
    apply Forall_cons in IH as [IHc _]. apply Forall_cons in Hcs as [Hc _]. apply Forall_cons in Hden as [Hdc _].
    specialize (IHc _ Hc Hdc). lia.
  - clear -Hcs. induction Hcs as [|c cs Hc _ IHcs]; cbn; [lia|]. destruct (node_ok_branch _ _ _ Hc). lia.
Qed.
End Walk.

(** ** The best child *)

Lemma select_best_spec c cs :
  let (b, o) := select_best c cs in b :: o ≡ₚ c :: cs /\ forall d, d ∈ o -> better d b = false.
Proof.
  revert c. induction cs as [|d ds IH]; intros c; cbn; [split; [done|by intros d ?%elem_of_nil]|].
  destruct (better d c) eqn:E; [specialize (IH d)|specialize (IH c)]; destruct (select_best _ ds) as [b o]; destruct IH as [Hp Hb];
    (split; [rewrite Permutation_swap, Hp; done || apply Permutation_swap|]); intros e [->|He]%elem_of_cons; [|by apply Hb| |by apply Hb].
  - assert (Hd : d = b \/ better d b = false).
    { assert (Hin : d ∈ b :: o) by (rewrite Hp; left). apply elem_of_cons in Hin as [|]; [by left|right; by apply Hb]. }
    destruct Hd as [<-|Hd]; unfold better in *; lia.
  - assert (Hc : c = b \/ better c b = false).
    { assert (Hin : c ∈ b :: o) by (rewrite Hp; left). apply elem_of_cons in Hin as [|]; [by left|right; by apply Hb]. }
    destruct Hc as [<-|Hc]; [done|]. unfold better in *; lia.
Qed.

(** The margin over the second best decides against all the others at once. *)
Lemma margin_spec b others unc :
  0 <= unc -> 1 <= c_branch b < 2 ^ 32 ->
  (forall d, d ∈ others -> better d b = false /\ c_startID d <> c_startID b /\ 1 <= c_branch d) ->
  (unc <? margin_of b others) || (unc =? 0) = true <->
  unc < c_branch b /\
  forall d, d ∈ others -> c_branch d + unc < c_branch b + (if c_startID d <? c_startID b then 1 else 0).
Proof.
  intros Hu Hb Hd. unfold margin_of. destruct others as [|o os].
  { rewrite orb_true_iff, Z.ltb_lt, Z.eqb_eq. split; [|tauto]. split; [lia|by intros d ?%elem_of_nil]. }
  pose proof (select_best_spec o os) as Hs. destruct (select_best o os) as [s rest]. destruct Hs as [Hp Hs]. cbn [fst].
  assert (Hin : s ∈ o :: os) by (rewrite <-Hp; left). destruct (Hd s Hin) as (H1 & H2 & H3).
  assert (Hle : c_branch s <= c_branch b) by (unfold better in H1; lia).
  rewrite (u32_small (c_branch b - c_branch s)), (u32_small (_ + 1)) by lia. rewrite orb_true_iff, Z.ltb_lt, Z.eqb_eq.
  split.
  - intros Hm. split; [destruct (c_startID s <? c_startID b); unfold better in H1; lia|].
    intros d Hdin. destruct (Hd d Hdin) as (D1 & D2 & D3). rewrite <-Hp in Hdin.
    assert (Hds : d = s \/ better d s = false) by (apply elem_of_cons in Hdin as [|]; [by left|right; by apply Hs]).
    destruct Hds as [->|Hds]; [|unfold better in Hds; destruct (Z.ltb_spec (c_startID d) (c_startID b))];
      unfold better in H1, D1; destruct (Z.ltb_spec (c_startID s) (c_startID b)); lia.
  - intros [Hlt Hall]. specialize (Hall s Hin). destruct (c_startID s <? c_startID b); lia.
Qed.

(** ** The walk follows the rule *)

Section Preferred.
Context (known : Ledger -> Prop) (genesis : Z) {hist : Histories known genesis}.
Context (t : LedgerTrie) (m : gmap Ledger Z) (Hrep : represents known t m) (Hbound : support m (fun _ => true) < 2 ^ 32).
Context (largestIssued : nat).

#[local] Abbreviation U s := (uncommitted_at m (Nat.max s largestIssued)).
#[local] Abbreviation sid n := (startID (n_span n)).

(** The ledger a tip stands for. *)
Definition tip_ledger (r : SpanTip) : Ledger := take (S (st_seq r)) (st_ledger r).

(** Going on from [P ++ [x]] the rule leads to [r] and no further. *)
Definition leads (P : Ledger) (x : Z) (r : SpanTip) : Prop :=
  (st_seq r < length (st_ledger r))%nat /\ known (tip_ledger r) /\ st_id r = id_of (tip_ledger r) /\
  (P ++ [x]) `prefix_of` tip_ledger r /\
  (forall k y, (length P < k)%nat -> tip_ledger r !! k = Some y -> advances m largestIssued (take k (tip_ledger r)) y) /\
  (forall y, ~ advances m largestIssued (tip_ledger r) y).

Lemma U_nonneg s : 0 <= U s.
Proof. by destruct (U_range known genesis t m Hrep Hbound (Nat.max s largestIssued)). Qed.

Lemma unsupported_stays l x : branch_of m (l ++ [x]) = 0 -> ~ advances m largestIssued l x.
Proof. intros H0 [H _]. rewrite H0 in H. pose proof (U_nonneg (length l)). lia. Qed.

Lemma span_length P n k : node_ok known P n -> (k <= end_ (n_span n))%nat -> length (take k (ledger_ (n_span n))) = k.
Proof. intros Hok Hk. rewrite length_take. assert (end_ (n_span n) <= length (ledger_ (n_span n)))%nat by (by destruct Hok). lia. Qed.

Lemma span_advances P n k x :
  node_ok known P n -> subtree m P n -> (start_ (n_span n) < k < end_ (n_span n))%nat ->
  ledger_ (n_span n) !! k = Some x -> U k < n_branch n -> advances m largestIssued (take k (ledger_ (n_span n))) x.
Proof.
  intros Hok Hsub Hk Hx Hu. unfold advances. rewrite (span_length P) by (done || lia).
  rewrite <-(take_S_r _ _ _ Hx), (span_branch known genesis m P n) by (done || lia). split; [done|].
  intros y Hy. rewrite (span_off known genesis m P n) by (done || congruence).
  destruct (y <? x); lia.
Qed.

Lemma span_stays P n k x :
  node_ok known P n -> subtree m P n -> (start_ (n_span n) < k < end_ (n_span n))%nat ->
  n_branch n <= U k -> ~ advances m largestIssued (take k (ledger_ (n_span n))) x.
Proof.
  intros Hok Hsub Hk Hu. destruct (decide (ledger_ (n_span n) !! k = Some x)) as [Hx|Hx].
  - intros [Ha _]. rewrite (span_length P) in Ha by (done || lia).
    rewrite <-(take_S_r _ _ _ Hx), (span_branch known genesis m P n) in Ha by (done || lia). lia.
  - apply unsupported_stays. by apply (span_off known genesis m P n).
Qed.

Lemma leads_span P n k :
  node_ok known P n -> subtree m P n -> (start_ (n_span n) < k <= end_ (n_span n))%nat ->
  (forall q, (start_ (n_span n) + 1 <= q < k)%nat -> U q < n_branch n) ->
  (forall y, ~ advances m largestIssued (take k (ledger_ (n_span n))) y) ->
  leads P (sid n) (mkTip (k - 1) (ancestor (ledger_ (n_span n)) (k - 1)) (ledger_ (n_span n))).
Proof.
  intros Hok Hsub Hk Hadv Hstop. pose proof (span_length P n k Hok ltac:(lia)) as Hlen. unfold leads, tip_ledger. cbn.
  replace (S (k - 1)) with k by lia. rewrite length_take in Hlen. split_and!.
  - lia.
  - replace k with (Nat.min k (end_ (n_span n))) by lia. rewrite <-take_take.
    apply (known_ancestor known genesis); [|lia]. by destruct Hok.
  - unfold id_of, seq_of, ancestor. rewrite length_take, nth_lookup, nth_lookup. replace (pred (Nat.min k _)) with (k - 1)%nat by lia.
    by rewrite lookup_take_lt by lia.
  - apply (take_in_span known); [done|lia].
  - assert (HP : length P = start_ (n_span n)) by (by destruct Hok). intros q y Hq Hy.
    assert (Hqk : (q < k)%nat) by (apply lookup_lt_Some in Hy; rewrite length_take in Hy; lia).
    rewrite lookup_take_lt in Hy by done. rewrite take_take, Nat.min_l by lia.
    apply (span_advances P n); [done|done|lia|done|apply Hadv; lia].
  - done.
Qed.

Lemma leads_child P n c r :
  node_ok known P n -> subtree m P n ->
  (forall q, (start_ (n_span n) + 1 <= q < end_ (n_span n))%nat -> U q < n_branch n) ->
  advances m largestIssued (n_ledger n) (sid c) -> leads (n_ledger n) (sid c) r -> leads P (sid n) r.
Proof.
  intros Hok Hsub Hadv Hc (L1 & L2 & L3 & L4 & L5 & L6). unfold leads. split_and!; try done.
  - etrans; [by apply (own_prefix known)|]. etrans; [|exact L4]. by apply prefix_app_r.
  - assert (HP : length P = start_ (n_span n)) by (by destruct Hok).
    assert (HQ : length (n_ledger n) = end_ (n_span n)) by (by apply (span_length P n)). intros k y Hk Hy.
    destruct L4 as [tl Htl]. destruct (Nat.lt_total (length (n_ledger n)) k) as [Hlt|[Heq|Hgt]]; [by apply L5| |].
    + rewrite Htl, <-app_assoc, <-Heq in Hy |- *. rewrite take_app_length. rewrite lookup_app_r, Nat.sub_diag in Hy by done.
      by injection Hy as <-.
    + rewrite Htl, <-app_assoc in Hy |- *. rewrite lookup_app_l in Hy by done. rewrite take_app_le by lia.
      unfold n_ledger in Hy |- *. rewrite lookup_take_lt in Hy by lia. rewrite take_take, Nat.min_l by lia.
      apply (span_advances P n); [done|done|lia|done|apply Hadv; lia].
Qed.

Section Best.
Context (P : Ledger) (n : Node) (walk : Node -> list (nat * Z) -> Z -> SpanTip).
Context (Hok : node_ok known P n) (Hsub : subtree m P n) (Hsmall : n_branch n < 2 ^ 32).

#[local] Abbreviation cand c := (mkCand (n_branch c) (sid c) (walk c)).

Lemma children_small c : c ∈ n_children n -> 1 <= n_branch c < 2 ^ 32.
Proof.
  intros Hc. destruct (child_subtree known genesis m P n c Hok Hsub Hc) as [Hcok _].
  destruct Hok as [? sp tip branch cs _ _ _ _ _ Ht Hb Hcs Hden _]. cbn in *. rewrite Forall_forall in Hden.
  pose proof (branch_positive known _ c Hcok (Hden c Hc)). pose proof (branches_bound _ _ _ c Hcs Hc). lia.
Qed.

(** What a ledger following this node's is supported by. *)
Lemma branch_cases x :
  (exists c, c ∈ n_children n /\ x = sid c /\ branch_of m (n_ledger n ++ [x]) = n_branch c) \/
  branch_of m (n_ledger n ++ [x]) = 0.
Proof.
  destruct (decide (x ∈ (fun c => sid c) <$> n_children n)) as [Hin|Hnin].
  - left. apply list_elem_of_fmap in Hin as (c & -> & Hc). exists c. split_and!; [done..|].
    by apply (child_branch known genesis m P n c).
  - right. apply (no_child known genesis m P n x); [done..|].
    intros c Hc <-. apply Hnin. by apply (list_elem_of_fmap_2 (fun c => sid c)).
Qed.

Lemma best_child k ks best others unc :
  map (fun c => cand c) (n_children n) = k :: ks -> select_best k ks = (best, others) -> unc = U (end_ (n_span n)) ->
  exists c, c ∈ n_children n /\ best = cand c /\
    if (unc <? margin_of best others) || (unc =? 0) then advances m largestIssued (n_ledger n) (sid c)
    else forall x, ~ advances m largestIssued (n_ledger n) x.
Proof.
  intros Hk Hs Hu. pose proof (select_best_spec k ks) as Hsel. rewrite Hs, <-Hk in Hsel. destruct Hsel as [Hp Hbest].
  assert (Hmem : forall d, d ∈ best :: others <-> exists c, c ∈ n_children n /\ d = cand c).
  { intros d. rewrite Hp, list_elem_of_fmap. naive_solver. }
  assert (Hnd : NoDup (c_startID <$> best :: others)).
  { rewrite Hp, <-list_fmap_compose. by destruct Hok. }
  apply NoDup_cons in Hnd as [Hne _]. destruct (proj1 (Hmem best)) as (c & Hc & ->); [left|]. exists c. split_and!; [done..|].
  pose proof (U_nonneg (end_ (n_span n))) as Hu0. rewrite <-Hu in Hu0. pose proof (children_small c Hc) as Hcb.
  assert (Hlen : length (n_ledger n) = end_ (n_span n)) by (by apply (span_length P n)).
  assert (Hoth : forall d, d ∈ others -> better d (cand c) = false /\ c_startID d <> sid c /\ 1 <= c_branch d).
  { intros d Hd. split_and!; [by apply Hbest|intros E; apply Hne; change (sid c ∈ c_startID <$> others); rewrite <-E; by apply list_elem_of_fmap_2|].
    destruct (proj1 (Hmem d)) as (c' & Hc' & ->); [by right|]. by apply children_small. }
  assert (Hof : forall c', c' ∈ n_children n -> sid c' <> sid c -> cand c' ∈ others).
  { intros c' Hc' Hne'. assert (Hin : cand c' ∈ cand c :: others) by (apply Hmem; by exists c').
    apply elem_of_cons in Hin as [E|]; [|done]. injection E as _ E _. done. }
  pose proof (margin_spec (cand c) others unc Hu0 Hcb Hoth) as Hmargin. cbn [c_branch c_startID] in Hmargin.
  pose proof (child_branch known genesis m P n c Hok Hsub Hc) as Hcbr. unfold advances. rewrite Hlen, <-Hu.
  destruct (_ || _) eqn:Econd.
  - destruct (proj1 Hmargin eq_refl) as [M1 M2]. rewrite Hcbr. split; [done|]. intros y Hy.
    destruct (branch_cases y) as [(c' & Hc' & -> & ->)| ->]; [exact (M2 (cand c') (Hof c' Hc' Hy))|destruct (y <? sid c); lia].
  - intros x [A1 A2]. destruct (branch_cases x) as [(c' & Hc' & -> & E)|E]; rewrite E in *; [|lia].
    destruct (decide (sid c' = sid c)) as [Es|Hne'].
    + rewrite Es, Hcbr in E. enough (false = true) by done. apply Hmargin. rewrite E. split; [done|]. intros d Hd.
      destruct (proj1 (Hmem d)) as (c2 & Hc2 & ->); [by right|]. cbn.
      rewrite <-(child_branch known genesis m P n c2), <-Es by done. apply A2. rewrite Es. by destruct (Hoth _ Hd) as (_ & ? & _).
    + destruct (Hoth _ (Hof c' Hc' Hne')) as (B1 & _ & _). specialize (A2 (sid c) (not_eq_sym Hne')). rewrite Hcbr in A2.
      unfold better in B1. cbn in B1. apply orb_false_iff in Econd as [_ Eu]. apply Z.eqb_neq in Eu.
      destruct (sid c <? sid c'); lia.
Qed.
End Best.

Lemma preferred_from_ok n : forall P it unc lim,
  node_ok known P n -> subtree m P n -> n_branch n < 2 ^ 32 ->
  at_limit t m lim it unc -> (lim <= Nat.max (start_ (n_span n) + 1) largestIssued)%nat ->
  leads P (sid n) (preferred_from largestIssued n it unc).
Proof.
  induction n as [sp tip branch cs IH] using Node_ind'. intros P it unc lim Hok Hsub Hsmall Hat Hlim.
  assert (Hspan : (start_ sp < end_ sp <= length (ledger_ sp))%nat) by (inversion Hok; lia).
  cbn [preferred_from n_span n_branch] in *.
  pose proof (consume_spec known genesis t m Hrep Hbound _ it lim unc Hat Hlim) as Hcons.
  destruct (consume _ it unc) as [it1 unc1].
  pose proof (along_span_spec known genesis t m Hrep Hbound branch (end_ sp) largestIssued it1 _ unc1 Hcons ltac:(lia)) as Halong.
  destruct (along_span _ _ _ _ _) as [[next it2] unc2]. destruct Halong as (Hnext & Hadv & Hrest).
  destruct (Nat.ltb_spec next (end_ sp)) as [Hlt|Hge].
  - rewrite span_before_at by lia.
    refine (leads_span P (mkNode sp tip branch cs) next Hok Hsub _ Hadv _); [cbn; lia|].
    intros y. by apply (span_stays P (mkNode sp tip branch cs) next y Hok Hsub); [cbn; lia|].
  - assert (next = end_ sp) as -> by lia.
    assert (Hown : (forall y, ~ advances m largestIssued (n_ledger (mkNode sp tip branch cs)) y) -> leads P (startID sp) (span_tip sp)).
    { refine (leads_span P (mkNode sp tip branch cs) (end_ sp) Hok Hsub _ Hadv). cbn; lia. }
    destruct (map _ cs) as [|k ks] eqn:Ek.
    { apply Hown. intros y. apply unsupported_stays. apply (no_child known genesis m P _ y Hok Hsub).
      apply map_eq_nil in Ek as ->. by intros c ?%elem_of_nil. }
    destruct (select_best k ks) as [best others] eqn:Es.
    destruct (best_child P (mkNode sp tip branch cs) (preferred_from largestIssued) Hok Hsub Hsmall k ks best others unc2 Ek Es)
      as (c & Hc & -> & Hgo); [apply Hrest|].
    destruct (_ || _); [|by apply Hown]. cbn [c_walk].
    destruct (child_subtree known genesis m P _ c Hok Hsub Hc) as [Hcok Hcsub].
    apply (leads_child P (mkNode sp tip branch cs) c); [done..|]. rewrite Forall_forall in IH.
    eapply (IH c Hc); [done|done| |exact Hrest|].
    + by destruct (children_small P (mkNode sp tip branch cs) Hok Hsub Hsmall c Hc).
    + destruct (node_ok_ledger known genesis _ _ Hok) as (_ & _ & _ & _ & HQ & _). cbn in HQ.
      assert (length (n_ledger (mkNode sp tip branch cs)) = start_ (n_span c)) by (by destruct Hcok). cbn in *. lia.
Qed.

Lemma root_leads : leads [] (sid (root t)) (preferred_from largestIssued (root t) (seq_entries (seqSupport t)) 0).
Proof.
  destruct (represents_bounds known genesis t m (fun _ => true) Hrep) as [_ Hb]. pose proof Hrep as (Hok & _ & _ & Ht & _ & _).
  eapply (preferred_from_ok (root t)); [done|intros l _; symmetry; apply Ht|lia|by eapply seq_entries_start|lia].
Qed.

(** ** The rule has one outcome *)

Lemma advances_unique l x y : advances m largestIssued l x -> advances m largestIssued l y -> x = y.
Proof.
  intros [_ Hx] [_ Hy]. destruct (decide (x = y)) as [|Hne]; [done|]. specialize (Hx y (not_eq_sym Hne)). specialize (Hy x Hne).
  pose proof (U_nonneg (length l)). destruct (Z.ltb_spec x y), (Z.ltb_spec y x); lia.
Qed.

Lemma preferred_prefix a b :
  preferred m largestIssued genesis a -> preferred m largestIssued genesis b -> a `prefix_of` b.
Proof.
  intros (Ha & Aadv & _) (Hb & Badv & Bstop). enough (H : forall k, (k <= length a)%nat -> take k a = take k b).
  { specialize (H (length a) (le_n _)). rewrite firstn_all in H. rewrite H. apply prefix_take. }
  induction k as [|k IH]; intros Hk; [done|]. specialize (IH ltac:(lia)).
  destruct (lookup_lt_is_Some_2 a k) as [x Hx]; [lia|].
  destruct k as [|k].
  { destruct a as [|u a], b as [|v b]; try done. injection Ha as ->. by injection Hb as ->. }
  pose proof (Aadv (S k) x ltac:(lia) Hx) as Hadv.
  destruct (b !! S k) as [y|] eqn:Hy.
  - pose proof (Badv (S k) y ltac:(lia) Hy) as Hadv'. rewrite IH in Hadv.
    rewrite (take_S_r _ _ _ Hx), (take_S_r _ _ _ Hy), IH. by rewrite (advances_unique _ _ _ Hadv Hadv').
  - apply lookup_ge_None in Hy. rewrite IH, (take_ge b) in Hadv by done. by apply Bstop in Hadv.
Qed.

Lemma preferred_unique a b : preferred m largestIssued genesis a -> preferred m largestIssued genesis b -> a = b.
Proof.
  intros Ha Hb. pose proof (preferred_prefix a b Ha Hb) as [k ->]. pose proof (preferred_prefix _ a Hb Ha) as Hp%prefix_length.
  rewrite length_app in Hp. destruct k; [by rewrite app_nil_r|cbn in Hp; lia].
Qed.
End Preferred.

Lemma getPreferred_represents known genesis t m largestIssued :
  Histories known genesis -> represents known t m -> support m (fun _ => true) < 2 ^ 32 ->
  match getPreferred t largestIssued with
  | None => m = ∅
  | Some tip =>
      m <> ∅ /\ known (tip_ledger tip) /\ st_seq tip = seq_of (tip_ledger tip) /\ st_id tip = id_of (tip_ledger tip) /\
      forall l, preferred m largestIssued genesis l <-> l = tip_ledger tip
  end.
Proof.
  intros Hh Hrep Hbm. unfold getPreferred. pose proof (represents_empty known genesis t m Hrep) as Hem.
  destruct (empty t); [by apply Hem|]. destruct (root_leads known genesis t m Hrep Hbm largestIssued) as (L1 & L2 & L3 & L4 & L5 & L6).
  set (r := preferred_from _ _ _ _) in *. split_and!; [by intros E%Hem|done| |done|].
  - unfold tip_ledger, seq_of. rewrite length_take. lia.
  - assert (Hpref : preferred m largestIssued genesis (tip_ledger r)).
    { split_and!; [by apply (known_genesis known genesis)|done..]. }
    intros l. split; [|by intros ->]. intros Hl. by apply (preferred_unique known genesis t m Hrep Hbm largestIssued).
Qed.

(** C15. [getPreferred] implements the documented rule. After any sequence of
    validations inserted and removed, it returns nothing exactly when no ledger
    has support; otherwise it returns a known ledger, with its sequence number and
    ID, that is reached from genesis by going on at each sequence number to the
    child whose branch support exceeds every sibling's even if all uncommitted
    support went to that sibling (ties decided by ID), and from which no child can be
    preferred yet. That ledger is the only one the rule allows, so the answer does
    not depend on how the trie is split into spans or on the order of children. *)
Theorem getPreferred_rule (known : Ledger -> Prop) (genesis : Z) (ops : list TrieOp) (largestIssued : nat) :
  Histories known genesis -> Forall (op_valid known) ops -> inserted_total ops < 2 ^ 32 ->
  let t := foldl trie_step (empty_trie genesis) ops in
  let m := foldl spec_step ∅ ops in
  match getPreferred t largestIssued with
  | None => m = ∅
  | Some tip =>
      m <> ∅ /\ known (tip_ledger tip) /\ st_seq tip = seq_of (tip_ledger tip) /\ st_id tip = id_of (tip_ledger tip) /\
      forall l, preferred m largestIssued genesis l <-> l = tip_ledger tip
  end.
Proof.
  intros Hh Hv Hb t m.
  destruct (run_represents known genesis ops (empty_trie genesis) ∅) as [Hrep Hbm];
    [by apply empty_represents|done|unfold support; rewrite map_to_list_empty; cbn; lia|].
  by apply (getPreferred_represents known genesis).
Qed.

(** ** Witness *)

(** Three validators on ledger 3, one on 6: with nothing more issued the walk goes
    past the fork at ledger 2. *)
Lemma getPreferred_rule_witness :
  getPreferred (foldl trie_step (empty_trie 1) wops) 0 = Some (mkTip 2 3 [1; 2; 3; 4]) /\
  preferred (foldl spec_step ∅ wops) 0 1 [1; 2; 3].
Proof.
  assert (E : getPreferred (foldl trie_step (empty_trie 1) wops) 0 = Some (mkTip 2 3 [1; 2; 3; 4])) by by vm_compute.
  split; [exact E|]. assert (Hv : Forall (op_valid wknown) wops) by (repeat constructor; unfold wknown; set_solver || lia).
  pose proof (getPreferred_rule wknown 1 wops 0 wknown_histories Hv ltac:(by vm_compute)) as H. cbv zeta in H.
  rewrite E in H. destruct H as (_ & _ & _ & _ & H). by apply H.
Defined.
