(* ===== verification/TrieInvariants.v ===== *)
(** * The trie's own consistency check

    Models [LedgerTrie::checkInvariants] of consensus/LedgerTrie.h, the test the
    code has for the compressed trie: a stack-driven walk over all nodes that
    recomputes the support per sequence number. Every trie built by insertions and
    removals passes it. *)

From S2P Require Import Prelude LedgerTrie.

(** [std::size_t support] summed over the children. *)
Definition children_support (tip : Z) (cs : list Node) : Z :=
  foldl (fun support c => u64 (support + n_branch c)) tip cs.

(** [expectedSeqSupport[curr->span.end() - Seq{1}] += curr->tipSupport] when it is not zero. *)
Definition count_tip (curr : Node) (expected : gmap nat Z) : gmap nat Z :=
  if n_tip curr =? 0 then expected
  else let s := (end_ (n_span curr) - 1)%nat in <[s := u32 (default 0 (expected !! s) + n_tip curr)]> expected.

(** The loop over the stack; the last child pushed is the next node. [None] is
    [return false]. A child's parent pointer is its place in the tree here. *)
Fixpoint check_nodes (fuel : nat) (at_root : bool) (stack : list Node) (expected : gmap nat Z) : option (gmap nat Z) :=
  match fuel, stack with
  | _, [] => Some expected
  | O, _ => None
  | S fuel, curr :: stack =>
      if negb at_root && (n_tip curr =? 0) && (length (n_children curr) <? 2)%nat then None else
      let expected := count_tip curr expected in
      if children_support (n_tip curr) (n_children curr) =? n_branch curr
      then check_nodes fuel false (rev (n_children curr) ++ stack) expected
      else None
  end.

Definition checkInvariants (t : LedgerTrie) : bool :=
  match check_nodes (length (nodes (root t))) true [root t] ∅ with
  | Some expected => bool_decide (expected = seqSupport t)
  | None => false
  end.

(** ** Maps without zero entries *)

Definition no_zeros (m : gmap nat Z) : Prop := forall s c, m !! s = Some c -> c <> 0.

Lemma no_zeros_ext m1 m2 :
  no_zeros m1 -> no_zeros m2 -> (forall s, default 0 (m1 !! s) = default 0 (m2 !! s)) -> m1 = m2.
Proof.
  intros H1 H2 H. apply map_eq. intros s. specialize (H s). specialize (H1 s). specialize (H2 s).
  destruct (m1 !! s) as [c|], (m2 !! s) as [d|]; cbn in H; unfold id in H; try congruence.
  - destruct (H1 c eq_refl H).
  - destruct (H2 d eq_refl (eq_sym H)).
Qed.

Lemma no_zeros_insert m s c : no_zeros m -> c <> 0 -> no_zeros (<[s := c]> m).
Proof. intros Hm Hc s' c' [[_ <-]|[_ H]]%lookup_insert_Some; [done|by eapply Hm]. Qed.

(** ** The walk *)

Section Check.
Context (known : Ledger -> Prop) (genesis : Z) {hist : Histories known genesis}.

#[local] Abbreviation at_seq s := (fun l => bool_decide (seq_of l = s)).

Lemma children_support_ok Q cs : forall tip,
  Forall (node_ok known Q) cs -> 0 <= tip -> tip + branches cs < 2 ^ 64 -> children_support tip cs = tip + branches cs.
Proof.
  unfold children_support. induction cs as [|c cs IH]; intros tip Hcs Ht Hb; cbn [foldl branches] in *; [lia|].
  apply Forall_cons in Hcs as [Hc Hcs]. destruct (node_ok_branch _ _ _ Hc) as [Hc0 _].
  assert (0 <= branches cs) by (clear -Hcs; induction Hcs as [|d ds Hd _ IHd]; cbn; [lia|]; destruct (node_ok_branch _ _ _ Hd); lia).
  rewrite u64_small by lia. rewrite IH by (done || lia). lia.
Qed.

Definition stack_ok (at_root : bool) (stack : list Node) : Prop :=
  Forall (fun n => (exists P, node_ok known P n) /\ (if at_root then True else dense n) /\ n_branch n < 2 ^ 32) stack.

Lemma nodes_nonneg P n l c : node_ok known P n -> (l, c) ∈ nodes n -> 0 <= c.
Proof. intros Hok Hin. by destruct (nodes_extend known genesis _ _ _ _ Hok Hin) as (_ & _ & ?). Qed.

Lemma forest_nonneg at_root stack p : stack_ok at_root stack -> 0 <= total p (forest stack).
Proof.
  intros Hs. apply total_nonneg. intros l c (n & Hn & Hin)%elem_of_forest. unfold stack_ok in Hs. rewrite Forall_forall in Hs.
  destruct (Hs n Hn) as ((P & Hok) & _). by eapply nodes_nonneg.
Qed.

Lemma stack_children at_root n stack :
  stack_ok at_root (n :: stack) -> Forall dense stack -> stack_ok false (rev (n_children n) ++ stack).
Proof.
  intros [((P & Hok) & _ & Hb) Hs]%Forall_cons Hd. apply Forall_app. split.
  - apply Forall_rev. destruct Hok as [P sp tip branch cs _ _ _ _ _ Ht Hbr Hcs Hden _]. cbn in *.
    rewrite Forall_forall in Hden |- *. intros c Hc. pose proof (branches_bound _ _ _ c Hcs Hc). rewrite Forall_forall in Hcs.
    split_and!; [eexists; by apply Hcs|exact (Hden c Hc)|lia].
  - rewrite Forall_forall in Hs, Hd |- *. intros d Hdin. destruct (Hs d Hdin) as (H1 & _ & H3). split_and!; [done|by apply Hd|done].
Qed.

Lemma forest_pop n stack p :
  total p (forest (n :: stack)) =
  (if p (n_ledger n) then n_tip n else 0) + total p (forest (rev (n_children n) ++ stack)).
Proof.
  destruct n as [sp tip branch cs]. rewrite forest_cons, forest_app, !total_app. cbn [n_children nodes total]. fold (forest cs).
  rewrite (total_perm p _ _ (forest_perm _ _ (Permutation_rev cs))). unfold n_ledger. cbn. ring.
Qed.

Lemma forest_pop_length n stack : length (forest (n :: stack)) = S (length (forest (rev (n_children n) ++ stack))).
Proof.
  destruct n as [sp tip branch cs]. rewrite forest_cons, forest_app, !length_app. cbn [n_children nodes length]. fold (forest cs).
  by rewrite (Permutation_length (forest_perm _ _ (Permutation_rev cs))).
Qed.

Lemma count_tip_ok n e :
  length (n_ledger n) = end_ (n_span n) -> 0 <= n_tip n -> no_zeros e ->
  0 <= default 0 (e !! seq_of (n_ledger n)) /\ default 0 (e !! seq_of (n_ledger n)) + n_tip n < 2 ^ 32 ->
  no_zeros (count_tip n e) /\
  forall s, default 0 (count_tip n e !! s) = default 0 (e !! s) + (if at_seq s (n_ledger n) then n_tip n else 0).
Proof.
  intros Hlen Ht Hz Hb. unfold count_tip. cbv zeta.
  assert (Hseq : seq_of (n_ledger n) = (end_ (n_span n) - 1)%nat) by (unfold seq_of; lia). rewrite <-Hseq.
  destruct (Z.eqb_spec (n_tip n) 0) as [->|Hne]; [split; [done|]; intros s; case_match; lia|].
  rewrite u32_small by lia. split; [apply no_zeros_insert; [done|lia]|]. intros s.
  destruct (decide (seq_of (n_ledger n) = s)) as [<-|Hs]; [by rewrite lookup_insert_eq, bool_decide_true|].
  rewrite lookup_insert_ne, bool_decide_false by done. lia.
Qed.

Lemma check_nodes_ok fuel : forall at_root stack e,
  stack_ok at_root stack -> Forall dense (tail stack) -> (length (forest stack) <= fuel)%nat -> no_zeros e ->
  (forall s, 0 <= default 0 (e !! s) /\ default 0 (e !! s) + total (at_seq s) (forest stack) < 2 ^ 32) ->
  exists e', check_nodes fuel at_root stack e = Some e' /\ no_zeros e' /\
    forall s, default 0 (e' !! s) = default 0 (e !! s) + total (at_seq s) (forest stack).
Proof.
  induction fuel as [|fuel IH]; intros at_root [|n stack] e Hs Hd Hf Hz Hb.
  1, 3: exists e; split_and!; [done|done|]; intros s; cbn; lia.
  1: rewrite forest_pop_length in Hf; lia.
  pose proof (stack_children _ _ _ Hs Hd) as Hs'. rewrite forest_pop_length in Hf.
  assert (Hnn : forall s, 0 <= total (at_seq s) (forest (rev (n_children n) ++ stack))) by (intros; by eapply forest_nonneg).
  apply Forall_cons in Hs as [((P & Hok) & Hdn & Hbr) _]. cbn [check_nodes].
  assert (Hguard : negb at_root && (n_tip n =? 0) && (length (n_children n) <? 2)%nat = false).
  { destruct at_root; [done|]. destruct (Z.eqb_spec (n_tip n) 0) as [E|]; [|done]. specialize (Hdn E). cbn [negb andb]. apply Nat.ltb_ge. lia. }
  destruct (node_ok_ledger known genesis _ _ Hok) as (_ & _ & _ & _ & Hlen & _).
  assert (Hsup : 0 <= n_tip n /\ children_support (n_tip n) (n_children n) = n_branch n).
  { destruct Hok as [P sp tip branch cs _ _ _ _ _ Ht Hb' Hcs _ _]. cbn in *. split; [done|]. rewrite Hb'. eapply children_support_ok; [done..|lia]. }
  destruct Hsup as [Ht ->]. rewrite Hguard, Z.eqb_refl.
  assert (He1 : no_zeros (count_tip n e) /\ forall s, default 0 (count_tip n e !! s) = default 0 (e !! s) + (if at_seq s (n_ledger n) then n_tip n else 0)).
  { apply count_tip_ok; [lia|done|done|]. specialize (Hb (seq_of (n_ledger n))). rewrite forest_pop, bool_decide_true in Hb by done.
    specialize (Hnn (seq_of (n_ledger n))). lia. }
  destruct He1 as [Hz1 He1]. destruct (IH false (rev (n_children n) ++ stack) (count_tip n e)) as (e' & Hc & Hz' & He'); [done| |lia|done| |].
  - assert (Hall : Forall dense (rev (n_children n) ++ stack)) by (eapply Forall_impl; [exact Hs'|]; by intros x (_ & ? & _)).
    by destruct (rev (n_children n) ++ stack); [|apply Forall_cons in Hall as [_ ?]].
  - intros s. specialize (Hb s). specialize (Hnn s). rewrite forest_pop in Hb. rewrite He1. cbv beta in Hb |- *. destruct (bool_decide (seq_of (n_ledger n) = s)); lia.
  - exists e'. split_and!; [done|done|]. intros s. rewrite He', He1, forest_pop. ring.
Qed.

(** [insert] and [remove] keep the sequence map free of zeros. *)
Lemma insert_no_zeros t m l count :
  represents known t m -> 0 < count -> support m (fun _ => true) + count < 2 ^ 32 ->
  no_zeros (seqSupport t) -> no_zeros (seqSupport (insert_ledger l count t)).
Proof.
  intros Hrep Hc Hb Hz. destruct (represents_bounds known genesis t m (at_seq (seq_of l)) Hrep) as [Hs _].
  destruct Hrep as (_ & _ & _ & _ & _ & Hseq). apply no_zeros_insert; [done|]. rewrite Hseq. unfold support in *.
  rewrite u32_small by lia. lia.
Qed.

Lemma remove_no_zeros t l count : no_zeros (seqSupport t) -> no_zeros (seqSupport (snd (remove_ledger l count t))).
Proof.
  intros Hz. unfold remove_ledger. destruct (findByLedgerID _ _) as [loc|]; [|done]. destruct (_ =? 0); [done|].
  cbn [snd seqSupport]. destruct (Z.eqb_spec (u32 (default 0 (seqSupport t !! seq_of l) - Z.min count (n_tip loc))) 0) as [_|Hne].
  - intros s c [_ H]%lookup_delete_Some. by eapply Hz.
  - by apply no_zeros_insert.
Qed.

Lemma run_no_zeros ops : forall t m,
  represents known t m -> no_zeros (seqSupport t) -> Forall (op_valid known) ops ->
  support m (fun _ => true) + inserted_total ops < 2 ^ 32 -> no_zeros (seqSupport (foldl trie_step t ops)).
Proof.
  induction ops as [|op ops IH]; intros t m Hrep Hz Hv Hb; [done|]. apply Forall_cons in Hv as [Hop Hv].
  pose proof (inserted_total_nonneg known _ Hv) as Hnn.
  destruct (run_represents known genesis [op] t m Hrep) as [Hrep' _]; [by repeat constructor|destruct op; cbn in *; lia|].
  eapply IH; [exact Hrep'| |done|]; destruct op as [l c|l c]; destruct Hop as [Hk Hc]; cbn [foldl trie_step spec_step inserted_total] in *.
  - eapply insert_no_zeros; [done..|lia|done].
  - by apply remove_no_zeros.
  - unfold spec_insert. rewrite support_set. cbv beta iota. lia.
  - assert (support (snd (spec_remove l c m)) (fun _ => true) <= support m (fun _ => true)); [|lia]. by eapply spec_remove_le.
Qed.
End Check.

(** A trie built from the empty one by any sequence of insertions and removals
    of known ledgers always passes the code's own [checkInvariants]: every node
    other than the root without support of its own has several children, branch
    support is the node's own plus its children's, and [seqSupport] is exactly what
    the nodes add up to, with no entry left at zero. *)
Theorem checkInvariants_holds (known : Ledger -> Prop) (genesis : Z) (ops : list TrieOp) :
  Histories known genesis -> Forall (op_valid known) ops -> inserted_total ops < 2 ^ 32 ->
  checkInvariants (foldl trie_step (empty_trie genesis) ops) = true.
Proof.
  intros Hh Hv Hb. set (t := foldl trie_step (empty_trie genesis) ops).
  assert (Hb0 : support ∅ (fun _ => true) + inserted_total ops < 2 ^ 32) by (unfold support; rewrite map_to_list_empty; cbn; lia).
  destruct (run_represents known genesis ops (empty_trie genesis) ∅) as [Hrep Hbm]; [by apply empty_represents|done..|]. fold t in Hrep.
  assert (Hz : no_zeros (seqSupport t)) by (eapply (run_no_zeros known genesis); [by apply empty_represents|done..]).
  pose proof (represents_bounds known genesis t _ (fun _ => true) Hrep) as [_ Hbr].
  pose proof Hrep as (Hok & _ & _ & Ht & _ & Hseq). unfold checkInvariants.
  destruct (check_nodes_ok known genesis (length (nodes (root t))) true [root t] ∅) as (e & -> & Hze & He).
  - constructor; [|constructor]. split_and!; [by eexists|done|lia].
  - constructor.
  - unfold forest. cbn. rewrite app_nil_r. lia.
  - done.
  - intros s. rewrite lookup_empty. cbn [default from_option id]. unfold forest. cbn. rewrite app_nil_r, Ht.
    destruct (represents_bounds known genesis t _ (fun l => bool_decide (seq_of l = s)) Hrep) as [[_ Hs] _].
    unfold support in Hs, Hbm. unfold id. lia.
  - apply bool_decide_true. apply no_zeros_ext; [done..|]. intros s. rewrite He, Hseq, lookup_empty. unfold forest.
    cbn [default from_option id fmap list_fmap concat]. rewrite app_nil_r, Ht. unfold id. lia.
Qed.

Lemma checkInvariants_holds_witness : checkInvariants (foldl trie_step (empty_trie 1) wops) = true.
Proof.
  apply (checkInvariants_holds wknown 1 wops); [exact wknown_histories| |by vm_compute].
  repeat constructor; unfold wknown; set_solver || lia.
Defined.
