(* ===== verification/Validations.v ===== *)
(** * Validation tracking

    Models consensus/Validations.h: the latest validation of every node, the
    validations by ledger in an ageing map, the enforcement of increasing sequence
    numbers, the ledgers still being acquired, and the ledger trie in which every
    node supports the last ledger it validated that could be acquired. The clock, the
    network time and the outcome of acquiring a ledger are given with each call. The
    hash maps of the source are iterated in the order of [map_to_list]. *)

From S2P Require Import Prelude LedgerTrie TriePreferred.

(** ** Parameters and validations *)

Record ValidationParms := mkParms {
  validationCURRENT_WALL : Z; validationCURRENT_LOCAL : Z; validationCURRENT_EARLY : Z;
  validationSET_EXPIRES : Z; validationFRESHNESS : Z }.

Definition default_parms : ValidationParms := mkParms 300 180 180 600 20.

Record Validation := mkVal {
  v_ledgerID : Z; v_seq : nat; v_signTime : Z; v_seenTime : Z; v_key : Z;
  v_trusted : bool; v_full : bool; v_loadFee : option Z }.

Definition set_trusted (b : bool) (v : Validation) : Validation :=
  mkVal (v_ledgerID v) (v_seq v) (v_signTime v) (v_seenTime v) (v_key v) b (v_full v) (v_loadFee v).

Definition v_pair (v : Validation) : nat * Z := (v_seq v, v_ledgerID v).

(** ** SeqEnforcer *)

Record SeqEnforcer := mkEnf { en_seq : nat; en_when : Z }.
Definition new_enforcer : SeqEnforcer := mkEnf 0 0.

Definition enforce (p : ValidationParms) (now : Z) (s : nat) (e : SeqEnforcer) : bool * SeqEnforcer :=
  let e := if en_when e + validationSET_EXPIRES p <? now then mkEnf 0 (en_when e) else e in
  if (s <=? en_seq e)%nat then (false, e) else (true, mkEnf s now).

(** Network times are unsigned 32-bit seconds; with the [seconds] of the parameters the
    sums and differences are taken in 64 bits. *)
Definition isCurrent (p : ValidationParms) (now signTime seenTime : Z) : bool :=
  (now - validationCURRENT_EARLY p <? signTime) &&
  (signTime <? now + validationCURRENT_WALL p) &&
  ((seenTime =? 0) || (seenTime <? now + validationCURRENT_LOCAL p)).

Inductive ValStatus := VS_current | VS_stale | VS_badSeq.
#[export] Instance ValStatus_eq_dec : EqDecision ValStatus. Proof. solve_decision. Defined.

(** ** State *)

Record Validations := mkV {
  current_ : gmap Z Validation;
  localSeqEnforcer_ : SeqEnforcer;
  seqEnforcers_ : gmap Z SeqEnforcer;
  byLedger_ : gmap Z (gmap Z Validation * Z);
  trie_ : LedgerTrie;
  lastLedger_ : gmap Z Ledger;
  acquiring_ : gmap (nat * Z) (gset Z);
  stale_ : list Validation }.

(** What a call sees of the world: [adaptor_.now ()], the clock of [byLedger_], and
    [adaptor_.acquire]. *)
Record Env := mkEnv { env_now : Z; env_clock : Z; env_acquire : Z -> option Ledger }.

Definition new_validations (genesis : Z) : Validations := mkV ∅ new_enforcer ∅ ∅ (empty_trie genesis) ∅ ∅ [].

Definition with_current c st := mkV c (localSeqEnforcer_ st) (seqEnforcers_ st) (byLedger_ st) (trie_ st) (lastLedger_ st) (acquiring_ st) (stale_ st).
Definition with_byLedger b st := mkV (current_ st) (localSeqEnforcer_ st) (seqEnforcers_ st) b (trie_ st) (lastLedger_ st) (acquiring_ st) (stale_ st).
Definition with_trie t l st := mkV (current_ st) (localSeqEnforcer_ st) (seqEnforcers_ st) (byLedger_ st) t l (acquiring_ st) (stale_ st).
Definition with_acquiring a st := mkV (current_ st) (localSeqEnforcer_ st) (seqEnforcers_ st) (byLedger_ st) (trie_ st) (lastLedger_ st) a (stale_ st).
Definition with_local e st := mkV (current_ st) e (seqEnforcers_ st) (byLedger_ st) (trie_ st) (lastLedger_ st) (acquiring_ st) (stale_ st).
Definition with_enforcers es st := mkV (current_ st) (localSeqEnforcer_ st) es (byLedger_ st) (trie_ st) (lastLedger_ st) (acquiring_ st) (stale_ st).
Definition onStale (v : Validation) st :=
  mkV (current_ st) (localSeqEnforcer_ st) (seqEnforcers_ st) (byLedger_ st) (trie_ st) (lastLedger_ st) (acquiring_ st) (stale_ st ++ [v]).

(** ** The trie *)

(** [it->second.erase (nodeID); if (it->second.empty ()) acquiring_.erase (it);] *)
Definition stop_acquiring (key : nat * Z) (nodeID : Z) (a : gmap (nat * Z) (gset Z)) : gmap (nat * Z) (gset Z) :=
  match a !! key with
  | None => a
  | Some nodes => let nodes := nodes ∖ {[nodeID]} in if (size nodes =? 0)%nat then delete key a else <[key := nodes]> a
  end.

Definition removeTrie (nodeID : Z) (val : Validation) (st : Validations) : Validations :=
  let st := with_acquiring (stop_acquiring (v_pair val) nodeID (acquiring_ st)) st in
  match lastLedger_ st !! nodeID with
  | Some l =>
      if id_of l =? v_ledgerID val
      then with_trie (snd (remove_ledger l 1 (trie_ st))) (delete nodeID (lastLedger_ st)) st
      else st
  | None => st
  end.

(** [updateTrie (lock, nodeID, ledger)]. *)
Definition updateLedger (nodeID : Z) (ledger : Ledger) (st : Validations) : Validations :=
  let t := match lastLedger_ st !! nodeID with Some l => snd (remove_ledger l 1 (trie_ st)) | None => trie_ st end in
  with_trie (insert_ledger ledger 1 t) (<[nodeID := ledger]> (lastLedger_ st)) st.

Definition check_pair (env : Env) (st : Validations) (e : (nat * Z) * gset Z) : Validations :=
  let '(key, nodes) := e in
  match env_acquire env key.2 with
  | Some ledger =>
      let st := foldl (fun st n => updateLedger n ledger st) st (elements nodes) in
      with_acquiring (delete key (acquiring_ st)) st
  | None => st
  end.

Definition checkAcquired (env : Env) (st : Validations) : Validations :=
  foldl (check_pair env) st (map_to_list (acquiring_ st)).

Definition updateTrie (env : Env) (nodeID : Z) (val : Validation) (prior : option (nat * Z)) (st : Validations) : Validations :=
  let st := match prior with Some p => with_acquiring (stop_acquiring p nodeID (acquiring_ st)) st | None => st end in
  let st := checkAcquired env st in
  match acquiring_ st !! v_pair val with
  | Some nodes => with_acquiring (<[v_pair val := {[nodeID]} ∪ nodes]> (acquiring_ st)) st
  | None =>
      match env_acquire env (v_ledgerID val) with
      | Some ledger => updateLedger nodeID ledger st
      | None => with_acquiring (<[v_pair val := {[nodeID]}]> (acquiring_ st)) st
      end
  end.

(** ** Iteration *)

Section Iterate.
Context (p : ValidationParms) (env : Env).

(** [current]: drops the validations that are no longer current, and calls [f] on
    the others with an accumulator. *)
Definition current_step {A} (f : Z -> Validation -> A -> A) (s : Validations * A) (e : Z * Validation) : Validations * A :=
  let '(st, a) := s in
  let '(n, v) := e in
  if isCurrent p (env_now env) (v_signTime v) (v_seenTime v) then (st, f n v a)
  else let st := onStale v (removeTrie n v st) in (with_current (delete n (current_ st)) st, a).

Definition current {A} (f : Z -> Validation -> A -> A) (a : A) (st : Validations) : Validations * A :=
  foldl (current_step f) (st, a) (map_to_list (current_ st)).

Definition flush_stale (st : Validations) : Validations := fst (current (fun _ _ (a : unit) => a) tt st).

(** The state in which [withTrie] calls its argument. *)
Definition withTrie (st : Validations) : Validations := checkAcquired env (flush_stale st).

(** [byLedger]: touches the set and calls [f]. *)
Definition byLedger {A} (ledgerID : Z) (f : Z -> Validation -> A -> A) (a : A) (st : Validations) : Validations * A :=
  match byLedger_ st !! ledgerID with
  | None => (st, a)
  | Some (set, _) =>
      (with_byLedger (<[ledgerID := (set, env_clock env)]> (byLedger_ st)) st, foldl (fun a e => f e.1 e.2 a) a (map_to_list set))
  end.

(** ** Operations *)

Definition canValidateSeq (s : nat) (st : Validations) : bool * Validations :=
  let '(b, e) := enforce p (env_clock env) s (localSeqEnforcer_ st) in (b, with_local e st).

(** [byLedger_[id].emplace (nodeID, val)], overwriting; a new set gets the time of the
    clock, one that exists keeps its own. *)
Definition record_val (nodeID : Z) (val : Validation) (b : gmap Z (gmap Z Validation * Z)) : gmap Z (gmap Z Validation * Z) :=
  let '(set, when) := default (∅, env_clock env) (b !! v_ledgerID val) in
  <[v_ledgerID val := (<[nodeID := val]> set, when)]> b.

Definition add (nodeID : Z) (val : Validation) (st : Validations) : ValStatus * Validations :=
  if negb (isCurrent p (env_now env) (v_signTime val) (v_seenTime val)) then (VS_stale, st) else
  let '(ok, e) := enforce p (env_clock env) (v_seq val) (default new_enforcer (seqEnforcers_ st !! nodeID)) in
  let st := with_enforcers (<[nodeID := e]> (seqEnforcers_ st)) st in
  if negb ok then (VS_badSeq, st) else
  let st := with_byLedger (record_val nodeID val (byLedger_ st)) st in
  match current_ st !! nodeID with
  | Some oldVal =>
      if v_signTime oldVal <? v_signTime val then
        let st := onStale oldVal st in
        let st := with_current (<[nodeID := val]> (current_ st)) st in
        (VS_current, if v_trusted val then updateTrie env nodeID val (Some (v_pair oldVal)) st else st)
      else (VS_stale, st)
  | None =>
      let st := with_current (<[nodeID := val]> (current_ st)) st in
      (VS_current, if v_trusted val then updateTrie env nodeID val None st else st)
  end.

Definition expire (st : Validations) : Validations :=
  with_byLedger (filter (fun e : Z * (gmap Z Validation * Z) => env_clock env - validationSET_EXPIRES p < e.2.2) (byLedger_ st)) st.

Definition change_trust (added removed : gset Z) (n : Z) (v : Validation) : Validation :=
  if bool_decide (n ∈ added) then set_trusted true v else if bool_decide (n ∈ removed) then set_trusted false v else v.

Definition trust_step (added removed : gset Z) (st : Validations) (e : Z * Validation) : Validations :=
  let '(n, v) := e in
  let v' := change_trust added removed n v in
  let st := with_current (<[n := v']> (current_ st)) st in
  if bool_decide (n ∈ added) then updateTrie env n v' None st
  else if bool_decide (n ∈ removed) then removeTrie n v' st
  else st.

Definition trustChanged (added removed : gset Z) (st : Validations) : Validations :=
  let st := foldl (trust_step added removed) st (map_to_list (current_ st)) in
  with_byLedger ((fun set : gmap Z Validation * Z => (map_imap (fun n v => Some (change_trust added removed n v)) set.1, set.2)) <$> byLedger_ st) st.

(** [std::max_element]: the first of the largest ones. *)
Definition max_element {A} (lt : A -> A -> bool) (l : list A) : option A :=
  foldl (fun best x => match best with None => Some x | Some b => if lt b x then Some x else best end) None l.

Definition pair_lt (a b : Z * Z) : bool := (a.1 <? b.1) || ((a.1 =? b.1) && (a.2 <? b.2)).

Definition acquiring_lt (a b : (nat * Z) * gset Z) : bool :=
  pair_lt (Z.of_nat (size a.2), a.1.2) (Z.of_nat (size b.2), b.1.2).

Definition preferred_ledger (curr : Ledger) (st : Validations) : option (nat * Z) :=
  match TriePreferred.getPreferred (trie_ st) (en_seq (localSeqEnforcer_ st)) with
  | None => fst <$> max_element acquiring_lt (map_to_list (acquiring_ st))
  | Some tip =>
      if (st_seq tip =? seq_of curr + 1)%nat && (ancestor (st_ledger tip) (seq_of curr) =? id_of curr) then Some (seq_of curr, id_of curr)
      else if (seq_of curr <? st_seq tip)%nat then Some (st_seq tip, st_id tip)
      else if negb (ancestor curr (st_seq tip) =? st_id tip) then Some (st_seq tip, st_id tip)
      else Some (seq_of curr, id_of curr)
  end.

Definition getPreferred (curr : Ledger) (st : Validations) : option (nat * Z) * Validations :=
  let st := withTrie st in (preferred_ledger curr st, st).

Definition getPreferredMin (curr : Ledger) (minValidSeq : nat) (st : Validations) : Z * Validations :=
  let '(preferred, st) := getPreferred curr st in
  (match preferred with Some (s, id) => if (minValidSeq <=? s)%nat then id else id_of curr | None => id_of curr end, st).

Definition getPreferredLCL (lcl : Ledger) (minSeq : nat) (peerCounts : gmap Z Z) (st : Validations) : Z * Validations :=
  let '(preferred, st) := getPreferred lcl st in
  (match preferred with
   | Some (s, id) => if (minSeq <=? s)%nat then id else id_of lcl
   | None => default (id_of lcl) (fst <$> max_element (fun a b : Z * Z => pair_lt (a.2, a.1) (b.2, b.1)) (map_to_list peerCounts))
   end, st).

Definition getNodesAfter (ledger : Ledger) (ledgerID : Z) (st : Validations) : Z * Validations :=
  if id_of ledger =? ledgerID then
    let st := withTrie st in
    (u32 (branchSupport (trie_ st) ledger - tipSupport (trie_ st) ledger), st)
  else
    (Z.of_nat (length (List.filter (fun e : Z * Ledger => (0 <? seq_of e.2)%nat && (ancestor e.2 (seq_of e.2 - 1) =? ledgerID)) (map_to_list (lastLedger_ st)))), st).

Definition currentTrusted (st : Validations) : Validations * list Validation :=
  current (fun _ v acc => if v_trusted v && v_full v then acc ++ [v] else acc) [] st.

Definition getCurrentNodeIDs (st : Validations) : Validations * gset Z := current (fun n _ acc => {[n]} ∪ acc) ∅ st.

Definition numTrustedForLedger (ledgerID : Z) (st : Validations) : Validations * nat :=
  byLedger ledgerID (fun _ v c => if v_trusted v && v_full v then S c else c) 0%nat st.

Definition getTrustedForLedger (ledgerID : Z) (st : Validations) : Validations * list Validation :=
  byLedger ledgerID (fun _ v acc => if v_trusted v && v_full v then acc ++ [v] else acc) [] st.

Definition fees (ledgerID : Z) (baseFee : Z) (st : Validations) : Validations * list Z :=
  byLedger ledgerID (fun _ v acc => if v_trusted v && v_full v then acc ++ [default baseFee (v_loadFee v)] else acc) [] st.

(** The validations handed to [adaptor_.flush]. *)
Definition flush (st : Validations) : Validations * gmap Z Validation := (with_current ∅ st, current_ st).

(** The number of laggards and the keys left in [trustedKeys]. *)
Definition laggards (seq : nat) (trustedKeys : gset Z) (st : Validations) : Validations * (nat * gset Z) :=
  current (fun _ v '(n, keys) =>
    if (env_now env <? v_seenTime v + validationFRESHNESS p) && bool_decide (v_key v ∈ keys)
    then ((if (v_seq v <? seq)%nat then S n else n), keys ∖ {[v_key v]}) else (n, keys)) (0%nat, trustedKeys) st.
End Iterate.
