(* ===== verification/ValidationsVotes.v ===== *)
(** * One validator, one vote

    The invariant of the validation tracker of Validations.v: the trie counts, for
    each node, the ledger recorded for it and nothing else; a trusted validation that
    is current is counted or waits for its ledger. It holds after every sequence of
    calls in which the validations of a node are trusted when the node is. *)

From stdpp Require Import sorting.
From S2P Require Import Prelude LedgerTrie TriePreferred Validations.

(** ** Counting votes *)

Definition tally (votes : gmap Z Ledger) : gmap Ledger Z := map_fold (fun _ l m => spec_insert l 1 m) ∅ votes.

Lemma spec_insert_comm a b m : spec_insert a 1 (spec_insert b 1 m) = spec_insert b 1 (spec_insert a 1 m).
Proof.
  unfold spec_insert. destruct (decide (a = b)) as [-> |Hab]; [done|].
  rewrite lookup_insert_ne, (lookup_insert_ne m a b) by done. by apply insert_insert_ne.
Qed.

Lemma tally_insert votes n l : votes !! n = None -> tally (<[n := l]> votes) = spec_insert l 1 (tally votes).
Proof. intros Hn. unfold tally. rewrite map_fold_insert_L; [done| |done]. intros. apply spec_insert_comm. Qed.

Lemma tally_pos votes l c : tally votes !! l = Some c -> 0 < c.
Proof.
  revert l c. induction votes as [|n x votes Hn IH] using map_ind; intros l c; [done|].
  rewrite tally_insert by done. unfold spec_insert. intros [[<- <-]|[_ H]]%lookup_insert_Some; [|by eapply IH].
  destruct (tally votes !! x) as [k|] eqn:E; cbn; [specialize (IH _ _ E)|]; lia.
Qed.

Lemma tally_delete votes n l : votes !! n = Some l -> tally (delete n votes) = snd (spec_remove l 1 (tally votes)).
Proof.
  intros Hn. rewrite <- (insert_delete_id votes n l Hn) at 2. rewrite tally_insert by apply lookup_delete_eq.
  unfold spec_remove, spec_insert. rewrite lookup_insert_eq. destruct (tally (delete n votes) !! l) as [k|] eqn:E; cbn.
  - apply tally_pos in E as Hk. rewrite (proj2 (Z.leb_gt _ _)) by lia. cbn. rewrite insert_insert_eq.
    symmetry. apply insert_id. rewrite E. f_equal. lia.
  - symmetry. by apply delete_insert_id.
Qed.

(** The number of nodes whose recorded ledger satisfies [p]. *)
Definition voters (p : Ledger -> bool) (votes : gmap Z Ledger) : nat := size (filter (fun e : Z * Ledger => p e.2 = true) votes).

Lemma voters_insert p votes n l : votes !! n = None -> voters p (<[n := l]> votes) = ((if p l then 1 else 0) + voters p votes)%nat.
Proof.
  intros Hn. unfold voters. destruct (p l) eqn:E.
  - rewrite map_filter_insert_True, map_size_insert_None; [done| |done]. apply map_lookup_filter_None_2. by left.
  - rewrite map_filter_insert_False by (cbn; congruence). by rewrite delete_id.
Qed.

Lemma support_tally votes p : support (tally votes) p = Z.of_nat (voters p votes).
Proof.
  induction votes as [|n l votes Hn IH] using map_ind; [unfold support, tally; by rewrite map_fold_empty, map_to_list_empty|].
  rewrite tally_insert, voters_insert by done. unfold spec_insert. rewrite support_set, IH. destruct (p l); lia.
Qed.

Lemma voters_all votes : voters (fun _ => true) votes = size votes.
Proof. unfold voters. by rewrite map_filter_id. Qed.

Lemma tally_empty votes : tally votes = ∅ -> votes = ∅.
Proof.
  intros H. apply map_size_empty_inv. rewrite <- voters_all. apply Nat2Z.inj. rewrite <- support_tally, H.
  unfold support. by rewrite map_to_list_empty.
Qed.

(** ** The invariant *)

Section Votes.
Context (known : Ledger -> Prop) (genesis : Z) {hist : Histories known genesis}.
Context (U : gset Z) (Usmall : Z.of_nat (size U) < 2 ^ 32).

(** What is acquired is the ledger asked for. *)
Definition env_ok (env : Env) : Prop := forall i l, env_acquire env i = Some l -> known l /\ id_of l = i.

Definition pending (st : Validations) (n : Z) (v : Validation) : Prop :=
  exists nodes, acquiring_ st !! v_pair v = Some nodes /\ n ∈ nodes.

Definition counted (st : Validations) (n : Z) (v : Validation) : Prop :=
  exists l, lastLedger_ st !! n = Some l /\ id_of l = v_ledgerID v.

Definition idle (st : Validations) (n : Z) : Prop := forall key nodes, acquiring_ st !! key = Some nodes -> n ∉ nodes.

(** [T] are the trusted nodes; the validations of the nodes of [X] need not be counted
    yet. *)
Record vinv (T X : gset Z) (st : Validations) : Prop := {
  vi_current : dom (current_ st) ⊆ U;
  vi_last : dom (lastLedger_ st) ⊆ U;
  vi_trie : represents known (trie_ st) (tally (lastLedger_ st));
  vi_trust : forall n v, current_ st !! n = Some v -> v_trusted v = bool_decide (n ∈ T);
  vi_pending : forall key nodes, acquiring_ st !! key = Some nodes -> nodes <> ∅ /\
    forall n, n ∈ nodes -> n ∈ T /\ exists v, current_ st !! n = Some v /\ v_pair v = key;
  vi_counted : forall n v, n ∉ X -> n ∈ T -> current_ st !! n = Some v -> pending st n v \/ counted st n v
}.

Lemma votes_small votes : dom votes ⊆ U -> support (tally votes) (fun _ => true) < 2 ^ 32.
Proof.
  intros H. rewrite support_tally, voters_all, <- size_dom. apply subseteq_size in H. lia.
Qed.

Lemma remove_vote t votes n l : represents known t (tally votes) -> dom votes ⊆ U -> votes !! n = Some l ->
  represents known (snd (remove_ledger l 1 t)) (tally (delete n votes)).
Proof.
  intros Hrep Hd Hn. rewrite (tally_delete _ _ l) by done.
  assert (Hk : known l).
  { destruct Hrep as (_ & _ & _ & _ & Hm & _). rewrite <- (insert_delete_id votes n l Hn) in Hm.
    rewrite tally_insert in Hm by apply lookup_delete_eq. eapply Hm. apply lookup_insert_eq. }
  apply (remove_represents known genesis); [done|done|lia|by apply votes_small].
Qed.

Lemma insert_vote t votes n l : represents known t (tally votes) -> dom votes ⊆ U -> n ∈ U -> votes !! n = None -> known l ->
  represents known (insert_ledger l 1 t) (tally (<[n := l]> votes)).
Proof.
  intros Hrep Hd Hu Hn Hk. rewrite tally_insert by done. apply (insert_represents known genesis); [done|done|lia|].
  rewrite support_tally, voters_all, <- size_dom.
  assert (Hs : (size ({[n]} ∪ dom votes) <= size U)%nat) by (apply subseteq_size; set_solver).
  rewrite size_union, size_singleton in Hs by (apply not_elem_of_dom in Hn; set_solver). lia.
Qed.

Lemma stop_acquiring_spec key n a :
  (forall k nodes, stop_acquiring key n a !! k = Some nodes -> exists old, a !! k = Some old /\ nodes ⊆ old /\ (k = key -> n ∉ nodes) /\ (old <> ∅ -> nodes <> ∅)) /\
  (forall k nodes m, a !! k = Some nodes -> m ∈ nodes -> m <> n -> exists nodes', stop_acquiring key n a !! k = Some nodes' /\ m ∈ nodes').
Proof.
  unfold stop_acquiring. destruct (a !! key) as [s|] eqn:E; [|split; [|naive_solver]].
  - destruct (Nat.eqb_spec (size (s ∖ {[n]})) 0) as [Hz|Hz]; split.
    + intros k nodes [Hne Hk]%lookup_delete_Some. exists nodes. naive_solver.
    + intros k nodes m Hk Hm Hn. exists nodes. split; [|done]. rewrite lookup_delete_ne; [done|]. intros <-.
      rewrite E in Hk. injection Hk as ->. apply size_empty_inv in Hz. set_solver.
    + intros k nodes [[<- <-]|[Hne Hk]]%lookup_insert_Some; [|exists nodes; naive_solver].
      exists s. split_and!; [done|set_solver|set_solver|]. intros _ H0. by rewrite H0, size_empty in Hz.
    + intros k nodes m Hk Hm Hn. destruct (decide (key = k)) as [<-|Hne].
      * rewrite E in Hk. injection Hk as ->. exists (nodes ∖ {[n]}). rewrite lookup_insert_eq. set_solver.
      * exists nodes. by rewrite lookup_insert_ne.
  - intros k nodes Hk. exists nodes. split_and!; [done|done| |done]. by intros ->; rewrite E in Hk.
Qed.

Lemma vinv_stop T X st key n : vinv T X st -> vinv T ({[n]} ∪ X) (with_acquiring (stop_acquiring key n (acquiring_ st)) st).
Proof.
  intros [H1 H2 H3 H4 H5 H6]. destruct (stop_acquiring_spec key n (acquiring_ st)) as [S1 S2].
  split; cbn [with_acquiring current_ lastLedger_ trie_ acquiring_]; try done.
  - intros k nodes (old & Hold & Hsub & _ & Hne)%S1. destruct (H5 _ _ Hold) as [Hx Hn]. split; [by apply Hne|]. intros m Hm. apply Hn. set_solver.
  - intros m v HX HT Hm. destruct (H6 m v ltac:(set_solver) HT Hm) as [(nodes & Hk & Hin)|Hc]; [left|by right].
    eapply S2; [done..|set_solver].
Qed.

Lemma stop_idle T X st n v : vinv T X st -> current_ st !! n = Some v -> idle (with_acquiring (stop_acquiring (v_pair v) n (acquiring_ st)) st) n.
Proof.
  intros Hi Hv key nodes Hk Hin. cbn in Hk. destruct (stop_acquiring_spec (v_pair v) n (acquiring_ st)) as [S1 _].
  destruct (S1 _ _ Hk) as (old & Hold & Hsub & Hout & _). destruct (vi_pending T X st Hi _ _ Hold) as [_ Hn].
  destruct (Hn n ltac:(set_solver)) as (_ & v' & Hv' & <-). apply Hout; [|done]. congruence.
Qed.

Lemma idle_absent T X st n : vinv T X st -> current_ st !! n = None \/ n ∉ T -> idle st n.
Proof.
  intros Hi Ho key nodes Hk Hin. destruct (vi_pending T X st Hi _ _ Hk) as [_ Hn]. destruct (Hn n Hin) as (? & v & ? & _). destruct Ho; congruence.
Qed.

(** Changing the validation of a node whose ledger is not being acquired. *)
Lemma vinv_set_current T T' X st n v : vinv T X st -> idle st n -> n ∈ U -> v_trusted v = bool_decide (n ∈ T') ->
  (forall m, m <> n -> m ∈ T <-> m ∈ T') -> vinv T' ({[n]} ∪ X) (with_current (<[n := v]> (current_ st)) st).
Proof.
  intros [H1 H2 H3 H4 H5 H6] Hidle Hu Hv HT. split; cbn [with_current current_ lastLedger_ trie_ acquiring_]; try done.
  - rewrite dom_insert. set_solver.
  - intros m w [[<- <-]|[Hne Hm]]%lookup_insert_Some; [done|]. rewrite (H4 _ _ Hm). apply bool_decide_ext. by apply HT.
  - intros key nodes Hk. destruct (H5 _ _ Hk) as [Hx Hn]. split; [done|]. intros m Hm. destruct (Hn m Hm) as (Ht & w & Hw & E).
    assert (m <> n) by (intros ->; by apply (Hidle _ _ Hk)). split; [by apply HT|]. exists w. by rewrite lookup_insert_ne.
  - intros m w HX Ht [[<- <-]|[Hne Hm]]%lookup_insert_Some; [set_solver|]. apply (H6 m w); [set_solver| |done]. by apply HT.
Qed.

Lemma vinv_del_current T X st n : vinv T ({[n]} ∪ X) st -> idle st n -> vinv T X (with_current (delete n (current_ st)) st).
Proof.
  intros [H1 H2 H3 H4 H5 H6] Hidle. split; cbn [with_current current_ lastLedger_ trie_ acquiring_]; try done.
  - rewrite dom_delete. set_solver.
  - intros m w [_ Hm]%lookup_delete_Some. by apply H4.
  - intros key nodes Hk. destruct (H5 _ _ Hk) as [Hx Hn]. split; [done|]. intros m Hm. destruct (Hn m Hm) as (Ht & w & Hw & E).
    assert (m <> n) by (intros ->; by apply (Hidle _ _ Hk)). split; [done|]. exists w. by rewrite lookup_delete_ne.
  - intros m w HX Ht [Hne Hm]%lookup_delete_Some. apply (H6 m w); [set_solver|done..].
Qed.

Lemma vinv_done T X st n : vinv T ({[n]} ∪ X) st ->
  (n ∈ T -> forall v, current_ st !! n = Some v -> pending st n v \/ counted st n v) -> vinv T X st.
Proof.
  intros [H1 H2 H3 H4 H5 H6] Hn. split; try done. intros m v HX HT Hm. destruct (decide (m = n)) as [->|]; [by apply Hn|].
  apply H6; [set_solver|done..].
Qed.

(** Recording a ledger for a node: its own validation, if current, must be the one. *)
Lemma vinv_updateLedger T X st n l : vinv T X st -> n ∈ U -> known l ->
  (n ∈ X \/ forall v, n ∈ T -> current_ st !! n = Some v -> id_of l = v_ledgerID v) -> vinv T X (updateLedger n l st).
Proof.
  intros [H1 H2 H3 H4 H5 H6] Hu Hk Hn. unfold updateLedger. split; cbn [with_trie current_ lastLedger_ trie_ acquiring_]; try done.
  - rewrite dom_insert. set_solver.
  - destruct (lastLedger_ st !! n) as [old|] eqn:E.
    + rewrite <- insert_delete_eq. apply insert_vote; [by apply remove_vote|rewrite dom_delete; set_solver|done|apply lookup_delete_eq|done].
    + by apply insert_vote.
  - intros m v HX HT Hm. destruct (H6 m v HX HT Hm) as [Hp|(l' & Hl' & E)]; [by left|right].
    unfold counted. cbn [with_trie lastLedger_]. destruct (decide (m = n)) as [->|Hne].
    + exists l. rewrite lookup_insert_eq. split; [done|]. destruct Hn as [|Hn]; [done|by apply Hn].
    + exists l'. by rewrite lookup_insert_ne.
Qed.

Lemma updateLedger_frame n l st :
  current_ (updateLedger n l st) = current_ st /\ acquiring_ (updateLedger n l st) = acquiring_ st /\
  lastLedger_ (updateLedger n l st) = <[n := l]> (lastLedger_ st) /\ stale_ (updateLedger n l st) = stale_ st.
Proof. done. Qed.

Lemma vinv_removeTrie T X st n v : vinv T X st -> current_ st !! n = Some v ->
  vinv T ({[n]} ∪ X) (removeTrie n v st) /\ idle (removeTrie n v st) n /\ current_ (removeTrie n v st) = current_ st.
Proof.
  intros Hi Hv. pose proof (vinv_stop T X st (v_pair v) n Hi) as Hs. pose proof (stop_idle T X st n v Hi Hv) as Hidle.
  unfold removeTrie. cbn [with_acquiring lastLedger_ trie_]. destruct (lastLedger_ st !! n) as [l|] eqn:E; [|done].
  destruct (id_of l =? v_ledgerID v) eqn:Eid; [|done]. split_and!; [|done|done]. destruct Hs as [H1 H2 H3 H4 H5 H6].
  split; cbn [with_trie with_acquiring current_ lastLedger_ trie_ acquiring_]; try done.
  - rewrite dom_delete. set_solver.
  - by apply remove_vote.
  - intros m w HX HT Hm. destruct (H6 m w HX HT Hm) as [Hp|(l' & Hl' & Ew)]; [by left|right]. exists l'. cbn.
    rewrite lookup_delete_ne by set_solver. done.
Qed.

Lemma vinv_updateLedgers T X l ns : forall st, vinv T X st -> known l -> (forall n, n ∈ ns -> n ∈ U) ->
  (forall n v, n ∈ ns -> current_ st !! n = Some v -> id_of l = v_ledgerID v) ->
  let st' := foldl (fun st n => updateLedger n l st) st ns in
  vinv T X st' /\ current_ st' = current_ st /\ acquiring_ st' = acquiring_ st /\
  (forall n, lastLedger_ st' !! n = if bool_decide (n ∈ ns) then Some l else lastLedger_ st !! n).
Proof.
  induction ns as [|n ns IH]; intros st Hi Hk Hu Hid; [done|]. cbn [foldl].
  destruct (IH (updateLedger n l st)) as (I1 & I2 & I3 & I4); [|done|set_solver|set_solver|].
  - apply vinv_updateLedger; [done|set_solver|done|]. right. intros v _ Hv. eapply Hid; [left|done].
  - split_and!; [done..|]. intros m. rewrite I4. cbn [updateLedger with_trie lastLedger_].
    destruct (decide (m ∈ ns)) as [Hm|Hm]; [by rewrite !bool_decide_true by set_solver|rewrite (bool_decide_false _ Hm)].
    destruct (decide (m = n)) as [->|]; [rewrite lookup_insert_eq, bool_decide_true by set_solver; done|].
    by rewrite lookup_insert_ne, bool_decide_false by set_solver.
Qed.

Section Acquire.
Context (env : Env) (Henv : env_ok env).

Lemma vinv_check_pair T X st key nodes : vinv T X st -> acquiring_ st !! key = Some nodes ->
  let st' := check_pair env st (key, nodes) in
  vinv T X st' /\ current_ st' = current_ st /\
  acquiring_ st' = (if env_acquire env key.2 then delete key (acquiring_ st) else acquiring_ st) /\
  (forall n, lastLedger_ st' !! n = if bool_decide (n ∈ nodes) then match env_acquire env key.2 with Some l => Some l | None => lastLedger_ st !! n end else lastLedger_ st !! n).
Proof.
  intros Hi Hk. cbn. destruct (env_acquire env key.2) as [l|] eqn:E; [|split_and!; [done..|]; intros n; by destruct (bool_decide _)].
  destruct (Henv _ _ E) as [Hl Hid]. destruct (vi_pending T X st Hi _ _ Hk) as [_ Hn].
  destruct (vinv_updateLedgers T X l (elements nodes) st Hi Hl) as (I1 & I2 & I3 & I4).
  { intros n Hin%elem_of_elements. destruct (Hn n Hin) as (_ & v & Hv & _). apply (vi_current T X st Hi). by eapply elem_of_dom_2. }
  { intros n v Hin%elem_of_elements Hv. destruct (Hn n Hin) as (_ & v' & Hv' & <-). rewrite Hid. cbn. congruence. }
  set (st1 := foldl _ st _) in *. cbn [with_acquiring current_ acquiring_ lastLedger_]. split_and!; [|done|by rewrite I3|].
  2: { intros n. rewrite I4. by rewrite (bool_decide_ext _ _ (elem_of_elements nodes n)). }
  destruct I1 as [H1 H2 H3 H4 H5 H6]. split; cbn [with_acquiring current_ lastLedger_ trie_ acquiring_]; try done.
  - intros k ns [_ Hk']%lookup_delete_Some. by apply H5.
  - intros n v HX HT Hv. destruct (H6 n v HX HT Hv) as [(ns & Hp & Hin)|Hc]; [|by right].
    destruct (decide (v_pair v = key)) as [Ek|Hne].
    + right. exists l. cbn. rewrite I3, Ek in Hp. assert (ns = nodes) as -> by congruence. split; [|by rewrite Hid, <- Ek].
      rewrite I4, bool_decide_true by by apply elem_of_elements. done.
    + left. exists ns. cbn. by rewrite lookup_delete_ne.
Qed.

Lemma checkAcquired_loop T X l : forall st, vinv T X st -> NoDup l.*1 -> (forall e, e ∈ l -> acquiring_ st !! e.1 = Some e.2) ->
  let st' := foldl (check_pair env) st l in
  vinv T X st' /\ current_ st' = current_ st /\
  (forall key, acquiring_ st' !! key = if bool_decide (key ∈ l.*1) then (if env_acquire env key.2 then None else acquiring_ st !! key) else acquiring_ st !! key).
Proof.
  induction l as [|[key nodes] l IH]; intros st Hi Hnd Hl; [done|]. cbn [foldl fmap list_fmap fst] in *. apply NoDup_cons in Hnd as [Hx Hnd].
  pose proof (Hl _ (list_elem_of_here _ _)) as Hkey. cbn [fst snd] in Hkey.
  destruct (vinv_check_pair T X st key nodes Hi Hkey) as (I1 & I2 & I3 & _). set (st1 := check_pair env st (key, nodes)) in *.
  destruct (IH st1 I1 Hnd) as (J1 & J2 & J3).
  { intros [k ns] He. cbn [fst snd]. assert (key <> k) by (intros ->; apply Hx; by apply (list_elem_of_fmap_2 fst l (k, ns))).
    rewrite I3. pose proof (Hl (k, ns) (list_elem_of_further _ _ _ He)) as Hk. cbn in Hk. by destruct (env_acquire env key.2); rewrite ?lookup_delete_ne by done. }
  split_and!; [done|by rewrite J2|]. intros k. rewrite J3, I3. destruct (decide (k = key)) as [->|Hne].
  - rewrite bool_decide_false, bool_decide_true by (done || left). by destruct (env_acquire env key.2); rewrite ?lookup_delete_eq.
  - rewrite (bool_decide_ext (k ∈ key :: l.*1) (k ∈ l.*1)) by set_solver.
    by destruct (env_acquire env key.2); rewrite ?lookup_delete_ne by done.
Qed.

Lemma vinv_checkAcquired T X st : vinv T X st ->
  vinv T X (checkAcquired env st) /\ current_ (checkAcquired env st) = current_ st /\
  (forall key, acquiring_ (checkAcquired env st) !! key = if env_acquire env key.2 then None else acquiring_ st !! key).
Proof.
  intros Hi. destruct (checkAcquired_loop T X (map_to_list (acquiring_ st)) st Hi) as (I1 & I2 & I3).
  { apply NoDup_fst_map_to_list. }
  { intros [k ns] He%elem_of_map_to_list. done. }
  split_and!; [done..|]. intros key. unfold checkAcquired. rewrite I3. destruct (acquiring_ st !! key) as [ns|] eqn:E.
  - rewrite bool_decide_true; [done|]. apply (list_elem_of_fmap_2 fst _ (key, ns)). by apply elem_of_map_to_list.
  - by destruct (bool_decide _), (env_acquire env key.2).
Qed.

Lemma vinv_start T X st n v : vinv T ({[n]} ∪ X) st -> n ∈ T -> current_ st !! n = Some v ->
  vinv T X (with_acquiring (<[v_pair v := {[n]} ∪ default ∅ (acquiring_ st !! v_pair v)]> (acquiring_ st)) st).
Proof.
  intros [A1 A2 A3 A4 A5 A6] HT Hv. split; cbn [with_acquiring current_ lastLedger_ trie_ acquiring_]; try done.
  - intros k ns [[<- <-]|[_ Hk]]%lookup_insert_Some; [|by apply A5]. split; [set_solver|].
    intros m [->%elem_of_singleton|Hm]%elem_of_union; [naive_solver|]. destruct (acquiring_ st !! v_pair v) as [nodes|] eqn:Ea; [|set_solver].
    by apply (A5 _ _ Ea).
  - intros m w HX HTm Hm. unfold pending. cbn. destruct (decide (m = n)) as [->|Hne].
    + left. assert (w = v) as -> by congruence. eexists. rewrite lookup_insert_eq. split; [done|set_solver].
    + destruct (A6 m w ltac:(set_solver) HTm Hm) as [(ns & Hk & Hin)|Hc]; [left|by right].
      destruct (decide (v_pair v = v_pair w)) as [Ew|Hw]; [|exists ns; by rewrite lookup_insert_ne].
      rewrite <- Ew, lookup_insert_eq. eexists. split; [done|]. rewrite <- Ew in Hk. rewrite Hk. set_solver.
Qed.

(** The ledger of a trusted node's validation is counted, or waits. *)
Lemma vinv_updateTrie T X st n v prior : vinv T ({[n]} ∪ X) st -> n ∈ U -> n ∈ T -> current_ st !! n = Some v ->
  vinv T X (updateTrie env n v prior st) /\ current_ (updateTrie env n v prior st) = current_ st.
Proof.
  intros Hi Hu HT Hv. unfold updateTrie. set (st1 := match prior with Some p => _ | None => st end).
  assert (H1 : vinv T ({[n]} ∪ X) st1 /\ current_ st1 = current_ st).
  { unfold st1. destruct prior as [p|]; [|done]. split; [|done]. pose proof (vinv_stop T _ st p n Hi) as H. by rewrite (assoc_L (∪)), (idemp_L (∪)) in H. }
  destruct H1 as [H1 E1]. destruct (vinv_checkAcquired T _ st1 H1) as (H2 & E2 & E3). set (st2 := checkAcquired env st1) in *.
  assert (Hv2 : current_ st2 !! n = Some v) by by rewrite E2, E1.
  pose proof (vinv_start T X st2 n v H2 HT Hv2) as Hs. destruct (acquiring_ st2 !! v_pair v) as [nodes|] eqn:Ea; [by split; [|cbn; congruence]|].
  destruct (env_acquire env (v_ledgerID v)) as [l|] eqn:El.
  - destruct (Henv _ _ El) as [Hl Hid]. split; [|cbn; congruence].
    apply (vinv_done T X _ n); [apply vinv_updateLedger; [done|done|done|left; set_solver]|].
    intros _ w Hw. cbn in Hw. right. exists l. cbn. rewrite lookup_insert_eq. split; [done|]. congruence.
  - split; [|cbn; congruence]. cbn [default from_option] in Hs. by rewrite union_empty_r_L in Hs.
Qed.

Lemma vinv_frame T X st st' : vinv T X st -> current_ st' = current_ st -> lastLedger_ st' = lastLedger_ st -> trie_ st' = trie_ st ->
  acquiring_ st' = acquiring_ st -> vinv T X st'.
Proof. intros [H1 H2 H3 H4 H5 H6] E1 E2 E3 E4. split; unfold pending, counted in *; rewrite ?E1, ?E2, ?E3, ?E4; done. Qed.

Context (p : ValidationParms).

Definition fresh_val (v : Validation) : bool := isCurrent p (env_now env) (v_signTime v) (v_seenTime v).

Lemma vinv_current_loop {A} T (f : Z -> Validation -> A -> A) l : forall st a, vinv T ∅ st -> NoDup l.*1 -> (forall e, e ∈ l -> current_ st !! e.1 = Some e.2) ->
  let '(st', _) := foldl (current_step p env f) (st, a) l in
  vinv T ∅ st' /\ forall n, current_ st' !! n = if bool_decide (n ∈ l.*1) then (v ← current_ st !! n; if fresh_val v then Some v else None) else current_ st !! n.
Proof.
  induction l as [|[n v] l IH]; intros st a Hi Hnd Hl; [done|]. cbn [foldl fmap list_fmap fst] in *. apply NoDup_cons in Hnd as [Hx Hnd].
  pose proof (Hl _ (list_elem_of_here _ _)) as Hn. cbn [fst snd] in Hn.
  assert (Hne : forall e, e ∈ l -> e.1 <> n) by (intros e He <-; apply Hx; by apply list_elem_of_fmap_2).
  unfold current_step at 2. fold (fresh_val v). destruct (fresh_val v) eqn:Ef.
  - specialize (IH st (f n v a) Hi Hnd ltac:(set_solver)). destruct (foldl _ _ l) as [st' a']. destruct IH as [I1 I2]. split; [done|].
    intros m. rewrite I2. destruct (decide (m = n)) as [->|]; [|by rewrite (bool_decide_ext (m ∈ n :: l.*1) (m ∈ l.*1)) by set_solver].
    rewrite bool_decide_false, bool_decide_true, Hn by (done || left). cbn. by rewrite Ef.
  - destruct (vinv_removeTrie T ∅ st n v Hi Hn) as (R1 & R2 & R3).
    set (st1 := with_current _ _). assert (E1 : current_ st1 = delete n (current_ st)) by (unfold st1; cbn; by rewrite R3).
    specialize (IH st1 a). destruct (foldl _ _ l) as [st' a']. destruct IH as [I1 I2]; [|done| |].
    + eapply vinv_frame; [apply (vinv_del_current T ∅ (removeTrie n v st) n R1 R2)|done..].
    + intros e He. rewrite E1, lookup_delete_ne by (intros E; by apply (Hne e He)). apply Hl. by right.
    + split; [done|]. intros m. rewrite I2, E1. destruct (decide (m = n)) as [->|].
      * rewrite bool_decide_false, bool_decide_true, lookup_delete_eq, Hn by (done || left). cbn. by rewrite Ef.
      * rewrite (bool_decide_ext (m ∈ n :: l.*1) (m ∈ l.*1)), lookup_delete_ne by set_solver. done.
Qed.

Lemma vinv_current {A} T (f : Z -> Validation -> A -> A) a st : vinv T ∅ st ->
  vinv T ∅ (fst (current p env f a st)) /\
  forall n, current_ (fst (current p env f a st)) !! n = (v ← current_ st !! n; if fresh_val v then Some v else None).
Proof.
  intros Hi. pose proof (vinv_current_loop T f (map_to_list (current_ st)) st a Hi) as H. unfold current.
  destruct (foldl _ _ _) as [st' a']. destruct H as [H1 H2]; [apply NoDup_fst_map_to_list|by intros [n v] Hin%elem_of_map_to_list|].
  split; [done|]. intros n. cbn [fst]. rewrite H2. destruct (current_ st !! n) as [v|] eqn:E; [|by destruct (bool_decide _)].
  rewrite bool_decide_true; [done|]. apply (list_elem_of_fmap_2 fst _ (n, v)). by apply elem_of_map_to_list.
Qed.

Lemma vinv_withTrie T st : vinv T ∅ st ->
  vinv T ∅ (withTrie p env st) /\ (forall n, current_ (withTrie p env st) !! n = (v ← current_ st !! n; if fresh_val v then Some v else None)) /\
  (forall key, is_Some (env_acquire env key.2) -> acquiring_ (withTrie p env st) !! key = None).
Proof.
  intros Hi. destruct (vinv_current T (fun _ _ (a : unit) => a) tt st Hi) as [H1 H2]. unfold withTrie, flush_stale.
  destruct (vinv_checkAcquired T ∅ _ H1) as (H3 & H4 & H5). split_and!; [done|by rewrite H4|].
  intros key [l El]. rewrite H5. by rewrite El.
Qed.

Lemma vinv_add T n v st : vinv T ∅ st -> n ∈ U -> v_trusted v = bool_decide (n ∈ T) -> vinv T ∅ (snd (add p env n v st)).
Proof.
  intros Hi Hu Hv. unfold add. destruct (negb (isCurrent _ _ _ _)); [done|]. destruct (enforce _ _ _ _) as [[] e]; cbn [negb]; [|by apply (vinv_frame T ∅ st)].
  set (st1 := with_byLedger _ _). assert (Hi1 : vinv T ∅ st1) by by apply (vinv_frame T ∅ st). clearbody st1.
  assert (Hset : forall st2, vinv T ∅ st2 -> idle st2 n -> vinv T {[n]} (with_current (<[n := v]> (current_ st2)) st2)).
  { intros st2 Hi2 Hidle. rewrite <- (union_empty_r_L {[n]}). by apply (vinv_set_current T T). }
  assert (Htr : forall st2, vinv T {[n]} st2 -> n ∈ T -> current_ st2 !! n = Some v -> vinv T ∅ (updateTrie env n v None st2)).
  { intros st2 Hi2 HT Hn. apply vinv_updateTrie; [by rewrite union_empty_r_L|done..]. }
  assert (Hun : forall st2, vinv T {[n]} st2 -> n ∉ T -> vinv T ∅ st2).
  { intros st2 Hi2 HT. apply (vinv_done T ∅ st2 n); [by rewrite union_empty_r_L|done]. }
  destruct (current_ st1 !! n) as [old|] eqn:En.
  - destruct (v_signTime old <? v_signTime v); [|done]. cbn [snd]. rewrite Hv. case_bool_decide as HT.
    + set (st2 := onStale old (with_acquiring (stop_acquiring (v_pair old) n (acquiring_ st1)) st1)).
      change (vinv T ∅ (updateTrie env n v None (with_current (<[n := v]> (current_ st2)) st2))).
      apply Htr; [|done|apply lookup_insert_eq]. rewrite <- (idemp_L (∪) {[n]}).
      apply (vinv_set_current T T); [|exact (stop_idle T ∅ st1 n old Hi1 En)|done|by rewrite Hv, bool_decide_true|done].
      eapply vinv_frame; [rewrite <- (union_empty_r_L {[n]}); exact (vinv_stop T ∅ st1 (v_pair old) n Hi1)|done..].
    + apply Hun; [|done]. apply (Hset (onStale old st1)); [by apply (vinv_frame T ∅ st1)|]. apply (idle_absent T ∅); [by apply (vinv_frame T ∅ st1)|by right].
  - assert (Hidle : idle st1 n) by (apply (idle_absent T ∅); [done|by left]). cbn [snd]. rewrite Hv. case_bool_decide as HT.
    + apply Htr; [by apply Hset|done|apply lookup_insert_eq].
    + apply Hun; [by apply Hset|done].
Qed.

(** ** Trust *)

Lemma vinv_trust_ext T T' X st : vinv T X st -> (forall n, n ∈ dom (current_ st) -> n ∈ T <-> n ∈ T') -> vinv T' X st.
Proof.
  intros [H1 H2 H3 H4 H5 H6] HT. assert (Hd : forall n v, current_ st !! n = Some v -> n ∈ T <-> n ∈ T') by (intros n v Hn; apply HT; by eapply elem_of_dom_2).
  split; try done.
  - intros n v Hn. rewrite (H4 _ _ Hn). apply bool_decide_ext. by eapply Hd.
  - intros key nodes Hk. destruct (H5 _ _ Hk) as [Hx Hn]. split; [done|]. intros n Hin. destruct (Hn n Hin) as (Ht & v & Hv & E). split; [by apply (Hd _ _ Hv)|by exists v].
  - intros n v HX Ht Hn. apply H6; [done|by apply (Hd _ _ Hn)|done].
Qed.

Lemma vinv_set_trust T T' X st n v b : vinv T X st -> current_ st !! n = Some v -> b = bool_decide (n ∈ T') ->
  (forall m, m <> n -> m ∈ T <-> m ∈ T') -> (n ∈ T' \/ idle st n) ->
  vinv T' ({[n]} ∪ X) (with_current (<[n := set_trusted b v]> (current_ st)) st).
Proof.
  intros [H1 H2 H3 H4 H5 H6] Hn Hb HT Hidle. split; cbn [with_current current_ lastLedger_ trie_ acquiring_]; try done.
  - rewrite dom_insert. apply elem_of_dom_2 in Hn. set_solver.
  - intros m w [[<- <-]|[Hne Hm]]%lookup_insert_Some; [done|]. rewrite (H4 _ _ Hm). apply bool_decide_ext. by apply HT.
  - intros key nodes Hk. destruct (H5 _ _ Hk) as [Hx Hns]. split; [done|]. intros m Hm. destruct (Hns m Hm) as (Ht & w & Hw & E).
    destruct (decide (m = n)) as [->|Hne].
    + destruct Hidle as [Hin|Hidle]; [|by destruct (Hidle _ _ Hk)]. split; [done|]. exists (set_trusted b v). rewrite lookup_insert_eq. split; [done|].
      rewrite <- E. by assert (w = v) as -> by congruence.
    + split; [by apply HT|]. exists w. by rewrite lookup_insert_ne.
  - intros m w HX Ht [[<- <-]|[Hne Hm]]%lookup_insert_Some; [set_solver|]. apply (H6 m w); [set_solver| |done]. by apply HT.
Qed.

Definition trust_set (added removed : gset Z) (n : Z) (T : gset Z) : gset Z :=
  if bool_decide (n ∈ added) then {[n]} ∪ T else if bool_decide (n ∈ removed) then T ∖ {[n]} else T.

Lemma vinv_trust_step T added removed st n v : vinv T ∅ st -> current_ st !! n = Some v ->
  vinv (trust_set added removed n T) ∅ (trust_step env added removed st (n, v)) /\
  current_ (trust_step env added removed st (n, v)) = <[n := change_trust added removed n v]> (current_ st).
Proof.
  intros Hi Hn. assert (Hu : n ∈ U) by (apply (vi_current T ∅ st Hi); by eapply elem_of_dom_2). unfold trust_step, trust_set, change_trust.
  case_bool_decide as Ha; [|case_bool_decide as Hr].
  - assert (H1 := vinv_set_trust T ({[n]} ∪ T) ∅ st n v true Hi Hn). destruct (vinv_updateTrie ({[n]} ∪ T) ∅ _ n (set_trusted true v) None (H1 ltac:(by rewrite bool_decide_true by set_solver) ltac:(set_solver) ltac:(set_solver))) as [R1 R2];
      [done|set_solver|apply lookup_insert_eq|]. split; [done|]. rewrite R2. done.
  - destruct (vinv_removeTrie T ∅ st n v Hi Hn) as (R1 & R2 & R3).
    assert (E : removeTrie n (set_trusted false v) (with_current (<[n := set_trusted false v]> (current_ st)) st) =
                with_current (<[n := set_trusted false v]> (current_ (removeTrie n v st))) (removeTrie n v st)).
    { unfold removeTrie. cbn [with_current with_acquiring lastLedger_ acquiring_ trie_]. change (v_pair (set_trusted false v)) with (v_pair v).
      change (v_ledgerID (set_trusted false v)) with (v_ledgerID v). destruct (lastLedger_ st !! n) as [l|]; [|done]. by destruct (id_of l =? v_ledgerID v). }
    rewrite E. split; [|cbn; by rewrite R3]. apply (vinv_done _ _ _ n); [|set_solver].
    pose proof (vinv_set_trust T (T ∖ {[n]}) ({[n]} ∪ ∅) (removeTrie n v st) n v false R1) as H. rewrite (assoc_L (∪)), (idemp_L (∪)) in H.
    apply H; [by rewrite R3|by rewrite bool_decide_false by set_solver|set_solver|by right].
  - rewrite insert_id by done. split; [|done]. by apply (vinv_frame T ∅ st).
Qed.

Lemma vinv_trust_loop added removed l : forall T st, vinv T ∅ st -> NoDup l.*1 -> (forall e, e ∈ l -> current_ st !! e.1 = Some e.2) ->
  let st' := foldl (trust_step env added removed) st l in
  exists T', vinv T' ∅ st' /\ dom (current_ st') = dom (current_ st) /\
    forall n, n ∈ T' <-> if bool_decide (n ∈ l.*1) then n ∈ added \/ (n ∈ T /\ n ∉ removed) else n ∈ T.
Proof.
  induction l as [|[n v] l IH]; intros T st Hi Hnd Hl; [by exists T|]. cbn [foldl fmap list_fmap fst] in *. apply NoDup_cons in Hnd as [Hx Hnd].
  pose proof (Hl _ (list_elem_of_here _ _)) as Hn. cbn [fst snd] in Hn. destruct (vinv_trust_step T added removed st n v Hi Hn) as [R1 R2].
  destruct (IH _ _ R1 Hnd) as (T' & I1 & I2 & I3).
  { intros [m w] He. cbn [fst snd]. rewrite R2, lookup_insert_ne; [by apply (Hl (m, w)); right|]. intros <-. apply Hx. by apply (list_elem_of_fmap_2 fst l (n, w)). }
  exists T'. split_and!; [done| |].
  - rewrite I2, R2, dom_insert_lookup_L; [done|by eexists].
  - intros m. rewrite I3. unfold trust_set. destruct (decide (m = n)) as [->|Hne].
    + rewrite (bool_decide_false (n ∈ l.*1)), (bool_decide_true (n ∈ n :: l.*1)) by (done || left). repeat case_bool_decide; set_solver.
    + rewrite (bool_decide_ext (m ∈ n :: l.*1) (m ∈ l.*1)) by set_solver. repeat case_bool_decide; set_solver.
Qed.

Lemma vinv_trustChanged T added removed st : vinv T ∅ st -> vinv ((T ∖ removed) ∪ added) ∅ (trustChanged env added removed st).
Proof.
  intros Hi. destruct (vinv_trust_loop added removed (map_to_list (current_ st)) T st Hi) as (T' & H1 & H2 & H3).
  { apply NoDup_fst_map_to_list. }
  { by intros [n v] Hin%elem_of_map_to_list. }
  unfold trustChanged. set (st' := foldl _ _ _) in *. apply (vinv_frame _ _ st'); [|done..]. apply (vinv_trust_ext T'); [done|].
  intros n Hn. rewrite H2 in Hn. apply elem_of_dom in Hn as [v Hv]. rewrite H3, bool_decide_true; [set_solver|].
  apply (list_elem_of_fmap_2 fst _ (n, v)). by apply elem_of_map_to_list.
Qed.
End Acquire.

(** ** The books *)

(** What holds whatever calls are made, [flush] among them: the trie counts the recorded
    ledgers, and only the nodes of [U] are about. *)
Record books (st : Validations) : Prop := {
  bk_current : dom (current_ st) ⊆ U;
  bk_last : dom (lastLedger_ st) ⊆ U;
  bk_trie : represents known (trie_ st) (tally (lastLedger_ st));
  bk_acquiring : forall key nodes, acquiring_ st !! key = Some nodes -> nodes ⊆ U
}.

Lemma foldl_keeps {A S} (P : S -> Prop) (f : S -> A -> S) l : (forall s a, a ∈ l -> P s -> P (f s a)) -> forall s, P s -> P (foldl f s l).
Proof. induction l as [|a l IH]; intros Hf s Hs; [done|]. cbn. apply IH; [intros s' b Hb; apply Hf; by right|]. apply Hf; [left|done]. Qed.

Lemma books_frame st st' : books st -> current_ st' = current_ st -> lastLedger_ st' = lastLedger_ st -> trie_ st' = trie_ st -> acquiring_ st' = acquiring_ st -> books st'.
Proof. intros [H1 H2 H3 H4] E1 E2 E3 E4. split; rewrite ?E1, ?E2, ?E3, ?E4; done. Qed.

Lemma books_updateLedger st n l : books st -> n ∈ U -> known l -> books (updateLedger n l st).
Proof.
  intros [H1 H2 H3 H4] Hu Hk. unfold updateLedger. split; cbn [with_trie current_ lastLedger_ trie_ acquiring_]; try done.
  - rewrite dom_insert. set_solver.
  - destruct (lastLedger_ st !! n) as [old|] eqn:E.
    + rewrite <- insert_delete_eq. apply insert_vote; [by apply remove_vote|rewrite dom_delete; set_solver|done|apply lookup_delete_eq|done].
    + by apply insert_vote.
Qed.

Lemma books_acquiring st a : books st -> (forall key nodes, a !! key = Some nodes -> nodes ⊆ U) -> books (with_acquiring a st).
Proof. intros [H1 H2 H3 H4] Ha. by split. Qed.

Lemma books_stop st key n : books st -> books (with_acquiring (stop_acquiring key n (acquiring_ st)) st).
Proof.
  intros Hb. apply books_acquiring; [done|]. intros k nodes Hk. destruct (stop_acquiring_spec key n (acquiring_ st)) as [Hs _]. destruct (Hs k nodes Hk) as (old & Ho & Hsub & _).
  pose proof (bk_acquiring st Hb k old Ho). set_solver.
Qed.

Lemma books_removeTrie st n v : books st -> books (removeTrie n v st).
Proof.
  intros Hb. unfold removeTrie. pose proof (books_stop st (v_pair v) n Hb) as Hs. cbn [with_acquiring lastLedger_ trie_]. destruct (lastLedger_ st !! n) as [l|] eqn:E; [|done].
  destruct (id_of l =? v_ledgerID v); [|done]. destruct Hs as [H1 H2 H3 H4]. split; cbn [with_trie with_acquiring current_ lastLedger_ trie_ acquiring_]; try done.
  - rewrite dom_delete. set_solver.
  - by apply remove_vote.
Qed.

Section Books.
Context (env : Env) (Henv : env_ok env).

Lemma books_checkAcquired st : books st -> books (checkAcquired env st).
Proof.
  intros Hb. unfold checkAcquired. apply foldl_keeps; [|done]. intros s [key nodes] Hin Hs. cbn [check_pair]. destruct (env_acquire env key.2) as [l|] eqn:E; [|done]. destruct (Henv _ _ E) as [Hl _].
  assert (HU : nodes ⊆ U) by (apply (bk_acquiring st Hb key); by apply elem_of_map_to_list in Hin).
  assert (Hs' : books (foldl (fun st n => updateLedger n l st) s (elements nodes))).
  { apply foldl_keeps; [|done]. intros s' n Hn%elem_of_elements Hs'. apply books_updateLedger; [done|set_solver|done]. }
  apply books_acquiring; [done|]. intros k ns [_ Hk]%lookup_delete_Some. by apply (bk_acquiring _ Hs' k).
Qed.

Lemma books_updateTrie st n v prior : books st -> n ∈ U -> books (updateTrie env n v prior st).
Proof.
  intros Hb Hn. unfold updateTrie. set (st1 := match prior with Some p => _ | None => st end).
  assert (H2 : books (checkAcquired env st1)) by (apply books_checkAcquired; unfold st1; destruct prior; [by apply books_stop|done]). set (st2 := checkAcquired env st1) in *.
  assert (Hput : forall nodes, nodes ⊆ U -> books (with_acquiring (<[v_pair v := nodes]> (acquiring_ st2)) st2)).
  { intros nodes Hs. apply books_acquiring; [done|]. intros k ns [[_ <-]|[_ Hk]]%lookup_insert_Some; [done|by apply (bk_acquiring _ H2 k)]. }
  destruct (acquiring_ st2 !! v_pair v) as [nodes|] eqn:E; [apply Hput; pose proof (bk_acquiring _ H2 _ _ E); set_solver|].
  destruct (env_acquire env (v_ledgerID v)) as [l|] eqn:El; [|apply Hput; set_solver]. destruct (Henv _ _ El). by apply books_updateLedger.
Qed.

Lemma books_set_current st n v : books st -> n ∈ U -> books (with_current (<[n := v]> (current_ st)) st).
Proof. intros [H1 H2 H3 H4] Hn. split; cbn; try done. rewrite dom_insert. set_solver. Qed.

Lemma books_current {A} p (f : Z -> Validation -> A -> A) a st : books st -> books (fst (current p env f a st)).
Proof.
  intros Hb. unfold current. apply (foldl_keeps (fun s : Validations * A => books s.1)); [|done]. intros [s b] [n v] _ Hs. cbn [current_step fst]. destruct (isCurrent _ _ _ _); [done|]. cbn [fst].
  destruct (books_removeTrie s n v Hs) as [H1 H2 H3 H4]. split; cbn; try done. rewrite dom_delete. set_solver.
Qed.

Lemma books_withTrie p st : books st -> books (withTrie p env st).
Proof. intros Hb. by apply books_checkAcquired, books_current. Qed.

Lemma books_add p n v st : books st -> n ∈ U -> books (snd (add p env n v st)).
Proof.
  intros Hb Hn. unfold add. destruct (negb _); [done|]. destruct (enforce _ _ _ _) as [[] e]; cbn [negb]; [|by apply (books_frame st)]. set (st1 := with_byLedger _ _). assert (H1 : books st1) by by apply (books_frame st).
  assert (Hput : forall st2 prior, books st2 -> books (if v_trusted v then updateTrie env n v prior (with_current (<[n := v]> (current_ st2)) st2) else with_current (<[n := v]> (current_ st2)) st2)).
  { intros st2 prior H2. pose proof (books_set_current st2 n v H2 Hn). destruct (v_trusted v); [by apply books_updateTrie|done]. }
  destruct (current_ st1 !! n) as [old|]; [|by apply (Hput st1 None)]. destruct (_ <? _); [|done]. apply (Hput (onStale old st1)). by apply (books_frame st1).
Qed.

Lemma books_trustChanged added removed st : books st -> books (trustChanged env added removed st).
Proof.
  intros Hb. unfold trustChanged. set (st' := foldl _ _ _). apply (books_frame st'); [|done..]. unfold st'. apply foldl_keeps; [|done]. intros s [n v] Hin Hs. apply elem_of_map_to_list in Hin.
  assert (Hn : n ∈ U) by (apply (bk_current st Hb); by eapply elem_of_dom_2). pose proof (books_set_current s n (change_trust added removed n v) Hs Hn) as H1. unfold trust_step.
  destruct (bool_decide (n ∈ added)); [by apply books_updateTrie|]. destruct (bool_decide (n ∈ removed)); [by apply books_removeTrie|done].
Qed.
End Books.

(** ** Sequences of calls *)

(** The public calls; the other forms of [getPreferred] do the same to the state. *)
Inductive v_op :=
| O_add (n : Z) (v : Validation)
| O_trustChanged (added removed : gset Z)
| O_expire
| O_canValidateSeq (s : nat)
| O_getPreferred (curr : Ledger)
| O_getNodesAfter (ledger : Ledger) (ledgerID : Z)
| O_currentTrusted
| O_getCurrentNodeIDs
| O_laggards (seq : nat) (keys : gset Z)
| O_getTrustedForLedger (ledgerID : Z)
| O_numTrustedForLedger (ledgerID : Z)
| O_fees (ledgerID baseFee : Z)
| O_flush.

Definition v_step (p : ValidationParms) (env : Env) (op : v_op) (st : Validations) : Validations :=
  match op with
  | O_add n v => snd (add p env n v st)
  | O_trustChanged added removed => trustChanged env added removed st
  | O_expire => expire p env st
  | O_canValidateSeq s => snd (canValidateSeq p env s st)
  | O_getPreferred curr => snd (getPreferred p env curr st)
  | O_getNodesAfter ledger id => snd (getNodesAfter p env ledger id st)
  | O_currentTrusted => fst (currentTrusted p env st)
  | O_getCurrentNodeIDs => fst (getCurrentNodeIDs p env st)
  | O_laggards seq keys => fst (laggards p env seq keys st)
  | O_getTrustedForLedger id => fst (getTrustedForLedger env id st)
  | O_numTrustedForLedger id => fst (numTrustedForLedger env id st)
  | O_fees id baseFee => fst (fees env id baseFee st)
  | O_flush => fst (flush st)
  end.

Fixpoint v_run (p : ValidationParms) (ops : list (Env * v_op)) (st : Validations) : Validations :=
  match ops with [] => st | (env, op) :: ops => v_run p ops (v_step p env op st) end.

(** The nodes trusted after a call. *)
Definition op_trust (op : v_op) (T : gset Z) : gset Z :=
  match op with O_trustChanged added removed => (T ∖ removed) ∪ added | _ => T end.

Definition run_trust (ops : list (Env * v_op)) (T : gset Z) : gset Z := foldl (fun T e => op_trust e.2 T) T ops.

(** A validation is marked trusted when its node is. *)
Definition op_ok (T : gset Z) (op : v_op) : Prop :=
  match op with O_add n v => n ∈ U /\ v_trusted v = bool_decide (n ∈ T) | _ => True end.

Fixpoint run_ok (T : gset Z) (ops : list (Env * v_op)) : Prop :=
  match ops with [] => True | (env, op) :: ops => env_ok env /\ op_ok T op /\ run_ok (op_trust op T) ops end.

Lemma vinv_new : vinv ∅ ∅ (new_validations genesis).
Proof. split; cbn; try done. unfold tally. rewrite map_fold_empty. by apply (empty_represents known genesis). Qed.

Lemma byLedger_frame {A} env id (f : Z -> Validation -> A -> A) a T st : vinv T ∅ st -> vinv T ∅ (fst (byLedger env id f a st)).
Proof. intros Hi. unfold byLedger. destruct (byLedger_ st !! id) as [[set w]|]; [by apply (vinv_frame T ∅ st)|done]. Qed.

(** [flush] is the call of a server that stops. *)
Definition no_flush (ops : list (Env * v_op)) : Prop := Forall (fun e : Env * v_op => e.2 <> O_flush) ops.

Lemma books_new : books (new_validations genesis).
Proof. split; cbn; try done. unfold tally. rewrite map_fold_empty. by apply (empty_represents known genesis). Qed.

Lemma books_byLedger {A} env id (f : Z -> Validation -> A -> A) a st : books st -> books (fst (byLedger env id f a st)).
Proof. intros Hi. unfold byLedger. destruct (byLedger_ st !! id) as [[set w]|]; [by apply (books_frame st)|done]. Qed.

Lemma books_step p env op T st : books st -> env_ok env -> op_ok T op -> books (v_step p env op st).
Proof.
  intros Hi He Ho. destruct op; cbn [v_step op_ok] in *; try (by apply books_byLedger); try (by apply books_current); try (by apply (books_frame st)).
  - destruct Ho. by apply books_add.
  - by apply books_trustChanged.
  - unfold canValidateSeq. destruct (enforce _ _ _ _). by apply (books_frame st).
  - by apply books_withTrie.
  - unfold getNodesAfter. destruct (id_of ledger =? ledgerID); [by apply books_withTrie|done].
  - destruct Hi as [H1 H2 H3 H4]. by split.
Qed.

Lemma books_run p ops : forall T st, books st -> run_ok T ops -> books (v_run p ops st).
Proof. induction ops as [|[env op] ops IH]; intros T st Hi; [done|]. intros (He & Ho & Hr). cbn. eapply IH; [by eapply books_step|done]. Qed.

Lemma vinv_step p env op T st : op <> O_flush -> vinv T ∅ st -> env_ok env -> op_ok T op -> vinv (op_trust op T) ∅ (v_step p env op st).
Proof.
  intros Hf Hi He Ho. destruct op; cbn [v_step op_trust op_ok] in *; try (by apply byLedger_frame); try (by apply vinv_current); try (by apply (vinv_frame T ∅ st)).
  - destruct Ho. by apply vinv_add.
  - by apply vinv_trustChanged.
  - unfold canValidateSeq. destruct (enforce _ _ _ _). by apply (vinv_frame T ∅ st).
  - by apply vinv_withTrie.
  - unfold getNodesAfter. destruct (id_of ledger =? ledgerID); [by apply vinv_withTrie|done].
Qed.

Lemma vinv_run p ops : no_flush ops -> forall T st, vinv T ∅ st -> run_ok T ops -> vinv (run_trust ops T) ∅ (v_run p ops st).
Proof.
  induction ops as [|[env op] ops IH]; intros Hf T st Hi; [done|]. apply Forall_cons in Hf as [Hop Hf]. intros (He & Ho & Hr). cbn. apply IH; [done|by apply vinv_step|done].
Qed.

(** ** The preferred ledger *)

(** [L] is preferred by the votes; a node working on its parent or on a descendant stays
    where it is. *)
Definition preferred_for (curr L : Ledger) : nat * Z :=
  if bool_decide (L = curr ++ [id_of L] \/ L `prefix_of` curr) then (seq_of curr, id_of curr) else (seq_of L, id_of L).

Lemma ancestor_known l s : known l -> (s <= seq_of l)%nat -> known (take (S s) l) /\ id_of (take (S s) l) = ancestor l s /\ seq_of (take (S s) l) = s.
Proof.
  intros Hl Hs. assert (Hlen : (S s <= length l)%nat) by (unfold seq_of in Hs; pose proof (known_genesis known genesis l Hl); destruct l; [done|cbn in *; lia]).
  assert (Es : seq_of (take (S s) l) = s) by (unfold seq_of; rewrite length_take; lia).
  split_and!; [apply (known_ancestor known genesis); [done|lia]| |done]. unfold id_of. rewrite Es. unfold ancestor. rewrite !nth_lookup, lookup_take_lt by lia. done.
Qed.

Lemma last_id (l : Ledger) : l <> [] -> l = take (seq_of l) l ++ [id_of l].
Proof.
  intros Hl. assert (Hs : (seq_of l < length l)%nat) by (unfold seq_of; destruct l; [done|cbn; lia]).
  rewrite <- (take_S_r l (seq_of l)) by (by apply ancestor_lookup). symmetry. apply take_ge. unfold seq_of. lia.
Qed.

Lemma preferred_ledger_spec st curr tip : known curr -> known (tip_ledger tip) -> st_seq tip = seq_of (tip_ledger tip) ->
  st_id tip = id_of (tip_ledger tip) -> TriePreferred.getPreferred (trie_ st) (en_seq (localSeqEnforcer_ st)) = Some tip ->
  preferred_ledger curr st = Some (preferred_for curr (tip_ledger tip)).
Proof.
  intros Hc Hk Hs Hid E. unfold preferred_ledger. rewrite E.
  assert (Ha : (seq_of curr <= st_seq tip)%nat -> ancestor (st_ledger tip) (seq_of curr) = ancestor (tip_ledger tip) (seq_of curr)).
  { intros Hle. unfold tip_ledger, ancestor. by rewrite !nth_lookup, lookup_take_lt by lia. }
  set (L := tip_ledger tip) in *. rewrite Hs, Hid in *. clearbody L. clear E Hs Hid. unfold preferred_for.
  assert (Hlen : forall l, known l -> length l = S (seq_of l)) by (intros l Hl; pose proof (known_genesis known genesis l Hl); by destruct l).
  destruct (Nat.eqb_spec (seq_of L) (seq_of curr + 1)) as [E1|N1]; cbn [andb].
  - rewrite Ha by lia. destruct (ancestor_known L (seq_of curr) Hk ltac:(lia)) as (K1 & K2 & K3).
    assert (Hnp : ~ L `prefix_of` curr) by (intros H%prefix_length; rewrite !Hlen in H by done; lia).
    destruct (Z.eqb_spec (ancestor L (seq_of curr)) (id_of curr)) as [E2|N2].
    + rewrite bool_decide_true; [done|]. left. rewrite <- K2 in E2. apply (known_unique known genesis) in E2; [|done..].
      rewrite <- E2 at 1. rewrite (last_id L) at 1 by (intros ->; by apply (known_genesis known genesis) in Hk). f_equal. f_equal. lia.
    + rewrite (proj2 (Nat.ltb_lt _ _)) by lia. rewrite bool_decide_false; [done|]. intros [E2|]; [|done]. apply N2.
      rewrite E2. unfold ancestor. rewrite app_nth1 by (rewrite Hlen by done; lia). done.
  - assert (Hna : L <> curr ++ [id_of L]).
    { intros E. apply N1. apply (f_equal length) in E. rewrite length_app, !Hlen in E by done. cbn in E. lia. }
    destruct (Nat.ltb_spec (seq_of curr) (seq_of L)) as [Hlt|Hge].
    + rewrite bool_decide_false; [done|]. intros [|Hp%prefix_length]; [done|]. rewrite !Hlen in Hp by done. lia.
    + destruct (ancestor_known curr (seq_of L) Hc Hge) as (K1 & K2 & K3). destruct (Z.eqb_spec (ancestor curr (seq_of L)) (id_of L)) as [E2|N2]; cbn [negb].
      * rewrite bool_decide_true; [done|]. right. rewrite <- K2 in E2. apply (known_unique known genesis) in E2; [|done..]. rewrite <- E2. apply prefix_take.
      * rewrite bool_decide_false; [done|]. intros [|[k ->]]; [done|]. apply N2. unfold ancestor. rewrite app_nth1 by (rewrite Hlen by done; lia). done.
Qed.
End Votes.


(** C17. The preferred ledger follows the votes. A call of [getPreferred] on any state the tracker can
    reach first forgets the validations that are no longer current and acquires what it can. If then no
    node has a recorded ledger, it answers from the ledgers being acquired; otherwise there is exactly
    one ledger that the documented rule prefers on the recorded ledgers, and the answer is that ledger, or
    the working ledger when the preferred one is its child or is one of its ancestors. *)
Theorem getPreferred_votes known genesis U p ops env curr :
  Histories known genesis -> Z.of_nat (size U) < 2 ^ 32 -> run_ok known U ∅ ops -> env_ok known env -> known curr ->
  let '(answer, st) := getPreferred p env curr (v_run p ops (new_validations genesis)) in
  (lastLedger_ st = ∅ -> answer = fst <$> max_element acquiring_lt (map_to_list (acquiring_ st))) /\
  (lastLedger_ st <> ∅ -> exists L, known L /\
     (forall l, preferred (tally (lastLedger_ st)) (en_seq (localSeqEnforcer_ st)) genesis l <-> l = L) /\ answer = Some (preferred_for curr L)).
Proof.
  intros Hh Hu Hr He Hc. unfold getPreferred. set (st0 := v_run p ops _).
  pose proof (books_run known genesis U Hu p ops ∅ _ (books_new known genesis U) Hr) as Hi. fold st0 in Hi.
  pose proof (books_withTrie known genesis U Hu env He p st0 Hi) as Hi'. set (st := withTrie p env st0) in *.
  pose proof (bk_trie known U st Hi') as Hrep. pose proof (votes_small U Hu _ (bk_last known U st Hi')) as Hs.
  pose proof (getPreferred_represents known genesis _ _ (en_seq (localSeqEnforcer_ st)) Hh Hrep Hs) as Hp.
  destruct (TriePreferred.getPreferred (trie_ st) _) as [tip|] eqn:E.
  - destruct Hp as (P1 & P2 & P3 & P4 & P5). split; [intros E0; exfalso; apply P1; rewrite E0; unfold tally; by rewrite map_fold_empty|].
    intros _. exists (tip_ledger tip). split_and!; [done|done|]. by apply (preferred_ledger_spec known genesis).
  - split; [|by intros []; apply tally_empty]. intros _. unfold preferred_ledger. by rewrite E.
Qed.


(** ** Sequence numbers *)

(** Whose validations: a node's, or this server's own. *)
Definition enforcer_of (who : option Z) (st : Validations) : SeqEnforcer :=
  match who with None => localSeqEnforcer_ st | Some n => default new_enforcer (seqEnforcers_ st !! n) end.

(** The sequence number a call accepts for [who]. *)
Definition accepts (who : option Z) (p : ValidationParms) (env : Env) (op : v_op) (st : Validations) : option nat :=
  match who, op with
  | None, O_canValidateSeq s => if fst (canValidateSeq p env s st) then Some s else None
  | Some n, O_add n' v => if (n =? n') && bool_decide (fst (add p env n' v st) = VS_current) then Some (v_seq v) else None
  | _, _ => None
  end.

(** What is accepted in a sequence of calls, with the time of the clock. *)
Fixpoint accepted (who : option Z) (p : ValidationParms) (ops : list (Env * v_op)) (st : Validations) : list (Z * nat) :=
  match ops with
  | [] => []
  | (env, op) :: ops =>
      match accepts who p env op st with Some s => [(env_clock env, s)] | None => [] end ++ accepted who p ops (v_step p env op st)
  end.

Definition increasing (p : ValidationParms) (a b : Z * nat) : Prop := b.1 <= a.1 + validationSET_EXPIRES p -> (a.2 < b.2)%nat.

Definition same_enforcers (st st' : Validations) : Prop := forall who, enforcer_of who st' = enforcer_of who st.

Lemma foldl_same {A} (f : Validations -> A -> Validations) l : (forall st a, same_enforcers st (f st a)) -> forall st, same_enforcers st (foldl f st l).
Proof. intros Hf. induction l as [|a l IH]; intros st who; [done|]. cbn. by rewrite IH, Hf. Qed.

Lemma checkAcquired_same env st : same_enforcers st (checkAcquired env st).
Proof.
  apply foldl_same. intros st' [key nodes] who. cbn. destruct (env_acquire env key.2) as [l|]; [|done].
  transitivity (enforcer_of who (foldl (fun st n => updateLedger n l st) st' (elements nodes))); [by destruct who|]. by apply foldl_same.
Qed.

Lemma removeTrie_same n v st : same_enforcers st (removeTrie n v st).
Proof. unfold removeTrie. cbn. destruct (lastLedger_ st !! n) as [l|]; [by destruct (id_of l =? v_ledgerID v)|done]. Qed.

Lemma updateTrie_same env n v prior st : same_enforcers st (updateTrie env n v prior st).
Proof.
  intros who. unfold updateTrie. set (st1 := match prior with Some p => _ | None => st end). assert (E : enforcer_of who st1 = enforcer_of who st) by by destruct prior.
  rewrite <- E, <- (checkAcquired_same env st1 who). set (st2 := checkAcquired env st1).
  destruct (acquiring_ st2 !! v_pair v); [by destruct who|]. by destruct (env_acquire env (v_ledgerID v)), who.
Qed.

Lemma current_same {A} p env (f : Z -> Validation -> A -> A) a st : same_enforcers st (fst (current p env f a st)).
Proof.
  unfold current. generalize (map_to_list (current_ st)) as l. intros l. revert st a. induction l as [|[n v] l IH]; intros st a who; [done|].
  cbn [foldl current_step]. destruct (isCurrent _ _ _ _); rewrite IH; [done|]. rewrite <- (removeTrie_same n v st who). by destruct who.
Qed.

Lemma withTrie_same p env st : same_enforcers st (withTrie p env st).
Proof. intros who. unfold withTrie. rewrite checkAcquired_same. apply current_same. Qed.

Lemma byLedger_same {A} env id (f : Z -> Validation -> A -> A) a st : same_enforcers st (fst (byLedger env id f a st)).
Proof. unfold byLedger. by destruct (byLedger_ st !! id) as [[? ?]|]. Qed.

Lemma trustChanged_same env added removed st : same_enforcers st (trustChanged env added removed st).
Proof.
  intros who. unfold trustChanged. transitivity (enforcer_of who (foldl (trust_step env added removed) st (map_to_list (current_ st)))); [by destruct who|].
  apply foldl_same. clear. intros st [n v] who. unfold trust_step. repeat case_bool_decide; rewrite ?updateTrie_same, ?removeTrie_same; by destruct who.
Qed.

(** An enforcer changes only when it is asked, and what is accepted has passed it. *)
Definition asked (who : option Z) (p : ValidationParms) (env : Env) (op : v_op) (st : Validations) : Prop :=
  let e := enforcer_of who st in
  let e' := enforcer_of who (v_step p env op st) in
  (e' = e /\ accepts who p env op st = None) \/
  exists s, e' = snd (enforce p (env_clock env) s e) /\
    (accepts who p env op st = None \/ (accepts who p env op st = Some s /\ fst (enforce p (env_clock env) s e) = true)).

Lemma add_enforcers p env n v st : isCurrent p (env_now env) (v_signTime v) (v_seenTime v) = true ->
  let r := enforce p (env_clock env) (v_seq v) (enforcer_of (Some n) st) in
  same_enforcers (with_enforcers (<[n := snd r]> (seqEnforcers_ st)) st) (snd (add p env n v st)) /\
  (fst r = false -> fst (add p env n v st) = VS_badSeq).
Proof.
  intros Hc r. unfold add. rewrite Hc. cbn [negb]. fold (enforcer_of (Some n) st). fold r. destruct r as [[] e]; cbn [negb fst snd]; [|by split].
  set (st1 := with_enforcers _ st). set (st2 := with_byLedger _ st1). assert (E2 : same_enforcers st1 st2) by by intros []. split; [|done].
  intros who. rewrite <- E2. destruct (current_ st2 !! n) as [old|].
  - destruct (v_signTime old <? v_signTime v); [|done]. cbn [snd]. destruct (v_trusted v); rewrite ?updateTrie_same; by destruct who.
  - cbn [snd]. destruct (v_trusted v); rewrite ?updateTrie_same; by destruct who.
Qed.

Lemma add_asked who p env n v st : asked who p env (O_add n v) st.
Proof.
  unfold asked. cbn [v_step]. destruct (isCurrent p (env_now env) (v_signTime v) (v_seenTime v)) eqn:Hc.
  2: { assert (E : add p env n v st = (VS_stale, st)) by (unfold add; by rewrite Hc). rewrite E. left. split; [done|]. destruct who as [m|]; [|done]. cbn [accepts]. rewrite E. cbn. by rewrite andb_false_r. }
  destruct (add_enforcers p env n v st Hc) as [E Hbad]. rewrite E. destruct who as [m|]; cbn [accepts]; [|by left].
  destruct (Z.eqb_spec m n) as [->|Hne]; cbn [andb].
  - right. exists (v_seq v). split; [unfold enforcer_of; cbn; by rewrite lookup_insert_eq|].
    destruct (fst (enforce _ _ _ _)) eqn:Ef; [|left; by rewrite Hbad]. case_bool_decide; [by right|by left].
  - left. unfold enforcer_of. cbn. by rewrite lookup_insert_ne.
Qed.

Lemma op_asked who p env op st : asked who p env op st.
Proof.
  destruct op; try apply add_asked;
    try (left; split; [cbn [v_step]; first [apply trustChanged_same|apply current_same|apply byLedger_same|apply withTrie_same|by destruct who]|by destruct who]).
  - unfold asked. cbn [v_step]. unfold canValidateSeq. destruct (enforce p (env_clock env) s (localSeqEnforcer_ st)) as [ok e] eqn:Ee. cbn [fst snd].
    destruct who as [m|]; [left; split; reflexivity|]. right. exists s. cbn [enforcer_of]. rewrite Ee. split; [done|]. cbn [accepts]. unfold canValidateSeq. rewrite Ee. destruct ok; [by right|by left].
  - left. split; [|by destruct who]. cbn [v_step]. unfold getNodesAfter. destruct (id_of ledger =? ledgerID); [apply withTrie_same|done].
Qed.

Lemma accepted_above who p ops : forall st t, en_when (enforcer_of who st) <= t -> Sorted Z.le (t :: map (fun e : Env * v_op => env_clock e.1) ops) ->
  let e := enforcer_of who st in
  StronglySorted (increasing p) (accepted who p ops st) /\
  Forall (fun b => t <= b.1 /\ (b.1 <= en_when e + validationSET_EXPIRES p -> (en_seq e < b.2)%nat)) (accepted who p ops st).
Proof.
  induction ops as [|[env op] ops IH]; intros st t Hw Hs e; [split; constructor|]. cbn [map fst] in Hs. set (now := env_clock env) in *.
  apply Sorted_inv in Hs as [Hs Ht%HdRel_inv]. cbn [accepted].
  specialize (IH (v_step p env op st) now). destruct (op_asked who p env op st) as [[E ->]|(s & E & Hacc)]; rewrite E in IH; fold e in IH, E, Hw.
  - destruct (IH ltac:(lia) Hs) as [I1 I2]. split; [done|]. eapply Forall_impl; [exact I2|]. cbn. intros b [B1 B2]. split; [lia|done].
  - fold now e in IH, Hacc. unfold enforce in IH, Hacc.
    set (e1 := if _ <? now then _ else e) in *. assert (Hw1 : en_when e1 = en_when e) by (unfold e1; by destruct (_ <? now)).
    assert (He1 : now <= en_when e + validationSET_EXPIRES p -> e1 = e) by (intros H; unfold e1; by rewrite (proj2 (Z.ltb_ge _ _) H)).
    destruct (Nat.leb_spec s (en_seq e1)) as [Hle|Hlt]; cbn [fst snd en_when en_seq] in IH, Hacc.
    + destruct Hacc as [-> |[_ Hf]]; [|done]. destruct (IH ltac:(lia) Hs) as [I1 I2]. split; [done|]. eapply Forall_impl; [exact I2|].
      cbn. intros [b sb] [B1 B2]. cbn in *. split; [lia|]. intros Hb. rewrite He1 in * by lia. by apply B2.
    + destruct (IH ltac:(lia) Hs) as [I1 I2].
      assert (Hall : Forall (fun b => t <= b.1 /\ (b.1 <= en_when e + validationSET_EXPIRES p -> (en_seq e < b.2)%nat)) (accepted who p ops (v_step p env op st))).
      { eapply Forall_impl; [exact I2|]. cbn. intros [b sb] [B1 B2]. cbn in *. split; [lia|]. intros Hb. rewrite He1 in Hlt by lia. specialize (B2 ltac:(lia)). lia. }
      destruct Hacc as [-> |[-> _]]; [done|]. cbn [app]. split; constructor; [done| | |done].
      * eapply Forall_impl; [exact I2|]. cbn. intros [b sb] [B1 B2]. exact B2.
      * cbn. split; [lia|]. intros Hb. by rewrite He1 in Hlt by done.
Qed.

(** Sequence numbers of validations only grow. In any sequence of calls under a clock that does not go
    back, whenever two validations are accepted, both issued by this server ([canValidateSeq]) or both
    received from one node ([add]), the later one has the larger sequence number, unless more than
    [validationSET_EXPIRES] passed between them. *)
Theorem sequence_increases who p ops genesis :
  Sorted Z.le (0 :: map (fun e : Env * v_op => env_clock e.1) ops) ->
  StronglySorted (increasing p) (accepted who p ops (new_validations genesis)).
Proof.
  intros Hs. apply (accepted_above who p ops (new_validations genesis) 0); [|done]. destruct who; cbn; [rewrite lookup_empty; cbn|]; lia.
Qed.

(** ** Support that outlives its validation *)

Definition ledger_3 : Ledger := [1; 2; 3].
Definition ledger_6 : Ledger := [1; 2; 5; 6].
Definition demo_val (id : Z) (seq : nat) (time : Z) : Validation := mkVal id seq time time 0 true true None.

(** Ledger 3 is at hand, ledger 6 is not. *)
Definition demo_env (t : Z) : Env := mkEnv t t (fun i => if i =? 3 then Some ledger_3 else None).

(** A trusted node validates ledger 3, then ledger 6. *)
Definition demo_run : list (Env * v_op) :=
  [(demo_env 1000, O_trustChanged {[7]} ∅);
   (demo_env 1000, O_add 7 (demo_val 3 2 1000));
   (demo_env 1010, O_add 7 (demo_val 6 3 1010))].

(** When the node is no longer trusted, or its validation expires, while the later ledger is still being
    acquired, the support for the earlier ledger stays in the trie: [removeTrie] takes it away only if it is for
    the ledger of the current validation. *)
Theorem support_stays :
  (let st := v_run default_parms (demo_run ++ [(demo_env 1020, O_trustChanged ∅ {[7]})]) (new_validations 1) in
   map_to_list (current_ st) = [(7, set_trusted false (demo_val 6 3 1010))] /\ acquiring_ st = ∅ /\ tipSupport (trie_ st) ledger_3 = 1) /\
  (let '(answer, st) := getPreferred default_parms (demo_env 5000) [1] (v_run default_parms demo_run (new_validations 1)) in
   current_ st = ∅ /\ acquiring_ st = ∅ /\ answer = Some (2%nat, 3)).
Proof. vm_compute. done. Qed.

(** [validationCURRENT_LOCAL] does not limit how long a validation stays current: for a validation seen in the past
    only the signing time counts, and it is current from [validationCURRENT_WALL] before to [validationCURRENT_EARLY]
    after it was signed. *)
Theorem current_window p now signTime seenTime : 0 < validationCURRENT_LOCAL p -> seenTime <= now ->
  isCurrent p now signTime seenTime = true <-> signTime - validationCURRENT_WALL p < now < signTime + validationCURRENT_EARLY p.
Proof.
  intros Hl Hs. unfold isCurrent. rewrite !andb_true_iff, orb_true_iff, !Z.ltb_lt, Z.eqb_eq. lia.
Qed.

(** After [flush] the tracker is not as it was made: it still acquires for the validations it has given away. A
    trusted node validates ledger 6, which is not at hand; the tracker is flushed; the node validates ledger 3, which
    is counted. When ledger 6 then arrives, it is counted for the node in place of ledger 3. *)
Definition flush_run : list (Env * v_op) :=
  [(demo_env 1000, O_trustChanged {[7]} ∅); (mkEnv 1000 1000 (fun _ => None), O_add 7 (demo_val 6 2 1000)); (demo_env 1005, O_flush); (demo_env 1010, O_add 7 (demo_val 3 3 1010))].

Lemma flush_keeps_acquiring :
  let st := v_run default_parms flush_run (new_validations 1) in
  let later := mkEnv 1015 1015 (fun i => if i =? 3 then Some ledger_3 else if i =? 6 then Some ledger_6 else None) in
  let st' := snd (getPreferred default_parms later [1] st) in
  lastLedger_ st !! 7 = Some ledger_3 /\ lastLedger_ st' !! 7 = Some ledger_6 /\ v_ledgerID <$> current_ st' !! 7 = Some 3.
Proof. vm_compute. done. Qed.

(** ** Witnesses *)

Lemma ledger_3_known : wknown ledger_3.
Proof. unfold wknown, ledger_3. set_solver. Qed.

Lemma ledger_6_known : wknown ledger_6.
Proof. unfold wknown, ledger_6. set_solver. Qed.

Lemma ledger_1_known : wknown [1].
Proof. unfold wknown. set_solver. Qed.

Lemma demo_env_ok t : env_ok wknown (demo_env t).
Proof. intros i l. cbn. destruct (Z.eqb_spec i 3) as [->|]; [|done]. intros [= <-]. split; [exact ledger_3_known|done]. Qed.

Lemma demo_trust n : n ∈ run_trust demo_run ∅ -> n = 7.
Proof. cbn. set_solver. Qed.

Lemma demo_run_ok : run_ok wknown {[7]} ∅ demo_run.
Proof. cbn. split_and!; try apply demo_env_ok; try done. Qed.

Lemma demo_no_flush : no_flush demo_run.
Proof. repeat constructor; discriminate. Qed.


Lemma getPreferred_votes_witness :
  exists L, forall l, preferred (tally (lastLedger_ (snd (getPreferred default_parms (demo_env 1015) [1] (v_run default_parms demo_run (new_validations 1))))))
    0 1 l <-> l = L.
Proof.
  pose proof (getPreferred_votes wknown 1 {[7]} default_parms demo_run (demo_env 1015) [1] wknown_histories ltac:(done) demo_run_ok (demo_env_ok _)) as H.
  destruct (getPreferred _ _ _ _) as [answer st] eqn:E. destruct H as [_ H]; [exact ledger_1_known|]. apply (f_equal snd) in E. cbn [snd] in E.
  destruct H as (L & _ & H & _); [rewrite <- E; vm_compute; done|]. exists L. intros l. rewrite <- H. rewrite <- E. vm_compute (en_seq _). done.
Defined.

(** Later ledger 6 arrives as well. *)
Definition all_env (t : Z) : Env := mkEnv t t (fun i => if i =? 3 then Some ledger_3 else if i =? 6 then Some ledger_6 else None).


Lemma sequence_increases_witness :
  StronglySorted (increasing default_parms) [(1000, 2%nat); (1010, 3%nat)].
Proof.
  apply (sequence_increases (Some 7) default_parms demo_run 1). cbn. repeat constructor; lia.
Defined.
