(* ===== verification/SHAMapNode.v ===== *)
(** * SHAMap nodes

    Models shamap/impl/SHAMapNodeID.cpp and the version 1 nodes of
    shamap/SHAMapTreeNode.h and shamap/impl/SHAMapTreeNode.cpp: where a 256-bit
    key branches at each depth, inner nodes with their cached hashes and branch
    bits, and leaves. The nodes of the maps are shared objects, so they live in a
    heap and refer to each other by pointers. SHA-512 half is a parameter. *)

From S2P Require Import Prelude Serializer.

(** ** Keys and node IDs *)

(** Byte [i] of a [uint256], which is stored big-endian. *)
Definition key_byte (k : Z) (i : nat) : Z := Z.land (Z.shiftr k (8 * (31 - Z.of_nat i))) 255.

Record SHAMapNodeID := mkNodeID { mNodeID : Z; mDepth : nat }.

Definition root_id : SHAMapNodeID := mkNodeID 0 0.
Definition isRoot (id : SHAMapNodeID) : bool := (mDepth id =? 0)%nat.

Definition selectBranch (id : SHAMapNodeID) (hash : Z) : nat :=
  let branch := key_byte hash (mDepth id / 2) in
  Z.to_nat (if Nat.odd (mDepth id) then Z.land branch 15 else Z.shiftr branch 4).

Definition getChildNodeID (id : SHAMapNodeID) (m : nat) : SHAMapNodeID :=
  let bits := if Nat.odd (mDepth id) then Z.of_nat m else Z.shiftl (Z.of_nat m) 4 in
  mkNodeID (Z.lor (mNodeID id) (Z.shiftl bits (8 * (31 - Z.of_nat (mDepth id / 2))))) (mDepth id + 1).

(** ** Nodes *)

Abbreviation nptr := nat.

Inductive TNType := tnTRANSACTION_NM | tnTRANSACTION_MD | tnACCOUNT_STATE.

Record SHAMapItem := mkItem { it_key : Z; it_data : list Z }.

#[export] Instance TNType_eq_dec : EqDecision TNType.
Proof. solve_decision. Defined.

#[export] Instance SHAMapItem_eq_dec : EqDecision SHAMapItem.
Proof. solve_decision. Defined.

Record InnerNode := mkInner {
  in_hash : Z;
  in_seq : Z;
  in_hashes : list Z;
  in_children : list (option nptr);
  in_isBranch : Z
}.

Record TreeNode := mkLeaf { lf_hash : Z; lf_seq : Z; lf_type : TNType; lf_item : SHAMapItem }.

Inductive SNode := N_inner (n : InnerNode) | N_leaf (l : TreeNode).

Definition node_seq (n : SNode) : Z := match n with N_inner n => in_seq n | N_leaf l => lf_seq l end.
Definition getNodeHash (n : SNode) : Z := match n with N_inner n => in_hash n | N_leaf l => lf_hash l end.

Definition setSeq (s : Z) (n : SNode) : SNode :=
  match n with
  | N_inner n => N_inner (mkInner (in_hash n) s (in_hashes n) (in_children n) (in_isBranch n))
  | N_leaf l => N_leaf (mkLeaf (lf_hash l) s (lf_type l) (lf_item l))
  end.

(** A clone copies everything but the sequence number. *)
Definition clone (s : Z) (n : SNode) : SNode := setSeq s n.

Definition new_inner (s : Z) : InnerNode := mkInner 0 s (replicate 16 0) (replicate 16 None) 0.

Definition isEmptyBranch (n : InnerNode) (m : nat) : bool :=
  Z.land (in_isBranch n) (Z.shiftl 1 (Z.of_nat m)) =? 0.

Definition isEmpty (n : InnerNode) : bool := in_isBranch n =? 0.

Definition getBranchCount (n : InnerNode) : nat :=
  length (List.filter (fun i => negb (isEmptyBranch n i)) (seq 0 16)).

Definition getChild (n : InnerNode) (m : nat) : option nptr := mjoin (in_children n !! m).

Definition setChild (m : nat) (child : option nptr) (n : InnerNode) : InnerNode :=
  mkInner 0 (in_seq n) (<[m := 0]> (in_hashes n)) (<[m := child]> (in_children n))
    (match child with
     | Some _ => Z.lor (in_isBranch n) (Z.shiftl 1 (Z.of_nat m))
     | None => Z.land (in_isBranch n) (Z.lnot (Z.shiftl 1 (Z.of_nat m)))
     end).

Definition shareChild (m : nat) (child : nptr) (n : InnerNode) : InnerNode :=
  mkInner (in_hash n) (in_seq n) (in_hashes n) (<[m := Some child]> (in_children n)) (in_isBranch n).

(** ** Hashes *)

Definition hash_prefix (a b c : Z) : list Z := [a; b; c; 0].
Definition prefix_transactionID := hash_prefix 84 88 78.
Definition prefix_txNode := hash_prefix 83 78 68.
Definition prefix_leafNode := hash_prefix 77 76 78.
Definition prefix_innerNode := hash_prefix 77 73 78.

Section Hash.
Context (sha512Half : list Z -> Z).

(** What [SHAMapTreeNode::updateHash] computes. *)
Definition leaf_hash (type : TNType) (item : SHAMapItem) : Z :=
  match type with
  | tnTRANSACTION_NM => sha512Half (prefix_transactionID ++ it_data item)
  | tnACCOUNT_STATE => sha512Half (prefix_leafNode ++ it_data item ++ big_endian 32 (it_key item))
  | tnTRANSACTION_MD => sha512Half (prefix_txNode ++ it_data item ++ big_endian 32 (it_key item))
  end.

(** The new leaf, and whether the hash changed. *)
Definition leaf_updateHash (l : TreeNode) : bool * TreeNode :=
  let nh := leaf_hash (lf_type l) (lf_item l) in
  if nh =? lf_hash l then (false, l) else (true, mkLeaf nh (lf_seq l) (lf_type l) (lf_item l)).

Definition new_leaf (item : SHAMapItem) (type : TNType) (s : Z) : TreeNode :=
  snd (leaf_updateHash (mkLeaf 0 s type item)).

Definition setItem (item : SHAMapItem) (type : TNType) (l : TreeNode) : bool * TreeNode :=
  leaf_updateHash (mkLeaf (lf_hash l) (lf_seq l) type item).

Definition inner_hash (hashes : list Z) : Z :=
  sha512Half (prefix_innerNode ++ concat (big_endian 32 <$> hashes)).

Definition inner_updateHash (n : InnerNode) : bool * InnerNode :=
  let nh := if in_isBranch n =? 0 then 0 else inner_hash (in_hashes n) in
  if nh =? in_hash n then (false, n)
  else (true, mkInner nh (in_seq n) (in_hashes n) (in_children n) (in_isBranch n)).

(** Takes the hashes of the children that are linked. *)
Definition child_hashes (h : gmap nptr SNode) (n : InnerNode) : list Z :=
  zip_with (fun (c : option nptr) old =>
    match c with
    | Some p => match h !! p with Some child => getNodeHash child | None => old end
    | None => old
    end) (in_children n) (in_hashes n).

Definition updateHashDeep (h : gmap nptr SNode) (n : InnerNode) : InnerNode :=
  snd (inner_updateHash (mkInner (in_hash n) (in_seq n) (child_hashes h n) (in_children n) (in_isBranch n))).
End Hash.
