(* ===== verification/SHAMapWire.v ===== *)
(** * SHAMap nodes as bytes

    Models [addRaw] of the node classes and [SHAMapAbstractNode::make]
    (shamap/impl/SHAMapTreeNode.cpp): the form that hashes to the node's hash, the
    compressed form used between peers, and the parsing of both, for leaves and for
    inner nodes of versions 1 and 2. A node read from bytes has no children linked. *)

From S2P Require Import Prelude Serializer SHAMapNode.

Inductive SHANodeFormat := snfPREFIX | snfWIRE | snfHASH.

(** The classes of nodes; a version 2 inner node also has [common_] and [depth_]. *)
Inductive RawNode :=
| R_inner (n : InnerNode)
| R_innerV2 (n : InnerNode) (common : Z) (depth : Z)
| R_leaf (l : TreeNode).

Definition prefix_innerNodeV2 := hash_prefix 73 78 82.

(** ** Writing *)

Definition add_hashes (hashes : list Z) : list Z := concat (map (big_endian 32) hashes).

(** The branches that are not empty, each hash followed by its position. *)
Definition add_compressed (n : InnerNode) : list Z :=
  concat (imap (fun i h => if isEmptyBranch n i then [] else big_endian 32 h ++ [u8 (Z.of_nat i)]) (in_hashes n)).

Definition inner_addRaw (format : SHANodeFormat) (n : InnerNode) : list Z :=
  match format with
  | snfHASH => big_endian 32 (in_hash n)
  | snfPREFIX => prefix_innerNode ++ add_hashes (in_hashes n)
  | snfWIRE => if (getBranchCount n <? 12)%nat then add_compressed n ++ [3] else add_hashes (in_hashes n) ++ [2]
  end.

(** Byte [i] of [common_], for the first [(depth + 1) / 2] ones. *)
Definition common_bytes (common depth : Z) : list Z := take (Z.to_nat ((depth + 1) / 2)) (big_endian 32 common).

Definition innerV2_addRaw (format : SHANodeFormat) (n : InnerNode) (common depth : Z) : list Z :=
  match format with
  | snfPREFIX => prefix_innerNodeV2 ++ add_hashes (in_hashes n) ++ [u8 depth] ++ common_bytes common depth
  | snfHASH => inner_addRaw snfHASH n
  | snfWIRE => let data := inner_addRaw snfWIRE n in take (length data - 1) data ++ [u8 (List.last data 0 + 3)]
  end.

Definition leaf_addRaw (format : SHANodeFormat) (l : TreeNode) : list Z :=
  let item := lf_item l in
  match format, lf_type l with
  | snfHASH, _ => big_endian 32 (lf_hash l)
  | snfPREFIX, tnACCOUNT_STATE => prefix_leafNode ++ it_data item ++ big_endian 32 (it_key item)
  | snfWIRE, tnACCOUNT_STATE => it_data item ++ big_endian 32 (it_key item) ++ [1]
  | snfPREFIX, tnTRANSACTION_NM => prefix_transactionID ++ it_data item
  | snfWIRE, tnTRANSACTION_NM => it_data item ++ [0]
  | snfPREFIX, tnTRANSACTION_MD => prefix_txNode ++ it_data item ++ big_endian 32 (it_key item)
  | snfWIRE, tnTRANSACTION_MD => it_data item ++ big_endian 32 (it_key item) ++ [4]
  end.

Definition node_addRaw (format : SHANodeFormat) (node : RawNode) : list Z :=
  match node with
  | R_inner n => inner_addRaw format n
  | R_innerV2 n common depth => innerV2_addRaw format n common depth
  | R_leaf l => leaf_addRaw format l
  end.

(** The bytes of [common_] are written through an iterator that is not checked against
    its 32 bytes: what follows has no defined behaviour, and is this value here. *)
Definition common_overrun {A} : res A := Throw (logic_error "write past common_").

Section Make.
Context (sha512Half : list Z -> Z).

(** [SHAMapInnerNodeV2::updateHash]. *)
Definition innerV2_updateHash (n : InnerNode) (common depth : Z) : InnerNode :=
  let nh := if in_isBranch n =? 0 then 0 else sha512Half (innerV2_addRaw snfPREFIX n common depth) in
  mkInner nh (in_seq n) (in_hashes n) (in_children n) (in_isBranch n).

(** ** Reading *)

Definition set_hash (n : InnerNode) (h : Z) : InnerNode := mkInner h (in_seq n) (in_hashes n) (in_children n) (in_isBranch n).

(** [mHashes[i] = h; if (h.isNonZero ()) mIsBranch |= (1 << i);] *)
Definition put_hash (i : nat) (h : Z) (n : InnerNode) : InnerNode :=
  mkInner (in_hash n) (in_seq n) (<[i := h]> (in_hashes n)) (in_children n)
    (if h =? 0 then in_isBranch n else Z.lor (in_isBranch n) (Z.shiftl 1 (Z.of_nat i))).

(** [get256] leaves its argument alone when it fails. *)
Definition full_inner (s : list Z) (n : InnerNode) : InnerNode :=
  foldl (fun n i => put_hash i (default (in_hashes n !!! i) (get256_at s (i * 32))) n) n (seq 0 16).

Definition compressed_step (s : list Z) (i : nat) (n : InnerNode) : res InnerNode :=
  match get8_at s (32 + i * 33) with
  | None => Throw (runtime_error "short CI node")
  | Some pos =>
      if (pos <? 0) || (16 <=? pos) then Throw (runtime_error "invalid CI node")
      else Ok (put_hash (Z.to_nat pos) (default (in_hashes n !!! Z.to_nat pos) (get256_at s (i * 33))) n)
  end.

Definition compressed_inner (s : list Z) (n : InnerNode) : res InnerNode := for_each (compressed_step s) (seq 0 (length s / 33)) n.

(** The hash given with the node, or the one computed. *)
Definition finish_inner (hash : option Z) (n : InnerNode) : InnerNode :=
  match hash with Some h => set_hash n h | None => snd (inner_updateHash sha512Half n) end.

Definition finish_innerV2 (hash : option Z) (n : InnerNode) (common depth : Z) : InnerNode :=
  match hash with Some h => set_hash n h | None => innerV2_updateHash n common depth end.

Definition make_leaf (hash : option Z) (item : SHAMapItem) (type : TNType) (seq : Z) : RawNode :=
  R_leaf (match hash with Some h => mkLeaf h seq type item | None => new_leaf sha512Half item type seq end).

(** The key after the data; zero is no key. *)
Definition keyed_leaf (short invalid : string) (check_zero : bool) (s : list Z) (hash : option Z) (type : TNType) (seq : Z) : res RawNode :=
  if (length s <? 32)%nat then Throw (runtime_error short) else
  let u := default 0 (get256_at s (length s - 32)) in
  let s := default s (chop 32 s) in
  if check_zero && (u =? 0) then Throw (runtime_error invalid)
  else Ok (make_leaf hash (mkItem u s) type seq).

Definition make_typed (type : Z) (s : list Z) (seq : Z) (hash : option Z) (id : SHAMapNodeID) : res (option RawNode) :=
  let common := mNodeID id in
  let depth := Z.of_nat (mDepth id) in
  if (type <? 0) || (6 <? type) then Ok None
  else if type =? 0 then Ok (Some (make_leaf hash (mkItem (sha512Half (prefix_transactionID ++ s)) s) tnTRANSACTION_NM seq))
  else if type =? 1 then Some <$> keyed_leaf "short AS node" "invalid AS node" true s hash tnACCOUNT_STATE seq
  else if type =? 2 then
    if negb (length s =? 512)%nat then Throw (runtime_error "invalid FI node")
    else Ok (Some (R_inner (finish_inner hash (full_inner s (new_inner seq)))))
  else if type =? 3 then n ← compressed_inner s (new_inner seq); Ok (Some (R_inner (finish_inner hash n)))
  else if type =? 4 then Some <$> keyed_leaf "short TM node" "invalid TM node" true s hash tnTRANSACTION_MD seq
  else if type =? 5 then
    if negb (length s =? 512)%nat then Throw (runtime_error "invalid FI node")
    else Ok (Some (R_innerV2 (finish_innerV2 hash (full_inner s (new_inner seq)) common depth) common depth))
  else n ← compressed_inner s (new_inner seq); Ok (Some (R_innerV2 (finish_innerV2 hash n common depth) common depth)).

(** The type of a node is its last byte. *)
Definition make_wire (rawNode : list Z) (seq : Z) (hash : option Z) (id : SHAMapNodeID) : res (option RawNode) :=
  match rawNode with
  | [] => Ok None
  | _ => make_typed (List.last rawNode 0) (take (length rawNode - 1) rawNode) seq hash id
  end.

Definition make_inner_prefix (isV2 : bool) (s : list Z) (seq : Z) (hash : option Z) : res RawNode :=
  let len := length s in
  if (len <? 512)%nat || (negb isV2 && negb (len =? 512)%nat) || (isV2 && (len =? 512)%nat) then Throw (runtime_error "invalid PIN node") else
  let n := full_inner s (new_inner seq) in
  if isV2 then
    let depth := default 64 (get8_at s 512) in
    let k := (depth + 1) / 2 in
    if negb (Z.of_nat len =? 512 + 1 + k) then Throw (runtime_error "invalid PIN node") else
    let bytes := map (fun i => default 0 (get8_at s (512 + 1 + i))) (List.seq 0 (Z.to_nat k)) in
    if 32 <? k then common_overrun else
    let common := from_bytes (bytes ++ replicate (32 - length bytes) 0) in
    Ok (R_innerV2 (finish_innerV2 hash n common depth) common depth)
  else Ok (R_inner (finish_inner hash n)).

Definition make_prefix (rawNode : list Z) (seq : Z) (hash : option Z) : res RawNode :=
  if (length rawNode <? 4)%nat then Throw (runtime_error "invalid P node") else
  let prefix := take 4 rawNode in
  let s := drop 4 rawNode in
  if bool_decide (prefix = prefix_transactionID) then Ok (make_leaf hash (mkItem (sha512Half rawNode) s) tnTRANSACTION_NM seq)
  else if bool_decide (prefix = prefix_leafNode) then keyed_leaf "short PLN node" "invalid PLN node" true s hash tnACCOUNT_STATE seq
  else if bool_decide (prefix = prefix_innerNode) then make_inner_prefix false s seq hash
  else if bool_decide (prefix = prefix_innerNodeV2) then make_inner_prefix true s seq hash
  else if bool_decide (prefix = prefix_txNode) then keyed_leaf "short TXN node" "" false s hash tnTRANSACTION_MD seq
  else Throw (runtime_error "invalid node prefix").

Definition make (rawNode : list Z) (seq : Z) (format : SHANodeFormat) (hash : option Z) (id : SHAMapNodeID) : res (option RawNode) :=
  match format with
  | snfWIRE => make_wire rawNode seq hash id
  | snfPREFIX => Some <$> make_prefix rawNode seq hash
  | snfHASH => Throw (runtime_error "Unknown format")
  end.
End Make.

(** ** Reading back *)

Lemma length_chunks {A} (f : A -> list Z) m l : (forall a, length (f a) = m) -> length (concat (map f l)) = (length l * m)%nat.
Proof. intros Hf. induction l as [|x l IH]; cbn; [done|]. rewrite length_app, IH, Hf. lia. Qed.

Lemma chunk_at {A} (f : A -> list Z) m l j a : (forall a, length (f a) = m) -> l !! j = Some a ->
  exists pre post, concat (map f l) = pre ++ f a ++ post /\ length pre = (j * m)%nat.
Proof.
  intros Hf Hj. apply take_drop_middle in Hj as E. exists (concat (map f (take j l))), (concat (map f (drop (S j) l))). split.
  - rewrite <- E at 1. by rewrite map_app, concat_app.
  - apply lookup_lt_Some in Hj.
    rewrite (length_chunks f m), length_take by done. f_equal. lia.
Qed.

Lemma getRaw_at_mid pre b post n m : length pre = n -> length b = m -> getRaw_at (pre ++ b ++ post) n m = Some b.
Proof.
  intros <- <-. unfold getRaw_at. rewrite !length_app. rewrite drop_app_length, take_app_length.
  rewrite decide_False by lia. done.
Qed.

Definition is_hash (h : Z) : Prop := 0 <= h < 2 ^ 256.

Lemma from_bytes_hash h : is_hash h -> from_bytes (big_endian 32 h) = h.
Proof. intros H. rewrite from_bytes_be. apply Z.mod_small. by change (256 ^ Z.of_nat 32) with (2 ^ 256). Qed.

Lemma get256_at_mid pre h post n : is_hash h -> length pre = n -> get256_at (pre ++ big_endian 32 h ++ post) n = Some h.
Proof.
  intros Hh Hn. unfold get256_at. rewrite (getRaw_at_mid _ _ _ n 32) by (done || apply length_big_endian).
  cbn [option_map]. by rewrite from_bytes_hash.
Qed.

(** What the 16 hashes of an inner node say of its branches. *)
Definition branch_mask (hs : list Z) (k : nat) : Z :=
  foldl (fun m i => if hs !!! i =? 0 then m else Z.lor m (Z.shiftl 1 (Z.of_nat i))) 0 (seq 0 k).

Lemma branch_mask_S hs k :
  branch_mask hs (S k) = if hs !!! k =? 0 then branch_mask hs k else Z.lor (branch_mask hs k) (Z.shiftl 1 (Z.of_nat k)).
Proof. unfold branch_mask. by rewrite seq_S, foldl_app. Qed.

Lemma branch_mask_bit hs k j :
  Z.testbit (branch_mask hs k) (Z.of_nat j) = (j <? k)%nat && negb (hs !!! j =? 0).
Proof.
  induction k as [|k IH]; [by rewrite Z.testbit_0_l|]. rewrite branch_mask_S.
  assert (E : (j <? S k)%nat = (j <? k)%nat || (j =? k)%nat)
    by (apply eq_true_iff_eq; rewrite orb_true_iff, !Nat.ltb_lt, Nat.eqb_eq; lia).
  rewrite E.
  destruct (hs !!! k =? 0) eqn:H0.
  - rewrite IH. destruct (Nat.eqb_spec j k) as [-> |]; [rewrite H0; by destruct (k <? k)%nat|by rewrite orb_false_r].
  - rewrite Z.lor_spec, IH. destruct (Nat.eqb_spec j k) as [-> |].
    + rewrite Z.shiftl_spec, Z.sub_diag by lia. rewrite H0. cbn. by rewrite !orb_true_r.
    + replace (Z.testbit (Z.shiftl 1 (Z.of_nat k)) (Z.of_nat j)) with false; [by rewrite !orb_false_r|].
      rewrite Z.shiftl_spec by lia. destruct (Z.ltb_spec (Z.of_nat j - Z.of_nat k) 0); [by rewrite Z.testbit_neg_r|].
      symmetry. change 1 with (2 ^ 0). apply Z.pow2_bits_false. lia.
Qed.

(** A node after its first [k] hashes were set. *)
Definition filled (s : Z) (hs : list Z) (k : nat) : InnerNode :=
  mkInner 0 s (take k hs ++ replicate (16 - k) 0) (replicate 16 None) (branch_mask hs k).

Lemma put_filled s hs k : length hs = 16%nat -> (k < 16)%nat -> put_hash k (hs !!! k) (filled s hs k) = filled s hs (S k).
Proof.
  intros Hl Hk. unfold put_hash, filled. cbn [in_hash in_seq in_hashes in_children in_isBranch]. rewrite branch_mask_S. f_equal.
  assert (Hh : hs !! k = Some (hs !!! k)) by (apply list_lookup_lookup_total_lt; lia).
  rewrite (take_S_r _ _ _ Hh). replace (16 - k)%nat with (S (16 - S k)) by lia.
  rewrite insert_app_r_alt by (rewrite length_take; lia). rewrite length_take.
  replace (k - k `min` length hs)%nat with 0%nat by lia. cbn [replicate]. by rewrite <- app_assoc.
Qed.

Lemma filled_skip s hs k : length hs = 16%nat -> (k < 16)%nat -> hs !!! k = 0 -> filled s hs (S k) = filled s hs k.
Proof.
  intros Hl Hk H0. rewrite <- put_filled by done. rewrite H0. unfold put_hash, filled. cbn [in_hash in_seq in_hashes in_children in_isBranch Z.eqb]. f_equal.
  rewrite insert_app_r_alt by (rewrite length_take; lia). rewrite length_take.
  replace (k - k `min` length hs)%nat with 0%nat by lia. by replace (16 - k)%nat with (S (16 - S k)) by lia.
Qed.

Lemma fill_all s hs k (keep : nat -> bool) : length hs = 16%nat -> (k <= 16)%nat -> (forall i, (i < 16)%nat -> keep i = false -> hs !!! i = 0) ->
  foldl (fun n i => put_hash i (hs !!! i) n) (new_inner s) (List.filter keep (seq 0 k)) = filled s hs k.
Proof.
  intros Hl Hk Hz. induction k as [|k IH]; [done|].
  rewrite seq_S, List.filter_app, foldl_app, IH by lia. cbn [List.filter Nat.add]. destruct (keep k) eqn:Ek; cbn [foldl].
  - apply put_filled; lia.
  - symmetry. apply filled_skip; [lia..|]. apply Hz; [lia|done].
Qed.

(** The hashes of a node that is well formed: sixteen of them, the branch bits set for
    the ones that are not zero. *)
Record hashes_ok (n : InnerNode) : Prop := {
  ho_length : length (in_hashes n) = 16%nat;
  ho_hashes : Forall is_hash (in_hashes n);
  ho_mask : in_isBranch n = branch_mask (in_hashes n) 16
}.

Definition unlinked (s h : Z) (n : InnerNode) : InnerNode := mkInner h s (in_hashes n) (replicate 16 None) (in_isBranch n).

Lemma filled_unlinked s n : hashes_ok n -> filled s (in_hashes n) 16 = unlinked s 0 n.
Proof.
  intros Hok. unfold filled, unlinked. rewrite (ho_mask n Hok), take_ge by (rewrite (ho_length n Hok); lia). by rewrite app_nil_r.
Qed.

Lemma hash_at n i : hashes_ok n -> (i < 16)%nat -> in_hashes n !! i = Some (in_hashes n !!! i) /\ is_hash (in_hashes n !!! i).
Proof.
  intros Hok Hi. assert (H : in_hashes n !! i = Some (in_hashes n !!! i)) by (apply list_lookup_lookup_total_lt; rewrite (ho_length n Hok); lia).
  split; [done|]. exact (Forall_lookup_1 _ _ _ _ (ho_hashes n Hok) H).
Qed.

Lemma isEmptyBranch_hash n i : hashes_ok n -> (i < 16)%nat -> isEmptyBranch n i = (in_hashes n !!! i =? 0).
Proof.
  intros Hok Hi. pose proof (branch_mask_bit (in_hashes n) 16 i) as B. rewrite <- (ho_mask n Hok), (proj2 (Nat.ltb_lt _ _) Hi) in B.
  rewrite <- (negb_involutive (in_hashes n !!! i =? 0)). cbn [andb] in B. rewrite <- B. unfold isEmptyBranch.
  rewrite Z.shiftl_1_l. destruct (Z.testbit (in_isBranch n) (Z.of_nat i)) eqn:E; cbn.
  - apply Z.eqb_neq. intros H0. apply (f_equal (fun z => Z.testbit z (Z.of_nat i))) in H0.
    rewrite Z.land_spec, E, Z.pow2_bits_true, Z.testbit_0_l in H0 by lia. done.
  - apply Z.eqb_eq, Z.bits_inj_0. intros j. rewrite Z.land_spec, Z.pow2_bits_eqb by lia.
    destruct (Z.eqb_spec (Z.of_nat i) j) as [<-|]; [by rewrite E|apply andb_false_r].
Qed.

Lemma length_add_hashes hs : length (add_hashes hs) = (32 * length hs)%nat.
Proof. unfold add_hashes. rewrite (length_chunks _ 32) by apply length_big_endian. lia. Qed.

Lemma foldl_ext_in {A B} (f g : A -> B -> A) l a : (forall a b, In b l -> f a b = g a b) -> foldl f a l = foldl g a l.
Proof. revert a. induction l as [|b l IH]; intros a H; [done|]. cbn. rewrite H by by left. apply IH. intros. apply H. by right. Qed.

Lemma full_inner_hashes s n rest : hashes_ok n -> full_inner (add_hashes (in_hashes n) ++ rest) (new_inner s) = unlinked s 0 n.
Proof.
  intros Hok. unfold full_inner. rewrite <- filled_unlinked by done.
  rewrite <- (fill_all s (in_hashes n) 16 (fun _ => true)) by (done || apply Hok || lia).
  replace (List.filter (fun _ => true) (seq 0 16)) with (seq 0 16) by done.
  apply foldl_ext_in. intros n' i Hi%List.in_seq. f_equal. destruct (hash_at n i Hok ltac:(lia)) as [Hh Hr].
  destruct (chunk_at (big_endian 32) 32 (in_hashes n) i _ (length_big_endian 32) Hh) as (pre & post & E & Hp).
  unfold add_hashes. rewrite E, <- !app_assoc. by rewrite get256_at_mid.
Qed.

(** One entry of the compressed form. *)
Definition entry (n : InnerNode) (i : nat) : list Z := big_endian 32 (in_hashes n !!! i) ++ [u8 (Z.of_nat i)].
Definition entries (n : InnerNode) : list nat := List.filter (fun i => negb (isEmptyBranch n i)) (seq 0 16).

Lemma concat_imap_filter {A} (keep : nat -> bool) (f : nat -> A -> list Z) (g : nat -> list Z) hs o :
  (forall i h, hs !! i = Some h -> f (o + i)%nat h = g (o + i)%nat) ->
  concat (imap (fun i h => if keep (o + i)%nat then [] else f (o + i)%nat h) hs) =
  concat (map g (List.filter (fun i => negb (keep i)) (seq o (length hs)))).
Proof.
  revert o. induction hs as [|h hs IH]; intros o Hf; [done|].
  cbn [imap concat length seq List.filter]. rewrite (Hf 0%nat h eq_refl), Nat.add_0_r.
  transitivity ((if keep o then [] else g o) ++ concat (map g (List.filter (fun i => negb (keep i)) (seq (S o) (length hs))))); [|by destruct (keep o)].
  f_equal. rewrite <- IH.
  - f_equal. apply imap_ext. intros i x _. cbn. by rewrite <- plus_n_Sm.
  - intros i x Hx. specialize (Hf (S i) x Hx). by rewrite <- plus_n_Sm in Hf.
Qed.

Lemma add_compressed_entries n : length (in_hashes n) = 16%nat -> add_compressed n = concat (map (entry n) (entries n)).
Proof.
  intros Hl. unfold add_compressed, entries. replace (seq 0 16) with (seq 0 (length (in_hashes n))) by by rewrite Hl.
  apply (concat_imap_filter (isEmptyBranch n) (fun i h => big_endian 32 h ++ [u8 (Z.of_nat i)]) (entry n) (in_hashes n) 0).
  intros i h Hi. unfold entry. cbn. by rewrite (list_lookup_total_correct _ _ _ Hi).
Qed.

Lemma for_each_foldl {A T} (f : nat -> T -> res T) (g : T -> A -> T) (l : list A) (t : T) o :
  (forall j a t, l !! j = Some a -> f (o + j)%nat t = Ok (g t a)) -> for_each f (seq o (length l)) t = Ok (foldl g t l).
Proof.
  revert o t. induction l as [|a l IH]; intros o t H; [done|]. cbn [length seq for_each foldl].
  pose proof (H 0%nat a t eq_refl) as H0. rewrite Nat.add_0_r in H0. rewrite H0. cbn. apply IH.
  intros j b t' Hj. specialize (H (S j) b t' Hj). by rewrite <- plus_n_Sm in H.
Qed.

Lemma entries_lt n i : In i (entries n) -> (i < 16)%nat.
Proof. unfold entries. rewrite List.filter_In, List.in_seq. lia. Qed.

Lemma compressed_inner_entries s n : hashes_ok n -> compressed_inner (add_compressed n) (new_inner s) = Ok (unlinked s 0 n).
Proof.
  intros Hok. rewrite add_compressed_entries by apply Hok. unfold compressed_inner.
  assert (L : forall i, length (entry n i) = 33%nat) by (intros i; unfold entry; by rewrite length_app, length_big_endian).
  rewrite (length_chunks _ 33), Nat.div_mul by done.
  rewrite (for_each_foldl _ (fun n' i => put_hash i (in_hashes n !!! i) n')).
  - f_equal. unfold entries. rewrite fill_all, filled_unlinked; [done|done|apply Hok|lia|].
    intros i Hi He%negb_false_iff. rewrite isEmptyBranch_hash in He by done. lia.
  - intros j i n' Hj. change (0 + j)%nat with j. unfold compressed_step.
    destruct (chunk_at _ 33 _ _ _ L Hj) as (pre & post & E & Hp).
    assert (Hi : (i < 16)%nat) by (apply (entries_lt n), list_elem_of_In; by eapply list_elem_of_lookup_2).
    rewrite E. unfold entry. rewrite <- !app_assoc. unfold get8_at.
    rewrite app_assoc, lookup_app_r, length_app, length_big_endian, Hp by (rewrite length_app, length_big_endian; lia).
    replace (32 + j * 33 - (j * 33 + 32))%nat with 0%nat by lia. cbn [lookup list_lookup app].
    rewrite u8_byte by (unfold is_byte; lia). rewrite (proj2 (Z.ltb_ge _ _)), (proj2 (Z.leb_gt _ _)) by lia. cbn [orb].
    rewrite <- app_assoc, get256_at_mid, Nat2Z.id; [done| |done]. by apply hash_at.
Qed.

(** ** Round trips *)

(** A node as it is before it is sent: what its class guarantees of its fields. *)
Inductive node_ok (sha512Half : list Z -> Z) : RawNode -> Prop :=
| inner_node_ok n : hashes_ok n -> in_hash n = in_hash (snd (inner_updateHash sha512Half n)) -> node_ok sha512Half (R_inner n)
| innerV2_node_ok n common depth : hashes_ok n -> 0 <= depth <= 64 -> is_hash common -> common mod 16 ^ (64 - depth) = 0 ->
    in_hash n = in_hash (innerV2_updateHash sha512Half n common depth) -> node_ok sha512Half (R_innerV2 n common depth)
| leaf_node_ok l : is_hash (it_key (lf_item l)) -> it_key (lf_item l) <> 0 ->
    (lf_type l = tnTRANSACTION_NM -> it_key (lf_item l) = sha512Half (prefix_transactionID ++ it_data (lf_item l))) ->
    lf_hash l = leaf_hash sha512Half (lf_type l) (lf_item l) -> node_ok sha512Half (R_leaf l).

Definition node_hash (node : RawNode) : Z :=
  match node with R_inner n | R_innerV2 n _ _ => in_hash n | R_leaf l => lf_hash l end.

(** The node as the receiver has it: its own sequence number, no child linked. *)
Definition received (s : Z) (node : RawNode) : RawNode :=
  match node with
  | R_inner n => R_inner (unlinked s (in_hash n) n)
  | R_innerV2 n common depth => R_innerV2 (unlinked s (in_hash n) n) common depth
  | R_leaf l => R_leaf (mkLeaf (lf_hash l) s (lf_type l) (lf_item l))
  end.

(** The receiver knows where a version 2 node it asked for is. *)
Definition placed (id : SHAMapNodeID) (node : RawNode) : Prop :=
  match node with R_innerV2 _ common depth => common = mNodeID id /\ depth = Z.of_nat (mDepth id) | _ => True end.

Lemma make_wire_snoc sha512Half body type seq hash id :
  make_wire sha512Half (body ++ [type]) seq hash id = make_typed sha512Half type body seq hash id.
Proof.
  unfold make_wire. destruct (body ++ [type]) eqn:E; [by apply app_nil in E as [_ [=]]|]. rewrite <- E.
  rewrite List.last_last, length_app, Nat.add_sub, take_app_length. done.
Qed.

Section Roundtrip.
Context (sha512Half : list Z -> Z) (seq : Z) (hash : option Z).

Lemma make_leaf_received l : hash = None \/ hash = Some (lf_hash l) -> lf_hash l = leaf_hash sha512Half (lf_type l) (lf_item l) ->
  make_leaf sha512Half hash (lf_item l) (lf_type l) seq = received seq (R_leaf l).
Proof.
  intros [-> | ->] Hh; [|done]. unfold make_leaf, new_leaf, leaf_updateHash. cbn [lf_type lf_item lf_hash lf_seq received]. rewrite <- Hh.
  by destruct (Z.eqb_spec (lf_hash l) 0) as [-> |].
Qed.

Lemma keyed_leaf_received short invalid check_zero l :
  hash = None \/ hash = Some (lf_hash l) -> node_ok sha512Half (R_leaf l) ->
  keyed_leaf sha512Half short invalid check_zero (it_data (lf_item l) ++ big_endian 32 (it_key (lf_item l))) hash (lf_type l) seq =
  Ok (received seq (R_leaf l)).
Proof.
  intros Hhash Hok. inversion_clear Hok as [| |? Hk Hnz Hnm Hh]. unfold keyed_leaf.
  rewrite length_app, length_big_endian, (proj2 (Nat.ltb_ge _ _)), Nat.add_sub by lia.
  rewrite <- (app_nil_r (big_endian _ _)), get256_at_mid, app_nil_r by done. unfold chop.
  rewrite decide_False, length_app, length_big_endian, Nat.add_sub, take_app_length by (rewrite length_app, length_big_endian; lia).
  cbn [from_option id]. rewrite (proj2 (Z.eqb_neq _ _) Hnz), andb_false_r. f_equal. rewrite <- make_leaf_received by done. by destruct l as [? ? ? []].
Qed.

Lemma inner_updateHash_set n :
  snd (inner_updateHash sha512Half n) = set_hash n (if in_isBranch n =? 0 then 0 else inner_hash sha512Half (in_hashes n)).
Proof. unfold inner_updateHash, set_hash. case_match eqn:E; cbn [snd]; [|done]. apply Z.eqb_eq in E. rewrite E. by destruct n. Qed.

Lemma finish_inner_received n : hash = None \/ hash = Some (in_hash n) -> node_ok sha512Half (R_inner n) ->
  R_inner (finish_inner sha512Half hash (unlinked seq 0 n)) = received seq (R_inner n).
Proof.
  intros [-> | ->] Hok; [|done]. inversion_clear Hok as [? _ Hh| |]. cbn [received finish_inner]. rewrite Hh. f_equal.
  by rewrite !inner_updateHash_set.
Qed.

Lemma finish_innerV2_received n common depth : hash = None \/ hash = Some (in_hash n) -> node_ok sha512Half (R_innerV2 n common depth) ->
  R_innerV2 (finish_innerV2 sha512Half hash (unlinked seq 0 n) common depth) common depth = received seq (R_innerV2 n common depth).
Proof.
  intros [-> | ->] Hok; [|done]. inversion_clear Hok as [|? ? ? _ _ _ _ Hh|]. cbn [received finish_innerV2]. by rewrite Hh.
Qed.
End Roundtrip.

Lemma from_bytes_app a b : from_bytes (a ++ b) = from_bytes a * 256 ^ Z.of_nat (length b) + from_bytes b.
Proof.
  induction b as [|x b IH] using rev_ind; [rewrite app_nil_r; cbn; lia|].
  rewrite app_assoc, !from_bytes_snoc, IH, length_app, Nat2Z.inj_add, Z.pow_add_r by lia. change (256 ^ Z.of_nat (length [x])) with 256. ring.
Qed.

Lemma from_bytes_zeros n : from_bytes (replicate n 0) = 0.
Proof. induction n as [|n IH]; [done|]. cbn [replicate]. rewrite from_bytes_cons, IH. lia. Qed.

(** The bytes of [common_] past the depth are zero, so the ones written say all of it. *)
Lemma common_from_bytes common depth : is_hash common -> 0 <= depth <= 64 -> common mod 16 ^ (64 - depth) = 0 ->
  let bytes := common_bytes common depth in
  length bytes = Z.to_nat ((depth + 1) / 2) /\ from_bytes (bytes ++ replicate (32 - length bytes) 0) = common.
Proof.
  intros Hc Hd H0 bytes. pose proof (Z.div_mod (depth + 1) 2 ltac:(done)) as Hdm. pose proof (Z.mod_pos_bound (depth + 1) 2 ltac:(done)) as Hb.
  remember (Z.to_nat ((depth + 1) / 2)) as k eqn:Ek. assert (Hk : (k <= 32)%nat) by lia.
  assert (Hlen : length bytes = k) by (unfold bytes, common_bytes; rewrite <- Ek, length_take, length_big_endian; lia).
  split; [done|]. rewrite Hlen, from_bytes_app, from_bytes_zeros, length_replicate, Z.add_0_r.
  pose proof (from_bytes_hash common Hc) as E. rewrite <- (take_drop k (big_endian 32 common)), from_bytes_app, length_drop, length_big_endian in E.
  pose proof (from_bytes_range _ (Forall_drop _ k _ (big_endian_bytes 32 common))) as R. rewrite length_drop, length_big_endian in R.
  unfold bytes, common_bytes. rewrite <- Ek. set (M := 256 ^ Z.of_nat (32 - k)) in *. set (A := from_bytes (take k _)) in *. set (B := from_bytes (drop k _)) in *.
  assert (HM : common mod M = 0).
  { apply Z.mod_divide; [unfold M; lia|]. apply Z.mod_divide in H0; [|lia]. etransitivity; [|exact H0].
    exists (16 ^ (64 - depth - 2 * Z.of_nat (32 - k))). unfold M. change 256 with (16 ^ 2). rewrite <- Z.pow_mul_r, <- Z.pow_add_r by lia.
    f_equal. lia. }
  rewrite <- E, Z.add_comm, Z.mod_add, Z.mod_small in HM by lia. lia.
Qed.

Section Formats.
Context (sha512Half : list Z -> Z) (seq : Z) (hash : option Z) (id : SHAMapNodeID).

Lemma wire_inner n : hashes_ok n -> exists body,
  (inner_addRaw snfWIRE n = body ++ [2] /\ length body = 512%nat /\ full_inner body (new_inner seq) = unlinked seq 0 n) \/
  (inner_addRaw snfWIRE n = body ++ [3] /\ compressed_inner body (new_inner seq) = Ok (unlinked seq 0 n)).
Proof.
  intros Hok. unfold inner_addRaw. destruct (getBranchCount n <? 12)%nat.
  - exists (add_compressed n). right. split; [done|]. by apply compressed_inner_entries.
  - exists (add_hashes (in_hashes n)). left. split; [done|]. split; [by rewrite length_add_hashes, (ho_length n Hok)|].
    by rewrite <- (app_nil_r (add_hashes _)), full_inner_hashes.
Qed.

Lemma wire_roundtrip node : node_ok sha512Half node -> hash = None \/ hash = Some (node_hash node) -> placed id node ->
  make sha512Half (node_addRaw snfWIRE node) seq snfWIRE hash id = Ok (Some (received seq node)).
Proof.
  intros Hok Hhash Hp. cbn [make]. destruct node as [n|n common depth|l]; cbn [node_addRaw].
  - assert (Hn : hashes_ok n) by by inversion Hok.
    destruct (wire_inner n Hn) as [body [(-> & Hl & Hf)|(-> & Hf)]]; rewrite make_wire_snoc; unfold make_typed; cbn [Z.ltb Z.eqb Z.compare Pos.compare Pos.compare_cont Pos.eqb orb].
    + rewrite Hl, Hf. cbn [Nat.eqb negb]. by rewrite finish_inner_received.
    + rewrite Hf. cbn. do 2 f_equal. by apply finish_inner_received.
  - destruct Hp as [-> ->]. assert (Hn : hashes_ok n) by by inversion Hok.
    unfold innerV2_addRaw. destruct (wire_inner n Hn) as [body [(-> & Hl & Hf)|(-> & Hf)]];
      rewrite List.last_last, length_app, Nat.add_sub, take_app_length, make_wire_snoc; unfold make_typed;
      cbn [u8 Z.add Z.ltb Z.eqb Z.compare Pos.compare Pos.compare_cont Pos.eqb orb].
    + change (u8 _) with 5. rewrite Hl, Hf. cbn [Nat.eqb negb]. cbn -[finish_innerV2 received]. do 2 f_equal. by apply finish_innerV2_received.
    + change (u8 _) with 6. rewrite Hf. cbn -[finish_innerV2 received]. do 2 f_equal. by apply finish_innerV2_received.
  - unfold leaf_addRaw. inversion_clear Hok as [| |? Hk Hnz Hnm Hh]. pose proof (leaf_node_ok sha512Half l Hk Hnz Hnm Hh) as Hok.
    destruct (lf_type l) eqn:Et; rewrite ?app_assoc, make_wire_snoc; unfold make_typed; cbn [Z.ltb Z.eqb Z.compare Pos.compare Pos.compare_cont Pos.eqb orb].
    + do 2 f_equal. rewrite <- Hnm, <- Et by done. rewrite <- (make_leaf_received sha512Half seq hash) by (done || by rewrite Et). by destruct l as [? ? ? []].
    + rewrite <- Et, keyed_leaf_received; done.
    + rewrite <- Et, keyed_leaf_received; done.
Qed.

Lemma make_prefix_app prefix s : length prefix = 4%nat ->
  make_prefix sha512Half (prefix ++ s) seq hash =
  if bool_decide (prefix = prefix_transactionID) then Ok (make_leaf sha512Half hash (mkItem (sha512Half (prefix ++ s)) s) tnTRANSACTION_NM seq)
  else if bool_decide (prefix = prefix_leafNode) then keyed_leaf sha512Half "short PLN node" "invalid PLN node" true s hash tnACCOUNT_STATE seq
  else if bool_decide (prefix = prefix_innerNode) then make_inner_prefix sha512Half false s seq hash
  else if bool_decide (prefix = prefix_innerNodeV2) then make_inner_prefix sha512Half true s seq hash
  else if bool_decide (prefix = prefix_txNode) then keyed_leaf sha512Half "short TXN node" "" false s hash tnTRANSACTION_MD seq
  else Throw (runtime_error "invalid node prefix").
Proof.
  intros Hl. unfold make_prefix. rewrite length_app, Hl. cbn [Nat.ltb Nat.leb Nat.add].
  by rewrite take_app_length', drop_app_length' by done.
Qed.

Lemma prefix_inner n : hashes_ok n ->
  make_inner_prefix sha512Half false (add_hashes (in_hashes n)) seq hash = Ok (R_inner (finish_inner sha512Half hash (unlinked seq 0 n))).
Proof.
  intros Hok. unfold make_inner_prefix. rewrite length_add_hashes, (ho_length n Hok).
  replace ((32 * 16 <? 512)%nat || _ || _) with false by done. by rewrite <- (app_nil_r (add_hashes _)), full_inner_hashes.
Qed.

Lemma prefix_innerV2 n common depth : node_ok sha512Half (R_innerV2 n common depth) ->
  make_inner_prefix sha512Half true (add_hashes (in_hashes n) ++ [u8 depth] ++ common_bytes common depth) seq hash =
  Ok (R_innerV2 (finish_innerV2 sha512Half hash (unlinked seq 0 n) common depth) common depth).
Proof.
  intros Hok. inversion_clear Hok as [|? ? ? Hn Hd Hc H0 _|]. destruct (common_from_bytes common depth Hc Hd H0) as [Hlen Hfrom].
  unfold make_inner_prefix. set (s := add_hashes _ ++ _). assert (L : length (add_hashes (in_hashes n)) = 512%nat) by by rewrite length_add_hashes, (ho_length n Hn).
  assert (Ls : length s = (513 + Z.to_nat ((depth + 1) / 2))%nat) by (unfold s; rewrite !length_app, L, Hlen; cbn; lia).
  rewrite Ls, (proj2 (Nat.ltb_ge _ _)), (proj2 (Nat.eqb_neq _ _)) by lia. cbn [orb andb negb].
  assert (H512 : get8_at s 512 = Some depth).
  { unfold get8_at, s. rewrite lookup_app_r, L by lia. cbn. by rewrite u8_byte by (unfold is_byte; lia). }
  rewrite H512. cbn [from_option Datatypes.id].
  pose proof (Z.div_mod (depth + 1) 2 ltac:(done)) as Hdm. pose proof (Z.mod_pos_bound (depth + 1) 2 ltac:(done)) as Hb.
  rewrite (proj2 (Z.eqb_eq _ _)), (proj2 (Z.ltb_ge _ _)) by lia. cbn [negb].
  replace (map _ (List.seq 0 _)) with (common_bytes common depth).
  - rewrite Hfrom. unfold s. by rewrite full_inner_hashes.
  - rewrite <- Hlen. apply list_eq. intros i. rewrite list_lookup_fmap. destruct (decide (i < length (common_bytes common depth))%nat) as [Hi|Hi].
    + rewrite lookup_seq_lt by done. cbn [fmap option_fmap option_map]. unfold get8_at, s. rewrite app_assoc, lookup_app_r by (rewrite length_app, L; cbn; lia).
      rewrite length_app, L. replace (512 + 1 + (0 + i) - (512 + length [u8 depth]))%nat with i by (cbn; lia).
      by destruct (lookup_lt_is_Some_2 _ _ Hi) as [x ->].
    + rewrite lookup_seq_ge, lookup_ge_None_2 by lia. done.
Qed.

Lemma prefix_roundtrip node : node_ok sha512Half node -> hash = None \/ hash = Some (node_hash node) ->
  make sha512Half (node_addRaw snfPREFIX node) seq snfPREFIX hash id = Ok (Some (received seq node)).
Proof.
  intros Hok Hhash. cbn [make]. destruct node as [n|n common depth|l]; cbn [node_addRaw].
  - assert (Hn : hashes_ok n) by by inversion Hok. cbn [inner_addRaw]. rewrite make_prefix_app by done.
    rewrite !bool_decide_eq_false_2, bool_decide_eq_true_2 by done. rewrite prefix_inner by done. cbn. do 2 f_equal. by apply finish_inner_received.
  - cbn [innerV2_addRaw]. rewrite make_prefix_app by done. rewrite !bool_decide_eq_false_2, bool_decide_eq_true_2 by done.
    rewrite prefix_innerV2 by done. cbn -[received finish_innerV2]. do 2 f_equal. by apply finish_innerV2_received.
  - unfold leaf_addRaw. inversion_clear Hok as [| |? Hk Hnz Hnm Hh]. pose proof (leaf_node_ok sha512Half l Hk Hnz Hnm Hh) as Hok.
    destruct (lf_type l) eqn:Et; rewrite make_prefix_app by done; rewrite ?bool_decide_eq_false_2, bool_decide_eq_true_2 by done.
    + rewrite <- Hnm, <- Et by done. rewrite <- (make_leaf_received sha512Half seq hash) by (done || by rewrite Et). by destruct l as [? ? ? []].
    + rewrite <- Et, keyed_leaf_received; done.
    + rewrite <- Et, keyed_leaf_received; done.
Qed.

(** "Form that hashes to its official hash" (the comment on [snfPREFIX]). *)
Lemma hash_of_prefix node : node_ok sha512Half node -> node_hash node <> 0 -> node_hash node = sha512Half (node_addRaw snfPREFIX node).
Proof.
  intros Hok Hnz. destruct Hok as [n _ Hh|n common depth _ _ _ _ Hh|l _ _ _ Hh]; cbn [node_hash node_addRaw] in *; rewrite Hh in *.
  - rewrite inner_updateHash_set in *. cbn [set_hash in_hash] in *. by destruct (in_isBranch n =? 0).
  - cbn [innerV2_updateHash in_hash] in *. by destruct (in_isBranch n =? 0).
  - unfold leaf_hash, leaf_addRaw. by destruct (lf_type l).
Qed.
End Formats.

(** C36. A node of a SHAMap (a leaf of any type, an inner node of either version) written with [addRaw]
    and read with [make] is the node that was written, with no child linked: in the compressed form
    exchanged between peers, for a receiver that knows the place of a version 2 node, and in the form
    that is hashed and stored; whether the hash is passed along or computed again. The hash of the node
    is the digest of the second form. *)
Theorem node_roundtrip sha512Half node seq hash id : node_ok sha512Half node -> hash = None \/ hash = Some (node_hash node) ->
  (placed id node -> make sha512Half (node_addRaw snfWIRE node) seq snfWIRE hash id = Ok (Some (received seq node))) /\
  make sha512Half (node_addRaw snfPREFIX node) seq snfPREFIX hash id = Ok (Some (received seq node)) /\
  (node_hash node <> 0 -> node_hash node = sha512Half (node_addRaw snfPREFIX node)).
Proof. intros Hok Hhash. split_and!; [by apply wire_roundtrip|by apply prefix_roundtrip|by apply hash_of_prefix]. Qed.

(** A digest that tells little, enough for an example. *)
Definition sum_hash (bs : list Z) : Z := 1 + foldl Z.add 0 bs mod 251.
Definition demo_node : RawNode :=
  let n := mkInner 0 7 (replicate 3 0 ++ [5; 0; 9] ++ replicate 10 0) (replicate 16 None) 40 in
  R_innerV2 (innerV2_updateHash sum_hash n (9 * 16 ^ 63 + 4 * 16 ^ 62 + 16 ^ 61) 3) (9 * 16 ^ 63 + 4 * 16 ^ 62 + 16 ^ 61) 3.

Lemma node_roundtrip_witness :
  make sum_hash (node_addRaw snfPREFIX demo_node) 11 snfPREFIX None (mkNodeID 0 0) = Ok (Some (received 11 demo_node)).
Proof.
  apply (node_roundtrip sum_hash demo_node 11 None); [|by left]. unfold demo_node. apply innerV2_node_ok.
  - split; [done| |vm_compute; done]. apply Forall_forall. intros x Hx. apply list_elem_of_In in Hx. cbn in Hx. unfold is_hash. lia.
  - lia.
  - unfold is_hash. lia.
  - vm_compute. done.
  - vm_compute. done.
Defined.

(** Reading a version 2 node whose depth is more than 64 writes past the 32 bytes of [common_]. *)
Theorem make_overruns (sha512Half : list Z -> Z) depth rest seq hash id : 65 <= depth < 256 -> length rest = Z.to_nat ((depth + 1) / 2) ->
  make sha512Half (prefix_innerNodeV2 ++ replicate 512 0 ++ [depth] ++ rest) seq snfPREFIX hash id = common_overrun.
Proof.
  intros Hd Hr. cbn [make]. rewrite make_prefix_app by done. rewrite !bool_decide_eq_false_2, bool_decide_eq_true_2 by done.
  unfold make_inner_prefix. set (s := replicate 512 0 ++ _). assert (Ls : length s = (513 + Z.to_nat ((depth + 1) / 2))%nat).
  { unfold s. rewrite !length_app, length_replicate, Hr. cbn. lia. }
  rewrite Ls, (proj2 (Nat.ltb_ge _ _)), (proj2 (Nat.eqb_neq _ _)) by lia. cbn [orb andb negb].
  assert (H512 : get8_at s 512 = Some depth) by (unfold get8_at, s; rewrite lookup_app_r, length_replicate by (rewrite length_replicate; lia); done).
  rewrite H512. cbn [from_option Datatypes.id].
  pose proof (Z.div_mod (depth + 1) 2 ltac:(done)) as Hdm. pose proof (Z.mod_pos_bound (depth + 1) 2 ltac:(done)) as Hb.
  by rewrite (proj2 (Z.eqb_eq _ _)), (proj2 (Z.ltb_lt _ _)) by lia.
Qed.

(** The compressed form does not have one reading only: what follows the last whole entry is
    ignored, and a branch may be given twice. *)
Theorem compressed_not_unique (sha512Half : list Z -> Z) seq hash id :
  let e := big_endian 32 5 ++ [1] in
  let read bs := make sha512Half (bs ++ [3]) seq snfWIRE hash id in
  read (e ++ [42]) = read e /\ read (e ++ e) = read e.
Proof. cbn zeta. cbn [make]. rewrite !make_wire_snoc. split; vm_compute; done. Qed.
