(* ===== verification/SHAMap.v ===== *)
(** * SHAMaps sharing nodes copy-on-write

    Models the version 1 map of shamap/SHAMap.h and shamap/impl/SHAMap.cpp held in
    memory: the search for a key, insertion, update and deletion of items, hashing
    by [unshare], and snapshots. Several maps share nodes of one heap; a map writes
    in place to nodes carrying its own sequence number and clones any other node
    first. *)

From S2P Require Import Prelude SHAMapNode.

Abbreviation Heap := (gmap nptr SNode).

Inductive SHAMapState := St_Modifying | St_Immutable | St_Synching | St_Floating | St_Invalid.

#[export] Instance SHAMapState_eq_dec : EqDecision SHAMapState.
Proof. solve_decision. Defined.

Record SHAMap := mkMap { sm_seq : Z; sm_root : nptr; sm_state : SHAMapState }.

(** The heap and the map an operation runs on. *)
Record MapState := mkMS { ms_heap : Heap; ms_map : SHAMap }.

Definition set_root (p : nptr) (m : SHAMap) : SHAMap := mkMap (sm_seq m) p (sm_state m).

(** [Throw<SHAMapMissingNode>]. *)
Definition missing_node {A} : res A := Throw (runtime_error "SHAMapMissingNode").
Definition null_pointer {A} : res A := Throw (logic_error "null pointer").

Section Ops.
Context (sha512Half : list Z -> Z).
Implicit Types (h : Heap) (p : nptr) (st : MapState) (stack : list (nptr * SHAMapNodeID)).

(** ** Shared objects *)

Definition deref h p : res SNode := match h !! p with Some n => Ok n | None => null_pointer end.

Definition as_inner (n : SNode) : res InnerNode := match n with N_inner n => Ok n | N_leaf _ => null_pointer end.

Definition make_shared (n : SNode) st : nptr * MapState :=
  let p := fresh (dom (ms_heap st)) in (p, mkMS (<[p := n]> (ms_heap st)) (ms_map st)).

Definition store p (n : SNode) st : MapState := mkMS (<[p := n]> (ms_heap st)) (ms_map st).

(** Changes the inner node behind a pointer in place. *)
Definition modify_inner p (f : InnerNode -> InnerNode) st : res MapState :=
  node ← deref (ms_heap st) p; n ← as_inner node; Ok (store p (N_inner (f n)) st).

(** ** Search *)

(** The map is not backed by a database: a child is there or missing. *)
Definition descendThrow (n : InnerNode) (branch : nat) : res (option nptr) :=
  match getChild n branch with
  | Some c => Ok (Some c)
  | None => if isEmptyBranch n branch then Ok None else missing_node
  end.

(** A key has 64 nibbles, so a path has at most 65 nodes. *)
Definition max_path : nat := 65.

Fixpoint walk_loop (fuel : nat) h (id : Z) p (nodeID : SHAMapNodeID) stack : res (option nptr * list (nptr * SHAMapNodeID)) :=
  match fuel with
  | O => Throw (logic_error "depth")
  | S fuel =>
      node ← deref h p;
      match node with
      | N_leaf _ => Ok (Some p, (p, nodeID) :: stack)
      | N_inner inner =>
          let stack := (p, nodeID) :: stack in
          let branch := selectBranch nodeID id in
          if isEmptyBranch inner branch then Ok (None, stack) else
          child ← descendThrow inner branch;
          match child with
          | None => null_pointer
          | Some c => walk_loop fuel h id c (getChildNodeID nodeID branch) stack
          end
      end
  end.

Definition walkTowardsKey (id : Z) st : res (option nptr * list (nptr * SHAMapNodeID)) :=
  walk_loop max_path (ms_heap st) id (sm_root (ms_map st)) root_id [].

Definition as_leaf (n : SNode) : res TreeNode := match n with N_leaf l => Ok l | N_inner _ => null_pointer end.

Definition findKey (id : Z) st : res (option TreeNode) :=
  '(leaf, _) ← walkTowardsKey id st;
  match leaf with
  | None => Ok None
  | Some p =>
      node ← deref (ms_heap st) p; l ← as_leaf node;
      Ok (if it_key (lf_item l) =? id then Some l else None)
  end.

Definition peekItem (id : Z) st : res (option SHAMapItem) :=
  leaf ← findKey id st; Ok (option_map lf_item leaf).

Definition hasItem (id : Z) st : res bool :=
  leaf ← findKey id st; Ok (match leaf with Some _ => true | None => false end).

(** ** Changes *)

Definition unshareNode p (nodeID : SHAMapNodeID) st : res (nptr * MapState) :=
  node ← deref (ms_heap st) p;
  if node_seq node =? sm_seq (ms_map st) then Ok (p, st) else
  let (p', st) := make_shared (clone (sm_seq (ms_map st)) node) st in
  Ok (p', if isRoot nodeID then mkMS (ms_heap st) (set_root p' (ms_map st)) else st).

Fixpoint dirtyUp stack (target : Z) (child : nptr) st : res MapState :=
  match stack with
  | [] => Ok st
  | (node, nodeID) :: stack =>
      let branch := selectBranch nodeID target in
      '(node, st) ← unshareNode node nodeID st;
      st ← modify_inner node (setChild branch (Some child)) st;
      dirtyUp stack target node st
  end.

Definition leaf_type (isTransaction hasMeta : bool) : TNType :=
  if negb isTransaction then tnACCOUNT_STATE else if hasMeta then tnTRANSACTION_MD else tnTRANSACTION_NM.

(** Inner nodes are pushed while both keys take the same branch. *)
Fixpoint split_loop (fuel : nat) (tag other : Z) p (nodeID : SHAMapNodeID) stack st
    : res (nptr * SHAMapNodeID * list (nptr * SHAMapNodeID) * MapState) :=
  match fuel with
  | O => Throw (logic_error "depth")
  | S fuel =>
      if (selectBranch nodeID tag =? selectBranch nodeID other)%nat then
        let (p', st) := make_shared (N_inner (new_inner (sm_seq (ms_map st)))) st in
        split_loop fuel tag other p' (getChildNodeID nodeID (selectBranch nodeID tag)) ((p, nodeID) :: stack) st
      else Ok (p, nodeID, stack, st)
  end.

(** A new leaf, set as a child of the inner node. *)
Definition add_leaf (item : SHAMapItem) (type : TNType) p (nodeID : SHAMapNodeID) st : res MapState :=
  let (newNode, st) := make_shared (N_leaf (new_leaf sha512Half item type (sm_seq (ms_map st)))) st in
  modify_inner p (setChild (selectBranch nodeID (it_key item)) (Some newNode)) st.

Definition addGiveItem (item : SHAMapItem) (isTransaction hasMeta : bool) st : res (bool * MapState) :=
  let tag := it_key item in
  let type := leaf_type isTransaction hasMeta in
  '(_, stack) ← walkTowardsKey tag st;
  match stack with
  | [] => missing_node
  | (p, nodeID) :: stack =>
      node ← deref (ms_heap st) p;
      if match node with N_leaf l => it_key (lf_item l) =? tag | N_inner _ => false end then Ok (false, st) else
      '(p, st) ← unshareNode p nodeID st;
      node ← deref (ms_heap st) p;
      match node with
      | N_inner _ =>
          st ← add_leaf item type p nodeID st;
          st ← dirtyUp stack tag p st;
          Ok (true, st)
      | N_leaf leaf =>
          let otherItem := lf_item leaf in
          let (node, st) := make_shared (N_inner (new_inner (lf_seq leaf))) st in
          '(node, nodeID, stack, st) ← split_loop max_path tag (it_key otherItem) node nodeID stack st;
          st ← add_leaf item type node nodeID st;
          st ← add_leaf otherItem type node nodeID st;
          st ← dirtyUp stack tag node st;
          Ok (true, st)
      end
  end.

Definition updateGiveItem (item : SHAMapItem) (isTransaction hasMeta : bool) st : res (bool * MapState) :=
  let tag := it_key item in
  '(_, stack) ← walkTowardsKey tag st;
  match stack with
  | [] => missing_node
  | (p, nodeID) :: stack =>
      node ← deref (ms_heap st) p;
      match node with
      | N_inner _ => Ok (false, st)
      | N_leaf l =>
          if negb (it_key (lf_item l) =? tag) then Ok (false, st) else
          '(p, st) ← unshareNode p nodeID st;
          node ← deref (ms_heap st) p; l ← as_leaf node;
          let (changed, l) := setItem sha512Half item (leaf_type isTransaction hasMeta) l in
          let st := store p (N_leaf l) st in
          if changed then (st ← dirtyUp stack tag p st; Ok (true, st)) else Ok (true, st)
      end
  end.

(** The scan of [onlyBelow]: [None] when a second branch is found. *)
Fixpoint only_child (inner : InnerNode) (branches : list nat) (nextNode : option nptr) : res (option (option nptr)) :=
  match branches with
  | [] => Ok (Some nextNode)
  | i :: branches =>
      if isEmptyBranch inner i then only_child inner branches nextNode else
      match nextNode with
      | Some _ => Ok None
      | None => c ← descendThrow inner i; only_child inner branches c
      end
  end.

Fixpoint onlyBelow (fuel : nat) h p : res (option SHAMapItem) :=
  match fuel with
  | O => Throw (logic_error "depth")
  | S fuel =>
      node ← deref h p;
      match node with
      | N_leaf l => Ok (Some (lf_item l))
      | N_inner inner =>
          next ← only_child inner (seq 0 16) None;
          match next with
          | None | Some None => Ok None
          | Some (Some c) => onlyBelow fuel h c
          end
      end
  end.

Definition first_branch (n : InnerNode) : nat :=
  default 0%nat (head (List.filter (fun i => negb (isEmptyBranch n i)) (seq 0 16))).

Fixpoint del_loop stack (id : Z) (type : TNType) (prevNode : option nptr) st : res MapState :=
  match stack with
  | [] => Ok st
  | (p, nodeID) :: stack =>
      '(p, st) ← unshareNode p nodeID st;
      st ← modify_inner p (setChild (selectBranch nodeID id) prevNode) st;
      if isRoot nodeID then del_loop stack id type prevNode st else
      node ← deref (ms_heap st) p; n ← as_inner node;
      match getBranchCount n with
      | O => del_loop stack id type None st
      | 1%nat =>
          item ← onlyBelow max_path (ms_heap st) p;
          match item with
          | Some item =>
              st ← modify_inner p (setChild (first_branch n) None) st;
              let (q, st) := make_shared (N_leaf (new_leaf sha512Half item type (in_seq n))) st in
              del_loop stack id type (Some q) st
          | None => del_loop stack id type (Some p) st
          end
      | _ => del_loop stack id type (Some p) st
      end
  end.

Definition delItem (id : Z) st : res (bool * MapState) :=
  '(_, stack) ← walkTowardsKey id st;
  match stack with
  | [] => missing_node
  | (p, _) :: stack =>
      node ← deref (ms_heap st) p;
      match node with
      | N_inner _ => Ok (false, st)
      | N_leaf leaf =>
          if negb (it_key (lf_item leaf) =? id) then Ok (false, st) else
          st ← del_loop stack id (lf_type leaf) None st; Ok (true, st)
      end
  end.

(** ** Hashing *)

Definition preFlushNode p st : res (nptr * MapState) :=
  node ← deref (ms_heap st) p;
  if node_seq node =? sm_seq (ms_map st) then Ok (p, st)
  else Ok (make_shared (clone (sm_seq (ms_map st)) node) st).

Definition modify p (f : SNode -> SNode) st : res MapState :=
  node ← deref (ms_heap st) p; Ok (store p (f node) st).

(** One position of the loop of [walkSubTree] over an inner node; [rec] flushes an
    inner child. The second component counts the nodes flushed. *)
Definition flush_child (rec : nptr -> MapState -> res (MapState * Z)) p (pos : nat) (s : MapState * Z) : res (MapState * Z) :=
  let (st, flushed) := s in
  node ← deref (ms_heap st) p; n ← as_inner node;
  if isEmptyBranch n pos then Ok (st, flushed) else
  match getChild n pos with
  | None => Ok (st, flushed)
  | Some c =>
      child ← deref (ms_heap st) c;
      if node_seq child =? 0 then Ok (st, flushed) else
      '(c, st) ← preFlushNode c st;
      child ← deref (ms_heap st) c;
      match child with
      | N_inner _ =>
          '(st, k) ← rec c st;
          st ← modify_inner p (shareChild pos c) st;
          Ok (st, flushed + k)
      | N_leaf l =>
          let st := store c (setSeq 0 (N_leaf (snd (leaf_updateHash sha512Half l)))) st in
          st ← modify_inner p (shareChild pos c) st;
          Ok (st, flushed + 1)
      end
  end.

(** Flushes an inner node of this map: its children, then its own hash. *)
Fixpoint flush_inner (fuel : nat) p st : res (MapState * Z) :=
  match fuel with
  | O => Throw (logic_error "depth")
  | S fuel =>
      '(st, flushed) ← for_each (flush_child (flush_inner fuel) p) (seq 0 16) (st, 0);
      st ← modify_inner p (updateHashDeep sha512Half (ms_heap st)) st;
      st ← modify p (setSeq 0) st;
      Ok (st, flushed + 1)
  end.

(** [walkSubTree] with [doWrite] off. *)
Definition walkSubTree st : res (Z * MapState) :=
  let root := sm_root (ms_map st) in
  node ← deref (ms_heap st) root;
  if node_seq node =? 0 then Ok (0, st) else
  match node with
  | N_leaf _ =>
      '(p, st) ← preFlushNode root st;
      node ← deref (ms_heap st) p; l ← as_leaf node;
      let st := store p (setSeq 0 (N_leaf (snd (leaf_updateHash sha512Half l)))) st in
      Ok (1, mkMS (ms_heap st) (set_root p (ms_map st)))
  | N_inner n =>
      if isEmpty n then
        let (p, st) := make_shared (N_inner (new_inner 0)) st in
        Ok (1, mkMS (ms_heap st) (set_root p (ms_map st)))
      else
        '(p, st) ← preFlushNode root st;
        '(st, flushed) ← flush_inner max_path p st;
        Ok (flushed, mkMS (ms_heap st) (set_root p (ms_map st)))
  end.

Definition unshare st : res (Z * MapState) := walkSubTree st.

Definition getHash st : res (Z * MapState) :=
  node ← deref (ms_heap st) (sm_root (ms_map st));
  if getNodeHash node =? 0 then
    '(_, st) ← unshare st;
    node ← deref (ms_heap st) (sm_root (ms_map st));
    Ok (getNodeHash node, st)
  else Ok (getNodeHash node, st).

(** ** Construction and snapshots *)

Definition new_map h : MapState :=
  let p := fresh (dom h) in mkMS (<[p := N_inner (new_inner 1)]> h) (mkMap 1 p St_Modifying).

(** The new map; the heap changes when the nodes are unshared. *)
Definition snapShot (isMutable : bool) st : res MapState :=
  let src := ms_map st in
  let newMap := mkMap (u32 (sm_seq src + 1)) (sm_root src) (if isMutable then St_Modifying else St_Immutable) in
  let st := mkMS (ms_heap st) newMap in
  if negb (bool_decide (sm_state src = St_Immutable)) || negb isMutable
  then ('(_, st) ← unshare st; Ok st) else Ok st.

Definition setImmutable (m : SHAMap) : SHAMap := mkMap (sm_seq m) (sm_root m) St_Immutable.
End Ops.
