(* ===== verification/SHAMapInv.v ===== *)
(** * What a SHAMap node holds

    The contents of the subtree behind a pointer as a finite map, the hash it must
    have as a function of those contents alone, and how far both depend on the
    heap. *)

From S2P Require Import Prelude SHAMapNode SHAMap.

(** ** Nibbles of a key *)

(** The key without its last [64 - d] nibbles. *)
Definition pre (d : nat) (k : Z) : Z := k / 16 ^ (64 - Z.of_nat d).

(** Nibble [d] of a key, counted from the most significant. *)
Definition nib (d : nat) (k : Z) : nat := Z.to_nat (k / 16 ^ (63 - Z.of_nat d) mod 16).

Lemma nib_lt d k : (nib d k < 16)%nat.
Proof. unfold nib. pose proof (Z.mod_pos_bound (k / 16 ^ (63 - Z.of_nat d)) 16 ltac:(lia)). lia. Qed.

Lemma byte_high p k : 0 < p -> (k / p mod 2 ^ 8) / 2 ^ 4 = k / (p * 2 ^ 4) mod 16.
Proof.
  intros Hp. rewrite <-Z.div_div by lia. change (2 ^ 8) with (16 * 16). change (2 ^ 4) with 16.
  rewrite Z.rem_mul_r by lia. rewrite Z.add_comm, Z.mul_comm, Z.div_add_l by lia.
  rewrite (Z.div_small (_ mod 16)) by (apply Z.mod_pos_bound; lia). lia.
Qed.

Lemma byte_low y : (y mod 2 ^ 8) mod 2 ^ 4 = y mod 16.
Proof.
  change (2 ^ 8) with (16 * 16). change (2 ^ 4) with 16. rewrite Z.rem_mul_r by lia.
  by rewrite Z.mul_comm, Z.mod_add, Z.mod_mod by lia.
Qed.

Lemma selectBranch_nib id k : (mDepth id < 64)%nat -> selectBranch id k = nib (mDepth id) k.
Proof.
  destruct id as [x d]. cbn [mDepth]. intros Hd. unfold selectBranch, nib, key_byte. cbn [mDepth]. f_equal.
  change 255 with (Z.ones 8). change 15 with (Z.ones 4). rewrite !Z.land_ones by lia.
  destruct (Nat.Even_or_Odd d) as [[i ->]|[i ->]].
  - assert (E : Nat.odd (2 * i) = false) by (by rewrite <-Nat.negb_even, Nat.even_mul). rewrite E.
    assert ((2 * i / 2)%nat = i) as -> by (rewrite Nat.mul_comm; by apply Nat.div_mul).
    rewrite !Z.shiftr_div_pow2 by lia. rewrite (byte_high (2 ^ (8 * (31 - Z.of_nat i)))) by (apply Z.pow_pos_nonneg; lia).
    f_equal. f_equal. change 16 with (2 ^ 4). rewrite <-Z.pow_mul_r, <-Z.pow_add_r by lia. f_equal. lia.
  - assert (E : Nat.odd (2 * i + 1) = true) by (by rewrite Nat.odd_add, Nat.odd_mul). rewrite E.
    assert (((2 * i + 1) / 2)%nat = i) as -> by (symmetry; apply (Nat.div_unique _ _ _ 1); lia).
    rewrite Z.shiftr_div_pow2 by lia. rewrite byte_low. f_equal. f_equal. change 16 with (2 ^ 4). rewrite <-Z.pow_mul_r by lia. f_equal. lia.
Qed.

Lemma pre_S d k : (d < 64)%nat -> pre (S d) k = 16 * pre d k + Z.of_nat (nib d k).
Proof.
  intros Hd. unfold pre, nib. replace (64 - Z.of_nat (S d)) with (63 - Z.of_nat d) by lia.
  replace (16 ^ (64 - Z.of_nat d)) with (16 ^ (63 - Z.of_nat d) * 16).
  2: { rewrite <-(Z.pow_add_r 16 _ 1) by lia. f_equal. lia. }
  rewrite <-Z.div_div by (lia || (apply Z.pow_pos_nonneg; lia)). set (y := k / _).
  rewrite Z2Nat.id by (apply Z.mod_pos_bound; lia). apply Z.div_mod. lia.
Qed.

Lemma pre_0 k : 0 <= k < 2 ^ 256 -> pre 0 k = 0.
Proof. intros H. unfold pre. apply Z.div_small. by change (16 ^ (64 - Z.of_nat 0)) with (2 ^ 256). Qed.

Lemma pre_64 k : pre 64 k = k.
Proof. unfold pre. cbn. apply Z.div_1_r. Qed.

(** Keys that agree on [d'] nibbles agree on each of them. *)
Lemma nib_agree d d' k k' : (d < d')%nat -> (d' <= 64)%nat -> pre d' k = pre d' k' -> nib d k = nib d k'.
Proof.
  intros Hlt Hd'. induction d' as [|e IH]; [lia|]. rewrite !pre_S by lia. intros E.
  pose proof (nib_lt e k). pose proof (nib_lt e k'). destruct (decide (d = e)) as [->|]; [lia|]. apply IH; lia.
Qed.

(** ** Contents *)

Abbreviation Items := (gmap Z SHAMapItem).

(** The items that take branch [b] at depth [d]. *)
Definition sub (d b : nat) (m : Items) : Items := filter (fun kv => nib d kv.1 = b) m.

(** Items under their own 256-bit keys, agreeing on the first [d] nibbles. *)
Definition good (d : nat) (m : Items) : Prop :=
  (forall k it, m !! k = Some it -> it_key it = k /\ 0 <= k < 2 ^ 256) /\
  (forall k k' it it', m !! k = Some it -> m !! k' = Some it' -> pre d k = pre d k').

Lemma lookup_sub d b m k : sub d b m !! k = (it ← m !! k; if decide (nib d k = b) then Some it else None).
Proof.
  unfold sub. rewrite map_lookup_filter. destruct (m !! k) as [it|]; [|done]. cbn. unfold guard. by destruct (decide (nib d k = b)).
Qed.

Lemma sub_Some d b m k it : sub d b m !! k = Some it <-> m !! k = Some it /\ nib d k = b.
Proof. rewrite lookup_sub. destruct (m !! k) as [it'|]; cbn; [|naive_solver]. case_decide; naive_solver. Qed.

Lemma sub_subseteq d b m : sub d b m ⊆ m.
Proof. apply map_filter_subseteq. Qed.

Lemma sub_empty d b : sub d b ∅ = ∅.
Proof. apply map_filter_empty. Qed.

Lemma sub_all d b m : (forall k it, m !! k = Some it -> nib d k = b) -> sub d b m = m.
Proof.
  intros H. apply map_eq. intros k. rewrite lookup_sub. destruct (m !! k) as [it|] eqn:E; [|done]. cbn.
  by rewrite decide_True by (by eapply H).
Qed.

Lemma good_sub d b m : (d < 64)%nat -> good d m -> good (S d) (sub d b m).
Proof.
  intros Hd [H1 H2]. split.
  - intros k it [H _]%sub_Some. by apply H1.
  - intros k k' it it' [H Hb]%sub_Some [H' Hb']%sub_Some. rewrite !pre_S by done. rewrite (H2 _ _ _ _ H H'). congruence.
Qed.


Lemma two_keys (m : Items) : (2 <= size m)%nat -> exists k k' it it', k <> k' /\ m !! k = Some it /\ m !! k' = Some it'.
Proof.
  intros Hs. destruct (map_choose m) as (k & it & Hk); [intros ->; rewrite map_size_empty in Hs; lia|].
  destruct (map_choose (delete k m)) as (k' & it' & Hk').
  { intros E. apply (f_equal size) in E. rewrite map_size_delete, Hk, map_size_empty in E. lia. }
  apply lookup_delete_Some in Hk' as [Hne Hk']. by exists k, k', it, it'.
Qed.

Lemma good_depth d m : (d <= 64)%nat -> good d m -> (2 <= size m)%nat -> (d < 64)%nat.
Proof.
  intros Hd [_ H] (k & k' & it & it' & Hne & Hk & Hk')%two_keys. destruct (decide (d = 64%nat)) as [->|]; [|lia].
  specialize (H _ _ _ _ Hk Hk'). by rewrite !pre_64 in H.
Qed.

Lemma good_mono d (m m' : Items) : m' ⊆ m -> good d m -> good d m'.
Proof.
  rewrite map_subseteq_spec. intros Hs [H1 H2]. split.
  - intros k it Hk. by apply H1, Hs.
  - intros k k' it it' Hk Hk'. by eapply H2; apply Hs.
Qed.

(** Inserting or removing one key. *)
Definition upd (k : Z) (v : option SHAMapItem) (m : Items) : Items := partial_alter (fun _ => v) k m.

Lemma lookup_upd k v m k' : upd k v m !! k' = if decide (k' = k) then v else m !! k'.
Proof. unfold upd. case_decide as E; [subst; by rewrite lookup_partial_alter_eq|by rewrite lookup_partial_alter_ne]. Qed.

Lemma sub_upd d k v m : sub d (nib d k) (upd k v m) = upd k v (sub d (nib d k) m).
Proof.
  apply map_eq. intros k'. rewrite lookup_sub, !lookup_upd, lookup_sub. destruct (decide (k' = k)) as [->|]; [|done].
  destruct v; [|done]. cbn. by rewrite decide_True.
Qed.

Lemma sub_upd_ne d b k v m : b <> nib d k -> sub d b (upd k v m) = sub d b m.
Proof.
  intros Hb. apply map_eq. intros k'. rewrite !lookup_sub, lookup_upd. destruct (decide (k' = k)) as [->|]; [|done].
  destruct v, (m !! k); cbn; by rewrite ?decide_False by congruence.
Qed.

Lemma size_upd_Some k it m : (size m <= size (upd k (Some it) m))%nat.
Proof.
  change (upd k (Some it) m) with (<[k := it]> m). rewrite map_size_insert. destruct (m !! k); unfold id; lia.
Qed.

(** ** Branch bits *)

Record inner_ok (n : InnerNode) : Prop := {
  io_children : length (in_children n) = 16%nat;
  io_hashes : length (in_hashes n) = 16%nat;
  io_range : forall i, 16 <= i -> Z.testbit (in_isBranch n) i = false;
  io_bits : forall b c, in_children n !! b = Some c -> Z.testbit (in_isBranch n) (Z.of_nat b) = bool_decide (is_Some c);
  io_zero : forall b, in_children n !! b = Some None -> in_hashes n !! b = Some 0
}.

Lemma shiftl_1_bit a b : 0 <= a -> 0 <= b -> Z.testbit (Z.shiftl 1 a) b = bool_decide (b = a).
Proof.
  intros Ha Hb. rewrite Z.shiftl_1_l, Z.pow2_bits_eqb by done. destruct (Z.eqb_spec a b); case_bool_decide; congruence.
Qed.

Lemma isEmptyBranch_bit n b : isEmptyBranch n b = negb (Z.testbit (in_isBranch n) (Z.of_nat b)).
Proof.
  unfold isEmptyBranch. destruct (Z.testbit (in_isBranch n) (Z.of_nat b)) eqn:E; cbn.
  - apply Z.eqb_neq. intros H. apply (f_equal (fun x => Z.testbit x (Z.of_nat b))) in H.
    rewrite Z.land_spec, E, shiftl_1_bit, Z.bits_0, bool_decide_true in H by lia || done. done.
  - apply Z.eqb_eq. apply Z.bits_inj'. intros i Hi. rewrite Z.land_spec, shiftl_1_bit, Z.bits_0 by lia.
    case_bool_decide as Ei; [subst; by rewrite E|apply andb_false_r].
Qed.

Lemma child_at n b : inner_ok n -> (b < 16)%nat -> in_children n !! b = Some (getChild n b).
Proof.
  intros Hn Hb. unfold getChild. destruct (lookup_lt_is_Some_2 (in_children n) b) as [c Hc]; [by rewrite (io_children n Hn)|].
  by rewrite Hc.
Qed.

Lemma isEmptyBranch_child n b : inner_ok n -> (b < 16)%nat -> isEmptyBranch n b = bool_decide (getChild n b = None).
Proof.
  intros Hn Hb. rewrite isEmptyBranch_bit, (io_bits n Hn b _ (child_at n b Hn Hb)).
  by destruct (getChild n b).
Qed.

Lemma isEmpty_child n : inner_ok n -> isEmpty n = true <-> forall b, (b < 16)%nat -> getChild n b = None.
Proof.
  intros Hn. unfold isEmpty. rewrite Z.eqb_eq. split.
  - intros H0 b Hb. pose proof (io_bits n Hn b _ (child_at n b Hn Hb)) as H. rewrite H0, Z.bits_0 in H.
    by destruct (getChild n b).
  - intros H. apply Z.bits_inj'. intros i Hi. rewrite Z.bits_0. destruct (decide (16 <= i)) as [Hge|Hlt]; [by apply (io_range n Hn)|].
    assert (Hb : (Z.to_nat i < 16)%nat) by lia. pose proof (io_bits n Hn _ _ (child_at n _ Hn Hb)) as E.
    rewrite Z2Nat.id in E by done. rewrite E, (H _ Hb). done.
Qed.

Lemma inner_ok_new s : inner_ok (new_inner s).
Proof.
  split; cbn [in_children in_hashes in_isBranch new_inner]; [by rewrite length_replicate..| | |].
  - intros. by apply Z.bits_0.
  - intros b c [-> _]%lookup_replicate. by rewrite Z.bits_0.
  - intros b [_ Hb]%lookup_replicate. by apply lookup_replicate.
Qed.

Lemma inner_ok_setChild b c n : inner_ok n -> (b < 16)%nat -> inner_ok (setChild b c n).
Proof.
  intros [H1 H2 H3 H4 H5] Hb. split; cbn [in_children in_hashes in_isBranch setChild]; [by rewrite length_insert..| | |].
  - intros i Hi. specialize (H3 i Hi). destruct c; rewrite ?Z.lor_spec, ?Z.land_spec, H3; [|done].
    rewrite shiftl_1_bit by lia. apply bool_decide_false. lia.
  - intros b' c'. destruct (decide (b = b')) as [<-|Hne].
    + rewrite list_lookup_insert_eq by lia. intros [= <-].
      destruct c; rewrite ?Z.lor_spec, ?Z.land_spec, ?Z.lnot_spec, shiftl_1_bit, bool_decide_true by lia || done.
      * by rewrite orb_true_r.
      * by rewrite andb_false_r.
    + rewrite list_lookup_insert_ne by done. intros Hc'. rewrite <-(H4 _ _ Hc').
      destruct c; rewrite ?Z.lor_spec, ?Z.land_spec, ?Z.lnot_spec, shiftl_1_bit, bool_decide_false by lia.
      * apply orb_false_r.
      * apply andb_true_r.
  - intros b'. destruct (decide (b = b')) as [<-|Hne].
    + intros _. by rewrite list_lookup_insert_eq by lia.
    + rewrite !list_lookup_insert_ne by done. apply H5.
Qed.

Lemma inner_ok_share b c c' n : inner_ok n -> in_children n !! b = Some (Some c) -> inner_ok (shareChild b c' n).
Proof.
  intros [H1 H2 H3 H4 H5] Hc. pose proof (lookup_lt_Some _ _ _ Hc) as Hb.
  split; cbn [in_children in_hashes in_isBranch shareChild]; [by rewrite length_insert|done|done| |].
  - intros b' x. destruct (decide (b = b')) as [<-|Hne].
    + rewrite list_lookup_insert_eq by lia. intros [= <-]. by rewrite (H4 _ _ Hc).
    + rewrite list_lookup_insert_ne by done. apply H4.
  - intros b'. destruct (decide (b = b')) as [<-|Hne]; [by rewrite list_lookup_insert_eq by lia|].
    rewrite list_lookup_insert_ne by done. apply H5.
Qed.

(** ** The hash of contents *)

Section Holds.
Context (sha512Half : list Z -> Z) (ty : TNType).

Fixpoint mhash_fuel (fuel d : nat) (m : Items) : Z :=
  match fuel with
  | O => 0
  | S fuel =>
      let inner (_ : unit) := inner_hash sha512Half (map (fun b => mhash_fuel fuel (S d) (sub d b m)) (seq 0 16)) in
      match map_to_list m with
      | [] => 0
      | [(_, it)] => if (d =? 0)%nat then inner tt else leaf_hash sha512Half ty it
      | _ => inner tt
      end
  end.

(** The hash of a node at depth [d] holding [m]. *)
Definition mhash (d : nat) (m : Items) : Z := mhash_fuel (65 - d) d m.

Lemma mhash_empty d : mhash d ∅ = 0.
Proof. unfold mhash. destruct (65 - d)%nat; cbn; [done|]. by rewrite map_to_list_empty. Qed.

Lemma mhash_leaf d k it : (0 < d <= 64)%nat -> mhash d {[k := it]} = leaf_hash sha512Half ty it.
Proof.
  intros Hd. unfold mhash. replace (65 - d)%nat with (S (64 - d)) by lia. cbn [mhash_fuel].
  rewrite map_to_list_singleton. by destruct d; [lia|].
Qed.

Lemma mhash_inner d m :
  (d <= 64)%nat -> m <> ∅ -> (d = 0%nat \/ (2 <= size m)%nat) ->
  mhash d m = inner_hash sha512Half (map (fun b => mhash (S d) (sub d b m)) (seq 0 16)).
Proof.
  intros Hd Hm Hs. unfold mhash. replace (65 - d)%nat with (S (65 - S d)) by lia. cbn [mhash_fuel].
  destruct (map_to_list m) as [|[k it] [|x xs]] eqn:E; [by apply map_to_list_empty_iff in E| |done].
  destruct Hs as [->|Hs]; [done|]. rewrite <-length_map_to_list, E in Hs. cbn in Hs. lia.
Qed.

(** ** What a pointer holds *)

Implicit Types (h : Heap) (p q : nptr) (m : Items).

Definition clean h (d : nat) (n : InnerNode) m : Prop :=
  in_hash n = mhash d m /\
  (forall b, (b < 16)%nat -> in_hashes n !! b = Some (mhash (S d) (sub d b m))) /\
  (forall b c, in_children n !! b = Some (Some c) -> exists nc, h !! c = Some nc /\ node_seq nc = 0).

(** The subtree at [p], a node at depth [d], holds [m]: leaves stand alone, an
    inner node below the root has at least two items, a cached hash is absent or
    right, and a node marked shareable (sequence number 0) has everything below it
    hashed and shareable. *)
Inductive node_at h : nat -> nptr -> Items -> Prop :=
| at_leaf d p l :
    h !! p = Some (N_leaf l) -> lf_type l = ty -> lf_hash l = leaf_hash sha512Half ty (lf_item l) -> (0 < d)%nat ->
    node_at h d p {[it_key (lf_item l) := lf_item l]}
| at_inner d p n m :
    h !! p = Some (N_inner n) -> inner_ok n ->
    (forall b c, in_children n !! b = Some (Some c) -> node_at h (S d) c (sub d b m)) ->
    (forall b, in_children n !! b = Some None -> sub d b m = ∅) ->
    (in_hash n = 0 \/ in_hash n = mhash d m) ->
    (in_seq n = 0 -> clean h d n m) ->
    (d = 0%nat \/ (2 <= size m)%nat) ->
    node_at h d p m.

(** An inner node, whatever the number of its items. *)
Definition inner_at h (d : nat) p (n : InnerNode) m : Prop :=
  h !! p = Some (N_inner n) /\ inner_ok n /\
  (forall b c, in_children n !! b = Some (Some c) -> node_at h (S d) c (sub d b m)) /\
  (forall b, in_children n !! b = Some None -> sub d b m = ∅) /\
  (in_hash n = 0 \/ in_hash n = mhash d m) /\
  (in_seq n = 0 -> clean h d n m).

Lemma node_at_inner h d p n m : inner_at h d p n m -> (d = 0%nat \/ (2 <= size m)%nat) -> node_at h d p m.
Proof. intros (H1 & H2 & H3 & H4 & H5 & H6) Hs. by eapply at_inner. Qed.

Lemma node_at_inv h d p m :
  node_at h d p m ->
  (exists l, h !! p = Some (N_leaf l) /\ lf_type l = ty /\ lf_hash l = leaf_hash sha512Half ty (lf_item l) /\
     (0 < d)%nat /\ m = {[it_key (lf_item l) := lf_item l]}) \/
  (exists n, inner_at h d p n m /\ (d = 0%nat \/ (2 <= size m)%nat)).
Proof. intros [d' p' l H1 H2 H3 H4|d' p' n m' H1 H2 H3 H4 H5 H6 H7]; [left; by exists l|right; by exists n]. Qed.

Lemma node_at_Some h d p m : node_at h d p m -> is_Some (h !! p).
Proof. intros []; eauto. Qed.

Lemma node_at_nonempty h d p m : node_at h d p m -> (0 < d)%nat -> m <> ∅.
Proof.
  intros [d' p' l _ _ _ _|d' p' n m' _ _ _ _ _ _ [->|Hs]] Hd; [|lia|].
  - apply map_non_empty_singleton.
  - intros ->. rewrite map_size_empty in Hs. lia.
Qed.

Lemma inner_sub h d p n m k it :
  inner_at h d p n m -> m !! k = Some it -> exists c, in_children n !! nib d k = Some (Some c) /\ node_at h (S d) c (sub d (nib d k) m).
Proof.
  intros (_ & Hok & Hc & Hn & _) Hk. pose proof (child_at n (nib d k) Hok (nib_lt d k)) as E.
  destruct (getChild n (nib d k)) as [c|]; [exists c; split; [done|by apply Hc]|].
  apply Hn in E. assert (Hs : sub d (nib d k) m !! k = Some it) by (by apply sub_Some). by rewrite E in Hs.
Qed.

(** The heap determines the contents. *)
Lemma node_at_unique h d p m : node_at h d p m -> forall d' m', node_at h d' p m' -> m = m'.
Proof.
  induction 1 as [d p l Hl _ _ _|d p n m Hn Hok Hc IH He Hh Hcl Hs]; intros d' m' H'.
  - apply node_at_inv in H' as [(l' & Hl' & _ & _ & _ & ->)|(n' & (Hn' & _) & _)]; congruence.
  - apply node_at_inv in H' as [(l' & Hl' & _)|(n' & Hat' & _)]; [congruence|].
    assert (n' = n) as -> by (destruct Hat'; congruence).
    assert (Hat : inner_at h d p n m) by (by split_and!). apply map_eq. intros k. apply option_eq. intros it. split; intros Hk.
    + destruct (inner_sub _ _ _ _ _ _ _ Hat Hk) as (c & Hcc & _). destruct Hat' as (_ & _ & Hc' & _).
      specialize (IH _ _ Hcc _ _ (Hc' _ _ Hcc)). assert (Hs' : sub d (nib d k) m !! k = Some it) by (by apply sub_Some).
      rewrite IH in Hs'. by apply sub_Some in Hs' as [? _].
    + destruct (inner_sub _ _ _ _ _ _ _ Hat' Hk) as (c & Hcc & Hc'). specialize (IH _ _ Hcc _ _ Hc').
      assert (Hs' : sub d' (nib d' k) m' !! k = Some it) by (by apply sub_Some). rewrite <-IH in Hs'. by apply sub_Some in Hs' as [? _].
Qed.

(** ** Reachability *)

Inductive reaches h : nptr -> nptr -> Prop :=
| reach_refl p : reaches h p p
| reach_step p n b c q : h !! p = Some (N_inner n) -> in_children n !! b = Some (Some c) -> reaches h c q -> reaches h p q.

Lemma reaches_inv h p q :
  reaches h p q -> p = q \/ exists n b c, h !! p = Some (N_inner n) /\ in_children n !! b = Some (Some c) /\ reaches h c q.
Proof. intros [|? n b c ? H1 H2 H3]; [by left|right; by exists n, b, c]. Qed.

Lemma reaches_trans h p q r : reaches h p q -> reaches h q r -> reaches h p r.
Proof. induction 1; [done|]. intros. by eapply reach_step; eauto. Qed.

Lemma reaches_node h d p m q :
  node_at h d p m -> reaches h p q -> exists d' m', node_at h d' q m' /\ m' ⊆ m /\ (d <= d')%nat.
Proof.
  intros Hat Hr. revert d m Hat. induction Hr as [p|p n b c q Hn Hc Hr IH]; intros d m Hat; [by exists d, m|].
  apply node_at_inv in Hat as [(l & Hl & _)|(n' & (Hn' & _ & Hcs & _) & _)]; [congruence|].
  assert (n' = n) as -> by congruence. destruct (IH _ _ (Hcs _ _ Hc)) as (d' & m' & H1 & H2 & H3).
  exists d', m'. split_and!; [done|etrans; [done|apply sub_subseteq]|lia].
Qed.

Lemma reaches_Some h d p m q : node_at h d p m -> reaches h p q -> is_Some (h !! q).
Proof. intros Hat Hr. destruct (reaches_node _ _ _ _ _ Hat Hr) as (d' & m' & H & _). by eapply node_at_Some. Qed.

(** No node is below itself. *)
Lemma acyclic h d p m : node_at h d p m -> forall n b c, h !! p = Some (N_inner n) -> in_children n !! b = Some (Some c) -> ~ reaches h c p.
Proof.
  induction 1 as [d p l Hl _ _ _|d p n m Hn Hok Hc IH He Hh Hcl Hs]; intros n' b c Hn' Hb Hr; [congruence|].
  assert (n' = n) as -> by congruence. inversion Hr as [|? n2 b2 c2 ? Hn2 Hb2 Hr2]; subst.
  - eapply (IH _ _ Hb n b p); [done..|apply reach_refl].
  - eapply (IH _ _ Hb n2 b2 c2 Hn2 Hb2). eapply reaches_trans; [exact Hr2|]. eapply reach_step; [exact Hn|exact Hb|apply reach_refl].
Qed.

(** Two branches share nothing. *)
Lemma branches_apart h d p n m b c b' c' q :
  inner_at h d p n m -> in_children n !! b = Some (Some c) -> in_children n !! b' = Some (Some c') -> b <> b' ->
  reaches h c q -> reaches h c' q -> False.
Proof.
  intros (_ & _ & Hcs & _) Hb Hb' Hne Hr Hr'.
  destruct (reaches_node _ _ _ _ _ (Hcs _ _ Hb) Hr) as (d1 & m1 & H1 & Hs1 & Hd1).
  destruct (reaches_node _ _ _ _ _ (Hcs _ _ Hb') Hr') as (d2 & m2 & H2 & Hs2 & Hd2).
  rewrite (node_at_unique _ _ _ _ H1 _ _ H2) in *. destruct (map_choose m2) as (k & it & Hk).
  { apply (node_at_nonempty _ _ _ _ H2). lia. }
  rewrite map_subseteq_spec in Hs1, Hs2. apply Hs1 in Hk as Hk1. apply Hs2 in Hk as Hk2.
  apply sub_Some in Hk1 as [_ E1]. apply sub_Some in Hk2 as [_ E2]. congruence.
Qed.

(** ** Framing *)

Lemma reaches_frame h h' p q :
  (forall x, reaches h p x -> h' !! x = h !! x) -> reaches h' p q -> reaches h p q.
Proof.
  intros Hf Hr. induction Hr as [p|p n b c q Hn Hc Hr IH]; [apply reach_refl|].
  rewrite Hf in Hn by apply reach_refl. eapply reach_step; [done..|]. apply IH. intros x Hx. apply Hf. by eapply reach_step.
Qed.

Lemma node_at_frame h h' d p m :
  node_at h d p m -> (forall q, reaches h p q -> h' !! q = h !! q) -> node_at h' d p m.
Proof.
  induction 1 as [d p l Hl Ht Hh Hd|d p n m Hn Hok Hc IH He Hh Hcl Hs]; intros Hf.
  - apply at_leaf; [rewrite Hf by apply reach_refl|..]; done.
  - assert (Hstep : forall b c q, in_children n !! b = Some (Some c) -> reaches h c q -> h' !! q = h !! q).
    { intros b c q Hb Hr. apply Hf. by eapply reach_step. }
    eapply at_inner; [rewrite Hf by apply reach_refl; done|done| |done|done| |done].
    + intros b c Hb. apply (IH _ _ Hb). intros q Hq. by eapply Hstep.
    + intros H0. destruct (Hcl H0) as (H1 & H2 & H3). split_and!; [done..|]. intros b c Hb.
      rewrite (Hstep _ _ _ Hb) by apply reach_refl. by eapply H3.
Qed.

(** Allocation touches nothing that is reachable. *)
Lemma node_at_alloc h d p m q x : node_at h d p m -> h !! q = None -> node_at (<[q := x]> h) d p m.
Proof.
  intros Hat Hq. apply (node_at_frame h); [done|]. intros y Hy. rewrite lookup_insert_ne; [done|]. intros <-.
  destruct (reaches_Some _ _ _ _ _ Hat Hy). congruence.
Qed.
End Holds.
