(* ===== verification/SHAMapOps.v ===== *)
(** * Changing a SHAMap

    Insertion, update and deletion of an item as changes of the finite map the
    tree holds, and what they leave untouched: only nodes of this map's own
    sequence number are written, every other map keeps its view. *)

From S2P Require Import Prelude SHAMapNode SHAMap SHAMapInv.

Section Ops.
Context (sha512Half : list Z -> Z) (ty : TNType).

#[local] Abbreviation node_at := (node_at sha512Half ty).
#[local] Abbreviation inner_at := (inner_at sha512Half ty).
Implicit Types (h : Heap) (p q r : nptr) (m M : Items) (stack : list (nptr * SHAMapNodeID)).

(** ** Paths *)

(** [stack] is the way from the root [r] to the slot at depth [d] for the key [id]; the
    slot holds [slot] and its contents are [m]. *)
Inductive path h r (id : Z) M : list (nptr * SHAMapNodeID) -> nat -> option nptr -> Items -> Prop :=
| path_root : path h r id M [] 0 (Some r) M
| path_step stack d p nid n m :
    path h r id M stack d (Some p) m -> inner_at h d p n m -> (d = 0%nat \/ (2 <= size m)%nat) -> mDepth nid = d ->
    path h r id M ((p, nid) :: stack) (S d) (getChild n (nib d id)) (sub d (nib d id) m).

Lemma path_node h r id M stack d p m : node_at h 0 r M -> path h r id M stack d (Some p) m -> node_at h d p m.
Proof.
  intros Hr Hp. inversion Hp as [|? d' p' nid n m' _ Hat _ _]; subst; [done|].
  destruct Hat as (_ & Hok & Hc & _). apply Hc. rewrite (child_at n _ Hok (nib_lt _ _)). by f_equal.
Qed.

Lemma path_good h r id M stack d slot m : good 0 M -> path h r id M stack d slot m -> (d <= 64)%nat /\ good d m.
Proof.
  intros Hg. induction 1 as [|stack d p nid n m _ [Hd IH] _ Hs _]; [split; [lia|done]|].
  assert (Hlt : (d < 64)%nat) by (destruct Hs as [->|Hs]; [lia|by eapply good_depth]). split; [lia|by apply good_sub].
Qed.

Lemma path_lookup h r id M stack d slot m : path h r id M stack d slot m -> m !! id = M !! id.
Proof.
  induction 1 as [|stack d p nid n m _ IH _ _ _]; [done|]. rewrite lookup_sub, IH. destruct (M !! id); cbn; [|done].
  by rewrite decide_True.
Qed.

Lemma walk_loop_spec h r id M : node_at h 0 r M -> good 0 M -> forall fuel p nid stack d m,
  path h r id M stack d (Some p) m -> mDepth nid = d -> (65 - d <= fuel)%nat ->
  exists leaf p' nid' stack' m',
    walk_loop fuel h id p nid stack = Ok (leaf, (p', nid') :: stack') /\
    path h r id M stack' (mDepth nid') (Some p') m' /\
    ((exists l, h !! p' = Some (N_leaf l) /\ leaf = Some p') \/
     (exists n, inner_at h (mDepth nid') p' n m' /\ (mDepth nid' = 0%nat \/ (2 <= size m')%nat) /\
        getChild n (nib (mDepth nid') id) = None /\ leaf = None)).
Proof.
  intros Hr Hg. induction fuel as [|fuel IH]; intros p nid stack d m Hp Hd Hf.
  { destruct (path_good _ _ _ _ _ _ _ _ Hg Hp). lia. }
  pose proof (path_node _ _ _ _ _ _ _ _ Hr Hp) as Hat. destruct (path_good _ _ _ _ _ _ _ _ Hg Hp) as [Hd64 Hgood].
  cbn [walk_loop]. apply node_at_inv in Hat as [(l & Hl & _)|(n & Hat & Hs)].
  - unfold deref. rewrite Hl. cbn. exists (Some p), p, nid, stack, m. rewrite Hd. split_and!; [done|done|left; by exists l].
  - assert (Hlt : (d < 64)%nat) by (destruct Hs as [->|Hs]; [lia|by eapply good_depth]).
    pose proof Hat as (Hn & Hok & _). unfold deref. rewrite Hn. cbn. rewrite selectBranch_nib, Hd by lia.
    rewrite (isEmptyBranch_child n _ Hok (nib_lt _ _)). unfold descendThrow.
    pose proof (path_step _ _ _ _ _ _ _ nid _ _ Hp Hat Hs Hd) as Hp'.
    destruct (getChild n (nib d id)) as [c|] eqn:Ec.
    + rewrite bool_decide_false by done. cbn. apply (IH _ _ _ (S d) _ Hp'); [cbn; lia|lia].
    + rewrite bool_decide_true by done. exists None, p, nid, stack, m. rewrite Hd. split_and!; [done..|]. right. by exists n.
Qed.

(** ** One level up *)

(** From the heap [h0] to [h] only nodes of sequence number [s] below [slot] were
    written, new nodes carry [s], and [new], which is to replace [slot], holds [m]. *)
Record below h0 h (s : Z) (slot new : option nptr) (d : nat) m : Prop := {
  bl_ext : forall q n, h0 !! q = Some n -> exists n', h !! q = Some n' /\
    (n' = n \/ (node_seq n = s /\ node_seq n' = s /\ exists c, slot = Some c /\ reaches h0 c q));
  bl_fresh : forall q n, h !! q = Some n -> h0 !! q = None -> node_seq n = s;
  bl_new : match new with
           | Some c' => node_at h d c' m /\ forall q, reaches h c' q -> h0 !! q = None \/ exists c, slot = Some c /\ reaches h0 c q
           | None => m = ∅
           end
}.

(** The node [p] with one child replaced, rewritten in place or as a new node [p']. *)
Record lifted h0 h (s : Z) p p' (d : nat) m : Prop := {
  lf_ext : forall q n, h0 !! q = Some n -> exists n', h !! q = Some n' /\
    (n' = n \/ (node_seq n = s /\ node_seq n' = s /\ reaches h0 p q));
  lf_fresh : forall q n, h !! q = Some n -> h0 !! q = None -> node_seq n = s;
  lf_at : exists n', inner_at h d p' n' m /\ in_seq n' = s;
  lf_reach : forall q, reaches h p' q -> h0 !! q = None \/ reaches h0 p q
}.

Lemma lifted_below h0 h s p p' d m :
  lifted h0 h s p p' d m -> (d = 0%nat \/ (2 <= size m)%nat) -> below h0 h s (Some p) (Some p') d m.
Proof.
  intros [H1 H2 (n' & H3 & _) H4] Hs. split.
  - intros q n Hq. destruct (H1 q n Hq) as (n2 & ? & [E|(? & ? & ?)]); exists n2; eauto 8.
  - done.
  - split; [by eapply node_at_inner|]. intros q Hq. destruct (H4 q Hq); eauto.
Qed.

Section Lift.
Context h0 h (s : Z) p (n : InnerNode) (d : nat) m m2 (b : nat) (new : option nptr).
Context (Hs : s <> 0) (Hat0 : node_at h0 d p m) (Hin : inner_at h0 d p n m) (Hb : (b < 16)%nat).
Context (Hbelow : below h0 h s (getChild n b) new (S d) (sub d b m2)).
Context (Hother : forall b', b' <> b -> sub d b' m2 = sub d b' m).

Lemma lift_self : h !! p = Some (N_inner n).
Proof.
  destruct Hin as (Hn & Hok & _). destruct (bl_ext _ _ _ _ _ _ _ Hbelow _ _ Hn) as (n' & Hn' & [->|(_ & _ & c & Hc & Hr)]); [done|].
  exfalso. eapply (acyclic sha512Half ty _ _ _ _ Hat0 n b c); [done| |done]. by rewrite (child_at n b Hok Hb), Hc.
Qed.

(** What another child reaches is as it was. *)
Lemma lift_other b' c q : b' <> b -> in_children n !! b' = Some (Some c) -> reaches h0 c q -> h !! q = h0 !! q /\ q <> p.
Proof.
  intros Hne Hc Hr. pose proof Hin as (Hn & Hok & Hcs & _). split.
  - destruct (reaches_Some sha512Half ty _ _ _ _ _ (Hcs _ _ Hc) Hr) as [x Hx]. rewrite Hx.
    destruct (bl_ext _ _ _ _ _ _ _ Hbelow _ _ Hx) as (n' & Hn' & [->|(_ & _ & c' & Hc' & Hr')]); [done|].
    exfalso. eapply (branches_apart sha512Half ty _ _ _ _ _ b' c b c' q Hin); [done| |done..]. by rewrite (child_at n b Hok Hb), Hc'.
  - intros ->. by eapply (acyclic sha512Half ty _ _ _ _ Hat0 n b' c).
Qed.

Context p' (n1 : InnerNode).
Context (E1 : in_children n1 = in_children n) (E2 : in_hashes n1 = in_hashes n) (E3 : in_isBranch n1 = in_isBranch n) (E4 : in_seq n1 = s).
Context (Hp' : (p' = p /\ in_seq n = s) \/ h !! p' = None).

#[local] Abbreviation h2 := (<[p' := N_inner (setChild b new n1)]> h).

Lemma lift_inner_ok : inner_ok n1.
Proof. destruct Hin as (_ & Hok & _). destruct Hok; split; rewrite ?E1, ?E2, ?E3; done. Qed.

Lemma lift_slot c : getChild n b = Some c -> in_children n !! b = Some (Some c).
Proof. intros Hc. destruct Hin as (_ & Hok & _). by rewrite (child_at n b Hok Hb), Hc. Qed.

Lemma lift_ne q x : h0 !! q = Some x -> q <> p -> q <> p'.
Proof.
  intros Hq Hqp ->. destruct Hp' as [[-> _]|Hn]; [done|].
  destruct (bl_ext _ _ _ _ _ _ _ Hbelow _ _ Hq) as (? & ? & _). congruence.
Qed.

Lemma lift_new c q : new = Some c -> reaches h c q -> q <> p' /\ (h0 !! q = None \/ reaches h0 p q).
Proof.
  intros -> Hq. destruct (bl_new _ _ _ _ _ _ _ Hbelow) as [H1 H2]. pose proof Hin as (Hn & _).
  destruct (reaches_Some sha512Half ty _ _ _ _ _ H1 Hq) as [x Hx]. split.
  - intros ->. destruct Hp' as [[-> _]|Hnone]; [|congruence]. destruct (H2 _ Hq) as [|(c0 & Hc0 & Hr)]; [congruence|].
    eapply (acyclic sha512Half ty _ _ _ _ Hat0 n b c0); [done|by apply lift_slot|done].
  - destruct (H2 _ Hq) as [|(c0 & Hc0 & Hr)]; [by left|right]. eapply reach_step; [done|by apply lift_slot|done].
Qed.

Lemma lift_old b' c q : b' <> b -> in_children n !! b' = Some (Some c) -> reaches h0 c q -> h2 !! q = h0 !! q.
Proof.
  intros Hne Hc Hr. destruct (lift_other _ _ _ Hne Hc Hr) as [Hq Hqp]. rewrite lookup_insert_ne; [done|].
  pose proof Hin as (_ & _ & Hcs & _). destruct (reaches_Some sha512Half ty _ _ _ _ _ (Hcs _ _ Hc) Hr) as [x Hx].
  by apply not_eq_sym, (lift_ne q x).
Qed.

Lemma lift_child b' c : in_children (setChild b new n1) !! b' = Some c ->
  (b' = b /\ new = c) \/ (b' <> b /\ in_children n !! b' = Some c).
Proof.
  cbn. rewrite E1. destruct Hin as (_ & Hok & _). destruct (decide (b' = b)) as [->|Hne].
  - rewrite list_lookup_insert_eq by (rewrite (io_children n Hok); done). intros [= ->]. by left.
  - rewrite list_lookup_insert_ne by done. by right.
Qed.

Lemma lift_inner : inner_at h2 d p' (setChild b new n1) m2.
Proof.
  pose proof Hin as (_ & _ & Hcs & Hno & _).
  split_and!; [by rewrite lookup_insert_eq|by apply inner_ok_setChild; [apply lift_inner_ok|]| | |by left|cbn; congruence].
  - intros b' c [[-> Hc]|[Hne Hc]]%lift_child.
    + apply (node_at_frame _ _ h).
      * pose proof (bl_new _ _ _ _ _ _ _ Hbelow) as H. rewrite Hc in H. by destruct H.
      * intros q Hq. rewrite lookup_insert_ne; [done|]. by apply not_eq_sym, (lift_new c q).
    + rewrite Hother by done. apply (node_at_frame _ _ h0); [by apply Hcs|]. intros q Hq. by eapply lift_old.
  - intros b' [[-> Hc]|[Hne Hc]]%lift_child.
    + pose proof (bl_new _ _ _ _ _ _ _ Hbelow) as H. by rewrite Hc in H.
    + rewrite Hother by done. by apply Hno.
Qed.

Lemma lift_reach q : reaches h2 p' q -> h0 !! q = None \/ reaches h0 p q.
Proof.
  pose proof Hin as (Hn & _). intros [<-|(n2 & b' & c & Hn2 & Hc & Hr)]%reaches_inv.
  - destruct Hp' as [[-> _]|Hnone]; [right; apply reach_refl|left]. destruct (h0 !! p') as [x|] eqn:Ex; [|done].
    destruct (bl_ext _ _ _ _ _ _ _ Hbelow _ _ Ex) as (? & ? & _). congruence.
  - rewrite lookup_insert_eq in Hn2. injection Hn2 as <-. destruct (lift_child _ _ Hc) as [[-> Hcn]|[Hne Hcn]].
    + apply (lift_new c q Hcn). eapply reaches_frame; [|exact Hr]. intros x Hx. rewrite lookup_insert_ne; [done|].
      by apply not_eq_sym, (lift_new c x).
    + right. eapply reach_step; [done..|]. eapply reaches_frame; [|exact Hr]. intros x Hx. by eapply lift_old.
Qed.

Lemma lift_ok : lifted h0 h2 s p p' d m2.
Proof.
  pose proof Hin as (Hn & Hok & _). split.
  - intros q x Hq. destruct (bl_ext _ _ _ _ _ _ _ Hbelow _ _ Hq) as (x' & Hx' & Hor). destruct (decide (q = p')) as [->|Hne].
    + rewrite lookup_insert_eq. eexists. split; [done|]. right. destruct Hp' as [[-> Hsn]|Hnone]; [|congruence].
      rewrite Hn in Hq. injection Hq as <-. split_and!; [done|done|apply reach_refl].
    + rewrite lookup_insert_ne by done. exists x'. split; [done|]. destruct Hor as [->|(H1 & H2 & c & Hc & Hr)]; [by left|right].
      split_and!; [done..|]. eapply reach_step; [done|by apply lift_slot|done].
  - intros q x. destruct (decide (q = p')) as [->|Hne].
    + rewrite lookup_insert_eq. by intros [= <-] _.
    + rewrite lookup_insert_ne by done. apply (bl_fresh _ _ _ _ _ _ _ Hbelow).
  - exists (setChild b new n1). split; [apply lift_inner|done].
  - apply lift_reach.
Qed.
End Lift.

(** ** Whole operations *)

Definition map_seq (st : MapState) : Z := sm_seq (ms_map st).
Definition map_root (st : MapState) : nptr := sm_root (ms_map st).

(** [st'] is [st] after the map's contents became [M]. *)
Record map_step (st st' : MapState) M : Prop := {
  st_below : below (ms_heap st) (ms_heap st') (map_seq st) (Some (map_root st)) (Some (map_root st')) 0 M;
  st_seq : map_seq st' = map_seq st;
  st_state : sm_state (ms_map st') = sm_state (ms_map st)
}.

Lemma below_refl h s r m d : node_at h d r m -> below h h s (Some r) (Some r) d m.
Proof.
  intros Hat. split.
  - intros q n Hq. exists n. eauto.
  - intros q n H1 H2. congruence.
  - split; [done|]. intros q Hq. right. by exists r.
Qed.

Lemma map_step_refl st M : node_at (ms_heap st) 0 (map_root st) M -> map_step st st M.
Proof. intros Hat. split; [by apply below_refl|done..]. Qed.

Lemma path_depth h r id M stack d slot m : path h r id M stack d slot m -> d = length stack.
Proof. induction 1; cbn; congruence. Qed.

Lemma fresh_None h : h !! fresh (dom h) = None.
Proof. apply not_elem_of_dom. apply is_fresh. Qed.

(** Unsharing a node of the original heap and replacing its child. *)
Lemma replace_child h0 st p nid n d m m2 id new :
  map_seq st <> 0 -> (d < 64)%nat -> mDepth nid = d -> node_at h0 d p m -> inner_at h0 d p n m ->
  (isRoot nid = true -> map_root st = p) ->
  below h0 (ms_heap st) (map_seq st) (getChild n (nib d id)) new (S d) (sub d (nib d id) m2) ->
  (forall b', b' <> nib d id -> sub d b' m2 = sub d b' m) ->
  exists p' st1 st2, unshareNode p nid st = Ok (p', st1) /\
    modify_inner p' (setChild (selectBranch nid id) new) st1 = Ok st2 /\
    lifted h0 (ms_heap st2) (map_seq st) p p' d m2 /\
    ms_map st2 = if isRoot nid then set_root p' (ms_map st) else ms_map st.
Proof.
  intros Hs Hd Hnid Hat Hin Hroot Hbelow Hother.
  pose proof (lift_self h0 _ _ p n d m m2 _ new Hat Hin (nib_lt d id) Hbelow) as Hself.
  pose proof (lift_ok h0 _ _ p n d m m2 _ new Hs Hat Hin (nib_lt d id) Hbelow Hother) as Hlift.
  unfold unshareNode, modify_inner, deref. rewrite Hself, selectBranch_nib, Hnid by lia. cbn.
  destruct (Z.eqb_spec (in_seq n) (sm_seq (ms_map st))) as [E|E].
  - exists p, st. eexists. rewrite Hself. cbn. split_and!; [done..| |].
    + apply (Hlift p n); try done. by left.
    + cbn. destruct (isRoot nid); [|done]. unfold set_root. rewrite <-Hroot by done. by destruct st as [h []].
  - set (p' := fresh (dom (ms_heap st))). set (n1 := mkInner (in_hash n) (sm_seq (ms_map st)) (in_hashes n) (in_children n) (in_isBranch n)).
    destruct (isRoot nid).
    all: exists p'; eexists; eexists; split; [done|]; cbn; rewrite lookup_insert_eq; cbn; split; [done|]; cbn;
      rewrite insert_insert_eq; split; [|done]; apply (Hlift p' n1); try done; right; apply fresh_None.
Qed.

Lemma dirtyUp_spec h0 r id it M stack d slot m :
  node_at h0 0 r M -> good 0 M -> path h0 r id M stack d slot m -> forall child st,
  map_seq st <> 0 -> (map_root st = if (d =? 0)%nat then child else r) ->
  below h0 (ms_heap st) (map_seq st) slot (Some child) d (upd id (Some it) m) ->
  exists st', dirtyUp stack id child st = Ok st' /\ map_seq st' = map_seq st /\ sm_state (ms_map st') = sm_state (ms_map st) /\
    below h0 (ms_heap st') (map_seq st) (Some r) (Some (map_root st')) 0 (upd id (Some it) M).
Proof.
  intros Hat Hg Hp. induction Hp as [|stack d p nid n m Hp IH Hin Hsz Hnid]; intros child st Hs Hroot Hb.
  { exists st. split_and!; [done..|]. cbn in Hroot. by rewrite Hroot. }
  destruct (path_good _ _ _ _ _ _ _ _ Hg Hp) as [Hd Hgood].
  assert (Hlt : (d < 64)%nat) by (destruct Hsz as [->|Hsz]; [lia|by eapply good_depth]). cbn [Nat.eqb] in Hroot.
  assert (Hr0 : isRoot nid = (d =? 0)%nat) by (unfold isRoot; by rewrite Hnid).
  destruct (replace_child h0 st p nid n d m (upd id (Some it) m) id (Some child)) as (p' & st1 & st2 & E1 & E2 & Hl & Hm); try done.
  - by eapply path_node.
  - rewrite Hr0. intros ->%Nat.eqb_eq. apply path_depth in Hp as Hlen. destruct stack; [|done]. inversion Hp. congruence.
  - by rewrite sub_upd.
  - intros b' Hne. by apply sub_upd_ne.
  - cbn [dirtyUp]. rewrite E1. cbn. rewrite E2. cbn.
    assert (Hseq : map_seq st2 = map_seq st) by (unfold map_seq; rewrite Hm; by destruct (isRoot nid)).
    assert (Hstate : sm_state (ms_map st2) = sm_state (ms_map st)) by (rewrite Hm; by destruct (isRoot nid)).
    rewrite <-Hseq, <-Hstate. apply IH; rewrite ?Hseq; [done| |].
    + unfold map_root. rewrite Hm, Hr0. by destruct (d =? 0)%nat.
    + apply lifted_below; [done|]. destruct Hsz as [->|Hsz]; [by left|right]. pose proof (size_upd_Some id it m). lia.
Qed.

(** ** Insertion *)

Lemma new_leaf_at h q item s d :
  h !! q = Some (N_leaf (new_leaf sha512Half item ty s)) -> (0 < d)%nat -> node_at h d q {[it_key item := item]}.
Proof.
  intros Hq Hd. unfold new_leaf, leaf_updateHash in Hq. cbn in Hq.
  destruct (Z.eqb_spec (leaf_hash sha512Half ty item) 0) as [E|E]; cbn in Hq.
  - exact (at_leaf sha512Half ty h d q _ Hq eq_refl (eq_sym E) Hd).
  - exact (at_leaf sha512Half ty h d q _ Hq eq_refl eq_refl Hd).
Qed.

Lemma new_leaf_seq item t s : lf_seq (new_leaf sha512Half item t s) = s.
Proof. unfold new_leaf, leaf_updateHash. by destruct (_ =? _). Qed.

Lemma reaches_leaf h q l x : h !! q = Some (N_leaf l) -> reaches h q x -> x = q.
Proof. intros Hq [|(n & b & c & Hn & _)]%reaches_inv; congruence. Qed.

(** Unsharing: the node itself, or a clone under a new pointer. *)
Lemma unshare_cases p nid st node :
  ms_heap st !! p = Some node -> (isRoot nid = true -> map_root st = p) ->
  exists p' st1, unshareNode p nid st = Ok (p', st1) /\ ms_heap st1 = <[p' := clone (map_seq st) node]> (ms_heap st) /\
    ms_map st1 = (if isRoot nid then set_root p' (ms_map st) else ms_map st) /\
    ((p' = p /\ node_seq node = map_seq st) \/ ms_heap st !! p' = None).
Proof.
  intros Hp Hroot. unfold unshareNode, deref. rewrite Hp. cbn. destruct (Z.eqb_spec (node_seq node) (sm_seq (ms_map st))) as [E|E].
  - exists p, st. split_and!; [done| | |by left].
    + rewrite insert_id; [done|]. rewrite Hp. f_equal. unfold map_seq. rewrite <-E. by destruct node as [[]|[]].
    + destruct (isRoot nid); [|done]. unfold set_root. rewrite <-Hroot by done. by destruct st as [h []].
  - eexists _, _. split; [done|]. split_and!; [by destruct (isRoot nid)..|right; apply fresh_None].
Qed.

(** New nodes only, all of this map's sequence number. *)
Definition extends h0 h (s : Z) : Prop :=
  (forall q n, h0 !! q = Some n -> h !! q = Some n) /\ (forall q n, h !! q = Some n -> h0 !! q = None -> node_seq n = s).

Lemma extends_insert h0 h s q n : extends h0 h s -> h0 !! q = None -> node_seq n = s -> extends h0 (<[q := n]> h) s.
Proof.
  intros [H1 H2] Hq Hn. split; intros q' n'.
  - intros Hq'. rewrite lookup_insert_ne by congruence. by apply H1.
  - destruct (decide (q' = q)) as [->|]; [rewrite lookup_insert_eq; congruence|rewrite lookup_insert_ne by done; apply H2].
Qed.

Lemma extends_fresh h0 h s : extends h0 h s -> h0 !! fresh (dom h) = None.
Proof.
  intros [H1 _]. destruct (h0 !! fresh (dom h)) as [n|] eqn:E; [|done]. apply H1 in E. by rewrite fresh_None in E.
Qed.

Lemma extends_below h0 h s slot c d m :
  extends h0 h s -> node_at h d c m -> (forall q, reaches h c q -> h0 !! q = None) -> below h0 h s slot (Some c) d m.
Proof. intros [H1 H2] Hat Hr. split; [intros q n Hq; exists n; split; [by apply H1|by left]|done|]. split; [done|]. intros q Hq. left. by apply Hr. Qed.

Lemma add_at_inner r st tag item M stack nid p n m :
  map_seq st <> 0 -> r = map_root st -> node_at (ms_heap st) 0 r M -> good 0 M -> it_key item = tag ->
  path (ms_heap st) r tag M stack (mDepth nid) (Some p) m ->
  inner_at (ms_heap st) (mDepth nid) p n m -> (mDepth nid = 0%nat \/ (2 <= size m)%nat) -> getChild n (nib (mDepth nid) tag) = None ->
  exists p' st1 st2, unshareNode p nid st = Ok (p', st1) /\ (exists n', ms_heap st1 !! p' = Some (N_inner n')) /\
    add_leaf sha512Half item ty p' nid st1 = Ok st2 /\
    exists st', dirtyUp stack tag p' st2 = Ok st' /\ map_step st st' (upd tag (Some item) M).
Proof.
  intros Hs -> Hr Hg Hkey Hp Hin Hsz Hnone. destruct (path_good _ _ _ _ _ _ _ _ Hg Hp) as [Hd Hgood].
  set (d := mDepth nid) in *. assert (Hlt : (d < 64)%nat) by (destruct Hsz as [->|Hsz]; [lia|by eapply good_depth]).
  pose proof Hin as (Hn & Hok & _). assert (Hr0 : isRoot nid = (d =? 0)%nat) by done.
  destruct (unshare_cases p nid st _ Hn) as (p' & st1 & E1 & Eh1 & Em1 & Hp').
  { rewrite Hr0. intros E%Nat.eqb_eq. rewrite E in Hp. inversion Hp. done. }
  assert (Eseq : sm_seq (ms_map st1) = map_seq st) by (rewrite Em1; by destruct (isRoot nid)).
  unfold add_leaf, make_shared. rewrite Hkey. set (q := fresh (dom (ms_heap st1))). set (lf := N_leaf (new_leaf sha512Half item ty (sm_seq (ms_map st1)))).
  assert (Hq1 : ms_heap st1 !! q = None) by apply fresh_None.
  assert (Hqp : q <> p') by (intros E; rewrite E, Eh1, lookup_insert_eq in Hq1; done).
  assert (Hq0 : ms_heap st !! q = None) by (rewrite Eh1, lookup_insert_ne in Hq1 by done; done).
  set (n1 := mkInner (in_hash n) (map_seq st) (in_hashes n) (in_children n) (in_isBranch n)).
  exists p', st1. eexists. split; [done|]. split; [exists n1; by rewrite Eh1, lookup_insert_eq|].
  fold q. fold lf. clearbody q. unfold modify_inner, deref. cbn [ms_heap]. rewrite lookup_insert_ne, Eh1, lookup_insert_eq by done. cbn [clone setSeq as_inner mbind res_bind].
  fold n1. split; [done|]. set (st2 := store _ _ _).
  assert (Eh2 : ms_heap st2 = <[p' := N_inner (setChild (nib d tag) (Some q) n1)]> (<[q := lf]> (ms_heap st))).
  { unfold st2, store. cbn [ms_heap]. rewrite selectBranch_nib by done. rewrite (insert_insert_ne _ q p') by done. by rewrite insert_insert_eq. }
  assert (Hlf : node_at (<[q := lf]> (ms_heap st)) (S d) q {[tag := item]}).
  { rewrite <-Hkey. eapply new_leaf_at; [by rewrite lookup_insert_eq|lia]. }
  assert (Hbelow : below (ms_heap st) (<[q := lf]> (ms_heap st)) (map_seq st) (getChild n (nib d tag)) (Some q) (S d)
                     (sub d (nib d tag) (upd tag (Some item) m))).
  { apply extends_below; [apply extends_insert; [split; [done|congruence]|done|unfold lf; cbn; by rewrite new_leaf_seq]| |].
    - rewrite sub_upd. destruct Hin as (_ & _ & _ & Hno & _). rewrite Hno by (by rewrite child_at, Hnone by (done || apply nib_lt)). exact Hlf.
    - intros x Hx. by rewrite (reaches_leaf _ _ _ _ (lookup_insert_eq _ _ _) Hx). }
  destruct (dirtyUp_spec (ms_heap st) (map_root st) tag item M stack d (Some p) m Hr Hg Hp p' st2) as (st' & Ed & D1 & D2 & D3).
  - unfold map_seq, st2, store. cbn. by rewrite Eseq.
  - unfold map_root at 1, st2, store. cbn. rewrite Em1, Hr0. by destruct (d =? 0)%nat.
  - unfold map_seq at 1, st2 at 2, store. cbn [ms_map]. rewrite Eseq, Eh2. apply lifted_below.
    + apply (lift_ok (ms_heap st) (<[q := lf]> (ms_heap st)) (map_seq st) p n d m); try done.
      * by eapply path_node.
      * apply nib_lt.
      * intros b' Hne. by apply sub_upd_ne.
      * destruct Hp' as [|Hp']; [by left|right]. by rewrite lookup_insert_ne.
    + destruct Hsz as [->|Hsz]; [by left|right]. pose proof (size_upd_Some tag item m). lia.
  - exists st'. split; [done|]. assert (Hs2 : map_seq st2 = map_seq st) by (unfold map_seq at 1, st2, store; cbn; done).
    assert (Ht2 : sm_state (ms_map st2) = sm_state (ms_map st)) by (unfold st2, store; cbn; rewrite Em1; by destruct (isRoot nid)).
    rewrite Hs2 in D1, D3. rewrite Ht2 in D2. by split.
Qed.

(** *** A leaf becomes a chain of inner nodes *)

Section Split.
Context h0 (s : Z) (item other : SHAMapItem).
Context (Hs : s <> 0) (Hne : it_key item <> it_key other).

#[local] Abbreviation tag := (it_key item).
#[local] Abbreviation m2 := (upd (it_key item) (Some item) {[it_key other := other]}).

Definition blank h p : Prop := h !! p = Some (N_inner (new_inner s)) /\ h0 !! p = None.

(** New inner nodes from [top] at depth [d0] down to [p] at depth [d], pushed while
    the keys agree. *)
Inductive chain h top (d0 : nat) : list (nptr * SHAMapNodeID) -> nat -> nptr -> Prop :=
| chain_nil : blank h top -> chain h top d0 [] d0 top
| chain_cons ch d p nid p' :
    chain h top d0 ch d p -> nib d tag = nib d (it_key other) -> mDepth nid = d -> (d < 64)%nat ->
    blank h p' -> p' ∉ p :: ch.*1 -> chain h top d0 ((p, nid) :: ch) (S d) p'.

Lemma chain_frame h h' top d0 ch d p :
  chain h top d0 ch d p -> (forall q, q ∈ p :: ch.*1 -> h' !! q = h !! q) -> chain h' top d0 ch d p.
Proof.
  unfold blank. induction 1 as [[Hb Hb0]|ch d p nid p' Hch IH Hnib Hnid Hd [Hb Hb0] Hnin]; intros Hf.
  - constructor. split; [rewrite Hf by left|]; done.
  - econstructor; [|done..| |done].
    + apply IH. intros q Hq. apply Hf. by right.
    + split; [rewrite Hf by left|]; done.
Qed.

Lemma chain_blank h top d0 ch d p : chain h top d0 ch d p -> blank h p.
Proof. by intros []. Qed.

Lemma chain_dom h top d0 ch d p : chain h top d0 ch d p -> forall x, x ∈ p :: ch.*1 -> is_Some (h !! x).
Proof.
  unfold blank. induction 1 as [[Hb Hb0]|ch d p nid p' Hch IH Hnib Hnid Hd [Hb Hb0] Hnin]; intros x [->|Hx]%elem_of_cons.
  - by eexists.
  - by apply elem_of_nil in Hx.
  - by eexists.
  - by apply IH.
Qed.

Lemma split_loop_spec top d0 stack : forall fuel p nid ch st,
  map_seq st = s -> extends h0 (ms_heap st) s -> chain (ms_heap st) top d0 ch (mDepth nid) p ->
  (mDepth nid <= 64)%nat -> pre (mDepth nid) tag = pre (mDepth nid) (it_key other) -> (64 - mDepth nid < fuel)%nat ->
  exists p' nid' ch' st', split_loop fuel tag (it_key other) p nid (ch ++ stack) st = Ok (p', nid', ch' ++ stack, st') /\
    ms_map st' = ms_map st /\ extends h0 (ms_heap st') s /\ chain (ms_heap st') top d0 ch' (mDepth nid') p' /\
    (mDepth nid' < 64)%nat /\ nib (mDepth nid') tag <> nib (mDepth nid') (it_key other).
Proof.
  induction fuel as [|fuel IH]; intros p nid ch st Hseq Hext Hch Hd Hpre Hf; [lia|]. cbn [split_loop].
  assert (Hlt : (mDepth nid < 64)%nat).
  { destruct (decide (mDepth nid = 64%nat)) as [E|]; [|lia]. exfalso. rewrite E, !pre_64 in Hpre. done. }
  rewrite !selectBranch_nib by done. destruct (Nat.eqb_spec (nib (mDepth nid) tag) (nib (mDepth nid) (it_key other))) as [E|E].
  - unfold make_shared. set (q := fresh (dom (ms_heap st))). assert (Hq : ms_heap st !! q = None) by apply fresh_None.
    assert (Hq0 : h0 !! q = None) by (by eapply extends_fresh).
    destruct (IH q (getChildNodeID nid (nib (mDepth nid) tag)) ((p, nid) :: ch)
      (mkMS (<[q := N_inner (new_inner (sm_seq (ms_map st)))]> (ms_heap st)) (ms_map st))) as (p' & nid' & ch' & st' & E' & H); cbn [ms_heap ms_map getChildNodeID mDepth].
    + done.
    + apply extends_insert; [done..|]. exact Hseq.
    + replace (mDepth nid + 1)%nat with (S (mDepth nid)) by lia. econstructor; [|done..| |].
      * eapply chain_frame; [done|]. intros x Hx. rewrite lookup_insert_ne; [done|]. intros <-.
        assert (Hall : forall x, x ∈ p :: ch.*1 -> is_Some (ms_heap st !! x)) by (by eapply chain_dom). destruct (Hall _ Hx). congruence.
      * split; [|done]. rewrite lookup_insert_eq. unfold map_seq in Hseq. by rewrite Hseq.
      * intros Hx. assert (Hall : forall x, x ∈ p :: ch.*1 -> is_Some (ms_heap st !! x)) by (by eapply chain_dom). destruct (Hall _ Hx). congruence.
    + lia.
    + replace (mDepth nid + 1)%nat with (S (mDepth nid)) by lia. rewrite !pre_S by done. congruence.
    + lia.
    + exists p', nid', ch', st'. split; [exact E'|exact H].
  - exists p, nid, ch, st. by split_and!.
Qed.

Lemma two_lookup k : m2 !! k = if decide (k = tag) then Some item else if decide (k = it_key other) then Some other else None.
Proof.
  rewrite lookup_upd. case_decide; [done|]. case_decide as E; [subst; by rewrite lookup_singleton_eq|by rewrite lookup_singleton_ne].
Qed.

Lemma two_size : (2 <= size m2)%nat.
Proof.
  change m2 with (<[tag := item]> ({[it_key other := other]} : Items)). rewrite map_size_insert_None by (by rewrite lookup_singleton_ne).
  rewrite map_size_singleton. lia.
Qed.

Lemma two_same d b : nib d tag = nib d (it_key other) -> sub d b m2 = if decide (b = nib d tag) then m2 else ∅.
Proof.
  intros E. apply map_eq. intros k. rewrite lookup_sub, two_lookup. destruct (decide (b = nib d tag)) as [->|Hb]; [rewrite two_lookup|rewrite lookup_empty].
  all: destruct (decide (k = tag)) as [->|]; [|destruct (decide (k = it_key other)) as [->|]; [|done]]; cbn; by case_decide; congruence || done.
Qed.

Lemma two_split d b : nib d tag <> nib d (it_key other) ->
  sub d b m2 = if decide (b = nib d tag) then {[tag := item]} else if decide (b = nib d (it_key other)) then {[it_key other := other]} else ∅.
Proof.
  intros E. apply map_eq. intros k. rewrite lookup_sub, two_lookup.
  destruct (decide (b = nib d tag)) as [->|Hb1]; [|destruct (decide (b = nib d (it_key other))) as [->|Hb2]].
  all: rewrite ?lookup_singleton, ?lookup_empty; destruct (decide (k = tag)) as [->|H1]; [|destruct (decide (k = it_key other)) as [->|H2]].
  all: cbn; repeat case_decide; congruence.
Qed.

Lemma chain_nodup h top d0 ch d p : chain h top d0 ch d p -> p ∉ ch.*1.
Proof. intros []; [by intros ?%elem_of_nil|]. by rewrite fmap_cons. Qed.

Lemma chain_rest h top d0 ch d p : chain h top d0 ch d p -> forall q, q ∈ ch.*1 -> blank h q /\ q <> p.
Proof.
  induction 1 as [|ch d p nid p' Hch IH _ _ _ _ Hnin]; intros q Hq; [by apply elem_of_nil in Hq|]. rewrite fmap_cons in Hq.
  split; [|intros ->; by apply Hnin]. apply elem_of_cons in Hq as [->|Hq]; [by eapply chain_blank|by apply IH].
Qed.

Lemma blank_child b c b' x : in_children (setChild b (Some c) (new_inner s)) !! b' = Some x -> (b' = b /\ x = Some c) \/ (b' <> b /\ x = None).
Proof.
  cbn [in_children setChild new_inner]. destruct (decide (b' = b)) as [->|Hb]; [|rewrite list_lookup_insert_ne by done; intros [-> _]%lookup_replicate; by right].
  intros H. pose proof (lookup_lt_Some _ _ _ H) as Hlt. rewrite length_insert in Hlt. rewrite list_lookup_insert_eq in H by done.
  left. by injection H as <-.
Qed.

Lemma dirtyUp_owned p nid stack id child st n :
  ms_heap st !! p = Some (N_inner n) -> in_seq n = map_seq st ->
  dirtyUp ((p, nid) :: stack) id child st = dirtyUp stack id p (store p (N_inner (setChild (selectBranch nid id) (Some child) n)) st).
Proof.
  intros Hp Hseq. cbn [dirtyUp]. unfold unshareNode, modify_inner, deref. rewrite Hp. cbn.
  unfold map_seq in Hseq. rewrite Hseq, Z.eqb_refl. cbn. by rewrite Hp.
Qed.

Lemma dirtyUp_chain h top d0 stack ch d p :
  chain h top d0 ch d p -> forall child st,
  (forall q, q ∈ ch.*1 -> blank (ms_heap st) q) -> map_seq st = s -> extends h0 (ms_heap st) s -> node_at (ms_heap st) d child m2 ->
  (forall q, reaches (ms_heap st) child q -> h0 !! q = None /\ q ∉ ch.*1) ->
  exists top' st', dirtyUp (ch ++ stack) tag child st = dirtyUp stack tag top' st' /\ ms_map st' = ms_map st /\
    extends h0 (ms_heap st') s /\ node_at (ms_heap st') d0 top' m2 /\ forall q, reaches (ms_heap st') top' q -> h0 !! q = None.
Proof.
  induction 1 as [Hb|ch d p nid p' Hch IH Hnib Hnid Hd Hb Hnin]; intros child st Hrest Hseq Hext Hat Hreach.
  { exists child, st. split_and!; [done..|]. intros q Hq. by apply Hreach. }
  rewrite fmap_cons in Hrest, Hreach. destruct (Hrest p) as [Hp Hp0]; [left|].
  cbn [app]. rewrite (dirtyUp_owned p nid _ _ _ _ _ Hp) by done. rewrite selectBranch_nib, Hnid by lia.
  set (st1 := store p _ st). change (ms_map st) with (ms_map st1).
  assert (Hframe : forall q, reaches (ms_heap st) child q -> ms_heap st1 !! q = ms_heap st !! q).
  { intros q Hq. unfold st1, store. cbn. rewrite lookup_insert_ne; [done|]. intros <-. destruct (Hreach p Hq) as [_ Hn]. apply Hn. left. }
  apply IH.
  - intros q Hq. destruct (Hrest q) as [H1 H2]; [by right|]. split; [|done]. unfold st1, store. cbn. rewrite lookup_insert_ne; [done|].
    intros <-. by apply (chain_nodup _ _ _ _ _ _ Hch).
  - done.
  - by apply extends_insert.
  - eapply node_at_inner; [|right; apply two_size].
    split_and!; [unfold st1, store; cbn; by rewrite lookup_insert_eq|apply inner_ok_setChild; [apply inner_ok_new|apply nib_lt]| | |by left|done].
    + intros b c [[-> [= ->]]|[_ ?]]%blank_child; [|done]. rewrite two_same, decide_True by done. by eapply node_at_frame.
    + intros b [[_ ?]|[Hne' _]]%blank_child; [done|]. by rewrite two_same, decide_False by done.
  - intros q [<-|(n & b & c & Hn & Hc & Hr)]%reaches_inv; [split; [done|by eapply chain_nodup]|].
    unfold st1, store in Hn. cbn [ms_heap] in Hn. rewrite lookup_insert_eq in Hn. injection Hn as <-.
    apply blank_child in Hc as [[_ [= ->]]|[_ ?]]; [|done]. destruct (Hreach q) as [H1 H2]; [by eapply reaches_frame|].
    split; [done|]. intros Hq. apply H2. by right.
Qed.

(** The two leaves under the last node of the chain. *)
Lemma fork_child b1 q1 b2 q2 b x :
  b1 <> b2 -> (b1 < 16)%nat -> (b2 < 16)%nat ->
  in_children (setChild b2 (Some q2) (setChild b1 (Some q1) (new_inner s))) !! b = Some x ->
  x = (if decide (b = b1) then Some q1 else if decide (b = b2) then Some q2 else None).
Proof.
  intros H12 H1 H2. cbn [in_children setChild new_inner]. destruct (decide (b = b2)) as [->|Hb2].
  - rewrite list_lookup_insert_eq by (by rewrite length_insert, length_replicate). intros [= <-]. by rewrite decide_False.
  - rewrite list_lookup_insert_ne by done. destruct (decide (b = b1)) as [->|Hb1].
    + rewrite list_lookup_insert_eq by (by rewrite length_replicate). by intros [= <-].
    + rewrite list_lookup_insert_ne by done. by intros [-> _]%lookup_replicate.
Qed.

Lemma fork_ok h d p q1 q2 :
  nib d tag <> nib d (it_key other) ->
  h !! p = Some (N_inner (setChild (nib d (it_key other)) (Some q2) (setChild (nib d tag) (Some q1) (new_inner s)))) ->
  h !! q1 = Some (N_leaf (new_leaf sha512Half item ty s)) -> h !! q2 = Some (N_leaf (new_leaf sha512Half other ty s)) ->
  node_at h d p m2 /\ forall q, reaches h p q -> q = p \/ q = q1 \/ q = q2.
Proof.
  intros Hnib Hp H1 H2. split.
  - eapply node_at_inner; [|right; apply two_size].
    split_and!; [done|repeat apply inner_ok_setChild; [apply inner_ok_new|apply nib_lt..]| | |by left|done].
    + intros b c Hc%fork_child; [|done|apply nib_lt..]. rewrite two_split by done. case_decide; [|case_decide; [|done]]; injection Hc as ->.
      * by eapply new_leaf_at; [|lia].
      * by eapply new_leaf_at; [|lia].
    + intros b Hc%fork_child; [|done|apply nib_lt..]. rewrite two_split by done. case_decide; [done|]. by case_decide.
  - intros q [<-|(n & b & c & Hn & Hc & Hr)]%reaches_inv; [by left|right]. rewrite Hp in Hn. injection Hn as <-.
    apply fork_child in Hc; [|done|apply nib_lt..]. case_decide; [|case_decide; [|done]]; injection Hc as ->.
    + left. by eapply reaches_leaf.
    + right. by eapply reaches_leaf.
Qed.

Lemma add_leaf_owned st it nid p n :
  (mDepth nid < 64)%nat -> ms_heap st !! p = Some (N_inner n) ->
  exists q, ms_heap st !! q = None /\ q <> p /\
    add_leaf sha512Half it ty p nid st =
    Ok (mkMS (<[p := N_inner (setChild (nib (mDepth nid) (it_key it)) (Some q) n)]>
               (<[q := N_leaf (new_leaf sha512Half it ty (map_seq st))]> (ms_heap st))) (ms_map st)).
Proof.
  intros Hd Hp. pose proof (fresh_None (ms_heap st)) as Hq. set (q := fresh (dom (ms_heap st))) in *.
  assert (Hne' : q <> p) by congruence. exists q. split_and!; [done..|].
  unfold add_leaf, make_shared, modify_inner, deref. fold q. cbn [ms_heap]. rewrite lookup_insert_ne, Hp by done.
  by rewrite selectBranch_nib.
Qed.

Lemma fork_leaves st nid p :
  (mDepth nid < 64)%nat -> nib (mDepth nid) tag <> nib (mDepth nid) (it_key other) -> map_seq st = s ->
  extends h0 (ms_heap st) s -> blank (ms_heap st) p ->
  exists st', (st ← add_leaf sha512Half item ty p nid st; add_leaf sha512Half other ty p nid st) = Ok st' /\
    ms_map st' = ms_map st /\ extends h0 (ms_heap st') s /\ node_at (ms_heap st') (mDepth nid) p m2 /\
    (forall q, reaches (ms_heap st') p q -> q = p \/ ms_heap st !! q = None) /\
    (forall q x, ms_heap st !! q = Some x -> q <> p -> ms_heap st' !! q = Some x).
Proof.
  intros Hd Hnib Hseq Hext [Hp Hp0]. destruct (add_leaf_owned st item nid p _ Hd Hp) as (q1 & Hq1 & Hq1p & ->). cbn [mbind res_bind].
  set (st1 := mkMS _ _). destruct (add_leaf_owned st1 other nid p _ Hd (lookup_insert_eq _ _ _)) as (q2 & Hq2 & Hq2p & ->).
  eexists. split; [done|]. cbn [ms_heap ms_map st1] in *. change (map_seq st1) with (map_seq st). rewrite Hseq in *.
  assert (Hq21 : q2 <> q1) by (intros ->; rewrite lookup_insert_ne, lookup_insert_eq in Hq2 by done; done).
  rewrite !lookup_insert_ne in Hq2 by done.
  assert (Hn : forall q, ms_heap st !! q = None -> h0 !! q = None) by (intros q E; destruct (h0 !! q) eqn:E0; [apply Hext in E0; congruence|done]).
  set (h2 := <[p := N_inner (setChild (nib (mDepth nid) (it_key other)) _ _)]> _).
  destruct (fork_ok h2 (mDepth nid) p q1 q2 Hnib) as [Hat Hr].
  - unfold h2. by rewrite lookup_insert_eq.
  - unfold h2. by rewrite !lookup_insert_ne, lookup_insert_eq by done.
  - unfold h2. by rewrite lookup_insert_ne, lookup_insert_eq by done.
  - split_and!; [done| |exact Hat| |].
    + unfold h2. repeat apply extends_insert; auto; cbn; by rewrite new_leaf_seq.
    + intros q Hq. destruct (Hr q Hq) as [->|[->| ->]]; [by left|by right..].
    + intros q x Hq Hqp. unfold h2. by rewrite !lookup_insert_ne by congruence.
Qed.
End Split.

Lemma path_pre h r id M stack d slot m :
  good 0 M -> 0 <= id < 2 ^ 256 -> path h r id M stack d slot m -> forall k it, m !! k = Some it -> pre d k = pre d id.
Proof.
  intros Hg Hid Hp. induction Hp as [|stack d p nid n m Hp IH _ Hs _]; intros k it Hk.
  - rewrite !pre_0; [done..|]. by apply Hg in Hk as [_ ?].
  - destruct (path_good _ _ _ _ _ _ _ _ Hg Hp) as [Hd Hgood].
    assert (Hlt : (d < 64)%nat) by (destruct Hs as [->|Hs]; [lia|by eapply good_depth]).
    apply sub_Some in Hk as [Hk Hb]. by rewrite !pre_S, (IH _ _ Hk), Hb.
Qed.

Lemma add_at_leaf r st item M stack nid p l m :
  map_seq st <> 0 -> r = map_root st -> node_at (ms_heap st) 0 r M -> good 0 M -> 0 <= it_key item < 2 ^ 256 ->
  path (ms_heap st) r (it_key item) M stack (mDepth nid) (Some p) m ->
  ms_heap st !! p = Some (N_leaf l) -> it_key (lf_item l) <> it_key item ->
  exists p1 st1 l1, unshareNode p nid st = Ok (p1, st1) /\ ms_heap st1 !! p1 = Some (N_leaf l1) /\ lf_item l1 = lf_item l /\
    exists st', (let (node, st1) := make_shared (N_inner (new_inner (lf_seq l1))) st1 in
      '(node, nodeID, stack, st1) ← split_loop max_path (it_key item) (it_key (lf_item l1)) node nid stack st1;
      st1 ← add_leaf sha512Half item ty node nodeID st1;
      st1 ← add_leaf sha512Half (lf_item l1) ty node nodeID st1;
      dirtyUp stack (it_key item) node st1) = Ok st' /\ map_step st st' (upd (it_key item) (Some item) M).
Proof.
  intros Hs -> Hr Hg Hkey Hp Hl Hne. destruct (path_good _ _ _ _ _ _ _ _ Hg Hp) as [Hd Hgood].
  pose proof (path_node _ _ _ _ _ _ _ _ Hr Hp) as Hat. set (d := mDepth nid) in *. set (s := map_seq st) in *.
  apply node_at_inv in Hat as [(l' & Hl' & _ & _ & Hd0 & ->)|(n & (Hn & _) & _)]; [|congruence].
  assert (l' = l) as -> by congruence. assert (Hr0 : isRoot nid = false) by (apply Nat.eqb_neq; fold d; lia).
  destruct (unshare_cases p nid st _ Hl) as (p1 & st1 & E1 & Eh1 & Em1 & Hp1); [by rewrite Hr0|]. rewrite Hr0 in Em1.
  set (l1 := mkLeaf (lf_hash l) s (lf_type l) (lf_item l)). cbn [clone setSeq] in Eh1. fold l1 in Eh1.
  exists p1, st1, l1. split; [done|]. split; [by rewrite Eh1, lookup_insert_eq|]. split; [done|].
  assert (Hext1 : extends (ms_heap st) (ms_heap st1) s).
  { rewrite Eh1. destruct Hp1 as [[-> Hseq]|Hp1]; [|by apply extends_insert; [split; [done|congruence]|..]].
    rewrite insert_id; [split; [done|congruence]|]. rewrite Hl. unfold l1. cbn in Hseq. rewrite <-Hseq. by destruct l. }
  unfold make_shared at 1. set (q0 := fresh (dom (ms_heap st1))). cbn [lf_item lf_seq l1].
  assert (Hq0 : ms_heap st !! q0 = None) by (by eapply extends_fresh).
  destruct (split_loop_spec (ms_heap st) s item (lf_item l) (not_eq_sym Hne) q0 d stack max_path q0 nid []
    (mkMS (<[q0 := N_inner (new_inner s)]> (ms_heap st1)) (ms_map st1))) as (p' & nid' & ch & st2 & E2 & Em2 & Hext2 & Hch & Hd' & Hnib).
  - unfold map_seq. cbn. by rewrite Em1.
  - by apply extends_insert.
  - constructor. split; [|done]. cbn. by rewrite lookup_insert_eq.
  - done.
  - symmetry. eapply (path_pre _ _ _ _ _ _ _ _ Hg Hkey Hp). by rewrite lookup_singleton_eq.
  - unfold max_path. lia.
  - change (([] : list (nptr * SHAMapNodeID)) ++ stack) with stack in E2. rewrite E2. cbn [mbind res_bind].
    destruct (chain_blank _ _ _ _ _ _ _ _ _ _ Hch) as [Hb Hb0].
    assert (Es2 : sm_seq (ms_map st2) = s) by (rewrite Em2; cbn; by rewrite Em1).
    destruct (fork_leaves (ms_heap st) s item (lf_item l) Hs (not_eq_sym Hne) st2 nid' p' Hd' Hnib Es2 Hext2 (conj Hb Hb0))
      as (st3 & E3 & Em3 & Hext3 & Hat3 & Hreach3 & Hsame3).
    apply bind_Ok in E3 as (st2' & E3 & E3'). rewrite E3. cbn [mbind res_bind]. rewrite E3'. cbn [mbind res_bind].
    pose proof (chain_rest _ _ _ _ _ _ _ _ _ _ Hch) as Hrest.
    destruct (dirtyUp_chain (ms_heap st) s item (lf_item l) Hs (not_eq_sym Hne) _ _ _ stack _ _ _ Hch p' st3) as (top & st4 & E4 & Em4 & Hext4 & Hat4 & Hreach4); try done.
    + intros q Hq. destruct (Hrest q Hq) as ([Hbl Hbl0] & Hqp). split; [by apply Hsame3|done].
    + unfold map_seq. by rewrite Em3.
    + intros q Hq. destruct (Hreach3 q Hq) as [->|Hn]; [split; [done|by eapply chain_nodup]|]. split.
      * destruct (ms_heap st !! q) eqn:E; [apply Hext2 in E; congruence|done].
      * intros Hq'. destruct (Hrest q Hq') as ([Hbl _] & _). congruence.
    + rewrite E4. assert (Em : ms_map st4 = ms_map st) by (rewrite Em4, Em3, Em2; exact Em1).
      destruct (dirtyUp_spec (ms_heap st) (map_root st) (it_key item) item M stack d (Some p) _ Hr Hg Hp top st4) as (st' & E' & D1 & D2 & D3).
      * unfold map_seq. by rewrite Em.
      * unfold map_root. rewrite Em. destruct (Nat.eqb_spec d 0); [lia|done].
      * unfold map_seq. rewrite Em. by apply extends_below.
      * exists st'. split; [done|]. unfold map_seq in D1, D3. rewrite Em in D1, D2, D3. by split.
Qed.

Lemma deref_Some h p n : h !! p = Some n -> deref h p = Ok n.
Proof. unfold deref. by intros ->. Qed.
(** ** What is left under a node *)

(** The branches in use. *)
Definition used (n : InnerNode) (bs : list nat) : list nat := List.filter (fun i => negb (isEmptyBranch n i)) bs.

Lemma only_child_spec n bs next : inner_ok n -> (forall b, b ∈ bs -> (b < 16)%nat) ->
  only_child n bs next = Ok (match next, used n bs with
    | None, [] => Some None | None, [b] => Some (getChild n b) | None, _ => None
    | Some c, [] => Some (Some c) | Some c, _ => None end).
Proof.
  intros Hok. revert next. induction bs as [|b bs IH]; intros next Hb; cbn [only_child used List.filter]; [by destruct next|].
  assert (Hbs : forall x, x ∈ bs -> (x < 16)%nat) by (intros x Hx; apply Hb; by right).
  rewrite (isEmptyBranch_child n b Hok) by (apply Hb; left). unfold descendThrow. fold (used n bs).
  destruct (getChild n b) as [c|] eqn:Ec.
  - rewrite bool_decide_false by done. destruct next as [c'|]; cbn [negb]; [done|]. cbn [mbind res_bind]. rewrite (IH (Some c) Hbs), Ec.
    by destruct (used n bs).
  - rewrite bool_decide_true by done. cbn [negb]. by rewrite IH.
Qed.

Lemma used_spec h d p n m b : inner_at h d p n m -> b ∈ used n (seq 0 16) <-> exists k it, m !! k = Some it /\ nib d k = b.
Proof.
  intros Hin. pose proof Hin as (_ & Hok & Hcs & Hno & _). unfold used. rewrite list_elem_of_In, filter_In, <-list_elem_of_In, elem_of_seq. split.
  - intros [Hb He]. assert (Hlt : (b < 16)%nat) by lia. rewrite (isEmptyBranch_child n b Hok Hlt) in He.
    pose proof (child_at n b Hok Hlt) as Hc. destruct (getChild n b) as [c|]; [|by rewrite bool_decide_true in He].
    pose proof (node_at_nonempty _ _ _ _ _ _ (Hcs _ _ Hc) ltac:(lia)) as Hne.
    destruct (map_choose _ Hne) as (k & it & [Hk Hb']%sub_Some). by exists k, it.
  - intros (k & it & Hk & <-). pose proof (nib_lt d k). split; [lia|]. rewrite (isEmptyBranch_child n _ Hok (nib_lt d k)).
    destruct (inner_sub _ _ _ _ _ _ _ _ _ Hin Hk) as (c & Hc & _). unfold getChild. rewrite Hc. done.
Qed.

Definition single (m : Items) : option SHAMapItem := match map_to_list m with [(_, it)] => Some it | _ => None end.

Lemma single_singleton k it : single {[k := it]} = Some it.
Proof. unfold single. by rewrite map_to_list_singleton. Qed.

Lemma single_None m : (2 <= size m)%nat -> single m = None.
Proof.
  rewrite <-length_map_to_list. unfold single. destruct (map_to_list m) as [|[k it] [|]]; cbn; [lia..|done].
Qed.

Lemma single_Some m it : single m = Some it -> (forall k it, m !! k = Some it -> it_key it = k /\ 0 <= k < 2 ^ 256) -> m = {[it_key it := it]}.
Proof.
  unfold single. destruct (map_to_list m) as [|[k it'] [|]] eqn:E; [done| |done]. intros [= ->] Hg.
  assert (Hm : m = {[k := it]}) by (apply map_to_list_inj; rewrite map_to_list_singleton, E; done).
  destruct (Hg k it) as [-> _]; [rewrite Hm; apply lookup_singleton_eq|]. done.
Qed.

Lemma size_two (m : Items) k k' it it' : m !! k = Some it -> m !! k' = Some it' -> k <> k' -> (2 <= size m)%nat.
Proof.
  intros Hk Hk' Hne. rewrite <-(insert_delete_id m k it Hk), map_size_insert_None by apply lookup_delete_eq.
  rewrite <-(insert_delete_id (delete k m) k' it') by (by rewrite lookup_delete_ne).
  rewrite map_size_insert_None by apply lookup_delete_eq. lia.
Qed.

(** What the number of branches says about the items. *)
Lemma used_cases h d p n m : inner_at h d p n m ->
  match used n (seq 0 16) with
  | [] => m = ∅
  | [b] => m <> ∅ /\ sub d b m = m /\ (b < 16)%nat
  | _ => (2 <= size m)%nat
  end.
Proof.
  intros Hin.
  assert (Hu : forall b, b ∈ used n (seq 0 16) <-> exists k it, m !! k = Some it /\ nib d k = b) by (intros; by eapply used_spec).
  assert (Hnd : NoDup (used n (seq 0 16))) by (apply NoDup_ListNoDup, List.NoDup_filter, NoDup_ListNoDup, NoDup_seq).
  destruct (used n (seq 0 16)) as [|b [|b' bs]].
  - apply map_empty. intros k. destruct (m !! k) as [it|] eqn:E; [|done]. exfalso. eapply elem_of_nil. apply Hu. by exists k, it.
  - destruct (proj1 (Hu b)) as (k & it & Hk & Hb); [left|]. split_and!.
    + intros ->. done.
    + apply sub_all. intros k' it' Hk'. assert (Hin' : nib d k' ∈ [b]) by (apply Hu; by exists k', it'). by apply list_elem_of_singleton in Hin'.
    + rewrite <-Hb. apply nib_lt.
  - destruct (proj1 (Hu b)) as (k & it & Hk & Hb); [left|]. destruct (proj1 (Hu b')) as (k' & it' & Hk' & Hb'); [right; left|].
    apply (size_two m k k' it it'); [done..|]. intros ->. apply NoDup_cons in Hnd as [Hn _]. apply Hn. rewrite <-Hb, Hb'. left.
Qed.

Lemma two_branches h d p n m b b' bs : inner_at h d p n m -> used n (seq 0 16) = b :: b' :: bs ->
  exists k k' it it', m !! k = Some it /\ m !! k' = Some it' /\ nib d k <> nib d k'.
Proof.
  intros Hin Eu. assert (Hnd : NoDup (used n (seq 0 16))) by (apply NoDup_ListNoDup, List.NoDup_filter, NoDup_ListNoDup, NoDup_seq).
  destruct (proj1 (used_spec _ _ _ _ _ b Hin)) as (k & it & Hk & Hb); [rewrite Eu; left|].
  destruct (proj1 (used_spec _ _ _ _ _ b' Hin)) as (k' & it' & Hk' & Hb'); [rewrite Eu; right; left|].
  exists k, k', it, it'. split_and!; [done..|]. rewrite Hb, Hb'. intros ->. rewrite Eu in Hnd. apply NoDup_cons in Hnd as [Hn _]. apply Hn. left.
Qed.

Lemma onlyBelow_inner h d p n m fuel : inner_at h d p n m ->
  (forall b c, in_children n !! b = Some (Some c) -> sub d b m = m -> onlyBelow fuel h c = Ok (single m)) ->
  onlyBelow (S fuel) h p = Ok (single m).
Proof.
  intros Hin Hrec. pose proof (used_cases _ _ _ _ _ Hin) as Hu. pose proof Hin as (Hp & Hok & _). cbn [onlyBelow].
  rewrite (deref_Some _ _ _ Hp). cbn [mbind res_bind]. rewrite only_child_spec by (done || (intros b Hb%elem_of_seq; lia)).
  cbn [mbind res_bind]. destruct (used n (seq 0 16)) as [|b [|b' bs]].
  - subst m. unfold single. by rewrite map_to_list_empty.
  - destruct Hu as (Hne & Hsub & Hb). pose proof (child_at n b Hok Hb) as Hc. destruct (getChild n b) as [c|] eqn:Ec; [by apply (Hrec b)|].
    destruct Hin as (_ & _ & _ & Hno & _). rewrite (Hno b Hc) in Hsub. congruence.
  - by rewrite single_None.
Qed.

Lemma onlyBelow_spec h : forall fuel d p m, node_at h d p m -> good d m -> (d <= 64)%nat -> (65 - d <= fuel)%nat -> onlyBelow fuel h p = Ok (single m).
Proof.
  induction fuel as [|fuel IH]; intros d p m Hat Hg Hd Hf; [lia|].
  apply node_at_inv in Hat as [(l & Hl & _ & _ & _ & ->)|(n & Hin & Hsz)].
  - cbn [onlyBelow]. rewrite (deref_Some _ _ _ Hl). cbn. by rewrite single_singleton.
  - assert (Hlt : (d < 64)%nat) by (destruct Hsz as [->|Hsz]; [lia|by eapply good_depth]).
    apply (onlyBelow_inner h d p n m); [done|]. intros b c Hc Hsub. pose proof Hin as (_ & _ & Hcs & _). apply Hcs in Hc.
    rewrite <-Hsub. apply (IH (S d)); [done|by apply good_sub|lia..].
Qed.

Lemma single_cases m : m <> ∅ -> single m = None -> (2 <= size m)%nat.
Proof.
  intros Hne Hs. rewrite <-length_map_to_list. unfold single in Hs.
  destruct (map_to_list m) as [|[k it] [|]] eqn:E; [by apply map_to_list_empty_iff in E|done|cbn; lia].
Qed.

Lemma size_del id it m : m !! id = Some it -> size m = S (size (upd id None m)).
Proof.
  intros Hm. change (upd id None m) with (delete id m). rewrite <-(insert_delete_id m id it Hm) at 1.
  by rewrite map_size_insert_None by apply lookup_delete_eq.
Qed.

Lemma good_upd_None d id m : good d m -> good d (upd id None m).
Proof. apply good_mono. change (upd id None m) with (delete id m). apply delete_subseteq. Qed.

(** The only item left under a node takes the node's place. *)
Lemma pulled_up h0 h s p p' d it x q :
  lifted h0 h s p p' d {[it_key it := it]} -> in_seq x = s -> (0 < d)%nat -> <[p' := N_inner x]> h !! q = None ->
  below h0 (<[q := N_leaf (new_leaf sha512Half it ty s)]> (<[p' := N_inner x]> h)) s (Some p) (Some q) d {[it_key it := it]}.
Proof.
  intros [H1 H2 (n' & Hin & Hseq) H4] Hx Hd Hq. pose proof Hin as (Hp' & _).
  assert (Hqp : q <> p') by (intros ->; by rewrite lookup_insert_eq in Hq). rewrite lookup_insert_ne in Hq by done.
  assert (Hq0 : h0 !! q = None) by (destruct (h0 !! q) eqn:E; [|done]; destruct (H1 _ _ E) as (? & ? & _); congruence).
  split.
  - intros y n Hy. rewrite lookup_insert_ne by congruence. destruct (H1 y n Hy) as (n2 & Hn2 & Hor).
    destruct (decide (y = p')) as [->|Hne]; [rewrite lookup_insert_eq|rewrite lookup_insert_ne by done].
    + eexists. split; [done|]. right. assert (Hns : node_seq n = s) by (destruct Hor as [->|(? & _)]; [assert (n = N_inner n') as -> by congruence|]; done).
      split_and!; [done|done|]. exists p. split; [done|]. destruct (H4 p' (reach_refl _ _)); [congruence|done].
    + exists n2. split; [done|]. destruct Hor as [->|(? & ? & ?)]; [by left|right]. split_and!; [done..|]. by exists p.
  - intros y n. destruct (decide (y = q)) as [->|]; [rewrite lookup_insert_eq; intros [= <-] _; apply new_leaf_seq|rewrite lookup_insert_ne by done].
    destruct (decide (y = p')) as [->|]; [rewrite lookup_insert_eq; intros [= <-] _; done|rewrite lookup_insert_ne by done]. apply H2.
  - split; [eapply new_leaf_at; [by rewrite lookup_insert_eq|done]|].
    intros y Hy. left. by rewrite (reaches_leaf _ _ _ _ (lookup_insert_eq _ _ _) Hy).
Qed.

Lemma del_loop_spec h0 r id it M stack d slot m :
  node_at h0 0 r M -> good 0 M -> M !! id = Some it -> path h0 r id M stack d slot m -> forall prev st,
  map_seq st <> 0 -> (if (d =? 0)%nat then prev = Some (map_root st) else map_root st = r) ->
  below h0 (ms_heap st) (map_seq st) slot prev d (upd id None m) ->
  exists st', del_loop sha512Half stack id ty prev st = Ok st' /\ map_seq st' = map_seq st /\ sm_state (ms_map st') = sm_state (ms_map st) /\
    below h0 (ms_heap st') (map_seq st) (Some r) (Some (map_root st')) 0 (upd id None M).
Proof.
  intros Hat Hg HM Hp. induction Hp as [|stack d p nid n m Hp IH Hin Hsz Hnid]; intros prev st Hs Hroot Hb.
  { exists st. split_and!; [done..|]. cbn in Hroot. by rewrite <-Hroot. }
  destruct (path_good _ _ _ _ _ _ _ _ Hg Hp) as [Hd Hgood]. cbn [Nat.eqb] in Hroot.
  assert (Hlt : (d < 64)%nat) by (destruct Hsz as [->|Hsz]; [lia|by eapply good_depth]).
  assert (Hr0 : isRoot nid = (d =? 0)%nat) by (unfold isRoot; by rewrite Hnid).
  destruct (replace_child h0 st p nid n d m (upd id None m) id prev) as (p' & st1 & st2 & E1 & E2 & Hl & Hm); try done.
  { by eapply path_node. }
  { rewrite Hr0. intros ->%Nat.eqb_eq. apply path_depth in Hp as Hlen. destruct stack; [|done]. inversion Hp. congruence. }
  { by rewrite sub_upd. }
  { intros b' Hne. by apply sub_upd_ne. }
  cbn [del_loop]. rewrite E1. cbn [mbind res_bind]. rewrite E2. cbn [mbind res_bind]. rewrite Hr0 in *.
  destruct (Nat.eqb_spec d 0) as [->|Hd0].
  { apply path_depth in Hp as Hlen. destruct stack; [|done]. inversion Hp; subst. cbn [del_loop]. exists st2.
    unfold map_seq at 1, map_root. rewrite Hm. split_and!; [done..|]. apply lifted_below; [done|by left]. }
  destruct Hsz as [|Hsz]; [done|]. pose proof (lf_at _ _ _ _ _ _ _ Hl) as (n' & Hin' & Hseq'). pose proof Hin' as (Hp' & _).
  rewrite (deref_Some _ _ _ Hp'). cbn [mbind res_bind as_inner]. change (getBranchCount n') with (length (used n' (seq 0 16))).
  assert (Hmid : m !! id = Some it) by (by rewrite (path_lookup _ _ _ _ _ _ _ _ Hp)).
  pose proof (size_del id it m Hmid) as Hsize. pose proof (good_upd_None d id m Hgood) as Hgood'.
  assert (Hkeep : (2 <= size (upd id None m))%nat -> exists st', del_loop sha512Half stack id ty (Some p') st2 = Ok st' /\
    map_seq st' = map_seq st /\ sm_state (ms_map st') = sm_state (ms_map st) /\
    below h0 (ms_heap st') (map_seq st) (Some r) (Some (map_root st')) 0 (upd id None M)).
  { intros H2. rewrite <-Hm. change (map_seq st) with (sm_seq (ms_map st)). rewrite <-Hm. apply IH; unfold map_seq, map_root in *; rewrite Hm; [done| |].
    - first [exact Hroot|by rewrite (proj2 (Nat.eqb_neq d 0))].
    - apply lifted_below; [done|by right]. }
  pose proof (used_cases _ _ _ _ _ Hin') as Hu. destruct (used n' (seq 0 16)) as [|b [|b' bs]] eqn:Eu; cbn [length].
  - rewrite Hu, map_size_empty in Hsize. lia.
  - destruct Hu as (Hne & _ & _). unfold max_path. rewrite (onlyBelow_inner _ d p' n' (upd id None m)); [|done|].
    2: { intros b0 c Hc Hsub. pose proof Hin' as (_ & _ & Hcs & _). apply Hcs in Hc. rewrite <-Hsub.
         apply (onlyBelow_spec _ _ (S d)); [done|by apply good_sub|lia..]. }
    cbn [mbind res_bind]. destruct (single (upd id None m)) as [it'|] eqn:Esingle; [|by apply Hkeep, single_cases].
    apply single_Some in Esingle; [|apply Hgood']. rewrite Esingle in Hl.
    unfold modify_inner. rewrite (deref_Some _ _ _ Hp'). cbn [mbind res_bind as_inner]. unfold make_shared. cbn [ms_heap store ms_map].
    set (q := fresh _). set (h3 := <[q := _]> _).
    destruct (IH (Some q) (mkMS h3 (ms_map st2))) as (st' & E' & D1 & D2 & D3); unfold map_seq, map_root in *; cbn [ms_heap ms_map] in *; rewrite ?Hm in *; [done..| |].
    + rewrite Esingle. unfold h3. rewrite Hseq'. apply (pulled_up _ _ _ _ _ _ _ _ _ Hl); [done|lia|apply fresh_None].
    + exists st'. by split_and!.
  - by apply Hkeep.
Qed.

(** *** The operations *)


Section Spec.
Context (st : MapState) M.
Context (Hs : map_seq st <> 0) (Hr : node_at (ms_heap st) 0 (map_root st) M) (Hg : good 0 M).

Lemma walk_spec id :
  exists leaf p nid stack m, walkTowardsKey id st = Ok (leaf, (p, nid) :: stack) /\
    path (ms_heap st) (map_root st) id M stack (mDepth nid) (Some p) m /\
    ((exists l, ms_heap st !! p = Some (N_leaf l) /\ leaf = Some p /\ m = {[it_key (lf_item l) := lf_item l]}) \/
     (exists n, inner_at (ms_heap st) (mDepth nid) p n m /\ (mDepth nid = 0%nat \/ (2 <= size m)%nat) /\
        getChild n (nib (mDepth nid) id) = None /\ leaf = None /\ M !! id = None)).
Proof.
  destruct (walk_loop_spec (ms_heap st) (map_root st) id M Hr Hg max_path (map_root st) root_id [] 0 M)
    as (leaf & p & nid & stack & m & E & Hp & Hor); [constructor|done|unfold max_path; cbn; lia|].
  exists leaf, p, nid, stack, m. split_and!; [done..|]. destruct Hor as [(l & Hl & ->)|(n & Hin & Hsz & Hn & ->)].
  - left. exists l. split_and!; [done..|]. pose proof (path_node _ _ _ _ _ _ _ _ Hr Hp) as Hat.
    apply node_at_inv in Hat as [(l' & Hl' & _ & _ & _ & ->)|(n & (Hn & _) & _)]; [|congruence]. by assert (l' = l) as -> by congruence.
  - right. exists n. split_and!; [done..|]. rewrite <-(path_lookup _ _ _ _ _ _ _ _ Hp). destruct (m !! id) as [it|] eqn:Eit; [|done].
    destruct (inner_sub _ _ _ _ _ _ _ _ _ Hin Eit) as (c & Hc & _). unfold getChild in Hn. by rewrite Hc in Hn.
Qed.

Lemma walk_leaf id p nid stack l :
  path (ms_heap st) (map_root st) id M stack (mDepth nid) (Some p) {[it_key (lf_item l) := lf_item l]} ->
  M !! id = if it_key (lf_item l) =? id then Some (lf_item l) else None.
Proof.
  intros Hp. rewrite <-(path_lookup _ _ _ _ _ _ _ _ Hp), lookup_singleton.
  destruct (Z.eqb_spec (it_key (lf_item l)) id); by case_decide.
Qed.

Lemma findKey_spec id : exists leaf, findKey id st = Ok leaf /\ option_map lf_item leaf = M !! id.
Proof.
  destruct (walk_spec id) as (leaf & p & nid & stack & m & E & Hp & Hor). unfold findKey. rewrite E. cbn.
  destruct Hor as [(l & Hl & -> & ->)|(n & _ & _ & _ & -> & Hn)].
  - unfold deref. rewrite Hl. cbn. eexists. split; [done|]. rewrite (walk_leaf id p nid stack l Hp). by destruct (_ =? _).
  - exists None. by rewrite Hn.
Qed.

Lemma peekItem_spec id : peekItem id st = Ok (M !! id).
Proof. unfold peekItem. destruct (findKey_spec id) as (leaf & -> & <-). done. Qed.

Lemma hasItem_spec id : hasItem id st = Ok (bool_decide (is_Some (M !! id))).
Proof. unfold hasItem. destruct (findKey_spec id) as (leaf & -> & <-). by destruct leaf. Qed.

Lemma addGiveItem_spec item isTransaction hasMeta :
  leaf_type isTransaction hasMeta = ty -> 0 <= it_key item < 2 ^ 256 ->
  exists st', addGiveItem sha512Half item isTransaction hasMeta st = Ok (bool_decide (M !! it_key item = None), st') /\
    map_step st st' (if M !! it_key item is Some _ then M else upd (it_key item) (Some item) M).
Proof.
  intros Hty Hkey. destruct (walk_spec (it_key item)) as (leaf & p & nid & stack & m & E & Hp & Hor).
  unfold addGiveItem. rewrite E. cbn [mbind res_bind]. rewrite Hty. destruct Hor as [(l & Hl & -> & ->)|(n & Hin & Hsz & Hno & -> & Hn)].
  - rewrite (deref_Some _ _ _ Hl). cbn [mbind res_bind]. rewrite (walk_leaf _ p nid stack l Hp).
    destruct (Z.eqb_spec (it_key (lf_item l)) (it_key item)) as [Ek|Ek]; [exists st; split; [done|by apply map_step_refl]|].
    destruct (add_at_leaf _ st item M stack nid p l _ Hs eq_refl Hr Hg Hkey Hp Hl Ek) as (p1 & st1 & l1 & E1 & Hl1 & _ & st' & E' & Hst).
    rewrite E1. cbn [mbind res_bind]. rewrite (deref_Some _ _ _ Hl1). cbn [mbind res_bind]. exists st'. split; [|done].
    destruct (make_shared (N_inner (new_inner (lf_seq l1))) st1) as [q st2].
    apply bind_Ok in E' as ([[[node nodeID] stk] st3] & -> & E'). cbn [mbind res_bind].
    apply bind_Ok in E' as (st4 & -> & E'). cbn [mbind res_bind]. apply bind_Ok in E' as (st5 & -> & E'). cbn [mbind res_bind].
    by rewrite E'.
  - pose proof Hin as (Hp' & _). rewrite (deref_Some _ _ _ Hp'). cbn [mbind res_bind]. rewrite Hn.
    destruct (add_at_inner _ st (it_key item) item M stack nid p n m Hs eq_refl Hr Hg eq_refl Hp Hin Hsz Hno)
      as (p1 & st1 & st2 & E1 & (n1 & Hn1) & E2 & st' & E' & Hst).
    rewrite E1. cbn [mbind res_bind]. rewrite (deref_Some _ _ _ Hn1). cbn [mbind res_bind]. rewrite E2. cbn [mbind res_bind].
    rewrite E'. by exists st'.
Qed.


Lemma extends_refl h s : extends h h s.
Proof. split; [done|]. intros q n H1 H2. congruence. Qed.

Lemma extends_same h0 h s r d m : extends h0 h s -> node_at h0 d r m -> below h0 h s (Some r) (Some r) d m.
Proof.
  intros [H1 H2] Hat. assert (Hf : forall q, reaches h0 r q -> h !! q = h0 !! q).
  { intros q Hq. destruct (reaches_Some _ _ _ _ _ _ _ Hat Hq) as [n Hn]. rewrite Hn. by apply H1. }
  split; [intros q n Hq; exists n; split; [by apply H1|by left]|done|]. split; [by eapply node_at_frame|].
  intros q Hq. right. exists r. split; [done|]. by eapply reaches_frame.
Qed.

Lemma upd_same k it (m : Items) : m !! k = Some it -> upd k (Some it) m = m.
Proof. intros H. change (<[k := it]> m = m). by apply insert_id. Qed.

Lemma upd_singleton k it it' : upd k (Some it) {[k := it']} = {[k := it]}.
Proof. apply map_eq. intros k'. rewrite lookup_upd, !lookup_singleton. repeat case_decide; congruence. Qed.

(** A leaf rewritten in place or as a clone. *)
Lemma leaf_below h0 s p p' l l' d :
  h0 !! p = Some (N_leaf l) -> ((p' = p /\ lf_seq l = s) \/ h0 !! p' = None) -> lf_seq l' = s -> lf_type l' = ty ->
  lf_hash l' = leaf_hash sha512Half ty (lf_item l') -> (0 < d)%nat ->
  below h0 (<[p' := N_leaf l']> h0) s (Some p) (Some p') d {[it_key (lf_item l') := lf_item l']}.
Proof.
  intros Hl Hp' Hseq Hty Hh Hd. split.
  - intros q n Hq. destruct (decide (q = p')) as [->|Hne].
    + rewrite lookup_insert_eq. eexists. split; [done|]. right. destruct Hp' as [[-> Hs']|Hn]; [|congruence].
      rewrite Hl in Hq. injection Hq as <-. split_and!; [done..|]. exists p. split; [done|apply reach_refl].
    + rewrite lookup_insert_ne by done. exists n. split; [done|by left].
  - intros q n. destruct (decide (q = p')) as [->|Hne]; [rewrite lookup_insert_eq; intros [= <-]; done|].
    rewrite lookup_insert_ne by done. congruence.
  - split; [apply at_leaf; [by rewrite lookup_insert_eq|done..]|].
    intros q Hq. rewrite (reaches_leaf _ _ _ _ (lookup_insert_eq _ _ _) Hq).
    destruct Hp' as [[-> _]|Hn]; [right; exists p; split; [done|apply reach_refl]|by left].
Qed.

Lemma updateGiveItem_spec item isTransaction hasMeta :
  leaf_type isTransaction hasMeta = ty ->
  (forall it, M !! it_key item = Some it -> leaf_hash sha512Half ty item = leaf_hash sha512Half ty it -> it = item) ->
  exists st', updateGiveItem sha512Half item isTransaction hasMeta st = Ok (bool_decide (is_Some (M !! it_key item)), st') /\
    map_step st st' (if M !! it_key item is Some _ then upd (it_key item) (Some item) M else M).
Proof.
  intros Hty Hcol. destruct (walk_spec (it_key item)) as (leaf & p & nid & stack & m & E & Hp & Hor).
  unfold updateGiveItem. rewrite E. cbn [mbind res_bind]. destruct Hor as [(l & Hl & -> & ->)|(n & Hin & Hsz & Hno & -> & Hn)].
  2: { pose proof Hin as (Hp' & _). rewrite (deref_Some _ _ _ Hp'). cbn. rewrite Hn. exists st. split; [done|by apply map_step_refl]. }
  rewrite (deref_Some _ _ _ Hl). cbn [mbind res_bind]. pose proof (walk_leaf _ p nid stack l Hp) as HM. rewrite HM in *.
  destruct (Z.eqb_spec (it_key (lf_item l)) (it_key item)) as [Ek|Ek]; cbn [negb]; [|exists st; split; [done|by apply map_step_refl]].
  pose proof (path_node _ _ _ _ _ _ _ _ Hr Hp) as Hat. set (d := mDepth nid) in *.
  apply node_at_inv in Hat as [(l' & Hl' & Hlt & Hlh & Hd0 & _)|(n & (Hn & _) & _)]; [|congruence].
  assert (l' = l) as -> by congruence. assert (Hr0 : isRoot nid = false) by (apply Nat.eqb_neq; fold d; lia).
  destruct (unshare_cases p nid st _ Hl) as (p1 & st1 & E1 & Eh1 & Em1 & Hp1); [by rewrite Hr0|]. rewrite Hr0 in Em1.
  rewrite E1. cbn [mbind res_bind]. cbn [clone setSeq] in Eh1. set (l1 := mkLeaf (lf_hash l) _ _ _) in Eh1.
  rewrite (deref_Some _ p1 (N_leaf l1)) by (by rewrite Eh1, lookup_insert_eq). cbn [mbind res_bind as_leaf]. rewrite Hty.
  unfold setItem, leaf_updateHash. cbn [lf_type lf_item lf_hash lf_seq l1]. rewrite Hlh.
  destruct (Z.eqb_spec (leaf_hash sha512Half ty item) (leaf_hash sha512Half ty (lf_item l))) as [Eh|Eh].
  - assert (Ei : lf_item l = item) by (by apply Hcol). eexists. split; [done|]. rewrite upd_same by (by rewrite HM, Ei).
    assert (Eheap : ms_heap (store p1 (N_leaf (mkLeaf (leaf_hash sha512Half ty (lf_item l)) (map_seq st) ty item)) st1) = ms_heap st1).
    { unfold store. cbn. rewrite Eh1, insert_insert_eq. f_equal. f_equal. unfold l1. by rewrite Hlh, Hlt, Ei. }
    split; [rewrite Eheap|by unfold map_seq; cbn; rewrite Em1..]. unfold map_root. cbn. rewrite Em1.
    apply extends_same; [|done]. rewrite Eh1. destruct Hp1 as [[-> Hseq]|Hp1]; [|by apply extends_insert; [apply extends_refl|..]].
    rewrite insert_id; [apply extends_refl|]. rewrite Hl. unfold l1. cbn in Hseq. rewrite <-Hseq. by destruct l.
  - set (st2 := store p1 _ st1). destruct (dirtyUp_spec (ms_heap st) (map_root st) (it_key item) item M stack d (Some p) _ Hr Hg Hp p1 st2) as (st' & E' & D1 & D2 & D3).
    + unfold map_seq. cbn. by rewrite Em1.
    + unfold map_root. cbn. rewrite Em1. destruct (Nat.eqb_spec d 0); [lia|done].
    + unfold map_seq, st2, store. cbn. rewrite Em1, Eh1, insert_insert_eq, Ek.
      rewrite upd_singleton.
      apply (leaf_below (ms_heap st) (map_seq st) p p1 l (mkLeaf (leaf_hash sha512Half ty item) (map_seq st) ty item) d); try done.
    + rewrite E'. cbn. exists st'. split; [done|]. unfold map_seq, st2, store in D1, D3. cbn in D1, D2, D3. rewrite Em1 in D1, D2, D3. by split.
Qed.

Lemma upd_None_id k (m : Items) : m !! k = None -> upd k None m = m.
Proof. intros H. change (delete k m = m). by apply delete_id. Qed.

Lemma delItem_spec id :
  exists st', delItem sha512Half id st = Ok (bool_decide (is_Some (M !! id)), st') /\ map_step st st' (upd id None M).
Proof.
  destruct (walk_spec id) as (leaf & p & nid & stack & m & E & Hp & Hor). unfold delItem. rewrite E. cbn [mbind res_bind].
  destruct Hor as [(l & Hl & -> & ->)|(n & (Hp' & _) & _ & _ & -> & Hn)].
  2: { rewrite (deref_Some _ _ _ Hp'). cbn. rewrite Hn. exists st. split; [done|]. rewrite upd_None_id by done. by apply map_step_refl. }
  rewrite (deref_Some _ _ _ Hl). cbn [mbind res_bind]. pose proof (walk_leaf _ p nid stack l Hp) as HM. rewrite HM.
  destruct (Z.eqb_spec (it_key (lf_item l)) id) as [Ek|Ek]; cbn [negb].
  2: { exists st. split; [done|]. rewrite upd_None_id by done. by apply map_step_refl. }
  pose proof (path_node _ _ _ _ _ _ _ _ Hr Hp) as Hat.
  apply node_at_inv in Hat as [(l' & Hl' & Hlt & _ & Hd0 & _)|(n & (Hn & _) & _)]; [|congruence].
  assert (l' = l) as -> by congruence. rewrite Hlt.
  destruct (del_loop_spec _ _ id _ M stack _ _ _ Hr Hg HM Hp None st) as (st' & E' & D1 & D2 & D3); [done| | |].
  - by rewrite (proj2 (Nat.eqb_neq _ 0)) by lia.
  - split; [intros q n Hq; exists n; split; [done|by left]|intros; congruence|].
    rewrite Ek. change (delete id ({[id := lf_item l]} : Items) = ∅). apply delete_singleton_eq.
  - rewrite E'. cbn. exists st'. split; [done|by split].
Qed.
End Spec.
End Ops.
