(* ===== verification/SHAMapFlush.v ===== *)
(** * Hashing a SHAMap

    [unshare] walks the nodes that are not yet shareable, clones those of other
    maps, computes the hashes bottom up and marks the nodes shareable. No map's
    contents change, also not those of maps that share the nodes written to. *)

From S2P Require Import Prelude SHAMapNode SHAMap SHAMapInv SHAMapOps.

Section Flush.
Context (sha512Half : list Z -> Z) (ty : TNType).

#[local] Abbreviation node_at := (node_at sha512Half ty).
#[local] Abbreviation inner_at := (inner_at sha512Half ty).
#[local] Abbreviation mhash := (mhash sha512Half ty).
Implicit Types (h : Heap) (p q r : nptr) (m : Items).

(** A pointer into a map: it holds something. *)
Definition live h p : Prop := exists d m, (d <= 64)%nat /\ good d m /\ node_at h d p m.

(** Contents are kept. *)
Definition mono h h' : Prop := forall d q m, (d <= 64)%nat -> good d m -> node_at h d q m -> node_at h' d q m.

(** Old nodes reach no other old nodes than before. *)
Definition rmono h h' : Prop := forall q0 q, live h q0 -> reaches h' q0 q -> is_Some (h !! q) -> reaches h q0 q.

Lemma inner_lt d m : (d <= 64)%nat -> good d m -> (d = 0%nat \/ (2 <= size m)%nat) -> (d < 64)%nat.
Proof. intros Hd Hg [->|Hs]; [lia|by eapply good_depth]. Qed.

(** An inner node has one place: depth and contents. *)
Lemma depth_unique h d p m : node_at h d p m -> (d <= 64)%nat -> good d m ->
  forall d' m', node_at h d' p m' -> (d' <= 64)%nat -> good d' m' -> (exists n, h !! p = Some (N_inner n)) -> d = d'.
Proof.
  induction 1 as [d p l Hl _ _ _|d p n m Hn Hok Hc IH He Hh Hcl Hs]; intros Hd Hg d' m' Hat' Hd' Hg' [n0 Hn0]; [congruence|].
  assert (Hat : node_at h d p m) by exact (at_inner sha512Half ty h d p n m Hn Hok Hc He Hh Hcl Hs). pose proof (node_at_unique _ _ _ _ _ _ Hat _ _ Hat') as <-.
  assert (Hlt : (d < 64)%nat) by (by apply (inner_lt d m)).
  apply node_at_inv in Hat' as [(l & Hl & _)|(n' & Hin' & Hs')]; [congruence|]. assert (n' = n) as -> by (destruct Hin'; congruence).
  assert (Hlt' : (d' < 64)%nat) by (by apply (inner_lt d' m)).
  assert (Hin : inner_at h d p n m) by (by split_and!).
  pose proof (used_cases _ _ _ _ _ _ _ Hin) as Hu. pose proof (used_cases _ _ _ _ _ _ _ Hin') as Hu'.
  destruct (used n (seq 0 16)) as [|b [|b' bs]] eqn:Eu.
  - subst m. rewrite map_size_empty in Hs, Hs'. lia.
  - destruct (decide (2 <= size m)%nat) as [H2|]; [|destruct Hs, Hs'; lia].
    destruct Hu as (_ & Hsub & Hb), Hu' as (_ & Hsub' & _). pose proof (child_at n b Hok Hb) as Hcb.
    destruct (getChild n b) as [c|]; [|rewrite (He b Hcb) in Hsub; subst m; rewrite map_size_empty in H2; lia].
    pose proof Hin' as (_ & _ & Hcs' & _). specialize (Hcs' b c Hcb). pose proof (Hc b c Hcb) as Hcc.
    assert (S d = S d'); [|lia]. eapply (IH b c Hcb); [lia|by apply good_sub|exact Hcs'|lia|by apply good_sub|].
    rewrite Hsub in Hcc. apply node_at_inv in Hcc as [(l & _ & _ & _ & _ & Em)|(n2 & (Hn2 & _) & _)]; [|by exists n2].
    rewrite Em, map_size_singleton in H2. lia.
  - destruct (two_branches sha512Half ty _ _ _ _ _ _ _ _ Hin Eu) as (k & k' & it & it' & Hk & Hk' & Hne).
    destruct (two_branches sha512Half ty _ _ _ _ _ _ _ _ Hin' Eu) as (j & j' & jt & jt' & Hj & Hj' & Hjne).
    destruct Hg as [_ Hg], Hg' as [_ Hg']. destruct (Nat.lt_total d d') as [Hdd|[|Hdd]]; [|done|]; exfalso.
    + apply Hne. eapply (nib_agree d d'); [done|done|by eapply Hg'].
    + apply Hjne. eapply (nib_agree d' d); [done|done|by eapply Hg].
Qed.

(** ** Writes that keep contents *)

Lemma mono_refl h : mono h h.
Proof. by intros d q m. Qed.

Lemma mono_trans h h' h'' : mono h h' -> mono h' h'' -> mono h h''.
Proof. intros H1 H2 d q m Hd Hg H. apply H2, H1; done. Qed.

Lemma live_mono h h' p : mono h h' -> live h p -> live h' p.
Proof. intros Hm (d & m & Hd & Hg & Hat). exists d, m. split_and!; [done..|]. by apply Hm. Qed.

Lemma live_child h p n b c : live h p -> h !! p = Some (N_inner n) -> in_children n !! b = Some (Some c) -> live h c.
Proof.
  intros (d & m & Hd & Hg & Hat) Hn Hc. apply node_at_inv in Hat as [(l & Hl & _)|(n' & (Hn' & _ & Hcs & _) & Hs)]; [congruence|].
  assert (n' = n) as -> by congruence. pose proof (inner_lt d m Hd Hg Hs). exists (S d), (sub d b m).
  split_and!; [lia|by apply good_sub|by apply Hcs].
Qed.

Lemma live_Some h p q : live h p -> reaches h p q -> is_Some (h !! q).
Proof. intros (d & m & _ & _ & Hat). by eapply reaches_Some. Qed.

Lemma rmono_trans h h' h'' : mono h h' -> (forall q, is_Some (h !! q) -> is_Some (h' !! q)) -> rmono h h' -> rmono h' h'' -> rmono h h''.
Proof.
  intros Hm Hd H1 H2 q0 q Hl Hr Hq. apply H1; [done| |done]. apply H2; [by eapply live_mono|done|by apply Hd].
Qed.

(** Overwriting one node keeps all contents if it keeps the contents there. *)
Lemma mono_write h p x x' :
  h !! p = Some x -> (node_seq x = 0 -> node_seq x' = 0) ->
  (forall d m, (d <= 64)%nat -> good d m -> node_at h d p m ->
     (forall n b c, x = N_inner n -> in_children n !! b = Some (Some c) -> node_at (<[p := x']> h) (S d) c (sub d b m)) ->
     node_at (<[p := x']> h) d p m) ->
  mono h (<[p := x']> h).
Proof.
  intros Hp Hseq Hself d q m Hd Hg Hat. revert Hd Hg.
  induction Hat as [d q l Hl Ht Hh Hd0|d q n m Hn Hok Hc IH He Hh Hcl Hs]; intros Hd Hg.
  - destruct (decide (q = p)) as [->|Hne].
    + apply Hself; [done|done|by apply at_leaf|]. intros n b c -> _. congruence.
    + apply at_leaf; [by rewrite lookup_insert_ne|done..].
  - pose proof (inner_lt d m Hd Hg Hs) as Hlt.
    assert (IH' : forall b c, in_children n !! b = Some (Some c) -> node_at (<[p := x']> h) (S d) c (sub d b m)).
    { intros b c Hb. apply (IH b c Hb); [lia|by apply good_sub]. }
    destruct (decide (q = p)) as [->|Hne].
    + apply Hself; [done|done|exact (at_inner sha512Half ty h d p n m Hn Hok Hc He Hh Hcl Hs)|].
      intros n' b c -> Hb. apply IH'. rewrite Hp in Hn. by injection Hn as <-.
    + eapply at_inner; [by rewrite lookup_insert_ne|done|done|done|done| |done].
      intros H0. destruct (Hcl H0) as (C1 & C2 & C3). split_and!; [done..|]. intros b c Hb. destruct (C3 b c Hb) as (nc & Hnc & Hz).
      destruct (decide (c = p)) as [->|]; [rewrite lookup_insert_eq|rewrite lookup_insert_ne by done; by exists nc].
      exists x'. split; [done|]. apply Hseq. congruence.
Qed.

(** A leaf hashed and marked shareable. *)
Lemma mono_leaf h p l l' :
  h !! p = Some (N_leaf l) -> lf_item l' = lf_item l -> lf_type l' = lf_type l ->
  lf_hash l' = leaf_hash sha512Half (lf_type l) (lf_item l) -> lf_seq l' = 0 -> mono h (<[p := N_leaf l']> h).
Proof.
  intros Hp Hi Ht Hh Hs. apply (mono_write h p (N_leaf l)); [done|done|]. intros d m Hd Hg Hat _.
  apply node_at_inv in Hat as [(l0 & Hl0 & Ht0 & Hh0 & Hd0 & ->)|(n & (Hn & _) & _)]; [|congruence].
  assert (l0 = l) as -> by congruence. rewrite <-Hi. apply at_leaf; [by rewrite lookup_insert_eq|congruence|congruence|done].
Qed.

(** A child replaced by one with the same contents. *)
Lemma mono_share h p n b c d m :
  h !! p = Some (N_inner n) -> in_seq n <> 0 -> (exists c0, in_children n !! b = Some (Some c0)) ->
  node_at h d p m -> (d <= 64)%nat -> good d m -> node_at h (S d) c (sub d b m) -> ~ reaches h c p ->
  mono h (<[p := N_inner (shareChild b c n)]> h).
Proof.
  intros Hp Hseq [c0 Hb] Hat Hd Hg Hc Hr. apply (mono_write h p (N_inner n)); [done|done|]. intros d' m' Hd' Hg' Hat' Hcs.
  assert (m' = m) as -> by (by eapply node_at_unique). assert (d' = d) as -> by (eapply depth_unique; eauto).
  apply node_at_inv in Hat' as [(l & Hl & _)|(n' & (Hn' & Hok & _ & Hno & Hh & _) & Hs)]; [congruence|].
  assert (n' = n) as -> by congruence. pose proof (lookup_lt_Some _ _ _ Hb) as Hlen.
  eapply at_inner; [by rewrite lookup_insert_eq|by eapply inner_ok_share| | |done|done|done]; cbn [shareChild in_children].
  - intros b' c' Hb'. destruct (decide (b' = b)) as [->|Hne].
    + rewrite list_lookup_insert_eq in Hb' by done. injection Hb' as <-. apply (node_at_frame _ _ h); [done|].
      intros q Hq. rewrite lookup_insert_ne; [done|]. by intros <-.
    + rewrite list_lookup_insert_ne in Hb' by done. by eapply Hcs.
  - intros b' Hb'. destruct (decide (b' = b)) as [->|Hne]; [by rewrite list_lookup_insert_eq in Hb' by done|].
    rewrite list_lookup_insert_ne in Hb' by done. by apply Hno.
Qed.

(** ** The hash of a node whose children are hashed *)

Lemma updateHashDeep_fields h n :
  updateHashDeep sha512Half h n =
  mkInner (if in_isBranch n =? 0 then 0 else inner_hash sha512Half (child_hashes h n)) (in_seq n) (child_hashes h n) (in_children n) (in_isBranch n).
Proof.
  unfold updateHashDeep, inner_updateHash. cbn [in_isBranch in_hash in_hashes in_seq in_children].
  destruct (Z.eqb_spec (if in_isBranch n =? 0 then 0 else inner_hash sha512Half (child_hashes h n)) (in_hash n)) as [E|E]; cbn [snd]; [|done].
  by rewrite E.
Qed.

(** A shareable node has its hash. *)
Lemma clean_hash h d c m nc : node_at h d c m -> (d <= 64)%nat -> h !! c = Some nc -> node_seq nc = 0 -> getNodeHash nc = mhash d m.
Proof.
  intros Hat Hd Hc Hz. apply node_at_inv in Hat as [(l & Hl & _ & Hh & Hd0 & ->)|(n & (Hn & _ & _ & _ & _ & Hcl) & _)].
  - assert (nc = N_leaf l) as -> by congruence. cbn. by rewrite mhash_leaf by lia.
  - assert (nc = N_inner n) as -> by congruence. by destruct (Hcl Hz).
Qed.

Lemma child_hashes_ok h d p n m b :
  inner_at h d p n m -> (d < 64)%nat -> (b < 16)%nat ->
  (forall b c, in_children n !! b = Some (Some c) -> exists nc, h !! c = Some nc /\ node_seq nc = 0) ->
  child_hashes h n !! b = Some (mhash (S d) (sub d b m)).
Proof.
  intros (_ & Hok & Hcs & Hno & _) Hd Hb Hz. pose proof (child_at n b Hok Hb) as Hc.
  destruct (lookup_lt_is_Some_2 (in_hashes n) b) as [old Hold]; [by rewrite (io_hashes n Hok)|].
  unfold child_hashes. rewrite lookup_zip_with, Hc, Hold. cbn [mbind option_bind]. destruct (getChild n b) as [c|].
  - destruct (Hz b c Hc) as (nc & Hnc & Hz0). rewrite Hnc. f_equal. eapply clean_hash; [by apply Hcs|lia|done|done].
  - rewrite (Hno b Hc), mhash_empty. rewrite (io_zero n Hok b Hc) in Hold. congruence.
Qed.

Lemma child_hashes_list h d p n m :
  inner_at h d p n m -> (d < 64)%nat ->
  (forall b c, in_children n !! b = Some (Some c) -> exists nc, h !! c = Some nc /\ node_seq nc = 0) ->
  child_hashes h n = map (fun b => mhash (S d) (sub d b m)) (seq 0 16).
Proof.
  intros Hin Hd Hz. pose proof Hin as (_ & Hok & _). apply list_eq. intros b. destruct (decide (b < 16)%nat) as [Hb|Hb].
  - rewrite (child_hashes_ok h d p n m b) by done. change (map ?f ?l) with (f <$> l).
    rewrite list_lookup_fmap, lookup_seq_lt by done. done.
  - rewrite !lookup_ge_None_2; [done| |].
    + rewrite length_map, length_seq. lia.
    + unfold child_hashes. rewrite length_zip_with, (io_children n Hok), (io_hashes n Hok). lia.
Qed.

Lemma isEmpty_holds h d p n m : inner_at h d p n m -> isEmpty n = true -> m = ∅.
Proof.
  intros Hin Hempty. pose proof Hin as (_ & Hok & _). apply map_empty. intros k. destruct (m !! k) as [it|] eqn:Ek; [|done].
  destruct (inner_sub _ _ _ _ _ _ _ _ _ Hin Ek) as (c & Hc & _).
  pose proof (proj1 (isEmpty_child n Hok) Hempty (nib d k) (nib_lt d k)) as Hn. unfold getChild in Hn. by rewrite Hc in Hn.
Qed.

Lemma finished_hash h d p n m :
  inner_at h d p n m -> (d < 64)%nat -> (d = 0%nat \/ (2 <= size m)%nat) ->
  (forall b c, in_children n !! b = Some (Some c) -> exists nc, h !! c = Some nc /\ node_seq nc = 0) ->
  in_hash (updateHashDeep sha512Half h n) = mhash d m.
Proof.
  intros Hin Hd Hs Hz. pose proof Hin as (_ & Hok & _). rewrite updateHashDeep_fields. cbn [in_hash].
  pose proof (isEmpty_child n Hok) as Hempty. unfold isEmpty in Hempty. destruct (in_isBranch n =? 0) eqn:E.
  - rewrite (isEmpty_holds h d p n m Hin E). by rewrite mhash_empty.
  - rewrite (child_hashes_list h d p n m) by done. symmetry. apply mhash_inner; [lia| |done].
    intros ->. enough (false = true) by done. apply Hempty. intros b Hb. destruct (getChild n b) as [c|] eqn:Ec; [|done].
    pose proof (child_at n b Hok Hb) as Hc. rewrite Ec in Hc. destruct Hin as (_ & _ & Hcs & _). specialize (Hcs b c Hc).
    rewrite sub_empty in Hcs. by apply node_at_nonempty in Hcs; [|lia].
Qed.

Lemma mono_finish h p n :
  h !! p = Some (N_inner n) -> (forall b c, in_children n !! b = Some (Some c) -> exists nc, h !! c = Some nc /\ node_seq nc = 0) ->
  mono h (<[p := setSeq 0 (N_inner (updateHashDeep sha512Half h n))]> h).
Proof.
  intros Hp Hz. apply (mono_write h p (N_inner n)); [done|done|]. intros d m Hd Hg Hat Hcs.
  pose proof Hat as Hat0. apply node_at_inv in Hat as [(l & Hl & _)|(n' & Hin & Hs)]; [congruence|].
  assert (n' = n) as -> by (destruct Hin; congruence). pose proof (inner_lt d m Hd Hg Hs) as Hlt.
  pose proof (finished_hash h d p n m Hin Hlt Hs Hz) as Hhash. pose proof (child_hashes_ok h d p n m) as Hch.
  pose proof Hin as (_ & Hok & _ & Hno & _).
  eapply at_inner; [by rewrite lookup_insert_eq| | | | | |done]; rewrite ?updateHashDeep_fields in *; cbn [in_children in_hash in_seq in_hashes in_isBranch] in *.
  - destruct Hok as [O1 O2 O3 O4 O5]. split; cbn; [done|by unfold child_hashes; rewrite length_zip_with, O1, O2|done|done|].
    intros b Hb. rewrite Hch; [|done|done|by rewrite <-O1; eapply lookup_lt_Some|done]. by rewrite (Hno b Hb), mhash_empty.
  - intros b c Hb. by eapply Hcs.
  - done.
  - by right.
  - intros _. split_and!; cbn; [done|intros b Hb; by apply Hch|]. intros b c Hb. destruct (Hz b c Hb) as (nc & Hnc & Hz0).
    rewrite lookup_insert_ne; [by exists nc|]. intros <-. eapply (acyclic sha512Half ty _ _ _ _ Hat0 n b p); [done..|apply reach_refl].
Qed.

(** ** The walk *)

(** From [h] to [h'], the subtree at [p] was flushed by the map of sequence number [s]. *)
Record flushed h h' (s : Z) p : Prop := {
  fl_mono : mono h h';
  fl_rmono : rmono h h';
  fl_ext : forall q n, h !! q = Some n -> exists n', h' !! q = Some n' /\ (n' = n \/ (node_seq n = s /\ node_seq n' = 0 /\ reaches h p q));
  fl_fresh : forall q n, h' !! q = Some n -> h !! q = None -> node_seq n = 0;
  fl_done : exists n, h' !! p = Some n /\ node_seq n = 0
}.

(** The children of [p] before [pos] are done. *)
Record flushing h h' (s : Z) p (pos : nat) : Prop := {
  fg_mono : mono h h';
  fg_rmono : rmono h h';
  fg_ext : forall q n, h !! q = Some n ->
    exists n', h' !! q = Some n' /\ (n' = n \/ (node_seq n = s /\ (node_seq n' = 0 \/ q = p) /\ reaches h p q));
  fg_fresh : forall q n, h' !! q = Some n -> h !! q = None -> node_seq n = 0;
  fg_self : exists n, h' !! p = Some (N_inner n) /\ in_seq n = s /\
    forall b c, (b < pos)%nat -> in_children n !! b = Some (Some c) -> exists nc, h' !! c = Some nc /\ node_seq nc = 0
}.

(** Reachability only depends on inner nodes. *)
Lemma reaches_frame_inner h h' p q : (forall x n, h' !! x = Some (N_inner n) -> h !! x = Some (N_inner n)) -> reaches h' p q -> reaches h p q.
Proof. intros Hf. induction 1 as [|p n b c q Hn Hb Hr IH]; [apply reach_refl|]. eapply reach_step; [by apply Hf|done..]. Qed.

Lemma rmono_refl h : rmono h h.
Proof. by intros q0 q _ H _. Qed.

(** Reaching through a replaced child. *)
Lemma reaches_share h p n b c q0 q :
  h !! p = Some (N_inner n) -> ~ reaches h c p -> reaches (<[p := N_inner (shareChild b c n)]> h) q0 q ->
  reaches h q0 q \/ (reaches h q0 p /\ reaches h c q).
Proof.
  intros Hp Hc Hr. induction Hr as [q0|q0 n' b' c' q Hn' Hb' Hr IH]; [left; apply reach_refl|].
  destruct (decide (q0 = p)) as [->|Hne].
  - rewrite lookup_insert_eq in Hn'. injection Hn' as <-. cbn in Hb'. destruct (decide (b' = b)) as [->|Hne].
    + assert (c' = c) as ->.
      { pose proof (lookup_lt_Some _ _ _ Hb') as Hlt. rewrite length_insert in Hlt. rewrite list_lookup_insert_eq in Hb' by done. congruence. }
      destruct IH as [IH|[IH _]]; [|done]. right. split; [apply reach_refl|done].
    + rewrite list_lookup_insert_ne in Hb' by done. destruct IH as [IH|[IH1 IH2]]; [left; by eapply reach_step|].
      right. split; [apply reach_refl|done].
  - rewrite lookup_insert_ne in Hn' by done. destruct IH as [IH|[IH1 IH2]].
    + left. by eapply reach_step.
    + right. split; [by eapply reach_step|done].
Qed.

Lemma preFlush_cases c st node :
  ms_heap st !! c = Some node ->
  exists c1 st1, preFlushNode c st = Ok (c1, st1) /\ ms_map st1 = ms_map st /\
    ms_heap st1 = <[c1 := clone (map_seq st) node]> (ms_heap st) /\ ((c1 = c /\ node_seq node = map_seq st) \/ ms_heap st !! c1 = None).
Proof.
  intros Hc. unfold preFlushNode, deref. rewrite Hc. cbn. destruct (Z.eqb_spec (node_seq node) (sm_seq (ms_map st))) as [E|E].
  - exists c, st. split_and!; [done..| |by left]. rewrite insert_id; [done|]. rewrite Hc. unfold map_seq. rewrite <-E. by destruct node as [[]|[]].
  - eexists _, _. split; [done|]. split_and!; [done..|right; apply fresh_None].
Qed.

Lemma leaf_flushed h c l :
  h !! c = Some (N_leaf l) -> lf_seq l <> 0 -> flushed h (<[c := setSeq 0 (N_leaf (snd (leaf_updateHash sha512Half l)))]> h) (lf_seq l) c.
Proof.
  intros Hc Hs. set (l' := snd (leaf_updateHash sha512Half l)).
  assert (El : l' = mkLeaf (leaf_hash sha512Half (lf_type l) (lf_item l)) (lf_seq l) (lf_type l) (lf_item l)).
  { unfold l', leaf_updateHash. destruct (Z.eqb_spec (leaf_hash sha512Half (lf_type l) (lf_item l)) (lf_hash l)) as [E|E]; [|done]. rewrite E. by destruct l. }
  rewrite El. cbn [setSeq lf_hash lf_type lf_item]. split.
  - by eapply mono_leaf.
  - intros q0 q _ Hr _. eapply reaches_frame_inner; [|exact Hr]. intros x n Hx. destruct (decide (x = c)) as [->|]; [by rewrite lookup_insert_eq in Hx|].
    by rewrite lookup_insert_ne in Hx.
  - intros q n Hq. destruct (decide (q = c)) as [->|Hne]; [rewrite lookup_insert_eq|rewrite lookup_insert_ne by done; exists n; split; [done|by left]].
    eexists. split; [done|]. right. assert (n = N_leaf l) as -> by congruence. split_and!; [done..|apply reach_refl].
  - intros q n Hq Hn. rewrite lookup_insert_ne in Hq by congruence. congruence.
  - eexists. rewrite lookup_insert_eq. by split.
Qed.

Lemma alloc_mono h q x : h !! q = None -> mono h (<[q := x]> h).
Proof. intros Hn d p m _ _ H. by apply node_at_alloc. Qed.

Lemma alloc_rmono h q x : h !! q = None -> rmono h (<[q := x]> h).
Proof.
  intros Hn q0 y Hl Hr _. eapply reaches_frame; [|exact Hr]. intros z Hz. rewrite lookup_insert_ne; [done|]. intros <-.
  destruct (live_Some _ _ _ Hl Hz). congruence.
Qed.

(** *** A node cloned unless it is this map's *)

Section Clone.
Context h (s : Z) (c : nptr) (node : SNode) (c1 : nptr) (d : nat) m.
Context (Hs : s <> 0) (Hat : node_at h d c m) (Hnode : h !! c = Some node) (Hc1 : (c1 = c /\ node_seq node = s) \/ h !! c1 = None).

#[local] Abbreviation h1 := (<[c1 := clone s node]> h).

Lemma clone_same : c1 = c -> h1 = h.
Proof.
  intros E. destruct Hc1 as [[_ Hseq]|Hn]; [|congruence]. rewrite E. apply insert_id. rewrite Hnode, <-Hseq. by destruct node as [[]|[]].
Qed.

Lemma clone_mono : mono h h1.
Proof.
  destruct (decide (c1 = c)) as [E|Hne]; [rewrite clone_same by done; apply mono_refl|].
  destruct Hc1 as [[E _]|Hn]; [done|by apply alloc_mono].
Qed.

Lemma clone_holds : node_at h1 d c1 m.
Proof.
  destruct (decide (c1 = c)) as [E|Hne]; [rewrite clone_same, E by done; exact Hat|].
  destruct Hc1 as [[E _]|Hn]; [done|]. pose proof Hat as Hat'.
  apply node_at_inv in Hat' as [(l & Hl & Ht & Hh & Hd0 & ->)|(n' & (Hn' & Hok & Hcs & Hno & Hh & _) & Hsz)].
  - assert (node = N_leaf l) as -> by congruence. cbn [clone setSeq].
    exact (at_leaf sha512Half ty _ d c1 (mkLeaf (lf_hash l) s (lf_type l) (lf_item l)) (lookup_insert_eq _ _ _) Ht Hh Hd0).
  - assert (node = N_inner n') as -> by congruence. cbn [clone setSeq].
    eapply at_inner; [by rewrite lookup_insert_eq|by destruct Hok| |done|done|done|done].
    intros b c' Hb. cbn in Hb. apply node_at_alloc; [by apply Hcs|done].
Qed.

Lemma clone_reach q : reaches h1 c1 q -> is_Some (h !! q) -> reaches h c q.
Proof.
  destruct (decide (c1 = c)) as [E|Hne]; [rewrite clone_same, E by done; done|]. destruct Hc1 as [[E _]|Hn]; [done|].
  intros [<-|(n' & b & c' & Hn' & Hb & Hr)]%reaches_inv Hq; [destruct Hq; congruence|]. rewrite lookup_insert_eq in Hn'.
  destruct node as [n0|]; [|done]. cbn in Hn'. injection Hn' as <-. cbn in Hb. eapply reach_step; [done..|].
  eapply reaches_frame; [|exact Hr]. intros x Hx. rewrite lookup_insert_ne; [done|]. intros <-.
  assert (is_Some (h !! c1)) as [? ?]; [|congruence]. eapply (reaches_Some sha512Half ty); [exact Hat|]. by eapply reach_step.
Qed.

Lemma clone_rmono : rmono h h1.
Proof.
  destruct (decide (c1 = c)) as [E|Hne]; [rewrite clone_same by done; apply rmono_refl|]. destruct Hc1 as [[E _]|Hn]; [done|by apply alloc_rmono].
Qed.

(** Everything but [c1] is as it was. *)
Lemma clone_other q : q <> c1 -> h1 !! q = h !! q.
Proof. intros. by rewrite lookup_insert_ne. Qed.

Lemma clone_dom q : is_Some (h !! q) -> is_Some (h1 !! q).
Proof. intros [x Hx]. destruct (decide (q = c1)) as [->|]; [rewrite lookup_insert_eq; by eexists|rewrite clone_other by done; by eexists]. Qed.

End Clone.

(** *** One child *)

Section Child.
Context h0 h (s : Z) p (d : nat) m (pos : nat) (n : InnerNode) (c : nptr) (node : SNode) (c1 : nptr).
Context (Hs : s <> 0) (Hd : (d <= 64)%nat) (Hg : good d m) (Hat0 : node_at h0 d p m) (Hpos : (pos < 16)%nat).
Context (Hfl : flushing h0 h s p pos) (Hp : h !! p = Some (N_inner n)).
Context (Hc : in_children n !! pos = Some (Some c)) (Hnode : h !! c = Some node).
Context (Hc1 : (c1 = c /\ node_seq node = s) \/ h !! c1 = None).

#[local] Abbreviation h1 := (<[c1 := clone s node]> h).
#[local] Abbreviation mc := (sub d pos m).

Lemma child_parent : node_at h d p m.
Proof. by apply (fg_mono _ _ _ _ _ Hfl). Qed.

Lemma child_inner : inner_at h d p n m /\ (d < 64)%nat.
Proof.
  pose proof child_parent as Hat. apply node_at_inv in Hat as [(l & Hl & _)|(n' & Hin & Hsz)]; [congruence|].
  assert (n' = n) as -> by (destruct Hin; congruence). split; [done|by eapply inner_lt].
Qed.

Lemma child_holds : node_at h (S d) c mc.
Proof. destruct child_inner as [(_ & _ & Hcs & _) _]. by apply Hcs. Qed.

Lemma child_apart : ~ reaches h c p.
Proof. eapply (acyclic sha512Half ty _ _ _ _ child_parent n pos c); done. Qed.

Lemma clone_parent : p <> c1 /\ ~ reaches h1 c1 p.
Proof.
  split.
  - intros E. destruct Hc1 as [[E' _]|Hn]; [|congruence]. apply child_apart. rewrite E, E'. apply reach_refl.
  - intros Hr. apply child_apart. by apply (clone_reach h s c node c1 (S d) mc child_holds Hnode Hc1); [|eexists].
Qed.

Context h2 (Hfl2 : flushed h1 h2 s c1).

Lemma parent_kept : h2 !! p = Some (N_inner n).
Proof.
  destruct clone_parent as [Hpc Hpr]. destruct (fl_ext _ _ _ _ Hfl2 p (N_inner n)) as (n' & Hn' & [->|(_ & _ & Hr)]); [by rewrite clone_other|done|done].
Qed.

#[local] Abbreviation h3 := (<[p := N_inner (shareChild pos c1 n)]> h2).

Lemma parent_seq : in_seq n = s.
Proof. destruct (fg_self _ _ _ _ _ Hfl) as (n' & Hn' & Hseq & _). congruence. Qed.

Lemma flushed_live : live h1 c1.
Proof. exists (S d), mc. destruct child_inner as [_ Hlt]. split_and!; [lia|by apply good_sub|apply (clone_holds h s c node c1 (S d) mc Hs child_holds Hnode Hc1)]. Qed.

Lemma flushed_apart : ~ reaches h2 c1 p.
Proof.
  intros Hr. destruct clone_parent as [Hpc Hpr]. apply Hpr. apply (fl_rmono _ _ _ _ Hfl2); [apply flushed_live|done|].
  rewrite clone_other by done. by eexists.
Qed.

Lemma share_mono : mono h2 h3.
Proof.
  destruct child_inner as [_ Hlt]. eapply (mono_share h2 p n pos c1 d m).
  - apply parent_kept.
  - by rewrite parent_seq.
  - by exists c.
  - apply (fl_mono _ _ _ _ Hfl2); [done..|]. apply (clone_mono h s c node c1 Hnode Hc1); [done..|]. apply child_parent.
  - done.
  - done.
  - apply (fl_mono _ _ _ _ Hfl2); [lia|by apply good_sub|apply (clone_holds h s c node c1 (S d) mc Hs child_holds Hnode Hc1)].
  - apply flushed_apart.
Qed.

Lemma flushed_dom q : is_Some (h1 !! q) -> is_Some (h2 !! q).
Proof. intros [x Hx]. destruct (fl_ext _ _ _ _ Hfl2 q x Hx) as (n' & ? & _). by eexists. Qed.

Lemma share_rmono : rmono h h3.
Proof.
  intros q0 q Hl Hr Hq. assert (H12 : rmono h h2).
  { eapply rmono_trans; [apply (clone_mono h s c node c1 Hnode Hc1)|apply (clone_dom h s node c1)|apply (clone_rmono h s c node c1 Hnode Hc1)|apply (fl_rmono _ _ _ _ Hfl2)]. }
  apply (reaches_share h2 p n pos c1 q0 q parent_kept flushed_apart) in Hr as [Hr|[Hr1 Hr2]].
  - by apply H12.
  - apply (reaches_trans _ _ p); [apply H12; [done..|by eexists]|]. eapply reach_step; [exact Hp|exact Hc|].
    apply (clone_reach h s c node c1 (S d) mc child_holds Hnode Hc1); [|done]. apply (fl_rmono _ _ _ _ Hfl2); [apply flushed_live|done|by apply (clone_dom h s node c1)].
Qed.

(** A node other than the parent that was changed was this map's and is done. *)
Lemma share_ext q x : h !! q = Some x ->
  exists x', h3 !! q = Some x' /\ (x' = x \/ (node_seq x = s /\ (node_seq x' = 0 \/ q = p) /\ reaches h p q)).
Proof.
  intros Hx. destruct (decide (q = p)) as [->|Hne].
  { rewrite lookup_insert_eq. eexists. split; [done|]. right. rewrite Hp in Hx. injection Hx as <-. split_and!; [apply parent_seq|by right|apply reach_refl]. }
  rewrite lookup_insert_ne by done. destruct (decide (q = c1)) as [->|Hqc].
  - destruct Hc1 as [[-> Hseq]|Hn]; [|congruence]. assert (x = node) as -> by congruence.
    destruct (fl_done _ _ _ _ Hfl2) as (x' & Hx' & Hz). exists x'. split; [done|]. right. split_and!; [done|by left|].
    eapply reach_step; [exact Hp|exact Hc|apply reach_refl].
  - destruct (fl_ext _ _ _ _ Hfl2 q x) as (x' & Hx' & Hor); [by rewrite clone_other|]. exists x'. split; [done|].
    destruct Hor as [->|(H1 & H2 & H3)]; [by left|right]. split_and!; [done|by left|]. eapply reach_step; [exact Hp|exact Hc|].
    apply (clone_reach h s c node c1 (S d) mc child_holds Hnode Hc1); [done|by eexists].
Qed.

Lemma share_fresh q x : h3 !! q = Some x -> h !! q = None -> node_seq x = 0.
Proof.
  intros Hx Hq. assert (Hqp : q <> p) by congruence. rewrite lookup_insert_ne in Hx by done.
  destruct (decide (q = c1)) as [->|Hqc].
  - destruct (fl_done _ _ _ _ Hfl2) as (x' & Hx' & Hz). congruence.
  - eapply (fl_fresh _ _ _ _ Hfl2); [done|]. by rewrite clone_other.
Qed.

Lemma share_zero q x : h !! q = Some x -> node_seq x = 0 -> h3 !! q = Some x.
Proof.
  intros Hx Hz. assert (Hqp : q <> p).
  { intros ->. rewrite Hp in Hx. injection Hx as <-. cbn in Hz. rewrite parent_seq in Hz. done. }
  destruct (share_ext q x Hx) as (x' & Hx' & [->|(H1 & _)]); [done|]. congruence.
Qed.

Lemma child_step : flushing h0 h3 s p (S pos).
Proof.
  destruct Hfl as [F1 F2 F3 F4 (n' & Hn' & Hseq & Hdone)]. assert (n' = n) as -> by congruence.
  assert (Hm3 : mono h h3) by (eapply mono_trans; [apply (clone_mono h s c node c1 Hnode Hc1)|]; eapply mono_trans; [apply (fl_mono _ _ _ _ Hfl2)|apply share_mono]).
  assert (Hdom : forall q, is_Some (h0 !! q) -> is_Some (h !! q)) by (intros q [x Hx]; destruct (F3 q x Hx) as (? & ? & _); by eexists).
  assert (Hlive : live h0 p) by (by exists d, m). split.
  - by eapply mono_trans.
  - eapply rmono_trans; [done..|apply share_rmono].
  - intros q x Hx. destruct (F3 q x Hx) as (x' & Hx' & Hor). destruct (share_ext q x' Hx') as (x2 & Hx2 & Hor2). exists x2. split; [done|].
    destruct Hor2 as [->|(H1 & H2 & H3)]; [done|right].
    assert (Hr : reaches h0 p q) by (apply F2; [done|done|by eexists]). split_and!; [|done|done].
    destruct Hor as [->|(H4 & _)]; done.
  - intros q x Hx Hq. destruct (h !! q) as [x'|] eqn:E; [|by eapply share_fresh].
    pose proof (F4 q x' E Hq) as Hz. rewrite (share_zero q x' E Hz) in Hx. congruence.
  - exists (shareChild pos c1 n). split; [by rewrite lookup_insert_eq|]. split; [done|]. intros b c' Hb Hbc. cbn in Hbc.
    destruct (decide (b = pos)) as [->|Hne].
    + pose proof (lookup_lt_Some _ _ _ Hc) as Hlt. rewrite list_lookup_insert_eq in Hbc by done. injection Hbc as <-.
      destruct (fl_done _ _ _ _ Hfl2) as (x' & Hx' & Hz). exists x'. split; [|done]. rewrite lookup_insert_ne; [done|]. apply clone_parent.
    + rewrite list_lookup_insert_ne in Hbc by done. destruct (Hdone b c') as (nc & Hnc & Hz); [lia|done|].
      exists nc. split; [by apply share_zero|done].
Qed.
End Child.

(** *** The loop over the children and the recursion *)

Lemma flushing_start h s p n : h !! p = Some (N_inner n) -> in_seq n = s -> flushing h h s p 0.
Proof.
  intros Hp Hseq. split; [apply mono_refl|apply rmono_refl| |intros; congruence|].
  - intros q x Hq. exists x. split; [done|by left].
  - exists n. split_and!; [done..|]. intros; lia.
Qed.

Lemma flushing_skip h0 h s p pos n :
  flushing h0 h s p pos -> h !! p = Some (N_inner n) ->
  (forall c, in_children n !! pos = Some (Some c) -> exists nc, h !! c = Some nc /\ node_seq nc = 0) -> flushing h0 h s p (S pos).
Proof.
  intros [F1 F2 F3 F4 (n' & Hn' & Hseq & Hdone)] Hp Hc. assert (n' = n) as -> by congruence. split; [done..|].
  exists n. split_and!; [done..|]. intros b c Hb Hbc. destruct (decide (b = pos)) as [->|]; [by apply Hc|]. apply (Hdone b c); [lia|done].
Qed.

(** What the recursive call does with an inner child. *)
Definition flushes (rec : nptr -> MapState -> res (MapState * Z)) (s : Z) (d : nat) : Prop :=
  forall c st m n, map_seq st = s -> node_at (ms_heap st) d c m -> (d <= 64)%nat -> good d m ->
    ms_heap st !! c = Some (N_inner n) -> in_seq n = s ->
    exists st' k, rec c st = Ok (st', k) /\ ms_map st' = ms_map st /\ flushed (ms_heap st) (ms_heap st') s c.

Lemma modify_inner_Ok p f st n : ms_heap st !! p = Some (N_inner n) -> modify_inner p f st = Ok (store p (N_inner (f n)) st).
Proof. intros Hp. unfold modify_inner, deref. by rewrite Hp. Qed.

Lemma flush_child_ok h0 rec s p d m pos st k :
  s <> 0 -> map_seq st = s -> (d <= 64)%nat -> good d m -> node_at h0 d p m -> (pos < 16)%nat ->
  flushing h0 (ms_heap st) s p pos -> flushes rec s (S d) ->
  exists st' k', flush_child sha512Half rec p pos (st, k) = Ok (st', k') /\ ms_map st' = ms_map st /\ flushing h0 (ms_heap st') s p (S pos).
Proof.
  intros Hs Hseq Hd Hg Hat0 Hpos Hfl Hrec. destruct (fg_self _ _ _ _ _ Hfl) as (n & Hp & Hsn & _).
  destruct (child_inner h0 _ s p d m pos n Hd Hg Hat0 Hfl Hp) as [Hin Hlt]. pose proof Hin as (_ & Hok & Hcs & _).
  pose proof (child_at n pos Hok Hpos) as Hchild. unfold flush_child. rewrite (deref_Some _ _ _ Hp). cbn [mbind res_bind as_inner].
  rewrite (isEmptyBranch_child n pos Hok Hpos). destruct (getChild n pos) as [c|] eqn:Ec.
  2: { rewrite bool_decide_true by done. exists st, k. split_and!; [done..|]. eapply flushing_skip; [done..|]. intros c Hc. congruence. }
  rewrite bool_decide_false by done. destruct (node_at_Some _ _ _ _ _ _ (Hcs _ _ Hchild)) as [node Hnode].
  rewrite (deref_Some _ _ _ Hnode). cbn [mbind res_bind]. destruct (Z.eqb_spec (node_seq node) 0) as [Hz|Hnz].
  { exists st, k. split_and!; [done..|]. eapply flushing_skip; [done..|]. intros c' Hc'. exists node. assert (c' = c) as -> by congruence. done. }
  destruct (preFlush_cases c st node Hnode) as (c1 & st1 & E1 & Em1 & Eh1 & Hc1). rewrite E1. cbn [mbind res_bind]. rewrite Hseq in Eh1, Hc1.
  rewrite (deref_Some _ c1 (clone s node)) by (by rewrite Eh1, lookup_insert_eq). cbn [mbind res_bind].
  pose proof (child_step h0 (ms_heap st) s p d m pos n c node c1 Hs Hd Hg Hat0 Hpos Hfl Hp Hchild Hnode Hc1) as Hstep.
  pose proof (parent_kept h0 (ms_heap st) s p d m pos n c node c1 Hd Hg Hat0 Hfl Hp Hchild Hnode Hc1) as Hkept.
  rewrite <-Eh1 in Hstep, Hkept. destruct node as [n0|l]; cbn [clone setSeq].
  - edestruct (Hrec c1 st1 (sub d pos m)) as (st2 & k2 & E2 & Em2 & Hfl2).
    + unfold map_seq. by rewrite Em1.
    + rewrite Eh1. eapply (clone_holds _ _ c _ _ (S d)); [done|by apply Hcs|done|done].
    + lia.
    + by apply good_sub.
    + by rewrite Eh1, lookup_insert_eq.
    + done.
    + rewrite E2. cbn [mbind res_bind]. rewrite (modify_inner_Ok _ _ _ _ (Hkept _ Hfl2)). cbn [mbind res_bind]. eexists _, _. split; [done|].
      cbn [store ms_map ms_heap]. split; [congruence|]. by apply Hstep.
  - set (st2 := store c1 _ st1). assert (Hfl2 : flushed (ms_heap st1) (ms_heap st2) s c1).
    { unfold st2, store. cbn [ms_heap].
      apply (leaf_flushed (ms_heap st1) c1 (mkLeaf (lf_hash l) s (lf_type l) (lf_item l))); [by rewrite Eh1, lookup_insert_eq|done]. }
    rewrite (modify_inner_Ok _ _ _ _ (Hkept _ Hfl2)). cbn [mbind res_bind]. eexists _, _. split; [done|].
    cbn [store ms_map ms_heap]. split; [done|]. by apply Hstep.
Qed.

Lemma flush_loop_ok h0 rec s p d m : s <> 0 -> (d <= 64)%nat -> good d m -> node_at h0 d p m -> flushes rec s (S d) ->
  forall len pos st k, map_seq st = s -> (pos + len <= 16)%nat -> flushing h0 (ms_heap st) s p pos ->
  exists st' k', for_each (flush_child sha512Half rec p) (seq pos len) (st, k) = Ok (st', k') /\ ms_map st' = ms_map st /\
    flushing h0 (ms_heap st') s p (pos + len).
Proof.
  intros Hs Hd Hg Hat Hrec. induction len as [|len IH]; intros pos st k Hseq Hlen Hfl; cbn [seq for_each].
  - exists st, k. rewrite Nat.add_0_r. done.
  - destruct (flush_child_ok h0 rec s p d m pos st k) as (st1 & k1 & E1 & Em1 & Hfl1); [done..|lia|done|done|].
    rewrite E1. cbn [mbind res_bind]. destruct (IH (S pos) st1 k1) as (st2 & k2 & E2 & Em2 & Hfl2); [unfold map_seq; by rewrite Em1|lia|done|].
    exists st2, k2. split_and!; [done|congruence|]. by rewrite Nat.add_succ_r.
Qed.

Lemma reaches_same_children h p n n' q0 q :
  h !! p = Some (N_inner n) -> in_children n' = in_children n -> reaches (<[p := N_inner n']> h) q0 q -> reaches h q0 q.
Proof.
  intros Hp Hch. induction 1 as [|q0 x b c q Hx Hb Hr IH]; [apply reach_refl|]. destruct (decide (q0 = p)) as [->|Hne].
  - rewrite lookup_insert_eq in Hx. injection Hx as <-. rewrite Hch in Hb. by eapply reach_step.
  - rewrite lookup_insert_ne in Hx by done. by eapply reach_step.
Qed.

Lemma flush_inner_ok s : s <> 0 -> forall fuel d, (65 - d <= fuel)%nat -> flushes (flush_inner sha512Half fuel) s d.
Proof.
  intros Hs. induction fuel as [|fuel IH]; intros d Hf c st m n Hseq Hat Hd Hg Hc Hsn; [lia|]. cbn [flush_inner].
  destruct (flush_loop_ok (ms_heap st) (flush_inner sha512Half fuel) s c d m Hs Hd Hg Hat (IH (S d) ltac:(lia)) 16 0 st 0) as (st1 & k1 & E1 & Em1 & Hfl);
    [done|lia|by eapply flushing_start|]. rewrite E1. cbn [mbind res_bind].
  destruct Hfl as [F1 F2 F3 F4 (n1 & Hn1 & Hs1 & Hdone)]. rewrite (modify_inner_Ok _ _ _ _ Hn1). cbn [mbind res_bind].
  unfold modify. cbn [store ms_heap]. rewrite (deref_Some _ c _ (lookup_insert_eq _ _ _)). cbn [mbind res_bind].
  eexists _, _. split; [done|]. cbn [store ms_heap ms_map]. rewrite insert_insert_eq. split; [done|].
  assert (Hz : forall b x, in_children n1 !! b = Some (Some x) -> exists nc, ms_heap st1 !! x = Some nc /\ node_seq nc = 0).
  { intros b x Hb. eapply Hdone; [|done]. assert (Hat1 : node_at (ms_heap st1) d c m) by (by apply F1).
    apply node_at_inv in Hat1 as [(l & Hl & _)|(n2 & (Hn2 & Hok & _) & _)]; [congruence|]. assert (n2 = n1) as -> by congruence.
    rewrite <-(io_children n1 Hok). by eapply lookup_lt_Some. }
  pose proof (mono_finish (ms_heap st1) c n1 Hn1 Hz) as Hm. split.
  - by eapply mono_trans.
  - intros q0 q Hl Hr Hq. apply F2; [done| |done]. eapply reaches_same_children; [exact Hn1| |exact Hr]. by rewrite updateHashDeep_fields.
  - intros q x Hx. destruct (decide (q = c)) as [->|Hne]; [rewrite lookup_insert_eq|rewrite lookup_insert_ne by done].
    + eexists. split; [done|]. right. assert (x = N_inner n) as -> by congruence. split_and!; [done..|apply reach_refl].
    + destruct (F3 q x Hx) as (x' & Hx' & Hor). exists x'. split; [done|]. destruct Hor as [->|(H1 & [H2|H2] & H3)]; [by left|right; by split_and!|done].
  - intros q x Hx Hq. rewrite lookup_insert_ne in Hx by congruence. by eapply F4.
  - eexists. rewrite lookup_insert_eq. by split.
Qed.
(** ** Whole maps *)

Definition shareable h p : Prop := exists n, h !! p = Some n /\ node_seq n = 0.

(** Everything below a shareable node is shareable. *)
Lemma shareable_reach h d p m q : node_at h d p m -> shareable h p -> reaches h p q -> shareable h q.
Proof.
  intros Hat Hz Hr. revert d m Hat Hz. induction Hr as [p|p n b c q Hn Hb Hr IH]; intros d m Hat Hz; [done|].
  apply node_at_inv in Hat as [(l & Hl & _)|(n' & (Hn' & _ & Hcs & _ & _ & Hcl) & _)]; [congruence|].
  assert (n' = n) as -> by congruence. destruct Hz as (x & Hx & Hz). assert (x = N_inner n) as -> by congruence.
  destruct (Hcl Hz) as (_ & _ & Hc). apply (IH (S d) (sub d b m)); [by apply Hcs|by apply (Hc b)].
Qed.

(** [st'] is [st] after its map, holding [M], was unshared. *)
Record unshared (st st' : MapState) M : Prop := {
  un_mono : mono (ms_heap st) (ms_heap st');
  un_rmono : rmono (ms_heap st) (ms_heap st');
  un_ext : forall q n, ms_heap st !! q = Some n -> exists n', ms_heap st' !! q = Some n' /\
    (n' = n \/ (node_seq n = map_seq st /\ node_seq n' = 0 /\ reaches (ms_heap st) (map_root st) q));
  un_fresh : forall q n, ms_heap st' !! q = Some n -> ms_heap st !! q = None -> node_seq n = 0;
  un_root : node_at (ms_heap st') 0 (map_root st') M;
  un_clean : shareable (ms_heap st') (map_root st');
  un_reach : forall q, reaches (ms_heap st') (map_root st') q -> ms_heap st !! q = None \/ reaches (ms_heap st) (map_root st) q;
  un_map : ms_map st' = set_root (map_root st') (ms_map st)
}.

Lemma set_root_same (m : SHAMap) : set_root (sm_root m) m = m.
Proof. by destruct m. Qed.

Lemma unshared_refl st M : node_at (ms_heap st) 0 (map_root st) M -> shareable (ms_heap st) (map_root st) -> unshared st st M.
Proof.
  intros Hat Hz. split; [apply mono_refl|apply rmono_refl| | |done|done| |].
  - intros q n Hq. exists n. split; [done|by left].
  - intros q n H1 H2. congruence.
  - intros q Hq. by right.
  - unfold map_root. by rewrite set_root_same.
Qed.

(** The root cloned unless it is this map's, then flushed. *)
Lemma unshared_flush st c1 node h' M :
  map_seq st <> 0 -> node_at (ms_heap st) 0 (map_root st) M -> good 0 M -> ms_heap st !! map_root st = Some node ->
  ((c1 = map_root st /\ node_seq node = map_seq st) \/ ms_heap st !! c1 = None) ->
  flushed (<[c1 := clone (map_seq st) node]> (ms_heap st)) h' (map_seq st) c1 ->
  unshared st (mkMS h' (set_root c1 (ms_map st))) M.
Proof.
  intros Hs Hat Hg Hnode Hc1 [F1 F2 F3 F4 F5]. set (h := ms_heap st) in *. set (s := map_seq st) in *. set (r := map_root st) in *.
  pose proof (clone_holds h s r node c1 0 M Hs Hat Hnode Hc1) as Hat1. pose proof (clone_mono h s r node c1 Hnode Hc1) as Hm.
  pose proof (clone_dom h s node c1) as Hdom. pose proof (clone_reach h s r node c1 0 M Hat Hnode Hc1) as Hreach.
  assert (Hlive : live (<[c1 := clone s node]> h) c1) by (exists 0%nat, M; split_and!; [lia|done|done]).
  split; cbn [ms_heap ms_map]; try change (map_root (mkMS h' (set_root c1 (ms_map st)))) with c1; fold h s r.
  - by eapply mono_trans.
  - eapply rmono_trans; [exact Hm|exact Hdom|by apply (clone_rmono h s r node c1)|exact F2].
  - intros q n Hq. destruct (decide (q = c1)) as [->|Hne].
    + destruct Hc1 as [[-> Hseq]|Hn]; [|congruence]. destruct F5 as (n' & Hn' & Hz). exists n'. split; [done|]. right.
      assert (n = node) as -> by congruence. split_and!; [done..|apply reach_refl].
    + destruct (F3 q n) as (n' & Hn' & Hor); [by rewrite clone_other|]. exists n'. split; [done|].
      destruct Hor as [->|(H1 & H2 & H3)]; [by left|right]. split_and!; [done..|]. apply Hreach; [done|by eexists].
  - intros q n Hq Hn. destruct (decide (q = c1)) as [->|Hne]; [destruct F5 as (n' & Hn' & Hz); congruence|].
    eapply F4; [done|]. by rewrite clone_other.
  - apply F1; [lia|done|done].
  - done.
  - intros q Hq. destruct (h !! q) as [x|] eqn:Ex; [right|by left].
    apply Hreach; [|by eexists]. apply F2; [done|done|apply Hdom; by eexists].
  - done.
Qed.

Lemma new_inner_holds h s p : h !! p = Some (N_inner (new_inner s)) -> node_at h 0 p ∅.
Proof.
  intros Hp. assert (Hno : forall b c, in_children (new_inner s) !! b = Some c -> c = None).
  { intros b c Hb. by apply lookup_replicate in Hb as [-> _]. }
  eapply at_inner; [done|apply inner_ok_new| |intros; apply sub_empty|by left| |by left].
  - intros b c Hb. by apply Hno in Hb.
  - intros _. split_and!; [by rewrite mhash_empty| |intros b c Hb; by apply Hno in Hb].
    intros b Hb. rewrite sub_empty, mhash_empty. apply lookup_replicate_2. lia.
Qed.

Lemma unshared_empty st q :
  ms_heap st !! q = None -> unshared st (mkMS (<[q := N_inner (new_inner 0)]> (ms_heap st)) (set_root q (ms_map st))) ∅.
Proof.
  intros Hq. assert (Hat : node_at (<[q := N_inner (new_inner 0)]> (ms_heap st)) 0 q ∅) by (by eapply new_inner_holds, lookup_insert_eq).
  split; cbn [ms_heap ms_map]; [by apply alloc_mono|by apply alloc_rmono| | |done| | |done].
  - intros x n Hx. exists n. split; [rewrite lookup_insert_ne by congruence; done|by left].
  - intros x n. destruct (decide (x = q)) as [->|Hne]; [rewrite lookup_insert_eq; by intros [= <-]|rewrite lookup_insert_ne by done; congruence].
  - exists (N_inner (new_inner 0)). by rewrite lookup_insert_eq.
  - intros x [<-|(n & b & c & Hn & Hb & _)]%reaches_inv; [by left|]. rewrite lookup_insert_eq in Hn. injection Hn as <-.
    by apply lookup_replicate in Hb as [? _].
Qed.

Section Whole.
Context (st : MapState) (M : Items).
Context (Hs : map_seq st <> 0) (Hr : node_at (ms_heap st) 0 (map_root st) M) (Hg : good 0 M).

Lemma walkSubTree_spec : exists k st', walkSubTree sha512Half st = Ok (k, st') /\ unshared st st' M.
Proof.
  pose proof Hr as Hr'. apply node_at_inv in Hr' as [(l & _ & _ & _ & Hd & _)|(n & Hin & _)]; [lia|]. pose proof Hin as (Hn & _).
  unfold walkSubTree. fold (map_root st). rewrite (deref_Some _ _ _ Hn). cbn [mbind res_bind].
  destruct (Z.eqb_spec (node_seq (N_inner n)) 0) as [Hz|Hnz].
  { exists 0, st. split; [done|]. apply unshared_refl; [done|by eexists]. }
  destruct (isEmpty n) eqn:He.
  { rewrite (isEmpty_holds _ _ _ _ _ Hin He). eexists _, _. split; [done|]. cbn. apply unshared_empty, fresh_None. }
  destruct (preFlush_cases (map_root st) st _ Hn) as (c1 & st1 & E1 & Em1 & Eh1 & Hc1). rewrite E1. cbn [mbind res_bind].
  destruct (flush_inner_ok (map_seq st) Hs max_path 0 (Nat.le_refl _) c1 st1 M (mkInner (in_hash n) (map_seq st) (in_hashes n) (in_children n) (in_isBranch n)))
    as (st2 & k & E2 & Em2 & Hfl); [unfold map_seq; by rewrite Em1| |lia|done|by rewrite Eh1, lookup_insert_eq|done|].
  { rewrite Eh1. by apply (clone_holds _ _ (map_root st)). }
  rewrite E2. cbn [mbind res_bind]. eexists _, _. split; [done|]. rewrite Em2, Em1. rewrite Eh1 in Hfl. by eapply unshared_flush.
Qed.

Lemma getHash_spec : exists st', getHash sha512Half st = Ok (mhash 0 M, st') /\ (unshared st st' M \/ st' = st).
Proof.
  pose proof Hr as Hr'. apply node_at_inv in Hr' as [(l & _ & _ & _ & Hd & _)|(n & Hin & _)]; [lia|]. pose proof Hin as (Hn & _ & _ & _ & Hh & _).
  unfold getHash. fold (map_root st). rewrite (deref_Some _ _ _ Hn). cbn [mbind res_bind getNodeHash].
  destruct (Z.eqb_spec (in_hash n) 0) as [Hz|Hnz]; [|destruct Hh as [|Hh]; [done|]; exists st; rewrite Hh; split; [done|by right]].
  destruct walkSubTree_spec as (k & st' & E & Hun). unfold unshare. rewrite E. cbn [mbind res_bind].
  destruct (un_clean _ _ _ Hun) as (x & Hx & Hx0). fold (map_root st'). rewrite (deref_Some _ _ _ Hx). cbn [mbind res_bind]. exists st'. split; [|by left].
  by rewrite (clean_hash _ 0 _ M _ (un_root _ _ _ Hun)) by (done || lia).
Qed.
End Whole.
End Flush.
