(* ===== verification/SHAMapSystem.v ===== *)
(** * Any number of SHAMaps over one heap

    Maps are created, changed, hashed and copied in any order; they share nodes
    copy-on-write. The theorem of this file says that nothing of the sharing can
    be observed: the outputs are those of independent finite maps. *)

From S2P Require Import Prelude SHAMapNode SHAMap SHAMapInv SHAMapOps SHAMapFlush.

(** ** The maps of a program *)

Record System := mkSys { sys_heap : Heap; sys_maps : list SHAMap }.

Inductive map_op :=
| Op_new
| Op_add (i : nat) (item : SHAMapItem)
| Op_update (i : nat) (item : SHAMapItem)
| Op_del (i : nat) (id : Z)
| Op_has (i : nat) (id : Z)
| Op_peek (i : nat) (id : Z)
| Op_hash (i : nat)
| Op_snapShot (i : nat) (isMutable : bool)
| Op_setImmutable (i : nat).

Inductive map_out :=
| Out_none
| Out_bool (b : bool)
| Out_item (it : option SHAMapItem)
| Out_hash (h : Z).

Definition empty_system : System := mkSys ∅ [].

Definition with_map {A} (i : nat) (sys : System) (f : SHAMap -> res A) : res A :=
  match sys_maps sys !! i with Some m => f m | None => null_pointer end.

(** A member function of map [i] that returns a value. *)
Definition call {A} (i : nat) (sys : System) (out : A -> map_out) (f : MapState -> res (A * MapState)) : res (map_out * System) :=
  with_map i sys (fun m =>
    '(a, st) ← f (mkMS (sys_heap sys) m);
    Ok (out a, mkSys (ms_heap st) (<[i := ms_map st]> (sys_maps sys)))).

Definition query {A} (i : nat) (sys : System) (out : A -> map_out) (f : MapState -> res A) : res (map_out * System) :=
  with_map i sys (fun m => a ← f (mkMS (sys_heap sys) m); Ok (out a, sys)).

Section System.
Context (sha512Half : list Z -> Z) (isTransaction hasMeta : bool).

Definition sys_step (op : map_op) (sys : System) : res (map_out * System) :=
  match op with
  | Op_new =>
      let st := new_map (sys_heap sys) in
      Ok (Out_none, mkSys (ms_heap st) (sys_maps sys ++ [ms_map st]))
  | Op_add i item => call i sys Out_bool (addGiveItem sha512Half item isTransaction hasMeta)
  | Op_update i item => call i sys Out_bool (updateGiveItem sha512Half item isTransaction hasMeta)
  | Op_del i id => call i sys Out_bool (delItem sha512Half id)
  | Op_has i id => query i sys Out_bool (hasItem id)
  | Op_peek i id => query i sys Out_item (peekItem id)
  | Op_hash i => call i sys Out_hash (getHash sha512Half)
  | Op_snapShot i isMutable =>
      with_map i sys (fun m =>
        st ← snapShot sha512Half isMutable (mkMS (sys_heap sys) m);
        Ok (Out_none, mkSys (ms_heap st) (sys_maps sys ++ [ms_map st])))
  | Op_setImmutable i =>
      with_map i sys (fun m => Ok (Out_none, mkSys (sys_heap sys) (<[i := setImmutable m]> (sys_maps sys))))
  end.

Fixpoint sys_run (ops : list map_op) (sys : System) : res (list map_out * System) :=
  match ops with
  | [] => Ok ([], sys)
  | op :: ops => '(o, sys) ← sys_step op sys; '(os, sys) ← sys_run ops sys; Ok (o :: os, sys)
  end.

(** ** Independent finite maps *)

Record AMap := mkAMap { a_items : Items; a_mutable : bool }.

Let ty := leaf_type isTransaction hasMeta.

Definition put (k : Z) (v : option SHAMapItem) (a : AMap) : AMap := mkAMap (upd k v (a_items a)) (a_mutable a).

(** Changing map [i] needs a map that may change; the code asserts it. *)
Definition a_change (i : nat) (maps : list AMap) (f : AMap -> bool * AMap) : option (map_out * list AMap) :=
  a ← maps !! i;
  if a_mutable a then let (b, a') := f a in Some (Out_bool b, <[i := a']> maps) else None.

Definition a_step (op : map_op) (maps : list AMap) : option (map_out * list AMap) :=
  match op with
  | Op_new => Some (Out_none, maps ++ [mkAMap ∅ true])
  | Op_add i item =>
      a_change i maps (fun a =>
        match a_items a !! it_key item with Some _ => (false, a) | None => (true, put (it_key item) (Some item) a) end)
  | Op_update i item =>
      a_change i maps (fun a =>
        match a_items a !! it_key item with Some _ => (true, put (it_key item) (Some item) a) | None => (false, a) end)
  | Op_del i id => a_change i maps (fun a => (bool_decide (is_Some (a_items a !! id)), put id None a))
  | Op_has i id => a ← maps !! i; Some (Out_bool (bool_decide (is_Some (a_items a !! id))), maps)
  | Op_peek i id => a ← maps !! i; Some (Out_item (a_items a !! id), maps)
  | Op_hash i => a ← maps !! i; Some (Out_hash (mhash sha512Half ty 0 (a_items a)), maps)
  | Op_snapShot i isMutable => a ← maps !! i; Some (Out_none, maps ++ [mkAMap (a_items a) isMutable])
  | Op_setImmutable i => a ← maps !! i; Some (Out_none, <[i := mkAMap (a_items a) false]> maps)
  end.

Fixpoint a_run (ops : list map_op) (maps : list AMap) : option (list map_out * list AMap) :=
  match ops with
  | [] => Some ([], maps)
  | op :: ops => '(o, maps) ← a_step op maps; '(os, maps) ← a_run ops maps; Some (o :: os, maps)
  end.

(** ** The invariant *)

#[local] Abbreviation node_at := (node_at sha512Half ty).
Implicit Types (h : Heap) (q : nptr) (m : SHAMap).

Record holds h m (a : AMap) : Prop := {
  ho_at : node_at h 0 (sm_root m) (a_items a);
  ho_good : good 0 (a_items a);
  ho_state : sm_state m = if a_mutable a then St_Modifying else St_Immutable;
  ho_seq : forall q n, reaches h (sm_root m) q -> h !! q = Some n -> 0 <= node_seq n <= sm_seq m
}.

(** Nodes the map may write to. *)
Definition owned h m q : Prop := reaches h (sm_root m) q /\ exists n, h !! q = Some n /\ node_seq n = sm_seq m.

(** [U]: the items in use; [B]: a bound of the sequence numbers. *)
Record sys_ok (U : list SHAMapItem) (B : Z) (sys : System) (maps : list AMap) : Prop := {
  ok_maps : Forall2 (holds (sys_heap sys)) (sys_maps sys) maps;
  ok_bound : forall i m, sys_maps sys !! i = Some m -> 1 <= sm_seq m <= B;
  ok_apart : forall i j m m' q, sys_maps sys !! i = Some m -> sys_maps sys !! j = Some m' -> i <> j ->
    sm_state m = St_Modifying -> owned (sys_heap sys) m q -> ~ reaches (sys_heap sys) (sm_root m') q;
  ok_used : forall i a k it, maps !! i = Some a -> a_items a !! k = Some it -> it ∈ U
}.

(** ** What an operation does to the maps *)

(** A map that is not operated on keeps its contents and owns no more. *)
Record keeps h h' m : Prop := {
  kp_at : forall M, good 0 M -> node_at h 0 (sm_root m) M -> node_at h' 0 (sm_root m) M;
  kp_reach : forall q n', reaches h' (sm_root m) q -> h' !! q = Some n' ->
    node_seq n' = 0 \/ (reaches h (sm_root m) q /\ h !! q = Some n')
}.

(** The map operated on reaches only new nodes and those it reached. *)
Definition changes h h' m m' : Prop :=
  forall q n', reaches h' (sm_root m') q -> h' !! q = Some n' ->
    node_seq n' = 0 \/ (h !! q = None /\ node_seq n' = sm_seq m) \/
    (reaches h (sm_root m) q /\ exists n, h !! q = Some n /\ (n' = n \/ (node_seq n = sm_seq m /\ node_seq n' = sm_seq m))).

Lemma keeps_owned h h' m q : 1 <= sm_seq m -> keeps h h' m -> owned h' m q -> owned h m q /\ h' !! q = h !! q.
Proof.
  intros Hs Hk (Hr & n & Hn & Hseq). destruct (kp_reach _ _ _ Hk q n Hr Hn) as [?|[Hr' Hn']]; [lia|].
  split; [|congruence]. split; [done|by exists n].
Qed.

Lemma keeps_reach h h' m q n : keeps h h' m -> h' !! q = Some n -> node_seq n <> 0 -> reaches h' (sm_root m) q -> reaches h (sm_root m) q /\ h !! q = Some n.
Proof. intros Hk Hn Hz Hr. by destruct (kp_reach _ _ _ Hk q n Hr Hn) as [?|?]. Qed.

Lemma keeps_holds h h' m a : 1 <= sm_seq m -> keeps h h' m -> holds h m a -> holds h' m a.
Proof.
  intros Hs Hk [H1 H2 H3 H4]. split; [by apply (kp_at _ _ _ Hk)|done|done|].
  intros q n Hr Hn. destruct (kp_reach _ _ _ Hk q n Hr Hn) as [->|[Hr' Hn']]; [lia|by eapply H4].
Qed.

Lemma changes_owned h h' m m' q : sm_seq m' = sm_seq m -> 1 <= sm_seq m -> changes h h' m m' -> owned h' m' q -> h !! q = None \/ owned h m q.
Proof.
  intros Es Hs Hc (Hr & n & Hn & Hseq). destruct (Hc q n Hr Hn) as [?|[[? _]|(Hr' & n0 & Hn0 & Hor)]]; [lia|by left|right].
  split; [done|]. exists n0. split; [done|]. destruct Hor as [->|[? _]]; [congruence|done].
Qed.

Section Step.
Context (U : list SHAMapItem) (B : Z) (sys : System) (maps : list AMap) (Hok : sys_ok U B sys maps).
#[local] Abbreviation h := (sys_heap sys).

Lemma ok_holds i m a : sys_maps sys !! i = Some m -> maps !! i = Some a -> holds h m a.
Proof. intros Hm Ha. eapply Forall2_lookup_lr; [apply (ok_maps _ _ _ _ Hok)|done..]. Qed.

Lemma ok_lookup i a : maps !! i = Some a -> exists m, sys_maps sys !! i = Some m /\ holds h m a.
Proof. intros Ha. destruct (Forall2_lookup_r _ _ _ _ _ (ok_maps _ _ _ _ Hok) Ha) as (m & Hm & H). by exists m. Qed.

(** One map changed. *)
Lemma sys_ok_change h' i m m' a a' :
  sys_maps sys !! i = Some m -> maps !! i = Some a ->
  sm_seq m' = sm_seq m -> (sm_state m' = St_Modifying -> sm_state m = St_Modifying) -> holds h' m' a' ->
  (forall j mj, sys_maps sys !! j = Some mj -> j <> i -> keeps h h' mj) -> changes h h' m m' ->
  (forall k it, a_items a' !! k = Some it -> it ∈ U) ->
  sys_ok U B (mkSys h' (<[i := m']> (sys_maps sys))) (<[i := a']> maps).
Proof.
  intros Hm Ha Es Est Hh Hk Hc Hu. pose proof (lookup_lt_Some _ _ _ Hm) as Hlt. pose proof (lookup_lt_Some _ _ _ Ha) as Hlta.
  pose proof (ok_bound _ _ _ _ Hok) as Hb. split; cbn [sys_heap sys_maps].
  - apply Forall2_same_length_lookup. split; [rewrite !length_insert; apply (Forall2_length _ _ _ (ok_maps _ _ _ _ Hok))|].
    intros j mj aj Hmj Haj. destruct (decide (j = i)) as [->|Hne].
    + rewrite list_lookup_insert_eq in Hmj by done. rewrite list_lookup_insert_eq in Haj by done. by simplify_eq.
    + rewrite list_lookup_insert_ne in Hmj by done. rewrite list_lookup_insert_ne in Haj by done. eapply keeps_holds; [by eapply Hb|by eapply Hk|by eapply ok_holds].
  - intros j mj Hmj. destruct (decide (j = i)) as [->|Hne].
    + rewrite list_lookup_insert_eq in Hmj by done. simplify_eq. rewrite Es. by eapply Hb.
    + rewrite list_lookup_insert_ne in Hmj by done. by eapply Hb.
  - intros j k mj mk q Hmj Hmk Hjk Hst Ho Hr. pose proof (ok_apart _ _ _ _ Hok) as Hap.
    destruct (decide (j = i)) as [->|Hji]; [rewrite list_lookup_insert_eq in Hmj by done; injection Hmj as <-|rewrite list_lookup_insert_ne in Hmj by done].
    + rewrite list_lookup_insert_ne in Hmk by done. pose proof Ho as (_ & n & Hn & Hseq). pose proof (proj1 (Hb _ _ Hm)) as H1.
      destruct (keeps_reach h h' mk q n) as [Hr' Hn']; [by eapply Hk|done|lia|done|].
      destruct (changes_owned h h' m m' q) as [Hnone|Ho']; [done..|congruence|]. eapply (Hap i k m mk); eauto.
    + pose proof (proj1 (Hb _ _ Hmj)) as H1. destruct (keeps_owned h h' mj q) as [Ho' Hq]; [done|by eapply Hk|done|].
      pose proof Ho as (_ & n & Hn & Hseq). destruct (decide (k = i)) as [->|Hki].
      * rewrite list_lookup_insert_eq in Hmk by done. injection Hmk as <-.
        destruct (Hc q n Hr Hn) as [?|[[? _]|(Hr' & _)]]; [lia|congruence|]. eapply (Hap j i mj m); eauto.
      * rewrite list_lookup_insert_ne in Hmk by done. destruct (keeps_reach h h' mk q n) as [Hr' Hn']; [by eapply Hk|done|lia|done|].
        eapply (Hap j k mj mk); eauto.
  - intros j aj k it Haj. destruct (decide (j = i)) as [->|Hne].
    + rewrite list_lookup_insert_eq in Haj by done. injection Haj as <-. apply Hu.
    + rewrite list_lookup_insert_ne in Haj by done. by eapply (ok_used _ _ _ _ Hok).
Qed.
(** One map added; what it shares with others does not change any more. *)
Lemma sys_ok_add h' m' a' B' :
  B <= B' -> 1 <= sm_seq m' <= B' -> holds h' m' a' ->
  (forall j mj, sys_maps sys !! j = Some mj -> keeps h h' mj) ->
  (forall q n', reaches h' (sm_root m') q -> h' !! q = Some n' ->
     node_seq n' = 0 \/ h !! q = None \/
     (exists i m, sys_maps sys !! i = Some m /\ sm_state m <> St_Modifying /\ reaches h (sm_root m) q /\ node_seq n' < sm_seq m')) ->
  (forall k it, a_items a' !! k = Some it -> it ∈ U) ->
  sys_ok U B' (mkSys h' (sys_maps sys ++ [m'])) (maps ++ [a']).
Proof.
  intros HB Hm' Hh Hk Hc Hu. pose proof (ok_bound _ _ _ _ Hok) as Hb. split; cbn [sys_heap sys_maps].
  - apply Forall2_app; [|constructor; [done|by constructor]]. apply Forall2_same_length_lookup.
    split; [apply (Forall2_length _ _ _ (ok_maps _ _ _ _ Hok))|]. intros j mj aj Hmj Haj.
    eapply keeps_holds; [by eapply Hb|by eapply Hk|by eapply ok_holds].
  - intros j mj [Hmj|[_ Hmj]]%lookup_app_Some; [specialize (Hb _ _ Hmj); lia|].
    apply list_lookup_singleton_Some in Hmj as [_ <-]. done.
  - intros j k mj mk q Hmj Hmk Hjk Hst Ho Hr. pose proof (ok_apart _ _ _ _ Hok) as Hap. pose proof Ho as (Hrj & n & Hn & Hseq).
    apply lookup_app_Some in Hmj as [Hmj|[Hj Hmj]].
    + pose proof (proj1 (Hb _ _ Hmj)) as H1. destruct (keeps_owned h h' mj q) as [Ho' Hq]; [done|by eapply Hk|done|].
      apply lookup_app_Some in Hmk as [Hmk|[_ Hmk]].
      * destruct (keeps_reach h h' mk q n) as [Hr' _]; [by eapply Hk|done|lia|done|]. eapply (Hap j k mj mk); eauto.
      * apply list_lookup_singleton_Some in Hmk as [_ <-]. destruct (Hc q n Hr Hn) as [?|[?|(i & m & Hm & Hsm & Hri & _)]]; [lia|congruence|].
        destruct (decide (i = j)) as [->|Hij]; [congruence|]. by eapply (Hap j i mj m).
    + apply list_lookup_singleton_Some in Hmj as [Ej <-]. apply lookup_app_Some in Hmk as [Hmk|[Hk' Hmk]].
      * destruct (keeps_reach h h' mk q n) as [Hr' Hn']; [by eapply Hk|done|lia|done|].
        destruct (Hc q n Hrj Hn) as [?|[?|(i & m & _ & _ & _ & Hlt)]]; [lia|congruence|lia].
      * apply list_lookup_singleton_Some in Hmk as [Ek _]. lia.
  - intros j aj k it [Haj|[_ Haj]]%lookup_app_Some; [by eapply (ok_used _ _ _ _ Hok)|].
    apply list_lookup_singleton_Some in Haj as [_ <-]. apply Hu.
Qed.

(** ** Each operation *)

(** A change of map [i] by its own nodes. *)
Lemma keeps_below h' i m j mj M' r' aj :
  sys_maps sys !! i = Some m -> sm_state m = St_Modifying -> sys_maps sys !! j = Some mj -> j <> i -> holds h mj aj ->
  below sha512Half ty h h' (sm_seq m) (Some (sm_root m)) r' 0 M' -> keeps h h' mj.
Proof.
  intros Hm Hst Hmj Hne Hh Hbl. assert (Hf : forall q, reaches h (sm_root mj) q -> h' !! q = h !! q).
  { intros q Hq. destruct (reaches_Some _ _ _ _ _ _ _ (ho_at _ _ _ Hh) Hq) as [n Hn].
    destruct (bl_ext _ _ _ _ _ _ _ _ _ Hbl q n Hn) as (n' & -> & [->|(Hseq & _ & c & [= <-] & Hrq)]); [done|].
    exfalso. eapply (ok_apart _ _ _ _ Hok i j m mj q); [done..| |done]. split; [done|by exists n]. }
  split; [intros M _ HM; by eapply node_at_frame|]. intros q n' Hq Hn'. right.
  assert (Hq' : reaches h (sm_root mj) q) by (by eapply reaches_frame). split; [done|]. by rewrite <-Hf.
Qed.

Lemma changes_below h' m M' r' :
  below sha512Half ty h h' (sm_seq m) (Some (sm_root m)) (Some (sm_root r')) 0 M' -> changes h h' m r'.
Proof.
  intros [H1 H2 [_ H3]] q n' Hq Hn'. destruct (H3 q Hq) as [Hnone|(c & [= <-] & Hr)].
  - right. left. split; [done|by eapply H2].
  - right. destruct (h !! q) as [n|] eqn:En; [|left; split; [done|by eapply H2]]. right. split; [done|]. exists n. split; [done|].
    destruct (H1 q n En) as (n2 & Hn2 & Hor). assert (n2 = n') as -> by congruence. destruct Hor as [->|(E1 & E2 & _)]; [by left|by right].
Qed.

Lemma bound_below h' m m' a M' :
  sm_seq m' = sm_seq m -> 1 <= sm_seq m -> holds h m a -> changes h h' m m' ->
  node_at h' 0 (sm_root m') M' -> good 0 M' -> sm_state m' = sm_state m -> holds h' m' (mkAMap M' (a_mutable a)).
Proof.
  intros Es Hs [H1 H2 H3 H4] Hc Hat Hg Est. split; cbn; [done|done|congruence|]. intros q n' Hr Hn'. rewrite Es.
  destruct (Hc q n' Hr Hn') as [->|[[_ ->]|(Hr' & n & Hn & [->|[_ ->]])]]; [lia|lia|by eapply H4|lia].
Qed.

Lemma good_upd k v (M : Items) : good 0 M -> (forall it, v = Some it -> it_key it = k /\ 0 <= k < 2 ^ 256) -> good 0 (upd k v M).
Proof.
  intros [G1 G2] Hv. assert (Hkey : forall k' it, upd k v M !! k' = Some it -> it_key it = k' /\ 0 <= k' < 2 ^ 256).
  { intros k' it. rewrite lookup_upd. destruct (decide (k' = k)) as [->|]; [by intros ?%Hv|apply G1]. }
  split; [done|]. intros k1 k2 it1 it2 E1%Hkey E2%Hkey. rewrite !pre_0 by tauto. done.
Qed.

Lemma call_step {A} i m a (f : MapState -> res (A * MapState)) out b st' M' :
  sys_maps sys !! i = Some m -> maps !! i = Some a -> a_mutable a = true ->
  f (mkMS h m) = Ok (b, st') -> map_step sha512Half ty (mkMS h m) st' M' -> good 0 M' -> (forall k it, M' !! k = Some it -> it ∈ U) ->
  exists sys', call i sys out f = Ok (out b, sys') /\ sys_ok U B sys' (<[i := mkAMap M' (a_mutable a)]> maps).
Proof.
  intros Hm Ha Hmut Ef [Hbl Es Est] Hg Hu. pose proof (ok_holds i m a Hm Ha) as Hh. pose proof (ho_state _ _ _ Hh) as Hst. rewrite Hmut in Hst.
  unfold call, with_map. rewrite Hm, Ef. cbn [mbind res_bind]. eexists. split; [done|].
  cbn [ms_heap map_seq map_root ms_map] in Hbl, Es, Est. pose proof (changes_below _ _ _ _ Hbl) as Hc. pose proof Hbl as [_ _ [Hat _]].
  eapply sys_ok_change; [done|done|done|by rewrite Est| | |done|done].
  - eapply bound_below; [done|by eapply (ok_bound _ _ _ _ Hok)|done..].
  - intros j mj Hmj Hne. destruct (Forall2_lookup_l _ _ _ _ _ (ok_maps _ _ _ _ Hok) Hmj) as (aj & _ & Hj).
    eapply (keeps_below _ i m j mj); [done|done|done|done|exact Hj|exact Hbl].
Qed.

(** *** Hashing *)

Lemma keeps_unshared m0 st' M j mj : unshared sha512Half ty (mkMS h m0) st' M -> sys_maps sys !! j = Some mj -> keeps h (ms_heap st') mj.
Proof.
  intros Hun Hmj. destruct (Forall2_lookup_l _ _ _ _ _ (ok_maps _ _ _ _ Hok) Hmj) as (aj & _ & Hj). split.
  - intros M' Hg Hat. by apply (un_mono _ _ _ _ _ Hun); [lia|..].
  - intros q n' Hq Hn'. destruct (h !! q) as [n|] eqn:En; [|left; by eapply (un_fresh _ _ _ _ _ Hun)].
    destruct (un_ext _ _ _ _ _ Hun q n En) as (n2 & Hn2 & Hor). assert (n2 = n') as -> by congruence.
    destruct Hor as [->|(_ & Hz & _)]; [right|by left]. split; [|done].
    apply (un_rmono _ _ _ _ _ Hun); [|done|by eexists]. exists 0%nat, (a_items aj). split_and!; [lia|apply (ho_good _ _ _ Hj)|apply (ho_at _ _ _ Hj)].
Qed.

Lemma unshared_zero st st' M q n :
  unshared sha512Half ty st st' M -> reaches (ms_heap st') (sm_root (ms_map st')) q -> ms_heap st' !! q = Some n -> node_seq n = 0.
Proof.
  intros Hun Hr Hn. destruct (shareable_reach _ _ _ _ _ _ _ (un_root _ _ _ _ _ Hun) (un_clean _ _ _ _ _ Hun) Hr) as (n' & Hn' & Hz). congruence.
Qed.

(** The map an unshared map becomes. *)
Lemma holds_unshared m0 st' M (mut : bool) : 1 <= sm_seq m0 -> sm_state m0 = (if mut then St_Modifying else St_Immutable) -> good 0 M ->
  unshared sha512Half ty (mkMS h m0) st' M -> holds (ms_heap st') (ms_map st') (mkAMap M mut).
Proof.
  intros Hs Hst Hg Hun. pose proof (un_map _ _ _ _ _ Hun) as Em. cbn [ms_map] in Em. split; cbn [a_items a_mutable].
  - apply (un_root _ _ _ _ _ Hun).
  - done.
  - by rewrite Em.
  - intros q n Hr Hn. rewrite (unshared_zero _ _ _ _ _ Hun Hr Hn), Em. cbn. lia.
Qed.

Lemma hash_step i m a : sys_maps sys !! i = Some m -> maps !! i = Some a ->
  exists sys', call i sys Out_hash (getHash sha512Half) = Ok (Out_hash (mhash sha512Half ty 0 (a_items a)), sys') /\ sys_ok U B sys' maps.
Proof.
  intros Hm Ha. pose proof (ok_holds i m a Hm Ha) as Hh. pose proof (ok_bound _ _ _ _ Hok _ _ Hm) as Hb.
  destruct (getHash_spec sha512Half ty (mkMS h m) (a_items a)) as (st' & E & Hor); [cbn; unfold map_seq; cbn; lia|apply (ho_at _ _ _ Hh)|apply (ho_good _ _ _ Hh)|].
  unfold call, with_map. rewrite Hm, E. cbn [mbind res_bind]. eexists. split; [done|]. destruct Hor as [Hun|Est].
  - rewrite <-(list_insert_id maps i a Ha). pose proof (un_map _ _ _ _ _ Hun) as Em. cbn [ms_map] in Em. eapply sys_ok_change; [done|done|by rewrite Em|by rewrite Em| | | |].
    + destruct a as [M mut]. eapply holds_unshared; [|apply (ho_state _ _ _ Hh)|apply (ho_good _ _ _ Hh)|exact Hun]. lia.
    + intros j mj Hmj _. by eapply keeps_unshared.
    + intros q n Hr Hn. left. by eapply unshared_zero.
    + intros k it. exact (ok_used _ _ _ _ Hok i a k it Ha).
  - rewrite Est. cbn. rewrite list_insert_id by done. by destruct sys.
Qed.

(** *** Copies *)

Lemma keeps_refl m : keeps h h m.
Proof. split; [done|]. intros q n' Hq Hn. by right. Qed.

Lemma snapShot_step i m a isMutable : B + 1 < 2 ^ 32 -> sys_maps sys !! i = Some m -> maps !! i = Some a ->
  exists st', snapShot sha512Half isMutable (mkMS h m) = Ok st' /\
    sys_ok U (B + 1) (mkSys (ms_heap st') (sys_maps sys ++ [ms_map st'])) (maps ++ [mkAMap (a_items a) isMutable]).
Proof.
  intros HB Hm Ha. pose proof (ok_holds i m a Hm Ha) as Hh. pose proof (ok_bound _ _ _ _ Hok _ _ Hm) as Hb. unfold snapShot.
  cbn [ms_map ms_heap]. rewrite u32_small by lia. set (new := mkMap _ _ _).
  destruct (negb (bool_decide (sm_state m = St_Immutable)) || negb isMutable) eqn:Econd.
  - destruct (walkSubTree_spec sha512Half ty (mkMS h new) (a_items a)) as (k & st' & E & Hun);
      [cbn; unfold map_seq; cbn; lia|apply (ho_at _ _ _ Hh)|apply (ho_good _ _ _ Hh)|]. unfold unshare. rewrite E. cbn [mbind res_bind].
    exists st'. split; [done|]. pose proof (un_map _ _ _ _ _ Hun) as Em. cbn [ms_map] in Em. apply sys_ok_add; [lia|rewrite Em; cbn; lia| | | |].
    + eapply (holds_unshared new); [|done|apply (ho_good _ _ _ Hh)|exact Hun]. cbn. lia.
    + intros j mj Hmj. by eapply keeps_unshared.
    + intros q n Hr Hn. left. by eapply unshared_zero.
    + intros k' it. exact (ok_used _ _ _ _ Hok i a k' it Ha).
  - apply orb_false_iff in Econd as [Ei Emut]. apply negb_false_iff in Ei, Emut. apply bool_decide_eq_true in Ei. subst isMutable.
    exists (mkMS h new). split; [done|]. apply sys_ok_add; cbn [ms_map ms_heap new sm_seq]; [lia|lia| | | |].
    + split; cbn; [apply (ho_at _ _ _ Hh)|apply (ho_good _ _ _ Hh)|done|]. intros q n Hr Hn. pose proof (ho_seq _ _ _ Hh q n Hr Hn). lia.
    + intros j mj _. apply keeps_refl.
    + intros q n Hr Hn. right. right. exists i, m. cbn in Hr. split_and!; [done|by rewrite Ei|done|]. pose proof (ho_seq _ _ _ Hh q n Hr Hn). lia.
    + intros k it. exact (ok_used _ _ _ _ Hok i a k it Ha).
Qed.

Lemma new_step : B + 1 < 2 ^ 32 -> 0 <= B ->
  let st := new_map h in sys_ok U (B + 1) (mkSys (ms_heap st) (sys_maps sys ++ [ms_map st])) (maps ++ [mkAMap ∅ true]).
Proof.
  intros HB HB0 st. subst st. unfold new_map. cbn [ms_heap ms_map]. set (p := fresh (dom h)). pose proof (fresh_None h : h !! p = None) as Hp. clearbody p.
  assert (Hself : forall q, reaches (<[p := N_inner (new_inner 1)]> h) p q -> q = p).
  { intros q [<-|(n & b & c & Hn & Hb & _)]%reaches_inv; [done|]. rewrite lookup_insert_eq in Hn. injection Hn as <-. by apply lookup_replicate in Hb as [? _]. }
  apply sys_ok_add; cbn [sm_seq sm_root]; [lia|lia| | | |done].
  - split; cbn; [apply (new_inner_holds _ _ _ 1), lookup_insert_eq|by split|done|].
    intros q n ->%Hself. rewrite lookup_insert_eq. intros [= <-]. cbn. lia.
  - intros j mj Hmj. destruct (Forall2_lookup_l _ _ _ _ _ (ok_maps _ _ _ _ Hok) Hmj) as (aj & _ & Hj).
    assert (Hf : forall q, reaches h (sm_root mj) q -> <[p := N_inner (new_inner 1)]> h !! q = h !! q).
    { intros q Hq. rewrite lookup_insert_ne; [done|]. intros <-. destruct (reaches_Some _ _ _ _ _ _ _ (ho_at _ _ _ Hj) Hq). congruence. }
    split; [intros M _ HM; by apply node_at_alloc|]. intros q n' Hq Hn'. right.
    assert (Hq' : reaches h (sm_root mj) q) by (by eapply reaches_frame). split; [done|]. by rewrite <-Hf.
  - intros q n ->%Hself _. right. by left.
Qed.

Lemma setImmutable_step i m a : sys_maps sys !! i = Some m -> maps !! i = Some a ->
  sys_ok U B (mkSys h (<[i := setImmutable m]> (sys_maps sys))) (<[i := mkAMap (a_items a) false]> maps).
Proof.
  intros Hm Ha. destruct (ok_holds i m a Hm Ha) as [H1 H2 H3 H4]. eapply sys_ok_change; [done|done|done|done|by split| | |].
  - intros j mj _ _. apply keeps_refl.
  - intros q n' Hr Hn. right. right. split; [done|]. exists n'. split; [done|by left].
  - intros k it. exact (ok_used _ _ _ _ Hok i a k it Ha).
Qed.

Lemma sys_ok_le B' : B <= B' -> sys_ok U B' sys maps.
Proof. intros HB. destruct Hok as [H1 H2 H3 H4]. split; [done| |done..]. intros i m Hm. specialize (H2 i m Hm). lia. Qed.

(** *** One step *)

(** Items that can be told apart by the hashes of their leaves. *)
Definition items_ok (items : list SHAMapItem) : Prop :=
  (forall it, it ∈ items -> 0 <= it_key it < 2 ^ 256) /\
  (forall it it', it ∈ items -> it' ∈ items -> it_key it = it_key it' -> leaf_hash sha512Half ty it = leaf_hash sha512Half ty it' -> it = it').

Definition op_items (op : map_op) : list SHAMapItem :=
  match op with Op_add _ item | Op_update _ item => [item] | _ => [] end.

Lemma upd_used k v (M : Items) : (forall k it, M !! k = Some it -> it ∈ U) -> (forall it, v = Some it -> it ∈ U) -> forall k' it, upd k v M !! k' = Some it -> it ∈ U.
Proof. intros HM Hv k' it. rewrite lookup_upd. destruct (decide (k' = k)); [apply Hv|apply HM]. Qed.

Lemma change_step i f g out' maps' :
  a_change i maps g = Some (out', maps') ->
  (forall m a, sys_maps sys !! i = Some m -> maps !! i = Some a -> holds h m a -> 1 <= sm_seq m ->
     exists b a' st', g a = (b, a') /\ a_mutable a' = a_mutable a /\ f (mkMS h m) = Ok (b, st') /\
       map_step sha512Half ty (mkMS h m) st' (a_items a') /\ good 0 (a_items a') /\ (forall k it, a_items a' !! k = Some it -> it ∈ U)) ->
  exists sys', call i sys Out_bool f = Ok (out', sys') /\ sys_ok U B sys' maps'.
Proof.
  unfold a_change. intros Hg Hf. destruct (maps !! i) as [a|] eqn:Ha; [|done]. cbn in Hg. destruct (a_mutable a) eqn:Hmut; [|done].
  destruct (ok_lookup i a Ha) as (m & Hm & Hh). destruct (Hf m a Hm eq_refl Hh) as (b & a' & st' & Eg & Em & Ef & Hst & Hgood & Hu); [by eapply (ok_bound _ _ _ _ Hok)|].
  rewrite Eg in Hg. injection Hg as <- <-. destruct (call_step i m a f Out_bool b st' (a_items a')) as (sys' & E & Hok'); [done..|].
  exists sys'. split; [done|]. rewrite Hmut in *. rewrite <-Em in Hok'. by destruct a'.
Qed.

Context (Hitems : items_ok U).

Lemma add_step i item out' maps' :
  item ∈ U -> a_step (Op_add i item) maps = Some (out', maps') ->
  exists sys', sys_step (Op_add i item) sys = Ok (out', sys') /\ sys_ok U B sys' maps'.
Proof.
  intros Hin Ha. eapply change_step; [exact Ha|]. intros m a Hm Ea Hh Hs. pose proof (proj1 Hitems item Hin) as Hkey.
  destruct (addGiveItem_spec sha512Half ty (mkMS h m) (a_items a)) with (item := item) (isTransaction := isTransaction) (hasMeta := hasMeta)
    as (st' & E & Hst); [unfold map_seq; cbn; lia|apply (ho_at _ _ _ Hh)|apply (ho_good _ _ _ Hh)|done|done|].
  pose proof (ok_used _ _ _ _ Hok i a) as Hused. pose proof (ho_good _ _ _ Hh) as Hg. destruct (a_items a !! it_key item) as [it|] eqn:Ek.
  - exists false, a, st'. split_and!; try done. intros k it'. by apply Hused.
  - exists true, (put (it_key item) (Some item) a), st'. split_and!; try done.
    + apply good_upd; [done|]. by intros ? [= <-].
    + apply upd_used; [intros k it'; by apply Hused|by intros ? [= <-]].
Qed.

Lemma update_step i item out' maps' :
  item ∈ U -> a_step (Op_update i item) maps = Some (out', maps') ->
  exists sys', sys_step (Op_update i item) sys = Ok (out', sys') /\ sys_ok U B sys' maps'.
Proof.
  intros Hin Ha. eapply change_step; [exact Ha|]. intros m a Hm Ea Hh Hs. pose proof (proj1 Hitems item Hin) as Hkey.
  pose proof (ok_used _ _ _ _ Hok i a) as Hused. pose proof (ho_good _ _ _ Hh) as Hg.
  destruct (updateGiveItem_spec sha512Half ty (mkMS h m) (a_items a)) with (item := item) (isTransaction := isTransaction) (hasMeta := hasMeta)
    as (st' & E & Hst); [unfold map_seq; cbn; lia|apply (ho_at _ _ _ Hh)|done|done| |].
  { intros it Hit Heq. apply (proj2 Hitems); [by eapply Hused|done| |done]. destruct Hg as [Hg _]. by destruct (Hg _ _ Hit). }
  destruct (a_items a !! it_key item) as [it|] eqn:Ek.
  - exists true, (put (it_key item) (Some item) a), st'. split_and!; try done.
    + apply good_upd; [done|]. by intros ? [= <-].
    + apply upd_used; [intros k it'; by apply Hused|by intros ? [= <-]].
  - exists false, a, st'. split_and!; try done. intros k it'. by apply Hused.
Qed.

Lemma del_step i id out' maps' :
  a_step (Op_del i id) maps = Some (out', maps') ->
  exists sys', sys_step (Op_del i id) sys = Ok (out', sys') /\ sys_ok U B sys' maps'.
Proof.
  cbn [a_step sys_step]. intros Ha. eapply change_step; [exact Ha|]. intros m a Hm Ea Hh Hs. pose proof (ok_used _ _ _ _ Hok i a) as Hused.
  destruct (delItem_spec sha512Half ty (mkMS h m) (a_items a)) with (id := id)
    as (st' & E & Hst); [unfold map_seq; cbn; lia|apply (ho_at _ _ _ Hh)|apply (ho_good _ _ _ Hh)|].
  eexists _, (put id None a), st'. split_and!; try done; [by apply good_upd; [apply (ho_good _ _ _ Hh)|]|].
  apply upd_used; [intros k it'; by apply Hused|done].
Qed.

Lemma step_ok op out' maps' :
  0 <= B -> B + 1 < 2 ^ 32 -> (forall it, it ∈ op_items op -> it ∈ U) -> a_step op maps = Some (out', maps') ->
  exists sys', sys_step op sys = Ok (out', sys') /\ sys_ok U (B + 1) sys' maps'.
Proof.
  intros HB0 HB Hit Ha.
  assert (Hle : forall sys' maps', sys_ok U B sys' maps' -> sys_ok U (B + 1) sys' maps').
  { intros s' ms [H1 H2 H3 H4]. split; [done| |done..]. intros i m Hm. specialize (H2 i m Hm). lia. }
  destruct op as [|i item|i item|i id|i id|i id|i|i isMutable|i].
  2: { destruct (add_step i item out' maps') as (sys' & E & ?); [apply Hit; by left|done|]. exists sys'. eauto. }
  2: { destruct (update_step i item out' maps') as (sys' & E & ?); [apply Hit; by left|done|]. exists sys'. eauto. }
  2: { destruct (del_step i id out' maps' Ha) as (sys' & E & ?). exists sys'. eauto. }
  1: { injection Ha as <- <-. eexists. split; [done|]. by apply new_step. }
  all: cbn [a_step] in Ha; destruct (maps !! i) as [a|] eqn:Ea; [|done]; cbn [mbind option_bind] in Ha; injection Ha as <- <-;
    destruct (ok_lookup i a Ea) as (m & Hm & Hh); pose proof (ok_bound _ _ _ _ Hok _ _ Hm); cbn [sys_step].
  - exists sys. split; [|by apply Hle]. unfold query, with_map. rewrite Hm.
    rewrite (hasItem_spec sha512Half ty _ (a_items a)); [done|apply (ho_at _ _ _ Hh)|apply (ho_good _ _ _ Hh)].
  - exists sys. split; [|by apply Hle]. unfold query, with_map. rewrite Hm.
    rewrite (peekItem_spec sha512Half ty _ (a_items a)); [done|apply (ho_at _ _ _ Hh)|apply (ho_good _ _ _ Hh)].
  - destruct (hash_step i m a Hm Ea) as (sys' & E & ?). exists sys'. eauto.
  - destruct (snapShot_step i m a isMutable HB Hm Ea) as (st' & E & ?). unfold with_map. rewrite Hm, E. cbn. eexists. split; [done|done].
  - unfold with_map. rewrite Hm. eexists. split; [done|]. by apply Hle, setImmutable_step.
Qed.
End Step.

(** ** Runs *)

Lemma run_ok U ops : items_ok U -> (forall it, it ∈ ops ≫= op_items -> it ∈ U) ->
  forall B sys maps outs maps', sys_ok U B sys maps -> 0 <= B -> B + Z.of_nat (length ops) < 2 ^ 32 -> a_run ops maps = Some (outs, maps') ->
  exists sys', sys_run ops sys = Ok (outs, sys') /\ sys_ok U (B + Z.of_nat (length ops)) sys' maps'.
Proof.
  intros Hi. induction ops as [|op ops IH]; intros Hops B sys maps outs maps' Hok HB0 HB Hrun; cbn [a_run sys_run length] in *.
  - injection Hrun as <- <-. exists sys. split; [done|]. by rewrite Z.add_0_r.
  - destruct (a_step op maps) as [[o maps1]|] eqn:E1; [|done]. cbn in Hrun. destruct (a_run ops maps1) as [[os maps2]|] eqn:E2; [|done].
    injection Hrun as <- <-. destruct (step_ok U B sys maps Hok Hi op o maps1) as (sys1 & E & Hok1); [done|lia| |done|].
    { intros it Hit. apply Hops. cbn. apply elem_of_app. by left. }
    destruct (IH) with (B := B + 1) (sys := sys1) (maps := maps1) (outs := os) (maps' := maps2) as (sys2 & E' & Hok2); [|done|lia|lia|done|].
    { intros it Hit. apply Hops. cbn. apply elem_of_app. by right. }
    rewrite E. cbn [mbind res_bind]. rewrite E'. exists sys2. split; [done|].
    by replace (B + Z.of_nat (S (length ops))) with (B + 1 + Z.of_nat (length ops)) by lia.
Qed.

Lemma sys_ok_empty U : sys_ok U 0 empty_system [].
Proof. split; [constructor|done|done|done]. Qed.

Definition items_okb (items : list SHAMapItem) : bool :=
  forallb (fun it => (0 <=? it_key it) && (it_key it <? 2 ^ 256)) items &&
  forallb (fun it => forallb (fun it' =>
    negb (it_key it =? it_key it') || negb (leaf_hash sha512Half ty it =? leaf_hash sha512Half ty it') || bool_decide (it = it')) items) items.

Lemma items_okb_ok items : items_okb items = true -> items_ok items.
Proof.
  unfold items_okb. rewrite andb_true_iff, !forallb_forall. intros [H1 H2]. split.
  - intros it Hit%list_elem_of_In. specialize (H1 it Hit). apply andb_true_iff in H1 as [H0 H1]. apply Z.leb_le in H0. apply Z.ltb_lt in H1. done.
  - intros it it' Hit%list_elem_of_In Hit'%list_elem_of_In Hk Hh. specialize (H2 it Hit). rewrite forallb_forall in H2. specialize (H2 it' Hit').
    rewrite Hk, Hh, !Z.eqb_refl in H2. by apply bool_decide_eq_true in H2.
Qed.

(** C9. Copy-on-write sharing cannot be observed. Whatever sequence of
    constructions, insertions, updates, deletions, look-ups, hashes, snapshots
    (mutable or not) and freezings is run on any number of maps over one heap, if
    changes only go to maps that may change, then no operation throws and every
    output is that of independent finite maps, the hash being a function of the
    contents alone. Updates need that no two items with one key that are in use
    have equal leaf hashes. *)
Theorem sharing_unobservable ops outs maps :
  items_ok (ops ≫= op_items) -> Z.of_nat (length ops) < 2 ^ 32 -> a_run ops [] = Some (outs, maps) ->
  exists sys, sys_run ops empty_system = Ok (outs, sys).
Proof.
  intros Hi Hlen Hrun.
  destruct (run_ok (ops ≫= op_items) ops Hi (fun it H => H) 0 empty_system [] outs maps (sys_ok_empty _)) as (sys & E & _); [lia|lia|done|].
  by exists sys.
Qed.
End System.

(** A stand-in hash for concrete runs. *)
Definition toy_hash (l : list Z) : Z := foldl (fun acc x => (acc * 257 + x + 1) mod 2 ^ 64) 1 l.

(** Keys that part at the second nibble. *)
Definition demo_key (i : Z) : Z := 5 * 2 ^ 252 + i * 2 ^ 248.

Definition demo_ops : list map_op :=
  [Op_new; Op_add 0 (mkItem (demo_key 5) [1]); Op_add 0 (mkItem (demo_key 6) [2]); Op_hash 0; Op_snapShot 0 true; Op_update 1 (mkItem (demo_key 6) [3]); Op_del 0 (demo_key 5);
   Op_hash 1; Op_hash 0; Op_peek 0 (demo_key 6); Op_peek 1 (demo_key 6); Op_setImmutable 1; Op_snapShot 1 true; Op_del 2 (demo_key 5); Op_has 1 (demo_key 5)].

Definition demo_outs : list map_out :=
  match a_run toy_hash false false demo_ops [] with Some (outs, _) => outs | None => [] end.

Definition demo_maps : list AMap :=
  match a_run toy_hash false false demo_ops [] with Some (_, maps) => maps | None => [] end.

Lemma sharing_unobservable_witness :
  drop 9 demo_outs = [Out_item (Some (mkItem (demo_key 6) [2])); Out_item (Some (mkItem (demo_key 6) [3])); Out_none; Out_none; Out_bool true; Out_bool true] /\
  exists sys, sys_run toy_hash false false demo_ops empty_system = Ok (demo_outs, sys).
Proof.
  split; [vm_compute; reflexivity|]. apply (sharing_unobservable toy_hash false false demo_ops demo_outs demo_maps).
  - apply items_okb_ok. vm_compute. reflexivity.
  - vm_compute. reflexivity.
  - vm_compute. reflexivity.
Defined.
